(* ===== verification/_CoqProject ===== *)
-Q . S2P
Prelude.v
UbikVote.v
UbikQuorum.v
UbikPhys.v
UbikLog.v
UbikDisk.v
UbikCommit.v
UbikCrash.v
AfsLock.v
UbikLock.v
ByteMem.v
Vldb.v
VldbChain.v
VldbDb.v
Fcrypt.v
Acl.v
Dir.v
DirRep.v
DirAlloc.v
DirOps.v
DirWalk.v
DirBuf.v
DirSalv.v
DirSalvOk.v
DirSalvCheck.v
DirCache.v
DirCacheOk.v
Xdr.v
XdrFormat.v
XdrTypes.v
CbTab.v
Callback.v
CbRing.v
CbOk.v
CbFile.v
CbOps.v
CbAdd.v
CbInv.v
CbSafe.v
CbBreak.v
CbHandlers.v
CbLater.v
CbNotify.v
CbServer.v
CbPromises.v
Pt.v
PtBlock.v
PtOk.v
PtList.v
PtStep.v
PtFrame.v
PtNames.v
PtAdd.v
PtRemove.v
PtRead.v
PtSpec.v
PtServe.v
PtEntry.v
PtEnter.v
PtOwn.v
PtNewSpec.v
PtNew.v
PtCreate.v
PtMake.v
PtRegister.v
PtMore.v
PtInit.v
PtGroups.v
PtFound.v
