(* ===== verification/Prelude.v ===== *)
(** * OpenAFS: a verification development

    OpenAFS is a distributed file system: file servers export volumes, a replicated
    database (ubik) holds the volume location, protection and backup databases,
    clients talk to all of them over the Rx protocol.  This development models parts
    of the C sources under src/src and proves what makes them correct.  Integers are
    [Z] values kept at their C width ([u8], [u16], [u32], [s32] below write the
    wrap-around), stateful code is explicit state passing or an error-state monad,
    concurrent and distributed code is a step relation.

    ** The parts and the files that model them

    - Ubik, elections: ubik/vote.c and ubik/beacon.c.  [UbikVote] has the vote and
      beacon handlers of one server ([SVOTE_Beacon], [ubeacon_Interact] and its
      phases, [ubeacon_InitServerListByInfo], [ubeacon_AmSyncSite]); [UbikQuorum]
      runs a cell of them as a transition system in which beacons are sent, lost,
      delayed and answered and servers restart, and shows that there is at most one
      sync site.
    - Ubik, stable storage: ubik/phys.c ([UbikPhys], files with explicit unsynced
      writes), ubik/disk.c: log ([UbikLog], with the replay of ubik/recovery.c),
      buffer cache and transactions ([UbikDisk]).  [UbikCommit] shows that a
      transaction commits or aborts as a whole and that readers see committed data;
      [UbikCrash] that a crash anywhere in a transaction leaves the old or the new
      database.
    - Locks: lwp/lock.c and lock.h in [AfsLock], threads interleaved as a transition
      system; ubik/lock.c, which uses them, in [UbikLock].
    - Volume location database: vlserver/vlutils.c and the create, delete and update
      paths of vlprocs.c.  [Vldb] has the operations on the bytes of the database,
      [VldbChain] the invariant of the hash chains, [VldbDb] the free list, whole
      operations and their theorems.
    - Directories: dir/dir.c.  [Dir] has all operations on the bytes of a directory;
      [DirRep] the invariant and the look-up, [DirAlloc] the allocation of blobs,
      [DirOps] creation and deletion, [DirWalk] the remaining operations, the
      theorems and their examples, [DirBuf] the accounting of buffer references.
      Its buffers, dir/buffer.c with viced/physio.c below them, are in [DirCache];
      [DirCacheOk] shows that they hold the contents of directories and that the
      pages [Dir] works on are theirs.  The salvager, dir/salvage.c, is in [DirSalv];
      [DirSalvOk] shows that it copies directories, and where it fails, [DirSalvCheck]
      that its check accepts good ones.
    - Call-backs of the file server: viced/callback.c and callback.h, with the parts of
      viced/host.c and host.h they call.  [CbTab] has the two arrays with their hash
      chains, file chains, circular lists and overlaid free lists, and the operations on
      single entries; [Callback] the handlers.  [CbRing] is about circular lists, [CbOk]
      the queues and host lists, [CbFile] files and chains, [CbOps] the whole invariant
      and deletion, [CbAdd] adding and extending promises, [CbInv] other threads and
      computations that keep the invariant, [CbSafe], [CbHandlers] and [CbLater] that
      every handler is one, [CbBreak] and [CbNotify] what breaking does, [CbServer] the
      server from its start on, [CbPromises] the theorems.
    - Protection database: ptserver/utils.c, ptutils.c and the handlers of ptprocs.c for
      members of groups, new entries, fields and limits, without supergroups.  [Pt] has
      the operations on the bytes of the database and the requests about members;
      [PtBlock] the blocks on disk and the rules for computations that ubik may fail in,
      [PtOk] the invariant and the look-up of ids, [PtList] the slots of membership
      lists, [PtStep] and [PtFrame] what changes when one list does, [PtNames] the table
      of names and the owner chains beside it, [PtAdd] and [PtRemove] adding and removing
      a member, [PtRead] asking and listing, [PtSpec] the abstract database and the rules
      of access, [PtServe] the handlers for members.  [PtEntry] has the operations that
      make and change entries; [PtEnter] enters a block in the hash tables, [PtOwn] in
      the chain of its owner, [PtNewSpec] is the abstract creation, [PtNew] the look-ups
      before it, [PtCreate] and [PtMake] its steps, [PtRegister] the whole of it with its
      handlers, [PtMore] fields and limits, [PtInit] a new database.  [PtGroups] has the
      theorems about all requests, [PtFound] those about names and ids.
    - XDR, the wire format of all RPCs: rx/xdr.c, xdr_array.c, xdr_arrayn.c,
      xdr_int32.c, xdr_int64.c, xdr_update.c, xdr_refernce.c, xdr_afsuuid.c and the
      streams xdr_mem.c and xdr_len.c.  [Xdr] has the procedures, written against the
      class [XdrStream] (struct xdr_ops) with the two streams as instances;
      [XdrFormat] describes types by their wire format and shows that each procedure
      obeys its laws, [XdrTypes] closes this under the constructors of types.
    - rxkad: the cipher of rxkad/fcrypt.c with its S-boxes in [Fcrypt].
    - Access control lists: libacl/aclprocs.c and netprocs.c in [Acl].
    - Shared: this file (integers, byte order as the class [ByteOrder] with both
      instances, tactics), [ByteMem] (bytes of a file, linked lists in them).

    ** What the theorems show

    - C1, C2, C4: safety of ubik elections, and that the steps of the transition system
      are what the beacon loop does.
    - C3, C22, C23, C27, C33: the protection database.  Requests on members, new users
      and groups, fields and limits are served as an abstract database does (C3); a new
      entry is found by its name and by its id, and nothing else changes its name or id
      (C22); whatever fails in ubik, a request about members is refused as a whole (C33);
      access is decided by the rules (C27); the CPS is exact (C23).  Beside them, a
      failure to read can make two entries of one name.
    - C8 to C11: commit, abort, isolation of readers, atomicity under crashes; beside
      them two defects of the replay on torn or corrupt logs.
    - C12 and C13: mutual exclusion and wake-ups of the locks; beside them two defects.
    - C6, C7, C14, C15, C28: the call-back tables.  No sequence of requests makes the file
      server panic or leaves the tables out of order, whatever other threads do while
      the lock is given up (C7); a promise outlives what the client was told (C14);
      exactly the promises that have run out are cleaned up (C15); a change reaches every
      other client (C28); breaking a volume later puts off exactly its promises (C6).
    - C16 to C19: the volume location database is a map: creation, removal and look-up
      on every path, with termination of the chain walks.
    - C21: the cipher decrypts what it encrypts; beside it, crypting in segments is
      crypting at once, and the key schedule is a rotation.
    - C24 to C26: rights are computed as specified, the text form of an access list is
      read back, and fits its buffer; beside them the network form, and one defect.
    - C29 to C32, C35, C36: a directory is a finite map from names to fids: creation, deletion,
      look-up, enumeration, with an I/O error possible at every page access; every
      directory the code can make is well formed; buffer references are balanced; and
      the defects on unreadable and circular directories.  C20 and C37: the buffer
      package is a map from pages to contents, and the page accesses of dir.c are
      simulated by it, so that C29 to C36 hold above it.  C5 and C34: the salvager's check
      accepts what the package writes, and its copy has the same names and fids.
    - C38 to C40: every XDR type, however nested, is written in its wire format, read
      back, measured by the length stream, and decoded safely from any bytes.

    ** Bounds and fuel

    Walks of hash chains take fuel; the theorems about them hold for every fuel of at
    least the number of entries, so the walks end.  The loops of dir.c have their own
    limit ([chain_limit], 65472), which is the fuel there; chains of well-formed
    directories are shorter ([chain_limit_ok]).  Log replay needs one unit of fuel per
    record.  The salvager's copy takes fuel of more than [chain_limit] for a well-formed
    directory and ends for no fuel on one damaged directory.  Names of directory entries
    are of at most 1999 bytes (63 blobs of a page); the protocol limits them to 255.  Loops
    of the call-back code over chains and lists are bounded by the size of the tables,
    which is enough by the invariant; making room and breaking with other threads around
    have no bound of their own and take fuel: C7 holds for any, C28 for more than the
    number of entries.  Walks of the protection database take fuel; its theorems hold for
    fuel of at least the number of blocks of the file at the end.

    ** Interfaces

    [ByteOrder] stands for [htonl] and friends, [Acl.QSort] for the C library's
    sorting routine, [XdrStream] for the operations of an XDR stream: theorems are
    proved against them and each has instances.  The allocator of the XDR decoders is
    a parameter that may fail; only reading back what was sent assumes it does not.  The
    directory code sees the buffer package (dir/buffer.c) through [DRead], [DNew] and
    [DRelease] of [Dir]: pages that can be read or not, and a count of references;
    C37 discharges this interface.  The call-back handlers see other threads through
    [others_ok] of [CbInv]: they keep the tables in order, leave entries that a handler
    holds alone, put new hosts in front of the list only, and do not reuse the index of a
    host; threads that serve requests themselves satisfy it ([threads_ok]).

    ** Not modelled, and why

    Rx, the cache manager, the volume package and the backup and administration tools
    are not modelled: Rx and the cache manager are built around sockets, timers and host
    kernels, the volume package around host file systems.  Of ubik, the RPC layer (ubik.c,
    remote.c) and the transfer of databases between sites are missing.  Of the call-back
    package, saving and restoring the tables on disk, the print routines and the
    connections to alternate addresses are missing; an answer stands for whether a host
    has one.  Of the protection database, deleting and renaming entries or giving
    them to other owners, listing what a user owns, the translation of lists of names and
    the CPS of hosts are missing. *)

From stdpp Require Import prelude list gmap.
From Stdlib Require Import ZArith Lia ZifyBool.

#[global] Open Scope Z_scope.

Declare Scope afs_scope.
Delimit Scope afs_scope with afs.

(** ** Machine integers

    C integers are [Z] values kept in the range of their type; the
    conversions below are the wrap-around of the corresponding C type. *)

Definition u8 (z : Z) : Z := z mod 2 ^ 8.
Definition u16 (z : Z) : Z := z mod 2 ^ 16.
Definition u32 (z : Z) : Z := z mod 2 ^ 32.
Definition s32 (z : Z) : Z := (z + 2 ^ 31) mod 2 ^ 32 - 2 ^ 31.

Definition is_u8 (z : Z) : Prop := 0 <= z < 2 ^ 8.
Definition is_u16 (z : Z) : Prop := 0 <= z < 2 ^ 16.
Definition is_u32 (z : Z) : Prop := 0 <= z < 2 ^ 32.
Definition is_s32 (z : Z) : Prop := - 2 ^ 31 <= z < 2 ^ 31.

(** [lia] after unfolding the width constants and eliminating [mod]/[/]. *)
Ltac pow_norm :=
  change (2 ^ 8) with 256 in *; change (2 ^ 16) with 65536 in *;
  change (2 ^ 24) with 16777216 in *;
  change (2 ^ 31) with 2147483648 in *; change (2 ^ 32) with 4294967296 in *.
Ltac mlia :=
  unfold u8, u16, u32, s32, is_u8, is_u16, is_u32, is_s32 in *; pow_norm;
  Z.div_mod_to_equations; lia.

(** Case split on the first boolean test of a goal or hypothesis, keeping the
    equation for [lia]. *)
Ltac btest :=
  match goal with
  | |- context [if ?b then _ else _] => destruct b eqn:?
  | H : context [if ?b then _ else _] |- _ => destruct b eqn:?
  end.

(** Equality of byte lists, element by element. *)
Ltac cons_eq :=
  repeat (apply (f_equal2 (@cons _)); [solve [mlia]|]); try reflexivity.

(** Split boolean conjunctions, disjunctions and negations in hypotheses. *)
Ltac bool_hyps :=
  repeat match goal with
  | H : (_ && _)%bool = true |- _ => apply andb_true_iff in H as [? ?]
  | H : (_ || _)%bool = false |- _ => apply orb_false_iff in H as [? ?]
  | H : negb _ = true |- _ => rewrite negb_true_iff in H
  | H : negb _ = false |- _ => rewrite negb_false_iff in H
  end.

Create HintDb width.

Lemma u8_range z : is_u8 (u8 z).
Proof. mlia. Qed.
Lemma u16_range z : is_u16 (u16 z).
Proof. mlia. Qed.
Lemma u32_range z : is_u32 (u32 z).
Proof. mlia. Qed.
Lemma s32_range z : is_s32 (s32 z).
Proof. mlia. Qed.
Lemma u8_small z : is_u8 z -> u8 z = z.
Proof. mlia. Qed.
Lemma u16_small z : is_u16 z -> u16 z = z.
Proof. mlia. Qed.
Lemma u32_small z : is_u32 z -> u32 z = z.
Proof. mlia. Qed.
Lemma s32_small z : is_s32 z -> s32 z = z.
Proof. mlia. Qed.
Lemma s32_u32 z : s32 (u32 z) = s32 z.
Proof. mlia. Qed.
Lemma s32_add a b : s32 (s32 a + b) = s32 (a + b).
Proof. mlia. Qed.
Lemma u32_s32 z : u32 (s32 z) = u32 z.
Proof. mlia. Qed.
Lemma u32_of_s32_inj a b : is_s32 a -> is_s32 b -> u32 a = u32 b -> a = b.
Proof. mlia. Qed.

#[export] Hint Resolve u8_range u16_range u32_range s32_range : width.

(** ** Big-endian (network order) encodings of 16- and 32-bit words *)

Definition be16 (z : Z) : list Z := [u8 (z / 2 ^ 8); u8 z].
Definition be32 (z : Z) : list Z :=
  [u8 (z / 2 ^ 24); u8 (z / 2 ^ 16); u8 (z / 2 ^ 8); u8 z].

Definition un_be16 (l : list Z) : option Z :=
  match l with
  | [a; b] => Some (a * 2 ^ 8 + b)
  | _ => None
  end.
Definition un_be32 (l : list Z) : option Z :=
  match l with
  | [a; b; c; d] => Some (a * 2 ^ 24 + b * 2 ^ 16 + c * 2 ^ 8 + d)
  | _ => None
  end.

Lemma un_be16_be16 z : un_be16 (be16 z) = Some (u16 z).
Proof. unfold un_be16, be16. f_equal. mlia. Qed.

Lemma un_be32_be32 z : un_be32 (be32 z) = Some (u32 z).
Proof. unfold un_be32, be32. f_equal. mlia. Qed.

Lemma be32_un_be32 l z :
  Forall is_u8 l -> un_be32 l = Some z -> be32 z = l /\ is_u32 z.
Proof.
  intros Hl Hz.
  destruct l as [|a [|b [|c [|d [|? ?]]]]]; try discriminate.
  injection Hz as <-.
  repeat match goal with H : Forall _ (_ :: _) |- _ => inversion_clear H end.
  unfold be32. split; [|mlia].
  cons_eq.
Qed.

Lemma be32_bytes z : Forall is_u8 (be32 z).
Proof. unfold be32. repeat constructor; mlia. Qed.

Lemma be32_length z : length (be32 z) = 4%nat.
Proof. reflexivity. Qed.

Lemma be32_u32 z : be32 (u32 z) = be32 z.
Proof. unfold be32. cons_eq. Qed.

#[export] Hint Resolve be32_bytes : width.

(** ** Host byte order

    [htonl]/[ntohl] and their 16-bit versions depend on the machine: they are
    the interface [ByteOrder], with an instance per byte order.  Theorems are
    proved against the interface. *)

Class ByteOrder := {
  ntohl : Z -> Z;
  ntohl_0 : ntohl 0 = 0;
  ntohl_u32 : forall z, is_u32 (ntohl z);
  ntohl_invol : forall z, is_u32 z -> ntohl (ntohl z) = z
}.

Definition htonl `{ByteOrder} (z : Z) : Z := ntohl z.

Definition bswap32 (z : Z) : Z :=
  u8 z * 2 ^ 24 + u8 (z / 2 ^ 8) * 2 ^ 16 + u8 (z / 2 ^ 16) * 2 ^ 8
  + u8 (z / 2 ^ 24).

Lemma word_bytes a b c d :
  is_u8 a -> is_u8 b -> is_u8 c -> is_u8 d ->
  let z := a * 2 ^ 24 + b * 2 ^ 16 + c * 2 ^ 8 + d in
  u8 (z / 2 ^ 24) = a /\ u8 (z / 2 ^ 16) = b /\ u8 (z / 2 ^ 8) = c /\ u8 z = d.
Proof. intros ???? z. subst z. repeat split; mlia. Qed.

Lemma bswap32_invol z : is_u32 z -> bswap32 (bswap32 z) = z.
Proof.
  intros Hz. unfold bswap32 at 2.
  destruct (word_bytes (u8 z) (u8 (z / 2 ^ 8)) (u8 (z / 2 ^ 16)) (u8 (z / 2 ^ 24)))
    as (E1 & E2 & E3 & E4); try apply u8_range.
  unfold bswap32. rewrite E1, E2, E3, E4. mlia.
Qed.

Program Definition little_endian : ByteOrder := {| ntohl := bswap32 |}.
Next Obligation. reflexivity. Qed.
Next Obligation. intros. unfold bswap32. mlia. Qed.
Next Obligation. apply bswap32_invol. Qed.

Program Definition big_endian : ByteOrder := {| ntohl := u32 |}.
Next Obligation. reflexivity. Qed.
Next Obligation. intros. mlia. Qed.
Next Obligation. intros. mlia. Qed.

Lemma ntohl_inj `{ByteOrder} a b : is_u32 a -> is_u32 b -> ntohl a = ntohl b -> a = b.
Proof. intros Ha Hb E. rewrite <- (ntohl_invol a), <- (ntohl_invol b) by done. by rewrite E. Qed.

Lemma ntohl_nonzero `{ByteOrder} a : is_u32 a -> a <> 0 -> ntohl a <> 0.
Proof.
  intros Ha Hn E. apply Hn, ntohl_inj; [done|mlia|]. by rewrite ntohl_0.
Qed.
