(* ===== verification/UbikVote.v ===== *)
(** * Ubik voting and beacons: one site

    The state a Ubik database server keeps to elect the synchronization site
    and the operations on it: [src/ubik/vote.c] (answering beacons) and
    [src/ubik/beacon.c] (sending beacons, counting votes).  Clock readings
    ([FT_ApproxTime]) are arguments.  [UbikQuorum.v] runs one such site per
    database server and proves that at most one of them is sync site. *)

From S2P Require Import Prelude.
From stdpp Require Import prelude list.
From Stdlib Require Import ZArith Lia.

#[local] Open Scope Z_scope.

(** Timer constants of ubik.p.h. *)
Definition MAXSKEW := 10.
Definition POLLTIME := 15.
Definition BIGTIME := 75.
Definition SMALLTIME := 60.

Definition NOHOST := 4294967295.  (* 0xffffffff *)
Definition LOCKWAIT := 3.
Definition ERROR_TABLE_BASE_RXK := 19270400.

Definition bool_of (z : Z) : bool := negb (z =? 0).

(** Addition of two [afs_int32] values. *)
Definition add32 (a b : Z) : Z := s32 (a + b).

Record ubik_version := mkVersion { v_epoch : Z; v_counter : Z }.
Record ubik_tid := mkTid { t_epoch : Z; t_counter : Z }.

(** [struct vote_data]. *)
Record vote_data := mkVote {
  ubik_dbVersion : ubik_version;
  ubik_dbTid : ubik_tid;
  ubik_lastYesTime : Z;
  lastYesHost : Z;
  lastYesClaim : Z;
  lastYesState : Z;
  lowestTime : Z;
  lowestHost : Z;
  syncTime : Z;
  syncHost : Z
}.

(** [struct beacon_data]; the flags are C truth values. *)
Record beacon_data := mkBeacon {
  ubik_amSyncSite : bool;
  syncSiteUntil : Z;
  ubik_syncSiteAdvertised : bool
}.

(** [struct ubik_server], without the two Rx connections. *)
Record ubik_server := mkServer {
  addr : list Z;
  lastVoteTime : Z;
  lastBeaconSent : Z;
  version : ubik_version;
  lastVote : bool;
  up : bool;
  beaconSinceDown : bool;
  currentDB : bool;
  magic : bool;
  isClone : bool
}.

Definition addr0 (ts : ubik_server) : Z := nth 0 (addr ts) 0.

(** The fields of a remote write transaction that recovery looks at. *)
Record remote_trans := mkRTrans { r_tid : ubik_tid; r_locktype : Z }.

(** The globals of one Ubik server process that voting reads or writes.
    [ended] lists the transactions handed to [udisk_end], in order. *)
Record site := mkSite {
  vote_globals : vote_data;
  beacon_globals : beacon_data;
  ubik_servers : list ubik_server;
  ubik_host0 : Z;
  amIClone : bool;
  amIMagic : bool;
  nServers : Z;
  ubik_quorum : Z;
  ubik_singleServer : bool;
  ubik_epochTime : Z;
  urecovery_state : Z;
  ubik_currentTrans : option remote_trans;
  ended : list remote_trans
}.

Definition set_vote (v : vote_data) (s : site) : site :=
  mkSite v (beacon_globals s) (ubik_servers s) (ubik_host0 s) (amIClone s)
    (amIMagic s) (nServers s) (ubik_quorum s) (ubik_singleServer s)
    (ubik_epochTime s) (urecovery_state s) (ubik_currentTrans s) (ended s).
Definition set_beacon (b : beacon_data) (s : site) : site :=
  mkSite (vote_globals s) b (ubik_servers s) (ubik_host0 s) (amIClone s)
    (amIMagic s) (nServers s) (ubik_quorum s) (ubik_singleServer s)
    (ubik_epochTime s) (urecovery_state s) (ubik_currentTrans s) (ended s).
Definition set_servers (l : list ubik_server) (s : site) : site :=
  mkSite (vote_globals s) (beacon_globals s) l (ubik_host0 s) (amIClone s)
    (amIMagic s) (nServers s) (ubik_quorum s) (ubik_singleServer s)
    (ubik_epochTime s) (urecovery_state s) (ubik_currentTrans s) (ended s).
Definition set_epochTime (t : Z) (s : site) : site :=
  mkSite (vote_globals s) (beacon_globals s) (ubik_servers s) (ubik_host0 s)
    (amIClone s) (amIMagic s) (nServers s) (ubik_quorum s)
    (ubik_singleServer s) t (urecovery_state s) (ubik_currentTrans s) (ended s).
Definition set_recovery (r : Z) (s : site) : site :=
  mkSite (vote_globals s) (beacon_globals s) (ubik_servers s) (ubik_host0 s)
    (amIClone s) (amIMagic s) (nServers s) (ubik_quorum s)
    (ubik_singleServer s) (ubik_epochTime s) r (ubik_currentTrans s) (ended s).
Definition set_trans (t : option remote_trans) (e : list remote_trans)
    (s : site) : site :=
  mkSite (vote_globals s) (beacon_globals s) (ubik_servers s) (ubik_host0 s)
    (amIClone s) (amIMagic s) (nServers s) (ubik_quorum s)
    (ubik_singleServer s) (ubik_epochTime s) (urecovery_state s) t e.

Definition set_lowest (t h : Z) (v : vote_data) : vote_data :=
  mkVote (ubik_dbVersion v) (ubik_dbTid v) (ubik_lastYesTime v) (lastYesHost v)
    (lastYesClaim v) (lastYesState v) t h (syncTime v) (syncHost v).
Definition set_sync (t h : Z) (v : vote_data) : vote_data :=
  mkVote (ubik_dbVersion v) (ubik_dbTid v) (ubik_lastYesTime v) (lastYesHost v)
    (lastYesClaim v) (lastYesState v) (lowestTime v) (lowestHost v) t h.
Definition set_lastYesHost (h : Z) (v : vote_data) : vote_data :=
  mkVote (ubik_dbVersion v) (ubik_dbTid v) (ubik_lastYesTime v) h
    (lastYesClaim v) (lastYesState v) (lowestTime v) (lowestHost v)
    (syncTime v) (syncHost v).
Definition set_dbVersion (ver : ubik_version) (v : vote_data) : vote_data :=
  mkVote ver (ubik_dbTid v) (ubik_lastYesTime v) (lastYesHost v)
    (lastYesClaim v) (lastYesState v) (lowestTime v) (lowestHost v)
    (syncTime v) (syncHost v).

Section Vote.
Context `{ByteOrder}.

(** ** vote.c *)

(** Should this site ask for votes? *)
Definition uvote_ShouldIRun (s : site) (now : Z) : bool :=
  let v := vote_globals s in
  if amIClone s then false
  else if add32 BIGTIME (ubik_lastYesTime v) <? now then true
  else if bool_of (lastYesState v) && negb (lastYesHost v =? ubik_host0 s) then false
  else if ntohl (lastYesHost v) <? ntohl (ubik_host0 s) then false
  else true.

(** The current sync site as far as this site knows, 0 when there is none. *)
Definition uvote_GetSyncSite (s : site) (now : Z) : Z :=
  let v := vote_globals s in
  if negb (bool_of (lastYesState v)) then 0
  else if add32 SMALLTIME (lastYesClaim v) <? now then 0
  else lastYesHost v.

(** First server one of whose addresses is [a]: its primary address, or 0. *)
Fixpoint primary_of (l : list ubik_server) (a : Z) : Z :=
  match l with
  | [] => 0
  | ts :: l' => if existsb (Z.eqb a) (addr ts) then addr0 ts else primary_of l' a
  end.
Definition ubikGetPrimaryInterfaceAddr (s : site) (a : Z) : Z :=
  primary_of (ubik_servers s) a.

(** Who sent the beacon, and is it a clone?  [None]: unknown host.  The call is
    local when there is no Rx call. *)
Definition beacon_caller (s : site) (rxcall : option Z) : option (Z * bool) :=
  match rxcall with
  | Some peer =>
      let otherHost := ubikGetPrimaryInterfaceAddr s peer in
      if otherHost =? 0 then None
      else
        match List.find (fun ts => addr0 ts =? otherHost) (ubik_servers s) with
        | Some ts => Some (otherHost, isClone ts)
        | None => Some (otherHost, false)
        end
  | None => Some (ubik_host0 s, amIClone s)
  end.

(** The lowest server heard from, then the comparison with ourselves. *)
Definition note_lowest (s : site) (otherHost : Z) (clone : bool) (now : Z)
    (v : vote_data) : vote_data :=
  let v1 :=
    if negb clone && ((ntohl otherHost <=? ntohl (lowestHost v))
                      || (add32 (lowestTime v) BIGTIME <? now))
    then set_lowest now otherHost v else v in
  if negb (amIClone s) && ((ntohl (ubik_host0 s) <=? ntohl (lowestHost v1))
                           || (add32 (lowestTime v1) BIGTIME <? now))
  then set_lowest now (ubik_host0 s) v1 else v1.

(** Remember a site that claims to be sync site; time it out after BIGTIME. *)
Definition note_sync (otherHost astate now : Z) (v : vote_data) : vote_data :=
  if bool_of astate then set_sync now otherHost v
  else if add32 (syncTime v) BIGTIME <? now then set_sync (syncTime v) 0 v
  else v.

(** Number of non-clone servers other than [otherHost] in the server list. *)
Definition other_voters (s : site) (otherHost : Z) : nat :=
  length (List.filter (fun ts => negb (addr0 ts =? otherHost) && negb (isClone ts))
            (ubik_servers s)).

(** The heuristics before the vote.  [None]: say no.  The second case is the
    fast start-up of the only non-clone server. *)
Definition vote_heuristics (s : site) (otherHost astate : Z) (v : vote_data)
    : option vote_data :=
  if astate =? 0 then
    if negb (ntohl (lowestHost v) =? ntohl otherHost) then None
    else if bool_of (syncHost v) && negb (syncHost v =? otherHost) then None
    else Some v
  else if (lastYesHost v =? NOHOST) && (otherHost =? ubik_host0 s) then
    if (other_voters s otherHost =? 0)%nat then Some (set_lastYesHost otherHost v)
    else Some v
  else Some v.

(** Abort the current remote transaction when its tid does not match. *)
Definition urecovery_CheckTid (atid : ubik_tid) (abortalways : bool) (s : site)
    : site :=
  match ubik_currentTrans s with
  | Some tr =>
      if negb (t_epoch atid =? t_epoch (r_tid tr))
         || (t_counter (r_tid tr) <? t_counter atid) || abortalways
      then
        if negb (r_locktype tr =? LOCKWAIT)
        then set_trans None (ended s ++ [tr]) s
        else set_trans None (ended s) s
      else s
  | None => s
  end.

(** Record a yes vote. *)
Definition vote_yes (otherHost astate astart now : Z) (avers : ubik_version)
    (atid : ubik_tid) (v : vote_data) : vote_data :=
  mkVote avers atid now otherHost astart astate (lowestTime v) (lowestHost v)
    (syncTime v) (syncHost v).

(** The beacon RPC: the vote (0, or the time of the yes vote) and the new
    state. *)
Definition SVOTE_Beacon (s : site) (rxcall : option Z) (astate astart : Z)
    (avers : ubik_version) (atid : ubik_tid) (now : Z) : Z * site :=
  match beacon_caller s rxcall with
  | None => (0, s)
  | Some (otherHost, clone) =>
      let v1 := note_lowest s otherHost clone now (vote_globals s) in
      let v2 := note_sync otherHost astate now v1 in
      match vote_heuristics s otherHost astate v2 with
      | None => (0, set_vote v2 s)
      | Some v3 =>
          if clone then (0, set_vote v3 s)
          else if (add32 (ubik_lastYesTime v3) BIGTIME <? now)
                  || (otherHost =? lastYesHost v3)
          then
            let v4 := vote_yes otherHost astate astart now avers atid v3 in
            (now, urecovery_CheckTid atid false (set_vote v4 s))
          else (0, set_vote v3 s)
      end
  end.

Definition uvote_Init (s : site) (now : Z) : site :=
  let v := vote_globals s in
  set_vote (mkVote (ubik_dbVersion v) (ubik_dbTid v) now NOHOST 0 0 0 NOHOST 0 0) s.

Definition uvote_set_dbVersion (ver : ubik_version) (s : site) : site :=
  set_vote (set_dbVersion ver (vote_globals s)) s.

Definition uvote_eq_dbVersion (ver : ubik_version) (s : site) : bool :=
  let v := vote_globals s in
  (v_epoch (ubik_dbVersion v) =? v_epoch ver)
  && (v_counter (ubik_dbVersion v) =? v_counter ver).

Definition uvote_HaveSyncAndVersion (ver : ubik_version) (s : site) (now : Z)
    : bool :=
  let v := vote_globals s in
  if negb (bool_of (lastYesState v))
     || (add32 SMALLTIME (lastYesClaim v) <? now)
     || negb (v_epoch (ubik_dbVersion v) =? v_epoch ver)
     || negb (v_counter (ubik_dbVersion v) =? v_counter ver)
  then false else true.

(** [SVOTE_GetSyncSite] answers in host order. *)
Definition SVOTE_GetSyncSite (s : site) (now : Z) : Z :=
  ntohl (uvote_GetSyncSite s now).

End Vote.

(** ** beacon.c *)

Definition UNHOSTS := 5378.
Definition MAXSERVERS := 20.
Definition UBIK_MAX_INTERFACE_ADDR := 256%nat.
Definition FOREVER := 2147483647.  (* 0x7fffffff *)

Section Beacon.
Context `{ByteOrder}.

(** Am I the sync site?  Votes that have expired end the claim. *)
Definition amSyncSite (s : site) (now : Z) : bool * site :=
  let b := beacon_globals s in
  if (nServers s =? 1) && negb (amIClone s) then (true, s)
  else if negb (ubik_amSyncSite b) || amIClone s then (false, s)
  else if syncSiteUntil b <=? now
  then (false, set_beacon (mkBeacon false (syncSiteUntil b) false) s)
  else (true, s).

(** [urecovery_ResetState]. *)
Definition urecovery_ResetState (s : site) : site := set_recovery 0 s.

Definition ubeacon_AmSyncSite (s : site) (now : Z) : bool * site :=
  let (rcode, s1) := amSyncSite s now in
  if rcode then (true, s1) else (false, urecovery_ResetState s1).

Definition ubeacon_SyncSiteAdvertised (s : site) : bool :=
  ubik_syncSiteAdvertised (beacon_globals s).

(** A server structure as [calloc] and the initialisation loop leave it. *)
Definition new_server (a : Z) (clone : bool) : ubik_server :=
  mkServer (a :: repeat 0 (UBIK_MAX_INTERFACE_ADDR - 1)) 0 0 (mkVersion 0 0)
    false true false false false clone.

(** The loops of [ubeacon_InitServerListCommon].  Servers are pushed on the
    front of [ubik_servers]; the pointer [magicServer] is the number of servers
    created before the one it points to. *)
Record init_acc := mkInit {
  ia_servers : list ubik_server;
  ia_magicHost : Z;
  ia_magicServer : option nat;
  ia_count : Z
}.

(** Where am I in the cell's list (the last match), and am I a clone? *)
Fixpoint find_me (ame : Z) (i : Z) (hosts : list (Z * bool)) (me : Z)
    (clone : bool) : Z * bool :=
  match hosts with
  | [] => (me, clone)
  | (a, c) :: rest =>
      if ntohl a =? ntohl ame
      then find_me ame (i + 1) rest i (clone || c)
      else find_me ame (i + 1) rest me clone
  end.

Fixpoint add_remotes (me i : Z) (hosts : list (Z * bool)) (acc : init_acc)
    : init_acc :=
  match hosts with
  | [] => acc
  | (a, c) :: rest =>
      let acc' :=
        if i =? me then acc
        else
          let servers := new_server a c :: ia_servers acc in
          if c then mkInit servers (ia_magicHost acc) (ia_magicServer acc) (ia_count acc)
          else if (ia_magicHost acc =? 0) || (ntohl a <? ia_magicHost acc)
          then mkInit servers (ntohl a) (Some (length (ia_servers acc))) (ia_count acc + 1)
          else mkInit servers (ia_magicHost acc) (ia_magicServer acc) (ia_count acc + 1)
      in add_remotes me (i + 1) rest acc'
  end.

(** The legacy variant: a zero-terminated address vector, no clones.  [None]:
    too many hosts. *)
Fixpoint add_legacy (aservers : list Z) (acc : init_acc) : init_acc * bool :=
  match aservers with
  | [] => (acc, true)
  | a :: rest =>
      if a =? 0 then (acc, true)
      else if MAXSERVERS <=? ia_count acc then (acc, false)
      else
        let servers := new_server a false :: ia_servers acc in
        add_legacy rest
          (if ntohl a <? ia_magicHost acc
           then mkInit servers (ntohl a) (Some (length (ia_servers acc))) (ia_count acc + 1)
           else mkInit servers (ia_magicHost acc) (ia_magicServer acc) (ia_count acc + 1))
  end.

Definition set_magic (ts : ubik_server) : ubik_server :=
  mkServer (addr ts) (lastVoteTime ts) (lastBeaconSent ts) (version ts)
    (lastVote ts) (up ts) (beaconSinceDown ts) (currentDB ts) true (isClone ts).

(** [magicServer->magic = 1] when there is one. *)
Definition mark_magic (acc : init_acc) : list ubik_server :=
  match ia_magicServer acc with
  | Some k => alter set_magic (length (ia_servers acc) - 1 - k)%nat (ia_servers acc)
  | None => ia_servers acc
  end.

(** A process whose globals still have their static initial values. *)
Definition fresh_site (ame : Z) : site :=
  mkSite (mkVote (mkVersion 0 0) (mkTid 0 0) 0 0 0 0 0 0 0 0)
    (mkBeacon false 0 false) [] ame false false 0 0 false 0 0 None [].

(** The end of [ubeacon_InitServerListCommon]: quorum size and the single
    server special cases. *)
Definition init_finish (by_info clone : bool) (n : Z) (acc : init_acc)
    (ame now : Z) : site :=
  let servers := mark_magic acc in
  let single :=
    if by_info then (match servers with [] => true | _ => false end) else n =? 1 in
  let start := by_info && (n =? 1) && negb clone in
  let epoch := if start || single then now else 0 in
  let b := if start || single then mkBeacon true FOREVER true
           else mkBeacon false 0 false in
  mkSite (vote_globals (fresh_site ame)) b servers ame clone
    (negb clone && (match ia_magicServer acc with None => true | Some _ => false end))
    n (Z.shiftr n 1 + 1) single epoch 0 None [].

(** Set up the server list from the cell configuration (addresses with their
    clone flag), [ame] being the address [verifyInterfaceAddress] settled on. *)
Definition ubeacon_InitServerListByInfo (ame : Z) (hosts : list (Z * bool))
    (now : Z) : site :=
  let '(me, clone) := find_me ame 0 hosts (-1) false in
  let acc0 := mkInit [] (if clone then 0 else ntohl ame) None 0 in
  let acc := add_remotes me 0 hosts acc0 in
  let n := if clone then ia_count acc else ia_count acc + 1 in
  init_finish true clone n acc ame now.

Definition ubeacon_InitServerList (ame : Z) (aservers : list Z) (now : Z)
    : Z * site :=
  let '(acc, ok) := add_legacy aservers (mkInit [] (ntohl ame) None 0) in
  if ok then (0, init_finish false false (ia_count acc + 1) acc ame now)
  else (UNHOSTS, set_servers (ia_servers acc) (fresh_site ame)).

(** *** The beacon loop

    One iteration of [ubeacon_Interact] has three phases: decide whether to
    run and whom to call; handle the replies of the multi-call, in the order
    they arrive; vote for ourselves and decide the election. *)

(** What the loop reads of [ubik_dbase]. *)
Record db_info := mkDb {
  db_writing : bool;
  writeTidCounter : Z;
  tidCounter : Z;
  db_version : ubik_version
}.

(** Indices in [ubik_servers] of the servers that get a beacon. *)
Fixpoint beacon_targets (me : Z) (i : nat) (l : list ubik_server) : list nat :=
  match l with
  | [] => []
  | ts :: rest =>
      if up ts && negb (addr0 ts =? me) then i :: beacon_targets me (S i) rest
      else beacon_targets me (S i) rest
  end.

(** The call that is sent. *)
Record beacon_call := mkCall {
  c_targets : list nat;
  c_syncsite : bool;
  c_start : Z;
  c_version : ubik_version;
  c_tid : ubik_tid
}.

(** Seconds to sleep before the next collection phase. *)
Definition beacon_sleep (lastWakeupTime now : Z) : Z :=
  let temp := s32 (add32 lastWakeupTime POLLTIME - now) in
  if 0 <? temp then (if POLLTIME <? temp then POLLTIME else temp) else 0.

(** First phase.  [None]: nothing to do this time.  The clock is read by
    [uvote_ShouldIRun], by [amSyncSite] and for the start time. *)
Definition interact_begin (s : site) (db : db_info) (now_run now_sync now : Z)
    : option (beacon_call * site) :=
  if ubik_singleServer s then None
  else if negb (uvote_ShouldIRun s now_run) then None
  else
    let ttid := mkTid (ubik_epochTime s)
                  (if db_writing db then writeTidCounter db
                   else add32 (tidCounter db) 1) in
    let (syncsite, s1) := amSyncSite s now_sync in
    let s2 := if syncsite then s1 else urecovery_ResetState s1 in
    Some (mkCall (beacon_targets (ubik_host0 s) 0 (ubik_servers s)) syncsite now
            (db_version db) ttid, s2).

(** A reply: which call, the returned code, the clock when it is handled, and
    whether the connection is in error. *)
Record reply := mkReply {
  r_multi : nat;
  r_code : Z;
  r_temp : Z;
  r_connerr : bool
}.

(** The votes counted so far. *)
Record tally := mkTally { yesVotes : Z; oldestYesVote : Z }.

(** A vote too far from our clock, or from a connection in error, counts as a
    timeout. *)
Definition sane_code (r : reply) : Z :=
  let code := r_code r in
  let temp := r_temp r in
  let code1 :=
    if (0 <? code) && (((code <? temp) && (code <? s32 (temp - 3600)))
                       || ((temp <? code) && (s32 (temp + 3600) <? code)))
    then -1 else code in
  if (0 <? code1) && r_connerr r then -1 else code1.

Definition is_token_error (code : Z) : bool :=
  Z.land code (Z.lnot 255) =? ERROR_TABLE_BASE_RXK.

(** Bookkeeping in the server structure for one reply. *)
Definition server_reply (ts : ubik_server) (code temp : Z) : ubik_server :=
  let down :=
    mkServer (addr ts) (lastVoteTime ts) temp (version ts) (lastVote ts) false
      false (currentDB ts) (magic ts) (isClone ts) in
  if 0 <? code then
    if is_token_error code then down
    else mkServer (addr ts) code temp (version ts) true true true (currentDB ts)
           (magic ts) (isClone ts)
  else if code =? 0 then
    mkServer (addr ts) temp temp (version ts) false (up ts) true (currentDB ts)
      (magic ts) (isClone ts)
  else down.

(** The votes a reply is worth: two for a voting server, one more for the magic
    host. *)
Definition tally_reply (ts : ubik_server) (code : Z) (t : tally) : tally :=
  if (0 <? code) && negb (is_token_error code) then
    mkTally
      (yesVotes t + (if isClone ts then 0 else 2) + (if magic ts then 1 else 0))
      (if code <? oldestYesVote t then code else oldestYesVote t)
  else t.

(** Second phase, one reply. *)
Definition interact_reply (c : beacon_call) (r : reply) (st : tally * site)
    : tally * site :=
  let (t, s) := st in
  match c_targets c !! r_multi r with
  | Some k =>
      match ubik_servers s !! k with
      | Some ts =>
          let code := sane_code r in
          (tally_reply ts code t,
           set_servers (<[k := server_reply ts code (r_temp r)]> (ubik_servers s)) s)
      | None => st
      end
  | None => st
  end.

(** Third phase: our own vote, then the decision.  [now1], [now2], [now3] are
    the clock readings of [ubeacon_AmSyncSite], of [SVOTE_Beacon] and of the
    moment the site becomes sync site. *)
Definition interact_own_vote (c : beacon_call) (t : tally) (s : site)
    (now1 now2 : Z) : tally * site :=
  let (am, s1) := ubeacon_AmSyncSite s now1 in
  let (i, s2) := SVOTE_Beacon s1 None (if am then 1 else 0) (c_start c)
                   (c_version c) (c_tid c) now2 in
  if bool_of i then
    (mkTally (yesVotes t + 2 + (if amIMagic s2 then 1 else 0))
       (if i <? oldestYesVote t then i else oldestYesVote t), s2)
  else (t, s2).

Definition interact_decide (t : tally) (s : site) (now3 : Z) : site :=
  let b := beacon_globals s in
  let until := add32 (oldestYesVote t) SMALLTIME in
  if nServers s <? yesVotes t then
    if negb (ubik_amSyncSite b) then
      set_epochTime now3
        (set_beacon (mkBeacon true until (ubik_syncSiteAdvertised b)) s)
    else set_beacon (mkBeacon true until true) s
  else
    urecovery_ResetState (set_beacon (mkBeacon false (syncSiteUntil b) false) s).

Definition interact_finish (c : beacon_call) (replies : list reply) (s : site)
    (now1 now2 now3 : Z) : site :=
  let (t, s1) := foldl (fun st r => interact_reply c r st)
                   (mkTally 0 FOREVER, s) replies in
  let (t2, s2) := interact_own_vote c t s1 now1 now2 in
  interact_decide t2 s2 now3.

(** One whole iteration of the loop. *)
Definition ubeacon_Interact (s : site) (db : db_info) (now_run now_sync now : Z)
    (replies : list reply) (now1 now2 now3 : Z) : site :=
  match interact_begin s db now_run now_sync now with
  | None => s
  | Some (c, s1) => interact_finish c replies s1 now1 now2 now3
  end.

End Beacon.

(** ** Lemmas about one site *)

Create HintDb ubik.

(** The part of a site that only initialisation writes. *)
Definition srv_conf (ts : ubik_server) : Z * bool * bool :=
  (addr0 ts, isClone ts, magic ts).
Definition conf (s : site) : list (Z * bool * bool) * Z * bool * bool * Z :=
  (map srv_conf (ubik_servers s), ubik_host0 s, amIClone s, amIMagic s, nServers s).

Section SiteLemmas.
Context `{ByteOrder}.

Lemma CheckTid_frame tid b s :
  let s' := urecovery_CheckTid tid b s in
  conf s' = conf s /\ vote_globals s' = vote_globals s
  /\ beacon_globals s' = beacon_globals s /\ ubik_servers s' = ubik_servers s.
Proof. unfold urecovery_CheckTid. repeat case_match; done. Qed.

Lemma note_lowest_yes s h c now v :
  ubik_lastYesTime (note_lowest s h c now v) = ubik_lastYesTime v
  /\ lastYesHost (note_lowest s h c now v) = lastYesHost v.
Proof. unfold note_lowest. repeat case_match; done. Qed.

Lemma note_sync_yes h a now v :
  ubik_lastYesTime (note_sync h a now v) = ubik_lastYesTime v
  /\ lastYesHost (note_sync h a now v) = lastYesHost v.
Proof. unfold note_sync. repeat case_match; done. Qed.

Lemma vote_heuristics_yes s h a v v' :
  vote_heuristics s h a v = Some v' ->
  ubik_lastYesTime v' = ubik_lastYesTime v
  /\ (lastYesHost v' = lastYesHost v
      \/ lastYesHost v = NOHOST /\ h = ubik_host0 s /\ other_voters s h = 0%nat
         /\ lastYesHost v' = h).
Proof.
  unfold vote_heuristics. intros E. repeat case_match; simplify_eq; try by auto.
  split; [done|]. right. bool_hyps. cbn [lastYesHost set_lastYesHost].
  repeat split; lia.
Qed.

(** The effect of a beacon on the promise a site has made: a yes vote is cast
    for the caller, which is no clone, at the current time, and only if the last
    promise has expired or was made to the same host (or by the fast start-up of
    the only voter); anything else leaves the promise alone. *)
Lemma SVOTE_Beacon_cases s rx a st ver tid now vt s' :
  SVOTE_Beacon s rx a st ver tid now = (vt, s') ->
  let v := vote_globals s in
  let v' := vote_globals s' in
  conf s' = conf s /\ beacon_globals s' = beacon_globals s
  /\ ubik_servers s' = ubik_servers s
  /\ ((exists h, beacon_caller s rx = Some (h, false) /\ vt = now
         /\ ubik_lastYesTime v' = now /\ lastYesHost v' = h
         /\ (add32 (ubik_lastYesTime v) BIGTIME < now \/ h = lastYesHost v
             \/ lastYesHost v = NOHOST /\ h = ubik_host0 s /\ other_voters s h = 0%nat))
      \/ (vt = 0 /\ ubik_lastYesTime v' = ubik_lastYesTime v
         /\ (lastYesHost v' = lastYesHost v
             \/ lastYesHost v = NOHOST /\ lastYesHost v' = ubik_host0 s
                /\ other_voters s (ubik_host0 s) = 0%nat))).
Proof.
  unfold SVOTE_Beacon. cbv zeta. intros E.
  destruct (beacon_caller s rx) as [[h clone]|] eqn:Ec.
  2: { simplify_eq. repeat split; try done. right. auto. }
  set (v1 := note_lowest s h clone now (vote_globals s)) in *.
  set (v2 := note_sync h a now v1) in *.
  assert (Ht : ubik_lastYesTime v2 = ubik_lastYesTime (vote_globals s)
               /\ lastYesHost v2 = lastYesHost (vote_globals s)).
  { subst v1 v2. pose proof (note_lowest_yes s h clone now (vote_globals s)).
    pose proof (note_sync_yes h a now (note_lowest s h clone now (vote_globals s))).
    intuition congruence. }
  clearbody v2. clear v1.
  destruct (vote_heuristics s h a v2) as [v3|] eqn:Eh.
  2: { simplify_eq. repeat split; try done. right. intuition. }
  apply vote_heuristics_yes in Eh as [Ht3 Hh3].
  destruct Ht as [Ht2 Hh2].
  destruct clone.
  { simplify_eq. repeat split; try done. right. cbn.
    intuition congruence. }
  destruct ((add32 (ubik_lastYesTime v3) BIGTIME <? now) || (h =? lastYesHost v3))
    eqn:Ev.
  - injection E as <- <-.
    destruct (CheckTid_frame tid false
      (set_vote (vote_yes h a st now ver tid v3) s)) as (Hc & Hv & Hb & Hs).
    rewrite Hc, Hv, Hb, Hs. repeat split; try done. left. exists h.
    cbn. repeat split; try done.
    apply orb_true_iff in Ev as [Ev|Ev].
    + left. rewrite Ht3, Ht2 in Ev. lia.
    + assert (h = lastYesHost v3) by lia.
      destruct Hh3 as [Hh3|(?&?&?&?)]; [right; left; congruence|]. right; right.
      by rewrite <- Hh2.
  - simplify_eq. repeat split; try done. right. cbn.
    repeat split; [congruence|].
    destruct Hh3 as [Hh3|(?&?&?&?)]; [left; congruence|]. right.
    repeat split; congruence.
Qed.

Lemma amSyncSite_frame s now r s' :
  amSyncSite s now = (r, s') ->
  conf s' = conf s /\ vote_globals s' = vote_globals s
  /\ ubik_servers s' = ubik_servers s
  /\ (s' = s
      \/ r = false /\ beacon_globals s' =
           mkBeacon false (syncSiteUntil (beacon_globals s)) false).
Proof.
  unfold amSyncSite. intros E. repeat case_match; simplify_eq; naive_solver.
Qed.

Lemma AmSyncSite_frame s now r s' :
  ubeacon_AmSyncSite s now = (r, s') ->
  conf s' = conf s /\ vote_globals s' = vote_globals s
  /\ ubik_servers s' = ubik_servers s
  /\ (beacon_globals s' = beacon_globals s
      \/ ubik_amSyncSite (beacon_globals s') = false).
Proof.
  unfold ubeacon_AmSyncSite. intros E. destruct (amSyncSite s now) as [r1 s1] eqn:E1.
  apply amSyncSite_frame in E1 as (Hc & Hv & Hs & Hb).
  assert (Hb' : beacon_globals s1 = beacon_globals s
                \/ ubik_amSyncSite (beacon_globals s1) = false).
  { destruct Hb as [->|[_ ->]]; auto. }
  destruct r1; injection E as <- <-; split_and!; assumption.
Qed.

(** [AmSyncSite] says yes only to the only voter, or to a non-clone that holds
    an unexpired mandate. *)
Lemma AmSyncSite_true s now s' :
  ubeacon_AmSyncSite s now = (true, s') ->
  amIClone s = false /\
  (nServers s = 1
   \/ ubik_amSyncSite (beacon_globals s) = true
      /\ now < syncSiteUntil (beacon_globals s)).
Proof.
  unfold ubeacon_AmSyncSite, amSyncSite. intros E.
  repeat case_match; simplify_eq; bool_hyps; (split; [done|]);
    [left; lia | right; split; [done|lia]].
Qed.

End SiteLemmas.
