(* ===== verification/UbikQuorum.v ===== *)
(** * Ubik elections: the whole cell

    Every database server of a cell runs the voting and beacon code of
    [UbikVote.v].  The cell is a transition system whose steps are that code:
    beacons sent, answered, lost or delayed, elections decided, mandates
    expiring, servers restarting, clocks advancing within the skew the code
    allows for.  The main theorem is the one the comments of vote.c promise: two
    servers are never sync site at the same time. *)

From S2P Require Import Prelude UbikVote.
From stdpp Require Import prelude list.
From Stdlib Require Import ZArith Lia.

#[local] Open Scope Z_scope.

(** A cell configuration: primary addresses with their clone flag, distinct,
    and none of them one of the two values the code uses as markers. *)
Definition cell_ok (hosts : list (Z * bool)) : Prop :=
  NoDup (map fst hosts) /\ Forall (fun p => 0 < fst p < NOHOST) hosts.

(** ** What initialisation computes *)

Section Init.
Context `{ByteOrder} (hosts : list (Z * bool)).

Definition is_voter (h : Z) : bool :=
  existsb (fun p => (fst p =? h) && negb (snd p)) hosts.

(** [h] has the lowest address (in host order) of the voting servers. *)
Definition is_lowest (h : Z) : bool :=
  is_voter h && forallb (fun p => snd p || (ntohl h <=? ntohl (fst p))) hosts.

(** The number of voting servers. *)
Definition n_voters : Z :=
  Z.of_nat (length (List.filter (fun p => negb (snd p)) hosts)).

(** What a yes vote of [h] is worth. *)
Definition weight (h : Z) : Z :=
  (if is_voter h then 2 else 0) + (if is_lowest h then 1 else 0).

Definition weights (l : list Z) : Z := foldr (fun h n => weight h + n) 0 l.

End Init.

Section InitLemmas.
Context `{ByteOrder}.

Lemma valid_u32 (p : Z * bool) : 0 < fst p < NOHOST -> is_u32 (fst p) /\ fst p <> 0.
Proof. unfold NOHOST. mlia. Qed.

Lemma valid_nonzero h : 0 < h < NOHOST -> ntohl h <> 0.
Proof. intros Hh. by apply ntohl_nonzero; apply (valid_u32 (h, false)). Qed.

Lemma find_me_skip ame i l me c :
  (forall p, In p l -> ntohl (fst p) <> ntohl ame) ->
  find_me ame i l me c = (me, c).
Proof.
  revert i. induction l as [|[a c'] l IH]; intros i Hl; [done|].
  cbn [find_me]. rewrite (proj2 (Z.eqb_neq _ _)) by (apply (Hl (a, c')); by left).
  apply IH. intros p Hp. apply Hl. by right.
Qed.

Lemma find_me_here ame i l1 c l2 me b :
  (forall p, In p (l1 ++ l2) -> ntohl (fst p) <> ntohl ame) ->
  find_me ame i (l1 ++ (ame, c) :: l2) me b = (i + Z.of_nat (length l1), b || c).
Proof.
  revert i. induction l1 as [|[a c'] l1 IH]; intros i Hl; cbn [app find_me].
  - rewrite Z.eqb_refl, find_me_skip by (intros; by apply Hl). cbn. f_equal. lia.
  - rewrite (proj2 (Z.eqb_neq _ _)) by (apply (Hl (a, c')); by left).
    rewrite IH by (intros; apply Hl; by right). cbn [length]. f_equal. lia.
Qed.

(** One remote server, without the test for ourselves. *)
Definition add_one (acc : init_acc) (p : Z * bool) : init_acc :=
  add_remotes (-1) 0 [p] acc.

Lemma add_remotes_skip me i l acc :
  me < i -> add_remotes me i l acc = foldl add_one acc l.
Proof.
  revert i acc. induction l as [|[a c] l IH]; intros i acc Hi; [done|].
  cbn [add_remotes foldl].
  rewrite (proj2 (Z.eqb_neq i me)) by lia. rewrite IH by lia. reflexivity.
Qed.

Lemma add_remotes_here i l1 x l2 acc :
  add_remotes (i + Z.of_nat (length l1)) i (l1 ++ x :: l2) acc
  = foldl add_one acc (l1 ++ l2).
Proof.
  revert i acc. induction l1 as [|[a c] l1 IH]; intros i acc; cbn [length app].
  - destruct x as [a c]. cbn [add_remotes]. rewrite Z.add_0_r, Z.eqb_refl.
    apply add_remotes_skip. lia.
  - cbn [add_remotes foldl].
    rewrite (proj2 (Z.eqb_neq i _)) by lia.
    replace (i + Z.of_nat (S (length l1))) with (i + 1 + Z.of_nat (length l1)) by lia.
    rewrite IH. reflexivity.
Qed.

Definition create (p : Z * bool) : ubik_server := new_server (fst p) (snd p).

(** What the loop has computed after the servers [l], from the candidate [m0]. *)
Definition acc_spec (m0 : Z) (l : list (Z * bool)) (acc : init_acc) : Prop :=
  ia_servers acc = rev (map create l)
  /\ ia_count acc = n_voters l
  /\ match ia_magicServer acc with
     | None =>
         ia_magicHost acc = m0
         /\ forall a, In (a, false) l -> m0 <> 0 /\ m0 <= ntohl a
     | Some k =>
         exists a, l !! k = Some (a, false) /\ ia_magicHost acc = ntohl a
         /\ (m0 = 0 \/ ntohl a < m0)
         /\ forall b, In (b, false) l -> ntohl a <= ntohl b
     end.

Lemma n_voters_app l1 l2 : n_voters (l1 ++ l2) = n_voters l1 + n_voters l2.
Proof. unfold n_voters. rewrite List.filter_app, length_app. lia. Qed.

Lemma n_voters_one a c : n_voters [(a, c)] = if c then 0 else 1.
Proof. by destruct c. Qed.

Lemma addr_nonzero (l : list (Z * bool)) k a c :
  Forall (fun p => 0 < fst p < NOHOST) l -> l !! k = Some (a, c) -> ntohl a <> 0.
Proof.
  intros Hv Hk. rewrite Forall_lookup in Hv. apply Hv in Hk. cbn in Hk.
  by apply valid_nonzero.
Qed.

Lemma acc_spec_snoc m0 l acc p :
  Forall (fun p => 0 < fst p < NOHOST) (l ++ [p]) ->
  acc_spec m0 l acc -> acc_spec m0 (l ++ [p]) (add_one acc p).
Proof.
  intros Hv (Hs & Hc & Hm). destruct p as [a c].
  apply Forall_app in Hv as [Hvl Hva]. inversion_clear Hva as [|? ? Ha _].
  assert (Hlen : length (ia_servers acc) = length l)
    by (rewrite Hs, length_rev, length_map; done).
  unfold acc_spec, add_one. cbn [add_remotes fst snd]. change (0 =? -1) with false.
  cbn match. rewrite n_voters_app, n_voters_one, map_app, rev_app_distr. cbn [map rev app].
  change (create (a, c)) with (new_server a c).
  destruct c.
  - cbn [ia_servers ia_count ia_magicServer ia_magicHost]. rewrite Hs, Hc.
    split_and!; [done|lia|]. destruct (ia_magicServer acc) as [k|].
    + destruct Hm as (a' & Hk & ? & ? & Hb). exists a'. split_and!; try done.
      * by apply lookup_app_l_Some.
      * intros b [?|[?|[]]]%in_app_or; [by apply Hb|simplify_eq].
    + destruct Hm as [? Hb]. split; [done|].
      intros b [?|[?|[]]]%in_app_or; [by apply Hb|simplify_eq].
  - assert (Hnew : (l ++ [(a, false)]) !! length l = Some (a, false)).
    { rewrite lookup_app_r, Nat.sub_diag by lia. done. }
    destruct ((ia_magicHost acc =? 0) || (ntohl a <? ia_magicHost acc)) eqn:E;
      cbn [ia_servers ia_count ia_magicServer ia_magicHost]; rewrite ?Hlen, Hs, Hc;
      (split_and!; [done|lia|]).
    + exists a. split_and!; try done.
      * destruct (ia_magicServer acc) as [k|].
        -- destruct Hm as (a' & Hk & Hmh & ? & _).
           pose proof (addr_nonzero _ _ _ _ Hvl Hk). lia.
        -- destruct Hm as [Hmh _]. lia.
      * intros b [Hb|[?|[]]]%in_app_or; [|simplify_eq; lia].
        destruct (ia_magicServer acc) as [k|].
        -- destruct Hm as (a' & Hk & Hmh & _ & Hall). specialize (Hall b Hb).
           pose proof (addr_nonzero _ _ _ _ Hvl Hk). lia.
        -- destruct Hm as [Hmh Hall]. specialize (Hall b Hb). lia.
    + destruct (ia_magicServer acc) as [k|].
      * destruct Hm as (a' & Hk & Hmh & ? & Hall). exists a'. split_and!; try done.
        -- by apply lookup_app_l_Some.
        -- intros b [Hb|[?|[]]]%in_app_or; [by apply Hall|simplify_eq; lia].
      * destruct Hm as [Hmh Hall]. split; [done|].
        intros b [Hb|[?|[]]]%in_app_or; [by apply Hall|simplify_eq; lia].
Qed.

Lemma acc_spec_fold m0 l' l acc :
  Forall (fun p => 0 < fst p < NOHOST) (l ++ l') ->
  acc_spec m0 l acc -> acc_spec m0 (l ++ l') (foldl add_one acc l').
Proof.
  revert l acc. induction l' as [|p l' IH]; intros l acc Hv Ha.
  - by rewrite app_nil_r.
  - rewrite (app_assoc l [p] l' : l ++ p :: l' = (l ++ [p]) ++ l').
    rewrite (app_assoc l [p] l' : l ++ p :: l' = (l ++ [p]) ++ l') in Hv.
    cbn [foldl]. apply IH; [done|]. apply acc_spec_snoc; [|done].
    by apply Forall_app in Hv as [? _].
Qed.

Lemma is_voter_iff hosts h : is_voter hosts h = true <-> In (h, false) hosts.
Proof.
  unfold is_voter. rewrite existsb_exists. split.
  - intros ([a c] & Hin & Hb). cbn in Hb. bool_hyps. subst.
    by replace h with a by lia.
  - intros Hin. exists (h, false). cbn. split; [done|]. lia.
Qed.

Lemma is_lowest_iff hosts h :
  is_lowest hosts h = true <->
  In (h, false) hosts /\ forall b, In (b, false) hosts -> ntohl h <= ntohl b.
Proof.
  unfold is_lowest. rewrite andb_true_iff, is_voter_iff, forallb_forall.
  split; intros [Hh Hall]; split; try done.
  - intros b Hb. specialize (Hall _ Hb). cbn in Hall. lia.
  - intros [b []] Hb; cbn; [done|]. specialize (Hall _ Hb). lia.
Qed.

Lemma is_lowest_false hosts h :
  (In (h, false) hosts -> exists b, In (b, false) hosts /\ ntohl b < ntohl h) ->
  is_lowest hosts h = false.
Proof.
  intros Hb. apply not_true_iff_false. rewrite is_lowest_iff. intros [Hh Hall].
  destruct (Hb Hh) as (b & Hin & Hlt). specialize (Hall _ Hin). lia.
Qed.

Lemma cell_ok_distinct hosts (l1 l2 : list (Z * bool)) h c :
  cell_ok hosts -> hosts = l1 ++ (h, c) :: l2 ->
  Forall (fun p => 0 < fst p < NOHOST) (l1 ++ l2)
  /\ NoDup (map fst (l1 ++ l2))
  /\ (0 < h < NOHOST)
  /\ forall p, In p (l1 ++ l2) -> ntohl (fst p) <> ntohl h.
Proof.
  intros [Hnd Hv] ->.
  assert (HP : (l1 ++ (h, c) :: l2) ≡ₚ (h, c) :: l1 ++ l2)
    by (symmetry; apply Permutation_middle).
  rewrite HP in Hv. inversion_clear Hv as [|? ? Hh Hv']. cbn in Hh.
  assert (Hnd' : NoDup (map fst ((h, c) :: l1 ++ l2))).
  { apply (Permutation_map fst) in HP. by rewrite <- HP. }
  cbn in Hnd'. apply NoDup_cons in Hnd' as [Hni Hnd'].
  refine (conj Hv' (conj Hnd' (conj Hh _))). intros p Hp E. apply Hni.
  rewrite list_elem_of_In, in_map_iff. exists p. split; [|done].
  apply ntohl_inj; try done.
  - rewrite Forall_forall in Hv'. apply list_elem_of_In in Hp.
    by apply (valid_u32 p), Hv'.
  - by apply (valid_u32 (h, c)).
Qed.

Lemma map_alter {A B} (f : A -> B) (g : A -> A) i (l : list A) :
  (forall x, f (g x) = f x) -> map f (alter g i l) = map f l.
Proof.
  intros Hfg. revert i. induction l as [|x l IH]; intros [|i]; cbn; try done.
  - by rewrite Hfg.
  - f_equal. apply IH.
Qed.

Lemma mark_magic_addr acc : map addr0 (mark_magic acc) = map addr0 (ia_servers acc).
Proof. unfold mark_magic. case_match; [|done]. by apply map_alter. Qed.

(** The servers of a finished list: created from [rest], and magic exactly when
    they are the candidate the loop settled on. *)
Lemma mark_magic_servers m0 rest acc ts :
  acc_spec m0 rest acc -> NoDup (map fst rest) -> In ts (mark_magic acc) ->
  exists a c, In (a, c) rest /\ addr ts = addr (new_server a c) /\ isClone ts = c
    /\ up ts = true
    /\ (magic ts = true <->
         exists k, ia_magicServer acc = Some k /\ rest !! k = Some (a, false)).
Proof.
  intros (Hs & _ & Hm) Hnd Hin. unfold mark_magic in Hin.
  assert (Hbase : forall ts i, ia_servers acc !! i = Some ts ->
            exists p, rest !! (length rest - S i)%nat = Some p /\ ts = create p
              /\ (i < length rest)%nat).
  { intros ts' i Hi. rewrite Hs in Hi. pose proof (lookup_lt_Some _ _ _ Hi) as Hlt.
    rewrite length_rev, length_map in Hlt.
    rewrite rev_alt in Hi. fold (reverse (map create rest)) in Hi.
    rewrite reverse_lookup in Hi by (by rewrite length_map). rewrite length_map in Hi.
    rewrite list_lookup_fmap in Hi.
    destruct (rest !! (length rest - S i)%nat) as [p|] eqn:E; [|done].
    exists p. simplify_eq/=. done. }
  assert (Hlen : length (ia_servers acc) = length rest)
    by (rewrite Hs, length_rev, length_map; done).
  destruct (ia_magicServer acc) as [k|].
  - destruct Hm as (a & Hk & _).
    pose proof (lookup_lt_Some _ _ _ Hk) as Hklt.
    apply list_elem_of_In, list_elem_of_lookup in Hin as [i Hi].
    rewrite Hlen in Hi. destruct (decide (i = length rest - 1 - k)%nat) as [->|Hne].
    + rewrite list_lookup_alter_eq in Hi.
      destruct (ia_servers acc !! (length rest - 1 - k)%nat) as [ts0|] eqn:E0; [|done].
      destruct (Hbase _ _ E0) as ([a' c'] & Hp & -> & Hlt).
      replace (length rest - S (length rest - 1 - k))%nat with k in Hp by lia.
      rewrite Hk in Hp. simplify_eq/=. exists a', false.
      split_and!; try done; [by eapply list_elem_of_In, list_elem_of_lookup_2|].
      split; [|done]. intros _. by exists k.
    + rewrite list_lookup_alter_ne in Hi by done.
      destruct (Hbase _ _ Hi) as ([a' c'] & Hp & -> & Hlt). exists a', c'.
      split_and!; try done; [by eapply list_elem_of_In, list_elem_of_lookup_2|].
      split; [done|]. intros (k' & [= <-] & Hk'). exfalso.
      assert (length rest - S i = k)%nat; [|lia].
      apply (NoDup_lookup (map fst rest) _ _ a'); [done| |];
        by rewrite list_lookup_fmap, ?Hp, ?Hk'.
  - apply list_elem_of_In, list_elem_of_lookup in Hin as [i Hi].
    destruct (Hbase _ _ Hi) as ([a' c'] & Hp & -> & Hlt). exists a', c'.
    split_and!; try done; [by eapply list_elem_of_In, list_elem_of_lookup_2|].
    split; [done|]. by intros (? & ? & _).
Qed.

End InitLemmas.

(** What a site knows of the cell, as far as elections go. *)
Definition knows_cell `{ByteOrder} (hosts : list (Z * bool)) (h : Z) (s : site) : Prop :=
  ubik_host0 s = h
  /\ amIClone s = negb (is_voter hosts h)
  /\ nServers s = n_voters hosts
  /\ amIMagic s = is_lowest hosts h
  /\ NoDup (h :: map addr0 (ubik_servers s))
  /\ (forall ts, In ts (ubik_servers s) ->
        In (addr0 ts, isClone ts) hosts /\ magic ts = is_lowest hosts (addr0 ts))
  /\ (forall a c, In (a, c) hosts -> a = h \/ In a (map addr0 (ubik_servers s))).

Section InitSpec.
Context `{ByteOrder} (hosts : list (Z * bool)) (Hok : cell_ok hosts).

Lemma clone_flag_unique a c c' : In (a, c) hosts -> In (a, c') hosts -> c = c'.
Proof.
  intros H1 H2. destruct Hok as [Hnd _].
  apply list_elem_of_In, list_elem_of_lookup in H1 as [i Hi].
  apply list_elem_of_In, list_elem_of_lookup in H2 as [j Hj].
  assert (i = j) as ->; [|by simplify_eq].
  apply (NoDup_lookup (map fst hosts) _ _ a); [done| |];
    by rewrite list_lookup_fmap, ?Hi, ?Hj.
Qed.

Lemma is_voter_flag a c : In (a, c) hosts -> is_voter hosts a = negb c.
Proof.
  intros Hin. destruct c; cbn.
  - apply not_true_iff_false. rewrite is_voter_iff. intros Hf.
    by pose proof (clone_flag_unique _ _ _ Hin Hf).
  - by apply is_voter_iff.
Qed.

Lemma n_voters_perm l l' : l ≡ₚ l' -> n_voters l = n_voters l'.
Proof.
  induction 1; try done; unfold n_voters in *; cbn in *; repeat case_match; cbn; lia.
Qed.

Lemma host_addr_inj a b c d :
  In (a, c) hosts -> In (b, d) hosts -> ntohl a = ntohl b -> a = b.
Proof.
  intros Ha Hb E. destruct Hok as [_ Hv]. rewrite Forall_forall in Hv.
  apply ntohl_inj; [| |done].
  - apply (valid_u32 (a, c)), Hv. by apply list_elem_of_In.
  - apply (valid_u32 (b, d)), Hv. by apply list_elem_of_In.
Qed.

(** The magic host as one server [h] computes it from the [rest] of the cell. *)
Section Magic.
Context (h : Z) (c : bool) (rest : list (Z * bool)) (acc : init_acc).
Context (Hmem : forall p, In p hosts <-> p = (h, c) \/ In p rest) (Hh : 0 < h < NOHOST).
Context (Hacc : acc_spec (if c then 0 else ntohl h) rest acc).

Lemma magic_own :
  negb c && match ia_magicServer acc with Some _ => false | None => true end = is_lowest hosts h.
Proof.
  destruct Hacc as (_ & _ & Hm). assert (Hin : In (h, c) hosts) by (apply Hmem; by left).
  destruct c; cbn [negb andb].
  { symmetry. apply is_lowest_false. intros Hf.
    by pose proof (clone_flag_unique _ _ _ Hin Hf). }
  destruct (ia_magicServer acc) as [k|].
  - destruct Hm as (a & Hk & _ & Hlt & _). symmetry. apply is_lowest_false.
    intros _. exists a. split.
    + apply Hmem. right. by eapply list_elem_of_In, list_elem_of_lookup_2.
    + pose proof (valid_nonzero h Hh). lia.
  - destruct Hm as [_ Hall]. symmetry. apply is_lowest_iff. split; [done|].
    intros b Hb. apply Hmem in Hb as [?|Hb]; [simplify_eq; lia|].
    by apply Hall.
Qed.

Lemma magic_remote (Hne : forall p, In p rest -> ntohl (fst p) <> ntohl h) ts a c' :
  In (a, c') rest ->
  (magic ts = true <-> exists k : nat, ia_magicServer acc = Some k /\ rest !! k = Some (a, false)) ->
  magic ts = is_lowest hosts a.
Proof.
  intros Hac Hmg. destruct Hacc as (_ & _ & Hm). destruct (magic ts) eqn:Emg.
  - destruct (proj1 Hmg eq_refl) as (k & Ek & Hk). rewrite Ek in Hm.
    destruct Hm as (a' & Hk' & _ & Hlt & Hall). rewrite Hk in Hk'. simplify_eq.
    symmetry. apply is_lowest_iff. split.
    + apply Hmem. right. by eapply list_elem_of_In, list_elem_of_lookup_2.
    + intros b Hb. apply Hmem in Hb as [?|Hb]; [|by apply Hall].
      simplify_eq. pose proof (valid_nonzero _ Hh). lia.
  - symmetry. apply is_lowest_false. intros Hf.
    assert (Hac' : In (a, c') hosts) by (apply Hmem; by right).
    pose proof (clone_flag_unique _ _ _ Hac' Hf) as ->.
    destruct (ia_magicServer acc) as [k|].
    + destruct Hm as (a' & Hk & _ & _ & Hall).
      assert (Ha' : In (a', false) rest)
        by (by eapply list_elem_of_In, list_elem_of_lookup_2).
      exists a'. split; [apply Hmem; by right|].
      assert (ntohl a' <> ntohl a); [|specialize (Hall _ Hac); lia].
      intros E. assert (a' = a) as ->.
      { eapply host_addr_inj; [apply Hmem; right; done|done|done]. }
      enough (false = true) by done. apply Hmg. by exists k.
    + destruct Hm as [_ Hall]. destruct (Hall _ Hac) as [Hm0 Hle].
      exists h. destruct c; [done|]. split; [apply Hmem; by left|].
      specialize (Hne _ Hac). cbn in Hne. lia.
Qed.
End Magic.

(** Every server of the cell, initialised from the same configuration, ends up
    with the same view: the number of voters, who is a clone, and that the magic
    host is the voter with the lowest address. *)
Lemma init_knows_cell h c now :
  In (h, c) hosts -> knows_cell hosts h (ubeacon_InitServerListByInfo h hosts now).
Proof.
  intros Hin. destruct (in_split _ _ Hin) as (l1 & l2 & Hsplit).
  destruct (cell_ok_distinct _ _ _ _ _ Hok Hsplit) as (Hv & Hnd & Hh & Hne).
  set (rest := l1 ++ l2) in *.
  assert (Hmem : forall p, In p hosts <-> p = (h, c) \/ In p rest).
  { intros p. rewrite Hsplit. unfold rest. rewrite !in_app_iff. cbn.
    intuition congruence. }
  assert (Hnv : n_voters hosts = n_voters rest + (if c then 0 else 1)).
  { rewrite (n_voters_perm hosts ((h, c) :: rest)).
    - change ((h, c) :: rest) with ([(h, c)] ++ rest). rewrite n_voters_app, n_voters_one.
      lia.
    - rewrite Hsplit. symmetry. apply Permutation_middle. }
  assert (Hfm : find_me h 0 hosts (-1) false = (0 + Z.of_nat (length l1), c)).
  { rewrite Hsplit. by rewrite (find_me_here h 0 l1 c l2 (-1) false). }
  assert (Hadd : forall acc, add_remotes (0 + Z.of_nat (length l1)) 0 hosts acc
                             = foldl add_one acc rest).
  { intros acc. rewrite Hsplit. apply add_remotes_here. }
  unfold ubeacon_InitServerListByInfo. rewrite Hfm, Hadd.
  set (m0 := if c then 0 else ntohl h).
  set (acc := foldl add_one (mkInit [] m0 None 0) rest).
  assert (Hacc : acc_spec m0 rest acc).
  { apply (acc_spec_fold m0 rest [] (mkInit [] m0 None 0)); [done|].
    split_and!; try done. }
  pose proof Hacc as (Hs & Hc & Hm).
  assert (Haddr : map addr0 (ia_servers acc) = rev (map fst rest)).
  { rewrite Hs, map_rev, map_map. done. }
  unfold knows_cell, init_finish.
  cbn [ubik_host0 amIClone nServers amIMagic ubik_servers].
  rewrite mark_magic_addr, Haddr. split_and!.
  - done.
  - rewrite (is_voter_flag h c Hin). by destruct c.
  - rewrite Hnv, Hc. destruct c; lia.
  - by apply (magic_own h c rest acc).
  - constructor.
    + rewrite list_elem_of_In, <- in_rev, in_map_iff. intros (p & <- & Hp).
      by apply (Hne p).
    + rewrite rev_alt. fold (reverse (map fst rest)). by rewrite reverse_Permutation.
  - intros ts Hts.
    destruct (mark_magic_servers _ _ _ _ Hacc Hnd Hts) as (a & c' & Hac & Ha & Hcl & _ & Hmg).
    assert (Ha0 : addr0 ts = a) by (unfold addr0; by rewrite Ha).
    rewrite Ha0, Hcl. split; [apply Hmem; by right|].
    by apply (magic_remote h c rest acc Hmem Hh Hacc Hne ts a c').
  - intros a c' Hac. apply Hmem in Hac as [?|Hac]; [simplify_eq; by left|]. right.
    rewrite <- in_rev, in_map_iff. by exists (a, c').
Qed.

End InitSpec.

(** ** Counting votes *)

Section Weights.
Context `{ByteOrder} (hosts : list (Z * bool)) (Hok : cell_ok hosts).

Lemma weight_nonneg h : 0 <= weight hosts h.
Proof. unfold weight. repeat case_match; lia. Qed.

Lemma weights_cons h l : weights hosts (h :: l) = weight hosts h + weights hosts l.
Proof. done. Qed.

Lemma weights_app l l' : weights hosts (l ++ l') = weights hosts l + weights hosts l'.
Proof. induction l as [|x l IH]; [done|]. cbn [app]. rewrite !weights_cons. lia. Qed.

Lemma weights_nonneg l : 0 <= weights hosts l.
Proof.
  induction l as [|x l IH]; [done|]. rewrite weights_cons.
  pose proof (weight_nonneg x). lia.
Qed.

Lemma weights_perm l l' : l ≡ₚ l' -> weights hosts l = weights hosts l'.
Proof. induction 1; rewrite ?weights_cons; lia. Qed.

Lemma weights_incl l L :
  NoDup l -> (forall x, x ∈ l -> x ∈ L) -> weights hosts l <= weights hosts L.
Proof.
  intros Hnd Hin. pose proof (NoDup_submseteq _ _ Hnd Hin) as Hsub.
  apply submseteq_Permutation in Hsub as [r Hr].
  rewrite (weights_perm _ _ Hr), weights_app. pose proof (weights_nonneg r). lia.
Qed.

Lemma is_lowest_unique a b :
  is_lowest hosts a = true -> is_lowest hosts b = true -> a = b.
Proof.
  rewrite !is_lowest_iff. intros [Ha Hla] [Hb Hlb].
  specialize (Hla _ Hb). specialize (Hlb _ Ha).
  eapply host_addr_inj; [done|done|done|lia].
Qed.

Lemma lowest_sum l :
  NoDup l -> foldr (fun h n => (if is_lowest hosts h then 1 else 0) + n) 0 l <= 1.
Proof.
  induction l as [|x l IH]; cbn [foldr]; intros Hnd; [lia|].
  apply NoDup_cons in Hnd as [Hx Hnd]. destruct (is_lowest hosts x) eqn:E; [|auto with lia].
  enough (Hz : foldr (fun h n => (if is_lowest hosts h then 1 else 0) + n) 0 l = 0) by lia.
  clear IH Hnd. induction l as [|y l IH]; cbn [foldr]; [done|].
  apply not_elem_of_cons in Hx as [Hxy Hx]. rewrite IH by done.
  destruct (is_lowest hosts y) eqn:E'; [|done].
  by pose proof (is_lowest_unique _ _ E E').
Qed.

Lemma voter_sum l :
  (forall p, In p l -> In p hosts) ->
  foldr (fun h n => (if is_voter hosts h then 2 else 0) + n) 0 (map fst l) = 2 * n_voters l.
Proof.
  induction l as [|[a c] l IH]; cbn [map foldr fst]; intros Hl; [done|].
  rewrite IH by (intros; apply Hl; by right).
  rewrite (is_voter_flag _ Hok a c) by (apply Hl; by left).
  change ((a, c) :: l) with ([(a, c)] ++ l). rewrite n_voters_app, n_voters_one.
  destruct c; cbn; lia.
Qed.

Lemma weights_split l :
  weights hosts l
  = foldr (fun h n => (if is_voter hosts h then 2 else 0) + n) 0 l
    + foldr (fun h n => (if is_lowest hosts h then 1 else 0) + n) 0 l.
Proof.
  induction l as [|x l IH]; [done|]. rewrite weights_cons, IH. cbn [foldr].
  unfold weight. lia.
Qed.

(** All votes of the cell together. *)
Lemma weights_all : weights hosts (map fst hosts) <= 2 * n_voters hosts + 1.
Proof.
  rewrite weights_split, voter_sum by done.
  pose proof (lowest_sum (map fst hosts) (proj1 Hok)). lia.
Qed.

Lemma weights_voters l :
  weights hosts (filter (fun h => is_voter hosts h = true) l) = weights hosts l.
Proof.
  induction l as [|x l IH]; [done|]. rewrite filter_cons.
  case_decide as E; rewrite ?weights_cons, IH; [done|].
  assert (weight hosts x = 0); [|lia].
  unfold weight, is_lowest. apply not_true_is_false in E. by rewrite E.
Qed.

(** Two sets of yes votes that each exceed the number of voters have a voter in
    common: the magic host's extra vote breaks the tie of an even cell. *)
Lemma quorums_intersect Q1 Q2 :
  NoDup Q1 -> NoDup Q2 ->
  (forall x, x ∈ Q1 -> x ∈ map fst hosts) -> (forall x, x ∈ Q2 -> x ∈ map fst hosts) ->
  n_voters hosts < weights hosts Q1 -> n_voters hosts < weights hosts Q2 ->
  exists j, j ∈ Q1 /\ j ∈ Q2 /\ is_voter hosts j = true.
Proof.
  intros Hn1 Hn2 Hi1 Hi2 Hw1 Hw2.
  rewrite <- weights_voters in Hw1. rewrite <- weights_voters in Hw2.
  set (F := filter (fun h => is_voter hosts h = true)) in *.
  destruct (decide (Exists (fun j => j ∈ F Q2) (F Q1))) as [He|Hd].
  - apply Exists_exists in He as (j & H1 & H2). exists j.
    apply list_elem_of_filter in H1 as [Hv H1]. apply list_elem_of_filter in H2 as [_ H2].
    done.
  - exfalso. enough (weights hosts (F Q1 ++ F Q2) <= 2 * n_voters hosts + 1)
      by (rewrite weights_app in *; lia).
    etransitivity; [|apply weights_all]. apply weights_incl.
    + apply NoDup_app. split_and!; [by apply NoDup_filter| |by apply NoDup_filter].
      intros x H1 H2. apply Hd. apply Exists_exists. by exists x.
    + intros x [Hx|Hx]%elem_of_app; apply list_elem_of_filter in Hx as [_ Hx]; auto.
Qed.

End Weights.

(** The votes a collection of replies is worth: primary address and vote time of
    each accepted reply, read off the server list. *)
Definition accepted_one (c : beacon_call) (srv : list ubik_server) (r : reply)
    : option (ubik_server * Z) :=
  match c_targets c !! r_multi r with
  | Some k =>
      match srv !! k with
      | Some ts =>
          let code := sane_code r in
          if (0 <? code) && negb (is_token_error code) then Some (ts, code) else None
      | None => None
      end
  | None => None
  end.

(** Everything but the server bookkeeping. *)
Definition same_but_servers (s s' : site) : Prop :=
  s' = set_servers (ubik_servers s') s /\ map srv_conf (ubik_servers s') = map srv_conf (ubik_servers s).

Section Tally.
Context `{ByteOrder}.

Lemma server_reply_conf ts code temp : srv_conf (server_reply ts code temp) = srv_conf ts.
Proof. unfold server_reply, srv_conf, addr0. repeat case_match; done. Qed.

Lemma map_insert_same {A B} (f : A -> B) k x y (l : list A) :
  l !! k = Some x -> f y = f x -> map f (<[k:=y]> l) = map f l.
Proof.
  intros Hk Hf. revert k Hk. induction l as [|z l IH]; intros [|k] Hk; cbn in *; try done.
  - simplify_eq. by rewrite Hf.
  - f_equal. by apply IH.
Qed.

Lemma interact_reply_frame c r t s :
  let st := interact_reply c r (t, s) in
  same_but_servers s (snd st)
  /\ match accepted_one c (ubik_servers s) r with
     | Some (ts, code) =>
         yesVotes (fst st) = yesVotes t + (if isClone ts then 0 else 2) + (if magic ts then 1 else 0)
         /\ oldestYesVote (fst st) = Z.min code (oldestYesVote t)
     | None => fst st = t
     end.
Proof.
  unfold interact_reply, accepted_one, same_but_servers.
  destruct (c_targets c !! r_multi r) as [k|]; [|by destruct s].
  destruct (ubik_servers s !! k) as [ts|] eqn:Ek; [|by destruct s].
  cbv zeta. cbn [fst snd]. split.
  - cbn [set_servers ubik_servers]. split; [by destruct s|].
    eapply map_insert_same; [done|]. apply server_reply_conf.
  - unfold tally_reply.
    destruct ((0 <? sane_code r) && negb (is_token_error (sane_code r))); [|done].
    cbn. split; [done|]. destruct (_ <? _) eqn:?; lia.
Qed.

End Tally.

(** ** The cell as a transition system *)

(** Clock values stay below the point where the 32-bit sums of the code
    overflow (in the year 2038). *)
Definition TIME_MAX := 2147479552.  (* 2^31 - 4096 *)

(** Progress of one iteration of a host's beacon loop.  The second component of
    [Tallied] is ghost: the votes the tally counted. *)
Inductive phase :=
  | Idle
  | Collecting (c : beacon_call) (replies : list reply)
  | Tallied (t : tally) (votes : list (Z * Z)).

Record cell := mkCell {
  sites : Z -> site;
  clock : Z -> Z;
  hist : Z -> list (Z * Z);   (* ghost: yes votes cast, as (host, time) *)
  phases : Z -> phase
}.

Definition upd {A} (f : Z -> A) (k : Z) (x : A) : Z -> A :=
  fun i => if i =? k then x else f i.

Definition record_vote (h vt : Z) (l : list (Z * Z)) : list (Z * Z) :=
  if vt =? 0 then l else (h, vt) :: l.

Definition tally_replies (c : beacon_call) (rs : list reply) (s : site) : tally * site :=
  foldl (fun st r => interact_reply c r st) (mkTally 0 FOREVER, s) rs.

(** The votes among the replies, with the voter's primary address. *)
Definition vote_of (c : beacon_call) (srv : list ubik_server) (r : reply) : option (Z * Z) :=
  match accepted_one c srv r with
  | Some (ts, code) => Some (addr0 ts, code)
  | None => None
  end.

Section Cell.
Context `{ByteOrder} (hosts : list (Z * bool)).

Definition member (h : Z) : Prop := In h (map fst hosts).

Definition clocks_ok (clk : Z -> Z) : Prop :=
  (forall h, member h -> 0 < clk h < TIME_MAX)
  /\ (forall a b, member a -> member b -> clk a - clk b <= MAXSKEW).

(** A server process as [ubik_ServerInitByInfo] starts it. *)
Definition boot (h now : Z) : site :=
  uvote_Init (ubeacon_InitServerListByInfo h hosts now) now.

Definition init_cell (clk : Z -> Z) : cell :=
  mkCell (fun h => boot h (clk h)) clk (fun _ => []) (fun _ => Idle).

(** The site's own vote in the third phase: the vote and the state after it. *)
Definition own_vote (c : beacon_call) (s : site) (now : Z) : Z * site :=
  let (am, s1) := ubeacon_AmSyncSite s now in
  SVOTE_Beacon s1 None (if am then 1 else 0) (c_start c) (c_version c) (c_tid c) now.

Inductive step (c : cell) : cell -> Prop :=
  | step_tick clk :
      clocks_ok clk -> (forall h, member h -> clock c h <= clk h) ->
      step c (mkCell (sites c) clk (hist c) (phases c))
  | step_begin h db call s' :
      member h ->
      interact_begin (sites c h) db (clock c h) (clock c h) (clock c h) = Some (call, s') ->
      step c (mkCell (upd (sites c) h s') (clock c) (hist c)
                (upd (phases c) h (Collecting call [])))
  | step_answer h j peer call rs i k ts vt s' temp err :
      (* the [i]-th call of [h]'s round reaches [j], which answers it *)
      member h -> member j -> h <> j ->
      phases c h = Collecting call rs -> i ∉ map r_multi rs ->
      c_targets call !! i = Some k -> ubik_servers (sites c h) !! k = Some ts ->
      addr0 ts = j ->
      ubikGetPrimaryInterfaceAddr (sites c j) peer = h ->
      SVOTE_Beacon (sites c j) (Some peer) (if c_syncsite call then 1 else 0)
        (c_start call) (c_version call) (c_tid call) (clock c j) = (vt, s') ->
      step c (mkCell (upd (sites c) j s') (clock c)
                (upd (hist c) j (record_vote h vt (hist c j)))
                (upd (phases c) h (Collecting call (rs ++ [mkReply i vt temp err]))))
  | step_stray j peer h astate astart ver tid vt s' :
      (* a beacon whose answer nobody waits for any more *)
      member j -> ubikGetPrimaryInterfaceAddr (sites c j) peer = h ->
      SVOTE_Beacon (sites c j) (Some peer) astate astart ver tid (clock c j) = (vt, s') ->
      step c (mkCell (upd (sites c) j s') (clock c)
                (upd (hist c) j (record_vote h vt (hist c j))) (phases c))
  | step_timeout h call rs i code temp err :
      (* no answer: an error code, never a vote *)
      member h -> phases c h = Collecting call rs -> i ∉ map r_multi rs -> code <= 0 ->
      step c (mkCell (sites c) (clock c) (hist c)
                (upd (phases c) h (Collecting call (rs ++ [mkReply i code temp err]))))
  | step_own h call rs t s1 vt s2 :
      member h -> phases c h = Collecting call rs ->
      tally_replies call rs (sites c h) = (t, s1) ->
      own_vote call s1 (clock c h) = (vt, s2) ->
      step c (mkCell (upd (sites c) h s2) (clock c)
                (upd (hist c) h (record_vote h vt (hist c h)))
                (upd (phases c) h
                   (Tallied (fst (interact_own_vote call t s1 (clock c h) (clock c h)))
                      ((if vt =? 0 then [] else [(h, vt)])
                       ++ omap (vote_of call (ubik_servers (sites c h))) rs))))
  | step_decide h t votes :
      member h -> phases c h = Tallied t votes ->
      step c (mkCell (upd (sites c) h (interact_decide t (sites c h) (clock c h)))
                (clock c) (hist c) (upd (phases c) h Idle))
  | step_check h :
      member h ->
      step c (mkCell (upd (sites c) h (snd (ubeacon_AmSyncSite (sites c h) (clock c h))))
                (clock c) (hist c) (phases c))
  | step_restart h :
      member h ->
      step c (mkCell (upd (sites c) h (boot h (clock c h))) (clock c) (hist c)
                (upd (phases c) h Idle)).

Inductive reachable : cell -> Prop :=
  | reach_init clk : clocks_ok clk -> reachable (init_cell clk)
  | reach_step c c' : reachable c -> step c c' -> reachable c'.

(** *** The invariant *)

(** A voter's promise: its yes votes are for voters, none later than the last
    one, and votes for different hosts are more than BIGTIME apart. *)
Definition promise (v : vote_data) (l : list (Z * Z)) (now : Z) : Prop :=
  0 < ubik_lastYesTime v <= now
  /\ (forall h t, In (h, t) l ->
        is_voter hosts h = true /\ t <= ubik_lastYesTime v
        /\ (h = lastYesHost v \/ t + BIGTIME < ubik_lastYesTime v \/ lastYesHost v = NOHOST))
  /\ (forall h t h' t', In (h, t) l -> In (h', t') l -> h <> h' ->
        t + BIGTIME < t' \/ t' + BIGTIME < t).

(** A majority of votes for [h], on record with the voters. *)
Definition majority (hi : Z -> list (Z * Z)) (h : Z) (votes : list (Z * Z)) : Prop :=
  NoDup (map fst votes)
  /\ (forall a t, In (a, t) votes -> member a /\ In (h, t) (hi a)).

Definition mandate (hi : Z -> list (Z * Z)) (h : Z) (b : beacon_data) : Prop :=
  ubik_amSyncSite b = true ->
  is_voter hosts h = false \/ n_voters hosts = 1
  \/ exists votes, majority hi h votes /\ n_voters hosts < weights hosts (map fst votes)
       /\ (forall a t, In (a, t) votes -> syncSiteUntil b <= t + SMALLTIME).

Definition phase_inv (hi : Z -> list (Z * Z)) (h : Z) (s : site) (p : phase) : Prop :=
  match p with
  | Idle => True
  | Collecting call rs =>
      NoDup (c_targets call) /\ NoDup (map r_multi rs)
      /\ (forall r k ts, In r rs -> c_targets call !! r_multi r = Some k ->
            ubik_servers s !! k = Some ts -> 0 < r_code r -> In (h, r_code r) (hi (addr0 ts)))
  | Tallied t votes =>
      majority hi h votes /\ yesVotes t = weights hosts (map fst votes)
      /\ 0 < oldestYesVote t
      /\ (forall a t', In (a, t') votes -> oldestYesVote t <= t')
  end.

Record cell_inv (c : cell) : Prop := {
  inv_clocks : clocks_ok (clock c);
  inv_knows : forall h, member h -> knows_cell hosts h (sites c h);
  inv_promise : forall j, member j -> is_voter hosts j = true ->
    promise (vote_globals (sites c j)) (hist c j) (clock c j);
  inv_past : forall j h t, member j -> In (h, t) (hist c j) -> 0 < t <= clock c j;
  inv_phase : forall h, member h -> phase_inv (hist c) h (sites c h) (phases c h);
  inv_mandate : forall h, member h -> mandate (hist c) h (beacon_globals (sites c h))
}.

End Cell.

(** ** Preservation of the invariant *)

Section CellLemmas.
Context `{ByteOrder} (hosts : list (Z * bool)) (Hok : cell_ok hosts).

Lemma upd_eq {A} (f : Z -> A) k x : upd f k x k = x.
Proof. unfold upd. by rewrite Z.eqb_refl. Qed.
Lemma upd_ne {A} (f : Z -> A) k x i : i <> k -> upd f k x i = f i.
Proof. intros Hne. unfold upd. by rewrite (proj2 (Z.eqb_neq i k)). Qed.

Lemma member_flag h : member hosts h -> exists c, In (h, c) hosts.
Proof. unfold member. rewrite in_map_iff. intros ([a c] & <- & ?). by exists c. Qed.

Lemma flag_member h c : In (h, c) hosts -> member hosts h.
Proof. unfold member. rewrite in_map_iff. intros ?. by exists (h, c). Qed.

Lemma member_valid h : member hosts h -> 0 < h < NOHOST.
Proof.
  intros [c Hc]%member_flag. destruct Hok as [_ Hv]. rewrite Forall_forall in Hv.
  apply (Hv (h, c)). by apply list_elem_of_In.
Qed.

Lemma map_addr0_conf l : map addr0 l = map (fun x => fst (fst x)) (map srv_conf l).
Proof. rewrite map_map. done. Qed.

Lemma knows_cell_conf h s s' :
  conf s' = conf s -> knows_cell hosts h s -> knows_cell hosts h s'.
Proof.
  unfold conf. intros [= Hsrv Hh Hc Hm Hn] (K1 & K2 & K3 & K4 & K5 & K6 & K7).
  assert (Ha : map addr0 (ubik_servers s') = map addr0 (ubik_servers s))
    by (rewrite !map_addr0_conf, Hsrv; done).
  unfold knows_cell. rewrite Ha. split_and!; try congruence.
  - intros ts Hts. apply (in_map srv_conf) in Hts. rewrite Hsrv in Hts.
    apply in_map_iff in Hts as (ts0 & [= E1 E2 E3] & Hin).
    destruct (K6 _ Hin). by rewrite <- E1, <- E2, <- E3.
  - done.
Qed.

Lemma srv_weight h s ts :
  knows_cell hosts h s -> In ts (ubik_servers s) ->
  (if isClone ts then 0 else 2) + (if magic ts then 1 else 0) = weight hosts (addr0 ts).
Proof.
  intros (_ & _ & _ & _ & _ & K6 & _) Hin. destruct (K6 _ Hin) as [Hf Hm].
  unfold weight. rewrite (is_voter_flag _ Hok _ _ Hf), Hm. by destruct (isClone ts).
Qed.

Lemma find_Some_In {A} (f : A -> bool) l x : List.find f l = Some x -> In x l /\ f x = true.
Proof. apply find_some. Qed.

Lemma primary_of_In l a p :
  primary_of l a = p -> p <> 0 -> exists ts, In ts l /\ addr0 ts = p.
Proof.
  induction l as [|ts l IH]; cbn; [done|]. intros E Hp.
  destruct (existsb _ _); [exists ts; auto|].
  destruct (IH E Hp) as (ts' & ? & ?). eauto.
Qed.

(** Whom a site takes a beacon to be from: a server of the cell, with its
    clone flag. *)
Lemma beacon_caller_member j s rx h cl :
  member hosts j -> knows_cell hosts j s -> beacon_caller s rx = Some (h, cl) ->
  In (h, cl) hosts /\ match rx with
                      | Some peer => ubikGetPrimaryInterfaceAddr s peer = h
                      | None => h = j
                      end.
Proof.
  intros Hj (K1 & K2 & _ & _ & _ & K6 & _). unfold beacon_caller. destruct rx as [peer|].
  - destruct (_ =? 0) eqn:E0; [done|]. intros E.
    destruct (List.find _ _) as [ts|] eqn:Ef.
    + apply find_Some_In in Ef as [Hin Ha]. simplify_eq.
      destruct (K6 _ Hin) as [Hf _]. split; [|done].
      by replace (ubikGetPrimaryInterfaceAddr s peer) with (addr0 ts) by lia.
    + exfalso.
      destruct (primary_of_In (ubik_servers s) peer _ eq_refl) as (ts & Hin & Ha);
        [unfold ubikGetPrimaryInterfaceAddr in *; lia|].
      pose proof (List.find_none _ _ Ef _ Hin) as Hn. cbn in Hn.
      unfold ubikGetPrimaryInterfaceAddr in *. lia.
  - intros [= <- <-]. rewrite K1, K2. split; [|done].
    destruct (member_flag _ Hj) as [c Hc].
    rewrite (is_voter_flag _ Hok _ _ Hc). by rewrite negb_involutive.
Qed.

(** When no other server votes, every voter is the host itself. *)
Lemma other_voters_zero j s h :
  knows_cell hosts j s -> other_voters s j = 0%nat -> is_voter hosts h = true -> h = j.
Proof.
  intros (_ & _ & _ & _ & _ & K6 & K7) Ho Hv. apply is_voter_iff in Hv.
  destruct (K7 _ _ Hv) as [?|Hin]; [done|].
  apply in_map_iff in Hin as (ts & Ha & Hin). destruct (K6 _ Hin) as [Hf _].
  rewrite Ha in Hf. pose proof (clone_flag_unique _ Hok _ _ _ Hv Hf) as Hc.
  destruct (Z.eq_dec h j) as [|Hne]; [done|]. exfalso.
  unfold other_voters in Ho. apply length_zero_iff_nil in Ho.
  assert (Hfil : In ts (List.filter
            (fun ts => negb (addr0 ts =? j) && negb (isClone ts)) (ubik_servers s))).
  { apply filter_In. split; [done|]. rewrite <- Hc, Ha. cbn. lia. }
  by rewrite Ho in Hfil.
Qed.

(** Answering a beacon keeps the promise. *)
Lemma promise_beacon j s rx a st ver tid now vt s' l h :
  member hosts j -> knows_cell hosts j s -> now < TIME_MAX ->
  promise hosts (vote_globals s) l now ->
  SVOTE_Beacon s rx a st ver tid now = (vt, s') ->
  (match rx with Some peer => ubikGetPrimaryInterfaceAddr s peer = h | None => h = j end) ->
  promise hosts (vote_globals s') (record_vote h vt l) now.
Proof.
  intros Hj Hk Hmax (Ht & Hin & Hpair) E Hrx.
  apply SVOTE_Beacon_cases in E as (_ & _ & _ & [Hyes|Hno]).
  - destruct Hyes as (h' & Hcaller & -> & Hlt & Hlh & Hcond).
    destruct (beacon_caller_member _ _ _ _ _ Hj Hk Hcaller) as [Hmem Hrx'].
    assert (h' = h) as -> by (destruct rx; congruence).
    assert (Hv : is_voter hosts h = true) by (by apply is_voter_iff).
    pose proof (member_valid h (flag_member _ _ Hmem)) as Hvalid.
    assert (Hold : forall h0 t0, In (h0, t0) l -> h0 = h \/ t0 + BIGTIME < now).
    { intros h0 t0 Hl. destruct (Hin _ _ Hl) as (Hv0 & Hle & Hc).
      destruct Hcond as [Hexp|[->|(Hno & Hme & Hoth)]].
      - right. unfold add32 in Hexp. rewrite s32_small in Hexp
          by (unfold BIGTIME, TIME_MAX in *; mlia). lia.
      - destruct Hc as [?|[?|?]]; [by left|right; lia|lia].
      - left. destruct Hk as (K1 & Hk'). rewrite Hme, K1. rewrite Hme, K1 in Hoth.
        by apply (other_voters_zero j s). }
    unfold record_vote. rewrite (proj2 (Z.eqb_neq now 0)) by lia.
    split_and!; rewrite ?Hlt, ?Hlh.
    + lia.
    + lia.
    + intros h0 t0 [[= <- <-]|Hl]; [split_and!; [done|lia|by left]|].
      destruct (Hin _ _ Hl) as (Hv0 & Hle & _). split_and!; [done|lia|].
      destruct (Hold _ _ Hl); auto.
    + intros h0 t0 h1 t1 [[= <- <-]|H0] [[= <- <-]|H1] Hne; [done| | |by eapply Hpair].
      * destruct (Hold _ _ H1); [congruence|by right].
      * destruct (Hold _ _ H0); [congruence|by left].
  - destruct Hno as (-> & Hlt & Hlh). unfold record_vote. rewrite Z.eqb_refl.
    split_and!; rewrite ?Hlt; try lia; [|done].
    intros h0 t0 Hl. destruct (Hin _ _ Hl) as (Hv0 & Hle & Hc). split_and!; try done.
    destruct Hlh as [->|(Hn & Hme & Hoth)]; [done|]. left. rewrite Hme.
    destruct Hk as (K1 & Hk'). rewrite K1. rewrite K1 in Hoth.
    by apply (other_voters_zero j s).
Qed.

End CellLemmas.

Section CellSafety.
Context `{ByteOrder} (hosts : list (Z * bool)) (Hok : cell_ok hosts).

Lemma same_but_servers_conf s s' :
  same_but_servers s s' ->
  conf s' = conf s /\ vote_globals s' = vote_globals s /\ beacon_globals s' = beacon_globals s.
Proof. intros [-> Hc]. unfold conf. cbn in *. by rewrite Hc. Qed.

Lemma vote_of_conf c srv srv' r :
  map srv_conf srv' = map srv_conf srv -> vote_of c srv' r = vote_of c srv r.
Proof.
  intros Hc. unfold vote_of, accepted_one. destruct (c_targets c !! r_multi r) as [k|]; [|done].
  assert (Hk : map srv_conf srv' !! k = map srv_conf srv !! k) by (by rewrite Hc).
  rewrite !list_lookup_fmap in Hk.
  destruct (srv' !! k) as [ts'|], (srv !! k) as [ts|]; cbn in Hk; try done.
  injection Hk as Ha Hcl Hm. cbv zeta.
  destruct ((0 <? sane_code r) && _); [by rewrite Ha|done].
Qed.

Lemma omap_vote_of_conf c srv srv' (rs : list reply) :
  map srv_conf srv' = map srv_conf srv -> omap (vote_of c srv') rs = omap (vote_of c srv) rs.
Proof.
  intros Hc. induction rs as [|r rs IH]; cbn; [done|].
  rewrite (vote_of_conf c srv srv' r Hc). by rewrite IH.
Qed.

(** Counting the replies adds up the weights of the accepted votes. *)
Lemma tally_fold h c rs t s t' s' :
  knows_cell hosts h s ->
  foldl (fun st r => interact_reply c r st) (t, s) rs = (t', s') ->
  let votes := omap (vote_of c (ubik_servers s)) rs in
  same_but_servers s s'
  /\ yesVotes t' = yesVotes t + weights hosts (map fst votes)
  /\ oldestYesVote t' <= oldestYesVote t
  /\ (forall a x, In (a, x) votes -> oldestYesVote t' <= x)
  /\ (0 < oldestYesVote t -> (forall a x, In (a, x) votes -> 0 < x) -> 0 < oldestYesVote t').
Proof.
  revert t s. induction rs as [|r rs IH]; intros t s Hk E; cbn [foldl] in E.
  - simplify_eq. cbn. split_and!; try done; try lia. split; [by destruct s'|done].
  - destruct (interact_reply c r (t, s)) as [t1 s1] eqn:E1.
    pose proof (interact_reply_frame c r t s) as Hf. rewrite E1 in Hf. cbn [fst snd] in Hf.
    destruct Hf as [Hsb Hacc].
    pose proof (same_but_servers_conf _ _ Hsb) as (Hconf & _ & _).
    specialize (IH t1 s1 (knows_cell_conf hosts h s s1 Hconf Hk) E).
    cbn zeta in IH. destruct Hsb as [Hs1 Hmap].
    rewrite (omap_vote_of_conf c _ _ rs Hmap) in IH.
    destruct IH as (Hsb' & Hy & Ho & Hle & Hpos).
    assert (Hsb2 : same_but_servers s s').
    { destruct Hsb' as [-> Hm']. split; [by rewrite Hs1|]. cbn in *. congruence. }
    assert (Evo : vote_of c (ubik_servers s) r =
              match accepted_one c (ubik_servers s) r with
              | Some (ts, code) => Some (addr0 ts, code) | None => None end) by done.
    cbn zeta. cbn [omap list_omap]. rewrite Evo. clear Evo.
    destruct (accepted_one c (ubik_servers s) r) as [[ts code]|] eqn:Eacc.
    + assert (Hin : In ts (ubik_servers s) /\ 0 < code).
      { unfold accepted_one in Eacc.
        destruct (c_targets c !! r_multi r) as [k|]; [|done].
        destruct (ubik_servers s !! k) eqn:Ek; [|done]. cbv zeta in Eacc.
        destruct ((0 <? sane_code r) && _) eqn:Eb; simplify_eq.
        split; [by eapply list_elem_of_In, list_elem_of_lookup_2|]. bool_hyps. lia. }
      pose proof (srv_weight hosts Hok h s ts Hk (proj1 Hin)) as Hw.
      destruct Hacc as [Hy1 Ho1]. split_and!; try done.
      * cbn [map fst]. rewrite weights_cons. lia.
      * lia.
      * intros a x [[= <- <-]|Hx]; [lia|by eapply Hle].
      * intros H0 Hall. apply Hpos; [|intros; eapply Hall; by right]. lia.
    + subst t1. split_and!; done.
Qed.

Lemma sane_code_pos r : 0 < sane_code r -> sane_code r = r_code r.
Proof. unfold sane_code. repeat case_match; lia. Qed.

(** The voters of the accepted replies are distinct servers other than [h]. *)
Lemma votes_of_distinct h s c rs :
  knows_cell hosts h s -> NoDup (c_targets c) -> NoDup (map r_multi rs) ->
  NoDup (h :: map fst (omap (vote_of c (ubik_servers s)) rs)).
Proof.
  intros (_ & _ & _ & _ & Hnd & _) Ht Hr.
  assert (Hv : forall r a x, vote_of c (ubik_servers s) r = Some (a, x) ->
     exists k, c_targets c !! r_multi r = Some k /\ map addr0 (ubik_servers s) !! k = Some a).
  { intros r a x. unfold vote_of, accepted_one.
    destruct (c_targets c !! r_multi r) as [k|]; [|done]. intros E. exists k. split; [done|].
    rewrite list_lookup_fmap. destruct (ubik_servers s !! k); [|done].
    repeat case_match; simplify_eq. done. }
  apply NoDup_cons in Hnd as [Hh Hnd].
  apply NoDup_cons. split.
  - rewrite list_elem_of_In, in_map_iff. intros ([a x] & E & Hin). cbn in E. subst a.
    apply list_elem_of_In, list_elem_of_omap in Hin as (r & _ & Hvo).
    destruct (Hv _ _ _ Hvo) as (k & _ & Hk). apply Hh. by eapply list_elem_of_lookup_2.
  - induction rs as [|r rs IH]; cbn [omap list_omap map]; [constructor|].
    cbn [map] in Hr. apply NoDup_cons in Hr as [Hri Hr].
    destruct (vote_of c (ubik_servers s) r) as [[a x]|] eqn:Er; [|by apply IH].
    cbn [map fst]. apply NoDup_cons. split; [|by apply IH].
    rewrite list_elem_of_In, in_map_iff. intros ([a' x'] & E & Hin). cbn in E. subst a'.
    apply list_elem_of_In, list_elem_of_omap in Hin as (r' & Hr' & Hvo).
    destruct (Hv _ _ _ Er) as (k & Hk & Hak). destruct (Hv _ _ _ Hvo) as (k' & Hk' & Hak').
    pose proof (NoDup_lookup _ _ _ _ Hnd Hak Hak') as ->.
    pose proof (NoDup_lookup _ _ _ _ Ht Hk Hk') as Em.
    apply Hri. rewrite Em, list_elem_of_In. apply in_map. by apply list_elem_of_In.
Qed.

Lemma beacon_targets_bound me i l k : k ∈ beacon_targets me i l -> (i <= k)%nat.
Proof.
  revert i. induction l as [|ts l IH]; intros i; cbn; [by intros ?%elem_of_nil|].
  case_match; rewrite ?elem_of_cons; intros Hk.
  - destruct Hk as [->|Hk]; [lia|]. apply IH in Hk. lia.
  - apply IH in Hk. lia.
Qed.

Lemma beacon_targets_NoDup me i l : NoDup (beacon_targets me i l).
Proof.
  revert i. induction l as [|ts l IH]; intros i; cbn; [constructor|].
  case_match; [|apply IH]. apply NoDup_cons. split; [|apply IH].
  intros Hk%beacon_targets_bound. lia.
Qed.

Lemma majority_mono hi hi' h votes :
  (forall j x, In x (hi j) -> In x (hi' j)) ->
  majority hosts hi h votes -> majority hosts hi' h votes.
Proof. intros Hm [Hnd Hv]. split; [done|]. intros a t Ha. destruct (Hv _ _ Ha). auto. Qed.

Lemma mandate_mono hi hi' h b :
  (forall j x, In x (hi j) -> In x (hi' j)) ->
  mandate hosts hi h b -> mandate hosts hi' h b.
Proof.
  intros Hm Hb Ha. destruct (Hb Ha) as [?|[?|(votes & Hv & Hw)]]; [auto|auto|].
  right; right. exists votes. split; [by eapply majority_mono|done].
Qed.

Lemma phase_inv_mono hi hi' h s s' p :
  (forall j x, In x (hi j) -> In x (hi' j)) -> ubik_servers s' = ubik_servers s ->
  phase_inv hosts hi h s p -> phase_inv hosts hi' h s' p.
Proof.
  intros Hm Hs. destruct p as [|c rs|t votes]; cbn; [done| |].
  - rewrite Hs. intros (? & ? & Hr). split_and!; try done. intros. apply Hm. by eapply Hr.
  - intros (? & ?). split; [by eapply majority_mono|done].
Qed.

Lemma record_vote_incl (hi : Z -> list (Z * Z)) j h vt i x :
  In x (hi i) -> In x (upd hi j (record_vote h vt (hi j)) i).
Proof.
  intros Hx. destruct (Z.eq_dec i j) as [->|Hne]; [|by rewrite upd_ne].
  rewrite upd_eq. unfold record_vote. case_match; [done|by right].
Qed.

End CellSafety.

Section CellPreservation.
Context `{ByteOrder} (hosts : list (Z * bool)) (Hok : cell_ok hosts).

(** A step that changes the site [j], adds votes of [j], and changes the phase
    of [h0]: what is left to check. *)
Lemma inv_local c c' j h0 :
  cell_inv hosts c -> clock c' = clock c ->
  (forall h, h <> j -> sites c' h = sites c h /\ hist c' h = hist c h) ->
  (forall h, h <> h0 -> phases c' h = phases c h) ->
  (forall x, In x (hist c j) -> In x (hist c' j)) ->
  (member hosts j ->
   knows_cell hosts j (sites c' j)
   /\ (is_voter hosts j = true ->
       promise hosts (vote_globals (sites c' j)) (hist c' j) (clock c j))
   /\ (forall h t, In (h, t) (hist c' j) -> 0 < t <= clock c j)
   /\ mandate hosts (hist c') j (beacon_globals (sites c' j))
   /\ (h0 <> j -> ubik_servers (sites c' j) = ubik_servers (sites c j))) ->
  (member hosts h0 -> phase_inv hosts (hist c') h0 (sites c' h0) (phases c' h0)) ->
  cell_inv hosts c'.
Proof.
  intros [I1 I2 I3 I4 I5 I6] Hclk Hother Hph Hext Hj H0.
  assert (Hmono : forall i x, In x (hist c i) -> In x (hist c' i)).
  { intros i x Hx. destruct (Z.eq_dec i j) as [->|Hne]; [auto|].
    by rewrite (proj2 (Hother i Hne)). }
  constructor; rewrite ?Hclk; try done; intros h.
  - intros Hm. destruct (Z.eq_dec h j) as [->|Hne]; [by apply Hj|].
    rewrite (proj1 (Hother h Hne)). auto.
  - intros Hm Hv. destruct (Z.eq_dec h j) as [->|Hne]; [by apply Hj|].
    rewrite (proj1 (Hother h Hne)), (proj2 (Hother h Hne)). auto.
  - intros h' t Hm. destruct (Z.eq_dec h j) as [->|Hne]; [by apply Hj|].
    rewrite (proj2 (Hother h Hne)). eauto.
  - intros Hm. destruct (Z.eq_dec h h0) as [->|Hne0]; [auto|].
    rewrite (Hph h Hne0). destruct (Z.eq_dec h j) as [->|Hne].
    + eapply phase_inv_mono; [done| |by apply I5]. apply Hj; [done|congruence].
    + eapply phase_inv_mono; [done| |by apply I5]. by rewrite (proj1 (Hother h Hne)).
  - intros Hm. destruct (Z.eq_dec h j) as [->|Hne]; [by apply Hj|].
    rewrite (proj1 (Hother h Hne)). eapply mandate_mono; eauto.
Qed.

Lemma record_vote_past (l : list (Z * Z)) h vt now :
  (forall x t, In (x, t) l -> 0 < t <= now) -> (vt = 0 \/ 0 < vt <= now) ->
  forall x t, In (x, t) (record_vote h vt l) -> 0 < t <= now.
Proof.
  intros Hl Hvt x t. unfold record_vote. case_match; [apply Hl|].
  intros [[= <- <-]|?]; [lia|by eapply Hl].
Qed.

Lemma SVOTE_vote s rx a st ver tid now vt s' :
  SVOTE_Beacon s rx a st ver tid now = (vt, s') -> 0 < now -> vt = 0 \/ 0 < vt <= now.
Proof. intros (_ & _ & _ & [(?&_&->&_)|(->&_)])%SVOTE_Beacon_cases; [right; lia|by left]. Qed.

Lemma boot_knows h now : member hosts h -> knows_cell hosts h (boot hosts h now).
Proof. intros [c Hc]%member_flag. exact (init_knows_cell hosts Hok h c now Hc). Qed.

Lemma boot_mandate hi h now :
  member hosts h -> mandate hosts hi h (beacon_globals (boot hosts h now)).
Proof.
  intros Hm. pose proof (boot_knows h now Hm) as (K1 & K2 & K3 & _ & _ & K6 & K7).
  unfold mandate. destruct (is_voter hosts h) eqn:Ev; [|by left].
  intros Hb. right; left. rewrite <- K3.
  destruct (member_flag hosts h Hm) as [c Hc].
  revert K2 K3 K7 Hb. unfold boot, ubeacon_InitServerListByInfo.
  destruct (find_me h 0 hosts (-1) false) as [me clone].
  set (acc := add_remotes _ _ _ _). set (n := if clone then _ else _).
  unfold uvote_Init, init_finish.
  cbn [beacon_globals set_vote amIClone nServers ubik_servers]. intros -> Hn K7.
  cbn [negb andb]. rewrite andb_true_r.
  destruct (n =? 1) eqn:E1; [lia|]. cbn [orb].
  destruct (mark_magic acc) as [|ts srv]; [|done]. intros _. rewrite Hn.
  assert (Hall : forall p, In p hosts -> p = (h, false)).
  { intros [a c'] Hin. destruct (K7 a c' Hin) as [->|[]].
    apply is_voter_iff in Ev. f_equal. by eapply clone_flag_unique. }
  destruct Hok as [Hnd _]. destruct hosts as [|p [|q l]]; [done| |].
  - by rewrite (Hall p (or_introl eq_refl)).
  - rewrite (Hall p), (Hall q) in Hnd by (cbn; auto). cbn in Hnd.
    apply NoDup_cons in Hnd as [Hx _]. exfalso. apply Hx. by left.
Qed.

Lemma boot_promise h now l :
  0 < now -> (forall x t, In (x, t) l -> is_voter hosts x = true /\ 0 < t <= now) ->
  (forall x t x' t', In (x, t) l -> In (x', t') l -> x <> x' ->
     t + BIGTIME < t' \/ t' + BIGTIME < t) ->
  promise hosts (vote_globals (boot hosts h now)) l now.
Proof.
  intros Hn Hl Hp. unfold promise, boot, uvote_Init. cbn. split_and!; try lia; [|done].
  intros x t Hx. destruct (Hl _ _ Hx). split_and!; [done|lia|auto].
Qed.

Lemma init_inv clk : clocks_ok hosts clk -> cell_inv hosts (init_cell hosts clk).
Proof.
  intros Hclk. constructor; cbn; try done; intros h Hm.
  - by apply boot_knows.
  - intros _. apply boot_promise; try done. apply Hclk, Hm.
  - by apply boot_mandate.
Qed.

(** Answering a beacon, recorded or not. *)
Lemma beacon_inv c c' j h0 rx h a st ver tid vt s' :
  cell_inv hosts c -> member hosts j ->
  SVOTE_Beacon (sites c j) rx a st ver tid (clock c j) = (vt, s') ->
  (match rx with
   | Some peer => ubikGetPrimaryInterfaceAddr (sites c j) peer = h | None => h = j end) ->
  clock c' = clock c -> sites c' j = s' ->
  (forall i, i <> j -> sites c' i = sites c i) ->
  hist c' = upd (hist c) j (record_vote h vt (hist c j)) ->
  (forall i, i <> h0 -> phases c' i = phases c i) ->
  (member hosts h0 -> phase_inv hosts (hist c') h0 (sites c' h0) (phases c' h0)) ->
  cell_inv hosts c'.
Proof.
  intros Hinv Hm E Hrx Hclk Hsites Hsites' Hhist Hph H0. pose proof Hinv as [I1 I2 I3 I4 I5 I6].
  pose proof (SVOTE_Beacon_cases _ _ _ _ _ _ _ _ _ E) as (Hc & Hb & Hs & _).
  assert (Hclkj : 0 < clock c j < TIME_MAX) by (by apply I1).
  apply (inv_local c c' j h0); try done.
  - intros i Hi. by rewrite Hsites', Hhist, upd_ne.
  - intros x Hx. rewrite Hhist. by apply record_vote_incl.
  - intros _. rewrite Hsites, Hhist, upd_eq. split_and!.
    + eapply knows_cell_conf; eauto.
    + intros Hv. eapply promise_beacon; eauto; lia.
    + apply record_vote_past; [intros; by eapply I4|]. eapply SVOTE_vote; eauto. lia.
    + rewrite Hb. eapply mandate_mono; [|by apply I6].
      intros i x Hx. by apply record_vote_incl.
    + done.
Qed.

End CellPreservation.

Section CellSteps.
Context `{ByteOrder} (hosts : list (Z * bool)) (Hok : cell_ok hosts).

Lemma lookup_same_conf s s' k ts :
  map srv_conf (ubik_servers s') = map srv_conf (ubik_servers s) ->
  ubik_servers s' !! k = Some ts ->
  exists ts0, ubik_servers s !! k = Some ts0 /\ addr0 ts0 = addr0 ts.
Proof.
  intros Hc Hk.
  assert (E : map srv_conf (ubik_servers s') !! k = Some (srv_conf ts))
    by (by rewrite list_lookup_fmap, Hk).
  rewrite Hc, list_lookup_fmap in E.
  destruct (ubik_servers s !! k) as [ts0|]; [|done]. injection E as E1 _ _. eauto.
Qed.

(** A change of site [h] that touches neither configuration nor promises, and at
    most drops the mandate, keeps the invariant (and its collecting phase). *)
Lemma site_inv c h s' :
  cell_inv hosts c -> conf s' = conf (sites c h) ->
  vote_globals s' = vote_globals (sites c h) ->
  (beacon_globals s' = beacon_globals (sites c h)
   \/ ubik_amSyncSite (beacon_globals s') = false) ->
  cell_inv hosts (mkCell (upd (sites c) h s') (clock c) (hist c) (phases c)).
Proof.
  intros Hinv Hc Hv Hb. pose proof Hinv as [I1 I2 I3 I4 I5 I6].
  apply (inv_local hosts c _ h h); try done.
  - intros i Hi. cbn. by rewrite upd_ne.
  - intros Hm. cbn. rewrite upd_eq, Hv. split_and!; try done.
    + eapply knows_cell_conf; eauto.
    + by apply I3.
    + intros x t. by apply I4.
    + destruct Hb as [->|Hb]; [by apply I6|]. intros Ht. congruence.
  - intros Hm. cbn. rewrite upd_eq. specialize (I5 h Hm).
    destruct (phases c h) as [|call rs|t votes]; cbn in *; try done.
    destruct I5 as (? & ? & Hr). split_and!; try done.
    intros r k ts Hin Hk Hts Hpos. unfold conf in Hc. injection Hc as Hmap _ _ _ _.
    destruct (lookup_same_conf _ _ _ _ Hmap Hts) as (ts0 & Hk0 & <-). by eapply Hr.
Qed.

Lemma vote_of_pos c srv r a x :
  vote_of c srv r = Some (a, x) ->
  0 < x /\ x = r_code r /\ exists k ts, c_targets c !! r_multi r = Some k
    /\ srv !! k = Some ts /\ addr0 ts = a.
Proof.
  unfold vote_of, accepted_one. destruct (c_targets c !! r_multi r) as [k|]; [|done].
  destruct (srv !! k) as [ts|] eqn:Ets; [|done]. cbv zeta.
  destruct ((0 <? sane_code r) && _) eqn:E; [|done]. intros [= <- <-]. bool_hyps.
  split_and!; [lia|apply sane_code_pos; lia|eauto].
Qed.

Lemma interact_own_vote_own call t s now vt s2 :
  own_vote call s now = (vt, s2) ->
  interact_own_vote call t s now now
  = (if vt =? 0 then (t, s2)
     else (mkTally (yesVotes t + 2 + (if amIMagic s2 then 1 else 0))
             (if vt <? oldestYesVote t then vt else oldestYesVote t), s2)).
Proof.
  unfold own_vote, interact_own_vote. destruct (ubeacon_AmSyncSite s now) as [am s1].
  intros ->. unfold bool_of. by destruct (vt =? 0).
Qed.

Lemma step_own_inv c h call rs t s1 vt s2 :
  cell_inv hosts c -> member hosts h -> phases c h = Collecting call rs ->
  tally_replies call rs (sites c h) = (t, s1) ->
  own_vote call s1 (clock c h) = (vt, s2) ->
  cell_inv hosts
    (mkCell (upd (sites c) h s2) (clock c)
       (upd (hist c) h (record_vote h vt (hist c h)))
       (upd (phases c) h
          (Tallied (fst (interact_own_vote call t s1 (clock c h) (clock c h)))
             ((if vt =? 0 then [] else [(h, vt)])
              ++ omap (vote_of call (ubik_servers (sites c h))) rs)))).
Proof.
  intros Hinv Hm Hph Ht Hown. pose proof Hinv as [I1 I2 I3 I4 I5 I6].
  pose proof (I2 h Hm) as Hk.
  pose proof (tally_fold hosts Hok h call rs _ _ t s1 Hk Ht) as (Hsb & Hy & Ho & Hle & Hpos).
  pose proof (same_but_servers_conf _ _ Hsb) as (Hc1 & Hv1 & Hb1).
  rewrite (interact_own_vote_own _ _ _ _ _ _ Hown).
  unfold own_vote in Hown. destruct (ubeacon_AmSyncSite s1 (clock c h)) as [am sA] eqn:EA.
  pose proof (AmSyncSite_frame _ _ _ _ EA) as (HcA & HvA & HsA & HbA).
  assert (HcA' : conf sA = conf (sites c h)) by congruence.
  assert (HinvA : cell_inv hosts (mkCell (upd (sites c) h sA) (clock c) (hist c) (phases c))).
  { apply site_inv; try done; [congruence|]. destruct HbA; [left; congruence|by right]. }
  pose proof (SVOTE_Beacon_cases _ _ _ _ _ _ _ _ _ Hown) as (Hc2 & _ & _ & Hcase).
  specialize (I5 h Hm). rewrite Hph in I5. destruct I5 as (Htn & Hrn & Hrep).
  set (votes := omap (vote_of call (ubik_servers (sites c h))) rs) in *.
  assert (Hvotes : forall a x, In (a, x) votes ->
            0 < x /\ member hosts a /\ In (h, x) (hist c a)).
  { intros a x Hin. apply list_elem_of_In, list_elem_of_omap in Hin as (r & Hr & Hvo).
    destruct (vote_of_pos _ _ _ _ _ Hvo) as (Hx & -> & k & ts & Hkt & Hts & <-).
    split_and!; [done| |].
    - destruct Hk as (_ & _ & _ & _ & _ & K6 & _). eapply flag_member, K6.
      by eapply list_elem_of_In, list_elem_of_lookup_2.
    - eapply Hrep; eauto. by apply list_elem_of_In. }
  pose proof (votes_of_distinct hosts h _ _ rs Hk Htn Hrn) as Hnd. fold votes in Hnd.
  apply NoDup_cons in Hnd as [Hhn Hnd].
  eapply (beacon_inv hosts Hok _ _ h h None h); cbn [sites clock hist phases].
  - exact HinvA.
  - done.
  - cbn. rewrite upd_eq. exact Hown.
  - done.
  - done.
  - by rewrite upd_eq.
  - intros i Hi. cbn [sites]. by rewrite !upd_ne.
  - done.
  - intros i Hi. by rewrite upd_ne.
  - intros _. rewrite !upd_eq. cbn [phase_inv]. unfold majority.
    assert (Hpos' : 0 < oldestYesVote t).
    { apply Hpos; [done|]. intros a x Hx. by apply (Hvotes a x). }
    destruct Hcase as [(h' & Hcaller & -> & _)|(-> & _)].
    + assert (Hclk : 0 < clock c h < TIME_MAX) by (by apply I1).
      destruct (beacon_caller_member hosts Hok h sA None h' false Hm) as [Hvo ->];
        [by eapply knows_cell_conf|done|].
      rewrite (proj2 (Z.eqb_neq (clock c h) 0)) by lia. cbn [app map fst yesVotes oldestYesVote].
      split_and!.
      * by apply NoDup_cons.
      * intros a x [[= <- <-]|Hx].
        -- split; [done|]. rewrite upd_eq. unfold record_vote.
           rewrite (proj2 (Z.eqb_neq (clock c h) 0)) by lia. by left.
        -- destruct (Hvotes _ _ Hx) as (? & ? & ?). split; [done|].
           by apply record_vote_incl.
      * rewrite weights_cons. pose proof (knows_cell_conf hosts h _ s2 (eq_trans Hc2 HcA') Hk)
          as (_ & _ & _ & K4 & _). rewrite K4.
        unfold weight. apply is_voter_iff in Hvo. rewrite Hvo. cbn in Hy. lia.
      * destruct (_ <? _); lia.
      * intros a x [[= <- <-]|Hx]; [destruct (_ <? _) eqn:?; lia|].
        specialize (Hle _ _ Hx). destruct (_ <? _) eqn:?; lia.
    + cbn [Z.eqb app fst]. split_and!; try done.
      intros a x Hx. destruct (Hvotes _ _ Hx) as (? & ? & ?). split; [done|].
      by apply record_vote_incl.
Qed.

End CellSteps.

Section CellTheorem.
Context `{ByteOrder} (hosts : list (Z * bool)) (Hok : cell_ok hosts).

Lemma step_answer_inv c h j peer call rs i k ts vt s' temp err :
  cell_inv hosts c -> member hosts h -> member hosts j -> h <> j ->
  phases c h = Collecting call rs -> i ∉ map r_multi rs ->
  c_targets call !! i = Some k -> ubik_servers (sites c h) !! k = Some ts -> addr0 ts = j ->
  ubikGetPrimaryInterfaceAddr (sites c j) peer = h ->
  SVOTE_Beacon (sites c j) (Some peer) (if c_syncsite call then 1 else 0)
    (c_start call) (c_version call) (c_tid call) (clock c j) = (vt, s') ->
  cell_inv hosts
    (mkCell (upd (sites c) j s') (clock c) (upd (hist c) j (record_vote h vt (hist c j)))
       (upd (phases c) h (Collecting call (rs ++ [mkReply i vt temp err])))).
Proof.
  intros Hinv Hm Hj Hne Hph Hi Hk Hts Ha Hp Hv.
  eapply (beacon_inv hosts Hok c _ j h (Some peer) h); cbn [sites clock hist phases]; eauto.
  - by rewrite upd_eq.
  - intros. by rewrite upd_ne.
  - intros. by rewrite upd_ne.
  - intros _. rewrite upd_eq, upd_ne by done. pose proof (inv_phase _ _ Hinv h Hm) as Hpi.
    rewrite Hph in Hpi. destruct Hpi as (Htn & Hrn & Hr). cbn [phase_inv]. split_and!.
    + done.
    + rewrite map_app. cbn. apply NoDup_app. split_and!; [done| |apply NoDup_singleton].
      intros x Hx ->%list_elem_of_singleton. done.
    + intros r k' ts' [Hin|[<-|[]]]%in_app_or Hk' Hts' Hpos.
      * apply record_vote_incl. by eapply Hr.
      * cbn in *. simplify_eq. rewrite upd_eq. unfold record_vote.
        rewrite (proj2 (Z.eqb_neq vt 0)) by lia. by left.
Qed.

Lemma step_timeout_inv c h call rs i code temp err :
  cell_inv hosts c -> member hosts h -> phases c h = Collecting call rs ->
  i ∉ map r_multi rs -> code <= 0 ->
  cell_inv hosts (mkCell (sites c) (clock c) (hist c)
    (upd (phases c) h (Collecting call (rs ++ [mkReply i code temp err])))).
Proof.
  intros Hinv Hm Hph Hi Hcode. pose proof Hinv as [I1 I2 I3 I4 I5 I6].
  constructor; cbn; auto; try (intros; by eapply I4).
  intros h' Hm'. destruct (Z.eq_dec h' h) as [->|Hne]; [|rewrite upd_ne; auto].
  rewrite upd_eq. specialize (I5 h Hm). rewrite Hph in I5.
  destruct I5 as (Htn & Hrn & Hr). split_and!; [done| |].
  - rewrite map_app. cbn. apply NoDup_app. split_and!; [done| |apply NoDup_singleton].
    intros x Hx ->%list_elem_of_singleton. done.
  - intros r k' ts' [Hin|[<-|[]]]%in_app_or Hk' Hts' Hpos; [by eapply Hr|]. cbn in Hpos. lia.
Qed.

Lemma step_begin_inv c h db call s' :
  cell_inv hosts c -> member hosts h ->
  interact_begin (sites c h) db (clock c h) (clock c h) (clock c h) = Some (call, s') ->
  cell_inv hosts (mkCell (upd (sites c) h s') (clock c) (hist c)
                    (upd (phases c) h (Collecting call []))).
Proof.
  intros Hinv Hm E. unfold interact_begin in E.
  destruct (ubik_singleServer (sites c h)); [done|].
  destruct (negb (uvote_ShouldIRun (sites c h) (clock c h))); [done|].
  destruct (amSyncSite (sites c h) (clock c h)) as [am s1] eqn:EA.
  pose proof (amSyncSite_frame _ _ _ _ EA) as (Hc & Hv & Hs & Hb).
  injection E as <- <-.
  set (s' := if am then s1 else urecovery_ResetState s1).
  assert (Hinv' : cell_inv hosts (mkCell (upd (sites c) h s') (clock c) (hist c) (phases c))).
  { apply site_inv; try done.
    - unfold s'. destruct am; exact Hc.
    - unfold s'. destruct am; exact Hv.
    - destruct Hb as [->|[-> Hb]]; [left; unfold s'; by destruct am|].
      right. unfold s'. cbn. by rewrite Hb. }
  destruct Hinv' as [I1 I2 I3 I4 I5 I6]. constructor; cbn in *; auto.
  intros h' Hm'. destruct (Z.eq_dec h' h) as [->|Hne]; [|rewrite (upd_ne (phases c)) by done; by apply I5].
  rewrite !upd_eq. cbn [phase_inv c_targets map].
  split_and!; [apply beacon_targets_NoDup|constructor|done].
Qed.

Lemma step_decide_inv c h t votes :
  cell_inv hosts c -> member hosts h -> phases c h = Tallied t votes ->
  cell_inv hosts (mkCell (upd (sites c) h (interact_decide t (sites c h) (clock c h)))
                    (clock c) (hist c) (upd (phases c) h Idle)).
Proof.
  intros Hinv Hm Hph. pose proof Hinv as [I1 I2 I3 I4 I5 I6].
  set (s' := interact_decide t (sites c h) (clock c h)).
  assert (Hf : conf s' = conf (sites c h) /\ vote_globals s' = vote_globals (sites c h)
               /\ ubik_servers s' = ubik_servers (sites c h)).
  { unfold s', interact_decide. repeat case_match; done. }
  destruct Hf as (Hc & Hv & Hs).
  specialize (I5 h Hm). rewrite Hph in I5. destruct I5 as ((Hnd & Hvo) & Hy & Hpos & Hle).
  assert (Hmand : mandate hosts (hist c) h (beacon_globals s')).
  { unfold s', interact_decide.
    destruct (I2 h Hm) as (_ & _ & K3 & _). rewrite K3, Hy.
    destruct (n_voters hosts <? weights hosts (map fst votes)) eqn:Ew; [|done].
    assert (Hmaj : exists votes0, majority hosts (hist c) h votes0
       /\ n_voters hosts < weights hosts (map fst votes0)
       /\ (forall a t', In (a, t') votes0 ->
             add32 (oldestYesVote t) SMALLTIME <= t' + SMALLTIME)).
    { exists votes. split_and!; [by split|lia|]. intros a t' Hin.
      destruct (Hvo _ _ Hin) as [Ha Hh]. specialize (I4 _ _ _ Ha Hh).
      destruct I1 as [Hclk _]. specialize (Hclk _ Ha). specialize (Hle _ _ Hin).
      unfold add32. rewrite s32_small by (unfold SMALLTIME, TIME_MAX in *; mlia). lia. }
    destruct (negb (ubik_amSyncSite (beacon_globals (sites c h)))); intros _; right; right;
      exact Hmaj. }
  apply (inv_local hosts c _ h h); cbn; try done.
  - intros i Hi. by rewrite upd_ne.
  - intros i Hi. by rewrite upd_ne.
  - intros _. rewrite upd_eq. fold s'. rewrite Hv. split_and!; try done.
    + by eapply knows_cell_conf; [|by apply I2].
    + by apply I3.
    + intros x t'. by apply I4.
  - intros _. by rewrite !upd_eq.
Qed.

Lemma step_restart_inv c h :
  cell_inv hosts c -> member hosts h ->
  cell_inv hosts (mkCell (upd (sites c) h (boot hosts h (clock c h))) (clock c) (hist c)
                    (upd (phases c) h Idle)).
Proof.
  intros Hinv Hm. pose proof Hinv as [I1 I2 I3 I4 I5 I6].
  apply (inv_local hosts c _ h h); cbn [sites clock hist phases]; try done.
  - intros i Hi. by rewrite upd_ne.
  - intros i Hi. by rewrite upd_ne.
  - intros _. rewrite upd_eq. split_and!; try done.
    + by apply boot_knows.
    + intros Hv. destruct (I3 h Hm Hv) as (Hlt & Hin & Hp).
      apply boot_promise; [by apply I1| |done].
      intros x t Hx. split; [by apply (Hin x t)|by eapply I4].
    + intros x t. by apply I4.
    + by apply boot_mandate.
  - intros _. by rewrite !upd_eq.
Qed.

Lemma step_inv c c' : cell_inv hosts c -> step hosts c c' -> cell_inv hosts c'.
Proof.
  intros Hinv Hstep. destruct Hstep.
  - destruct Hinv as [I1 I2 I3 I4 I5 I6]. constructor; cbn; auto.
    + intros j Hj Hv. destruct (I3 j Hj Hv) as (Hlt & Hin & Hp).
      split_and!; try done; [lia|]. specialize (H1 j Hj). lia.
    + intros j h t Hj Hin. specialize (I4 _ _ _ Hj Hin). specialize (H1 j Hj). lia.
  - by eapply step_begin_inv.
  - by eapply step_answer_inv.
  - eapply (beacon_inv hosts Hok c _ j j (Some peer) h); cbn [sites clock hist phases]; eauto.
    + by rewrite upd_eq.
    + intros. by rewrite upd_ne.
    + intros _. rewrite upd_eq. eapply phase_inv_mono; [| |by apply Hinv].
      * intros. by apply record_vote_incl.
      * by apply SVOTE_Beacon_cases in H2 as (_ & _ & ? & _).
  - by eapply step_timeout_inv.
  - by eapply step_own_inv.
  - by eapply step_decide_inv.
  - destruct (ubeacon_AmSyncSite (sites c h) (clock c h)) as [r s'] eqn:E. cbn [snd].
    apply AmSyncSite_frame in E as (? & ? & ? & ?). by apply site_inv.
  - by apply step_restart_inv.
Qed.

Lemma reachable_inv c : reachable hosts c -> cell_inv hosts c.
Proof. induction 1; [by apply init_inv|by eapply step_inv]. Qed.

Lemma single_voter a b :
  n_voters hosts = 1 -> is_voter hosts a = true -> is_voter hosts b = true -> a = b.
Proof.
  rewrite !is_voter_iff. unfold n_voters. intros Hn Ha Hb.
  assert (Ha' : In (a, false) (List.filter (fun p => negb (snd p)) hosts))
    by (by apply filter_In).
  assert (Hb' : In (b, false) (List.filter (fun p => negb (snd p)) hosts))
    by (by apply filter_In).
  destruct (List.filter _ hosts) as [|x [|y l]]; cbn in *; try lia.
  destruct Ha' as [->|[]], Hb' as [[=]|[]]. done.
Qed.

(** Two mandates in force at the same moment belong to one host. *)
Lemma mandates_exclusive c h1 h2 v1 v2 :
  cell_inv hosts c -> member hosts h1 -> member hosts h2 ->
  majority hosts (hist c) h1 v1 -> n_voters hosts < weights hosts (map fst v1) ->
  majority hosts (hist c) h2 v2 -> n_voters hosts < weights hosts (map fst v2) ->
  (forall a t, In (a, t) v1 -> clock c h1 < t + SMALLTIME) ->
  (forall a t, In (a, t) v2 -> clock c h2 < t + SMALLTIME) -> h1 = h2.
Proof.
  intros Hinv Hm1 Hm2 [Hn1 Hv1] Hw1 [Hn2 Hv2] Hw2 Hu1 Hu2.
  destruct (Z.eq_dec h1 h2) as [|Hne]; [done|]. exfalso.
  destruct (quorums_intersect hosts Hok (map fst v1) (map fst v2)) as (j & Hj1 & Hj2 & Hjv);
    try done.
  { intros x Hx. apply list_elem_of_In. apply list_elem_of_In, in_map_iff in Hx as ([a t] & <- & Hx).
    by apply (Hv1 a t). }
  { intros x Hx. apply list_elem_of_In. apply list_elem_of_In, in_map_iff in Hx as ([a t] & <- & Hx).
    by apply (Hv2 a t). }
  apply list_elem_of_In, in_map_iff in Hj1 as ([j1 t1] & <- & Hx1).
  apply list_elem_of_In, in_map_iff in Hj2 as ([j2 t2] & E2 & Hx2). cbn in *. subst j2.
  destruct (Hv1 _ _ Hx1) as [Hmj Hh1]. destruct (Hv2 _ _ Hx2) as [_ Hh2].
  destruct Hinv as [[Hc Hskew] _ I3 I4 _ _].
  destruct (I3 j1 Hmj Hjv) as (_ & _ & Hp).
  specialize (Hu1 _ _ Hx1). specialize (Hu2 _ _ Hx2).
  pose proof (I4 _ _ _ Hmj Hh1). pose proof (I4 _ _ _ Hmj Hh2).
  pose proof (Hskew j1 h1 Hmj Hm1). pose proof (Hskew j1 h2 Hmj Hm2).
  unfold SMALLTIME, MAXSKEW in *.
  destruct (Hp _ _ _ _ Hh1 Hh2 Hne); unfold BIGTIME in *; lia.
Qed.

End CellTheorem.

(** [C1] Ubik never has two sync sites.  In every reachable state of a cell
    whose servers run the voting and beacon code of vote.c and beacon.c with
    clocks no more than MAXSKEW apart, whatever beacons are sent, lost, delayed
    or answered, and whichever servers restart, if two servers' own check
    [ubeacon_AmSyncSite] succeeds then they are the same server. *)
Theorem ubik_one_sync_site `{ByteOrder} hosts c h1 h2 s1 s2 :
  cell_ok hosts -> reachable hosts c -> member hosts h1 -> member hosts h2 ->
  ubeacon_AmSyncSite (sites c h1) (clock c h1) = (true, s1) ->
  ubeacon_AmSyncSite (sites c h2) (clock c h2) = (true, s2) ->
  h1 = h2.
Proof.
  intros Hok Hr Hm1 Hm2 E1 E2. pose proof (reachable_inv hosts Hok c Hr) as Hinv.
  apply AmSyncSite_true in E1 as [Hc1 E1]. apply AmSyncSite_true in E2 as [Hc2 E2].
  destruct (inv_knows _ _ Hinv h1 Hm1) as (_ & K1 & N1 & _).
  destruct (inv_knows _ _ Hinv h2 Hm2) as (_ & K2 & N2 & _).
  rewrite Hc1 in K1. rewrite Hc2 in K2. rewrite N1 in E1. rewrite N2 in E2.
  assert (Hv1 : is_voter hosts h1 = true) by (by destruct (is_voter hosts h1)).
  assert (Hv2 : is_voter hosts h2 = true) by (by destruct (is_voter hosts h2)).
  destruct (Z.eq_dec (n_voters hosts) 1) as [Hone|Hmany];
    [by apply (single_voter hosts)|].
  destruct E1 as [?|[B1 U1]]; [done|]. destruct E2 as [?|[B2 U2]]; [done|].
  destruct (inv_mandate _ _ Hinv h1 Hm1 B1) as [?|[?|(v1 & M1 & W1 & T1)]]; [congruence|done|].
  destruct (inv_mandate _ _ Hinv h2 Hm2 B2) as [?|[?|(v2 & M2 & W2 & T2)]]; [congruence|done|].
  apply (mandates_exclusive hosts Hok c h1 h2 v1 v2); try done.
  - intros a t Hin. specialize (T1 _ _ Hin). lia.
  - intros a t Hin. specialize (T2 _ _ Hin). lia.
Qed.


(** Initialisation agrees across the cell: two servers started from one
    cell configuration count the same voters, give every server the same clone
    and magic flags, and each sees the other as the other sees itself. *)
Theorem ubik_init_agreement `{ByteOrder} hosts h1 h2 b1 b2 now1 now2 :
  cell_ok hosts -> In (h1, b1) hosts -> In (h2, b2) hosts ->
  let s1 := ubeacon_InitServerListByInfo h1 hosts now1 in
  let s2 := ubeacon_InitServerListByInfo h2 hosts now2 in
  nServers s1 = nServers s2
  /\ (forall ts1 ts2, In ts1 (ubik_servers s1) -> In ts2 (ubik_servers s2) ->
        addr0 ts1 = addr0 ts2 -> isClone ts1 = isClone ts2 /\ magic ts1 = magic ts2)
  /\ (forall ts1, In ts1 (ubik_servers s1) -> addr0 ts1 = ubik_host0 s2 ->
        isClone ts1 = amIClone s2 /\ magic ts1 = amIMagic s2).
Proof.
  intros Hok Hi1 Hi2 s1 s2.
  destruct (init_knows_cell hosts Hok h1 b1 now1 Hi1) as (_ & _ & N1 & _ & _ & S1 & _).
  destruct (init_knows_cell hosts Hok h2 b2 now2 Hi2) as (K2 & C2 & N2 & M2 & _ & S2 & _).
  fold s1 in N1, S1. fold s2 in K2, C2, N2, M2, S2. split_and!; [congruence| |].
  - intros ts1 ts2 H1 H2 Ea. destruct (S1 _ H1) as [I1 M1]. destruct (S2 _ H2) as [I2 M2'].
    rewrite Ea in I1, M1. split; [by eapply (clone_flag_unique hosts Hok)|congruence].
  - intros ts1 H1 Ea. destruct (S1 _ H1) as [I1 M1]. rewrite Ea, K2 in I1, M1.
    split; [|congruence]. rewrite C2, (is_voter_flag hosts Hok h2 _ I1). by destruct (isClone ts1).
Qed.


(** Whom a server votes for: a yes vote goes to the caller, which is a
    known server and no clone, at the current time; it is on record afterwards;
    and a caller that does not claim to be sync site is the lowest server heard
    from. *)
Theorem beacon_yes_vote `{ByteOrder} s rx astate astart ver tid now vt s' :
  SVOTE_Beacon s rx astate astart ver tid now = (vt, s') -> vt <> 0 ->
  exists h, beacon_caller s rx = Some (h, false) /\ vt = now
    /\ lastYesHost (vote_globals s') = h /\ ubik_lastYesTime (vote_globals s') = now
    /\ (astate = 0 -> ntohl (lowestHost (vote_globals s')) = ntohl h).
Proof.
  intros E Hvt. pose proof (SVOTE_Beacon_cases _ _ _ _ _ _ _ _ _ E) as (_ & _ & _ & Hc).
  destruct Hc as [(h & Hb & -> & Ht & Hh & _)|[-> _]]; [|done].
  exists h. split_and!; try done. intros ->.
  unfold SVOTE_Beacon in E. rewrite Hb in E. cbv zeta in E.
  destruct (vote_heuristics s h 0 _) as [v3|] eqn:Ev; [|by simplify_eq].
  unfold vote_heuristics in Ev. cbn [Z.eqb] in Ev.
  destruct (negb _) eqn:El in Ev; [done|]. bool_hyps.
  destruct (_ && _) in Ev; [done|]. injection Ev as <-.
  destruct (_ || _) in E; [|by simplify_eq]. injection E as <-.
  destruct (CheckTid_frame tid false (set_vote (vote_yes h 0 astart now ver tid
    (note_sync h 0 now (note_lowest s h false now (vote_globals s)))) s)) as (_ & -> & _).
  cbn [vote_globals set_vote vote_yes lowestHost]. lia.
Qed.

(** ** An election, executed

    A cell of three servers; the first one asks for votes once BIGTIME has
    passed since the start, the second one says yes, the third is down. *)

Module Election.

#[local] Existing Instance little_endian.

Definition hosts3 : list (Z * bool) := [(1, false); (2, false); (3, false)].
Definition db0 : db_info := mkDb false 0 7 (mkVersion 1 1).

Definition begin_at (h : Z) (c : cell) : cell :=
  match interact_begin (sites c h) db0 (clock c h) (clock c h) (clock c h) with
  | Some (call, s') => mkCell (upd (sites c) h s') (clock c) (hist c)
                         (upd (phases c) h (Collecting call []))
  | None => c
  end.

Definition answer_at (h j : Z) (i : nat) (c : cell) : cell :=
  match phases c h with
  | Collecting call rs =>
      let (vt, s') :=
        SVOTE_Beacon (sites c j) (Some h) (if c_syncsite call then 1 else 0)
          (c_start call) (c_version call) (c_tid call) (clock c j) in
      mkCell (upd (sites c) j s') (clock c) (upd (hist c) j (record_vote h vt (hist c j)))
        (upd (phases c) h (Collecting call (rs ++ [mkReply i vt (clock c h) false])))
  | _ => c
  end.

Definition own_at (h : Z) (c : cell) : cell :=
  match phases c h with
  | Collecting call rs =>
      let (t, s1) := tally_replies call rs (sites c h) in
      let (vt, s2) := own_vote call s1 (clock c h) in
      mkCell (upd (sites c) h s2) (clock c) (upd (hist c) h (record_vote h vt (hist c h)))
        (upd (phases c) h
           (Tallied (fst (interact_own_vote call t s1 (clock c h) (clock c h)))
              ((if vt =? 0 then [] else [(h, vt)])
               ++ omap (vote_of call (ubik_servers (sites c h))) rs)))
  | _ => c
  end.

Definition decide_at (h : Z) (c : cell) : cell :=
  match phases c h with
  | Tallied t _ => mkCell (upd (sites c) h (interact_decide t (sites c h) (clock c h)))
                     (clock c) (hist c) (upd (phases c) h Idle)
  | _ => c
  end.

Lemma begin_at_step h c :
  member hosts3 h ->
  match interact_begin (sites c h) db0 (clock c h) (clock c h) (clock c h) with
  | Some _ => True | None => False end ->
  step hosts3 c (begin_at h c).
Proof.
  intros Hm. unfold begin_at.
  destruct (interact_begin _ _ _ _ _) as [[call s']|] eqn:E; [|done].
  intros _. by eapply step_begin.
Qed.

Lemma own_at_step h c :
  member hosts3 h -> match phases c h with Collecting _ _ => True | _ => False end ->
  step hosts3 c (own_at h c).
Proof.
  intros Hm. unfold own_at. destruct (phases c h) as [|call rs|] eqn:E; try done. intros _.
  destruct (tally_replies call rs (sites c h)) as [t s1] eqn:Et.
  destruct (own_vote call s1 (clock c h)) as [vt s2] eqn:Eo.
  by eapply step_own.
Qed.

Lemma decide_at_step h c :
  member hosts3 h -> match phases c h with Tallied _ _ => True | _ => False end ->
  step hosts3 c (decide_at h c).
Proof.
  intros Hm. unfold decide_at. destruct (phases c h) as [| |t votes] eqn:E; try done.
  intros _. by eapply step_decide.
Qed.

(** The [i]-th call of [h]'s round is an unanswered one to [j]. *)
Definition call_pending (h j : Z) (i : nat) (c : cell) : bool :=
  match phases c h with
  | Collecting call rs =>
      negb (existsb (Nat.eqb i) (map r_multi rs))
      && match c_targets call !! i with
         | Some k =>
             match ubik_servers (sites c h) !! k with
             | Some ts => (addr0 ts =? j) && (ubikGetPrimaryInterfaceAddr (sites c j) h =? h)
             | None => false
             end
         | None => false
         end
  | _ => false
  end.

Lemma answer_at_step h j i c :
  member hosts3 h -> member hosts3 j -> h <> j -> call_pending h j i c = true ->
  step hosts3 c (answer_at h j i c).
Proof.
  intros Hm Hj Hne. unfold call_pending, answer_at.
  destruct (phases c h) as [|call rs|] eqn:E; try discriminate.
  intros [Hi Hk]%andb_true_iff.
  destruct (c_targets call !! i) as [k|] eqn:Ek; [|discriminate].
  destruct (ubik_servers (sites c h) !! k) as [ts|] eqn:Es; [|discriminate].
  bool_hyps. destruct (SVOTE_Beacon _ _ _ _ _ _ _) as [vt s'] eqn:Ev.
  apply (step_answer hosts3 c h j h call rs i k ts vt s' (clock c h) false);
    try assumption; try lia.
  intros Hx. apply not_true_iff_false in Hi. apply Hi.
  apply existsb_exists. exists i. split; [by apply list_elem_of_In|apply Nat.eqb_refl].
Qed.

Lemma hosts3_ok : cell_ok hosts3.
Proof.
  split; [|repeat constructor; vm_compute; reflexivity].
  apply (bool_decide_unpack _). vm_compute. exact I.
Qed.

Definition c0 : cell := init_cell hosts3 (fun _ => 1000).
Definition c1 : cell := mkCell (sites c0) (fun h => 1100 + h) (hist c0) (phases c0).
Definition c2 : cell := begin_at 1 c1.
Definition c3 : cell := answer_at 1 2 1 c2.
Definition c4 : cell := own_at 1 c3.
Definition c5 : cell := decide_at 1 c4.

Lemma clocks3 f : (forall h, In h [1; 2; 3] -> 1100 <= f h <= 1110) -> clocks_ok hosts3 f.
Proof.
  intros Hf. split; unfold TIME_MAX, MAXSKEW.
  - intros h Hh. specialize (Hf h Hh). lia.
  - intros a b Ha Hb. pose proof (Hf a Ha). pose proof (Hf b Hb). lia.
Qed.

Lemma c5_reachable : reachable hosts3 c5.
Proof.
  assert (H1 : member hosts3 1) by (by left).
  assert (H2 : member hosts3 2) by (by right; left).
  apply (reach_step _ c4); [|apply decide_at_step; [assumption|vm_compute; exact I]].
  apply (reach_step _ c3); [|apply own_at_step; [assumption|vm_compute; exact I]].
  apply (reach_step _ c2).
  2: { apply answer_at_step; [assumption|assumption|discriminate|].
       vm_compute. reflexivity. }
  apply (reach_step _ c1).
  2: { apply begin_at_step; [assumption|]. vm_compute. exact I. }
  apply (reach_step _ c0).
  - apply reach_init. split; unfold MAXSKEW, TIME_MAX; intros; lia.
  - apply step_tick; [apply clocks3|]; intros h Hh; cbn in *; lia.
Qed.

End Election.

(** In the election above the first server is the sync site, and the only one. *)
Lemma ubik_one_sync_site_witness :
  exists h, reachable (H := little_endian) Election.hosts3 Election.c5
    /\ ubeacon_AmSyncSite (sites Election.c5 1) (clock Election.c5 1)
       = (true, sites Election.c5 1)
    /\ h = 1.
Proof.
  exists 1. split; [exact Election.c5_reachable|]. split; [vm_compute; reflexivity|].
  apply (ubik_one_sync_site (H := little_endian) Election.hosts3 Election.c5 1 1
           (sites Election.c5 1) (sites Election.c5 1)).
  - exact Election.hosts3_ok.
  - exact Election.c5_reachable.
  - by left.
  - by left.
  - vm_compute. reflexivity.
  - vm_compute. reflexivity.
Defined.


(** Servers 1 and 3 of a cell in which 2 is a clone. *)
Lemma ubik_init_agreement_witness :
  nServers (ubeacon_InitServerListByInfo (H := little_endian) 1 [(1, false); (2, true); (3, false)] 0) = 2
  /\ nServers (ubeacon_InitServerListByInfo (H := little_endian) 1 [(1, false); (2, true); (3, false)] 0)
     = nServers (ubeacon_InitServerListByInfo (H := little_endian) 3 [(1, false); (2, true); (3, false)] 9).
Proof.
  split; [vm_compute; reflexivity|].
  apply (ubik_init_agreement (H := little_endian) [(1, false); (2, true); (3, false)] 1 3 false false 0 9).
  - split; [|repeat constructor; vm_compute; reflexivity].
    apply (bool_decide_unpack _). vm_compute. exact I.
  - left. reflexivity.
  - right. right. left. reflexivity.
Defined.


(** The vote of the second server in that election. *)
Lemma beacon_yes_vote_witness :
  let r := SVOTE_Beacon (H := little_endian) (sites Election.c1 2) (Some 1) 0 1101
             (mkVersion 1 1) (mkTid 0 8) 1102 in
  fst r = 1102 /\ lastYesHost (vote_globals (snd r)) = 1.
Proof.
  intros r. assert (Hr : fst r = 1102) by (vm_compute; reflexivity).
  split; [exact Hr|].
  destruct (beacon_yes_vote (H := little_endian) (sites Election.c1 2) (Some 1) 0 1101
             (mkVersion 1 1) (mkTid 0 8) 1102 (fst r) (snd r)) as (h & Hb & _ & Hh & _).
  - subst r. destruct (SVOTE_Beacon _ _ _ _ _ _ _). reflexivity.
  - rewrite Hr. discriminate.
  - vm_compute in Hb. injection Hb as Hb. rewrite Hh, <- Hb. reflexivity.
Defined.
