(* ===== verification/UbikPhys.v ===== *)
(** * Ubik stable storage: phys.c

    The files of a Ubik database as the operating system keeps them: byte
    sequences that [pread], [pwrite] and [ftruncate] act on, one stdio stream
    that buffers appends to the log, and the calls of phys.c on top of them.
    Every system call is recorded as an event, so that the state at any moment
    between two calls is available to the crash argument of [UbikCrash.v]; the
    contents a file had since it was last synced are kept for the same reason.
    A list of fault flags, one per call, says which calls fail. *)

From S2P Require Import Prelude UbikVote.
From stdpp Require Import prelude list gmap.
From Stdlib Require Import ZArith Lia.

#[local] Open Scope Z_scope.

(** ** Files *)

Definition file := list Z.

(** A byte of a file; what lies beyond the end reads as zero. *)
Definition byte (f : file) (i : nat) : Z := nth i f 0.

Definition zeros (n : nat) : list Z := repeat 0 n.

Definition pread (f : file) (off n : nat) : list Z := take n (drop off f).

Definition pwrite (f : file) (off : nat) (d : list Z) : file :=
  take off f ++ zeros (off - length f) ++ d ++ drop (off + length d) f.

Definition ftruncate (f : file) (n : nat) : file := take n f ++ zeros (n - length f).

Lemma zeros_length n : length (zeros n) = n.
Proof. apply repeat_length. Qed.

Lemma byte_app f g i :
  byte (f ++ g) i = if (i <? length f)%nat then byte f i else byte g (i - length f).
Proof.
  unfold byte. destruct (Nat.ltb_spec i (length f)).
  - by apply app_nth1.
  - by apply app_nth2.
Qed.

Lemma byte_zeros n i : byte (zeros n) i = 0.
Proof. unfold byte, zeros. apply nth_repeat. Qed.

Lemma byte_take n f i : byte (take n f) i = if (i <? n)%nat then byte f i else 0.
Proof.
  unfold byte. revert n i. induction f as [|x f IH]; intros [|n] [|i]; cbn; try done.
  by repeat case_match.
Qed.

Lemma byte_drop n f i : byte (drop n f) i = byte f (n + i).
Proof.
  unfold byte. revert n. induction f as [|x f IH]; intros [|n]; cbn; try done.
  by destruct i.
Qed.

Lemma byte_beyond f i : (length f <= i)%nat -> byte f i = 0.
Proof. apply nth_overflow. Qed.

Lemma byte_pwrite f off d i :
  byte (pwrite f off d) i
  = if ((off <=? i) && (i <? off + length d))%nat then byte d (i - off) else byte f i.
Proof.
  unfold pwrite. rewrite !byte_app, length_take, zeros_length, byte_zeros, byte_take, byte_drop.
  destruct (Nat.leb_spec off i), (Nat.ltb_spec i (off + length d)); cbn [andb];
    repeat (match goal with |- context [(?a <? ?b)%nat] => destruct (Nat.ltb_spec a b) end);
    try lia; try done; try (f_equal; lia); try (symmetry; apply byte_beyond; lia).
Qed.

Lemma length_pwrite f off d :
  d <> [] -> length (pwrite f off d) = Nat.max (length f) (off + length d).
Proof.
  intros Hd. assert (length d <> 0%nat) by (by destruct d).
  unfold pwrite. rewrite !length_app, length_take, zeros_length, length_drop. lia.
Qed.

Lemma byte_ftruncate f n i :
  byte (ftruncate f n) i = if (i <? n)%nat then byte f i else 0.
Proof.
  unfold ftruncate. rewrite byte_app, byte_take, byte_zeros, length_take.
  destruct (Nat.ltb_spec i n), (Nat.ltb_spec i (n `min` length f)); try lia; try done.
  symmetry. apply byte_beyond. lia.
Qed.

Lemma length_ftruncate f n : length (ftruncate f n) = n.
Proof. unfold ftruncate. rewrite length_app, length_take, zeros_length. lia. Qed.

Lemma byte_pread f off n i :
  (i < n)%nat -> byte (pread f off n) i = byte f (off + i).
Proof.
  intros Hi. unfold pread. rewrite byte_take, byte_drop.
  by rewrite (proj2 (Nat.ltb_lt _ _)).
Qed.

(** Files of one length with the same bytes are equal. *)
Lemma file_ext (f g : file) :
  length f = length g -> (forall i, (i < length f)%nat -> byte f i = byte g i) -> f = g.
Proof. intros Hl Hb. by apply (nth_ext _ _ 0 0). Qed.

(** ** The physical layer *)

Definition LOGFILE := -1.
Definition HDRSIZE := 64.
Definition UBIK_MAGIC := 3491141.  (* 0x354545 *)
Definition EIO := 5.
Definition UIOERROR := 5379.
Definition UNOENT := 5382.

Inductive event :=
  | EAppend (f : Z) (d : list Z)        (* fwrite to the append stream *)
  | EFlush (f : Z)                      (* fflush of the append stream *)
  | EWrite (f : Z) (off : nat) (d : list Z)
  | ETrunc (f : Z) (n : nat)
  | ESync (f : Z).

Record phys := mkPhys {
  files : gmap Z file;
  buf_fdcache : option (Z * list Z);    (* fileID and data not yet written *)
  past : gmap Z (list file);            (* contents since the last fsync *)
  faults : list bool;
  trace : list event
}.

Definition fileof (p : phys) (f : Z) : file := default [] (files p !! f).
Definition pastof (p : phys) (f : Z) : list file := default [] (past p !! f).

(** Replace the contents of a file, remembering the old ones. *)
Definition put_file (f : Z) (v : file) (p : phys) : phys :=
  mkPhys (<[f := v]> (files p)) (buf_fdcache p)
    (<[f := fileof p f :: pastof p f]> (past p)) (faults p) (trace p).

Definition set_stream (b : option (Z * list Z)) (p : phys) : phys :=
  mkPhys (files p) b (past p) (faults p) (trace p).

(** What a system call does to the files. *)
Definition effect (e : event) (p : phys) : phys :=
  match e with
  | EAppend f d =>
      match buf_fdcache p with
      | Some (g, b) =>
          if g =? f then set_stream (Some (f, b ++ d)) p
          else set_stream (Some (f, d)) (put_file g (fileof p g ++ b) p)
      | None => set_stream (Some (f, d)) p
      end
  | EFlush f =>
      match buf_fdcache p with
      | Some (g, b) =>
          if g =? f then set_stream (Some (f, [])) (put_file f (fileof p f ++ b) p) else p
      | None => p
      end
  | EWrite f off d => put_file f (pwrite (fileof p f) off d) p
  | ETrunc f n => put_file f (ftruncate (fileof p f) n) p
  | ESync f =>
      mkPhys (files p) (buf_fdcache p) (<[f := []]> (past p)) (faults p) (trace p)
  end.

Definition exec (e : event) (p : phys) : phys :=
  let p' := effect e p in
  mkPhys (files p') (buf_fdcache p') (past p') (faults p') (trace p' ++ [e]).

(** Does the next system call fail? *)
Definition next_fault (p : phys) : bool * phys :=
  match faults p with
  | [] => (false, p)
  | b :: l => (b, mkPhys (files p) (buf_fdcache p) (past p) l (trace p))
  end.

(** Run a call that may fail: [bad] is its result then. *)
Definition syscall {A} (bad good : A) (e : event) (p : phys) : A * phys :=
  let (b, p1) := next_fault p in
  if b then (bad, p1) else (good, exec e p1).

(** [uphys_read]: the bytes read, fewer at the end of the file; [None] is -1. *)
Definition uphys_read (afile apos alength : Z) (p : phys) : option (list Z) * phys :=
  let (b, p1) := next_fault p in
  if b || (apos + HDRSIZE <? 0) || (alength <? 0) then (None, p1)
  else (Some (pread (fileof p1 afile) (Z.to_nat (apos + HDRSIZE)) (Z.to_nat alength)), p1).

(** [uphys_write]: the number of bytes written, or -1. *)
Definition uphys_write (afile apos : Z) (d : list Z) (p : phys) : Z * phys :=
  if apos + HDRSIZE <? 0 then (-1, p)
  else syscall (-1) (Z.of_nat (length d)) (EWrite afile (Z.to_nat (apos + HDRSIZE)) d) p.

(** [uphys_buf_flush]: nothing to do unless the stream is open on this file. *)
Definition uphys_buf_flush (afid : Z) (p : phys) : Z * phys :=
  match buf_fdcache p with
  | Some (g, _) => if g =? afid then syscall (-1) 0 (EFlush afid) p else (0, p)
  | None => (0, p)
  end.

Definition uphys_truncate (afile asize : Z) (p : phys) : Z * phys :=
  let (c, p1) := uphys_buf_flush afile p in
  if c <? 0 then (UIOERROR, p1)
  else if asize + HDRSIZE <? 0 then (-1, p1)
  else syscall (-1) 0 (ETrunc afile (Z.to_nat (asize + HDRSIZE))) p1.

Definition uphys_sync (afile : Z) (p : phys) : Z * phys :=
  let (c, p1) := uphys_buf_flush afile p in
  if c <? 0 then (-1, p1) else syscall (-1) 0 (ESync afile) p1.

(** [uphys_buf_append], with [uphys_buf_append_open]: the stream is reopened
    when it is on another file. *)
Definition uphys_buf_append (afid : Z) (d : list Z) (p : phys) : Z * phys :=
  syscall (-1) (Z.of_nat (length d)) (EAppend afid d) p.

(** Size of the data behind the header. *)
Definition uphys_stat (afid : Z) (p : phys) : Z :=
  let code := Z.of_nat (length (fileof p afid)) - HDRSIZE in
  if code <? 0 then 0 else code.

(** [struct ubik_hdr] on disk: magic, padding, header size, version. *)
Definition encode_hdr (v : ubik_version) : list Z :=
  be32 UBIK_MAGIC ++ be16 0 ++ be16 HDRSIZE ++ be32 (v_epoch v) ++ be32 (v_counter v).

Definition decode_hdr (l : list Z) : option ubik_version :=
  if (length l =? 16)%nat then
    match un_be32 (take 4 (drop 8 l)), un_be32 (drop 12 l) with
    | Some e, Some c => Some (mkVersion (s32 e) (s32 c))
    | _, _ => None
    end
  else None.

Definition uphys_getlabel (afile : Z) (p : phys) : (Z * option ubik_version) * phys :=
  let (b, p1) := next_fault p in
  if b then ((EIO, None), p1)
  else match decode_hdr (pread (fileof p1 afile) 0 16) with
       | Some v => ((0, Some v), p1)
       | None => ((EIO, None), p1)
       end.

Definition uphys_setlabel (afile : Z) (v : ubik_version) (p : phys) : Z * phys :=
  let (b, p1) := next_fault p in
  if b then (EIO, p1)
  else (0, exec (ESync afile) (exec (EWrite afile 0 (encode_hdr v)) p1)).

(** ** Facts about the calls *)

Definition version_ok (v : ubik_version) : Prop :=
  is_s32 (v_epoch v) /\ is_s32 (v_counter v).

Lemma encode_hdr_length v : length (encode_hdr v) = 16%nat.
Proof. reflexivity. Qed.

Lemma decode_encode_hdr v : version_ok v -> decode_hdr (encode_hdr v) = Some v.
Proof.
  intros [He Hc]. unfold decode_hdr. rewrite encode_hdr_length. cbn [Nat.eqb].
  change (take 4 (drop 8 (encode_hdr v))) with (be32 (v_epoch v)).
  change (drop 12 (encode_hdr v)) with (be32 (v_counter v)).
  rewrite !un_be32_be32, !s32_u32, !s32_small by done. by destruct v.
Qed.

Lemma fileof_put f v p g :
  fileof (put_file f v p) g = if g =? f then v else fileof p g.
Proof.
  unfold fileof, put_file. cbn. destruct (Z.eqb_spec g f) as [->|Hne].
  - by rewrite lookup_insert_eq.
  - by rewrite lookup_insert_ne.
Qed.

Lemma pastof_put f v p g :
  pastof (put_file f v p) g = if g =? f then fileof p f :: pastof p f else pastof p g.
Proof.
  unfold pastof, put_file. cbn. destruct (Z.eqb_spec g f) as [->|Hne].
  - by rewrite lookup_insert_eq.
  - by rewrite lookup_insert_ne.
Qed.
