(* ===== verification/UbikLog.v ===== *)
(** * The Ubik log: writing it (disk.c) and replaying it (recovery.c)

    A write transaction appends to the log a begin record, a record per write
    or truncation and a commit record; after a crash [ReplayLog] reads the log
    twice, once to see whether there is a commit record and once to redo the
    transaction.  The theorems say what replaying the bytes of a log does, for
    every log a transaction can leave behind. *)

From S2P Require Import Prelude UbikVote UbikPhys.
From stdpp Require Import prelude list gmap.
From Stdlib Require Import ZArith Lia.

#[local] Open Scope Z_scope.

Definition LOGNEW := 100.
Definition LOGEND := 101.
Definition LOGABORT := 102.
Definition LOGDATA := 103.
Definition LOGTRUNCATE := 104.
Definition UBADLOG := 5384.

(** ** Appending records (disk.c) *)

Definition udisk_LogOpcode (aopcode : Z) (async : bool) (p : phys) : Z * phys :=
  let (code, p1) := uphys_buf_append LOGFILE (be32 aopcode) p in
  if negb (code =? 4) then (UIOERROR, p1)
  else if async then uphys_sync LOGFILE p1 else (0, p1).

Definition udisk_LogEnd (v : ubik_version) (p : phys) : Z * phys :=
  let data := be32 LOGEND ++ be32 (v_epoch v) ++ be32 (v_counter v) in
  let (code, p1) := uphys_buf_append LOGFILE data p in
  if negb (code =? 12) then (UIOERROR, p1) else uphys_sync LOGFILE p1.

Definition udisk_LogTruncate (afile alength : Z) (p : phys) : Z * phys :=
  let data := be32 LOGTRUNCATE ++ be32 afile ++ be32 alength in
  let (code, p1) := uphys_buf_append LOGFILE data p in
  if negb (code =? 12) then (UIOERROR, p1) else (0, p1).

(** [abuffer] holds [alen] bytes. *)
Definition udisk_LogWriteData (afile : Z) (abuffer : list Z) (apos alen : Z) (p : phys)
    : Z * phys :=
  let hdr := be32 LOGDATA ++ be32 afile ++ be32 apos ++ be32 alen in
  let (code, p1) := uphys_buf_append LOGFILE hdr p in
  if negb (code =? 16) then (UIOERROR, p1)
  else
    let (code2, p2) := uphys_buf_append LOGFILE abuffer p1 in
    if negb (code2 =? alen) then (UIOERROR, p2) else (0, p2).

(** ** Replaying (recovery.c) *)

(** Read [n] words at [tpos] of the log; [None] when the read is short. *)
Fixpoint words (n : nat) (l : list Z) : list Z :=
  match n with
  | O => []
  | S n' => default 0 (un_be32 (take 4 l)) :: words n' (drop 4 l)
  end.

Definition read_words (tpos : Z) (n : nat) (p : phys) : option (list Z) * phys :=
  let (r, p1) := uphys_read LOGFILE tpos (4 * Z.of_nat n) p in
  match r with
  | Some l => if (length l =? 4 * n)%nat then (Some (words n l), p1) else (None, p1)
  | None => (None, p1)
  end.

(** First pass: is there a commit record?  [None] when the fuel runs out. *)
Fixpoint scan_log (fuel : nat) (tpos : Z) (p : phys) : option bool * phys :=
  match fuel with
  | O => (None, p)
  | S fuel' =>
      let (w, p1) := read_words tpos 1 p in
      match w with
      | None => (Some false, p1)
      | Some ws =>
          let opcode := s32 (nth 0 ws 0) in
          if opcode =? LOGNEW then scan_log fuel' (s32 (tpos + 4)) p1
          else if opcode =? LOGABORT then (Some false, p1)
          else if opcode =? LOGEND then (Some true, p1)
          else if opcode =? LOGTRUNCATE then
            let (w2, p2) := read_words (s32 (tpos + 4)) 2 p1 in
            match w2 with
            | None => (Some false, p2)
            | Some _ => scan_log fuel' (s32 (tpos + 12)) p2
            end
          else if opcode =? LOGDATA then
            let (w2, p2) := read_words (s32 (tpos + 4)) 3 p1 in
            match w2 with
            | None => (Some false, p2)
            | Some b => scan_log fuel' (s32 (tpos + 4 + nth 2 b 0 + 12)) p2
            end
          else (Some false, p1)
      end
  end.

Inductive outcome :=
  | Return (code : Z)
  | Panic
  | OutOfFuel.

Definition sizeof_data := 4096.  (* afs_int32 data[1024] *)

(** The copy loop of the second pass: at most [sizeof_data] bytes at a time.
    The result is an error code or the new log position. *)
Fixpoint copy_data (fuel : nat) (tfile filePos tpos len : Z) (p : phys)
    : option (Z + Z) * phys :=
  if len <=? 0 then (Some (inr tpos), p)
  else
    match fuel with
    | O => (None, p)
    | S fuel' =>
        let thisSize := if sizeof_data <? len then sizeof_data else len in
        let (r, p1) := uphys_read LOGFILE tpos thisSize p in
        match r with
        | Some d =>
            if Z.of_nat (length d) =? thisSize then
              let (code, p2) := uphys_write tfile filePos d p1 in
              if code =? thisSize
              then copy_data fuel' tfile (s32 (filePos + thisSize)) (s32 (tpos + thisSize))
                     (s32 (len - thisSize)) p2
              else (Some (inl UBADLOG), p2)
            else (Some (inl UBADLOG), p1)
        | None => (Some (inl UBADLOG), p1)
        end
    end.

(** "Try to minimize file syncs". *)
Definition switch_sync (syncFile tfile : Z) (p : phys) : Z * phys :=
  if syncFile =? tfile then (0, p)
  else if 0 <=? syncFile then uphys_sync syncFile p else (0, p).

(** Second pass.  [inl]: the function returns; [inr (good, syncFile)]: the loop
    ended with that [logIsGood]. *)
Fixpoint redo_log (fuel : nat) (tpos syncFile : Z) (p : phys)
    : (outcome + bool * Z) * phys :=
  match fuel with
  | O => (inl OutOfFuel, p)
  | S fuel' =>
      let (w, p1) := read_words tpos 1 p in
      match w with
      | None => (inr (false, syncFile), p1)
      | Some ws =>
          let opcode := s32 (nth 0 ws 0) in
          if opcode =? LOGNEW then redo_log fuel' (s32 (tpos + 4)) syncFile p1
          else if opcode =? LOGABORT then (inl Panic, p1)
          else if opcode =? LOGEND then
            let (w2, p2) := read_words (s32 (tpos + 4)) 2 p1 in
            match w2 with
            | None => (inl (Return UBADLOG), p2)
            | Some b =>
                let (code, p3) :=
                  uphys_setlabel 0 (mkVersion (s32 (nth 0 b 0)) (s32 (nth 1 b 0))) p2 in
                if code =? 0 then (inr (true, syncFile), p3) else (inl (Return code), p3)
            end
          else if opcode =? LOGTRUNCATE then
            let (w2, p2) := read_words (s32 (tpos + 4)) 2 p1 in
            match w2 with
            | None => (inr (false, syncFile), p2)
            | Some b =>
                let (code, p3) := uphys_truncate (s32 (nth 0 b 0)) (s32 (nth 1 b 0)) p2 in
                if code =? 0 then redo_log fuel' (s32 (tpos + 12)) syncFile p3
                else (inl (Return code), p3)
            end
          else if opcode =? LOGDATA then
            let (w2, p2) := read_words (s32 (tpos + 4)) 3 p1 in
            match w2 with
            | None => (inr (false, syncFile), p2)
            | Some b =>
                let tfile := s32 (nth 0 b 0) in
                let len := s32 (nth 2 b 0) in
                let (code, p3) := switch_sync syncFile tfile p2 in
                if code =? 0 then
                  let (r, p4) :=
                    copy_data (Z.to_nat len) tfile (s32 (nth 1 b 0)) (s32 (tpos + 16)) len p3 in
                  match r with
                  | None => (inl OutOfFuel, p4)
                  | Some (inl e) => (inl (Return e), p4)
                  | Some (inr tpos') => redo_log fuel' tpos' tfile p4
                  end
                else (inl (Return code), p3)
            end
          else (inr (false, syncFile), p1)
      end
  end.

Definition finish_log (p : phys) : outcome * phys :=
  let (code, p1) := uphys_truncate LOGFILE 0 p in (Return code, p1).

Definition ReplayLog (fuel : nat) (p : phys) : outcome * phys :=
  let (good, p1) := scan_log fuel 0 p in
  match good with
  | None => (OutOfFuel, p1)
  | Some false => finish_log p1
  | Some true =>
      let (r, p2) := redo_log fuel 0 (-1) p1 in
      match r with
      | inl o => (o, p2)
      | inr (true, syncFile) =>
          let (code, p3) := if 0 <=? syncFile then uphys_sync syncFile p2 else (0, p2) in
          if code =? 0 then finish_log p3 else (Return code, p3)
      | inr (false, _) => (Return UBADLOG, p2)
      end
  end.

(** The version the server starts with. *)
Definition InitializeDB (p : phys) : ubik_version * phys :=
  match uphys_getlabel 0 p with
  | ((_, Some v), p1) => (v, p1)
  | ((_, None), p1) =>
      let (code, p2) := uphys_setlabel 0 (mkVersion 1 1) p1 in
      if code =? 0 then (mkVersion 1 1, p2)
      else let (_, p3) := uphys_setlabel 0 (mkVersion 0 0) p2 in (mkVersion 0 0, p3)
  end.

Definition urecovery_Initialize (fuel : nat) (p : phys)
    : outcome * option ubik_version * phys :=
  let (o, p1) := ReplayLog fuel p in
  match o with
  | Return 0 => let (v, p2) := InitializeDB p1 in (Return 0, Some v, p2)
  | _ => (o, None, p1)
  end.

(** ** Logs as sequences of records *)

Inductive log_record :=
  | RNew
  | RTrunc (f len : Z)
  | RData (f pos : Z) (d : list Z)
  | RAbort
  | REnd (v : ubik_version).

Definition enc (r : log_record) : list Z :=
  match r with
  | RNew => be32 LOGNEW
  | RTrunc f len => be32 LOGTRUNCATE ++ be32 f ++ be32 len
  | RData f pos d =>
      be32 LOGDATA ++ be32 f ++ be32 pos ++ be32 (Z.of_nat (length d)) ++ d
  | RAbort => be32 LOGABORT
  | REnd v => be32 LOGEND ++ be32 (v_epoch v) ++ be32 (v_counter v)
  end.

Definition encs (rs : list log_record) : list Z := concat (map enc rs).

(** The body of a transaction: what [udisk_begin], [udisk_write] and
    [udisk_truncate] log. *)
Definition body_record (r : log_record) : Prop :=
  match r with
  | RNew => True
  | RTrunc f len => 0 <= f < 2 ^ 31 /\ 0 <= len < 2 ^ 31
  | RData f pos d =>
      0 <= f < 2 ^ 31 /\ 0 <= pos /\ pos + Z.of_nat (length d) < 2 ^ 31
      /\ Z.of_nat (length d) < 2 ^ 31
  | _ => False
  end.

(** What redoing a record does to the database files. *)
Definition redo_record (F : Z -> file) (r : log_record) : Z -> file :=
  fun g =>
  match r with
  | RData f pos d =>
      if g =? f
      then match d with [] => F g | _ => pwrite (F g) (Z.to_nat (pos + HDRSIZE)) d end
      else F g
  | RTrunc f len => if g =? f then ftruncate (F g) (Z.to_nat (len + HDRSIZE)) else F g
  | _ => F g
  end.

Definition redo_records (rs : list log_record) (F : Z -> file) : Z -> file :=
  foldl redo_record F rs.

Definition redo_label (v : ubik_version) (F : Z -> file) : Z -> file :=
  fun g => if g =? 0 then pwrite (F g) 0 (encode_hdr v) else F g.

(** The log from position [tpos] on holds [l]; no fault is pending and nothing
    is buffered. *)
Definition log_at (p : phys) (tpos : Z) (l : list Z) : Prop :=
  0 <= tpos /\ tpos + Z.of_nat (length l) < 2 ^ 31 - 4096
  /\ drop (Z.to_nat (tpos + HDRSIZE)) (fileof p LOGFILE) = l
  /\ faults p = [] /\ buf_fdcache p = None.

(** The files other than the log. *)
Definition same_files (p : phys) (F : Z -> file) : Prop :=
  forall g, g <> LOGFILE -> fileof p g = F g.

Lemma concat_be32_length ws : length (concat (map be32 ws)) = (4 * length ws)%nat.
Proof. induction ws as [|w ws IH]; [done|]. cbn [map concat length]. rewrite length_app, IH.
  rewrite be32_length. lia. Qed.

Lemma words_be32 ws l : words (length ws) (concat (map be32 ws) ++ l) = map u32 ws.
Proof.
  induction ws as [|w ws IH]; [done|]. cbn [length map concat words].
  change (take 4 ((be32 w ++ concat (map be32 ws)) ++ l)) with (be32 w).
  change (drop 4 ((be32 w ++ concat (map be32 ws)) ++ l)) with (concat (map be32 ws) ++ l).
  by rewrite un_be32_be32, IH.
Qed.

Lemma log_at_skip p tpos a l :
  log_at p tpos (a ++ l) -> log_at p (tpos + Z.of_nat (length a)) l.
Proof.
  unfold log_at, HDRSIZE. intros (H0 & Hb & Hd & Hf & Hs). rewrite length_app in Hb.
  split_and!; try done; [lia|lia|].
  replace (Z.to_nat (tpos + Z.of_nat (length a) + 64))
    with (Z.to_nat (tpos + 64) + length a)%nat by lia.
  rewrite <- drop_drop, Hd. by rewrite drop_app_length.
Qed.

Lemma uphys_read_at p tpos l n :
  log_at p tpos l -> uphys_read LOGFILE tpos (Z.of_nat n) p = (Some (take n l), p).
Proof.
  unfold log_at, HDRSIZE. intros (H0 & Hb & Hd & Hf & Hs).
  unfold uphys_read, next_fault. rewrite Hf. cbn [orb]. unfold HDRSIZE.
  destruct (tpos + 64 <? 0) eqn:?; [lia|]. destruct (Z.of_nat n <? 0) eqn:?; [lia|].
  cbn [orb]. unfold pread. by rewrite Hd, Nat2Z.id.
Qed.

Lemma read_words_at p tpos ws l :
  log_at p tpos (concat (map be32 ws) ++ l) ->
  read_words tpos (length ws) p = (Some (map u32 ws), p).
Proof.
  intros Hl. unfold read_words.
  replace (4 * Z.of_nat (length ws)) with (Z.of_nat (4 * length ws)) by lia.
  rewrite (uphys_read_at _ _ _ _ Hl).
  rewrite <- (concat_be32_length ws), take_app_length, Nat.eqb_refl.
  by rewrite <- (app_nil_r (concat (map be32 ws))), words_be32.
Qed.

Lemma read_words_short p tpos l n :
  log_at p tpos l -> (length l < 4 * n)%nat -> read_words tpos n p = (None, p).
Proof.
  intros Hl Hn. unfold read_words.
  replace (4 * Z.of_nat n) with (Z.of_nat (4 * n)) by lia.
  rewrite (uphys_read_at _ _ _ _ Hl). rewrite length_take.
  by rewrite (proj2 (Nat.eqb_neq _ _)) by lia.
Qed.

(** Reading past the end of the log. *)
Lemma read_words_beyond p tpos n :
  0 <= tpos -> (length (fileof p LOGFILE) <= Z.to_nat (tpos + HDRSIZE))%nat -> (0 < n)%nat ->
  faults p = [] -> read_words tpos n p = (None, p).
Proof.
  intros H0 Hlen Hn Hf. unfold read_words, uphys_read, next_fault. rewrite Hf. cbn [orb].
  unfold HDRSIZE in *.
  destruct (tpos + 64 <? 0) eqn:?; [lia|]. destruct (4 * Z.of_nat n <? 0) eqn:?; [lia|].
  cbn [orb]. unfold pread. rewrite drop_ge by done. rewrite take_nil. cbn [length].
  by rewrite (proj2 (Nat.eqb_neq _ _)) by lia.
Qed.

(** *** First pass *)

Ltac opcode_tests :=
  cbn [nth];
  repeat match goal with
  | |- context [s32 (u32 ?a) =? ?b] =>
      let v := eval vm_compute in (s32 (u32 a) =? b) in
      change (s32 (u32 a) =? b) with v; cbn iota
  end.

Lemma opcode_at p tpos op l :
  log_at p tpos (be32 op ++ l) -> read_words tpos 1 p = (Some [u32 op], p).
Proof.
  intros Hl. apply (read_words_at p tpos [op] l). cbn [map concat].
  by rewrite app_nil_r.
Qed.

Lemma log_at_next p tpos a l :
  log_at p tpos (a ++ l) -> s32 (tpos + Z.of_nat (length a)) = tpos + Z.of_nat (length a).
Proof. intros (H0 & Hb & _). rewrite length_app in Hb. apply s32_small. mlia. Qed.

Lemma read_params_at p tpos op ws l :
  log_at p tpos (be32 op ++ concat (map be32 ws) ++ l) ->
  read_words (s32 (tpos + 4)) (length ws) p = (Some (map u32 ws), p).
Proof.
  intros Hl. pose proof (log_at_next p tpos (be32 op) _ Hl) as Hn.
  change (Z.of_nat (length (be32 op))) with 4 in Hn. rewrite Hn.
  apply log_at_skip in Hl. by apply read_words_at in Hl.
Qed.

Lemma scan_step r l p tpos fuel :
  body_record r -> log_at p tpos (enc r ++ l) ->
  scan_log (S fuel) tpos p = scan_log fuel (tpos + Z.of_nat (length (enc r))) p.
Proof.
  intros Hb Hl. pose proof (log_at_next _ _ _ _ Hl) as Hn.
  destruct r as [|f len|f pos d| |v]; try done; cbn [enc] in *; cbn [scan_log].
  - rewrite (opcode_at _ _ _ _ Hl). opcode_tests. by rewrite <- Hn.
  - rewrite <- app_assoc in Hl. rewrite (opcode_at _ _ _ _ Hl). opcode_tests.
    rewrite (read_params_at _ _ _ [f; len] l) by (by rewrite <- app_assoc in Hl). by rewrite <- Hn.
  - rewrite <- app_assoc in Hl. rewrite (opcode_at _ _ _ _ Hl). opcode_tests.
    rewrite (read_params_at _ _ _ [f; pos; Z.of_nat (length d)] (d ++ l))
      by (by rewrite <- !app_assoc in Hl).
    cbn [map nth]. f_equal. rewrite <- Hn. f_equal. destruct Hb as (_ & _ & _ & Hd).
    rewrite u32_small by mlia. rewrite !length_app, !be32_length. lia.
Qed.

Lemma scan_records rs l p tpos fuel :
  Forall body_record rs -> log_at p tpos (encs rs ++ l) ->
  scan_log (length rs + fuel) tpos p
  = scan_log fuel (tpos + Z.of_nat (length (encs rs))) p
  /\ log_at p (tpos + Z.of_nat (length (encs rs))) l.
Proof.
  intros Hrs. revert tpos. induction Hrs as [|r rs Hr Hrs IH]; intros tpos Hl.
  - cbn in *. by rewrite Z.add_0_r.
  - unfold encs in *. cbn [map concat length Nat.add] in *. rewrite <- app_assoc in Hl.
    rewrite (scan_step _ _ _ _ _ Hr Hl). apply log_at_skip in Hl.
    destruct (IH _ Hl) as [-> Hl2]. rewrite length_app, Nat2Z.inj_add, Z.add_assoc.
    by split.
Qed.

(** A committed log is good. *)
Lemma scan_committed rs v l p fuel :
  Forall body_record rs -> log_at p 0 (encs rs ++ enc (REnd v) ++ l) ->
  (length rs < fuel)%nat -> scan_log fuel 0 p = (Some true, p).
Proof.
  intros Hrs Hl Hf. replace fuel with (length rs + S (fuel - S (length rs)))%nat by lia.
  destruct (scan_records _ _ _ _ (S (fuel - S (length rs))) Hrs Hl) as [-> Hl2].
  cbn [scan_log enc] in *. rewrite <- app_assoc in Hl2.
  rewrite (opcode_at _ _ _ _ Hl2). by opcode_tests.
Qed.

Lemma prefix_app_cases {A} (g a b : list A) :
  g `prefix_of` a ++ b ->
  ((length g < length a)%nat /\ g `prefix_of` a)
  \/ exists g', g = a ++ g' /\ g' `prefix_of` b.
Proof.
  revert g. induction a as [|x a IH]; intros g Hg.
  - right. by exists g.
  - destruct g as [|y g]; [left; split; [cbn; lia|apply prefix_nil]|]. cbn in Hg.
    apply prefix_cons_inv_1 in Hg as Hxy. apply prefix_cons_inv_2 in Hg. subst y.
    destruct (IH _ Hg) as [[Hlt Hpa]|(g' & -> & Hp)].
    + left. split; [cbn; lia|by apply prefix_cons].
    + right. by exists g'.
Qed.

(** A piece of a body record: no commit record is seen. *)
Lemma scan_partial r g p tpos fuel :
  body_record r -> g `prefix_of` enc r -> (length g < length (enc r))%nat ->
  tpos + Z.of_nat (length (enc r)) < 2 ^ 31 - 4096 ->
  log_at p tpos g -> scan_log (S (S fuel)) tpos p = (Some false, p).
Proof.
  intros Hb Hp Hlt Hfit Hl. destruct (decide (length g < 4)%nat) as [Hs|Hs].
  { cbn [scan_log]. by rewrite (read_words_short _ _ _ _ Hl). }
  destruct r as [|f len|f pos d| |v]; try done; cbn [enc] in *.
  - apply prefix_app_cases in Hp as [[? _]|(g' & -> & Hp)]; [done|].
    cbn [scan_log]. rewrite (opcode_at _ _ _ _ Hl). opcode_tests.
    pose proof (log_at_next _ _ _ _ Hl) as Hn. apply log_at_skip in Hl.
    change (Z.of_nat (length (be32 LOGTRUNCATE))) with 4 in *. rewrite Hn.
    rewrite (read_words_short _ _ _ _ Hl); [done|]. cbn in Hlt. lia.
  - apply prefix_app_cases in Hp as [[? _]|(g' & -> & Hp)]; [done|].
    rewrite <- ?app_assoc in *. cbn [scan_log]. rewrite (opcode_at _ _ _ _ Hl). opcode_tests.
    pose proof (log_at_next _ _ _ _ Hl) as Hn. pose proof (log_at_skip _ _ _ _ Hl) as Hl'.
    change (Z.of_nat (length (be32 LOGDATA))) with 4 in *. rewrite Hn.
    set (ps := [f; pos; Z.of_nat (length d)]).
    change (be32 f ++ be32 pos ++ be32 (Z.of_nat (length d)) ++ d)
      with (concat (map be32 ps) ++ d) in *.
    apply prefix_app_cases in Hp as [[Hshort _]|(g'' & -> & Hp)].
    { rewrite (read_words_short _ _ _ _ Hl'); [done|]. cbn in Hshort. lia. }
    rewrite (read_words_at _ _ ps _ Hl' : read_words (tpos + 4) 3 p = _).
    cbn [map nth ps]. destruct Hb as (_ & _ & _ & Hd). rewrite u32_small by mlia.
    rewrite !app_assoc, (length_app _ g''), (length_app _ d) in Hlt.
    rewrite !length_app in Hfit. change (length (be32 LOGDATA)) with 4%nat in *.
    change (length (concat (map be32 ps))) with 12%nat in *.
    destruct Hl as (H0 & _ & Hdr & Hf & _).
    assert (Hlen : (length (fileof p LOGFILE) <= Z.to_nat (tpos + HDRSIZE) + 16 + length g'')%nat).
    { apply (f_equal length) in Hdr. rewrite length_drop, !length_app in Hdr.
      change (length (be32 LOGDATA)) with 4%nat in Hdr.
      change (length (concat (map be32 ps))) with 12%nat in Hdr. lia. }
    rewrite s32_small by mlia. rewrite read_words_beyond; try done; unfold HDRSIZE in *; lia.
Qed.

(** A log cut before the opcode of its commit record is not committed. *)
Lemma scan_uncommitted rs v g p tpos fuel :
  Forall body_record rs -> g `prefix_of` encs rs ++ enc (REnd v) ->
  (length g < length (encs rs) + 4)%nat ->
  tpos + Z.of_nat (length (encs rs)) < 2 ^ 31 - 4096 ->
  log_at p tpos g -> (S (length rs) < fuel)%nat -> scan_log fuel tpos p = (Some false, p).
Proof.
  intros Hrs. revert g tpos fuel. induction Hrs as [|r rs Hr Hrs IH]; intros g tpos fuel Hp Hlt Hfit Hl Hfu.
  - destruct fuel as [|fuel]; [lia|]. cbn [scan_log].
    by rewrite (read_words_short _ _ _ _ Hl).
  - unfold encs in Hp, Hlt, Hfit. cbn [map concat] in Hp, Hlt, Hfit.
    rewrite <- app_assoc in Hp. rewrite length_app in Hlt, Hfit.
    fold (encs rs) in Hp, Hlt, Hfit. cbn [length] in Hfu.
    destruct fuel as [|[|fuel]]; [lia|lia|].
    destruct (prefix_app_cases _ _ _ Hp) as [[Hs Hpr]|(g' & -> & Hp')].
    + apply (scan_partial r g); try done. lia.
    + rewrite (scan_step _ _ _ _ _ Hr Hl). apply (IH g'); try lia; try done.
      * rewrite length_app in Hlt. lia.
      * by apply log_at_skip in Hl.
Qed.

(** *** Second pass *)

Lemma pwrite_app f off d1 d2 :
  d1 <> [] -> d2 <> [] ->
  pwrite (pwrite f off d1) (off + length d1) d2 = pwrite f off (d1 ++ d2).
Proof.
  intros H1 H2. apply file_ext.
  - rewrite !length_pwrite, length_app; [lia|by destruct d1|done|done].
  - intros i _. rewrite !byte_pwrite, byte_app, length_app.
    repeat (match goal with
            | |- context [(?a <? ?b)%nat] => destruct (Nat.ltb_spec a b)
            | |- context [(?a <=? ?b)%nat] => destruct (Nat.leb_spec a b)
            end); cbn [andb]; try lia; try done; f_equal; lia.
Qed.

Lemma pwrite_chunk f off n d :
  d <> [] -> (0 < n <= length d)%nat ->
  match drop n d with
  | [] => pwrite f off (take n d)
  | _ => pwrite (pwrite f off (take n d)) (off + n) (drop n d)
  end = match d with [] => f | _ => pwrite f off d end.
Proof.
  intros Hd Hn. assert (Ht : length (take n d) = n) by (rewrite length_take; lia).
  transitivity (pwrite f off d); [|by destruct d].
  pose proof (take_drop n d) as Hcut. destruct (drop n d) as [|y b].
  - rewrite app_nil_r in Hcut. by rewrite Hcut.
  - transitivity (pwrite f off (take n d ++ y :: b)); [|by rewrite Hcut].
    rewrite <- pwrite_app; [by rewrite Ht| |done].
    intros Hz. rewrite Hz in Ht. cbn in Ht. lia.
Qed.

(** Log, stream and faults are as before. *)
Definition log_kept (p p' : phys) : Prop :=
  fileof p' LOGFILE = fileof p LOGFILE /\ faults p' = faults p
  /\ buf_fdcache p' = buf_fdcache p.

Lemma log_kept_at p p' tpos l : log_kept p p' -> log_at p tpos l -> log_at p' tpos l.
Proof. intros (H1 & H2 & H3) (? & ? & ? & ? & ?). unfold log_at. by rewrite H1, H2, H3. Qed.

Lemma log_kept_trans p1 p2 p3 : log_kept p1 p2 -> log_kept p2 p3 -> log_kept p1 p3.
Proof. unfold log_kept. intuition congruence. Qed.

Lemma fileof_exec_write f off d p g :
  fileof (exec (EWrite f off d) p) g = if g =? f then pwrite (fileof p f) off d else fileof p g.
Proof. apply (fileof_put f (pwrite (fileof p f) off d) p g). Qed.

Lemma fileof_exec_trunc f n p g :
  fileof (exec (ETrunc f n) p) g = if g =? f then ftruncate (fileof p f) n else fileof p g.
Proof. apply (fileof_put f (ftruncate (fileof p f) n) p g). Qed.

Lemma uphys_write_ok tfile filePos d p :
  faults p = [] -> 0 <= filePos -> tfile <> LOGFILE ->
  exists p', uphys_write tfile filePos d p = (Z.of_nat (length d), p') /\ log_kept p p'
    /\ forall g, fileof p' g
         = if g =? tfile then pwrite (fileof p tfile) (Z.to_nat (filePos + HDRSIZE)) d
           else fileof p g.
Proof.
  intros Hf Hp Hne. unfold uphys_write, syscall, next_fault. rewrite Hf.
  unfold HDRSIZE. destruct (filePos + 64 <? 0) eqn:?; [lia|].
  eexists. split; [done|]. split; [|intros g; apply fileof_exec_write].
  unfold log_kept. rewrite fileof_exec_write.
  by rewrite (proj2 (Z.eqb_neq LOGFILE tfile)) by done.
Qed.

Lemma copy_nothing (tfile filePos tpos : Z) p :
  exists p', (Some (inr tpos) : option (Z + Z), p) = (Some (inr (tpos + 0)), p') /\ log_kept p p'
    /\ forall g, fileof p' g = redo_record (fileof p) (RData tfile filePos []) g.
Proof.
  exists p. rewrite Z.add_0_r. split; [done|]. split; [done|].
  intros g. cbn. by destruct (g =? tfile).
Qed.

(** The copy loop writes the data, whatever its length. *)
Lemma copy_data_ok fuel : forall tfile filePos tpos d l p,
  (length d <= fuel)%nat -> log_at p tpos (d ++ l) -> tfile <> LOGFILE ->
  0 <= filePos -> filePos + Z.of_nat (length d) < 2 ^ 31 ->
  exists p', copy_data fuel tfile filePos tpos (Z.of_nat (length d)) p
      = (Some (inr (tpos + Z.of_nat (length d))), p')
    /\ log_kept p p'
    /\ forall g, fileof p' g = redo_record (fileof p) (RData tfile filePos d) g.
Proof.
  induction fuel as [|fuel IH]; intros tfile filePos tpos d l p Hd Hl Hne Hp Hb.
  - destruct d; [|cbn in Hd; lia]. apply copy_nothing.
  - cbn [copy_data]. destruct (decide (d = [])) as [->|Hdn].
    { apply copy_nothing. }
    assert (Hlen : (0 < length d)%nat) by (destruct d; cbn; [done|lia]).
    destruct (Z.of_nat (length d) <=? 0) eqn:?; [lia|].
    set (n := Nat.min 4096 (length d)).
    assert (Hn : (if sizeof_data <? Z.of_nat (length d) then sizeof_data
                  else Z.of_nat (length d)) = Z.of_nat n).
    { unfold sizeof_data. destruct (4096 <? Z.of_nat (length d)) eqn:?; lia. }
    rewrite Hn, (uphys_read_at _ _ _ _ Hl).
    assert (Ht : take n (d ++ l) = take n d) by (apply take_app_le; lia).
    assert (Htl : length (take n d) = n) by (rewrite length_take; lia).
    rewrite Ht, Htl, Z.eqb_refl.
    destruct (uphys_write_ok tfile filePos (take n d) p) as (p1 & Ew & Hk1 & Hf1);
      [apply Hl|done|done|]. rewrite Htl in Ew. rewrite Ew, Z.eqb_refl.
    assert (Hl1 : log_at p1 (tpos + Z.of_nat n) (drop n d ++ l)).
    { apply (log_kept_at p); [done|]. pose proof Hl as Hl'.
      rewrite <- (take_drop n d), <- app_assoc in Hl'. apply log_at_skip in Hl'.
      by rewrite Htl in Hl'. }
    assert (Hdl : Z.of_nat (length d) - Z.of_nat n = Z.of_nat (length (drop n d)))
      by (rewrite length_drop; lia).
    destruct Hl as (Ht0 & Hbd & _). rewrite length_app in Hbd.
    rewrite Hdl, !s32_small by (rewrite ?length_drop; mlia).
    destruct (IH tfile (filePos + Z.of_nat n) (tpos + Z.of_nat n) (drop n d) l p1)
      as (p2 & Ec & Hk2 & Hf2); try done; try (rewrite length_drop; lia); try lia.
    exists p2. rewrite Ec. split_and!; [|by eapply log_kept_trans|].
    { do 3 f_equal. lia. }
    intros g. rewrite Hf2. cbn [redo_record]. rewrite Hf1.
    destruct (Z.eqb_spec g tfile) as [->|]; [|done].
    rewrite <- (pwrite_chunk _ _ n d) by (done || lia).
    by replace (Z.to_nat (filePos + Z.of_nat n + HDRSIZE))
      with (Z.to_nat (filePos + HDRSIZE) + n)%nat by (unfold HDRSIZE; lia).
Qed.

Lemma uphys_sync_ok f p :
  faults p = [] -> buf_fdcache p = None ->
  exists p', uphys_sync f p = (0, p') /\ log_kept p p' /\ forall g, fileof p' g = fileof p g.
Proof.
  intros Hf Hs. unfold uphys_sync, uphys_buf_flush. rewrite Hs. cbn.
  unfold syscall, next_fault. rewrite Hf. eexists. done.
Qed.

Lemma uphys_truncate_ok f n p :
  faults p = [] -> buf_fdcache p = None -> 0 <= n ->
  exists p', uphys_truncate f n p = (0, p') /\ faults p' = [] /\ buf_fdcache p' = None
    /\ forall g, fileof p' g
         = if g =? f then ftruncate (fileof p f) (Z.to_nat (n + HDRSIZE)) else fileof p g.
Proof.
  intros Hf Hs Hn. unfold uphys_truncate, uphys_buf_flush. rewrite Hs. cbn.
  unfold HDRSIZE. destruct (n + 64 <? 0) eqn:?; [lia|].
  unfold syscall, next_fault. rewrite Hf. eexists. split; [done|].
  split_and!; try done. apply fileof_exec_trunc.
Qed.

Lemma switch_sync_ok sf f p :
  faults p = [] -> buf_fdcache p = None ->
  exists p', switch_sync sf f p = (0, p') /\ log_kept p p' /\ forall g, fileof p' g = fileof p g.
Proof.
  intros Hf Hs. unfold switch_sync.
  destruct (sf =? f); [by exists p|]. destruct (0 <=? sf); [by apply uphys_sync_ok|].
  by exists p.
Qed.

Lemma redo_step r l p tpos sf fuel :
  body_record r -> log_at p tpos (enc r ++ l) ->
  exists p' sf', redo_log (S fuel) tpos sf p
      = redo_log fuel (tpos + Z.of_nat (length (enc r))) sf' p'
    /\ log_kept p p' /\ forall g, fileof p' g = redo_record (fileof p) r g.
Proof.
  intros Hb Hl. pose proof (log_at_next _ _ _ _ Hl) as Hn. pose proof Hl as (_ & _ & _ & Hf & Hs).
  destruct r as [|f len|f pos d| |v]; try done; cbn [enc] in *; cbn [redo_log].
  - rewrite (opcode_at _ _ _ _ Hl). opcode_tests. exists p, sf. by rewrite <- Hn.
  - rewrite <- app_assoc in Hl. rewrite (opcode_at _ _ _ _ Hl). opcode_tests.
    rewrite (read_params_at _ _ _ [f; len] l) by (by rewrite <- app_assoc in Hl).
    cbn [map nth]. destruct Hb as [Hb1 Hb2]. rewrite !s32_u32, !s32_small by mlia.
    destruct (uphys_truncate_ok f len p) as (p' & -> & Hf' & Hs' & Hg); try done; [lia|].
    exists p', sf. cbn [Z.eqb]. split; [by rewrite <- Hn|]. split.
    + unfold log_kept. rewrite Hg, (proj2 (Z.eqb_neq LOGFILE f)) by (unfold LOGFILE; lia).
      by rewrite Hf, Hs.
    + intros g. rewrite Hg. cbn. by destruct (Z.eqb_spec g f) as [->|].
  - rewrite <- app_assoc in Hl. rewrite (opcode_at _ _ _ _ Hl). opcode_tests.
    set (ps := [f; pos; Z.of_nat (length d)]).
    change (be32 f ++ be32 pos ++ be32 (Z.of_nat (length d)) ++ d)
      with (concat (map be32 ps) ++ d) in *.
    rewrite <- app_assoc in Hl.
    rewrite (read_params_at _ _ _ ps (d ++ l) Hl : read_words (s32 (tpos + 4)) 3 p = _).
    cbn [map nth ps]. destruct Hb as (Hb1 & Hb2 & Hb3 & Hb4). rewrite !s32_u32, !s32_small by mlia.
    destruct (switch_sync_ok sf f p Hf Hs) as (p1 & -> & Hk1 & Hg1). cbn [Z.eqb].
    assert (Hl1 : log_at p1 (tpos + 16) (d ++ l)).
    { apply (log_kept_at _ _ _ _ Hk1). rewrite app_assoc in Hl. by apply log_at_skip in Hl. }
    assert (Ht : s32 (tpos + 16) = tpos + 16).
    { destruct Hl1 as (? & ? & _). apply s32_small. destruct Hl as (? & _). mlia. }
    rewrite Ht, Nat2Z.id. assert (f <> LOGFILE) by (unfold LOGFILE; lia).
    destruct (copy_data_ok (length d) f pos (tpos + 16) d l p1) as (p2 & -> & Hk2 & Hg2);
      try done; try lia.
    exists p2, f. split; [|split; [by eapply log_kept_trans|]].
    + f_equal. rewrite app_assoc, length_app, Nat2Z.inj_add, Z.add_assoc. reflexivity.
    + intros g. rewrite Hg2. cbn [redo_record]. by rewrite Hg1.
Qed.

Lemma redo_record_ext r F G : (forall g, F g = G g) -> forall g, redo_record F r g = redo_record G r g.
Proof. intros E g. destruct r; cbn; by rewrite ?E. Qed.

Lemma redo_records_ext rs : forall F G, (forall g, F g = G g) ->
  forall g, redo_records rs F g = redo_records rs G g.
Proof.
  induction rs as [|r rs IH]; intros F G E g; [done|]. cbn. apply IH.
  by apply redo_record_ext.
Qed.

Lemma redo_body rs l : forall p tpos sf fuel,
  Forall body_record rs -> log_at p tpos (encs rs ++ l) ->
  exists p' sf', redo_log (length rs + fuel) tpos sf p
      = redo_log fuel (tpos + Z.of_nat (length (encs rs))) sf' p'
    /\ log_at p' (tpos + Z.of_nat (length (encs rs))) l /\ log_kept p p'
    /\ forall g, fileof p' g = redo_records rs (fileof p) g.
Proof.
  induction rs as [|r rs IH]; intros p tpos sf fuel Hrs Hl.
  - exists p, sf. cbn in *. by rewrite Z.add_0_r.
  - apply Forall_cons in Hrs as [Hr Hrs]. unfold encs in *. cbn [map concat] in *.
    rewrite <- app_assoc in Hl. cbn [length Nat.add].
    destruct (redo_step _ _ _ _ sf (length rs + fuel) Hr Hl) as (p1 & sf1 & -> & Hk & Hg).
    apply log_at_skip in Hl. apply (log_kept_at _ _ _ _ Hk) in Hl.
    destruct (IH _ _ sf1 fuel Hrs Hl) as (p2 & sf2 & -> & Hl2 & Hk2 & Hg2).
    exists p2, sf2. rewrite length_app, Nat2Z.inj_add, Z.add_assoc.
    split_and!; try done; [by eapply log_kept_trans|].
    intros g. rewrite Hg2. cbn [redo_records foldl].
    apply (redo_records_ext rs _ _ Hg).
Qed.

(** Replaying a committed log performs the transaction, labels the database with
    its version and empties the log. *)
Lemma ReplayLog_committed rs v l p fuel :
  Forall body_record rs -> version_ok v ->
  log_at p 0 (encs rs ++ enc (REnd v) ++ l) -> (length rs < fuel)%nat ->
  exists p', ReplayLog fuel p = (Return 0, p')
    /\ (forall g, g <> LOGFILE ->
          fileof p' g = redo_label v (redo_records rs (fileof p)) g)
    /\ log_at p' 0 [].
Proof.
  intros Hrs Hv Hl Hfu. unfold ReplayLog. rewrite (scan_committed _ _ _ _ _ Hrs Hl Hfu).
  replace fuel with (length rs + S (fuel - S (length rs)))%nat by lia.
  destruct (redo_body rs _ p 0 (-1) (S (fuel - S (length rs))) Hrs Hl)
    as (p1 & sf & -> & Hl1 & Hk1 & Hg1).
  cbn [redo_log enc] in *. rewrite <- !app_assoc in Hl1. rewrite (opcode_at _ _ _ _ Hl1).
  opcode_tests.
  rewrite (read_params_at _ _ _ [v_epoch v; v_counter v] l) by (exact Hl1).
  cbn [map nth]. destruct Hv as [He Hc]. rewrite !s32_u32, !s32_small by done.
  destruct Hl1 as (_ & _ & _ & Hf & Hs).
  unfold uphys_setlabel, next_fault. rewrite Hf. cbn [Z.eqb].
  set (p2 := exec (ESync 0) _).
  assert (Hg2 : forall g, fileof p2 g = redo_label v (fileof p1) g).
  { intros g. unfold redo_label, p2.
    transitivity (fileof (exec (EWrite 0 0 (encode_hdr (mkVersion (v_epoch v) (v_counter v)))) p1) g);
      [done|]. rewrite fileof_exec_write. destruct (Z.eqb_spec g 0) as [->|]; [by destruct v|done]. }
  assert (Hf2 : faults p2 = []) by done. assert (Hs2 : buf_fdcache p2 = None) by done.
  clearbody p2.
  assert (Hp3 : exists p3, (if 0 <=? sf then uphys_sync sf p2 else (0, p2)) = (0, p3)
           /\ log_kept p2 p3 /\ forall g, fileof p3 g = fileof p2 g).
  { destruct (0 <=? sf); [by apply uphys_sync_ok|by exists p2]. }
  destruct Hp3 as (p3 & -> & (_ & Hf3 & Hs3) & Hg3). cbn [Z.eqb].
  unfold finish_log.
  destruct (uphys_truncate_ok LOGFILE 0 p3) as (p4 & -> & Hf4 & Hs4 & Hg4); try congruence; [lia|].
  exists p4. split_and!; [done| |].
  - intros g Hne. rewrite Hg4, (proj2 (Z.eqb_neq g LOGFILE)), Hg3, Hg2 by done.
    unfold redo_label. by rewrite Hg1.
  - unfold log_at. rewrite Hg4, Z.eqb_refl, drop_ge by (by rewrite length_ftruncate).
    split_and!; try done; cbn; lia.
Qed.

(** When the first pass finds no commit record, only the log changes. *)
Lemma ReplayLog_scan_false p fuel :
  scan_log fuel 0 p = (Some false, p) -> faults p = [] -> buf_fdcache p = None ->
  exists p', ReplayLog fuel p = (Return 0, p')
    /\ (forall h, h <> LOGFILE -> fileof p' h = fileof p h) /\ log_at p' 0 [].
Proof.
  intros Hsc Hf Hs. unfold ReplayLog. rewrite Hsc. unfold finish_log.
  destruct (uphys_truncate_ok LOGFILE 0 p) as (p4 & -> & Hf4 & Hs4 & Hg4); try done.
  exists p4. split_and!; [done| |].
  - intros h Hne. by rewrite Hg4, (proj2 (Z.eqb_neq h LOGFILE)).
  - unfold log_at. rewrite Hg4, Z.eqb_refl, drop_ge by (by rewrite length_ftruncate).
    split_and!; try done; cbn; lia.
Qed.

(** A log that stops after complete records, or is aborted there. *)
Lemma scan_stopped rs g p fuel :
  Forall body_record rs -> log_at p 0 (encs rs ++ g) -> (length rs < fuel)%nat ->
  (length g < 4)%nat \/ g = enc RAbort -> scan_log fuel 0 p = (Some false, p).
Proof.
  intros Hrs Hl Hf Hg. replace fuel with (length rs + S (fuel - S (length rs)))%nat by lia.
  destruct (scan_records _ _ _ _ (S (fuel - S (length rs))) Hrs Hl) as [-> Hl2].
  cbn [scan_log]. destruct Hg as [Hg| ->].
  - by rewrite (read_words_short _ _ _ _ Hl2).
  - cbn [enc] in Hl2. rewrite <- (app_nil_r (be32 LOGABORT)) in Hl2.
    rewrite (opcode_at _ _ _ _ Hl2). by opcode_tests.
Qed.

(** Replaying any other log a crash can leave, cut before the commit opcode,
    changes nothing but the log. *)
Lemma ReplayLog_uncommitted rs v g p fuel :
  Forall body_record rs -> g `prefix_of` encs rs ++ enc (REnd v) ->
  (length g < length (encs rs) + 4)%nat ->
  Z.of_nat (length (encs rs)) < 2 ^ 31 - 4096 ->
  log_at p 0 g -> (S (length rs) < fuel)%nat ->
  exists p', ReplayLog fuel p = (Return 0, p')
    /\ (forall h, h <> LOGFILE -> fileof p' h = fileof p h) /\ log_at p' 0 [].
Proof.
  intros Hrs Hp Hlt Hfit Hl Hfu. apply ReplayLog_scan_false; [|apply Hl|apply Hl].
  by apply (scan_uncommitted rs v g p 0 fuel).
Qed.

(** A commit record of which only the opcode reached the disk: the first
    pass takes the log for committed, the second one redoes every write and then
    gives up with UBADLOG, so the database has changed, still carries its old
    label, and the log is not emptied. *)
Theorem replay_torn_commit rs t p fuel :
  Forall body_record rs -> (length t < 8)%nat ->
  log_at p 0 (encs rs ++ be32 LOGEND ++ t) -> (length rs < fuel)%nat ->
  exists p', ReplayLog fuel p = (Return UBADLOG, p')
    /\ (forall g, fileof p' g = redo_records rs (fileof p) g)
    /\ fileof p' LOGFILE = fileof p LOGFILE.
Proof.
  intros Hrs Ht Hl Hfu. unfold ReplayLog.
  replace fuel with (length rs + S (fuel - S (length rs)))%nat by lia.
  destruct (scan_records _ _ _ _ (S (fuel - S (length rs))) Hrs Hl) as [-> Hl2].
  cbn [scan_log]. rewrite (opcode_at _ _ _ _ Hl2). opcode_tests.
  destruct (redo_body rs _ p 0 (-1) (S (fuel - S (length rs))) Hrs Hl)
    as (p1 & sf & -> & Hl1 & Hk1 & Hg1).
  cbn [redo_log]. rewrite (opcode_at _ _ _ _ Hl1). opcode_tests.
  pose proof (log_at_next _ _ _ _ Hl1) as Hn. apply log_at_skip in Hl1.
  change (Z.of_nat (length (be32 LOGEND))) with 4 in *. rewrite Hn.
  rewrite (read_words_short _ _ _ _ Hl1) by lia.
  exists p1. split; [done|]. split; [done|]. apply Hk1.
Qed.

(** A data record whose length field reads -16 sends the first pass back to
    the record itself: replaying such a log never ends. *)
Theorem replay_corrupt_length_loops f pos l p fuel :
  log_at p 0 (be32 LOGDATA ++ be32 f ++ be32 pos ++ be32 (-16) ++ l) ->
  ReplayLog fuel p = (OutOfFuel, p).
Proof.
  intros Hl. enough (Hscan : scan_log fuel 0 p = (None, p)) by (unfold ReplayLog; by rewrite Hscan).
  induction fuel as [|fuel IH]; [done|]. cbn [scan_log].
  rewrite (opcode_at _ _ _ _ Hl). opcode_tests.
  rewrite (read_params_at _ _ _ [f; pos; -16] l Hl : read_words (s32 (0 + 4)) 3 p = _).
  exact IH.
Qed.

(** A log file on an otherwise empty disk. *)
Definition disk_with (db log : file) : phys :=
  mkPhys (<[LOGFILE := log]> (<[0 := db]> ∅)) None ∅ [] [].

Lemma replay_torn_commit_witness :
  let p := disk_with (zeros 80) (zeros 64 ++ encs [RNew; RData 0 8 [1; 2]] ++ be32 LOGEND) in
  exists p', ReplayLog 9 p = (Return UBADLOG, p') /\ byte (fileof p' 0) 73 = 2.
Proof.
  intros p.
  destruct (replay_torn_commit [RNew; RData 0 8 [1; 2]] [] p 9) as (p' & E & Hg & _).
  - repeat constructor; vm_compute; congruence.
  - cbn. lia.
  - repeat split; vm_compute; congruence.
  - cbn. lia.
  - exists p'. split; [exact E|]. rewrite Hg. vm_compute. reflexivity.
Defined.

Lemma replay_corrupt_length_loops_witness :
  let p := disk_with [] (zeros 64 ++ be32 LOGDATA ++ be32 0 ++ be32 0 ++ be32 (-16)) in
  ReplayLog 1000 p = (OutOfFuel, p).
Proof.
  intros p. apply (replay_corrupt_length_loops 0 0 [] p 1000).
  repeat split; vm_compute; congruence.
Defined.
