(* ===== verification/UbikDisk.v ===== *)
(** * The Ubik buffer cache and local transactions: disk.c

    A fixed set of page buffers with a hash table and an LRU list caches the
    database files.  A write transaction logs its writes and keeps them in dirty
    buffers, which readers skip; commit writes the log's commit record, flushes
    the dirty buffers and labels the database.  Linked structures are lists of
    buffer numbers: a hash chain in the order of its [hashNext] pointers, the
    circular LRU list starting at [LruBuffer] (so that [LruBuffer->lru_prev] is
    its last element). *)

From S2P Require Import Prelude UbikVote UbikPhys UbikLog.
From stdpp Require Import prelude list gmap.
From Stdlib Require Import ZArith Lia.

#[local] Open Scope Z_scope.

Definition UBIK_PAGESIZE := 1024.
Definition UBIK_LOGPAGESIZE := 10.
Definition UBIK_READTRANS := 0.
Definition UBIK_WRITETRANS := 1.
Definition BADFID := -1.  (* 0xffffffff stored in an afs_int32 *)
Definition UBIK_MILESTONE := 1497987403.
Definition UBIK_RECLABELDB := 8.
Definition UINTERNAL := 5380.
Definition USYNC := 5381.
Definition UBADTYPE := 5386.
Definition UTWOENDS := 5387.
Definition UDONE := 5388.
Definition UEOF := 5390.

(** ** State *)

Record buffer := mkBuffer {
  b_file : Z;
  b_page : Z;
  b_data : list Z;
  lockers : Z;
  dirty : bool;
  hashIndex : Z
}.

Definition set_key (f pg : Z) (b : buffer) : buffer :=
  mkBuffer f pg (b_data b) (lockers b) (dirty b) (hashIndex b).
Definition set_data (d : list Z) (b : buffer) : buffer :=
  mkBuffer (b_file b) (b_page b) d (lockers b) (dirty b) (hashIndex b).
Definition set_lockers (n : Z) (b : buffer) : buffer :=
  mkBuffer (b_file b) (b_page b) (b_data b) n (dirty b) (hashIndex b).
Definition set_dirty (x : bool) (b : buffer) : buffer :=
  mkBuffer (b_file b) (b_page b) (b_data b) (lockers b) x (hashIndex b).
Definition set_hashIndex (h : Z) (b : buffer) : buffer :=
  mkBuffer (b_file b) (b_page b) (b_data b) (lockers b) (dirty b) h.

(** The process has one database; [ubik_dbase] and the state of this file are
    one record. *)
Record dbase := mkDbase {
  ph : phys;
  Buffers : list buffer;
  phTable : gmap Z (list nat);
  lru : list nat;
  dversion : ubik_version;
  DBWRITING : bool;
  readers : Z;
  activeTrans : list nat;
  next_tid : nat;
  urecovery_state : Z;
  epochTime : Z
}.

Definition set_ph (x : phys) (s : dbase) : dbase :=
  mkDbase x (Buffers s) (phTable s) (lru s) (dversion s) (DBWRITING s) (readers s)
    (activeTrans s) (next_tid s) (urecovery_state s) (epochTime s).
Definition set_buffers (x : list buffer) (s : dbase) : dbase :=
  mkDbase (ph s) x (phTable s) (lru s) (dversion s) (DBWRITING s) (readers s)
    (activeTrans s) (next_tid s) (urecovery_state s) (epochTime s).
Definition set_table (x : gmap Z (list nat)) (s : dbase) : dbase :=
  mkDbase (ph s) (Buffers s) x (lru s) (dversion s) (DBWRITING s) (readers s)
    (activeTrans s) (next_tid s) (urecovery_state s) (epochTime s).
Definition set_lru (x : list nat) (s : dbase) : dbase :=
  mkDbase (ph s) (Buffers s) (phTable s) x (dversion s) (DBWRITING s) (readers s)
    (activeTrans s) (next_tid s) (urecovery_state s) (epochTime s).
Definition set_version (x : ubik_version) (s : dbase) : dbase :=
  mkDbase (ph s) (Buffers s) (phTable s) (lru s) x (DBWRITING s) (readers s)
    (activeTrans s) (next_tid s) (urecovery_state s) (epochTime s).
Definition set_writing (x : bool) (s : dbase) : dbase :=
  mkDbase (ph s) (Buffers s) (phTable s) (lru s) (dversion s) x (readers s)
    (activeTrans s) (next_tid s) (urecovery_state s) (epochTime s).
Definition set_readers (x : Z) (s : dbase) : dbase :=
  mkDbase (ph s) (Buffers s) (phTable s) (lru s) (dversion s) (DBWRITING s) x
    (activeTrans s) (next_tid s) (urecovery_state s) (epochTime s).
Definition set_active (x : list nat) (n : nat) (s : dbase) : dbase :=
  mkDbase (ph s) (Buffers s) (phTable s) (lru s) (dversion s) (DBWRITING s) (readers s)
    x n (urecovery_state s) (epochTime s).
Definition set_recstate (x : Z) (s : dbase) : dbase :=
  mkDbase (ph s) (Buffers s) (phTable s) (lru s) (dversion s) (DBWRITING s) (readers s)
    (activeTrans s) (next_tid s) x (epochTime s).

Record trans := mkTrans {
  t_id : nat;
  t_type : Z;
  TRDONE : bool;
  TRABORT : bool;
  activeTruncs : list (Z * Z)    (* file, length *)
}.

Definition set_truncs (x : list (Z * Z)) (t : trans) : trans :=
  mkTrans (t_id t) (t_type t) (TRDONE t) (TRABORT t) x.
Definition set_done (ab : bool) (t : trans) : trans :=
  mkTrans (t_id t) (t_type t) true (ab || TRABORT t) (activeTruncs t).

Definition dummy_buffer : buffer := mkBuffer BADFID 0 [] 0 false 0.
Definition buf (s : dbase) (i : nat) : buffer := nth i (Buffers s) dummy_buffer.
Definition upd_buf (i : nat) (f : buffer -> buffer) (s : dbase) : dbase :=
  set_buffers (alter f i (Buffers s)) s.

Definition pHash (page : Z) : Z := Z.land page 127.
Definition chain (s : dbase) (h : Z) : list nat := default [] (phTable s !! h).

(** ** The buffer cache *)

(** [udisk_Init]: every buffer empty and in no hash chain. *)
Definition udisk_Init (abuffers : nat) (p : phys) (v : ubik_version) (epoch : Z) : dbase :=
  mkDbase p (repeat (mkBuffer BADFID 0 (zeros 1024) 0 false 0) abuffers) ∅
    (seq 0 abuffers) v false 0 [] 0 0 epoch.

Definition without (i : nat) (l : list nat) : list nat := List.filter (fun j => negb (j =? i)%nat) l.

(** Least recently used: to the front. *)
Definition Dlru (i : nat) (s : dbase) : dbase :=
  match lru s with
  | j :: _ => if (j =? i)%nat then s else set_lru (i :: without i (lru s)) s
  | [] => s
  end.

(** Most recently used: to the end. *)
Definition Dmru (i : nat) (s : dbase) : dbase :=
  match lru s with
  | j :: rest => if (j =? i)%nat then set_lru (rest ++ [j]) s
                 else set_lru (without i (lru s) ++ [i]) s
  | [] => s
  end.

Definition MatchBuffer (b : buffer) (page fid ttype : Z) : bool :=
  if negb (b_page b =? page) then false
  else if negb (b_file b =? fid) then false
  else if (ttype =? UBIK_READTRANS) && dirty b then false
  else true.

(** Move a buffer to the hash chain of its page. *)
Definition FixupBucket (i : nat) (s : dbase) : dbase :=
  let old := hashIndex (buf s i) in
  let h := pHash (b_page (buf s i)) in
  let s1 := set_table (<[old := without i (chain s old)]> (phTable s)) s in
  let s2 := upd_buf i (set_hashIndex h) s1 in
  set_table (<[h := i :: chain s2 h]> (phTable s2)) s2.

Definition newslot (afid apage : Z) (s : dbase) : option nat * dbase :=
  match List.find (fun i => (lockers (buf s i) =? 0) && negb (dirty (buf s i))) (lru s) with
  | None => (None, s)
  | Some i => (Some i, Dmru i (FixupBucket i (upd_buf i (set_key afid apage) s)))
  end.

(** The search of the hash chain: a dirty page, or any page for a reader, ends
    it; a clean page is remembered for a writer. *)
Fixpoint search_chain (s : dbase) (page fid ttype : Z) (l : list nat) (found : option nat)
    : option nat :=
  match l with
  | [] => found
  | i :: rest =>
      if MatchBuffer (buf s i) page fid ttype then
        if dirty (buf s i) || (ttype =? UBIK_READTRANS) then Some i
        else search_chain s page fid ttype rest (Some i)
      else search_chain s page fid ttype rest found
  end.

Definition lock_buf (i : nat) (s : dbase) : dbase :=
  upd_buf i (fun b => set_lockers (lockers b + 1) b) s.

(** [DRead]: the buffer that holds the page, locked; [None] is a null pointer. *)
Definition DRead (ttype fid page : Z) (s : dbase) : option nat * dbase :=
  let lastbuffer := List.last (lru s) 0%nat in
  if MatchBuffer (buf s lastbuffer) page fid ttype
     && ((ttype =? UBIK_READTRANS) || dirty (buf s lastbuffer))
  then (Some lastbuffer, lock_buf lastbuffer s)
  else
    match search_chain s page fid ttype (chain s (pHash page)) None with
    | Some i => (Some i, lock_buf i (Dmru i s))
    | None =>
        match newslot fid page s with
        | (None, s1) => (None, s1)
        | (Some i, s1) =>
            let s2 := lock_buf i (upd_buf i (set_data (zeros 1024)) s1) in
            let (r, p') := uphys_read fid (page * UBIK_PAGESIZE) UBIK_PAGESIZE (ph s2) in
            let s3 := set_ph p' s2 in
            match r with
            | Some d => (Some i, upd_buf i (set_data (d ++ zeros (1024 - length d))) s3)
            | None =>
                (None, upd_buf i (fun b => set_lockers (lockers b - 1) b)
                         (Dlru i (upd_buf i (fun b => set_key BADFID (b_page b) b) s3)))
            end
        end
    end.

Definition DNew (fid page : Z) (s : dbase) : option nat * dbase :=
  match newslot fid page s with
  | (None, s1) => (None, s1)
  | (Some i, s1) => (Some i, upd_buf i (set_data (zeros 1024)) (lock_buf i s1))
  end.

Definition DRelease (i : nat) (flag : bool) (s : dbase) : dbase :=
  upd_buf i (fun b => let b1 := set_lockers (lockers b - 1) b in
                      if flag then set_dirty true b1 else b1) s.

(** Invalidate buffer [i] and make it the first to be reused. *)
Definition zap (i : nat) (s : dbase) : dbase :=
  Dlru i (upd_buf i (fun b => set_key BADFID (b_page b) b) s).

Definition all_bufs (s : dbase) : list nat := seq 0 (length (Buffers s)).

(** Invalidate the buffers of a list that satisfy a test. *)
Definition zap_all (c : nat -> buffer -> bool) (l : list nat) (s : dbase) : dbase :=
  foldl (fun s i => if c i (buf s i) then zap i s else s) s l.

Definition DTrunc (fid length : Z) (s : dbase) : dbase :=
  let maxPage := Z.shiftr (length + UBIK_PAGESIZE - 1) UBIK_LOGPAGESIZE in
  zap_all (fun _ b => (maxPage <=? b_page b) && (b_file b =? fid)) (all_bufs s) s.

Definition udisk_Invalidate (afid : Z) (s : dbase) : dbase :=
  zap_all (fun _ b => b_file b =? afid) (all_bufs s) s.

(** Write the dirty buffers out; the first failure ends the loop. *)
Fixpoint DFlush_from (l : list nat) (s : dbase) : Z * dbase :=
  match l with
  | [] => (0, s)
  | i :: rest =>
      if dirty (buf s i) then
        let (code, p') := uphys_write (b_file (buf s i)) (b_page (buf s i) * UBIK_PAGESIZE)
                            (b_data (buf s i)) (ph s) in
        if negb (code =? UBIK_PAGESIZE) then (UIOERROR, set_ph p' s)
        else DFlush_from rest (set_ph p' s)
      else DFlush_from rest s
  end.
Definition DFlush (s : dbase) : Z * dbase := DFlush_from (all_bufs s) s.

Definition DAbort (s : dbase) : dbase :=
  foldl (fun s i => if dirty (buf s i) then zap i (upd_buf i (set_dirty false) s) else s)
    s (all_bufs s).

(** Invalidate the other buffers of the same page. *)
Definition DedupBuffer (i : nat) (s : dbase) : dbase :=
  let abuf := buf s i in
  zap_all (fun j b => (b_page b =? b_page abuf) && negb (j =? i)%nat && (b_file b =? b_file abuf))
    (chain s (pHash (b_page abuf))) s.

(** One buffer of a pass over the buffers, which cleans those of one file. *)
Definition pass_step (a : Z * dbase) (i : nat) : Z * dbase :=
  let '(fl, s) := a in
  if dirty (buf s i) then
    let fl1 := if fl =? BADFID then b_file (buf s i) else fl in
    if negb (fl1 =? BADFID) && (b_file (buf s i) =? fl1)
    then (fl1, DedupBuffer i (upd_buf i (set_dirty false) s))
    else (fl1, s)
  else (fl, s).
Definition DSync_pass (s : dbase) : Z * dbase := foldl pass_step (BADFID, s) (all_bufs s).

Fixpoint DSync_loop (fuel : nat) (rCode : Z) (s : dbase) : option Z * dbase :=
  match fuel with
  | O => (None, s)
  | S fuel' =>
      let (fl, s1) := DSync_pass s in
      if fl =? BADFID then (Some rCode, s1)
      else
        let (code, p') := uphys_sync fl (ph s1) in
        DSync_loop fuel' (if code =? 0 then rCode else code) (set_ph p' s1)
  end.

(** Each round cleans at least one buffer. *)
Definition DSync (s : dbase) : option Z * dbase :=
  DSync_loop (S (length (Buffers s))) 0 s.

(** ** Transactions *)

Definition FindTrunc (t : trans) (afile : Z) : option Z :=
  snd <$> List.find (fun e => fst e =? afile) (activeTruncs t).

(** Set the length in the entry that [FindTrunc] finds. *)
Fixpoint put_trunc (afile len : Z) (l : list (Z * Z)) : list (Z * Z) :=
  match l with
  | [] => []
  | (f, n) :: rest => if f =? afile then (f, len) :: rest else (f, n) :: put_trunc afile len rest
  end.

Fixpoint DoTruncs_list (l : list (Z * Z)) (rcode : Z) (s : dbase) : Z * dbase :=
  match l with
  | [] => (rcode, s)
  | (f, n) :: rest =>
      let s1 := DTrunc f n s in
      let (code, p') := uphys_truncate f n (ph s1) in
      DoTruncs_list rest (if code =? 0 then rcode else code) (set_ph p' s1)
  end.
Definition DoTruncs (t : trans) (s : dbase) : Z * trans * dbase :=
  let (code, s') := DoTruncs_list (activeTruncs t) 0 s in (code, set_truncs [] t, s').

(** The part of a request that lies in one page: its offset and length. *)
Definition page_piece (apos alen : Z) : Z * Z :=
  let offset := Z.land apos (UBIK_PAGESIZE - 1) in
  let len := UBIK_PAGESIZE - offset in
  (offset, if alen <? len then alen else len).

(** The loop of [udisk_read]; the fuel is the number of bytes. *)
Fixpoint read_loop (fuel : nat) (ttype afile apos alen : Z) (acc : list Z) (s : dbase)
    : Z * list Z * dbase :=
  if alen <=? 0 then (0, acc, s)
  else
    match fuel with
    | O => (UINTERNAL, acc, s)
    | S fuel' =>
        match DRead ttype afile (Z.shiftr apos UBIK_LOGPAGESIZE) s with
        | (None, s1) => (UEOF, acc, s1)
        | (Some i, s1) =>
            let '(offset, len) := page_piece apos alen in
            let d := take (Z.to_nat len) (drop (Z.to_nat offset) (b_data (buf s1 i))) in
            read_loop fuel' ttype afile (s32 (apos + len)) (alen - len) (acc ++ d)
              (DRelease i false s1)
        end
    end.

(** [udisk_read]: the code and the bytes delivered to the caller's buffer. *)
Definition udisk_read (t : trans) (afile apos alen : Z) (s : dbase) : Z * list Z * dbase :=
  if TRDONE t then (UDONE, [], s)
  else read_loop (Z.to_nat alen) (t_type t) afile apos alen [] s.

Definition udisk_truncate (t : trans) (afile alength : Z) (s : dbase) : Z * trans * dbase :=
  if TRDONE t then (UDONE, t, s)
  else if negb (t_type t =? UBIK_WRITETRANS) then (UBADTYPE, t, s)
  else
    let (code, p') := udisk_LogTruncate afile alength (ph s) in
    let t' :=
      match FindTrunc t afile with
      | None => set_truncs ((afile, alength) :: activeTruncs t) t
      | Some len =>
          if alength <? len then set_truncs (put_trunc afile alength (activeTruncs t)) t else t
      end in
    (code, t', set_ph p' s).

(** The loop of [udisk_write] that updates the buffers. *)
Fixpoint write_loop (fuel : nat) (ttype afile apos : Z) (abuffer : list Z) (s : dbase)
    : Z * dbase :=
  let alen := Z.of_nat (length abuffer) in
  if alen <=? 0 then (0, s)
  else
    match fuel with
    | O => (UINTERNAL, s)
    | S fuel' =>
        let page := Z.shiftr apos UBIK_LOGPAGESIZE in
        let (bp, s1) :=
          match DRead ttype afile page s with
          | (Some i, s1) => (Some i, s1)
          | (None, s1) => DNew afile page s1
          end in
        match bp with
        | None => (UIOERROR, s1)
        | Some i =>
            let '(offset, len) := page_piece apos alen in
            let s2 := upd_buf i (fun b => set_data (pwrite (b_data b) (Z.to_nat offset)
                                     (take (Z.to_nat len) abuffer)) b) s1 in
            write_loop fuel' ttype afile (s32 (apos + len)) (drop (Z.to_nat len) abuffer)
              (DRelease i true s2)
        end
    end.

(** [udisk_write]; [abuffer] holds the [alen] bytes. *)
Definition udisk_write (t : trans) (afile : Z) (abuffer : list Z) (apos : Z) (s : dbase)
    : Z * trans * dbase :=
  let alen := Z.of_nat (length abuffer) in
  if TRDONE t then (UDONE, t, s)
  else if negb (t_type t =? UBIK_WRITETRANS) then (UBADTYPE, t, s)
  else
    let (code, p') := udisk_LogWriteData afile abuffer apos alen (ph s) in
    let s1 := set_ph p' s in
    if negb (code =? 0) then (code, t, s1)
    else
      let t' :=
        match FindTrunc t afile with
        | Some len =>
            if len <? s32 (apos + alen)
            then set_truncs (put_trunc afile (s32 (apos + alen)) (activeTruncs t)) t else t
        | None => t
        end in
      let (c, s2) := write_loop (length abuffer) (t_type t) afile apos abuffer s1 in
      (c, t', s2).

Definition udisk_begin (atype : Z) (s : dbase) : Z * option trans * dbase :=
  let start s :=
    let t := mkTrans (next_tid s) atype false false [] in
    let s1 := set_active (t_id t :: activeTrans s) (S (next_tid s)) s in
    (0, Some t,
     if atype =? UBIK_READTRANS then set_readers (readers s1 + 1) s1
     else if atype =? UBIK_WRITETRANS then set_writing true s1 else s1) in
  if atype =? UBIK_WRITETRANS then
    if DBWRITING s then (USYNC, None, s)
    else
      let (code, p') := udisk_LogOpcode LOGNEW false (ph s) in
      if negb (code =? 0) then (code, None, set_ph p' s) else start (set_ph p' s)
  else start s.

(** The first write of a new sync site relabels the database.  [None]: the label
    is out of range and the server panics.  [ContactQuorum_DISK_SetVersion] tells
    the other servers; its result is ignored. *)
Definition relabel (am_sync : bool) (now : Z) (s : dbase) : option (Z * dbase) :=
  if am_sync && (Z.land (urecovery_state s) UBIK_RECLABELDB =? 0) then
    if (epochTime s <? UBIK_MILESTONE) || (now <? epochTime s) then None
    else
      let newversion := mkVersion (epochTime s) 1 in
      let (code, p') := uphys_setlabel 0 newversion (ph s) in
      let s1 := set_ph p' s in
      if negb (code =? 0) then Some (code, s1)
      else Some (0, set_recstate (Z.lor (urecovery_state s1) UBIK_RECLABELDB)
                      (set_version newversion s1))
  else Some (0, s).

(** After the commit record is on disk: any failure is a panic. *)
Definition commit_apply (t : trans) (s : dbase) : outcome * trans * dbase :=
  let (c1, s1) := DFlush s in
  if negb (c1 =? 0) then (Panic, t, s1)
  else
    let (c2, s2) := DSync s1 in
    match c2 with
    | None => (OutOfFuel, t, s2)
    | Some c2 =>
        if negb (c2 =? 0) then (Panic, t, s2)
        else
          let '(c3, t3, s3) := DoTruncs t s2 in
          if negb (c3 =? 0) then (Panic, t3, s3)
          else
            let (c4, p4) := uphys_setlabel 0 (dversion s3) (ph s3) in
            if negb (c4 =? 0) then (Panic, t3, set_ph p4 s3)
            else
              let (c5, p5) := uphys_truncate LOGFILE 0 p4 in
              if negb (c5 =? 0) then (Panic, t3, set_ph p5 s3)
              else (Return 0, set_done false t3, set_ph p5 s3)
    end.

Definition bump (d : Z) (v : ubik_version) : ubik_version :=
  mkVersion (v_epoch v) (s32 (v_counter v + d)).

(** [am_sync] is what [ubeacon_AmSyncSite] answers, [now] the current time. *)
Definition udisk_commit (am_sync : bool) (now : Z) (t : trans) (s : dbase)
    : outcome * trans * dbase :=
  if TRDONE t then (Return UTWOENDS, t, s)
  else if t_type t =? UBIK_WRITETRANS then
    match relabel am_sync now s with
    | None => (Panic, t, s)
    | Some (c0, s0) =>
        if negb (c0 =? 0) then (Return c0, t, s0)
        else
          let s1 := set_version (bump 1 (dversion s0)) s0 in
          let (code, p') := udisk_LogEnd (dversion s1) (ph s1) in
          let s2 := set_ph p' s1 in
          if negb (code =? 0) then (Return code, t, set_version (bump (-1) (dversion s2)) s2)
          else commit_apply t s2
    end
  else (Return 0, set_done false t, s).

Definition udisk_abort (t : trans) (s : dbase) : outcome * trans * dbase :=
  if TRDONE t then (Return UTWOENDS, t, s)
  else if (t_type t =? UBIK_WRITETRANS) && DBWRITING s then
    let (_, p1) := udisk_LogOpcode LOGABORT true (ph s) in
    let (code, p2) := uphys_truncate LOGFILE 0 p1 in
    if negb (code =? 0) then (Panic, t, set_ph p2 s)
    else (Return 0, set_done true t, DAbort (set_ph p2 s))
  else (Return 0, set_done true t, s).

Definition unthread (t : trans) (s : dbase) : dbase :=
  set_active (without (t_id t) (activeTrans s)) (next_tid s) s.

(** [udisk_end]; the transaction's lock is released by the caller of the model
    ([ulock_relLock], see [UbikLock.v]). *)
Definition udisk_end (t : trans) (s : dbase) : outcome * dbase :=
  let '(o, t1, s1) := if TRDONE t then (Return 0, t, s) else udisk_abort t s in
  match o with
  | Return _ =>
      let s2 := unthread t1 s1 in
      if (t_type t =? UBIK_WRITETRANS) && DBWRITING s2
      then (Return 0, set_writing false s2)
      else (Return 0, set_readers (readers s2 - 1) s2)
  | _ => (o, s1)
  end.

(** ** Structure of the cache *)

Definition nbufs (s : dbase) : nat := length (Buffers s).

(** What the other parts of the system see of the state besides the cache. *)
Definition rest_of (s : dbase) :=
  (ph s, dversion s, DBWRITING s, readers s, activeTrans s, next_tid s, urecovery_state s,
   epochTime s).

Record struct_ok (s : dbase) : Prop := {
  so_lru : lru s ≡ₚ seq 0 (nbufs s);
  so_chain : forall h i, i ∈ chain s h -> (i < nbufs s)%nat /\ hashIndex (buf s i) = h;
  so_hashed : forall i, (i < nbufs s)%nat -> b_file (buf s i) <> BADFID ->
    i ∈ chain s (pHash (b_page (buf s i)))
}.

Lemma buf_upd i f s j :
  (i < nbufs s)%nat -> buf (upd_buf i f s) j = if (j =? i)%nat then f (buf s i) else buf s j.
Proof.
  intros Hi. unfold buf, upd_buf. cbn [Buffers set_buffers].
  rewrite !nth_lookup. destruct (Nat.eqb_spec j i) as [->|Hne].
  - rewrite list_lookup_alter_eq. unfold nbufs in Hi.
    destruct (lookup_lt_is_Some_2 (Buffers s) i Hi) as [b ->]. done.
  - by rewrite list_lookup_alter_ne.
Qed.

Lemma buf_upd_eq i f s : (i < nbufs s)%nat -> buf (upd_buf i f s) i = f (buf s i).
Proof. intros Hi. by rewrite buf_upd, Nat.eqb_refl. Qed.

Lemma buf_upd_ne i f s j : j <> i -> buf (upd_buf i f s) j = buf s j.
Proof.
  intros Hne. unfold buf, upd_buf. cbn [Buffers set_buffers].
  by rewrite !nth_lookup, list_lookup_alter_ne.
Qed.

Lemma nbufs_upd i f s : nbufs (upd_buf i f s) = nbufs s.
Proof. unfold nbufs, upd_buf. cbn. by rewrite length_alter. Qed.

Lemma without_perm i l : i ∈ l -> NoDup l -> l ≡ₚ i :: without i l.
Proof.
  unfold without. induction l as [|j l IH]; intros Hi Hn; [by apply not_elem_of_nil in Hi|].
  apply NoDup_cons in Hn as [Hj Hn]. cbn [List.filter].
  destruct (Nat.eqb_spec j i) as [->|Hne]; cbn [negb].
  - f_equiv. clear -Hj. induction l as [|k l IH]; [done|]. cbn.
    apply not_elem_of_cons in Hj as [Hk Hj].
    rewrite (proj2 (Nat.eqb_neq k i)) by done. cbn. constructor. by apply IH.
  - apply elem_of_cons in Hi as [Hi|Hi]; [done|]. rewrite (IH Hi Hn) at 1.
    constructor.
Qed.

Lemma elem_without i j l : j ∈ without i l <-> j ∈ l /\ j <> i.
Proof.
  unfold without. rewrite !list_elem_of_In, filter_In, negb_true_iff, Nat.eqb_neq. tauto.
Qed.

Lemma Dmru_frame i s :
  Buffers (Dmru i s) = Buffers s /\ phTable (Dmru i s) = phTable s
  /\ rest_of (Dmru i s) = rest_of s.
Proof. unfold Dmru. by repeat case_match. Qed.

Lemma Dlru_frame i s :
  Buffers (Dlru i s) = Buffers s /\ phTable (Dlru i s) = phTable s
  /\ rest_of (Dlru i s) = rest_of s.
Proof. unfold Dlru. by repeat case_match. Qed.

Lemma Dmru_perm i s : i ∈ lru s -> NoDup (lru s) -> lru (Dmru i s) ≡ₚ lru s.
Proof.
  unfold Dmru. intros Hi Hn. destruct (lru s) as [|j l] eqn:E; [by rewrite E|].
  destruct (Nat.eqb_spec j i) as [->|Hne]; cbn [lru set_lru].
  - by rewrite Permutation_app_comm.
  - rewrite Permutation_app_comm. cbn. symmetry. by apply without_perm.
Qed.

Lemma Dlru_perm i s : i ∈ lru s -> NoDup (lru s) -> lru (Dlru i s) ≡ₚ lru s.
Proof.
  unfold Dlru. intros Hi Hn. destruct (lru s) as [|j l] eqn:E; [by rewrite E|].
  destruct (Nat.eqb_spec j i) as [->|Hne]; cbn [lru set_lru]; [by rewrite E|].
  symmetry. by apply without_perm.
Qed.

(** [struct_ok] depends only on the keys of the buffers. *)
Lemma struct_ok_ext s s' :
  nbufs s' = nbufs s -> lru s' ≡ₚ lru s -> phTable s' = phTable s ->
  (forall i, (i < nbufs s)%nat -> hashIndex (buf s' i) = hashIndex (buf s i)
     /\ b_page (buf s' i) = b_page (buf s i)
     /\ (b_file (buf s' i) = b_file (buf s i) \/ b_file (buf s' i) = BADFID)) ->
  struct_ok s -> struct_ok s'.
Proof.
  intros Hn Hl Ht Hb [S1 S2 S3]. constructor; unfold chain in *; rewrite ?Hn, ?Ht.
  - by rewrite Hl.
  - intros h i Hi. destruct (S2 h i Hi) as [Hlt Hh]. split; [done|].
    destruct (Hb i Hlt) as (-> & _). done.
  - intros i Hi Hf. destruct (Hb i Hi) as (_ & -> & [E|E]); [|done].
    apply S3; [done|congruence].
Qed.

Lemma struct_lru s i : struct_ok s -> (i < nbufs s)%nat -> i ∈ lru s.
Proof. intros [S1 _ _] Hi. rewrite S1. apply elem_of_seq. lia. Qed.

Lemma struct_nodup s : struct_ok s -> NoDup (lru s).
Proof. intros [S1 _ _]. rewrite S1. apply NoDup_seq. Qed.

Lemma buf_Dmru i s j : buf (Dmru i s) j = buf s j.
Proof. unfold buf. by rewrite (proj1 (Dmru_frame i s)). Qed.

Lemma buf_Dlru i s j : buf (Dlru i s) j = buf s j.
Proof. unfold buf. by rewrite (proj1 (Dlru_frame i s)). Qed.

Lemma nbufs_Dmru i s : nbufs (Dmru i s) = nbufs s.
Proof. unfold nbufs. by rewrite (proj1 (Dmru_frame i s)). Qed.

Lemma nbufs_Dlru i s : nbufs (Dlru i s) = nbufs s.
Proof. unfold nbufs. by rewrite (proj1 (Dlru_frame i s)). Qed.

(** Compute the buffers of an updated state. *)
Ltac dsimp :=
  repeat first
    [ rewrite nbufs_upd | rewrite nbufs_Dmru | rewrite nbufs_Dlru
    | rewrite buf_Dmru | rewrite buf_Dlru
    | rewrite buf_upd_eq by (dsimp; assumption) | rewrite buf_upd_ne by assumption ].

Lemma struct_Dmru i s : struct_ok s -> (i < nbufs s)%nat -> struct_ok (Dmru i s).
Proof.
  intros Hs Hi. eapply struct_ok_ext; [| | | |exact Hs].
  - apply nbufs_Dmru.
  - apply Dmru_perm; [by apply struct_lru|by apply struct_nodup].
  - apply Dmru_frame.
  - intros j _. rewrite buf_Dmru. auto.
Qed.

Lemma struct_Dlru i s : struct_ok s -> (i < nbufs s)%nat -> struct_ok (Dlru i s).
Proof.
  intros Hs Hi. eapply struct_ok_ext; [| | | |exact Hs].
  - apply nbufs_Dlru.
  - apply Dlru_perm; [by apply struct_lru|by apply struct_nodup].
  - apply Dlru_frame.
  - intros j _. rewrite buf_Dlru. auto.
Qed.

(** Changes of data, locks and dirty bits, and invalidation, keep the structure. *)
Lemma struct_upd i f s :
  (i < nbufs s)%nat ->
  hashIndex (f (buf s i)) = hashIndex (buf s i) -> b_page (f (buf s i)) = b_page (buf s i) ->
  b_file (f (buf s i)) = b_file (buf s i) \/ b_file (f (buf s i)) = BADFID ->
  struct_ok s -> struct_ok (upd_buf i f s).
Proof.
  intros Hi Hh Hp Hf. apply struct_ok_ext; try done; [apply nbufs_upd|].
  intros j _. rewrite buf_upd by done. destruct (Nat.eqb_spec j i) as [->|]; auto.
Qed.

Lemma chain_set_table h l s h' :
  chain (set_table (<[h := l]> (phTable s)) s) h' = if h' =? h then l else chain s h'.
Proof.
  unfold chain. cbn [phTable set_table]. destruct (Z.eqb_spec h' h) as [->|Hne].
  - by rewrite lookup_insert_eq.
  - by rewrite lookup_insert_ne.
Qed.

(** The chains after a buffer has been moved to its bucket. *)
Lemma chain_fixup i s j h :
  (i < nbufs s)%nat -> (forall h i, i ∈ chain s h -> hashIndex (buf s i) = h) ->
  j ∈ chain (FixupBucket i s) h
  <-> (j = i /\ h = pHash (b_page (buf s i))) \/ (j <> i /\ j ∈ chain s h).
Proof.
  intros Hi Hc. unfold FixupBucket. set (old := hashIndex (buf s i)).
  set (s1 := set_table _ s). set (s2 := upd_buf i _ s1).
  rewrite chain_set_table.
  assert (Hw : forall h', j ∈ chain s2 h' <-> j <> i /\ j ∈ chain s h' \/ j = i /\ h' <> old /\ j ∈ chain s h').
  { intros h'. change (chain s2 h') with (chain s1 h'). unfold s1. rewrite chain_set_table.
    destruct (Z.eqb_spec h' old) as [->|Hne]; [rewrite elem_without; tauto|].
    destruct (decide (j = i)); tauto. }
  assert (Hold : forall h', i ∈ chain s h' -> h' = old) by (intros h' Hh; symmetry; by apply Hc).
  destruct (Z.eqb_spec h (pHash (b_page (buf s i)))) as [->|Hne].
  - rewrite elem_of_cons, Hw. split; [|tauto]. intros [->|[?|(-> & Hn & Hin)]]; try tauto.
  - rewrite Hw. split; [|tauto]. intros [?|(-> & Hn & Hin)]; [tauto|].
    by apply Hold in Hin.
Qed.

Lemma FixupBucket_frame i s :
  rest_of (FixupBucket i s) = rest_of s /\ lru (FixupBucket i s) = lru s
  /\ nbufs (FixupBucket i s) = nbufs s
  /\ Buffers (FixupBucket i s)
     = alter (set_hashIndex (pHash (b_page (buf s i)))) i (Buffers s).
Proof.
  split_and!; try done.
  exact (nbufs_upd i (set_hashIndex (pHash (b_page (buf s i)))) s).
Qed.

Lemma buf_fixup i f pg s j :
  (i < nbufs s)%nat ->
  buf (FixupBucket i (upd_buf i (set_key f pg) s)) j
  = if (j =? i)%nat then set_hashIndex (pHash pg) (set_key f pg (buf s i)) else buf s j.
Proof.
  intros Hi. set (s1 := upd_buf i (set_key f pg) s).
  transitivity (buf (upd_buf i (set_hashIndex (pHash (b_page (buf s1 i)))) s1) j).
  { unfold buf. by rewrite (proj2 (proj2 (proj2 (FixupBucket_frame i s1)))). }
  rewrite buf_upd by (unfold s1; by rewrite nbufs_upd). unfold s1.
  destruct (Nat.eqb_spec j i) as [->|Hne]; [by rewrite buf_upd_eq|by rewrite buf_upd_ne].
Qed.

Lemma struct_fixup i f pg s :
  struct_ok s -> (i < nbufs s)%nat -> struct_ok (FixupBucket i (upd_buf i (set_key f pg) s)).
Proof.
  intros [S1 S2 S3] Hi. set (s1 := upd_buf i (set_key f pg) s).
  assert (Hn1 : nbufs s1 = nbufs s) by apply nbufs_upd.
  destruct (FixupBucket_frame i s1) as (_ & Hl & Hn & Hb).
  assert (Hbuf : forall j, buf (FixupBucket i s1) j
            = if (j =? i)%nat then set_hashIndex (pHash pg) (set_key f pg (buf s i)) else buf s j).
  { intros j. by apply buf_fixup. }
  assert (Hch : forall j h, j ∈ chain (FixupBucket i s1) h
            <-> (j = i /\ h = pHash pg) \/ (j <> i /\ j ∈ chain s h)).
  { intros j h. rewrite chain_fixup; [|by rewrite Hn1|].
    - unfold s1. by rewrite buf_upd_eq.
    - intros h' k Hk. destruct (S2 h' k Hk) as [_ <-]. unfold s1. rewrite buf_upd by done.
      destruct (Nat.eqb_spec k i) as [->|]; done. }
  constructor.
  - by rewrite Hl, Hn, Hn1.
  - intros h j Hj. rewrite Hn, Hn1, Hbuf. apply Hch in Hj as [[-> ->]|[Hne Hj]].
    + rewrite Nat.eqb_refl. by split.
    + rewrite (proj2 (Nat.eqb_neq j i)) by done. by apply S2.
  - intros j Hj. rewrite Hn, Hn1 in Hj. rewrite Hbuf. rewrite Hch.
    destruct (Nat.eqb_spec j i) as [->|Hne]; cbn; [auto|]. intros Hf. right.
    split; [done|by apply S3].
Qed.

(** ** What the cache holds *)

(** A page of a file on disk, zero-filled beyond the end. *)
Definition dpage (p : phys) (f pg : Z) : list Z :=
  let l := pread (fileof p f) (Z.to_nat (pg * UBIK_PAGESIZE + HDRSIZE)) 1024 in
  l ++ zeros (1024 - length l).

Record cache_ok (s : dbase) : Prop := {
  co_struct : struct_ok s;
  co_len : forall i, (i < nbufs s)%nat -> length (b_data (buf s i)) = 1024%nat;
  co_key : forall i, (i < nbufs s)%nat -> b_file (buf s i) <> BADFID ->
    0 <= b_file (buf s i) /\ 0 <= b_page (buf s i);
  co_clean : forall i, (i < nbufs s)%nat -> dirty (buf s i) = false ->
    b_file (buf s i) <> BADFID ->
    b_data (buf s i) = dpage (ph s) (b_file (buf s i)) (b_page (buf s i));
  co_dirty : forall i, (i < nbufs s)%nat -> dirty (buf s i) = true -> b_file (buf s i) <> BADFID;
  co_uniq : forall i j, (i < nbufs s)%nat -> (j < nbufs s)%nat ->
    dirty (buf s i) = true -> dirty (buf s j) = true ->
    b_file (buf s i) = b_file (buf s j) -> b_page (buf s i) = b_page (buf s j) -> i = j
}.

Definition unlocked (s : dbase) : Prop :=
  forall i, (i < nbufs s)%nat -> lockers (buf s i) = 0.

Definition holds (b : buffer) (f pg : Z) : bool := (b_file b =? f) && (b_page b =? pg).

(** The write transaction's version of a page: its dirty buffer, or the disk. *)
Definition working (s : dbase) (f pg : Z) : list Z :=
  match List.find (fun i => dirty (buf s i) && holds (buf s i) f pg) (all_bufs s) with
  | Some i => b_data (buf s i)
  | None => dpage (ph s) f pg
  end.

Definition no_dirty (s : dbase) (f pg : Z) : Prop :=
  forall i, (i < nbufs s)%nat -> dirty (buf s i) = true -> holds (buf s i) f pg = false.

Lemma in_all_bufs s i : In i (all_bufs s) <-> (i < nbufs s)%nat.
Proof. unfold all_bufs, nbufs. rewrite in_seq. lia. Qed.

Lemma holds_true b f pg : holds b f pg = true <-> b_file b = f /\ b_page b = pg.
Proof. unfold holds. rewrite andb_true_iff, !Z.eqb_eq. done. Qed.

Lemma working_dirty s i f pg :
  cache_ok s -> (i < nbufs s)%nat -> dirty (buf s i) = true -> holds (buf s i) f pg = true ->
  working s f pg = b_data (buf s i).
Proof.
  intros Hc Hi Hd Hh. unfold working. destruct (List.find _ _) as [j|] eqn:E.
  - apply find_some in E as [Hj Hjd]. apply in_all_bufs in Hj.
    apply andb_true_iff in Hjd as [Hjd Hjh]. apply holds_true in Hh as [? ?], Hjh as [? ?].
    rewrite (co_uniq s Hc i j) by congruence. done.
  - eapply find_none in E; [|by apply in_all_bufs]. cbn in E. by rewrite Hd, Hh in E.
Qed.

Lemma working_clean s f pg : no_dirty s f pg -> working s f pg = dpage (ph s) f pg.
Proof.
  intros Hn. unfold working. destruct (List.find _ _) as [j|] eqn:E; [|done].
  apply find_some in E as [Hj Hjd]. apply in_all_bufs in Hj.
  apply andb_true_iff in Hjd as [Hjd Hjh]. by rewrite (Hn j Hj Hjd) in Hjh.
Qed.

Lemma working_cases s f pg :
  (exists i, (i < nbufs s)%nat /\ dirty (buf s i) = true /\ holds (buf s i) f pg = true
     /\ working s f pg = b_data (buf s i))
  \/ (no_dirty s f pg /\ working s f pg = dpage (ph s) f pg).
Proof.
  unfold working. destruct (List.find _ _) as [j|] eqn:E.
  - apply find_some in E as [Hj Hjd]. apply in_all_bufs in Hj.
    apply andb_true_iff in Hjd as [Hjd Hjh]. left. by exists j.
  - right. split; [|done]. intros i Hi Hd. eapply find_none in E; [|by apply in_all_bufs].
    cbn in E. by rewrite Hd in E.
Qed.

(** [working] sees only the dirty buffers and the disk. *)
Lemma working_ext s s' f pg :
  nbufs s' = nbufs s -> ph s' = ph s ->
  (forall i, (i < nbufs s)%nat -> dirty (buf s' i) = dirty (buf s i)
     /\ (dirty (buf s i) = true -> b_data (buf s' i) = b_data (buf s i)
           /\ holds (buf s' i) f pg = holds (buf s i) f pg)) ->
  working s' f pg = working s f pg.
Proof.
  intros Hn Hp Hb. unfold working, all_bufs. fold (nbufs s) (nbufs s'). rewrite Hn, Hp.
  assert (Hl : forall i, In i (seq 0 (nbufs s)) -> (i < nbufs s)%nat) by (intros i; rewrite in_seq; lia).
  induction (seq 0 (nbufs s)) as [|i l IH]; [done|]. cbn [List.find].
  destruct (Hb i (Hl i (or_introl eq_refl))) as [-> Hd].
  destruct (dirty (buf s i)); cbn [andb].
  - destruct (Hd eq_refl) as [Hd1 ->]. destruct (holds (buf s i) f pg); [exact Hd1|]. apply IH.
    intros j Hj. apply Hl. by right.
  - apply IH. intros j Hj. apply Hl. by right.
Qed.

Lemma MatchBuffer_true b pg f ty :
  MatchBuffer b pg f ty = true <->
  holds b f pg = true /\ (ty = UBIK_READTRANS -> dirty b = false).
Proof.
  unfold MatchBuffer, holds, UBIK_READTRANS.
  destruct (Z.eqb_spec (b_page b) pg), (Z.eqb_spec (b_file b) f), (Z.eqb_spec ty 0),
    (dirty b); cbn; intuition congruence.
Qed.

Lemma search_chain_some s pg f ty l found i :
  search_chain s pg f ty l found = Some i ->
  (i ∈ l /\ MatchBuffer (buf s i) pg f ty = true /\
     (dirty (buf s i) = true \/ ty = UBIK_READTRANS
      \/ forall j, j ∈ l -> MatchBuffer (buf s j) pg f ty = true -> dirty (buf s j) = false))
  \/ (found = Some i /\ forall j, j ∈ l -> MatchBuffer (buf s j) pg f ty = false).
Proof.
  revert found. induction l as [|k l IH]; intros found E; cbn in E.
  - right. split; [done|]. intros j Hj. by apply not_elem_of_nil in Hj.
  - destruct (MatchBuffer (buf s k) pg f ty) eqn:Em.
    + destruct (dirty (buf s k) || (ty =? UBIK_READTRANS)) eqn:Ed.
      * injection E as <-. left. split_and!; [left|done|].
        apply orb_true_iff in Ed as [?|?%Z.eqb_eq]; auto.
      * apply orb_false_iff in Ed as [Ed _].
        destruct (IH _ E) as [(Hi & Hm & Hd)|[[= <-] Hn]].
        -- left. split_and!; [by right|done|]. destruct Hd as [?|[?|Hd]]; auto.
           right; right. intros j [->|Hj]%elem_of_cons; auto.
        -- left. split_and!; [left|done|]. right; right.
           intros j [->|Hj]%elem_of_cons Hjm; [done|]. by rewrite Hn in Hjm.
    + destruct (IH _ E) as [(Hi & Hm & Hd)|[-> Hn]].
      * left. split_and!; [by right|done|]. destruct Hd as [?|[?|Hd]]; auto.
        right; right. intros j [->|Hj]%elem_of_cons; [congruence|auto].
      * right. split; [done|]. intros j [->|Hj]%elem_of_cons; auto.
Qed.

Lemma search_chain_none s pg f ty l found :
  search_chain s pg f ty l found = None ->
  found = None /\ forall j, j ∈ l -> MatchBuffer (buf s j) pg f ty = false.
Proof.
  revert found. induction l as [|k l IH]; intros found E; cbn in E.
  - split; [done|]. intros j Hj. by apply not_elem_of_nil in Hj.
  - destruct (MatchBuffer (buf s k) pg f ty) eqn:Em.
    + destruct (_ || _); [done|]. by destruct (IH _ E).
    + destruct (IH _ E) as [-> Hn]. split; [done|]. intros j [->|Hj]%elem_of_cons; auto.
Qed.

Definition wanted (s : dbase) (ty f pg : Z) : list Z :=
  if ty =? UBIK_READTRANS then dpage (ph s) f pg else working s f pg.

(** [DRead] has delivered page [pg] of [f] in buffer [i], locked. *)
Record fetched (ty f pg : Z) (s : dbase) (i : nat) (s' : dbase) : Prop := {
  fe_lt : (i < nbufs s)%nat;
  fe_nbufs : nbufs s' = nbufs s;
  fe_rest : rest_of s' = rest_of s;
  fe_struct : struct_ok s';
  fe_other : forall j, j <> i -> buf s' j = buf s j;
  fe_holds : holds (buf s' i) f pg = true;
  fe_locked : lockers (buf s' i) = 1;
  fe_dirty : dirty (buf s' i) = dirty (buf s i);
  fe_same : dirty (buf s i) = true -> buf s' i = set_lockers 1 (buf s i);
  fe_data : b_data (buf s' i) = wanted s ty f pg;
  fe_len : length (b_data (buf s' i)) = 1024%nat;
  fe_only : dirty (buf s i) = true \/ ty = UBIK_READTRANS \/ no_dirty s f pg;
  fe_read : ty = UBIK_READTRANS -> dirty (buf s i) = false
}.

Lemma rest_ph s s' : rest_of s' = rest_of s -> ph s' = ph s.
Proof. unfold rest_of. congruence. Qed.

Lemma dpage_length p f pg : length (dpage p f pg) = 1024%nat.
Proof.
  unfold dpage, pread. rewrite length_app, zeros_length, length_take, length_drop. lia.
Qed.

Lemma fetch_hit ty f pg s s0 i :
  cache_ok s -> unlocked s -> s0 = s \/ s0 = Dmru i s -> (i < nbufs s)%nat -> f <> BADFID ->
  MatchBuffer (buf s i) pg f ty = true ->
  dirty (buf s i) = true \/ ty = UBIK_READTRANS \/ no_dirty s f pg ->
  fetched ty f pg s i (lock_buf i s0).
Proof.
  intros Hc Hu Hs0 Hi Hf [Hh Hr]%MatchBuffer_true Hd. unfold lock_buf.
  assert (H0 : nbufs s0 = nbufs s /\ rest_of s0 = rest_of s /\ struct_ok s0
               /\ forall j, buf s0 j = buf s j).
  { destruct Hs0 as [->| ->]; [split_and!; try done; apply Hc|].
    split_and!; [apply nbufs_Dmru|apply Dmru_frame| |intros; apply buf_Dmru].
    apply struct_Dmru; [apply Hc|done]. }
  destruct H0 as (Hn0 & Hr0 & Hst0 & Hb0).
  assert (Hi0 : (i < nbufs s0)%nat) by lia.
  pose proof (proj1 (holds_true _ _ _) Hh) as [Hbf Hbp].
  assert (Hdat : b_data (buf s i) = wanted s ty f pg).
  { unfold wanted. destruct (Z.eqb_spec ty UBIK_READTRANS) as [->|Hty].
    - rewrite <- Hbf, <- Hbp. apply Hc; [done|by apply Hr|congruence].
    - destruct (dirty (buf s i)) eqn:Ed; [by erewrite working_dirty|].
      destruct Hd as [?|[?|Hd]]; [done|done|].
      rewrite working_clean by done. rewrite <- Hbf, <- Hbp. apply Hc; [done|done|congruence]. }
  constructor; rewrite ?nbufs_upd, ?buf_upd_eq, ?Hb0 by done; try done.
  - apply struct_upd; auto.
  - intros j Hj. by rewrite buf_upd_ne.
  - cbn. by rewrite Hu.
  - intros _. by rewrite Hu.
  - by apply Hc.
Qed.

(** A slot taken over for a new page. *)
Lemma newslot_ok f pg s :
  struct_ok s -> unlocked s ->
  match newslot f pg s with
  | (Some i, s') =>
      (i < nbufs s)%nat /\ dirty (buf s i) = false /\ nbufs s' = nbufs s
      /\ rest_of s' = rest_of s /\ struct_ok s' /\ (forall j, j <> i -> buf s' j = buf s j)
      /\ buf s' i = set_hashIndex (pHash pg) (set_key f pg (buf s i))
  | (None, s') => s' = s /\ forall i, (i < nbufs s)%nat -> dirty (buf s i) = true
  end.
Proof.
  intros Hs Hu. unfold newslot. destruct (List.find _ _) as [i|] eqn:E.
  - apply find_some in E as [Hi Hd]. apply list_elem_of_In in Hi.
    rewrite (so_lru s Hs), elem_of_seq in Hi. bool_hyps.
    assert (Hlt : (i < nbufs s)%nat) by lia.
    assert (Hn : nbufs (FixupBucket i (upd_buf i (set_key f pg) s)) = nbufs s).
    { destruct (FixupBucket_frame i (upd_buf i (set_key f pg) s)) as (_ & _ & -> & _).
      apply nbufs_upd. }
    split_and!; try done.
    + by rewrite nbufs_Dmru.
    + transitivity (rest_of (FixupBucket i (upd_buf i (set_key f pg) s))); [apply Dmru_frame|done].
    + apply struct_Dmru; [by apply struct_fixup|by rewrite Hn].
    + intros j Hj. by rewrite buf_Dmru, buf_fixup, (proj2 (Nat.eqb_neq j i)).
    + by rewrite buf_Dmru, buf_fixup, Nat.eqb_refl.
  - split; [done|]. intros i Hi. apply struct_lru in Hi as Hl; [|done].
    eapply find_none in E; [|by apply list_elem_of_In]. cbn in E.
    rewrite (Hu i Hi) in E. by destruct (dirty (buf s i)).
Qed.

Lemma struct_set_ph p s : struct_ok s -> struct_ok (set_ph p s).
Proof. intros [S1 S2 S3]. by constructor. Qed.

(** No dirty buffer of the page in its hash chain: none at all. *)
Lemma chain_no_dirty ty f pg s :
  cache_ok s -> f <> BADFID -> ty <> UBIK_READTRANS ->
  (forall j, j ∈ chain s (pHash pg) -> MatchBuffer (buf s j) pg f ty = true ->
     dirty (buf s j) = false) ->
  no_dirty s f pg.
Proof.
  intros Hc Hf Hty E i Hi Hd. apply not_true_iff_false. intros Hh.
  pose proof (proj1 (holds_true _ _ _) Hh) as [Hbf Hbp].
  assert (Hin : i ∈ chain s (pHash pg)).
  { rewrite <- Hbp. apply (so_hashed s (co_struct s Hc)); [done|congruence]. }
  rewrite (E i Hin) in Hd; [done|]. apply MatchBuffer_true. by split.
Qed.

Lemma match_lt s i pg f ty :
  f <> BADFID -> MatchBuffer (buf s i) pg f ty = true -> (i < nbufs s)%nat.
Proof.
  intros Hf [[Hb _]%holds_true _]%MatchBuffer_true. destruct (decide (i < nbufs s)%nat) as [|Hn]; [done|].
  exfalso. apply Hf. rewrite <- Hb. unfold buf. by rewrite nth_overflow by (unfold nbufs in Hn; lia).
Qed.

(** The state after a slot has been filled from the disk. *)
Lemma fetch_miss ty f pg s s1 i :
  cache_ok s -> unlocked s -> f <> BADFID -> ty = UBIK_READTRANS \/ no_dirty s f pg ->
  (i < nbufs s)%nat -> dirty (buf s i) = false -> nbufs s1 = nbufs s ->
  rest_of s1 = rest_of s -> struct_ok s1 -> (forall j, j <> i -> buf s1 j = buf s j) ->
  buf s1 i = set_hashIndex (pHash pg) (set_key f pg (buf s i)) ->
  fetched ty f pg s i
    (upd_buf i (set_data (dpage (ph s) f pg)) (lock_buf i (upd_buf i (set_data (zeros 1024)) s1))).
Proof.
  intros Hc Hu Hf Hd Hi Hdi Hn1 Hr1 Hst Hob Hbi. unfold lock_buf.
  constructor; rewrite ?nbufs_upd, ?buf_upd_eq, ?Hbi by (rewrite ?nbufs_upd, ?Hn1; done);
    try done.
  - do 3 (apply struct_upd; rewrite ?nbufs_upd, ?Hn1; auto).
  - intros j Hj. rewrite !buf_upd_ne by done. auto.
  - apply holds_true. done.
  - cbn. by rewrite (Hu i Hi).
  - intros ?. congruence.
  - cbn [b_data set_data]. unfold wanted. destruct (Z.eqb_spec ty UBIK_READTRANS); [done|].
    destruct Hd as [?|Hd]; [done|]. by rewrite working_clean.
  - apply dpage_length.
  - destruct Hd; auto.
Qed.

(** [DRead]: the wanted version of the page in a locked buffer, or a null pointer
    when every buffer is dirty. *)
Lemma DRead_ok ty f pg s :
  cache_ok s -> unlocked s -> faults (ph s) = [] -> 0 <= f -> 0 <= pg ->
  match DRead ty f pg s with
  | (Some i, s') => fetched ty f pg s i s'
  | (None, s') => s' = s /\ forall i, (i < nbufs s)%nat -> dirty (buf s i) = true
  end.
Proof.
  intros Hc Hu Hft Hf Hp. unfold DRead. assert (Hbad : f <> BADFID) by (unfold BADFID; lia).
  destruct (_ && _) eqn:Efast.
  { apply andb_true_iff in Efast as [Hm Hd].
    apply fetch_hit; auto; [by eapply match_lt|].
    apply orb_true_iff in Hd as [?%Z.eqb_eq|?]; auto. }
  destruct (search_chain s pg f ty (chain s (pHash pg)) None) as [i|] eqn:Es.
  { apply search_chain_some in Es as [(Hin & Hm & Hd)|[? _]]; [|done].
    apply fetch_hit; auto; [by eapply match_lt|]. destruct Hd as [?|[?|Hd]]; auto.
    destruct (decide (ty = UBIK_READTRANS)); [auto|]. right; right. by eapply chain_no_dirty. }
  apply search_chain_none in Es as [_ Es].
  pose proof (newslot_ok f pg s (co_struct s Hc) Hu) as Hns.
  destruct (newslot f pg s) as [[i|] s1]; [|done].
  destruct Hns as (Hi & Hdi & Hn1 & Hr1 & Hst1 & Hob & Hbi). cbv zeta.
  set (s2 := lock_buf i (upd_buf i (set_data (zeros 1024)) s1)).
  assert (Hp2 : ph s2 = ph s) by (by apply rest_ph).
  unfold uphys_read, next_fault. rewrite Hp2, Hft. cbn [orb].
  unfold HDRSIZE, UBIK_PAGESIZE. destruct (pg * 1024 + 64 <? 0) eqn:?; [lia|]. cbn [orb].
  change (1024 <? 0) with false. cbv iota beta.
  replace (set_ph (ph s) s2) with s2 by (rewrite <- Hp2; by destruct s2).
  apply fetch_miss; auto. destruct (decide (ty = UBIK_READTRANS)); [auto|]. right.
  eapply chain_no_dirty; eauto. intros j Hj Hm. by rewrite Es in Hm.
Qed.

(** *** Releasing a buffer *)

(** A released page that was only read: clean, or dirty as before. *)
Lemma release_clean ty f pg s i s' :
  cache_ok s -> unlocked s -> 0 <= f -> 0 <= pg -> fetched ty f pg s i s' ->
  let s2 := DRelease i false s' in
  cache_ok s2 /\ unlocked s2 /\ rest_of s2 = rest_of s /\ nbufs s2 = nbufs s
  /\ (forall j, dirty (buf s2 j) = dirty (buf s j))
  /\ (forall f' pg', working s2 f' pg' = working s f' pg').
Proof.
  intros Hc Hu Hf Hp [F1 F2 F3 F4 F5 F6 F7 F8 F9 F10 F11 F12 F13] s2.
  assert (Hn2 : nbufs s2 = nbufs s) by (unfold s2, DRelease; by rewrite nbufs_upd).
  assert (Hb2 : forall j, buf s2 j = if (j =? i)%nat then set_lockers 0 (buf s' i) else buf s j).
  { intros j. unfold s2, DRelease. rewrite buf_upd by lia.
    destruct (Nat.eqb_spec j i) as [->|Hne]; [by rewrite F7|by apply F5]. }
  assert (Hp2 : ph s2 = ph s) by (apply rest_ph in F3; exact F3).
  apply holds_true in F6 as [Hfi Hpi].
  assert (Hdirty : forall j, dirty (buf s2 j) = dirty (buf s j)).
  { intros j. rewrite Hb2. destruct (Nat.eqb_spec j i) as [->|]; [exact F8|done]. }
  assert (Hkey : forall j, dirty (buf s j) = true -> b_file (buf s2 j) = b_file (buf s j)
            /\ b_page (buf s2 j) = b_page (buf s j) /\ b_data (buf s2 j) = b_data (buf s j)).
  { intros j Hj. rewrite Hb2. destruct (Nat.eqb_spec j i) as [->|]; [by rewrite (F9 Hj)|done]. }
  split_and!; try done.
  - constructor; rewrite ?Hn2, ?Hp2.
    + unfold s2, DRelease. apply struct_upd; auto. lia.
    + intros j Hj. rewrite Hb2. destruct (j =? i)%nat; [exact F11|by apply Hc].
    + intros j Hj. rewrite Hb2. destruct (j =? i)%nat; [cbn; lia|by apply Hc].
    + intros j Hj. rewrite Hdirty. intros Hd. rewrite Hb2.
      destruct (Nat.eqb_spec j i) as [->|]; [|by apply Hc]. intros _. cbn. rewrite F10, Hfi, Hpi.
      unfold wanted. destruct (Z.eqb_spec ty UBIK_READTRANS); [done|].
      destruct F12 as [?|[?|?]]; [congruence|done|by apply working_clean].
    + intros j Hj. rewrite Hdirty. intros Hd. destruct (Hkey j Hd) as (-> & _). by apply Hc.
    + intros j k Hj Hk. rewrite !Hdirty. intros Hdj Hdk.
      destruct (Hkey j Hdj) as (-> & -> & _), (Hkey k Hdk) as (-> & -> & _). by apply Hc.
  - intros j Hj. rewrite Hb2. destruct (j =? i)%nat; [done|apply Hu; lia].
  - intros f' pg'. apply working_ext; try done. intros j Hj. split; [apply Hdirty|].
    intros Hd. destruct (Hkey j Hd) as (E1 & E2 & E3). unfold holds. by rewrite E1, E2, E3.
Qed.

(** A released page that was written: dirty, with the new data. *)
Lemma release_dirty f pg s i s' d :
  cache_ok s -> unlocked s -> 0 <= f -> 0 <= pg -> fetched UBIK_WRITETRANS f pg s i s' ->
  length (d (b_data (buf s' i))) = 1024%nat ->
  let s2 := DRelease i true (upd_buf i (fun b => set_data (d (b_data b)) b) s') in
  cache_ok s2 /\ unlocked s2 /\ rest_of s2 = rest_of s /\ nbufs s2 = nbufs s
  /\ (forall j, dirty (buf s2 j) = (j =? i)%nat || dirty (buf s j))
  /\ (forall f' pg', working s2 f' pg'
        = if (f' =? f) && (pg' =? pg) then d (working s f pg) else working s f' pg').
Proof.
  intros Hc Hu Hf Hp [F1 F2 F3 F4 F5 F6 F7 F8 F9 F10 F11 F12 F13] Hd s2.
  assert (Hn2 : nbufs s2 = nbufs s) by (unfold s2, DRelease; by rewrite !nbufs_upd).
  set (b' := set_dirty true (set_lockers 0 (set_data (d (b_data (buf s' i))) (buf s' i)))).
  assert (Hb2 : forall j, buf s2 j = if (j =? i)%nat then b' else buf s j).
  { intros j. unfold s2, DRelease, b'. rewrite buf_upd by (rewrite nbufs_upd; lia).
    destruct (Nat.eqb_spec j i) as [->|Hne].
    - rewrite buf_upd_eq by lia. cbn [lockers set_data]. by rewrite F7.
    - rewrite buf_upd_ne by done. by apply F5. }
  assert (Hp2 : ph s2 = ph s) by (apply rest_ph in F3; exact F3).
  pose proof F6 as F6'. apply holds_true in F6' as [Hfi Hpi].
  (* another dirty buffer holds another page *)
  assert (Hother : forall j, (j < nbufs s)%nat -> j <> i -> dirty (buf s j) = true ->
            ~ (b_file (buf s j) = f /\ b_page (buf s j) = pg)).
  { intros j Hj Hne Hdj [E1 E2]. destruct F12 as [Hdi|[?|Hnd]]; [|done|].
    - apply Hne. rewrite (F9 Hdi) in Hfi, Hpi. cbn in Hfi, Hpi. apply (co_uniq s Hc); congruence || done.
    - specialize (Hnd j Hj Hdj). apply not_true_iff_false in Hnd. apply Hnd.
      by apply holds_true. }
  assert (Hc2 : cache_ok s2).
  { constructor; rewrite ?Hn2, ?Hp2.
    - unfold s2, DRelease. do 2 (apply struct_upd; rewrite ?nbufs_upd; auto; try lia).
    - intros j Hj. rewrite Hb2. destruct (j =? i)%nat; [exact Hd|by apply Hc].
    - intros j Hj. rewrite Hb2. destruct (j =? i)%nat; [cbn; lia|by apply Hc].
    - intros j Hj. rewrite Hb2. destruct (j =? i)%nat; [done|]. by apply Hc.
    - intros j Hj. rewrite Hb2. destruct (j =? i)%nat; [|by apply Hc].
      intros _. cbn. rewrite Hfi. unfold BADFID. lia.
    - intros j k Hj Hk. rewrite !Hb2.
      destruct (Nat.eqb_spec j i) as [->|Hji], (Nat.eqb_spec k i) as [->|Hki]; try done.
      + intros _ Hdk. cbn. rewrite Hfi, Hpi. intros E1 E2. by destruct (Hother k Hk Hki Hdk).
      + intros Hdj _. cbn. rewrite Hfi, Hpi. intros E1 E2. by destruct (Hother j Hj Hji Hdj).
      + by apply Hc. }
  split_and!; try done.
  - intros j Hj. rewrite Hb2. destruct (j =? i)%nat; [done|apply Hu; lia].
  - intros j. rewrite Hb2. by destruct (j =? i)%nat.
  - intros f' pg'. destruct ((f' =? f) && (pg' =? pg)) eqn:E.
    + apply andb_true_iff in E as [->%Z.eqb_eq ->%Z.eqb_eq].
      rewrite (working_dirty s2 i); rewrite ?Hb2, ?Nat.eqb_refl; try done; [|lia].
      cbn. by rewrite F10.
    + destruct (working_cases s f' pg') as [(j & Hj & Hdj & Hhj & ->)|[Hnd ->]].
      * destruct (Nat.eqb_spec j i) as [->|Hne].
        { apply holds_true in Hhj as [<- <-]. rewrite (F9 Hdj) in Hfi, Hpi. cbn in Hfi, Hpi.
          by rewrite Hfi, Hpi, !Z.eqb_refl in E. }
        assert (Hbj : buf s2 j = buf s j) by (by rewrite Hb2, (proj2 (Nat.eqb_neq j i))).
        rewrite <- Hbj. apply working_dirty; rewrite ?Hbj; [done|lia|done|done].
      * rewrite <- Hp2. apply working_clean. intros j Hj. rewrite Hb2.
        destruct (Nat.eqb_spec j i) as [->|Hne]; [|apply Hnd; lia]. intros _.
        apply not_true_iff_false. intros [E1 E2]%holds_true. cbn in E1, E2.
        rewrite Hfi in E1. rewrite Hpi in E2. subst. by rewrite !Z.eqb_refl in E.
Qed.

(** ** Bytes of the database *)

(** A committed byte, and a byte as a transaction of the given type sees it. *)
Definition dbyte (p : phys) (f i : Z) : Z := byte (fileof p f) (Z.to_nat (i + HDRSIZE)).
Definition vbyte (s : dbase) (ty f i : Z) : Z :=
  byte (wanted s ty f (i / 1024)) (Z.to_nat (i mod 1024)).

(** The bytes [pos .. pos+n-1] of a byte function. *)
Definition range (g : Z -> Z) (pos : Z) (n : nat) : list Z :=
  map (fun k => g (pos + Z.of_nat k)) (seq 0 n).

Lemma range_length g pos n : length (range g pos n) = n.
Proof. unfold range. by rewrite length_map, length_seq. Qed.

Lemma byte_range g pos n k : (k < n)%nat -> byte (range g pos n) k = g (pos + Z.of_nat k).
Proof.
  intros Hk. unfold byte, range. by rewrite nth_lookup, list_lookup_fmap, lookup_seq_lt.
Qed.

Lemma range_app g pos m n :
  range g pos (m + n) = range g pos m ++ range g (pos + Z.of_nat m) n.
Proof.
  apply file_ext; rewrite ?length_app, ?range_length; [done|]. intros k Hk.
  rewrite byte_app, range_length, byte_range by lia.
  destruct (Nat.ltb_spec k m); rewrite byte_range by lia; f_equal; lia.
Qed.

Lemma byte_dpage p f pg k :
  0 <= pg -> (k < 1024)%nat -> byte (dpage p f pg) k = dbyte p f (pg * 1024 + Z.of_nat k).
Proof.
  intros Hp Hk. unfold dpage, dbyte, UBIK_PAGESIZE, HDRSIZE. rewrite byte_app, byte_zeros.
  replace (Z.to_nat (pg * 1024 + Z.of_nat k + 64)) with (Z.to_nat (pg * 1024 + 64) + k)%nat by lia.
  destruct (Nat.ltb_spec k (length (pread (fileof p f) (Z.to_nat (pg * 1024 + 64)) 1024))).
  - by apply byte_pread.
  - symmetry. apply byte_beyond. unfold pread in *. rewrite length_take, length_drop in *. lia.
Qed.

(** Readers see the committed database. *)
Lemma vbyte_read s f i : 0 <= i -> vbyte s UBIK_READTRANS f i = dbyte (ph s) f i.
Proof.
  intros Hi. unfold vbyte, wanted. cbn [Z.eqb UBIK_READTRANS].
  change (UBIK_READTRANS =? UBIK_READTRANS) with true. cbn iota.
  rewrite byte_dpage by mlia. f_equal. mlia.
Qed.

Lemma page_piece_spec apos alen :
  0 <= apos -> 0 < alen ->
  exists len, page_piece apos alen = (apos mod 1024, len)
    /\ 0 < len <= alen /\ apos mod 1024 + len <= 1024
    /\ (len = alen \/ (apos + len) mod 1024 = 0).
Proof.
  intros H0 Ha. unfold page_piece, UBIK_PAGESIZE.
  change (1024 - 1) with (Z.ones 10). rewrite Z.land_ones by lia. change (2 ^ 10) with 1024.
  pose proof (Z.mod_pos_bound apos 1024 eq_refl).
  eexists. split; [done|]. destruct (alen <? 1024 - apos mod 1024) eqn:?.
  - split_and!; try lia.
  - split_and!; try lia. right. Z.div_mod_to_equations. nia.
Qed.

(** The piece of a page is the requested range. *)
Lemma piece_range s ty f apos len d :
  0 <= apos -> 0 < len -> apos mod 1024 + len <= 1024 -> d = wanted s ty f (apos / 1024) ->
  length d = 1024%nat ->
  take (Z.to_nat len) (drop (Z.to_nat (apos mod 1024)) d) = range (vbyte s ty f) apos (Z.to_nat len).
Proof.
  intros H0 Hl Hb -> Hlen. pose proof (Z.mod_pos_bound apos 1024 eq_refl).
  apply file_ext.
  - rewrite length_take, length_drop, range_length, Hlen. lia.
  - intros k Hk. rewrite length_take in Hk. rewrite byte_take, (proj2 (Nat.ltb_lt _ _)) by lia.
    rewrite byte_drop, byte_range by lia. unfold vbyte.
    assert (E : (apos + Z.of_nat k) / 1024 = apos / 1024
                /\ (apos + Z.of_nat k) mod 1024 = apos mod 1024 + Z.of_nat k).
    { Z.div_mod_to_equations. nia. }
    destruct E as [-> ->]. f_equal. lia.
Qed.

(** Not every buffer is dirty. *)
Definition has_room (s : dbase) : Prop := exists i, (i < nbufs s)%nat /\ dirty (buf s i) = false.

(** What an operation that only reads leaves alone. *)
Record preserved (s s' : dbase) : Prop := {
  pr_ok : cache_ok s';
  pr_unlocked : unlocked s';
  pr_rest : rest_of s' = rest_of s;
  pr_nbufs : nbufs s' = nbufs s;
  pr_dirty : forall j, dirty (buf s' j) = dirty (buf s j);
  pr_working : forall f pg, working s' f pg = working s f pg
}.

Lemma preserved_vbyte s s' ty f i : preserved s s' -> vbyte s' ty f i = vbyte s ty f i.
Proof.
  intros [_ _ Hr _ _ Hw]. unfold vbyte, wanted. rewrite Hw. by rewrite (rest_ph _ _ Hr).
Qed.

Lemma preserved_trans s1 s2 s3 : preserved s1 s2 -> preserved s2 s3 -> preserved s1 s3.
Proof.
  intros [A1 A2 A3 A4 A5 A6] [B1 B2 B3 B4 B5 B6].
  constructor; try done; try congruence; intros; by rewrite ?B5, ?B6.
Qed.

Lemma preserved_room s s' : preserved s s' -> has_room s -> has_room s'.
Proof. intros [_ _ _ Hn Hd _] (i & Hi & Hdi). exists i. rewrite Hn, Hd. done. Qed.

Lemma range_ext g h pos n : (forall i, g i = h i) -> range g pos n = range h pos n.
Proof. intros E. unfold range. apply map_ext. intros. apply E. Qed.

(** The read loop delivers the requested bytes. *)
Lemma read_loop_ok fuel : forall ty f apos alen acc s,
  cache_ok s -> unlocked s -> faults (ph s) = [] -> has_room s ->
  0 <= f -> 0 <= apos -> apos + alen < 2 ^ 31 -> alen <= Z.of_nat fuel ->
  exists s', read_loop fuel ty f apos alen acc s
      = (0, acc ++ range (vbyte s ty f) apos (Z.to_nat alen), s')
    /\ preserved s s'.
Proof.
  induction fuel as [|fuel IH]; intros ty f apos alen acc s Hc Hu Hf Hroom Hf0 Hp Hb Hfuel.
  - cbn. destruct (alen <=? 0) eqn:?; [|lia]. exists s.
    replace (Z.to_nat alen) with 0%nat by lia. cbn. rewrite app_nil_r. by split.
  - cbn [read_loop]. destruct (alen <=? 0) eqn:?.
    { exists s. replace (Z.to_nat alen) with 0%nat by lia. cbn. rewrite app_nil_r. by split. }
    assert (Hpg : Z.shiftr apos UBIK_LOGPAGESIZE = apos / 1024) by (by rewrite Z.shiftr_div_pow2).
    rewrite Hpg. pose proof (DRead_ok ty f (apos / 1024) s Hc Hu Hf Hf0) as HD.
    destruct (DRead ty f (apos / 1024) s) as [[i|] s1]; [|].
    2: { destruct HD as [_ HD]; [mlia|]. destruct Hroom as (i & Hi & Hdi). by rewrite HD in Hdi. }
    specialize (HD ltac:(mlia)).
    destruct (page_piece_spec apos alen Hp) as (len & -> & Hl1 & Hl2 & _); [lia|].
    destruct (release_clean ty f (apos / 1024) s i s1 Hc Hu Hf0) as (R1 & R2 & R3 & R4 & R5 & R6);
      [mlia|done|].
    assert (Hpr : preserved s (DRelease i false s1)) by (by constructor).
    rewrite (piece_range s ty f apos len (b_data (buf s1 i))); try done; try lia;
      try apply HD.
    rewrite s32_small by mlia.
    destruct (IH ty f (apos + len) (alen - len)
                (acc ++ range (vbyte s ty f) apos (Z.to_nat len)) (DRelease i false s1))
      as (s' & -> & Hpr'); try done; try lia.
    { by rewrite (rest_ph _ _ R3). }
    { by eapply preserved_room. }
    exists s'. split; [|by eapply preserved_trans]. f_equal. f_equal.
    rewrite <- app_assoc. f_equal.
    rewrite (range_ext (vbyte (DRelease i false s1) ty f) (vbyte s ty f))
      by (intros; by apply preserved_vbyte).
    replace (Z.to_nat alen) with (Z.to_nat len + Z.to_nat (alen - len))%nat by lia.
    rewrite range_app. f_equal. f_equal. lia.
Qed.

(** Clean buffers, and the pages a request touches. *)
Definition free (s : dbase) : nat :=
  length (List.filter (fun i => negb (dirty (buf s i))) (all_bufs s)).
Definition pages (apos alen : Z) : Z :=
  if alen <=? 0 then 0 else (apos + alen - 1) / 1024 - apos / 1024 + 1.

Lemma pages_nonneg apos alen : 0 <= pages apos alen.
Proof. unfold pages. destruct (alen <=? 0) eqn:?; [lia|]. Z.div_mod_to_equations. nia. Qed.

Lemma free_room s : (0 < free s)%nat -> has_room s.
Proof.
  unfold free. intros Hf. destruct (List.filter _ _) as [|i l] eqn:E; [cbn in Hf; lia|].
  assert (Hin : In i (i :: l)) by (by left). rewrite <- E in Hin.
  apply filter_In in Hin as [Hi Hd]. apply in_all_bufs in Hi. exists i.
  split; [done|]. by destruct (dirty (buf s i)).
Qed.

Lemma filter_one_less (g h : nat -> bool) i l :
  NoDup l -> (forall j, j <> i -> g j = h j) ->
  (length (List.filter h l) <= S (length (List.filter g l)))%nat.
Proof.
  intros Hn Hg. induction l as [|j l IH]; [cbn; lia|]. apply NoDup_cons in Hn as [Hj Hn].
  cbn [List.filter]. destruct (decide (j = i)) as [->|Hne].
  - enough (length (List.filter h l) = length (List.filter g l)) by (destruct (h i), (g i); cbn; lia).
    f_equal. clear -Hj Hg. induction l as [|k l IH]; [done|].
    apply not_elem_of_cons in Hj as [Hk Hj]. cbn. rewrite (Hg k), IH by done. done.
  - rewrite (Hg j Hne). specialize (IH Hn). destruct (h j); cbn; lia.
Qed.

Lemma free_one_less s s' i :
  nbufs s' = nbufs s -> (forall j, dirty (buf s' j) = (j =? i)%nat || dirty (buf s j)) ->
  (free s <= S (free s'))%nat.
Proof.
  intros Hn Hd. unfold free, all_bufs. fold (nbufs s) (nbufs s'). rewrite Hn.
  apply (filter_one_less _ _ i); [apply NoDup_seq|]. intros j Hj.
  by rewrite Hd, (proj2 (Nat.eqb_neq j i)).
Qed.

(** What an operation that writes [d] at [pos] of file [f] does. *)
Record written (f pos : Z) (d : list Z) (s s' : dbase) : Prop := {
  wr_ok : cache_ok s';
  wr_unlocked : unlocked s';
  wr_rest : rest_of s' = rest_of s;
  wr_nbufs : nbufs s' = nbufs s;
  wr_bytes : forall g i, 0 <= i -> vbyte s' UBIK_WRITETRANS g i
    = if (g =? f) && (pos <=? i) && (i <? pos + Z.of_nat (length d))
      then byte d (Z.to_nat (i - pos)) else vbyte s UBIK_WRITETRANS g i
}.

Lemma vbyte_write s f i : vbyte s UBIK_WRITETRANS f i = byte (working s f (i / 1024)) (Z.to_nat (i mod 1024)).
Proof. done. Qed.

(** One page of the write loop. *)
Lemma write_page f apos len d s i s1 :
  cache_ok s -> unlocked s -> 0 <= f -> 0 <= apos -> length d = Z.to_nat len -> 0 < len ->
  apos mod 1024 + len <= 1024 -> fetched UBIK_WRITETRANS f (apos / 1024) s i s1 ->
  let s2 := DRelease i true
    (upd_buf i (fun b => set_data (pwrite (b_data b) (Z.to_nat (apos mod 1024)) d) b) s1) in
  written f apos d s s2 /\ (free s <= S (free s2))%nat.
Proof.
  intros Hc Hu Hf Hp Hd Hl Hb HF s2. pose proof (Z.mod_pos_bound apos 1024 eq_refl).
  assert (Hdn : d <> []) by (intros ->; cbn in Hd; lia).
  destruct (release_dirty f (apos / 1024) s i s1
              (fun x => pwrite x (Z.to_nat (apos mod 1024)) d)) as (R1 & R2 & R3 & R4 & R5 & R6);
    try done; [mlia| |].
  { rewrite length_pwrite, (fe_len _ _ _ _ _ _ HF) by done. lia. }
  fold s2 in R1, R2, R3, R4, R5, R6. split; [|by eapply free_one_less].
  constructor; try done. intros g k Hk. rewrite !vbyte_write, R6.
  destruct (Z.eqb_spec g f) as [->|]; cbn [andb]; [|done].
  destruct (Z.eqb_spec (k / 1024) (apos / 1024)) as [E|E].
  - rewrite E, byte_pwrite.
    destruct (Nat.leb_spec (Z.to_nat (apos mod 1024)) (Z.to_nat (k mod 1024))),
      (Nat.ltb_spec (Z.to_nat (k mod 1024)) (Z.to_nat (apos mod 1024) + length d)),
      (Z.leb_spec apos k), (Z.ltb_spec k (apos + Z.of_nat (length d))); cbn [andb];
      try done; try (exfalso; Z.div_mod_to_equations; nia).
    f_equal. Z.div_mod_to_equations. nia.
  - destruct (Z.leb_spec apos k), (Z.ltb_spec k (apos + Z.of_nat (length d))); cbn [andb]; try done.
    exfalso. Z.div_mod_to_equations. nia.
Qed.

Lemma written_trans f pos d1 d2 s1 s2 s3 :
  0 <= pos -> written f pos d1 s1 s2 -> written f (pos + Z.of_nat (length d1)) d2 s2 s3 ->
  written f pos (d1 ++ d2) s1 s3.
Proof.
  intros Hp [A1 A2 A3 A4 A5] [B1 B2 B3 B4 B5]. constructor; try done; try congruence.
  intros g i Hi. rewrite B5, A5, byte_app, length_app by done.
  repeat match goal with
         | |- context [?a =? ?b] => destruct (Z.eqb_spec a b)
         | |- context [?a <=? ?b] => destruct (Z.leb_spec a b)
         | |- context [?a <? ?b] => destruct (Z.ltb_spec a b)
         | |- context [(?a <? ?b)%nat] => destruct (Nat.ltb_spec a b)
         end; cbn [andb]; try lia; try done; f_equal; lia.
Qed.

Lemma written_nil f pos s : cache_ok s -> unlocked s -> written f pos [] s s.
Proof.
  intros Hc Hu. constructor; try done. intros g i Hi. destruct (_ && _) eqn:E; [|done].
  apply andb_true_iff in E as [E1 E2]. apply andb_true_iff in E1 as [_ E1]. cbn in E2. lia.
Qed.

(** The write loop puts all the data in the transaction's version, if there are
    enough clean buffers. *)
Lemma write_loop_ok fuel : forall f apos d s,
  cache_ok s -> unlocked s -> faults (ph s) = [] -> 0 <= f -> 0 <= apos ->
  apos + Z.of_nat (length d) < 2 ^ 31 -> (length d <= fuel)%nat ->
  pages apos (Z.of_nat (length d)) <= Z.of_nat (free s) ->
  exists s', write_loop fuel UBIK_WRITETRANS f apos d s = (0, s') /\ written f apos d s s'
    /\ (free s <= Z.to_nat (pages apos (Z.of_nat (length d))) + free s')%nat.
Proof.
  induction fuel as [|fuel IH]; intros f apos d s Hc Hu Hft Hf Hp Hb Hfuel Hfree.
  - destruct d; [|cbn in Hfuel; lia]. exists s. split; [done|]. split; [by apply written_nil|cbn; lia].
  - cbn [write_loop]. destruct (Z.of_nat (length d) <=? 0) eqn:Ez.
    { destruct d; [|cbn in Ez; lia]. exists s. split; [done|]. split; [by apply written_nil|cbn; lia]. }
    assert (Hpg : Z.shiftr apos UBIK_LOGPAGESIZE = apos / 1024) by (by rewrite Z.shiftr_div_pow2).
    assert (Hroom : has_room s).
    { apply free_room. unfold pages in Hfree. rewrite Ez in Hfree. Z.div_mod_to_equations. nia. }
    rewrite Hpg.
    pose proof (DRead_ok UBIK_WRITETRANS f (apos / 1024) s Hc Hu Hft Hf ltac:(mlia)) as HD.
    destruct (DRead UBIK_WRITETRANS f (apos / 1024) s) as [[i|] s1].
    2: { destruct HD as [_ HD]. destruct Hroom as (i & Hi & Hdi). by rewrite HD in Hdi. }
    destruct (page_piece_spec apos (Z.of_nat (length d)) Hp) as (len & -> & Hl1 & Hl2 & Hl3); [lia|].
    destruct (write_page f apos len (take (Z.to_nat len) d) s i s1) as [W Hfr]; try done; try lia.
    { rewrite length_take. lia. }
    set (s2 := DRelease i true _) in *.
    assert (Hlt : length (take (Z.to_nat len) d) = Z.to_nat len) by (rewrite length_take; lia).
    rewrite s32_small by mlia.
    assert (Hpages : pages (apos + len) (Z.of_nat (length (drop (Z.to_nat len) d))) + 1
                     = pages apos (Z.of_nat (length d))).
    { rewrite length_drop. unfold pages. rewrite Ez.
      destruct (Z.of_nat (length d - Z.to_nat len) <=? 0) eqn:?.
      - assert (len = Z.of_nat (length d)) by lia. Z.div_mod_to_equations. nia.
      - destruct Hl3 as [->|Hl3]; [lia|].
        replace (apos + len + Z.of_nat (length d - Z.to_nat len) - 1)
          with (apos + Z.of_nat (length d) - 1) by lia.
        assert ((apos + len) / 1024 = apos / 1024 + 1) by (Z.div_mod_to_equations; nia). lia. }
    destruct (IH f (apos + len) (drop (Z.to_nat len) d) s2) as (s3 & -> & W3 & Hfr3); try done; try lia.
    + apply W. + apply W. + by rewrite (rest_ph _ _ (wr_rest _ _ _ _ _ W)).
    + rewrite length_drop. lia.
    + rewrite length_drop. lia.
    + pose proof (pages_nonneg (apos + len) (Z.of_nat (length (drop (Z.to_nat len) d)))).
      exists s3. split; [done|]. split; [|lia]. rewrite <- (take_drop (Z.to_nat len) d).
      apply (written_trans _ _ _ _ s s2); [done|done|]. rewrite Hlt.
      by replace (apos + Z.of_nat (Z.to_nat len)) with (apos + len) by lia.
Qed.

(** ** Invalidating buffers *)

Definition kill (b : buffer) : buffer := set_key BADFID (b_page b) b.

Lemma zap_frame i s :
  (i < nbufs s)%nat -> struct_ok s ->
  struct_ok (zap i s) /\ nbufs (zap i s) = nbufs s /\ rest_of (zap i s) = rest_of s
  /\ phTable (zap i s) = phTable s
  /\ forall j, buf (zap i s) j = if (j =? i)%nat then kill (buf s i) else buf s j.
Proof.
  intros Hi Hs. unfold zap. split_and!.
  - apply struct_Dlru; [apply struct_upd; auto|by rewrite nbufs_upd].
  - by rewrite nbufs_Dlru, nbufs_upd.
  - by rewrite (proj2 (proj2 (Dlru_frame i _))).
  - by rewrite (proj1 (proj2 (Dlru_frame i _))).
  - intros j. rewrite buf_Dlru. by apply buf_upd.
Qed.

Lemma zap_all_ok c l : forall s,
  (forall j, j ∈ l -> (j < nbufs s)%nat) -> struct_ok s ->
  let s' := zap_all c l s in
  struct_ok s' /\ nbufs s' = nbufs s /\ rest_of s' = rest_of s /\ phTable s' = phTable s
  /\ forall j, buf s' j = if bool_decide (j ∈ l) && c j (buf s j) then kill (buf s j) else buf s j.
Proof.
  induction l as [|k l IH]; intros s Hl Hs s'; unfold s', zap_all.
  - cbn. split_and!; try done.
  - cbn [foldl]. assert (Hk : (k < nbufs s)%nat) by (apply Hl; left).
    assert (H1 : let s1 := if c k (buf s k) then zap k s else s in
       struct_ok s1 /\ nbufs s1 = nbufs s /\ rest_of s1 = rest_of s /\ phTable s1 = phTable s
       /\ forall j, buf s1 j = if (j =? k)%nat && c j (buf s j) then kill (buf s j) else buf s j).
    { cbv zeta. destruct (c k (buf s k)) eqn:Ec.
      - destruct (zap_frame k s Hk Hs) as (? & ? & ? & ? & Hb). split_and!; try done.
        intros j. rewrite Hb. destruct (Nat.eqb_spec j k) as [->|]; [by rewrite Ec|done].
      - split_and!; try done. intros j. destruct (Nat.eqb_spec j k) as [->|]; [by rewrite Ec|done]. }
    destruct H1 as (S1 & S2 & S3 & S4 & S5).
    destruct (IH _ ltac:(intros j Hj; rewrite S2; apply Hl; by right) S1) as (T1 & T2 & T3 & T4 & T5).
    unfold zap_all in T1, T2, T3, T4, T5. split_and!; try congruence.
    intros j. rewrite T5, S5.
    destruct (Nat.eqb_spec j k) as [->|Hne]; cbn [andb].
    + rewrite (bool_decide_eq_true_2 (k ∈ k :: l)) by left. cbn [andb].
      destruct (c k (buf s k)) eqn:Ec; [by destruct (_ && _)|].
      by rewrite Ec, andb_false_r.
    + rewrite (bool_decide_ext (j ∈ k :: l) (j ∈ l)); [done|].
      rewrite elem_of_cons. tauto.
Qed.

(** ** Flushing *)

Definition runs (p : phys) (evs : list event) : phys := foldl (fun p e => exec e p) p evs.

Definition page_event (b : buffer) : event :=
  EWrite (b_file b) (Z.to_nat (b_page b * UBIK_PAGESIZE + HDRSIZE)) (b_data b).

Definition dirty_bufs (s : dbase) : list nat := List.filter (fun i => dirty (buf s i)) (all_bufs s).

Definition flush_events (s : dbase) : list event := map (fun i => page_event (buf s i)) (dirty_bufs s).

Lemma runs_faults evs : forall p, faults (runs p evs) = faults p.
Proof.
  induction evs as [|e evs IH]; intros p; [done|]. cbn [runs foldl].
  transitivity (faults (exec e p)); [apply IH|]. destruct e; cbn; repeat case_match; done.
Qed.

Lemma runs_app p l1 l2 : runs p (l1 ++ l2) = runs (runs p l1) l2.
Proof. apply foldl_app. Qed.

Lemma set_ph_twice p q s : set_ph p (set_ph q s) = set_ph p s.
Proof. done. Qed.

Lemma DFlush_from_eq l : forall s p,
  cache_ok s -> faults p = [] -> (forall i, In i l -> (i < nbufs s)%nat) ->
  DFlush_from l (set_ph p s)
  = (0, set_ph (runs p (map (fun i => page_event (buf s i)) (List.filter (fun i => dirty (buf s i)) l))) s).
Proof.
  induction l as [|i l IH]; intros s p Hc Hf Hl; [done|]. cbn [DFlush_from List.filter].
  change (buf (set_ph p s) i) with (buf s i). specialize (IH s).
  destruct (dirty (buf s i)) eqn:Ed; [|apply IH; auto using in_cons].
  assert (Hi : (i < nbufs s)%nat) by (apply Hl; by left).
  destruct (co_key s Hc i Hi (co_dirty s Hc i Hi Ed)) as [_ Hp].
  unfold uphys_write, syscall, next_fault. cbn [ph set_ph]. rewrite Hf.
  unfold HDRSIZE, UBIK_PAGESIZE. destruct (b_page (buf s i) * 1024 + 64 <? 0) eqn:?; [lia|].
  rewrite (co_len s Hc i Hi). change (negb (Z.of_nat 1024 =? 1024)) with false. cbn iota.
  rewrite set_ph_twice, IH; auto using in_cons.
Qed.

Lemma DFlush_eq s :
  cache_ok s -> faults (ph s) = [] ->
  DFlush s = (0, set_ph (runs (ph s) (flush_events s)) s).
Proof.
  intros Hc Hf. unfold DFlush. replace s with (set_ph (ph s) s) at 2 by (by destruct s).
  apply DFlush_from_eq; [done|done|]. intros i. by rewrite in_all_bufs.
Qed.

(** The bytes of the files after one page, and after a list of pages, have been
    written. *)
Lemma dbyte_page_event b p f i :
  length (b_data b) = 1024%nat -> 0 <= b_page b -> 0 <= i ->
  dbyte (exec (page_event b) p) f i
  = if holds b f (i / 1024) then byte (b_data b) (Z.to_nat (i mod 1024)) else dbyte p f i.
Proof.
  intros Hl Hp Hi. unfold dbyte, page_event, HDRSIZE, UBIK_PAGESIZE, holds.
  rewrite fileof_exec_write, (Z.eqb_sym (b_file b)).
  destruct (Z.eqb_spec f (b_file b)) as [->|]; cbn [andb]; [|done].
  rewrite byte_pwrite, Hl. destruct (Z.eqb_spec (b_page b) (i / 1024)) as [E|E].
  - destruct (Nat.leb_spec (Z.to_nat (b_page b * 1024 + 64)) (Z.to_nat (i + 64))),
      (Nat.ltb_spec (Z.to_nat (i + 64)) (Z.to_nat (b_page b * 1024 + 64) + 1024)); cbn [andb];
      try (exfalso; Z.div_mod_to_equations; nia).
    f_equal. Z.div_mod_to_equations. nia.
  - destruct (Nat.leb_spec (Z.to_nat (b_page b * 1024 + 64)) (Z.to_nat (i + 64))),
      (Nat.ltb_spec (Z.to_nat (i + 64)) (Z.to_nat (b_page b * 1024 + 64) + 1024)); cbn [andb];
      try done. exfalso. Z.div_mod_to_equations. nia.
Qed.

Lemma dbyte_page_events s l : forall p f i,
  cache_ok s -> NoDup l -> (forall j, j ∈ l -> (j < nbufs s)%nat /\ dirty (buf s j) = true) ->
  0 <= i ->
  dbyte (runs p (map (fun j => page_event (buf s j)) l)) f i
  = match List.find (fun j => holds (buf s j) f (i / 1024)) l with
    | Some j => byte (b_data (buf s j)) (Z.to_nat (i mod 1024))
    | None => dbyte p f i
    end.
Proof.
  induction l as [|k l IH]; intros p f i Hc Hn Hl Hi; [done|].
  apply NoDup_cons in Hn as [Hk Hn]. cbn [map runs foldl List.find].
  destruct (Hl k) as [Hlt Hd]; [left|].
  assert (Hl' : forall j, j ∈ l -> (j < nbufs s)%nat /\ dirty (buf s j) = true)
    by (intros j Hj; apply Hl; by right).
  fold (runs (exec (page_event (buf s k)) p) (map (fun j => page_event (buf s j)) l)).
  rewrite IH by done.
  rewrite (dbyte_page_event (buf s k)); [|by apply Hc|by apply Hc, Hc|done].
  destruct (holds (buf s k) f (i / 1024)) eqn:Eh; [|done].
  destruct (List.find _ l) as [j|] eqn:E; [|done].
  apply find_some in E as [Hj Hjh]. apply list_elem_of_In in Hj.
  apply holds_true in Eh as [? ?], Hjh as [? ?]. destruct (Hl' j Hj) as [? ?].
  assert (j = k) by (apply (co_uniq s Hc); congruence). congruence.
Qed.

Lemma dirty_bufs_spec s j : j ∈ dirty_bufs s <-> (j < nbufs s)%nat /\ dirty (buf s j) = true.
Proof.
  unfold dirty_bufs. rewrite list_elem_of_In, filter_In, in_all_bufs. done.
Qed.

Lemma dirty_bufs_nodup s : NoDup (dirty_bufs s).
Proof.
  unfold dirty_bufs, all_bufs. generalize 0%nat. generalize (length (Buffers s)) as n.
  induction n as [|n IH]; intros k; cbn [seq List.filter]; [constructor|].
  destruct (dirty (buf s k)); [|apply IH]. apply NoDup_cons. split; [|apply IH].
  rewrite list_elem_of_In, filter_In, in_seq. lia.
Qed.

(** After the flush the disk holds the transaction's version. *)
Lemma flush_bytes s f i :
  cache_ok s -> 0 <= i ->
  dbyte (runs (ph s) (flush_events s)) f i = vbyte s UBIK_WRITETRANS f i.
Proof.
  intros Hc Hi. unfold flush_events.
  rewrite dbyte_page_events; [|done|apply dirty_bufs_nodup|by intros j ?%dirty_bufs_spec|done].
  rewrite vbyte_write. destruct (List.find _ _) as [j|] eqn:E.
  - apply find_some in E as [Hj Hh]. apply list_elem_of_In, dirty_bufs_spec in Hj as [Hj Hd].
    by rewrite (working_dirty s j).
  - rewrite working_clean.
    + rewrite byte_dpage by mlia. f_equal. mlia.
    + intros j Hj Hd. eapply find_none in E; [done|]. by apply list_elem_of_In, dirty_bufs_spec.
Qed.

(** ** Synchronising *)

(** The cache between [DFlush] and the end of [DSync]: dirty buffers agree with
    the disk; a clean one may be stale as long as a dirty one has its page. *)
Record flushed (s : dbase) : Prop := {
  fl_struct : struct_ok s;
  fl_unlocked : unlocked s;
  fl_len : forall i, (i < nbufs s)%nat -> length (b_data (buf s i)) = 1024%nat;
  fl_key : forall i, (i < nbufs s)%nat -> b_file (buf s i) <> BADFID ->
    0 <= b_file (buf s i) /\ 0 <= b_page (buf s i);
  fl_dirty : forall i, (i < nbufs s)%nat -> dirty (buf s i) = true ->
    b_file (buf s i) <> BADFID
    /\ b_data (buf s i) = dpage (ph s) (b_file (buf s i)) (b_page (buf s i));
  fl_clean : forall i, (i < nbufs s)%nat -> dirty (buf s i) = false ->
    b_file (buf s i) <> BADFID ->
    b_data (buf s i) = dpage (ph s) (b_file (buf s i)) (b_page (buf s i))
    \/ exists j, (j < nbufs s)%nat /\ dirty (buf s j) = true
         /\ holds (buf s j) (b_file (buf s i)) (b_page (buf s i)) = true;
  fl_uniq : forall i j, (i < nbufs s)%nat -> (j < nbufs s)%nat ->
    dirty (buf s i) = true -> dirty (buf s j) = true ->
    b_file (buf s i) = b_file (buf s j) -> b_page (buf s i) = b_page (buf s j) -> i = j
}.

Lemma dpage_ext p q f pg :
  0 <= pg -> (forall i, 0 <= i -> i / 1024 = pg -> dbyte q f i = dbyte p f i) ->
  dpage q f pg = dpage p f pg.
Proof.
  intros Hp He. apply file_ext; rewrite !dpage_length; [done|]. intros k Hk.
  rewrite !byte_dpage by done. apply He; Z.div_mod_to_equations; nia.
Qed.

Lemma flush_flushed s :
  cache_ok s -> unlocked s -> flushed (set_ph (runs (ph s) (flush_events s)) s).
Proof.
  intros Hc Hu. set (p' := runs (ph s) (flush_events s)).
  assert (Hpage : forall f pg, 0 <= pg -> dpage p' f pg = working s f pg).
  { intros f pg Hp. apply file_ext.
    - rewrite dpage_length. destruct (working_cases s f pg) as [(i & Hi & _ & _ & ->)|[_ ->]];
        [by rewrite (co_len s Hc)|by rewrite dpage_length].
    - rewrite dpage_length. intros k Hk. rewrite byte_dpage by done. unfold p'.
      rewrite flush_bytes by (done || lia). rewrite vbyte_write.
      f_equal; [f_equal|]; Z.div_mod_to_equations; nia. }
  constructor; try apply Hc; try done.
  - by apply struct_set_ph, Hc.
  - intros i Hi Hd. split; [by apply Hc|]. cbn [ph set_ph].
    change (buf (set_ph p' s) i) with (buf s i) in *.
    assert (Hv := co_dirty s Hc i Hi Hd). rewrite Hpage by (by apply Hc).
    symmetry. apply working_dirty; try done. by apply holds_true.
  - intros i Hi Hd Hv. change (buf (set_ph p' s) i) with (buf s i) in *. cbn [ph set_ph].
    rewrite Hpage by (by apply Hc).
    destruct (working_cases s (b_file (buf s i)) (b_page (buf s i)))
      as [(j & Hj & Hdj & Hhj & _)|[_ ->]].
    + right. by exists j.
    + left. by apply Hc.
Qed.

(** One buffer cleaned and its duplicates invalidated. *)
Definition clean_one (i : nat) (s : dbase) : dbase :=
  DedupBuffer i (upd_buf i (set_dirty false) s).

Lemma clean_one_bufs i s :
  flushed s -> (i < nbufs s)%nat -> dirty (buf s i) = true ->
  let s' := clean_one i s in
  struct_ok s' /\ nbufs s' = nbufs s /\ rest_of s' = rest_of s
  /\ forall j, (j < nbufs s)%nat ->
       buf s' j = if (j =? i)%nat then set_dirty false (buf s i)
                  else if holds (buf s j) (b_file (buf s i)) (b_page (buf s i))
                  then kill (buf s j) else buf s j.
Proof.
  intros Hf Hi Hd s'. unfold s', clean_one, DedupBuffer.
  set (s1 := upd_buf i (set_dirty false) s).
  assert (Hn1 : nbufs s1 = nbufs s) by apply nbufs_upd.
  assert (Hs1 : struct_ok s1) by (apply struct_upd; auto; apply Hf).
  assert (Hb1 : buf s1 i = set_dirty false (buf s i)) by (by apply buf_upd_eq).
  set (c := fun (j : nat) (b : buffer) => _).
  destruct (zap_all_ok c (chain s1 (pHash (b_page (buf s1 i)))) s1) as (Z1 & Z2 & Z3 & Z4 & Z5).
  { intros j Hj. by apply (so_chain s1 Hs1) in Hj as [? _]. }
  { done. }
  split_and!; try done; [congruence|]. intros j Hj. rewrite Z5. unfold c. rewrite Hb1.
  cbn [b_page b_file set_dirty].
  destruct (Nat.eqb_spec j i) as [->|Hne].
  { cbn [negb]. rewrite andb_false_r. cbn [andb]. by rewrite andb_false_r. }
  assert (Hbj : buf s1 j = buf s j) by (by apply buf_upd_ne). rewrite Hbj. cbn [negb].
  rewrite andb_true_r, (andb_comm (b_page (buf s j) =? _)). fold (holds (buf s j) (b_file (buf s i)) (b_page (buf s i))).
  destruct (holds _ _ _) eqn:Eh; [|by rewrite andb_false_r].
  rewrite bool_decide_eq_true_2; [done|]. apply holds_true in Eh as [E1 E2].
  rewrite <- E2, <- Hbj. apply (so_hashed s1 Hs1); [lia|].
  rewrite Hbj, E1. by apply (fl_dirty s Hf).
Qed.

Lemma clean_one_ok i s :
  flushed s -> (i < nbufs s)%nat -> dirty (buf s i) = true ->
  let s' := clean_one i s in
  flushed s' /\ nbufs s' = nbufs s /\ rest_of s' = rest_of s
  /\ forall j, (j < nbufs s)%nat -> dirty (buf s' j) = dirty (buf s j) && negb (j =? i)%nat
       /\ (dirty (buf s j) = true -> b_file (buf s' j) = b_file (buf s j)).
Proof.
  intros Hf Hi Hd s'. destruct (clean_one_bufs i s Hf Hi Hd) as (C1 & C2 & C3 & C4).
  fold s' in C1, C2, C3, C4. pose proof Hf as [F1 F2 F3 F4 F5 F6 F7].
  assert (Hp : ph s' = ph s) by (by apply rest_ph).
  assert (Hdirty : forall j, (j < nbufs s)%nat -> dirty (buf s' j) = dirty (buf s j) && negb (j =? i)%nat
     /\ (dirty (buf s j) = true -> j <> i -> buf s' j = buf s j)).
  { intros j Hj. rewrite C4 by done. destruct (Nat.eqb_spec j i) as [->|Hne]; cbn [negb].
    { split; [by rewrite andb_false_r|done]. }
    rewrite andb_true_r. destruct (holds _ _ _) eqn:Eh; [|done]. split; [done|].
    intros Hdj. apply holds_true in Eh as [E1 E2]. by destruct Hne; apply F7. }
  split; [|split_and!; try done].
  2: { intros j Hj. destruct (Hdirty j Hj) as [E1 E2]. split; [done|]. intros Hdj.
       destruct (decide (j = i)) as [->|Hne]; [|by rewrite E2].
       by rewrite C4, Nat.eqb_refl by done. }
  constructor; rewrite ?C2; try done.
  - intros j Hj. rewrite C2 in Hj. rewrite C4 by done. repeat case_match; by apply F2.
  - intros j Hj. rewrite C4 by done. repeat case_match; by apply F3.
  - intros j Hj. rewrite C4 by done. destruct (j =? i)%nat; [by apply F4|].
    destruct (holds _ _ _); [done|by apply F4].
  - intros j Hj Hdj. destruct (Hdirty j Hj) as [E1 E2]. rewrite E1 in Hdj. bool_hyps.
    rewrite E2, Hp by (done || by apply Nat.eqb_neq). by apply F5.
  - intros j Hj Hdj Hv. rewrite Hp, C4 in * by done.
    destruct (Nat.eqb_spec j i) as [->|Hne]; [left; by apply F5|].
    destruct (holds (buf s j) _ _) eqn:Eh; [done|].
    destruct (F6 j Hj Hdj Hv) as [?|(k & Hk & Hdk & Hhk)]; [by left|right].
    exists k. destruct (Hdirty k Hk) as [E1 E2]. split; [done|].
    assert (Hki : k <> i).
    { intros ->. apply holds_true in Hhk as [H1 H2]. apply not_true_iff_false in Eh. apply Eh.
      by apply holds_true. }
    rewrite E2 by done. done.
  - intros j k Hj Hk Hdj Hdk. destruct (Hdirty j Hj) as [E1 E2], (Hdirty k Hk) as [E3 E4].
    rewrite E1 in Hdj. rewrite E3 in Hdk. bool_hyps.
    rewrite E2, E4 by (done || by apply Nat.eqb_neq). by apply F7.
Qed.

(** What a pass that settled on file [fl'] has done to the dirty buffers. *)
Definition pass_inv (fl : Z) (s : dbase) (fl' : Z) (s' : dbase) : Prop :=
  flushed s' /\ nbufs s' = nbufs s /\ rest_of s' = rest_of s
  /\ (forall j, (j < nbufs s)%nat -> dirty (buf s' j) = true ->
        dirty (buf s j) = true /\ b_file (buf s' j) = b_file (buf s j))
  /\ (forall j, (j < nbufs s)%nat -> dirty (buf s j) = true -> b_file (buf s j) <> fl' ->
        dirty (buf s' j) = true)
  /\ (fl <> BADFID -> fl' = fl).

Lemma pass_inv_refl fl s : flushed s -> pass_inv fl s fl s.
Proof. intros Hf. unfold pass_inv. split_and!; try done; auto. Qed.

Lemma pass_inv_trans fl0 s0 fl1 s1 fl2 s2 :
  pass_inv fl0 s0 fl1 s1 -> pass_inv fl1 s1 fl2 s2 -> (fl0 <> BADFID -> fl1 <> BADFID) ->
  (fl1 <> BADFID \/ s1 = s0) -> pass_inv fl0 s0 fl2 s2.
Proof.
  intros (A1 & A2 & A3 & A4 & A5 & A6) (B1 & B2 & B3 & B4 & B5 & B6) Hk Hs.
  unfold pass_inv. split_and!; try done; try congruence.
  - intros j Hj Hd. destruct (B4 j ltac:(lia) Hd) as [Hd1 E1]. destruct (A4 j Hj Hd1) as [Hd0 E0].
    split; [done|congruence].
  - intros j Hj Hd Hne. destruct Hs as [Hf| ->]; [|by apply B5].
    specialize (B6 Hf). subst fl2. specialize (A5 j Hj Hd Hne).
    destruct (A4 j Hj A5) as [_ E]. apply B5; [lia|done|congruence].
  - intros Hf. rewrite B6, A6 by auto. done.
Qed.

Lemma pass_step_ok fl s i :
  flushed s -> (i < nbufs s)%nat ->
  let '(fl1, s1) := pass_step (fl, s) i in
  pass_inv fl s fl1 s1
  /\ (fl1 = BADFID -> s1 = s /\ fl = BADFID /\ dirty (buf s i) = false)
  /\ (fl = BADFID -> fl1 <> BADFID -> dirty (buf s i) = true /\ dirty (buf s1 i) = false).
Proof.
  intros Hf Hi. unfold pass_step. fold (clean_one i s). destruct (dirty (buf s i)) eqn:Ed.
  2: { split; [by apply pass_inv_refl|]. split; [done|by intros ->]. }
  set (fl1 := if fl =? BADFID then b_file (buf s i) else fl).
  destruct (fl_dirty s Hf i Hi Ed) as [Hv _].
  assert (Hfl1 : fl1 <> BADFID) by (unfold fl1; by destruct (Z.eqb_spec fl BADFID)).
  assert (Hfl : fl <> BADFID -> fl1 = fl) by (unfold fl1; by destruct (Z.eqb_spec fl BADFID)).
  rewrite (proj2 (Z.eqb_neq fl1 BADFID)) by done. cbn [negb andb].
  destruct (Z.eqb_spec (b_file (buf s i)) fl1) as [Ef|Ef].
  - destruct (clean_one_ok i s Hf Hi Ed) as (C1 & C2 & C3 & C4).
    split; [|split; [done|intros _ _; split; [done|]]].
    + unfold pass_inv. split_and!; try done.
      * intros j Hj. destruct (C4 j Hj) as [-> E]. intros Hd. bool_hyps. auto.
      * intros j Hj Hd Hne. destruct (C4 j Hj) as [-> _]. rewrite Hd. cbn [andb].
        apply negb_true_iff, Nat.eqb_neq. congruence.
    + destruct (C4 i Hi) as [-> _]. by rewrite Nat.eqb_refl, andb_false_r.
  - split; [|split; [done|]].
    + destruct (pass_inv_refl fl s Hf) as (? & ? & ? & ? & ? & _). unfold pass_inv. split_and!; auto.
    + intros -> _. unfold fl1 in Ef. by rewrite Z.eqb_refl in Ef.
Qed.

Lemma pass_fold_ok l : forall fl s,
  flushed s -> (forall i, i ∈ l -> (i < nbufs s)%nat) ->
  let '(fl', s') := foldl pass_step (fl, s) l in
  pass_inv fl s fl' s'
  /\ (fl' = BADFID -> s' = s /\ fl = BADFID /\ forall i, i ∈ l -> dirty (buf s i) = false)
  /\ (fl = BADFID -> fl' <> BADFID ->
      exists i, (i < nbufs s)%nat /\ dirty (buf s i) = true /\ dirty (buf s' i) = false).
Proof.
  induction l as [|i l IH]; intros fl s Hf Hl.
  - cbn. split; [by apply pass_inv_refl|]. split; [|by intros ->].
    intros ->. split_and!; try done. intros i Hi. by apply not_elem_of_nil in Hi.
  - cbn [foldl]. pose proof (pass_step_ok fl s i Hf ltac:(apply Hl; left)) as H1.
    destruct (pass_step (fl, s) i) as [fl1 s1]. destruct H1 as (P1 & Q1 & R1).
    pose proof (IH fl1 s1 ltac:(apply P1)) as H2.
    assert (Hl1 : forall j, j ∈ l -> (j < nbufs s1)%nat).
    { intros j Hj. destruct P1 as (_ & -> & _). apply Hl. by right. }
    specialize (H2 Hl1). destruct (foldl pass_step (fl1, s1) l) as [fl2 s2].
    destruct H2 as (P2 & Q2 & R2).
    assert (Hk : fl <> BADFID -> fl1 <> BADFID) by (destruct P1 as (_ & _ & _ & _ & _ & E); intros Hn; by rewrite (E Hn)).
    assert (Hs : fl1 <> BADFID \/ s1 = s) by (destruct (decide (fl1 = BADFID)) as [E|]; [right; by apply Q1|by left]).
    split; [by eapply pass_inv_trans|]. split.
    + intros E2. destruct (Q2 E2) as (-> & E1 & Hd2). destruct (Q1 E1) as (-> & -> & Hd1).
      split_and!; try done. intros j [->|Hj]%elem_of_cons; auto.
    + intros E0 Hne. destruct (decide (fl1 = BADFID)) as [E1|Hn1].
      * destruct (Q1 E1) as (-> & _ & _). by apply R2.
      * destruct (R1 E0 Hn1) as [Hd Hd1]. exists i.
        assert (Hi : (i < nbufs s)%nat) by (apply Hl; left). split_and!; try done.
        destruct (dirty (buf s2 i)) eqn:Ed2; [|done].
        destruct P2 as (_ & _ & _ & E & _). destruct (E i) as [? _]; [|done|congruence].
        destruct P1 as (_ & -> & _). done.
Qed.

Lemma DSync_pass_ok s :
  flushed s ->
  let '(fl, s') := DSync_pass s in
  pass_inv BADFID s fl s'
  /\ (fl = BADFID -> s' = s /\ forall i, (i < nbufs s)%nat -> dirty (buf s i) = false)
  /\ (fl <> BADFID ->
      exists i, (i < nbufs s)%nat /\ dirty (buf s i) = true /\ dirty (buf s' i) = false).
Proof.
  intros Hf. assert (Hl : forall i, i ∈ all_bufs s -> (i < nbufs s)%nat)
    by (intros i; by rewrite list_elem_of_In, in_all_bufs).
  pose proof (pass_fold_ok (all_bufs s) BADFID s Hf Hl) as H.
  unfold DSync_pass.
  destruct (foldl pass_step (BADFID, s) (all_bufs s)) as [fl s']. destruct H as (P & Q & R).
  split_and!; auto. intros E. destruct (Q E) as (-> & _ & Hd). split; [done|].
  intros i Hi. apply Hd. by rewrite list_elem_of_In, in_all_bufs.
Qed.

Definition ndirty (s : dbase) : nat := length (dirty_bufs s).

Lemma filter_lt (g h : nat -> bool) l i :
  (forall j, j ∈ l -> g j = true -> h j = true) -> i ∈ l -> h i = true -> g i = false ->
  (length (List.filter g l) < length (List.filter h l))%nat.
Proof.
  intros Himp Hi Hh Hg.
  assert (Hle : forall l', (forall j, j ∈ l' -> g j = true -> h j = true) ->
            (length (List.filter g l') <= length (List.filter h l'))%nat).
  { induction l' as [|k l' IH]; intros Hl; [done|]. cbn [List.filter].
    specialize (IH (fun j Hj => Hl j (list_elem_of_further _ _ _ Hj))).
    destruct (g k) eqn:Ek; [rewrite (Hl k (list_elem_of_here _ _) Ek); cbn; lia|].
    destruct (h k); cbn; lia. }
  induction l as [|k l IH]; [by apply not_elem_of_nil in Hi|]. cbn [List.filter].
  apply elem_of_cons in Hi as [->|Hi].
  - rewrite Hh, Hg. cbn. specialize (Hle l (fun j Hj => Himp j (list_elem_of_further _ _ _ Hj))). lia.
  - specialize (IH (fun j Hj => Himp j (list_elem_of_further _ _ _ Hj)) Hi).
    destruct (g k) eqn:Ek; [rewrite (Himp k (list_elem_of_here _ _) Ek); cbn; lia|].
    destruct (h k); cbn; lia.
Qed.

Lemma ndirty_lt s s' i :
  nbufs s' = nbufs s -> (i < nbufs s)%nat -> dirty (buf s i) = true -> dirty (buf s' i) = false ->
  (forall j, (j < nbufs s)%nat -> dirty (buf s' j) = true -> dirty (buf s j) = true) ->
  (ndirty s' < ndirty s)%nat.
Proof.
  intros Hn Hi Hd Hd' Himp. unfold ndirty, dirty_bufs, all_bufs. fold (nbufs s) (nbufs s').
  rewrite Hn. apply (filter_lt _ _ _ i); try done; [|apply elem_of_seq; lia].
  intros j Hj. apply Himp. apply elem_of_seq in Hj. lia.
Qed.

Lemma ndirty_le s : (ndirty s <= nbufs s)%nat.
Proof.
  unfold ndirty, dirty_bufs, nbufs, all_bufs. rewrite <- (length_seq (length (Buffers s)) 0) at 2.
  apply filter_length_le.
Qed.

Lemma dpage_files p q f pg : fileof q f = fileof p f -> dpage q f pg = dpage p f pg.
Proof. intros E. unfold dpage. by rewrite E. Qed.

Lemma flushed_set_ph p s :
  flushed s -> (forall f, fileof p f = fileof (ph s) f) -> flushed (set_ph p s).
Proof.
  intros [F1 F2 F3 F4 F5 F6 F7] Hp. constructor; try done.
  - by apply struct_set_ph.
  - intros i Hi Hd. destruct (F5 i Hi Hd) as [Hv E]. split; [done|].
    cbn [ph set_ph]. by rewrite (dpage_files (ph s)).
  - intros i Hi Hd Hv. destruct (F6 i Hi Hd Hv) as [E|E]; [left|by right].
    cbn [ph set_ph]. by rewrite (dpage_files (ph s)).
Qed.

(** The append stream, if open, is on the log. *)
Definition stream_on_log (p : phys) : Prop :=
  match buf_fdcache p with Some (g, _) => g = LOGFILE | None => True end.

Lemma uphys_sync_eq f p :
  faults p = [] -> stream_on_log p -> f <> LOGFILE -> uphys_sync f p = (0, exec (ESync f) p).
Proof.
  intros Hf Hs Hne. unfold uphys_sync, uphys_buf_flush, stream_on_log in *.
  destruct (buf_fdcache p) as [[g b]|].
  - rewrite (proj2 (Z.eqb_neq g f)) by congruence. cbn. unfold syscall, next_fault. by rewrite Hf.
  - cbn. unfold syscall, next_fault. by rewrite Hf.
Qed.

Lemma fileof_sync f p g : fileof (exec (ESync f) p) g = fileof p g.
Proof. done. Qed.

Lemma pastof_sync f p g : pastof (exec (ESync f) p) g = if g =? f then [] else pastof p g.
Proof.
  unfold pastof. cbn. destruct (Z.eqb_spec g f) as [->|]; [by rewrite lookup_insert_eq|].
  by rewrite lookup_insert_ne.
Qed.

Definition is_sync (e : event) : Prop := exists f, e = ESync f /\ 0 <= f.

(** Files that are not synced have a dirty buffer. *)
Definition sync_pending (s : dbase) : Prop :=
  forall f, f <> LOGFILE -> pastof (ph s) f = []
    \/ exists j, (j < nbufs s)%nat /\ dirty (buf s j) = true /\ b_file (buf s j) = f.

Definition rest_no_ph (s : dbase) :=
  (dversion s, DBWRITING s, readers s, activeTrans s, next_tid s, urecovery_state s, epochTime s).

Lemma DSync_loop_ok fuel : forall s,
  flushed s -> faults (ph s) = [] -> stream_on_log (ph s) -> (ndirty s < fuel)%nat ->
  sync_pending s ->
  exists s' evs, DSync_loop fuel 0 s = (Some 0, s') /\ flushed s' /\ nbufs s' = nbufs s
    /\ (forall i, (i < nbufs s)%nat -> dirty (buf s' i) = false)
    /\ ph s' = runs (ph s) evs /\ Forall is_sync evs /\ rest_no_ph s' = rest_no_ph s
    /\ (forall f, fileof (ph s') f = fileof (ph s) f)
    /\ (forall f, f <> LOGFILE -> pastof (ph s') f = []).
Proof.
  induction fuel as [|fuel IH]; intros s Hf Hft Hst Hn Hsp; [lia|]. cbn [DSync_loop].
  pose proof (DSync_pass_ok s Hf) as HP. destruct (DSync_pass s) as [fl s1].
  destruct HP as ((P1 & P2 & P3 & P4 & P5 & _) & Q & R).
  destruct (Z.eqb_spec fl BADFID) as [E|Hfl].
  - destruct (Q E) as [-> Hd]. exists s, []. split_and!; try done.
    intros f Hne. destruct (Hsp f Hne) as [?|(j & Hj & Hdj & _)]; [done|]. by rewrite Hd in Hdj.
  - destruct (R Hfl) as (i & Hi & Hdi & Hdi').
    pose proof (rest_ph _ _ P3) as Hp1.
    rewrite Hp1, uphys_sync_eq by done.
    change (0 =? 0) with true. cbn iota.
    set (s2 := set_ph (exec (ESync fl) (ph s)) s1).
    assert (Hfl0 : 0 <= fl).
    { destruct (decide (b_file (buf s i) = fl)) as [E|E].
      - rewrite <- E. apply (fl_key s Hf); [done|]. by apply (fl_dirty s Hf).
      - by rewrite (P5 i Hi Hdi E) in Hdi'. }
    destruct (IH s2) as (s' & evs & E1 & E2 & E3 & E4 & E5 & E6 & E7 & E8 & E9).
    + apply flushed_set_ph; [done|]. intros f. by rewrite Hp1.
    + done.
    + done.
    + enough (ndirty s1 < ndirty s)%nat by (change (ndirty s2) with (ndirty s1); lia).
      apply (ndirty_lt s s1 i); try done. intros j Hj Hdj. by apply (P4 j Hj Hdj).
    + intros f Hne. cbn [ph set_ph s2]. rewrite pastof_sync.
      destruct (Z.eqb_spec f fl) as [->|Hne2]; [by left|].
      destruct (Hsp f Hne) as [?|(j & Hj & Hdj & Ej)]; [by left|right]. exists j.
      assert (Hd1 : dirty (buf s1 j) = true) by (apply P5; [done|done|congruence]).
      change (nbufs s2) with (nbufs s1). change (buf s2 j) with (buf s1 j).
      split_and!; [lia|done|]. destruct (P4 j Hj Hd1) as [_ ->]. done.
    + exists s', (ESync fl :: evs). split_and!; try done.
      * rewrite E3. exact P2.
      * intros j Hj. apply E4. change (nbufs s2) with (nbufs s1). lia.
      * constructor; [by exists fl|done].
      * rewrite E7. change (rest_no_ph s2) with (rest_no_ph s1). unfold rest_of, rest_no_ph in *.
        congruence.
Qed.
