(* ===== verification/UbikCommit.v ===== *)
(** * Ubik transactions: commit, abort, and recovery after a crash

    On top of the buffer cache of [UbikDisk.v] and the log of [UbikLog.v]: a
    committed transaction is exactly its writes, an aborted one nothing, readers
    see only committed data, and after a crash at any moment of a transaction
    replaying the log gives the database before or after it. *)

From S2P Require Import Prelude UbikVote UbikPhys UbikLog UbikDisk.
From stdpp Require Import prelude list gmap.
From Stdlib Require Import ZArith Lia.

#[local] Open Scope Z_scope.

(** ** Contents *)

(** The data of all files, as bytes by file and position. *)
Definition contents := Z -> Z -> Z.

Definition write := (Z * Z * list Z)%type.  (* file, position, data *)

Definition apply_write (C : contents) (w : write) : contents :=
  fun g i =>
    let '(f, pos, d) := w in
    if (g =? f) && (pos <=? i) && (i <? pos + Z.of_nat (length d))
    then byte d (Z.to_nat (i - pos)) else C g i.

Definition apply_writes (ws : list write) (C : contents) : contents := foldl apply_write C ws.

Definition write_ok (w : write) : Prop :=
  let '(f, pos, d) := w in
  0 <= f < 2 ^ 31 /\ 0 <= pos /\ pos + Z.of_nat (length d) < 2 ^ 31.

Definition record_of (w : write) : log_record := let '(f, pos, d) := w in RData f pos d.

(** The log of a transaction with these writes. *)
Definition log_of (ws : list write) : list log_record := RNew :: map record_of ws.

Lemma record_ok w : write_ok w -> body_record (record_of w).
Proof. destruct w as [[f pos] d]. cbn. intros (? & ? & ?). split_and!; mlia. Qed.

Lemma log_of_ok ws : Forall write_ok ws -> Forall body_record (log_of ws).
Proof.
  intros Hws. constructor; [done|]. apply Forall_map. eapply Forall_impl; [exact Hws|].
  apply record_ok.
Qed.

(** ** The system calls of the log *)

Lemma append_eq f d p :
  faults p = [] -> uphys_buf_append f d p = (Z.of_nat (length d), exec (EAppend f d) p).
Proof. intros Hf. unfold uphys_buf_append, syscall, next_fault. by rewrite Hf. Qed.

(** The stream is on the log with [b] buffered (a closed stream counts as
    empty). *)
Definition buffered (p : phys) (b : list Z) : Prop :=
  buf_fdcache p = Some (LOGFILE, b) \/ (buf_fdcache p = None /\ b = []).

Lemma buffered_append p b d :
  buffered p b -> let p' := exec (EAppend LOGFILE d) p in
  buf_fdcache p' = Some (LOGFILE, b ++ d) /\ files p' = files p /\ past p' = past p
  /\ faults p' = faults p.
Proof.
  intros [E|[E ->]]; cbv zeta; unfold exec, effect; rewrite E; [|done].
  change (LOGFILE =? LOGFILE) with true. done.
Qed.

Lemma buffered_on_log p b : buffered p b -> stream_on_log p.
Proof. unfold stream_on_log. by intros [->|[-> _]]. Qed.

Lemma LogWriteData_eq w p :
  write_ok w -> faults p = [] ->
  let '(f, pos, d) := w in
  udisk_LogWriteData f d pos (Z.of_nat (length d)) p
  = (0, runs p [EAppend LOGFILE (be32 LOGDATA ++ be32 f ++ be32 pos ++ be32 (Z.of_nat (length d)));
                EAppend LOGFILE d]).
Proof.
  destruct w as [[f pos] d]. intros Hw Hf. unfold udisk_LogWriteData.
  rewrite append_eq by done. cbn [length app]. change (negb (Z.of_nat _ =? 16)) with false. cbn iota.
  rewrite append_eq, Z.eqb_refl; [done|].
  assert (E := runs_faults [EAppend LOGFILE (be32 LOGDATA ++ be32 f ++ be32 pos
    ++ be32 (Z.of_nat (length d)))] p). cbn [runs foldl] in E. by rewrite E.
Qed.

(** ** Running a transaction *)

(** The writes one after the other; the first error ends it. *)
Fixpoint write_all (t : trans) (ws : list write) (s : dbase) : Z * trans * dbase :=
  match ws with
  | [] => (0, t, s)
  | (f, pos, d) :: rest =>
      let '(code, t', s') := udisk_write t f d pos s in
      if code =? 0 then write_all t' rest s' else (code, t', s')
  end.

(** Begin, write, commit. *)
Definition run_transaction (am_sync : bool) (now : Z) (ws : list write) (s : dbase)
    : outcome * dbase :=
  match udisk_begin UBIK_WRITETRANS s with
  | (code, None, s1) => (Return code, s1)
  | (_, Some t, s1) =>
      let '(code, t2, s2) := write_all t ws s1 in
      if code =? 0 then
        let '(o, t3, s3) := udisk_commit am_sync now t2 s2 in
        match o with
        | Return 0 => udisk_end t3 s3
        | _ => (o, s3)
        end
      else (Return code, s2)
  end.

(** Between transactions: nothing dirty, nothing buffered, an empty log, the
    database files synced. *)
Record quiet (s : dbase) : Prop := {
  q_cache : cache_ok s;
  q_unlocked : unlocked s;
  q_clean : forall i, (i < nbufs s)%nat -> dirty (buf s i) = false;
  q_faults : faults (ph s) = [];
  q_buffered : buffered (ph s) [];
  q_writing : DBWRITING s = false;
  q_log : length (fileof (ph s) LOGFILE) = 64%nat;
  q_synced : forall f, f <> LOGFILE -> pastof (ph s) f = []
}.

(** In the middle of a write transaction, after the writes [ws] on top of the
    committed contents [C]. *)
Record in_trans (C : contents) (ws : list write) (s : dbase) : Prop := {
  it_cache : cache_ok s;
  it_unlocked : unlocked s;
  it_faults : faults (ph s) = [];
  it_stream : buf_fdcache (ph s) = Some (LOGFILE, encs (log_of ws));
  it_writing : DBWRITING s = true;
  it_log : length (fileof (ph s) LOGFILE) = 64%nat;
  it_synced : forall f, f <> LOGFILE -> pastof (ph s) f = [];
  it_disk : forall f i, 0 <= f -> 0 <= i -> dbyte (ph s) f i = C f i;
  it_working : forall f i, 0 <= f -> 0 <= i ->
    vbyte s UBIK_WRITETRANS f i = apply_writes ws C f i
}.

Definition plain (t : trans) : Prop :=
  TRDONE t = false /\ t_type t = UBIK_WRITETRANS /\ activeTruncs t = [].

(** The same data on disk, as far as the database files go. *)
Definition same_data (p q : phys) : Prop :=
  forall f i, 0 <= f -> 0 <= i -> dbyte q f i = dbyte p f i.

Lemma same_dpage p q f pg : same_data p q -> 0 <= f -> 0 <= pg -> dpage q f pg = dpage p f pg.
Proof. intros Hs Hf Hp. apply dpage_ext; [done|]. intros i Hi _. by apply Hs. Qed.

Lemma cache_ok_ph p s : cache_ok s -> same_data (ph s) p -> cache_ok (set_ph p s).
Proof.
  intros [C1 C2 C3 C4 C5 C6] Hp. constructor; try done; [by apply struct_set_ph|].
  intros i Hi Hd Hv. cbn [ph set_ph]. rewrite (same_dpage (ph s)); [by apply C4|done| |];
    by apply C3.
Qed.

Lemma vbyte_ph p s f i :
  same_data (ph s) p -> 0 <= f -> 0 <= i ->
  vbyte (set_ph p s) UBIK_WRITETRANS f i = vbyte s UBIK_WRITETRANS f i.
Proof.
  intros Hp Hf Hi. rewrite !vbyte_write. f_equal. unfold working.
  change (all_bufs (set_ph p s)) with (all_bufs s).
  change (buf (set_ph p s)) with (buf s). destruct (List.find _ _); [done|].
  apply same_dpage; [done|done|]. mlia.
Qed.

Lemma files_fileof p q f : files q = files p -> fileof q f = fileof p f.
Proof. unfold fileof. by intros ->. Qed.

Lemma files_same_data p q : files q = files p -> same_data p q.
Proof. intros E f i _ _. unfold dbyte. by rewrite (files_fileof p). Qed.

Lemma past_pastof p q f : past q = past p -> pastof q f = pastof p f.
Proof. unfold pastof. by intros ->. Qed.

(** With no dirty buffer the transaction's version is the committed one. *)
Lemma vbyte_clean s f i :
  (forall i, (i < nbufs s)%nat -> dirty (buf s i) = false) -> 0 <= i ->
  vbyte s UBIK_WRITETRANS f i = dbyte (ph s) f i.
Proof.
  intros Hd Hi. rewrite vbyte_write, working_clean.
  - rewrite byte_dpage by mlia. f_equal. mlia.
  - intros j Hj Hdj. by rewrite Hd in Hdj.
Qed.

Lemma begin_ok s :
  quiet s ->
  let t := mkTrans (next_tid s) UBIK_WRITETRANS false false [] in
  exists s', udisk_begin UBIK_WRITETRANS s = (0, Some t, s')
    /\ in_trans (dbyte (ph s)) [] s' /\ plain t
    /\ ph s' = exec (EAppend LOGFILE (enc RNew)) (ph s) /\ nbufs s' = nbufs s /\ free s' = free s
    /\ dversion s' = dversion s /\ urecovery_state s' = urecovery_state s
    /\ epochTime s' = epochTime s.
Proof.
  intros [Q1 Q2 Q3 Q4 Q5 Q6 Q7 Q8] t. unfold udisk_begin.
  change (UBIK_WRITETRANS =? UBIK_WRITETRANS) with true. cbn iota. rewrite Q6.
  unfold udisk_LogOpcode. rewrite append_eq by done.
  change (negb (Z.of_nat (length (be32 LOGNEW)) =? 4)) with false. cbn iota.
  change (negb (0 =? 0)) with false. cbn iota beta zeta.
  change (UBIK_WRITETRANS =? UBIK_READTRANS) with false. cbn iota.
  destruct (buffered_append _ _ (be32 LOGNEW) Q5) as (B1 & B2 & B3 & B4).
  set (p' := exec (EAppend LOGFILE (be32 LOGNEW)) (ph s)) in *.
  eexists. split; [reflexivity|].
  assert (Hc : cache_ok (set_ph p' s)) by (apply cache_ok_ph; [done|by apply files_same_data]).
  split_and!; try done.
  constructor; try done; cbn [ph set_ph set_active set_writing].
  - destruct Hc as [[S1 S2 S3] C2 C3 C4 C5 C6]. by constructor.
  - congruence.
  - rewrite (files_fileof (ph s)); done.
  - intros f Hf. rewrite (past_pastof (ph s)); auto.
  - intros f i Hf Hi. by apply files_same_data.
  - intros f i Hf Hi. cbn [apply_writes foldl].
    transitivity (vbyte (set_ph p' s) UBIK_WRITETRANS f i); [done|].
    rewrite vbyte_ph by (done || by apply files_same_data). by apply vbyte_clean.
Qed.

Lemma encs_snoc rs r : encs (rs ++ [r]) = encs rs ++ enc r.
Proof. unfold encs. rewrite map_app, concat_app. cbn. by rewrite app_nil_r. Qed.

Lemma log_of_snoc ws w : encs (log_of (ws ++ [w])) = encs (log_of ws) ++ enc (record_of w).
Proof. unfold log_of. rewrite map_app. apply (encs_snoc (RNew :: map record_of ws)). Qed.

Definition append_events (w : write) : list event :=
  let '(f, pos, d) := w in
  [EAppend LOGFILE (be32 LOGDATA ++ be32 f ++ be32 pos ++ be32 (Z.of_nat (length d)));
   EAppend LOGFILE d].

Definition write_pages (w : write) : Z := let '(f, pos, d) := w in pages pos (Z.of_nat (length d)).

Lemma append_events_effect w p b :
  buffered p b ->
  let p' := runs p (append_events w) in
  buf_fdcache p' = Some (LOGFILE, b ++ enc (record_of w)) /\ files p' = files p
  /\ past p' = past p /\ faults p' = faults p.
Proof.
  destruct w as [[f pos] d]. intros Hb. cbn [append_events runs foldl record_of enc].
  destruct (buffered_append p b (be32 LOGDATA ++ be32 f ++ be32 pos ++ be32 (Z.of_nat (length d))) Hb)
    as (B1 & B2 & B3 & B4).
  set (p1 := exec _ p) in *.
  destruct (buffered_append p1 _ d (or_introl B1)) as (D1 & D2 & D3 & D4).
  rewrite D1, D2, D3, D4. split_and!; try done. by rewrite <- !app_assoc.
Qed.

(** One write of the transaction. *)
Lemma write_ok_step C ws w t s :
  in_trans C ws s -> plain t -> write_ok w -> write_pages w <= Z.of_nat (free s) ->
  let '(f, pos, d) := w in
  exists s', udisk_write t f d pos s = (0, t, s') /\ in_trans C (ws ++ [w]) s'
    /\ ph s' = runs (ph s) (append_events w) /\ nbufs s' = nbufs s
    /\ rest_no_ph s' = rest_no_ph s /\ (free s <= Z.to_nat (write_pages w) + free s')%nat.
Proof.
  destruct w as [[f pos] d]. intros [I1 I2 I3 I4 I5 I6 I7 I8 I9] (T1 & T2 & T3) Hw Hfree.
  unfold udisk_write. rewrite T1, T2. change (negb (UBIK_WRITETRANS =? UBIK_WRITETRANS)) with false.
  cbn iota. pose proof (LogWriteData_eq (f, pos, d) (ph s) Hw I3) as E. cbn iota beta in E.
  rewrite E. change (negb (0 =? 0)) with false. cbn iota.
  unfold FindTrunc. rewrite T3. cbn [List.find fmap option_fmap option_map].
  destruct (append_events_effect (f, pos, d) (ph s) _ (or_introl I4)) as (A1 & A2 & A3 & A4).
  cbn [append_events] in A1, A2, A3, A4.
  set (p' := runs (ph s) _) in *.
  assert (Hc : cache_ok (set_ph p' s)) by (apply cache_ok_ph; [done|by apply files_same_data]).
  destruct Hw as (Hw1 & Hw2 & Hw3).
  destruct (write_loop_ok (length d) f pos d (set_ph p' s)) as (s' & -> & W & Wfree); try done; try lia.
  { cbn [ph set_ph]. congruence. }
  destruct W as [W1 W2 W3 W4 W5]. pose proof (rest_ph _ _ W3) as Hp'. cbn [ph set_ph] in Hp'.
  exists s'. split; [done|]. split; [|split_and!; try done].
  - constructor; try done; rewrite ?Hp'.
    + congruence.
    + by rewrite A1, log_of_snoc.
    + unfold rest_of in W3. cbn in W3. congruence.
    + by rewrite (files_fileof (ph s)).
    + intros g Hg. rewrite (past_pastof (ph s)) by done. auto.
    + intros g i Hg Hi. rewrite (files_same_data (ph s)) by done. by apply I8.
    + intros g i Hg Hi. rewrite W5 by done. unfold apply_writes. rewrite foldl_app. cbn [foldl].
      unfold apply_write at 1. destruct (_ && _); [done|].
      rewrite vbyte_ph by (done || by apply files_same_data). by apply I9.
  - unfold rest_of in W3. unfold rest_no_ph. cbn in W3. congruence.
Qed.

(** The commit record. *)
Definition end_events (v : ubik_version) : list event :=
  [EAppend LOGFILE (enc (REnd v)); EFlush LOGFILE; ESync LOGFILE].

Lemma LogEnd_eq v b p :
  faults p = [] -> buffered p b -> udisk_LogEnd v p = (0, runs p (end_events v)).
Proof.
  intros Hf Hb. unfold udisk_LogEnd. rewrite append_eq by done.
  change (negb (Z.of_nat (length (be32 LOGEND ++ be32 (v_epoch v) ++ be32 (v_counter v))) =? 12))
    with false. cbn iota.
  destruct (buffered_append p b (enc (REnd v)) Hb) as (B1 & B2 & B3 & B4). cbn [enc] in *.
  set (p1 := exec _ p) in *. unfold uphys_sync, uphys_buf_flush. rewrite B1, Z.eqb_refl.
  unfold syscall at 1, next_fault. rewrite B4, Hf. cbn [Z.ltb].
  change (0 <? 0) with false. cbn iota. unfold syscall, next_fault.
  assert (Hf2 : faults (exec (EFlush LOGFILE) p1) = []).
  { unfold exec, effect. rewrite B1, Z.eqb_refl. transitivity (faults p1); [done|congruence]. }
  rewrite Hf2. done.
Qed.

Lemma end_events_effect v b p :
  buffered p b ->
  let p' := runs p (end_events v) in
  buf_fdcache p' = Some (LOGFILE, [])
  /\ fileof p' LOGFILE = fileof p LOGFILE ++ b ++ enc (REnd v)
  /\ pastof p' LOGFILE = [] /\ faults p' = faults p
  /\ (forall f, f <> LOGFILE -> fileof p' f = fileof p f /\ pastof p' f = pastof p f).
Proof.
  intros Hb. cbn [end_events runs foldl].
  destruct (buffered_append p b (enc (REnd v)) Hb) as (B1 & B2 & B3 & B4).
  set (p1 := exec _ p) in *.
  assert (E2 : effect (EFlush LOGFILE) p1 = set_stream (Some (LOGFILE, []))
                 (put_file LOGFILE (fileof p1 LOGFILE ++ b ++ enc (REnd v)) p1)).
  { unfold effect. by rewrite B1, Z.eqb_refl. }
  assert (F2 : forall g, fileof (exec (EFlush LOGFILE) p1) g
            = if g =? LOGFILE then fileof p LOGFILE ++ b ++ enc (REnd v) else fileof p g).
  { intros g. unfold exec. rewrite E2. cbn [files set_stream].
    rewrite <- (files_fileof p p1 LOGFILE B2), <- (files_fileof p p1 g B2).
    apply (fileof_put LOGFILE (fileof p1 LOGFILE ++ b ++ enc (REnd v)) p1 g). }
  assert (P2 : forall g, g <> LOGFILE -> pastof (exec (EFlush LOGFILE) p1) g = pastof p g).
  { intros g Hg. unfold exec. rewrite E2. cbn [files set_stream].
    rewrite <- (past_pastof p p1 g B3).
    etransitivity; [apply (pastof_put LOGFILE (fileof p1 LOGFILE ++ b ++ enc (REnd v)) p1 g)|].
    by rewrite (proj2 (Z.eqb_neq g LOGFILE)). }
  assert (S2 : buf_fdcache (exec (EFlush LOGFILE) p1) = Some (LOGFILE, [])
               /\ faults (exec (EFlush LOGFILE) p1) = faults p1) by (unfold exec; by rewrite E2).
  split_and!.
  - apply S2.
  - rewrite fileof_sync, F2. done.
  - by rewrite pastof_sync.
  - transitivity (faults p1); [apply S2|done].
  - intros f Hf. rewrite fileof_sync, F2, pastof_sync, (proj2 (Z.eqb_neq f LOGFILE)) by done.
    split; [done|by apply P2].
Qed.

(** Labels and the emptying of the log. *)
Definition label_events (v : ubik_version) : list event := [EWrite 0 0 (encode_hdr v); ESync 0].
Definition clear_events : list event := [EFlush LOGFILE; ETrunc LOGFILE 64].

Lemma setlabel_eq v p :
  faults p = [] -> uphys_setlabel 0 v p = (0, runs p (label_events v)).
Proof. intros Hf. unfold uphys_setlabel, next_fault. by rewrite Hf. Qed.

Lemma pastof_write f off d p g :
  pastof (exec (EWrite f off d) p) g = if g =? f then fileof p f :: pastof p f else pastof p g.
Proof. apply (pastof_put f (pwrite (fileof p f) off d) p g). Qed.

Lemma label_effect v p :
  let p' := runs p (label_events v) in
  same_data p p' /\ (forall g, g <> 0 -> fileof p' g = fileof p g)
  /\ (forall g, pastof p' g = if g =? 0 then [] else pastof p g)
  /\ buf_fdcache p' = buf_fdcache p /\ faults p' = faults p
  /\ pread (fileof p' 0) 0 16 = encode_hdr v.
Proof.
  cbn [label_events runs foldl].
  assert (HF : forall g, fileof (exec (ESync 0) (exec (EWrite 0 0 (encode_hdr v)) p)) g
            = if g =? 0 then pwrite (fileof p 0) 0 (encode_hdr v) else fileof p g)
    by (intros g; rewrite fileof_sync; apply fileof_exec_write).
  split_and!; try done.
  - intros f i Hf Hi. unfold dbyte, HDRSIZE. rewrite HF.
    destruct (Z.eqb_spec f 0) as [->|]; [|done]. rewrite byte_pwrite, encode_hdr_length.
    destruct (Nat.ltb_spec (Z.to_nat (i + 64)) (0 + 16)); [lia|]. by rewrite andb_false_r.
  - intros g Hg. by rewrite HF, (proj2 (Z.eqb_neq g 0)).
  - intros g. rewrite pastof_sync, pastof_write. by destruct (g =? 0).
  - rewrite HF. change (0 =? 0) with true. cbn iota. unfold pread, pwrite. rewrite drop_0.
    change (take 0 (fileof p 0)) with (@nil Z). change (zeros (0 - length (fileof p 0))) with (@nil Z).
    apply (take_app_length (encode_hdr v)).
Qed.

Lemma clear_eq p :
  faults p = [] -> buf_fdcache p = Some (LOGFILE, []) ->
  uphys_truncate LOGFILE 0 p = (0, runs p clear_events).
Proof.
  intros Hf Hs. unfold uphys_truncate, uphys_buf_flush. rewrite Hs, Z.eqb_refl.
  unfold syscall at 1, next_fault. rewrite Hf. change (0 <? 0) with false. cbn iota.
  change (0 + HDRSIZE <? 0) with false. cbn iota. unfold syscall, next_fault.
  assert (Hf2 : faults (exec (EFlush LOGFILE) p) = []).
  { unfold exec, effect. by rewrite Hs, Z.eqb_refl. }
  by rewrite Hf2.
Qed.

Lemma clear_effect p :
  buf_fdcache p = Some (LOGFILE, []) ->
  let p' := runs p clear_events in
  length (fileof p' LOGFILE) = 64%nat /\ buf_fdcache p' = Some (LOGFILE, [])
  /\ faults p' = faults p
  /\ (forall f, f <> LOGFILE -> fileof p' f = fileof p f /\ pastof p' f = pastof p f).
Proof.
  intros Hs. cbn [clear_events runs foldl].
  assert (E2 : effect (EFlush LOGFILE) p = set_stream (Some (LOGFILE, []))
                 (put_file LOGFILE (fileof p LOGFILE ++ []) p)).
  { unfold effect. by rewrite Hs, Z.eqb_refl. }
  set (p1 := exec (EFlush LOGFILE) p).
  assert (H1 : buf_fdcache p1 = Some (LOGFILE, []) /\ faults p1 = faults p
               /\ forall f, f <> LOGFILE -> fileof p1 f = fileof p f /\ pastof p1 f = pastof p f).
  { unfold p1, exec. rewrite E2. split_and!; try done. intros f Hf.
    pose proof (fileof_put LOGFILE (fileof p LOGFILE ++ []) p f) as A.
    pose proof (pastof_put LOGFILE (fileof p LOGFILE ++ []) p f) as B.
    rewrite (proj2 (Z.eqb_neq f LOGFILE)) in A, B by done. by split. }
  destruct H1 as (S1 & S2 & S3). split_and!; try done.
  - rewrite fileof_exec_trunc. change (LOGFILE =? LOGFILE) with true. cbn iota.
    apply length_ftruncate.
  - intros f Hf. destruct (S3 f Hf) as [A B]. rewrite <- A, <- B.
    rewrite fileof_exec_trunc, (proj2 (Z.eqb_neq f LOGFILE)) by done. split; [done|].
    etransitivity; [apply (pastof_put LOGFILE (ftruncate (fileof p1 LOGFILE) 64) p1 f)|].
    by rewrite (proj2 (Z.eqb_neq f LOGFILE)).
Qed.

(** ** Writing the transaction out *)

Lemma page_events_past s l : forall p f,
  (forall j, j ∈ l -> b_file (buf s j) <> f) ->
  pastof (runs p (map (fun j => page_event (buf s j)) l)) f = pastof p f
  /\ fileof (runs p (map (fun j => page_event (buf s j)) l)) f = fileof p f.
Proof.
  induction l as [|k l IH]; intros p f Hl; [done|]. cbn [map runs foldl].
  destruct (IH (exec (page_event (buf s k)) p) f) as [E1 E2].
  { intros j Hj. apply Hl. by right. }
  unfold runs in E1, E2. rewrite E1, E2. change (page_event (buf s k))
    with (EWrite (b_file (buf s k)) (Z.to_nat (b_page (buf s k) * UBIK_PAGESIZE + HDRSIZE)) (b_data (buf s k))).
  rewrite pastof_write, fileof_exec_write.
  assert (f <> b_file (buf s k)) by (intros ->; by apply (Hl k (list_elem_of_here _ _))).
  by rewrite (proj2 (Z.eqb_neq f _)).
Qed.

Lemma page_events_stream s l : forall p,
  buf_fdcache (runs p (map (fun j => page_event (buf s j)) l)) = buf_fdcache p.
Proof.
  induction l as [|k l IH]; intros p; [done|]. cbn [map runs foldl]. unfold runs in IH.
  by rewrite IH.
Qed.

Lemma flush_sync_pending s :
  cache_ok s -> (forall f, f <> LOGFILE -> pastof (ph s) f = []) ->
  sync_pending (set_ph (runs (ph s) (flush_events s)) s).
Proof.
  intros Hc Hp f Hf. cbn [ph set_ph].
  destruct (decide (Exists (fun j => b_file (buf s j) = f) (dirty_bufs s))) as [He|Hn].
  - right. apply Exists_exists in He as (j & Hj & E). apply dirty_bufs_spec in Hj as [Hj Hd].
    by exists j.
  - left. unfold flush_events.
    destruct (page_events_past s (dirty_bufs s) (ph s) f) as [-> _]; [|auto].
    intros j Hj E. apply Hn, Exists_exists. by exists j.
Qed.

Lemma sync_events_effect evs : forall p,
  Forall is_sync evs ->
  (forall f, fileof (runs p evs) f = fileof p f) /\ buf_fdcache (runs p evs) = buf_fdcache p
  /\ pastof (runs p evs) LOGFILE = pastof p LOGFILE.
Proof.
  induction evs as [|e evs IH]; intros p Hs; [done|]. apply Forall_cons in Hs as [(f & -> & Hf) Hs].
  destruct (IH (exec (ESync f) p) Hs) as (A & B & C). cbn [runs foldl]. unfold runs in *.
  split_and!; try done. rewrite C, pastof_sync.
  by rewrite (proj2 (Z.eqb_neq LOGFILE f)) by (unfold LOGFILE; lia).
Qed.

Lemma flushed_clean s :
  flushed s -> (forall i, (i < nbufs s)%nat -> dirty (buf s i) = false) -> cache_ok s.
Proof.
  intros [F1 F2 F3 F4 F5 F6 F7] Hd. constructor; try done.
  - intros i Hi Hdi Hv. destruct (F6 i Hi Hdi Hv) as [?|(j & Hj & Hdj & _)]; [done|].
    by rewrite Hd in Hdj.
  - intros i Hi Hdi. by apply F5.
Qed.

(** The last part of a commit, after the commit record is on disk. *)
Lemma commit_apply_ok t s :
  cache_ok s -> unlocked s -> faults (ph s) = [] -> buf_fdcache (ph s) = Some (LOGFILE, []) ->
  (forall f, f <> LOGFILE -> pastof (ph s) f = []) -> plain t ->
  exists s' evs, commit_apply t s = (Return 0, set_done false t, s')
    /\ Forall is_sync evs
    /\ ph s' = runs (ph s) (flush_events s ++ evs ++ label_events (dversion s) ++ clear_events)
    /\ (forall f, f <> LOGFILE -> pastof (runs (ph s) (flush_events s ++ evs)) f = [])
    /\ cache_ok s' /\ unlocked s' /\ nbufs s' = nbufs s
    /\ (forall i, (i < nbufs s')%nat -> dirty (buf s' i) = false)
    /\ rest_no_ph s' = rest_no_ph s.
Proof.
  intros Hc Hu Hf Hb Hp (T1 & T2 & T3). unfold commit_apply.
  rewrite (DFlush_eq s Hc Hf). change (negb (0 =? 0)) with false. cbn iota.
  set (s1 := set_ph (runs (ph s) (flush_events s)) s).
  assert (Hf1 : faults (ph s1) = []) by (cbn [ph set_ph s1]; by rewrite runs_faults).
  assert (Hb1 : buf_fdcache (ph s1) = Some (LOGFILE, [])).
  { cbn [ph set_ph s1]. unfold flush_events. by rewrite page_events_stream. }
  assert (Hlt : (ndirty s1 < S (length (Buffers s1)))%nat) by (pose proof (ndirty_le s1); unfold nbufs in *; lia).
  destruct (DSync_loop_ok _ s1 (flush_flushed s Hc Hu) Hf1 ltac:(by apply (buffered_on_log _ []); left) Hlt
              (flush_sync_pending s Hc Hp)) as (s2 & evs & E1 & E2 & E3 & E4 & E5 & E6 & E7 & E8 & E9).
  unfold DSync. rewrite E1. change (negb (0 =? 0)) with false. cbn iota.
  unfold DoTruncs. rewrite T3. cbn [DoTruncs_list]. change (negb (0 =? 0)) with false. cbn iota.
  assert (Hf2 : faults (ph s2) = []) by (by rewrite E5, runs_faults).
  assert (Hb2 : buf_fdcache (ph s2) = Some (LOGFILE, [])).
  { rewrite E5. destruct (sync_events_effect evs (ph s1) E6) as (_ & -> & _). done. }
  rewrite (setlabel_eq (dversion s2) (ph s2) Hf2). change (negb (0 =? 0)) with false. cbn iota.
  destruct (label_effect (dversion s2) (ph s2)) as (L1 & L2 & L3 & L4 & L5 & L6).
  rewrite clear_eq by congruence. change (negb (0 =? 0)) with false. cbn iota.
  set (p4 := runs (runs (ph s2) (label_events (dversion s2))) clear_events).
  assert (Hd4 : same_data (ph s2) p4).
  { intros f i Hf0 Hi. rewrite <- L1 by done. unfold dbyte. f_equal.
    apply clear_effect; [congruence|unfold LOGFILE; lia]. }
  exists (set_ph p4 s2), evs. split_and!; try done.
  - f_equal. f_equal. destruct t; cbn in *. unfold set_truncs, set_done. cbn. congruence.
  - cbn [ph set_ph]. unfold p4. assert (Hv : dversion s2 = dversion s) by (unfold rest_no_ph in E7; cbn in E7; congruence).
    rewrite Hv, !runs_app, E5. done.
  - intros f Hne. rewrite runs_app. change (runs (ph s) (flush_events s)) with (ph s1).
    rewrite <- E5. by apply E9.
  - apply cache_ok_ph; [|done]. apply flushed_clean; [done|]. intros i Hi. apply E4. lia.
  - apply E2.
  - intros i Hi. apply E4. change (nbufs (set_ph p4 s2)) with (nbufs s2) in Hi. lia.
Qed.

(** *** The whole commit *)

Definition relabels (am_sync : bool) (s : dbase) : bool :=
  am_sync && (Z.land (urecovery_state s) UBIK_RECLABELDB =? 0).

(** The label a new sync site would write is in range. *)
Definition label_ok (am_sync : bool) (now : Z) (s : dbase) : Prop :=
  relabels am_sync s = true -> UBIK_MILESTONE <= epochTime s <= now.

(** The version before the commit counter is bumped. *)
Definition base_version (am_sync : bool) (s : dbase) : ubik_version :=
  if relabels am_sync s then mkVersion (epochTime s) 1 else dversion s.

Definition relabel_events (am_sync : bool) (s : dbase) : list event :=
  if relabels am_sync s then label_events (mkVersion (epochTime s) 1) else [].

Lemma in_trans_ph C ws p s :
  in_trans C ws s -> same_data (ph s) p -> fileof p LOGFILE = fileof (ph s) LOGFILE ->
  (forall f, f <> LOGFILE -> pastof p f = []) -> buf_fdcache p = buf_fdcache (ph s) ->
  faults p = faults (ph s) -> in_trans C ws (set_ph p s).
Proof.
  intros [I1 I2 I3 I4 I5 I6 I7 I8 I9] Hd Hl Hp Hb Hf. constructor; try done; cbn [ph set_ph].
  - by apply cache_ok_ph.
  - congruence.
  - congruence.
  - congruence.
  - intros f i Hf0 Hi. rewrite Hd by done. by apply I8.
  - intros f i Hf0 Hi. rewrite vbyte_ph by done. by apply I9.
Qed.

Lemma relabel_ok am now C ws s :
  in_trans C ws s -> label_ok am now s ->
  exists s0, relabel am now s = Some (0, s0) /\ in_trans C ws s0
    /\ ph s0 = runs (ph s) (relabel_events am s) /\ dversion s0 = base_version am s
    /\ Buffers s0 = Buffers s /\ readers s0 = readers s /\ activeTrans s0 = activeTrans s.
Proof.
  intros Hin Hl. unfold relabel, relabel_events, base_version. fold (relabels am s).
  destruct (relabels am s) eqn:E; [|by exists s].
  specialize (Hl E). destruct (epochTime s <? UBIK_MILESTONE) eqn:?; [lia|].
  destruct (now <? epochTime s) eqn:?; [lia|]. cbn [orb].
  rewrite setlabel_eq by (by apply Hin). change (negb (0 =? 0)) with false. cbn iota.
  destruct (label_effect (mkVersion (epochTime s) 1) (ph s)) as (L1 & L2 & L3 & L4 & L5 & L6).
  eexists. split; [reflexivity|]. split; [|done].
  set (p' := runs _ _) in *.
  assert (H1 : in_trans C ws (set_ph p' s)).
  { apply in_trans_ph; try done; [by apply L2|]. intros f Hf. rewrite L3.
    destruct (f =? 0); [done|by apply Hin]. }
  destruct H1 as [[[S1 S2 S3] C2 C3 C4 C5 C6] J2 J3 J4 J5 J6 J7 J8 J9].
  constructor; try done.
Qed.

Lemma flush_events_ph p s : flush_events (set_ph p s) = flush_events s.
Proof. done. Qed.

(** The system calls of a commit; [evs] are the syncs of the files written. *)
Definition commit_events (am : bool) (s : dbase) (evs : list event) : list event :=
  let v := bump 1 (base_version am s) in
  relabel_events am s ++ end_events v ++ flush_events s ++ evs ++ label_events v ++ clear_events.

Lemma commit_ok am now C ws t s :
  in_trans C ws s -> plain t -> label_ok am now s ->
  exists s' evs, udisk_commit am now t s = (Return 0, set_done false t, s')
    /\ Forall is_sync evs /\ ph s' = runs (ph s) (commit_events am s evs)
    /\ (forall f, f <> LOGFILE ->
          pastof (runs (ph s) (relabel_events am s ++ end_events (bump 1 (base_version am s))
                               ++ flush_events s ++ evs)) f = [])
    /\ cache_ok s' /\ unlocked s' /\ nbufs s' = nbufs s
    /\ (forall i, (i < nbufs s')%nat -> dirty (buf s' i) = false)
    /\ dversion s' = bump 1 (base_version am s) /\ DBWRITING s' = true
    /\ activeTrans s' = activeTrans s /\ readers s' = readers s.
Proof.
  intros Hin Ht Hl. unfold udisk_commit. pose proof Ht as (T1 & T2 & T3). rewrite T1, T2.
  change (UBIK_WRITETRANS =? UBIK_WRITETRANS) with true. cbn iota.
  destruct (relabel_ok am now C ws s Hin Hl) as (s0 & -> & Hin0 & Hp0 & Hv0 & Hb0 & Hr0 & Ha0).
  change (negb (0 =? 0)) with false. cbn iota. cbn [dversion set_version ph]. rewrite Hv0.
  set (v := bump 1 (base_version am s)). pose proof Hin0 as [I1 I2 I3 I4 I5 I6 I7 I8 I9].
  rewrite (LogEnd_eq v _ (ph s0) I3 (or_introl I4)). change (negb (0 =? 0)) with false. cbn iota.
  destruct (end_events_effect v _ (ph s0) (or_introl I4)) as (E1 & E2 & E3 & E4 & E5).
  set (p1 := runs (ph s0) (end_events v)) in *.
  set (s2 := set_ph p1 (set_version v s0)).
  assert (Hc2 : cache_ok s2).
  { assert (Hc : cache_ok (set_ph p1 s0)).
    { apply cache_ok_ph; [done|]. intros f i Hf Hi. unfold dbyte.
      destruct (E5 f) as [-> _]; [unfold LOGFILE; lia|done]. }
    destruct Hc as [[S1 S2 S3] C2 C3 C4 C5 C6]. constructor; try done. }
  destruct (commit_apply_ok t s2) as (s' & evs & A1 & A2 & A3 & A4 & A5 & A6 & A7 & A8 & A9);
    try done.
  { cbn [ph set_ph s2]. congruence. }
  { intros f Hf. cbn [ph set_ph s2]. destruct (E5 f Hf) as [_ ->]. by apply I7. }
  assert (Hfl : flush_events s2 = flush_events s).
  { unfold flush_events, dirty_bufs, all_bufs, buf. cbn [Buffers s2 set_ph set_version].
    by rewrite Hb0. }
  exists s', evs. rewrite A1. unfold commit_events. fold v. split_and!; try done.
  - rewrite A3, Hfl, !runs_app, <- Hp0. done.
  - intros f Hf. rewrite <- (A4 f Hf), Hfl, !runs_app, <- Hp0. done.
  - rewrite A7. unfold nbufs. cbn [Buffers s2 set_ph set_version]. by rewrite Hb0.
  - unfold rest_no_ph in A9. cbn in A9. congruence.
  - unfold rest_no_ph in A9. cbn in A9. congruence.
  - unfold rest_no_ph in A9. cbn in A9. congruence.
  - unfold rest_no_ph in A9. cbn in A9. congruence.
Qed.

Definition pages_of (ws : list write) : Z := foldr (fun w n => write_pages w + n) 0 ws.

Lemma write_pages_nonneg w : 0 <= write_pages w.
Proof. destruct w as [[f pos] d]. apply pages_nonneg. Qed.

Lemma pages_of_nonneg ws : 0 <= pages_of ws.
Proof.
  induction ws as [|w ws IH]; [done|]. cbn [pages_of foldr]. fold (pages_of ws).
  pose proof (write_pages_nonneg w). lia.
Qed.

Lemma write_all_ok C ws : forall ws0 t s,
  in_trans C ws0 s -> plain t -> Forall write_ok ws -> pages_of ws <= Z.of_nat (free s) ->
  exists s', write_all t ws s = (0, t, s') /\ in_trans C (ws0 ++ ws) s'
    /\ ph s' = runs (ph s) (concat (map append_events ws)) /\ nbufs s' = nbufs s
    /\ rest_no_ph s' = rest_no_ph s.
Proof.
  induction ws as [|w ws IH]; intros ws0 t s Hin Ht Hws Hp.
  - exists s. cbn. by rewrite app_nil_r.
  - apply Forall_cons in Hws as [Hw Hws]. cbn [pages_of foldr] in Hp. fold (pages_of ws) in Hp.
    pose proof (pages_of_nonneg ws). pose proof (write_pages_nonneg w).
    pose proof (write_ok_step C ws0 w t s Hin Ht Hw ltac:(lia)) as Hs.
    destruct w as [[f pos] d]. destruct Hs as (s1 & E1 & E2 & E3 & E4 & E5 & E6).
    cbn [write_all]. rewrite E1. change (0 =? 0) with true. cbn iota.
    destruct (IH (ws0 ++ [(f, pos, d)]) t s1 E2 Ht Hws ltac:(lia)) as (s2 & F1 & F2 & F3 & F4 & F5).
    exists s2. rewrite F1. split_and!; try done; try congruence.
    + by rewrite <- app_assoc in F2.
    + cbn [map concat]. rewrite runs_app, <- E3. done.
Qed.

Lemma same_data_trans p q r : same_data p q -> same_data q r -> same_data p r.
Proof. intros H1 H2 f i Hf Hi. rewrite H2 by done. by apply H1. Qed.

Lemma relabel_same_data am s p : same_data p (runs p (relabel_events am s)).
Proof. unfold relabel_events. destruct (relabels am s); [apply label_effect|done]. Qed.

Lemma end_same_data v b p : buffered p b -> same_data p (runs p (end_events v)).
Proof.
  intros Hb f i Hf Hi. destruct (end_events_effect v b p Hb) as (_ & _ & _ & _ & E).
  unfold dbyte. destruct (E f) as [-> _]; [unfold LOGFILE; lia|done].
Qed.

(** Flushing over any disk that holds the same data. *)
Lemma flush_over s p f i :
  cache_ok s -> same_data (ph s) p -> 0 <= f -> 0 <= i ->
  dbyte (runs p (flush_events s)) f i = vbyte s UBIK_WRITETRANS f i.
Proof.
  intros Hc Hp Hf Hi. rewrite <- (vbyte_ph p) by done.
  by rewrite <- (flush_bytes (set_ph p s)) by (done || by apply cache_ok_ph).
Qed.

Lemma sync_same_data evs p : Forall is_sync evs -> same_data p (runs p evs).
Proof.
  intros Hs f i Hf Hi. destruct (sync_events_effect evs p Hs) as (E & _). unfold dbyte. by rewrite E.
Qed.

Lemma relabel_stream am s p b :
  buffered p b -> buffered (runs p (relabel_events am s)) b.
Proof.
  unfold relabel_events, buffered. destruct (relabels am s); [|done].
  destruct (label_effect (mkVersion (epochTime s) 1) p) as (_ & _ & _ & -> & _). done.
Qed.

(** The state of the disk once the data has been written out. *)
Definition written_out (am : bool) (s : dbase) (evs : list event) : phys :=
  runs (ph s) (relabel_events am s ++ end_events (bump 1 (base_version am s))
               ++ flush_events s ++ evs).

Lemma written_out_bytes am C ws s evs f i :
  in_trans C ws s -> Forall is_sync evs -> 0 <= f -> 0 <= i ->
  dbyte (written_out am s evs) f i = apply_writes ws C f i.
Proof.
  intros Hin Hs Hf Hi. unfold written_out. rewrite !runs_app.
  rewrite sync_same_data by done. rewrite flush_over; [by apply Hin|apply Hin| |done|done].
  eapply same_data_trans; [apply (relabel_same_data am s)|].
  eapply end_same_data, relabel_stream. left. apply Hin.
Qed.

Lemma written_out_stream am C ws s evs :
  in_trans C ws s -> Forall is_sync evs -> buf_fdcache (written_out am s evs) = Some (LOGFILE, []).
Proof.
  intros Hin Hs. unfold written_out. rewrite !runs_app.
  destruct (sync_events_effect evs (runs (runs (runs (ph s) (relabel_events am s))
    (end_events (bump 1 (base_version am s)))) (flush_events s)) Hs) as (_ & -> & _).
  unfold flush_events. rewrite page_events_stream.
  eapply end_events_effect, relabel_stream. left. apply Hin.
Qed.

Lemma commit_final am C ws s evs :
  in_trans C ws s -> Forall is_sync evs ->
  let v := bump 1 (base_version am s) in
  let p := runs (ph s) (commit_events am s evs) in
  (forall f i, 0 <= f -> 0 <= i -> dbyte p f i = apply_writes ws C f i)
  /\ length (fileof p LOGFILE) = 64%nat /\ buf_fdcache p = Some (LOGFILE, []) /\ faults p = []
  /\ pread (fileof p 0) 0 16 = encode_hdr v
  /\ (forall f, f <> LOGFILE -> pastof p f = if f =? 0 then [] else pastof (written_out am s evs) f).
Proof.
  intros Hin Hs v p. pose proof (written_out_stream am C ws s evs Hin Hs) as Hb.
  assert (Hp : p = runs (runs (written_out am s evs) (label_events v)) clear_events).
  { unfold p, commit_events, written_out. by rewrite !runs_app. }
  destruct (label_effect v (written_out am s evs)) as (L1 & L2 & L3 & L4 & L5 & L6).
  destruct (clear_effect (runs (written_out am s evs) (label_events v))) as (C1 & C2 & C3 & C4);
    [congruence|]. rewrite <- Hp in C1, C2, C3, C4. split_and!; try done.
  - intros f i Hf Hi. unfold dbyte. destruct (C4 f) as [-> _]; [unfold LOGFILE; lia|].
    etransitivity; [apply (L1 f i Hf Hi)|by apply written_out_bytes].
  - rewrite Hp, !runs_faults. unfold written_out. rewrite runs_faults. apply Hin.
  - destruct (C4 0) as [-> _]; [done|done].
  - intros f Hf. destruct (C4 f Hf) as [_ ->]. apply L3.
Qed.

Lemma rest_fields s s' :
  rest_of s' = rest_of s -> DBWRITING s' = DBWRITING s /\ dversion s' = dversion s.
Proof. unfold rest_of. intros E. split; congruence. Qed.

(** ** Abort *)

Lemma DAbort_fold l : forall s,
  (forall j, j ∈ l -> (j < nbufs s)%nat) -> struct_ok s ->
  let s' := foldl (fun s i => if dirty (buf s i) then zap i (upd_buf i (set_dirty false) s) else s) s l in
  struct_ok s' /\ nbufs s' = nbufs s /\ rest_of s' = rest_of s
  /\ forall j, buf s' j = if bool_decide (j ∈ l) && dirty (buf s j)
                          then kill (set_dirty false (buf s j)) else buf s j.
Proof.
  induction l as [|k l IH]; intros s Hl Hs; [by split_and!|]. cbn [foldl].
  assert (Hk : (k < nbufs s)%nat) by (apply Hl; left).
  assert (H1 : let s1 := if dirty (buf s k) then zap k (upd_buf k (set_dirty false) s) else s in
     struct_ok s1 /\ nbufs s1 = nbufs s /\ rest_of s1 = rest_of s
     /\ forall j, buf s1 j = if (j =? k)%nat && dirty (buf s j)
                             then kill (set_dirty false (buf s j)) else buf s j).
  { cbv zeta. destruct (dirty (buf s k)) eqn:Ed.
    - destruct (zap_frame k (upd_buf k (set_dirty false) s)) as (A & B & C & _ & D).
      { by rewrite nbufs_upd. } { apply struct_upd; auto. }
      rewrite nbufs_upd in B. split_and!; try done.
      intros j. rewrite D. destruct (Nat.eqb_spec j k) as [->|Hne]; cbn [andb].
      + by rewrite Ed, buf_upd_eq.
      + by rewrite buf_upd_ne.
    - split_and!; try done. intros j. destruct (Nat.eqb_spec j k) as [->|]; [by rewrite Ed|done]. }
  destruct H1 as (A1 & A2 & A3 & A4).
  destruct (IH _ ltac:(intros j Hj; rewrite A2; apply Hl; by right) A1) as (B1 & B2 & B3 & B4).
  split_and!; try congruence. intros j. rewrite B4, A4.
  destruct (Nat.eqb_spec j k) as [->|Hne]; cbn [andb].
  - rewrite (bool_decide_eq_true_2 (k ∈ k :: l)) by left. cbn [andb].
    destruct (dirty (buf s k)) eqn:Ed; [cbn [dirty kill set_key set_dirty]; by rewrite andb_false_r|].
    by rewrite Ed, andb_false_r.
  - rewrite (bool_decide_ext (j ∈ k :: l) (j ∈ l)); [done|]. rewrite elem_of_cons. tauto.
Qed.

Lemma DAbort_ok s :
  cache_ok s -> unlocked s ->
  let s' := DAbort s in
  cache_ok s' /\ unlocked s' /\ nbufs s' = nbufs s /\ rest_of s' = rest_of s
  /\ forall i, (i < nbufs s)%nat -> dirty (buf s' i) = false.
Proof.
  intros Hc Hu s'. destruct (DAbort_fold (all_bufs s) s) as (A1 & A2 & A3 & A4).
  { intros j. by rewrite list_elem_of_In, in_all_bufs. } { apply Hc. }
  fold (DAbort s) in A1, A2, A3, A4. fold s' in A1, A2, A3, A4.
  assert (Hb : forall j, (j < nbufs s)%nat ->
            buf s' j = if dirty (buf s j) then kill (set_dirty false (buf s j)) else buf s j).
  { intros j Hj. rewrite A4, bool_decide_eq_true_2; [done|]. by rewrite list_elem_of_In, in_all_bufs. }
  assert (Hd : forall i, (i < nbufs s)%nat -> dirty (buf s' i) = false).
  { intros i Hi. rewrite Hb by done. by destruct (dirty (buf s i)) eqn:E. }
  assert (Hp : ph s' = ph s) by (by apply rest_ph).
  split_and!; try done.
  - constructor; rewrite ?A2; try done.
    + intros i Hi. rewrite Hb by done. destruct (dirty (buf s i)); by apply Hc.
    + intros i Hi. rewrite Hb by done. destruct (dirty (buf s i)); [done|by apply Hc].
    + intros i Hi _. rewrite Hp, Hb by done. destruct (dirty (buf s i)) eqn:E; [done|]. by apply Hc.
    + intros i Hi. by rewrite Hd.
    + intros i j Hi Hj. by rewrite Hd.
  - intros i Hi. rewrite A2 in Hi. rewrite Hb by done. destruct (dirty (buf s i)); by apply Hu.
Qed.

(** [LOGABORT] is appended, flushed and synced, then the log is emptied. *)
Lemma abort_log_ok b p :
  faults p = [] -> buffered p b ->
  exists p1, udisk_LogOpcode LOGABORT true p = (0, p1) /\ faults p1 = []
    /\ buf_fdcache p1 = Some (LOGFILE, [])
    /\ (forall f, f <> LOGFILE -> fileof p1 f = fileof p f /\ pastof p1 f = pastof p f).
Proof.
  intros Hf Hb. unfold udisk_LogOpcode. rewrite append_eq by done.
  change (negb (Z.of_nat (length (be32 LOGABORT)) =? 4)) with false. cbn iota.
  destruct (buffered_append p b (be32 LOGABORT) Hb) as (B1 & B2 & B3 & B4).
  set (p1 := exec _ p) in *. unfold uphys_sync, uphys_buf_flush. rewrite B1, Z.eqb_refl.
  unfold syscall at 1, next_fault. rewrite B4, Hf. change (0 <? 0) with false. cbn iota.
  assert (E2 : effect (EFlush LOGFILE) p1 = set_stream (Some (LOGFILE, []))
                 (put_file LOGFILE (fileof p1 LOGFILE ++ b ++ be32 LOGABORT) p1)).
  { unfold effect. by rewrite B1, Z.eqb_refl. }
  set (p2 := exec (EFlush LOGFILE) p1).
  assert (H2 : buf_fdcache p2 = Some (LOGFILE, []) /\ faults p2 = []
               /\ forall f, f <> LOGFILE -> fileof p2 f = fileof p f /\ pastof p2 f = pastof p f).
  { unfold p2, exec. rewrite E2. split_and!; [done|exact (eq_trans B4 Hf)|]. intros f Hne.
    pose proof (fileof_put LOGFILE (fileof p1 LOGFILE ++ b ++ be32 LOGABORT) p1 f) as A.
    pose proof (pastof_put LOGFILE (fileof p1 LOGFILE ++ b ++ be32 LOGABORT) p1 f) as B.
    rewrite (proj2 (Z.eqb_neq f LOGFILE)) in A, B by done.
    rewrite (files_fileof p p1 f B2) in A. rewrite (past_pastof p p1 f B3) in B. by split. }
  destruct H2 as (D1 & D2 & D3). unfold syscall, next_fault. rewrite D2.
  eexists. split; [reflexivity|]. split_and!; try done. intros f Hne. rewrite fileof_sync, pastof_sync.
  rewrite (proj2 (Z.eqb_neq f LOGFILE)) by done. by apply D3.
Qed.

(** ** The properties of local transactions *)

Lemma quiet_free s : quiet s -> free s = nbufs s.
Proof.
  intros Hq. unfold free, all_bufs, nbufs. rewrite <- (length_seq (length (Buffers s)) 0) at 2.
  f_equal. apply forallb_filter_id, forallb_forall. intros i Hi. apply in_seq in Hi.
  rewrite (q_clean s Hq); [done|]. unfold nbufs. lia.
Qed.

(** A whole transaction, with the states and system calls it goes through. *)
Lemma run_transaction_ok am now ws s :
  quiet s -> Forall write_ok ws -> pages_of ws <= Z.of_nat (nbufs s) -> label_ok am now s ->
  version_ok (bump 1 (base_version am s)) ->
  exists s2 s' evs, run_transaction am now ws s = (Return 0, s') /\ quiet s'
    /\ in_trans (dbyte (ph s)) ws s2
    /\ ph s2 = runs (ph s) (EAppend LOGFILE (enc RNew) :: concat (map append_events ws))
    /\ base_version am s2 = base_version am s /\ Forall is_sync evs
    /\ ph s' = runs (ph s2) (commit_events am s2 evs)
    /\ (forall f, f <> LOGFILE -> pastof (written_out am s2 evs) f = [])
    /\ dversion s' = bump 1 (base_version am s)
    /\ uphys_getlabel 0 (ph s') = ((0, Some (dversion s')), ph s').
Proof.
  intros Hq Hws Hpg Hl Hv. rewrite <- (quiet_free s Hq) in Hpg. unfold run_transaction.
  destruct (begin_ok s Hq) as (s1 & -> & Hin1 & Ht & Hp1 & Hn1 & Hfr1 & Hv1 & Hu1 & He1).
  set (t := mkTrans _ _ _ _ _) in *. rewrite <- Hfr1 in Hpg.
  destruct (write_all_ok _ ws [] t s1 Hin1 Ht Hws Hpg) as (s2 & -> & Hin2 & Hp2 & Hn2 & Hr2).
  change (0 =? 0) with true. cbn iota. cbn [app] in Hin2.
  assert (Hrest : relabels am s2 = relabels am s /\ base_version am s2 = base_version am s
                  /\ epochTime s2 = epochTime s).
  { unfold rest_no_ph in Hr2. injection Hr2 as R1 R2 R3 R4 R5 R6 R7.
    unfold base_version, relabels. rewrite R1, R6, R7, Hv1, Hu1, He1. done. }
  destruct Hrest as (Hre & Hba & Hep).
  assert (Hl2 : label_ok am now s2) by (unfold label_ok; rewrite Hre, Hep; exact Hl).
  destruct (commit_ok am now _ ws t s2 Hin2 Ht Hl2)
    as (s3 & evs & -> & Hs & Hp3 & Hpast & C1 & C2 & C3 & C4 & C5 & C6 & C7 & C8).
  unfold udisk_end. change (TRDONE (set_done false t)) with true. cbn iota.
  change (t_type (set_done false t) =? UBIK_WRITETRANS) with true.
  change (DBWRITING (unthread (set_done false t) s3)) with (DBWRITING s3). rewrite C6. cbn [andb].
  destruct (commit_final am _ ws s2 evs Hin2 Hs) as (F1 & F2 & F3 & F4 & F5 & F6).
  rewrite <- Hp3 in F1, F2, F3, F4, F5, F6. rewrite Hba in F5, C5.
  exists s2. eexists _, evs. split; [reflexivity|]. split; [|split_and!; try done].
  - constructor; try done.
    + destruct C1 as [[S1 S2 S3] D2 D3 D4 D5 D6]. by constructor.
    + left. exact F3.
    + intros f Hf. transitivity (pastof (ph s3) f); [done|]. rewrite (F6 f Hf).
      destruct (f =? 0); [done|by apply Hpast].
  - by rewrite Hp2, Hp1.
  - cbn [ph set_writing unthread set_active dversion]. unfold uphys_getlabel, next_fault.
    rewrite F4, F5, C5. by rewrite decode_encode_hdr.
Qed.


(** [C9] Isolation: while a write transaction is in progress, a read transaction
    reads the committed data and the write transaction its own writes; reading
    disturbs neither. *)
Theorem ubik_read_isolation C ws s t f pos n :
  in_trans C ws s -> has_room s -> TRDONE t = false ->
  0 <= f -> 0 <= pos -> 0 <= n -> pos + n < 2 ^ 31 ->
  t_type t = UBIK_READTRANS \/ t_type t = UBIK_WRITETRANS ->
  exists s', udisk_read t f pos n s
      = (0, range (if t_type t =? UBIK_READTRANS then C f else apply_writes ws C f) pos (Z.to_nat n), s')
    /\ in_trans C ws s'.
Proof.
  intros Hin Hroom Ht Hf Hp Hn Hb Hty. unfold udisk_read. rewrite Ht.
  destruct (read_loop_ok (Z.to_nat n) (t_type t) f pos n [] s) as (s' & -> & Hpr);
    try done; try lia; try apply Hin.
  exists s'. split.
  - cbn [app]. f_equal. f_equal. unfold range. apply map_ext_in. intros k _.
    destruct Hty as [-> | ->].
    + change (UBIK_READTRANS =? UBIK_READTRANS) with true. cbn iota.
      rewrite vbyte_read by lia. apply Hin; lia.
    + change (UBIK_WRITETRANS =? UBIK_READTRANS) with false. cbn iota. apply Hin; lia.
  - destruct Hpr as [P1 P2 P3 P4 P5 P6]. destruct Hin as [I1 I2 I3 I4 I5 I6 I7 I8 I9].
    pose proof (rest_ph _ _ P3) as Hph. constructor; rewrite ?Hph; try done.
    + by rewrite (proj1 (rest_fields _ _ P3)).
    + intros g i Hg Hi. rewrite vbyte_write, P6, <- vbyte_write. by apply I9.
Qed.

(** [C10] An aborted transaction leaves no trace: the database, its version and
    its files are as before, no dirty buffer is left and the log is empty. *)
Theorem ubik_transaction_aborts C ws t s :
  in_trans C ws s -> plain t ->
  exists s', udisk_abort t s = (Return 0, set_done true t, s')
    /\ (forall f i, 0 <= f -> 0 <= i -> dbyte (ph s') f i = C f i)
    /\ (forall f i, 0 <= f -> 0 <= i -> vbyte s' UBIK_WRITETRANS f i = C f i)
    /\ dversion s' = dversion s
    /\ exists s'', udisk_end (set_done true t) s' = (Return 0, s'') /\ quiet s''.
Proof.
  intros [I1 I2 I3 I4 I5 I6 I7 I8 I9] (T1 & T2 & T3). unfold udisk_abort. rewrite T1, T2, I5.
  change (UBIK_WRITETRANS =? UBIK_WRITETRANS) with true. cbn [andb].
  destruct (abort_log_ok _ (ph s) I3 (or_introl I4)) as (p1 & -> & A1 & A2 & A3).
  rewrite clear_eq by done. change (negb (0 =? 0)) with false. cbn iota.
  destruct (clear_effect p1 A2) as (L1 & L2 & L3 & L4). set (p2 := runs p1 clear_events) in *.
  assert (Hd : same_data (ph s) p2).
  { intros f i Hf Hi. unfold dbyte. destruct (L4 f) as [-> _]; [unfold LOGFILE; lia|].
    destruct (A3 f) as [-> _]; [unfold LOGFILE; lia|done]. }
  destruct (DAbort_ok (set_ph p2 s)) as (D1 & D2 & D3 & D4 & D5); [by apply cache_ok_ph|done|].
  set (s' := DAbort (set_ph p2 s)) in *.
  assert (Hp' : ph s' = p2) by (by rewrite (rest_ph _ _ D4)).
  assert (Hclean : forall i, (i < nbufs s')%nat -> dirty (buf s' i) = false).
  { intros i Hi. apply D5. by rewrite <- D3. }
  assert (Hdisk : forall f i, 0 <= f -> 0 <= i -> dbyte (ph s') f i = C f i).
  { intros f i Hf Hi. rewrite Hp', Hd by done. by apply I8. }
  destruct (rest_fields _ _ D4) as [Hw Hv]. change (DBWRITING (set_ph p2 s)) with (DBWRITING s) in Hw; rewrite I5 in Hw.
  exists s'. split_and!; try done.
  - intros f i Hf Hi. rewrite vbyte_clean by done. by apply Hdisk.
  - unfold udisk_end. change (TRDONE (set_done true t)) with true. cbn iota.
    change (t_type (set_done true t)) with (t_type t). rewrite T2.
    change (DBWRITING (unthread (set_done true t) s')) with (DBWRITING s'). rewrite Hw.
    change (UBIK_WRITETRANS =? UBIK_WRITETRANS) with true. cbn [andb].
    eexists. split; [reflexivity|]. constructor; try done; cbn [ph set_writing unthread set_active]; rewrite ?Hp'.
    + destruct D1 as [[S1 S2 S3] E2 E3 E4 E5 E6]. by constructor.
    + rewrite L3. exact A1.
    + by left.
    + done.
    + intros f Hf. destruct (L4 f Hf) as [_ ->]. destruct (A3 f Hf) as [_ ->]. by apply I7.
Qed.

(** ** A server that has just started *)

Lemma init_buf n p v e i : buf (udisk_Init n p v e) i = mkBuffer BADFID 0 (zeros 1024) 0 false 0
  \/ (n <= i)%nat.
Proof.
  unfold buf, udisk_Init. cbn [Buffers]. destruct (decide (i < n)%nat); [left|right; lia].
  rewrite (nth_indep _ _ (mkBuffer BADFID 0 (zeros 1024) 0 false 0)) by (by rewrite repeat_length).
  apply nth_repeat.
Qed.

Lemma init_quiet n p v e :
  faults p = [] -> buffered p [] -> length (fileof p LOGFILE) = 64%nat ->
  (forall f, f <> LOGFILE -> pastof p f = []) -> quiet (udisk_Init n p v e).
Proof.
  intros Hf Hb Hl Hp. set (s := udisk_Init n p v e).
  assert (Hn : nbufs s = n) by (unfold nbufs, s; cbn; apply repeat_length).
  assert (Hbuf : forall i, (i < nbufs s)%nat -> buf s i = mkBuffer BADFID 0 (zeros 1024) 0 false 0).
  { intros i Hi. rewrite Hn in Hi. destruct (init_buf n p v e i); [done|lia]. }
  constructor; try done; [|intros i Hi; by rewrite Hbuf|intros i Hi; by rewrite Hbuf].
  constructor; try (intros i Hi; rewrite Hbuf by done; done).
  - constructor.
    + by rewrite Hn.
    + intros h i Hi. unfold chain, s in Hi. cbn in Hi. rewrite lookup_empty in Hi.
      by apply not_elem_of_nil in Hi.
    + intros i Hi. by rewrite Hbuf.
  - intros i j Hi Hj. by rewrite Hbuf.
Qed.

(** A small database: 100 bytes of data, labelled 1.1, and an empty log. *)
Definition demo_disk : phys := disk_with (encode_hdr (mkVersion 1 1) ++ zeros 148) (zeros 64).
Definition demo : dbase := udisk_Init 20 demo_disk (mkVersion 1 1) 1600000000.
Definition demo_writes : list write := [(0, 10, [1; 2; 3]); (0, 1020, [4; 5; 6; 7; 8; 9])].

Lemma demo_quiet : quiet demo.
Proof.
  apply init_quiet; [reflexivity|right; split; reflexivity|reflexivity|].
  intros f _. unfold pastof. cbn. by rewrite lookup_empty.
Qed.

Lemma demo_writes_ok : Forall write_ok demo_writes.
Proof. repeat constructor; vm_compute; congruence. Qed.


(** The state after the writes of that transaction. *)
Definition demo_middle : dbase :=
  snd (write_all (mkTrans 0 UBIK_WRITETRANS false false []) demo_writes
         (snd (udisk_begin UBIK_WRITETRANS demo))).

Lemma demo_in_trans : in_trans (dbyte (ph demo)) demo_writes demo_middle.
Proof.
  unfold demo_middle.
  destruct (begin_ok demo demo_quiet) as (s1 & E1 & Hin1 & Ht & _ & _ & Hfr & _).
  rewrite E1. cbn [snd]. change (next_tid demo) with 0%nat in *.
  destruct (write_all_ok _ demo_writes [] _ s1 Hin1 Ht demo_writes_ok) as (s2 & E2 & Hin2 & _).
  { rewrite Hfr. vm_compute. congruence. }
  rewrite E2. exact Hin2.
Qed.

Lemma ubik_read_isolation_witness :
  exists s1 s2,
    udisk_read (mkTrans 1 UBIK_READTRANS false false []) 0 9 3 demo_middle = (0, [0; 0; 0], s1)
    /\ udisk_read (mkTrans 0 UBIK_WRITETRANS false false []) 0 9 3 demo_middle = (0, [0; 1; 2], s2).
Proof.
  assert (Hroom : has_room demo_middle) by (exists 5%nat; split; vm_compute; [lia|reflexivity]).
  destruct (ubik_read_isolation (dbyte (ph demo)) demo_writes demo_middle
              (mkTrans 1 UBIK_READTRANS false false []) 0 9 3) as (s1 & E1 & _);
    [exact demo_in_trans|exact Hroom|reflexivity|lia|lia|lia|lia|left; reflexivity|].
  destruct (ubik_read_isolation (dbyte (ph demo)) demo_writes demo_middle
              (mkTrans 0 UBIK_WRITETRANS false false []) 0 9 3) as (s2 & E2 & _);
    [exact demo_in_trans|exact Hroom|reflexivity|lia|lia|lia|lia|right; reflexivity|].
  exists s1, s2. split; [rewrite E1|rewrite E2]; do 2 f_equal; vm_compute; reflexivity.
Defined.

Lemma ubik_transaction_aborts_witness :
  exists s', udisk_abort (mkTrans 0 UBIK_WRITETRANS false false []) demo_middle
      = (Return 0, mkTrans 0 UBIK_WRITETRANS true true [], s')
    /\ dbyte (ph s') 0 10 = 0.
Proof.
  destruct (ubik_transaction_aborts (dbyte (ph demo)) demo_writes
              (mkTrans 0 UBIK_WRITETRANS false false []) demo_middle) as (s' & E & Hb & _).
  - exact demo_in_trans.
  - repeat split.
  - exists s'. split; [exact E|]. rewrite Hb; [vm_compute; reflexivity|lia|lia].
Defined.

(** ** Two things that go wrong *)

(** A database whose first page is all sevens. *)
Definition sevens_disk (fl : list bool) : phys :=
  mkPhys (<[LOGFILE := zeros 64]> (<[0 := encode_hdr (mkVersion 1 1) ++ zeros 48 ++ repeat 7 1024]> ∅))
    None ∅ fl [].
Definition sevens (fl : list bool) : dbase :=
  udisk_Init 4 (sevens_disk fl) (mkVersion 1 1) 1600000000.

(** When reading the page for a small write fails (the fourth system call
    below: the log has taken three appends), [udisk_write] carries on with an
    empty page and reports success; the commit then wipes the rest of the page. *)
Example write_after_read_error_wipes_page :
  let '(o, s') := run_transaction false 0 [(0, 10, [1])] (sevens [false; false; false; true]) in
  o = Return 0 /\ dbyte (ph (sevens [])) 0 500 = 7
  /\ dbyte (ph s') 0 10 = 1 /\ dbyte (ph s') 0 500 = 0.
Proof. vm_compute. repeat split. Qed.

(** A transaction that truncates the file. *)
Definition run_truncate (len : Z) (s : dbase) : outcome * dbase :=
  match udisk_begin UBIK_WRITETRANS s with
  | (code, None, s1) => (Return code, s1)
  | (_, Some t, s1) =>
      let '(code, t2, s2) := udisk_truncate t 0 len s1 in
      let '(o, t3, s3) := udisk_commit false 0 t2 s2 in
      match o with Return 0 => udisk_end t3 s3 | _ => (o, s3) end
  end.

(** After a truncation within a page the buffer of that page keeps the old data:
    a reader that had the page cached sees sevens where the file has ended. *)
Example truncated_page_stays_cached :
  let rd := mkTrans 9 UBIK_READTRANS false false [] in
  let '(_, _, s1) := udisk_read rd 0 0 1 (sevens []) in
  let '(o, s2) := run_truncate 50 s1 in
  o = Return 0 /\ dbyte (ph s2) 0 60 = 0 /\ fst (udisk_read rd 0 60 1 s2) = (0, [7]).
Proof. vm_compute. repeat split. Qed.
