(* ===== verification/UbikCrash.v ===== *)
(** * Ubik transactions survive crashes

    A crash loses what was buffered and, of what was written since a file was
    last synced, keeps any part: each byte of a database file is one the file
    had since then, and the log, which is only appended to and emptied, is a
    prefix of one of its versions.  Restarting replays the log.  The theorem of
    this file: whenever the crash happens in a transaction, replaying gives the
    database before or after it, and the one after it once the commit has
    returned.  The one case left out is a commit record of which only the opcode
    reached the disk, about which [replay_torn_commit] says what happens. *)

From S2P Require Import Prelude UbikVote UbikPhys UbikLog UbikDisk UbikCommit.
From stdpp Require Import prelude list gmap.
From Stdlib Require Import ZArith Lia.

#[local] Open Scope Z_scope.

Definition versions (p : phys) (f : Z) : list file := fileof p f :: pastof p f.

(** What is in the stdio buffer of the log. *)
Definition pending (p : phys) : list Z :=
  match buf_fdcache p with
  | Some (g, b) => if g =? LOGFILE then b else []
  | None => []
  end.

(** The log file after a crash. *)
Definition log_image (p : phys) (g : file) : Prop :=
  match pastof p LOGFILE, pending p with
  | [], [] => g = fileof p LOGFILE
  | _, _ => exists v, (v = fileof p LOGFILE ++ pending p \/ v ∈ pastof p LOGFILE) /\ g `prefix_of` v
  end.

(** The disk a restarted server finds. *)
Record crash_image (p q : phys) : Prop := {
  ci_faults : faults q = [];
  ci_stream : buf_fdcache q = None;
  ci_log : log_image p (fileof q LOGFILE);
  ci_data : forall f i, 0 <= f -> exists v, v ∈ versions p f /\ byte (fileof q f) i = byte v i
}.

(** A commit record cut after its opcode. *)
Definition torn (q : phys) : Prop :=
  exists rs t, Forall body_record rs /\ (length t < 8)%nat
    /\ drop 64 (fileof q LOGFILE) = encs rs ++ be32 LOGEND ++ t.

(** Replaying the log of [q] gives the contents [D]. *)
Definition recovers_to (D : contents) (q : phys) : Prop :=
  exists fuel0, forall fuel, (fuel0 <= fuel)%nat ->
    exists q', ReplayLog fuel q = (Return 0, q')
      /\ forall f i, 0 <= f -> 0 <= i -> dbyte q' f i = D f i.

(** ** Redoing writes *)

Lemma apply_writes_cases ws f i :
  (exists k, forall D, apply_writes ws D f i = k) \/ (forall D, apply_writes ws D f i = D f i).
Proof.
  induction ws as [|w ws IH] using rev_ind; [by right|].
  assert (E : forall D, apply_writes (ws ++ [w]) D f i = apply_write (apply_writes ws D) w f i)
    by (intros D; unfold apply_writes; by rewrite foldl_app).
  destruct w as [[g pos] d]. unfold apply_write in E.
  destruct ((f =? g) && (pos <=? i) && (i <? pos + Z.of_nat (length d))).
  - left. eexists. exact E.
  - destruct IH as [[k IH]|IH]; [left; exists k|right]; intros D; by rewrite E, IH.
Qed.

(** Redoing over any mixture of old and new bytes gives the new ones. *)
Lemma apply_writes_mix ws C D f i :
  D f i = C f i \/ D f i = apply_writes ws C f i ->
  apply_writes ws D f i = apply_writes ws C f i.
Proof.
  intros H. destruct (apply_writes_cases ws f i) as [[k E]|E]; [by rewrite !E|].
  rewrite !E in *. by destruct H.
Qed.

Lemma dbyte_redo_write F w f i :
  write_ok w -> 0 <= i ->
  byte (redo_record F (record_of w) f) (Z.to_nat (i + HDRSIZE))
  = apply_write (fun g k => byte (F g) (Z.to_nat (k + HDRSIZE))) w f i.
Proof.
  destruct w as [[g pos] d]. intros (_ & Hp & _) Hi. cbn [record_of redo_record apply_write].
  unfold HDRSIZE. destruct (Z.eqb_spec f g) as [->|]; cbn [andb]; [|done].
  destruct d as [|x d].
  { destruct (Z.leb_spec pos i), (Z.ltb_spec i (pos + Z.of_nat (length (@nil Z)))); cbn in *; try done. lia. }
  rewrite byte_pwrite.
  destruct (Nat.leb_spec (Z.to_nat (pos + 64)) (Z.to_nat (i + 64))),
    (Nat.ltb_spec (Z.to_nat (i + 64)) (Z.to_nat (pos + 64) + length (x :: d))),
    (Z.leb_spec pos i), (Z.ltb_spec i (pos + Z.of_nat (length (x :: d)))); cbn [andb]; try lia; try done.
  f_equal. lia.
Qed.

Lemma apply_write_ext C D w f i : C f i = D f i -> apply_write C w f i = apply_write D w f i.
Proof. intros E. destruct w as [[g pos] d]. cbn. by destruct (_ && _). Qed.

Lemma dbyte_redo ws : forall F f i,
  Forall write_ok ws -> 0 <= i ->
  byte (redo_records (map record_of ws) F f) (Z.to_nat (i + HDRSIZE))
  = apply_writes ws (fun g k => byte (F g) (Z.to_nat (k + HDRSIZE))) f i.
Proof.
  induction ws as [|w ws IH] using rev_ind; intros F f i Hws Hi; [done|].
  apply Forall_app in Hws as [Hws Hw]. apply Forall_cons in Hw as [Hw _].
  unfold redo_records, apply_writes. rewrite map_app, !foldl_app. cbn [map foldl].
  rewrite dbyte_redo_write by done. apply apply_write_ext. by apply IH.
Qed.

Lemma redo_new rs F : redo_records (RNew :: rs) F = redo_records rs (redo_record F RNew).
Proof. done. Qed.

Lemma dbyte_redo_log ws F f i :
  Forall write_ok ws -> 0 <= i ->
  byte (redo_records (log_of ws) F f) (Z.to_nat (i + HDRSIZE))
  = apply_writes ws (fun g k => byte (F g) (Z.to_nat (k + HDRSIZE))) f i.
Proof.
  intros Hws Hi. unfold log_of. rewrite redo_new, dbyte_redo by done. done.
Qed.

Lemma dbyte_label v F f i :
  0 <= i -> byte (redo_label v F f) (Z.to_nat (i + HDRSIZE)) = byte (F f) (Z.to_nat (i + HDRSIZE)).
Proof.
  intros Hi. unfold redo_label, HDRSIZE. destruct (Z.eqb_spec f 0) as [->|]; [|done].
  rewrite byte_pwrite, encode_hdr_length.
  destruct (Nat.ltb_spec (Z.to_nat (i + 64)) (0 + 16)); [lia|]. by rewrite andb_false_r.
Qed.

(** ** Replaying what a crash leaves *)

(** The records of a log and how it ends. *)
Definition full_log (ws : list write) (e : log_record) : list Z := encs (log_of ws) ++ enc e.

Definition log_end (e : log_record) : Prop :=
  match e with REnd v => version_ok v | RAbort => True | _ => False end.

Definition log_fits (ws : list write) : Prop :=
  Z.of_nat (length (encs (log_of ws))) < 2 ^ 31 - 8192.

Lemma log_at_image q l :
  faults q = [] -> buf_fdcache q = None -> drop 64 (fileof q LOGFILE) = l ->
  Z.of_nat (length l) < 2 ^ 31 - 4096 -> log_at q 0 l.
Proof. intros Hf Hs Hl Hb. unfold log_at. split_and!; try done; lia. Qed.

(** A log that stops before its end record changes nothing. *)
Lemma replay_partial ws e q l D :
  Forall write_ok ws -> log_fits ws -> log_end e ->
  faults q = [] -> buf_fdcache q = None -> drop 64 (fileof q LOGFILE) = l ->
  l `prefix_of` full_log ws e -> ~ torn q -> l <> full_log ws e \/ e = RAbort ->
  (forall f i, 0 <= f -> 0 <= i -> dbyte q f i = D f i) -> recovers_to D q.
Proof.
  intros Hws Hfit He Hf Hs Hl Hp Hnt Hne HD. exists (S (S (S (S (length ws))))). intros fuel Hfu.
  assert (Hbody : Forall body_record (log_of ws)) by (by apply log_of_ok).
  assert (Hlen : length (log_of ws) = S (length ws)) by (unfold log_of; cbn; by rewrite length_map).
  assert (Hb : Z.of_nat (length l) < 2 ^ 31 - 4096).
  { apply prefix_length in Hp. unfold full_log in Hp. rewrite length_app in Hp.
    unfold log_fits in Hfit. assert ((length (enc e) <= 12)%nat) by (destruct e; done || (cbn; lia)).
    mlia. }
  pose proof (log_at_image q l Hf Hs Hl Hb) as Hat.
  assert (Hscan : scan_log fuel 0 q = (Some false, q)).
  { destruct (prefix_app_cases _ _ _ Hp) as [[Hlt Hpr]|(g & Hg & Hpr)].
    - apply (scan_uncommitted (log_of ws) (mkVersion 0 0) l); try done; try lia.
      + by apply prefix_app_r.
      + unfold log_fits in Hfit. mlia.
    - rewrite Hg in Hat. apply (scan_stopped (log_of ws) g); [done|done|lia|].
      destruct (decide (length g < 4)%nat) as [?|Hg4]; [by left|right].
      destruct e as [| | | |v]; try done.
      + apply prefix_length_eq; [done|]. cbn in *. lia.
      + exfalso. destruct Hne as [Hne|]; [|done].
        destruct (prefix_app_cases _ _ _ Hpr) as [[Hc _]|(t & Ht & Hpt)]; [cbn in Hc; lia|].
        destruct (decide (length t < 8)%nat) as [Ht8|Ht8].
        * apply Hnt. exists (log_of ws), t. by rewrite Hl, Hg, Ht.
        * apply Hne. rewrite Hg, Ht. unfold full_log. cbn [enc].
          apply prefix_length_eq in Hpt; [by rewrite Hpt|]. cbn in *. lia. }
  destruct (ReplayLog_scan_false q fuel Hscan Hf Hs) as (q' & E & Hq & _).
  exists q'. split; [done|]. intros f i Hf0 Hi. unfold dbyte.
  rewrite Hq by (unfold LOGFILE; lia). by apply HD.
Qed.

(** A committed log is redone, over any mixture of old and new data. *)
Lemma replay_full ws v q C :
  Forall write_ok ws -> log_fits ws -> version_ok v ->
  faults q = [] -> buf_fdcache q = None ->
  drop 64 (fileof q LOGFILE) = full_log ws (REnd v) ->
  (forall f i, 0 <= f -> 0 <= i -> dbyte q f i = C f i \/ dbyte q f i = apply_writes ws C f i) ->
  recovers_to (apply_writes ws C) q.
Proof.
  intros Hws Hfit Hv Hf Hs Hl HD. exists (S (S (length ws))). intros fuel Hfu.
  assert (Hlen : length (log_of ws) = S (length ws)) by (unfold log_of; cbn; by rewrite length_map).
  assert (Hat : log_at q 0 (encs (log_of ws) ++ enc (REnd v) ++ [])).
  { rewrite app_nil_r. apply log_at_image; try done. unfold full_log, log_fits in *.
    rewrite length_app. cbn [enc]. rewrite !length_app, !be32_length. mlia. }
  destruct (ReplayLog_committed (log_of ws) v [] q fuel) as (q' & E & Hq & _); try done;
    [by apply log_of_ok|lia|].
  exists q'. split; [done|]. intros f i Hf0 Hi. unfold dbyte.
  rewrite Hq by (unfold LOGFILE; lia). rewrite dbyte_label, dbyte_redo_log by done.
  apply (apply_writes_mix ws C). by apply HD.
Qed.

(** ** The states of a transaction *)

(** A log whose replay does not change the contents [D]. *)
Definition stale (D : contents) (l : list Z) : Prop :=
  exists ws e, Forall write_ok ws /\ log_fits ws /\ log_end e /\ l `prefix_of` full_log ws e
    /\ (forall f i, 0 <= f -> 0 <= i -> apply_writes ws D f i = D f i).

(** Every version of every database file holds the contents [D]. *)
Definition data_all (D : contents) (p : phys) : Prop :=
  forall f v i, 0 <= f -> v ∈ versions p f -> 0 <= i -> byte v (Z.to_nat (i + HDRSIZE)) = D f i.

Definition log_version (p : phys) (v : file) : Prop :=
  v = fileof p LOGFILE ++ pending p \/ v ∈ pastof p LOGFILE.

(** Crash-safe with contents [D]. *)
Definition settled (D : contents) (p : phys) : Prop :=
  data_all D p /\ forall v, log_version p v -> stale D (drop 64 v).

(** Before the log is synced: the log may hold part of the transaction. *)
Definition opening (C : contents) (ws : list write) (ver : ubik_version) (p : phys) : Prop :=
  data_all C p
  /\ forall v, log_version p v ->
       stale C (drop 64 v) \/ drop 64 v `prefix_of` full_log ws (REnd ver).

(** The log is synced and committed; the data is partly written. *)
Definition sealed (C : contents) (ws : list write) (ver : ubik_version) (p : phys) : Prop :=
  pastof p LOGFILE = [] /\ pending p = [] /\ drop 64 (fileof p LOGFILE) = full_log ws (REnd ver)
  /\ forall f v i, 0 <= f -> v ∈ versions p f -> 0 <= i ->
       byte v (Z.to_nat (i + HDRSIZE)) = C f i
       \/ byte v (Z.to_nat (i + HDRSIZE)) = apply_writes ws C f i.

Lemma recovers_to_ext D E q :
  (forall f i, 0 <= f -> 0 <= i -> D f i = E f i) -> recovers_to D q -> recovers_to E q.
Proof.
  intros H [n Hn]. exists n. intros fuel Hf. destruct (Hn fuel Hf) as (q' & E1 & E2).
  exists q'. split; [done|]. intros f i Hf0 Hi. rewrite E2 by done. by apply H.
Qed.

Lemma prefix_drop {A} n (g v : list A) : g `prefix_of` v -> drop n g `prefix_of` drop n v.
Proof. intros [k ->]. rewrite skipn_app. by eexists. Qed.

Lemma image_version p q :
  crash_image p q -> exists v, log_version p v /\ fileof q LOGFILE `prefix_of` v.
Proof.
  intros [_ _ Hl _]. unfold log_image in Hl. unfold log_version.
  destruct (pastof p LOGFILE) as [|v0 past] eqn:Ep.
  - destruct (pending p) as [|b l] eqn:Eb.
    + exists (fileof p LOGFILE ++ []). split; [by left|]. rewrite Hl, app_nil_r. done.
    + destruct Hl as (v & Hv & Hp). by exists v.
  - destruct Hl as (v & Hv & Hp). by exists v.
Qed.

Lemma image_data D p q f i :
  data_all D p -> crash_image p q -> 0 <= f -> 0 <= i -> dbyte q f i = D f i.
Proof.
  intros Hd Hci Hf Hi. destruct (ci_data _ _ Hci f (Z.to_nat (i + HDRSIZE)) Hf) as (v & Hv & E).
  unfold dbyte. rewrite E. by apply Hd.
Qed.

Lemma stale_recovers D q l :
  stale D l -> drop 64 (fileof q LOGFILE) = l -> faults q = [] -> buf_fdcache q = None ->
  ~ torn q -> (forall f i, 0 <= f -> 0 <= i -> dbyte q f i = D f i) -> recovers_to D q.
Proof.
  intros (ws & e & Hws & Hfit & He & Hp & Hid) Hl Hf Hs Hnt HD.
  destruct (decide (l = full_log ws e)) as [E|E].
  - destruct e as [| | | |v]; try done.
    + by apply (replay_partial ws RAbort q l); auto.
    + apply (recovers_to_ext (apply_writes ws D)); [done|].
      apply (replay_full ws v); try done; [congruence|]. auto.
  - by apply (replay_partial ws e q l); auto.
Qed.

Lemma stale_prefix D l l' : stale D l -> l' `prefix_of` l -> stale D l'.
Proof.
  intros (ws & e & Hws & Hfit & He & Hp & Hid) Hl. exists ws, e. split_and!; try done.
  by etransitivity.
Qed.

Lemma settled_recovers D p q : settled D p -> crash_image p q -> ~ torn q -> recovers_to D q.
Proof.
  intros [Hd Hv] Hci Hnt. destruct (image_version p q Hci) as (v & Hlv & Hp).
  apply (stale_recovers D q (drop 64 (fileof q LOGFILE))); try done; try apply Hci.
  - eapply stale_prefix; [by apply Hv|by apply prefix_drop].
  - intros f i Hf Hi. by apply (image_data D p).
Qed.

Lemma opening_recovers C ws ver p q :
  Forall write_ok ws -> log_fits ws -> version_ok ver ->
  opening C ws ver p -> crash_image p q -> ~ torn q ->
  recovers_to C q \/ recovers_to (apply_writes ws C) q.
Proof.
  intros Hws Hfit Hver [Hd Hv] Hci Hnt. destruct (image_version p q Hci) as (v & Hlv & Hp).
  assert (HD : forall f i, 0 <= f -> 0 <= i -> dbyte q f i = C f i)
    by (intros f i Hf Hi; by apply (image_data C p)).
  set (l := drop 64 (fileof q LOGFILE)). destruct (Hv v Hlv) as [Hst|Hfr].
  - left. apply (stale_recovers C q l); try done; try apply Hci.
    eapply stale_prefix; [done|by apply prefix_drop].
  - assert (Hl : l `prefix_of` full_log ws (REnd ver))
      by (etransitivity; [by apply prefix_drop|done]).
    destruct (decide (l = full_log ws (REnd ver))) as [E|E].
    + right. apply (replay_full ws ver); try done; try apply Hci. auto.
    + left. apply (replay_partial ws (REnd ver) q l); try done; try apply Hci. by left.
Qed.

Lemma sealed_recovers C ws ver p q :
  Forall write_ok ws -> log_fits ws -> version_ok ver ->
  sealed C ws ver p -> crash_image p q -> recovers_to (apply_writes ws C) q.
Proof.
  intros Hws Hfit Hver (Hp & Hb & Hl & Hd) Hci. apply (replay_full ws ver); try done; try apply Hci.
  - pose proof (ci_log _ _ Hci) as Hlog. unfold log_image in Hlog. rewrite Hp, Hb in Hlog. congruence.
  - intros f i Hf Hi. destruct (ci_data _ _ Hci f (Z.to_nat (i + HDRSIZE)) Hf) as (v & Hv & E).
    unfold dbyte. rewrite E. by apply Hd.
Qed.

(** ** Following the system calls *)

Section Calls.
Context (C : contents) (ws : list write) (ver : ubik_version).
Context (Hws : Forall write_ok ws) (Hfit : log_fits ws) (Hver : version_ok ver).

Let W : contents := apply_writes ws C.

Definition safe (p : phys) : Prop :=
  forall q, crash_image p q -> ~ torn q -> recovers_to C q \/ recovers_to W q.

(** Safe before and after every one of the calls. *)
Definition safe_run (p : phys) (evs : list event) : Prop :=
  forall evs1, evs1 `prefix_of` evs -> safe (runs p evs1).

Lemma safe_run_nil p : safe p -> safe_run p [].
Proof. intros Hs evs1 ->%prefix_nil_inv. done. Qed.

Lemma safe_run_cons p e evs : safe p -> safe_run (exec e p) evs -> safe_run p (e :: evs).
Proof.
  intros Hp Hr evs1 He. destruct evs1 as [|e' evs1]; [done|].
  apply prefix_cons_inv_1 in He as E. apply prefix_cons_inv_2 in He. subst e'. by apply Hr.
Qed.

Lemma safe_run_app p evs evs' :
  safe_run p evs -> safe_run (runs p evs) evs' -> safe_run p (evs ++ evs').
Proof.
  intros H1 H2 evs1 Hp. destruct (prefix_app_cases _ _ _ Hp) as [[_ Hp1]|(g & -> & Hg)].
  - by apply H1.
  - rewrite runs_app. by apply H2.
Qed.

(** A property that the calls preserve and that makes the state safe. *)
Lemma safe_run_inv (P : phys -> Prop) (ok : event -> Prop) evs : forall p,
  (forall p, P p -> safe p) -> (forall e p, ok e -> P p -> P (exec e p)) ->
  P p -> Forall ok evs -> safe_run p evs /\ P (runs p evs).
Proof.
  induction evs as [|e evs IH]; intros p Hs Hok Hp Hall.
  - split; [by apply safe_run_nil, Hs|done].
  - apply Forall_cons in Hall as [He Hall]. destruct (IH (exec e p) Hs Hok (Hok e p He Hp) Hall) as [A B].
    split; [by apply safe_run_cons; [apply Hs|]|done].
Qed.

(** *** Before the log is synced *)

Record phaseA (L : list Z) (p : phys) : Prop := {
  pa_buffered : buffered p L;
  pa_log : length (fileof p LOGFILE) = 64%nat;
  pa_data : data_all C p;
  pa_past : forall v, v ∈ pastof p LOGFILE ->
    stale C (drop 64 v) \/ drop 64 v `prefix_of` full_log ws (REnd ver);
  pa_prefix : L `prefix_of` full_log ws (REnd ver)
}.

Lemma pending_buffered p b : buffered p b -> pending p = b.
Proof. unfold pending. intros [->|[-> ->]]; done. Qed.

Lemma phaseA_safe L p : phaseA L p -> safe p.
Proof.
  intros [A1 A2 A3 A4 A5] q Hci Hnt. apply (opening_recovers C ws ver p q); try done.
  split; [done|]. intros v [->|Hv]; [|by apply A4]. right.
  by rewrite (pending_buffered p L), drop_app_length' by done.
Qed.

Lemma data_all_same p p' :
  (forall f, 0 <= f -> fileof p' f = fileof p f /\ pastof p' f = pastof p f) ->
  data_all C p -> data_all C p'.
Proof.
  intros He Hd f v i Hf Hv. unfold versions in Hv. destruct (He f Hf) as [-> ->] in Hv. by apply Hd.
Qed.

Lemma phaseA_append L d p :
  phaseA L p -> L ++ d `prefix_of` full_log ws (REnd ver) ->
  phaseA (L ++ d) (exec (EAppend LOGFILE d) p).
Proof.
  intros [A1 A2 A3 A4 A5] Hp. destruct (buffered_append p L d A1) as (B1 & B2 & B3 & B4).
  constructor; try done.
  - by left.
  - by rewrite (files_fileof p).
  - apply (data_all_same p); [|done]. intros f _.
    by rewrite (files_fileof p), (past_pastof p).
  - intros v Hv. rewrite (past_pastof p) in Hv by done. by apply A4.
Qed.

(** Appending the pieces of a list one after the other. *)
Lemma phaseA_appends ds : forall L p,
  phaseA L p -> L ++ concat ds `prefix_of` full_log ws (REnd ver) ->
  safe_run p (map (EAppend LOGFILE) ds) /\ phaseA (L ++ concat ds) (runs p (map (EAppend LOGFILE) ds)).
Proof.
  induction ds as [|d ds IH]; intros L p Ha Hp.
  - cbn in *. rewrite app_nil_r in *. split; [by apply safe_run_nil, (phaseA_safe L)|done].
  - cbn [map concat] in *. rewrite app_assoc in Hp.
    assert (Ha1 : phaseA (L ++ d) (exec (EAppend LOGFILE d) p)).
    { apply phaseA_append; [done|]. by apply prefix_app_l in Hp. }
    destruct (IH (L ++ d) _ Ha1 Hp) as [S1 S2]. split.
    + apply safe_run_cons; [by apply (phaseA_safe L)|done].
    + by rewrite app_assoc.
Qed.

Lemma byte_label_write v f i :
  0 <= i -> byte (pwrite f 0 (encode_hdr v)) (Z.to_nat (i + HDRSIZE)) = byte f (Z.to_nat (i + HDRSIZE)).
Proof.
  intros Hi. unfold HDRSIZE. rewrite byte_pwrite, encode_hdr_length.
  destruct (Nat.ltb_spec (Z.to_nat (i + 64)) (0 + 16)); [lia|]. by rewrite andb_false_r.
Qed.

(** Writing and syncing a label. *)
Lemma phaseA_label L v p :
  phaseA L p -> safe_run p (label_events v) /\ phaseA L (runs p (label_events v)).
Proof.
  intros Ha. pose proof Ha as [A1 A2 A3 A4 A5].
  set (p1 := exec (EWrite 0 0 (encode_hdr v)) p).
  assert (Ha1 : phaseA L p1).
  { constructor; try done.
    - unfold p1. by rewrite fileof_exec_write.
    - intros f w i Hf Hw Hi. unfold versions, p1 in Hw.
      rewrite fileof_exec_write, pastof_write in Hw. destruct (Z.eqb_spec f 0) as [->|].
      + apply elem_of_cons in Hw as [->|Hw]; [|by apply A3].
        rewrite byte_label_write by done. apply A3; [done|left|done].
      + by apply A3.
    - intros w Hw. unfold p1 in Hw. rewrite pastof_write in Hw. by apply A4. }
  assert (Ha2 : phaseA L (exec (ESync 0) p1)).
  { destruct Ha1 as [B1 B2 B3 B4 B5]. constructor; try done.
    - intros f w i Hf Hw. unfold versions in Hw. rewrite fileof_sync, pastof_sync in Hw.
      apply B3; [done|]. unfold versions. destruct (f =? 0); [|done].
      apply list_elem_of_singleton in Hw as ->. left.
    - intros w Hw. rewrite pastof_sync in Hw. by apply B4. }
  split; [|done]. apply safe_run_cons; [by apply (phaseA_safe L)|].
  apply safe_run_cons; [by apply (phaseA_safe L)|]. by apply safe_run_nil, (phaseA_safe L).
Qed.

(** *** The commit record reaches the disk *)

Lemma sealed_safe p : sealed C ws ver p -> safe p.
Proof. intros Hs q Hci _. right. by apply (sealed_recovers C ws ver p). Qed.

Lemma flush_log_effect p L :
  buffered p L ->
  let p' := exec (EFlush LOGFILE) p in
  fileof p' LOGFILE = fileof p LOGFILE ++ L /\ buffered p' [] /\ pending p' = []
  /\ (pastof p' LOGFILE = pastof p LOGFILE \/ pastof p' LOGFILE = fileof p LOGFILE :: pastof p LOGFILE)
  /\ (forall f, f <> LOGFILE -> fileof p' f = fileof p f /\ pastof p' f = pastof p f).
Proof.
  intros [Hb|[Hb ->]]; cbv zeta.
  - assert (E2 : effect (EFlush LOGFILE) p = set_stream (Some (LOGFILE, []))
                 (put_file LOGFILE (fileof p LOGFILE ++ L) p)).
    { unfold effect. by rewrite Hb, Z.eqb_refl. }
    pose proof (fileof_put LOGFILE (fileof p LOGFILE ++ L) p) as A.
    pose proof (pastof_put LOGFILE (fileof p LOGFILE ++ L) p) as B.
    unfold exec. rewrite E2. split_and!.
    + exact (A LOGFILE).
    + by left.
    + done.
    + right. exact (B LOGFILE).
    + intros f Hf. specialize (A f). specialize (B f).
      rewrite (proj2 (Z.eqb_neq f LOGFILE)) in A, B by done. by split.
  - assert (E2 : effect (EFlush LOGFILE) p = p) by (unfold effect; by rewrite Hb).
    unfold exec. rewrite E2, app_nil_r. split_and!; try done.
    + by right.
    + unfold pending. cbn. by rewrite Hb.
    + by left.
Qed.

Lemma seal p :
  phaseA (full_log ws (REnd ver)) p ->
  safe_run p [EFlush LOGFILE; ESync LOGFILE]
  /\ sealed C ws ver (runs p [EFlush LOGFILE; ESync LOGFILE]).
Proof.
  intros Ha. pose proof Ha as [A1 A2 A3 A4 A5].
  destruct (flush_log_effect p _ A1) as (F1 & F2 & F3 & F4 & F5).
  set (p1 := exec (EFlush LOGFILE) p) in *.
  assert (Hd1 : data_all C p1).
  { apply (data_all_same p); [|done]. intros f Hf. apply F5. unfold LOGFILE. lia. }
  assert (Hl1 : drop 64 (fileof p1 LOGFILE) = full_log ws (REnd ver))
    by (by rewrite F1, drop_app_length').
  assert (Hs1 : safe p1).
  { intros q Hci Hnt. apply (opening_recovers C ws ver p1 q); try done. split; [done|].
    intros v [->|Hv].
    - right. by rewrite F3, app_nil_r, Hl1.
    - destruct F4 as [E|E]; rewrite E in Hv; [by apply A4|].
      apply elem_of_cons in Hv as [->|Hv]; [|by apply A4].
      right. rewrite drop_ge by lia. apply prefix_nil. }
  assert (Hsealed : sealed C ws ver (exec (ESync LOGFILE) p1)).
  { split_and!; try done.
    - by rewrite pastof_sync.
    - intros f v i Hf Hv Hi. left. unfold versions in Hv. rewrite fileof_sync, pastof_sync in Hv.
      rewrite (proj2 (Z.eqb_neq f LOGFILE)) in Hv by (unfold LOGFILE; lia). by apply Hd1. }
  split; [|done]. apply safe_run_cons; [by apply (phaseA_safe (full_log ws (REnd ver)))|].
  apply safe_run_cons; [done|]. by apply safe_run_nil, sealed_safe.
Qed.

(** *** Writing the data out *)

(** Calls that write data of the new contents, labels, and syncs. *)
Inductive data_event : event -> Prop :=
  | de_page b : 0 <= b_file b -> 0 <= b_page b -> length (b_data b) = 1024%nat ->
      (forall k, (k < 1024)%nat ->
         byte (b_data b) k = W (b_file b) (b_page b * 1024 + Z.of_nat k)) ->
      data_event (page_event b)
  | de_label v : data_event (EWrite 0 0 (encode_hdr v))
  | de_sync f : 0 <= f -> data_event (ESync f).

Lemma sealed_write f off d p :
  sealed C ws ver p -> 0 <= f ->
  (forall i, 0 <= i -> byte (pwrite (fileof p f) off d) (Z.to_nat (i + HDRSIZE))
       = byte (fileof p f) (Z.to_nat (i + HDRSIZE))
     \/ byte (pwrite (fileof p f) off d) (Z.to_nat (i + HDRSIZE)) = W f i) ->
  sealed C ws ver (exec (EWrite f off d) p).
Proof.
  intros (S1 & S2 & S3 & S4) Hf Hb. assert (Hne : LOGFILE <> f) by (unfold LOGFILE; lia).
  split_and!.
  - by rewrite pastof_write, (proj2 (Z.eqb_neq LOGFILE f)).
  - done.
  - by rewrite fileof_exec_write, (proj2 (Z.eqb_neq LOGFILE f)).
  - intros g v i Hg Hv Hi. unfold versions in Hv. rewrite fileof_exec_write, pastof_write in Hv.
    destruct (Z.eqb_spec g f) as [->|]; [|by apply S4].
    apply elem_of_cons in Hv as [->|Hv]; [|by apply S4].
    destruct (Hb i Hi) as [->| ->]; [apply S4; [done|left|done]|by right].
Qed.

Lemma sealed_step e p : data_event e -> sealed C ws ver p -> sealed C ws ver (exec e p).
Proof.
  intros He Hs. destruct He as [b H1 H2 H3 H4|v|f Hf].
  - apply sealed_write; [done|done|]. intros i Hi.
    pose proof (dbyte_page_event b p (b_file b) i H3 H2 Hi) as E. unfold dbyte, page_event in E.
    rewrite fileof_exec_write, Z.eqb_refl in E. rewrite E.
    destruct (holds b (b_file b) (i / 1024)) eqn:Eh; [|by left]. right.
    apply holds_true in Eh as [_ Eh]. rewrite H4 by mlia. f_equal. rewrite Eh. mlia.
  - apply sealed_write; [done|done|]. intros i Hi. left. by apply byte_label_write.
  - destruct Hs as (S1 & S2 & S3 & S4). split_and!; try done.
    + rewrite pastof_sync. by destruct (LOGFILE =? f).
    + intros g v i Hg Hv. unfold versions in Hv. rewrite fileof_sync, pastof_sync in Hv.
      apply S4; [done|]. unfold versions. destruct (g =? f); [|done].
      apply list_elem_of_singleton in Hv as ->. left.
Qed.

Lemma sealed_run evs p :
  sealed C ws ver p -> Forall data_event evs ->
  safe_run p evs /\ sealed C ws ver (runs p evs).
Proof. apply safe_run_inv; [apply sealed_safe|apply sealed_step]. Qed.

(** *** The log is emptied *)

Lemma stale_own v : version_ok v -> stale W (full_log ws (REnd v)).
Proof.
  intros Hv. exists ws, (REnd v). split_and!; try done.
  intros f i _ _. apply (apply_writes_mix ws C). by right.
Qed.

Lemma settled_safe p : settled W p -> safe p.
Proof. intros Hs q Hci Hnt. right. by apply (settled_recovers W p). Qed.

Lemma clear_run p :
  sealed C ws ver p -> buf_fdcache p = Some (LOGFILE, []) ->
  (forall f, 0 <= f -> pastof p f = []) ->
  (forall f i, 0 <= f -> 0 <= i -> dbyte p f i = W f i) ->
  safe_run p clear_events /\ settled W (runs p clear_events).
Proof.
  intros (S1 & S2 & S3 & S4) Hb Hpast Hdata.
  destruct (flush_log_effect p [] (or_introl Hb)) as (F1 & F2 & F3 & F4 & F5).
  rewrite app_nil_r in F1. set (p1 := exec (EFlush LOGFILE) p) in *.
  assert (Hd : forall p', (forall f, f <> LOGFILE -> fileof p' f = fileof p f /\ pastof p' f = pastof p f) ->
            data_all W p').
  { intros p' He f v i Hf Hv Hi. destruct (He f) as [E1 E2]; [unfold LOGFILE; lia|].
    unfold versions in Hv. rewrite E1, E2, Hpast in Hv by done.
    apply list_elem_of_singleton in Hv as ->. by apply Hdata. }
  assert (Hst : stale W (drop 64 (fileof p LOGFILE))) by (rewrite S3; by apply stale_own).
  assert (Hpast1 : forall v, v ∈ pastof p1 LOGFILE -> v = fileof p LOGFILE).
  { intros v Hv. destruct F4 as [E|E]; rewrite E, S1 in Hv; [by apply not_elem_of_nil in Hv|].
    by apply list_elem_of_singleton in Hv. }
  assert (H1 : settled W p1).
  { split; [by apply Hd|]. intros v [->|Hv]; [by rewrite F3, app_nil_r, F1|].
    by rewrite (Hpast1 v Hv). }
  destruct (clear_effect p Hb) as (C1 & C2 & C3 & C4).
  assert (Htr : pastof (exec (ETrunc LOGFILE 64) p1) LOGFILE = fileof p1 LOGFILE :: pastof p1 LOGFILE)
    by exact (pastof_put LOGFILE (ftruncate (fileof p1 LOGFILE) 64) p1 LOGFILE).
  assert (H2 : settled W (exec (ETrunc LOGFILE 64) p1)).
  { split; [by apply Hd|]. intros v [->|Hv].
    - change (exec (ETrunc LOGFILE 64) p1) with (runs p clear_events).
      assert (Hpe : pending (runs p clear_events) = []) by (unfold pending; by rewrite C2).
      rewrite Hpe, app_nil_r, drop_ge by lia. eapply stale_prefix; [exact Hst|apply prefix_nil].
    - rewrite Htr in Hv. apply elem_of_cons in Hv as [->|Hv]; [by rewrite F1|by rewrite (Hpast1 v Hv)]. }
  split; [|exact H2]. apply safe_run_cons; [apply sealed_safe; done|].
  apply safe_run_cons; [by apply settled_safe|]. by apply safe_run_nil, settled_safe.
Qed.

End Calls.

(** ** Transactions *)

(** The pieces [udisk_LogWriteData] appends for a write. *)
Definition pieces (w : write) : list (list Z) :=
  let '(f, pos, d) := w in
  [be32 LOGDATA ++ be32 f ++ be32 pos ++ be32 (Z.of_nat (length d)); d].

Lemma append_events_pieces ws :
  concat (map append_events ws) = map (EAppend LOGFILE) (concat (map pieces ws)).
Proof.
  induction ws as [|[[f pos] d] ws IH]; [done|]. cbn [map concat]. by rewrite IH, map_app.
Qed.

Lemma concat_pieces ws : concat (concat (map pieces ws)) = encs (map record_of ws).
Proof.
  induction ws as [|[[f pos] d] ws IH]; [done|]. unfold encs. cbn [map concat].
  rewrite concat_app, IH. cbn [pieces record_of enc concat app]. unfold encs.
  rewrite app_nil_r, <- !app_assoc. done.
Qed.

Lemma flush_data_events C ws s :
  in_trans C ws s -> Forall (data_event C ws) (flush_events s).
Proof.
  intros Hin. pose proof (it_cache _ _ _ Hin) as Hc. unfold flush_events. apply Forall_map, Forall_forall.
  intros j [Hj Hd]%dirty_bufs_spec. destruct (co_key s Hc j Hj (co_dirty s Hc j Hj Hd)) as [Hf Hp].
  constructor; try done; [by apply Hc|]. intros k Hk.
  rewrite <- (it_working _ _ _ Hin) by lia. rewrite vbyte_write.
  assert (E : (b_page (buf s j) * 1024 + Z.of_nat k) / 1024 = b_page (buf s j)
              /\ (b_page (buf s j) * 1024 + Z.of_nat k) mod 1024 = Z.of_nat k)
    by (Z.div_mod_to_equations; nia).
  destruct E as [-> ->]. rewrite Nat2Z.id.
  rewrite (working_dirty s j); try done. by apply holds_true.
Qed.

Lemma quiet_phaseA C ws ver s :
  quiet s -> settled C (ph s) -> phaseA C ws ver [] (ph s).
Proof.
  intros Hq [Hd Hl]. constructor; [apply Hq|by apply q_log|done| |apply prefix_nil].
  intros v Hv. left. apply Hl. by right.
Qed.

Lemma settled_ext C D p :
  (forall f i, 0 <= f -> 0 <= i -> C f i = D f i) -> settled C p -> settled D p.
Proof.
  intros E [Hd Hl]. split.
  - intros f v i Hf Hv Hi. rewrite <- E by done. by apply Hd.
  - intros v Hv. destruct (Hl v Hv) as (ws & e & H1 & H2 & H3 & H4 & H5). exists ws, e.
    split_and!; try done. intros f i Hf Hi. specialize (H5 f i Hf Hi).
    destruct (apply_writes_cases ws f i) as [[k Ek]|Ek]; rewrite Ek in *; [|done].
    by rewrite H5, E.
Qed.

(** The calls of a transaction are safe, and what they leave is settled. *)
Lemma transaction_safe am ws s s2 s' evs :
  let C := dbyte (ph s) in
  let ver := bump 1 (base_version am s) in
  quiet s -> settled C (ph s) -> Forall write_ok ws -> log_fits ws -> version_ok ver ->
  in_trans C ws s2 ->
  ph s2 = runs (ph s) (EAppend LOGFILE (enc RNew) :: concat (map append_events ws)) ->
  base_version am s2 = base_version am s -> Forall is_sync evs ->
  ph s' = runs (ph s2) (commit_events am s2 evs) ->
  (forall f, f <> LOGFILE -> pastof (written_out am s2 evs) f = []) ->
  safe_run C ws (ph s) ((EAppend LOGFILE (enc RNew) :: concat (map append_events ws))
                         ++ commit_events am s2 evs)
  /\ settled (apply_writes ws C) (ph s').
Proof.
  intros C ver Hq Hset Hws Hfit Hver Hin Hp2 Hba Hev Hp' Hpast.
  pose proof (quiet_phaseA C ws ver s Hq Hset) as HA.
  (* the body of the log *)
  assert (Hbody : EAppend LOGFILE (enc RNew) :: concat (map append_events ws)
                  = map (EAppend LOGFILE) (enc RNew :: concat (map pieces ws)))
    by (cbn [map]; by rewrite append_events_pieces).
  assert (Hcat : concat (enc RNew :: concat (map pieces ws)) = encs (log_of ws)).
  { cbn [concat]. rewrite concat_pieces. done. }
  destruct (phaseA_appends C ws ver Hws Hfit Hver (enc RNew :: concat (map pieces ws)) [] (ph s) HA)
    as [R1 A1]; [rewrite Hcat; by apply prefix_app_r|].
  rewrite Hcat in A1. cbn [app] in A1. rewrite <- Hbody in R1, A1. rewrite <- Hp2 in A1.
  (* the label of a new sync site *)
  assert (H2 : safe_run C ws (ph s2) (relabel_events am s2)
               /\ phaseA C ws ver (encs (log_of ws)) (runs (ph s2) (relabel_events am s2))).
  { unfold relabel_events. destruct (relabels am s2); [by apply phaseA_label|].
    split; [by apply safe_run_nil, (phaseA_safe C ws ver Hws Hfit Hver (encs (log_of ws)))|done]. }
  destruct H2 as [R2 A2]. set (p3 := runs (ph s2) (relabel_events am s2)) in *.
  (* the commit record *)
  destruct (phaseA_appends C ws ver Hws Hfit Hver [enc (REnd ver)] _ p3 A2) as [R3 A3].
  { cbn [concat]. by rewrite app_nil_r. }
  cbn [map concat] in R3, A3. rewrite app_nil_r in A3.
  destruct (seal C ws ver Hws Hfit Hver _ A3) as [R4 S4].
  set (p5 := runs (runs p3 [EAppend LOGFILE (enc (REnd ver))]) [EFlush LOGFILE; ESync LOGFILE]) in *.
  (* the data and the label *)
  assert (Hdata : Forall (data_event C ws) ((flush_events s2 ++ evs) ++ label_events ver)).
  { rewrite !Forall_app. split_and!; [by apply flush_data_events| |].
    - eapply Forall_impl; [exact Hev|]. intros e (f & -> & Hf). by constructor.
    - repeat constructor; done. }
  destruct (sealed_run C ws ver Hws Hfit Hver _ p5 S4 Hdata) as [R5 S5].
  assert (Hp5 : runs p5 (flush_events s2 ++ evs) = written_out am s2 evs).
  { unfold written_out. rewrite Hba. fold ver.
    change (end_events ver) with ([EAppend LOGFILE (enc (REnd ver))] ++ [EFlush LOGFILE; ESync LOGFILE]).
    rewrite !runs_app. done. }
  set (p6 := runs p5 ((flush_events s2 ++ evs) ++ label_events ver)) in *.
  assert (Hp6 : p6 = runs (written_out am s2 evs) (label_events ver)).
  { unfold p6. by rewrite runs_app, Hp5. }
  destruct (label_effect ver (written_out am s2 evs)) as (L1 & L2 & L3 & L4 & L5 & L6).
  rewrite <- Hp6 in L1, L2, L3, L4, L5, L6.
  destruct (clear_run C ws ver Hws Hfit Hver p6 S5) as [R6 S6].
  { rewrite L4. by apply (written_out_stream am C ws). }
  { intros f Hf. rewrite L3. destruct (f =? 0); [done|]. apply Hpast. unfold LOGFILE. lia. }
  { intros f i Hf Hi. rewrite L1 by done. by apply written_out_bytes. }
  (* together *)
  assert (Hce : commit_events am s2 evs
     = relabel_events am s2 ++ [EAppend LOGFILE (enc (REnd ver))] ++ [EFlush LOGFILE; ESync LOGFILE]
       ++ ((flush_events s2 ++ evs) ++ label_events ver) ++ clear_events).
  { unfold commit_events. rewrite Hba. fold ver. by rewrite <- !app_assoc. }
  split.
  - apply (safe_run_app C ws _ _ _ R1). rewrite <- Hp2, Hce.
    apply (safe_run_app C ws _ _ _ R2), (safe_run_app C ws _ _ _ R3), (safe_run_app C ws _ _ _ R4),
      (safe_run_app C ws _ _ _ R5), R6.
  - rewrite Hp', Hce, !runs_app. unfold p6, p5, p3 in S6. rewrite !runs_app in S6. exact S6.
Qed.


Lemma demo_settled : settled (dbyte (ph demo)) (ph demo).
Proof.
  split.
  - intros f v i Hf Hv Hi. unfold versions, pastof in Hv. cbn [past ph demo demo_disk disk_with udisk_Init] in Hv.
    rewrite lookup_empty in Hv. apply list_elem_of_singleton in Hv as ->. done.
  - intros v [->|Hv].
    + exists [], RAbort. split_and!; try done. vm_compute. by eexists.
    + unfold pastof in Hv. cbn in Hv. rewrite lookup_empty in Hv. by apply not_elem_of_nil in Hv.
Qed.

