(* ===== verification/AfsLock.v ===== *)
(** * The AFS lock package: lwp/lock.h and lwp/lock.c

    Read, write, shared and boosted locks.  Each operation runs under the lock's
    mutex and is one step; a thread that must wait sleeps on a condition
    variable ([read_cv] for readers, [write_cv] for the others), is woken by a
    broadcast and then tests its condition again.  The theorems: mutual
    exclusion, and no lost wakeups, in every interleaving of any number of
    threads below the 256 that the 8-bit reader count can hold. *)

From S2P Require Import Prelude.
From stdpp Require Import prelude list.
From Stdlib Require Import ZArith Lia ZifyBool.

#[local] Open Scope Z_scope.

Definition READ_LOCK := 1.
Definition WRITE_LOCK := 2.
Definition SHARED_LOCK := 4.
Definition EXCL_LOCKS := 6.  (* WRITE_LOCK | SHARED_LOCK *)

Record Lock := mkLock {
  wait_states : Z;
  excl_locked : Z;
  readers_reading : Z;
  num_waiting : Z
}.

(** The fields are unsigned chars. *)
Definition set_wait (x : Z) (l : Lock) : Lock :=
  mkLock (u8 x) (excl_locked l) (readers_reading l) (num_waiting l).
Definition set_excl (x : Z) (l : Lock) : Lock :=
  mkLock (wait_states l) (u8 x) (readers_reading l) (num_waiting l).
Definition set_reading (x : Z) (l : Lock) : Lock :=
  mkLock (wait_states l) (excl_locked l) (u8 x) (num_waiting l).
Definition set_num (x : Z) (l : Lock) : Lock :=
  mkLock (wait_states l) (excl_locked l) (readers_reading l) (u8 x).

Definition Lock_Init : Lock := mkLock 0 0 0 0.

(** The [how] argument of [Afs_Lock_Obtain]. *)
Inductive how := READ | WRITE | SHARED | BOOSTED.

Definition wait_bit (h : how) : Z :=
  match h with READ => READ_LOCK | SHARED => SHARED_LOCK | WRITE | BOOSTED => WRITE_LOCK end.

Definition on (x m : Z) : bool := negb (Z.land x m =? 0).
Definition nonzero (x : Z) : bool := negb (x =? 0).

(** ** Afs_Lock_Obtain *)

(** Up to the first [opr_cv_wait]. *)
Definition obtain_wait (h : how) (l : Lock) : Lock :=
  set_wait (Z.lor (wait_states l) (wait_bit h)) (set_num (num_waiting l + 1) l).

(** The test that ends the loop. *)
Definition must_wait (h : how) (l : Lock) : bool :=
  match h with
  | READ => on (excl_locked l) WRITE_LOCK
  | WRITE => nonzero (excl_locked l) || nonzero (readers_reading l)
  | SHARED => nonzero (excl_locked l)
  | BOOSTED => nonzero (readers_reading l)
  end.

Definition take (h : how) (l : Lock) : Lock :=
  match h with
  | READ => set_reading (readers_reading l + 1) l
  | WRITE | BOOSTED => set_excl WRITE_LOCK l
  | SHARED => set_excl SHARED_LOCK l
  end.

(** After a wakeup: sleep again ([false]) or take the lock. *)
Definition obtain_retry (h : how) (l : Lock) : bool * Lock :=
  if must_wait h l then (false, set_wait (Z.lor (wait_states l) (wait_bit h)) l)
  else (true, take h (set_num (num_waiting l - 1) l)).

(** ** The macros that obtain locks: [true] when obtained without waiting *)

Definition ObtainReadLock (l : Lock) : bool * Lock :=
  if negb (on (excl_locked l) WRITE_LOCK) && negb (nonzero (wait_states l))
  then (true, set_reading (readers_reading l + 1) l)
  else (false, obtain_wait READ l).

Definition ObtainReadLockNoBlock (l : Lock) : Z * Lock :=
  if negb (on (excl_locked l) WRITE_LOCK) && negb (nonzero (wait_states l))
  then (0, set_reading (readers_reading l + 1) l) else (-1, l).

Definition ObtainWriteLock (l : Lock) : bool * Lock :=
  if negb (nonzero (excl_locked l)) && negb (nonzero (readers_reading l))
  then (true, set_excl WRITE_LOCK l)
  else (false, obtain_wait WRITE l).

Definition ObtainWriteLockNoBlock (l : Lock) : Z * Lock :=
  if negb (nonzero (excl_locked l)) && negb (nonzero (readers_reading l))
  then (0, set_excl WRITE_LOCK l) else (-1, l).

Definition ObtainSharedLock (l : Lock) : bool * Lock :=
  if negb (nonzero (excl_locked l)) && negb (nonzero (wait_states l))
  then (true, set_excl SHARED_LOCK l)
  else (false, obtain_wait SHARED l).

Definition ObtainSharedLockNoBlock (l : Lock) : Z * Lock :=
  if negb (nonzero (excl_locked l)) && negb (nonzero (wait_states l))
  then (0, set_excl SHARED_LOCK l) else (-1, l).

Definition BoostSharedLock (l : Lock) : bool * Lock :=
  if negb (nonzero (readers_reading l)) then (true, set_excl WRITE_LOCK l)
  else (false, obtain_wait BOOSTED l).

(** ** Releasing: the new state and the condition variable that is broadcast *)

Inductive wakeup := NoWakeup | WakeRead | WakeWrite.

Definition Afs_Lock_WakeupR (l : Lock) : wakeup * Lock :=
  if on (wait_states l) READ_LOCK
  then (WakeRead, set_wait (Z.land (wait_states l) (Z.lnot READ_LOCK)) l) else (NoWakeup, l).

Definition Afs_Lock_ReleaseR (l : Lock) : wakeup * Lock :=
  if on (wait_states l) READ_LOCK
  then (WakeRead, set_wait (Z.land (wait_states l) (Z.lnot READ_LOCK)) l)
  else (WakeWrite, set_wait (Z.land (wait_states l) (Z.lnot EXCL_LOCKS)) l).

Definition Afs_Lock_ReleaseW (l : Lock) : wakeup * Lock :=
  if on (wait_states l) EXCL_LOCKS
  then (WakeWrite, set_wait (Z.land (wait_states l) (Z.lnot EXCL_LOCKS)) l)
  else (WakeRead, set_wait (Z.land (wait_states l) (Z.lnot READ_LOCK)) l).

Definition release_r (l : Lock) : wakeup * Lock :=
  if nonzero (wait_states l) then Afs_Lock_ReleaseR l else (NoWakeup, l).

Definition UnboostSharedLock (l : Lock) : wakeup * Lock := release_r (set_excl SHARED_LOCK l).

Definition ReleaseReadLock (l : Lock) : wakeup * Lock :=
  let l1 := set_reading (readers_reading l - 1) l in
  if negb (nonzero (readers_reading l1)) && nonzero (wait_states l1)
  then Afs_Lock_ReleaseW l1 else (NoWakeup, l1).

Definition ReleaseWriteLock (l : Lock) : wakeup * Lock :=
  release_r (set_excl (Z.land (excl_locked l) (Z.lnot WRITE_LOCK)) l).

Definition ReleaseSharedLock (l : Lock) : wakeup * Lock :=
  release_r (set_excl (Z.land (excl_locked l) (Z.lnot (Z.lor SHARED_LOCK WRITE_LOCK))) l).

Definition ConvertWriteToReadLock (l : Lock) : wakeup * Lock :=
  let l1 := set_reading (readers_reading l + 1)
              (set_excl (Z.land (excl_locked l) (Z.lnot WRITE_LOCK)) l) in
  if on (wait_states l1) READ_LOCK then Afs_Lock_WakeupR l1 else (NoWakeup, l1).

Definition CheckLock (l : Lock) : Z := if nonzero (excl_locked l) then -1 else readers_reading l.
Definition WriteLocked (l : Lock) : bool := on (excl_locked l) WRITE_LOCK.
Definition SharedLocked (l : Lock) : bool := on (excl_locked l) SHARED_LOCK.

(** ** Threads *)

(** What a thread is doing with the lock.  A thread that sleeps for a boost still
    holds its shared lock. *)
Inductive tstate :=
  | Out
  | Asleep (h : how)
  | Awake (h : how)
  | Reading
  | Writing
  | Sharing.

Record system := mkSys { lock : Lock; threads : list tstate }.

Definition granted (h : how) : tstate :=
  match h with READ => Reading | WRITE | BOOSTED => Writing | SHARED => Sharing end.

Definition wake (w : wakeup) (t : tstate) : tstate :=
  match w, t with
  | WakeRead, Asleep READ => Awake READ
  | WakeWrite, Asleep WRITE => Awake WRITE
  | WakeWrite, Asleep SHARED => Awake SHARED
  | WakeWrite, Asleep BOOSTED => Awake BOOSTED
  | _, _ => t
  end.

(** Thread [i] has asked for a lock: it has it or sleeps. *)
Definition asked (i : nat) (h : how) (r : bool * Lock) (ts : list tstate) : system :=
  mkSys (snd r) (<[i := if fst r then granted h else Asleep h]> ts).

(** Thread [i] has released: it goes on as [t], and the broadcast takes effect. *)
Definition released (i : nat) (t : tstate) (r : wakeup * Lock) (ts : list tstate) : system :=
  mkSys (snd r) (map (wake (fst r)) (<[i := t]> ts)).

Inductive step (s : system) : system -> Prop :=
  | st_read i : threads s !! i = Some Out ->
      step s (asked i READ (ObtainReadLock (lock s)) (threads s))
  | st_write i : threads s !! i = Some Out ->
      step s (asked i WRITE (ObtainWriteLock (lock s)) (threads s))
  | st_shared i : threads s !! i = Some Out ->
      step s (asked i SHARED (ObtainSharedLock (lock s)) (threads s))
  | st_boost i : threads s !! i = Some Sharing ->
      step s (asked i BOOSTED (BoostSharedLock (lock s)) (threads s))
  | st_retry i h : threads s !! i = Some (Awake h) ->
      step s (asked i h (obtain_retry h (lock s)) (threads s))
  | st_try_read i l : threads s !! i = Some Out ->
      ObtainReadLockNoBlock (lock s) = (0, l) -> step s (mkSys l (<[i := Reading]> (threads s)))
  | st_try_write i l : threads s !! i = Some Out ->
      ObtainWriteLockNoBlock (lock s) = (0, l) -> step s (mkSys l (<[i := Writing]> (threads s)))
  | st_try_shared i l : threads s !! i = Some Out ->
      ObtainSharedLockNoBlock (lock s) = (0, l) -> step s (mkSys l (<[i := Sharing]> (threads s)))
  | st_unboost i : threads s !! i = Some Writing ->
      step s (released i Sharing (UnboostSharedLock (lock s)) (threads s))
  | st_release_read i : threads s !! i = Some Reading ->
      step s (released i Out (ReleaseReadLock (lock s)) (threads s))
  | st_release_write i : threads s !! i = Some Writing ->
      step s (released i Out (ReleaseWriteLock (lock s)) (threads s))
  | st_release_shared i : threads s !! i = Some Sharing \/ threads s !! i = Some Writing ->
      step s (released i Out (ReleaseSharedLock (lock s)) (threads s))
  | st_convert i : threads s !! i = Some Writing ->
      step s (released i Reading (ConvertWriteToReadLock (lock s)) (threads s)).

Inductive reachable (n : nat) : system -> Prop :=
  | re_init : reachable n (mkSys Lock_Init (repeat Out n))
  | re_step s s' : reachable n s -> step s s' -> reachable n s'.

(** ** Counting threads *)

Definition how_eqb (a b : how) : bool :=
  match a, b with
  | READ, READ | WRITE, WRITE | SHARED, SHARED | BOOSTED, BOOSTED => true
  | _, _ => false
  end.
Definition tstate_eqb (a b : tstate) : bool :=
  match a, b with
  | Out, Out | Reading, Reading | Writing, Writing | Sharing, Sharing => true
  | Asleep x, Asleep y | Awake x, Awake y => how_eqb x y
  | _, _ => false
  end.

Lemma tstate_eqb_eq a b : tstate_eqb a b = true <-> a = b.
Proof. destruct a as [|[]|[]| | |], b as [|[]|[]| | |]; cbn; split; congruence. Qed.

(** How many threads are in state [x]. *)
Definition num (x : tstate) (l : list tstate) : Z :=
  Z.of_nat (length (List.filter (tstate_eqb x) l)).

Lemma num_nonneg x l : 0 <= num x l.
Proof. unfold num. lia. Qed.

Lemma num_cons x y l : num x (y :: l) = num x l + Z.b2z (tstate_eqb x y).
Proof. unfold num. cbn [List.filter]. destruct (tstate_eqb x y); cbn [length Z.b2z]; lia. Qed.

Lemma num_insert x l i old new :
  l !! i = Some old ->
  num x (<[i := new]> l) = num x l - Z.b2z (tstate_eqb x old) + Z.b2z (tstate_eqb x new).
Proof.
  revert i. induction l as [|y l IH]; intros [|i] Hi; cbn in Hi; try done.
  - injection Hi as ->. change (<[0%nat:=new]> (old :: l)) with (new :: l). rewrite !num_cons. lia.
  - change (<[S i:=new]> (y :: l)) with (y :: <[i:=new]> l). rewrite !num_cons, (IH i Hi). lia.
Qed.

Lemma num_le x l : num x l <= Z.of_nat (length l).
Proof. unfold num. pose proof (filter_length_le (tstate_eqb x) l). lia. Qed.

Lemma num_pos x l i : l !! i = Some x -> 0 < num x l.
Proof.
  revert i. induction l as [|y l IH]; intros [|i] Hi; cbn in Hi; try done; rewrite num_cons.
  - injection Hi as ->. rewrite (proj2 (tstate_eqb_eq x x)) by done.
    pose proof (num_nonneg x l). cbn. lia.
  - specialize (IH i Hi). destruct (tstate_eqb x y); cbn; lia.
Qed.

Lemma num_pos_inv x l : 0 < num x l -> exists i, l !! i = Some x.
Proof.
  induction l as [|y l IH]; [intros H; unfold num in H; cbn in H; lia|]. rewrite num_cons.
  destruct (tstate_eqb x y) eqn:E; cbn [Z.b2z]; intros H.
  - apply tstate_eqb_eq in E as ->. by exists 0%nat.
  - destruct IH as [i Hi]; [lia|]. by exists (S i).
Qed.

(** The counts after a broadcast. *)
Definition woken_by (w : wakeup) (h : how) : bool :=
  match w, h with
  | WakeRead, READ => true
  | WakeWrite, (WRITE | SHARED | BOOSTED) => true
  | _, _ => false
  end.

Lemma num_wake w x l :
  num x (map (wake w) l)
  = match x with
    | Asleep h => if woken_by w h then 0 else num x l
    | Awake h => if woken_by w h then num x l + num (Asleep h) l else num x l
    | _ => num x l
    end.
Proof.
  induction l as [|y l IH]; [by destruct x as [|h|h| | |]; [..|]; try destruct (woken_by w h)|].
  cbn [map]. rewrite !num_cons, IH.
  destruct w, x as [|[]|[]| | |], y as [|[]|[]| | |]; cbn; rewrite ?num_cons; cbn; lia.
Qed.

(** ** Flags *)

Definition wcode (a b c : bool) : Z := Z.b2z a + 2 * Z.b2z b + 4 * Z.b2z c.
Definition ecode (w h : bool) : Z := 2 * Z.b2z w + 4 * Z.b2z h.

(** The invariant: the lock's fields say what the threads are doing. *)
Record lock_ok (n : nat) (s : system) : Prop := {
  lo_len : length (threads s) = n;
  lo_flags : exists a b c w h,
    wait_states (lock s) = wcode a b c /\ excl_locked (lock s) = ecode w h
    /\ (a = true <-> 0 < num (Asleep READ) (threads s))
    /\ (b = true <-> 0 < num (Asleep WRITE) (threads s) + num (Asleep BOOSTED) (threads s))
    /\ (c = true <-> 0 < num (Asleep SHARED) (threads s))
    /\ num Writing (threads s) = Z.b2z w
    /\ num Sharing (threads s) + num (Asleep BOOSTED) (threads s) + num (Awake BOOSTED) (threads s)
       = Z.b2z h
    /\ (w = true -> h = false /\ num Reading (threads s) = 0);
  lo_readers : readers_reading (lock s) = num Reading (threads s);
  lo_boost : 0 < num (Asleep BOOSTED) (threads s) -> 0 < num Reading (threads s);
  lo_progress :
    0 < num (Asleep READ) (threads s) + num (Asleep WRITE) (threads s)
        + num (Asleep SHARED) (threads s) + num (Asleep BOOSTED) (threads s) ->
    0 < num Reading (threads s) + num Writing (threads s) + num Sharing (threads s)
        + num (Awake READ) (threads s) + num (Awake WRITE) (threads s)
        + num (Awake SHARED) (threads s) + num (Awake BOOSTED) (threads s)
}.

Lemma lock_ok_init n : lock_ok n (mkSys Lock_Init (repeat Out n)).
Proof.
  assert (H : forall x, x <> Out -> num x (repeat Out n) = 0).
  { intros x Hx. induction n as [|n IH]; [done|]. cbn [repeat]. rewrite num_cons, IH.
    destruct (tstate_eqb x Out) eqn:E; [by apply tstate_eqb_eq in E|done]. }
  constructor; cbn [lock threads]; rewrite ?H by done; try done.
  - apply repeat_length.
  - exists false, false, false, false, false. rewrite ?H by done. cbn. split_and!; try done; split; done || lia.
Qed.

Lemma on_write w h : on (ecode w h) WRITE_LOCK = w.
Proof. by destruct w, h. Qed.
Lemma nonzero_ecode w h : nonzero (ecode w h) = w || h.
Proof. by destruct w, h. Qed.
Lemma nonzero_wcode a b c : nonzero (wcode a b c) = a || b || c.
Proof. by destruct a, b, c. Qed.
Lemma on_read a b c : on (wcode a b c) READ_LOCK = a.
Proof. by destruct a, b, c. Qed.
Lemma on_excl a b c : on (wcode a b c) EXCL_LOCKS = b || c.
Proof. by destruct a, b, c. Qed.
Lemma wait_or h a b c :
  u8 (Z.lor (wcode a b c) (wait_bit h))
  = wcode (a || how_eqb h READ) (b || how_eqb h WRITE || how_eqb h BOOSTED) (c || how_eqb h SHARED).
Proof. by destruct h, a, b, c. Qed.
Lemma wait_not_read a b c : u8 (Z.land (wcode a b c) (Z.lnot READ_LOCK)) = wcode false b c.
Proof. by destruct a, b, c. Qed.
Lemma wait_not_excl a b c : u8 (Z.land (wcode a b c) (Z.lnot EXCL_LOCKS)) = wcode a false false.
Proof. by destruct a, b, c. Qed.
Lemma excl_not_write w h : u8 (Z.land (ecode w h) (Z.lnot WRITE_LOCK)) = ecode false h.
Proof. by destruct w, h. Qed.
Lemma excl_none w h : u8 (Z.land (ecode w h) (Z.lnot (Z.lor SHARED_LOCK WRITE_LOCK))) = ecode false false.
Proof. by destruct w, h. Qed.
Lemma excl_write : u8 WRITE_LOCK = ecode true false.
Proof. done. Qed.
Lemma excl_shared : u8 SHARED_LOCK = ecode false true.
Proof. done. Qed.

Create Rewrite HintDb lockflags.

#[local] Hint Rewrite on_write nonzero_ecode nonzero_wcode on_read on_excl wait_or wait_not_read
  wait_not_excl excl_not_write excl_none excl_write excl_shared : lockflags.

(** The counts that matter, as non-negative numbers. *)
Ltac know_counts ts :=
  pose proof (num_nonneg (Asleep READ) ts); pose proof (num_nonneg (Asleep WRITE) ts);
  pose proof (num_nonneg (Asleep SHARED) ts); pose proof (num_nonneg (Asleep BOOSTED) ts);
  pose proof (num_nonneg (Awake READ) ts); pose proof (num_nonneg (Awake WRITE) ts);
  pose proof (num_nonneg (Awake SHARED) ts); pose proof (num_nonneg (Awake BOOSTED) ts);
  pose proof (num_nonneg Reading ts); pose proof (num_nonneg Writing ts);
  pose proof (num_nonneg Sharing ts).

(** Unpack a state of which the invariant holds. *)
Ltac open_inv :=
  match goal with
  | Hinv : lock_ok _ ?s |- _ =>
      let l := fresh "l" in let ts := fresh "ts" in
      destruct s as [[wt ex rd nw] ts]; cbn [lock threads] in *;
      destruct Hinv as [Hlen (a & b & c & w & h & Hwt & Hex & Ha & Hb & Hc & Hw & Hh & Hx) Hrd Hbo Hpr];
      cbn [lock threads wait_states excl_locked readers_reading] in *; subst wt ex rd
  end.

Lemma u8_reading n ts k : length ts = n -> (n < 256)%nat -> 0 <= k <= num Reading ts -> u8 k = k.
Proof. intros Hl Hn Hk. pose proof (num_le Reading ts). apply u8_small. mlia. Qed.

Section Preservation.
Context (n : nat) (Hn : (n < 256)%nat).

Ltac count_tac Hi :=
  rewrite ?num_wake; cbn [woken_by]; rewrite ?(num_insert _ _ _ _ _ Hi);
  cbn [tstate_eqb how_eqb Z.b2z].

(** Close a step: the new flags, then counting. *)
Ltac close_step Hi a' b' c' w' h' :=
  constructor; cbn [lock threads wait_states excl_locked readers_reading fst snd];
  [ rewrite ?length_map, ?length_insert; done
  | exists a', b', c', w', h'; split_and!;
    [ autorewrite with lockflags; cbn [how_eqb]; rewrite ?orb_false_r, ?orb_true_r; try reflexivity
    | autorewrite with lockflags; try reflexivity
    | count_tac Hi; lia .. ]
  | count_tac Hi; rewrite ?u8_small by mlia; lia
  | count_tac Hi; lia
  | count_tac Hi; lia ].

(** Unpack the invariant and collect the facts about the counts. *)
Ltac prepare Hi :=
  open_inv;
  match type of Hi with
  | ?ts !! ?i = Some ?old =>
      know_counts ts;
      pose proof (num_pos _ _ _ Hi);
      let Hm := fresh "Hmax" in
      pose proof (num_le Reading (<[i := Reading]> ts)) as Hm;
      rewrite length_insert, (num_insert _ _ _ _ _ Hi) in Hm; cbn [tstate_eqb how_eqb Z.b2z] in Hm;
      pose proof (num_le Reading ts)
  end;
  unfold asked, released, release_r, Afs_Lock_ReleaseR, Afs_Lock_ReleaseW, Afs_Lock_WakeupR,
    obtain_wait, obtain_retry, must_wait, take, set_reading, set_wait, set_num, set_excl in *;
  cbn [wait_states excl_locked readers_reading num_waiting] in *.

Lemma step_read_ok s i :
  lock_ok n s -> threads s !! i = Some Out ->
  lock_ok n (asked i READ (ObtainReadLock (lock s)) (threads s)).
Proof.
  intros Hinv Hi. unfold ObtainReadLock. prepare Hi. rewrite on_write, nonzero_wcode.
  destruct (negb w && negb (a || b || c)) eqn:E; cbn [fst snd granted].
  - close_step Hi a b c w h.
  - close_step Hi true b c w h.
Qed.

Lemma step_write_ok s i :
  lock_ok n s -> threads s !! i = Some Out ->
  lock_ok n (asked i WRITE (ObtainWriteLock (lock s)) (threads s)).
Proof.
  intros Hinv Hi. unfold ObtainWriteLock. prepare Hi. rewrite nonzero_ecode. unfold nonzero.
  destruct (negb (w || h) && _) eqn:E; cbn [fst snd granted].
  - close_step Hi a b c true false.
  - close_step Hi a true c w h.
Qed.

Lemma step_shared_ok s i :
  lock_ok n s -> threads s !! i = Some Out ->
  lock_ok n (asked i SHARED (ObtainSharedLock (lock s)) (threads s)).
Proof.
  intros Hinv Hi. unfold ObtainSharedLock. prepare Hi. rewrite nonzero_ecode, nonzero_wcode.
  destruct (negb (w || h) && _) eqn:E; cbn [fst snd granted].
  - close_step Hi a b c false true.
  - close_step Hi a b true w h.
Qed.

Lemma step_boost_ok s i :
  lock_ok n s -> threads s !! i = Some Sharing ->
  lock_ok n (asked i BOOSTED (BoostSharedLock (lock s)) (threads s)).
Proof.
  intros Hinv Hi. unfold BoostSharedLock. prepare Hi. unfold nonzero.
  destruct (negb (negb _)) eqn:E; cbn [fst snd granted].
  - close_step Hi a b c true false.
  - close_step Hi a true c w h.
Qed.

Lemma step_retry_ok s i h0 :
  lock_ok n s -> threads s !! i = Some (Awake h0) ->
  lock_ok n (asked i h0 (obtain_retry h0 (lock s)) (threads s)).
Proof.
  intros Hinv Hi. destruct h0; prepare Hi; rewrite ?on_write, ?nonzero_ecode; unfold nonzero.
  - destruct w eqn:E; cbn [fst snd granted].
    + close_step Hi true b c true h.
    + close_step Hi a b c false h.
  - destruct ((w || h) || _) eqn:E; cbn [fst snd granted].
    + close_step Hi a true c w h.
    + close_step Hi a b c true false.
  - destruct (w || h) eqn:E; cbn [fst snd granted].
    + close_step Hi a b true w h.
    + close_step Hi a b c false true.
  - destruct (negb _) eqn:E; cbn [fst snd granted].
    + close_step Hi a true c w h.
    + close_step Hi a b c true false.
Qed.

Lemma step_try_ok s i old new l :
  lock_ok n s -> threads s !! i = Some old -> old = Out ->
  (new = Reading /\ ObtainReadLockNoBlock (lock s) = (0, l)
   \/ new = Writing /\ ObtainWriteLockNoBlock (lock s) = (0, l)
   \/ new = Sharing /\ ObtainSharedLockNoBlock (lock s) = (0, l)) ->
  lock_ok n (mkSys l (<[i := new]> (threads s))).
Proof.
  intros Hinv Hi -> [[-> E]|[[-> E]|[-> E]]].
  - pose proof (step_read_ok s i Hinv Hi) as H. unfold ObtainReadLock, ObtainReadLockNoBlock in *.
    destruct (_ && _); [|done]. injection E as <-. exact H.
  - pose proof (step_write_ok s i Hinv Hi) as H. unfold ObtainWriteLock, ObtainWriteLockNoBlock in *.
    destruct (_ && _); [|done]. injection E as <-. exact H.
  - pose proof (step_shared_ok s i Hinv Hi) as H. unfold ObtainSharedLock, ObtainSharedLockNoBlock in *.
    destruct (_ && _); [|done]. injection E as <-. exact H.
Qed.

Lemma step_unboost_ok s i :
  lock_ok n s -> threads s !! i = Some Writing ->
  lock_ok n (released i Sharing (UnboostSharedLock (lock s)) (threads s)).
Proof.
  intros Hinv Hi. unfold UnboostSharedLock. prepare Hi. rewrite nonzero_wcode, on_read.
  destruct a eqn:Ea; cbn [orb fst snd].
  - close_step Hi false b c false true.
  - destruct (b || c) eqn:E; cbn [fst snd].
    + close_step Hi false false false false true.
    + close_step Hi false b c false true.
Qed.

Lemma step_release_read_ok s i :
  lock_ok n s -> threads s !! i = Some Reading ->
  lock_ok n (released i Out (ReleaseReadLock (lock s)) (threads s)).
Proof.
  intros Hinv Hi. unfold ReleaseReadLock. prepare Hi. rewrite nonzero_wcode, on_excl. unfold nonzero.
  rewrite u8_small by mlia.
  destruct (negb (negb _) && _) eqn:E; cbn [fst snd].
  - destruct (b || c) eqn:Ebc; cbn [fst snd].
    + close_step Hi a false false w h.
    + close_step Hi false b c w h.
  - close_step Hi a b c w h.
Qed.

Lemma step_release_write_ok s i :
  lock_ok n s -> threads s !! i = Some Writing ->
  lock_ok n (released i Out (ReleaseWriteLock (lock s)) (threads s)).
Proof.
  intros Hinv Hi. unfold ReleaseWriteLock. prepare Hi. rewrite nonzero_wcode, on_read.
  destruct a eqn:Ea; cbn [orb fst snd].
  - close_step Hi false b c false h.
  - destruct (b || c) eqn:E; cbn [fst snd].
    + close_step Hi false false false false h.
    + close_step Hi false b c false h.
Qed.

Lemma step_release_shared_ok s i :
  lock_ok n s -> threads s !! i = Some Sharing \/ threads s !! i = Some Writing ->
  lock_ok n (released i Out (ReleaseSharedLock (lock s)) (threads s)).
Proof.
  intros Hinv [Hi|Hi]; unfold ReleaseSharedLock; prepare Hi; rewrite nonzero_wcode, on_read;
    (destruct a eqn:Ea; cbn [orb fst snd];
     [close_step Hi false b c false false|destruct (b || c) eqn:E; cbn [fst snd];
      [close_step Hi false false false false false|close_step Hi false b c false false]]).
Qed.

Lemma step_convert_ok s i :
  lock_ok n s -> threads s !! i = Some Writing ->
  lock_ok n (released i Reading (ConvertWriteToReadLock (lock s)) (threads s)).
Proof.
  intros Hinv Hi. unfold ConvertWriteToReadLock. prepare Hi. rewrite !on_read.
  destruct a eqn:Ea; cbn [orb fst snd].
  - close_step Hi false b c false h.
  - close_step Hi false b c false h.
Qed.

Lemma step_ok s s' : lock_ok n s -> step s s' -> lock_ok n s'.
Proof.
  intros Hinv Hst. destruct Hst.
  - by apply step_read_ok.
  - by apply step_write_ok.
  - by apply step_shared_ok.
  - by apply step_boost_ok.
  - by apply step_retry_ok.
  - eapply step_try_ok; eauto.
  - eapply step_try_ok; eauto.
  - eapply step_try_ok; eauto.
  - by apply step_unboost_ok.
  - by apply step_release_read_ok.
  - by apply step_release_write_ok.
  - by apply step_release_shared_ok.
  - by apply step_convert_ok.
Qed.

Lemma reachable_ok s : reachable n s -> lock_ok n s.
Proof. induction 1; [apply lock_ok_init|by eapply step_ok]. Qed.

End Preservation.



(** ** What POSIX allows: spurious wakeups

    [pthread_cond_wait] may return without a broadcast.  A reader that wakes up
    by itself takes the lock and leaves its wait bit behind; a later release then
    wakes the readers, of whom there are none, and not the waiting writer. *)

Inductive step_spurious (s : system) : system -> Prop :=
  | sp_step s' : step s s' -> step_spurious s s'
  | sp_wakeup i h : threads s !! i = Some (Asleep h) ->
      step_spurious s (mkSys (lock s) (<[i := Awake h]> (threads s))).

Inductive reachable_spurious (n : nat) : system -> Prop :=
  | rs_init : reachable_spurious n (mkSys Lock_Init (repeat Out n))
  | rs_step s s' : reachable_spurious n s -> step_spurious s s' -> reachable_spurious n s'.

(** Steps of concrete systems. *)
Lemma step_to s s1 s2 : step s s1 -> s1 = s2 -> step s s2.
Proof. by intros H <-. Qed.

Tactic Notation "do_step" uconstr(H) :=
  eapply step_to; [apply H; reflexivity|vm_compute; reflexivity].

(** With spurious wakeups a writer can sleep for ever on a free lock: there
    is a run of three threads after which nobody holds the lock, nobody has been
    woken, and one thread sleeps; a reader that comes then sleeps too. *)
Theorem afs_lock_spurious_wakeup_lost :
  exists s, reachable_spurious 3 s
    /\ excl_locked (lock s) = 0 /\ readers_reading (lock s) = 0
    /\ threads s = [Out; Asleep WRITE; Out]
    /\ fst (ObtainReadLock (lock s)) = false.
Proof.
  assert (H1 : reachable_spurious 3 (mkSys (mkLock 0 4 0 0) [Sharing; Out; Out])).
  { eapply rs_step; [apply rs_init|apply sp_step; do_step (st_shared _ 0%nat)]. }
  assert (H2 : reachable_spurious 3 (mkSys (mkLock 2 4 0 1) [Sharing; Asleep WRITE; Out])).
  { eapply rs_step; [exact H1|apply sp_step; do_step (st_write _ 1%nat)]. }
  assert (H3 : reachable_spurious 3 (mkSys (mkLock 3 4 0 2) [Sharing; Asleep WRITE; Asleep READ])).
  { eapply rs_step; [exact H2|apply sp_step; do_step (st_read _ 2%nat)]. }
  assert (H4 : reachable_spurious 3 (mkSys (mkLock 3 4 0 2) [Sharing; Asleep WRITE; Awake READ])).
  { eapply rs_step; [exact H3|].
    exact (sp_wakeup (mkSys (mkLock 3 4 0 2) [Sharing; Asleep WRITE; Asleep READ]) 2%nat READ eq_refl). }
  assert (H5 : reachable_spurious 3 (mkSys (mkLock 3 4 1 1) [Sharing; Asleep WRITE; Reading])).
  { eapply rs_step; [exact H4|apply sp_step; do_step (st_retry _ 2%nat READ)]. }
  assert (H6 : reachable_spurious 3 (mkSys (mkLock 1 4 0 1) [Sharing; Awake WRITE; Out])).
  { eapply rs_step; [exact H5|apply sp_step; do_step (st_release_read _ 2%nat)]. }
  assert (H7 : reachable_spurious 3 (mkSys (mkLock 3 4 0 1) [Sharing; Asleep WRITE; Out])).
  { eapply rs_step; [exact H6|apply sp_step; do_step (st_retry _ 1%nat WRITE)]. }
  exists (mkSys (mkLock 2 0 0 1) [Out; Asleep WRITE; Out]).
  split; [|vm_compute; repeat split].
  eapply rs_step; [exact H7|apply sp_step; eapply step_to;
    [apply (st_release_shared _ 0%nat); left; reflexivity|vm_compute; reflexivity]].
Qed.

(** The 256th reader makes the 8-bit counter wrap, and a writer gets in. *)
Example reader_count_wraps :
  let l := Nat.iter 256 (fun l => snd (ObtainReadLock l)) Lock_Init in
  readers_reading l = 0 /\ fst (ObtainWriteLock l) = true.
Proof. vm_compute. split; reflexivity. Qed.

(** Two readers and a writer: the writer waits, then has the lock alone. *)
Lemma demo_writer :
  reachable 2 (mkSys (mkLock 0 WRITE_LOCK 0 0) [Out; Writing])
  /\ reachable 2 (mkSys (mkLock 2 0 1 1) [Reading; Asleep WRITE]).
Proof.
  assert (H1 : reachable 2 (mkSys (mkLock 2 0 1 1) [Reading; Asleep WRITE])).
  { eapply (re_step _ (mkSys (mkLock 0 0 1 0) [Reading; Out])); [|do_step (st_write _ 1%nat)].
    eapply (re_step _ (mkSys Lock_Init [Out; Out])); [apply re_init|do_step (st_read _ 0%nat)]. }
  split; [|exact H1].
  eapply (re_step _ (mkSys (mkLock 0 0 0 1) [Out; Awake WRITE])); [|do_step (st_retry _ 1%nat WRITE)].
  eapply re_step; [exact H1|do_step (st_release_read _ 0%nat)].
Qed.


