(* ===== verification/UbikLock.v ===== *)
(** * Transaction locks of Ubik: ubik/lock.c

    One AFS lock protects the database; a transaction takes it for reading or
    writing and gives it back when it ends. *)

From S2P Require Import Prelude AfsLock.
From stdpp Require Import prelude list.
From Stdlib Require Import ZArith Lia.

#[local] Open Scope Z_scope.

Definition LOCKREAD := 1.
Definition LOCKWRITE := 2.
Definition LOCKWAIT := 3.
Definition EINVAL := 22.
Definition EAGAIN := 11.
Definition UDONE := 5388.

(** What lock.c uses of a transaction. *)
Record ltrans := mkLtrans {
  l_done : bool;        (* TRDONE *)
  l_readwrite : bool;   (* TRREADWRITE *)
  locktype : Z
}.

Definition set_locktype (x : Z) (t : ltrans) : ltrans := mkLtrans (l_done t) (l_readwrite t) x.

(** The macros as they are written. *)
Definition WouldReadBlock (l : Lock) : bool :=
  if on (excl_locked l) WRITE_LOCK || nonzero (wait_states l) then false else true.
Definition WouldWriteBlock (l : Lock) : bool :=
  if on (excl_locked l) WRITE_LOCK || nonzero (readers_reading l) then false else true.

Inductive lock_result :=
  | Code (c : Z)     (* the function returns *)
  | Waiting          (* the thread sleeps in ObtainReadLock or ObtainWriteLock *)
  | Abort.

Definition ulock_getLock (t : ltrans) (atype : Z) (await : bool) (l : Lock)
    : lock_result * ltrans * Lock :=
  if negb (atype =? LOCKREAD) && negb (atype =? LOCKWRITE) then (Code EINVAL, t, l)
  else if l_done t then (Code UDONE, t, l)
  else if negb (atype =? LOCKREAD) && l_readwrite t then (Code EINVAL, t, l)
  else if negb (locktype t =? 0) then (Abort, t, l)
  else if negb await && negb (l_readwrite t)
          && (if atype =? LOCKREAD then WouldReadBlock l else WouldWriteBlock l)
  then (Code EAGAIN, t, l)
  else if l_readwrite t then (Code 0, set_locktype atype t, l)
  else
    let (got, l') := if atype =? LOCKREAD then ObtainReadLock l else ObtainWriteLock l in
    if got then (Code 0, set_locktype atype t, l') else (Waiting, set_locktype LOCKWAIT t, l').

(** [None]: the internal error that aborts the server. *)
Definition ulock_relLock (t : ltrans) (l : Lock) : option (wakeup * ltrans * Lock) :=
  if (locktype t =? LOCKWRITE) && l_readwrite t then None
  else
    let (w, l') :=
      if l_readwrite t then (NoWakeup, l)
      else if locktype t =? LOCKREAD then ReleaseReadLock l
      else if locktype t =? LOCKWRITE then ReleaseWriteLock l
      else (NoWakeup, l) in
    Some (w, set_locktype 0 t, l').

(** Without waiting, the answer is the wrong way round: a lock that nobody
    holds or waits for is refused with EAGAIN, and for a lock that another
    transaction holds for writing the caller sleeps although it asked not to. *)
Theorem ulock_nowait_inverted t atype l :
  atype = LOCKREAD \/ atype = LOCKWRITE ->
  l_done t = false -> l_readwrite t = false -> locktype t = 0 ->
  (excl_locked l = 0 /\ wait_states l = 0 /\ readers_reading l = 0 ->
     fst (fst (ulock_getLock t atype false l)) = Code EAGAIN)
  /\ (excl_locked l = WRITE_LOCK -> fst (fst (ulock_getLock t atype false l)) = Waiting).
Proof.
  intros Hty Hd Hrw Hl. unfold ulock_getLock. rewrite Hd, Hrw, Hl.
  destruct Hty as [->| ->].
  - change (LOCKREAD =? LOCKREAD) with true. cbn [negb andb Z.eqb].
    change (negb (0 =? 0)) with false. cbn iota.
    split.
    + intros (E1 & E2 & E3). unfold WouldReadBlock. by rewrite E1, E2.
    + intros E1. unfold WouldReadBlock, ObtainReadLock. by rewrite E1.
  - change (LOCKWRITE =? LOCKREAD) with false. change (LOCKWRITE =? LOCKWRITE) with true.
    cbn [negb andb]. change (negb (0 =? 0)) with false. cbn iota.
    split.
    + intros (E1 & E2 & E3). unfold WouldWriteBlock. by rewrite E1, E3.
    + intros E1. unfold WouldWriteBlock, ObtainWriteLock. by rewrite E1.
Qed.

Lemma ulock_nowait_inverted_witness :
  fst (fst (ulock_getLock (mkLtrans false false 0) LOCKREAD false Lock_Init)) = Code EAGAIN.
Proof.
  apply (ulock_nowait_inverted (mkLtrans false false 0) LOCKREAD Lock_Init).
  - left. reflexivity.
  - reflexivity.
  - reflexivity.
  - reflexivity.
  - repeat split.
Defined.
