(* ===== verification/ByteMem.v ===== *)
(** * Bytes of a file as a function, and lists threaded through it

    A file is a function from offsets to bytes.  [word] and [bytes] read it, [upd]
    writes a list of bytes; the lemmas say what a write changes and what it leaves.
    [chain nx hd l]: following the links [nx] from the head [hd] one meets exactly
    the blocks [l] and then 0.  The volume location database and the directory
    package keep their hash chains this way. *)

From stdpp Require Import prelude list gmap.
From Stdlib Require Import ZArith Lia ZifyBool.
From S2P Require Import Prelude.

#[local] Open Scope Z_scope.

(** ** Bytes *)

Definition word (d : Z -> Z) (a : Z) : Z :=
  d a * 2 ^ 24 + d (a + 1) * 2 ^ 16 + d (a + 2) * 2 ^ 8 + d (a + 3).

Definition bytes (d : Z -> Z) (a : Z) (n : nat) : list Z :=
  map (fun i => d (a + Z.of_nat i)) (seq 0 n).

Definition upd (d : Z -> Z) (a : Z) (l : list Z) (x : Z) : Z :=
  if (a <=? x) && (x <? a + Z.of_nat (length l)) then nth (Z.to_nat (x - a)) l 0 else d x.

(** The bytes of a C string in a buffer. *)
Fixpoint cstr (l : list Z) : list Z :=
  match l with
  | [] => []
  | c :: rest => if c =? 0 then [] else c :: cstr rest
  end.

Definition words32 (l : list Z) : list Z := concat (map be32 l).

Lemma upd_out d a l x :
  x < a \/ a + Z.of_nat (length l) <= x -> upd d a l x = d x.
Proof. intros Hx. unfold upd. by destruct (_ && _) eqn:E; [lia|]. Qed.

Lemma upd_in d a l i :
  (i < length l)%nat -> upd d a l (a + Z.of_nat i) = nth i l 0.
Proof.
  intros Hi. unfold upd. destruct (_ && _) eqn:E; [|lia]. f_equal; lia.
Qed.

Lemma word_ext d d' a :
  (forall x, a <= x < a + 4 -> d x = d' x) -> word d a = word d' a.
Proof. intros E. unfold word. rewrite !E by lia. reflexivity. Qed.

Lemma bytes_ext d d' a n :
  (forall x, a <= x < a + Z.of_nat n -> d x = d' x) -> bytes d a n = bytes d' a n.
Proof.
  intros E. unfold bytes. apply map_ext_in. intros i Hi%in_seq. apply E. lia.
Qed.

Lemma word_upd_out d a l x :
  x + 4 <= a \/ a + Z.of_nat (length l) <= x -> word (upd d a l) x = word d x.
Proof. intros Hx. apply word_ext. intros y Hy. apply upd_out. lia. Qed.

Lemma word_of_be32 d a v :
  (forall i, (i < 4)%nat -> d (a + Z.of_nat i) = nth i (be32 v) 0) -> word d a = u32 v.
Proof.
  intros E. pose proof (E 0%nat ltac:(lia)) as E0. pose proof (E 1%nat ltac:(lia)) as E1.
  pose proof (E 2%nat ltac:(lia)) as E2. pose proof (E 3%nat ltac:(lia)) as E3.
  change (Z.of_nat 0) with 0 in E0. rewrite Z.add_0_r in E0.
  change (Z.of_nat 1) with 1 in E1. change (Z.of_nat 2) with 2 in E2.
  change (Z.of_nat 3) with 3 in E3.
  unfold word. rewrite E0, E1, E2, E3. cbn [nth be32]. mlia.
Qed.

Lemma word_upd_be32 d a v : word (upd d a (be32 v)) a = u32 v.
Proof. apply word_of_be32. intros i Hi. apply upd_in. cbn. lia. Qed.

Lemma bytes_upd_mid d a l1 l2 l3 :
  bytes (upd d a (l1 ++ l2 ++ l3)) (a + Z.of_nat (length l1)) (length l2) = l2.
Proof.
  apply nth_ext with 0 0; unfold bytes; [by rewrite length_map, length_seq|].
  rewrite length_map, length_seq. intros i Hi.
  rewrite nth_indep with (d' := (fun i => upd d a (l1 ++ l2 ++ l3)
    (a + Z.of_nat (length l1) + Z.of_nat i)) 0%nat) by by rewrite length_map, length_seq.
  rewrite (map_nth (fun i => upd d a (l1 ++ l2 ++ l3) (a + Z.of_nat (length l1) + Z.of_nat i))).
  rewrite seq_nth by done. cbn.
  replace (a + Z.of_nat (length l1) + Z.of_nat i) with (a + Z.of_nat (length l1 + i)) by lia.
  rewrite upd_in by (rewrite !length_app; lia).
  rewrite app_nth2_plus. by rewrite app_nth1.
Qed.

Lemma words32_length l : length (words32 l) = (4 * length l)%nat.
Proof. induction l as [|x l IH]; [done|]. cbn in *. unfold words32 in *. lia. Qed.

Lemma word_upd_words32 d a l1 v l2 r :
  word (upd d a (words32 (l1 ++ v :: l2) ++ r)) (a + 4 * Z.of_nat (length l1)) = u32 v.
Proof.
  apply word_of_be32. intros i Hi.
  replace (a + 4 * Z.of_nat (length l1) + Z.of_nat i)
    with (a + Z.of_nat (length (words32 l1) + i)) by (rewrite words32_length; lia).
  unfold words32. rewrite map_app, concat_app, <- app_assoc. cbn [map concat].
  rewrite upd_in by (rewrite !length_app, be32_length; fold (words32 l1);
                     rewrite words32_length; lia).
  fold (words32 l1). rewrite app_nth2_plus, <- app_assoc. by rewrite app_nth1.
Qed.

(** The words of a written record, by index. *)
Lemma read_word_at d a l1 v l2 r ws k :
  ws = l1 ++ v :: l2 -> k = 4 * Z.of_nat (length l1) ->
  word (upd d a (words32 ws ++ r)) (a + k) = u32 v.
Proof. intros -> ->. apply word_upd_words32. Qed.

Lemma read_bytes_at d a l1 l2 l3 l k n :
  l = l1 ++ l2 ++ l3 -> k = Z.of_nat (length l1) -> n = length l2 ->
  bytes (upd d a l) (a + k) n = l2.
Proof. intros -> -> ->. apply bytes_upd_mid. Qed.

Lemma upd_u8 d a l : (forall x, is_u8 (d x)) -> Forall is_u8 l -> forall x, is_u8 (upd d a l x).
Proof.
  intros Hd Hl x. unfold upd. destruct (_ && _) eqn:E; [|done].
  rewrite List.Forall_forall in Hl. apply Hl. apply nth_In. lia.
Qed.

Lemma word_u32 d a : (forall x, is_u8 (d x)) -> is_u32 (word d a).
Proof.
  intros Hd. pose proof (Hd a). pose proof (Hd (a + 1)). pose proof (Hd (a + 2)).
  pose proof (Hd (a + 3)). unfold word. mlia.
Qed.

Lemma cstr_idem l : cstr (cstr l) = cstr l.
Proof. induction l as [|c l IH]; [done|]. cbn. destruct (c =? 0) eqn:E; [done|]. cbn. by rewrite E, IH. Qed.

Lemma cstr_take n l : cstr l = l -> cstr (take n l) = take n l.
Proof.
  revert n. induction l as [|c l IH]; intros [|n] E; cbn in *; try done.
  destruct (c =? 0); [discriminate|]. injection E as E. by rewrite IH.
Qed.

(** ** Chains *)

Fixpoint chain (nx : Z -> Z) (hd : Z) (l : list Z) : Prop :=
  match l with
  | [] => hd = 0
  | b :: r => hd = b /\ b <> 0 /\ chain nx (nx b) r
  end.

Lemma chain_ext nx nx' hd l :
  (forall b, b ∈ l -> nx b = nx' b) -> chain nx hd l -> chain nx' hd l.
Proof.
  revert hd. induction l as [|b l IH]; intros hd E H; [done|].
  destruct H as (-> & Hb & H). split; [done|]. split; [done|].
  rewrite <- E by left. apply IH; [|done]. intros c Hc. apply E. by right.
Qed.

Lemma chain_cons nx nx' b hd l :
  b <> 0 -> nx' b = hd -> (forall c, c ∈ l -> nx c = nx' c) -> chain nx hd l ->
  chain nx' b (b :: l).
Proof. intros Hb <- E H. split; [done|]. split; [done|]. by apply (chain_ext nx). Qed.

(** The chain up to a given block. *)
Lemma chain_split nx hd l1 b l2 :
  chain nx hd (l1 ++ b :: l2) ->
  chain nx (nx b) l2 /\ b <> 0 /\ List.hd b l1 = hd
  /\ (forall l p, l1 = l ++ [p] -> nx p = b).
Proof.
  revert hd. induction l1 as [|c l1 IH]; intros hd H.
  - destruct H as (-> & Hb & H). repeat split; try done.
    intros l p E. by destruct l.
  - destruct H as (-> & Hc & H). destruct (IH _ H) as (H1 & H2 & H3 & H4).
    repeat split; try done. intros l p E.
    destruct l as [|x l]; injection E as -> E'; [|by apply (H4 l)].
    subst l1. by cbn in H3.
Qed.

(** Taking a block out: the block before it, or the head, gets its link. *)
Lemma chain_remove nx nx' hd hd' l1 b l2 :
  chain nx hd (l1 ++ b :: l2) -> NoDup (l1 ++ b :: l2) ->
  match last l1 with
  | None => hd' = nx b /\ (forall c, c ∈ l2 -> nx' c = nx c)
  | Some p => hd' = hd /\ nx' p = nx b /\ (forall c, c ∈ l1 ++ l2 -> c <> p -> nx' c = nx c)
  end ->
  chain nx' hd' (l1 ++ l2).
Proof.
  revert hd hd'. induction l1 as [|c l1 IH]; intros hd hd' H Hnd Hl.
  - destruct Hl as [-> E]. destruct H as (_ & _ & H). cbn.
    apply (chain_ext nx); [|done]. intros c Hc. symmetry. by apply E.
  - cbn in Hnd. apply NoDup_cons in Hnd as [Hc Hnd]. destruct H as (-> & Hc0 & H).
    destruct l1 as [|c' l1].
    + cbn in Hl. destruct Hl as (-> & E1 & E2). cbn. split; [done|]. split; [done|].
      rewrite E1. destruct H as (_ & _ & H).
      apply (chain_ext nx); [|done]. intros x Hx. symmetry. apply E2; [by right|].
      intros ->. apply Hc. by right.
    + cbn [last] in Hl. change (last (c :: c' :: l1)) with (last (c' :: l1)) in Hl.
      destruct (last (c' :: l1)) as [p|] eqn:El; [|by apply last_None in El].
      destruct Hl as (-> & E1 & E2). split; [done|]. split; [done|].
      assert (Hp : p ∈ c' :: l1) by by apply last_Some_elem_of.
      assert (c <> p).
      { intros ->. apply Hc. apply elem_of_app. by left. }
      apply (IH (nx c)); [done|done|]. rewrite E2 by (done || by left).
      split; [done|]. split; [done|]. intros x Hx. apply E2. by right.
Qed.
