(* ===== verification/Vldb.v ===== *)
(** * The volume location database: entries, hash chains and free list
    (vlserver/vlutils.c)

    The database is the byte contents of ubik file 0 as the transaction sees
    them.  Offsets, field layouts and the out-of-line writes of single words are
    those of [struct vlheader], [struct nvlentry] and [struct vlentry].  The cached
    header ([ctx->cheader], network byte order in memory and on disk) is the array
    of its 32-bit words, by value.  Every [vlread] and [vlwrite] can fail. *)

From stdpp Require Import prelude list gmap.
From Stdlib Require Import ZArith Lia ZifyBool.
From S2P Require Import Prelude ByteMem.

#[local] Open Scope Z_scope.

Definition HASHSIZE := 8191.
Definition NULLO := 0.
Definition MAXTYPES := 3.
Definition RWVOL := 0.
Definition ROVOL := 1.
Definition BACKVOL := 2.
Definition BADSERVERID := 255.
Definition VLFREE := 1.
Definition VLCONTBLOCK := 8.
Definition VL_ADDREXTBLK_SIZE := 8192.
Definition VL_MAXNAMELEN := 65.
Definition sizeof_nvlentry := 148.

(** vl_errors.et *)
Definition VL_IO := 363521.
Definition VL_NOENT := 363524.
Definition VL_BADINDEX := 363528.
Definition VL_IDALREADYHASHED := 363540.

(** ** The header as words: [vital_header] (10 words), [IpMappedAddr] (255),
    [VolnameHash], [VolidHash] and [SIT] *)

Definition w_freePtr := 2.
Definition w_eofPtr := 3.
Definition w_allocs := 4.
Definition w_frees := 5.
Definition w_VolnameHash (h : Z) : Z := 265 + h.
Definition w_VolidHash (t h : Z) : Z := 8456 + t * HASHSIZE + h.
Definition sizeof_vlheader := 132120.

Record vldb := mkVldb {
  disk : Z -> Z;
  cheader : Z -> Z;
  maxnservers : Z;
  io_faults : list bool
}.

Definition set_disk (d : Z -> Z) (s : vldb) : vldb :=
  mkVldb d (cheader s) (maxnservers s) (io_faults s).
Definition set_word (k v : Z) (s : vldb) : vldb :=
  mkVldb (disk s) (fun x => if x =? k then v else cheader s x) (maxnservers s) (io_faults s).

Definition freePtr (s : vldb) : Z := cheader s w_freePtr.
Definition eofPtr (s : vldb) : Z := cheader s w_eofPtr.

(** ** Code that may fail

    [Err c]: the routine returned the error [c]; [Loops]: the fuel of a chain
    walk ran out. *)

Inductive res (A : Type) :=
| Ok (a : A)
| Err (c : Z)
| Loops.
Arguments Ok {A} a.
Arguments Err {A} c.
Arguments Loops {A}.

Definition M (A : Type) : Type := vldb -> res A * vldb.
Definition ret {A} (a : A) : M A := fun s => (Ok a, s).
Definition fail {A} (c : Z) : M A := fun s => (Err c, s).
Definition bind {A B} (x : M A) (k : A -> M B) : M B :=
  fun s => match x s with
           | (Ok a, s') => k a s'
           | (Err c, s') => (Err c, s')
           | (Loops, s') => (Loops, s')
           end.
(** [if (x) return c;] *)
Definition or_code {A} (x : M A) (c : Z) : M A :=
  fun s => match x s with
           | (Err _, s') => (Err c, s')
           | r => r
           end.
(** The code of a call whose result is not acted upon at once. *)
Definition code_of {A} (x : M A) : M Z :=
  fun s => match x s with
           | (Ok _, s') => (Ok 0, s')
           | (Err c, s') => (Ok c, s')
           | (Loops, s') => (Loops, s')
           end.
Definition get {A} (f : vldb -> A) : M A := fun s => (Ok (f s), s).
Definition put_word (k v : Z) : M unit := fun s => (Ok tt, set_word k v s).

Declare Scope vl_scope.
Delimit Scope vl_scope with vl.
Notation "'do' x <- e ; k" := (bind e (fun x => k))
  (at level 10, x name, e at level 100, k at level 200) : vl_scope.
Notation "e ;; k" := (bind e (fun _ => k))
  (at level 100, k at level 200, right associativity) : vl_scope.
#[local] Open Scope vl_scope.

Definition next_io (s : vldb) : bool * vldb :=
  match io_faults s with
  | [] => (false, s)
  | b :: l => (b, mkVldb (disk s) (cheader s) (maxnservers s) l)
  end.

(** [vlread]/[vlwrite]: ubik's error code, here always [VL_IO], is never looked
    at beyond being non-zero. *)
Definition vlread {A} (f : (Z -> Z) -> A) : M A := fun s =>
  let (bad, s1) := next_io s in
  if bad then (Err VL_IO, s1) else (Ok (f (disk s1)), s1).

Definition vlwrite (offset : Z) (l : list Z) : M unit := fun s =>
  let (bad, s1) := next_io s in
  if bad then (Err VL_IO, s1) else (Ok tt, set_disk (upd (disk s1) offset l) s1).

(** ** Hash functions *)

(** [IDHash(volid)]: the argument is an [afs_int32], [abs] wraps. *)
Definition IDHash (volumeid : Z) : Z :=
  Z.rem (s32 (Z.abs (s32 volumeid))) HASHSIZE.

(** [NameHash]: from the last character to the first. *)
Definition NameHash (volumename : list Z) : Z :=
  fold_right (fun c hash => u32 (hash * 63 + (c - 63))) 0 (cstr volumename) mod HASHSIZE.

(** ** Entries *)

Record nvlentry := mkEntry {
  volumeId : list Z;          (* MAXTYPES *)
  flags : Z;
  LockAfsId : Z;
  LockTimestamp : Z;
  cloneId : Z;
  nextIdHash : list Z;        (* MAXTYPES *)
  nextNameHash : Z;
  name : list Z;              (* VL_MAXNAMELEN *)
  serverNumber : list Z;      (* NMAXNSERVERS *)
  serverPartition : list Z;
  serverFlags : list Z
}.

Definition zero_entry : nvlentry :=
  mkEntry [0;0;0] 0 0 0 0 [0;0;0] 0 (repeat 0 65) (repeat 0 13) (repeat 0 13) (repeat 0 13).

Definition volid_of (e : nvlentry) (t : Z) : Z := nth (Z.to_nat t) (volumeId e) 0.
Definition nextid_of (e : nvlentry) (t : Z) : Z := nth (Z.to_nat t) (nextIdHash e) 0.

Definition set_nextid (t v : Z) (e : nvlentry) : nvlentry :=
  mkEntry (volumeId e) (flags e) (LockAfsId e) (LockTimestamp e) (cloneId e)
    (<[Z.to_nat t := v]> (nextIdHash e)) (nextNameHash e) (name e) (serverNumber e)
    (serverPartition e) (serverFlags e).
Definition set_nextname (v : Z) (e : nvlentry) : nvlentry :=
  mkEntry (volumeId e) (flags e) (LockAfsId e) (LockTimestamp e) (cloneId e)
    (nextIdHash e) v (name e) (serverNumber e) (serverPartition e) (serverFlags e).

(** [struct nvlentry] on disk. *)
Definition new_layout (e : nvlentry) : list Z :=
  words32 (volumeId e ++ [flags e; LockAfsId e; LockTimestamp e; cloneId e]
           ++ nextIdHash e ++ [nextNameHash e])
  ++ name e ++ serverNumber e ++ serverPartition e ++ serverFlags e.

(** [struct vlentry] on disk: the older format, with eight servers. *)
Definition old_layout (e : nvlentry) : list Z :=
  words32 (volumeId e ++ [flags e; LockAfsId e; LockTimestamp e; cloneId e; 0]
           ++ nextIdHash e ++ [nextNameHash e; 0; 0])
  ++ name e ++ [0] ++ take 8 (serverNumber e) ++ take 8 (serverPartition e)
  ++ take 8 (serverFlags e) ++ [0; 0].

Definition ints (d : Z -> Z) (a : Z) : list Z := [word d a; word d (a + 4); word d (a + 8)].

Definition read_new (d : Z -> Z) (a : Z) : nvlentry :=
  mkEntry (ints d a) (s32 (word d (a + 12))) (s32 (word d (a + 16))) (s32 (word d (a + 20)))
    (word d (a + 24)) (ints d (a + 28)) (word d (a + 40)) (bytes d (a + 44) 65)
    (bytes d (a + 109) 13) (bytes d (a + 122) 13) (bytes d (a + 135) 13).

Definition read_old (d : Z -> Z) (a : Z) : nvlentry :=
  mkEntry (ints d a) (s32 (word d (a + 12))) (s32 (word d (a + 16))) (s32 (word d (a + 20)))
    (word d (a + 24)) (ints d (a + 32)) (word d (a + 44)) (bytes d (a + 56) 65)
    (bytes d (a + 122) 8 ++ repeat BADSERVERID 5) (bytes d (a + 130) 8 ++ repeat BADSERVERID 5)
    (bytes d (a + 138) 8 ++ repeat BADSERVERID 5).

Definition vlentrywrite (offset : Z) (e : nvlentry) : M unit :=
  do m <- get maxnservers;
  if m =? 13 then vlwrite offset (new_layout e) else vlwrite offset (old_layout e).

Definition vlentryread (offset : Z) : M nvlentry :=
  do m <- get maxnservers;
  if m =? 13 then vlread (fun d => read_new d offset) else vlread (fun d => read_old d offset).

(** ** Header and index checks *)

Definition write_vital_vlheader : M unit :=
  do ws <- get (fun s => map (fun i => cheader s (Z.of_nat i)) (seq 0 10));
  or_code (vlwrite 0 (words32 ws)) VL_IO.

(** Write word [k] of the cached header to its place on disk. *)
Definition write_word (k : Z) : M unit :=
  do v <- get (fun s => cheader s k);
  or_code (vlwrite (4 * k) (be32 v)) VL_IO.

(** [index_OK]: the first comparison is unsigned and 64 bits wide, the second
    unsigned and 32 bits wide. *)
Definition index_OK (s : vldb) (blockindex : Z) : bool :=
  negb ((blockindex mod 2 ^ 64 <? sizeof_vlheader) || (u32 (eofPtr s) <=? u32 blockindex)).

(** ** Allocation *)

Section Alloc.
Context `{ByteOrder}.

(** [field++] on a header field kept in network byte order. *)
Definition bump_raw (v : Z) : Z := ntohl (u32 (htonl v + 1)).

(** [AllocBlock]: the block and the zeroed entry; zero is any failure. *)
Definition AllocBlock : M (Z * nvlentry) :=
  do fp <- get freePtr;
  do b <- (if negb (fp =? 0) then
             do e <- or_code (vlentryread (s32 fp)) 0;
             put_word w_freePtr (nextid_of e 0) ;;
             ret (s32 fp)
           else
             do ep <- get eofPtr;
             put_word w_eofPtr (u32 (ep + sizeof_nvlentry)) ;;
             ret (s32 ep));
  do a <- get (fun s => cheader s w_allocs);
  put_word w_allocs (bump_raw a) ;;
  or_code write_vital_vlheader 0 ;;
  ret (b, zero_entry).

Definition FreeBlock (blockindex : Z) : M unit :=
  do ok <- get (fun s => index_OK s blockindex);
  if negb ok then fail VL_BADINDEX
  else
    do fp <- get freePtr;
    put_word w_freePtr (u32 blockindex) ;;
    or_code (vlwrite blockindex
               (new_layout (mkEntry [0;0;0] VLFREE 0 0 0 [fp;0;0] 0 (repeat 0 65)
                              (repeat 0 13) (repeat 0 13) (repeat 0 13)))) VL_IO ;;
    do f <- get (fun s => cheader s w_frees);
    put_word w_frees (bump_raw f) ;;
    write_vital_vlheader.

End Alloc.

(** ** Look-up *)

(** One chain of [VolidHash[t]]; the match is on the whole id. *)
Fixpoint find_id_chain (fuel : nat) (volid t blockindex : Z) : M (option (Z * nvlentry)) :=
  if blockindex =? NULLO then ret None
  else match fuel with
  | O => fun s => (Loops, s)
  | S fuel =>
      do e <- or_code (vlentryread blockindex) VL_IO;
      if volid =? volid_of e t then ret (Some (blockindex, e))
      else find_id_chain fuel volid t (s32 (nextid_of e t))
  end.

Definition find_id_type (fuel : nat) (volid t : Z) : M (option (Z * nvlentry)) :=
  do b <- get (fun s => s32 (cheader s (w_VolidHash t (IDHash volid))));
  find_id_chain fuel volid t b.

Definition FindByID (fuel : nat) (volid voltype : Z) : M (option (Z * nvlentry)) :=
  if voltype =? -1 then
    do r0 <- find_id_type fuel volid RWVOL;
    match r0 with
    | Some x => ret (Some x)
    | None =>
        do r1 <- find_id_type fuel volid ROVOL;
        match r1 with
        | Some x => ret (Some x)
        | None => find_id_type fuel volid BACKVOL
        end
    end
  else find_id_type fuel volid voltype.

Definition has_suffix (suffix l : list Z) : bool :=
  bool_decide (drop (length l - length suffix) l = suffix).

(** ".backup" and ".readonly" *)
Definition dot_backup : list Z := [46; 98; 97; 99; 107; 117; 112].
Definition dot_readonly : list Z := [46; 114; 101; 97; 100; 111; 110; 108; 121].

Definition base_name (volname : list Z) : list Z :=
  let l := cstr volname in
  let n := length l in
  if (8 <=? Z.of_nat n) && has_suffix dot_backup l then take (n - 7) l
  else if (10 <=? Z.of_nat n) && has_suffix dot_readonly l then take (n - 9) l
  else l.

Fixpoint find_name_chain (fuel : nat) (tname : list Z) (blockindex : Z)
    : M (option (Z * nvlentry)) :=
  if blockindex =? NULLO then ret None
  else match fuel with
  | O => fun s => (Loops, s)
  | S fuel =>
      do e <- or_code (vlentryread blockindex) VL_IO;
      if bool_decide (tname = cstr (name e)) then ret (Some (blockindex, e))
      else find_name_chain fuel tname (s32 (nextNameHash e))
  end.

Definition FindByName (fuel : nat) (volname : list Z) : M (option (Z * nvlentry)) :=
  let tname := base_name volname in
  do b <- get (fun s => s32 (cheader s (w_VolnameHash (NameHash tname))));
  find_name_chain fuel tname b.

(** [EntryIDExists]: is one of the non-zero ids in the database? *)
Fixpoint EntryIDExists (fuel : nat) (ids : list Z) : M bool :=
  match ids with
  | [] => ret false
  | id :: rest =>
      if negb (id =? 0) then
        do r <- FindByID fuel id (-1);
        match r with Some _ => ret true | None => EntryIDExists fuel rest end
      else EntryIDExists fuel rest
  end.

(** [NextUnusedID]: [n] bounds the number of ids tried. *)
Fixpoint next_unused (n fuel : nat) (id nfree bump : Z) : M Z :=
  if negb (nfree <? bump) then ret (u32 (id - nfree))
  else match n with
  | O => fun s => (Loops, s)
  | S n =>
      do r <- FindByID fuel id (-1);
      match r with
      | Some _ => next_unused n fuel (u32 (id + 1)) 0 bump
      | None => next_unused n fuel (u32 (id + 1)) (u32 (nfree + 1)) bump
      end
  end.

Definition NextUnusedID (n fuel : nat) (maxvolid bump : Z) : M Z :=
  next_unused n fuel maxvolid 0 bump.

(** ** Threading an entry on its chains and taking it off *)

Definition HashVolid (fuel : nat) (voltype blockindex : Z) (tentry : nvlentry) : M nvlentry :=
  do r <- FindByID fuel (volid_of tentry voltype) voltype;
  match r with
  | Some _ => fail VL_IDALREADYHASHED
  | None =>
      let k := w_VolidHash voltype (IDHash (volid_of tentry voltype)) in
      do old <- get (fun s => cheader s k);
      put_word k (u32 blockindex) ;;
      write_word k ;;
      ret (set_nextid voltype old tentry)
  end.

(** The loop of [UnhashVolid]: the block before [blockindex] on the chain. *)
Fixpoint unhash_id_walk (fuel : nat) (voltype blockindex nextblockindex : Z) : M Z :=
  match fuel with
  | O => fun s => (Loops, s)
  | S fuel =>
      do e <- or_code (vlentryread nextblockindex) VL_IO;
      let n := s32 (nextid_of e voltype) in
      if n =? NULLO then fail VL_NOENT
      else if n =? blockindex then ret nextblockindex
      else unhash_id_walk fuel voltype blockindex n
  end.

(** [DOFFSET(b, &tentry, &tentry.nextIdHash[t])] and [.nextNameHash]: offsets in
    [struct nvlentry]. *)
Definition off_nextid (t : Z) : Z := 28 + 4 * t.
Definition off_nextname : Z := 40.

Definition UnhashVolid (fuel : nat) (voltype blockindex : Z) (aentry : nvlentry) : M nvlentry :=
  if volid_of aentry voltype =? NULLO then ret aentry
  else
    let k := w_VolidHash voltype (IDHash (volid_of aentry voltype)) in
    do first <- get (fun s => s32 (cheader s k));
    (if first =? blockindex then
       put_word k (nextid_of aentry voltype) ;;
       write_word k
     else
       do prev <- unhash_id_walk fuel voltype blockindex first;
       or_code (vlwrite (prev + off_nextid voltype) (be32 (nextid_of aentry voltype))) VL_IO) ;;
    ret (set_nextid voltype 0 aentry).

(** The entry gets its link also when the write fails. *)
Definition HashVolname (blockindex : Z) (aentry : nvlentry) : M (Z * nvlentry) :=
  let k := w_VolnameHash (NameHash (name aentry)) in
  do old <- get (fun s => cheader s k);
  put_word k (u32 blockindex) ;;
  do c <- code_of (write_word k);
  ret (c, set_nextname old aentry).

Fixpoint unhash_name_walk (fuel : nat) (blockindex nextblockindex : Z) : M Z :=
  match fuel with
  | O => fun s => (Loops, s)
  | S fuel =>
      do e <- or_code (vlentryread nextblockindex) VL_IO;
      let n := s32 (nextNameHash e) in
      if n =? NULLO then fail VL_NOENT
      else if n =? blockindex then ret nextblockindex
      else unhash_name_walk fuel blockindex n
  end.

Definition UnhashVolname (fuel : nat) (blockindex : Z) (aentry : nvlentry) : M nvlentry :=
  let k := w_VolnameHash (NameHash (name aentry)) in
  do first <- get (fun s => s32 (cheader s k));
  (if first =? blockindex then
     put_word k (nextNameHash aentry) ;;
     write_word k
   else
     do prev <- unhash_name_walk fuel blockindex first;
     or_code (vlwrite (prev + off_nextname) (be32 (nextNameHash aentry))) VL_IO) ;;
  ret (set_nextname 0 aentry).

(** [ThreadVLentry]; the result of [HashVolname] is not looked at. *)
Definition ThreadVLentry (fuel : nat) (blockindex : Z) (tentry : nvlentry) : M nvlentry :=
  do ok <- get (fun s => index_OK s blockindex);
  if negb ok then fail VL_BADINDEX
  else
    do e1 <- HashVolid fuel RWVOL blockindex tentry;
    do e2 <- (if negb (volid_of e1 ROVOL =? 0) then HashVolid fuel ROVOL blockindex e1
              else ret e1);
    do e3 <- (if negb (volid_of e2 BACKVOL =? 0) then HashVolid fuel BACKVOL blockindex e2
              else ret e2);
    do ce <- HashVolname blockindex e3;
    write_vital_vlheader ;;
    or_code (vlentrywrite blockindex (snd ce)) VL_IO ;;
    ret (snd ce).

Definition UnthreadVLentry (fuel : nat) (blockindex : Z) (aentry : nvlentry) : M nvlentry :=
  do ok <- get (fun s => index_OK s blockindex);
  if negb ok then fail VL_BADINDEX
  else
    do e1 <- UnhashVolid fuel RWVOL blockindex aentry;
    do e2 <- UnhashVolid fuel ROVOL blockindex e1;
    do e3 <- UnhashVolid fuel BACKVOL blockindex e2;
    do e4 <- UnhashVolname fuel blockindex e3;
    do c <- code_of write_vital_vlheader;
    ret e4.

(** [NextEntry]: the next entry in use, its block and the number of entries
    estimated to remain.  [None]: no more entries. *)
Fixpoint next_entry_from (fuel : nat) (blockindex last : Z) : M (option (Z * nvlentry) * Z) :=
  if negb (blockindex <? last) then ret (None, 0)
  else match fuel with
  | O => fun s => (Loops, s)
  | S fuel =>
      do e <- or_code (vlentryread blockindex) (-1);
      if flags e =? VLCONTBLOCK then
        next_entry_from fuel (s32 (blockindex + VL_ADDREXTBLK_SIZE)) last
      else if negb (flags e =? VLFREE) then
        ret (Some (blockindex, e), s32 ((last - blockindex) / sizeof_nvlentry - 1))
      else next_entry_from fuel (s32 (blockindex + sizeof_nvlentry)) last
  end.

Definition NextEntry (fuel : nat) (blockindex : Z) : M (option (Z * nvlentry) * Z) :=
  do last <- get (fun s => s32 (eofPtr s));
  if blockindex =? 0 then next_entry_from fuel sizeof_vlheader last
  else
    do ok <- get (fun s => index_OK s blockindex);
    if negb ok then fail (-1)
    else next_entry_from fuel (s32 (blockindex + sizeof_nvlentry)) last.
