(* ===== verification/VldbChain.v ===== *)
(** * Volume location database: the hash chains represent a set of entries

    [vl_rep D s]: the database [s] holds exactly the entries [D], every one on the
    hash chain of its name and of each of its volume ids.  Look-ups find what is in
    [D]; threading an entry adds it to [D], unthreading takes it away. *)

From stdpp Require Import prelude list gmap.
From Stdlib Require Import ZArith Lia ZifyBool.
From S2P Require Import Prelude ByteMem Vldb.

#[local] Open Scope Z_scope.

(** ** Records *)

Lemma ints_ext d d' a :
  (forall x, a <= x < a + 12 -> d x = d' x) -> ints d a = ints d' a.
Proof. intros E. unfold ints. rewrite !(word_ext d d') by (intros; apply E; lia). done. Qed.

Lemma read_new_ext d d' a :
  (forall x, a <= x < a + 148 -> d x = d' x) -> read_new d a = read_new d' a.
Proof.
  intros E. unfold read_new.
  rewrite !(word_ext d d'), !(ints_ext d d'), !(bytes_ext d d') by (intros; apply E; lia).
  done.
Qed.

(** ** An entry read back is the entry written *)

Record entry_ok (e : nvlentry) : Prop := {
  ok_ids : length (volumeId e) = 3%nat /\ Forall is_u32 (volumeId e);
  ok_next : length (nextIdHash e) = 3%nat /\ Forall is_u32 (nextIdHash e);
  ok_ints : is_s32 (flags e) /\ is_s32 (LockAfsId e) /\ is_s32 (LockTimestamp e);
  ok_clone : is_u32 (cloneId e) /\ is_u32 (nextNameHash e);
  ok_name : length (name e) = 65%nat;
  ok_srv : length (serverNumber e) = 13%nat /\ length (serverPartition e) = 13%nat
           /\ length (serverFlags e) = 13%nat;
  ok_bytes : Forall is_u8 (name e ++ serverNumber e ++ serverPartition e ++ serverFlags e)
}.

Lemma three {A} (l : list A) : length l = 3%nat -> exists x y z, l = [x; y; z].
Proof. destruct l as [|x [|y [|z [|? ?]]]]; try discriminate. intros _. by exists x, y, z. Qed.

Lemma new_layout_length e : entry_ok e -> length (new_layout e) = 148%nat.
Proof.
  intros [[? _] [? _] _ _ ? (?&?&?) _]. unfold new_layout.
  rewrite !length_app, words32_length, !length_app. cbn. lia.
Qed.

Lemma read_new_layout d a e : entry_ok e -> read_new (upd d a (new_layout e)) a = e.
Proof.
  intros [[(v0 & v1 & v2 & Ev)%three Hv] [(n0 & n1 & n2 & En)%three Hn] (?&?&?) (?&?) Hname
           (Hs1 & Hs2 & Hs3) _].
  destruct e as [vs fl la lt cl ns nn nm sn sp sf]. cbn in *. subst vs ns.
  repeat match goal with H : Forall _ (_ :: _) |- _ => inversion_clear H end.
  unfold read_new, new_layout, ints. cbn [volumeId nextIdHash flags LockAfsId
    LockTimestamp cloneId nextNameHash name serverNumber serverPartition serverFlags app].
  set (ws := [v0; v1; v2; fl; la; lt; cl; n0; n1; n2; nn]).
  set (r := nm ++ sn ++ sp ++ sf).
  rewrite <- (Z.add_0_r a) at 2. rewrite <- !Z.add_assoc. cbn [Z.add Pos.add Pos.succ].
  rewrite (read_word_at d a [] v0 _ r ws), (read_word_at d a [v0] v1 _ r ws),
    (read_word_at d a [v0; v1] v2 _ r ws), (read_word_at d a [v0; v1; v2] fl _ r ws),
    (read_word_at d a [v0; v1; v2; fl] la _ r ws),
    (read_word_at d a [v0; v1; v2; fl; la] lt _ r ws),
    (read_word_at d a [v0; v1; v2; fl; la; lt] cl _ r ws),
    (read_word_at d a [v0; v1; v2; fl; la; lt; cl] n0 _ r ws),
    (read_word_at d a [v0; v1; v2; fl; la; lt; cl; n0] n1 _ r ws),
    (read_word_at d a [v0; v1; v2; fl; la; lt; cl; n0; n1] n2 _ r ws),
    (read_word_at d a [v0; v1; v2; fl; la; lt; cl; n0; n1; n2] nn _ r ws) by reflexivity.
  rewrite (read_bytes_at d a (words32 ws) nm (sn ++ sp ++ sf)) by (done || (cbn; lia)).
  rewrite (read_bytes_at d a (words32 ws ++ nm) sn (sp ++ sf))
    by (by rewrite <- ?app_assoc || (rewrite length_app; cbn; lia) || done).
  rewrite (read_bytes_at d a (words32 ws ++ nm ++ sn) sp sf)
    by (by rewrite <- ?app_assoc || (rewrite !length_app; cbn; lia) || done).
  rewrite (read_bytes_at d a (words32 ws ++ nm ++ sn ++ sp) sf [])
    by (by rewrite <- ?app_assoc, ?app_nil_r || (rewrite !length_app; cbn; lia) || done).
  rewrite !s32_u32, !s32_small, !u32_small by assumption. reflexivity.
Qed.

(** ** The four tables: volume ids of the three types, and names (number 3) *)

Definition key_hash (k : Z) (e : nvlentry) : Z :=
  if k =? 3 then NameHash (name e) else IDHash (volid_of e k).
Definition on_table (k : Z) (e : nvlentry) : bool := (k =? 3) || negb (volid_of e k =? 0).
Definition tbl_word (k h : Z) : Z := if k =? 3 then w_VolnameHash h else w_VolidHash k h.
Definition nx (k : Z) (d : Z -> Z) (b : Z) : Z := s32 (word d (b + (28 + 4 * k))).

(** An entry without its links. *)
Definition strip (e : nvlentry) : nvlentry :=
  mkEntry (volumeId e) (flags e) (LockAfsId e) (LockTimestamp e) (cloneId e) [0; 0; 0] 0
    (name e) (serverNumber e) (serverPartition e) (serverFlags e).

Definition key_ok (e : nvlentry) : Prop :=
  volid_of e RWVOL <> 0 /\ forall k, 0 <= k < 3 -> volid_of e k <> 2 ^ 31.

(** The entries are where they should be, the cached header is the one on disk. *)
Record data_ok (D : gmap Z nvlentry) (s : vldb) : Prop := {
  d_new : maxnservers s = 13;
  d_io : io_faults s = [];
  d_eof : sizeof_vlheader <= eofPtr s < 2 ^ 31;
  d_u8 : forall x, is_u8 (disk s x);
  d_hdr : forall w, 0 <= w < 33030 -> word (disk s) (4 * w) = cheader s w;
  d_block : forall b e, D !! b = Some e -> sizeof_vlheader <= b /\ b + 148 <= eofPtr s;
  d_disj : forall b c e e', D !! b = Some e -> D !! c = Some e' -> b <> c ->
             b + 148 <= c \/ c + 148 <= b;
  d_entry : forall b e, D !! b = Some e -> strip (read_new (disk s) b) = strip e
}.

Definition tbl_ok (k : Z) (D : gmap Z nvlentry) (s : vldb) : Prop :=
  forall h, 0 <= h < HASHSIZE -> exists l,
    NoDup l /\ chain (nx k (disk s)) (s32 (cheader s (tbl_word k h))) l
    /\ forall b, b ∈ l <-> exists e, D !! b = Some e /\ on_table k e = true /\ key_hash k e = h.

Record vl_rep (D : gmap Z nvlentry) (s : vldb) : Prop := {
  rep_data : data_ok D s;
  rep_tbl : forall k, 0 <= k < 4 -> tbl_ok k D s;
  rep_key : forall b e, D !! b = Some e -> key_ok e;
  rep_uniq : forall k b c e e', 0 <= k < 3 -> D !! b = Some e -> D !! c = Some e' ->
               volid_of e k <> 0 -> volid_of e k = volid_of e' k -> b = c
}.

(** ** Hash ranges *)

Lemma IDHash_range v : is_u32 v -> v <> 2 ^ 31 -> 0 <= IDHash v < HASHSIZE.
Proof.
  intros Hv Hn. unfold IDHash, HASHSIZE.
  assert (E : s32 (Z.abs (s32 v)) = Z.abs (s32 v)) by (apply s32_small; mlia).
  rewrite E. rewrite Z.rem_mod_nonneg by lia. apply Z.mod_pos_bound. lia.
Qed.

Lemma NameHash_range n : 0 <= NameHash n < HASHSIZE.
Proof. apply Z.mod_pos_bound. done. Qed.

Lemma tables k : 0 <= k < 4 -> k = 0 \/ k = 1 \/ k = 2 \/ k = 3.
Proof. lia. Qed.

Lemma volid_u32 e k : entry_ok e -> 0 <= k < 3 -> is_u32 (volid_of e k).
Proof.
  intros [[(v0 & v1 & v2 & Ev)%three Hv] _ _ _ _ _ _] Hk. rewrite Ev in Hv.
  repeat match goal with H : Forall _ (_ :: _) |- _ => inversion_clear H end.
  unfold volid_of. rewrite Ev.
  destruct (tables k ltac:(lia)) as [->|[->|[->| ->]]]; done || lia.
Qed.

Lemma key_hash_range k e :
  0 <= k < 4 -> entry_ok e -> key_ok e -> 0 <= key_hash k e < HASHSIZE.
Proof.
  intros Hk He [_ Hn]. unfold key_hash. destruct (k =? 3) eqn:E; [apply NameHash_range|].
  apply IDHash_range; [apply volid_u32; done || lia|apply Hn; lia].
Qed.

(** ** Reading *)

Lemma vlentryread_ok s b :
  maxnservers s = 13 -> io_faults s = [] -> vlentryread b s = (Ok (read_new (disk s) b), s).
Proof.
  intros Hm Hf. unfold vlentryread, bind, get. rewrite Hm. cbn.
  unfold vlread, next_io. by rewrite Hf.
Qed.

Lemma nextid_read d b k :
  0 <= k < 3 -> nextid_of (read_new d b) k = word d (b + (28 + 4 * k)).
Proof.
  intros Hk. destruct (tables k ltac:(lia)) as [->|[->|[->| ->]]]; [| | |lia];
    unfold nextid_of, read_new, ints; cbn; f_equal; lia.
Qed.

Lemma nextname_read d b : nextNameHash (read_new d b) = word d (b + (28 + 4 * 3)).
Proof. reflexivity. Qed.

Lemma find_id_chain_ok s fuel volid t hd l :
  maxnservers s = 13 -> io_faults s = [] -> 0 <= t < 3 ->
  chain (nx t (disk s)) hd l -> (length l <= fuel)%nat ->
  find_id_chain fuel volid t hd s
  = (Ok (option_map (fun b => (b, read_new (disk s) b))
          (List.find (fun b => volid =? volid_of (read_new (disk s) b) t) l)), s).
Proof.
  intros Hm Hf Ht. revert fuel hd. induction l as [|b l IH]; intros fuel hd H Hl.
  - cbn in H. subst hd. by destruct fuel.
  - destruct H as (-> & Hb & H). destruct fuel as [|fuel]; [cbn in Hl; lia|].
    cbn [find_id_chain List.find]. unfold NULLO. destruct (b =? 0) eqn:E; [lia|].
    unfold bind at 1, or_code. rewrite (vlentryread_ok s b Hm Hf).
    destruct (volid =? volid_of _ t) eqn:Ev; [done|].
    rewrite nextid_read by done. apply IH; [done|cbn in Hl; lia].
Qed.

Lemma find_name_chain_ok s fuel tname hd l :
  maxnservers s = 13 -> io_faults s = [] ->
  chain (nx 3 (disk s)) hd l -> (length l <= fuel)%nat ->
  find_name_chain fuel tname hd s
  = (Ok (option_map (fun b => (b, read_new (disk s) b))
          (List.find (fun b => bool_decide (tname = cstr (name (read_new (disk s) b)))) l)), s).
Proof.
  intros Hm Hf. revert fuel hd. induction l as [|b l IH]; intros fuel hd H Hl.
  - cbn in H. subst hd. by destruct fuel.
  - destruct H as (-> & Hb & H). destruct fuel as [|fuel]; [cbn in Hl; lia|].
    cbn [find_name_chain List.find]. unfold NULLO. destruct (b =? 0) eqn:E; [lia|].
    unfold bind at 1, or_code. rewrite (vlentryread_ok s b Hm Hf).
    destruct (bool_decide _) eqn:Ev; [done|].
    rewrite nextname_read. apply IH; [done|cbn in Hl; lia].
Qed.

Lemma nodup_size (D : gmap Z nvlentry) (l : list Z) :
  NoDup l -> (forall b, b ∈ l -> is_Some (D !! b)) -> (length l <= size D)%nat.
Proof.
  intros Hn Hl. rewrite <- (size_list_to_set (C := gset Z) l) by done.
  rewrite <- size_dom. apply subseteq_size. intros b Hb%elem_of_list_to_set.
  apply elem_of_dom. by apply Hl.
Qed.

Lemma tbl_chain k D s h :
  tbl_ok k D s -> 0 <= h < HASHSIZE -> exists l,
    NoDup l /\ chain (nx k (disk s)) (s32 (cheader s (tbl_word k h))) l
    /\ (length l <= size D)%nat
    /\ forall b, b ∈ l <-> exists e, D !! b = Some e /\ on_table k e = true /\ key_hash k e = h.
Proof.
  intros Ht Hh. destruct (Ht h Hh) as (l & Hn & Hc & Hl). exists l.
  repeat split; try apply Hl; try done.
  apply nodup_size; [done|]. intros b (e & He & _)%Hl. by exists e.
Qed.

Lemma strip_volid e e' k : strip e = strip e' -> volid_of e k = volid_of e' k.
Proof. intros E. unfold volid_of. by injection E as -> _ _ _ _ _ _ _ _. Qed.

Lemma strip_name e e' : strip e = strip e' -> name e = name e'.
Proof. by intros [=]. Qed.

(** What a look-up by id and type gives. *)
Definition id_result (D : gmap Z nvlentry) (s : vldb) (volid t : Z)
    (r : option (Z * nvlentry)) : Prop :=
  match r with
  | Some (b, e) => e = read_new (disk s) b
                   /\ exists e0, D !! b = Some e0 /\ strip e = strip e0 /\ volid_of e0 t = volid
  | None => forall b e, D !! b = Some e -> volid_of e t <> volid
  end.

Definition name_result (D : gmap Z nvlentry) (s : vldb) (tname : list Z)
    (r : option (Z * nvlentry)) : Prop :=
  match r with
  | Some (b, e) => e = read_new (disk s) b
                   /\ exists e0, D !! b = Some e0 /\ strip e = strip e0 /\ cstr (name e0) = tname
  | None => forall b e, D !! b = Some e -> cstr (name e) <> tname
  end.

Lemma find_id_type_ok D s fuel volid t :
  data_ok D s -> tbl_ok t D s -> 0 <= t < 3 -> is_u32 volid -> volid <> 0 ->
  volid <> 2 ^ 31 -> (size D <= fuel)%nat ->
  exists r, find_id_type fuel volid t s = (Ok r, s) /\ id_result D s volid t r.
Proof.
  intros Hd Ht Hk Hv Hv0 Hv1 Hf.
  destruct (tbl_chain t D s (IDHash volid) Ht) as (l & Hn & Hc & Hlen & Hl);
    [by apply IDHash_range|].
  unfold tbl_word in Hc. destruct (t =? 3) eqn:Et; [lia|].
  eexists. split.
  { unfold find_id_type, bind, get.
    apply find_id_chain_ok; [apply Hd|apply Hd|done|done|lia]. }
  destruct (List.find _ l) as [b|] eqn:Ef; cbn.
  - apply find_some in Ef as [Hb E]. apply list_elem_of_In, Hl in Hb as (e & He & _).
    split; [done|]. exists e. pose proof (d_entry _ _ Hd b e He) as Es.
    repeat split; [done..|]. rewrite <- (strip_volid _ _ t Es). lia.
  - intros b e He E. assert (Hb : b ∈ l).
    { apply Hl. exists e. split; [done|]. unfold on_table, key_hash. rewrite Et, E. split; lia. }
    apply list_elem_of_In in Hb. apply (find_none _ _ Ef) in Hb.
    rewrite (strip_volid _ _ t (d_entry _ _ Hd b e He)) in Hb. lia.
Qed.

Lemma base_name_cstr v : cstr (base_name v) = base_name v.
Proof.
  unfold base_name. pose proof (cstr_idem v).
  destruct (_ && _); [by apply cstr_take|]. destruct (_ && _); [by apply cstr_take|done].
Qed.

Lemma FindByName_ok D s fuel volname :
  data_ok D s -> tbl_ok 3 D s -> (size D <= fuel)%nat ->
  exists r, FindByName fuel volname s = (Ok r, s) /\ name_result D s (base_name volname) r.
Proof.
  intros Hd Ht Hf. pose proof (base_name_cstr volname) as Eb.
  set (tname := base_name volname) in *.
  destruct (tbl_chain 3 D s (NameHash tname) Ht) as (l & Hn & Hc & Hlen & Hl);
    [apply NameHash_range|].
  eexists. split.
  { unfold FindByName, bind, get. fold tname.
    apply find_name_chain_ok; [apply Hd|apply Hd|exact Hc|lia]. }
  destruct (List.find _ l) as [b|] eqn:Ef; cbn.
  - apply find_some in Ef as [Hb E%bool_decide_eq_true].
    apply list_elem_of_In, Hl in Hb as (e & He & _).
    split; [done|]. exists e. pose proof (d_entry _ _ Hd b e He) as Es.
    repeat split; [done..|]. by rewrite <- (strip_name _ _ Es).
  - intros b e He E. assert (Hb : b ∈ l).
    { apply Hl. exists e. split; [done|]. split; [done|].
      unfold key_hash, NameHash. cbn [Z.eqb Pos.eqb]. by rewrite E, Eb. }
    apply list_elem_of_In in Hb. apply (find_none _ _ Ef) in Hb.
    apply bool_decide_eq_false in Hb.
    by rewrite (strip_name _ _ (d_entry _ _ Hd b e He)), E in Hb.
Qed.

(** ** Writing header words *)

Definition hput (k v : Z) (s : vldb) : vldb :=
  set_disk (upd (disk s) (4 * k) (be32 v)) (set_word k v s).

Lemma put_write_word {A} k v (f : M A) s :
  io_faults s = [] -> bind (put_word k v) (fun _ => bind (write_word k) (fun _ => f)) s
  = f (hput k v s).
Proof.
  intros Hf. unfold bind, put_word, write_word, get, or_code, vlwrite, next_io. cbn.
  rewrite Hf. cbn. by rewrite Z.eqb_refl.
Qed.

Lemma hdr_u32 D s w : data_ok D s -> 0 <= w < 33030 -> is_u32 (cheader s w).
Proof. intros Hd Hw. rewrite <- (d_hdr _ _ Hd w Hw). apply word_u32, Hd. Qed.

Lemma tbl_word_range k h :
  0 <= k < 4 -> 0 <= h < HASHSIZE -> 265 <= tbl_word k h < 33029.
Proof.
  intros Hk Hh. unfold tbl_word, w_VolnameHash, w_VolidHash, HASHSIZE in *.
  destruct (k =? 3) eqn:E; lia.
Qed.

Lemma tbl_word_inj k h k' h' :
  0 <= k < 4 -> 0 <= k' < 4 -> 0 <= h < HASHSIZE -> 0 <= h' < HASHSIZE ->
  tbl_word k h = tbl_word k' h' -> k = k' /\ h = h'.
Proof.
  intros Hk Hk' Hh Hh'. unfold tbl_word, w_VolnameHash, w_VolidHash, HASHSIZE in *.
  destruct (k =? 3) eqn:E, (k' =? 3) eqn:E'; lia.
Qed.

Lemma hput_data D s w v :
  data_ok D s -> 10 <= w < 33030 -> is_u32 v -> data_ok D (hput w v s).
Proof.
  intros Hd Hw Hv. destruct Hd as [H1 H2 H3 H4 H5 H6 H7 H8].
  assert (Ee : eofPtr (hput w v s) = eofPtr s).
  { unfold eofPtr, hput, w_eofPtr. cbn [cheader set_disk set_word].
    destruct (3 =? w) eqn:E; [lia|done]. }
  split; try done.
  - by rewrite Ee.
  - apply upd_u8; [done|apply be32_bytes].
  - intros w' Hw'. unfold hput. cbn [cheader set_disk set_word disk].
    destruct (w' =? w) eqn:E.
    + replace w' with w by lia. rewrite word_upd_be32. by apply u32_small.
    + rewrite word_upd_out; [by apply H5|]. rewrite be32_length. lia.
  - intros b e He. rewrite Ee. by apply (H6 b e).
  - intros b e He. rewrite <- (H8 b e He). f_equal. apply read_new_ext. intros x Hx.
    apply upd_out. rewrite be32_length. specialize (H6 b e He).
    unfold sizeof_vlheader in H6. lia.
Qed.

(** Links in the entries are not changed by writing to the header. *)
Lemma nx_hput D s k w v b :
  data_ok D s -> 0 <= w < 33030 -> 0 <= k < 4 -> is_Some (D !! b) ->
  nx k (disk (hput w v s)) b = nx k (disk s) b.
Proof.
  intros Hd Hw Hk [e He]. unfold nx, hput. cbn [disk set_disk]. f_equal.
  apply word_upd_out. rewrite be32_length. pose proof (d_block _ _ Hd b e He) as Hb.
  unfold sizeof_vlheader in Hb. lia.
Qed.

Lemma hput_other s w v w' : w' <> w -> cheader (hput w v s) w' = cheader s w'.
Proof. intros H. unfold hput. cbn. destruct (w' =? w) eqn:E; [lia|done]. Qed.

Lemma hput_same s w v : cheader (hput w v s) w = v.
Proof. unfold hput. cbn. by rewrite Z.eqb_refl. Qed.

(** The list of blocks on a chain of table [k]. *)
Definition members (k : Z) (D : gmap Z nvlentry) (h : Z) (l : list Z) : Prop :=
  forall b, b ∈ l <-> exists e, D !! b = Some e /\ on_table k e = true /\ key_hash k e = h.

Lemma members_in k D h l b : members k D h l -> b ∈ l -> is_Some (D !! b).
Proof. intros Hl (e & He & _)%Hl. by exists e. Qed.

Lemma hput_tbl D s k k' h' v :
  data_ok D s -> 0 <= k < 4 -> 0 <= k' < 4 -> k <> k' -> 0 <= h' < HASHSIZE ->
  tbl_ok k D s -> tbl_ok k D (hput (tbl_word k' h') v s).
Proof.
  intros Hd Hk Hk' Hne Hh' Ht h Hh. destruct (Ht h Hh) as (l & Hn & Hc & Hl).
  exists l. split; [done|]. split; [|done].
  rewrite hput_other by (intros E; apply tbl_word_inj in E; lia).
  revert Hc. apply chain_ext. intros b Hb. symmetry.
  apply (nx_hput D); [done| |done|by apply (members_in k D h l)].
  pose proof (tbl_word_range k' h' Hk' Hh'). lia.
Qed.

(** ** Threading: the tables one after the other *)

Definition link (k : Z) (e : nvlentry) : Z := if k =? 3 then nextNameHash e else nextid_of e k.
Definition setlink (k v : Z) (e : nvlentry) : nvlentry :=
  if k =? 3 then set_nextname v e else set_nextid k v e.

Lemma strip_setlink k v e : strip (setlink k v e) = strip e.
Proof. unfold setlink. by destruct (k =? 3). Qed.

Lemma key_strip k e e' : strip e = strip e' -> key_hash k e = key_hash k e'.
Proof.
  intros E. unfold key_hash. by rewrite (strip_name _ _ E), (strip_volid _ _ k E).
Qed.

Lemma on_strip k e e' : strip e = strip e' -> on_table k e = on_table k e'.
Proof. intros E. unfold on_table. by rewrite (strip_volid _ _ k E). Qed.

Lemma link_setlink k v e :
  entry_ok e -> 0 <= k < 4 -> link k (setlink k v e) = v.
Proof.
  intros [_ [(n0 & n1 & n2 & En)%three _] _ _ _ _ _] Hk. unfold link, setlink, nextid_of.
  destruct (tables k Hk) as [->|[->|[->| ->]]]; cbn; rewrite ?En; done.
Qed.

Lemma link_setlink_three k k' v e :
  length (nextIdHash e) = 3%nat -> 0 <= k < 4 -> 0 <= k' < 4 -> k <> k' ->
  link k (setlink k' v e) = link k e.
Proof.
  intros (n0 & n1 & n2 & En)%three Hk Hk'. unfold link, setlink, nextid_of.
  destruct (tables k Hk) as [->|[->|[->| ->]]], (tables k' Hk') as [->|[->|[->| ->]]];
    cbn; rewrite ?En; done.
Qed.

Lemma link_setlink_ne k k' v e :
  entry_ok e -> 0 <= k < 4 -> 0 <= k' < 4 -> k <> k' -> link k (setlink k' v e) = link k e.
Proof. intros He. apply link_setlink_three, He. Qed.

Lemma setlink_ok k v e : 0 <= k < 4 -> is_u32 v -> entry_ok e -> entry_ok (setlink k v e).
Proof.
  intros Hk Hv He. pose proof He as [H1 [H2 H2'] H3 [H4 H4'] H5 H6 H7].
  unfold setlink. destruct (k =? 3) eqn:E; split; try done. cbn.
  split; [by rewrite length_insert|by apply Forall_insert].
Qed.

(** A table whose chain already starts at the new block, whose link is not on
    disk yet. *)
Definition tbl_half (k : Z) (D : gmap Z nvlentry) (b : Z) (e : nvlentry) (s : vldb) : Prop :=
  cheader s (tbl_word k (key_hash k e)) = u32 b /\ is_u32 (link k e) /\
  forall h, 0 <= h < HASHSIZE -> exists l,
    NoDup l /\ chain (nx k (disk s))
      (s32 (if h =? key_hash k e then link k e else cheader s (tbl_word k h))) l
    /\ members k D h l.

Record threading (n : Z) (D : gmap Z nvlentry) (b : Z) (e : nvlentry) (s : vldb) : Prop := {
  th_data : data_ok D s;
  th_entry : entry_ok e;
  th_key : key_ok e;
  th_todo : forall k, n <= k < 4 -> tbl_ok k D s;
  th_done : forall k, 0 <= k < n ->
      if on_table k e then tbl_half k D b e s else tbl_ok k D s
}.

Lemma half_frame k n v D b e s :
  data_ok D s -> entry_ok e -> key_ok e -> 0 <= k < 4 -> 0 <= n < 4 -> k <> n ->
  tbl_half k D b e s ->
  tbl_half k D b (setlink n v e) (hput (tbl_word n (key_hash n e)) (u32 b) s).
Proof.
  intros Hd He Hk0 Hk Hn Hne (H1 & H2 & H3).
  pose proof (key_hash_range k e Hk He Hk0) as Hr.
  pose proof (key_hash_range n e Hn He Hk0) as Hr'.
  unfold tbl_half. rewrite (key_strip k _ e (strip_setlink n v e)).
  rewrite link_setlink_ne, hput_other
    by (done || (intros E; apply tbl_word_inj in E; lia)).
  split; [done|]. split; [done|]. intros h Hh. destruct (H3 h Hh) as (l & Hnd & Hc & Hl).
  exists l. split; [done|]. split; [|done].
  rewrite hput_other by (intros E; apply tbl_word_inj in E; lia).
  revert Hc. apply chain_ext. intros c Hc. symmetry.
  apply (nx_hput D); [done| |done|by apply (members_in k D h l)].
  pose proof (tbl_word_range n _ Hn Hr'). lia.
Qed.

Lemma half_new k D b e s :
  data_ok D s -> entry_ok e -> key_ok e -> 0 <= k < 4 -> tbl_ok k D s ->
  let w := tbl_word k (key_hash k e) in
  tbl_half k D b (setlink k (cheader s w) e) (hput w (u32 b) s).
Proof.
  intros Hd He Hk0 Hk Ht w. pose proof (key_hash_range k e Hk He Hk0) as Hr.
  pose proof (tbl_word_range k _ Hk Hr) as Hw.
  unfold tbl_half. rewrite (key_strip k _ e (strip_setlink k _ e)). fold w.
  rewrite link_setlink, hput_same by done.
  split; [done|]. split; [apply (hdr_u32 D); [done|unfold w; lia]|].
  intros h Hh. destruct (Ht h Hh) as (l & Hnd & Hc & Hl). exists l.
  split; [done|]. split; [|done].
  assert (E : (if h =? key_hash k e then cheader s w else cheader (hput w (u32 b) s) (tbl_word k h))
              = cheader s (tbl_word k h)).
  { destruct (h =? key_hash k e) eqn:E; [unfold w; do 2 f_equal; lia|].
    apply hput_other. intros E'. apply tbl_word_inj in E'; lia. }
  rewrite E. revert Hc. apply chain_ext. intros c Hc. symmetry.
  apply (nx_hput D); [done|unfold w; lia|done|by apply (members_in k D h l)].
Qed.

Lemma thread_step n D b e s :
  0 <= n < 4 -> threading n D b e s -> on_table n e = true ->
  let w := tbl_word n (key_hash n e) in
  threading (n + 1) D b (setlink n (cheader s w) e) (hput w (u32 b) s).
Proof.
  intros Hn [Hd He Hk Ht Hdone] Hon w.
  pose proof (key_hash_range n e Hn He Hk) as Hr.
  pose proof (tbl_word_range n _ Hn Hr) as Hw.
  assert (Hu : is_u32 (cheader s w)) by (apply (hdr_u32 D); [done|unfold w; lia]).
  split.
  - apply hput_data; [done|unfold w; lia|apply u32_range].
  - by apply setlink_ok.
  - unfold key_ok in *. split.
    + rewrite (strip_volid _ e _ (strip_setlink n _ e)). apply Hk.
    + intros k Hk'. rewrite (strip_volid _ e _ (strip_setlink n _ e)). by apply Hk.
  - intros k Hk'. apply hput_tbl; try done; try lia. apply Ht. lia.
  - intros k Hk'. rewrite (on_strip k _ e (strip_setlink n _ e)).
    destruct (decide (k = n)) as [->|Hne].
    + rewrite Hon. apply half_new; try done. apply Ht. lia.
    + specialize (Hdone k ltac:(lia)). destruct (on_table k e).
      * apply half_frame; done || lia.
      * apply hput_tbl; done || lia.
Qed.

Lemma thread_skip n D b e s :
  0 <= n < 4 -> threading n D b e s -> on_table n e = false -> threading (n + 1) D b e s.
Proof.
  intros Hn [Hd He Hk Ht Hdone] Hon. split; try done.
  - intros k Hk'. apply Ht. lia.
  - intros k Hk'. destruct (decide (k = n)) as [->|Hne].
    + rewrite Hon. apply Ht. lia.
    + apply Hdone. lia.
Qed.

(** ** Writes below the entries *)

Definition agree_high (s s' : vldb) : Prop :=
  forall x, sizeof_vlheader <= x -> disk s' x = disk s x.

Lemma nx_link k d b : 0 <= k < 4 -> nx k d b = s32 (link k (read_new d b)).
Proof.
  intros Hk. unfold nx, link. destruct (k =? 3) eqn:E.
  - replace k with 3 by lia. by rewrite nextname_read.
  - by rewrite nextid_read by lia.
Qed.

Lemma nx_high D s s' k b :
  data_ok D s -> agree_high s s' -> 0 <= k < 4 -> is_Some (D !! b) ->
  nx k (disk s') b = nx k (disk s) b.
Proof.
  intros Hd Ha Hk [e He]. unfold nx. f_equal. apply word_ext. intros x Hx. apply Ha.
  pose proof (d_block _ _ Hd b e He). lia.
Qed.

Lemma tbl_agree D s s' k :
  data_ok D s -> agree_high s s' -> (forall w, 10 <= w -> cheader s' w = cheader s w) ->
  0 <= k < 4 -> tbl_ok k D s -> tbl_ok k D s'.
Proof.
  intros Hd Ha Hh Hk Ht h Hr. destruct (Ht h Hr) as (l & Hn & Hc & Hl).
  exists l. split; [done|]. split; [|done].
  pose proof (tbl_word_range k h Hk Hr). rewrite Hh by lia. revert Hc. apply chain_ext.
  intros c Hc. symmetry. apply (nx_high D); try done. by apply (members_in k D h l).
Qed.

Lemma half_agree D s s' k b e :
  data_ok D s -> agree_high s s' -> cheader s' = cheader s -> 0 <= k < 4 ->
  tbl_half k D b e s -> tbl_half k D b e s'.
Proof.
  intros Hd Ha Hh Hk (H1 & H2 & H3). unfold tbl_half. rewrite Hh. split; [done|].
  split; [done|]. intros h Hr. destruct (H3 h Hr) as (l & Hn & Hc & Hl).
  exists l. split; [done|]. split; [|done]. revert Hc. apply chain_ext.
  intros c Hc. symmetry. apply (nx_high D); try done. by apply (members_in k D h l).
Qed.

Definition vital (s : vldb) : list Z := map (fun i => cheader s (Z.of_nat i)) (seq 0 10).

Lemma vital_split s w :
  0 <= w < 10 -> exists l1 l2, vital s = l1 ++ cheader s w :: l2 /\ w = Z.of_nat (length l1).
Proof.
  intros Hw. unfold vital.
  exists (map (fun i => cheader s (Z.of_nat i)) (seq 0 (Z.to_nat w))).
  exists (map (fun i => cheader s (Z.of_nat i)) (seq (S (Z.to_nat w)) (9 - Z.to_nat w))).
  split; [|rewrite length_map, length_seq; lia].
  replace 10%nat with (Z.to_nat w + S (9 - Z.to_nat w))%nat by lia.
  rewrite seq_app, map_app. cbn [seq map Nat.add]. by rewrite Z2Nat.id by lia.
Qed.

Lemma write_vital_ok D s :
  data_ok D s ->
  let s' := set_disk (upd (disk s) 0 (words32 (vital s))) s in
  write_vital_vlheader s = (Ok tt, s') /\ data_ok D s' /\ agree_high s s'.
Proof.
  intros Hd s'. pose proof Hd as [H1 H2 H3 H4 H5 H6 H7 H8].
  assert (Ha : agree_high s s').
  { intros x Hx. apply upd_out. rewrite words32_length. unfold vital.
    rewrite length_map, length_seq. unfold sizeof_vlheader in Hx. lia. }
  split; [|split; [|done]].
  - unfold write_vital_vlheader, bind, get, or_code, vlwrite, next_io. by rewrite H2.
  - split; try done.
    + apply upd_u8; [done|]. unfold words32. apply Forall_concat, Forall_fmap.
      apply Forall_forall. intros x _. apply be32_bytes.
    + intros w Hw. cbn [disk cheader set_disk s'].
      destruct (decide (w < 10)) as [Hlt|Hge].
      * destruct (vital_split s w ltac:(lia)) as (l1 & l2 & E & El).
        rewrite <- (app_nil_r (words32 _)), <- (Z.add_0_l (4 * w)).
        rewrite (read_word_at _ 0 l1 (cheader s w) l2) by (done || lia).
        apply u32_small, (hdr_u32 D); done.
      * rewrite word_upd_out; [by apply H5|]. rewrite words32_length. unfold vital.
        rewrite length_map, length_seq. lia.
    + intros b e He. rewrite <- (H8 b e He). f_equal. apply read_new_ext.
      intros x Hx. apply Ha. pose proof (H6 b e He). lia.
Qed.

(** ** Writing the entry completes the tables *)

(** A place for a new entry: between the header and the end, clear of all
    others. *)
Record free_block (D : gmap Z nvlentry) (s : vldb) (b : Z) : Prop := {
  fb_range : sizeof_vlheader <= b /\ b + 148 <= eofPtr s;
  fb_clear : forall c e, D !! c = Some e -> b + 148 <= c \/ c + 148 <= b
}.

Lemma free_fresh D s b : free_block D s b -> D !! b = None.
Proof.
  intros [_ H]. destruct (D !! b) as [e|] eqn:E; [|done]. specialize (H b e E). lia.
Qed.

Definition write_entry (b : Z) (e : nvlentry) (s : vldb) : vldb :=
  set_disk (upd (disk s) b (new_layout e)) s.

Lemma vlentrywrite_ok s b e :
  maxnservers s = 13 -> io_faults s = [] -> vlentrywrite b e s = (Ok tt, write_entry b e s).
Proof.
  intros Hm Hf. unfold vlentrywrite, bind, get. rewrite Hm. cbn.
  unfold vlwrite, next_io. by rewrite Hf.
Qed.

Lemma new_layout_u8 e : entry_ok e -> Forall is_u8 (new_layout e).
Proof.
  intros He. unfold new_layout. apply Forall_app. split; [|apply He].
  unfold words32. apply Forall_concat, Forall_fmap, Forall_forall. intros x _. apply be32_bytes.
Qed.

Lemma write_entry_data D s b e :
  data_ok D s -> entry_ok e -> free_block D s b -> data_ok (<[b := e]> D) (write_entry b e s).
Proof.
  intros Hd He Hb. pose proof Hd as [H1 H2 H3 H4 H5 H6 H7 H8]. destruct Hb as [Hr Hc].
  pose proof (new_layout_length e He) as Hlen.
  split; try done.
  - apply upd_u8; [done|by apply new_layout_u8].
  - intros w Hw. cbn. rewrite word_upd_out; [by apply H5|].
    unfold sizeof_vlheader in Hr. lia.
  - intros c e' [[<- <-]|[Hne Hl]]%lookup_insert_Some; [done|by apply (H6 c e')].
  - intros c c' e1 e2 [[<- <-]|[Hne Hl]]%lookup_insert_Some
      [[<- <-]|[Hne' Hl']]%lookup_insert_Some Hcc; [done| | |by eapply H7].
    + by apply (Hc c' e2).
    + destruct (Hc c e1 Hl); lia.
  - intros c e' [[<- <-]|[Hne Hl]]%lookup_insert_Some; cbn.
    + by rewrite read_new_layout.
    + rewrite <- (H8 c e' Hl). f_equal. apply read_new_ext. intros x Hx. apply upd_out.
      destruct (Hc c e' Hl); lia.
Qed.

Lemma nx_write_entry D s b e k c :
  data_ok D s -> entry_ok e -> free_block D s b -> 0 <= k < 4 -> is_Some (D !! c) ->
  nx k (disk (write_entry b e s)) c = nx k (disk s) c.
Proof.
  intros Hd He [Hr Hc] Hk [e' He']. unfold nx, write_entry. cbn. f_equal.
  apply word_upd_out. rewrite (new_layout_length e He). specialize (Hc c e' He'). lia.
Qed.

Lemma members_insert_ne k D h l b e :
  D !! b = None -> (on_table k e = true -> key_hash k e <> h) -> members k D h l ->
  members k (<[b := e]> D) h l.
Proof.
  intros Hb Hne Hl c. rewrite (Hl c). split.
  - intros (e' & He' & Hon & Hh). exists e'. split; [|done].
    rewrite lookup_insert_ne; [done|]. intros ->. congruence.
  - intros (e' & [[<- <-]|[Hbc Hl']]%lookup_insert_Some & Hon & Hh).
    + by destruct (Hne Hon).
    + by exists e'.
Qed.

Lemma members_insert_eq k D h l b e :
  D !! b = None -> on_table k e = true -> key_hash k e = h -> members k D h l ->
  members k (<[b := e]> D) h (b :: l).
Proof.
  intros Hb Hon Hh Hl c. rewrite elem_of_cons, (Hl c). split.
  - intros [->|(e' & He' & H)].
    + exists e. by rewrite lookup_insert_eq.
    + exists e'. rewrite lookup_insert_ne; [done|]. intros ->. congruence.
  - intros (e' & [[<- <-]|[Hbc Hl']]%lookup_insert_Some & H); [by left|].
    right. by exists e'.
Qed.

Lemma write_entry_tbl k D s b e :
  data_ok D s -> entry_ok e -> free_block D s b -> 0 <= k < 4 ->
  (if on_table k e then tbl_half k D b e s else tbl_ok k D s) ->
  tbl_ok k (<[b := e]> D) (write_entry b e s).
Proof.
  intros Hd He Hb Hk Ht h Hh. pose proof (free_fresh _ _ _ Hb) as Hfresh.
  assert (Hnx : forall l, members k D h l ->
    forall c, c ∈ l -> nx k (disk s) c = nx k (disk (write_entry b e s)) c).
  { intros l Hl c Hc. symmetry. apply (nx_write_entry D); try done.
    by apply (members_in k D h l). }
  destruct (on_table k e) eqn:Hon.
  - destruct Ht as (H1 & H2 & H3). destruct (H3 h Hh) as (l & Hn & Hc & Hl).
    destruct (h =? key_hash k e) eqn:Eh.
    + assert (Hbl : b ∉ l).
      { intros Hin. apply (members_in k D h l) in Hin as [? ?]; [congruence|done]. }
      exists (b :: l). split; [by apply NoDup_cons|].
      split; [|apply members_insert_eq; done || lia].
      cbn [cheader write_entry set_disk]. replace h with (key_hash k e) by lia.
      rewrite H1, s32_u32. destruct Hb as [Hr _]. pose proof (d_eof _ _ Hd).
      unfold sizeof_vlheader in Hr. rewrite s32_small by mlia.
      apply (chain_cons (nx k (disk s)) _ _ (s32 (link k e))); [lia| |by apply Hnx|done].
      rewrite nx_link by done. cbn. by rewrite read_new_layout.
    + exists l. split; [done|]. split.
      * revert Hc. apply chain_ext. by apply Hnx.
      * apply members_insert_ne; [done|lia|done].
  - destruct (Ht h Hh) as (l & Hn & Hc & Hl). exists l. split; [done|]. split.
    + revert Hc. apply chain_ext. by apply Hnx.
    + apply members_insert_ne; [done|congruence|done].
Qed.

(** ** What an operation leaves alone: the vital header and the bytes [P] *)

Definition frame (P : Z -> Prop) (s s' : vldb) : Prop :=
  (forall x, sizeof_vlheader <= x -> P x -> disk s' x = disk s x)
  /\ (forall w, 0 <= w < 10 -> cheader s' w = cheader s w).

Lemma frame_refl P s : frame P s s.
Proof. by split. Qed.

Lemma frame_trans (P : Z -> Prop) s1 s2 s3 : frame P s1 s2 -> frame P s2 s3 -> frame P s1 s3.
Proof.
  intros [H1 H1'] [H2 H2']. split.
  - intros x Hx Px. by rewrite H2, H1.
  - intros w Hw. by rewrite H2', H1'.
Qed.

Lemma frame_eof P s s' : frame P s s' -> eofPtr s' = eofPtr s.
Proof. intros [_ H]. by apply H. Qed.

Lemma frame_hput P s w v : 265 <= w < 33030 -> frame P s (hput w v s).
Proof.
  intros Hw. split.
  - intros x Hx _. apply upd_out. rewrite be32_length. unfold sizeof_vlheader in Hx. lia.
  - intros w' Hw'. apply hput_other. lia.
Qed.

Lemma frame_low (P : Z -> Prop) s d :
  (forall x, sizeof_vlheader <= x -> P x -> d x = disk s x) -> frame P s (set_disk d s).
Proof. by split. Qed.

(** ** Threading as a whole *)

Definition id_free (k : Z) (D : gmap Z nvlentry) (v : Z) : Prop :=
  forall b e, D !! b = Some e -> volid_of e k <> v.

Lemma FindByID_type fuel v t s : 0 <= t < 3 -> FindByID fuel v t s = find_id_type fuel v t s.
Proof. intros Ht. unfold FindByID. destruct (t =? -1) eqn:E; [lia|done]. Qed.

Lemma on_table_id t e : 0 <= t < 3 -> on_table t e = negb (volid_of e t =? 0).
Proof. intros Ht. unfold on_table. destruct (t =? 3) eqn:E; [lia|done]. Qed.

Lemma tbl_word_id t e :
  0 <= t < 3 -> tbl_word t (key_hash t e) = w_VolidHash t (IDHash (volid_of e t)).
Proof. intros Ht. unfold tbl_word, key_hash. destruct (t =? 3) eqn:E; [lia|done]. Qed.

Lemma setlink_id t v e : 0 <= t < 3 -> setlink t v e = set_nextid t v e.
Proof. intros Ht. unfold setlink. destruct (t =? 3) eqn:E; [lia|done]. Qed.

(** The look-up a threading step makes first. *)
Lemma threading_find t D b e s fuel :
  0 <= t < 3 -> threading t D b e s -> on_table t e = true -> (size D <= fuel)%nat ->
  exists r, FindByID fuel (volid_of e t) t s = (Ok r, s) /\ id_result D s (volid_of e t) t r.
Proof.
  intros Ht Hth Hon Hf. rewrite on_table_id in Hon by done. rewrite FindByID_type by done.
  apply find_id_type_ok; try done.
  - apply Hth.
  - apply (th_todo _ _ _ _ _ Hth). lia.
  - apply volid_u32; [apply Hth|done].
  - lia.
  - apply (th_key _ _ _ _ _ Hth). done.
Qed.

Lemma HashVolid_ok t D b e s fuel :
  0 <= t < 3 -> threading t D b e s -> on_table t e = true -> (size D <= fuel)%nat ->
  id_free t D (volid_of e t) ->
  let w := tbl_word t (key_hash t e) in
  HashVolid fuel t b e s = (Ok (setlink t (cheader s w) e), hput w (u32 b) s).
Proof.
  intros Ht Hth Hon Hf Hfree w.
  destruct (threading_find t D b e s fuel Ht Hth Hon Hf) as (r & Er & Hr).
  unfold HashVolid, bind at 1. rewrite Er. destruct r as [[c e']|].
  { destruct Hr as (_ & e0 & He0 & _ & E). by destruct (Hfree c e0). }
  unfold bind at 1, get. rewrite <- tbl_word_id by done. fold w.
  rewrite put_write_word by apply Hth. by rewrite setlink_id.
Qed.

Lemma HashVolid_dup t D b e s fuel :
  0 <= t < 3 -> threading t D b e s -> on_table t e = true -> (size D <= fuel)%nat ->
  ~ id_free t D (volid_of e t) -> HashVolid fuel t b e s = (Err VL_IDALREADYHASHED, s).
Proof.
  intros Ht Hth Hon Hf Hfree.
  destruct (threading_find t D b e s fuel Ht Hth Hon Hf) as (r & Er & Hr).
  unfold HashVolid, bind at 1. rewrite Er. by destruct r as [[c e']|].
Qed.

(** One conditional step of [ThreadVLentry]. *)
Lemma thread_id_step t D b e s fuel :
  0 <= t < 3 -> threading t D b e s -> (size D <= fuel)%nat ->
  (on_table t e = true -> id_free t D (volid_of e t)) ->
  exists e' s',
    (if negb (volid_of e t =? 0) then HashVolid fuel t b e else ret e) s = (Ok e', s')
    /\ strip e' = strip e /\ threading (t + 1) D b e' s' /\ forall P, frame P s s'.
Proof.
  intros Ht Hth Hf Hfree. rewrite <- on_table_id by done.
  destruct (on_table t e) eqn:Hon; [|exists e, s; split; [done|]; split; [done|];
                                      split; [apply thread_skip; done || lia|done]].
  eexists _, _. split; [apply (HashVolid_ok t D b e s fuel Ht Hth Hon Hf (Hfree eq_refl))|].
  split; [apply strip_setlink|]. split; [apply thread_step; done || lia|].
  intros P. apply frame_hput.
  pose proof (tbl_word_range t (key_hash t e) ltac:(lia)
                (key_hash_range t e ltac:(lia) (th_entry _ _ _ _ _ Hth) (th_key _ _ _ _ _ Hth))).
  lia.
Qed.

Lemma HashVolname_ok b e s D :
  data_ok D s ->
  let w := tbl_word 3 (key_hash 3 e) in
  HashVolname b e s = (Ok (0, setlink 3 (cheader s w) e), hput w (u32 b) s).
Proof.
  intros Hd w. unfold HashVolname, bind at 1, get.
  change (w_VolnameHash (NameHash (name e))) with w.
  unfold bind, put_word, code_of, write_word, or_code, vlwrite, next_io, get. cbn.
  rewrite (d_io _ _ Hd). cbn. by rewrite Z.eqb_refl.
Qed.

Lemma index_OK_true D s b : data_ok D s -> free_block D s b -> index_OK s b = true.
Proof.
  intros Hd [Hr _]. pose proof (d_eof _ _ Hd) as He. unfold index_OK, sizeof_vlheader in *.
  change (2 ^ 64) with 18446744073709551616. rewrite Z.mod_small by mlia.
  rewrite !u32_small by mlia. lia.
Qed.

Lemma threading_start D b e s :
  vl_rep D s -> entry_ok e -> key_ok e -> threading 0 D b e s.
Proof. intros [H1 H2 _ _] He Hk. split; try done. intros k Hk'. lia. Qed.

Lemma free_block_eof D s s' b : free_block D s b -> eofPtr s' = eofPtr s -> free_block D s' b.
Proof. intros [H1 H2] E. split; [by rewrite E|done]. Qed.

Lemma threading_finish D b e s :
  vl_rep D s -> forall e4 s4, threading 4 D b e4 s4 -> strip e4 = strip e -> key_ok e ->
  free_block D s4 b -> (forall k, 0 <= k < 3 -> volid_of e k <> 0 -> id_free k D (volid_of e k)) ->
  vl_rep (<[b := e4]> D)
    (write_entry b e4 (set_disk (upd (disk s4) 0 (words32 (vital s4))) s4)).
Proof.
  intros Hrep e4 s4 Hth Es Hkey Hb Hfree. destruct Hth as [Hd He Hk _ Hdone].
  destruct (write_vital_ok D s4 Hd) as (_ & Hd' & Ha).
  set (s5 := set_disk _ s4) in *.
  assert (Hb' : free_block D s5 b) by by apply (free_block_eof D s4).
  split.
  - by apply write_entry_data.
  - intros k Hk'. apply write_entry_tbl; try done. specialize (Hdone k Hk').
    destruct (on_table k e4); [by apply (half_agree D s4)|by apply (tbl_agree D s4)].
  - intros c e' [[<- <-]|[_ Hl]]%lookup_insert_Some; [done|by apply (rep_key _ _ Hrep c)].
  - intros k c c' e1 e2 Hk' [[<- <-]|[_ Hl]]%lookup_insert_Some
      [[<- <-]|[_ Hl']]%lookup_insert_Some Hn E; [done| | |by apply (rep_uniq _ _ Hrep k _ _ e1 e2)].
    + rewrite (strip_volid _ _ k Es) in *. by destruct (Hfree k Hk' Hn c' e2).
    + rewrite (strip_volid _ _ k Es) in E. rewrite E in Hn.
      by destruct (Hfree k Hk' Hn c e1).
Qed.

Lemma bind_ok {A B} (x : M A) (f : A -> M B) s a s' :
  x s = (Ok a, s') -> bind x f s = f a s'.
Proof. intros E. unfold bind. by rewrite E. Qed.

Lemma bind_get {A B} (g : vldb -> A) (f : A -> M B) s : bind (get g) f s = f (g s) s.
Proof. reflexivity. Qed.

Lemma bind_err {A B} (x : M A) (f : A -> M B) s c s' :
  x s = (Err c, s') -> bind x f s = (Err c, s').
Proof. intros E. unfold bind. by rewrite E. Qed.

Lemma or_code_ok {A} (x : M A) c s a s' : x s = (Ok a, s') -> or_code x c s = (Ok a, s').
Proof. intros E. unfold or_code. by rewrite E. Qed.

Lemma ThreadVLentry_ok D s b e fuel :
  vl_rep D s -> free_block D s b -> entry_ok e -> key_ok e -> (size D <= fuel)%nat ->
  (forall k, 0 <= k < 3 -> volid_of e k <> 0 -> id_free k D (volid_of e k)) ->
  exists e' s', ThreadVLentry fuel b e s = (Ok e', s') /\ strip e' = strip e
                /\ entry_ok e' /\ vl_rep (<[b := e']> D) s'
                /\ frame (fun x => x < b \/ b + 148 <= x) s s'.
Proof.
  intros Hrep Hb He Hk Hf Hfree.
  assert (Hfree' : forall t e', 0 <= t < 3 -> strip e' = strip e -> on_table t e' = true ->
                                id_free t D (volid_of e' t)).
  { intros t e' Ht Es Hon. rewrite on_table_id in Hon by done.
    rewrite (strip_volid _ _ t Es) in *. apply Hfree; [done|lia]. }
  pose proof (threading_start D b e s Hrep He Hk) as Th0.
  destruct (thread_id_step 0 D b e s fuel ltac:(lia) Th0 Hf (Hfree' 0 e ltac:(lia) eq_refl))
    as (e1 & s1 & R1 & Es1 & Th1 & Ef1).
  destruct (thread_id_step 1 D b e1 s1 fuel ltac:(lia) Th1 Hf (Hfree' 1 e1 ltac:(lia) Es1))
    as (e2 & s2 & R2 & Es2' & Th2 & Ef2).
  assert (Es2 : strip e2 = strip e) by congruence.
  destruct (thread_id_step 2 D b e2 s2 fuel ltac:(lia) Th2 Hf (Hfree' 2 e2 ltac:(lia) Es2))
    as (e3 & s3 & R3 & Es3' & Th3 & Ef3).
  assert (Es3 : strip e3 = strip e) by congruence.
  pose proof (thread_step 3 D b e3 s3 ltac:(lia) Th3 eq_refl) as Th4. cbn zeta in Th4.
  pose proof (HashVolname_ok b e3 s3 D (th_data _ _ _ _ _ Th3)) as R4. cbn zeta in R4.
  set (w := tbl_word 3 (key_hash 3 e3)) in *.
  set (e4 := setlink 3 (cheader s3 w) e3) in *. set (s4 := hput w (u32 b) s3) in *.
  assert (Es4 : strip e4 = strip e) by (unfold e4; by rewrite strip_setlink).
  assert (Ef4 : forall P, frame P s s4).
  { intros P. apply (frame_trans P s s1); [done|]. apply (frame_trans P s1 s2); [done|].
    apply (frame_trans P s2 s3); [done|]. apply frame_hput. unfold w, tbl_word, key_hash. cbn.
    pose proof (NameHash_range (name e3)). unfold w_VolnameHash, HASHSIZE in *. lia. }
  destruct (write_vital_ok D s4 (th_data _ _ _ _ _ Th4)) as (R5 & Hd5 & Ha5).
  eexists e4, _. split; [|split; [done|]; split; [apply Th4|]; split].
  - unfold ThreadVLentry. rewrite bind_get.
    rewrite (index_OK_true D s b (rep_data _ _ Hrep) Hb). cbn [negb].
    assert (E0 : (volid_of e 0 =? 0) = false) by (destruct Hk as [Hk _]; unfold RWVOL in Hk; lia).
    rewrite E0 in R1. rewrite (bind_ok _ _ _ _ _ R1).
    rewrite (bind_ok _ _ _ _ _ R2), (bind_ok _ _ _ _ _ R3), (bind_ok _ _ _ _ _ R4).
    rewrite (bind_ok _ _ _ _ _ R5). cbn [snd].
    rewrite (bind_ok _ _ _ _ _ (or_code_ok _ VL_IO _ _ _
      (vlentrywrite_ok _ b e4 (d_new _ _ Hd5) (d_io _ _ Hd5)))). reflexivity.
  - by apply (threading_finish D b e s Hrep e4 s4 Th4 Es4 Hk
                (free_block_eof D s s4 b Hb (frame_eof _ _ _ (Ef4 (fun _ => True))))).
  - apply (frame_trans _ s s4); [done|]. split; [|done]. intros x Hx Px. rewrite <- (Ha5 x Hx).
    apply upd_out. rewrite (new_layout_length e4) by apply Th4. lia.
Qed.

(** ** Unthreading *)

(** Write link [k] of the entry at [p]. *)
Definition lput (p k v : Z) (s : vldb) : vldb :=
  set_disk (upd (disk s) (p + (28 + 4 * k)) (be32 v)) s.

Lemma strip_ext d d' a :
  (forall x, a <= x < a + 28 \/ a + 44 <= x < a + 148 -> d x = d' x) ->
  strip (read_new d a) = strip (read_new d' a).
Proof.
  intros E. unfold strip, read_new. cbn [volumeId flags LockAfsId LockTimestamp cloneId
    name serverNumber serverPartition serverFlags].
  rewrite !(word_ext d d'), !(ints_ext d d'), !(bytes_ext d d') by (intros; apply E; lia).
  done.
Qed.

Lemma data_delete D s b : data_ok D s -> data_ok (delete b D) s.
Proof.
  intros [H1 H2 H3 H4 H5 H6 H7 H8].
  split; try done; intros c; [intros e|intros c' e e'|intros e].
  - intros [_ Hc]%lookup_delete_Some. by apply (H6 c e).
  - intros [_ Hc]%lookup_delete_Some [_ Hc']%lookup_delete_Some. by apply (H7 c c' e e').
  - intros [_ Hc]%lookup_delete_Some. by apply H8.
Qed.

Lemma lput_data D s p k v :
  data_ok D s -> is_Some (D !! p) -> 0 <= k < 4 -> data_ok D (lput p k v s).
Proof.
  intros Hd [ep Hp] Hk. pose proof Hd as [H1 H2 H3 H4 H5 H6 H7 H8].
  pose proof (H6 p ep Hp) as Hpr. unfold sizeof_vlheader in Hpr.
  split; try done.
  - apply upd_u8; [done|apply be32_bytes].
  - intros w Hw. cbn. rewrite word_upd_out; [by apply H5|]. lia.
  - intros c e Hc. rewrite <- (H8 c e Hc). cbn. apply strip_ext. intros x Hx.
    apply upd_out. rewrite be32_length. destruct (decide (c = p)) as [->|Hne]; [lia|].
    specialize (H7 c p e ep Hc Hp Hne). lia.
Qed.

Lemma nx_lput_ne D s p k v k' c :
  data_ok D s -> is_Some (D !! p) -> is_Some (D !! c) -> 0 <= k < 4 -> 0 <= k' < 4 ->
  (k' <> k \/ c <> p) -> nx k' (disk (lput p k v s)) c = nx k' (disk s) c.
Proof.
  intros Hd [ep Hp] [e Hc] Hk Hk' Hne. unfold nx, lput. cbn [disk set_disk]. f_equal.
  apply word_upd_out. rewrite be32_length. destruct (decide (c = p)) as [->|Hcp]; [lia|].
  pose proof (d_disj _ _ Hd c p e ep Hc Hp Hcp). lia.
Qed.

Lemma nx_lput_eq s p k v : is_u32 v -> nx k (disk (lput p k v s)) p = s32 v.
Proof. intros Hv. unfold nx, lput. cbn [disk set_disk]. by rewrite word_upd_be32, s32_u32. Qed.

Lemma members_delete_ne k D h l b e :
  D !! b = Some e -> (on_table k e = true -> key_hash k e <> h) -> members k D h l ->
  members k (delete b D) h l.
Proof.
  intros Hb Hne Hl c. rewrite (Hl c). split; intros (e' & He' & Hon & Hh).
  - exists e'. split; [|done]. apply lookup_delete_Some. split; [|done].
    intros ->. rewrite Hb in He'. injection He' as ->. by apply Hne.
  - exists e'. by apply lookup_delete_Some in He' as [_ He'].
Qed.

Lemma members_delete_eq k D h l1 b l2 :
  NoDup (l1 ++ b :: l2) -> members k D h (l1 ++ b :: l2) -> members k (delete b D) h (l1 ++ l2).
Proof.
  intros Hn Hl c. apply NoDup_app in Hn as (_ & H1 & H2).
  apply NoDup_cons in H2 as [H2 _].
  assert (Hc : c ∈ l1 ++ l2 <-> c <> b /\ c ∈ l1 ++ b :: l2).
  { rewrite !elem_of_app, elem_of_cons. split.
    - intros [Hc|Hc]; (split; [|tauto]); intros ->; [|done].
      apply (H1 b Hc). by left.
    - intros [Hne [Hc|[Hc|Hc]]]; tauto. }
  rewrite Hc, (Hl c). split.
  - intros (Hne & e' & He' & H). exists e'. by rewrite lookup_delete_ne.
  - intros (e' & [Hne He']%lookup_delete_Some & H). split; [done|]. by exists e'.
Qed.

(** The walk finds the block before. *)
Lemma unhash_id_walk_ok s fuel t b c l1 l2 :
  maxnservers s = 13 -> io_faults s = [] -> 0 <= t < 3 ->
  chain (nx t (disk s)) c ((c :: l1) ++ b :: l2) -> NoDup ((c :: l1) ++ b :: l2) ->
  (length (c :: l1) <= fuel)%nat ->
  unhash_id_walk fuel t b c s = (Ok (List.last (c :: l1) 0), s).
Proof.
  intros Hm Hf Ht. revert c fuel. induction l1 as [|c' l1 IH]; intros c fuel H Hn Hl;
    (destruct fuel as [|fuel]; [cbn in Hl; lia|]); cbn [unhash_id_walk];
    rewrite (bind_ok _ _ _ _ _ (or_code_ok _ VL_IO _ _ _ (vlentryread_ok s c Hm Hf)));
    rewrite nextid_read by done; fold (nx t (disk s) c);
    destruct H as (_ & _ & E & Hne & H); rewrite E; unfold NULLO;
    (destruct (_ =? 0) eqn:E0; [lia|]).
  - by rewrite Z.eqb_refl.
  - apply NoDup_cons in Hn as [_ Hn].
    destruct (c' =? b) eqn:Eb.
    { exfalso. apply NoDup_cons in Hn as [Hn _]. apply Hn. apply elem_of_app. right.
      replace c' with b by lia. left. }
    rewrite IH; [done| |done|cbn in *; lia]. split; [done|]. by split.
Qed.

Lemma unhash_name_walk_ok s fuel b c l1 l2 :
  maxnservers s = 13 -> io_faults s = [] ->
  chain (nx 3 (disk s)) c ((c :: l1) ++ b :: l2) -> NoDup ((c :: l1) ++ b :: l2) ->
  (length (c :: l1) <= fuel)%nat ->
  unhash_name_walk fuel b c s = (Ok (List.last (c :: l1) 0), s).
Proof.
  intros Hm Hf. revert c fuel. induction l1 as [|c' l1 IH]; intros c fuel H Hn Hl;
    (destruct fuel as [|fuel]; [cbn in Hl; lia|]); cbn [unhash_name_walk];
    rewrite (bind_ok _ _ _ _ _ (or_code_ok _ VL_IO _ _ _ (vlentryread_ok s c Hm Hf)));
    rewrite nextname_read; fold (nx 3 (disk s) c);
    destruct H as (_ & _ & E & Hne & H); rewrite E; unfold NULLO;
    (destruct (_ =? 0) eqn:E0; [lia|]).
  - by rewrite Z.eqb_refl.
  - apply NoDup_cons in Hn as [_ Hn].
    destruct (c' =? b) eqn:Eb.
    { exfalso. apply NoDup_cons in Hn as [Hn _]. apply Hn. apply elem_of_app. right.
      replace c' with b by lia. left. }
    rewrite IH; [done| |done|cbn in *; lia]. split; [done|]. by split.
Qed.

(** The state after taking [b] out of its chain in table [k]. *)
Definition unlinked (k h v : Z) (l1 : list Z) (s : vldb) : vldb :=
  match last l1 with
  | None => hput (tbl_word k h) v s
  | Some p => lput p k v s
  end.

Lemma lput_tbl D s p k v k' :
  data_ok D s -> is_Some (D !! p) -> 0 <= k < 4 -> 0 <= k' < 4 -> k' <> k ->
  forall D', (forall c, is_Some (D' !! c) -> is_Some (D !! c)) ->
  tbl_ok k' D' s -> tbl_ok k' D' (lput p k v s).
Proof.
  intros Hd Hp Hk Hk' Hne D' Hsub Ht h Hh. destruct (Ht h Hh) as (l & Hn & Hc & Hl).
  exists l. split; [done|]. split; [|done]. revert Hc. apply chain_ext. intros c Hc.
  symmetry. apply (nx_lput_ne D); try done; [|by left].
  apply Hsub. by apply (members_in k' D' h l).
Qed.

Lemma is_Some_delete (D : gmap Z nvlentry) b c : is_Some (delete b D !! c) -> is_Some (D !! c).
Proof. intros [e [_ He]%lookup_delete_Some]. by exists e. Qed.

(** Bytes that belong to no entry of [D]. *)
Definition clear_of (D : gmap Z nvlentry) (x : Z) : Prop :=
  forall c e, D !! c = Some e -> x < c \/ c + 148 <= x.

Section Unlink.
Context (k : Z) (D : gmap Z nvlentry) (s : vldb) (b : Z) (e : nvlentry) (h v : Z)
  (l1 l2 : list Z).
Context (Hk : 0 <= k < 4) (Hd : data_ok D s) (Hb : D !! b = Some e)
  (Hh : 0 <= h < HASHSIZE) (Eh : key_hash k e = h) (Hn : NoDup (l1 ++ b :: l2))
  (Hc : chain (nx k (disk s)) (s32 (cheader s (tbl_word k h))) (l1 ++ b :: l2))
  (Hl : members k D h (l1 ++ b :: l2)) (Hv : is_u32 v) (Ev : s32 v = nx k (disk s) b).

Lemma unlink_before p : last l1 = Some p -> p ∈ l1 /\ p <> b /\ is_Some (D !! p).
Proof.
  intros Hp%last_Some_elem_of. split; [done|]. split.
  - intros ->. apply NoDup_app in Hn as (_ & Hn' & _). apply (Hn' b Hp). left.
  - apply (members_in k D h _ p Hl). apply elem_of_app. by left.
Qed.

Lemma unlinked_data : data_ok D (unlinked k h v l1 s).
Proof.
  unfold unlinked. pose proof (tbl_word_range k h Hk Hh).
  destruct (last l1) as [p|] eqn:E; [|apply hput_data; done || lia].
  apply lput_data; [done|by apply unlink_before|done].
Qed.

Lemma unlinked_other k' D' :
  0 <= k' < 4 -> k' <> k -> (D' = D \/ D' = delete b D) ->
  tbl_ok k' D' s -> tbl_ok k' D' (unlinked k h v l1 s).
Proof.
  intros Hk' Hne HD Ht. unfold unlinked. destruct (last l1) as [p|] eqn:E.
  - apply (lput_tbl D); try done; [by apply unlink_before|].
    destruct HD as [->| ->]; [done|apply is_Some_delete].
  - apply hput_tbl; try done. destruct HD as [->| ->]; [done|by apply data_delete].
Qed.

Lemma unlinked_read : read_new (disk (unlinked k h v l1 s)) b = read_new (disk s) b.
Proof.
  pose proof (d_block _ _ Hd b e Hb) as Hr. unfold sizeof_vlheader in Hr.
  pose proof (tbl_word_range k h Hk Hh). unfold unlinked.
  destruct (last l1) as [p|] eqn:E; apply read_new_ext; intros x Hx; apply upd_out;
    rewrite be32_length.
  - destruct (unlink_before p E) as (_ & Hpb & ep & Hp).
    pose proof (d_disj _ _ Hd p b ep e Hp Hb Hpb). lia.
  - lia.
Qed.

Lemma unlinked_tbl : on_table k e = true -> tbl_ok k D s -> tbl_ok k (delete b D) (unlinked k h v l1 s).
Proof.
  intros Hon Ht h' Hh'. pose proof (tbl_word_range k h Hk Hh) as Hw.
  destruct (decide (h' = h)) as [->|Hne].
  - exists (l1 ++ l2). split.
    { apply NoDup_app in Hn as (Hn1 & Hn2 & Hn3). apply NoDup_cons in Hn3 as [_ Hn3].
      apply NoDup_app. repeat split; [done| |done]. intros c Hc1 Hc2.
      apply (Hn2 c Hc1). by right. }
    split; [|by apply members_delete_eq].
    apply (chain_remove (nx k (disk s)) _ (s32 (cheader s (tbl_word k h))) _ l1 b l2 Hc Hn).
    assert (Hin : forall c, c ∈ l1 ++ l2 -> is_Some (D !! c)).
    { intros c Hc'. apply (members_in k D h _ c Hl). rewrite elem_of_app, elem_of_cons.
      apply elem_of_app in Hc'. tauto. }
    unfold unlinked. destruct (last l1) as [p|] eqn:E.
    + destruct (unlink_before p E) as (_ & _ & Hp). split; [done|].
      split; [by rewrite nx_lput_eq, Ev|]. intros c Hc' Hcp.
      apply (nx_lput_ne D); try done; [by apply Hin|by right].
    + rewrite hput_same. split; [done|]. intros c Hc'.
      apply (nx_hput D); try done; [lia|]. apply Hin, elem_of_app. by right.
  - destruct (Ht h' Hh') as (l & Hnl & Hcl & Hll). exists l. split; [done|].
    split; [|apply (members_delete_ne k D h' l b e); [done|congruence|done]].
    unfold unlinked. destruct (last l1) as [p|] eqn:E.
    + revert Hcl. apply chain_ext. intros c Hc'. symmetry.
      destruct (unlink_before p E) as (Hp1 & _ & Hp).
      apply (nx_lput_ne D); try done; [by apply (members_in k D h' l)|]. right. intros ->.
      apply Hll in Hc' as (e' & He' & _ & Ee').
      assert (Hp2 : p ∈ l1 ++ b :: l2) by (apply elem_of_app; by left).
      apply Hl in Hp2 as (e'' & He'' & _ & Ee''). congruence.
    + rewrite hput_other by (intros E'; apply tbl_word_inj in E'; lia).
      revert Hcl. apply chain_ext. intros c Hc'. symmetry.
      apply (nx_hput D); try done; [lia|by apply (members_in k D h' l)].
Qed.

Lemma unlinked_frame :
  frame (clear_of D) s (unlinked k h v l1 s).
Proof.
  pose proof (tbl_word_range k h Hk Hh).
  unfold unlinked. destruct (last l1) as [p|] eqn:E; [|apply frame_hput; lia].
  destruct (unlink_before p E) as (_ & _ & ep & Hp). apply frame_low. intros x Hx Px.
  apply upd_out. rewrite be32_length. specialize (Px p ep Hp). lia.
Qed.

End Unlink.

Record unthreading (n : Z) (D : gmap Z nvlentry) (b : Z) (a : nvlentry) (s : vldb) : Prop := {
  u_data : data_ok D s;
  u_entry : exists e, D !! b = Some e /\ strip a = strip e /\ key_ok e;
  u_three : length (nextIdHash a) = 3%nat;
  u_todo : forall k, n <= k < 4 -> tbl_ok k D s /\ link k a = link k (read_new (disk s) b);
  u_done : forall k, 0 <= k < n -> tbl_ok k (delete b D) s
}.

Lemma volid_read_u32 d b k : (forall x, is_u8 (d x)) -> 0 <= k < 3 -> is_u32 (volid_of (read_new d b) k).
Proof.
  intros Hd Hk. destruct (tables k ltac:(lia)) as [->|[->|[->| ->]]]; [| | |lia];
    unfold volid_of, read_new, ints; by apply word_u32.
Qed.

Lemma key_range_in D s b e k :
  data_ok D s -> D !! b = Some e -> key_ok e -> 0 <= k < 4 -> 0 <= key_hash k e < HASHSIZE.
Proof.
  intros Hd Hb [_ Hk] Hr. unfold key_hash. destruct (k =? 3) eqn:E; [apply NameHash_range|].
  apply IDHash_range; [|apply Hk; lia].
  rewrite <- (strip_volid _ _ k (d_entry _ _ Hd b e Hb)). apply volid_read_u32; [apply Hd|lia].
Qed.

Lemma link_read_u32 d b k : (forall x, is_u8 (d x)) -> 0 <= k < 4 -> is_u32 (link k (read_new d b)).
Proof.
  intros Hd Hk. unfold link. destruct (k =? 3) eqn:E; [by apply word_u32|].
  rewrite nextid_read by lia. by apply word_u32.
Qed.

Lemma unthread_step n D b a s :
  0 <= n < 4 -> unthreading n D b a s -> on_table n a = true ->
  exists l1 l2,
    NoDup (l1 ++ b :: l2)
    /\ chain (nx n (disk s)) (s32 (cheader s (tbl_word n (key_hash n a)))) (l1 ++ b :: l2)
    /\ (length (l1 ++ b :: l2) <= size D)%nat
    /\ unthreading (n + 1) D b (setlink n 0 a) (unlinked n (key_hash n a) (link n a) l1 s)
    /\ frame (clear_of D) s (unlinked n (key_hash n a) (link n a) l1 s).
Proof.
  intros Hn [Hd (e & Hb & Es & Hk) H3 Htodo Hdone] Hon.
  rewrite (on_strip n _ _ Es) in Hon. rewrite (key_strip n _ _ Es).
  pose proof (key_range_in D s b e n Hd Hb Hk Hn) as Hr.
  destruct (Htodo n ltac:(lia)) as [Ht El].
  destruct (tbl_chain n D s (key_hash n e) Ht Hr) as (l & Hnd & Hc & Hlen & Hl).
  assert (Hbl : b ∈ l) by (apply Hl; by exists e).
  apply list_elem_of_split in Hbl as (l1 & l2 & ->). exists l1, l2.
  assert (Hv : is_u32 (link n a)) by (rewrite El; apply link_read_u32; [apply Hd|done]).
  assert (Ev : s32 (link n a) = nx n (disk s) b) by (rewrite nx_link, El by done; done).
  split; [done|]. split; [done|]. split; [done|]. split;
    [|by apply (unlinked_frame n D s b _ _ l1 l2)]. split.
  - by apply (unlinked_data n D s b (key_hash n e) (link n a) l1 l2).
  - exists e. by rewrite strip_setlink.
  - unfold setlink. destruct (n =? 3); cbn; [done|by rewrite length_insert].
  - intros k Hk'. destruct (Htodo k ltac:(lia)) as [Htk Elk]. split.
    + apply (unlinked_other n D s b (key_hash n e) (link n a) l1 l2); done || lia || by left.
    + rewrite link_setlink_three by (done || lia).
      by rewrite (unlinked_read n D s b e (key_hash n e) (link n a) l1 l2).
  - intros k Hk'. destruct (decide (k = n)) as [->|Hne].
    + by apply (unlinked_tbl n D s b e (key_hash n e) (link n a) l1 l2).
    + apply (unlinked_other n D s b (key_hash n e) (link n a) l1 l2); try (done || lia);
        [by right|]. apply Hdone. lia.
Qed.

Lemma unthread_skip n D b a s :
  0 <= n < 4 -> unthreading n D b a s -> on_table n a = false -> unthreading (n + 1) D b a s.
Proof.
  intros Hn [Hd (e & Hb & Es & Hk) H3 Htodo Hdone] Hon. split; try done.
  - by exists e.
  - intros k Hk'. apply Htodo. lia.
  - intros k Hk'. destruct (decide (k = n)) as [->|Hne]; [|apply Hdone; lia].
    destruct (Htodo n ltac:(lia)) as [Ht _]. intros h Hh.
    destruct (Ht h Hh) as (l & Hnd & Hc & Hl). exists l. split; [done|]. split; [done|].
    apply (members_delete_ne n D h l b e); try done. rewrite <- (on_strip n _ _ Es). congruence.
Qed.

Lemma list_last_case {A} (l : list A) :
  match last l with
  | None => l = []
  | Some p => exists c l', l = c :: l' /\ forall d, List.last (c :: l') d = p
  end.
Proof.
  destruct l as [|c l]; [done|]. destruct (last (c :: l)) as [p|] eqn:E.
  - exists c, l. split; [done|]. apply last_Some in E as [l' E]. intros d.
    rewrite E. apply List.last_last.
  - by apply last_None in E.
Qed.

Lemma vlwrite_ok s p l : io_faults s = [] -> vlwrite p l s = (Ok tt, set_disk (upd (disk s) p l) s).
Proof. intros Hf. unfold vlwrite, next_io. by rewrite Hf. Qed.

Lemma put_write_last k v s :
  io_faults s = [] -> bind (put_word k v) (fun _ => write_word k) s = (Ok tt, hput k v s).
Proof.
  intros Hf. unfold bind, put_word, write_word, get, or_code, vlwrite, next_io. cbn.
  rewrite Hf. cbn. by rewrite Z.eqb_refl.
Qed.

Lemma UnhashVolid_ok t D b a s fuel :
  0 <= t < 3 -> unthreading t D b a s -> (size D <= fuel)%nat ->
  exists a' s', UnhashVolid fuel t b a s = (Ok a', s') /\ strip a' = strip a
                /\ unthreading (t + 1) D b a' s' /\ frame (clear_of D) s s'.
Proof.
  intros Ht Hu Hf. pose proof (u_data _ _ _ _ _ Hu) as Hd. unfold UnhashVolid, NULLO.
  destruct (on_table t a) eqn:Hon; rewrite on_table_id in Hon by done.
  2:{ destruct (volid_of a t =? 0) eqn:E0; [|done]. exists a, s. split; [done|].
      split; [done|]. split; [apply unthread_skip; try done; [lia|]|apply frame_refl].
      rewrite on_table_id by done. lia. }
  destruct (volid_of a t =? 0) eqn:E0; [done|].
  destruct (unthread_step t D b a s ltac:(lia) Hu) as (l1 & l2 & Hn & Hc & Hlen & Hu' & Eu);
    [rewrite on_table_id by done; lia|].
  eexists _, _. split; [|split; [apply (strip_setlink t 0)|]; split; [exact Hu'|exact Eu]].
  rewrite setlink_id, <- tbl_word_id by done. rewrite bind_get.
  pose proof (list_last_case l1) as Hlast. unfold unlinked.
  destruct (last l1) as [p|].
  - destruct Hlast as (c & l' & -> & Hp). pose proof Hc as (Ec & _ & _). rewrite Ec in *.
    destruct (c =? b) eqn:Eb.
    { exfalso. apply NoDup_cons in Hn as [Hn _]. apply Hn, elem_of_app. right.
      replace c with b by lia. left. }
    erewrite bind_ok; [reflexivity|].
    erewrite bind_ok; [|apply (unhash_id_walk_ok s fuel t b c l' l2); try apply Hd; try done].
    2:{ rewrite length_app in Hlen. cbn in *. lia. }
    rewrite Hp. unfold link. destruct (t =? 3) eqn:E3; [lia|].
    apply or_code_ok, vlwrite_ok, Hd.
  - subst l1. destruct Hc as (Ec & _ & _). rewrite Ec, Z.eqb_refl.
    erewrite bind_ok; [reflexivity|]. unfold link. destruct (t =? 3) eqn:E3; [lia|].
    apply put_write_last, Hd.
Qed.

Lemma UnhashVolname_ok D b a s fuel :
  unthreading 3 D b a s -> (size D <= fuel)%nat ->
  exists a' s', UnhashVolname fuel b a s = (Ok a', s') /\ strip a' = strip a
                /\ unthreading 4 D b a' s' /\ frame (clear_of D) s s'.
Proof.
  intros Hu Hf. pose proof (u_data _ _ _ _ _ Hu) as Hd. unfold UnhashVolname.
  destruct (unthread_step 3 D b a s ltac:(lia) Hu eq_refl) as (l1 & l2 & Hn & Hc & Hlen & Hu' & Eu).
  eexists _, _. split; [|split; [apply (strip_setlink 3 0)|]; split; [exact Hu'|exact Eu]].
  change (w_VolnameHash (NameHash (name a))) with (tbl_word 3 (key_hash 3 a)). rewrite bind_get.
  pose proof (list_last_case l1) as Hlast. unfold unlinked.
  destruct (last l1) as [p|].
  - destruct Hlast as (c & l' & -> & Hp). pose proof Hc as (Ec & _ & _). rewrite Ec in *.
    destruct (c =? b) eqn:Eb.
    { exfalso. apply NoDup_cons in Hn as [Hn _]. apply Hn, elem_of_app. right.
      replace c with b by lia. left. }
    erewrite bind_ok; [reflexivity|].
    erewrite bind_ok; [|apply (unhash_name_walk_ok s fuel b c l' l2); try apply Hd; try done].
    2:{ rewrite length_app in Hlen. cbn in *. lia. }
    rewrite Hp. apply or_code_ok, vlwrite_ok, Hd.
  - subst l1. destruct Hc as (Ec & _ & _). rewrite Ec, Z.eqb_refl.
    erewrite bind_ok; [reflexivity|]. apply put_write_last, Hd.
Qed.

Lemma unthreading_start D b s :
  vl_rep D s -> is_Some (D !! b) -> unthreading 0 D b (read_new (disk s) b) s.
Proof.
  intros [H1 H2 H3 _] [e He]. split; try done.
  - exists e. split; [done|]. split; [by apply (d_entry _ _ H1)|by apply (H3 b)].
  - intros k Hk. split; [by apply H2|done].
  - intros k Hk. lia.
Qed.

Lemma index_OK_in D s b : data_ok D s -> is_Some (D !! b) -> index_OK s b = true.
Proof.
  intros Hd [e He]. apply (index_OK_true (delete b D)); [by apply data_delete|].
  split; [by apply (d_block _ _ Hd b e)|]. intros c e' [Hne Hc]%lookup_delete_Some.
  by apply (d_disj _ _ Hd b c e e').
Qed.

Lemma UnthreadVLentry_ok D s b fuel :
  vl_rep D s -> is_Some (D !! b) -> (size D <= fuel)%nat ->
  exists a' s', UnthreadVLentry fuel b (read_new (disk s) b) s = (Ok a', s')
                /\ strip a' = strip (read_new (disk s) b) /\ vl_rep (delete b D) s'
                /\ frame (clear_of D) s s'.
Proof.
  intros Hrep Hb Hf. pose proof (unthreading_start D b s Hrep Hb) as Hu0.
  set (a := read_new (disk s) b) in *.
  destruct (UnhashVolid_ok 0 D b a s fuel ltac:(lia) Hu0 Hf) as (a1 & s1 & R1 & Es1 & Hu1 & Ef1).
  destruct (UnhashVolid_ok 1 D b a1 s1 fuel ltac:(lia) Hu1 Hf) as (a2 & s2 & R2 & Es2 & Hu2 & Ef2).
  destruct (UnhashVolid_ok 2 D b a2 s2 fuel ltac:(lia) Hu2 Hf) as (a3 & s3 & R3 & Es3 & Hu3 & Ef3).
  destruct (UnhashVolname_ok D b a3 s3 fuel Hu3 Hf) as (a4 & s4 & R4 & Es4 & [Hd4 _ _ _ Hdone] & Ef4).
  destruct (write_vital_ok D s4 Hd4) as (R5 & Hd5 & Ha5).
  eexists a4, _. split; [|split; [congruence|]; split].
  - unfold UnthreadVLentry. rewrite bind_get, (index_OK_in D s b (rep_data _ _ Hrep) Hb).
    cbn [negb]. rewrite (bind_ok _ _ _ _ _ R1), (bind_ok _ _ _ _ _ R2), (bind_ok _ _ _ _ _ R3),
      (bind_ok _ _ _ _ _ R4). unfold bind, code_of. rewrite R5. reflexivity.
  - split.
    + by apply data_delete.
    + intros k Hk. apply (tbl_agree _ s4); try done; [by apply data_delete|by apply Hdone].
    + intros c e [_ Hc]%lookup_delete_Some. by apply (rep_key _ _ Hrep c).
    + intros k c c' e e' Hk [_ Hc]%lookup_delete_Some [_ Hc']%lookup_delete_Some.
      by apply (rep_uniq _ _ Hrep).
  - apply (frame_trans _ s s1); [done|]. apply (frame_trans _ s1 s2); [done|].
    apply (frame_trans _ s2 s3); [done|]. apply (frame_trans _ s3 s4); [done|].
    apply frame_low. intros x Hx _. by apply Ha5.
Qed.
