(* ===== verification/VldbDb.v ===== *)
(** * Volume location database: creating, finding and removing entries

    The operations of vlutils.c put together as vlprocs.c uses them, against an
    abstract database: a finite map from blocks to entries and the list of free
    blocks. *)

From stdpp Require Import prelude list gmap.
From Stdlib Require Import ZArith Lia ZifyBool.
From S2P Require Import Prelude ByteMem Vldb VldbChain.

#[local] Open Scope Z_scope.
#[local] Open Scope vl_scope.

Definition VL_IDEXIST := 363520.
Definition VL_NAMEEXIST := 363522.
Definition VL_CREATEFAIL := 363523.

Section Procs.
Context `{ByteOrder}.

(** [RemoveEntry]. *)
Definition RemoveEntry (fuel : nat) (entryptr : Z) (tentry : nvlentry) : M unit :=
  UnthreadVLentry fuel entryptr tentry ;;
  FreeBlock entryptr.

(** The database part of [CreateEntryN], between opening the transaction and
    ending it; [newentry] is the entry already in its internal representation. *)
Definition CreateEntryN (fuel : nat) (newentry : nvlentry) : M (Z * nvlentry) :=
  do exists_id <- EntryIDExists fuel (volumeId newentry);
  if exists_id : bool then fail VL_IDEXIST
  else
    do r <- FindByName fuel (name newentry);
    match r with
    | Some _ => fail VL_NAMEEXIST
    | None =>
        do be <- or_code AllocBlock VL_CREATEFAIL;
        fun s =>
          match ThreadVLentry fuel (fst be) newentry s with
          | (Err c, s1) => (do c' <- code_of (FreeBlock (fst be)); fail c) s1
          | (Ok e, s1) => (Ok (fst be, e), s1)
          | (Loops, s1) => (Loops, s1)
          end
    end.

End Procs.

(** [UpdateCache] on an empty database: a new header, in the cache and on disk. *)
Definition VLDBVERSION := 3.
Definition new_vital : list Z :=
  [VLDBVERSION; sizeof_vlheader; 0; sizeof_vlheader; 0; 0; 536870912; 0; 0; 0].
Definition new_header (w : Z) : Z :=
  if (0 <=? w) && (w <? 10) then nth (Z.to_nat w) new_vital 0 else 0.
Definition header_bytes (n : nat) : list Z :=
  words32 (map (fun i => new_header (Z.of_nat i)) (seq 0 n)).
Definition build_vldb : M unit := fun s =>
  let s1 := mkVldb (disk s) new_header 13 (io_faults s) in
  or_code (vlwrite 0 (header_bytes (Z.to_nat 33030))) VL_IO s1.

(** ** The free list *)

Definition apart (b c : Z) : Prop := b + 148 <= c \/ c + 148 <= b.

Record free_ok (D : gmap Z nvlentry) (F : list Z) (s : vldb) : Prop := {
  f_nodup : NoDup F;
  f_chain : chain (nx 0 (disk s)) (s32 (freePtr s)) F;
  f_range : forall b, b ∈ F -> sizeof_vlheader <= b /\ b + 148 <= eofPtr s;
  f_clear : forall b c e, b ∈ F -> D !! c = Some e -> apart b c;
  f_disj : forall b c, b ∈ F -> c ∈ F -> b <> c -> apart b c;
  f_flag : forall b, b ∈ F -> flags (read_new (disk s) b) = VLFREE
}.

Record vl_full (D : gmap Z nvlentry) (F : list Z) (s : vldb) : Prop := {
  vf_rep : vl_rep D s;
  vf_free : free_ok D F s
}.

(** The header is written out after its small fields changed. *)
Lemma vital_sync D s0 s :
  data_ok D s0 -> disk s = disk s0 -> maxnservers s = 13 -> io_faults s = [] ->
  (forall w, 10 <= w -> cheader s w = cheader s0 w) ->
  (forall w, 0 <= w < 10 -> is_u32 (cheader s w)) -> eofPtr s0 <= eofPtr s < 2 ^ 31 ->
  let s' := set_disk (upd (disk s) 0 (words32 (vital s))) s in
  write_vital_vlheader s = (Ok tt, s') /\ data_ok D s' /\ agree_high s0 s'.
Proof.
  intros Hd Ed Em Ef Eh Hu He s'. pose proof Hd as [H1 H2 H3 H4 H5 H6 H7 H8].
  assert (Hlen : length (words32 (vital s)) = 40%nat) by by rewrite words32_length.
  assert (Ha : agree_high s0 s').
  { intros x Hx. unfold s'. cbn [disk set_disk]. rewrite upd_out, Ed; [done|]. unfold sizeof_vlheader in Hx. lia. }
  split; [|split; [|done]].
  - unfold write_vital_vlheader, bind, get, or_code, vlwrite, next_io. by rewrite Ef.
  - split; try done.
    + split; [|apply He]. change (sizeof_vlheader <= eofPtr s). lia.
    + unfold s'. cbn [disk set_disk]. rewrite Ed. apply upd_u8; [done|]. unfold words32. apply Forall_concat, Forall_fmap.
      apply Forall_forall. intros x _. apply be32_bytes.
    + intros w Hw. cbn [disk cheader set_disk s'].
      destruct (decide (w < 10)) as [Hlt|Hge].
      * destruct (vital_split s w ltac:(lia)) as (l1 & l2 & E & El).
        rewrite <- (app_nil_r (words32 _)), <- (Z.add_0_l (4 * w)).
        rewrite (read_word_at _ 0 l1 (cheader s w) l2) by (done || lia).
        apply u32_small, Hu. lia.
      * rewrite word_upd_out, Ed, Eh by lia. by apply H5.
    + intros b e Hb. destruct (H6 b e Hb). split; [done|]. change (b + 148 <= eofPtr s). lia.
    + intros b e Hb. rewrite <- (H8 b e Hb). f_equal. apply read_new_ext.
      intros x Hx. apply Ha. pose proof (H6 b e Hb). lia.
Qed.

Lemma rep_agree D s s' :
  vl_rep D s -> data_ok D s' -> agree_high s s' ->
  (forall w, 10 <= w -> cheader s' w = cheader s w) -> vl_rep D s'.
Proof.
  intros [H1 H2 H3 H4] Hd Ha Hh. split; try done.
  intros k Hk. apply (tbl_agree D s); try done. by apply H2.
Qed.

(** The free list does not depend on what the header tables say. *)
Lemma free_frame D D' F s s' (P : Z -> Prop) :
  free_ok D F s -> frame P s s' ->
  (forall b x, b ∈ F -> b <= x < b + 148 -> P x) ->
  (forall b c e, b ∈ F -> D' !! c = Some e -> apart b c) -> free_ok D' F s'.
Proof.
  intros [H1 H2 H3 H4 H5 H6] [Hf Hw] HP HD.
  assert (Er : forall b, b ∈ F -> read_new (disk s') b = read_new (disk s) b).
  { intros b Hb. apply read_new_ext. intros x Hx. apply Hf; [|by apply (HP b)].
    specialize (H3 b Hb). lia. }
  assert (Ew : freePtr s' = freePtr s /\ eofPtr s' = eofPtr s) by (split; by apply Hw).
  destruct Ew as [Efp Ee]. split; try done.
  - rewrite Efp. revert H2. apply chain_ext. intros b Hb. by rewrite !nx_link, Er by (done || lia).
  - intros b Hb. rewrite Ee. by apply H3.
  - intros b Hb. rewrite Er by done. by apply H6.
Qed.

Lemma apart_sym b c : apart b c -> apart c b.
Proof. unfold apart. tauto. Qed.

(** The free list after a change of the small header fields. *)
Lemma free_agree D F s s' :
  free_ok D F s -> agree_high s s' -> eofPtr s <= eofPtr s' ->
  forall F', (exists l, F = l ++ F') -> chain (nx 0 (disk s)) (s32 (freePtr s')) F' ->
  free_ok D F' s'.
Proof.
  intros [H1 H2 H3 H4 H5 H6] Ha He F' [l ->] Hc.
  assert (Hin : forall b, b ∈ F' -> b ∈ l ++ F') by (intros b Hb; apply elem_of_app; by right).
  assert (Er : forall b, b ∈ F' -> read_new (disk s') b = read_new (disk s) b).
  { intros b Hb. apply read_new_ext. intros x Hx. apply Ha. specialize (H3 b (Hin b Hb)). lia. }
  split.
  - by apply NoDup_app in H1 as (_ & _ & H1).
  - revert Hc. apply chain_ext. intros b Hb. by rewrite !nx_link, Er by (done || lia).
  - intros b Hb. specialize (H3 b (Hin b Hb)). lia.
  - intros b c e Hb. apply H4. by apply Hin.
  - intros b c Hb Hc'. apply H5; by apply Hin.
  - intros b Hb. rewrite Er by done. apply H6. by apply Hin.
Qed.

Section Alloc.
Context `{ByteOrder}.

Lemma bump_raw_u32 v : is_u32 (bump_raw v).
Proof. apply ntohl_u32. Qed.

(** Count the call and write the header out. *)
Definition alloc_end (b : Z) : M (Z * nvlentry) :=
  do a <- get (fun s => cheader s w_allocs);
  put_word w_allocs (bump_raw a) ;;
  or_code write_vital_vlheader 0 ;;
  ret (b, zero_entry).

Lemma alloc_end_ok D F F' s k v b :
  vl_full D F s -> (k = w_freePtr \/ k = w_eofPtr) -> is_u32 v ->
  eofPtr s <= eofPtr (set_word k v s) < 2 ^ 31 -> (exists l, F = l ++ F') ->
  chain (nx 0 (disk s)) (s32 (freePtr (set_word k v s))) F' ->
  exists s', alloc_end b (set_word k v s) = (Ok (b, zero_entry), s') /\ vl_full D F' s'
             /\ eofPtr s' = eofPtr (set_word k v s).
Proof.
  intros [Hrep Hfree] Hk Hv He HF Hc. pose proof (rep_data _ _ Hrep) as Hd.
  set (s2 := set_word w_allocs (bump_raw (cheader (set_word k v s) w_allocs)) (set_word k v s)).
  assert (Ehi : forall w, 10 <= w -> cheader s2 w = cheader s w).
  { intros w Hw. cbn. unfold w_allocs, w_eofPtr, w_freePtr in *.
    destruct (w =? 4) eqn:?, (w =? k) eqn:?; [lia..|]. done. }
  destruct (vital_sync D s s2) as (R & Hd' & Ha); try done; try apply Hd.
  { intros w Hw. cbn. destruct (_ =? _); [apply bump_raw_u32|].
    destruct (_ =? _); [done|]. apply (hdr_u32 D); [done|lia]. }
  eexists. split; [|split; [split|]].
  - unfold alloc_end. rewrite bind_get. unfold bind at 1, put_word. fold s2.
    rewrite (bind_ok _ _ _ _ _ (or_code_ok _ 0 _ _ _ R)). reflexivity.
  - by apply (rep_agree D s).
  - apply (free_agree D F s); try done. by apply He.
  - done.
Qed.

Lemma AllocBlock_ok D F s :
  vl_full D F s -> eofPtr s + 148 < 2 ^ 31 ->
  exists b s', AllocBlock s = (Ok (b, zero_entry), s')
    /\ vl_full D (tail F) s' /\ free_block D s' b /\ (forall c, c ∈ tail F -> apart b c)
    /\ b = match F with [] => eofPtr s | c :: _ => c end.
Proof.
  intros Hfull He. pose proof Hfull as [Hrep Hfree]. pose proof (rep_data _ _ Hrep) as Hd.
  pose proof (d_eof _ _ Hd) as Heof. pose proof (f_chain _ _ _ Hfree) as Hc.
  assert (Hu : is_u32 (freePtr s)) by by apply (hdr_u32 D).
  unfold sizeof_vlheader in Heof.
  destruct F as [|b F].
  - (* grow the file *)
    cbn in Hc. assert (E0 : freePtr s = 0) by mlia.
    assert (Ee : eofPtr (set_word w_eofPtr (u32 (eofPtr s + 148)) s) = eofPtr s + 148)
      by (apply u32_small; mlia).
    destruct (alloc_end_ok D [] [] s w_eofPtr (u32 (eofPtr s + 148)) (eofPtr s)) as (s' & R & Hf' & Ef);
      [done|by right|apply u32_range|rewrite Ee; lia|by exists []|done|].
    exists (eofPtr s), s'. split.
    { rewrite <- R. unfold AllocBlock. rewrite bind_get, E0. cbn [Z.eqb negb].
      unfold bind at 1. rewrite bind_get. unfold bind at 1, put_word at 1, ret at 1.
      by rewrite s32_small by mlia. }
    split; [done|]. split; [|split; [intros c Hin; by apply elem_of_nil in Hin|done]].
    split; [unfold sizeof_vlheader; lia|].
    intros c e Hl. pose proof (d_block _ _ Hd c e Hl). lia.
  - (* take the first free block *)
    destruct Hc as (Eb & Hb0 & Hc).
    destruct (alloc_end_ok D (b :: F) F s w_freePtr (nextid_of (read_new (disk s) b) 0) b)
      as (s' & R & Hf' & Ef); [done|by left| | |by exists [b]| |].
    { apply (link_read_u32 (disk s) b 0); [apply Hd|lia]. }
    { change (eofPtr s <= eofPtr s < 2 ^ 31). lia. }
    { change (freePtr (set_word w_freePtr (nextid_of (read_new (disk s) b) 0) s))
        with (link 0 (read_new (disk s) b)). by rewrite <- nx_link. }
    exists b, s'. split.
    { rewrite <- R. unfold AllocBlock. rewrite bind_get.
      destruct (freePtr s =? 0) eqn:E0; [mlia|]. cbn [negb]. rewrite Eb.
      unfold bind at 1. rewrite (bind_ok _ _ _ _ _ (or_code_ok _ 0 _ _ _
        (vlentryread_ok s b (d_new _ _ Hd) (d_io _ _ Hd)))). reflexivity. }
    split; [done|]. destruct Hfree as [H1 H2 H3 H4 H5 H6].
    apply NoDup_cons in H1 as [H1 _]. split; [|split; [|done]].
    + split; [rewrite Ef; by apply (H3 b); left|]. intros c e Hl. by apply (H4 b c e); [left|].
    + intros c Hin. apply H5; [left|by right|]. by intros ->.
Qed.

(** The entry [FreeBlock] leaves behind. *)
Definition freed (fp : Z) : nvlentry :=
  mkEntry [0;0;0] VLFREE 0 0 0 [fp;0;0] 0 (repeat 0 65) (repeat 0 13) (repeat 0 13)
    (repeat 0 13).

Lemma freed_ok fp : is_u32 fp -> entry_ok (freed fp).
Proof.
  intros Hf. split; try done.
  - split; [done|]. by repeat constructor.
  - split; [done|]. cbn. rewrite !Forall_cons. by repeat split; try apply Hf.
  - cbn. by repeat constructor.
Qed.

Lemma rep_write_free D s b e :
  vl_rep D s -> free_block D s b -> entry_ok e -> vl_rep D (write_entry b e s).
Proof.
  intros [H1 H2 H3 H4] Hb He. split; try done.
  - rewrite <- (delete_insert_id D b e) by by apply (free_fresh D s).
    by apply data_delete, write_entry_data.
  - intros k Hk h Hh. destruct (H2 k Hk h Hh) as (l & Hn & Hc & Hl). exists l.
    split; [done|]. split; [|done]. revert Hc. apply chain_ext. intros c Hc. symmetry.
    apply (nx_write_entry D); try done. by apply (members_in k D h l).
Qed.

Lemma FreeBlock_ok D F s b :
  vl_full D F s -> free_block D s b -> (forall c, c ∈ F -> apart b c) ->
  exists s', FreeBlock b s = (Ok tt, s') /\ vl_full D (b :: F) s'.
Proof.
  intros [Hrep Hfree] Hb Hap. pose proof (rep_data _ _ Hrep) as Hd.
  assert (He : entry_ok (freed (freePtr s))) by by apply freed_ok, (hdr_u32 D).
  pose proof (rep_write_free D s b _ Hrep Hb He) as Hrep0.
  pose proof (d_eof _ _ Hd) as Heof. pose proof (fb_range _ _ _ Hb) as Hbr.
  unfold sizeof_vlheader in *.
  set (s0 := write_entry b (freed (freePtr s)) s) in *.
  set (s2 := set_word w_freePtr (u32 b) s0).
  set (s3 := set_word w_frees (bump_raw (cheader s2 w_frees)) s2).
  destruct (vital_sync D s0 s3) as (R & Hd' & Ha); try done; try apply Hrep0.
  { intros w Hw. cbn. unfold w_frees, w_freePtr.
    destruct (w =? 5) eqn:?, (w =? 2) eqn:?; [lia..|]. reflexivity. }
  { intros w Hw. cbn. destruct (_ =? _); [apply bump_raw_u32|].
    destruct (_ =? _); [apply u32_range|]. apply (hdr_u32 D); [done|lia]. }
  { change (eofPtr s <= eofPtr s < 2 ^ 31). lia. }
  eexists. split.
  { unfold FreeBlock. rewrite bind_get, (index_OK_true D s b Hd Hb). cbn [negb].
    rewrite bind_get. unfold bind at 1, put_word at 1.
    erewrite bind_ok; [|apply or_code_ok, vlwrite_ok, Hd].
    rewrite bind_get. unfold bind at 1, put_word. exact R. }
  split; [apply (rep_agree D s0); try done|].
  { intros w Hw. cbn. unfold w_frees, w_freePtr.
    destruct (w =? 5) eqn:?, (w =? 2) eqn:?; [lia..|]. reflexivity. }
  set (s' := set_disk _ s3) in *. destruct Hfree as [H1 H2 H3 H4 H5 H6].
  assert (Er : forall c, c ∈ F -> read_new (disk s') c = read_new (disk s) c).
  { intros c Hc. apply read_new_ext. intros x Hx. specialize (H3 c Hc).
    rewrite Ha by (unfold sizeof_vlheader in *; lia). apply upd_out.
    rewrite new_layout_length by done. specialize (Hap c Hc). unfold apart in Hap. lia. }
  assert (Eb : read_new (disk s') b = freed (freePtr s)).
  { rewrite <- (read_new_layout (disk s) b (freed (freePtr s)) He). apply read_new_ext.
    intros x Hx. apply Ha. unfold sizeof_vlheader. lia. }
  split.
  - apply NoDup_cons. split; [|done]. intros Hin. specialize (Hap b Hin). unfold apart in Hap. lia.
  - split; [|split; [lia|]].
    + change (freePtr s') with (u32 b). rewrite s32_u32. apply s32_small. mlia.
    + rewrite nx_link, Eb by lia. cbn. revert H2. apply chain_ext. intros c Hc.
      by rewrite !nx_link, Er by (done || lia).
  - intros c [->|Hc]%elem_of_cons; [done|by apply H3].
  - intros c c' e [->|Hc]%elem_of_cons Hl; [by apply (fb_clear _ _ _ Hb c' e)|by apply (H4 c c' e)].
  - intros c c' [->|Hc]%elem_of_cons [->|Hc']%elem_of_cons Hne; try done.
    + by apply Hap.
    + by apply apart_sym, Hap.
    + by apply H5.
  - intros c [->|Hc]%elem_of_cons; [by rewrite Eb|]. rewrite Er by done. by apply H6.
Qed.

End Alloc.

(** ** Look-ups *)

(** What a look-up by id over the three types gives. *)
Definition any_id (D : gmap Z nvlentry) (v b : Z) : Prop :=
  exists e t, D !! b = Some e /\ 0 <= t < 3 /\ volid_of e t = v.

Lemma FindByID_any D s fuel v :
  vl_rep D s -> is_u32 v -> v <> 0 -> v <> 2 ^ 31 -> (size D <= fuel)%nat ->
  exists r, FindByID fuel v (-1) s = (Ok r, s)
    /\ match r with
       | Some (b, e) => e = read_new (disk s) b /\ any_id D v b
       | None => forall b, ~ any_id D v b
       end.
Proof.
  intros Hrep Hv H0 H31 Hf.
  assert (Hfind : forall t, 0 <= t < 3 ->
    exists r, find_id_type fuel v t s = (Ok r, s) /\ id_result D s v t r).
  { intros t Ht. apply find_id_type_ok; try done; [apply Hrep|apply (rep_tbl _ _ Hrep); lia]. }
  assert (Hhit : forall t b e, 0 <= t < 3 -> id_result D s v t (Some (b, e)) ->
            e = read_new (disk s) b /\ any_id D v b).
  { intros t b e Ht (-> & e0 & He0 & _ & E). split; [done|]. by exists e0, t. }
  unfold FindByID. cbn [Z.eqb Pos.eqb].
  destruct (Hfind 0 ltac:(lia)) as (r0 & E0 & H0').
  rewrite (bind_ok _ _ _ _ _ E0). destruct r0 as [[b e]|].
  { eexists. split; [reflexivity|]. by apply (Hhit 0). }
  destruct (Hfind 1 ltac:(lia)) as (r1 & E1 & H1').
  rewrite (bind_ok _ _ _ _ _ E1). destruct r1 as [[b e]|].
  { eexists. split; [reflexivity|]. by apply (Hhit 1). }
  destruct (Hfind 2 ltac:(lia)) as (r2 & E2 & H2'). exists r2. split; [done|].
  destruct r2 as [[b e]|]; [by apply (Hhit 2)|].
  intros b (e & t & He & Ht & E).
  assert (Ht' : t = 0 \/ t = 1 \/ t = 2) by lia.
  destruct Ht' as [->|[->| ->]]; [by apply (H0' b e)|by apply (H1' b e)|by apply (H2' b e)].
Qed.

Lemma EntryIDExists_ok D s fuel ids :
  vl_rep D s -> (size D <= fuel)%nat ->
  Forall (fun v => is_u32 v /\ v <> 2 ^ 31) ids ->
  exists r, EntryIDExists fuel ids s = (Ok r, s)
    /\ (r = true <-> exists v b, v ∈ ids /\ v <> 0 /\ any_id D v b).
Proof.
  intros Hrep Hf Hids. induction Hids as [|v ids [Hu H31] _ (r & E & Hr)].
  { exists false. split; [done|]. split; [done|]. intros (v & b & Hv & _). by apply elem_of_nil in Hv. }
  cbn [EntryIDExists]. destruct (v =? 0) eqn:E0.
  { exists r. split; [done|]. rewrite Hr. split; intros (v' & b & Hv & Hne & Hb).
    - exists v', b. split; [by right|done].
    - apply elem_of_cons in Hv as [->|Hv]; [lia|]. by exists v', b. }
  cbn [negb]. destruct (FindByID_any D s fuel v Hrep Hu ltac:(lia) H31 Hf) as (r' & E' & H').
  rewrite (bind_ok _ _ _ _ _ E'). destruct r' as [[b e]|].
  - exists true. split; [done|]. split; [|done]. intros _. exists v, b.
    split; [left|]. split; [lia|]. by apply H'.
  - exists r. split; [done|]. rewrite Hr. split; intros (v' & b & Hv & Hne & Hb).
    + exists v', b. split; [by right|done].
    + apply elem_of_cons in Hv as [->|Hv]; [by destruct (H' b)|]. by exists v', b.
Qed.

(** ** Creating and removing with the free list *)

Lemma thread_full D F s b e fuel :
  vl_full D F s -> free_block D s b -> (forall c, c ∈ F -> apart b c) ->
  entry_ok e -> key_ok e -> (size D <= fuel)%nat ->
  (forall k, 0 <= k < 3 -> volid_of e k <> 0 -> id_free k D (volid_of e k)) ->
  exists e' s', ThreadVLentry fuel b e s = (Ok e', s') /\ strip e' = strip e
                /\ vl_full (<[b := e']> D) F s'.
Proof.
  intros [Hrep Hfree] Hb Hap He Hk Hf Hid.
  destruct (ThreadVLentry_ok D s b e fuel Hrep Hb He Hk Hf Hid)
    as (e' & s' & R & Es & He' & Hrep' & Hfr).
  exists e', s'. split; [done|]. split; [done|]. split; [done|].
  apply (free_frame D _ F s s' _ Hfree Hfr).
  - intros c x Hc Hx. specialize (Hap c Hc). unfold apart in Hap. lia.
  - intros c c' e0 Hc [[<- _]|[_ Hl]]%lookup_insert_Some.
    + by apply apart_sym, Hap.
    + by apply (f_clear _ _ _ Hfree c c' e0).
Qed.

Lemma in_block_free D s b e :
  data_ok D s -> D !! b = Some e -> forall s', eofPtr s' = eofPtr s -> free_block (delete b D) s' b.
Proof.
  intros Hd Hb s' Es. split; [rewrite Es; by apply (d_block _ _ Hd b e)|].
  intros c e' [Hne Hc]%lookup_delete_Some. by apply (d_disj _ _ Hd b c e e').
Qed.

Lemma remove_full `{ByteOrder} D F s b fuel :
  vl_full D F s -> is_Some (D !! b) -> (size D <= fuel)%nat ->
  exists s', RemoveEntry fuel b (read_new (disk s) b) s = (Ok tt, s')
             /\ vl_full (delete b D) (b :: F) s'.
Proof.
  intros [Hrep Hfree] [e Hb] Hf.
  destruct (UnthreadVLentry_ok D s b fuel Hrep ltac:(by exists e) Hf)
    as (a' & s1 & R & _ & Hrep1 & Hfr).
  assert (Hfree1 : free_ok (delete b D) F s1).
  { apply (free_frame D _ F s s1 _ Hfree Hfr).
    - intros c x Hc Hx c' e' Hl. pose proof (f_clear _ _ _ Hfree c c' e' Hc Hl) as Ha.
      unfold apart in Ha. lia.
    - intros c c' e' Hc [_ Hl]%lookup_delete_Some. by apply (f_clear _ _ _ Hfree c c' e'). }
  destruct (FreeBlock_ok (delete b D) F s1 b) as (s2 & R2 & Hf2).
  - by split.
  - apply (in_block_free D s b e (rep_data _ _ Hrep) Hb). by apply (frame_eof _ _ _ Hfr).
  - intros c Hc. by apply apart_sym, (f_clear _ _ _ Hfree c b e).
  - exists s2. split; [|done]. unfold RemoveEntry. by rewrite (bind_ok _ _ _ _ _ R).
Qed.

(** ** Unused volume ids *)

Section Unused.
Context (D : gmap Z nvlentry) (s : vldb) (fuel : nat) (maxvolid bump B : Z).
Context (Hrep : vl_rep D s) (Hf : (size D <= fuel)%nat) (Hmax : 0 < maxvolid <= B)
  (Hbump : 0 <= bump) (HB : B + bump <= 2 ^ 31)
  (Hused : forall v b, any_id D v b -> v < B).

Definition used (v : Z) : Prop := exists b, any_id D v b.

Lemma next_unused_ok n id nfree :
  B + bump - id <= Z.of_nat n -> 0 <= nfree <= bump -> maxvolid <= id - nfree <= B ->
  (forall v, id - nfree <= v < id -> ~ used v) ->
  (forall m, maxvolid <= m < id - nfree -> exists u, m <= u < m + bump /\ used u) ->
  exists r, next_unused n fuel id nfree bump s = (Ok r, s)
    /\ maxvolid <= r <= B /\ (forall v, r <= v < r + bump -> ~ used v)
    /\ (forall m, maxvolid <= m < r -> exists u, m <= u < m + bump /\ used u).
Proof.
  revert id nfree. induction n as [|n IH]; intros id nfree Hn Hnf Hst Hfree Hblk;
    cbn [next_unused]; destruct (nfree <? bump) eqn:E; cbn [negb].
  - lia.
  - exists (id - nfree). rewrite u32_small by mlia. replace nfree with bump in * by lia.
    repeat split; try lia; [intros v Hv; apply Hfree; lia|done].
  - destruct (FindByID_any D s fuel id Hrep) as (r & Er & Hr); [mlia|lia|mlia|done|].
    rewrite (bind_ok _ _ _ _ _ Er). rewrite !u32_small by mlia. destruct r as [[b e]|].
    + destruct Hr as [_ Hb]. pose proof (Hused id b Hb). apply IH; try lia.
      intros m Hm. destruct (decide (m < id - nfree)) as [Hlt|Hge]; [apply Hblk; lia|].
      exists id. split; [lia|]. by exists b.
    + apply IH; try lia.
      * intros v Hv [b Hb]. destruct (decide (v = id)) as [->|Hne]; [by apply (Hr b)|].
        apply (Hfree v); [lia|]. by exists b.
      * intros m Hm. apply Hblk. lia.
  - exists (id - nfree). rewrite u32_small by mlia. replace nfree with bump in * by lia.
    repeat split; try lia; [intros v Hv; apply Hfree; lia|done].
Qed.

End Unused.

(** ** A new database *)

Lemma new_header_u32 w : is_u32 (new_header w).
Proof.
  unfold new_header. destruct (_ && _) eqn:E; [|done].
  assert (Hw : w = 0 \/ w = 1 \/ w = 2 \/ w = 3 \/ w = 4 \/ w = 5 \/ w = 6 \/ w = 7 \/ w = 8 \/ w = 9)
    by lia.
  repeat destruct Hw as [->|Hw]; [done..|]. by subst w.
Qed.

Lemma header_split (h : Z -> Z) n w :
  0 <= w < Z.of_nat n -> exists l1 l2,
    map (fun i => h (Z.of_nat i)) (seq 0 n) = l1 ++ h w :: l2 /\ w = Z.of_nat (length l1).
Proof.
  intros Hw.
  exists (map (fun i => h (Z.of_nat i)) (seq 0 (Z.to_nat w))).
  exists (map (fun i => h (Z.of_nat i)) (seq (S (Z.to_nat w)) (n - S (Z.to_nat w)))).
  split; [|rewrite length_map, length_seq; lia].
  replace n with (Z.to_nat w + S (n - S (Z.to_nat w)))%nat at 1 by lia.
  rewrite seq_app, map_app. cbn [seq map Nat.add]. by rewrite Z2Nat.id by lia.
Qed.

Lemma free_empty D s : freePtr s = 0 -> free_ok D [] s.
Proof.
  intros E. split; try (intros b; intros; by exfalso; eapply not_elem_of_nil).
  - constructor.
  - cbn. by rewrite E.
Qed.

Lemma build_full d n :
  Z.of_nat n = 33030 -> (forall x, is_u8 (d x)) ->
  vl_full ∅ [] (mkVldb (upd d 0 (header_bytes n)) new_header 13 []).
Proof.
  intros Hn Hd. assert (Hlow : forall w, 10 <= w -> new_header w = 0).
  { intros w Hw. unfold new_header. destruct (_ && _) eqn:E; [lia|done]. }
  split; [|by apply free_empty]. split; try done.
  - split; try done.
    + cbn. apply upd_u8; [done|]. unfold words32. apply Forall_concat, Forall_fmap, Forall_forall.
      intros x _. apply be32_bytes.
    + intros w Hw. cbn [disk cheader].
      destruct (header_split new_header n w ltac:(lia)) as (l1 & l2 & E & El).
      unfold header_bytes. rewrite <- (app_nil_r (words32 _)), <- (Z.add_0_l (4 * w)).
      rewrite (read_word_at _ 0 l1 (new_header w) l2) by (exact E || lia).
      apply u32_small, new_header_u32.
  - intros k Hk h Hh. exists []. split; [constructor|]. split.
    + cbn [cheader]. pose proof (tbl_word_range k h Hk Hh). by rewrite Hlow by lia.
    + intros b. split; [by intros ?%elem_of_nil|]. intros (e & He & _). done.
Qed.

Lemma build_ok s :
  io_faults s = [] -> (forall x, is_u8 (disk s x)) ->
  exists s', build_vldb s = (Ok tt, s') /\ vl_full ∅ [] s'.
Proof.
  intros Hf Hd. eexists. split; [apply or_code_ok, (vlwrite_ok (mkVldb _ _ _ _)), Hf|].
  unfold set_disk. cbn [disk cheader maxnservers io_faults]. rewrite Hf.
  apply build_full; [apply Z2Nat.id; lia|done].
Qed.

(** ** The properties *)


(** [C17] Removing an entry takes exactly it out of the database: no chain leads to
    its block any more, every other entry is still found, and the block is at the
    head of the free list. *)
Theorem vldb_remove_entry `{ByteOrder} (D : gmap Z nvlentry) (F : list Z) (s : vldb)
    (fuel : nat) (b : Z) :
  vl_full D F s -> is_Some (D !! b) -> (size D <= fuel)%nat ->
  exists s', RemoveEntry fuel b (read_new (disk s) b) s = (Ok tt, s')
             /\ vl_full (delete b D) (b :: F) s'.
Proof. apply remove_full. Qed.

(** [C18] Look-ups are sound and complete and always end: by id and type, by id over
    all types, and by name, where a [.backup] or [.readonly] suffix of the name asked
    for is ignored. *)
Theorem vldb_lookup (D : gmap Z nvlentry) (F : list Z) (s : vldb) (fuel : nat) :
  vl_full D F s -> (size D <= fuel)%nat ->
  (forall t v, 0 <= t < 3 -> is_u32 v -> v <> 0 -> v <> 2 ^ 31 ->
     exists r, FindByID fuel v t s = (Ok r, s) /\ id_result D s v t r)
  /\ (forall v, is_u32 v -> v <> 0 -> v <> 2 ^ 31 ->
     exists r, FindByID fuel v (-1) s = (Ok r, s)
       /\ match r with
          | Some (b, e) => e = read_new (disk s) b /\ any_id D v b
          | None => forall b, ~ any_id D v b
          end)
  /\ (forall n, exists r, FindByName fuel n s = (Ok r, s) /\ name_result D s (base_name n) r).
Proof.
  intros Hfull Hf. pose proof (vf_rep _ _ _ Hfull) as Hrep. split; [|split].
  - intros t v Ht Hv H0 H31. rewrite FindByID_type by done.
    apply find_id_type_ok; try done; [apply Hrep|apply (rep_tbl _ _ Hrep); lia].
  - intros v Hv H0 H31. by apply FindByID_any.
  - intros n. apply FindByName_ok; [apply Hrep|by apply (rep_tbl _ _ Hrep)|done].
Qed.

(** [C19] The ids handed out are unused, and they are the first such range: when
    every id in use is below [B], the search from [maxvolid] ends after at most
    [B + bump - maxvolid] look-ups with the least id from which [bump] ids in a row
    are free. *)
Theorem vldb_next_unused (D : gmap Z nvlentry) (s : vldb) (n fuel : nat) (maxvolid bump B : Z) :
  vl_rep D s -> (size D <= fuel)%nat -> 0 < maxvolid <= B -> 0 <= bump -> B + bump <= 2 ^ 31 ->
  (forall v b, any_id D v b -> v < B) -> B + bump - maxvolid <= Z.of_nat n ->
  exists id, NextUnusedID n fuel maxvolid bump s = (Ok id, s)
    /\ maxvolid <= id <= B /\ (forall v, id <= v < id + bump -> ~ used D v)
    /\ (forall m, maxvolid <= m < id -> exists u, m <= u < m + bump /\ used D u).
Proof.
  intros Hrep Hf Hm Hb HB Hu Hn. unfold NextUnusedID.
  apply (next_unused_ok D s fuel maxvolid bump B); try done; lia.
Qed.

(** A database that cannot be read is rebuilt empty: after the new header is
    written the header on disk is the one in memory, all chains and the free list
    are empty, and the first block is right behind the header. *)
Theorem vldb_build (s : vldb) :
  io_faults s = [] -> (forall x, is_u8 (disk s x)) ->
  exists s', build_vldb s = (Ok tt, s') /\ vl_full ∅ [] s' /\ eofPtr s' = sizeof_vlheader.
Proof.
  intros Hf Hd. eexists. split; [apply or_code_ok, (vlwrite_ok (mkVldb _ _ _ _)), Hf|].
  unfold set_disk. cbn [disk cheader maxnservers io_faults]. rewrite Hf.
  split; [|done]. apply build_full; [apply Z2Nat.id; lia|done].
Qed.

(** ** Witnesses *)

Definition vldb0 : vldb :=
  mkVldb (upd (fun _ => 0) 0 (header_bytes (Z.to_nat 33030))) new_header 13 [].

Lemma vldb0_full : vl_full ∅ [] vldb0.
Proof. apply build_full; [apply Z2Nat.id; lia|]. intros x. done. Qed.

(** Volume 536870912 "root.cell" with its read-only clone 536870913. *)
Definition entry1 : nvlentry :=
  mkEntry [536870912; 536870913; 0] 0 0 0 0 [0;0;0] 0
    ([114;111;111;116;46;99;101;108;108] ++ repeat 0 56)
    (repeat 255 13) (repeat 255 13) (repeat 255 13).

Lemma entry1_ok : entry_ok entry1.
Proof.
  split; try done.
  - split; [done|]. cbn. by rewrite !Forall_cons.
  - split; [done|]. cbn. by rewrite !Forall_cons.
  - cbn. by repeat constructor.
Qed.

Lemma entry1_key : key_ok entry1.
Proof.
  split; [done|]. intros k Hk. destruct (tables k ltac:(lia)) as [->|[->|[->| ->]]]; done.
Qed.

Lemma no_ids v b : ~ any_id ∅ v b.
Proof. intros (e & t & He & _). done. Qed.


(** The database with that entry, in the first block. *)
Definition block1 : Z := sizeof_vlheader.
Definition alloc1 : vldb := snd (@AllocBlock little_endian vldb0).
Definition thread1 : res nvlentry * vldb := ThreadVLentry 0 block1 entry1 alloc1.
Definition threaded1 : nvlentry := match fst thread1 with Ok e => e | _ => zero_entry end.

Lemma vldb1_full : vl_full {[block1 := threaded1]} [] (snd thread1).
Proof.
  destruct (@AllocBlock_ok little_endian ∅ [] vldb0 vldb0_full ltac:(reflexivity))
    as (b & s1 & R1 & Hf1 & Hb & Hap & ->).
  assert (E1 : alloc1 = s1) by (unfold alloc1; by rewrite R1).
  destruct (thread_full ∅ [] s1 (eofPtr vldb0) entry1 0 Hf1 Hb Hap entry1_ok entry1_key)
    as (e' & s2 & R2 & _ & Hf2); [done|done|].
  assert (E2 : thread1 = (Ok e', s2)).
  { unfold thread1. rewrite E1. exact R2. }
  unfold threaded1. rewrite E2. exact Hf2.
Qed.

Lemma vldb_remove_entry_witness :
  is_Some (({[block1 := threaded1]} : gmap Z nvlentry) !! block1) /\ exists s',
    @RemoveEntry little_endian 1 block1 (read_new (disk (snd thread1)) block1) (snd thread1)
      = (Ok tt, s')
    /\ vl_full (delete block1 {[block1 := threaded1]}) [block1] s'.
Proof.
  assert (Hs : is_Some (({[block1 := threaded1]} : gmap Z nvlentry) !! block1)).
  { rewrite lookup_singleton_eq. by eexists. }
  split; [exact Hs|].
  apply (@vldb_remove_entry little_endian {[block1 := threaded1]} [] (snd thread1) 1 block1
           vldb1_full Hs).
  by rewrite map_size_singleton.
Defined.

Lemma vldb_lookup_witness :
  vl_full {[block1 := threaded1]} [] (snd thread1) /\ exists r,
    FindByID 1 536870913 1 (snd thread1) = (Ok r, snd thread1)
    /\ id_result {[block1 := threaded1]} (snd thread1) 536870913 1 r.
Proof.
  split; [apply vldb1_full|].
  destruct (vldb_lookup {[block1 := threaded1]} [] (snd thread1) 1 vldb1_full) as [H _];
    [by rewrite map_size_singleton|].
  apply H; done.
Defined.

Lemma vldb_next_unused_witness :
  vl_rep ∅ vldb0 /\ exists id, NextUnusedID 3 0 1000 2 vldb0 = (Ok id, vldb0) /\ 1000 <= id <= 1001.
Proof.
  split; [apply vldb0_full|].
  destruct (vldb_next_unused ∅ vldb0 3 0 1000 2 1001 (vf_rep _ _ _ vldb0_full))
    as (id & R & Hid & _); try lia; try done.
  - intros v b Hb. by apply no_ids in Hb.
  - by exists id.
Defined.

Lemma vldb_build_witness :
  exists s', build_vldb (mkVldb (fun _ => 0) (fun _ => 0) 13 []) = (Ok tt, s')
             /\ vl_full ∅ [] s' /\ eofPtr s' = sizeof_vlheader.
Proof.
  apply (vldb_build (mkVldb (fun _ => 0) (fun _ => 0) 13 [])); [reflexivity|].
  intros x. split; reflexivity.
Defined.

(** ** Where the code does not keep the invariant *)

Definition small_entry (id0 id1 c : Z) : nvlentry :=
  mkEntry [id0; id1; 0] 0 0 0 0 [0;0;0] 0 (c :: repeat 0 64)
    (repeat 255 13) (repeat 255 13) (repeat 255 13).

Definition empty_vldb (m : Z) : vldb := mkVldb (fun _ => 0) new_header m [].

Definition run2 (m : Z) (a b : nvlentry) : vldb :=
  let s1 := snd (@CreateEntryN little_endian 5 a (empty_vldb m)) in
  snd (@CreateEntryN little_endian 5 b s1).

Definition block2 : Z := block1 + 148.

(** The volume id 2147483648 hashes outside its table: [abs] of the most negative
    integer is negative, and the index -32 of [VolidHash[0]] is word 8159 of
    [VolnameHash] (of [VolidHash[t-1]] for the other types). *)
Theorem vldb_id_out_of_table :
  IDHash (2 ^ 31) = -32
  /\ w_VolidHash RWVOL (IDHash (2 ^ 31)) = w_VolnameHash 8159
  /\ w_VolidHash ROVOL (IDHash (2 ^ 31)) = w_VolidHash RWVOL 8159.
Proof. vm_compute. repeat split. Qed.

(** [UnhashVolid] writes the link at its offset in [struct nvlentry]: in a version 2
    database the entry before the one removed keeps its link to the freed block; in
    a version 3 database it does not. *)
Theorem vldb_old_layout_keeps_link :
  let s8 := run2 8 (small_entry 1 0 97) (small_entry 8192 0 98) in
  let s13 := run2 13 (small_entry 1 0 97) (small_entry 8192 0 98) in
  let r8 := @RemoveEntry little_endian 5 block1 (read_old (disk s8) block1) s8 in
  let r13 := @RemoveEntry little_endian 5 block1 (read_new (disk s13) block1) s13 in
  fst r8 = Ok tt /\ nextid_of (read_old (disk (snd r8)) block2) 0 = block1
  /\ fst r13 = Ok tt /\ nextid_of (read_new (disk (snd r13)) block2) 0 = 0.
Proof. vm_compute. repeat split. Qed.

(** An entry without a read-write id is put on the chain of id 0 but never taken off
    it: after its removal the chain leads to a block on the free list. *)
Theorem vldb_zero_id_stays_hashed :
  let s := snd (@CreateEntryN little_endian 5 (small_entry 0 7 97) (empty_vldb 13)) in
  let r := @RemoveEntry little_endian 5 block1 (read_new (disk s) block1) s in
  fst r = Ok tt /\ freePtr (snd r) = block1
  /\ cheader (snd r) (w_VolidHash RWVOL (IDHash 0)) = block1.
Proof. vm_compute. repeat split. Qed.

(** [allocs++] on a field kept in network byte order: after one allocation on a
    little-endian host the header says 16777216 calls. *)
Theorem vldb_allocs_byte_order :
  cheader (snd (@AllocBlock little_endian (empty_vldb 13))) w_allocs = 16777216
  /\ cheader (snd (@AllocBlock big_endian (empty_vldb 13))) w_allocs = 1.
Proof. vm_compute. split; reflexivity. Qed.
