(* ===== verification/Fcrypt.v ===== *)
(** * The fcrypt cipher of rxkad (rxkad/fcrypt.c, rxkad/sboxes.h)

    Blocks are lists of eight bytes, as they lie in memory; the two halves of a
    block are read in network order.  Key schedules are lists of sixteen 32-bit
    words. *)

From stdpp Require Import prelude list.
From Stdlib Require Import ZArith Lia ZifyBool.
From S2P Require Import Prelude.

#[local] Open Scope Z_scope.

Definition sbox0 : list Z := [
  234; 127; 178; 100; 157; 176; 217; 17; 205; 134; 134; 145; 10; 178; 147; 6;
  14; 6; 210; 101; 115; 197; 40; 96; 242; 32; 181; 56; 126; 218; 159; 227;
  210; 207; 196; 60; 97; 255; 74; 74; 53; 172; 170; 95; 43; 187; 188; 83;
  78; 157; 120; 163; 220; 9; 50; 16; 198; 111; 102; 214; 171; 169; 175; 253;
  59; 149; 232; 52; 154; 129; 114; 128; 156; 243; 236; 218; 159; 38; 118; 21;
  62; 85; 77; 222; 132; 238; 173; 199; 241; 107; 61; 211; 4; 73; 170; 36;
  11; 138; 131; 186; 250; 133; 160; 168; 177; 212; 1; 216; 112; 100; 240; 81;
  210; 195; 167; 117; 140; 165; 100; 239; 16; 78; 183; 198; 97; 3; 235; 68;
  61; 229; 179; 91; 174; 213; 173; 29; 250; 90; 30; 51; 171; 147; 162; 183;
  231; 168; 69; 164; 205; 41; 99; 68; 182; 105; 126; 46; 98; 3; 200; 224;
  23; 187; 199; 243; 63; 54; 186; 113; 142; 151; 101; 96; 105; 182; 246; 230;
  110; 224; 129; 89; 232; 175; 221; 149; 34; 153; 253; 99; 25; 116; 97; 177;
  182; 91; 174; 84; 179; 112; 255; 198; 59; 62; 193; 215; 225; 14; 118; 229;
  54; 79; 89; 199; 8; 110; 130; 166; 147; 196; 170; 38; 73; 224; 33; 100;
  7; 159; 100; 129; 156; 191; 249; 209; 67; 248; 182; 185; 241; 36; 117; 3;
  228; 176; 153; 70; 61; 245; 209; 57; 114; 18; 246; 186; 12; 13; 66; 46].

Definition sbox1 : list Z := [
  119; 20; 166; 254; 178; 94; 140; 62; 103; 108; 161; 13; 194; 162; 193; 133;
  108; 123; 103; 198; 35; 227; 242; 137; 80; 156; 3; 183; 115; 230; 225; 57;
  49; 44; 39; 159; 165; 105; 68; 214; 35; 131; 152; 125; 60; 180; 45; 153;
  28; 31; 140; 32; 3; 124; 95; 173; 244; 250; 149; 202; 118; 68; 205; 182;
  184; 161; 161; 190; 158; 84; 143; 11; 22; 116; 49; 138; 35; 23; 4; 250;
  121; 132; 177; 245; 19; 171; 181; 46; 170; 12; 96; 107; 91; 196; 75; 188;
  226; 175; 69; 115; 250; 201; 73; 205; 0; 146; 125; 151; 122; 24; 96; 61;
  207; 91; 222; 198; 226; 230; 187; 139; 6; 218; 8; 21; 27; 136; 106; 23;
  137; 208; 169; 193; 201; 112; 107; 229; 67; 244; 104; 200; 211; 132; 40; 10;
  82; 102; 163; 202; 242; 227; 127; 122; 49; 247; 136; 148; 94; 156; 99; 213;
  36; 102; 252; 179; 87; 37; 190; 137; 68; 196; 224; 143; 35; 60; 18; 82;
  245; 30; 244; 203; 24; 51; 31; 248; 105; 16; 157; 211; 247; 40; 248; 48;
  5; 94; 50; 192; 213; 25; 189; 69; 139; 91; 253; 188; 226; 92; 169; 150;
  239; 112; 207; 194; 42; 179; 97; 173; 128; 72; 129; 183; 29; 67; 217; 215;
  69; 240; 216; 138; 89; 124; 87; 193; 121; 199; 52; 214; 67; 223; 228; 120;
  22; 6; 218; 146; 118; 81; 225; 212; 112; 3; 224; 47; 150; 145; 130; 128].

Definition sbox2 : list Z := [
  240; 55; 36; 83; 42; 3; 131; 134; 209; 236; 80; 240; 66; 120; 47; 109;
  191; 128; 135; 39; 149; 226; 197; 93; 249; 111; 219; 180; 101; 110; 231; 36;
  200; 26; 187; 73; 181; 10; 125; 185; 232; 220; 183; 217; 69; 32; 27; 206;
  89; 157; 107; 189; 14; 143; 163; 169; 188; 116; 166; 246; 127; 95; 177; 104;
  132; 188; 169; 253; 85; 80; 233; 182; 19; 94; 7; 184; 149; 2; 192; 208;
  106; 26; 133; 189; 182; 253; 254; 23; 63; 9; 163; 141; 251; 237; 218; 29;
  109; 28; 108; 1; 90; 229; 113; 62; 139; 107; 190; 41; 235; 18; 25; 52;
  205; 179; 189; 53; 234; 75; 213; 174; 42; 121; 90; 165; 50; 18; 123; 220;
  44; 208; 34; 75; 177; 133; 89; 128; 192; 48; 159; 115; 211; 20; 72; 64;
  7; 45; 143; 128; 15; 206; 11; 94; 183; 94; 172; 36; 148; 74; 24; 21;
  5; 232; 2; 119; 169; 199; 64; 69; 137; 209; 234; 222; 12; 121; 42; 153;
  108; 62; 149; 221; 140; 125; 173; 111; 220; 255; 253; 98; 71; 179; 33; 138;
  236; 142; 25; 24; 180; 110; 61; 253; 116; 84; 30; 4; 133; 216; 188; 31;
  86; 231; 58; 86; 103; 214; 200; 165; 243; 142; 222; 174; 55; 73; 183; 250;
  200; 244; 31; 224; 42; 155; 21; 209; 52; 14; 181; 224; 68; 120; 132; 89;
  86; 104; 119; 165; 20; 6; 245; 47; 140; 138; 115; 128; 118; 180; 16; 134].

Definition sbox3 : list Z := [
  169; 42; 72; 81; 132; 126; 73; 226; 181; 183; 66; 51; 125; 93; 166; 18;
  68; 72; 109; 40; 170; 32; 109; 87; 214; 107; 93; 114; 240; 146; 90; 27;
  83; 128; 36; 112; 154; 204; 167; 102; 161; 1; 165; 65; 151; 65; 49; 130;
  241; 20; 207; 83; 13; 160; 16; 204; 42; 125; 210; 191; 75; 26; 219; 22;
  71; 246; 81; 54; 237; 243; 185; 26; 167; 223; 41; 67; 1; 84; 112; 164;
  191; 212; 11; 83; 68; 96; 158; 35; 161; 24; 104; 79; 240; 47; 130; 194;
  42; 65; 178; 66; 12; 237; 12; 29; 19; 58; 60; 110; 53; 220; 96; 101;
  133; 233; 100; 2; 154; 63; 159; 135; 150; 223; 190; 242; 203; 229; 108; 212;
  90; 131; 191; 146; 27; 148; 0; 66; 207; 75; 0; 117; 186; 143; 118; 95;
  93; 58; 77; 9; 18; 8; 56; 149; 23; 228; 1; 29; 76; 169; 204; 133;
  130; 76; 157; 47; 59; 102; 161; 52; 16; 205; 89; 137; 165; 49; 207; 5;
  200; 132; 250; 199; 186; 78; 139; 26; 25; 241; 161; 59; 24; 18; 23; 176;
  152; 141; 11; 35; 195; 58; 45; 32; 223; 19; 160; 168; 76; 13; 108; 47;
  71; 19; 19; 82; 31; 45; 245; 121; 61; 162; 84; 189; 105; 200; 107; 243;
  5; 40; 241; 22; 70; 64; 176; 17; 211; 183; 149; 73; 207; 195; 29; 143;
  216; 225; 115; 219; 173; 200; 201; 169; 161; 194; 197; 227; 186; 252; 14; 37].

Definition ROUNDS : nat := 16.

(** ** Key schedule *)

(** Seven bits of every key byte: the lowest is parity. *)
Definition key_word (bs : list Z) (acc : Z) : Z :=
  fold_left (fun k c => u32 (Z.shiftl k 7 + Z.shiftr c 1)) bs acc.

(** Rotate the 56-bit key, high word [k1] (24 bits) and low word [k0] (32 bits). *)
Definition rotate (k : Z * Z) : Z * Z :=
  let (k1, k0) := k in
  let temp := Z.land k0 (2 ^ 11 - 1) in
  (Z.lor (Z.shiftr k1 11) (u32 (Z.shiftl temp (56 - 32 - 11))),
   Z.lor (Z.shiftr k0 11) (u32 (Z.shiftl (Z.land k1 (2 ^ 11 - 1)) (32 - 11)))).

Fixpoint schedule_from (n : nat) (k : Z * Z) : list Z :=
  match n with
  | O => []
  | S n => snd k :: schedule_from n (rotate k)
  end.

Definition key_start (key : list Z) : Z * Z :=
  let w := key_word (take 4 key) 0 in
  (Z.shiftr w 4, key_word (drop 4 key) (Z.land w 15)).

Definition fc_keysched (key : list Z) : list Z := schedule_from ROUNDS (key_start key).

(** ** One block *)

Definition sub (sbox : list Z) (b : Z) : Z := nth (Z.to_nat b) sbox 0.

(** Byte [i] of a word, 0 the most significant. *)
Definition byte_of (w : Z) (i : Z) : Z := Z.land (Z.shiftr w (24 - 8 * i)) 255.

(** S-box substitution, permutation of the bytes and rotation right by five. *)
Definition feistel (key half : Z) : Z :=
  let S := Z.lxor (u32 key) half in
  let P := sub sbox3 (byte_of S 3) * 2 ^ 24 + sub sbox2 (byte_of S 2) * 2 ^ 16
           + sub sbox0 (byte_of S 0) * 2 ^ 8 + sub sbox1 (byte_of S 1) in
  Z.lor (Z.shiftr P 5) (u32 (Z.shiftl (Z.land P 31) 27)).

(** The loop of the encryption: two rounds at a time. *)
Fixpoint encrypt_rounds (schedule : list Z) (L R : Z) : Z * Z :=
  match schedule with
  | k0 :: k1 :: rest =>
      let L' := Z.lxor L (feistel k0 R) in
      let R' := Z.lxor R (feistel k1 L') in
      encrypt_rounds rest L' R'
  | _ => (L, R)
  end.

(** The loop of the decryption, on the schedule from its end. *)
Fixpoint decrypt_rounds (schedule : list Z) (L R : Z) : Z * Z :=
  match schedule with
  | k0 :: k1 :: rest =>
      let R' := Z.lxor R (feistel k0 L) in
      let L' := Z.lxor L (feistel k1 R') in
      decrypt_rounds rest L' R'
  | _ => (L, R)
  end.

Definition word_at (i : nat) (l : list Z) : Z := default 0 (un_be32 (take 4 (drop i l))).

Definition fc_ecb_encrypt (clear : list Z) (schedule : list Z) (encrypt : bool) : list Z :=
  let L := word_at 0 clear in
  let R := word_at 4 clear in
  let (L', R') := if encrypt then encrypt_rounds schedule L R
                  else decrypt_rounds (rev schedule) L R in
  be32 L' ++ be32 R'.

(** ** Chaining *)

Definition xor8 (a b : list Z) : list Z := zip_with Z.lxor a b.

(** The next eight bytes of the input; the encryption pads with zeros. *)
Definition block (l : list Z) : list Z := take 8 (l ++ repeat 0 8).

(** The loop of [fc_cbc_encrypt]: output and new chaining value.  [n] counts the
    blocks; [xor] is the 8 bytes of the chaining value as they lie in memory. *)
Fixpoint cbc_blocks (n : nat) (input : list Z) (key xor : list Z) (encrypt : bool)
    : list Z * list Z :=
  match n with
  | O => ([], xor)
  | S n =>
      let t_input := block input in
      let t_output :=
        if encrypt then fc_ecb_encrypt (xor8 xor t_input) key true
        else xor8 (fc_ecb_encrypt t_input key false) xor in
      let (out, xor') := cbc_blocks n (drop 8 input) key (xor8 t_input t_output) encrypt in
      (t_output ++ out, xor')
  end.

(** The number of iterations of the loop on [length]. *)
Definition nblocks (length : Z) : nat := Z.to_nat ((length + 7) / 8).

(** [fc_cbc_encrypt]: the encryption zeroes what lies behind [length] in the last
    block, the decryption uses whole blocks of the input. *)
Definition fc_cbc_encrypt (input : list Z) (length : Z) (key xor : list Z) (encrypt : bool)
    : list Z * list Z :=
  cbc_blocks (nblocks length) (if encrypt then take (Z.to_nat length) input else input)
    key xor encrypt.

(** The vectors of rxkad/fc_test.c. *)
Definition the_quick : list Z :=
  [84;104;101;32;113;117;105;99;107;32;98;114;111;119;110;32;102;111;120;32;106;117;109;112;
   115;32;111;118;101;114;32;116;104;101;32;108;97;122;121;32;100;111;103;115;46;0;0;0].
Definition key1 : list Z := [240;225;210;195;180;165;150;135].
Definition key2 : list Z := [254;220;186;152;118;84;50;16].
Definition ciph1 : list Z := [
  0; 240; 14; 17; 117; 230; 35; 130; 238; 172; 152; 98; 68; 81; 228; 132;
  195; 89; 216; 170; 100; 96; 174; 247; 210; 217; 19; 121; 114; 163; 69; 3;
  35; 181; 98; 215; 12; 245; 39; 209; 248; 145; 60; 172; 68; 34; 146; 239].
Definition ciph2 : list Z := [
  202; 144; 245; 157; 203; 212; 210; 60; 1; 136; 127; 62; 49; 110; 98; 157;
  216; 224; 87; 163; 6; 58; 66; 88; 42; 40; 254; 114; 82; 47; 221; 224;
  25; 137; 9; 28; 42; 142; 140; 148; 252; 199; 104; 228; 136; 170; 222; 15].

Example fc_test_1 :
  fst (fc_cbc_encrypt the_quick 48 (fc_keysched key1) key2 true) = ciph1
  /\ fst (fc_cbc_encrypt ciph1 48 (fc_keysched key1) key2 false) = the_quick.
Proof. vm_compute. split; reflexivity. Qed.

Example fc_test_2 :
  fst (fc_cbc_encrypt the_quick 48 (fc_keysched key2) key1 true) = ciph2
  /\ fst (fc_cbc_encrypt ciph2 48 (fc_keysched key2) key1 false) = the_quick.
Proof. vm_compute. split; reflexivity. Qed.

(** ** Ranges of bitwise operations *)

Lemma land_ones_id n a : 0 <= n -> 0 <= a < 2 ^ n -> Z.land a (Z.ones n) = a.
Proof. intros Hn Ha. rewrite Z.land_ones by done. by apply Z.mod_small. Qed.

Lemma bits_range n a : 0 <= n -> Z.land a (Z.ones n) = a -> 0 <= a < 2 ^ n.
Proof.
  intros Hn <-. rewrite Z.land_ones by done. apply Z.mod_pos_bound. by apply Z.pow_pos_nonneg.
Qed.

Lemma lxor_range n a b :
  0 <= n -> 0 <= a < 2 ^ n -> 0 <= b < 2 ^ n -> 0 <= Z.lxor a b < 2 ^ n.
Proof.
  intros Hn Ha Hb. apply bits_range; [done|].
  rewrite <- (land_ones_id n a), <- (land_ones_id n b) by done.
  apply Z.bits_inj'. intros k Hk. rewrite !Z.land_spec, !Z.lxor_spec, !Z.land_spec.
  by destruct (Z.testbit a k), (Z.testbit b k), (Z.testbit (Z.ones n) k).
Qed.

Lemma lor_range n a b :
  0 <= n -> 0 <= a < 2 ^ n -> 0 <= b < 2 ^ n -> 0 <= Z.lor a b < 2 ^ n.
Proof.
  intros Hn Ha Hb. apply bits_range; [done|].
  rewrite <- (land_ones_id n a), <- (land_ones_id n b) by done.
  apply Z.bits_inj'. intros k Hk. rewrite !Z.land_spec, !Z.lor_spec, !Z.land_spec.
  by destruct (Z.testbit a k), (Z.testbit b k), (Z.testbit (Z.ones n) k).
Qed.

Lemma lxor_cancel a b : Z.lxor (Z.lxor a b) b = a.
Proof. by rewrite Z.lxor_assoc, Z.lxor_nilpotent, Z.lxor_0_r. Qed.

Lemma sub_u8 sbox b : Forall is_u8 sbox -> is_u8 (sub sbox b).
Proof.
  intros Hs. unfold sub. destruct (nth_in_or_default (Z.to_nat b) sbox 0) as [Hin| ->]; [|done].
  rewrite List.Forall_forall in Hs. by apply Hs.
Qed.

Definition all_u8 (l : list Z) : bool := forallb (fun z => (0 <=? z) && (z <? 256)) l.

Lemma all_u8_ok l : all_u8 l = true -> Forall is_u8 l.
Proof.
  intros E. apply List.Forall_forall. intros x Hx. unfold all_u8 in E.
  rewrite forallb_forall in E. specialize (E x Hx). mlia.
Qed.

Lemma feistel_u32 k x : is_u32 (feistel k x).
Proof.
  unfold feistel. set (S := Z.lxor _ _).
  pose proof (sub_u8 sbox0 (byte_of S 0) (all_u8_ok sbox0 eq_refl)) as H0.
  pose proof (sub_u8 sbox1 (byte_of S 1) (all_u8_ok sbox1 eq_refl)) as H1.
  pose proof (sub_u8 sbox2 (byte_of S 2) (all_u8_ok sbox2 eq_refl)) as H2.
  pose proof (sub_u8 sbox3 (byte_of S 3) (all_u8_ok sbox3 eq_refl)) as H3.
  apply lor_range; [done| |apply u32_range].
  rewrite Z.shiftr_div_pow2 by done. change (2 ^ 5) with 32. mlia.
Qed.

(** ** Feistel rounds *)

Lemma decrypt_app a b L R :
  Nat.even (length a) = true ->
  decrypt_rounds (a ++ b) L R
  = (let (L', R') := decrypt_rounds a L R in decrypt_rounds b L' R').
Proof.
  revert L R. induction a as [a IH] using (induction_ltof1 _ (@length Z)).
  intros L R Ha. destruct a as [|k0 [|k1 a]]; [done|done|].
  cbn [app decrypt_rounds]. apply IH; [unfold ltof; cbn; lia|done].
Qed.

Lemma decrypt_encrypt ks L R :
  Nat.even (length ks) = true ->
  (let (L', R') := encrypt_rounds ks L R in decrypt_rounds (rev ks) L' R') = (L, R).
Proof.
  revert L R. induction ks as [ks IH] using (induction_ltof1 _ (@length Z)).
  intros L R Hk. destruct ks as [|k0 [|k1 ks]]; [done|done|].
  cbn [encrypt_rounds rev].
  specialize (IH ks ltac:(unfold ltof; cbn; lia) (Z.lxor L (feistel k0 R))
                (Z.lxor R (feistel k1 (Z.lxor L (feistel k0 R)))) Hk).
  destruct (encrypt_rounds ks _ _) as [L' R']. rewrite <- app_assoc.
  rewrite decrypt_app by (by rewrite length_rev). rewrite IH.
  cbn [decrypt_rounds app]. by rewrite !lxor_cancel.
Qed.

Lemma encrypt_u32 ks L R :
  is_u32 L -> is_u32 R ->
  is_u32 (fst (encrypt_rounds ks L R)) /\ is_u32 (snd (encrypt_rounds ks L R)).
Proof.
  revert L R. induction ks as [ks IH] using (induction_ltof1 _ (@length Z)).
  intros L R HL HR. destruct ks as [|k0 [|k1 ks]]; [done|done|].
  cbn [encrypt_rounds]. apply IH; [unfold ltof; cbn; lia| |];
    repeat apply (lxor_range 32); try done; apply feistel_u32.
Qed.

(** ** Blocks *)

Definition is_block (b : list Z) : Prop := length b = 8%nat /\ Forall is_u8 b.

Lemma ecb_block b ks e : is_block (fc_ecb_encrypt b ks e).
Proof.
  unfold fc_ecb_encrypt. destruct (if e then _ else _) as [L R]. split; [done|].
  apply Forall_app. split; apply be32_bytes.
Qed.

Lemma word_at_parts x y : word_at 0 (be32 x ++ be32 y) = u32 x /\ word_at 4 (be32 x ++ be32 y) = u32 y.
Proof.
  unfold word_at. split.
  - change (take 4 (drop 0 (be32 x ++ be32 y))) with (be32 x). by rewrite un_be32_be32.
  - change (take 4 (drop 4 (be32 x ++ be32 y))) with (be32 y). by rewrite un_be32_be32.
Qed.

Lemma block_split b : is_block b -> exists x y, is_u32 x /\ is_u32 y /\ b = be32 x ++ be32 y.
Proof.
  intros [Hl Hb].
  destruct b as [|a0 [|a1 [|a2 [|a3 [|a4 [|a5 [|a6 [|a7 [|? ?]]]]]]]]]; try discriminate.
  destruct (be32_un_be32 [a0; a1; a2; a3] (a0 * 2 ^ 24 + a1 * 2 ^ 16 + a2 * 2 ^ 8 + a3))
    as [E1 H1]; [by rewrite !Forall_cons in *; tauto|done|].
  destruct (be32_un_be32 [a4; a5; a6; a7] (a4 * 2 ^ 24 + a5 * 2 ^ 16 + a6 * 2 ^ 8 + a7))
    as [E2 H2]; [by rewrite !Forall_cons in *; tauto|done|].
  eexists _, _. split; [exact H1|]. split; [exact H2|]. by rewrite E1, E2.
Qed.

Lemma ecb_roundtrip b ks :
  is_block b -> Nat.even (length ks) = true ->
  fc_ecb_encrypt (fc_ecb_encrypt b ks true) ks false = b.
Proof.
  intros (x & y & Hx & Hy & ->)%block_split Hk. unfold fc_ecb_encrypt at 2.
  destruct (word_at_parts x y) as [-> ->]. rewrite !u32_small by done.
  pose proof (encrypt_u32 ks x y Hx Hy) as [HL HR]. pose proof (decrypt_encrypt ks x y Hk) as E.
  destruct (encrypt_rounds ks x y) as [L R]. unfold fc_ecb_encrypt.
  destruct (word_at_parts L R) as [-> ->]. rewrite !u32_small by done. by rewrite E.
Qed.

Lemma xor_bytes a b : Forall is_u8 a -> Forall is_u8 b -> Forall is_u8 (xor8 a b).
Proof.
  intros Ha. revert b. induction Ha as [|x a Hx Ha IH]; intros b Hb; [constructor|].
  destruct Hb as [|y b Hy Hb]; [constructor|]. constructor; [|by apply IH].
  by apply (lxor_range 8).
Qed.

Lemma xor8_block a b : is_block a -> is_block b -> is_block (xor8 a b).
Proof.
  intros [Ha Ha'] [Hb Hb']. split; [unfold xor8; rewrite length_zip_with; lia|].
  by apply xor_bytes.
Qed.

Lemma xor8_comm a b : xor8 a b = xor8 b a.
Proof.
  revert b. induction a as [|x a IH]; intros [|y b]; try done. cbn. by rewrite Z.lxor_comm, IH.
Qed.

Lemma xor8_cancel a b : length a = length b -> xor8 (xor8 a b) a = b.
Proof.
  revert b. induction a as [|x a IH]; intros [|y b] Hl; try done. cbn.
  rewrite (Z.lxor_comm x y), lxor_cancel, IH by (cbn in Hl; lia). done.
Qed.

Lemma block_is_block l : Forall is_u8 l -> is_block (block l).
Proof.
  intros Hl. unfold block. split.
  - rewrite length_take, length_app, repeat_length. lia.
  - apply Forall_take, Forall_app. split; [done|]. by apply Forall_replicate || by repeat constructor.
Qed.

Lemma block_app b l : length b = 8%nat -> block (b ++ l) = b.
Proof. intros Hb. unfold block. rewrite <- app_assoc. by rewrite take_app_length' by done. Qed.

(** The input cut into [n] blocks, the last one padded. *)
Fixpoint in_blocks (n : nat) (l : list Z) : list Z :=
  match n with
  | O => []
  | S n => block l ++ in_blocks n (drop 8 l)
  end.

Lemma block_long l : (8 <= length l)%nat -> block l = take 8 l.
Proof. intros Hl. unfold block. by rewrite take_app_le. Qed.

Lemma block_short l : (length l <= 8)%nat -> block l = l ++ repeat 0 (8 - length l).
Proof.
  intros Hl. unfold block. rewrite take_app, take_ge by lia. f_equal.
  replace 8%nat with ((8 - length l) + length l)%nat at 2 by lia. rewrite repeat_app.
  by rewrite take_app_length' by (by rewrite repeat_length).
Qed.

Lemma in_blocks_eq n l :
  (length l <= 8 * n)%nat -> in_blocks n l = l ++ repeat 0 (8 * n - length l).
Proof.
  revert l. induction n as [|n IH]; intros l Hl.
  - destruct l; [done|cbn in Hl; lia].
  - cbn [in_blocks]. rewrite IH by (rewrite length_drop; lia). rewrite length_drop.
    destruct (decide (8 <= length l)%nat) as [Hge|Hlt].
    + rewrite block_long, app_assoc, take_drop by done. do 2 f_equal. lia.
    + rewrite block_short, drop_ge by lia. rewrite <- app_assoc, app_nil_l, <- repeat_app.
      do 2 f_equal. lia.
Qed.

Lemma cbc_roundtrip n input key xor :
  Forall is_u8 input -> is_block xor -> Nat.even (length key) = true ->
  let (c, x) := cbc_blocks n input key xor true in
  length c = (8 * n)%nat /\ cbc_blocks n c key xor false = (in_blocks n input, x).
Proof.
  revert input xor. induction n as [|n IH]; intros input xor Hi Hx Hk; [done|].
  cbn [cbc_blocks in_blocks]. pose proof (block_is_block input Hi) as Hb.
  set (t_in := block input) in *.
  set (t_out := fc_ecb_encrypt (xor8 xor t_in) key true).
  pose proof (ecb_block (xor8 xor t_in) key true) as Ho. fold t_out in Ho.
  specialize (IH (drop 8 input) (xor8 t_in t_out) (Forall_drop _ _ _ Hi)
                (xor8_block _ _ Hb Ho) Hk).
  destruct (cbc_blocks n (drop 8 input) key (xor8 t_in t_out) true) as [out x'].
  destruct IH as [Hlen IH]. destruct Ho as [Ho Ho'].
  split; [rewrite length_app; lia|]. cbn [cbc_blocks].
  rewrite block_app by done. unfold t_out at 1 2 3 4.
  rewrite ecb_roundtrip by (done || by apply xor8_block). fold t_out.
  rewrite xor8_cancel by (destruct Hx, Hb; congruence).
  rewrite drop_app_length' by done. rewrite (xor8_comm t_out t_in), IH. done.
Qed.

Lemma cbc_app n m a b key xor e :
  length a = (8 * n)%nat ->
  cbc_blocks (n + m) (a ++ b) key xor e
  = (let (o1, x1) := cbc_blocks n a key xor e in
     let (o2, x2) := cbc_blocks m b key x1 e in (o1 ++ o2, x2)).
Proof.
  revert a xor. induction n as [|n IH]; intros a xor Ha.
  { destruct a; [|cbn in Ha; lia]. cbn. by destruct (cbc_blocks m b key xor e). }
  cbn [Nat.add cbc_blocks].
  assert (Eb : block (a ++ b) = block a).
  { rewrite !block_long by (rewrite ?length_app; lia). apply take_app_le. lia. }
  rewrite Eb, drop_app_le by lia. rewrite IH by (rewrite length_drop; lia).
  destruct (cbc_blocks n (drop 8 a) key _ e) as [o1 x1].
  destruct (cbc_blocks m b key x1 e) as [o2 x2]. by rewrite app_assoc.
Qed.

(** ** The key schedule is a rotation of the 56-bit key *)

Definition ror56 (n : Z) (k : Z) : Z := k / 2 ^ n + (k mod 2 ^ n) * 2 ^ (56 - n).

Lemma lor_shift a b n :
  0 <= n -> 0 <= a < 2 ^ n -> Z.lor a (Z.shiftl b n) = a + b * 2 ^ n.
Proof.
  intros Hn Ha. rewrite Z.shiftl_mul_pow2 by done.
  rewrite Z.add_nocarry_lxor, <- Z.lxor_lor; [done| |].
  all: apply Z.bits_inj'; intros k Hk; rewrite Z.land_spec, Z.bits_0;
    destruct (decide (k < n)) as [Hlt|Hge];
    [rewrite Z.mul_pow2_bits_low by done; apply andb_false_r|].
  all: replace a with (a mod 2 ^ n) by (by apply Z.mod_small);
    rewrite Z.mod_pow2_bits_high by lia; done.
Qed.

Lemma rotate_ror k1 k0 :
  0 <= k1 < 2 ^ 24 -> is_u32 k0 ->
  let (k1', k0') := rotate (k1, k0) in
  k1' * 2 ^ 32 + k0' = ror56 11 (k1 * 2 ^ 32 + k0) /\ 0 <= k1' < 2 ^ 24 /\ is_u32 k0'.
Proof.
  intros H1 H0. unfold rotate. change (2 ^ 11 - 1) with (Z.ones 11).
  rewrite !Z.land_ones, !Z.shiftr_div_pow2 by done.
  change (56 - 32 - 11) with 13. change (32 - 11) with 21.
  rewrite !u32_small by (rewrite Z.shiftl_mul_pow2 by done; change (2 ^ 13) with 8192;
                         change (2 ^ 21) with 2097152; change (2 ^ 11) with 2048; mlia).
  rewrite (lor_shift (k1 / 2 ^ 11)), (lor_shift (k0 / 2 ^ 11))
    by (try done; change (2 ^ 11) with 2048; change (2 ^ 13) with 8192;
        change (2 ^ 21) with 2097152; mlia).
  unfold ror56. change (2 ^ 11) with 2048. change (2 ^ 13) with 8192.
  change (2 ^ 21) with 2097152. change (2 ^ (56 - 11)) with 35184372088832. mlia.
Qed.

Lemma schedule_spec n k1 k0 i :
  0 <= k1 < 2 ^ 24 -> is_u32 k0 -> (i < n)%nat ->
  nth i (schedule_from n (k1, k0)) 0
  = Nat.iter i (ror56 11) (k1 * 2 ^ 32 + k0) mod 2 ^ 32.
Proof.
  revert k1 k0 i. induction n as [|n IH]; intros k1 k0 i H1 H0 Hi; [lia|].
  destruct i as [|i]; cbn [schedule_from nth snd].
  - change (k0 = (k1 * 2 ^ 32 + k0) mod 2 ^ 32). mlia.
  - pose proof (rotate_ror k1 k0 H1 H0) as Hr. destruct (rotate (k1, k0)) as [k1' k0'].
    destruct Hr as (E & H1' & H0'). rewrite IH by (done || lia). rewrite E.
    by rewrite Nat.iter_succ_r.
Qed.

(** The 56 key bits, first byte most significant. *)
Definition key56 (key : list Z) : Z := fold_left (fun k c => k * 2 ^ 7 + c / 2) key 0.

Lemma key_word_eq bs acc :
  Forall is_u8 bs -> 0 <= acc -> (acc + 1) * 2 ^ (7 * Z.of_nat (length bs)) <= 2 ^ 32 ->
  key_word bs acc = fold_left (fun k c => k * 2 ^ 7 + c / 2) bs acc
  /\ 0 <= key_word bs acc < (acc + 1) * 2 ^ (7 * Z.of_nat (length bs)).
Proof.
  intros Hb. revert acc. induction Hb as [|c bs Hc Hb IH]; intros acc Ha Hr.
  { cbn. split; [done|]. lia. }
  cbn [key_word fold_left length]. unfold key_word in *. cbn [fold_left].
  rewrite Z.shiftl_mul_pow2, Z.shiftr_div_pow2 by done. change (2 ^ 1) with 2.
  assert (E : 2 ^ (7 * Z.of_nat (S (length bs))) = 128 * 2 ^ (7 * Z.of_nat (length bs))).
  { rewrite Nat2Z.inj_succ, Z.mul_succ_r, Z.pow_add_r by lia. change (2 ^ 7) with 128. lia. }
  cbn [length] in Hr. rewrite E in Hr. change (2 ^ 7) with 128.
  assert (Hp : 1 <= 2 ^ (7 * Z.of_nat (length bs))).
  { change 1 with (2 ^ 0). apply Z.pow_le_mono_r; lia. }
  assert (Hc' : 0 <= c / 2 < 128) by mlia.
  rewrite u32_small by (unfold is_u32; nia).
  destruct (IH (acc * 128 + c / 2)) as [E1 E2]; [nia|nia|].
  change (2 ^ 7) with 128 in E1. split; [exact E1|]. cbn [length]. rewrite E. nia.
Qed.

Lemma fold_shift bs acc :
  fold_left (fun k c => k * 2 ^ 7 + c / 2) bs acc
  = acc * 2 ^ (7 * Z.of_nat (length bs)) + key56 bs.
Proof.
  unfold key56. revert acc. induction bs as [|c bs IH]; intros acc.
  { cbn. lia. }
  cbn [fold_left length]. rewrite (IH (acc * 2 ^ 7 + c / 2)), (IH (0 * 2 ^ 7 + c / 2)).
  rewrite Nat2Z.inj_succ, Z.mul_succ_r, Z.pow_add_r by lia. change (2 ^ 7) with 128. lia.
Qed.

Lemma key_start_spec key :
  is_block key ->
  let (k1, k0) := key_start key in
  k1 * 2 ^ 32 + k0 = key56 key /\ 0 <= k1 < 2 ^ 24 /\ is_u32 k0.
Proof.
  intros [Hl Hk]. unfold key_start.
  destruct (key_word_eq (take 4 key) 0) as [E1 R1];
    [by apply Forall_take|done|rewrite length_take, Hl; done|].
  set (w := key_word (take 4 key) 0) in *.
  rewrite length_take, Hl in R1. change (_ * 2 ^ (7 * Z.of_nat (Nat.min 4 8))) with 268435456 in R1.
  change 15 with (Z.ones 4). rewrite Z.land_ones, Z.shiftr_div_pow2 by done. change (2 ^ 4) with 16.
  destruct (key_word_eq (drop 4 key) (w mod 16)) as [E2 R2];
    [by apply Forall_drop|mlia| |].
  { rewrite length_drop, Hl. change (2 ^ (7 * Z.of_nat (8 - 4))) with 268435456. mlia. }
  set (v := key_word (drop 4 key) (w mod 16)) in *.
  rewrite length_drop, Hl in R2. change (2 ^ (7 * Z.of_nat (8 - 4))) with 268435456 in R2.
  rewrite fold_shift, length_drop, Hl in E2.
  change (2 ^ (7 * Z.of_nat (8 - 4))) with 268435456 in E2.
  assert (E : key56 key = w * 268435456 + key56 (drop 4 key)).
  { unfold key56 at 1. rewrite <- (take_drop 4 key) at 1. rewrite fold_left_app, <- E1.
    rewrite fold_shift, length_drop, Hl. done. }
  rewrite E. mlia.
Qed.

Lemma schedule_length n k : length (schedule_from n k) = n.
Proof. revert k. induction n as [|n IH]; intros k; [done|]. cbn. by rewrite IH. Qed.

(** ** The properties *)

(** [C21] Decryption undoes encryption: with the same schedule and chaining value the
    receiver gets the sender's bytes, padded with zeros to whole blocks, and both
    sides end with the same chaining value. *)
Theorem fc_cbc_roundtrip (input key iv : list Z) :
  Forall is_u8 input -> is_block iv -> is_block key ->
  let n := nblocks (Z.of_nat (length input)) in
  let (c, x) := fc_cbc_encrypt input (Z.of_nat (length input)) (fc_keysched key) iv true in
  length c = (8 * n)%nat
  /\ fc_cbc_encrypt c (Z.of_nat (length c)) (fc_keysched key) iv false
     = (input ++ repeat 0 (8 * n - length input), x).
Proof.
  intros Hi Hv Hk n. unfold fc_cbc_encrypt. rewrite take_ge by lia. fold n.
  pose proof (cbc_roundtrip n input (fc_keysched key) iv Hi Hv) as H.
  destruct (cbc_blocks n input (fc_keysched key) iv true) as [c x].
  destruct H as [Hl H]; [unfold fc_keysched; by rewrite schedule_length|].
  split; [done|]. replace (nblocks (Z.of_nat (length c))) with n.
  - rewrite H. rewrite in_blocks_eq; [done|]. unfold n, nblocks. mlia.
  - rewrite Hl. unfold nblocks. mlia.
Qed.

(** Crypting can be done in segments: when the first segment is whole blocks,
    crypting it and then the rest with the chaining value it leaves gives the same
    output and chaining value as crypting all at once, in both directions. *)
Theorem fc_cbc_segments (a b key iv : list Z) (e : bool) :
  Z.of_nat (length a) mod 8 = 0 ->
  fc_cbc_encrypt (a ++ b) (Z.of_nat (length (a ++ b))) key iv e
  = (let (o1, x1) := fc_cbc_encrypt a (Z.of_nat (length a)) key iv e in
     let (o2, x2) := fc_cbc_encrypt b (Z.of_nat (length b)) key x1 e in
     (o1 ++ o2, x2)).
Proof.
  intros Ha. set (n := nblocks (Z.of_nat (length a))). set (m := nblocks (Z.of_nat (length b))).
  assert (Hn : length a = (8 * n)%nat) by (unfold n, nblocks; mlia).
  assert (Hnm : nblocks (Z.of_nat (length (a ++ b))) = (n + m)%nat).
  { rewrite length_app. unfold n, m, nblocks in *. mlia. }
  unfold fc_cbc_encrypt. rewrite Hnm. fold n m. rewrite !take_ge by lia.
  destruct e; by apply cbc_app.
Qed.

(** The key schedule: round [i] uses the low 32 bits of the 56-bit key rotated
    right by [11 * i]; in particular the parity bits of the key do not matter. *)
Theorem fc_keysched_rotation (key : list Z) :
  is_block key ->
  length (fc_keysched key) = 16%nat
  /\ forall i, (i < 16)%nat ->
       nth i (fc_keysched key) 0 = Nat.iter i (ror56 11) (key56 key) mod 2 ^ 32.
Proof.
  intros Hk. unfold fc_keysched. split; [apply schedule_length|]. intros i Hi.
  pose proof (key_start_spec key Hk) as H. destruct (key_start key) as [k1 k0].
  destruct H as (<- & H1 & H0). by apply schedule_spec.
Qed.

(** ** Witnesses *)

Lemma key1_block : is_block key1.
Proof. split; [done|]. by apply all_u8_ok. Qed.
Lemma key2_block : is_block key2.
Proof. split; [done|]. by apply all_u8_ok. Qed.

Lemma fc_cbc_roundtrip_witness :
  let (c, x) := fc_cbc_encrypt [1; 2; 3] 3 (fc_keysched key1) key2 true in
  length c = 8%nat
  /\ fc_cbc_encrypt c (Z.of_nat (length c)) (fc_keysched key1) key2 false
     = ([1; 2; 3] ++ repeat 0 5, x).
Proof.
  apply (fc_cbc_roundtrip [1; 2; 3] key1 key2); [by apply all_u8_ok|apply key2_block|apply key1_block].
Defined.

Lemma fc_cbc_segments_witness :
  fc_cbc_encrypt (key1 ++ [1; 2; 3]) 11 (fc_keysched key1) key2 true
  = (let (o1, x1) := fc_cbc_encrypt key1 8 (fc_keysched key1) key2 true in
     let (o2, x2) := fc_cbc_encrypt [1; 2; 3] 3 (fc_keysched key1) x1 true in
     (o1 ++ o2, x2)).
Proof. apply (fc_cbc_segments key1 [1; 2; 3] (fc_keysched key1) key2 true). reflexivity. Defined.

Lemma fc_keysched_rotation_witness :
  nth 3 (fc_keysched key1) 0 = Nat.iter 3 (ror56 11) (key56 key1) mod 2 ^ 32.
Proof. apply (fc_keysched_rotation key1 key1_block). lia. Defined.
