(* ===== verification/Acl.v ===== *)
(** * Access control lists (libacl/aclprocs.c, libacl/netprocs.c)

    Strings are lists of byte values without the terminating NUL; a pointer into a
    string is the rest of the string it points to.  Reading a string outside its
    bounds is the outcome [Overrun].  [qsort] is the interface [QSort]; the
    translation of names to ids is the caller's, a parameter. *)

From stdpp Require Import prelude list sorting.
From Stdlib Require Import ZArith Lia ZifyBool.
From S2P Require Import Prelude.

#[local] Open Scope Z_scope.

Definition ACL_MAXENTRIES := 20.
Definition ACL_ACLVERSION := 1.
Definition PR_MAXNAMELEN := 64.
Definition ANONYMOUSID := 32766.
Definition SYSADMINID := -204.
Definition EINVAL := 22.

Record acl_accessEntry := mkAce { e_id : Z; e_rights : Z }.

Record acl_accessList := mkAcl {
  a_size : Z;
  a_version : Z;
  a_total : Z;
  a_positive : Z;
  a_negative : Z;
  a_entries : list acl_accessEntry
}.

(** ** Comparisons and sorting *)

Definition CmpPlus (a b : acl_accessEntry) : Z :=
  if e_id a <? e_id b then -1 else if e_id a =? e_id b then 0 else 1.
Definition CmpMinus (a b : acl_accessEntry) : Z :=
  if e_id b <? e_id a then -1 else if e_id a =? e_id b then 0 else 1.
Definition CmpInt (x y : Z) : Z := if x <? y then -1 else if x =? y then 0 else 1.

(** The C library's [qsort]: a permutation in which no element comes after one it
    compares greater than.  The order of equal elements is not specified. *)
Class QSort := {
  qsort : (acl_accessEntry -> acl_accessEntry -> Z) -> list acl_accessEntry ->
          list acl_accessEntry;
  qsort_perm : forall cmp l, qsort cmp l ≡ₚ l;
  qsort_sorted : forall cmp l,
    (forall a b, cmp a b <= 0 \/ cmp b a <= 0) ->
    (forall a b c, cmp a b <= 0 -> cmp b c <= 0 -> cmp a c <= 0) ->
    StronglySorted (fun a b => cmp a b <= 0) (qsort cmp l)
}.

(** ** Allocation: the free list of blocks, first fit *)

Definition sizeof_accessList := 28.
Definition sizeof_accessEntry := 8.

(** A free block is known by its size. *)
Definition AddToList (flist : list Z) (elem : Z) : list Z := elem :: flist.

Fixpoint GetFromList (flist : list Z) (minsize : Z) : option (Z * list Z) :=
  match flist with
  | [] => None
  | y :: rest =>
      if minsize <=? y then Some (y, rest)
      else match GetFromList rest minsize with
           | Some (x, rest') => Some (x, y :: rest')
           | None => None
           end
  end.

(** The block of at least [t] bytes an allocation ends up with: off the free list,
    or new from [malloc]. *)
Definition get_block (flist : list Z) (t : Z) : Z * list Z :=
  match GetFromList flist t with
  | Some r => r
  | None => (t, flist)
  end.

(** [acl_NewACL]: what is in the entries is whatever was in the block. *)
Definition acl_NewACL (nEntries : Z) (garbage : list acl_accessEntry) : acl_accessList :=
  mkAcl (s32 (sizeof_accessList + (nEntries - 1) * sizeof_accessEntry)) ACL_ACLVERSION nEntries
    0 0 garbage.

(** [acl_NewExternalACL]: the size of the buffer it provides. *)
Definition external_size (nEntries : Z) : Z := 20 + nEntries * (PR_MAXNAMELEN + 20).

(** ** Rights *)

(** One of the two loops of [acl_CheckRights]: every iteration takes an entry from
    the access list [a] or from the CPS [c]. *)
Fixpoint accumulate (fuel : nat) (a : list acl_accessEntry) (c : list Z) (rights : Z)
    : option Z :=
  match a, c with
  | [], _ | _, [] => Some rights
  | e :: a', g :: c' =>
      match fuel with
      | O => None
      | S fuel =>
          let r := CmpInt (e_id e) g in
          if r =? -1 then accumulate fuel a' c rights
          else if r =? 0 then accumulate fuel a' c (Z.lor rights (e_rights e))
          else accumulate fuel a c' rights
      end
  end.

(** The positive entries, and the negative ones in the order they are visited:
    from the end of the list backwards. *)
Definition positive_entries (acl : acl_accessList) : list acl_accessEntry :=
  take (Z.to_nat (a_positive acl)) (a_entries acl).
Definition negative_entries (acl : acl_accessList) : list acl_accessEntry :=
  rev (drop (Z.to_nat (a_total acl - a_negative acl))
         (take (Z.to_nat (a_total acl)) (a_entries acl))).

(** [acl_CheckRights]: the code, and the rights when the code is 0. *)
Definition acl_CheckRights (acl : acl_accessList) (groups : list Z) : Z * option Z :=
  if ACL_MAXENTRIES <? a_total acl then (1, None)
  else if a_total acl <? 0 then (1, None)
  else if 192 <? a_size acl then (1, None)
  else if (a_total acl <=? 0) || (Z.of_nat (length groups) <=? 0) then (0, Some 0)
  else if List.last groups 0 =? SYSADMINID then (0, Some (-1))
  else
    let fuel a := (length a + length groups)%nat in
    match accumulate (fuel (positive_entries acl)) (positive_entries acl) groups 0,
          accumulate (fuel (negative_entries acl)) (negative_entries acl) groups 0 with
    | Some temprights, Some negrights => (0, Some (Z.land temprights (Z.lnot negrights)))
    | _, _ => (0, None)
    end.

Fixpoint acl_IsAMember (aid : Z) (cps : list Z) : bool :=
  match cps with
  | [] => false
  | x :: rest => if x =? aid then true else acl_IsAMember aid rest
  end.

(** ** Network byte order *)

Section Net.
Context `{ByteOrder}.

(** [CheckAccessList]; the sum wraps, the size is compared as unsigned long. *)
Definition CheckAccessList (acl : acl_accessList) : Z :=
  if (a_total acl <? 0) || (ACL_MAXENTRIES <? a_total acl) then EINVAL
  else if (a_positive acl <? 0) || (a_negative acl <? 0)
          || negb (s32 (a_positive acl + a_negative acl) =? a_total acl) then EINVAL
  else if a_size acl mod 2 ^ 64
          <? (sizeof_accessList + (a_total acl - 1) * sizeof_accessEntry) mod 2 ^ 64 then EINVAL
  else 0.

Definition swap32 (z : Z) : Z := s32 (ntohl (u32 z)).
Definition swap_entry (e : acl_accessEntry) : acl_accessEntry :=
  mkAce (swap32 (e_id e)) (swap32 (e_rights e)).

(** The two loops over the entries: the first [positive] and the last [negative] of
    the [total]. *)
Definition swap_entries (acl : acl_accessList) : list acl_accessEntry :=
  imap (fun i e =>
          let i := Z.of_nat i in
          if (i <? a_positive acl) || ((a_total acl - a_negative acl <=? i) && (i <? a_total acl))
          then swap_entry e else e) (a_entries acl).

Definition swap_header (acl : acl_accessList) : acl_accessList :=
  mkAcl (swap32 (a_size acl)) (swap32 (a_version acl)) (swap32 (a_total acl))
    (swap32 (a_positive acl)) (swap32 (a_negative acl)) (a_entries acl).

Definition acl_HtonACL (acl : acl_accessList) : Z * acl_accessList :=
  let code := CheckAccessList acl in
  if negb (code =? 0) then (code, acl)
  else (0, swap_header (mkAcl (a_size acl) (a_version acl) (a_total acl) (a_positive acl)
                          (a_negative acl) (swap_entries acl))).

Definition acl_NtohACL (acl : acl_accessList) : Z * acl_accessList :=
  let acl := swap_header acl in
  let code := CheckAccessList acl in
  if negb (code =? 0) then (code, acl)
  else (0, mkAcl (a_size acl) (a_version acl) (a_total acl) (a_positive acl)
             (a_negative acl) (swap_entries acl)).

End Net.

(** ** Text: what the code uses of [sprintf] and [sscanf] *)

Definition NL := 10.
Definition TAB := 9.
Definition isspace (c : Z) : bool := ((9 <=? c) && (c <=? 13)) || (c =? 32).
Definition isdigit (c : Z) : bool := (48 <=? c) && (c <=? 57).

(** Decimal digits of a non-negative number, [fuel] of them at most. *)
Fixpoint digits (fuel : nat) (n : Z) (acc : list Z) : list Z :=
  match fuel with
  | O => acc
  | S fuel =>
      let acc := (48 + n mod 10) :: acc in
      if n <? 10 then acc else digits fuel (n / 10) acc
  end.

(** ["%d"] *)
Definition print_int (z : Z) : list Z :=
  if z <? 0 then 45 :: digits 10 (- z) [] else digits 10 z [].

Fixpoint skip_spaces (l : list Z) : list Z :=
  match l with
  | [] => []
  | c :: rest => if isspace c then skip_spaces rest else l
  end.

Fixpoint scan_digits (l : list Z) (acc : Z) : Z * list Z :=
  match l with
  | [] => (acc, [])
  | c :: rest => if isdigit c then scan_digits rest (acc * 10 + (c - 48)) else (acc, l)
  end.

(** ["%d"]: leading white space, a sign, digits; the value is that of [strtol],
    which is clamped to a long, stored in an int. *)
Definition clamp_long (z : Z) : Z := Z.max (- 2 ^ 63) (Z.min z (2 ^ 63 - 1)).

Definition scan_unsigned (l : list Z) : option (Z * list Z) :=
  match l with
  | c :: _ => if isdigit c then Some (scan_digits l 0) else None
  | [] => None
  end.

Definition scan_int (l : list Z) : option (Z * list Z) :=
  match skip_spaces l with
  | c :: rest =>
      if c =? 45 then
        match scan_unsigned rest with
        | Some (v, r) => Some (s32 (clamp_long (- v)), r)
        | None => None
        end
      else
        match scan_unsigned (if c =? 43 then rest else c :: rest) with
        | Some (v, r) => Some (s32 (clamp_long v), r)
        | None => None
        end
  | [] => None
  end.

(** ["%63s"]: leading white space, then at most [w] characters that are not white
    space, at least one. *)
Fixpoint take_word (w : nat) (l : list Z) : list Z * list Z :=
  match w, l with
  | S w, c :: rest =>
      if isspace c then ([], l)
      else let (s, r) := take_word w rest in (c :: s, r)
  | _, _ => ([], l)
  end.

Definition scan_word (w : nat) (l : list Z) : option (list Z * list Z) :=
  let (s, r) := take_word w (skip_spaces l) in
  match s with [] => None | _ => Some (s, r) end.

(** [sscanf(elist, "%d\n%d\n", &p, &n) == 2] *)
Definition scan_counts (l : list Z) : option (Z * Z) :=
  match scan_int l with
  | Some (p, r) =>
      match scan_int r with
      | Some (n, _) => Some (p, n)
      | None => None
      end
  | None => None
  end.

(** [sscanf(nextc, "%63s\t%d\n", name, &k) == 2] *)
Definition scan_entry (l : list Z) : option (list Z * Z) :=
  match scan_word 63 l with
  | Some (s, r) =>
      match scan_int r with
      | Some (k, _) => Some (s, k)
      | None => None
      end
  | None => None
  end.

(** ** External form *)

Section Text.
Context `{QSort}.
Context (id_to_name : list Z -> Z * list (list Z)) (name_to_id : list (list Z) -> Z * list Z).

Definition print_entry (name : list Z) (e : acl_accessEntry) : list Z :=
  name ++ [TAB] ++ print_int (e_rights e) ++ [NL].

(** [acl_Externalize_pr]: [inl] is the error code. *)
Definition acl_Externalize_pr (acl : acl_accessList) : Z + list Z :=
  if ACL_MAXENTRIES <? a_total acl then inl (-1)
  else
    let es := positive_entries acl ++ negative_entries acl in
    let lids := map e_id es ++ repeat 0 (Z.to_nat (a_total acl) - length es) in
    let (code, names) := id_to_name lids in
    if negb (code =? 0) then inl code
    else inr (print_int (a_positive acl) ++ [NL] ++ print_int (a_negative acl) ++ [NL]
              ++ concat (zip_with print_entry names es)).

(** [while ( *nextc && *nextc != '\n') nextc++; nextc++;]: [None] is one past the
    end of the string. *)
Fixpoint skip_line (l : list Z) : option (list Z) :=
  match l with
  | [] => None
  | c :: rest => if c =? NL then Some rest else skip_line rest
  end.

Inductive internalized :=
| Acl (acl : acl_accessList)
| Bad                      (* -1 *)
| Overrun.                 (* the string is read outside its bounds *)

Inductive scanned :=
| Scanned (es : list (list Z * Z))
| ScanBad
| ScanOverrun.

(** The loops that read the entries.  [strchr] without a newline gives a null
    pointer, which is incremented and read by the next iteration. *)
Fixpoint scan_entries (n : nat) (nextc : option (list Z)) : scanned :=
  match n with
  | O => Scanned []
  | S n =>
      match nextc with
      | None => ScanOverrun
      | Some l =>
          match scan_entry l with
          | None => ScanBad
          | Some e =>
              match scan_entries n (skip_line l) with
              | Scanned es => Scanned (e :: es)
              | r => r
              end
          end
      end
  end.

Definition acl_Internalize_pr (elist : list Z) (garbage : list acl_accessEntry) : internalized :=
  match scan_counts elist with
  | None => Bad
  | Some (p, n) =>
      if (p <? 0) || (n <? 0) || (2 ^ 31 - 1 - n <? p) || (ACL_MAXENTRIES <? p + n) then Bad
      else
        let acl0 := acl_NewACL (p + n) garbage in
        let acl := mkAcl (a_size acl0) (a_version acl0) (p + n) p n (a_entries acl0) in
        if p + n =? 0 then Acl acl
        else
          match (match skip_line elist with Some l => skip_line l | None => None end) with
          | None => Overrun
          | Some l =>
              match scan_entries (Z.to_nat p + Z.to_nat n) (Some l) with
              | ScanOverrun => Overrun
              | ScanBad => Bad
              | Scanned es =>
                  let (code, ids) := name_to_id (map fst es) in
                  if negb (code =? 0) then Bad
                  else if existsb (fun i => i =? ANONYMOUSID) ids then Bad
                  else
                    let entries := zip_with (fun i e => mkAce i (snd e)) ids es in
                    Acl (mkAcl (a_size acl) (a_version acl) (p + n) p n
                           (qsort CmpPlus (take (Z.to_nat p) entries)
                            ++ qsort CmpMinus (drop (Z.to_nat p) entries)))
              end
          end
  end.

End Text.

(** ** What the rights are *)

(** The union of the rights of the entries for members of [groups]. *)
Definition granted (es : list acl_accessEntry) (groups : list Z) : Z :=
  fold_right (fun e acc => if acl_IsAMember (e_id e) groups then Z.lor (e_rights e) acc else acc)
    0 es.

Definition ids_up (es : list acl_accessEntry) : Prop :=
  StronglySorted (fun a b => e_id a <= e_id b) es.

Lemma IsAMember_In a l : acl_IsAMember a l = true <-> In a l.
Proof.
  induction l as [|x l IH]; [done|]. cbn [acl_IsAMember In]. destruct (x =? a) eqn:E.
  - split; [|done]. intros _. left. lia.
  - rewrite IH. split; [by right|]. intros [->|Hin]; [lia|done].
Qed.

Lemma not_member_below a l : Forall (fun x => a < x) l -> acl_IsAMember a l = false.
Proof.
  intros Hl. destruct (acl_IsAMember a l) eqn:E; [|done]. apply IsAMember_In in E.
  rewrite List.Forall_forall in Hl. specialize (Hl a E). lia.
Qed.

Lemma granted_drop es g l :
  Forall (fun e => g < e_id e) es -> granted es (g :: l) = granted es l.
Proof.
  induction 1 as [|e es He _ IH]; [done|]. cbn [granted fold_right].
  fold (granted es (g :: l)) (granted es l). rewrite IH. cbn [acl_IsAMember]. destruct (g =? e_id e) eqn:E; [lia|done].
Qed.

Lemma accumulate_ok fuel a c r :
  (length a + length c <= fuel)%nat -> ids_up a -> StronglySorted Z.le c ->
  accumulate fuel a c r = Some (Z.lor r (granted a c)).
Proof.
  revert a c r. induction fuel as [|fuel IH]; intros a c r Hf Ha Hc.
  { destruct a, c; try (cbn in Hf; lia). cbn. by rewrite Z.lor_0_r. }
  destruct a as [|e a]; [cbn; by rewrite Z.lor_0_r|].
  destruct c as [|g c].
  { cbn [accumulate]. f_equal. clear. induction (e :: a) as [|x l IH]; [by rewrite Z.lor_0_r|done]. }
  cbn [accumulate]. unfold CmpInt.
  pose proof (StronglySorted_inv Ha) as [Ha' Hae]. pose proof (StronglySorted_inv Hc) as [Hc' Hcg].
  destruct (e_id e <? g) eqn:E1; cbn [Z.eqb Pos.eqb].
  - rewrite IH by (done || cbn in *; lia). do 2 f_equal. cbn [granted fold_right].
    rewrite not_member_below; [done|]. constructor; [lia|].
    eapply List.Forall_impl; [|exact Hcg]. cbn. lia.
  - destruct (e_id e =? g) eqn:E2; cbn [Z.eqb Pos.eqb].
    + rewrite IH by (done || cbn in *; lia). rewrite <- Z.lor_assoc. do 2 f_equal.
      cbn [granted fold_right acl_IsAMember]. by replace (g =? e_id e) with true by lia.
    + rewrite IH by (done || cbn in *; lia). do 2 f_equal. symmetry. apply granted_drop.
      constructor; [lia|]. eapply List.Forall_impl; [|exact Hae]. cbn. lia.
Qed.

(** A list as it is stored: positive entries ascending, negative ones descending
    (that is, ascending from the end). *)
Record acl_sorted (acl : acl_accessList) : Prop := {
  as_pos : ids_up (positive_entries acl);
  as_neg : ids_up (negative_entries acl)
}.

(** [C24] The rights a caller gets are the union of the positive rights of all its
    groups less the union of the negative ones: the two merging loops, which look at
    every entry and every group once, compute them for sorted lists.  An empty list
    or an empty CPS gives nothing, a CPS that ends in the administrators' group
    everything. *)
Theorem acl_check_rights (acl : acl_accessList) (groups : list Z) :
  0 <= a_total acl <= ACL_MAXENTRIES -> a_size acl <= 192 -> acl_sorted acl ->
  StronglySorted Z.le groups ->
  acl_CheckRights acl groups
  = (0, Some (if (a_total acl <=? 0) || (Z.of_nat (length groups) <=? 0) then 0
              else if List.last groups 0 =? SYSADMINID then -1
              else Z.land (granted (positive_entries acl) groups)
                     (Z.lnot (granted (negative_entries acl) groups)))).
Proof.
  intros Ht Hs [Hp Hn] Hg. unfold acl_CheckRights.
  destruct (ACL_MAXENTRIES <? a_total acl) eqn:E1; [lia|].
  destruct (a_total acl <? 0) eqn:E2; [lia|].
  destruct (192 <? a_size acl) eqn:E3; [lia|].
  destruct (_ || _); [done|]. destruct (_ =? SYSADMINID); [done|].
  rewrite !accumulate_ok by (done || lia). by rewrite !Z.lor_0_l.
Qed.

(** ** Byte order *)

Section NetProofs.
Context `{ByteOrder}.

Lemma swap32_invol z : is_s32 z -> swap32 (swap32 z) = z.
Proof.
  intros Hz. unfold swap32. rewrite u32_s32, (u32_small (ntohl _)) by apply ntohl_u32.
  rewrite ntohl_invol by apply u32_range. rewrite s32_u32. by apply s32_small.
Qed.

Lemma swap_entry_invol e :
  is_s32 (e_id e) -> is_s32 (e_rights e) -> swap_entry (swap_entry e) = e.
Proof. intros H1 H2. unfold swap_entry. cbn. rewrite !swap32_invol by done. by destruct e. Qed.

Lemma imap_invol {A} (c : nat -> bool) (f : A -> A) l :
  Forall (fun x => f (f x) = x) l ->
  imap (fun i x => if c i then f x else x) (imap (fun i x => if c i then f x else x) l) = l.
Proof.
  intros Hl. apply list_eq. intros i. rewrite !list_lookup_imap.
  destruct (l !! i) as [x|] eqn:E; [|done]. cbn.
  pose proof (Forall_lookup_1 _ _ _ _ Hl E) as Hx. cbn in Hx. by destruct (c i); rewrite ?Hx.
Qed.

End NetProofs.

Definition entry_s32 (e : acl_accessEntry) : Prop := is_s32 (e_id e) /\ is_s32 (e_rights e).

(** ** Numbers and words *)

Lemma digits_acc fuel n acc : digits fuel n acc = digits fuel n [] ++ acc.
Proof.
  revert n acc. induction fuel as [|fuel IH]; intros n acc; [done|]. cbn [digits].
  destruct (n <? 10); [done|]. rewrite IH, (IH (n / 10) [_]). by rewrite <- app_assoc.
Qed.

Lemma digits_isdigit fuel n : Forall (fun c => isdigit c = true) (digits fuel n []).
Proof.
  revert n. induction fuel as [|fuel IH]; intros n; [constructor|]. cbn [digits].
  assert (Hd : isdigit (48 + n mod 10) = true) by (unfold isdigit; mlia).
  destruct (n <? 10); [by repeat constructor|]. rewrite digits_acc. apply Forall_app.
  split; [apply IH|by repeat constructor].
Qed.

Definition dec (l : list Z) (a : Z) : Z := fold_left (fun a c => a * 10 + (c - 48)) l a.

Lemma digits_dec fuel n :
  0 <= n < 10 ^ Z.of_nat fuel -> dec (digits fuel n []) 0 = n.
Proof.
  revert n. induction fuel as [|fuel IH]; intros n Hn; [cbn in *; lia|]. cbn [digits].
  destruct (n <? 10) eqn:E; [cbn; mlia|]. rewrite digits_acc. unfold dec in *.
  rewrite fold_left_app, IH; [cbn; mlia|].
  rewrite Nat2Z.inj_succ, Z.pow_succ_r in Hn by lia. mlia.
Qed.

Definition stops (rest : list Z) : Prop :=
  match rest with [] => True | c :: _ => isdigit c = false end.

Lemma scan_digits_ok l rest a :
  Forall (fun c => isdigit c = true) l -> stops rest ->
  scan_digits (l ++ rest) a = (dec l a, rest).
Proof.
  intros Hl Hr. revert a. induction Hl as [|c l Hc Hl IH]; intros a.
  - cbn. destruct rest as [|c rest]; [done|]. cbn in *. by rewrite Hr.
  - cbn. by rewrite Hc, IH.
Qed.

Lemma digits_cons fuel n : exists c l, digits (S fuel) n [] = c :: l /\ isdigit c = true.
Proof.
  pose proof (digits_isdigit (S fuel) n) as Hd.
  destruct (digits (S fuel) n []) as [|c l] eqn:E.
  - cbn [digits] in E. destruct (n <? 10); [done|]. rewrite digits_acc in E.
    by destruct (digits fuel (n / 10) []).
  - exists c, l. split; [done|]. by inversion Hd.
Qed.

Lemma scan_unsigned_ok n rest :
  0 <= n < 10 ^ 10 -> stops rest -> scan_unsigned (digits 10 n [] ++ rest) = Some (n, rest).
Proof.
  intros Hn Hr. destruct (digits_cons 9 n) as (c & l & E & Hc).
  pose proof (digits_isdigit 10 n) as Hd. pose proof (digits_dec 10 n Hn) as Hv.
  rewrite E in *. unfold scan_unsigned. cbn [app]. rewrite Hc.
  change (c :: l ++ rest) with ((c :: l) ++ rest). by rewrite scan_digits_ok, Hv.
Qed.

Lemma isdigit_not_space c : isdigit c = true -> isspace c = false.
Proof. unfold isdigit, isspace. lia. Qed.

Lemma scan_int_ok z rest :
  is_s32 z -> stops rest -> scan_int (print_int z ++ rest) = Some (z, rest).
Proof.
  intros Hz Hr. unfold scan_int, print_int.
  assert (Hc : forall v, is_s32 v -> s32 (clamp_long v) = v).
  { intros v Hv. unfold clamp_long. change (2 ^ 63) with 9223372036854775808. mlia. }
  destruct (z <? 0) eqn:E.
  - cbn [app skip_spaces]. change (isspace 45) with false. cbn iota.
    rewrite Z.eqb_refl, scan_unsigned_ok by (done || (change (10 ^ 10) with 10000000000; mlia)).
    by rewrite Z.opp_involutive, Hc.
  - destruct (digits_cons 9 z) as (c & l & Ed & Hd).
    pose proof (scan_unsigned_ok z rest) as Hs. rewrite Ed in *.
    cbn [app skip_spaces]. rewrite (isdigit_not_space c Hd).
    assert ((c =? 45) = false /\ (c =? 43) = false) as [-> ->] by (unfold isdigit in Hd; lia).
    change (c :: l ++ rest) with ((c :: l) ++ rest).
    rewrite Hs by (done || (change (10 ^ 10) with 10000000000; mlia)). by rewrite Hc.
Qed.

(** A name [sscanf] reads back: short, not empty, without white space. *)
Definition word_ok (w : list Z) : Prop :=
  w <> [] /\ (length w <= 63)%nat /\ Forall (fun c => isspace c = false) w.

Lemma take_word_ok n w rest :
  (length w <= n)%nat -> Forall (fun c => isspace c = false) w ->
  match rest with [] => True | c :: _ => isspace c = true end ->
  take_word n (w ++ rest) = (w, rest).
Proof.
  intros Hn Hw Hr. revert n Hn. induction Hw as [|c w Hc Hw IH]; intros n Hn.
  - cbn. destruct n, rest as [|c rest]; try done. cbn in *. by rewrite Hr.
  - destruct n as [|n]; [cbn in Hn; lia|]. cbn. rewrite Hc, IH by (cbn in Hn; lia). done.
Qed.

Lemma scan_entry_ok w e rest :
  word_ok w -> is_s32 (e_rights e) ->
  scan_entry (print_entry w e ++ rest) = Some (w, e_rights e).
Proof.
  intros (Hne & Hl & Hw) Hr. unfold scan_entry, scan_word, print_entry.
  rewrite <- !app_assoc. cbn [app].
  assert (Es : skip_spaces (w ++ TAB :: print_int (e_rights e) ++ NL :: rest)
               = w ++ TAB :: print_int (e_rights e) ++ NL :: rest).
  { destruct Hw as [|c w Hc Hw]; [done|]. cbn. by rewrite Hc. }
  rewrite Es, take_word_ok by done. destruct w as [|c w]; [done|].
  assert (Ei : scan_int (TAB :: print_int (e_rights e) ++ NL :: rest)
               = scan_int (print_int (e_rights e) ++ NL :: rest)) by reflexivity.
  by rewrite Ei, scan_int_ok.
Qed.

Definition no_nl (l : list Z) : Prop := Forall (fun c => (c =? NL) = false) l.

Lemma skip_line_ok l rest : no_nl l -> skip_line (l ++ NL :: rest) = Some rest.
Proof. induction 1 as [|c l Hc _ IH]; [done|]. cbn [app skip_line]. by rewrite Hc. Qed.

Lemma print_int_no_nl z : no_nl (print_int z).
Proof.
  unfold print_int, no_nl. pose proof (digits_isdigit 10 (- z)) as H1.
  pose proof (digits_isdigit 10 z) as H2. destruct (z <? 0); [constructor; [done|]|].
  - eapply List.Forall_impl; [|exact H1]. intros c. unfold isdigit, NL. lia.
  - eapply List.Forall_impl; [|exact H2]. intros c. unfold isdigit, NL. lia.
Qed.

Lemma skip_entry w e rest : word_ok w -> skip_line (print_entry w e ++ rest) = Some rest.
Proof.
  intros (_ & _ & Hw). unfold print_entry. rewrite <- !app_assoc. cbn [app].
  change (TAB :: print_int (e_rights e) ++ NL :: rest)
    with ([TAB] ++ print_int (e_rights e) ++ [NL] ++ rest).
  rewrite !app_assoc, <- (app_assoc _ [NL]). apply skip_line_ok. unfold no_nl.
  rewrite !Forall_app. split; [split|apply print_int_no_nl].
  - eapply List.Forall_impl; [|exact Hw]. intros c. unfold isspace, NL. lia.
  - by repeat constructor.
Qed.

Record acl_valid (acl : acl_accessList) : Prop := {
  av_counts : 0 <= a_positive acl /\ 0 <= a_negative acl
              /\ a_positive acl + a_negative acl = a_total acl;
  av_total : a_total acl <= ACL_MAXENTRIES;
  av_entries : Z.of_nat (length (a_entries acl)) = a_total acl;
  av_s32 : Forall entry_s32 (a_entries acl)
}.

Lemma valid_pos acl :
  acl_valid acl -> length (positive_entries acl) = Z.to_nat (a_positive acl).
Proof. intros [H1 H2 H3 _]. unfold positive_entries. rewrite length_take. lia. Qed.

Lemma valid_neg acl :
  acl_valid acl -> negative_entries acl = rev (drop (Z.to_nat (a_positive acl)) (a_entries acl)).
Proof.
  intros [H1 H2 H3 _]. unfold negative_entries. rewrite (take_ge (a_entries acl)) by lia.
  by replace (a_total acl - a_negative acl) with (a_positive acl) by lia.
Qed.

Lemma valid_neg_length acl :
  acl_valid acl -> length (negative_entries acl) = Z.to_nat (a_negative acl).
Proof.
  intros Hv. rewrite valid_neg by done. destruct Hv as [H1 H2 H3 _].
  rewrite length_rev, length_drop. lia.
Qed.

Lemma valid_all_s32 acl :
  acl_valid acl -> Forall entry_s32 (positive_entries acl ++ negative_entries acl).
Proof.
  intros Hv. rewrite valid_neg by done. destruct Hv as [_ _ _ Hs]. apply Forall_app. split.
  - by apply Forall_take.
  - apply List.Forall_rev. by apply Forall_drop.
Qed.

(** Reading back the lines that were printed. *)
Lemma scan_entries_ok names es rest :
  length names = length es -> Forall word_ok names -> Forall entry_s32 es ->
  scan_entries (length es) (Some (concat (zip_with print_entry names es) ++ rest))
  = Scanned (zip_with (fun w e => (w, e_rights e)) names es).
Proof.
  revert names. induction es as [|e es IH]; intros [|w names] Hl Hw Hs; try discriminate; [done|].
  apply Forall_cons in Hw as [Hw Hws]. apply Forall_cons in Hs as [He Hes].
  cbn [length scan_entries zip_with concat]. rewrite <- app_assoc.
  rewrite scan_entry_ok by (done || apply He). rewrite skip_entry by done.
  rewrite IH by (done || (cbn in Hl; lia)). done.
Qed.

Lemma zip_fst {A} (names : list A) (es : list acl_accessEntry) :
  length names = length es -> map fst (zip_with (fun w e => (w, e_rights e)) names es) = names.
Proof.
  revert es. induction names as [|w names IH]; intros [|e es] Hl; try discriminate; [done|].
  cbn. by rewrite IH by (cbn in Hl; lia).
Qed.

Lemma zip_ids (names : list (list Z)) (es : list acl_accessEntry) :
  length names = length es ->
  zip_with (fun i (e : list Z * Z) => mkAce i (snd e)) (map e_id es)
    (zip_with (fun w e => (w, e_rights e)) names es) = es.
Proof.
  revert es. induction names as [|w names IH]; intros [|e es] Hl; try discriminate; [done|].
  cbn. rewrite IH by (cbn in Hl; lia). by destruct e.
Qed.

Definition cmp_le (cmp : acl_accessEntry -> acl_accessEntry -> Z) (a b : acl_accessEntry) : Prop :=
  cmp a b <= 0.

(** Sorting a permutation of a sorted list without equal ids gives the list. *)
Lemma qsort_unique `{QSort} cmp l l' :
  (forall a b, cmp a b <= 0 \/ cmp b a <= 0) ->
  (forall a b c, cmp a b <= 0 -> cmp b c <= 0 -> cmp a c <= 0) ->
  (forall a b, cmp a b <= 0 -> cmp b a <= 0 -> e_id a = e_id b) ->
  l' ≡ₚ l -> StronglySorted (cmp_le cmp) l -> List.NoDup (map e_id l) -> qsort cmp l' = l.
Proof.
  intros Htot Htr Hanti Hp Hs Hnd.
  apply (StronglySorted_unique_strong (cmp_le cmp)).
  - intros a b Ha Hb H1 H2. rewrite (qsort_perm cmp l'), Hp in Ha.
    specialize (Hanti a b H1 H2). apply list_elem_of_In, In_nth with (d := a) in Ha as (i & Hi & Ei).
    apply list_elem_of_In, In_nth with (d := a) in Hb as (j & Hj & Ej).
    assert (i = j); [|congruence].
    rewrite NoDup_nth with (d := e_id a) in Hnd.
    apply Hnd; rewrite ?length_map; try done. rewrite !map_nth. congruence.
  - by apply qsort_sorted.
  - done.
  - by rewrite qsort_perm.
Qed.

Ltac cmp_cases :=
  unfold cmp_le, CmpPlus, CmpMinus in *;
  repeat match goal with
  | H : context [if ?b then _ else _] |- _ => destruct b eqn:?
  | |- context [if ?b then _ else _] => destruct b eqn:?
  end; lia.

Lemma sorted_rev l :
  ids_up l -> StronglySorted (cmp_le CmpMinus) (rev l).
Proof.
  induction 1 as [|e l Hs IH He]; [constructor|]. cbn [rev].
  apply StronglySorted_app_2; [|done|repeat constructor].
  intros a b Ha%list_elem_of_In%in_rev Hb. apply list_elem_of_singleton in Hb as ->.
  rewrite List.Forall_forall in He. specialize (He a Ha). cmp_cases.
Qed.

Lemma sorted_plus l : ids_up l -> StronglySorted (cmp_le CmpPlus) l.
Proof.
  induction 1 as [|e l Hs IH He]; constructor; [done|].
  eapply List.Forall_impl; [|exact He]. intros a Ha. cmp_cases.
Qed.

Lemma qsort_pos `{QSort} l : ids_up l -> List.NoDup (map e_id l) -> qsort CmpPlus l = l.
Proof.
  intros Hs Hn. apply qsort_unique; try done; [intros; cmp_cases..|by apply sorted_plus].
Qed.

Lemma qsort_neg `{QSort} l :
  ids_up l -> List.NoDup (map e_id l) -> qsort CmpMinus l = rev l.
Proof.
  intros Hs Hn. apply qsort_unique; [intros; cmp_cases..| | |].
  - apply Permutation_rev.
  - by apply sorted_rev.
  - rewrite map_rev. by apply NoDup_rev.
Qed.

(** ** The properties *)

(** [C25] What is printed is read back: for a list as it is stored, with distinct ids
    and names that are words, translating it to its external form and back gives the
    same list, whatever sorting algorithm the library uses. *)
Theorem acl_text_roundtrip `{QSort} (id_to_name : list Z -> Z * list (list Z))
    (name_to_id : list (list Z) -> Z * list Z) (acl : acl_accessList)
    (names : list (list Z)) (garbage : list acl_accessEntry) :
  acl_valid acl -> acl_sorted acl -> 0 < a_total acl ->
  List.NoDup (map e_id (positive_entries acl)) -> List.NoDup (map e_id (negative_entries acl)) ->
  let ids := map e_id (positive_entries acl ++ negative_entries acl) in
  length names = length ids -> Forall word_ok names -> ~ In ANONYMOUSID ids ->
  id_to_name ids = (0, names) -> name_to_id names = (0, ids) ->
  exists text,
    acl_Externalize_pr id_to_name acl = inr text
    /\ acl_Internalize_pr name_to_id text garbage
       = Acl (mkAcl (28 + (a_total acl - 1) * 8) ACL_ACLVERSION (a_total acl) (a_positive acl)
                (a_negative acl) (a_entries acl)).
Proof.
  intros Hv Hs Ht Hnp Hnn ids Hlen Hw Han Hto Hfrom.
  pose proof (valid_pos acl Hv) as Lp. pose proof (valid_neg_length acl Hv) as Ln.
  pose proof (valid_all_s32 acl Hv) as Hall. pose proof (valid_neg acl Hv) as En.
  pose proof Hv as [(H1 & H2 & H3) H4 H5 _]. unfold ACL_MAXENTRIES in H4.
  set (es := positive_entries acl ++ negative_entries acl) in *.
  assert (Les : length es = Z.to_nat (a_total acl)) by (unfold es; rewrite length_app; lia).
  assert (Lw : length names = length es) by (unfold ids in Hlen; by rewrite length_map in Hlen).
  eexists. split.
  { unfold acl_Externalize_pr. fold es. unfold ACL_MAXENTRIES.
    destruct (20 <? a_total acl) eqn:E; [lia|].
    rewrite Les, Nat.sub_diag. cbn [repeat]. rewrite app_nil_r. fold ids. rewrite Hto. reflexivity. }
  set (body := concat (zip_with print_entry names es)). unfold acl_Internalize_pr.
  assert (Ec : scan_counts (print_int (a_positive acl) ++ [NL] ++ print_int (a_negative acl)
                            ++ [NL] ++ body) = Some (a_positive acl, a_negative acl)).
  { unfold scan_counts. rewrite scan_int_ok by (done || mlia). cbn [app].
    change (scan_int (NL :: print_int (a_negative acl) ++ NL :: body))
      with (scan_int (print_int (a_negative acl) ++ NL :: body)).
    by rewrite scan_int_ok by (done || mlia). }
  rewrite Ec. unfold ACL_MAXENTRIES. change (2 ^ 31) with 2147483648.
  destruct (_ || _) eqn:E; [lia|].
  rewrite H3. destruct (a_total acl =? 0) eqn:E0; [lia|].
  cbn [app]. rewrite skip_line_ok by apply print_int_no_nl.
  rewrite skip_line_ok by apply print_int_no_nl.
  replace (Z.to_nat (a_positive acl) + Z.to_nat (a_negative acl))%nat with (length es) by lia.
  unfold body. rewrite <- (app_nil_r (concat _)). rewrite scan_entries_ok by done.
  rewrite zip_fst, Hfrom by done. cbn [Z.eqb negb].
  destruct (existsb _ ids) eqn:Ea.
  { apply existsb_exists in Ea as (i & Hi & Ei). destruct Han. by replace ANONYMOUSID with i by lia. }
  unfold ids. rewrite zip_ids by done. unfold es.
  rewrite take_app_length', drop_app_length' by done.
  rewrite qsort_pos, qsort_neg by (done || apply Hs).
  do 2 f_equal; [apply s32_small; unfold sizeof_accessList, sizeof_accessEntry; mlia|].
  rewrite En, rev_involutive. apply take_drop.
Qed.

Lemma digits_length fuel n acc : (length (digits fuel n acc) <= fuel + length acc)%nat.
Proof.
  revert n acc. induction fuel as [|fuel IH]; intros n acc; [cbn; lia|]. cbn [digits].
  destruct (n <? 10); [cbn; lia|]. specialize (IH (n / 10) ((48 + n mod 10) :: acc)).
  cbn [length] in *. lia.
Qed.

Lemma print_int_length z : (length (print_int z) <= 11)%nat.
Proof.
  unfold print_int. pose proof (digits_length 10 (- z) []). pose proof (digits_length 10 z []).
  destruct (z <? 0); cbn [length] in *; lia.
Qed.

Lemma print_int_two z : 0 <= z <= 20 -> (length (print_int z) <= 2)%nat.
Proof.
  intros Hz. unfold print_int. destruct (z <? 0) eqn:E; [lia|].
  change (digits 10 z []) with (if z <? 10 then [48 + z mod 10] else digits 9 (z / 10) [48 + z mod 10]).
  destruct (z <? 10) eqn:E1; [cbn; lia|].
  change (digits 9 (z / 10) [48 + z mod 10])
    with (if z / 10 <? 10 then [48 + (z / 10) mod 10; 48 + z mod 10]
          else digits 8 (z / 10 / 10) [48 + (z / 10) mod 10; 48 + z mod 10]).
  destruct (z / 10 <? 10) eqn:E2; [cbn; lia|]. mlia.
Qed.

Lemma lines_length names es :
  Forall (fun w => (length w < 64)%nat) names ->
  (length (concat (zip_with print_entry names es)) <= 76 * length es)%nat.
Proof.
  intros Hw. revert es. induction Hw as [|w names Hw Hws IH]; intros es; [cbn; lia|].
  destruct es as [|e es]; [cbn; lia|]. cbn [zip_with concat length]. rewrite length_app.
  specialize (IH es). pose proof (print_int_length (e_rights e)).
  assert (Hl : (length (print_entry w e) <= 76)%nat).
  { unfold print_entry. rewrite !length_app. cbn [length]. lia. }
  lia.
Qed.

(** [C26] The external form fits the buffer [acl_NewExternalACL] provides for it, the
    terminating NUL included. *)
Theorem acl_external_fits (id_to_name : list Z -> Z * list (list Z)) (acl : acl_accessList)
    (text : list Z) :
  acl_valid acl ->
  (forall ids, Forall (fun w => (length w < 64)%nat) (snd (id_to_name ids))) ->
  acl_Externalize_pr id_to_name acl = inr text ->
  Z.of_nat (length text) + 1 <= external_size (a_total acl).
Proof.
  intros Hv Hw E. pose proof (valid_pos acl Hv) as Lp. pose proof (valid_neg_length acl Hv) as Ln.
  pose proof Hv as [(H1 & H2 & H3) H4 H5 _]. unfold acl_Externalize_pr, ACL_MAXENTRIES in *.
  destruct (20 <? a_total acl) eqn:E1; [lia|].
  set (es := positive_entries acl ++ negative_entries acl) in *.
  assert (Les : length es = Z.to_nat (a_total acl)) by (unfold es; rewrite length_app; lia).
  specialize (Hw (map e_id es ++ repeat 0 (Z.to_nat (a_total acl) - length es))).
  destruct (id_to_name _) as [code names]. cbn in Hw.
  destruct (negb (code =? 0)); [discriminate|]. injection E as <-.
  rewrite !length_app. cbn [length app]. rewrite !length_app. cbn [length].
  pose proof (print_int_two (a_positive acl) ltac:(lia)).
  pose proof (print_int_two (a_negative acl) ltac:(lia)).
  pose proof (lines_length names es Hw). unfold external_size, PR_MAXNAMELEN. lia.
Qed.

(** A list survives the trip through network byte order on every host. *)
Theorem acl_network_roundtrip `{ByteOrder} (acl : acl_accessList) :
  acl_valid acl -> is_s32 (a_size acl) -> is_s32 (a_version acl) ->
  20 + 8 * a_total acl <= a_size acl ->
  fst (acl_HtonACL acl) = 0 /\ acl_NtohACL (snd (acl_HtonACL acl)) = (0, acl).
Proof.
  intros Hv Hs Hver Hsz. pose proof Hv as [(H1 & H2 & H3) H4 H5 H6]. unfold ACL_MAXENTRIES in *.
  assert (Hc : forall l, CheckAccessList (mkAcl (a_size acl) (a_version acl) (a_total acl)
                           (a_positive acl) (a_negative acl) l) = 0).
  { intros l. unfold CheckAccessList, ACL_MAXENTRIES, sizeof_accessList, sizeof_accessEntry. cbn.
    rewrite s32_small, H3 by mlia. change (2 ^ 64) with 18446744073709551616.
    rewrite !Z.mod_small by mlia. rewrite Z.eqb_refl.
    destruct (a_total acl <? 0) eqn:?; [lia|]. destruct (20 <? a_total acl) eqn:?; [lia|].
    destruct (a_positive acl <? 0) eqn:?; [lia|]. destruct (a_negative acl <? 0) eqn:?; [lia|].
    cbn [orb negb]. destruct (a_size acl <? _) eqn:?; [lia|done]. }
  assert (Hsw : forall h, swap_header (swap_header (mkAcl (a_size acl) (a_version acl) (a_total acl)
                  (a_positive acl) (a_negative acl) h))
                = mkAcl (a_size acl) (a_version acl) (a_total acl) (a_positive acl) (a_negative acl) h).
  { intros h. unfold swap_header. cbn. rewrite !swap32_invol by (done || mlia). done. }
  unfold acl_HtonACL.
  assert (E0 : CheckAccessList acl = 0) by (destruct acl; apply Hc).
  rewrite E0. cbn [Z.eqb negb fst snd]. split; [done|].
  unfold acl_NtohACL. rewrite Hsw, Hc. cbn [Z.eqb negb a_size a_version a_total a_positive a_negative].
  f_equal. unfold swap_entries. cbn [a_entries a_total a_positive a_negative].
  rewrite (imap_invol (fun i => _)); [by destruct acl|].
  eapply List.Forall_impl; [|exact H6]. intros e [Hi Hr]. by apply swap_entry_invol.
Qed.

(** The external form is not checked to end where it is read: with two lines
    announced and one given, the second line is read from an invalid pointer,
    whatever the names mean; with no newline after the counts, the lines are read
    behind the end of the string. *)
Theorem acl_internalize_overruns `{QSort} (name_to_id : list (list Z) -> Z * list Z)
    (garbage : list acl_accessEntry) :
  (* "2\n0\na 1" *)
  acl_Internalize_pr name_to_id [50; 10; 48; 10; 97; 32; 49] garbage = Overrun
  (* "1 0" *)
  /\ acl_Internalize_pr name_to_id [49; 32; 48] garbage = Overrun.
Proof. split; reflexivity. Qed.

(** ** Witnesses *)

Program Definition merge_qsort : QSort := {|
  qsort cmp l := merge_sort (cmp_le cmp) (H := fun a b => Z_le_dec (cmp a b) 0) l
|}.
Next Obligation. intros cmp l. apply merge_sort_Permutation. Qed.
Next Obligation.
  intros cmp l Htot Htr.
  assert (Transitive (cmp_le cmp)) by (intros a b c; apply Htr).
  assert (Total (cmp_le cmp)) by (intros a b; apply Htot).
  apply (StronglySorted_merge_sort (cmp_le cmp)).
Qed.

(** Group -205 may read and look up, user 7 everything; user 9 may not look up. *)
Definition acl1 : acl_accessList :=
  mkAcl 44 1 3 2 1 [mkAce (-205) 9; mkAce 7 127; mkAce 9 8].

Lemma acl1_valid : acl_valid acl1.
Proof. split; try done. by repeat constructor. Qed.

Lemma acl1_sorted : acl_sorted acl1.
Proof. split; repeat constructor; cbn; lia. Qed.

Lemma acl_check_rights_witness : acl_CheckRights acl1 [-205; 9] = (0, Some 1).
Proof.
  rewrite (acl_check_rights acl1 [-205; 9]); [reflexivity|unfold ACL_MAXENTRIES; cbn; lia|cbn; lia|apply acl1_sorted|].
  repeat constructor; lia.
Defined.

Definition names1 : list (list Z) := [[97]; [98]; [99]].

Lemma acl_text_roundtrip_witness :
  exists text, acl_Externalize_pr (fun _ => (0, names1)) acl1 = inr text
    /\ @acl_Internalize_pr merge_qsort (fun _ => (0, [-205; 7; 9])) text []
       = Acl (mkAcl (28 + (3 - 1) * 8) ACL_ACLVERSION 3 2 1 (a_entries acl1)).
Proof.
  apply (@acl_text_roundtrip merge_qsort (fun _ => (0, names1)) (fun _ => (0, [-205; 7; 9]))
           acl1 names1 []); try reflexivity.
  - apply acl1_valid.
  - apply acl1_sorted.
  - repeat constructor; cbn; intros []; try done; lia.
  - repeat constructor; cbn; intros [].
  - repeat constructor; cbn; try done; lia.
  - unfold ANONYMOUSID. intros Hin. vm_compute in Hin. lia.
Defined.

Lemma acl_external_fits_witness :
  exists text, acl_Externalize_pr (fun _ => (0, names1)) acl1 = inr text
               /\ Z.of_nat (length text) + 1 <= external_size 3.
Proof.
  eexists. split; [reflexivity|].
  apply (acl_external_fits (fun _ => (0, names1)) acl1); [apply acl1_valid| |reflexivity].
  intros _. repeat constructor; cbn; lia.
Defined.

Lemma acl_network_roundtrip_witness :
  fst (@acl_HtonACL little_endian acl1) = 0
  /\ @acl_NtohACL little_endian (snd (@acl_HtonACL little_endian acl1)) = (0, acl1).
Proof.
  apply (@acl_network_roundtrip little_endian acl1); [apply acl1_valid|done|done|cbn; lia].
Defined.

(** The block an allocation gets is large enough, and is taken off the free list if
    it was there. *)
Lemma get_block_fits flist t :
  let (b, rest) := get_block flist t in
  t <= b /\ ((b :: rest ≡ₚ flist) \/ (b = t /\ rest = flist)).
Proof.
  unfold get_block. assert (Hg : match GetFromList flist t with
    | Some (b, rest) => t <= b /\ b :: rest ≡ₚ flist | None => True end).
  { induction flist as [|y l IH]; [done|]. cbn. destruct (t <=? y) eqn:E; [split; [lia|done]|].
    destruct (GetFromList l t) as [[b rest]|]; [|done]. destruct IH as [IH1 IH2].
    split; [done|]. rewrite <- IH2. apply perm_swap. }
  destruct (GetFromList flist t) as [[b rest]|]; [|split; [lia|by right]].
  split; [apply Hg|]. left. apply Hg.
Qed.
