(* ===== verification/Dir.v ===== *)
(** * The directory package (dir/dir.c)

    A directory is a file of 2048-byte pages, each of 64 blobs of 32 bytes.  Page 0
    starts with the header: page count, free bitmap, allocation map, hash table; the
    other pages with the page header of one blob.  An entry takes as many
    consecutive blobs of a page as its name needs and is linked on the chain of its
    hash bucket by blob numbers.

    The state is the contents of the directory as the buffers show them, the pages
    that can be read, the pages marked modified ([DRelease] with a non-zero flag)
    and the number of buffer references held.  Every [DRead] can fail.  Multi-byte
    fields are in network order, so [half] and [word] are the values after
    [ntohs]/[ntohl].  A [struct DirBuffer] is the address of its [data] in the file
    ([DVOffset]). *)

From stdpp Require Import prelude list gmap.
From Stdlib Require Import ZArith Lia ZifyBool.
From S2P Require Import Prelude ByteMem.

#[local] Open Scope Z_scope.

Definition AFS_PAGESIZE := 2048.
Definition NHASHENT := 128.
Definition MAXPAGES := 128.
Definition BIGMAXPAGES := 1023.
Definition EPP := 64.
Definition DHE := 12.
Definition FFIRST := 1.
(** [sizeof(struct DirEntry)]: flag, length, next, fid and [name[16]]. *)
Definition sizeof_DirEntry := 28.

Definition ENOENT := 2.
Definition EIO := 5.
Definition E2BIG := 7.
Definition EEXIST := 17.
Definition EINVAL := 22.
Definition EFBIG := 27.

(** Offsets of the fields of [struct PageHeader], [struct DirHeader] and
    [struct DirEntry]. *)
Definition o_pgcount := 0.
Definition o_tag := 2.
Definition o_freecount := 4.
Definition o_freebitmap := 5.
Definition o_alloMap := 32.
Definition o_hashTable := 160.
Definition o_next := 2.
Definition o_vnode := 4.
Definition o_vunique := 8.
Definition o_name := 12.

(** ** State and effects *)

Record dirf := mkDir {
  cells : Z -> Z;
  present : gset Z;
  dirty : gset Z;
  held : Z;
  io_faults : list bool
}.

Inductive dres (A : Type) :=
| Ret (a : A)
| Fail (code : Z).
Arguments Ret {A} a.
Arguments Fail {A} code.

Definition D (A : Type) : Type := dirf -> dres A * dirf.
Definition ret {A} (a : A) : D A := fun s => (Ret a, s).
Definition fail {A} (c : Z) : D A := fun s => (Fail c, s).
Definition bind {A B} (x : D A) (k : A -> D B) : D B :=
  fun s => match x s with
           | (Ret a, s') => k a s'
           | (Fail c, s') => (Fail c, s')
           end.
(** The result of a call that the caller inspects. *)
Definition try {A} (x : D A) : D (dres A) :=
  fun s => let (r, s') := x s in (Ret r, s').
Definition get {A} (f : (Z -> Z) -> A) : D A := fun s => (Ret (f (cells s)), s).
Definition put (a : Z) (l : list Z) : D unit :=
  fun s => (Ret tt, mkDir (upd (cells s) a l) (present s) (dirty s) (held s) (io_faults s)).
Definition skip : D unit := ret tt.

Declare Scope dir_scope.
Delimit Scope dir_scope with dir.
Notation "'do' x <- e ; k" := (bind e (fun x => k))
  (at level 10, x name, e at level 100, k at level 200) : dir_scope.
Notation "e ;; k" := (bind e (fun _ => k))
  (at level 100, k at level 200, right associativity) : dir_scope.
#[local] Open Scope dir_scope.

(** ** The buffer package as dir.c sees it *)

(** [DRead]: a page that is not there, or an I/O error, gives [EIO]. *)
Definition DRead (page : Z) : D unit := fun s =>
  let '(bad, fl) := match io_faults s with [] => (false, []) | b :: l => (b, l) end in
  if bad || negb (bool_decide (page ∈ present s))
  then (Fail EIO, mkDir (cells s) (present s) (dirty s) (held s) fl)
  else (Ret tt, mkDir (cells s) (present s) (dirty s) (held s + 1) fl).

(** [DNew]: a buffer of zeros, without reading. *)
Definition DNew (page : Z) : D unit := fun s =>
  (Ret tt, mkDir (upd (cells s) (page * AFS_PAGESIZE) (repeat 0 (Z.to_nat AFS_PAGESIZE)))
             ({[page]} ∪ present s) (dirty s) (held s + 1) (io_faults s)).

Definition DRelease (page : Z) (flag : bool) : D unit := fun s =>
  (Ret tt, mkDir (cells s) (present s) (if flag then {[page]} ∪ dirty s else dirty s)
             (held s - 1) (io_faults s)).

Definition page_of (a : Z) : Z := a / AFS_PAGESIZE.

(** ** Names and hashing *)

Definition half (d : Z -> Z) (a : Z) : Z := d a * 2 ^ 8 + d (a + 1).

(** A [char] of the header, as a signed number. *)
Definition schar (z : Z) : Z := (z + 128) mod 256 - 128.

Definition afs_dir_NameBlobs (name : list Z) : Z :=
  1 + Z.shiftr (Z.of_nat (length name) + 1 + 15) 5.

Definition hash_step (hval tc : Z) : Z := u32 (u32 (hval * 173) + tc).
Definition afs_dir_DirHash (string : list Z) : Z :=
  let hval := fold_left hash_step string 0 in
  let tval := Z.land hval (NHASHENT - 1) in
  if tval =? 0 then tval
  else if 2 ^ 31 <=? hval then NHASHENT - tval
  else tval.

(** ** Blobs *)

(** [GetBlobWithLimit]: the address of the blob and the longest offset in it. *)
Definition GetBlobWithLimit (blobno : Z) : D (Z * Z) :=
  DRead (Z.shiftr blobno 6) ;;
  let pos := 32 * Z.land blobno (EPP - 1) in
  ret (Z.shiftr blobno 6 * AFS_PAGESIZE + pos, AFS_PAGESIZE - pos - 1).

Definition afs_dir_GetBlob (blobno : Z) : D Z :=
  do b <- GetBlobWithLimit blobno; ret (fst b).

(** [for (cp = dir->name; *cp != '\0' && cp < ((char * )dir) + maxlen; cp++);] *)
Fixpoint name_end (fuel : nat) (d : Z -> Z) (cp lim : Z) : Z :=
  match fuel with
  | O => cp
  | S fuel => if negb (d cp =? 0) && (cp <? lim) then name_end fuel d (cp + 1) lim else cp
  end.

Definition afs_dir_GetVerifiedBlob (blobno : Z) : D Z :=
  do b <- GetBlobWithLimit blobno;
  let (dir, maxlen) := (b : Z * Z) in
  do d <- get (fun d => d);
  let cp := name_end (Z.to_nat maxlen) d (dir + o_name) (dir + maxlen) in
  if negb (d cp =? 0) then DRelease (page_of dir) false ;; fail EIO
  else ret dir.

(** The name of an entry that is terminated in its page. *)
Definition name_at (d : Z -> Z) (a : Z) : list Z :=
  cstr (bytes d (a + o_name) (Z.to_nat (AFS_PAGESIZE - a mod AFS_PAGESIZE - o_name))).

(** ** Looking up *)

(** The loop of [FindItem]: [prev] is the address of the link to [curr]. *)
Fixpoint find_item_loop (n : nat) (ename : list Z) (prev curr : Z) : D (Z * Z) :=
  match n with
  | O => DRelease (page_of prev) false ;; fail EIO
  | S n =>
      do nm <- get (fun d => name_at d curr);
      if bool_decide (ename = nm) then ret (prev, curr)
      else
        DRelease (page_of prev) false ;;
        let prev := curr + o_next in
        do next <- get (fun d => half d prev);
        if next =? 0 then DRelease (page_of prev) false ;; fail ENOENT
        else
          do r <- try (afs_dir_GetVerifiedBlob next);
          match r with
          | Fail code => DRelease (page_of prev) false ;; fail code
          | Ret curr => find_item_loop n ename prev curr
          end
  end.

(** The bound on the elements of a chain, [BIGMAXPAGES * EPP]. *)
Definition chain_limit : nat := Z.to_nat (BIGMAXPAGES * EPP).

Definition FindItem (ename : list Z) : D (Z * Z) :=
  DRead 0 ;;
  let slot := o_hashTable + 2 * afs_dir_DirHash ename in
  do h <- get (fun d => half d slot);
  if h =? 0 then DRelease 0 false ;; fail ENOENT
  else
    do r <- try (afs_dir_GetVerifiedBlob h);
    match r with
    | Fail code => DRelease 0 false ;; fail code
    | Ret curr => find_item_loop chain_limit ename slot curr
    end.

Definition afs_dir_LookupOffset (entry : list Z) : D (Z * Z * Z) :=
  do r <- FindItem entry;
  let (prev, item) := (r : Z * Z) in
  DRelease (page_of prev) false ;;
  do vnode <- get (fun d => word d (item + o_vnode));
  do vunique <- get (fun d => word d (item + o_vunique));
  DRelease (page_of item) false ;;
  ret (vnode, vunique, item).

Definition afs_dir_Lookup (entry : list Z) : D (Z * Z) :=
  do r <- FindItem entry;
  let (prev, item) := (r : Z * Z) in
  DRelease (page_of prev) false ;;
  do vnode <- get (fun d => word d (item + o_vnode));
  do vunique <- get (fun d => word d (item + o_vunique));
  DRelease (page_of item) false ;;
  ret (vnode, vunique).

(** ** Allocating and freeing blobs *)

Definition bitmap_byte (page j : Z) : Z := page * AFS_PAGESIZE + o_freebitmap + Z.shiftr j 3.
Definition bit_set (d : Z -> Z) (page j : Z) : bool :=
  Z.testbit (d (bitmap_byte page j)) (Z.land j 7).

Definition AddPage (pageno : Z) : D unit :=
  DNew pageno ;;
  let pp := pageno * AFS_PAGESIZE in
  put (pp + o_tag) (be16 1234) ;;
  (if 0 <? pageno then put (pp + o_pgcount) (be16 0) else skip) ;;
  put (pp + o_freecount) [EPP - 1] ;;
  put (pp + o_freebitmap) (1 :: repeat 0 7) ;;
  DRelease pageno true.

(** The loop on [k]: are [n] blobs free from blob [j] of the page? *)
Fixpoint run_free (n : nat) (d : Z -> Z) (page j : Z) : bool :=
  match n with
  | O => true
  | S n => if bit_set d page j then false else run_free n d page (j + 1)
  end.

(** The loop on [j]: [failed] and [j] when it ends. *)
Fixpoint scan_page (fuel : nat) (d : Z -> Z) (page nblobs j : Z) (failed : bool) : bool * Z :=
  match fuel with
  | O => (failed, j)
  | S fuel =>
      if EPP - nblobs <? j then (failed, j)
      else if run_free (Z.to_nat nblobs) d page j then (false, j)
      else scan_page fuel d page nblobs (j + 1) true
  end.

Fixpoint set_bits (n : nat) (page j : Z) : D unit :=
  match n with
  | O => skip
  | S n =>
      do c <- get (fun d => d (bitmap_byte page j));
      put (bitmap_byte page j) [u8 (Z.lor c (Z.shiftl 1 (Z.land j 7)))] ;;
      set_bits n page (j + 1)
  end.

Fixpoint clear_bits (n : nat) (page j : Z) : D unit :=
  match n with
  | O => skip
  | S n =>
      do c <- get (fun d => d (bitmap_byte page j));
      put (bitmap_byte page j) [u8 (Z.land c (Z.lnot (Z.shiftl 1 (Z.land j 7))))] ;;
      clear_bits n page (j + 1)
  end.

(** Make sure that page [i] exists ([a] is [alloMap[i]]). *)
Definition extend_to (i a : Z) : D unit :=
  if MAXPAGES <=? i then
    do pg <- get (fun d => half d o_pgcount);
    (if pg =? 0 then put o_pgcount (be16 MAXPAGES) else skip) ;;
    (if (if pg =? 0 then MAXPAGES else pg) - 1 <? i
     then AddPage i ;; put o_pgcount (be16 (i + 1)) else skip)
  else if a =? EPP then
    AddPage i ;; put (o_alloMap + i) [EPP - 1] ;; put o_pgcount (be16 (i + 1))
  else skip.

(** The loop of [FindBlobs] from page [i]; the header is released at the end. *)
Fixpoint find_page (fuel : nat) (i nblobs : Z) (failed : bool) : D Z :=
  match fuel with
  | O => DRelease 0 true ;; ret (-1)
  | S fuel =>
      do a <- get (fun d => schar (d (o_alloMap + i)));
      if (MAXPAGES <=? i) || (nblobs <=? a) then
        extend_to i a ;;
        do r <- try (DRead i);
        match r with
        | Fail _ => DRelease 0 true ;; ret (-1)
        | Ret _ =>
            do d <- get (fun d => d);
            let (failed, j) := scan_page 65 d i nblobs 0 failed in
            if negb failed then
              (if i <? MAXPAGES
               then put (o_alloMap + i) [u8 (d (o_alloMap + i) - nblobs)] else skip) ;;
              DRelease 0 true ;;
              set_bits (Z.to_nat nblobs) i j ;;
              DRelease i true ;;
              ret (j + i * EPP)
            else DRelease i false ;; find_page fuel (i + 1) nblobs failed
        end
      else find_page fuel (i + 1) nblobs failed
  end.

Definition FindBlobs (nblobs : Z) : D Z :=
  do r <- try (DRead 0);
  match r with
  | Fail _ => ret (-1)
  | Ret _ => find_page (Z.to_nat BIGMAXPAGES) 0 nblobs false
  end.

Definition FreeBlobs (firstblob nblobs : Z) : D unit :=
  let page := firstblob / EPP in
  let firstblob := firstblob - EPP * page in
  do r <- try (DRead 0);
  match r with
  | Fail _ => skip
  | Ret _ =>
      (if page <? MAXPAGES then
         do a <- get (fun d => d (o_alloMap + page));
         put (o_alloMap + page) [u8 (a + nblobs)]
       else skip) ;;
      DRelease 0 true ;;
      do r <- try (DRead page);
      match r with
      | Fail _ => skip
      | Ret _ => clear_bits (Z.to_nat nblobs) page firstblob ;; DRelease page true
      end
  end.

(** ** Creating, deleting, changing *)

Definition afs_dir_Create (entry : list Z) (vnode vunique : Z) : D unit :=
  if bool_decide (entry = []) then fail EINVAL
  else
    do r <- try (FindItem entry);
    match r with
    | Ret (prev, item) =>
        DRelease (page_of item) false ;; DRelease (page_of prev) false ;; fail EEXIST
    | Fail code =>
        if negb (code =? ENOENT) then fail code
        else
          do firstelt <- FindBlobs (afs_dir_NameBlobs entry);
          if firstelt <? 0 then fail EFBIG
          else
            do r <- try (afs_dir_GetBlob firstelt);
            match r with
            | Fail _ => fail EIO
            | Ret ep =>
                put ep [FFIRST] ;;
                put (ep + o_vnode) (be32 vnode) ;;
                put (ep + o_vunique) (be32 vunique) ;;
                put (ep + o_name) (entry ++ [0]) ;;
                do r <- try (DRead 0);
                match r with
                | Fail _ => DRelease (page_of ep) true ;; fail EIO
                | Ret _ =>
                    let slot := o_hashTable + 2 * afs_dir_DirHash entry in
                    do old <- get (fun d => half d slot);
                    put (ep + o_next) (be16 old) ;;
                    put slot (be16 firstelt) ;;
                    DRelease 0 true ;;
                    DRelease (page_of ep) true
                end
            end
    end.

Definition afs_dir_Delete (entry : list Z) : D unit :=
  do r <- FindItem entry;
  let (prev, item) := (r : Z * Z) in
  do next <- get (fun d => half d (item + o_next));
  put prev (be16 next) ;;
  DRelease (page_of prev) true ;;
  do nm <- get (fun d => name_at d item);
  let nitems := afs_dir_NameBlobs nm in
  put item (repeat 0 (Z.to_nat (nitems * sizeof_DirEntry))) ;;
  DRelease (page_of item) true ;;
  FreeBlobs (item / 32) nitems.

(** [afs_dir_ChangeFid]; without [old_fid] there is no safety check. *)
Definition afs_dir_ChangeFid (entry : list Z) (old_fid : option (Z * Z)) (new_fid : Z * Z) : D unit :=
  do r <- FindItem entry;
  let (prev, item) := (r : Z * Z) in
  DRelease (page_of prev) true ;;
  do vnode <- get (fun d => word d (item + o_vnode));
  do vunique <- get (fun d => word d (item + o_vunique));
  (if match old_fid with
      | None => true
      | Some (v, u) => (u32 v =? vnode) && (u32 u =? vunique)
      end
   then put (item + o_vnode) (be32 (fst new_fid)) ;; put (item + o_vunique) (be32 (snd new_fid))
   else skip) ;;
  DRelease (page_of item) true.

Definition dot : list Z := [46].
Definition dotdot : list Z := [46; 46].

Definition afs_dir_MakeDir (me parent : Z * Z) : D unit :=
  DNew 0 ;;
  put o_pgcount (be16 1) ;;
  put o_tag (be16 1234) ;;
  put o_freecount [EPP - DHE - 1] ;;
  put o_freebitmap (255 :: 31 :: repeat 0 6) ;;
  put o_alloMap ((EPP - DHE - 1) :: repeat EPP 127) ;;
  put o_hashTable (repeat 0 (Z.to_nat (2 * NHASHENT))) ;;
  DRelease 0 true ;;
  try (afs_dir_Create dot (fst me) (snd me)) ;;
  try (afs_dir_Create dotdot (fst parent) (snd parent)) ;;
  skip.

(** ** Whole directory *)

(** Old-style directories: the allocated pages are counted. *)
Definition count_pages (d : Z -> Z) : Z :=
  Z.of_nat (length (List.filter (fun i => negb (schar (d (o_alloMap + Z.of_nat i)) =? EPP))
                      (seq 0 (Z.to_nat MAXPAGES)))).

Definition afs_dir_Length : D Z :=
  do r <- try (DRead 0);
  match r with
  | Fail _ => ret 0
  | Ret _ =>
      do pg <- get (fun d => half d o_pgcount);
      do old <- get count_pages;
      DRelease 0 false ;;
      ret ((if negb (pg =? 0) then pg else old) * AFS_PAGESIZE)
  end.

Section Enumerate.
Context {H : Type} (proc : H -> list Z -> Z -> Z -> Z * H).

(** The [while] loop of [afs_dir_EnumerateDir]: the code that ends it (0: next
    chain) and the hook. *)
Fixpoint enum_chain (n : nat) (num : Z) (hook : H) : D (Z * H) :=
  if num =? 0 then ret (0, hook)
  else match n with
  | O => ret (0, hook)
  | S n =>
      do r <- try (afs_dir_GetVerifiedBlob num);
      match r with
      | Fail code => ret (code, hook)
      | Ret ep =>
          do num <- get (fun d => half d (ep + o_next));
          do nm <- get (fun d => name_at d ep);
          do vnode <- get (fun d => word d (ep + o_vnode));
          do vunique <- get (fun d => word d (ep + o_vunique));
          let (code, hook) := proc hook nm vnode vunique in
          DRelease (page_of ep) false ;;
          if negb (code =? 0) then ret (code, hook) else enum_chain n num hook
      end
  end.

Fixpoint enum_from (n : nat) (i : Z) (hook : H) : D H :=
  match n with
  | O => ret hook
  | S n =>
      do num <- get (fun d => half d (o_hashTable + 2 * i));
      do r <- enum_chain chain_limit num hook;
      if negb (fst r =? 0) then ret (snd r) else enum_from n (i + 1) (snd r)
  end.

(** [afs_dir_EnumerateDir]: the return value and the final hook. *)
Definition afs_dir_EnumerateDir (hook : H) : D (Z * H) :=
  do r <- try (DRead 0);
  match r with
  | Fail _ => ret (EIO, hook)
  | Ret _ =>
      do hook <- enum_from (Z.to_nat NHASHENT) 0 hook;
      DRelease 0 false ;;
      ret (0, hook)
  end.
End Enumerate.

(** The [while] loop of [afs_dir_IsEmpty]: was another name than dot and dotdot
    seen? *)
Fixpoint empty_chain (n : nat) (num : Z) : D bool :=
  if num =? 0 then ret false
  else match n with
  | O => ret false
  | S n =>
      do r <- try (afs_dir_GetVerifiedBlob num);
      match r with
      | Fail _ => ret false
      | Ret ep =>
          do nm <- get (fun d => name_at d ep);
          if negb (bool_decide (nm = dotdot)) && negb (bool_decide (nm = dot))
          then DRelease (page_of ep) false ;; ret true
          else
            do num <- get (fun d => half d (ep + o_next));
            DRelease (page_of ep) false ;;
            empty_chain n num
      end
  end.

Fixpoint empty_from (n : nat) (i : Z) : D Z :=
  match n with
  | O => DRelease 0 false ;; ret 0
  | S n =>
      do num <- get (fun d => half d (o_hashTable + 2 * i));
      do found <- empty_chain chain_limit num;
      if (found : bool) then DRelease 0 false ;; ret 1 else empty_from n (i + 1)
  end.

Definition afs_dir_IsEmpty : D Z :=
  do r <- try (DRead 0);
  match r with
  | Fail _ => ret 0
  | Ret _ => empty_from (Z.to_nat NHASHENT) 0
  end.

(** The [while] loop of [FindFid]: [Some] is the entry; a chain that reaches the
    bound leaves its last buffer referenced. *)
Fixpoint fid_chain (n : nat) (vnode unique curr : Z) : D (option Z) :=
  match n with
  | O => ret None
  | S n =>
      do v <- get (fun d => word d (curr + o_vnode));
      do u <- get (fun d => word d (curr + o_vunique));
      if (vnode =? v) && (unique =? u) then ret (Some curr)
      else
        do next <- get (fun d => half d (curr + o_next));
        DRelease (page_of curr) false ;;
        if next =? 0 then ret None
        else
          do r <- try (afs_dir_GetVerifiedBlob next);
          match r with
          | Fail code => fail code
          | Ret curr => fid_chain n vnode unique curr
          end
  end.

Fixpoint fid_from (n : nat) (i vnode unique : Z) : D Z :=
  match n with
  | O => DRelease 0 false ;; fail ENOENT
  | S n =>
      do h <- get (fun d => half d (o_hashTable + 2 * i));
      if h =? 0 then fid_from n (i + 1) vnode unique
      else
        do r <- try (do curr <- afs_dir_GetVerifiedBlob h; fid_chain chain_limit vnode unique curr);
        match r with
        | Fail code => DRelease 0 false ;; fail code
        | Ret (Some item) => DRelease 0 false ;; ret item
        | Ret None => fid_from n (i + 1) vnode unique
        end
  end.

Definition FindFid (vnode unique : Z) : D Z :=
  DRead 0 ;; fid_from (Z.to_nat NHASHENT) 0 vnode unique.

Definition afs_dir_InverseLookup (vnode unique length : Z) : D (list Z) :=
  do entry <- FindFid vnode unique;
  do nm <- get (fun d => name_at d entry);
  DRelease (page_of entry) false ;;
  if length <=? Z.of_nat (List.length nm) then fail E2BIG else ret nm.
