(* ===== verification/DirRep.v ===== *)
(** * Directories: the pages represent a finite map from names to fids

    [dir_ok E C Y P s]: the directory [s] of [P] pages holds exactly the entries [E]
    (name, first blob, vnode, uniquifier), every one on the chain of its hash
    bucket, and its bitmaps and allocation map describe the blobs in use.  [C] are
    the blobs in use that the allocation map counts, [Y] those it does not count,
    which only an I/O error in the middle of [FreeBlobs] can produce. *)

From stdpp Require Import prelude list gmap list_numbers.
From Stdlib Require Import ZArith Lia ZifyBool.
From S2P Require Import Prelude ByteMem Dir.

#[local] Open Scope Z_scope.
#[local] Open Scope dir_scope.

Ltac dconst :=
  unfold AFS_PAGESIZE, NHASHENT, MAXPAGES, BIGMAXPAGES, EPP, DHE, FFIRST, sizeof_DirEntry,
    o_pgcount, o_tag, o_freecount, o_freebitmap, o_alloMap, o_hashTable, o_next, o_vnode,
    o_vunique, o_name in *.
Ltac dlia := dconst; lia.
Ltac dmlia := dconst; mlia.

(** ** The invariant *)

(** Blobs of headers: 13 in page 0, one in every other page. *)
Definition reserved (k : Z) : Prop := k < 13 \/ k mod 64 = 0.

Definition blobs (b n : Z) : gset Z := list_to_set (seqZ b n).

Definition nblobs_of (nm : list Z) : Z := afs_dir_NameBlobs nm.

Definition name_ok (nm : list Z) : Prop :=
  nm <> [] /\ Forall (fun c => 0 < c < 256) nm /\ Z.of_nat (length nm) < 2000.

Definition link_of (d : Z -> Z) (b : Z) : Z := half d (32 * b + o_next).
Definition bucket (h : Z) : Z := o_hashTable + 2 * h.

Abbreviation dents := (gmap (list Z) (Z * Z * Z)).

Record entry_at (d : Z -> Z) (nm : list Z) (b v u : Z) : Prop := {
  ea_name : bytes d (32 * b + o_name) (S (length nm)) = nm ++ [0];
  ea_vnode : word d (32 * b + o_vnode) = v;
  ea_unique : word d (32 * b + o_vunique) = u;
  ea_flag : d (32 * b) = FFIRST
}.

(** Blobs of page [i] that are not headers. *)
Definition capacity (i : Z) : Z := if i =? 0 then 51 else 63.
Definition in_page (i : Z) (C : gset Z) : gset Z := filter (fun k => k / 64 = i) C.

Definition on_chain (E : dents) (h b : Z) : Prop :=
  exists nm v u, E !! nm = Some (b, v, u) /\ afs_dir_DirHash nm = h.

Record dir_mem (E : dents) (C Y : gset Z) (P : Z) (d : Z -> Z) : Prop := {
  dm_pages : 1 <= P <= 1023 /\ half d o_pgcount = P;
  dm_bytes : forall x, is_u8 (d x);
  dm_alloc : forall i, 0 <= i < 128 ->
    d (o_alloMap + i) = if i <? P then capacity i - Z.of_nat (size (in_page i C)) else EPP;
  dm_bits : forall i j, 0 <= i < P -> 0 <= j < 64 ->
    bit_set d i j = true <-> reserved (64 * i + j) \/ 64 * i + j ∈ C ∪ Y;
  dm_range : forall k, k ∈ C ∪ Y -> k < 64 * P /\ ~ reserved k;
  dm_disj : C ## Y;
  dm_name : forall nm b v u, E !! nm = Some (b, v, u) -> name_ok nm;
  dm_entry : forall nm b v u, E !! nm = Some (b, v, u) -> entry_at d nm b v u;
  dm_blobs : forall nm b v u, E !! nm = Some (b, v, u) ->
    b mod 64 + nblobs_of nm <= 64 /\ blobs b (nblobs_of nm) ⊆ C;
  dm_apart : forall nm b v u nm' b' v' u',
    E !! nm = Some (b, v, u) -> E !! nm' = Some (b', v', u') -> nm <> nm' ->
    blobs b (nblobs_of nm) ## blobs b' (nblobs_of nm');
  dm_chain : forall h, 0 <= h < 128 -> exists l,
    chain (link_of d) (half d (bucket h)) l /\ NoDup l /\ (forall b, b ∈ l <-> on_chain E h b);
  dm_tag : forall i, 0 <= i < P -> half d (i * AFS_PAGESIZE + o_tag) = 1234
}.

Definition dir_ok (E : dents) (C Y : gset Z) (P : Z) (s : dirf) : Prop :=
  dir_mem E C Y P (cells s) /\ (forall p, 0 <= p < P -> p ∈ present s).

Definition quiet (s : dirf) : Prop := io_faults s = [].

(** Same contents, and no new faults. *)
Definition same (s s' : dirf) : Prop :=
  cells s' = cells s /\ present s' = present s /\ (quiet s -> quiet s').

#[global] Instance same_preorder : PreOrder same.
Proof.
  split; [by intros s|]. intros s1 s2 s3 (A1 & A2 & A3) (B1 & B2 & B3).
  split; [congruence|]. split; [congruence|auto].
Qed.

Lemma same_ok E C Y P s s' : same s s' -> dir_ok E C Y P s -> dir_ok E C Y P s'.
Proof. intros (Hc & Hp & _) [Hm Hpr]. split; [by rewrite Hc|by rewrite Hp]. Qed.

(** ** Arithmetic of blobs and addresses *)

Lemma elem_blobs k b n : k ∈ blobs b n <-> b <= k < b + n.
Proof. unfold blobs. rewrite elem_of_list_to_set, elem_of_seqZ. lia. Qed.

Lemma size_blobs b n : 0 <= n -> Z.of_nat (size (blobs b n)) = n.
Proof.
  intros Hn. unfold blobs. rewrite size_list_to_set by apply NoDup_seqZ.
  rewrite length_seqZ. lia.
Qed.

Lemma nblobs_div nm : nblobs_of nm = 1 + (Z.of_nat (length nm) + 16) / 32.
Proof. unfold nblobs_of, afs_dir_NameBlobs. rewrite Z.shiftr_div_pow2 by lia. f_equal. f_equal. lia. Qed.

(** The blobs of an entry hold its name and the zero behind it. *)
Lemma nblobs_fits nm : 12 + Z.of_nat (length nm) + 1 <= 32 * nblobs_of nm - 3.
Proof. rewrite nblobs_div. mlia. Qed.

Lemma nblobs_range nm : Z.of_nat (length nm) < 2000 -> 1 <= nblobs_of nm <= 63.
Proof. rewrite nblobs_div. mlia. Qed.

Lemma blob_addr b : Z.shiftr b 6 * AFS_PAGESIZE + 32 * Z.land b (EPP - 1) = 32 * b.
Proof.
  rewrite Z.shiftr_div_pow2 by lia. change (EPP - 1) with (Z.ones 6).
  rewrite Z.land_ones by lia. change (2 ^ 6) with 64. dmlia.
Qed.

Lemma blob_page b : Z.shiftr b 6 = b / 64.
Proof. by rewrite Z.shiftr_div_pow2 by lia. Qed.

Lemma blob_pos b : Z.land b (EPP - 1) = b mod 64.
Proof. change (EPP - 1) with (Z.ones 6). by rewrite Z.land_ones by lia. Qed.

Lemma hash_range nm : 0 <= afs_dir_DirHash nm < 128.
Proof.
  unfold afs_dir_DirHash. set (h := fold_left _ _ _). change (NHASHENT - 1) with (Z.ones 7).
  rewrite Z.land_ones by lia. change (2 ^ 7) with 128.
  pose proof (Z.mod_pos_bound h 128 ltac:(lia)).
  destruct (_ =? 0) eqn:E0; [lia|]. destruct (_ <=? _); dlia.
Qed.

(** ** Bytes *)

Lemma half_ext d d' a : d a = d' a -> d (a + 1) = d' (a + 1) -> half d a = half d' a.
Proof. unfold half. by intros -> ->. Qed.

Lemma half_upd_out d a l x :
  x + 2 <= a \/ a + Z.of_nat (length l) <= x -> half (upd d a l) x = half d x.
Proof. intros Hx. apply half_ext; apply upd_out; lia. Qed.

Lemma half_upd_be16 d a v : half (upd d a (be16 v)) a = u16 v.
Proof.
  unfold half. pose proof (upd_in d a (be16 v) 0) as E0. pose proof (upd_in d a (be16 v) 1) as E1.
  change (Z.of_nat 0) with 0 in E0. rewrite Z.add_0_r in E0. change (Z.of_nat 1) with 1 in E1.
  rewrite E0, E1 by (cbn; lia). cbn [nth be16]. mlia.
Qed.

Lemma half_u16 d a : (forall x, is_u8 (d x)) -> is_u16 (half d a).
Proof. intros H. pose proof (H a). pose proof (H (a + 1)). unfold half. mlia. Qed.

Lemma bytes_S d a n : bytes d a (S n) = d a :: bytes d (a + 1) n.
Proof.
  unfold bytes. cbn [seq map]. rewrite <- seq_shift, map_map. f_equal; [f_equal; lia|].
  apply map_ext. intros i. f_equal. lia.
Qed.

Lemma bytes_app d a n m : bytes d a (n + m) = bytes d a n ++ bytes d (a + Z.of_nat n) m.
Proof.
  revert a. induction n as [|n IH]; intros a; [by rewrite Z.add_0_r|].
  cbn [Nat.add]. rewrite !bytes_S, IH. cbn [app]. do 3 f_equal. lia.
Qed.

Lemma bytes_length d a n : length (bytes d a n) = n.
Proof. unfold bytes. by rewrite length_map, length_seq. Qed.

Lemma bytes_nth d a n i : (i < n)%nat -> nth i (bytes d a n) 0 = d (a + Z.of_nat i).
Proof.
  intros Hi. unfold bytes.
  rewrite nth_indep with (d' := (fun i => d (a + Z.of_nat i)) 0%nat)
    by by rewrite length_map, length_seq.
  rewrite (map_nth (fun i => d (a + Z.of_nat i))). by rewrite seq_nth.
Qed.

Lemma cstr_app_nul l r : Forall (fun c => 0 < c < 256) l -> cstr (l ++ 0 :: r) = l.
Proof.
  induction 1 as [|c l Hc _ IH]; [done|]. cbn [app cstr].
  destruct (c =? 0) eqn:E; [lia|]. by rewrite IH.
Qed.

Lemma name_end_nul fuel d cp lim z :
  cp <= z <= lim -> d z = 0 -> z - cp <= Z.of_nat fuel -> d (name_end fuel d cp lim) = 0.
Proof.
  revert cp. induction fuel as [|fuel IH]; intros cp Hz Hd Hf; cbn [name_end].
  - by replace cp with z by lia.
  - destruct (negb _ && _) eqn:E; [|].
    + apply IH; try done; [|lia]. destruct (decide (cp = z)); [subst; lia|lia].
    + destruct (d cp =? 0) eqn:E0; [lia|]. cbn in E. by replace cp with z by lia.
Qed.

(** What an entry gives to the code that looks at it. *)
Lemma entry_bounds b n : 0 < b -> b mod 64 + n <= 64 -> 32 * b mod 2048 + 32 * n <= 2048.
Proof. intros. mlia. Qed.

Lemma page_of_blob b : page_of (32 * b) = b / 64.
Proof. unfold page_of. dmlia. Qed.

Lemma entry_name d nm b v u :
  entry_at d nm b v u -> name_ok nm -> b mod 64 + nblobs_of nm <= 64 -> name_at d (32 * b) = nm.
Proof.
  intros [He _ _] (_ & Hc & _) Hb. unfold name_at. pose proof (nblobs_fits nm).
  set (m := Z.to_nat _).
  replace m with (S (length nm) + (m - S (length nm)))%nat by (subst m; dmlia).
  rewrite bytes_app, He, <- app_assoc. by apply cstr_app_nul.
Qed.

Lemma entry_nul d nm b v u :
  entry_at d nm b v u -> d (32 * b + o_name + Z.of_nat (length nm)) = 0.
Proof.
  intros [He _ _]. rewrite <- (bytes_nth d _ (S (length nm))) by lia. rewrite He.
  rewrite nth_middle. done.
Qed.

(** ** The reading steps *)

Lemma DRead_cases p s :
  exists s', same s s' /\
   ((DRead p s = (Ret tt, s') /\ p ∈ present s) \/ (DRead p s = (Fail EIO, s') /\ (p ∈ present s -> ~ quiet s))).
Proof.
  unfold DRead, quiet. destruct (io_faults s) as [|b fl] eqn:Ef.
  - cbn [orb]. case_bool_decide as Hp; cbn [negb].
    + eexists. split; [|by left]. by repeat split.
    + eexists. split; [|by right]. by repeat split.
  - destruct b; cbn [orb].
    + eexists. split; [|by right]. repeat split. unfold quiet. by rewrite Ef.
    + case_bool_decide as Hp; cbn [negb].
      * eexists. split; [|by left]. repeat split. unfold quiet. by rewrite Ef.
      * eexists. split; [|by right]. repeat split. unfold quiet. by rewrite Ef.
Qed.

Lemma DRelease_run p f s : exists s', DRelease p f s = (Ret tt, s') /\ same s s'.
Proof. eexists. split; [reflexivity|]. by repeat split. Qed.

Lemma bind_ret {A B} (x : D A) (k : A -> D B) s a s' :
  x s = (Ret a, s') -> bind x k s = k a s'.
Proof. unfold bind. by intros ->. Qed.

Lemma bind_fail {A B} (x : D A) (k : A -> D B) s c s' :
  x s = (Fail c, s') -> bind x k s = (Fail c, s').
Proof. unfold bind. by intros ->. Qed.

Lemma bind_try {A B} (x : D A) (k : dres A -> D B) s r s' :
  x s = (r, s') -> bind (try x) k s = k r s'.
Proof. unfold bind, try. by intros ->. Qed.

Lemma bind_read {A B} (f : (Z -> Z) -> A) (k : A -> D B) s : bind (get f) k s = k (f (cells s)) s.
Proof. done. Qed.

(** [DRelease] then [k]. *)
Lemma bind_release {B} p f (k : unit -> D B) s :
  exists s', same s s' /\ held s' = held s - 1 /\ bind (DRelease p f) k s = k tt s'.
Proof.
  destruct (DRelease_run p f s) as (s' & E & Hs). exists s'. split; [done|].
  split; [by injection E as <-|by apply bind_ret].
Qed.

Lemma verified_blob E C Y P s nm b v u :
  dir_ok E C Y P s -> E !! nm = Some (b, v, u) ->
  exists s', same s s' /\
    (afs_dir_GetVerifiedBlob b s = (Ret (32 * b), s')
     \/ (afs_dir_GetVerifiedBlob b s = (Fail EIO, s') /\ ~ quiet s)).
Proof.
  intros [Hm Hp] He. destruct (dm_blobs _ _ _ _ _ Hm _ _ _ _ He) as [Hb Hc].
  pose proof (dm_name _ _ _ _ _ Hm _ _ _ _ He) as Hn.
  pose proof (nblobs_range nm ltac:(apply Hn)) as Hr. pose proof (nblobs_fits nm) as Hfit.
  assert (Hk : b ∈ C ∪ Y) by (apply elem_of_union_l, Hc, elem_blobs; lia).
  apply (dm_range _ _ _ _ _ Hm) in Hk as [Hk Hres]. unfold reserved in Hres.
  unfold afs_dir_GetVerifiedBlob, GetBlobWithLimit.
  destruct (DRead_cases (Z.shiftr b 6) s) as (s' & Hs & [[E1 _]|[E1 Hq]]).
  - exists s'. split; [done|]. left.
    rewrite (bind_ret _ _ _ (32 * b, AFS_PAGESIZE - 32 * Z.land b (EPP - 1) - 1) s')
      by (rewrite (bind_ret _ _ _ _ _ E1); unfold ret; by rewrite blob_addr).
    cbn [fst snd]. rewrite bind_read, blob_pos.
    rewrite (name_end_nul _ _ _ _ (32 * b + o_name + Z.of_nat (length nm))); [done|dmlia| |dmlia].
    destruct Hs as (-> & _). by apply (entry_nul _ nm b v u), (dm_entry _ _ _ _ _ Hm).
  - exists s'. split; [done|]. right. split.
    + by rewrite (bind_fail _ _ _ EIO s') by by rewrite (bind_fail _ _ _ _ _ E1).
    + apply Hq, Hp. rewrite blob_page. mlia.
Qed.

(** ** Chains of a well-formed directory *)

(** The address of the link to the block behind [l1] on the chain of bucket [h]. *)
Definition link_addr (h : Z) (l1 : list Z) : Z :=
  match last l1 with
  | None => bucket h
  | Some p => 32 * p + o_next
  end.

Lemma on_chain_range E C Y P d h b :
  dir_mem E C Y P d -> on_chain E h b -> 13 <= b < 64 * P /\ b mod 64 <> 0.
Proof.
  intros Hm (nm & v & u & He & _). destruct (dm_blobs _ _ _ _ _ Hm _ _ _ _ He) as [_ Hc].
  pose proof (nblobs_range nm ltac:(by apply (dm_name _ _ _ _ _ Hm _ _ _ _ He))).
  assert (Hk : b ∈ C ∪ Y) by (apply elem_of_union_l, Hc, elem_blobs; lia).
  apply (dm_range _ _ _ _ _ Hm) in Hk as [Hk Hres]. unfold reserved in Hres. lia.
Qed.

(** Distinct numbers below a bound. *)
Lemma nodup_bounded (l : list Z) n :
  NoDup l -> (forall b, b ∈ l -> 0 <= b < Z.of_nat n) -> (length l <= n)%nat.
Proof.
  intros Hn Hb. rewrite <- (length_seqZ 0 (Z.of_nat n)) at 1 || idtac.
  replace n with (length (seqZ 0 (Z.of_nat n))) by (rewrite length_seqZ; lia).
  apply submseteq_length, NoDup_submseteq; [done|].
  intros b Hin. apply elem_of_seqZ. specialize (Hb b Hin). lia.
Qed.

Lemma chain_limit_ok E C Y P d h l :
  dir_mem E C Y P d -> NoDup l -> (forall b, b ∈ l <-> on_chain E h b) -> (length l <= chain_limit)%nat.
Proof.
  intros Hm Hn Hl. pose proof (dm_pages _ _ _ _ _ Hm) as [Hp _]. apply nodup_bounded; [done|].
  intros b Hb%Hl%(on_chain_range _ _ _ _ _ _ _ Hm). unfold chain_limit. dlia.
Qed.

Lemma blob_name_unique E C Y P d nm b v u nm' v' u' :
  dir_mem E C Y P d -> E !! nm = Some (b, v, u) -> E !! nm' = Some (b, v', u') -> nm = nm'.
Proof.
  intros Hm H1 H2. destruct (decide (nm = nm')) as [|Hne]; [done|exfalso].
  pose proof (nblobs_range nm ltac:(by apply (dm_name _ _ _ _ _ Hm _ _ _ _ H1))).
  pose proof (nblobs_range nm' ltac:(by apply (dm_name _ _ _ _ _ Hm _ _ _ _ H2))).
  apply (dm_apart _ _ _ _ _ Hm _ _ _ _ _ _ _ _ H1 H2 Hne b); apply elem_blobs; lia.
Qed.

Lemma mem_name E C Y P d nm b v u :
  dir_mem E C Y P d -> E !! nm = Some (b, v, u) -> name_at d (32 * b) = nm.
Proof.
  intros Hm He. apply (entry_name _ _ _ v u); [by apply (dm_entry _ _ _ _ _ Hm)| |].
  - by apply (dm_name _ _ _ _ _ Hm _ _ _ _ He).
  - by apply (dm_blobs _ _ _ _ _ Hm _ _ _ _ He).
Qed.

(** Run a [DRelease] at the head of a program. *)
Ltac rel s' Hs :=
  match goal with
  | |- context [bind (DRelease ?p ?f) ?k ?s] =>
      let Hh := fresh "Hheld" in destruct (bind_release p f k s) as (s' & Hs & Hh & ->)
  end.

(** One round of [FindItem]'s loop that does not find the name. *)
Lemma find_item_miss n nm prev b s :
  name_at (cells s) (32 * b) <> nm ->
  exists s1, same s s1 /\ held s1 = held s - 1 /\
    find_item_loop (S n) nm prev (32 * b) s =
    (if link_of (cells s) b =? 0 then DRelease (page_of (32 * b + o_next)) false ;; fail ENOENT
     else do r <- try (afs_dir_GetVerifiedBlob (link_of (cells s) b));
          match r with
          | Fail code => DRelease (page_of (32 * b + o_next)) false ;; fail code
          | Ret curr => find_item_loop n nm (32 * b + o_next) curr
          end) s1.
Proof.
  intros Hn. cbn [find_item_loop]. rewrite bind_read. case_bool_decide; [congruence|].
  rel s1 Hs. exists s1. split; [done|]. split; [done|]. rewrite bind_read. unfold link_of.
  rewrite (proj1 Hs). by destruct (_ =? 0).
Qed.

Definition find_post (E : dents) (h : Z) (nm : list Z) (l1 l2 : list Z) (s : dirf)
    (r : dres (Z * Z)) : Prop :=
  match r with
  | Ret (prev, item) => exists m1 c m2 v u, E !! nm = Some (c, v, u) /\ item = 32 * c
      /\ l1 ++ l2 = m1 ++ c :: m2 /\ prev = link_addr h m1
  | Fail code => (code = ENOENT /\ forall c v u, c ∈ l2 -> E !! nm <> Some (c, v, u))
      \/ (code = EIO /\ ~ quiet s)
  end.

Lemma find_item_loop_ok E C Y P h nm n l1 b l2 s :
  dir_ok E C Y P s ->
  chain (link_of (cells s)) (half (cells s) (bucket h)) (l1 ++ b :: l2) ->
  (forall c, c ∈ b :: l2 -> on_chain E h c) -> (length (b :: l2) <= n)%nat ->
  exists r s', find_item_loop n nm (link_addr h l1) (32 * b) s = (r, s') /\ same s s'
    /\ find_post E h nm l1 (b :: l2) s r.
Proof.
  revert n l1 b s. induction l2 as [|c l2 IH]; intros n l1 b s Hok Hch Hon Hn;
    (destruct n as [|n]; [cbn in Hn; lia|]); pose proof (proj1 Hok) as Hm;
    destruct (Hon b ltac:(left)) as (nm' & v & u & He & Hh);
    pose proof (mem_name _ _ _ _ _ _ _ _ _ Hm He) as Hname;
    destruct (chain_split _ _ _ _ _ Hch) as (Hch2 & _);
    (destruct (decide (nm' = nm)) as [->|Hne];
     [cbn [find_item_loop]; rewrite bind_read, Hname, bool_decide_true by done; do 2 eexists;
      split; [reflexivity|]; split; [reflexivity|]; by eexists l1, b, _, v, u|]);
    destruct (find_item_miss n nm (link_addr h l1) b s ltac:(congruence)) as (s1 & Hs1 & _ & ->).
  - cbn in Hch2. rewrite Hch2. cbn [Z.eqb]. rel s2 Hs2. exists (Fail ENOENT), s2.
    split; [done|]. split; [by etrans|]. left. split; [done|].
    intros c v' u' ->%list_elem_of_singleton Hcc. apply Hne.
    by apply (blob_name_unique _ _ _ _ _ _ _ _ _ _ _ _ Hm He Hcc).
  - destruct Hch2 as (Hlk & Hc0 & Hch2). rewrite Hlk. destruct (c =? 0) eqn:E0; [lia|].
    destruct (Hon c ltac:(right; left)) as (nmc & vc & uc & Hec & Hhc).
    pose proof (same_ok _ _ _ _ _ _ Hs1 Hok) as Hok1.
    destruct (verified_blob _ _ _ _ _ _ _ _ _ Hok1 Hec) as (s2 & Hs2 & [Ev|[Ev Hq]]);
      rewrite (bind_try _ _ _ _ _ Ev).
    + replace (32 * b + o_next) with (link_addr h (l1 ++ [b])) by (unfold link_addr; by rewrite last_snoc).
      destruct (IH n (l1 ++ [b]) c s2) as (r & s3 & Er & Hs3 & Hr).
      { by eapply same_ok. } { rewrite <- app_assoc. by rewrite (proj1 Hs2), (proj1 Hs1). }
      { intros x Hx. apply Hon. by right. } { cbn in *. lia. }
      exists r, s3. split; [done|]. split; [by do 2 (etrans; [done|])|].
      destruct r as [[prev item]|code]; [by unfold find_post in *; rewrite <- app_assoc in Hr|].
      destruct Hr as [[-> Hr]|[-> Hr]]; [left|right; split; [done|]].
      * split; [done|]. intros x v' u' [->|Hx]%elem_of_cons; [|by apply Hr]. intros Hcc.
        apply Hne. by apply (blob_name_unique _ _ _ _ _ _ _ _ _ _ _ _ Hm He Hcc).
      * intros Hqs. by apply Hr, (proj2 (proj2 Hs2)), (proj2 (proj2 Hs1)).
    + rel s3 Hs3. exists (Fail EIO), s3. split; [done|].
      split; [by do 2 (etrans; [done|])|]. right. split; [done|].
      intros Hqs. by apply Hq, (proj2 (proj2 Hs1)).
Qed.

Record chain_at (E : dents) (d : Z -> Z) (h : Z) (l : list Z) : Prop := {
  ca_chain : chain (link_of d) (half d (bucket h)) l;
  ca_nodup : NoDup l;
  ca_mem : forall b, b ∈ l <-> on_chain E h b
}.

Definition found (E : dents) (nm : list Z) (s : dirf) (r : dres (Z * Z)) : Prop :=
  match r with
  | Ret (prev, item) => exists l1 b l2 v u, E !! nm = Some (b, v, u) /\ item = 32 * b
      /\ chain_at E (cells s) (afs_dir_DirHash nm) (l1 ++ b :: l2)
      /\ prev = link_addr (afs_dir_DirHash nm) l1
  | Fail code => (code = ENOENT /\ E !! nm = None) \/ (code = EIO /\ ~ quiet s)
  end.

Lemma present_0 E C Y P s : dir_ok E C Y P s -> 0 ∈ present s.
Proof. intros [Hm Hp]. apply Hp. pose proof (dm_pages _ _ _ _ _ Hm). lia. Qed.

Lemma mem_chain E C Y P d h :
  dir_mem E C Y P d -> 0 <= h < 128 -> exists l, chain_at E d h l /\ (length l <= chain_limit)%nat.
Proof.
  intros Hm Hh. destruct (dm_chain _ _ _ _ _ Hm h Hh) as (l & H1 & H2 & H3). exists l.
  split; [by split|]. by eapply chain_limit_ok.
Qed.

Lemma FindItem_ok E C Y P nm s :
  dir_ok E C Y P s -> exists r s', FindItem nm s = (r, s') /\ same s s' /\ found E nm s r.
Proof.
  intros Hok. pose proof (proj1 Hok) as Hm. unfold FindItem.
  destruct (DRead_cases 0 s) as (s1 & Hs1 & [[E1 _]|[E1 Hq]]).
  2: { exists (Fail EIO), s1. split; [by apply bind_fail|]. split; [done|]. right.
       split; [done|]. by apply Hq, (present_0 _ _ _ _ _ Hok). }
  rewrite (bind_ret _ _ _ _ _ E1). rewrite bind_read, (proj1 Hs1).
  fold (bucket (afs_dir_DirHash nm)). set (h := afs_dir_DirHash nm).
  destruct (mem_chain _ _ _ _ _ h Hm (hash_range nm)) as (l & Hl & Hlim).
  destruct l as [|b l].
  - rewrite (ca_chain _ _ _ _ Hl). cbn [Z.eqb]. rel s2 Hs2. exists (Fail ENOENT), s2. split; [done|].
    split; [by etrans|]. left. split; [done|]. destruct (E !! nm) as [[[b v] u]|] eqn:He; [|done].
    exfalso. apply (not_elem_of_nil b), (ca_mem _ _ _ _ Hl). by exists nm, v, u.
  - destruct (ca_chain _ _ _ _ Hl) as (Hb & Hb0 & _). rewrite Hb.
    destruct (b =? 0) eqn:E0; [lia|].
    pose proof (same_ok _ _ _ _ _ _ Hs1 Hok) as Hok1.
    assert (Hon : on_chain E h b) by (apply (ca_mem _ _ _ _ Hl); left).
    destruct Hon as (nmb & v & u & He & _).
    destruct (verified_blob _ _ _ _ _ _ _ _ _ Hok1 He) as (s2 & Hs2 & [Ev|[Ev Hq]]);
      rewrite (bind_try _ _ _ _ _ Ev).
    + destruct (find_item_loop_ok E C Y P h nm chain_limit [] b l s2) as (r & s3 & Er & Hs3 & Hr).
      { by eapply same_ok. } { rewrite (proj1 Hs2), (proj1 Hs1). apply Hl. }
      { intros c Hc. by apply (ca_mem _ _ _ _ Hl). } { done. }
      exists r, s3. split; [done|]. split; [by do 2 (etrans; [done|])|].
      destruct r as [[prev item]|code].
      * destruct Hr as (m1 & c & m2 & v' & u' & R1 & R2 & R3 & R4). exists m1, c, m2, v', u'.
        cbn [app] in R3. by rewrite <- R3.
      * destruct Hr as [[-> Hr]|[-> Hr]]; [left|right].
        -- split; [done|]. destruct (E !! nm) as [[[c v'] u']|] eqn:Hn; [|done]. exfalso.
           apply (Hr c v' u'); [|done]. apply (ca_mem _ _ _ _ Hl). by exists nm, v', u'.
        -- split; [done|]. intros Hqs. by apply Hr, (proj2 (proj2 Hs2)), (proj2 (proj2 Hs1)).
    + rel s3 Hs3. exists (Fail EIO), s3. split; [done|]. split; [by do 2 (etrans; [done|])|].
      right. split; [done|]. intros Hqs. by apply Hq, (proj2 (proj2 Hs1)).
Qed.
