(* ===== verification/DirAlloc.v ===== *)
(** * Directories: allocating and freeing blobs

    [FindBlobs] finds a free run of blobs in the first page that has one, adding a
    page if need be, and keeps bitmaps, allocation map and page count in step;
    [FreeBlobs] gives the blobs back. *)

From stdpp Require Import prelude list gmap list_numbers.
From Stdlib Require Import ZArith Lia ZifyBool.
From S2P Require Import Prelude ByteMem Dir DirRep.

#[local] Open Scope Z_scope.
#[local] Open Scope dir_scope.

(** ** Bitmaps *)

Lemma bitmap_byte_div p j : bitmap_byte p j = p * 2048 + 5 + j / 8.
Proof. unfold bitmap_byte. by rewrite Z.shiftr_div_pow2 by lia. Qed.

Lemma bit_index j : Z.land j 7 = j mod 8.
Proof. change 7 with (Z.ones 3). by rewrite Z.land_ones by lia. Qed.

Lemma bitmap_byte_inj p j p' j' :
  0 <= j < 64 -> 0 <= j' < 64 -> bitmap_byte p j = bitmap_byte p' j' -> p = p' /\ j / 8 = j' / 8.
Proof. rewrite !bitmap_byte_div. mlia. Qed.

Lemma upd_at d a v : upd d a [v] a = v.
Proof.
  pose proof (upd_in d a [v] 0) as E. change (Z.of_nat 0) with 0 in E.
  rewrite Z.add_0_r in E. apply E. cbn. lia.
Qed.

Lemma testbit_u8 z i : 0 <= i < 8 -> Z.testbit (u8 z) i = Z.testbit z i.
Proof. intros Hi. unfold u8. by rewrite Z.mod_pow2_bits_low by lia. Qed.

Lemma mod8_range j : 0 <= j mod 8 < 8.
Proof. apply Z.mod_pos_bound. lia. Qed.

(** A bitmap byte changed by [f], which changes one bit. *)
Lemma change_bit d p j f b :
  0 <= j < 64 ->
  (forall c i, 0 <= i < 8 -> Z.testbit (f c) i = if i =? j mod 8 then b else Z.testbit c i) ->
  forall p' j', 0 <= j' < 64 ->
  bit_set (upd d (bitmap_byte p j) [u8 (f (d (bitmap_byte p j)))]) p' j'
  = if (p' =? p) && (j' =? j) then b else bit_set d p' j'.
Proof.
  intros Hj Hf p' j' Hj'. unfold bit_set. rewrite bit_index.
  destruct (Z.eq_dec (bitmap_byte p' j') (bitmap_byte p j)) as [E|E].
  - rewrite E, upd_at, testbit_u8, Hf by apply mod8_range.
    apply bitmap_byte_inj in E as [-> E]; [|done|done].
    replace (j' =? j) with (j' mod 8 =? j mod 8) by mlia. by destruct (_ =? _); rewrite Z.eqb_refl.
  - rewrite upd_out by (cbn; lia). destruct (_ && _) eqn:E2; [|done].
    exfalso. apply E. by replace p' with p by lia; replace j' with j by lia.
Qed.

Lemma lor_bit c k i : 0 <= k -> 0 <= i < 8 ->
  Z.testbit (Z.lor c (Z.shiftl 1 k)) i = if i =? k then true else Z.testbit c i.
Proof.
  intros Hk Hi. rewrite Z.lor_spec, Z.shiftl_1_l, Z.pow2_bits_eqb by done.
  rewrite (Z.eqb_sym k i). destruct (i =? k); [apply orb_true_r|apply orb_false_r].
Qed.

Lemma land_bit c k i : 0 <= k -> 0 <= i < 8 ->
  Z.testbit (Z.land c (Z.lnot (Z.shiftl 1 k))) i = if i =? k then false else Z.testbit c i.
Proof.
  intros Hk Hi. rewrite Z.land_spec, Z.lnot_spec, Z.shiftl_1_l, Z.pow2_bits_eqb by lia.
  rewrite (Z.eqb_sym k i). destruct (i =? k); [apply andb_false_r|apply andb_true_r].
Qed.

(** What the loops on bits leave behind. *)
Record bits_changed (b : bool) (n : nat) (p j : Z) (s s' : dirf) : Prop := {
  bc_env : present s' = present s /\ (quiet s -> quiet s');
  bc_out : forall x, x < p * 2048 + 5 \/ p * 2048 + 13 <= x -> cells s' x = cells s x;
  bc_u8 : (forall x, is_u8 (cells s x)) -> forall x, is_u8 (cells s' x);
  bc_bits : forall p' j', 0 <= j' < 64 -> bit_set (cells s') p' j'
    = if (p' =? p) && (j <=? j') && (j' <? j + Z.of_nat n) then b else bit_set (cells s) p' j'
}.

Lemma bits_step b p j v s f :
  0 <= j < 64 ->
  (forall c i, 0 <= i < 8 -> Z.testbit (f c) i = if i =? j mod 8 then b else Z.testbit c i) ->
  v = u8 (f (cells s (bitmap_byte p j))) ->
  bits_changed b 1 p j s (snd (put (bitmap_byte p j) [v] s)).
Proof.
  intros Hj Hf ->. split; cbn [put snd cells present].
  - done.
  - intros x Hx. rewrite bitmap_byte_div. apply upd_out. cbn. mlia.
  - intros Hu x. apply upd_u8; [done|]. constructor; [apply u8_range|constructor].
  - intros p' j' Hj'. rewrite (change_bit _ _ _ f b) by done.
    replace ((p' =? p) && (j <=? j') && (j' <? j + Z.of_nat 1)) with ((p' =? p) && (j' =? j)) by lia.
    done.
Qed.

Lemma bits_trans b n m p j s1 s2 s3 :
  bits_changed b n p j s1 s2 -> bits_changed b m p (j + Z.of_nat n) s2 s3 ->
  bits_changed b (n + m) p j s1 s3.
Proof.
  intros [[A1 A2] A3 A4 A5] [[B1 B2] B3 B4 B5]. split.
  - split; [congruence|auto].
  - intros x Hx. by rewrite B3, A3.
  - auto.
  - intros p' j' Hj'. rewrite B5, A5 by done.
    destruct (p' =? p); cbn [andb]; [|done].
    destruct (j + Z.of_nat n <=? j') eqn:E1, (j' <? j + Z.of_nat n + Z.of_nat m) eqn:E2,
      (j <=? j') eqn:E3, (j' <? j + Z.of_nat n) eqn:E4, (j' <? j + Z.of_nat (n + m)) eqn:E5;
      cbn [andb]; done || lia.
Qed.

Lemma bits_nil b p j s : bits_changed b 0 p j s s.
Proof.
  split; [done|done|done|]. intros p' j' _.
  destruct (_ && _) eqn:E; [|done]. lia.
Qed.

Lemma set_bits_ok n p j s :
  0 <= j -> j + Z.of_nat n <= 64 ->
  exists s', set_bits n p j s = (Ret tt, s') /\ bits_changed true n p j s s'.
Proof.
  revert j s. induction n as [|n IH]; intros j s Hj Hn; cbn [set_bits].
  - exists s. split; [done|apply bits_nil].
  - rewrite bind_read.
    pose proof (bits_step true p j _ s (fun c => Z.lor c (Z.shiftl 1 (Z.land j 7)))
                  ltac:(lia) ltac:(intros c i Hi; rewrite bit_index; apply lor_bit; [apply mod8_range|done])
                  eq_refl) as H1.
    destruct (IH (j + 1) (snd (put (bitmap_byte p j)
      [u8 (Z.lor (cells s (bitmap_byte p j)) (Z.shiftl 1 (Z.land j 7)))] s)))
      as (s' & E & H2); [lia|lia|].
    exists s'. split; [exact E|]. apply (bits_trans true 1 n p j s _ s' H1 H2).
Qed.

Lemma clear_bits_ok n p j s :
  0 <= j -> j + Z.of_nat n <= 64 ->
  exists s', clear_bits n p j s = (Ret tt, s') /\ bits_changed false n p j s s'.
Proof.
  revert j s. induction n as [|n IH]; intros j s Hj Hn; cbn [clear_bits].
  - exists s. split; [done|apply bits_nil].
  - rewrite bind_read.
    pose proof (bits_step false p j _ s (fun c => Z.land c (Z.lnot (Z.shiftl 1 (Z.land j 7))))
                  ltac:(lia) ltac:(intros c i Hi; rewrite bit_index; apply land_bit; [apply mod8_range|done])
                  eq_refl) as H1.
    destruct (IH (j + 1) (snd (put (bitmap_byte p j)
      [u8 (Z.land (cells s (bitmap_byte p j)) (Z.lnot (Z.shiftl 1 (Z.land j 7))))] s)))
      as (s' & E & H2); [lia|lia|].
    exists s'. split; [exact E|]. apply (bits_trans false 1 n p j s _ s' H1 H2).
Qed.

(** ** What a change leaves alone *)

Lemma entry_frame d d' nm b v u :
  entry_at d nm b v u ->
  (forall x, 32 * b <= x < 32 * (b + nblobs_of nm) -> x < 32 * b + 2 \/ 32 * b + 4 <= x -> d' x = d x) ->
  entry_at d' nm b v u.
Proof.
  intros [H1 H2 H3 H4] Hx. pose proof (nblobs_fits nm). pose proof (nblobs_div nm).
  split; [rewrite <- H1|rewrite <- H2|rewrite <- H3|rewrite <- H4].
  - apply bytes_ext. intros x Hxx. apply Hx; dlia.
  - apply word_ext. intros x Hxx. apply Hx; dmlia.
  - apply word_ext. intros x Hxx. apply Hx; dmlia.
  - apply Hx; dmlia.
Qed.

Lemma chain_at_frame E d d' h l :
  chain_at E d h l -> half d' (bucket h) = half d (bucket h) ->
  (forall b, b ∈ l -> link_of d' b = link_of d b) -> chain_at E d' h l.
Proof.
  intros [H1 H2 H3] Hh Hl. split; [|done|done]. rewrite Hh.
  apply (chain_ext (link_of d)); [|done]. intros b Hb. by rewrite Hl.
Qed.

(** The addresses of the blobs of entries. *)
Lemma entry_blob E C Y P d nm b v u k :
  dir_mem E C Y P d -> E !! nm = Some (b, v, u) -> b <= k < b + nblobs_of nm ->
  k ∈ C /\ k < 64 * P /\ ~ reserved k /\ 13 <= k.
Proof.
  intros Hm He Hk. destruct (dm_blobs _ _ _ _ _ Hm _ _ _ _ He) as [_ Hc].
  assert (Hkc : k ∈ C) by (apply Hc, elem_blobs; lia).
  destruct (dm_range _ _ _ _ _ Hm k) as [H1 H2]; [by apply elem_of_union_l|].
  repeat split; [done|done|done|]. unfold reserved in H2. lia.
Qed.

Lemma name_blobs E C Y P d nm b v u :
  dir_mem E C Y P d -> E !! nm = Some (b, v, u) -> 1 <= nblobs_of nm <= 63.
Proof. intros Hm He. apply nblobs_range. by apply (dm_name _ _ _ _ _ Hm _ _ _ _ He). Qed.

(** [x] is the address of a byte of a header. *)
Definition in_header (P x : Z) : Prop := x / 32 < 13 \/ x / 32 mod 64 = 0 \/ 2048 * P <= x.

(** Changes of headers do not affect the entries. *)
Lemma header_frame E C Y P d d' :
  dir_mem E C Y P d ->
  (forall x, ~ in_header P x -> d' x = d x) -> (forall x, 160 <= x < 416 -> d' x = d x) ->
  (forall nm b v u, E !! nm = Some (b, v, u) -> entry_at d' nm b v u)
  /\ (forall h, 0 <= h < 128 -> exists l, chain_at E d' h l).
Proof.
  intros Hm Hx Hh. split.
  - intros nm b v u He. apply (entry_frame d); [by apply (dm_entry _ _ _ _ _ Hm)|].
    intros x Hxx _. apply Hx. unfold in_header.
    destruct (entry_blob _ _ _ _ _ _ _ _ _ (x / 32) Hm He) as (_ & H1 & H2 & H3); [mlia|].
    unfold reserved in H2. mlia.
  - intros h Hhr. destruct (mem_chain _ _ _ _ _ h Hm Hhr) as (l & Hl & _). exists l.
    apply (chain_at_frame _ d); [done| |].
    + unfold bucket. apply half_ext; apply Hh; dlia.
    + intros b Hb%(ca_mem _ _ _ _ Hl). pose proof (on_chain_range _ _ _ _ _ _ _ Hm Hb).
      apply half_ext; apply Hx; unfold in_header; dmlia.
Qed.

(** ** Counting *)

Lemma elem_in_page k i C : k ∈ in_page i C <-> k / 64 = i /\ k ∈ C.
Proof. unfold in_page. set_solver. Qed.

(** The blobs of a page that are not header: at most its capacity. *)
Lemma in_page_le i C :
  0 <= i -> (forall k, k ∈ C -> ~ reserved k) -> Z.of_nat (size (in_page i C)) <= capacity i.
Proof.
  intros Hi Hr. rewrite <- (size_blobs (if i =? 0 then 13 else 64 * i + 1) (capacity i))
    by (unfold capacity; destruct (i =? 0); lia).
  apply inj_le, subseteq_size. intros k [Hk Hkc]%elem_in_page. apply Hr in Hkc.
  apply elem_blobs. unfold reserved in Hkc. unfold capacity. destruct (i =? 0) eqn:E; mlia.
Qed.

Lemma in_page_add i C b n :
  0 <= n -> b / 64 = i -> b mod 64 + n <= 64 -> blobs b n ## C ->
  size (in_page i (C ∪ blobs b n)) = (size (in_page i C) + Z.to_nat n)%nat.
Proof.
  intros Hn Hb Hbn Hd.
  replace (in_page i (C ∪ blobs b n)) with (in_page i C ∪ blobs b n).
  - rewrite size_union; [|intros k [_ Hk]%elem_in_page Hk2; by apply (Hd k)].
    f_equal. pose proof (size_blobs b n Hn). lia.
  - apply leibniz_equiv. intros k. rewrite elem_of_union, !elem_in_page, elem_of_union, !elem_blobs.
    split; [|tauto]. intros [?|Hk]; [tauto|]. split; [mlia|tauto].
Qed.

Lemma in_page_other i C b n :
  b / 64 <> i -> b mod 64 + n <= 64 -> in_page i (C ∪ blobs b n) = in_page i C.
Proof.
  intros Hb Hbn. apply leibniz_equiv. intros k.
  rewrite !elem_in_page, elem_of_union, elem_blobs. split; [|tauto].
  intros [Hk [?|Hk2]]; [done|]. exfalso. apply Hb. rewrite <- Hk. mlia.
Qed.

(** ** Searching a page *)

Lemma run_free_iff n d p j :
  run_free n d p j = true <-> forall k, j <= k < j + Z.of_nat n -> bit_set d p k = false.
Proof.
  revert j. induction n as [|n IH]; intros j; cbn [run_free].
  - split; [lia|done].
  - destruct (bit_set d p j) eqn:Eb.
    + split; [done|]. intros H. rewrite H in Eb by lia. done.
    + rewrite IH. split; intros H k Hk; [|apply H; lia].
      destruct (decide (k = j)) as [->|]; [done|]. apply H. lia.
Qed.

Definition free_run (d : Z -> Z) (p n j : Z) : Prop :=
  0 <= j /\ j + n <= 64 /\ forall k, j <= k < j + n -> bit_set d p k = false.

(** Where the search from [j] ends. *)
Lemma scan_page_ok fuel d p n j failed :
  1 <= n <= 64 -> 0 <= j -> 64 - n < j + Z.of_nat fuel -> j <= 64 - n ->
  (exists j', scan_page fuel d p n j failed = (false, j') /\ free_run d p n j' /\ j <= j'
     /\ forall k, j <= k < j' -> ~ free_run d p n k)
  \/ (exists j', scan_page fuel d p n j failed = (true, j') /\ forall k, j <= k -> ~ free_run d p n k).
Proof.
  intros Hn. revert j failed. induction fuel as [|fuel IH]; intros j failed Hj Hf Hle; [lia|].
  cbn [scan_page]. destruct (EPP - n <? j) eqn:E1; [dlia|].
  destruct (run_free (Z.to_nat n) d p j) eqn:E2.
  - left. exists j. split; [done|]. split; [|split; [done|lia]]. split; [done|]. split; [lia|].
    intros k Hk. apply (proj1 (run_free_iff (Z.to_nat n) d p j) E2). lia.
  - assert (Hnot : ~ free_run d p n j).
    { intros (_ & _ & Hr). rewrite (proj2 (run_free_iff (Z.to_nat n) d p j)) in E2; [done|].
      intros k Hk. apply Hr. lia. }
    destruct (decide (j + 1 <= 64 - n)) as [Hj1|Hj1].
    + destruct (IH (j + 1) true) as [(j' & E & Hr & Hl & Hno)|(j' & E & Hr)]; try lia.
      * left. exists j'. split; [done|]. split; [done|]. split; [lia|]. intros k Hk.
        destruct (decide (k = j)) as [->|]; [done|]. apply Hno. lia.
      * right. exists j'. split; [done|]. intros k Hk.
        destruct (decide (k = j)) as [->|]; [done|]. apply Hr. lia.
    + right. exists (j + 1). split.
      * destruct fuel; cbn [scan_page]; [done|]. by replace (EPP - n <? j + 1) with true by dlia.
      * intros k Hk Hfree. destruct (decide (k = j)) as [->|]; [done|]. destruct Hfree. lia.
Qed.

(** Free blobs of a page are neither header nor in use. *)
Lemma free_run_fresh E C Y P d i n j k :
  dir_mem E C Y P d -> 0 <= i < P -> free_run d i n j -> 64 * i + j <= k < 64 * i + j + n ->
  k / 64 = i /\ ~ reserved k /\ (k ∉ C ∪ Y) /\ k < 64 * P.
Proof.
  intros Hm Hi (Hj & Hjn & Hf) Hk. pose proof (Hf (k - 64 * i) ltac:(lia)) as Hb.
  pose proof (dm_bits _ _ _ _ _ Hm i (k - 64 * i) Hi ltac:(lia)) as Hiff.
  rewrite Hb in Hiff. replace (64 * i + (k - 64 * i)) with k in Hiff by lia.
  split; [mlia|]. split; [|split; [|lia]]; intros Hn; (assert (false = true) by tauto); done.
Qed.

Lemma not_true_iff b (Q : Prop) : (b = true <-> Q) -> ~ Q -> b = false.
Proof. destruct b; tauto. Qed.

Section Alloc.
Context (E : dents) (C Y : gset Z) (P : Z) (d : Z -> Z) (Hm : dir_mem E C Y P d).
Context (i n j : Z) (Hi : 0 <= i < P) (Hn : 1 <= n).

(** Room for a free run. *)
Lemma alloc_room : free_run d i n j -> n <= capacity i - Z.of_nat (size (in_page i C)).
Proof using Hm Hi Hn.
  intros Hf. pose proof Hf as (Hj & Hjn & _).
  pose proof (in_page_le i (C ∪ blobs (64 * i + j) n) ltac:(lia)) as Hle.
  rewrite (in_page_add i C (64 * i + j) n) in Hle; [|lia|mlia|mlia|].
  - cut (Z.of_nat (size (in_page i C) + Z.to_nat n) <= capacity i); [lia|]. apply Hle.
    intros k [Hk|Hk%elem_blobs]%elem_of_union.
    + by apply (dm_range _ _ _ _ _ Hm k), elem_of_union_l.
    + by apply (free_run_fresh _ _ _ _ _ i n j k Hm Hi Hf).
  - intros k Hk%elem_blobs Hc. apply (free_run_fresh _ _ _ _ _ i n j k Hm Hi Hf Hk).
    by apply elem_of_union_l.
Qed.

Lemma alloc_mem d' :
  free_run d i n j -> (forall x, is_u8 (d' x)) ->
  (forall p' j', 0 <= j' < 64 -> bit_set d' p' j'
     = if (p' =? i) && (j <=? j') && (j' <? j + n) then true else bit_set d p' j') ->
  (i < 128 -> d' (o_alloMap + i) = d (o_alloMap + i) - n) ->
  (forall x, x < i * 2048 + 5 \/ i * 2048 + 13 <= x -> x <> o_alloMap + i \/ 128 <= i -> d' x = d x) ->
  dir_mem E (C ∪ blobs (64 * i + j) n) Y P d'.
Proof using Hm Hi Hn.
  intros Hf Hu Hb Ha Hx. pose proof Hf as (Hj & Hjn & _).
  pose proof (fun k => free_run_fresh E C Y P d i n j k Hm Hi Hf) as Hfr.
  destruct (header_frame _ _ _ _ _ d' Hm) as [He Hc].
  { intros x Hxx. unfold in_header in Hxx. apply Hx; dmlia. }
  { intros x Hxx. apply Hx; dmlia. }
  assert (Hmem : forall k, k ∈ C ∪ blobs (64 * i + j) n ∪ Y <-> k ∈ C ∪ Y \/ 64 * i + j <= k < 64 * i + j + n)
    by (intros k; rewrite !elem_of_union, elem_blobs; tauto).
  split.
  - destruct (dm_pages _ _ _ _ _ Hm) as [Hp1 Hp2]. split; [done|]. rewrite <- Hp2.
    apply half_ext; apply Hx; dmlia.
  - done.
  - intros i' Hi'. destruct (Z.eq_dec i' i) as [->|Hne].
    + rewrite Ha by lia. rewrite (dm_alloc _ _ _ _ _ Hm) by done.
      replace (i <? P) with true by lia. rewrite (in_page_add i C (64 * i + j) n); [lia|lia|mlia|mlia|].
      intros k Hk%elem_blobs Hkc. by apply (Hfr k Hk), elem_of_union_l.
    + rewrite Hx by dmlia. rewrite (dm_alloc _ _ _ _ _ Hm) by done.
      by rewrite in_page_other by mlia.
  - intros i' j' Hi' Hj'. rewrite Hb, Hmem by done. pose proof (dm_bits _ _ _ _ _ Hm i' j' Hi' Hj') as Hold.
    destruct (_ && _) eqn:Et; [|rewrite Hold; split; [tauto|intros [?|[?|?]]; try tauto; mlia]].
    split; [|done]. intros _. right. right. mlia.
  - intros k [Hk|Hk]%Hmem; [by apply (dm_range _ _ _ _ _ Hm)|].
    destruct (Hfr k Hk) as (_ & ? & _ & ?). done.
  - apply disjoint_union_l. split; [apply (dm_disj _ _ _ _ _ Hm)|].
    intros k Hk%elem_blobs Hky. by apply (Hfr k Hk), elem_of_union_r.
  - apply (dm_name _ _ _ _ _ Hm).
  - done.
  - intros nm b v u Hn'. destruct (dm_blobs _ _ _ _ _ Hm _ _ _ _ Hn') as [? ?]. split; [done|].
    by apply union_subseteq_l'.
  - apply (dm_apart _ _ _ _ _ Hm).
  - intros h Hh. destruct (Hc h Hh) as (l & [? ? ?]). by exists l.
  - intros i' Hi'. rewrite <- (dm_tag _ _ _ _ _ Hm i' Hi'). apply half_ext; apply Hx; dmlia.
Qed.
End Alloc.

(** ** A new page *)

Lemma in_page_beyond E C Y P d i :
  dir_mem E C Y P d -> P <= i -> size (in_page i C) = 0%nat.
Proof.
  intros Hm Hi. apply size_empty_iff. intros k. rewrite elem_in_page. split; [|set_solver].
  intros [Hk Hc]. destruct (dm_range _ _ _ _ _ Hm k) as [Hr _]; [by apply elem_of_union_l|]. mlia.
Qed.

Lemma add_page_mem E C Y P d d' :
  dir_mem E C Y P d -> P < 1023 -> (forall x, is_u8 (d' x)) ->
  half d' o_pgcount = P + 1 -> half d' (P * AFS_PAGESIZE + o_tag) = 1234 ->
  (forall j, 0 <= j < 64 -> bit_set d' P j = (j =? 0)) ->
  (P < 128 -> d' (o_alloMap + P) = EPP - 1) ->
  (forall x, x < P * 2048 -> 2 <= x -> x <> o_alloMap + P \/ 128 <= P -> d' x = d x) ->
  dir_mem E C Y (P + 1) d'.
Proof.
  intros Hm HP Hu Hpg Htag Hb Ha Hx. pose proof (dm_pages _ _ _ _ _ Hm) as [Hp1 _].
  destruct (header_frame _ _ _ _ _ d' Hm) as [He Hc].
  { intros x Hxx. unfold in_header in Hxx. apply Hx; dmlia. }
  { intros x Hxx. apply Hx; dmlia. }
  split.
  - split; [lia|done].
  - done.
  - intros i Hi. destruct (Z.eq_dec i P) as [->|Hne].
    + rewrite Ha by lia. rewrite (in_page_beyond _ _ _ _ _ P Hm) by lia.
      replace (P <? P + 1) with true by lia. unfold capacity. destruct (P =? 0) eqn:E0; dlia.
    + rewrite Hx by dlia. rewrite (dm_alloc _ _ _ _ _ Hm) by done.
      by replace (i <? P + 1) with (i <? P) by lia.
  - intros i j Hi Hj. destruct (Z.eq_dec i P) as [->|Hne].
    + rewrite Hb by done. split.
      * intros Hj0. left. unfold reserved. right. mlia.
      * intros [Hr|Hk%(dm_range _ _ _ _ _ Hm)]; [unfold reserved in Hr; mlia|lia].
    + rewrite <- (dm_bits _ _ _ _ _ Hm i j) by lia. unfold bit_set.
      rewrite bitmap_byte_div, Hx by dmlia. done.
  - intros k Hk%(dm_range _ _ _ _ _ Hm). destruct Hk. split; [lia|done].
  - apply (dm_disj _ _ _ _ _ Hm).
  - apply (dm_name _ _ _ _ _ Hm).
  - done.
  - apply (dm_blobs _ _ _ _ _ Hm).
  - apply (dm_apart _ _ _ _ _ Hm).
  - intros h Hh. destruct (Hc h Hh) as (l & [? ? ?]). by exists l.
  - intros i Hi. destruct (Z.eq_dec i P) as [->|Hne]; [done|].
    rewrite <- (dm_tag _ _ _ _ _ Hm i) by lia. apply half_ext; apply Hx; dmlia.
Qed.

(** The memory after [AddPage] on a page other than 0. *)
Definition new_page (p : Z) (d : Z -> Z) : Z -> Z :=
  upd (upd (upd (upd (upd d (p * AFS_PAGESIZE) (repeat 0 (Z.to_nat AFS_PAGESIZE)))
    (p * AFS_PAGESIZE + o_tag) (be16 1234)) (p * AFS_PAGESIZE + o_pgcount) (be16 0))
    (p * AFS_PAGESIZE + o_freecount) [EPP - 1]) (p * AFS_PAGESIZE + o_freebitmap) (1 :: repeat 0 7).

Lemma AddPage_ok p s :
  0 < p -> exists s', AddPage p s = (Ret tt, s') /\ cells s' = new_page p (cells s)
    /\ present s' = {[p]} ∪ present s /\ (quiet s -> quiet s').
Proof.
  intros Hp. unfold AddPage. replace (0 <? p) with true by lia. eexists. split; [reflexivity|].
  by split.
Qed.

Lemma new_page_out p d x : x < p * 2048 \/ p * 2048 + 2048 <= x -> new_page p d x = d x.
Proof.
  intros Hx. unfold new_page. dconst. rewrite !upd_out; try done; try (rewrite repeat_length; lia); cbn; lia.
Qed.

Lemma new_page_u8 p d : (forall x, is_u8 (d x)) -> forall x, is_u8 (new_page p d x).
Proof.
  intros Hu. unfold new_page. repeat apply upd_u8; try done.
  - apply Forall_forall. intros y ->%list_elem_of_In%repeat_spec. mlia.
  - repeat constructor; mlia.
  - repeat constructor; mlia.
  - repeat constructor; dmlia.
  - repeat constructor; mlia.
Qed.

Lemma new_page_bits p d j : 0 <= j < 64 -> bit_set (new_page p d) p j = (j =? 0).
Proof.
  intros Hj. unfold bit_set, new_page. rewrite bitmap_byte_div, bit_index. dconst.
  replace (p * 2048 + 5 + j / 8) with (p * 2048 + 5 + Z.of_nat (Z.to_nat (j / 8))) by mlia.
  rewrite upd_in by (cbn; mlia).
  destruct (Z.eq_dec (j / 8) 0) as [E0|E0].
  - rewrite E0. change (Z.to_nat 0) with 0%nat. cbn [nth].
    pose proof (Z.pow2_bits_eqb 0 (j mod 8) ltac:(lia)) as Hb. change (2 ^ 0) with 1 in Hb.
    rewrite Hb. mlia.
  - destruct (Z.to_nat (j / 8)) as [|m] eqn:Em; [mlia|]. cbn [nth].
    rewrite nth_repeat, Z.testbit_0_l. mlia.
Qed.

Lemma new_page_tag p d : half (new_page p d) (p * AFS_PAGESIZE + o_tag) = 1234.
Proof.
  unfold new_page. rewrite !half_upd_out by (cbn [length be16 repeat]; dlia).
  by rewrite half_upd_be16.
Qed.

(** [put] as a step of the memory. *)
Lemma put_step {B} a l (k : unit -> D B) s :
  exists s', bind (put a l) k s = k tt s' /\ cells s' = upd (cells s) a l
    /\ present s' = present s /\ (quiet s -> quiet s').
Proof. by eexists. Qed.

Lemma put_run a l s :
  exists s', put a l s = (Ret tt, s') /\ cells s' = upd (cells s) a l
    /\ present s' = present s /\ (quiet s -> quiet s').
Proof. by eexists. Qed.

Lemma half_new_pgcount p d v :
  0 < p -> is_u16 v -> half (upd (new_page p d) o_pgcount (be16 v)) o_pgcount = v.
Proof. intros Hp Hv. rewrite half_upd_be16. by apply u16_small. Qed.

(** [extend_to i]: page [i] is there afterwards. *)
Definition extended (E : dents) (C Y : gset Z) (P i : Z) (s s' : dirf) : Prop :=
  (i < P /\ same s s')
  \/ (i = P /\ dir_ok E C Y (P + 1) s' /\ (quiet s -> quiet s')
      /\ forall j, 1 <= j < 64 -> bit_set (cells s') i j = false).

Lemma extend_new E C Y P s d' s' :
  dir_ok E C Y P s -> P < 1023 ->
  d' = (if P <? 128 then upd (new_page P (cells s)) (o_alloMap + P) [EPP - 1]
        else new_page P (cells s)) ->
  cells s' = upd d' o_pgcount (be16 (P + 1)) -> present s' = {[P]} ∪ present s ->
  (quiet s -> quiet s') -> extended E C Y P P s s'.
Proof.
  intros [Hm Hpr] HP Hd' Hc Hp Hq. pose proof (dm_pages _ _ _ _ _ Hm) as [Hp1 _].
  pose proof (new_page_u8 P _ (dm_bytes _ _ _ _ _ Hm)) as Hu.
  assert (Hout : forall x, 2 <= x -> x <> o_alloMap + P \/ 128 <= P ->
                 cells s' x = new_page P (cells s) x).
  { intros x Hx Hx2. rewrite Hc, upd_out by (cbn; dlia). subst d'.
    destruct (P <? 128) eqn:E1; [|done]. apply upd_out. cbn. lia. }
  assert (Hbits : forall j, 0 <= j < 64 -> bit_set (cells s') P j = (j =? 0)).
  { intros j Hj. rewrite <- (new_page_bits P (cells s) j Hj). unfold bit_set.
    by rewrite Hout by (rewrite bitmap_byte_div; dmlia). }
  right. split; [done|]. split; [|split; [done|]].
  - split.
    + apply (add_page_mem E C Y P (cells s)); try done.
      * rewrite Hc. apply upd_u8; [|repeat constructor; mlia]. subst d'.
        destruct (P <? 128); [|done]. apply upd_u8; [done|]. repeat constructor; dmlia.
      * rewrite Hc, half_upd_be16. apply u16_small. mlia.
      * rewrite <- (new_page_tag P (cells s)). apply half_ext; apply Hout; dmlia.
      * intros H128. rewrite Hc, upd_out by (cbn; dlia). subst d'.
        replace (P <? 128) with true by lia. apply upd_at.
      * intros x Hx1 Hx2 Hx3. rewrite Hout by done. apply new_page_out. lia.
    + intros p Hpp. rewrite Hp. destruct (Z.eq_dec p P) as [->|]; [by apply elem_of_union_l, elem_of_singleton|].
      apply elem_of_union_r, Hpr. lia.
  - intros j Hj. rewrite Hbits by lia. lia.
Qed.

Lemma alloMap_schar E C Y P d i :
  dir_mem E C Y P d -> 0 <= i < 128 ->
  schar (d (o_alloMap + i)) = d (o_alloMap + i) /\ d (o_alloMap + i) <= 64
  /\ (i < P -> d (o_alloMap + i) < 64).
Proof.
  intros Hm Hi. rewrite (dm_alloc _ _ _ _ _ Hm) by done.
  pose proof (in_page_le i C ltac:(lia)
    (fun k Hk => proj2 (dm_range _ _ _ _ _ Hm k (elem_of_union_l _ _ _ Hk)))).
  unfold schar, capacity in *. destruct (i <? P) eqn:E1, (i =? 0) eqn:E2; dmlia.
Qed.

Lemma extend_ok E C Y P s i :
  dir_ok E C Y P s -> 0 <= i <= P -> i < 1023 ->
  exists s', extend_to i (schar (cells s (o_alloMap + i))) s = (Ret tt, s') /\ extended E C Y P i s s'.
Proof.
  intros Hok Hi H1023. pose proof (proj1 Hok) as Hm. pose proof (dm_pages _ _ _ _ _ Hm) as [HP Hpg].
  unfold extend_to. destruct (MAXPAGES <=? i) eqn:E1.
  - rewrite bind_read, Hpg. replace (P =? 0) with false by lia.
    rewrite (bind_ret _ _ _ _ _ (eq_refl : skip s = (Ret tt, s))).
    destruct (P - 1 <? i) eqn:E2; [|exists s; split; [done|left; split; [lia|done]]].
    assert (i = P) as -> by lia. destruct (AddPage_ok P s ltac:(lia)) as (s1 & A1 & Hc1 & Hp1 & Hq1).
    rewrite (bind_ret _ _ _ _ _ A1). destruct (put_run o_pgcount (be16 (P + 1)) s1) as (s2 & -> & Hc2 & Hp2 & Hq2).
    exists s2. split; [done|]. apply (extend_new _ _ _ _ _ (new_page P (cells s))); try done; [ | | |auto].
    + by replace (P <? 128) with false by dlia.
    + by rewrite Hc2, Hc1.
    + by rewrite Hp2.
  - destruct (alloMap_schar _ _ _ _ _ i Hm ltac:(dlia)) as (-> & Ha1 & Ha2).
    destruct (_ =? EPP) eqn:E2; [|exists s; split; [done|left]].
    2: { split; [|done]. rewrite (dm_alloc _ _ _ _ _ Hm) in E2 by dlia.
         destruct (i <? P) eqn:E3; [lia|dlia]. }
    assert (i = P) as -> by dlia. destruct (AddPage_ok P s ltac:(lia)) as (s1 & A1 & Hc1 & Hp1 & Hq1).
    rewrite (bind_ret _ _ _ _ _ A1).
    destruct (put_run (o_alloMap + P) [EPP - 1] s1) as (s2 & A2 & Hc2 & Hp2 & Hq2).
    rewrite (bind_ret _ _ _ _ _ A2).
    destruct (put_run o_pgcount (be16 (P + 1)) s2) as (s3 & -> & Hc3 & Hp3 & Hq3).
    exists s3. split; [done|]. eapply extend_new; [done|lia|reflexivity| | |auto].
    + rewrite Hc3, Hc2, Hc1. by replace (P <? 128) with true by dlia.
    + by rewrite Hp3, Hp2.
Qed.

(** ** [FindBlobs] *)

(** Blobs [j .. j+n-1] of page [i] are free. *)
Definition fits (C Y : gset Z) (n i j : Z) : Prop :=
  0 <= j /\ j + n <= 64 /\
  forall k, 64 * i + j <= k < 64 * i + j + n -> ~ reserved k /\ k ∉ C ∪ Y.

Lemma free_run_fits E C Y P d i n j :
  dir_mem E C Y P d -> 0 <= i < P -> free_run d i n j <-> fits C Y n i j.
Proof.
  intros Hm Hi. split.
  - intros Hf. pose proof Hf as (? & ? & _). split; [done|]. split; [done|]. intros k Hk.
    by destruct (free_run_fresh _ _ _ _ _ i n j k Hm Hi Hf Hk) as (_ & ? & ? & _).
  - intros (Hj & Hjn & Hf). split; [done|]. split; [done|]. intros k Hk.
    eapply not_true_iff; [apply (dm_bits _ _ _ _ _ Hm); lia|].
    destruct (Hf (64 * i + k) ltac:(lia)). tauto.
Qed.

Definition full (C Y : gset Z) (P n : Z) : Prop :=
  P = 1023 /\ forall i j, 0 <= i < 1023 -> ~ fits C Y n i j.

(** No run of [n] free blobs begins before [b]. *)
Definition first_fit (C Y : gset Z) (n b : Z) : Prop :=
  forall i j, 0 <= i -> fits C Y n i j -> b <= 64 * i + j.

(** What [FindBlobs] does to a directory of [P] pages: it returns the first of [n]
    blobs that were free, the first such run of the directory, or -1. *)
Definition blobs_found (E : dents) (C Y : gset Z) (P n : Z) (s : dirf) (r : dres Z) (s' : dirf) : Prop :=
  (quiet s -> quiet s') /\ exists P', P <= P' <= P + 1 /\
    ((exists i j, r = Ret (j + i * EPP) /\ 0 <= i < P' /\ fits C Y n i j
        /\ first_fit C Y n (64 * i + j) /\ dir_ok E (C ∪ blobs (64 * i + j) n) Y P' s')
     \/ (r = Ret (-1) /\ dir_ok E C Y P' s' /\ (quiet s -> full C Y P n))).

(** The page that [find_page] has decided to use. *)
Lemma take_blobs E C Y P n i j s s1 :
  dir_ok E C Y P s -> same s s1 -> 0 <= i < P -> 1 <= n -> free_run (cells s) i n j ->
  exists s', ((if i <? MAXPAGES
               then put (o_alloMap + i) [u8 (cells s1 (o_alloMap + i) - n)] else skip) ;;
              DRelease 0 true ;; set_bits (Z.to_nat n) i j ;; DRelease i true ;;
              ret (j + i * EPP)) s1 = (Ret (j + i * EPP), s')
    /\ dir_ok E (C ∪ blobs (64 * i + j) n) Y P s' /\ (quiet s -> quiet s').
Proof.
  intros [Hm Hpr] Hs Hi Hn Hf. pose proof (alloc_room _ _ _ _ _ Hm _ _ _ Hi Hn Hf) as Hroom.
  pose proof Hf as (Hj & Hjn & _). pose proof (dm_bytes _ _ _ _ _ Hm) as Hu.
  assert (exists s2, (if i <? MAXPAGES
               then put (o_alloMap + i) [u8 (cells s1 (o_alloMap + i) - n)] else skip) s1 = (Ret tt, s2)
            /\ cells s2 = (if i <? 128 then upd (cells s) (o_alloMap + i) [cells s (o_alloMap + i) - n]
                           else cells s)
            /\ present s2 = present s /\ (quiet s -> quiet s2) /\ (forall x, is_u8 (cells s2 x)))
    as (s2 & A2 & Hc2 & Hp2 & Hq2 & Hu2).
  { destruct Hs as (Hc & Hp & Hq). unfold MAXPAGES. destruct (i <? 128) eqn:E1.
    - eexists. split; [reflexivity|]. cbn [cells present].
      assert (Ha : cells s (o_alloMap + i) = capacity i - Z.of_nat (size (in_page i C)))
        by (rewrite (dm_alloc _ _ _ _ _ Hm) by lia; by replace (i <? P) with true by lia).
      pose proof (Hu (o_alloMap + i)) as Hua. rewrite Hc, u8_small by mlia.
      split_and!; [done|done|exact Hq|]. apply upd_u8; [done|]. repeat constructor; mlia.
    - exists s1. rewrite Hc. split_and!; auto. }
  rewrite (bind_ret _ _ _ _ _ A2). rel s3 Hs3.
  destruct (set_bits_ok (Z.to_nat n) i j s3 Hj ltac:(lia)) as (s4 & A4 & [[Hp4 Hq4] Hx4 Hu4 Hb4]).
  rewrite (bind_ret _ _ _ _ _ A4). rel s5 Hs5. exists s5. split; [done|].
  destruct Hs3 as (Hc3 & Hp3 & Hq3), Hs5 as (Hc5 & Hp5 & Hq5).
  split; [|auto]. split; [|intros p Hpp; rewrite Hp5, Hp4, Hp3, Hp2; by apply Hpr].
  rewrite Hc5. apply (alloc_mem E C Y P (cells s) Hm i n j Hi Hn); [done| | | |].
  - apply Hu4. by rewrite Hc3.
  - intros p' j' Hj'. rewrite Hb4, Hc3 by done. rewrite Z2Nat.id by lia. destruct (_ && _); [done|].
    unfold bit_set. rewrite Hc2. destruct (i <? 128) eqn:E1; [|done].
    destruct (Z.eq_dec (bitmap_byte p' j') (o_alloMap + i)) as [Ee|Ee].
    + rewrite bitmap_byte_div in Ee. exfalso. revert Ee. dmlia.
    + by rewrite upd_out by (cbn; lia).
  - intros H128. rewrite Hx4 by dlia. rewrite Hc3, Hc2. replace (i <? 128) with true by lia. apply upd_at.
  - intros x Hx1 Hx2. rewrite Hx4, Hc3, Hc2 by done.
    destruct (i <? 128) eqn:E1; [|done]. apply upd_out. cbn. lia.
Qed.

Lemma find_page_ok E C Y P n fuel i failed s :
  dir_ok E C Y P s -> 1 <= n <= 63 -> 0 <= i <= P -> Z.of_nat fuel = 1023 - i ->
  (forall i' j, 0 <= i' < i -> ~ fits C Y n i' j) ->
  exists r s', find_page fuel i n failed s = (r, s') /\ blobs_found E C Y P n s r s'.
Proof.
  intros Hok Hn. revert i failed s Hok. induction fuel as [|fuel IH]; intros i failed s Hok Hi Hf Hno;
    pose proof (proj1 Hok) as Hm; pose proof (dm_pages _ _ _ _ _ Hm) as [HP _].
  { cbn [find_page]. rel s1 Hs1. exists (Ret (-1)), s1. split; [done|]. split; [apply Hs1|].
    exists P. split; [lia|]. right. split; [done|]. split; [by eapply same_ok|]. intros _.
    split; [lia|]. intros i' j Hi'. apply Hno. lia. }
  cbn [find_page]. rewrite bind_read. destruct (_ || _) eqn:Etest.
  2: { (* the allocation map says that the page is too full *)
    destruct (alloMap_schar _ _ _ _ _ i Hm ltac:(dlia)) as (Es & Ha1 & Ha2). rewrite Es in Etest.
    assert (Hlt : i < P).
    { rewrite (dm_alloc _ _ _ _ _ Hm) in Etest by dlia. destruct (i <? P) eqn:E1; dlia. }
    apply IH; try done; [lia|lia|]. intros i' j Hi'. destruct (Z.eq_dec i' i) as [->|]; [|apply Hno; lia].
    rewrite <- (free_run_fits _ _ _ _ _ _ _ _ Hm) by lia. intros Hfr.
    apply (alloc_room _ _ _ _ _ Hm) in Hfr; [|lia|lia]. rewrite (dm_alloc _ _ _ _ _ Hm) in Etest by dlia.
    replace (i <? P) with true in Etest by lia. dlia. }
  destruct (extend_ok _ _ _ _ _ i Hok Hi ltac:(lia)) as (s1 & A1 & Hext).
  rewrite (bind_ret _ _ _ _ _ A1).
  assert (exists P1, dir_ok E C Y P1 s1 /\ i < P1 /\ P <= P1 <= P + 1 /\ (quiet s -> quiet s1)
    /\ (P1 <> P -> free_run (cells s1) i n 1)) as (P1 & Hok1 & Hi1 & HP1 & Hq1 & Hnew).
  { destruct Hext as [[Hlt Hs]|(-> & Hok1 & Hq & Hb)].
    - exists P. split; [by eapply same_ok|]. split_and!; [done|lia|lia|apply Hs|lia].
    - exists (P + 1). split_and!; [done|lia|lia|lia|done|]. intros _. split_and!; [lia|lia|].
      intros k Hk. apply Hb. lia. }
  destruct (DRead_cases i s1) as (s2 & Hs2 & [[A2 _]|[A2 Hq2]]); rewrite (bind_try _ _ _ _ _ A2).
  2: { rel s3 Hs3. exists (Ret (-1)), s3. split; [done|]. split; [intros ?; apply Hs3, Hs2; auto|].
       exists P1. split; [done|]. right. split; [done|].
       split; [by eapply same_ok; [|eapply same_ok]|]. intros Hq. exfalso. apply Hq2; [|auto].
       apply Hok1. lia. }
  pose proof (same_ok _ _ _ _ _ _ Hs2 Hok1) as Hok2. pose proof (proj1 Hok2) as Hm2.
  rewrite bind_read. destruct (scan_page_ok 65 (cells s2) i n 0 failed) as
    [(j & -> & Hfr & _ & Hfirst)|(j & -> & Hnf)]; try lia; cbn [negb].
  - destruct (take_blobs E C Y P1 n i j s2 s2 Hok2 ltac:(done)) as (s3 & -> & Hok3 & Hq3); try done; try lia.
    exists (Ret (j + i * EPP)), s3. split; [done|]. split; [intros ?; apply Hq3, Hs2; auto|]. exists P1.
    split; [done|]. left. exists i, j. split; [done|]. split; [lia|].
    split; [apply (free_run_fits _ _ _ _ _ i n j Hm2); [lia|done]|]. split; [|done].
    intros i' j' Hi' Hfit. destruct (Z.lt_total i' i) as [Hlt|[->|Hgt]].
    + exfalso. apply (Hno i' j'); [lia|done].
    + destruct (decide (j <= j')) as [|Hlt]; [lia|exfalso]. apply (Hfirst j'); [destruct Hfit; lia|].
      apply (free_run_fits _ _ _ _ _ i n j' Hm2); [lia|done].
    + destruct Hfit, Hfr as (? & ? & _). lia.
  - assert (P1 = P) as ->.
    { destruct (Z.eq_dec P1 P) as [|Hne]; [done|]. exfalso. apply (Hnf 1 ltac:(lia)).
      rewrite (proj1 Hs2). auto. }
    rel s3 Hs3. destruct (IH (i + 1) true s3) as (r & s4 & A4 & Hq4 & Hr); [by eapply same_ok|lia|lia| |].
    { intros i' k Hi'. destruct (Z.eq_dec i' i) as [->|]; [|apply Hno; lia].
      rewrite <- (free_run_fits _ _ _ _ _ _ _ _ Hm2) by lia. intros Hfr. apply (Hnf k); [|done]. apply Hfr. }
    exists r, s4. split; [done|]. assert (Hq' : quiet s -> quiet s3) by (intros ?; apply Hs3, Hs2; auto).
    split; [auto|]. destruct Hr as (P' & HP' & Hr). exists P'. split; [done|].
    destruct Hr as [Hr|(R1 & R2 & R3)]; [by left|right]. split_and!; auto.
Qed.

Lemma FindBlobs_ok E C Y P n s :
  dir_ok E C Y P s -> 1 <= n <= 63 ->
  exists r s', FindBlobs n s = (r, s') /\ blobs_found E C Y P n s r s'.
Proof.
  intros Hok Hn. unfold FindBlobs. pose proof (dm_pages _ _ _ _ _ (proj1 Hok)) as [HP _].
  destruct (DRead_cases 0 s) as (s1 & Hs1 & [[A1 _]|[A1 Hq1]]); rewrite (bind_try _ _ _ _ _ A1).
  - destruct (find_page_ok E C Y P n (Z.to_nat BIGMAXPAGES) 0 false s1) as (r & s2 & -> & Hq & Hr);
      [by eapply same_ok|done|lia|done|lia|].
    exists r, s2. split; [done|]. destruct Hs1 as (_ & _ & Hqs). split; [auto|].
    destruct Hr as (P' & HP' & Hr). exists P'. split; [done|].
    destruct Hr as [Hr|(R1 & R2 & R3)]; [by left|right]. split_and!; auto.
  - exists (Ret (-1)), s1. split; [done|]. split; [apply Hs1|]. exists P. split; [lia|]. right.
    split; [done|]. split; [by eapply same_ok|]. intros Hq. exfalso. apply Hq1; [|done].
    by apply (present_0 _ _ _ _ _ Hok).
Qed.

(** ** [FreeBlobs] *)

Section Free.
Context (E : dents) (C Y : gset Z) (P : Z) (d : Z -> Z) (Hm : dir_mem E C Y P d).
Context (b n : Z) (Hn : 1 <= n) (Hb : b mod 64 + n <= 64).

(** The allocation map counts the blobs of [b] as free. *)
Lemma uncount_mem d' :
  blobs b n ⊆ C ->
  (forall nm b' v u, E !! nm = Some (b', v, u) -> blobs b' (nblobs_of nm) ## blobs b n) ->
  (b / 64 < 128 -> d' (o_alloMap + b / 64) = d (o_alloMap + b / 64) + n) ->
  (forall x, is_u8 (d' x)) ->
  (forall x, x <> o_alloMap + b / 64 \/ 128 <= b / 64 -> d' x = d x) ->
  dir_mem E (C ∖ blobs b n) (Y ∪ blobs b n) P d'.
Proof using Hm Hn Hb.
  intros Hsub Hap Ha Hu Hx.
  assert (Hbr : 13 <= b /\ b + n <= 64 * P).
  { destruct (dm_range _ _ _ _ _ Hm b) as [? Hr1]; [apply elem_of_union_l, Hsub, elem_blobs; lia|].
    destruct (dm_range _ _ _ _ _ Hm (b + n - 1)) as [? _]; [apply elem_of_union_l, Hsub, elem_blobs; lia|].
    unfold reserved in Hr1. lia. }
  destruct (header_frame _ _ _ _ _ d' Hm) as [He Hc].
  { intros x Hxx. unfold in_header in Hxx. apply Hx. dmlia. }
  { intros x Hxx. apply Hx. dmlia. }
  assert (Hset : C ∖ blobs b n ∪ (Y ∪ blobs b n) = C ∪ Y).
  { apply leibniz_equiv. intros k. rewrite !elem_of_union, elem_of_difference.
    destruct (decide (k ∈ blobs b n)) as [Hk|Hk]; [pose proof (Hsub _ Hk)|]; tauto. }
  assert (HC : C = C ∖ blobs b n ∪ blobs b n).
  { apply leibniz_equiv. intros k. rewrite elem_of_union, elem_of_difference.
    destruct (decide (k ∈ blobs b n)) as [Hk|Hk]; [pose proof (Hsub _ Hk)|]; tauto. }
  assert (HB : blobs b n ## C ∖ blobs b n) by (intros k ? [_ ?]%elem_of_difference; done).
  split; try (apply Hm); try done.
  - destruct (dm_pages _ _ _ _ _ Hm) as [Hp1 Hp2]. split; [done|]. rewrite <- Hp2.
    apply half_ext; apply Hx; dmlia.
  - intros i Hi. destruct (Z.eq_dec i (b / 64)) as [->|Hne].
    + rewrite Ha, (dm_alloc _ _ _ _ _ Hm) by lia. replace (b / 64 <? P) with true by mlia.
      rewrite HC at 1. rewrite (in_page_add (b / 64) (C ∖ blobs b n) b n) by (done || lia). lia.
    + rewrite Hx by lia. rewrite (dm_alloc _ _ _ _ _ Hm) by done. rewrite HC at 1.
      by rewrite in_page_other by (done || lia).
  - intros i j Hi Hj. rewrite Hset, <- (dm_bits _ _ _ _ _ Hm i j Hi Hj). unfold bit_set.
    by rewrite Hx by (rewrite bitmap_byte_div; dmlia).
  - intros k Hk. rewrite Hset in Hk. by apply (dm_range _ _ _ _ _ Hm).
  - apply disjoint_union_r. split; [|by symmetry].
    intros k [Hk _]%elem_of_difference Hy. by apply (dm_disj _ _ _ _ _ Hm k).
  - intros nm b' v u Hnm. destruct (dm_blobs _ _ _ _ _ Hm _ _ _ _ Hnm) as [? Hbs]. split; [done|].
    intros k Hk. apply elem_of_difference. split; [by apply Hbs|]. intros Hk2.
    by apply (Hap _ _ _ _ Hnm k).
  - intros h Hh. destruct (Hc h Hh) as (l & [? ? ?]). by exists l.
  - intros i Hi. rewrite <- (dm_tag _ _ _ _ _ Hm i Hi). apply half_ext; apply Hx; dmlia.
Qed.

(** The bits of blobs that are not counted are cleared. *)
Lemma clear_mem d' :
  blobs b n ⊆ Y -> (forall x, is_u8 (d' x)) ->
  (forall p' j', 0 <= j' < 64 -> bit_set d' p' j'
     = if (p' =? b / 64) && (b mod 64 <=? j') && (j' <? b mod 64 + n) then false else bit_set d p' j') ->
  (forall x, x < b / 64 * 2048 + 5 \/ b / 64 * 2048 + 13 <= x -> d' x = d x) ->
  dir_mem E C (Y ∖ blobs b n) P d'.
Proof using Hm Hn Hb.
  intros Hsub Hu Hbits Hx.
  assert (Hbr : 13 <= b).
  { destruct (dm_range _ _ _ _ _ Hm b) as [? Hr1]; [apply elem_of_union_r, Hsub, elem_blobs; lia|].
    unfold reserved in Hr1. lia. }
  destruct (header_frame _ _ _ _ _ d' Hm) as [He Hc].
  { intros x Hxx. unfold in_header in Hxx. apply Hx. mlia. }
  { intros x Hxx. apply Hx. mlia. }
  split; try (apply Hm); try done.
  - destruct (dm_pages _ _ _ _ _ Hm) as [Hp1 Hp2]. split; [done|]. rewrite <- Hp2.
    apply half_ext; apply Hx; dmlia.
  - intros i Hi. rewrite <- (dm_alloc _ _ _ _ _ Hm) by done. apply Hx. dmlia.
  - intros i j Hi Hj. rewrite Hbits by done. pose proof (dm_bits _ _ _ _ _ Hm i j Hi Hj) as Hold.
    rewrite elem_of_union, elem_of_difference, elem_blobs. rewrite elem_of_union in Hold.
    destruct (_ && _) eqn:Et.
    + split; [done|]. assert (Hr : b <= 64 * i + j < b + n) by mlia.
      destruct (dm_range _ _ _ _ _ Hm (64 * i + j)) as [_ Hres];
        [apply elem_of_union_r, Hsub, elem_blobs; lia|].
      intros [?|[Hk|[_ ?]]]; [done| |tauto]. exfalso. apply (dm_disj _ _ _ _ _ Hm _ Hk), Hsub, elem_blobs. lia.
    + rewrite Hold. assert (~ (b <= 64 * i + j < b + n)) by mlia. tauto.
  - intros k Hk. apply (dm_range _ _ _ _ _ Hm). rewrite elem_of_union, elem_of_difference in *. tauto.
  - intros k Hk [Hy _]%elem_of_difference. by apply (dm_disj _ _ _ _ _ Hm k).
  - intros h Hh. destruct (Hc h Hh) as (l & [? ? ?]). by exists l.
  - intros i Hi. rewrite <- (dm_tag _ _ _ _ _ Hm i Hi). apply half_ext; apply Hx; dmlia.
Qed.
End Free.

(** What freeing the blobs [B] does: with I/O errors they can stay in use. *)
Definition freed (B C Y C' Y' : gset Z) (errs : Prop) : Prop :=
  (C' = C ∖ B /\ Y' = Y) \/ (errs /\ ((C' = C /\ Y' = Y) \/ (C' = C ∖ B /\ Y' = Y ∪ B))).

Lemma FreeBlobs_ok E C Y P b n s :
  dir_ok E C Y P s -> 1 <= n -> b mod 64 + n <= 64 -> blobs b n ⊆ C ->
  (forall nm b' v u, E !! nm = Some (b', v, u) -> blobs b' (nblobs_of nm) ## blobs b n) ->
  exists s' C' Y', FreeBlobs b n s = (Ret tt, s') /\ dir_ok E C' Y' P s' /\ (quiet s -> quiet s')
    /\ freed (blobs b n) C Y C' Y' (~ quiet s).
Proof.
  intros Hok Hn Hb Hsub Hap. pose proof (proj1 Hok) as Hm. unfold FreeBlobs.
  assert (Hbr : 13 <= b < 64 * P).
  { destruct (dm_range _ _ _ _ _ Hm b) as [? Hr1]; [apply elem_of_union_l, Hsub, elem_blobs; lia|].
    unfold reserved in Hr1. lia. }
  replace (b - EPP * (b / EPP)) with (b mod 64) by dmlia. change (b / EPP) with (b / 64).
  destruct (DRead_cases 0 s) as (s1 & Hs1 & [[A1 _]|[A1 Hq1]]); rewrite (bind_try _ _ _ _ _ A1).
  2: { exists s1, C, Y. split; [done|]. split; [by eapply same_ok|]. split; [apply Hs1|]. right.
       split; [|by left]. by apply Hq1, (present_0 _ _ _ _ _ Hok). }
  set (prog := if b / 64 <? MAXPAGES then _ else _).
  assert (exists s2, prog s1 = (Ret tt, s2) /\ dir_ok E (C ∖ blobs b n) (Y ∪ blobs b n) P s2
            /\ (quiet s -> quiet s2)) as (s2 & A2 & Hok2 & Hq2).
  { subst prog. destruct Hs1 as (Hc1 & Hp1 & Hq1). unfold MAXPAGES. destruct (b / 64 <? 128) eqn:E1.
    - rewrite bind_read. destruct (put_run (o_alloMap + b / 64) [u8 (cells s1 (o_alloMap + b / 64) + n)] s1)
        as (s2 & A2 & Hc2 & Hp2 & Hq2). exists s2. split; [done|]. split; [|auto].
      split; [|intros p Hp; rewrite Hp2, Hp1; by apply (proj2 Hok)].
      pose proof (in_page_le (b / 64) C ltac:(mlia)
        (fun k Hk => proj2 (dm_range _ _ _ _ _ Hm k (elem_of_union_l _ _ _ Hk)))) as Hle.
      pose proof (dm_alloc _ _ _ _ _ Hm (b / 64) ltac:(mlia)) as Ha.
      replace (b / 64 <? P) with true in Ha by mlia.
      apply (uncount_mem E C Y P (cells s) Hm b n Hn Hb); try done; rewrite Hc2, Hc1.
      + intros _. rewrite upd_at, u8_small; [done|]. rewrite Ha. unfold capacity in *.
        destruct (b / 64 =? 0) eqn:E0; mlia.
      + apply upd_u8; [apply Hm|]. repeat constructor; mlia.
      + intros x Hx. apply upd_out. cbn. lia.
    - exists s1. split; [done|]. split; [|auto].
      split; [|intros p Hp; rewrite Hp1; by apply (proj2 Hok)]. rewrite Hc1.
      apply (uncount_mem E C Y P (cells s) Hm b n Hn Hb); try done; [lia|apply Hm]. }
  rewrite (bind_ret _ _ _ _ _ A2). rel s3 Hs3.
  destruct (DRead_cases (b / 64) s3) as (s4 & Hs4 & [[A4 _]|[A4 Hq4]]); rewrite (bind_try _ _ _ _ _ A4).
  2: { exists s4, (C ∖ blobs b n), (Y ∪ blobs b n). split; [done|].
       split; [by eapply same_ok; [|eapply same_ok]|]. split; [intros ?; apply Hs4, Hs3; auto|].
       right. split; [|by right]. intros Hq. apply Hq4; [|by apply Hs3, Hq2].
       destruct Hs3 as (_ & -> & _). apply (proj2 Hok2). mlia. }
  pose proof (same_ok _ _ _ _ _ _ Hs4 (same_ok _ _ _ _ _ _ Hs3 Hok2)) as Hok4.
  destruct (clear_bits_ok (Z.to_nat n) (b / 64) (b mod 64) s4) as (s5 & A5 & [[Hp5 Hq5] Hx5 Hu5 Hb5]);
    [mlia|lia|].
  rewrite (bind_ret _ _ _ _ _ A5). eexists _, (C ∖ blobs b n), ((Y ∪ blobs b n) ∖ blobs b n).
  split; [reflexivity|]. cbn [cells present]. split; [|split].
  - split; [|intros p Hp; cbn [present]; rewrite Hp5; by apply (proj2 Hok4)]. cbn [cells].
    apply (clear_mem E (C ∖ blobs b n) (Y ∪ blobs b n) P (cells s4) (proj1 Hok4) b n Hn Hb); [|apply Hu5, Hok4| |done].
    + apply union_subseteq_r.
    + intros p' j' Hj'. rewrite Hb5 by done. by rewrite Z2Nat.id by lia.
  - intros Hq. apply Hq5, Hs4, Hs3. auto.
  - left. split; [done|]. apply leibniz_equiv. intros k. rewrite elem_of_difference, elem_of_union.
    split; [tauto|]. intros Hy. split; [by left|]. intros Hk%Hsub. by apply (dm_disj _ _ _ _ _ Hm k).
Qed.
