(* ===== verification/DirOps.v ===== *)
(** * Directories: creating and deleting

    What [afs_dir_Create] and [afs_dir_Delete] of dir/dir.c do to the invariant
    [dir_ok], with I/O errors at any point. *)

From stdpp Require Import prelude list gmap list_numbers.
From Stdlib Require Import ZArith Lia ZifyBool.
From S2P Require Import Prelude ByteMem Dir DirRep DirAlloc.

#[local] Open Scope Z_scope.
#[local] Open Scope dir_scope.

(** ** Writing in blobs *)

Definition unowned (E : dents) (B : gset Z) : Prop :=
  forall nm b v u, E !! nm = Some (b, v, u) -> blobs b (nblobs_of nm) ## B.

(** Blobs in use are not headers. *)
Lemma used_range E C Y P d k : dir_mem E C Y P d -> k ∈ C -> 13 <= k < 64 * P /\ k mod 64 <> 0.
Proof.
  intros Hm Hk. destruct (dm_range _ _ _ _ _ Hm k) as [? Hr]; [by apply elem_of_union_l|].
  unfold reserved in Hr. lia.
Qed.

Lemma blobs_in (C : gset Z) b n k : blobs b n ⊆ C -> b <= k < b + n -> k ∈ C.
Proof. intros H Hk. apply H, elem_blobs, Hk. Qed.

(** The parts of the invariant that speak of headers only. *)
Lemma body_change E C Y P d d' b n :
  dir_mem E C Y P d -> 1 <= n -> blobs b n ⊆ C -> b mod 64 + n <= 64 ->
  (forall x, ~ (160 <= x < 416) -> ~ (32 * b <= x < 32 * (b + n)) ->
             (forall h c, on_chain E h c -> ~ (32 * c + 2 <= x < 32 * c + 4)) -> d' x = d x) ->
  half d' o_pgcount = P
  /\ (forall i, 0 <= i < 128 -> d' (o_alloMap + i) = d (o_alloMap + i))
  /\ (forall i j, 0 <= i < P -> 0 <= j < 64 -> bit_set d' i j = bit_set d i j)
  /\ (forall i, 0 <= i < P -> half d' (i * AFS_PAGESIZE + o_tag) = 1234).
Proof.
  intros Hm Hn Hsub Hb Hx.
  pose proof (used_range _ _ _ _ _ b Hm (blobs_in _ _ _ b Hsub ltac:(lia))) as Hbr.
  assert (Hh : forall x, ~ (160 <= x < 416) -> x / 32 < 13 \/ x / 32 mod 64 = 0 -> d' x = d x).
  { intros x H1 H2. apply Hx; [done|mlia|].
    intros h c Hc%(on_chain_range _ _ _ _ _ _ _ Hm). mlia. }
  split_and!.
  - destruct (dm_pages _ _ _ _ _ Hm) as [_ <-]. apply half_ext; apply Hh; dmlia.
  - intros i Hi. apply Hh; dmlia.
  - intros i j Hi Hj. unfold bit_set. by rewrite Hh by (rewrite bitmap_byte_div; dmlia).
  - intros i Hi. rewrite <- (dm_tag _ _ _ _ _ Hm i Hi). apply half_ext; apply Hh; dmlia.
Qed.

(** Writing in blobs that no entry owns changes nothing that counts. *)
Lemma scratch_mem E C Y P d d' b n :
  dir_mem E C Y P d -> 1 <= n -> blobs b n ⊆ C -> b mod 64 + n <= 64 -> unowned E (blobs b n) ->
  (forall x, is_u8 (d' x)) -> (forall x, ~ (32 * b <= x < 32 * (b + n)) -> d' x = d x) ->
  dir_mem E C Y P d'.
Proof.
  intros Hm Hn Hsub Hb Hun Hu Hx.
  pose proof (used_range _ _ _ _ _ b Hm (blobs_in _ _ _ b Hsub ltac:(lia))) as Hbr.
  destruct (body_change E C Y P d d' b n Hm Hn Hsub Hb) as (H1 & H2 & H3 & H4); [auto|].
  split; try (apply Hm); try done.
  - split; [apply Hm|done].
  - intros i Hi. rewrite H2 by done. by apply Hm.
  - intros i j Hi Hj. rewrite H3 by done. by apply Hm.
  - intros nm c v u Hc. apply (entry_frame d); [by apply Hm|]. intros x Hxx _. apply Hx. intros Hxb.
    apply (Hun _ _ _ _ Hc (x / 32)); apply elem_blobs; mlia.
  - intros h Hh. destruct (mem_chain _ _ _ _ _ h Hm Hh) as (l & Hl & _). exists l.
    destruct (chain_at_frame E d d' h l Hl) as [? ? ?]; [| |done].
    + unfold bucket. apply half_ext; apply Hx; dmlia.
    + intros c Hc%(ca_mem _ _ _ _ Hl). destruct Hc as (nm & v & u & He & _).
      pose proof (name_blobs _ _ _ _ _ _ _ _ _ Hm He).
      assert (~ (b <= c < b + n)).
      { intros Hcb. apply (Hun _ _ _ _ He c); apply elem_blobs; lia. }
      apply half_ext; apply Hx; dmlia.
Qed.

(** ** Linking an entry *)

Lemma on_chain_insert E nm k v u h b :
  E !! nm = None ->
  on_chain (<[nm := (k, v, u)]> E) h b <-> (b = k /\ afs_dir_DirHash nm = h) \/ on_chain E h b.
Proof.
  intros Hn. split.
  - intros (nm' & v' & u' & He & Hh). apply lookup_insert_Some in He as [[<- [= <- <- <-]]|[Hne He]];
      [by left|right]. by exists nm', v', u'.
  - intros [[-> Hh]|(nm' & v' & u' & He & Hh)].
    + exists nm, v, u. by rewrite lookup_insert_eq.
    + exists nm', v', u'. rewrite lookup_insert_ne by congruence. done.
Qed.

Record linked (nm : list Z) (k v u : Z) (d d' : Z -> Z) : Prop := {
  lk_entry : entry_at d' nm k v u;
  lk_next : link_of d' k = half d (bucket (afs_dir_DirHash nm));
  lk_head : half d' (bucket (afs_dir_DirHash nm)) = k;
  lk_u8 : forall x, is_u8 (d' x);
  lk_out : forall x, ~ (32 * k <= x < 32 * (k + nblobs_of nm)) ->
    ~ (bucket (afs_dir_DirHash nm) <= x < bucket (afs_dir_DirHash nm) + 2) -> d' x = d x
}.

Lemma bucket_range nm : 160 <= bucket (afs_dir_DirHash nm) <= 414.
Proof. pose proof (hash_range nm). unfold bucket. dlia. Qed.

Lemma link_mem E C Y P d d' nm k v u :
  dir_mem E C Y P d -> name_ok nm -> E !! nm = None -> blobs k (nblobs_of nm) ⊆ C ->
  k mod 64 + nblobs_of nm <= 64 -> unowned E (blobs k (nblobs_of nm)) ->
  linked nm k v u d d' -> dir_mem (<[nm := (k, v, u)]> E) C Y P d'.
Proof.
  intros Hm Hname Hnew Hsub Hk Hun [L1 L2 L3 L4 L5].
  pose proof (nblobs_range nm ltac:(apply Hname)) as Hn. pose proof (bucket_range nm) as Hbk.
  pose proof (used_range _ _ _ _ _ k Hm (blobs_in _ _ _ k Hsub ltac:(lia))) as Hkr.
  destruct (body_change E C Y P d d' k (nblobs_of nm) Hm ltac:(lia) Hsub Hk) as (H1 & H2 & H3 & H4).
  { intros x Hx1 Hx2 _. apply L5; lia. }
  split; try (apply Hm); try done.
  - split; [apply Hm|done].
  - intros i Hi. rewrite H2 by done. by apply Hm.
  - intros i j Hi Hj. rewrite H3 by done. by apply Hm.
  - intros nm' b v' u' [[<- _]|[_ He]]%lookup_insert_Some; [done|by apply (dm_name _ _ _ _ _ Hm _ _ _ _ He)].
  - intros nm' b v' u' [[<- [= <- <- <-]]|[_ He]]%lookup_insert_Some; [done|].
    apply (entry_frame d); [by apply Hm|]. intros x Hx _.
    pose proof (entry_blob _ _ _ _ _ _ _ _ _ (x / 32) Hm He ltac:(mlia)).
    apply L5; [|mlia]. intros Hxk. apply (Hun _ _ _ _ He (x / 32)); apply elem_blobs; mlia.
  - intros nm' b v' u' [[<- [= <- <- <-]]|[_ He]]%lookup_insert_Some; [done|].
    by apply (dm_blobs _ _ _ _ _ Hm _ _ _ _ He).
  - intros nm1 b1 v1 u1 nm2 b2 v2 u2 [[<- [= <- <- <-]]|[Hn1 He1]]%lookup_insert_Some
      [[<- [= <- <- <-]]|[Hn2 He2]]%lookup_insert_Some Hne; [done| | |].
    + symmetry. by apply (Hun _ _ _ _ He2).
    + by apply (Hun _ _ _ _ He1).
    + by apply (dm_apart _ _ _ _ _ Hm _ _ _ _ _ _ _ _ He1 He2).
  - intros h Hh. destruct (mem_chain _ _ _ _ _ h Hm Hh) as (l & Hl & _).
    assert (Hlk : forall c, c ∈ l -> c <> k /\ link_of d' c = link_of d c).
    { intros c (nm' & v' & u' & He & _)%(ca_mem _ _ _ _ Hl).
      pose proof (name_blobs _ _ _ _ _ _ _ _ _ Hm He).
      pose proof (entry_blob _ _ _ _ _ _ _ _ _ c Hm He ltac:(lia)) as (_ & Hc1 & _ & Hc2).
      assert (~ (k <= c < k + nblobs_of nm)).
      { intros Hck. apply (Hun _ _ _ _ He c); apply elem_blobs; lia. }
      split; [lia|]. apply half_ext; apply L5; dmlia. }
    destruct (Z.eq_dec h (afs_dir_DirHash nm)) as [->|Hne].
    + exists (k :: l). split_and!.
      * rewrite L3. apply (chain_cons (link_of d) _ k (half d (bucket (afs_dir_DirHash nm)))); [lia|done| |apply Hl].
        intros c Hc. symmetry. by apply Hlk.
      * constructor; [|apply Hl]. intros Hc. by apply (Hlk k).
      * intros b. rewrite (on_chain_insert _ _ _ _ _ _ _ Hnew), elem_of_cons, (ca_mem _ _ _ _ Hl). tauto.
    + exists l. split_and!.
      * destruct (chain_at_frame E d d' h l Hl) as [? ? ?]; [| |done].
        -- unfold bucket in *. apply half_ext; apply L5; dmlia.
        -- intros c Hc. by apply Hlk.
      * apply Hl.
      * intros b. rewrite (on_chain_insert _ _ _ _ _ _ _ Hnew), (ca_mem _ _ _ _ Hl).
        split; [by right|]. intros [[_ ?]|?]; [congruence|done].
Qed.

(** ** [afs_dir_Create] *)

(** The entry as [afs_dir_Create] fills it in, before it is linked. *)
Definition fill_entry (ep : Z) (nm : list Z) (v u : Z) (d : Z -> Z) : Z -> Z :=
  upd (upd (upd (upd d ep [FFIRST]) (ep + o_vnode) (be32 v)) (ep + o_vunique) (be32 u))
    (ep + o_name) (nm ++ [0]).

Lemma name_u8 nm : name_ok nm -> Forall is_u8 (nm ++ [0]).
Proof.
  intros (_ & Hc & _). apply Forall_app. split; [|repeat constructor; mlia].
  eapply Forall_impl; [exact Hc|]. intros c H. mlia.
Qed.

Lemma fill_u8 ep nm v u d :
  name_ok nm -> (forall x, is_u8 (d x)) -> forall x, is_u8 (fill_entry ep nm v u d x).
Proof.
  intros Hn Hu. unfold fill_entry. repeat apply upd_u8; try done; try apply be32_bytes.
  - repeat constructor; dmlia.
  - by apply name_u8.
Qed.

Lemma fill_out k nm v u d x :
  ~ (32 * k <= x < 32 * (k + nblobs_of nm)) -> fill_entry (32 * k) nm v u d x = d x.
Proof.
  intros Hx. pose proof (nblobs_fits nm). unfold fill_entry.
  rewrite !upd_out; [done| | | |]; rewrite ?length_app, ?be32_length; cbn [length]; dlia.
Qed.

Lemma fill_linked k nm v u d :
  name_ok nm -> (forall x, is_u8 (d x)) -> 13 <= k < 65536 ->
  linked nm k (u32 v) (u32 u) d
    (upd (upd (fill_entry (32 * k) nm v u d) (32 * k + o_next)
            (be16 (half d (bucket (afs_dir_DirHash nm)))))
       (bucket (afs_dir_DirHash nm)) (be16 k)).
Proof.
  intros Hn Hu Hk. pose proof (bucket_range nm) as Hb. set (old := half d _).
  pose proof (nblobs_fits nm) as Hfit. assert (Hlen : length (be16 old) = 2%nat) by done.
  set (d1 := fill_entry (32 * k) nm v u d).
  assert (Hout : forall x, 32 * k + 4 <= x ->
            upd (upd d1 (32 * k + o_next) (be16 old)) (bucket (afs_dir_DirHash nm)) (be16 k) x = d1 x).
  { intros x Hx. rewrite !upd_out by (cbn [length be16]; dlia). done. }
  split.
  - split.
    + rewrite (bytes_ext _ d1) by (intros x Hx; apply Hout; dlia). unfold d1, fill_entry.
      rewrite <- (Z.add_0_r (32 * k + o_name)) at 2. apply (read_bytes_at _ _ [] (nm ++ [0]) []).
      * by rewrite app_nil_r.
      * done.
      * rewrite length_app. cbn. lia.
    + rewrite (word_ext _ d1) by (intros x Hx; apply Hout; dlia). unfold d1, fill_entry.
      rewrite !word_upd_out by (rewrite ?length_app, ?be32_length; dlia). apply word_upd_be32.
    + rewrite (word_ext _ d1) by (intros x Hx; apply Hout; dlia). unfold d1, fill_entry.
      rewrite word_upd_out by (rewrite ?length_app, ?be32_length; dlia). apply word_upd_be32.
    + rewrite !upd_out by (cbn [length be16]; dlia). unfold d1, fill_entry.
      rewrite !upd_out by (rewrite ?length_app, ?be32_length; cbn [length]; dlia). apply upd_at.
  - unfold link_of. rewrite half_upd_out by (cbn [length be16]; dlia). rewrite half_upd_be16.
    apply u16_small, half_u16, Hu.
  - rewrite half_upd_be16. apply u16_small. mlia.
  - apply upd_u8; [apply upd_u8; [by apply fill_u8|]|]; repeat constructor; mlia.
  - intros x H1 H2. rewrite !upd_out by (cbn [length be16]; dlia). by apply fill_out.
Qed.

(** What creating an entry does, in all cases. *)
Definition created (E : dents) (C Y : gset Z) (P : Z) (nm : list Z) (v u : Z) (s : dirf)
    (r : dres unit) (s' : dirf) : Prop :=
  (quiet s -> quiet s') /\ exists P', P <= P' <= P + 1 /\
  match r with
  | Ret _ => E !! nm = None /\ exists k, blobs k (nblobs_of nm) ## C ∪ Y /\ first_fit C Y (nblobs_of nm) k
      /\ dir_ok (<[nm := (k, u32 v, u32 u)]> E) (C ∪ blobs k (nblobs_of nm)) Y P' s'
  | Fail code =>
      (exists C', C ⊆ C' /\ dir_ok E C' Y P' s' /\ (quiet s -> C' = C /\ P' = P))
      /\ ((code = EEXIST /\ is_Some (E !! nm))
          \/ (E !! nm = None /\ code = EFBIG /\ (quiet s -> full C Y P (nblobs_of nm)))
          \/ (code = EIO /\ ~ quiet s))
  end.

Lemma fits_fresh C Y n i j : fits C Y n i j -> blobs (64 * i + j) n ## C ∪ Y.
Proof. intros (_ & _ & Hf) k Hk%elem_blobs Hc. by apply (Hf k). Qed.

Lemma fill_run {B} ep nm v u (K : D B) s :
  exists s', (put ep [FFIRST] ;; put (ep + o_vnode) (be32 v) ;; put (ep + o_vunique) (be32 u) ;;
    put (ep + o_name) (nm ++ [0]) ;; K) s = K s'
    /\ cells s' = fill_entry ep nm v u (cells s) /\ present s' = present s /\ (quiet s -> quiet s').
Proof. by eexists. Qed.

Lemma GetBlob_ok k s :
  exists s', same s s' /\
    (afs_dir_GetBlob k s = (Ret (32 * k), s')
     \/ (afs_dir_GetBlob k s = (Fail EIO, s') /\ (k / 64 ∈ present s -> ~ quiet s))).
Proof.
  unfold afs_dir_GetBlob, GetBlobWithLimit.
  destruct (DRead_cases (Z.shiftr k 6) s) as (s1 & Hs1 & [[A1 _]|[A1 Hq1]]); exists s1; (split; [done|]).
  - left. unfold bind. rewrite A1. cbn [ret fst]. by rewrite blob_addr.
  - right. unfold bind. rewrite A1. by rewrite blob_page in Hq1.
Qed.

(** The part after [FindBlobs]. *)
Definition create_at (nm : list Z) (v u firstelt : Z) : D unit :=
  do r <- try (afs_dir_GetBlob firstelt);
  match r with
  | Fail _ => fail EIO
  | Ret ep =>
      put ep [FFIRST] ;;
      put (ep + o_vnode) (be32 v) ;;
      put (ep + o_vunique) (be32 u) ;;
      put (ep + o_name) (nm ++ [0]) ;;
      do r <- try (DRead 0);
      match r with
      | Fail _ => DRelease (page_of ep) true ;; fail EIO
      | Ret _ =>
          let slot := o_hashTable + 2 * afs_dir_DirHash nm in
          do old <- get (fun d => half d slot);
          put (ep + o_next) (be16 old) ;;
          put slot (be16 firstelt) ;;
          DRelease 0 true ;;
          DRelease (page_of ep) true
      end
  end.

Lemma create_at_ok E C Y P nm v u k s :
  dir_ok E C Y P s -> name_ok nm -> E !! nm = None -> blobs k (nblobs_of nm) ⊆ C ->
  k mod 64 + nblobs_of nm <= 64 -> unowned E (blobs k (nblobs_of nm)) ->
  exists r s', create_at nm v u k s = (r, s') /\ (quiet s -> quiet s') /\
    match r with
    | Ret _ => dir_ok (<[nm := (k, u32 v, u32 u)]> E) C Y P s'
    | Fail code => code = EIO /\ ~ quiet s /\ dir_ok E C Y P s'
    end.
Proof.
  intros Hok Hn Hnew Hsub Hk Hun. pose proof (proj1 Hok) as Hm.
  pose proof (nblobs_range nm ltac:(apply Hn)) as Hnb. pose proof (dm_pages _ _ _ _ _ Hm) as [HP _].
  pose proof (used_range _ _ _ _ _ k Hm (blobs_in _ _ _ k Hsub ltac:(lia))) as Hkr.
  unfold create_at. destruct (GetBlob_ok k s) as (s1 & Hs1 & [A1|[A1 Hq1]]);
    rewrite (bind_try _ _ _ _ _ A1).
  2: { exists (Fail EIO), s1. split; [done|]. split; [apply Hs1|]. split; [done|].
       split; [|by eapply same_ok]. apply Hq1, (proj2 Hok). mlia. }
  match goal with |- context [put (32 * k + o_name) _ ;; ?K] =>
    destruct (fill_run (32 * k) nm v u K s1) as (s2 & -> & Hc2 & Hp2 & Hq2) end.
  rewrite (proj1 Hs1) in Hc2.
  assert (Hok2 : dir_ok E C Y P s2).
  { split; [|intros p Hp; rewrite Hp2, (proj1 (proj2 Hs1)); by apply (proj2 Hok)]. rewrite Hc2.
    apply (scratch_mem _ _ _ _ (cells s) _ k (nblobs_of nm)); try done; [lia| |].
    - apply fill_u8; [done|apply Hm].
    - intros x Hx. by apply fill_out. }
  destruct (DRead_cases 0 s2) as (s3 & Hs3 & [[A3 _]|[A3 Hq3]]); rewrite (bind_try _ _ _ _ _ A3).
  2: { rel s4 Hs4. exists (Fail EIO), s4. split; [done|].
       split; [intros ?; apply Hs4, Hs3, Hq2, Hs1; done|]. split; [done|].
       split; [|by eapply same_ok; [|eapply same_ok]].
       intros Hq. apply Hq3; [by apply (present_0 _ _ _ _ _ Hok2)|]. by apply Hq2, Hs1. }
  rewrite bind_read. do 2 eexists. split; [reflexivity|]. split; [intros Hq; apply Hs3, Hq2, Hs1, Hq|].
  split; cbn [cells present].
  - destruct Hs3 as (-> & _). rewrite Hc2.
    replace (half (fill_entry (32 * k) nm v u (cells s)) (o_hashTable + 2 * afs_dir_DirHash nm))
      with (half (cells s) (bucket (afs_dir_DirHash nm))).
    + apply (link_mem E C Y P (cells s)); try done. apply fill_linked; [done|apply Hm|lia].
    + pose proof (bucket_range nm). fold (bucket (afs_dir_DirHash nm)).
      apply half_ext; symmetry; apply fill_out; dlia.
  - intros p Hp. destruct Hs3 as (_ & -> & _). by apply (proj2 Hok2).
Qed.

Lemma Create_ok E C Y P nm v u s :
  dir_ok E C Y P s -> name_ok nm ->
  exists r s', afs_dir_Create nm v u s = (r, s') /\ created E C Y P nm v u s r s'.
Proof.
  intros Hok Hn. unfold afs_dir_Create. rewrite bool_decide_false by apply Hn.
  pose proof (nblobs_range nm ltac:(apply Hn)) as Hnb.
  destruct (FindItem_ok _ _ _ _ nm s Hok) as (r & s1 & A1 & Hs1 & Hr). rewrite (bind_try _ _ _ _ _ A1).
  pose proof (same_ok _ _ _ _ _ _ Hs1 Hok) as Hok1. destruct Hs1 as (Hc1 & Hp1 & Hq1).
  destruct r as [[prev item]|code].
  { destruct Hr as (l1 & b & l2 & v' & u' & He & _). rel s2 Hs2. rel s3 Hs3.
    exists (Fail EEXIST), s3. split; [done|]. split; [intros ?; apply Hs3, Hs2; auto|].
    exists P. split; [lia|]. split; [|left; by rewrite He]. exists C. split; [done|].
    split; [|done]. by eapply same_ok; [|eapply same_ok]. }
  destruct Hr as [[-> He]|[-> Hq]].
  2: { exists (Fail EIO), s1. split; [done|]. split; [done|]. exists P. split; [lia|].
       split; [by exists C|]. by right; right. }
  change (negb (ENOENT =? ENOENT)) with false. cbn iota.
  destruct (FindBlobs_ok _ _ _ _ _ _ Hok1 Hnb) as (r & s2 & A2 & Hq2 & P2 & HP2 & Hr). fold (nblobs_of nm).
  destruct Hr as [(i & j & -> & Hi & Hf & Hfirst & Hok2)|(-> & Hok2 & Hfull)]; rewrite (bind_ret _ _ _ _ _ A2).
  2: { exists (Fail EFBIG), s2. split; [done|]. split; [auto|]. exists P2. split; [done|].
       split; [|right; left; auto]. exists C. split; [done|]. split; [done|]. intros Hq.
       split; [done|]. destruct (Hfull (Hq1 Hq)) as [? _]. pose proof (dm_pages _ _ _ _ _ (proj1 Hok2)). lia. }
  pose proof Hf as (Hj & Hjn & _). destruct (_ <? 0) eqn:Eneg; [dlia|].
  replace (j + i * EPP) with (64 * i + j) in * by dlia. fold (create_at nm v u (64 * i + j)).
  pose proof (fits_fresh _ _ _ _ _ Hf) as Hfresh.
  destruct (create_at_ok E (C ∪ blobs (64 * i + j) (nblobs_of nm)) Y P2 nm v u (64 * i + j) s2)
    as (r & s3 & A3 & Hq3 & Hr); try done; [apply union_subseteq_r|mlia| |].
  { intros nm' b v' u' He' x Hx Hx2. apply (Hfresh x Hx2), elem_of_union_l.
    by apply (dm_blobs _ _ _ _ _ (proj1 Hok) _ _ _ _ He'). }
  exists r, s3. split; [done|]. split; [auto|]. exists P2. split; [done|]. destruct r as [[]|code].
  - split; [done|]. by exists (64 * i + j).
  - destruct Hr as (-> & Hq & Hok3). split.
    + eexists. split; [apply union_subseteq_l|]. split; [exact Hok3|]. intros Hqs. exfalso. auto.
    + right. right. split; [done|]. auto.
Qed.

(** ** Unlinking an entry *)

Lemma chain_entries E d h l1 b l2 c :
  chain_at E d h (l1 ++ b :: l2) -> c ∈ l1 \/ c = b \/ c ∈ l2 -> on_chain E h c.
Proof.
  intros Hl Hc. apply (ca_mem _ _ _ _ Hl). rewrite elem_of_app, elem_of_cons. tauto.
Qed.

Lemma on_chain_delete E C Y P d nm b v u h c :
  dir_mem E C Y P d -> E !! nm = Some (b, v, u) ->
  on_chain (delete nm E) h c <-> on_chain E h c /\ c <> b.
Proof.
  intros Hm He. split.
  - intros (nm' & v' & u' & [Hne He']%lookup_delete_Some & Hh).
    split; [by exists nm', v', u'|]. intros ->. apply Hne.
    by apply (blob_name_unique _ _ _ _ _ _ _ _ _ _ _ _ Hm He He').
  - intros [(nm' & v' & u' & He' & Hh) Hne]. exists nm', v', u'. split; [|done].
    rewrite lookup_delete_ne; [done|]. intros <-. congruence.
Qed.

(** The link that is changed lies in a bucket or in another entry of the chain. *)
Lemma link_addr_cases E C Y P d h l1 b l2 :
  dir_mem E C Y P d -> chain_at E d h (l1 ++ b :: l2) ->
  (last l1 = None /\ link_addr h l1 = bucket h)
  \/ (exists p, last l1 = Some p /\ p ∈ l1 /\ p <> b /\ link_addr h l1 = 32 * p + 2 /\ on_chain E h p).
Proof.
  intros Hm Hl. unfold link_addr. destruct (last l1) as [p|] eqn:El; [right|by left].
  assert (Hp : p ∈ l1) by by apply last_Some_elem_of. exists p. split_and!; try done.
  - intros ->. pose proof (ca_nodup _ _ _ _ Hl) as Hnd. apply NoDup_app in Hnd as (_ & Hnd & _).
    apply (Hnd b Hp). left.
  - apply (chain_entries _ _ _ _ _ _ _ Hl). by left.
Qed.

Record unlinked (h b n : Z) (l1 : list Z) (d d' : Z -> Z) : Prop := {
  ul_link : half d' (link_addr h l1) = link_of d b;
  ul_u8 : forall x, is_u8 (d' x);
  ul_out : forall x, ~ (32 * b <= x < 32 * (b + n)) ->
    ~ (link_addr h l1 <= x < link_addr h l1 + 2) -> d' x = d x
}.

(** Links of other entries, on whatever chain. *)
Lemma unlinked_links E C Y P d d' nm b v u l1 l2 h' c :
  dir_mem E C Y P d -> E !! nm = Some (b, v, u) ->
  chain_at E d (afs_dir_DirHash nm) (l1 ++ b :: l2) ->
  unlinked (afs_dir_DirHash nm) b (nblobs_of nm) l1 d d' ->
  on_chain E h' c -> c <> b -> last l1 <> Some c -> link_of d' c = link_of d c.
Proof.
  intros Hm He Hl [_ _ U3] Hc Hcb Hlast. pose proof (bucket_range nm) as Hbk.
  pose proof (on_chain_range _ _ _ _ _ _ _ Hm Hc) as Hcr. destruct Hc as (nm' & v' & u' & He' & _).
  pose proof (name_blobs _ _ _ _ _ _ _ _ _ Hm He'). pose proof (name_blobs _ _ _ _ _ _ _ _ _ Hm He).
  assert (~ (b <= c < b + nblobs_of nm)).
  { intros Hin. assert (nm <> nm') as Hne by congruence.
    apply (dm_apart _ _ _ _ _ Hm _ _ _ _ _ _ _ _ He He' Hne c); apply elem_blobs; lia. }
  destruct (link_addr_cases _ _ _ _ _ _ _ _ _ Hm Hl) as [[_ Ea]|(p & El & _ & _ & Ea & Hp)];
    rewrite Ea in U3; apply half_ext; apply U3; try dlia.
  all: pose proof (on_chain_range _ _ _ _ _ _ _ Hm Hp); assert (p <> c) by congruence; dlia.
Qed.

(** The chain without the entry. *)
Lemma unlinked_chain E C Y P d d' nm b v u l1 l2 :
  dir_mem E C Y P d -> E !! nm = Some (b, v, u) ->
  chain_at E d (afs_dir_DirHash nm) (l1 ++ b :: l2) ->
  unlinked (afs_dir_DirHash nm) b (nblobs_of nm) l1 d d' ->
  chain_at (delete nm E) d' (afs_dir_DirHash nm) (l1 ++ l2).
Proof.
  intros Hm He Hl Hu. set (h := afs_dir_DirHash nm) in *. pose proof (ca_nodup _ _ _ _ Hl) as Hnd.
  assert (Hnd2 : NoDup (l1 ++ l2) /\ b ∉ l1 ++ l2).
  { apply NoDup_app in Hnd as (N1 & N2 & N3). apply NoDup_cons in N3 as [N4 N5]. split.
    - apply NoDup_app. split_and!; [done| |done]. intros x Hx Hx2. apply (N2 x Hx). by right.
    - rewrite elem_of_app. intros [Hb|Hb]; [|done]. apply (N2 b Hb). left. }
  split; [|apply Hnd2|].
  - apply (chain_remove (link_of d) _ (half d (bucket h)) _ _ b); [apply Hl|done|].
    pose proof (link_addr_cases _ _ _ _ _ _ _ _ _ Hm Hl) as Hcases.
    assert (Hoth : forall c, c ∈ l1 ++ l2 -> last l1 <> Some c -> link_of d' c = link_of d c).
    { intros c Hc Hlast. apply (unlinked_links E C Y P d d' nm b v u l1 l2 h); try done.
      - apply (chain_entries _ _ _ _ _ _ _ Hl). apply elem_of_app in Hc. tauto.
      - intros ->. by apply Hnd2. }
    destruct Hcases as [[El Ea]|(p & El & Hp & Hpb & Ea & Hon)]; rewrite El in *.
    + rewrite <- Ea. split; [apply Hu|]. intros c Hc. apply Hoth; [|done]. apply elem_of_app. by right.
    + split_and!.
      * pose proof (bucket_range nm). pose proof (on_chain_range _ _ _ _ _ _ _ Hm Hon).
        pose proof (on_chain_range _ _ _ _ _ _ b Hm ltac:(by exists nm, v, u)).
        apply half_ext; apply (ul_out _ _ _ _ _ _ Hu); rewrite ?Ea; unfold bucket in *; dlia.
      * unfold link_of at 1. change (32 * p + o_next) with (32 * p + 2). rewrite <- Ea. apply Hu.
      * intros c Hc Hcp. apply Hoth; [done|]. congruence.
  - intros c. rewrite (on_chain_delete _ _ _ _ _ _ _ _ _ _ _ Hm He), <- (ca_mem _ _ _ _ Hl).
    rewrite !elem_of_app, elem_of_cons. split.
    + intros Hc. split; [tauto|]. intros ->. apply (proj2 Hnd2). by apply elem_of_app.
    + intros [[?|[?|?]] ?]; tauto.
Qed.

(** Other entries are untouched. *)
Lemma unlinked_entry E C Y P d d' nm b v u l1 l2 nm' b' v' u' :
  dir_mem E C Y P d -> E !! nm = Some (b, v, u) ->
  chain_at E d (afs_dir_DirHash nm) (l1 ++ b :: l2) ->
  unlinked (afs_dir_DirHash nm) b (nblobs_of nm) l1 d d' ->
  E !! nm' = Some (b', v', u') -> nm <> nm' -> entry_at d' nm' b' v' u'.
Proof.
  intros Hm He Hl Hu He' Hne. pose proof (bucket_range nm) as Hbk.
  apply (entry_frame d); [by apply Hm|]. intros x Hx Hx'.
  pose proof (entry_blob _ _ _ _ _ _ _ _ _ (x / 32) Hm He' ltac:(mlia)) as (_ & Hx1 & _ & Hx2).
  apply (ul_out _ _ _ _ _ _ Hu).
  - intros Hxb. apply (dm_apart _ _ _ _ _ Hm _ _ _ _ _ _ _ _ He He' Hne (x / 32)); apply elem_blobs; mlia.
  - destruct (link_addr_cases _ _ _ _ _ _ _ _ _ Hm Hl)
      as [[_ ->]|(p & _ & _ & _ & -> & (nmp & vp & up & Hp & _))]; [mlia|].
    intros Hxp. pose proof (name_blobs _ _ _ _ _ _ _ _ _ Hm Hp).
    destruct (decide (nmp = nm')) as [->|Hnp].
    + assert (p = b') by congruence. lia.
    + apply (dm_apart _ _ _ _ _ Hm _ _ _ _ _ _ _ _ Hp He' Hnp p); apply elem_blobs; mlia.
Qed.

(** Other chains are untouched. *)
Lemma unlinked_other_chain E C Y P d d' nm b v u l1 l2 h l :
  dir_mem E C Y P d -> E !! nm = Some (b, v, u) ->
  chain_at E d (afs_dir_DirHash nm) (l1 ++ b :: l2) ->
  unlinked (afs_dir_DirHash nm) b (nblobs_of nm) l1 d d' ->
  0 <= h < 128 -> h <> afs_dir_DirHash nm -> chain_at E d h l -> chain_at (delete nm E) d' h l.
Proof.
  intros Hm He Hl Hu Hh Hne Hlh. pose proof (bucket_range nm) as Hbk.
  pose proof (link_addr_cases _ _ _ _ _ _ _ _ _ Hm Hl) as Hcases.
  assert (Hlk : forall c, c ∈ l -> on_chain E h c /\ c <> b /\ last l1 <> Some c).
  { intros c Hc%(ca_mem _ _ _ _ Hlh). split; [done|]. destruct Hc as (nm' & v' & u' & He' & Hh').
    split.
    - intros ->. pose proof (blob_name_unique _ _ _ _ _ _ _ _ _ _ _ _ Hm He He'). congruence.
    - intros Hlast. destruct Hcases as [[El _]|(p & El & _ & _ & _ & (nmp & vp & up & Hp & Hhp))];
        [congruence|]. assert (p = c) as -> by congruence.
      pose proof (blob_name_unique _ _ _ _ _ _ _ _ _ _ _ _ Hm Hp He'). congruence. }
  destruct (chain_at_frame E d d' h l Hlh) as [Hch Hnd Hmem].
  - pose proof (on_chain_range _ _ _ _ _ _ b Hm ltac:(by exists nm, v, u)).
    apply half_ext; apply (ul_out _ _ _ _ _ _ Hu); unfold bucket in *; try dlia;
      destruct Hcases as [[_ ->]|(p & _ & _ & _ & -> & Hp%(on_chain_range _ _ _ _ _ _ _ Hm))];
      unfold bucket; dlia.
  - intros c (Hc1 & Hc2 & Hc3)%Hlk.
    by apply (unlinked_links _ _ _ _ _ _ _ _ _ _ _ _ _ _ Hm He Hl Hu Hc1).
  - split; [done|done|]. intros c.
    rewrite (on_chain_delete _ _ _ _ _ _ _ _ _ _ _ Hm He), <- Hmem.
    split; [|tauto]. intros Hc. split; [done|]. by apply Hlk.
Qed.

Lemma unlink_mem E C Y P d d' nm b v u l1 l2 :
  dir_mem E C Y P d -> E !! nm = Some (b, v, u) ->
  chain_at E d (afs_dir_DirHash nm) (l1 ++ b :: l2) ->
  unlinked (afs_dir_DirHash nm) b (nblobs_of nm) l1 d d' ->
  dir_mem (delete nm E) C Y P d'.
Proof.
  intros Hm He Hl Hu. pose proof (name_blobs _ _ _ _ _ _ _ _ _ Hm He) as Hn.
  destruct (dm_blobs _ _ _ _ _ Hm _ _ _ _ He) as [Hb Hsub]. pose proof (bucket_range nm) as Hbk.
  destruct (body_change E C Y P d d' b (nblobs_of nm) Hm ltac:(lia) Hsub Hb) as (H1 & H2 & H3 & H4).
  { intros x Hx1 Hx2 Hx3. apply (ul_out _ _ _ _ _ _ Hu); [done|].
    destruct (link_addr_cases _ _ _ _ _ _ _ _ _ Hm Hl) as [[_ ->]|(p & _ & _ & _ & -> & Hp)]; [lia|].
    pose proof (Hx3 _ _ Hp). lia. }
  split; try (apply Hm); try done.
  - split; [apply Hm|done].
  - apply Hu.
  - intros i Hi. rewrite H2 by done. by apply Hm.
  - intros i j Hi Hj. rewrite H3 by done. by apply Hm.
  - intros nm' b' v' u' [_ He']%lookup_delete_Some. by apply (dm_name _ _ _ _ _ Hm _ _ _ _ He').
  - intros nm' b' v' u' [Hne He']%lookup_delete_Some.
    by apply (unlinked_entry _ _ _ _ _ _ _ _ _ _ _ _ _ _ _ _ Hm He Hl Hu He').
  - intros nm' b' v' u' [_ He']%lookup_delete_Some. by apply (dm_blobs _ _ _ _ _ Hm _ _ _ _ He').
  - intros nm1 b1 v1 u1 nm2 b2 v2 u2 [_ He1]%lookup_delete_Some [_ He2]%lookup_delete_Some.
    by apply (dm_apart _ _ _ _ _ Hm _ _ _ _ _ _ _ _ He1 He2).
  - intros h Hh. destruct (Z.eq_dec h (afs_dir_DirHash nm)) as [->|Hne].
    + exists (l1 ++ l2). by destruct (unlinked_chain _ _ _ _ _ _ _ _ _ _ _ _ Hm He Hl Hu).
    + destruct (mem_chain _ _ _ _ _ h Hm Hh) as (l & Hlh & _). exists l.
      by destruct (unlinked_other_chain _ _ _ _ _ _ _ _ _ _ _ _ _ _ Hm He Hl Hu Hh Hne Hlh).
Qed.

(** ** [afs_dir_Delete] *)

(** Deleting the entry found through the link at [prev]: link and blobs. *)
Lemma delete_unlinked E C Y P d nm b v u l1 l2 :
  dir_mem E C Y P d -> E !! nm = Some (b, v, u) ->
  chain_at E d (afs_dir_DirHash nm) (l1 ++ b :: l2) ->
  unlinked (afs_dir_DirHash nm) b (nblobs_of nm) l1 d
    (upd (upd d (link_addr (afs_dir_DirHash nm) l1) (be16 (link_of d b))) (32 * b)
       (repeat 0 (Z.to_nat (nblobs_of nm * sizeof_DirEntry)))).
Proof.
  intros Hm He Hl. pose proof (name_blobs _ _ _ _ _ _ _ _ _ Hm He) as Hn.
  pose proof (on_chain_range _ _ _ _ _ _ b Hm ltac:(by exists nm, v, u)) as Hbr.
  assert (Hlink : link_addr (afs_dir_DirHash nm) l1 + 2 <= 32 * b
                  \/ 32 * b + nblobs_of nm * 28 <= link_addr (afs_dir_DirHash nm) l1).
  { pose proof (bucket_range nm).
    destruct (link_addr_cases _ _ _ _ _ _ _ _ _ Hm Hl)
      as [[_ ->]|(p & _ & _ & Hpb & -> & (nmp & vp & up & Hp & _))]; [lia|].
    assert (nm <> nmp) as Hne by congruence. pose proof (name_blobs _ _ _ _ _ _ _ _ _ Hm Hp).
    assert (~ (b <= p < b + nblobs_of nm)); [|lia]. intros Hin.
    apply (dm_apart _ _ _ _ _ Hm _ _ _ _ _ _ _ _ He Hp Hne p); apply elem_blobs; lia. }
  assert (Hlen : Z.of_nat (length (repeat 0 (Z.to_nat (nblobs_of nm * sizeof_DirEntry)))) = nblobs_of nm * 28)
    by (rewrite repeat_length; dlia).
  split.
  - rewrite half_upd_out by lia. rewrite half_upd_be16. apply u16_small, half_u16, Hm.
  - apply upd_u8; [apply upd_u8; [apply Hm|repeat constructor; mlia]|].
    apply Forall_forall. intros x ->%list_elem_of_In%repeat_spec. mlia.
  - intros x Hx1 Hx2. rewrite !upd_out; [done|cbn [length be16]; lia|lia].
Qed.

Definition deleted (E : dents) (C Y : gset Z) (P : Z) (nm : list Z) (s : dirf)
    (r : dres unit) (s' : dirf) : Prop :=
  (quiet s -> quiet s') /\
  match r with
  | Ret _ => exists b v u C' Y', E !! nm = Some (b, v, u) /\ dir_ok (delete nm E) C' Y' P s'
      /\ freed (blobs b (nblobs_of nm)) C Y C' Y' (~ quiet s)
  | Fail code => same s s' /\ ((code = ENOENT /\ E !! nm = None) \/ (code = EIO /\ ~ quiet s))
  end.

Lemma delete_name E C Y P d nm b v u l1 l2 :
  dir_mem E C Y P d -> E !! nm = Some (b, v, u) ->
  chain_at E d (afs_dir_DirHash nm) (l1 ++ b :: l2) ->
  name_at (upd d (link_addr (afs_dir_DirHash nm) l1) (be16 (link_of d b))) (32 * b) = nm.
Proof.
  intros Hm He Hl. apply (entry_name _ _ _ v u).
  - apply (entry_frame d); [by apply Hm|]. intros x Hx _. apply upd_out. cbn [length be16].
    pose proof (bucket_range nm). pose proof (on_chain_range _ _ _ _ _ _ b Hm ltac:(by exists nm, v, u)).
    destruct (link_addr_cases _ _ _ _ _ _ _ _ _ Hm Hl)
      as [[_ ->]|(p & _ & _ & Hpb & -> & (nmp & vp & up & Hp & _))]; [lia|].
    assert (nm <> nmp) as Hne by congruence. pose proof (name_blobs _ _ _ _ _ _ _ _ _ Hm Hp).
    pose proof (name_blobs _ _ _ _ _ _ _ _ _ Hm He).
    assert (~ (b <= p < b + nblobs_of nm)); [|lia]. intros Hin.
    apply (dm_apart _ _ _ _ _ Hm _ _ _ _ _ _ _ _ He Hp Hne p); apply elem_blobs; lia.
  - by apply (dm_name _ _ _ _ _ Hm _ _ _ _ He).
  - by apply (dm_blobs _ _ _ _ _ Hm _ _ _ _ He).
Qed.

Lemma Delete_ok E C Y P nm s :
  dir_ok E C Y P s -> exists r s', afs_dir_Delete nm s = (r, s') /\ deleted E C Y P nm s r s'.
Proof.
  intros Hok. pose proof (proj1 Hok) as Hm. unfold afs_dir_Delete.
  destruct (FindItem_ok _ _ _ _ nm s Hok) as (r & s1 & A1 & Hs1 & Hr).
  destruct r as [[prev item]|code]; [|exists (Fail code), s1; split; [by apply bind_fail|by split; [apply Hs1|]]].
  destruct Hr as (l1 & b & l2 & v & u & He & -> & Hl & ->). rewrite (bind_ret _ _ _ _ _ A1).
  pose proof (name_blobs _ _ _ _ _ _ _ _ _ Hm He) as Hn.
  destruct (dm_blobs _ _ _ _ _ Hm _ _ _ _ He) as [Hb Hsub].
  rewrite bind_read. change (half (cells s1) (32 * b + o_next)) with (link_of (cells s1) b).
  rewrite (proj1 Hs1).
  match goal with |- context [bind (put ?a ?l) ?k s1] =>
    destruct (put_step a l k s1) as (s2 & -> & Hc2 & Hp2 & Hq2) end.
  rel s3 Hs3. rewrite bind_read, (proj1 Hs3), Hc2, (proj1 Hs1), (delete_name _ _ _ _ _ _ _ _ _ _ _ Hm He Hl).
  fold (nblobs_of nm).
  match goal with |- context [bind (put ?a ?l) ?k s3] =>
    destruct (put_step a l k s3) as (s4 & -> & Hc4 & Hp4 & Hq4) end.
  rel s5 Hs5. replace (32 * b / 32) with b by mlia.
  assert (Hok5 : dir_ok (delete nm E) C Y P s5).
  { eapply same_ok; [exact Hs5|]. split.
    - rewrite Hc4, (proj1 Hs3), Hc2, (proj1 Hs1).
      apply (unlink_mem _ _ _ _ _ _ _ _ _ _ _ _ Hm He Hl), (delete_unlinked _ _ _ _ _ _ _ _ _ _ _ Hm He Hl).
    - intros p Hp. rewrite Hp4, (proj1 (proj2 Hs3)), Hp2, (proj1 (proj2 Hs1)). by apply (proj2 Hok). }
  assert (Hq5 : quiet s -> quiet s5) by (intros Hq; apply Hs5, Hq4, Hs3, Hq2, Hs1, Hq).
  destruct (FreeBlobs_ok (delete nm E) C Y P b (nblobs_of nm) s5 Hok5) as (s6 & C' & Y' & A6 & Hok6 & Hq6 & Hf);
    [lia|done|done| |].
  { intros nm' b' v' u' [Hne He']%lookup_delete_Some. symmetry.
    by apply (dm_apart _ _ _ _ _ Hm _ _ _ _ _ _ _ _ He He'). }
  exists (Ret tt), s6. split; [done|]. split; [auto|]. exists b, v, u, C', Y'. split; [done|]. split; [done|].
  destruct Hf as [?|[Hnq Hf]]; [by left|right]. split; [|done]. auto.
Qed.
