(* ===== verification/DirWalk.v ===== *)
(** * Directories: looking up, changing a fid, formatting, walking all entries

    The remaining operations of dir/dir.c, and the theorem that every directory the
    package can produce is well formed. *)

From stdpp Require Import prelude list gmap list_numbers.
From Stdlib Require Import ZArith Lia ZifyBool.
From S2P Require Import Prelude ByteMem Dir DirRep DirAlloc DirOps.

#[local] Open Scope Z_scope.
#[local] Open Scope dir_scope.

(** ** Looking up *)

Definition not_found (E : dents) (nm : list Z) (s : dirf) (code : Z) : Prop :=
  (code = ENOENT /\ E !! nm = None) \/ (code = EIO /\ ~ quiet s).

Lemma LookupOffset_ok E C Y P nm s :
  dir_ok E C Y P s -> exists r s', afs_dir_LookupOffset nm s = (r, s') /\ same s s' /\
    match r with
    | Ret (v, u, off) => exists b, E !! nm = Some (b, v, u) /\ off = 32 * b
    | Fail code => not_found E nm s code
    end.
Proof.
  intros Hok. unfold afs_dir_LookupOffset.
  destruct (FindItem_ok _ _ _ _ nm s Hok) as (r & s1 & A1 & Hs1 & Hr).
  destruct r as [[prev item]|code]; [|exists (Fail code), s1; by rewrite (bind_fail _ _ _ _ _ A1)].
  destruct Hr as (l1 & b & l2 & v & u & He & -> & Hl & ->). rewrite (bind_ret _ _ _ _ _ A1).
  rel s2 Hs2. rewrite !bind_read. rel s3 Hs3. do 2 eexists. split; [reflexivity|].
  split; [by do 2 (etrans; [done|])|]. exists b. split; [|done].
  destruct (dm_entry _ _ _ _ _ (proj1 Hok) _ _ _ _ He) as [_ Hv Hu].
  by rewrite (proj1 Hs2), (proj1 Hs1), Hv, Hu.
Qed.

Lemma Lookup_offset nm s :
  afs_dir_Lookup nm s = (do r <- afs_dir_LookupOffset nm; ret (fst r)) s.
Proof.
  unfold afs_dir_Lookup, afs_dir_LookupOffset, bind.
  by destruct (FindItem nm s) as [[[prev item]|code] s1].
Qed.

(** [C31] Looking up a name in a well-formed directory changes nothing and gives
    exactly the fid stored for the name, and the offset of its entry; ENOENT means
    that the name is not there, and without I/O errors no other error occurs. *)
Theorem dir_lookup E C Y P nm s :
  dir_ok E C Y P s ->
  (exists r s', afs_dir_Lookup nm s = (r, s') /\ same s s' /\
     match r with
     | Ret (v, u) => exists b, E !! nm = Some (b, v, u)
     | Fail code => not_found E nm s code
     end)
  /\ (exists r s', afs_dir_LookupOffset nm s = (r, s') /\ same s s' /\
     match r with
     | Ret (v, u, off) => exists b, E !! nm = Some (b, v, u) /\ off = 32 * b
     | Fail code => not_found E nm s code
     end).
Proof.
  intros Hok. destruct (LookupOffset_ok _ _ _ _ nm s Hok) as (r & s' & A & Hs & Hr).
  split; [|by exists r, s']. rewrite Lookup_offset. destruct r as [[[v u] off]|code].
  - destruct Hr as (b & Hb & _). exists (Ret (v, u)), s'. split; [by rewrite (bind_ret _ _ _ _ _ A)|].
    split; [done|]. by exists b.
  - exists (Fail code), s'. split; [by apply bind_fail|done].
Qed.

(** ** Changing a fid *)

Lemma change_mem E C Y P d nm b v u v' u' :
  dir_mem E C Y P d -> E !! nm = Some (b, v, u) ->
  dir_mem (<[nm := (b, u32 v', u32 u')]> E) C Y P
    (upd (upd d (32 * b + o_vnode) (be32 v')) (32 * b + o_vunique) (be32 u')).
Proof.
  intros Hm He. set (d' := upd _ _ _). pose proof (name_blobs _ _ _ _ _ _ _ _ _ Hm He) as Hn.
  destruct (dm_blobs _ _ _ _ _ Hm _ _ _ _ He) as [Hb Hsub].
  pose proof (used_range _ _ _ _ _ b Hm (blobs_in _ _ _ b Hsub ltac:(lia))) as Hbr.
  assert (Hout : forall x, x < 32 * b + 4 \/ 32 * b + 12 <= x -> d' x = d x).
  { intros x Hx. subst d'. rewrite !upd_out by (rewrite be32_length; dlia). done. }
  destruct (body_change E C Y P d d' b (nblobs_of nm) Hm ltac:(lia) Hsub Hb) as (H1 & H2 & H3 & H4).
  { intros x _ Hx _. apply Hout. lia. }
  assert (Hon : forall h c, on_chain (<[nm := (b, u32 v', u32 u')]> E) h c <-> on_chain E h c).
  { intros h c. split.
    - intros (nm' & v1 & u1 & [[<- [= <- <- <-]]|[Hne He1]]%lookup_insert_Some & Hh).
      + by exists nm, v, u.
      + by exists nm', v1, u1.
    - intros (nm' & v1 & u1 & He1 & Hh). destruct (decide (nm' = nm)) as [->|Hne].
      + exists nm, (u32 v'), (u32 u'). rewrite lookup_insert_eq. split; [|done]. congruence.
      + exists nm', v1, u1. by rewrite lookup_insert_ne. }
  split; try (apply Hm); try done.
  - split; [apply Hm|done].
  - subst d'. apply upd_u8; [apply upd_u8; [apply Hm|]|]; apply be32_bytes.
  - intros i Hi. rewrite H2 by done. by apply Hm.
  - intros i j Hi Hj. rewrite H3 by done. by apply Hm.
  - intros nm' b' v1 u1 [[<- _]|[_ He1]]%lookup_insert_Some; [|by apply (dm_name _ _ _ _ _ Hm _ _ _ _ He1)].
    by apply (dm_name _ _ _ _ _ Hm _ _ _ _ He).
  - intros nm' b' v1 u1 [[<- [= <- <- <-]]|[Hne He1]]%lookup_insert_Some.
    + split.
      * rewrite <- (ea_name _ _ _ _ _ (dm_entry _ _ _ _ _ Hm _ _ _ _ He)). apply bytes_ext.
        intros x Hx. apply Hout. dlia.
      * subst d'. rewrite word_upd_out by (rewrite be32_length; dlia). apply word_upd_be32.
      * subst d'. apply word_upd_be32.
      * rewrite Hout by lia. apply (ea_flag _ _ _ _ _ (dm_entry _ _ _ _ _ Hm _ _ _ _ He)).
    + apply (entry_frame d); [by apply Hm|]. intros x Hx _. apply Hout.
      assert (~ (32 * b <= x < 32 * (b + nblobs_of nm))); [|lia]. intros Hin.
      apply (dm_apart _ _ _ _ _ Hm _ _ _ _ _ _ _ _ He He1 Hne (x / 32)); apply elem_blobs; mlia.
  - intros nm' b' v1 u1 [[<- [= <- <- <-]]|[_ He1]]%lookup_insert_Some; [done|].
    by apply (dm_blobs _ _ _ _ _ Hm _ _ _ _ He1).
  - intros nm1 b1 v1 u1 nm2 b2 v2 u2 [[<- [= <- <- <-]]|[Hn1 He1]]%lookup_insert_Some
      [[<- [= <- <- <-]]|[Hn2 He2]]%lookup_insert_Some Hne; [done| | |];
      [by apply (dm_apart _ _ _ _ _ Hm _ _ _ _ _ _ _ _ He He2)
      |by apply (dm_apart _ _ _ _ _ Hm _ _ _ _ _ _ _ _ He1 He)
      |by apply (dm_apart _ _ _ _ _ Hm _ _ _ _ _ _ _ _ He1 He2)].
  - intros h Hh. destruct (mem_chain _ _ _ _ _ h Hm Hh) as (l & Hl & _). exists l.
    destruct (chain_at_frame E d d' h l Hl) as [? ? Hmem].
    + unfold bucket. apply half_ext; apply Hout; dlia.
    + intros c _. destruct (Z.eq_dec c b) as [->|]; apply half_ext; apply Hout; dlia.
    + split_and!; [done|done|]. intros c. by rewrite Hon.
Qed.

(** Was the fid as expected? *)
Definition fid_matches (old_fid : option (Z * Z)) (v u : Z) : bool :=
  match old_fid with
  | None => true
  | Some (ov, ou) => (u32 ov =? v) && (u32 ou =? u)
  end.

Definition changed (E : dents) (nm : list Z) (old_fid : option (Z * Z)) (new_fid : Z * Z) : dents :=
  match E !! nm with
  | Some (b, v, u) =>
      if fid_matches old_fid v u then <[nm := (b, u32 (fst new_fid), u32 (snd new_fid))]> E else E
  | None => E
  end.

Lemma ChangeFid_ok E C Y P nm old_fid new_fid s :
  dir_ok E C Y P s ->
  exists r s', afs_dir_ChangeFid nm old_fid new_fid s = (r, s') /\ (quiet s -> quiet s') /\
    match r with
    | Ret _ => is_Some (E !! nm) /\ dir_ok (changed E nm old_fid new_fid) C Y P s'
    | Fail code => not_found E nm s code /\ dir_ok E C Y P s'
    end.
Proof.
  intros Hok. unfold afs_dir_ChangeFid.
  destruct (FindItem_ok _ _ _ _ nm s Hok) as (r & s1 & A1 & Hs1 & Hr).
  pose proof (same_ok _ _ _ _ _ _ Hs1 Hok) as Hok1.
  destruct r as [[prev item]|code];
    [|exists (Fail code), s1; rewrite (bind_fail _ _ _ _ _ A1); by split_and!; [|apply Hs1| |]].
  destruct Hr as (l1 & b & l2 & v & u & He & -> & _ & ->). rewrite (bind_ret _ _ _ _ _ A1).
  rel s2 Hs2. pose proof (same_ok _ _ _ _ _ _ Hs2 Hok1) as Hok2. rewrite !bind_read.
  destruct (dm_entry _ _ _ _ _ (proj1 Hok2) _ _ _ _ He) as [_ -> ->].
  fold (fid_matches old_fid v u). unfold changed. rewrite He.
  assert (Hq2 : quiet s -> quiet s2) by (intros Hq; apply Hs2, Hs1, Hq).
  destruct (fid_matches old_fid v u).
  - do 2 eexists. split; [reflexivity|]. split; [exact Hq2|]. split; [done|].
    split; [|apply Hok2]. cbn [cells]. by apply (change_mem _ _ _ _ _ _ _ v u); [apply Hok2|].
  - do 2 eexists. split; [reflexivity|]. split; [exact Hq2|]. split; [done|].
    split; [|apply Hok2]. apply Hok2.
Qed.

(** ** [afs_dir_MakeDir] *)

Definition formatted (d : Z -> Z) : Z -> Z :=
  upd (upd (upd (upd (upd (upd (upd d (0 * AFS_PAGESIZE) (repeat 0 (Z.to_nat AFS_PAGESIZE)))
    o_pgcount (be16 1)) o_tag (be16 1234)) o_freecount [EPP - DHE - 1])
    o_freebitmap (255 :: 31 :: repeat 0 6)) o_alloMap ((EPP - DHE - 1) :: repeat EPP 127))
    o_hashTable (repeat 0 (Z.to_nat (2 * NHASHENT))).

Lemma repeat_u8 v n : is_u8 v -> Forall is_u8 (repeat v n).
Proof. intros Hv. apply Forall_forall. by intros x ->%list_elem_of_In%repeat_spec. Qed.

Lemma formatted_u8 d : (forall x, is_u8 (d x)) -> forall x, is_u8 (formatted d x).
Proof.
  intros Hu. unfold formatted. repeat apply upd_u8; try done; try apply repeat_u8; try mlia.
  - repeat constructor; mlia.
  - repeat constructor; mlia.
  - repeat constructor; dmlia.
  - constructor; [mlia|]. constructor; [mlia|]. apply repeat_u8. mlia.
  - constructor; [dmlia|]. apply repeat_u8. dmlia.
Qed.

Lemma upd_from d a l x : a <= x < a + Z.of_nat (length l) -> upd d a l x = nth (Z.to_nat (x - a)) l 0.
Proof. intros Hx. rewrite <- (upd_in d a) by lia. f_equal. lia. Qed.

Lemma formatted_alloc d i :
  0 <= i < 128 -> formatted d (o_alloMap + i) = if i =? 0 then 51 else 64.
Proof.
  intros Hi. unfold formatted. rewrite upd_out by dlia.
  rewrite upd_from by (cbn [length]; rewrite repeat_length; dlia).
  replace (o_alloMap + i - o_alloMap) with i by lia.
  destruct (i =? 0) eqn:E0; [by replace i with 0 by lia|].
  destruct (Z.to_nat i) as [|m] eqn:Em; [lia|]. cbn [nth].
  rewrite nth_repeat_lt by lia. done.
Qed.

Lemma formatted_bits d j : 0 <= j < 64 -> bit_set (formatted d) 0 j = (j <? 13).
Proof.
  intros Hj. unfold bit_set, formatted. rewrite bitmap_byte_div, bit_index.
  rewrite (upd_out _ o_hashTable) by dmlia. rewrite (upd_out _ o_alloMap) by dmlia.
  rewrite upd_from by (cbn [length repeat]; dmlia).
  replace (0 * 2048 + 5 + j / 8 - o_freebitmap) with (j / 8) by dlia.
  assert (H : forallb (fun j => Bool.eqb (Z.testbit (nth (Z.to_nat (j / 8)) (255 :: 31 :: repeat 0 6) 0) (j mod 8))
                                  (j <? 13)) (seqZ 0 64) = true) by (vm_compute; reflexivity).
  rewrite forallb_forall in H. apply eqb_prop, H, list_elem_of_In, elem_of_seqZ. lia.
Qed.

Lemma formatted_hash d x : 160 <= x < 416 -> formatted d x = 0.
Proof.
  intros Hx. unfold formatted. rewrite upd_from by (rewrite repeat_length; dlia).
  rewrite nth_repeat. done.
Qed.

Lemma formatted_mem d : (forall x, is_u8 (d x)) -> dir_mem ∅ ∅ ∅ 1 (formatted d).
Proof.
  intros Hu.
  assert (Hno : forall nm (t : Z * Z * Z) (Q : Prop), (∅ : dents) !! nm = Some t -> Q)
    by (intros nm t Q Ht; by rewrite lookup_empty in Ht).
  assert (Hnk : forall k (Q : Prop), k ∈ (∅ ∪ ∅ : gset Z) -> Q)
    by (intros k Q Hk; apply elem_of_union in Hk as [Hk|Hk]; by apply not_elem_of_empty in Hk).
  split; try (intros ? ? ? ? He; exact (Hno _ _ _ He));
    try (intros ? ? ? ? ? ? ? ? He; exact (Hno _ _ _ He)).
  - split; [lia|]. unfold formatted.
    rewrite !half_upd_out by (cbn [length be16]; rewrite ?repeat_length; dlia).
    by rewrite half_upd_be16.
  - by apply formatted_u8.
  - intros i Hi. rewrite formatted_alloc by done. replace (size (in_page i ∅)) with 0%nat
      by (symmetry; apply size_empty_iff; intros k; rewrite elem_in_page; split;
          [intros [_ Hk]; done|intros Hk; by apply not_elem_of_empty in Hk]).
    unfold capacity. destruct (i =? 0) eqn:E0, (i <? 1) eqn:E1; dlia.
  - intros i j Hi Hj. replace i with 0 by lia. rewrite formatted_bits by done.
    unfold reserved. split; [intros; left; lia|]. intros [Hr|Hr]; [mlia|by eapply Hnk].
  - intros k Hk. exact (Hnk k _ Hk).
  - intros k Hk. by apply not_elem_of_empty in Hk.
  - intros h Hh. exists []. split; [|split; [constructor|]].
    + cbn. unfold half, bucket. rewrite !formatted_hash by dlia. done.
    + intros b. split; [intros Hb; by apply not_elem_of_nil in Hb|].
      intros (nm & v & u & He & _). by eapply Hno.
  - intros i Hi. replace i with 0 by lia. unfold formatted.
    rewrite !half_upd_out by (cbn [length be16]; rewrite ?repeat_length; dlia).
    by rewrite half_upd_be16.
Qed.

Lemma dot_ok : name_ok dot.
Proof. split; [done|]. split; [repeat constructor; lia|cbn; lia]. Qed.
Lemma dotdot_ok : name_ok dotdot.
Proof. split; [done|]. split; [repeat constructor; lia|cbn; lia]. Qed.

(** A new name in a directory with room: [afs_dir_Create] succeeds. *)
Lemma Create_quiet E C Y P nm v u s :
  dir_ok E C Y P s -> name_ok nm -> quiet s -> E !! nm = None -> P < 1023 ->
  exists s' k P', afs_dir_Create nm v u s = (Ret tt, s') /\ quiet s' /\ P' <= P + 1
    /\ blobs k (nblobs_of nm) ## C ∪ Y /\ first_fit C Y (nblobs_of nm) k
    /\ dir_ok (<[nm := (k, u32 v, u32 u)]> E) (C ∪ blobs k (nblobs_of nm)) Y P' s'.
Proof.
  intros Hok Hn Hq Hnew HP.
  destruct (Create_ok _ _ _ _ _ v u _ Hok Hn) as (r & s' & A & Hq' & P' & HP' & Hr).
  destruct r as [[]|code].
  - destruct Hr as (_ & k & Hfree & Hfirst & Hok'). exists s', k, P'.
    split; [done|]. split; [auto|]. split; [lia|done].
  - exfalso. destruct Hr as [_ [[_ [x Hx]]|[(_ & _ & Hf)|[_ ?]]]]; [congruence| |done].
    destruct (Hf Hq) as [? _]. lia.
Qed.

(** Whatever errors there are, an attempt to create leaves a directory. *)
Lemma Create_any E C Y P nm v u s :
  dir_ok E C Y P s -> name_ok nm ->
  exists r s' E' C' P', afs_dir_Create nm v u s = (r, s') /\ dir_ok E' C' Y P' s'.
Proof.
  intros Hok Hn. destruct (Create_ok _ _ _ _ _ v u _ Hok Hn) as (r & s' & A & _ & P' & _ & Hr).
  exists r, s'. destruct r as [[]|code].
  - destruct Hr as (_ & k & _ & _ & Hok'). by do 3 eexists.
  - destruct Hr as [(C' & _ & Hok' & _) _]. by do 3 eexists.
Qed.

Lemma make_start me parent s :
  (forall x, is_u8 (cells s x)) ->
  exists s1, afs_dir_MakeDir me parent s
    = (try (afs_dir_Create dot (fst me) (snd me)) ;;
       try (afs_dir_Create dotdot (fst parent) (snd parent)) ;; skip) s1
    /\ dir_ok ∅ ∅ ∅ 1 s1 /\ (quiet s -> quiet s1).
Proof.
  intros Hu.
  exists (mkDir (formatted (cells s)) ({[0]} ∪ present s) ({[0]} ∪ dirty s) (held s + 1 - 1) (io_faults s)).
  split; [reflexivity|]. split; [|intros Hq; exact Hq]. split; cbn [cells present].
  - by apply formatted_mem.
  - intros p Hp. replace p with 0 by lia. apply elem_of_union_l. by apply elem_of_singleton.
Qed.

(** The first names of a new directory get the first blobs. *)
Lemma first_blob E C P s nm k v u n :
  dir_ok (<[nm := (k, v, u)]> E) (C ∪ blobs k n) ∅ P s -> 1 <= n -> first_fit C ∅ n k ->
  13 <= k /\ forall j, 13 <= j -> j + n <= 64 -> (forall x, j <= x -> x ∉ C) -> k <= j.
Proof.
  intros Hok Hn Hf. split.
  - apply (used_range _ _ _ _ _ k (proj1 Hok)). apply elem_of_union_r, elem_blobs. lia.
  - intros j Hj Hjn Hfree. apply (Hf 0 j ltac:(lia)). split; [lia|]. split; [done|]. intros x Hx.
    split; [unfold reserved; mlia|]. rewrite union_empty_r_L. apply Hfree. lia.
Qed.

(** Formatting a directory gives a well-formed one, with at most the entries dot and
    dotdot, and without I/O errors exactly these, at the blobs 13 and 14. *)
Lemma MakeDir_ok me parent s :
  (forall x, is_u8 (cells s x)) ->
  exists s' E C P, afs_dir_MakeDir me parent s = (Ret tt, s') /\ dir_ok E C ∅ P s'
    /\ (quiet s -> quiet s' /\ P <= 3 /\ C = blobs 13 1 ∪ blobs 14 1 /\
          E = <[dotdot := (14, u32 (fst parent), u32 (snd parent))]>
                (<[dot := (13, u32 (fst me), u32 (snd me))]> ∅)).
Proof.
  intros Hu. destruct (make_start me parent s Hu) as (s1 & -> & Hok1 & Hq1).
  destruct (decide (io_faults s = [])) as [Hq|Hnq].
  - destruct (Create_quiet _ _ _ _ _ (fst me) (snd me) _ Hok1 dot_ok (Hq1 Hq) (lookup_empty _) ltac:(lia))
      as (s2 & k1 & P2 & A2 & Hq2 & HP2 & _ & Hf1 & Hok2). rewrite (bind_try _ _ _ _ _ A2).
    change (nblobs_of dot) with 1 in *. destruct (first_blob _ _ _ _ _ _ _ _ _ Hok2 ltac:(lia) Hf1) as [L1 L2].
    assert (k1 = 13) as ->.
    { specialize (L2 13 ltac:(lia) ltac:(lia) ltac:(intros x _; apply not_elem_of_empty)). lia. }
    destruct (Create_quiet _ _ _ _ dotdot (fst parent) (snd parent) _ Hok2 dotdot_ok Hq2)
      as (s3 & k2 & P3 & A3 & Hq3 & HP3 & Hd & Hf2 & Hok3); [by rewrite lookup_insert_ne|lia|].
    rewrite (bind_try _ _ _ _ _ A3). change (nblobs_of dotdot) with 1 in *.
    destruct (first_blob _ _ _ _ _ _ _ _ _ Hok3 ltac:(lia) Hf2) as [M1 M2].
    rewrite !union_empty_l_L in *. assert (k2 = 14) as ->.
    { specialize (M2 14 ltac:(lia) ltac:(lia) ltac:(intros x Hx Hin%elem_blobs; lia)).
      destruct (Z.eq_dec k2 13) as [->|]; [|lia]. exfalso.
      apply (Hd 13); [|apply elem_of_union_l]; apply elem_blobs; lia. }
    eexists s3, _, _, P3. split; [done|]. split; [exact Hok3|].
    intros _. split; [done|]. split; [lia|done].
  - destruct (Create_any _ _ _ _ _ (fst me) (snd me) _ Hok1 dot_ok) as (r2 & s2 & E2 & C2 & P2 & A2 & Hok2).
    rewrite (bind_try _ _ _ _ _ A2).
    destruct (Create_any _ _ _ _ _ (fst parent) (snd parent) _ Hok2 dotdot_ok)
      as (r3 & s3 & E3 & C3 & P3 & A3 & Hok3).
    rewrite (bind_try _ _ _ _ _ A3). exists s3, E3, C3, P3. split; [done|]. split; [done|].
    intros Hq. by exfalso.
Qed.

(** ** Walking all entries *)

(** In a directory without I/O errors the entries of a chain can be read. *)
Lemma quiet_blob E C Y P s nm b v u :
  dir_ok E C Y P s -> quiet s -> E !! nm = Some (b, v, u) ->
  exists s', same s s' /\ afs_dir_GetVerifiedBlob b s = (Ret (32 * b), s').
Proof.
  intros Hok Hq He. destruct (verified_blob _ _ _ _ _ _ _ _ _ Hok He) as (s' & Hs & [A|[_ ?]]); [|done].
  by exists s'.
Qed.

(** The entries of a list of blobs. *)
Definition entries_of (E : dents) (l : list Z) (le : list (list Z * (Z * Z * Z))) : Prop :=
  map (fun e => fst (fst (snd e))) le = l /\ Forall (fun e => E !! fst e = Some (snd e)) le.

Lemma chain_entries_of E h l :
  (forall b, b ∈ l -> on_chain E h b) -> exists le, entries_of E l le.
Proof.
  induction l as [|b l IH]; intros Hl; [by exists []|].
  destruct (Hl b ltac:(left)) as (nm & v & u & He & _).
  destruct IH as (le & H1 & H2); [intros c Hc; apply Hl; by right|].
  exists ((nm, (b, v, u)) :: le). split; [by cbn; rewrite H1|by constructor].
Qed.

Section Walk.
Context (E : dents) (C Y : gset Z) (P : Z).

(** What the code reads of an entry. *)
Lemma read_entry s nm b v u :
  dir_ok E C Y P s -> E !! nm = Some (b, v, u) ->
  name_at (cells s) (32 * b) = nm /\ word (cells s) (32 * b + o_vnode) = v
  /\ word (cells s) (32 * b + o_vunique) = u.
Proof.
  intros [Hm _] He. split; [by apply (mem_name _ _ _ _ _ _ _ _ _ Hm He)|].
  by destruct (dm_entry _ _ _ _ _ Hm _ _ _ _ He).
Qed.

Section Proc.
Context {H : Type} (proc : H -> list Z -> Z -> Z -> Z * H).

Definition visit (hook : H) (e : list Z * (Z * Z * Z)) : H :=
  let '(nm, (_, v, u)) := e in snd (proc hook nm v u).

Context (goes_on : forall hook nm v u, fst (proc hook nm v u) = 0).

Lemma enum_chain_ok n hd l le hook s :
  dir_ok E C Y P s -> quiet s -> chain (link_of (cells s)) hd l -> entries_of E l le ->
  (length l <= n)%nat ->
  exists s', enum_chain proc n hd hook s = (Ret (0, fold_left visit le hook), s') /\ same s s'.
Proof using goes_on.
  revert hd l le hook s. induction n as [|n IH]; intros hd l le hook s Hok Hq Hch [Hmap Hall] Hn;
    (destruct le as [|[nm [[b v] u]] le]; [cbn in Hmap; subst l; cbn in Hch; subst hd; by exists s|]);
    (destruct l as [|b' l]; [done|]); injection Hmap as <- Hmap; [cbn in Hn; lia|].
  destruct Hch as (-> & Hb0 & Hch). inversion_clear Hall as [|? ? He Hall']. cbn [fst snd] in He.
  cbn [enum_chain]. replace (b =? 0) with false by lia.
  destruct (quiet_blob _ _ _ _ _ _ _ _ _ Hok Hq He) as (s1 & Hs1 & A1). rewrite (bind_try _ _ _ _ _ A1).
  pose proof (same_ok _ _ _ _ _ _ Hs1 Hok) as Hok1.
  rewrite !bind_read. destruct (read_entry _ _ _ _ _ Hok1 He) as (-> & -> & ->).
  change (half (cells s1) (32 * b + o_next)) with (link_of (cells s1) b).
  destruct (proc hook nm v u) as [code hook'] eqn:Ep.
  pose proof (goes_on hook nm v u) as Hc. rewrite Ep in Hc. cbn in Hc. subst code.
  rel s2 Hs2. change (negb (0 =? 0)) with false. cbn iota.
  destruct (IH (link_of (cells s1) b) l le hook' s2) as (s3 & A3 & Hs3).
  - by eapply same_ok.
  - apply Hs2, Hs1, Hq.
  - by rewrite (proj1 Hs2), (proj1 Hs1).
  - by split.
  - cbn in Hn. lia.
  - exists s3. split; [|by do 2 (etrans; [done|])]. rewrite A3. cbn [fold_left visit]. by rewrite Ep.
Qed.

(** The entries of the buckets from [i] on. *)
Definition bucket_entries (i : Z) (n : nat) (le : list (list Z * (Z * Z * Z))) : Prop :=
  NoDup le /\ forall nm t, (nm, t) ∈ le <-> E !! nm = Some t /\ i <= afs_dir_DirHash nm < i + Z.of_nat n.

Lemma bucket_entries_cons d i n l le le' :
  dir_mem E C Y P d -> chain_at E d i l -> entries_of E l le ->
  bucket_entries (i + 1) n le' -> bucket_entries i (S n) (le ++ le').
Proof using.
  intros Hm Hl [Hmap Hall] [Hnd' Hmem']. rewrite Forall_forall in Hall.
  assert (Hin : forall nm t, (nm, t) ∈ le <-> E !! nm = Some t /\ afs_dir_DirHash nm = i).
  { intros nm [[b v] u]. split.
    - intros Hi. pose proof (Hall _ Hi) as He. cbn in He. split; [done|].
      assert (Hb : b ∈ l) by (rewrite <- Hmap; apply list_elem_of_In, in_map_iff; exists (nm, (b, v, u));
        split; [done|by apply list_elem_of_In]).
      apply (ca_mem _ _ _ _ Hl) in Hb as (nm' & v' & u' & He' & <-). f_equal.
      by apply (blob_name_unique _ _ _ _ _ _ _ _ _ _ _ _ Hm He He').
    - intros [He Hh]. assert (Hb : b ∈ l) by (apply (ca_mem _ _ _ _ Hl); by exists nm, v, u).
      rewrite <- Hmap in Hb. apply list_elem_of_In, in_map_iff in Hb as ([nm' [[b' v'] u']] & Eb & Hi).
      cbn in Eb. subst b'. apply list_elem_of_In in Hi. pose proof (Hall _ Hi) as He'. cbn in He'.
      pose proof (blob_name_unique _ _ _ _ _ _ _ _ _ _ _ _ Hm He He') as <-. congruence. }
  split.
  - apply NoDup_app. split_and!; [|intros [nm t] H1 H2; apply Hin in H1; apply Hmem' in H2; lia|done].
    apply (NoDup_fmap_1 (fun e => fst (fst (snd e)))). pose proof (ca_nodup _ _ _ _ Hl) as Hnd.
    rewrite <- Hmap in Hnd. exact Hnd.
  - intros nm t. rewrite elem_of_app, Hin, Hmem'. split; [intros [[? ?]|[? ?]]; split; [done|lia|done|lia]|].
    intros [? ?]. destruct (decide (afs_dir_DirHash nm = i)); [by left|right]. split; [done|lia].
Qed.

Lemma enum_from_ok n i hook s :
  dir_ok E C Y P s -> quiet s -> 0 <= i -> i + Z.of_nat n <= 128 ->
  exists le s', enum_from proc n i hook s = (Ret (fold_left visit le hook), s') /\ same s s'
    /\ bucket_entries i n le.
Proof using goes_on.
  revert i hook s. induction n as [|n IH]; intros i hook s Hok Hq Hi Hn; cbn [enum_from].
  - exists [], s. split; [done|]. split; [done|]. split; [constructor|]. intros nm t.
    split; [intros Hx; by apply not_elem_of_nil in Hx|lia].
  - rewrite bind_read. fold (bucket i). destruct (mem_chain _ _ _ _ _ i (proj1 Hok) ltac:(lia)) as (l & Hl & Hlim).
    destruct (chain_entries_of E i l) as (le & Hle); [intros b Hb; by apply (ca_mem _ _ _ _ Hl)|].
    destruct (enum_chain_ok chain_limit _ l le hook s Hok Hq (ca_chain _ _ _ _ Hl) Hle Hlim) as (s1 & A1 & Hs1).
    rewrite (bind_ret _ _ _ _ _ A1). cbn [fst snd]. change (negb (0 =? 0)) with false. cbn iota.
    destruct (IH (i + 1) (fold_left visit le hook) s1) as (le' & s2 & A2 & Hs2 & Hb);
      [by eapply same_ok|apply Hs1, Hq|lia|lia|].
    exists (le ++ le'), s2. rewrite fold_left_app. split; [done|]. split; [by etrans|].
    by apply (bucket_entries_cons (cells s) i n l le le' (proj1 Hok)).
Qed.
End Proc.
End Walk.

Lemma all_buckets E le : bucket_entries E 0 128 le -> le ≡ₚ map_to_list E.
Proof.
  intros [Hnd Hmem]. apply NoDup_Permutation; [done|apply NoDup_map_to_list|]. intros [nm t].
  rewrite Hmem, elem_of_map_to_list. split; [tauto|]. intros He. split; [done|]. pose proof (hash_range nm). lia.
Qed.

(** [C32] Enumerating a well-formed directory without I/O errors calls the procedure
    exactly once for every entry with its name and fid, as long as the procedure
    does not ask to stop, and returns 0. *)
Theorem dir_enumerate {H : Type} (proc : H -> list Z -> Z -> Z -> Z * H) E C Y P hook s :
  dir_ok E C Y P s -> quiet s -> (forall hook nm v u, fst (proc hook nm v u) = 0) ->
  exists le s', afs_dir_EnumerateDir proc hook s = (Ret (0, fold_left (visit proc) le hook), s')
    /\ same s s' /\ le ≡ₚ map_to_list E.
Proof.
  intros Hok Hq Hgo. unfold afs_dir_EnumerateDir.
  destruct (DRead_cases 0 s) as (s1 & Hs1 & [[A1 _]|[A1 Hq1]]);
    [|exfalso; by apply Hq1; [apply (present_0 _ _ _ _ _ Hok)|]].
  rewrite (bind_try _ _ _ _ _ A1).
  destruct (enum_from_ok E C Y P proc Hgo (Z.to_nat NHASHENT) 0 hook s1) as (le & s2 & A2 & Hs2 & Hb);
    [by eapply same_ok|apply Hs1, Hq|lia|done|].
  rewrite (bind_ret _ _ _ _ _ A2). rel s3 Hs3. exists le, s3. split; [done|].
  split; [by do 2 (etrans; [done|])|]. by apply all_buckets.
Qed.

(** ** [afs_dir_IsEmpty] *)

Definition other_name (nm : list Z) : bool :=
  negb (bool_decide (nm = dotdot)) && negb (bool_decide (nm = dot)).

Lemma empty_chain_ok E C Y P n hd l le s :
  dir_ok E C Y P s -> quiet s -> chain (link_of (cells s)) hd l -> entries_of E l le ->
  (length l <= n)%nat ->
  exists s', empty_chain n hd s = (Ret (existsb (fun e => other_name (fst e)) le), s') /\ same s s'.
Proof.
  revert hd l le s. induction n as [|n IH]; intros hd l le s Hok Hq Hch [Hmap Hall] Hn;
    (destruct le as [|[nm [[b v] u]] le]; [cbn in Hmap; subst l; cbn in Hch; subst hd; by exists s|]);
    (destruct l as [|b' l]; [done|]); injection Hmap as <- Hmap; [cbn in Hn; lia|].
  destruct Hch as (-> & Hb0 & Hch). inversion_clear Hall as [|? ? He Hall']. cbn [fst snd] in He.
  cbn [empty_chain]. replace (b =? 0) with false by lia.
  destruct (quiet_blob _ _ _ _ _ _ _ _ _ Hok Hq He) as (s1 & Hs1 & A1). rewrite (bind_try _ _ _ _ _ A1).
  pose proof (same_ok _ _ _ _ _ _ Hs1 Hok) as Hok1.
  rewrite bind_read. destruct (read_entry _ _ _ _ _ _ _ _ _ Hok1 He) as (-> & _ & _).
  fold (other_name nm). cbn [existsb fst]. destruct (other_name nm); cbn [orb].
  - rel s2 Hs2. exists s2. split; [done|]. by etrans.
  - rewrite bind_read. change (half (cells s1) (32 * b + o_next)) with (link_of (cells s1) b). rel s2 Hs2.
    destruct (IH (link_of (cells s1) b) l le s2) as (s3 & A3 & Hs3).
    + exact (same_ok _ _ _ _ _ _ Hs2 Hok1).
    + apply Hs2, Hs1, Hq.
    + by rewrite (proj1 Hs2), (proj1 Hs1).
    + by split.
    + cbn in Hn. lia.
    + exists s3. split; [done|]. by do 2 (etrans; [done|]).
Qed.

Lemma empty_from_ok E C Y P n i s :
  dir_ok E C Y P s -> quiet s -> 0 <= i -> i + Z.of_nat n <= 128 ->
  exists le s', empty_from n i s = (Ret (if existsb (fun e => other_name (fst e)) le then 1 else 0), s')
    /\ same s s' /\ bucket_entries E i n le.
Proof.
  revert i s. induction n as [|n IH]; intros i s Hok Hq Hi Hn; cbn [empty_from].
  - rel s1 Hs1. exists [], s1. split; [done|]. split; [done|]. split; [constructor|]. intros nm t.
    split; [intros Hx; by apply not_elem_of_nil in Hx|lia].
  - rewrite bind_read. fold (bucket i). destruct (mem_chain _ _ _ _ _ i (proj1 Hok) ltac:(lia)) as (l & Hl & Hlim).
    destruct (chain_entries_of E i l) as (le & Hle); [intros b Hb; by apply (ca_mem _ _ _ _ Hl)|].
    destruct (empty_chain_ok _ _ _ _ chain_limit _ l le s Hok Hq (ca_chain _ _ _ _ Hl) Hle Hlim) as (s1 & A1 & Hs1).
    rewrite (bind_ret _ _ _ _ _ A1).
    destruct (IH (i + 1) s1) as (le' & s2 & A2 & Hs2 & Hb); [by eapply same_ok|apply Hs1, Hq|lia|lia|].
    exists (le ++ le'). rewrite existsb_app.
    pose proof (bucket_entries_cons E C Y P (cells s) i n l le le' (proj1 Hok) Hl Hle Hb) as Hall.
    destruct (existsb _ le); cbn [orb].
    + rel s3 Hs3. exists s3. split; [done|]. split; [by etrans|done].
    + exists s2. split; [done|]. split; [by etrans|done].
Qed.

(** [afs_dir_IsEmpty] on a well-formed directory.  Without I/O errors it
    returns 0 if there are no names but dot and dotdot, and 1 otherwise: 0 means
    empty.  It also returns 0 when the header page cannot be read, so that an
    unreadable directory passes for an empty one. *)
Theorem dir_is_empty E C Y P s :
  dir_ok E C Y P s ->
  (quiet s -> exists r s', afs_dir_IsEmpty s = (Ret r, s') /\ same s s' /\ (r = 0 \/ r = 1)
     /\ (r = 0 <-> forall nm t, E !! nm = Some t -> nm = dot \/ nm = dotdot))
  /\ (forall fl, io_faults s = true :: fl -> fst (afs_dir_IsEmpty s) = Ret 0).
Proof.
  intros Hok. unfold afs_dir_IsEmpty. split; [|intros fl Ef; unfold bind, try, DRead; by rewrite Ef].
  intros Hq. destruct (DRead_cases 0 s) as (s1 & Hs1 & [[A1 _]|[A1 Hq1]]);
    [|exfalso; by apply Hq1; [apply (present_0 _ _ _ _ _ Hok)|]].
  rewrite (bind_try _ _ _ _ _ A1).
  destruct (empty_from_ok E C Y P (Z.to_nat NHASHENT) 0 s1) as (le & s2 & A2 & Hs2 & [_ Hb]);
    [by eapply same_ok|apply Hs1, Hq|lia|done|].
  do 2 eexists. split; [exact A2|]. split; [by etrans|]. split; [destruct (existsb _ _); tauto|].
  destruct (existsb _ le) eqn:Ex.
  - split; [done|]. intros Hall. apply existsb_exists in Ex as ([nm t] & Hin & Ho).
    apply list_elem_of_In, Hb in Hin as [He _]. destruct (Hall _ _ He) as [-> | ->]; done.
  - split; [|done]. intros _ nm t He.
    assert (Hin : (nm, t) ∈ le) by (apply Hb; split; [done|]; pose proof (hash_range nm); dlia).
    assert (Ho : other_name nm = false).
    { destruct (other_name nm) eqn:Eo; [|done]. rewrite <- Ex. symmetry. apply existsb_exists.
      exists (nm, t). split; [by apply list_elem_of_In|done]. }
    unfold other_name in Ho. apply andb_false_iff in Ho as [Ho|Ho]; apply negb_false_iff, bool_decide_eq_true in Ho; tauto.
Qed.

(** ** [FindFid] and [afs_dir_InverseLookup] *)

Lemma fid_chain_ok E C Y P n v0 u0 nm b v u l le s :
  dir_ok E C Y P s -> quiet s -> E !! nm = Some (b, v, u) -> chain (link_of (cells s)) (link_of (cells s) b) l ->
  entries_of E l le -> (length l < n)%nat ->
  exists r s', fid_chain n v0 u0 (32 * b) s = (Ret r, s') /\ same s s' /\
    match r with
    | Some item => exists nm b, E !! nm = Some (b, v0, u0) /\ item = 32 * b
    | None => forall x b' , (x, (b', v0, u0)) ∉ (nm, (b, v, u)) :: le
    end.
Proof.
  revert nm b v u l le s. induction n as [|n IH]; intros nm b v u l le s Hok Hq He Hch [Hmap Hall] Hn; [lia|].
  cbn [fid_chain]. rewrite !bind_read. destruct (read_entry _ _ _ _ _ _ _ _ _ Hok He) as (_ & -> & ->).
  destruct (_ && _) eqn:Et.
  { exists (Some (32 * b)), s. split; [done|]. split; [done|]. exists nm, b. split; [|done].
    rewrite He. repeat f_equal; lia. }
  rewrite bind_read. change (half (cells s) (32 * b + o_next)) with (link_of (cells s) b). rel s1 Hs1.
  destruct le as [|[nm' [[b' v'] u']] le]; (destruct l as [|c l]; [|]); try done.
  - cbn in Hch. rewrite Hch. exists None, s1. split; [done|]. split; [done|].
    intros x b' Hin. apply list_elem_of_singleton in Hin. injection Hin as -> -> -> ->. lia.
  - injection Hmap as <- Hmap. destruct Hch as (Hlk & Hb0 & Hch). rewrite Hlk.
    replace (b' =? 0) with false by lia. inversion_clear Hall as [|? ? He' Hall']. cbn [fst snd] in He'.
    pose proof (same_ok _ _ _ _ _ _ Hs1 Hok) as Hok1.
    destruct (quiet_blob _ _ _ _ _ _ _ _ _ Hok1 ltac:(by apply Hs1) He') as (s2 & Hs2 & A2).
    rewrite (bind_try _ _ _ _ _ A2).
    destruct (IH nm' b' v' u' l le s2) as (r & s3 & A3 & Hs3 & Hr); try done.
    + exact (same_ok _ _ _ _ _ _ Hs2 Hok1).
    + apply Hs2, Hs1, Hq.
    + by rewrite (proj1 Hs2), (proj1 Hs1).
    + cbn in Hn. lia.
    + exists r, s3. split; [done|]. split; [by do 2 (etrans; [done|])|]. destruct r as [item|]; [done|].
      intros x b0 [Hin|Hin]%elem_of_cons; [injection Hin as -> -> -> ->; lia|by apply (Hr x b0)].
Qed.

Definition fid_post (E : dents) (v u i : Z) (r : dres Z) : Prop :=
  match r with
  | Ret item => exists nm b, E !! nm = Some (b, v, u) /\ item = 32 * b
  | Fail code => code = ENOENT /\ forall nm b, E !! nm = Some (b, v, u) -> afs_dir_DirHash nm < i
  end.

Lemma fid_from_ok E C Y P n v u i s :
  dir_ok E C Y P s -> quiet s -> 0 <= i -> i + Z.of_nat n = 128 ->
  exists r s', fid_from n i v u s = (r, s') /\ same s s' /\ fid_post E v u i r.
Proof.
  revert i s. induction n as [|n IH]; intros i s Hok Hq Hi Hn; cbn [fid_from].
  { rel s1 Hs1. exists (Fail ENOENT), s1. split; [done|]. split; [done|]. split; [done|].
    intros nm b _. pose proof (hash_range nm). lia. }
  rewrite bind_read. fold (bucket i). destruct (mem_chain _ _ _ _ _ i (proj1 Hok) ltac:(lia)) as (l & Hl & Hlim).
  destruct (chain_entries_of E i l) as (le & Hle); [intros b Hb; by apply (ca_mem _ _ _ _ Hl)|].
  assert (Hnext : forall s1, same s s1 -> (forall nm b, (nm, (b, v, u)) ∉ le) ->
    exists r s', fid_from n (i + 1) v u s1 = (r, s') /\ same s s' /\ fid_post E v u i r).
  { intros s1 Hs1 Hno. destruct (IH (i + 1) s1) as (r & s2 & A2 & Hs2 & Hr);
      [by eapply same_ok|apply Hs1, Hq|lia|lia|].
    exists r, s2. split; [done|]. split; [by etrans|]. destruct r as [item|code]; [done|].
    destruct Hr as [-> Hr]. split; [done|]. intros nm b He. pose proof (Hr nm b He).
    destruct (Z.eq_dec (afs_dir_DirHash nm) i) as [Hh|]; [|lia]. exfalso. apply (Hno nm b).
    assert (Hin : (nm, (b, v, u)) ∈ le ++ []); [|by rewrite app_nil_r in Hin].
    apply (proj2 (bucket_entries_cons E C Y P (cells s) i 0 l le [] (proj1 Hok) Hl Hle
      ltac:(split; [constructor|intros; split; [intros Hx; by apply not_elem_of_nil in Hx|lia]])) nm (b, v, u)).
    split; [done|lia]. }
  pose proof (ca_chain _ _ _ _ Hl) as Hch. destruct Hle as [Hmap Hall].
  destruct le as [|[nm [[b v'] u']] le]; (destruct l as [|c l]; [|]); try done.
  - cbn in Hch. rewrite Hch. cbn [Z.eqb]. apply Hnext; [done|]. intros nm b. apply not_elem_of_nil.
  - injection Hmap as <- Hmap. destruct Hch as (Hhd & Hb0 & Hch). rewrite Hhd.
    replace (b =? 0) with false by lia. inversion_clear Hall as [|? ? He Hall']. cbn [fst snd] in He.
    destruct (quiet_blob _ _ _ _ _ _ _ _ _ Hok Hq He) as (s1 & Hs1 & A1).
    destruct (fid_chain_ok E C Y P chain_limit v u nm b v' u' l le s1) as (r & s2 & A2 & Hs2 & Hr); try done.
    { by eapply same_ok. } { apply Hs1, Hq. } { by rewrite (proj1 Hs1). } 
    rewrite (bind_try _ _ s (Ret r) s2) by (by rewrite (bind_ret _ _ _ _ _ A1)).
    destruct r as [item|].
    + rel s3 Hs3. exists (Ret item), s3. split; [done|]. split; [by do 2 (etrans; [done|])|done].
    + apply Hnext; [by etrans|]. intros x b0. apply Hr.
Qed.

(** Looking for a fid in a well-formed directory without I/O errors.
    [afs_dir_InverseLookup] gives a name that stands for the fid, or E2BIG when that
    name does not fit the buffer with its terminating zero, or ENOENT when no name
    stands for it. *)
Theorem dir_inverse_lookup E C Y P v u len s :
  dir_ok E C Y P s -> quiet s ->
  exists r s', afs_dir_InverseLookup v u len s = (r, s') /\ same s s' /\
    match r with
    | Ret nm => (exists b, E !! nm = Some (b, v, u)) /\ Z.of_nat (length nm) < len
    | Fail code =>
        (code = ENOENT /\ forall nm b, E !! nm <> Some (b, v, u))
        \/ (code = E2BIG /\ exists nm b, E !! nm = Some (b, v, u) /\ len <= Z.of_nat (length nm))
    end.
Proof.
  intros Hok Hq. unfold afs_dir_InverseLookup, FindFid.
  destruct (DRead_cases 0 s) as (s1 & Hs1 & [[A1 _]|[A1 Hq1]]);
    [|exfalso; by apply Hq1; [apply (present_0 _ _ _ _ _ Hok)|]].
  pose proof (same_ok _ _ _ _ _ _ Hs1 Hok) as Hok1.
  destruct (fid_from_ok E C Y P (Z.to_nat NHASHENT) v u 0 s1) as (r & s2 & A2 & Hs2 & Hr);
    [done|apply Hs1, Hq|lia|done|].
  destruct r as [item|code].
  - destruct Hr as (nm & b & He & ->).
    rewrite (bind_ret _ _ s (32 * b) s2) by (by rewrite (bind_ret _ _ _ _ _ A1)).
    rewrite bind_read. rel s3 Hs3.
    destruct (read_entry _ _ _ _ s2 _ _ _ _ (same_ok _ _ _ _ _ _ Hs2 Hok1) He) as (-> & _ & _).
    destruct (len <=? Z.of_nat (length nm)) eqn:El.
    + exists (Fail E2BIG), s3. split; [done|]. split; [by do 2 (etrans; [done|])|].
      right. split; [done|]. exists nm, b. split; [done|lia].
    + exists (Ret nm), s3. split; [done|]. split; [by do 2 (etrans; [done|])|].
      split; [by exists b|lia].
  - destruct Hr as [-> Hr]. exists (Fail ENOENT), s2.
    split; [apply bind_fail; by rewrite (bind_ret _ _ _ _ _ A1)|]. split; [by etrans|].
    left. split; [done|]. intros nm b He. pose proof (Hr nm b He). pose proof (hash_range nm). lia.
Qed.

(** ** Creating and deleting *)



(** ** Directories that the package can produce *)

(** One call of an operation that changes the directory, or of one that only reads
    it, with any I/O errors that happen meanwhile ([fl] are those of the call). *)
Inductive dir_op :=
| OpCreate (nm : list Z) (v u : Z)
| OpDelete (nm : list Z)
| OpChangeFid (nm : list Z) (old_fid : option (Z * Z)) (new_fid : Z * Z)
| OpLookup (nm : list Z).

Definition with_faults (fl : list bool) (s : dirf) : dirf :=
  mkDir (cells s) (present s) (dirty s) (held s) fl.

Definition run_op (op : dir_op) (fl : list bool) (s : dirf) : dirf :=
  let s := with_faults fl s in
  match op with
  | OpCreate nm v u => snd (afs_dir_Create nm v u s)
  | OpDelete nm => snd (afs_dir_Delete nm s)
  | OpChangeFid nm old_fid new_fid => snd (afs_dir_ChangeFid nm old_fid new_fid s)
  | OpLookup nm => snd (afs_dir_Lookup nm s)
  end.

Definition op_ok (op : dir_op) : Prop :=
  match op with
  | OpCreate nm _ _ => name_ok nm
  | _ => True
  end.

Inductive dir_reachable : dirf -> Prop :=
| reach_make me parent fl s :
    (forall x, is_u8 (cells s x)) ->
    dir_reachable (snd (afs_dir_MakeDir me parent (with_faults fl s)))
| reach_op op fl s : dir_reachable s -> op_ok op -> dir_reachable (run_op op fl s).

Lemma faults_ok E C Y P fl s : dir_ok E C Y P s -> dir_ok E C Y P (with_faults fl s).
Proof. done. Qed.

(** [C35] Every directory that [afs_dir_MakeDir] and any sequence of creations (of
    names of 1 to 1999 bytes), deletions, changes of fids and look-ups produce,
    whatever page accesses fail on the way, is well formed: page count, bitmaps,
    allocation map, entries and hash chains agree with a finite map from names to
    fids. *)
Theorem dir_reachable_ok s :
  dir_reachable s -> exists E C Y P, dir_ok E C Y P s.
Proof.
  induction 1 as [me parent fl s Hu|op fl s Hr (E & C & Y & P & Hok) Hop].
  - destruct (MakeDir_ok me parent (with_faults fl s) Hu) as (s' & E & C & P & -> & Hok & _). by exists E, C, ∅, P.
  - apply (faults_ok _ _ _ _ fl) in Hok. unfold run_op.
    destruct op as [nm v u|nm|nm old_fid new_fid|nm]; cbn [op_ok] in Hop.
    + destruct (Create_any _ _ _ _ nm v u _ Hok Hop) as (r & s' & E' & C' & P' & -> & Hok'). by exists E', C', Y, P'.
    + destruct (Delete_ok _ _ _ _ nm _ Hok) as ([[]|code] & s' & -> & _ & Hd).
      * destruct Hd as (b & v & u & C' & Y' & _ & Hok' & _). by exists (delete nm E), C', Y', P.
      * exists E, C, Y, P. by apply (same_ok _ _ _ _ _ _ (proj1 Hd)).
    + destruct (ChangeFid_ok _ _ _ _ nm old_fid new_fid _ Hok) as ([[]|code] & s' & -> & _ & _ & Hok').
      * by exists (changed E nm old_fid new_fid), C, Y, P.
      * by exists E, C, Y, P.
    + rewrite Lookup_offset. destruct (LookupOffset_ok _ _ _ _ nm _ Hok) as (r & s' & A & Hs & _).
      exists E, C, Y, P. unfold bind. rewrite A. destruct r; by apply (same_ok _ _ _ _ _ _ Hs).
Qed.

(** ** A fresh directory *)

Module Fresh.
Definition blank := mkDir (fun _ => 0) ∅ ∅ 0 [].
Definition dir := snd (afs_dir_MakeDir (1, 2) (3, 4) blank).

Lemma dir_fresh : exists E C P, dir_ok E C ∅ P dir /\ quiet dir
  /\ E = <[dotdot := (14, 3, 4)]> (<[dot := (13, 1, 2)]> ∅).
Proof.
  destruct (MakeDir_ok (1, 2) (3, 4) blank) as (s & E & C & P & A & Hok & Hq); [intros x; cbn; mlia|].
  destruct (Hq eq_refl) as (Hqs & _ & _ & HE). exists E, C, P.
  unfold dir. rewrite A. split; [done|]. split; [done|]. exact HE.
Qed.

Lemma a_ok : name_ok [97].
Proof. split; [done|]. split; [repeat constructor; lia|cbn; lia]. Qed.
End Fresh.



Lemma dir_lookup_witness :
  exists r s', afs_dir_Lookup dotdot Fresh.dir = (r, s') /\ same Fresh.dir s' /\ r = Ret (3, 4).
Proof.
  destruct Fresh.dir_fresh as (E & C & P & Hok & Hq & HE).
  destruct (proj1 (dir_lookup E C ∅ P dotdot Fresh.dir Hok)) as (r & s' & A & Hs & Hr).
  exists r, s'. split; [exact A|]. split; [exact Hs|]. destruct r as [[v u]|c].
  - destruct Hr as (b & Hb). rewrite HE, lookup_insert_eq in Hb. congruence.
  - destruct Hr as [[_ Hn]|[_ Hn]]; [|contradiction]. rewrite HE, lookup_insert_eq in Hn. discriminate.
Defined.

(** Counting the entries of the fresh directory. *)
Lemma dir_enumerate_witness :
  exists s', afs_dir_EnumerateDir (fun (n : nat) _ _ _ => (0, S n)) 0%nat Fresh.dir = (Ret (0, 2%nat), s').
Proof.
  destruct Fresh.dir_fresh as (E & C & P & Hok & Hq & HE).
  destruct (dir_enumerate (fun (n : nat) _ _ _ => (0, S n)) E C ∅ P 0%nat Fresh.dir Hok Hq
    (fun _ _ _ _ => eq_refl)) as (le & s' & A & Hs & Hp). exists s'. rewrite A.
  assert (Hl : length le = 2%nat).
  { rewrite Hp, length_map_to_list, HE, map_size_insert_None, map_size_insert_None, map_size_empty; reflexivity. }
  destruct le as [|[? [[? ?] ?]] [|[? [[? ?] ?]] [|? ?]]]; try discriminate Hl. reflexivity.
Defined.

Lemma dir_is_empty_witness :
  exists s', afs_dir_IsEmpty Fresh.dir = (Ret 0, s') /\ same Fresh.dir s'.
Proof.
  destruct Fresh.dir_fresh as (E & C & P & Hok & Hq & HE).
  destruct (proj1 (dir_is_empty E C ∅ P Fresh.dir Hok) Hq) as (r & s' & A & Hs & _ & Hr).
  exists s'. split; [|exact Hs]. rewrite A. f_equal. f_equal. apply Hr. intros nm t. rewrite HE.
  intros [[<- _]|[_ [[<- _]|[_ He]]%lookup_insert_Some]]%lookup_insert_Some;
    [right; reflexivity|left; reflexivity|]. rewrite lookup_empty in He. discriminate.
Defined.

Lemma dir_inverse_lookup_witness :
  exists s', afs_dir_InverseLookup 3 4 3 Fresh.dir = (Ret dotdot, s').
Proof.
  destruct Fresh.dir_fresh as (E & C & P & Hok & Hq & HE).
  destruct (dir_inverse_lookup E C ∅ P 3 4 3 Fresh.dir Hok Hq) as (r & s' & A & _ & Hr).
  assert (Honly : forall nm b, E !! nm = Some (b, 3, 4) -> nm = dotdot).
  { intros nm b. rewrite HE. intros [[<- _]|[_ [[_ He]|[_ He]]%lookup_insert_Some]]%lookup_insert_Some;
      [reflexivity|discriminate|]. rewrite lookup_empty in He. discriminate. }
  exists s'. rewrite A. destruct r as [nm|c].
  - destruct Hr as [[b Hb] _]. by rewrite (Honly _ _ Hb).
  - exfalso. destruct Hr as [[_ Hn]|(_ & nm & b & Hb & Hlen)].
    + apply (Hn dotdot 14). by rewrite HE, lookup_insert_eq.
    + rewrite (Honly _ _ Hb) in Hlen. cbn in Hlen. lia.
Defined.

Lemma dir_reachable_ok_witness :
  exists E C Y P, dir_ok E C Y P (run_op (OpCreate [97] 5 6) [false; true] Fresh.dir).
Proof.
  apply (dir_reachable_ok (run_op (OpCreate [97] 5 6) [false; true] Fresh.dir)).
  apply reach_op; [|exact Fresh.a_ok].
  unfold Fresh.dir. replace Fresh.blank with (with_faults [] Fresh.blank) by reflexivity.
  apply reach_make. intros x. cbn. mlia.
Defined.

(** ** Two details of the code *)

(** [afs_dir_Delete] clears 28 bytes per blob where a blob has 32: the last byte of a
    name of 45 bytes is still in the file after the entry has been deleted. *)
Example delete_leaves_name_bytes :
  let nm := repeat 97 45 in
  cells (snd ((afs_dir_Create nm 5 6 ;; afs_dir_Delete nm) Fresh.dir)) (32 * 15 + o_name + 44) = 97.
Proof. vm_compute. reflexivity. Qed.

(** A request for more blobs than a page has is granted: the search loop runs zero
    times and its result reads as success, giving the header of page 128. *)
Example find_blobs_oversized : fst (FindBlobs 65 Fresh.dir) = Ret (128 * EPP).
Proof. vm_compute. reflexivity. Qed.
