(* ===== verification/DirBuf.v ===== *)
(** * Directories: buffer references

    Every [DRead] and [DNew] takes a reference to a buffer and every [DRelease] gives
    one back; a buffer with references is never reused, and when all are referenced
    the server dies.  On a well-formed directory every operation gives back what it
    took, whatever I/O errors occur; on a directory with a circular hash chain the
    look-up does not. *)

From stdpp Require Import prelude list gmap list_numbers.
From Stdlib Require Import ZArith Lia ZifyBool.
From S2P Require Import Prelude ByteMem Dir DirRep DirAlloc DirOps DirWalk.

#[local] Open Scope Z_scope.
#[local] Open Scope dir_scope.

(** ** Programs that take [k r] references, where [r] is their result *)

Definition takes {A} (k : dres A -> Z) (x : D A) : Prop :=
  forall s, held (snd (x s)) = held s + k (fst (x s)).

Create HintDb takes.

Definition zero {A} (_ : A) : Z := 0.
Definition one_if_ok {A} (r : dres A) : Z := match r with Ret _ => 1 | Fail _ => 0 end.

Lemma takes_bind {A B} j k (x : D A) (f : A -> D B) :
  takes j x -> (forall a, takes (fun r => k r - j (Ret a)) (f a)) ->
  (forall c, j (Fail c) = k (Fail c)) -> takes k (bind x f).
Proof.
  intros Hx Hf Hc s. specialize (Hx s). unfold bind.
  destruct (x s) as [[a|c] s1]; cbn [fst snd] in *; [|by rewrite Hx, Hc].
  specialize (Hf a s1). cbv beta in Hf. lia.
Qed.

Lemma takes_weaken {A} j k (x : D A) : takes j x -> (forall r, j r = k r) -> takes k x.
Proof. intros Hx E s. by rewrite <- E. Qed.

Lemma takes_ret {A} (a : A) k : k (Ret a) = 0 -> takes k (ret a).
Proof. intros E s. cbn. lia. Qed.
Lemma takes_fail {A} c (k : dres A -> Z) : k (Fail c) = 0 -> takes k (fail c).
Proof. intros E s. cbn. lia. Qed.
Lemma takes_get {A} (f : (Z -> Z) -> A) k : (forall a, k (Ret a) = 0) -> takes k (get f).
Proof. intros E s. cbn. rewrite E. lia. Qed.
Lemma takes_put a l k : k (Ret tt) = 0 -> takes k (put a l).
Proof. intros E s. cbn. lia. Qed.
Lemma takes_DRead p : takes one_if_ok (DRead p).
Proof.
  intros s. unfold DRead. destruct (io_faults s) as [|b fl].
  - cbn [orb]. destruct (negb _); cbn; lia.
  - destruct b; cbn [orb]; [cbn; lia|]. destruct (negb _); cbn; lia.
Qed.
Lemma takes_DNew p k : k (Ret tt) = 1 -> takes k (DNew p).
Proof. intros E s. cbn [DNew fst snd held]. lia. Qed.
Lemma takes_DRelease p f k : k (Ret tt) = -1 -> takes k (DRelease p f).
Proof. intros E s. cbn. lia. Qed.
Lemma takes_try {A} (j : dres A -> Z) k (x : D A) :
  takes j x -> (forall r, k (Ret r) = j r) -> takes k (try x).
Proof.
  intros Hx E s. specialize (Hx s). unfold try. destruct (x s) as [r s1]. cbn [fst snd] in *. by rewrite E.
Qed.

(** A program that cannot fail, followed by another. *)
Lemma takes_then {A B} j k (x : D A) (f : A -> D B) :
  takes j x -> (forall s, exists a, fst (x s) = Ret a) ->
  (forall a, takes (fun r => k r - j (Ret a)) (f a)) -> takes k (bind x f).
Proof.
  intros Hx Hok Hf s. specialize (Hx s). destruct (Hok s) as [a Ea]. unfold bind.
  destruct (x s) as [r s1]; cbn [fst snd] in *. subst r. specialize (Hf a s1). cbv beta in Hf. lia.
Qed.

Definition ok_code {A} (k : dres A -> Z) (r : dres (dres A)) : Z :=
  match r with Ret r => k r | Fail _ => 0 end.

Lemma takes_then_try {A B} j k (x : D A) (f : dres A -> D B) :
  takes j x -> (forall r, takes (fun q => k q - j r) (f r)) -> takes k (bind (try x) f).
Proof.
  intros Hx Hf. apply (takes_then (ok_code j)); [by apply (takes_try j)| |done].
  intros s. unfold try. destruct (x s) as [r s1]. by exists r.
Qed.

(** Accounting step by step, with [bind] and a primitive at its head. *)
Ltac count := unfold zero, one_if_ok, ok_code; cbn; lia.
Ltac tk1 :=
  cbv beta zeta;
  match goal with
  | |- takes _ (ret _) => apply takes_ret; count
  | |- takes _ skip => apply takes_ret; count
  | |- takes _ (fail _) => apply takes_fail; count
  | |- takes _ (put _ _) => apply takes_put; count
  | |- takes _ (DRelease _ _) => apply takes_DRelease; count
  | |- takes _ (bind (get _) _) =>
      apply (takes_then zero); [apply takes_get; reflexivity|intros ?; by eexists|intros ?]
  | |- takes _ (bind (put _ _) _) =>
      apply (takes_then zero); [apply takes_put; reflexivity|intros ?; by eexists|intros ?]
  | |- takes _ (bind (DRelease _ _) _) =>
      apply (takes_then (fun _ => -1)); [apply takes_DRelease; reflexivity|intros ?; by eexists|intros ?]
  | |- takes _ (bind (DNew _) _) =>
      apply (takes_then (fun _ => 1)); [apply takes_DNew; reflexivity|intros ?; by eexists|intros ?]
  | |- takes _ (bind (try (DRead _)) _) =>
      apply (takes_then_try one_if_ok); [apply takes_DRead|intros [?|?]]
  | |- takes _ (bind (DRead _) _) =>
      apply (takes_bind one_if_ok); [apply takes_DRead|intros ?|intros ?; count]
  | |- takes _ (if ?b then _ else _) => destruct b
  end.
Ltac tk := repeat tk1.

(** A step that neither takes nor fails. *)
Lemma takes_free {B} k (x : D unit) (f : unit -> D B) :
  takes zero x -> (forall s, exists a, fst (x s) = Ret a) -> takes (fun r => k r - 0) (f tt) ->
  takes k (bind x f).
Proof. intros Hx Hok Hf. apply (takes_then zero); [done|done|]. by intros []. Qed.

Lemma never_fails {A} (x : D A) s a s' : x s = (Ret a, s') -> exists a, fst (x s) = Ret a.
Proof. intros ->. by exists a. Qed.

(** ** Allocation *)

Lemma takes_AddPage p : takes zero (AddPage p) /\ forall s, exists a, fst (AddPage p s) = Ret a.
Proof.
  unfold AddPage. split; [|intros s; destruct (0 <? p); by eexists].
  tk1. tk1. apply takes_free.
  - destruct (0 <? p); [by apply takes_put|by apply takes_ret].
  - intros s. destruct (0 <? p); by eexists.
  - tk.
Qed.

Lemma takes_extend i a : takes zero (extend_to i a) /\ forall s, exists r, fst (extend_to i a s) = Ret r.
Proof.
  unfold extend_to. split.
  - destruct (MAXPAGES <=? i); [|destruct (a =? EPP)].
    + tk1. apply takes_free.
      * cbv beta. destruct (_ =? 0); [by apply takes_put|by apply takes_ret].
      * intros s. destruct (_ =? 0); by eexists.
      * destruct (_ <? i); [|tk]. apply takes_free; [apply takes_AddPage|apply takes_AddPage|tk].
    + apply takes_free; [apply takes_AddPage|apply takes_AddPage|tk].
    + tk.
  - intros s. destruct (MAXPAGES <=? i); [|destruct (a =? EPP); [|by eexists]].
    + rewrite bind_read. destruct (half (cells s) o_pgcount =? 0); destruct (_ <? i);
        unfold bind, put, skip, ret; try (by eexists);
        match goal with |- context [AddPage i ?t] => destruct (proj2 (takes_AddPage i) t) as [r Er];
          destruct (AddPage i t) as [[]]; cbn in Er; try done; by eexists end.
    + unfold bind. destruct (proj2 (takes_AddPage i) s) as [r Er].
      destruct (AddPage i s) as [[]]; cbn in Er; [by eexists|done].
Qed.

Lemma takes_set_bits n p j : takes zero (set_bits n p j) /\ forall s, exists a, fst (set_bits n p j s) = Ret a.
Proof.
  revert j. induction n as [|n IH]; intros j; cbn [set_bits]; [split; [tk|by eexists]|].
  split.
  - tk. apply (takes_weaken zero); [apply IH|done].
  - intros s. rewrite bind_read. destruct (put_step (bitmap_byte p j)
      [u8 (Z.lor (cells s (bitmap_byte p j)) (Z.shiftl 1 (Z.land j 7)))] (fun _ => set_bits n p (j + 1)) s)
      as (s' & -> & _). apply IH.
Qed.

Lemma takes_clear_bits n p j : takes zero (clear_bits n p j) /\ forall s, exists a, fst (clear_bits n p j s) = Ret a.
Proof.
  revert j. induction n as [|n IH]; intros j; cbn [clear_bits]; [split; [tk|by eexists]|].
  split.
  - tk. apply (takes_weaken zero); [apply IH|done].
  - intros s. rewrite bind_read. destruct (put_step (bitmap_byte p j)
      [u8 (Z.land (cells s (bitmap_byte p j)) (Z.lnot (Z.shiftl 1 (Z.land j 7))))] (fun _ => clear_bits n p (j + 1)) s)
      as (s' & -> & _). apply IH.
Qed.

(** The loop gives back the reference to the header page. *)
Lemma takes_find_page fuel i n failed : takes (fun _ => -1) (find_page fuel i n failed).
Proof.
  revert i failed. induction fuel as [|fuel IH]; intros i failed; cbn [find_page]; [tk|].
  tk1. destruct (_ || _); [|apply (takes_weaken (fun _ => -1)); [apply IH|done]].
  apply takes_free; [apply takes_extend|apply takes_extend|]. cbv beta. tk1; [|tk]. tk1.
  destruct (scan_page _ _ _ _ _ _) as [f j]. destruct (negb f).
  - apply takes_free.
    + destruct (i <? MAXPAGES); [by apply takes_put|by apply takes_ret].
    + intros s. destruct (i <? MAXPAGES); by eexists.
    + tk1. apply takes_free; [apply takes_set_bits|apply takes_set_bits|tk].
  - tk1. apply (takes_weaken (fun _ => -1)); [apply IH|done].
Qed.

Lemma takes_FindBlobs n : takes zero (FindBlobs n).
Proof.
  unfold FindBlobs. tk1; [|tk]. apply (takes_weaken (fun _ => -1)); [apply takes_find_page|done].
Qed.

Lemma takes_FreeBlobs b n : takes zero (FreeBlobs b n).
Proof.
  unfold FreeBlobs. tk1; [|tk]. apply takes_free.
  - destruct (_ <? MAXPAGES); tk.
  - intros s. destruct (_ <? MAXPAGES); by eexists.
  - tk1. tk1; [|tk]. apply takes_free; [apply takes_clear_bits|apply takes_clear_bits|tk].
Qed.

(** ** Looking up *)

Lemma takes_GetBlobWithLimit b : takes one_if_ok (GetBlobWithLimit b).
Proof. unfold GetBlobWithLimit. tk. Qed.

Lemma takes_GetBlob b : takes one_if_ok (afs_dir_GetBlob b).
Proof.
  unfold afs_dir_GetBlob. apply (takes_bind one_if_ok); [apply takes_GetBlobWithLimit|intros ?|done]. tk.
Qed.

Lemma takes_GetVerifiedBlob b : takes one_if_ok (afs_dir_GetVerifiedBlob b).
Proof.
  unfold afs_dir_GetVerifiedBlob.
  apply (takes_bind one_if_ok); [apply takes_GetBlobWithLimit|intros [dir maxlen]|done]. tk.
Qed.

Lemma takes_run {A} k (x : D A) s r s' : takes k x -> x s = (r, s') -> held s' = held s + k r.
Proof. intros Hx E. specialize (Hx s). by rewrite E in Hx. Qed.

(** The loop of [FindItem] keeps both references when it finds the name and gives
    both back when it does not. *)
Lemma find_item_loop_held E C Y P h nm n l1 b l2 s r s' :
  dir_ok E C Y P s ->
  chain (link_of (cells s)) (half (cells s) (bucket h)) (l1 ++ b :: l2) ->
  (forall c, c ∈ b :: l2 -> on_chain E h c) -> (length (b :: l2) <= n)%nat ->
  find_item_loop n nm (link_addr h l1) (32 * b) s = (r, s') ->
  held s' = held s + match r with Ret _ => 0 | Fail _ => -2 end.
Proof.
  revert n l1 b s. induction l2 as [|c l2 IH]; intros n l1 b s Hok Hch Hon Hn;
    (destruct n as [|n]; [cbn in Hn; lia|]); pose proof (proj1 Hok) as Hm;
    destruct (Hon b ltac:(left)) as (nm' & v & u & He & Hh);
    pose proof (mem_name _ _ _ _ _ _ _ _ _ Hm He) as Hname;
    destruct (chain_split _ _ _ _ _ Hch) as (Hch2 & _);
    (destruct (decide (nm' = nm)) as [->|Hne];
     [cbn [find_item_loop]; rewrite bind_read, Hname, bool_decide_true by done; intros [= <- <-]; lia|]);
    destruct (find_item_miss n nm (link_addr h l1) b s ltac:(congruence)) as (s1 & Hs1 & Hh1 & ->).
  - cbn in Hch2. rewrite Hch2. cbn [Z.eqb]. rel s2 Hs2. intros [= <- <-]. lia.
  - destruct Hch2 as (Hlk & Hc0 & Hch2). rewrite Hlk. destruct (c =? 0) eqn:E0; [lia|].
    destruct (Hon c ltac:(right; left)) as (nmc & vc & uc & Hec & Hhc).
    pose proof (same_ok _ _ _ _ _ _ Hs1 Hok) as Hok1.
    destruct (verified_blob _ _ _ _ _ _ _ _ _ Hok1 Hec) as (s2 & Hs2 & [Ev|[Ev Hq]]);
      rewrite (bind_try _ _ _ _ _ Ev); pose proof (takes_run _ _ _ _ _ (takes_GetVerifiedBlob c) Ev) as Hh2;
      cbn in Hh2.
    + replace (32 * b + o_next) with (link_addr h (l1 ++ [b])) by (unfold link_addr; by rewrite last_snoc).
      intros E3. pose proof (IH n (l1 ++ [b]) c s2 (same_ok _ _ _ _ _ _ Hs2 Hok1)
        ltac:(rewrite <- app_assoc; by rewrite (proj1 Hs2), (proj1 Hs1))
        ltac:(intros x Hx; apply Hon; by right) ltac:(cbn in *; lia) E3). lia.
    + rel s3 Hs3. intros [= <- <-]. lia.
Qed.

Lemma FindItem_held E C Y P nm s r s' :
  dir_ok E C Y P s -> FindItem nm s = (r, s') ->
  held s' = held s + match r with Ret _ => 2 | Fail _ => 0 end.
Proof.
  intros Hok. unfold FindItem.
  destruct (DRead_cases 0 s) as (s1 & Hs1 & [[A1 _]|[A1 _]]);
    pose proof (takes_run _ _ _ _ _ (takes_DRead 0) A1) as Hh1; cbn in Hh1.
  2: { rewrite (bind_fail _ _ _ _ _ A1). intros [= <- <-]. lia. }
  rewrite (bind_ret _ _ _ _ _ A1), bind_read, (proj1 Hs1).
  fold (bucket (afs_dir_DirHash nm)). set (h := afs_dir_DirHash nm).
  destruct (mem_chain _ _ _ _ _ h (proj1 Hok) (hash_range nm)) as (l & Hl & Hlim).
  destruct l as [|b l].
  - rewrite (ca_chain _ _ _ _ Hl). cbn [Z.eqb]. rel s2 Hs2. intros [= <- <-]. lia.
  - destruct (ca_chain _ _ _ _ Hl) as (Hb & Hb0 & _). rewrite Hb. destruct (b =? 0) eqn:E0; [lia|].
    pose proof (same_ok _ _ _ _ _ _ Hs1 Hok) as Hok1.
    assert (Hon : on_chain E h b) by (apply (ca_mem _ _ _ _ Hl); left).
    destruct Hon as (nmb & v & u & He & _).
    destruct (verified_blob _ _ _ _ _ _ _ _ _ Hok1 He) as (s2 & Hs2 & [Ev|[Ev Hq]]);
      rewrite (bind_try _ _ _ _ _ Ev); pose proof (takes_run _ _ _ _ _ (takes_GetVerifiedBlob b) Ev) as Hh2;
      cbn in Hh2; [|rel s3 Hs3; intros [= <- <-]; lia].
    intros E3. apply (find_item_loop_held E C Y P h nm chain_limit [] b l s2) in E3.
    + destruct r; lia.
    + exact (same_ok _ _ _ _ _ _ Hs2 Hok1).
    + rewrite (proj1 Hs2), (proj1 Hs1). apply Hl.
    + intros c Hc. by apply (ca_mem _ _ _ _ Hl).
    + done.
Qed.

(** [FindItem], then something that deals with the two references. *)
Lemma found_then {B} E C Y P nm (f : Z * Z -> D B) s :
  dir_ok E C Y P s -> (forall a, takes (fun _ => -2) (f a)) ->
  held (snd ((do r <- FindItem nm; f r) s)) = held s.
Proof.
  intros Hok Hf. destruct (FindItem nm s) as [r s1] eqn:A1.
  pose proof (FindItem_held _ _ _ _ _ _ _ _ Hok A1) as Hh. destruct r as [a|c].
  - rewrite (bind_ret _ _ _ _ _ A1). specialize (Hf a s1). cbv beta in Hf. lia.
  - rewrite (bind_fail _ _ _ _ _ A1). cbn [snd]. lia.
Qed.

Lemma takes_create_at nm v u k : takes zero (create_at nm v u k).
Proof.
  unfold create_at. apply (takes_then_try one_if_ok); [apply takes_GetBlob|]. intros [ep|c]; [|tk].
  do 4 tk1. tk1; tk.
Qed.

(** ** Walking *)

Lemma takes_enum_chain {H} (proc : H -> list Z -> Z -> Z -> Z * H) n num hook :
  takes zero (enum_chain proc n num hook).
Proof.
  revert num hook. induction n as [|n IH]; intros num hook; cbn [enum_chain];
    (destruct (num =? 0); [tk|]); [tk|].
  apply (takes_then_try one_if_ok); [apply takes_GetVerifiedBlob|]. intros [ep|c]; [|tk].
  do 4 tk1. cbv beta. destruct (proc _ _ _ _) as [code hook']. tk1. tk1; [tk|].
  apply (takes_weaken zero); [apply IH|done].
Qed.

Lemma takes_enum_from {H} (proc : H -> list Z -> Z -> Z -> Z * H) n i hook :
  takes zero (enum_from proc n i hook).
Proof.
  revert i hook. induction n as [|n IH]; intros i hook; cbn [enum_from]; [tk|].
  tk1. apply (takes_bind zero); [apply takes_enum_chain|intros r|done]. tk1; [tk|].
  apply (takes_weaken zero); [apply IH|done].
Qed.

(** Programs without an error exit. *)
Definition total {A} (x : D A) : Prop := forall s, exists a, fst (x s) = Ret a.

Lemma total_bind {A B} (x : D A) (f : A -> D B) :
  total x -> (forall a, total (f a)) -> total (bind x f).
Proof.
  intros Hx Hf s. destruct (Hx s) as [a Ea]. unfold bind. destruct (x s) as [r s1]. cbn in Ea. subst r. apply Hf.
Qed.
Lemma total_try {A} (x : D A) : total (try x).
Proof. intros s. unfold try. destruct (x s) as [r s1]. by exists r. Qed.
Lemma total_prim : (forall A (a : A), total (ret a)) /\ (forall A (f : (Z -> Z) -> A), total (get f))
  /\ (forall p f, total (DRelease p f)).
Proof. repeat split; intros; intros s; by eexists. Qed.

Ltac tot :=
  repeat first [ apply total_prim | apply total_try | apply total_bind; [|intros ?] ].

Lemma total_enum_chain {H} (proc : H -> list Z -> Z -> Z -> Z * H) n num hook :
  total (enum_chain proc n num hook).
Proof.
  revert num hook. induction n as [|n IH]; intros num hook; cbn [enum_chain];
    (destruct (num =? 0); [tot|]); [tot|].
  apply total_bind; [tot|]. intros [ep|c]; tot. destruct (proc _ _ _ _) as [code hook'].
  tot. destruct (negb _); [tot|apply IH].
Qed.

Lemma total_enum_from {H} (proc : H -> list Z -> Z -> Z -> Z * H) n i hook :
  total (enum_from proc n i hook).
Proof.
  revert i hook. induction n as [|n IH]; intros i hook; cbn [enum_from]; tot; [apply total_enum_chain|].
  destruct (negb _); [tot|apply IH].
Qed.

Lemma takes_EnumerateDir {H} (proc : H -> list Z -> Z -> Z -> Z * H) hook :
  takes zero (afs_dir_EnumerateDir proc hook).
Proof.
  unfold afs_dir_EnumerateDir. tk1; [|tk].
  apply (takes_then zero); [apply takes_enum_from|apply total_enum_from|intros ?]. tk.
Qed.

Lemma takes_empty_chain n num : takes zero (empty_chain n num) /\ total (empty_chain n num).
Proof.
  revert num. induction n as [|n IH]; intros num; cbn [empty_chain];
    (destruct (num =? 0); [split; [tk|tot]|]); [split; [tk|tot]|]. split.
  - apply (takes_then_try one_if_ok); [apply takes_GetVerifiedBlob|]. intros [ep|c]; [|tk].
    tk1. tk1; [tk|]. do 2 tk1. apply (takes_weaken zero); [apply IH|done].
  - apply total_bind; [tot|]. intros [ep|c]; tot. destruct (_ && _); tot. apply IH.
Qed.

Lemma takes_IsEmpty : takes zero afs_dir_IsEmpty.
Proof.
  unfold afs_dir_IsEmpty. tk1; [|tk]. apply (takes_weaken (fun _ => -1)); [|done].
  generalize 0 as i. induction (Z.to_nat NHASHENT) as [|n IH]; intros i; cbn [empty_from]; [tk|].
  tk1. apply (takes_then zero); [apply takes_empty_chain|apply takes_empty_chain|intros found].
  tk1; [tk|]. apply (takes_weaken (fun _ => -1)); [apply IH|done].
Qed.

Lemma takes_Length : takes zero afs_dir_Length.
Proof. unfold afs_dir_Length. tk1; tk. Qed.

Lemma fid_chain_held E C Y P n v0 u0 nm b v u l le s r s' :
  dir_ok E C Y P s -> E !! nm = Some (b, v, u) -> chain (link_of (cells s)) (link_of (cells s) b) l ->
  entries_of E l le -> (length l < n)%nat -> fid_chain n v0 u0 (32 * b) s = (r, s') ->
  held s' = held s + match r with Ret (Some _) => 0 | _ => -1 end.
Proof.
  revert nm b v u l le s. induction n as [|n IH]; intros nm b v u l le s Hok He Hch [Hmap Hall] Hn; [lia|].
  cbn [fid_chain]. rewrite !bind_read. destruct (_ && _); [intros [= <- <-]; lia|].
  rewrite bind_read. change (half (cells s) (32 * b + o_next)) with (link_of (cells s) b). rel s1 Hs1.
  destruct le as [|[nm' [[b' v'] u']] le]; (destruct l as [|c l]; [|]); try done.
  - cbn in Hch. rewrite Hch. intros [= <- <-]. lia.
  - injection Hmap as <- Hmap. destruct Hch as (Hlk & Hb0 & Hch). rewrite Hlk.
    replace (b' =? 0) with false by lia. inversion_clear Hall as [|? ? He' Hall']. cbn [fst snd] in He'.
    pose proof (same_ok _ _ _ _ _ _ Hs1 Hok) as Hok1.
    destruct (verified_blob _ _ _ _ _ _ _ _ _ Hok1 He') as (s2 & Hs2 & [Ev|[Ev _]]);
      rewrite (bind_try _ _ _ _ _ Ev); pose proof (takes_run _ _ _ _ _ (takes_GetVerifiedBlob b') Ev) as Hh2;
      cbn in Hh2; [|intros [= <- <-]; lia].
    intros E3. apply (IH nm' b' v' u' l le s2) in E3; try done.
    + destruct r as [[?|]|]; lia.
    + exact (same_ok _ _ _ _ _ _ Hs2 Hok1).
    + by rewrite (proj1 Hs2), (proj1 Hs1).
    + cbn in Hn. lia.
Qed.

(** Programs that change neither contents nor pages. *)
Definition reads {A} (x : D A) : Prop := forall s, same s (snd (x s)).

Lemma reads_bind {A B} (x : D A) (f : A -> D B) : reads x -> (forall a, reads (f a)) -> reads (bind x f).
Proof.
  intros Hx Hf s. specialize (Hx s). unfold bind. destruct (x s) as [[a|c] s1]; [|done].
  etrans; [exact Hx|apply Hf].
Qed.
Lemma reads_try {A} (x : D A) : reads x -> reads (try x).
Proof. intros Hx s. specialize (Hx s). unfold try. by destruct (x s). Qed.
Lemma reads_prim :
  (forall A (a : A), reads (ret a)) /\ (forall A c, reads (@fail A c))
  /\ (forall A (f : (Z -> Z) -> A), reads (get f)) /\ (forall p f, reads (DRelease p f))
  /\ (forall p, reads (DRead p)).
Proof.
  split_and!; try (intros; intros s; by repeat split). intros p s.
  destruct (DRead_cases p s) as (s' & Hs & [[E _]|[E _]]); by rewrite E.
Qed.
Ltac rd := repeat first [apply reads_prim | apply reads_try | apply reads_bind; [|intros ?]].

Lemma reads_GetVerifiedBlob b : reads (afs_dir_GetVerifiedBlob b).
Proof.
  unfold afs_dir_GetVerifiedBlob, GetBlobWithLimit. rd. destruct a as [dir maxlen]. rd. destruct (negb _); rd.
Qed.

Lemma reads_fid_chain n v u b : reads (fid_chain n v u b).
Proof.
  revert b. induction n as [|n IH]; intros b; cbn [fid_chain]; rd. destruct (_ && _); rd.
  destruct (_ =? 0); [rd|]. apply reads_bind; [apply reads_try, reads_GetVerifiedBlob|].
  intros [curr|c]; [apply IH|rd].
Qed.

(** [fid_from] gives back the header and keeps the entry it returns. *)
Lemma fid_from_held E C Y P n v u i s r s' :
  dir_ok E C Y P s -> 0 <= i -> i + Z.of_nat n = 128 -> fid_from n i v u s = (r, s') ->
  held s' = held s + match r with Ret _ => 0 | Fail _ => -1 end.
Proof.
  revert i s. induction n as [|n IH]; intros i s Hok Hi Hn; cbn [fid_from].
  { rel s1 Hs1. intros [= <- <-]. lia. }
  rewrite bind_read. fold (bucket i). destruct (mem_chain _ _ _ _ _ i (proj1 Hok) ltac:(lia)) as (l & Hl & Hlim).
  destruct (chain_entries_of E i l) as (le & Hmap & Hall); [intros b Hb; by apply (ca_mem _ _ _ _ Hl)|].
  pose proof (ca_chain _ _ _ _ Hl) as Hch.
  destruct le as [|[nm [[b v'] u']] le]; (destruct l as [|c l]; [|]); try done.
  - cbn in Hch. rewrite Hch. cbn [Z.eqb]. apply IH; [done|lia|lia].
  - injection Hmap as <- Hmap. destruct Hch as (Hhd & Hb0 & Hch). rewrite Hhd.
    replace (b =? 0) with false by lia. inversion_clear Hall as [|? ? He Hall']. cbn [fst snd] in He.
    destruct (verified_blob _ _ _ _ _ _ _ _ _ Hok He) as (s1 & Hs1 & [Ev|[Ev _]]);
      pose proof (takes_run _ _ _ _ _ (takes_GetVerifiedBlob b) Ev) as Hh1; cbn in Hh1.
    2: { rewrite (bind_try _ _ s (Fail EIO) s1) by (by apply bind_fail). rel s2 Hs2. intros [= <- <-]. lia. }
    destruct (fid_chain chain_limit v u (32 * b) s1) as [r1 s2] eqn:A2.
    rewrite (bind_try _ _ s r1 s2) by (by rewrite (bind_ret _ _ _ _ _ Ev)).
    pose proof (reads_fid_chain chain_limit v u (32 * b) s1) as Hs2. rewrite A2 in Hs2. cbn [snd] in Hs2.
    pose proof (same_ok _ _ _ _ _ _ Hs1 Hok) as Hok1.
    apply (fid_chain_held E C Y P chain_limit v u nm b v' u' l le s1) in A2; try done.
    2: { by rewrite (proj1 Hs1). }
    destruct r1 as [[item|]|code].
    + rel s3 Hs3. intros [= <- <-]. lia.
    + intros E3. apply (IH (i + 1) s2) in E3; [lia|exact (same_ok _ _ _ _ _ _ Hs2 Hok1)|lia|lia].
    + rel s3 Hs3. intros [= <- <-]. lia.
Qed.

(** [C36] Every operation on a well-formed directory gives back all the buffer
    references it takes, on success and on every error, whatever page accesses
    fail. *)
Theorem dir_buffers_balanced E C Y P s :
  dir_ok E C Y P s ->
  (forall nm v u, held (snd (afs_dir_Create nm v u s)) = held s)
  /\ (forall nm, held (snd (afs_dir_Delete nm s)) = held s)
  /\ (forall nm o n, held (snd (afs_dir_ChangeFid nm o n s)) = held s)
  /\ (forall nm, held (snd (afs_dir_Lookup nm s)) = held s)
  /\ (forall nm, held (snd (afs_dir_LookupOffset nm s)) = held s)
  /\ (forall v u len, held (snd (afs_dir_InverseLookup v u len s)) = held s)
  /\ held (snd (afs_dir_IsEmpty s)) = held s /\ held (snd (afs_dir_Length s)) = held s
  /\ (forall H (proc : H -> list Z -> Z -> Z -> Z * H) hook,
        held (snd (afs_dir_EnumerateDir proc hook s)) = held s).
Proof.
  intros Hok. split_and!.
  - intros nm v u. unfold afs_dir_Create. case_bool_decide; [done|].
    destruct (FindItem nm s) as [r s1] eqn:A1. pose proof (FindItem_held _ _ _ _ _ _ _ _ Hok A1) as Hh.
    rewrite (bind_try _ _ _ _ _ A1). destruct r as [[prev item]|c]; [cbn; lia|].
    destruct (negb _); [cbn; lia|].
    pose proof (takes_bind zero zero (FindBlobs (afs_dir_NameBlobs nm))
      (fun k => if k <? 0 then fail EFBIG else create_at nm v u k) (takes_FindBlobs _)
      ltac:(intros k; tk1; [tk|apply (takes_weaken zero); [apply takes_create_at|done]]) ltac:(done) s1) as Ht.
    unfold zero in Ht. etrans; [exact Ht|]. lia.
  - intros nm. apply (found_then _ _ _ _ _ _ _ Hok). intros [prev item]. do 6 tk1.
    apply (takes_weaken zero); [apply takes_FreeBlobs|done].
  - intros nm o n. apply (found_then _ _ _ _ _ _ _ Hok). intros [prev item]. do 3 tk1.
    match goal with |- takes _ (bind (if ?b then _ else _) _) => destruct b end.
    + apply (takes_then zero); [tk|intros t; by eexists|intros ?; tk].
    + apply (takes_then zero); [tk|intros t; by eexists|intros ?; tk].
  - intros nm. apply (found_then _ _ _ _ _ _ _ Hok). intros [prev item]. tk.
  - intros nm. apply (found_then _ _ _ _ _ _ _ Hok). intros [prev item]. tk.
  - intros v u len. unfold afs_dir_InverseLookup, FindFid.
    destruct (DRead_cases 0 s) as (s1 & Hs1 & [[A1 _]|[A1 _]]);
      pose proof (takes_run _ _ _ _ _ (takes_DRead 0) A1) as Hh1; cbn in Hh1.
    2: { rewrite (bind_fail _ _ s EIO s1) by (by apply bind_fail). cbn [snd]. lia. }
    destruct (fid_from (Z.to_nat NHASHENT) 0 v u s1) as [r s2] eqn:A2.
    pose proof (fid_from_held E C Y P (Z.to_nat NHASHENT) v u 0 s1 r s2 (same_ok _ _ _ _ _ _ Hs1 Hok) ltac:(lia) eq_refl A2) as Hh2.
    destruct r as [item|c].
    + rewrite (bind_ret _ _ s item s2) by (by rewrite (bind_ret _ _ _ _ _ A1)). rewrite bind_read. rel s3 Hs3.
      destruct (len <=? _); cbn [snd ret fail]; lia.
    + rewrite (bind_fail _ _ s c s2) by (by rewrite (bind_ret _ _ _ _ _ A1)). cbn [snd]. lia.
  - pose proof (takes_IsEmpty s) as Ht. unfold zero in Ht. lia.
  - pose proof (takes_Length s) as Ht. unfold zero in Ht. lia.
  - intros H proc hook. pose proof (takes_EnumerateDir proc hook s) as Ht. unfold zero in Ht. lia.
Qed.

Lemma dir_buffers_balanced_witness :
  held (snd (afs_dir_Create [97] 5 6 Fresh.dir)) = held Fresh.dir.
Proof.
  destruct Fresh.dir_fresh as (E & C & P & Hok & Hq & HE).
  apply (proj1 (dir_buffers_balanced E C ∅ P Fresh.dir Hok)).
Defined.

(** ** A circular chain *)

Lemma verified_quiet b z s :
  quiet s -> b / 64 ∈ present s -> 32 * b + o_name <= z <= 32 * b + (AFS_PAGESIZE - 32 * (b mod 64) - 1) ->
  cells s z = 0 ->
  exists s', same s s' /\ held s' = held s + 1 /\ afs_dir_GetVerifiedBlob b s = (Ret (32 * b), s').
Proof.
  intros Hq Hp Hz Hc. unfold afs_dir_GetVerifiedBlob, GetBlobWithLimit.
  destruct (DRead_cases (Z.shiftr b 6) s) as (s1 & Hs1 & [[A1 _]|[A1 Hq1]]).
  2: { rewrite blob_page in Hq1. exfalso. by apply Hq1. }
  pose proof (takes_run _ _ _ _ _ (takes_DRead _) A1) as Hh. exists s1. split; [done|]. split; [exact Hh|].
  rewrite (bind_ret _ _ _ (32 * b, AFS_PAGESIZE - 32 * Z.land b (EPP - 1) - 1) s1)
    by (rewrite (bind_ret _ _ _ _ _ A1); unfold ret; by rewrite blob_addr).
  rewrite bind_read, blob_pos.
  rewrite (name_end_nul _ _ _ _ z); [done|lia|by rewrite (proj1 Hs1)|dlia].
Qed.

(** An entry that is its own successor. *)
Record circular (nm : list Z) (b z : Z) (s : dirf) : Prop := {
  ci_quiet : quiet s;
  ci_pages : 0 ∈ present s /\ b / 64 ∈ present s;
  ci_head : half (cells s) (bucket (afs_dir_DirHash nm)) = b;
  ci_loop : b <> 0 /\ link_of (cells s) b = b;
  ci_name : name_at (cells s) (32 * b) <> nm;
  ci_nul : 32 * b + o_name <= z <= 32 * b + (AFS_PAGESIZE - 32 * (b mod 64) - 1) /\ cells s z = 0
}.

Lemma circular_same nm b z s s' : same s s' -> circular nm b z s -> circular nm b z s'.
Proof. intros (Hc & Hp & Hq) [? ? ? ? ? ?]. split; rewrite ?Hc, ?Hp; auto. Qed.

Lemma circular_loop nm b z n prev s :
  circular nm b z s ->
  exists s', find_item_loop n nm prev (32 * b) s = (Fail EIO, s') /\ held s' = held s - 1.
Proof.
  revert prev s. induction n as [|n IH]; intros prev s Hc; [by eexists|].
  pose proof Hc as [Hq [_ Hp] _ [Hb Hl] Hn [Hz Hz0]].
  destruct (find_item_miss n nm prev b s Hn) as (s1 & Hs1 & Hh1 & ->). rewrite Hl.
  replace (b =? 0) with false by lia. pose proof (circular_same _ _ _ _ _ Hs1 Hc) as Hc1.
  destruct (verified_quiet b z s1) as (s2 & Hs2 & Hh2 & A2); [apply Hc1|apply Hc1|done|apply Hc1|].
  rewrite (bind_try _ _ _ _ _ A2).
  destruct (IH (32 * b + o_next) s2 (circular_same _ _ _ _ _ Hs2 Hc1)) as (s3 & A3 & Hh3).
  exists s3. split; [done|lia].
Qed.

(** Looking up a name whose hash chain is circular ends, with EIO, but one
    buffer reference is never given back: [FindItem] leaves its loop at the limit
    without releasing the current entry.  Enough such look-ups exhaust the buffers. *)
Theorem dir_circular_chain_leaks nm b z s :
  circular nm b z s -> exists s', afs_dir_Lookup nm s = (Fail EIO, s') /\ held s' = held s + 1.
Proof.
  intros Hc. pose proof Hc as [Hq [Hp0 Hp] Hh [Hb Hl] Hn [Hz Hz0]]. unfold afs_dir_Lookup, FindItem.
  destruct (DRead_cases 0 s) as (s1 & Hs1 & [[A1 _]|[A1 Hq1]]); [|exfalso; by apply Hq1].
  pose proof (takes_run _ _ _ _ _ (takes_DRead _) A1) as Hh1. cbn in Hh1.
  pose proof (circular_same _ _ _ _ _ Hs1 Hc) as Hc1.
  destruct (verified_quiet b z s1) as (s2 & Hs2 & Hh2 & A2); [apply Hc1|apply Hc1|done|apply Hc1|].
  destruct (circular_loop nm b z chain_limit (bucket (afs_dir_DirHash nm)) s2
              (circular_same _ _ _ _ _ Hs2 Hc1)) as (s3 & A3 & Hh3).
  exists s3. split; [|lia]. apply bind_fail. rewrite (bind_ret _ _ _ _ _ A1), bind_read.
  fold (bucket (afs_dir_DirHash nm)). rewrite (ci_head _ _ _ _ Hc1). replace (b =? 0) with false by lia.
  by rewrite (bind_try _ _ _ _ _ A2).
Qed.

Module Circle.
Definition image : Z -> Z :=
  upd (upd (fun _ => 0) (bucket (afs_dir_DirHash [97])) (be16 13)) (32 * 13 + 2) (be16 13).
Definition dir := mkDir image {[0]} ∅ 0 [].
End Circle.

(** A directory whose only entry, with an empty name, is linked to itself. *)
Lemma dir_circular_chain_leaks_witness :
  exists s', afs_dir_Lookup [97] Circle.dir = (Fail EIO, s') /\ held s' = 1.
Proof.
  apply (dir_circular_chain_leaks [97] 13 (32 * 13 + 12) Circle.dir). split.
  - reflexivity.
  - split; change (present Circle.dir) with ({[0]} : gset Z); apply elem_of_singleton; reflexivity.
  - vm_compute. reflexivity.
  - split; [lia|]. vm_compute. reflexivity.
  - vm_compute. discriminate.
  - split; [split; vm_compute; discriminate|]. vm_compute. reflexivity.
Defined.
