(* ===== verification/DirSalv.v ===== *)
(** * The directory salvager (dir/salvage.c)

    [DirOK] checks a directory against every redundancy of its format; [DirSalvage]
    copies the entries of a damaged directory into a new one.  Both work on the pages
    of [Dir].  Nothing in the sources ever gives [DErrno] a value other than zero, so
    the branches for [DErrno != 0] (which call [Die]) cannot be taken and are left
    out.  A name is read up to the end of its page, as [name_at] says. *)

From stdpp Require Import prelude list gmap.
From Stdlib Require Import ZArith Lia ZifyBool.
From S2P Require Import Prelude ByteMem Dir.

#[local] Open Scope Z_scope.
#[local] Open Scope dir_scope.

Definition MAXENAME := 256.

(** ** Pages in use *)

(** Old style: the first page whose map entry says that it is all free. *)
Fixpoint old_style_pages (n : nat) (i : Z) (d : Z -> Z) : Z :=
  match n with
  | O => 0
  | S n => if schar (d (o_alloMap + i)) =? EPP then i else old_style_pages n (i + 1) d
  end.
Definition ComputeUsedPages (d : Z -> Z) : Z :=
  if negb (half d o_pgcount =? 0) then half d o_pgcount
  else
    let usedPages := old_style_pages (Z.to_nat MAXPAGES) 0 d in
    if usedPages =? 0 then MAXPAGES else usedPages.

(** ** [DirOK] *)

(** The loop over the allocation map: the number of used pages, unless the map is bad. *)
Fixpoint allo_scan (n : nat) (i : Z) (k : bool) (up : Z) (d : Z -> Z) : option Z :=
  match n with
  | O => Some up
  | S n =>
      let j := schar (d (o_alloMap + i)) in
      if (j <? 0) || ((if i =? 0 then EPP - (13 + 2) else EPP) <? j) then None
      else if k then if negb (j =? EPP) then None else allo_scan n (i + 1) k up d
      else if j =? EPP then allo_scan n (i + 1) true up d
      else allo_scan n (i + 1) k (up + 1) d
  end.

Definition byte_count (k : Z) : Z :=
  fold_left (fun count b => if negb (Z.land k b =? 0) then count + 1 else count)
    [128; 64; 32; 16; 8; 4; 2; 1] 0.
Definition page_count (d : Z -> Z) (page : Z) : Z :=
  fold_left (fun count j => count + byte_count (d (page * AFS_PAGESIZE + o_freebitmap + j)))
    [0; 1; 2; 3; 4; 5; 6; 7] 0.

(** The tag and the count of free entries of pages [i] and following. *)
Fixpoint check_pages (n : nat) (i : Z) : D bool :=
  match n with
  | O => ret true
  | S n =>
      do r <- try (DRead i);
      match r with
      | Fail _ => ret false
      | Ret _ =>
          do d <- get (fun d => d);
          if negb (half d (i * AFS_PAGESIZE + o_tag) =? 1234) then DRelease i false ;; ret false
          else
            let count := EPP - page_count d i in
            if (i <? MAXPAGES) && negb (Z.land count 255 =? Z.land (d (o_alloMap + i)) 255)
            then DRelease i false ;; ret false
            else DRelease i false ;; check_pages n (i + 1)
      end
  end.

(** The map of entries in memory: all zero but for the headers. *)
Definition ea_init (usedPages : Z) (i : Z) : Z :=
  if i <? usedPages * (EPP / 8) then
    if i =? 0 then 255 else if i =? 1 then 31 else if i mod 8 =? 0 then 1 else 0
  else 0.
Fixpoint ea_mark (n : nat) (e : Z) (eaMap : Z -> Z) : Z -> Z :=
  match n with
  | O => eaMap
  | S n => ea_mark n (e + 1)
             (fun x => if x =? Z.shiftr e 3 then Z.lor (eaMap x) (Z.shiftl 1 (Z.land e 7)) else eaMap x)
  end.

Record scan := mkScan {
  eaMap : Z -> Z;
  entcount : Z;
  havedot : bool;
  havedotdot : bool
}.

(** One hash chain; [entcount] ends the walk before the fuel does. *)
Fixpoint check_chain (n : nat) (i maxents entry : Z) (a : scan) : D (option scan) :=
  if entry =? 0 then ret (Some a)
  else match n with
  | O => ret None
  | S n =>
      if (entry <? 0) || (maxents <=? entry) then ret None
      else
        do r <- try (afs_dir_GetBlob entry);
        match r with
        | Fail _ => ret None
        | Ret ep =>
            do ne <- get (fun d => half d (ep + o_next));
            do flag <- get (fun d => d ep);
            do nm <- get (fun d => name_at d ep);
            let count := entcount a + 1 in
            let a' := mkScan (ea_mark (Z.to_nat (afs_dir_NameBlobs nm)) entry (eaMap a)) count
                        (havedot a || (entry =? 13)) (havedotdot a || (entry =? 14)) in
            if (maxents <=? count) || bool_decide (nm = []) || negb (flag =? FFIRST)
               || (MAXENAME <=? Z.of_nat (length nm)) || negb (afs_dir_DirHash nm =? i)
               || (entry =? 13) && negb (bool_decide (nm = dot))
               || (entry =? 14) && negb (bool_decide (nm = dotdot))
            then DRelease (page_of ep) false ;; ret None
            else DRelease (page_of ep) false ;; check_chain n i maxents ne a'
        end
  end.

Fixpoint check_chains (n : nat) (i maxents : Z) (a : scan) : D (option scan) :=
  match n with
  | O => ret (Some a)
  | S n =>
      do entry <- get (fun d => half d (o_hashTable + 2 * i));
      do r <- check_chain (Z.to_nat maxents) i maxents entry a;
      match r with
      | None => ret None
      | Some a => check_chains n (i + 1) maxents a
      end
  end.

(** The computed map against the maps in the pages. *)
Fixpoint check_maps (n : nat) (i : Z) (eaMap : Z -> Z) : D bool :=
  match n with
  | O => ret true
  | S n =>
      do r <- try (DRead i);
      match r with
      | Fail _ => ret false
      | Ret _ =>
          do d <- get (fun d => d);
          if forallb (fun j => eaMap (i * (EPP / 8) + j) =? d (i * AFS_PAGESIZE + o_freebitmap + j))
               [0; 1; 2; 3; 4; 5; 6; 7]
          then DRelease i false ;; check_maps n (i + 1) eaMap
          else DRelease i false ;; ret false
      end
  end.

Definition DirOK : D Z :=
  let bad := DRelease 0 false ;; ret 0 in
  do r <- try (DRead 0);
  match r with
  | Fail _ => ret 0
  | Ret _ =>
      do d <- get (fun d => d);
      if negb (half d o_tag =? 1234) then bad
      else
        match allo_scan (Z.to_nat MAXPAGES) 0 false 0 d with
        | None => bad
        | Some up =>
            let usedPages := ComputeUsedPages d in
            if usedPages <? up then bad
            else
              do ok <- check_pages (Z.to_nat usedPages) 0;
              if negb ok then bad
              else
                do r <- check_chains (Z.to_nat NHASHENT) 0 (usedPages * EPP)
                          (mkScan (ea_init usedPages) 0 false false);
                match r with
                | None => bad
                | Some a =>
                    if negb (havedot a) || negb (havedotdot a) then bad
                    else
                      do ok <- check_maps (Z.to_nat usedPages) 0 (eaMap a);
                      DRelease 0 false ;; ret (if ok then 1 else 0)
                end
        end
  end.

(** ** [DirSalvage] *)

(** One hash chain of [from], its entries created in [to]; [None] when the fuel runs
    out.  Errors of [afs_dir_Create] and bad links end the chain. *)
Fixpoint salvage_chain (n : nat) (usedPages entry : Z) (from to : dirf) : option (dirf * dirf) :=
  match n with
  | O => None
  | S n =>
      if entry =? 0 then Some (from, to)
      else if (entry <? 0) || (usedPages * EPP <=? entry) then Some (from, to)
      else
        match afs_dir_GetBlob entry from with
        | (Fail _, from) => Some (from, to)
        | (Ret ep, from) =>
            let tname := take (Z.to_nat (MAXENAME - 1)) (name_at (cells from) ep) in
            let next := half (cells from) (ep + o_next) in
            let vnode := word (cells from) (ep + o_vnode) in
            let vunique := word (cells from) (ep + o_vunique) in
            let from' := snd (DRelease (page_of ep) false from) in
            if negb (bool_decide (tname = dot)) && negb (bool_decide (tname = dotdot)) then
              match afs_dir_Create tname vnode vunique to with
              | (Ret _, to) => salvage_chain n usedPages next from' to
              | (Fail _, to) => Some (from', to)
              end
            else salvage_chain n usedPages next from' to
        end
  end.

Fixpoint salvage_chains (fuel n : nat) (i usedPages : Z) (from to : dirf) : option (dirf * dirf) :=
  match n with
  | O => Some (from, to)
  | S n =>
      match salvage_chain fuel usedPages (half (cells from) (o_hashTable + 2 * i)) from to with
      | None => None
      | Some (from, to) => salvage_chains fuel n (i + 1) usedPages from to
      end
  end.

(** The returned code is [DErrno], zero. *)
Definition DirSalvage (fuel : nat) (me parent : Z * Z) (from to : dirf) : option (Z * dirf * dirf) :=
  let to := snd (afs_dir_MakeDir me parent to) in
  match DRead 0 from with
  | (Fail _, from) => Some (0, from, to)
  | (Ret _, from) =>
      match salvage_chains fuel (Z.to_nat NHASHENT) 0 (ComputeUsedPages (cells from)) from to with
      | None => None
      | Some (from, to) => Some (0, snd (DRelease 0 false from), to)
      end
  end.
