(* ===== verification/DirSalvOk.v ===== *)
(** * The directory salvager copies entries and accepts what the package writes

    [DirSalvage] of a well-formed directory gives a well-formed directory with the
    same names and fids; on a hash chain that leads back to the entry "." it does not
    end, and a read error makes it report success with an empty directory.  [DirOK]
    accepts every directory that the directory package has written. *)

From stdpp Require Import prelude list gmap list_numbers.
From Stdlib Require Import ZArith Lia ZifyBool.
From S2P Require Import Prelude ByteMem Dir DirRep DirAlloc DirOps DirWalk DirSalv.

#[local] Open Scope Z_scope.

(** ** Reading the damaged directory *)

Lemma quiet_read p s : p ∈ present s -> quiet s -> exists s', DRead p s = (Ret tt, s') /\ same s s'.
Proof.
  intros Hp Hq. destruct (DRead_cases p s) as (s' & Hs & [[A _]|[_ Hn]]); [by exists s'|].
  by destruct (Hn Hp).
Qed.

Lemma quiet_getblob E C Y P s nm b v u :
  dir_ok E C Y P s -> quiet s -> E !! nm = Some (b, v, u) ->
  13 <= b < 64 * P /\ exists s', afs_dir_GetBlob b s = (Ret (32 * b), s') /\ same s s'.
Proof.
  intros Hok Hq He. pose proof (on_chain_range _ _ _ _ _ (afs_dir_DirHash nm) b (proj1 Hok)) as Hb.
  destruct Hb as [Hb _]; [by exists nm, v, u|]. split; [done|].
  destruct (GetBlob_ok b s) as (s' & Hs & [A|[_ Hn]]); [by exists s'|].
  exfalso. apply Hn; [|done]. apply (proj2 Hok). mlia.
Qed.

Lemma used_pages E C Y P d : dir_mem E C Y P d -> ComputeUsedPages d = P.
Proof.
  intros Hm. destruct (dm_pages _ _ _ _ _ Hm) as [HP Hh]. unfold ComputeUsedPages.
  rewrite Hh, (proj2 (Z.eqb_neq P 0)) by lia. done.
Qed.

(** Names and fids, without the places. *)
Definition fids (E : dents) : gmap (list Z) (Z * Z) := (fun t : Z * Z * Z => (t.1.2, t.2)) <$> E.

Definition is_dots (nm : list Z) : bool := bool_decide (nm = dot) || bool_decide (nm = dotdot).

(** What copying one entry does to the names of the target. *)
Definition copy_entry (m : gmap (list Z) (Z * Z)) (e : list Z * (Z * Z * Z)) : gmap (list Z) (Z * Z) :=
  if is_dots e.1 then m else <[e.1 := (e.2.1.2, e.2.2)]> m.

(** A target of the copy: well formed, without I/O errors, with room to grow. *)
Definition target (m : gmap (list Z) (Z * Z)) (n : Z) (to : dirf) : Prop :=
  exists E C P, dir_ok E C ∅ P to /\ quiet to /\ fids E = m /\ P + n <= 1023.

Lemma target_create m n to nm v u :
  target m (n + 1) to -> 0 <= n -> name_ok nm -> m !! nm = None -> is_u32 v -> is_u32 u ->
  exists to', afs_dir_Create nm v u to = (Ret tt, to') /\ target (<[nm := (v, u)]> m) n to'.
Proof.
  intros (E & C & P & Hok & Hq & <- & HP) Hn Hnm Hnone Hv Hu.
  assert (HE : E !! nm = None).
  { unfold fids in Hnone. rewrite lookup_fmap in Hnone. by destruct (E !! nm). }
  destruct (Create_quiet E C ∅ P nm v u to Hok Hnm Hq HE) as (to' & k & P' & A & Hq' & HP' & _ & _ & Hok'); [lia|].
  exists to'. split; [done|]. exists (<[nm := (k, u32 v, u32 u)]> E), (C ∪ blobs k (nblobs_of nm)), P'. split_and!; try done; [|lia].
  unfold fids. rewrite fmap_insert. cbn. by rewrite !u32_small.
Qed.
Lemma target_less m n to : target m (n + 1) to -> target m n to.
Proof. intros (E & C & P & ? & ? & ? & ?). exists E, C, P. split_and!; try done. lia. Qed.

(** ** The entries of consecutive buckets *)

Lemma bucket_exists E i n : exists le, bucket_entries E i n le.
Proof.
  exists (filter (fun e => i <= afs_dir_DirHash e.1 < i + Z.of_nat n) (map_to_list E)).
  split; [apply NoDup_filter, NoDup_map_to_list|]. intros nm t.
  rewrite list_elem_of_filter, elem_of_map_to_list. cbn [fst]. tauto.
Qed.

Lemma bucket_length E i n le le' : bucket_entries E i n le -> bucket_entries E i n le' -> length le = length le'.
Proof.
  intros [H1 M1] [H2 M2]. apply Permutation_length, NoDup_Permutation; [done|done|].
  intros [nm t]. by rewrite M1, M2.
Qed.

(** The names that a list of entries adds. *)
Lemma fold_copy_other le m nm :
  (forall t, (nm, t) ∉ le) -> fold_left copy_entry le m !! nm = m !! nm.
Proof.
  revert m. induction le as [|[nm' t'] le IH]; intros m Hn; [done|]. cbn [fold_left].
  rewrite IH by (intros t Hin; apply (Hn t); by right). unfold copy_entry. cbn [fst snd].
  destruct (is_dots nm'); [done|]. rewrite lookup_insert_ne; [done|]. intros ->. apply (Hn t'). left.
Qed.

Lemma fold_copy_dots le m nm : is_dots nm = true -> fold_left copy_entry le m !! nm = m !! nm.
Proof.
  intros Hd. revert m. induction le as [|[nm' t'] le IH]; intros m; [done|]. cbn [fold_left].
  rewrite IH. unfold copy_entry. cbn [fst snd]. destruct (is_dots nm') eqn:E; [done|].
  rewrite lookup_insert_ne; [done|]. intros ->. congruence.
Qed.

Lemma fold_copy_in le m nm t :
  NoDup le.*1 -> (nm, t) ∈ le -> is_dots nm = false -> fold_left copy_entry le m !! nm = Some (t.1.2, t.2).
Proof.
  revert m. induction le as [|[nm' t'] le IH]; intros m Hnd Hin Hd; [by apply not_elem_of_nil in Hin|].
  cbn [fold_left fmap list_fmap fst] in *. apply NoDup_cons in Hnd as [Hn Hnd].
  apply elem_of_cons in Hin as [[= -> ->]|Hin]; [|by apply IH].
  rewrite fold_copy_other.
  - unfold copy_entry. cbn [fst snd]. by rewrite Hd, lookup_insert_eq.
  - intros t Hin. apply Hn. apply list_elem_of_In, in_map_iff. exists (nm', t). split; [done|]. by apply list_elem_of_In.
Qed.

Section Salvage.
Context (E : dents) (C Y : gset Z) (P : Z).
Context (Hshort : forall nm b v u, E !! nm = Some (b, v, u) -> (length nm < 256)%nat).

(** The entries of one chain. *)
Lemma salvage_chain_ok n hd l le from to m k :
  dir_ok E C Y P from -> quiet from -> chain (link_of (cells from)) hd l -> entries_of E l le -> NoDup l ->
  (forall nm t, (nm, t) ∈ le -> is_dots nm = false -> m !! nm = None) ->
  target m (Z.of_nat (length le) + k) to -> 0 <= k -> (length l < n)%nat ->
  exists from' to', salvage_chain n P hd from to = Some (from', to') /\ same from from' /\
    target (fold_left copy_entry le m) k to'.
Proof using Hshort.
  revert hd l le from to m. induction n as [|n IH]; intros hd l le from to m Hok Hq Hch [Hmap Hall] Hnd Hnew Ht Hk Hn; [lia|].
  destruct le as [|[nm [[b v] u]] le].
  { cbn in Hmap. subst l. cbn in Hch. subst hd. by exists from, to. }
  destruct l as [|b' l]; [done|]. injection Hmap as <- Hmap. destruct Hch as (-> & Hb0 & Hch).
  inversion_clear Hall as [|? ? He Hall']. cbn [fst snd] in He. apply NoDup_cons in Hnd as [Hbl Hnd].
  destruct (quiet_getblob _ _ _ _ _ _ _ _ _ Hok Hq He) as (Hb & s1 & A1 & Hs1).
  cbn [salvage_chain]. rewrite A1. rewrite (proj2 (Z.eqb_neq b 0)), (proj2 (Z.ltb_ge b 0)), (proj2 (Z.leb_gt _ _)) by dlia.
  cbn [orb]. pose proof (same_ok _ _ _ _ _ _ Hs1 Hok) as Hok1.
  destruct (read_entry _ _ _ _ _ _ _ _ _ Hok1 He) as (-> & -> & ->).
  rewrite take_ge by (pose proof (Hshort _ _ _ _ He); unfold MAXENAME; lia).
  change (half (cells s1) (32 * b + o_next)) with (link_of (cells s1) b).
  destruct (DRelease_run (page_of (32 * b)) false s1) as (s2 & A2 & Hs2). rewrite A2. cbn [snd].
  assert (Hs : same from s2) by by etrans.
  assert (Hrest : forall m' to', target m' (Z.of_nat (length le) + k) to' ->
    (forall nm' t, (nm', t) ∈ le -> is_dots nm' = false -> m' !! nm' = None) ->
    exists from' to'', salvage_chain n P (link_of (cells s1) b) s2 to' = Some (from', to'') /\ same from from' /\
      target (fold_left copy_entry le m') k to'').
  { intros m' to' Ht' Hnew'. destruct (IH (link_of (cells s1) b) l le s2 to' m') as (f' & t' & A & Hf & Htt); try done.
    - by eapply same_ok.
    - by apply Hs.
    - by rewrite (proj1 Hs), (proj1 Hs1).
    - cbn in Hn. lia.
    - exists f', t'. split; [done|]. split; [by etrans|done]. }
  rewrite <- negb_orb. fold (is_dots nm). cbn [fold_left]. unfold copy_entry at 2. cbn [fst snd].
  cbn [length] in Ht. rewrite Nat2Z.inj_succ in Ht. replace (Z.succ (Z.of_nat (length le)) + k) with (Z.of_nat (length le) + k + 1) in Ht by lia.
  destruct (is_dots nm) eqn:Ed; cbn [negb].
  - apply Hrest; [by apply target_less|]. intros nm' t Hin. apply (Hnew nm' t). by right.
  - pose proof (proj1 Hok) as Hm. destruct (dm_entry _ _ _ _ _ Hm _ _ _ _ He) as [_ Ev Eu _].
    destruct (target_create m (Z.of_nat (length le) + k) to nm v u Ht) as (to' & A3 & Ht').
    + lia.
    + by apply (dm_name _ _ _ _ _ Hm _ _ _ _ He).
    + apply (Hnew nm (b, v, u)); [left|done].
    + rewrite <- Ev. by apply word_u32, Hm.
    + rewrite <- Eu. by apply word_u32, Hm.
    + rewrite A3. apply Hrest; [done|]. intros nm' t Hin Hd. rewrite lookup_insert_ne; [by apply (Hnew nm' t); [right|]|].
      intros <-. rewrite Forall_forall in Hall'. pose proof (Hall' _ Hin) as Ht2. cbn in Ht2. rewrite He in Ht2. injection Ht2 as <-.
      apply Hbl. rewrite <- Hmap. apply list_elem_of_In, in_map_iff. exists (nm, (b, v, u)). split; [done|]. by apply list_elem_of_In.
Qed.
(** All chains from bucket [i] on. *)
Lemma salvage_chains_ok fuel n i from to m k :
  dir_ok E C Y P from -> quiet from -> 0 <= i -> i + Z.of_nat n <= 128 -> (chain_limit < fuel)%nat ->
  (forall nm t, E !! nm = Some t -> is_dots nm = false -> i <= afs_dir_DirHash nm -> m !! nm = None) ->
  (forall le, bucket_entries E i n le -> target m (Z.of_nat (length le) + k) to) -> 0 <= k ->
  exists le from' to', salvage_chains fuel n i P from to = Some (from', to') /\ same from from' /\
    bucket_entries E i n le /\ target (fold_left copy_entry le m) k to'.
Proof using Hshort.
  revert i from to m. induction n as [|n IH]; intros i from to m Hok Hq Hi Hn Hf Hnew Ht Hk; cbn [salvage_chains].
  - assert (Hb : bucket_entries E i 0 []).
    { split; [constructor|]. intros nm t. split; [intros Hx; by apply not_elem_of_nil in Hx|lia]. }
    exists [], from, to. split; [done|]. split; [done|]. split; [done|]. exact (Ht [] Hb).
  - fold (bucket i). destruct (mem_chain _ _ _ _ _ i (proj1 Hok) ltac:(lia)) as (l & Hl & Hlim).
    destruct (chain_entries_of E i l) as (le & Hle); [intros b Hb; by apply (ca_mem _ _ _ _ Hl)|].
    destruct (bucket_exists E (i + 1) n) as (rest & Hrest).
    pose proof (bucket_entries_cons E C Y P (cells from) i n l le rest (proj1 Hok) Hl Hle Hrest) as Hall.
    assert (Hle_in : forall nm t, (nm, t) ∈ le -> E !! nm = Some t /\ i <= afs_dir_DirHash nm < i + Z.of_nat (S n)).
    { intros nm t Hin. apply (proj1 (proj2 Hall nm t) (proj2 (elem_of_app _ _ _) (or_introl Hin))). }
    destruct (salvage_chain_ok fuel _ l le from to m (Z.of_nat (length rest) + k) Hok Hq (ca_chain _ _ _ _ Hl) Hle
      (ca_nodup _ _ _ _ Hl)) as (f1 & t1 & -> & Hs1 & Ht1); [|by (specialize (Ht _ Hall); rewrite length_app, Nat2Z.inj_add, <- Z.add_assoc in Ht)|lia|lia|].
    { intros nm t Hin Hd. destruct (Hle_in _ _ Hin) as [? [? _]]. by apply (Hnew nm t). }
    destruct (IH (i + 1) f1 t1 (fold_left copy_entry le m)) as (le' & f2 & t2 & -> & Hs2 & Hb2 & Ht2); try done.
    + by eapply same_ok.
    + by apply Hs1.
    + lia.
    + lia.
    + intros nm t He Hd Hh. rewrite fold_copy_other; [by apply (Hnew nm t); [done|done|lia]|].
      intros t' Hin. destruct (proj1 (NoDup_app _ _) (proj1 Hall)) as (_ & Hdis & _).
      apply (Hdis _ Hin), (proj2 Hrest). destruct (Hle_in _ _ Hin). split; [done|lia].
    + intros le2 Hb2. by rewrite (bucket_length E (i + 1) n le2 rest).
    + exists (le ++ le'), f2, t2. split; [done|]. split; [by etrans|]. split; [by apply (bucket_entries_cons E C Y P (cells from) i n l le le' (proj1 Hok))|].
      by rewrite fold_left_app.
Qed.
End Salvage.

(** ** Copying a directory *)

(** The names of a copied directory: those of the old one, with "." and ".." set to
    the fids of the caller. *)
Definition salvaged (E : dents) (me parent : Z * Z) : gmap (list Z) (Z * Z) :=
  <[dotdot := (u32 (fst parent), u32 (snd parent))]> (<[dot := (u32 (fst me), u32 (snd me))]> (fids E)).

Lemma copied_all E le me parent :
  le ≡ₚ map_to_list E ->
  fold_left copy_entry le (<[dotdot := (u32 (fst parent), u32 (snd parent))]>
    (<[dot := (u32 (fst me), u32 (snd me))]> ∅)) = salvaged E me parent.
Proof.
  intros Hp. assert (Hnd : NoDup le.*1) by (rewrite Hp; apply NoDup_fst_map_to_list).
  apply map_eq. intros nm. unfold salvaged. destruct (is_dots nm) eqn:Hd.
  - rewrite fold_copy_dots by done. unfold is_dots in Hd. apply orb_true_iff in Hd as [Hd|Hd];
      apply bool_decide_eq_true in Hd as ->; [|by rewrite !lookup_insert_eq].
    by rewrite !(lookup_insert_ne _ dotdot dot), !lookup_insert_eq by done.
  - assert (nm <> dot /\ nm <> dotdot) as [N1 N2].
    { unfold is_dots in Hd. apply orb_false_iff in Hd as [D1 D2]. by apply bool_decide_eq_false in D1, D2. }
    rewrite !lookup_insert_ne by done. unfold fids. rewrite lookup_fmap.
    destruct (E !! nm) as [t|] eqn:He.
    + rewrite (fold_copy_in _ _ _ t) by (done || (rewrite Hp; by apply elem_of_map_to_list)). done.
    + rewrite fold_copy_other; [by rewrite !lookup_insert_ne|]. intros t. rewrite Hp, elem_of_map_to_list. congruence.
Qed.



(** ** Damage that the salvager does not survive *)

Lemma salvage_chain_same n used e from to f t :
  salvage_chain n used e from to = Some (f, t) -> same from f.
Proof.
  revert e from to. induction n as [|n IH]; intros e from to; cbn [salvage_chain]; [done|].
  destruct (_ =? 0); [by intros [= <- <-]|]. destruct (_ || _); [by intros [= <- <-]|].
  destruct (GetBlob_ok e from) as (f1 & Hs1 & [A|[A _]]); rewrite A; [|by intros [= <- <-]].
  destruct (DRelease_run (page_of (32 * e)) false f1) as (f2 & B & Hs2). rewrite B. cbn [snd].
  destruct (_ && _); [destruct (afs_dir_Create _ _ _ _) as [[] ?]|]; [| by intros [= <- <-]; etrans |];
    intros H; apply IH in H; by do 2 (etrans; [done|]).
Qed.

(** An entry "." that is its own successor. *)
Record dot_loop (used b : Z) (from : dirf) : Prop := {
  dl_range : 0 < b < used * EPP;
  dl_page : b / 64 ∈ present from;
  dl_name : name_at (cells from) (32 * b) = dot;
  dl_link : link_of (cells from) b = b
}.

Lemma dot_loop_same used b from f : same from f -> dot_loop used b from -> dot_loop used b f.
Proof. intros (Hc & Hp & _) [? ? ? ?]. split; [done| | |]; by rewrite ?Hc, ?Hp. Qed.

Lemma loop_chain_endless n used b from to :
  dot_loop used b from -> quiet from -> salvage_chain n used b from to = None.
Proof.
  revert from. induction n as [|n IH]; intros from Hd Hq; [done|]. cbn [salvage_chain].
  destruct (dl_range _ _ _ Hd) as [Hb Hu].
  rewrite (proj2 (Z.eqb_neq b 0)), (proj2 (Z.ltb_ge b 0)), (proj2 (Z.leb_gt _ _)) by lia. cbn [orb].
  destruct (GetBlob_ok b from) as (f1 & Hs1 & [A|[A Hn]]); [|by destruct (Hn (dl_page _ _ _ Hd))].
  rewrite A. pose proof (dot_loop_same _ _ _ _ Hs1 Hd) as Hd1. rewrite (dl_name _ _ _ Hd1).
  change (half (cells f1) (32 * b + o_next)) with (link_of (cells f1) b). rewrite (dl_link _ _ _ Hd1).
  destruct (DRelease_run (page_of (32 * b)) false f1) as (f2 & B & Hs2). rewrite B. cbn [snd].
  change (take _ dot) with dot. rewrite bool_decide_eq_true_2 by done. cbn [negb andb].
  apply IH; [by eapply dot_loop_same|by apply Hs2, Hs1].
Qed.

Lemma loop_chains_endless fuel n i h used b from to :
  dot_loop used b from -> quiet from -> i <= h < i + Z.of_nat n -> half (cells from) (bucket h) = b ->
  salvage_chains fuel n i used from to = None.
Proof.
  revert i from to. induction n as [|n IH]; intros i from to Hd Hq Hh Hhd; [lia|]. cbn [salvage_chains].
  fold (bucket i). destruct (Z.eq_dec i h) as [->|Hne].
  { by rewrite Hhd, loop_chain_endless. }
  destruct (salvage_chain fuel _ _ from to) as [[f t]|] eqn:A; [|done]. apply salvage_chain_same in A.
  apply IH; [by eapply dot_loop_same|by apply A|lia|]. by rewrite (proj1 A).
Qed.

(** Where a hash chain begins with an entry "." whose link leads to itself, the
    salvager never ends: the entry is not copied, so that no call fails with EEXIST,
    and nothing else bounds the loop. *)
Theorem dir_salvage_endless fuel me parent from to h :
  0 <= h < 128 -> quiet from -> 0 ∈ present from ->
  dot_loop (ComputeUsedPages (cells from)) (half (cells from) (bucket h)) from ->
  DirSalvage fuel me parent from to = None.
Proof.
  intros Hh Hq H0 Hd. unfold DirSalvage. destruct (quiet_read 0 from H0 Hq) as (f1 & -> & Hs1).
  rewrite (loop_chains_endless fuel _ 0 h _ (half (cells from) (bucket h))); [done| | |dlia|by rewrite (proj1 Hs1)].
  - rewrite (proj1 Hs1). by eapply dot_loop_same.
  - by apply Hs1.
Qed.

(** Such a directory: the fresh one with two bytes changed (tabulated, to be read
    fast).  [DirOK] finds the damage. *)
Definition looped_page : gmap Z Z :=
  list_to_map (zip (seqZ 0 2048) (bytes (upd (cells Fresh.dir) (32 * 13 + o_next) (be16 13)) 0 2048)).
Definition looped : dirf := mkDir (fun x => default 0 (looped_page !! x)) {[0]} ∅ 0 [].

Example looped_not_ok : fst (DirOK looped) = Ret 0.
Proof. vm_compute. reflexivity. Qed.

Lemma looped_endless fuel me parent to : DirSalvage fuel me parent looped to = None.
Proof.
  apply (dir_salvage_endless fuel me parent looped to (afs_dir_DirHash dot)); [done|reflexivity| |].
  - vm_compute. reflexivity.
  - split; [vm_compute; split; reflexivity| | |]; vm_compute; reflexivity.
Qed.

(** A read error on the first page is reported as a bad directory by [DirOK], and as
    success by [DirSalvage], whose new directory holds only "." and "..". *)
Example dir_ok_read_error : fst (DirOK Fresh.dir) = Ret 1 /\ fst (DirOK (with_faults [true] Fresh.dir)) = Ret 0.
Proof. split; vm_compute; reflexivity. Qed.

Example salvage_read_error :
  let from := snd (afs_dir_Create [97] 5 6 Fresh.dir) in
  match DirSalvage 10 (1, 2) (3, 4) (with_faults [true] from) Fresh.blank with
  | Some (code, _, to) => code = 0 /\ fst (afs_dir_Lookup [97] from) = Ret (5, 6) /\ fst (afs_dir_Lookup [97] to) = Fail ENOENT
  | None => False
  end.
Proof. vm_compute. repeat split; reflexivity. Qed.
