(* ===== verification/DirSalvCheck.v ===== *)
(** * The salvager's check accepts what the directory package writes

    [DirOK] returns 1 on every directory that the operations of dir/dir.c produce
    without I/O errors from names of fewer than 256 bytes, as long as nobody deletes
    "." or "..".  The salvager therefore does not rebuild good directories. *)

From stdpp Require Import prelude list gmap list_numbers.
From Stdlib Require Import ZArith Lia ZifyBool.
From S2P Require Import Prelude ByteMem Dir DirRep DirAlloc DirOps DirWalk DirSalv DirSalvOk.

#[local] Open Scope Z_scope.
#[local] Open Scope dir_scope.

(** ** Bits of the map in memory *)

Definition ea_has (m : Z -> Z) (k : Z) : bool := Z.testbit (m (Z.shiftr k 3)) (Z.land k 7).

Lemma ea_has_div m k : ea_has m k = Z.testbit (m (k / 8)) (k mod 8).
Proof. unfold ea_has. by rewrite Z.shiftr_div_pow2, bit_index by lia. Qed.

Lemma ea_init_u8 P x : is_u8 (ea_init P x).
Proof. unfold ea_init. repeat case_match; mlia. Qed.

Lemma ea_init_has P k : 0 <= k -> ea_has (ea_init P) k = true <-> k < 64 * P /\ reserved k.
Proof.
  intros Hk. rewrite ea_has_div. unfold ea_init, reserved. change (EPP / 8) with 8.
  assert (k mod 8 ∈ [0; 1; 2; 3; 4; 5; 6; 7]) as Hr.
  { assert (k mod 8 = 0 \/ k mod 8 = 1 \/ k mod 8 = 2 \/ k mod 8 = 3 \/ k mod 8 = 4 \/ k mod 8 = 5 \/
      k mod 8 = 6 \/ k mod 8 = 7) by mlia. rewrite !elem_of_cons. tauto. }
  rewrite !elem_of_cons in Hr.
  destruct (k / 8 <? P * 8) eqn:E1; [|rewrite Z.testbit_0_l; split; [done|mlia]].
  destruct (k / 8 =? 0) eqn:E2; [|destruct (k / 8 =? 1) eqn:E3; [|destruct (k / 8 mod 8 =? 0) eqn:E4]].
  all: repeat (destruct Hr as [Hr|Hr]; [rewrite Hr; cbn; split; [intros ?; try done; mlia|intros ?; try done; mlia]|]).
  all: by apply not_elem_of_nil in Hr.
Qed.

Lemma lor_u8 a k : is_u8 a -> 0 <= k < 8 -> is_u8 (Z.lor a (Z.shiftl 1 k)).
Proof.
  intros Ha Hk. rewrite <- (u8_small a) by done.
  assert (Hs : Z.shiftl 1 k = u8 (Z.shiftl 1 k)).
  { rewrite Z.shiftl_1_l. symmetry. apply u8_small. pose proof (Z.pow_pos_nonneg 2 k).
    pose proof (Z.pow_le_mono_r 2 k 7). split; [lia|]. change 256 with (2 * 2 ^ 7). lia. }
  rewrite Hs. unfold u8. change 256 with (2 ^ 8). rewrite <- !Z.land_ones, <- Z.land_lor_distr_l, Z.land_ones by lia.
  change (2 ^ 8) with 256. mlia.
Qed.

Lemma ea_mark_u8 n e m : (forall x, is_u8 (m x)) -> forall x, is_u8 (ea_mark n e m x).
Proof.
  revert e m. induction n as [|n IH]; intros e m Hu; [done|]. cbn [ea_mark]. apply IH. intros x.
  destruct (_ =? _); [|done]. apply lor_u8; [done|]. rewrite bit_index. apply mod8_range.
Qed.

Lemma ea_mark_has n e m k :
  0 <= e -> 0 <= k -> ea_has (ea_mark n e m) k = ea_has m k || ((e <=? k) && (k <? e + Z.of_nat n)).
Proof.
  revert e m. induction n as [|n IH]; intros e m He Hk; cbn [ea_mark].
  { replace (_ && _) with false by lia. by rewrite orb_false_r. }
  rewrite IH by lia. rewrite !ea_has_div. rewrite Z.shiftr_div_pow2, bit_index by lia. change (2 ^ 3) with 8.
  destruct (k / 8 =? e / 8) eqn:E1.
  - rewrite lor_bit by mlia. destruct (k mod 8 =? e mod 8) eqn:E2.
    + replace (_ && (k <? e + Z.of_nat (S n))) with true by mlia. by rewrite orb_true_r.
    + destruct (Z.testbit _ _); [done|]. cbn [orb]. mlia.
  - destruct (Z.testbit _ _); [done|]. cbn [orb]. mlia.
Qed.

(** Bytes with the same bits. *)
Lemma byte_eq a b : is_u8 a -> is_u8 b -> (forall i, 0 <= i < 8 -> Z.testbit a i = Z.testbit b i) -> a = b.
Proof.
  intros Ha Hb Hi. rewrite <- (u8_small a), <- (u8_small b) by done. unfold u8. change 256 with (2 ^ 8).
  rewrite <- !Z.land_ones by lia. apply Z.bits_inj'. intros n Hn. rewrite !Z.land_spec.
  destruct (Z.ltb_spec n 8) as [|Hge]; [by rewrite Hi|]. rewrite Z.ones_spec_high by lia. by rewrite !andb_false_r.
Qed.

(** ** The count of a page's bitmap *)

Definition bit_sum (k : Z) : Z :=
  Z.b2z (Z.testbit k 0) + Z.b2z (Z.testbit k 1) + Z.b2z (Z.testbit k 2) + Z.b2z (Z.testbit k 3)
  + Z.b2z (Z.testbit k 4) + Z.b2z (Z.testbit k 5) + Z.b2z (Z.testbit k 6) + Z.b2z (Z.testbit k 7).

Lemma byte_count_bits k : is_u8 k -> byte_count k = bit_sum k.
Proof.
  intros Hk. assert (Hall : forallb (fun k => byte_count k =? bit_sum k) (seqZ 0 256) = true) by (vm_compute; done).
  rewrite forallb_forall in Hall. apply Z.eqb_eq, Hall, list_elem_of_In, elem_of_seqZ. exact Hk.
Qed.

(** The blobs of page [i] whose bit is set. *)
Definition marked (d : Z -> Z) (i : Z) : gset Z :=
  list_to_set (filter (fun k => bit_set d i (k - 64 * i) = true) (seqZ (64 * i) 64)).

Lemma elem_marked d i k : k ∈ marked d i <-> bit_set d i (k - 64 * i) = true /\ 64 * i <= k < 64 * i + 64.
Proof. unfold marked. rewrite elem_of_list_to_set, list_elem_of_filter, elem_of_seqZ. done. Qed.

Lemma filter_sum (f : Z -> bool) l :
  Z.of_nat (length (filter (fun k => f k = true) l)) = foldr (fun k n => Z.b2z (f k) + n) 0 l.
Proof.
  induction l as [|k l IH]; [done|]. cbn [foldr]. rewrite filter_cons. destruct (decide _) as [E|E].
  - cbn [length]. rewrite E. cbn. lia.
  - apply not_true_is_false in E. rewrite E. cbn. lia.
Qed.

Lemma page_count_marked d i : (forall x, is_u8 (d x)) -> page_count d i = Z.of_nat (size (marked d i)).
Proof.
  intros Hu. unfold marked. rewrite size_list_to_set by (apply NoDup_filter, NoDup_seqZ).
  rewrite (filter_sum (fun k => bit_set d i (k - 64 * i))).
  unfold page_count. cbn [fold_left]. rewrite !byte_count_bits by done. unfold bit_sum.
  replace (seqZ (64 * i) 64) with (map (Z.add (64 * i)) (seqZ 0 64)).
  2: { unfold seqZ. rewrite map_map. apply map_ext. intros x. lia. }
  let v := eval vm_compute in (seqZ 0 64) in change (seqZ 0 64) with v.
  cbn [map foldr]. unfold bit_set, bitmap_byte.
  repeat match goal with |- context [64 * i + ?c - 64 * i] => replace (64 * i + c - 64 * i) with c by lia end.
  repeat match goal with |- context [Z.shiftr ?a 3] => let v := eval vm_compute in (Z.shiftr a 3) in change (Z.shiftr a 3) with v end.
  repeat match goal with |- context [Z.land ?a 7] => let v := eval vm_compute in (Z.land a 7) in change (Z.land a 7) with v end.
  ring.
Qed.

Section Pages.
Context (E : dents) (C : gset Z) (P : Z).

Lemma marked_mem d i :
  dir_mem E C ∅ P d -> 0 <= i < P -> marked d i = blobs (64 * i) (64 - capacity i) ∪ in_page i C.
Proof.
  intros Hm Hi. apply set_eq. intros k. rewrite elem_marked, elem_of_union, elem_blobs, elem_in_page. split.
  - intros [Hb Hk]. apply (dm_bits _ _ _ _ _ Hm) in Hb; [|lia|lia].
    replace (64 * i + (k - 64 * i)) with k in Hb by lia. rewrite union_empty_r_L in Hb. unfold reserved in Hb.
    destruct Hb as [Hr|Hc]; [left|right; split; [mlia|done]]. unfold capacity. destruct (i =? 0) eqn:E0; mlia.
  - intros Hor. assert (Hk : 64 * i <= k < 64 * i + 64).
    { destruct Hor as [Hk|[Hk _]]; [unfold capacity in Hk; destruct (i =? 0); lia|mlia]. }
    split; [|done]. apply (dm_bits _ _ _ _ _ Hm); [lia|lia|]. replace (64 * i + (k - 64 * i)) with k by lia.
    rewrite union_empty_r_L. destruct Hor as [Hr|[_ Hc]]; [left|by right].
    unfold reserved, capacity in *. destruct (i =? 0) eqn:E0; mlia.
Qed.

(** The count of free blobs of a page, as [DirOK] computes it. *)
Lemma free_count d i :
  dir_mem E C ∅ P d -> 0 <= i < P -> EPP - page_count d i = capacity i - Z.of_nat (size (in_page i C)).
Proof.
  intros Hm Hi. rewrite page_count_marked by apply Hm. rewrite (marked_mem d i Hm Hi), size_union.
  - rewrite Nat2Z.inj_add, size_blobs by (unfold capacity; destruct (i =? 0); lia). dlia.
  - intros k Hk%elem_blobs [_ Hc]%elem_in_page. destruct (dm_range _ _ _ _ _ Hm k) as [_ Hr].
    { by apply elem_of_union_l. } apply Hr. unfold reserved, capacity in *. destruct (i =? 0) eqn:E0; mlia.
Qed.

Lemma check_pages_ok n i s :
  dir_ok E C ∅ P s -> quiet s -> 0 <= i -> i + Z.of_nat n = P ->
  exists s', check_pages n i s = (Ret true, s') /\ same s s'.
Proof.
  revert i s. induction n as [|n IH]; intros i s Hok Hq Hi Hn; cbn [check_pages]; [by exists s|].
  destruct (quiet_read i s) as (s1 & A1 & Hs1); [apply (proj2 Hok); lia|done|].
  rewrite (bind_try _ _ _ _ _ A1), bind_read. pose proof (same_ok _ _ _ _ _ _ Hs1 Hok) as Hok1.
  pose proof (proj1 Hok1) as Hm. rewrite (dm_tag _ _ _ _ _ Hm i) by lia.
  change (1234 =? 1234) with true. cbn [negb]. rewrite (free_count _ i Hm) by lia.
  replace ((i <? MAXPAGES) && _) with false.
  2: { symmetry. destruct (i <? MAXPAGES) eqn:E0; [|done]. rewrite (dm_alloc _ _ _ _ _ Hm) by dlia.
       replace (i <? P) with true by lia. by rewrite Z.eqb_refl. }
  rel s2 Hs2.
  destruct (IH (i + 1) s2) as (s3 & A3 & Hs3).
  - by eapply same_ok.
  - by apply Hs2, Hs1.
  - lia.
  - lia.
  - exists s3. split; [done|]. by do 2 (etrans; [done|]).
Qed.

(** The allocation map: used pages first. *)
Lemma allo_rest n i up d :
  dir_mem E C ∅ P d -> P <= i -> 1 <= i -> i + Z.of_nat n = 128 -> allo_scan n i true up d = Some up.
Proof.
  intros Hm. revert i. induction n as [|n IH]; intros i HP Hi Hn; [done|]. cbn [allo_scan].
  destruct (alloMap_schar _ _ _ _ _ i Hm ltac:(lia)) as (-> & _ & _).
  rewrite (dm_alloc _ _ _ _ _ Hm) by lia. replace (i <? P) with false by lia. replace (i =? 0) with false by lia.
  cbn. apply IH; lia.
Qed.

Lemma allo_scan_ok n i up d :
  dir_mem E C ∅ P d -> (2 <= size (in_page 0 C))%nat -> 0 <= i -> i <= P -> i + Z.of_nat n = 128 ->
  allo_scan n i false up d = Some (up + (Z.min P 128 - i)).
Proof.
  intros Hm H2. revert i up. induction n as [|n IH]; intros i up Hi HP Hn; [cbn; f_equal; lia|]. cbn [allo_scan].
  pose proof (dm_pages _ _ _ _ _ Hm) as [HP1 _].
  destruct (alloMap_schar _ _ _ _ _ i Hm ltac:(lia)) as (-> & Hlo & Hhi).
  rewrite (dm_alloc _ _ _ _ _ Hm) in * by lia. destruct (i <? P) eqn:E1.
  - pose proof (in_page_le i C Hi
      (fun k Hk => proj2 (dm_range _ _ _ _ _ Hm k (elem_of_union_l _ _ _ Hk)))) as Hle.
    unfold capacity in *. destruct (i =? 0) eqn:E2; [replace i with 0 in * by lia|].
    + replace (_ || _) with false by dlia. replace (_ =? EPP) with false by dlia. rewrite IH by lia. f_equal. lia.
    + replace (_ || _) with false by dlia. replace (_ =? EPP) with false by dlia. rewrite IH by lia. f_equal. lia.
  - replace (i =? 0) with false by lia. cbn. rewrite allo_rest by (done || lia). f_equal. lia.
Qed.
End Pages.

(** ** The hash chains *)

(** A directory without lost blobs, with "." and ".." where they belong and names
    that the check does not call too long. *)
Record tight (E : dents) (C : gset Z) : Prop := {
  ti_cover : forall k, k ∈ C -> exists nm b v u, E !! nm = Some (b, v, u) /\ k ∈ blobs b (nblobs_of nm);
  ti_dot : exists v u, E !! dot = Some (13, v, u);
  ti_dotdot : exists v u, E !! dotdot = Some (14, v, u);
  ti_short : forall nm b v u, E !! nm = Some (b, v, u) -> (length nm < 256)%nat
}.

Section Chains.
Context (E : dents) (C : gset Z) (P : Z) (Ht : tight E C).

(** The state of the scan when the entries at [seen] have been visited. *)
Record scanned (seen : list Z) (a : scan) : Prop := {
  sc_u8 : forall x, is_u8 (eaMap a x);
  sc_bits : forall k, 0 <= k -> ea_has (eaMap a) k = true <->
    (k < 64 * P /\ reserved k)
    \/ exists nm b v u, b ∈ seen /\ E !! nm = Some (b, v, u) /\ k ∈ blobs b (nblobs_of nm);
  sc_count : entcount a = Z.of_nat (length seen);
  sc_dot : havedot a = bool_decide (13 ∈ seen);
  sc_dotdot : havedotdot a = bool_decide (14 ∈ seen)
}.

Lemma scanned_init : scanned [] (mkScan (ea_init P) 0 false false).
Proof using.
  split; cbn [eaMap entcount havedot havedotdot]; [apply ea_init_u8| |done|done|done].
  intros k Hk. rewrite ea_init_has by done. split; [by left|].
  intros [?|(nm & b & v & u & Hb & _)]; [done|]. by apply not_elem_of_nil in Hb.
Qed.

Lemma seen_snoc seen b c : bool_decide (c ∈ seen ++ [b]) = bool_decide (c ∈ seen) || (b =? c).
Proof using.
  destruct (b =? c) eqn:E0; [rewrite orb_true_r|rewrite orb_false_r; apply bool_decide_ext];
    [apply bool_decide_eq_true_2|]; rewrite elem_of_app, list_elem_of_singleton; [right; lia|].
  split; [intros [?|?]; [done|lia]|by left].
Qed.

Lemma scanned_step d seen a nm b v u :
  dir_mem E C ∅ P d -> E !! nm = Some (b, v, u) -> scanned seen a ->
  scanned (seen ++ [b]) (mkScan (ea_mark (Z.to_nat (nblobs_of nm)) b (eaMap a)) (entcount a + 1)
    (havedot a || (b =? 13)) (havedotdot a || (b =? 14))).
Proof using.
  intros Hm He [Hu Hb Hc Hd Hdd]. pose proof (name_blobs _ _ _ _ _ _ _ _ _ Hm He) as Hn.
  destruct (on_chain_range _ _ _ _ _ (afs_dir_DirHash nm) b Hm) as [Hbr _]; [by exists nm, v, u|].
  split; cbn [eaMap entcount havedot havedotdot].
  - by apply ea_mark_u8.
  - intros k Hk. rewrite ea_mark_has, orb_true_iff, Hb by lia. rewrite Z2Nat.id by lia. split.
    + intros [[?|(nm' & b' & v' & u' & Hs & He' & Hin)]|Hin]; [by left| |]; right.
      * exists nm', b', v', u'. split; [apply elem_of_app; by left|done].
      * exists nm, b, v, u. split; [apply elem_of_app; right; by apply list_elem_of_singleton|].
        split; [done|]. apply elem_blobs. lia.
    + intros [?|(nm' & b' & v' & u' & [Hs|Hs%list_elem_of_singleton]%elem_of_app & He' & Hin)]; [by left; left| |].
      * left. right. by exists nm', b', v', u'.
      * right. subst b'. rewrite (blob_name_unique _ _ _ _ _ _ _ _ _ _ _ _ Hm He' He) in Hin.
        apply elem_blobs in Hin. lia.
  - rewrite length_app, Hc. cbn [length]. lia.
  - by rewrite seen_snoc, Hd.
  - by rewrite seen_snoc, Hdd.
Qed.

(** The entry at 13 is ".", that at 14 is "..". *)
Lemma dots_places d nm b v u :
  dir_mem E C ∅ P d -> E !! nm = Some (b, v, u) -> (b = 13 -> nm = dot) /\ (b = 14 -> nm = dotdot).
Proof using Ht.
  intros Hm He. destruct (ti_dot _ _ Ht) as (v1 & u1 & E1), (ti_dotdot _ _ Ht) as (v2 & u2 & E2).
  split; intros ->; by eapply (blob_name_unique _ _ _ _ _ _ _ _ _ _ _ _ Hm He).
Qed.

Lemma check_chain_ok n i hd l le seen a s :
  dir_ok E C ∅ P s -> quiet s -> chain (link_of (cells s)) hd l -> entries_of E l le ->
  (forall nm t, (nm, t) ∈ le -> afs_dir_DirHash nm = i) ->
  scanned seen a -> Z.of_nat (length seen + length l) < 64 * P -> (length l <= n)%nat ->
  exists a' s', check_chain n i (P * EPP) hd a s = (Ret (Some a'), s') /\ same s s' /\ scanned (seen ++ l) a'.
Proof using Ht.
  revert hd l le seen a s. induction n as [|n IH]; intros hd l le seen a s Hok Hq Hch [Hmap Hall] Hhash Ha Hcnt Hn.
  all: destruct le as [|[nm [[b v] u]] le]; [cbn in Hmap; subst l; cbn in Hch; subst hd; exists a, s;
    rewrite app_nil_r; split; [done|]; by split|]; destruct l as [|b' l]; [done|].
  { cbn in Hn. lia. }
  injection Hmap as <- Hmap. destruct Hch as (-> & Hb0 & Hch).
  inversion_clear Hall as [|? ? He Hall']. cbn [fst snd] in He. pose proof (proj1 Hok) as Hm.
  destruct (quiet_getblob _ _ _ _ _ _ _ _ _ Hok Hq He) as (Hb & s1 & A1 & Hs1).
  pose proof (same_ok _ _ _ _ _ _ Hs1 Hok) as Hok1. destruct (dots_places _ _ _ _ _ Hm He) as [D1 D2].
  pose proof (dm_name _ _ _ _ _ Hm _ _ _ _ He) as Hname. pose proof (ti_short _ _ Ht _ _ _ _ He) as Hs.
  cbn [check_chain]. replace (b =? 0) with false by lia. replace (_ || _) with false by dlia.
  rewrite (bind_try _ _ _ _ _ A1), !bind_read. destruct (read_entry _ _ _ _ _ _ _ _ _ Hok1 He) as (-> & _ & _).
  rewrite (ea_flag _ _ _ _ _ (dm_entry _ _ _ _ _ (proj1 Hok1) _ _ _ _ He)), (Hhash nm _ ltac:(left)).
  rewrite (sc_count _ _ Ha), bool_decide_eq_false_2 by apply Hname. rewrite !Z.eqb_refl.
  replace (_ || (b =? 14) && _) with false.
  2: { symmetry. rewrite !orb_false_iff, !andb_false_iff, !negb_false_iff, !bool_decide_eq_true.
       unfold MAXENAME. cbn [length] in Hcnt.
       split_and!; try lia; try dlia; [destruct (Z.eq_dec b 13); [right; auto|left; lia]
         |destruct (Z.eq_dec b 14); [right; auto|left; lia]]. }
  cbn iota. rel s2 Hs2. change (half (cells s1) (32 * b + o_next)) with (link_of (cells s1) b).
  rewrite <- (sc_count _ _ Ha).
  pose proof (scanned_step _ _ _ _ _ _ _ Hm He Ha) as Ha1. set (a1 := mkScan _ _ _ _) in Ha1.
  destruct (IH (link_of (cells s1) b) l le (seen ++ [b]) a1 s2) as (a' & s3 & A3 & Hs3 & Ha').
  - by eapply same_ok.
  - by apply Hs2, Hs1.
  - by rewrite (proj1 Hs2), (proj1 Hs1).
  - done.
  - intros nm' t Hin. apply (Hhash nm' t). by right.
  - done.
  - rewrite length_app. cbn [length] in *. lia.
  - cbn in Hn. lia.
  - exists a', s3. split; [done|]. split; [by do 2 (etrans; [done|])|]. by rewrite <- app_assoc in Ha'.
Qed.

Definition places (le : list (list Z * (Z * Z * Z))) : list Z := map (fun e => fst (fst (snd e))) le.

Lemma check_chains_ok n i seen a s :
  dir_ok E C ∅ P s -> quiet s -> 0 <= i -> i + Z.of_nat n <= 128 -> scanned seen a ->
  (forall le, bucket_entries E i n le -> Z.of_nat (length seen + length le) < 64 * P) ->
  exists le a' s', check_chains n i (P * EPP) a s = (Ret (Some a'), s') /\ same s s' /\
    bucket_entries E i n le /\ scanned (seen ++ places le) a'.
Proof using Ht.
  revert i seen a s. induction n as [|n IH]; intros i seen a s Hok Hq Hi Hn Ha Hcnt; cbn [check_chains].
  - exists [], a, s. split; [done|]. split; [done|]. cbn [places map]. rewrite app_nil_r. split; [|done].
    split; [constructor|]. intros nm t. split; [intros Hx; by apply not_elem_of_nil in Hx|lia].
  - rewrite bind_read. fold (bucket i). pose proof (proj1 Hok) as Hm.
    destruct (mem_chain _ _ _ _ _ i Hm ltac:(lia)) as (l & Hl & _).
    destruct (chain_entries_of E i l) as (le & Hle); [intros b Hb; by apply (ca_mem _ _ _ _ Hl)|].
    destruct (bucket_exists E (i + 1) n) as (rest & Hrest). pose proof Hle as [Hmap _].
    pose proof (bucket_entries_cons E C ∅ P (cells s) i n l le rest Hm Hl Hle Hrest) as Hall.
    assert (Hlen : length l = length le) by (by rewrite <- Hmap, length_map).
    pose proof (Hcnt _ Hall) as Hc. rewrite length_app in Hc.
    destruct (check_chain_ok (Z.to_nat (P * EPP)) i _ l le seen a s Hok Hq (ca_chain _ _ _ _ Hl) Hle)
      as (a1 & s1 & A1 & Hs1 & Ha1); [|done|lia|dlia|].
    { intros nm [[b v] u] Hin. assert (Hb : b ∈ l).
      { rewrite <- Hmap. apply list_elem_of_In, in_map_iff. exists (nm, (b, v, u)). split; [done|by apply list_elem_of_In]. }
      apply (ca_mem _ _ _ _ Hl) in Hb as (nm' & v' & u' & He' & <-). f_equal.
      pose proof (proj2 Hle) as HF. rewrite Forall_forall in HF. pose proof (HF _ Hin) as He.
      by apply (blob_name_unique _ _ _ _ _ _ _ _ _ _ _ _ Hm He He'). }
    rewrite (bind_ret _ _ _ _ _ A1).
    destruct (IH (i + 1) (seen ++ l) a1 s1) as (le' & a2 & s2 & A2 & Hs2 & Hb2 & Ha2);
      [by eapply same_ok|by apply Hs1|lia|lia|done| |].
    { intros le' Hle'. rewrite (bucket_length E (i + 1) n le' rest Hle' Hrest), length_app. lia. }
    exists (le ++ le'), a2, s2. split; [done|]. split; [by etrans|].
    split; [by apply (bucket_entries_cons E C ∅ P (cells s) i n l le le' Hm)|].
    unfold places in *. by rewrite map_app, Hmap, app_assoc.
Qed.

(** Fewer entries than blobs. *)
Lemma entries_fit d : dir_mem E C ∅ P d -> Z.of_nat (size E) < 64 * P.
Proof using.
  intros Hm. pose proof (dm_pages _ _ _ _ _ Hm) as [HP _]. rewrite <- length_map_to_list.
  assert (Hnd : NoDup (places (map_to_list E))).
  { unfold places. apply NoDup_fmap_2_strong; [|apply NoDup_map_to_list].
    intros [nm1 [[b1 v1] u1]] [nm2 [[b2 v2] u2]] H1 H2 Hb. cbn in Hb. subst b2.
    apply elem_of_map_to_list in H1, H2. pose proof (blob_name_unique _ _ _ _ _ _ _ _ _ _ _ _ Hm H1 H2) as <-.
    congruence. }
  assert (Hr : forall b, b ∈ places (map_to_list E) -> 0 <= b - 1 < Z.of_nat (Z.to_nat (64 * P - 1))).
  { intros b Hb. unfold places in Hb. apply list_elem_of_In, in_map_iff in Hb as ([nm [[b' v] u]] & <- & Hin).
    apply list_elem_of_In, elem_of_map_to_list in Hin. cbn [fst snd].
    pose proof (on_chain_range _ _ _ _ _ (afs_dir_DirHash nm) b' Hm ltac:(by exists nm, v, u)). lia. }
  pose proof (nodup_bounded (map (fun b => b - 1) (places (map_to_list E))) (Z.to_nat (64 * P - 1))) as Hlen.
  unfold places in *. rewrite !length_map in Hlen. enough (length (map_to_list E) <= Z.to_nat (64 * P - 1))%nat by lia.
  apply Hlen.
  - apply NoDup_fmap_2_strong; [lia|done].
  - intros b Hb. apply list_elem_of_In, in_map_iff in Hb as (b' & <- & Hin). apply Hr. by apply list_elem_of_In.
Qed.

(** ** The bitmaps *)

Lemma check_maps_ok n i m s :
  dir_ok E C ∅ P s -> quiet s -> 0 <= i -> i + Z.of_nat n = P ->
  (forall x, is_u8 (m x)) -> (forall k, 0 <= k < 64 * P -> ea_has m k = true <-> reserved k \/ k ∈ C) ->
  exists s', check_maps n i m s = (Ret true, s') /\ same s s'.
Proof using.
  revert i s. induction n as [|n IH]; intros i s Hok Hq Hi Hn Hu Hbits; cbn [check_maps]; [by exists s|].
  destruct (quiet_read i s) as (s1 & A1 & Hs1); [apply (proj2 Hok); lia|done|].
  rewrite (bind_try _ _ _ _ _ A1), bind_read. pose proof (same_ok _ _ _ _ _ _ Hs1 Hok) as Hok1.
  pose proof (proj1 Hok1) as Hm.
  assert (Hbyte : forall j, 0 <= j < 8 -> m (i * 8 + j) = cells s1 (i * AFS_PAGESIZE + o_freebitmap + j)).
  { intros j Hj. apply byte_eq; [done|apply Hm|]. intros r Hr. apply eq_true_iff_eq.
    pose proof (Hbits (64 * i + 8 * j + r) ltac:(lia)) as B1. rewrite ea_has_div in B1.
    replace ((64 * i + 8 * j + r) / 8) with (i * 8 + j) in B1 by mlia.
    replace ((64 * i + 8 * j + r) mod 8) with r in B1 by mlia. rewrite B1.
    pose proof (dm_bits _ _ _ _ _ Hm i (8 * j + r) ltac:(lia) ltac:(lia)) as B2.
    unfold bit_set in B2. rewrite bitmap_byte_div, bit_index in B2.
    replace ((8 * j + r) / 8) with j in B2 by mlia. replace ((8 * j + r) mod 8) with r in B2 by mlia.
    rewrite union_empty_r_L, Z.add_assoc in B2. dconst. by rewrite B2. }
  replace (forallb _ _) with true.
  2: { symmetry. apply forallb_forall. intros j Hj. apply Z.eqb_eq. change (EPP / 8) with 8. apply Hbyte.
       cbn in Hj. lia. }
  rel s2 Hs2. destruct (IH (i + 1) s2) as (s3 & A3 & Hs3); try done; [by eapply same_ok|by apply Hs2, Hs1|lia|lia|].
  exists s3. split; [done|]. by do 2 (etrans; [done|]).
Qed.

(** Everything together. *)
Lemma DirOK_accepts s :
  dir_ok E C ∅ P s -> quiet s -> exists s', DirOK s = (Ret 1, s') /\ same s s'.
Proof using Ht.
  intros Hok Hq. unfold DirOK. destruct (quiet_read 0 s (present_0 _ _ _ _ _ Hok) Hq) as (s1 & A1 & Hs1).
  rewrite (bind_try _ _ _ _ _ A1), bind_read. pose proof (same_ok _ _ _ _ _ _ Hs1 Hok) as Hok1.
  pose proof (proj1 Hok1) as Hm. pose proof (dm_pages _ _ _ _ _ Hm) as [HP _].
  pose proof (dm_tag _ _ _ _ _ Hm 0 ltac:(lia)) as Htag. change (0 * AFS_PAGESIZE + o_tag) with o_tag in Htag. rewrite Htag.
  change (negb (1234 =? 1234)) with false. cbn iota.
  assert (Hin : forall nm b v u, E !! nm = Some (b, v, u) -> b ∈ C).
  { intros nm b v u He. apply (dm_blobs _ _ _ _ _ Hm _ _ _ _ He), elem_blobs.
    pose proof (name_blobs _ _ _ _ _ _ _ _ _ Hm He). lia. }
  destruct (ti_dot _ _ Ht) as (v1 & u1 & E1), (ti_dotdot _ _ Ht) as (v2 & u2 & E2).
  assert (H2 : (2 <= size (in_page 0 C))%nat).
  { change 2%nat with (size (blobs 13 2)). apply subseteq_size. intros k Hk%elem_blobs. apply elem_in_page.
    split; [mlia|]. destruct (Z.eq_dec k 13) as [->|]; [by eapply Hin|]. replace k with 14 by lia. by eapply Hin. }
  rewrite (allo_scan_ok E C P _ 0 0 _ Hm H2) by (done || lia). rewrite (used_pages _ _ _ _ _ Hm).
  replace (P <? _) with false by lia.
  destruct (check_pages_ok E C P (Z.to_nat P) 0 s1 Hok1) as (s2 & A2 & Hs2); [by apply Hs1|lia|lia|].
  rewrite (bind_ret _ _ _ _ _ A2). cbn [negb]. pose proof (same_ok _ _ _ _ _ _ Hs2 Hok1) as Hok2.
  destruct (check_chains_ok (Z.to_nat NHASHENT) 0 [] (mkScan (ea_init P) 0 false false) s2 Hok2)
    as (le & a & s3 & A3 & Hs3 & Hle & Ha); [by apply Hs2, Hs1|lia|done|apply scanned_init| |].
  { intros le Hle. rewrite (all_buckets E le Hle), length_map_to_list. by apply (entries_fit _ Hm). }
  rewrite (bind_ret _ _ _ _ _ A3). cbn [app] in Ha. pose proof (all_buckets E le Hle) as Hperm.
  assert (Hseen : forall nm b v u, E !! nm = Some (b, v, u) -> b ∈ places le).
  { intros nm b v u He. apply list_elem_of_In, in_map_iff. exists (nm, (b, v, u)). split; [done|].
    apply list_elem_of_In. rewrite Hperm. by apply elem_of_map_to_list. }
  rewrite (sc_dot _ _ Ha), (sc_dotdot _ _ Ha), !bool_decide_eq_true_2 by by eapply Hseen. cbn [negb orb].
  destruct (check_maps_ok (Z.to_nat P) 0 (eaMap a) s3) as (s4 & A4 & Hs4).
  - by eapply same_ok.
  - by apply Hs3, Hs2, Hs1.
  - lia.
  - lia.
  - apply Ha.
  - intros k Hk. rewrite (sc_bits _ _ Ha) by lia. split.
    + intros [[_ ?]|(nm & b & v & u & _ & He & Hkb)]; [by left|right].
      by apply (dm_blobs _ _ _ _ _ Hm _ _ _ _ He).
    + intros [?|Hc]; [left; split; [lia|done]|right].
      destruct (ti_cover _ _ Ht k Hc) as (nm & b & v & u & He & Hkb). exists nm, b, v, u. split; [by eapply Hseen|done].
  - rewrite (bind_ret _ _ _ _ _ A4). rel s5 Hs5. exists s5. split; [done|]. by do 4 (etrans; [done|]).
Qed.
End Chains.

(** ** Directories written without errors *)

(** The operations of a file server that has no I/O errors, uses names that the
    protocol allows and never removes "." and "..". *)
Definition op_clean (op : dir_op) : Prop :=
  match op with
  | OpCreate nm _ _ => name_ok nm /\ (length nm < 256)%nat
  | OpDelete nm => nm <> dot /\ nm <> dotdot
  | _ => True
  end.

Inductive dir_clean : dirf -> Prop :=
| clean_make me parent s :
    (forall x, is_u8 (cells s x)) -> quiet s -> dir_clean (snd (afs_dir_MakeDir me parent s))
| clean_op op s : dir_clean s -> op_clean op -> dir_clean (run_op op [] s).

Definition clean_state (s : dirf) : Prop :=
  exists E C P, dir_ok E C ∅ P s /\ tight E C /\ quiet s.

Lemma tight_insert E C nm k v u :
  tight E C -> E !! nm = None -> (length nm < 256)%nat ->
  tight (<[nm := (k, v, u)]> E) (C ∪ blobs k (nblobs_of nm)).
Proof.
  intros [Hc (v1 & u1 & E1) (v2 & u2 & E2) Hs] Hn Hlen. split.
  - intros x [Hx|Hx]%elem_of_union.
    + destruct (Hc x Hx) as (nm' & b & v' & u' & He & Hin). exists nm', b, v', u'. split; [|done].
      rewrite lookup_insert_ne; [done|]. intros ->. congruence.
    + exists nm, k, v, u. by rewrite lookup_insert_eq.
  - exists v1, u1. rewrite lookup_insert_ne; [done|]. intros ->. congruence.
  - exists v2, u2. rewrite lookup_insert_ne; [done|]. intros ->. congruence.
  - intros nm' b v' u' [[<- _]|[_ He]]%lookup_insert_Some; [done|by apply (Hs _ _ _ _ He)].
Qed.

Lemma tight_delete E C nm b v u :
  tight E C -> E !! nm = Some (b, v, u) -> nm <> dot -> nm <> dotdot ->
  tight (delete nm E) (C ∖ blobs b (nblobs_of nm)).
Proof.
  intros [Hc (v1 & u1 & E1) (v2 & u2 & E2) Hs] Hn N1 N2. split.
  - intros x [Hx Hb]%elem_of_difference. destruct (Hc x Hx) as (nm' & b' & v' & u' & He & Hin).
    exists nm', b', v', u'. split; [|done]. rewrite lookup_delete_ne; [done|]. intros ->. congruence.
  - exists v1, u1. by rewrite lookup_delete_ne.
  - exists v2, u2. by rewrite lookup_delete_ne.
  - intros nm' b' v' u' [_ He]%lookup_delete_Some. by apply (Hs _ _ _ _ He).
Qed.

Lemma tight_fid E C nm b v u v' u' :
  tight E C -> E !! nm = Some (b, v, u) -> tight (<[nm := (b, v', u')]> E) C.
Proof.
  intros [Hc (v1 & u1 & E1) (v2 & u2 & E2) Hs] Hn.
  assert (Hkeep : forall x y w z, E !! x = Some (y, w, z) -> exists w' z', <[nm := (b, v', u')]> E !! x = Some (y, w', z')).
  { intros x y w z Hx. destruct (decide (x = nm)) as [->|Hne].
    - exists v', u'. rewrite lookup_insert_eq. congruence.
    - exists w, z. by rewrite lookup_insert_ne. }
  split; [| by eapply Hkeep | by eapply Hkeep |].
  - intros x Hx. destruct (Hc x Hx) as (nm' & b' & w & z & He & Hin).
    destruct (Hkeep _ _ _ _ He) as (w' & z' & He'). by exists nm', b', w', z'.
  - intros nm' b' w z [[<- _]|[_ He]]%lookup_insert_Some; by eapply Hs.
Qed.

Lemma clean_states s : dir_clean s -> clean_state s.
Proof.
  induction 1 as [me parent s Hu Hq|op s Hr (E & C & P & Hok & Ht & Hq) Hop].
  - destruct (MakeDir_ok me parent s Hu) as (s' & E & C & P & -> & Hok & Hquiet).
    destruct (Hquiet Hq) as (Hq' & _ & -> & ->). eexists _, _, P. split; [exact Hok|]. split; [|done]. split.
    + intros k [Hk|Hk]%elem_of_union; [exists dot|exists dotdot]; eexists _, _, _; (split; [|exact Hk]).
      * by rewrite lookup_insert_ne, lookup_insert_eq.
      * by rewrite lookup_insert_eq.
    + do 2 eexists. by rewrite lookup_insert_ne, lookup_insert_eq.
    + do 2 eexists. by rewrite lookup_insert_eq.
    + intros nm b v u [[<- _]|[_ [[<- _]|[_ He]]%lookup_insert_Some]]%lookup_insert_Some; [cbn; lia|cbn; lia|done].
  - apply (faults_ok _ _ _ _ []) in Hok. unfold run_op. set (s0 := with_faults [] s) in *.
    assert (Hq0 : quiet s0) by done. destruct op as [nm v u|nm|nm old_fid new_fid|nm]; cbn [op_clean] in Hop.
    + destruct Hop as [Hn Hlen]. destruct (Create_ok _ _ _ _ nm v u _ Hok Hn) as (r & s' & -> & Hq' & P' & _ & Hr').
      destruct r as [[]|code]; cbn [snd].
      * destruct Hr' as (HE & k & _ & _ & Hok'). eexists _, _, P'. split; [exact Hok'|]. split; [by apply tight_insert|auto].
      * destruct Hr' as ((C' & _ & Hok' & HC) & _). destruct (HC Hq0) as [-> ->]. exists E, C, P. auto.
    + destruct (Delete_ok _ _ _ _ nm _ Hok) as ([[]|code] & s' & -> & Hq' & Hd); cbn [snd].
      * destruct Hd as (b & v & u & C' & Y' & HE & Hok' & [[-> ->]|[? _]]); [|done].
        eexists _, _, P. split; [exact Hok'|]. split; [destruct Hop; by apply (tight_delete E C nm b v u)|auto].
      * exists E, C, P. split; [by apply (same_ok _ _ _ _ _ _ (proj1 Hd))|]. auto.
    + destruct (ChangeFid_ok _ _ _ _ nm old_fid new_fid _ Hok) as ([[]|code] & s' & -> & Hq' & Hn & Hok'); cbn [snd].
      * eexists _, C, P. split; [exact Hok'|]. split; [|auto]. unfold changed.
        destruct (E !! nm) as [[[b v] u]|] eqn:He; [|done]. destruct (fid_matches _ _ _); [|done].
        by apply (tight_fid E C nm b v u).
      * exists E, C, P. auto.
    + rewrite Lookup_offset. destruct (LookupOffset_ok _ _ _ _ nm _ Hok) as (r & s' & A & Hs & _).
      exists E, C, P. unfold bind. rewrite A.
      destruct r; (split; [by apply (same_ok _ _ _ _ _ _ Hs)|]; split; [done|by apply Hs]).
Qed.

(** [C5] The salvager's check accepts every directory that was made and changed by
    the directory package without I/O errors, with names of 1 to 255 bytes and without
    deleting "." or "..", and it does not change it.  A good directory is not rebuilt. *)
Theorem dir_ok_accepts s :
  dir_clean s -> exists s', DirOK s = (Ret 1, s') /\ same s s'.
Proof. intros (E & C & P & Hok & Ht & Hq)%clean_states. by apply (DirOK_accepts E C P Ht). Qed.

Lemma dir_ok_accepts_witness :
  exists s', DirOK (run_op (OpDelete [97]) [] (run_op (OpCreate [97] 5 6) [] Fresh.dir)) = (Ret 1, s').
Proof.
  destruct (dir_ok_accepts (run_op (OpDelete [97]) [] (run_op (OpCreate [97] 5 6) [] Fresh.dir))) as (s' & A & _).
  - apply clean_op; [|split; discriminate]. apply clean_op; [|split; [exact Fresh.a_ok|cbn; lia]].
    unfold Fresh.dir. apply clean_make; [intros x; cbn; mlia|reflexivity].
  - exists s'. exact A.
Defined.

(** ** What the check does not see *)

(** The names of a chain are not compared with each other: here the directory holds the
    name "a" twice, and [DirOK] accepts it. *)
Definition twice : dirf :=
  let s := snd ((afs_dir_Create [97] 5 6 ;; afs_dir_Create [98] 7 8) Fresh.dir) in
  let ea := half (cells s) (bucket (afs_dir_DirHash [97])) in
  let eb := half (cells s) (bucket (afs_dir_DirHash [98])) in
  mkDir (upd (upd (upd (cells s) (32 * eb + o_name) [97])
               (32 * ea + o_next) (be16 eb))
          (bucket (afs_dir_DirHash [98])) (be16 0)) (present s) ∅ 0 [].

Example duplicate_name_accepted : fst (DirOK twice) = Ret 1.
Proof. vm_compute. reflexivity. Qed.
