(* ===== verification/DirCache.v ===== *)
(** * The directory buffer package (dir/buffer.c and viced/physio.c)

    A fixed set of page buffers, found through a hash table over the volume id, holds
    pages of the directories of the file server; a page is written back when its
    buffer is reused or flushed.  A hash chain is the list of its buffer numbers in
    the order of the [hashNext] pointers.  The locks of the package are not modelled:
    [afs_bufferLock] makes the operations atomic, and a buffer's own lock covers the
    transfer of its page.

    The files below the package are pages that are there or not; a read and a write
    may fail at any time, as two lists of outcomes say.  Inode handles are values:
    [IH_COPY] and [IH_RELEASE] only count references. *)

From stdpp Require Import prelude list gmap.
From Stdlib Require Import ZArith Lia ZifyBool.
From S2P Require Import Prelude ByteMem Dir.

#[local] Open Scope Z_scope.

Definition BUFFER_PAGE_SIZE : nat := 2048.
Definition PHSIZE := 32.
Definition BUFFER_LONG_MAX := 2147483647.

(** ** State *)

(** The part of an inode handle that says which file it is. *)
Record IHandle := mkIH { ih_dev : Z; ih_vid : Z; ih_ino : Z }.
#[export] Instance IHandle_eq_dec : EqDecision IHandle.
Proof. solve_decision. Defined.

Record DirHandle := mkDirHandle {
  dirh_vid : Z;
  dirh_dev : Z;
  dirh_ino : Z;
  dirh_vnode : Z;
  dirh_cacheCheck : Z;
  dirh_unique : Z;
  dirh_handle : option IHandle
}.
#[export] Instance DirHandle_eq_dec : EqDecision DirHandle.
Proof. solve_decision. Defined.

Record buffer := mkBuf {
  fid : DirHandle;
  bpage : Z;
  accesstime : Z;
  data : list Z;
  lockers : Z;      (* a char *)
  bdirty : bool;
  hashIndex : Z
}.

Record cache := mkCache {
  Buffers : list buffer;
  phTable : Z -> list nat;
  timecounter : Z;
  disk : IHandle -> Z -> option (list Z);
  read_faults : list bool;
  write_faults : list bool
}.

Definition set_buffers (l : list buffer) (c : cache) : cache :=
  mkCache l (phTable c) (timecounter c) (disk c) (read_faults c) (write_faults c).
Definition set_table (t : Z -> list nat) (c : cache) : cache :=
  mkCache (Buffers c) t (timecounter c) (disk c) (read_faults c) (write_faults c).
Definition set_time (t : Z) (c : cache) : cache :=
  mkCache (Buffers c) (phTable c) t (disk c) (read_faults c) (write_faults c).
Definition set_disk (d : IHandle -> Z -> option (list Z)) (c : cache) : cache :=
  mkCache (Buffers c) (phTable c) (timecounter c) d (read_faults c) (write_faults c).
Definition set_faults (r w : list bool) (c : cache) : cache :=
  mkCache (Buffers c) (phTable c) (timecounter c) (disk c) r w.

Definition set_fid (f : DirHandle) (b : buffer) : buffer :=
  mkBuf f (bpage b) (accesstime b) (data b) (lockers b) (bdirty b) (hashIndex b).
Definition set_access (t : Z) (b : buffer) : buffer :=
  mkBuf (fid b) (bpage b) t (data b) (lockers b) (bdirty b) (hashIndex b).
Definition set_data (d : list Z) (b : buffer) : buffer :=
  mkBuf (fid b) (bpage b) (accesstime b) d (lockers b) (bdirty b) (hashIndex b).
Definition set_lockers (n : Z) (b : buffer) : buffer :=
  mkBuf (fid b) (bpage b) (accesstime b) (data b) n (bdirty b) (hashIndex b).
Definition set_dirty (x : bool) (b : buffer) : buffer :=
  mkBuf (fid b) (bpage b) (accesstime b) (data b) (lockers b) x (hashIndex b).
Definition set_index (h : Z) (b : buffer) : buffer :=
  mkBuf (fid b) (bpage b) (accesstime b) (data b) (lockers b) (bdirty b) h.

(** [FidZero], [FidZap]: all bytes zero. *)
Definition FidZero : DirHandle := mkDirHandle 0 0 0 0 0 0 None.
Definition FidZap (b : buffer) : buffer := set_fid FidZero b.

Definition zeros : list Z := repeat 0 BUFFER_PAGE_SIZE.
Definition no_buffer : buffer := mkBuf FidZero 0 0 zeros 0 false 0.
Definition buf (c : cache) (i : nat) : buffer := nth i (Buffers c) no_buffer.
Definition upd_buf (i : nat) (g : buffer -> buffer) (c : cache) : cache :=
  set_buffers (alter g i (Buffers c)) c.

(** ** viced/physio.c *)

(** [SetDirHandle]: the key is copied out of the inode handle and the vnode. *)
Definition SetDirHandle (h : IHandle) (cacheCheck uniquifier vnodeNumber : Z) : DirHandle :=
  mkDirHandle (ih_vid h) (ih_dev h) (ih_ino h) vnodeNumber cacheCheck uniquifier (Some h).

Definition FidEq (a b : DirHandle) : bool :=
  (dirh_ino a =? dirh_ino b) && (dirh_dev a =? dirh_dev b) && (dirh_vid a =? dirh_vid b) &&
  (dirh_cacheCheck a =? dirh_cacheCheck b) && (dirh_unique a =? dirh_unique b) &&
  (dirh_vnode a =? dirh_vnode b).
Definition FidVolEq (a : DirHandle) (vid : Z) : bool := dirh_vid a =? vid.

Definition next_fault (l : list bool) : bool * list bool :=
  match l with [] => (false, []) | b :: l => (b, l) end.

(** [ReallyRead]: the page, or [None] for a non-zero code (no handle, an error, or
    less than a page in the file). *)
Definition ReallyRead (file : DirHandle) (block : Z) (c : cache) : option (list Z) * cache :=
  match dirh_handle file with
  | None => (None, c)
  | Some h =>
      let (bad, fl) := next_fault (read_faults c) in
      (if bad then None else disk c h block, set_faults fl (write_faults c) c)
  end.

(** [ReallyWrite] returns 0 whether it wrote the page or not. *)
Definition ReallyWrite (file : DirHandle) (block : Z) (d : list Z) (c : cache) : Z * cache :=
  match dirh_handle file with
  | None => (0, c)
  | Some h =>
      let (bad, fl) := next_fault (write_faults c) in
      let c := set_faults (read_faults c) fl c in
      if bad then (0, c)
      else (0, set_disk (fun h' p => if decide (h' = h /\ p = block) then Some d else disk c h' p) c)
  end.

(** ** dir/buffer.c *)

Definition pHash (f : DirHandle) : Z := Z.land (dirh_vid f) (PHSIZE - 1).
Definition vHash (vid : Z) : Z := Z.land vid (PHSIZE - 1).

(** What a call ends in: a value, an error code, or [Die]. *)
Inductive outcome (A : Type) :=
| Done (a : A)
| Err (code : Z)
| Die.
Arguments Done {A} a.
Arguments Err {A} code.
Arguments Die {A}.

Definition DInit (abuffers : nat) (d : IHandle -> Z -> option (list Z)) (rd wr : list bool) : cache :=
  mkCache (repeat no_buffer abuffers) (fun _ => []) 0 d rd wr.

Definition without (i : nat) (l : list nat) : list nat := List.filter (fun j => negb (j =? i)%nat) l.

(** [FixupBucket]: out of the bucket it was in, to the front of its new one. *)
Definition FixupBucket (i : nat) (c : cache) : cache :=
  let old := hashIndex (buf c i) in
  let t := fun h => if h =? old then without i (phTable c h) else phTable c h in
  let h := pHash (fid (buf c i)) in
  set_table (fun k => if k =? h then i :: t k else t k) (upd_buf i (set_index h) c).

(** The search of [newslot] for the buffer used least recently. *)
Fixpoint oldest (l : list buffer) (i : nat) (lp : option nat) (lt : Z) : option nat :=
  match l with
  | [] => lp
  | b :: l =>
      if (lockers b =? 0) && (accesstime b <? lt) then oldest l (S i) (Some i) (accesstime b)
      else oldest l (S i) lp lt
  end.

Definition slot_for (lp : option nat) (c : cache) : option nat :=
  match lp with
  | Some j => if lockers (buf c j) =? 0 then oldest (Buffers c) 0 (Some j) (accesstime (buf c j))
              else oldest (Buffers c) 0 None BUFFER_LONG_MAX
  | None => oldest (Buffers c) 0 None BUFFER_LONG_MAX
  end.

Definition newslot (dir : DirHandle) (apage : Z) (lp : option nat) (c : cache) : outcome nat * cache :=
  match slot_for lp c with
  | None => (Die, c)
  | Some i =>
      let '(code, c) :=
        if bdirty (buf c i) then
          let (code, c) := ReallyWrite (fid (buf c i)) (bpage (buf c i)) (data (buf c i)) c in
          (code, if code =? 0 then upd_buf i (set_dirty false) c else c)
        else (0, c) in
      if negb (code =? 0) then (Die, c)
      else
        let t := s32 (timecounter c + 1) in
        let c := upd_buf i (fun b => mkBuf dir apage t zeros (lockers b) (bdirty b) (hashIndex b))
                   (set_time t c) in
        (Done i, FixupBucket i c)
  end.

Definition bufmatch (c : cache) (f : DirHandle) (page : Z) (i : nat) : bool :=
  (bpage (buf c i) =? page) && FidEq (fid (buf c i)) f.

(** [DRead] gives the number of the buffer; the client then reads and changes its
    data until it calls [DRelease]. *)
Definition DRead (f : DirHandle) (page : Z) (c : cache) : outcome nat * cache :=
  let h := pHash f in
  let l := phTable c h in
  match List.find (bufmatch c f page) l with
  | Some i =>
      (* buf_Front, unless it is in front *)
      let c := set_table (fun k => if k =? h then i :: without i l else phTable c k) c in
      let t := s32 (timecounter c + 1) in
      (Done i, upd_buf i (fun b => set_access t (set_lockers (schar (lockers b + 1)) b)) (set_time t c))
  | None =>
      match newslot f page (last l) c with
      | (Done i, c) =>
          let c := upd_buf i (fun b => set_lockers (schar (lockers b + 1)) b) c in
          match ReallyRead (fid (buf c i)) (bpage (buf c i)) c with
          | (Some d, c) => (Done i, upd_buf i (set_data d) c)
          | (None, c) =>
              (Err EIO, upd_buf i (fun b => FidZap (set_lockers (schar (lockers b - 1)) b)) c)
          end
      | (Err e, c) => (Err e, c)
      | (Die, c) => (Die, c)
      end
  end.

Definition DNew (dir : DirHandle) (page : Z) (c : cache) : outcome nat * cache :=
  match newslot dir page None c with
  | (Done i, c) => (Done i, upd_buf i (fun b => set_lockers (schar (lockers b + 1)) b) c)
  | r => r
  end.

Definition DRelease (i : nat) (flag : bool) (c : cache) : cache :=
  upd_buf i (fun b => let b := set_lockers (schar (lockers b - 1)) b in
                      if flag then set_dirty true b else b) c.

(** The byte in the file at offset [off] of the buffer's page. *)
Definition DVOffset (i : nat) (off : Z) (c : cache) : Z :=
  Z.of_nat BUFFER_PAGE_SIZE * bpage (buf c i) + off.

Definition DZap (dir : DirHandle) (c : cache) : cache :=
  fold_left (fun c i => if FidEq (fid (buf c i)) dir
                        then upd_buf i (fun b => set_dirty false (FidZap b)) c else c)
    (phTable c (pHash dir)) c.

Definition flush_vol_buffer (vid : Z) (rc : Z * cache) (i : nat) : Z * cache :=
  let (rcode, c) := rc in
  if FidVolEq (fid (buf c i)) vid then
    let '(rcode, c) :=
      if bdirty (buf c i) then
        let (code, c) := ReallyWrite (fid (buf c i)) (bpage (buf c i)) (data (buf c i)) c in
        (if negb (code =? 0) && (rcode =? 0) then code else rcode, upd_buf i (set_dirty false) c)
      else (rcode, c) in
    (rcode, upd_buf i FidZap c)
  else (rcode, c).
Definition DFlushVolume (vid : Z) (c : cache) : Z * cache :=
  fold_left (flush_vol_buffer vid) (phTable c (vHash vid)) (0, c).

Fixpoint flush_entry (f : DirHandle) (l : list nat) (c : cache) : Z * cache :=
  match l with
  | [] => (0, c)
  | i :: l =>
      if FidEq (fid (buf c i)) f && bdirty (buf c i) then
        let (code, c) := ReallyWrite (fid (buf c i)) (bpage (buf c i)) (data (buf c i)) c in
        if negb (code =? 0) then (code, c) else flush_entry f l (upd_buf i (set_dirty false) c)
      else flush_entry f l c
  end.
Definition DFlushEntry (f : DirHandle) (c : cache) : Z * cache := flush_entry f (phTable c (pHash f)) c.

(** The count of references goes up and down again around the write. *)
Definition flush_buffer (rc : Z * cache) (i : nat) : Z * cache :=
  let (rcode, c) := rc in
  if bdirty (buf c i) then
    let c := upd_buf i (fun b => set_lockers (schar (lockers b + 1)) b) c in
    let (code, c) := ReallyWrite (fid (buf c i)) (bpage (buf c i)) (data (buf c i)) c in
    let c := if code =? 0 then upd_buf i (set_dirty false) c else c in
    (if negb (code =? 0) && (rcode =? 0) then code else rcode,
     upd_buf i (fun b => set_lockers (schar (lockers b - 1)) b) c)
  else (rcode, c).
Definition DFlush (c : cache) : Z * cache := fold_left flush_buffer (seq 0 (length (Buffers c))) (0, c).

(** A client changes the page of a buffer it holds. *)
Definition write_page (i : nat) (d : list Z) (c : cache) : cache := upd_buf i (set_data d) c.
