(* ===== verification/DirCacheOk.v ===== *)
(** * The directory buffer package keeps the contents of directories

    Seen from its clients the package is a map from the pages of directories to
    their contents: the buffer's data when the page is in a buffer, the file
    otherwise ([view]).  Every operation keeps the invariant [cache_ok] and changes
    the view only as its purpose says; reusing a buffer changes nothing.  [sim]
    relates this to the pages that the model of dir.c works on. *)

From stdpp Require Import prelude list gmap.
From Stdlib Require Import ZArith Lia ZifyBool.
From S2P Require Import Prelude ByteMem Dir DirCache.

#[local] Open Scope Z_scope.

Abbreviation blen c := (length (Buffers c)).

(** ** Buffers by number *)

Lemma buf_lookup c i : (i < blen c)%nat -> Buffers c !! i = Some (buf c i).
Proof.
  intros Hi. unfold buf. rewrite nth_lookup. by destruct (lookup_lt_is_Some_2 _ _ Hi) as [b ->].
Qed.
Lemma buf_upd_same c i g : (i < blen c)%nat -> buf (upd_buf i g c) i = g (buf c i).
Proof.
  intros Hi. unfold buf at 1. rewrite nth_lookup. cbn. rewrite list_lookup_alter_eq, buf_lookup by done. done.
Qed.
Lemma buf_upd_other c i j g : j <> i -> buf (upd_buf i g c) j = buf c j.
Proof. intros Hj. unfold buf. rewrite !nth_lookup. cbn. by rewrite list_lookup_alter_ne. Qed.
Lemma len_upd c i g : blen (upd_buf i g c) = blen c.
Proof. cbn. apply length_alter. Qed.

(** ** Bytes of a page *)

Lemma bytes_lookup d a n k : (k < n)%nat -> bytes d a n !! k = Some (d (a + Z.of_nat k)).
Proof.
  intros Hk. unfold bytes. rewrite list_lookup_fmap, lookup_seq_lt by done. done.
Qed.
Lemma page_bytes_length d a n : length (bytes d a n) = n.
Proof. unfold bytes. by rewrite length_map, length_seq. Qed.

(** [l] written at offset [off] of a page. *)
Definition patch (off : nat) (l page : list Z) : list Z :=
  take off page ++ l ++ drop (off + length l) page.

Lemma patch_length off l page : (off + length l <= length page)%nat -> length (patch off l page) = length page.
Proof. intros H. unfold patch. rewrite !length_app, length_take, length_drop. lia. Qed.

Lemma bytes_patch d a off l n : (off + length l <= n)%nat ->
  bytes (upd d (a + Z.of_nat off) l) a n = patch off l (bytes d a n).
Proof.
  intros Hl. apply list_eq_same_length with n.
  { by rewrite patch_length; rewrite page_bytes_length. }
  { apply page_bytes_length. }
  intros k x y Hk. rewrite bytes_lookup by done. unfold patch, upd.
  destruct (decide (k < off)%nat) as [H1|H1].
  - rewrite lookup_app_l by (rewrite length_take, page_bytes_length; lia). rewrite lookup_take_lt, bytes_lookup by lia.
    destruct (_ && _) eqn:E; [lia|]. congruence.
  - rewrite lookup_app_r by (rewrite length_take, page_bytes_length; lia).
    rewrite length_take, page_bytes_length, Nat.min_l by lia. destruct (decide (k < off + length l)%nat) as [H2|H2].
    + rewrite lookup_app_l by lia. destruct (_ && _) eqn:E; [|lia].
      replace (Z.to_nat (a + Z.of_nat k - (a + Z.of_nat off))) with (k - off)%nat by lia.
      intros [= <-] Hy. by rewrite nth_lookup, Hy.
    + rewrite lookup_app_r by lia. rewrite lookup_drop, bytes_lookup by lia.
      destruct (_ && _) eqn:E; [lia|]. intros [= <-] [= <-]. f_equal. lia.
Qed.
Lemma bytes_elsewhere d a l b n : (b + Z.of_nat n <= a \/ a + Z.of_nat (length l) <= b) ->
  bytes (upd d a l) b n = bytes d b n.
Proof.
  intros H. unfold bytes. apply map_ext_in. intros k Hk. apply in_seq in Hk. apply upd_out. lia.
Qed.

Definition disk_of (c : cache) (f : DirHandle) (p : Z) : option (list Z) :=
  match dirh_handle f with Some h => disk c h p | None => None end.

Definition cached (c : cache) (i : nat) (f : DirHandle) (p : Z) : Prop :=
  (i < blen c)%nat /\ fid (buf c i) = f /\ bpage (buf c i) = p.
#[export] Instance cached_dec c i f p : Decision (cached c i f p).
Proof. unfold cached. apply _. Defined.

(** The contents of page [p] of directory [f]. *)
Definition view (c : cache) (f : DirHandle) (p : Z) : option (list Z) :=
  match List.find (fun i => bool_decide (cached c i f p)) (seq 0 (blen c)) with
  | Some i => Some (data (buf c i))
  | None => disk_of c f p
  end.

Lemma view_uncached c f p : (forall i, ~ cached c i f p) -> view c f p = disk_of c f p.
Proof.
  intros Hn. unfold view. destruct (List.find _ _) as [i|] eqn:E; [|done].
  apply find_some in E as [_ E]. apply bool_decide_eq_true in E. by apply Hn in E.
Qed.

(** [live]: the directories in use.  A handle is made by [SetDirHandle], and no two
    handles in use stand for the same file. *)
Section Live.
Context (live : DirHandle -> Prop).
Context (live_handle : forall f, live f -> dirh_handle f = Some (mkIH (dirh_dev f) (dirh_vid f) (dirh_ino f))).
Context (live_file : forall f g, live f -> live g -> dirh_handle f = dirh_handle g -> f = g).
Context (live_key : forall f, live f -> FidEq FidZero f = false).

Record cache_ok (c : cache) : Prop := {
  co_len : forall i, (i < blen c)%nat -> length (data (buf c i)) = BUFFER_PAGE_SIZE;
  co_disk : forall h p d, disk c h p = Some d -> length d = BUFFER_PAGE_SIZE;
  co_chain : forall h i, i ∈ phTable c h -> (i < blen c)%nat /\ hashIndex (buf c i) = h;
  co_nodup : forall h, NoDup (phTable c h);
  co_fid : forall i, (i < blen c)%nat -> fid (buf c i) <> FidZero ->
    live (fid (buf c i)) /\ i ∈ phTable c (pHash (fid (buf c i)));
  co_unique : forall i j f p, f <> FidZero -> cached c i f p -> cached c j f p -> i = j;
  co_zero : forall i, (i < blen c)%nat -> fid (buf c i) = FidZero ->
    lockers (buf c i) = 0 /\ bdirty (buf c i) = false;
  co_lockers : forall i, (i < blen c)%nat -> 0 <= lockers (buf c i) <= 127;
  co_clean : forall i, (i < blen c)%nat -> fid (buf c i) <> FidZero -> lockers (buf c i) = 0 ->
    bdirty (buf c i) = false -> disk_of c (fid (buf c i)) (bpage (buf c i)) = Some (data (buf c i))
}.

Lemma live_nonzero f : live f -> f <> FidZero.
Proof. intros Hf ->. apply live_handle in Hf. discriminate. Qed.

Lemma FidEq_live f g : live f -> live g -> FidEq f g = true -> f = g.
Proof.
  intros Hf Hg E. apply live_file; [done..|]. rewrite !live_handle by done.
  unfold FidEq in E. bool_hyps. do 2 f_equal; lia.
Qed.
Lemma FidEq_refl f : FidEq f f = true.
Proof. unfold FidEq. by rewrite !Z.eqb_refl. Qed.

Lemma view_cached c i f p : cache_ok c -> f <> FidZero -> cached c i f p -> view c f p = Some (data (buf c i)).
Proof.
  intros Hok Hf Hi. unfold view. destruct (List.find _ _) as [j|] eqn:E.
  - apply find_some in E as [_ E]. apply bool_decide_eq_true in E. by rewrite (co_unique _ Hok i j f p).
  - assert (Hin : In i (seq 0 (blen c))) by (apply in_seq; destruct Hi; lia).
    pose proof (find_none _ _ E i Hin) as Hn. by apply bool_decide_eq_false in Hn.
Qed.

(** A page is in a buffer or in the file. *)
Lemma view_cases c f p : cache_ok c -> f <> FidZero ->
  (exists i, cached c i f p /\ view c f p = Some (data (buf c i))) \/
  ((forall i, ~ cached c i f p) /\ view c f p = disk_of c f p).
Proof.
  intros Hok Hf. unfold view. destruct (List.find _ _) as [j|] eqn:E.
  - apply find_some in E as [_ E]. apply bool_decide_eq_true in E. left. by exists j.
  - right. split; [|done]. intros i Hi.
    assert (Hin : In i (seq 0 (blen c))) by (apply in_seq; destruct Hi; lia).
    pose proof (find_none _ _ E i Hin) as Hn. by apply bool_decide_eq_false in Hn.
Qed.

Definition same_view (c c' : cache) : Prop := forall g q, live g -> view c' g q = view c g q.

(** ** Changing one buffer in place *)

(** The key stays; the data of an unlocked clean buffer is that of the file. *)
Lemma upd_ok c i g :
  cache_ok c -> (i < blen c)%nat ->
  (forall b, fid (g b) = fid b /\ bpage (g b) = bpage b /\ hashIndex (g b) = hashIndex b) ->
  length (data (g (buf c i))) = BUFFER_PAGE_SIZE ->
  0 <= lockers (g (buf c i)) <= 127 ->
  (fid (buf c i) = FidZero -> lockers (g (buf c i)) = 0 /\ bdirty (g (buf c i)) = false) ->
  (fid (buf c i) <> FidZero -> lockers (g (buf c i)) = 0 -> bdirty (g (buf c i)) = false ->
   disk_of c (fid (buf c i)) (bpage (buf c i)) = Some (data (g (buf c i)))) ->
  cache_ok (upd_buf i g c).
Proof.
  intros Hok Hi Hkey Hlen Hlk Hz Hcl.
  assert (Hf : forall j, fid (buf (upd_buf i g c) j) = fid (buf c j) /\
             bpage (buf (upd_buf i g c) j) = bpage (buf c j) /\
             hashIndex (buf (upd_buf i g c) j) = hashIndex (buf c j)).
  { intros j. destruct (decide (j = i)) as [->|Hj]; [by rewrite buf_upd_same|by rewrite buf_upd_other]. }
  assert (Hc : forall j f p, cached (upd_buf i g c) j f p <-> cached c j f p).
  { intros j f p. unfold cached. destruct (Hf j) as (-> & -> & _). by rewrite len_upd. }
  constructor.
  - intros j Hj. rewrite len_upd in Hj. destruct (decide (j = i)) as [->|Hji];
      [by rewrite buf_upd_same|rewrite buf_upd_other by done; by apply (co_len _ Hok)].
  - apply (co_disk _ Hok).
  - intros h j Hj. rewrite len_upd. destruct (Hf j) as (_ & _ & ->). by apply (co_chain _ Hok).
  - apply (co_nodup _ Hok).
  - intros j. rewrite len_upd. destruct (Hf j) as (-> & _ & _). apply (co_fid _ Hok).
  - intros j k f p Hz' Hj Hk. rewrite Hc in Hj, Hk. by eapply (co_unique _ Hok).
  - intros j Hj. rewrite len_upd in Hj. destruct (Hf j) as (-> & _ & _).
    destruct (decide (j = i)) as [->|Hji]; [by rewrite buf_upd_same|rewrite buf_upd_other by done; by apply (co_zero _ Hok)].
  - intros j Hj. rewrite len_upd in Hj.
    destruct (decide (j = i)) as [->|Hji]; [by rewrite buf_upd_same|rewrite buf_upd_other by done; by apply (co_lockers _ Hok)].
  - intros j Hj. rewrite len_upd in Hj. destruct (Hf j) as (-> & -> & _).
    destruct (decide (j = i)) as [->|Hji]; [rewrite buf_upd_same by done; apply Hcl|rewrite buf_upd_other by done; by apply (co_clean _ Hok)].
Qed.

Lemma upd_view c i g :
  cache_ok c -> cache_ok (upd_buf i g c) -> (i < blen c)%nat ->
  (forall b, fid (g b) = fid b /\ bpage (g b) = bpage b) ->
  data (g (buf c i)) = data (buf c i) -> same_view c (upd_buf i g c).
Proof.
  intros Hok Hok' Hi Hkey Hd h q Hh. pose proof (live_nonzero _ Hh) as Hz.
  assert (Hf : forall j, fid (buf (upd_buf i g c) j) = fid (buf c j) /\
             bpage (buf (upd_buf i g c) j) = bpage (buf c j) /\ data (buf (upd_buf i g c) j) = data (buf c j)).
  { intros j. destruct (decide (j = i)) as [->|Hj]; [rewrite buf_upd_same by done|by rewrite buf_upd_other].
    by destruct (Hkey (buf c i)) as [-> ->]. }
  assert (Hc : forall j f p, cached (upd_buf i g c) j f p <-> cached c j f p).
  { intros j f p. unfold cached. destruct (Hf j) as (-> & -> & _). by rewrite len_upd. }
  destruct (view_cases c h q Hok Hz) as [(j & Hj & ->)|[Hn ->]].
  - apply Hc in Hj as Hj'. rewrite (view_cached _ j h q) by done. by destruct (Hf j) as (_ & _ & ->).
  - rewrite view_uncached; [done|]. intros j Hj. apply Hc in Hj. by apply Hn in Hj.
Qed.

(** ** Writing a buffer back *)

Definition writes_work (c : cache) : Prop := Forall (fun b => b = false) (write_faults c).

Lemma write_ok c i :
  cache_ok c -> (i < blen c)%nat -> bdirty (buf c i) = true -> writes_work c ->
  exists c1, ReallyWrite (fid (buf c i)) (bpage (buf c i)) (data (buf c i)) c = (0, c1) /\
    cache_ok c1 /\ same_view c c1 /\ writes_work c1 /\
    Buffers c1 = Buffers c /\ phTable c1 = phTable c /\ timecounter c1 = timecounter c /\
    read_faults c1 = read_faults c /\
    disk_of c1 (fid (buf c i)) (bpage (buf c i)) = Some (data (buf c i)).
Proof.
  intros Hok Hi Hd Hw.
  assert (Hz : fid (buf c i) <> FidZero).
  { intros E. destruct (co_zero _ Hok i Hi E). congruence. }
  destruct (co_fid _ Hok i Hi Hz) as [Hl _]. unfold ReallyWrite. rewrite (live_handle _ Hl).
  set (h := mkIH _ _ _).
  assert (Hh : dirh_handle (fid (buf c i)) = Some h) by by rewrite (live_handle _ Hl).
  assert (Hb : next_fault (write_faults c) = (false, tail (write_faults c))).
  { unfold writes_work in Hw. destruct Hw as [|b l -> Hw]; done. }
  rewrite Hb. eexists. split; [reflexivity|]. cbn [Buffers phTable timecounter read_faults set_disk set_faults].
  assert (Hdisk : forall g q, live g -> ~ (g = fid (buf c i) /\ q = bpage (buf c i)) ->
    disk_of (set_disk (fun h' p => if decide (h' = h /\ p = bpage (buf c i)) then Some (data (buf c i))
       else disk (set_faults (read_faults c) (tail (write_faults c)) c) h' p)
       (set_faults (read_faults c) (tail (write_faults c)) c)) g q = disk_of c g q).
  { intros g q Hg Hne. unfold disk_of. cbn. rewrite (live_handle _ Hg). rewrite decide_False; [done|].
    intros [E ->]. apply Hne. split; [|done]. apply live_file; [done..|]. rewrite Hh, (live_handle _ Hg). by f_equal. }
  split; [|split].
  - constructor; try apply Hok.
    + intros h' p d. cbn. destruct (decide _) as [_|_]; [|apply (co_disk _ Hok)].
      intros [= <-]. by apply (co_len _ Hok).
    + intros j Hj Hzj Hlj Hcj. cbn in Hj. change (buf _ j) with (buf c j) in *.
      rewrite Hdisk; [by apply (co_clean _ Hok)|by apply (co_fid _ Hok)|].
      intros [E1 E2]. assert (j = i) as ->; [|congruence].
      apply (co_unique _ Hok j i (fid (buf c i)) (bpage (buf c i))); done.
  - intros g q Hg. pose proof (live_nonzero _ Hg) as Hgz.
    destruct (view_cases c g q Hok Hgz) as [(j & Hj & E)|[Hn E]].
    + unfold view. cbn. fold (view c g q).
      destruct (List.find _ _) as [k|] eqn:Ef.
      * unfold view. change (fun i0 => bool_decide (cached _ i0 g q)) with (fun i0 => bool_decide (cached c i0 g q)) in Ef.
        by rewrite Ef.
      * exfalso. assert (Hin : In j (seq 0 (blen c))) by (apply in_seq; destruct Hj; lia).
        pose proof (find_none _ _ Ef j Hin) as Hn. by apply bool_decide_eq_false in Hn.
    + rewrite E, view_uncached by done. apply Hdisk; [done|]. intros [-> ->]. by apply (Hn i).
  - split_and!; try done.
    + unfold writes_work in *. cbn. by destruct Hw.
    + unfold disk_of. rewrite Hh. cbn. by rewrite decide_True.
Qed.

(** The page is written and the buffer marked clean. *)
Lemma flushed_ok c i :
  cache_ok c -> (i < blen c)%nat -> bdirty (buf c i) = true -> writes_work c ->
  exists c1, ReallyWrite (fid (buf c i)) (bpage (buf c i)) (data (buf c i)) c = (0, c1) /\
    let c2 := upd_buf i (set_dirty false) c1 in
    cache_ok c2 /\ same_view c c2 /\ writes_work c2 /\
    Buffers c1 = Buffers c /\ phTable c1 = phTable c /\ timecounter c1 = timecounter c /\
    read_faults c1 = read_faults c.
Proof.
  intros Hok Hi Hd Hw. destruct (write_ok c i Hok Hi Hd Hw) as (c1 & E & Hok1 & Hv & Hw1 & HB & HT & HC & HR & HD).
  exists c1. split; [done|]. assert (Hb : buf c1 i = buf c i) by (unfold buf; by rewrite HB).
  assert (Hi1 : (i < blen c1)%nat) by by rewrite HB.
  assert (Hok2 : cache_ok (upd_buf i (set_dirty false) c1)).
  { apply upd_ok; try done; cbn; try rewrite Hb; try done.
    - by apply (co_len _ Hok).
    - by apply (co_lockers _ Hok).
    - intros Hz. split; [by apply (co_zero _ Hok)|done]. }
  split_and!; try done. intros g q Hg. rewrite <-Hv by done. by apply upd_view.
Qed.

(** ** Giving a buffer to another page *)

Definition fix_table (i : nat) (old h : Z) (t : Z -> list nat) : Z -> list nat := fun k =>
  let l := if k =? old then without i (t k) else t k in if k =? h then i :: l else l.

Lemma elem_chain_without i j l : j ∈ without i l <-> j ∈ l /\ j <> i.
Proof.
  unfold without. rewrite !list_elem_of_In, filter_In, negb_true_iff, Nat.eqb_neq. done.
Qed.
Lemma nodup_without i l : NoDup l -> NoDup (without i l).
Proof. rewrite !NoDup_ListNoDup. apply List.NoDup_filter. Qed.

Section Place.
Context (c : cache) (i : nat) (b' : buffer) (c' : cache).
Context (Hok : cache_ok c) (Hi : (i < blen c)%nat).
Context (Hlk : lockers (buf c i) = 0) (Hcl : bdirty (buf c i) = false).
Context (HB : Buffers c' = <[i:=b']> (Buffers c)) (HD : disk c' = disk c).
Context (HT : phTable c' = fix_table i (hashIndex (buf c i)) (hashIndex b') (phTable c)).
Context (Hlen : length (data b') = BUFFER_PAGE_SIZE).
Context (Hkey : (fid b' = FidZero /\ lockers b' = 0 /\ bdirty b' = false) \/
  (live (fid b') /\ hashIndex b' = pHash (fid b') /\ 0 < lockers b' <= 127 /\
   forall j, ~ cached c j (fid b') (bpage b'))).

Lemma place_same : buf c' i = b'.
Proof. unfold buf. rewrite HB, nth_lookup. by rewrite list_lookup_insert_eq. Qed.
Lemma place_other j : j <> i -> buf c' j = buf c j.
Proof. intros Hj. unfold buf. rewrite HB, !nth_lookup. by rewrite list_lookup_insert_ne. Qed.
Lemma place_len : blen c' = blen c.
Proof. rewrite HB. apply length_insert. Qed.
Lemma place_cached j f p : j <> i -> cached c' j f p <-> cached c j f p.
Proof. intros Hj. unfold cached. by rewrite place_len, place_other. Qed.

Lemma place_chain h j : j ∈ phTable c' h <->
  (j = i /\ h = hashIndex b') \/ (j <> i /\ j ∈ phTable c h).
Proof.
  rewrite HT. unfold fix_table.
  assert (Hl : j ∈ (if h =? hashIndex (buf c i) then without i (phTable c h) else phTable c h) <->
    j <> i /\ j ∈ phTable c h).
  { destruct (Z.eqb_spec h (hashIndex (buf c i))) as [->|Hh].
    - rewrite elem_chain_without. tauto.
    - split; [|tauto]. intros Hj. split; [|done]. intros ->. by destruct (co_chain _ Hok h i Hj). }
  destruct (Z.eqb_spec h (hashIndex b')) as [->|Hh].
  - rewrite elem_of_cons, Hl. destruct (decide (j = i)); tauto.
  - rewrite Hl. tauto.
Qed.

Lemma place_nodup h : NoDup (phTable c' h).
Proof.
  rewrite HT. unfold fix_table.
  assert (Hl : NoDup (if h =? hashIndex (buf c i) then without i (phTable c h) else phTable c h) /\
    i ∉ (if h =? hashIndex (buf c i) then without i (phTable c h) else phTable c h)).
  { pose proof (co_nodup _ Hok h). destruct (Z.eqb_spec h (hashIndex (buf c i))) as [->|Hh].
    - split; [by apply nodup_without|]. rewrite elem_chain_without. tauto.
    - split; [done|]. intros Hj. by destruct (co_chain _ Hok h i Hj). }
  destruct (h =? hashIndex b'); [|apply Hl]. constructor; apply Hl.
Qed.

Lemma place_ok : cache_ok c'.
Proof.
  constructor; rewrite ?place_len.
  - intros j Hj. destruct (decide (j = i)) as [->|Hji]; [by rewrite place_same|].
    rewrite place_other by done. by apply (co_len _ Hok).
  - rewrite HD. apply (co_disk _ Hok).
  - intros h j Hj. apply place_chain in Hj as [[-> ->]|[Hji Hj]]; [by rewrite place_same|].
    rewrite place_other by done. by apply (co_chain _ Hok).
  - apply place_nodup.
  - intros j Hj Hz. destruct (decide (j = i)) as [->|Hji].
    + rewrite place_same in *. destruct Hkey as [[? _]|(? & ? & _)]; [done|]. split; [done|].
      apply place_chain. left. done.
    + rewrite place_other in * by done. destruct (co_fid _ Hok j Hj Hz). split; [done|]. apply place_chain. by right.
  - assert (Hn : forall j f p, f <> FidZero -> cached c' i f p -> cached c' j f p -> j = i).
    { intros j f p Hf [_ Hci] Hcj. destruct (decide (j = i)) as [|Hji]; [done|exfalso].
      apply place_cached in Hcj; [|done]. rewrite place_same in Hci. destruct Hci as [<- <-].
      destruct Hkey as [[? _]|(_ & _ & _ & Hno)]; [done|]. by apply Hno in Hcj. }
    intros j k f p Hf Hj Hk. destruct (decide (j = i)) as [->|Hji]; [by rewrite (Hn k f p)|].
    destruct (decide (k = i)) as [->|Hki]; [by apply (Hn j f p)|].
    rewrite place_cached in Hj, Hk by done. by eapply (co_unique _ Hok).
  - intros j Hj. destruct (decide (j = i)) as [->|Hji].
    + rewrite place_same. intros Hz. destruct Hkey as [(_ & ? & ?)|(Hl & _)]; [done|].
      by apply live_nonzero in Hl.
    + rewrite place_other by done. by apply (co_zero _ Hok).
  - intros j Hj. destruct (decide (j = i)) as [->|Hji].
    + rewrite place_same. destruct Hkey as [(_ & ? & _)|(_ & _ & ? & _)]; lia.
    + rewrite place_other by done. by apply (co_lockers _ Hok).
  - intros j Hj. unfold disk_of. rewrite HD. destruct (decide (j = i)) as [->|Hji].
    + rewrite place_same. intros Hz Hl. destruct Hkey as [[? _]|(_ & _ & ? & _)]; [done|lia].
    + rewrite place_other by done. by apply (co_clean _ Hok).
Qed.

Lemma place_view g q : live g -> ~ (g = fid b' /\ q = bpage b') -> view c' g q = view c g q.
Proof.
  intros Hg Hne. pose proof (live_nonzero _ Hg) as Hz. pose proof place_ok as Hok'.
  destruct (view_cases c g q Hok Hz) as [(j & Hj & E)|[Hn E]].
  - destruct (decide (j = i)) as [->|Hji].
    + rewrite view_uncached.
      * destruct Hj as (_ & <- & <-). rewrite E. unfold disk_of. rewrite HD. by apply (co_clean _ Hok).
      * intros k Hk. destruct (decide (k = i)) as [->|Hki].
        { destruct Hk as (_ & Hk1 & Hk2). rewrite place_same in Hk1, Hk2. apply Hne. done. }
        apply place_cached in Hk; [|done]. apply Hki. by eapply (co_unique _ Hok).
    + rewrite E. rewrite (view_cached c' j g q); [by rewrite place_other|done|done|by apply place_cached].
  - rewrite E, view_uncached; [unfold disk_of; by rewrite HD|].
    intros k Hk. destruct (decide (k = i)) as [->|Hki].
    { destruct Hk as (_ & Hk1 & Hk2). rewrite place_same in Hk1, Hk2. apply Hne. done. }
    apply place_cached in Hk; [|done]. by apply Hn in Hk.
Qed.
End Place.

(** ** Finding a buffer *)

Lemma oldest_some l k lp lt i : oldest l k lp lt = Some i ->
  lp = Some i \/ ((k <= i)%nat /\ exists b, l !! (i - k)%nat = Some b /\ lockers b = 0).
Proof.
  revert k lp lt. induction l as [|b l IH]; intros k lp lt; cbn; [by left|].
  destruct ((lockers b =? 0) && (accesstime b <? lt)) eqn:E; intros H; apply IH in H as [H|[Hk (b0 & H & ?)]].
  - injection H as <-. right. split; [lia|]. exists b. rewrite Nat.sub_diag. split; [done|]. lia.
  - right. split; [lia|]. exists b0. by replace (i - k)%nat with (S (i - S k)) by lia.
  - by left.
  - right. split; [lia|]. exists b0. by replace (i - k)%nat with (S (i - S k)) by lia.
Qed.
Lemma oldest_none l k lp lt : oldest l k lp lt = None ->
  lp = None /\ Forall (fun b => lockers b <> 0 \/ lt <= accesstime b) l.
Proof.
  revert k lp lt. induction l as [|b l IH]; intros k lp lt; cbn; [done|].
  destruct ((lockers b =? 0) && (accesstime b <? lt)) eqn:E; intros H; apply IH in H as [H Hl]; [done|].
  split; [done|]. constructor; [lia|done].
Qed.

Lemma slot_some c lp i : (forall j, lp = Some j -> (j < blen c)%nat) ->
  slot_for lp c = Some i -> (i < blen c)%nat /\ lockers (buf c i) = 0.
Proof.
  intros Hlp H.
  assert (Hb : forall b, Buffers c !! (i - 0)%nat = Some b /\ lockers b = 0 -> (i < blen c)%nat /\ lockers (buf c i) = 0).
  { intros b [Hl Hb]. rewrite Nat.sub_0_r in Hl. apply lookup_lt_Some in Hl as Hi. split; [done|].
    rewrite buf_lookup in Hl by done. by injection Hl as ->. }
  unfold slot_for in H. destruct lp as [j|]; [destruct (Z.eqb_spec (lockers (buf c j)) 0)|];
    apply oldest_some in H as [H|(_ & b & H)]; try done; try by apply (Hb b).
  injection H as <-. split; [by apply Hlp|done].
Qed.
Lemma slot_none c lp i : slot_for lp c = None -> (i < blen c)%nat ->
  lockers (buf c i) <> 0 \/ BUFFER_LONG_MAX <= accesstime (buf c i).
Proof.
  intros H Hi. assert (Hn : oldest (Buffers c) 0 None BUFFER_LONG_MAX = None).
  { unfold slot_for in H. destruct lp as [j|]; [|done]. destruct (_ =? 0); [|done].
    apply oldest_none in H as [? _]. done. }
  apply oldest_none in Hn as [_ Hl]. rewrite Forall_lookup in Hl. apply (Hl i). by apply buf_lookup.
Qed.

Lemma alter_insert_same (l : list buffer) i g b : alter g i (<[i:=b]> l) = <[i:=g b]> l.
Proof.
  apply list_eq. intros j. destruct (decide (j = i)) as [->|Hj].
  - rewrite list_lookup_alter_eq. destruct (decide (i < length l)%nat).
    + by rewrite !list_lookup_insert_eq.
    + rewrite !list_insert_ge by lia. by rewrite lookup_ge_None_2 by lia.
  - by rewrite list_lookup_alter_ne, !list_lookup_insert_ne.
Qed.
Lemma alter_is_insert c i g : (i < blen c)%nat -> alter g i (Buffers c) = <[i:=g (buf c i)]> (Buffers c).
Proof.
  intros Hi. rewrite <-(list_insert_id (Buffers c) i (buf c i)) at 1 by by apply buf_lookup.
  apply alter_insert_same.
Qed.

(** [newslot] writes the old page of buffer [i] back, which gives [c1], and gives the
    buffer to the new page, which gives [c']. *)
Record given (c : cache) (f : DirHandle) (p : Z) (i : nat) (c1 c' : cache) : Prop := {
  gv_ok : cache_ok c1;
  gv_view : same_view c c1;
  gv_in : (i < blen c1)%nat;
  gv_cached : forall j g q, cached c1 j g q <-> cached c j g q;
  gv_held : forall j, lockers (buf c1 j) = lockers (buf c j);
  gv_free : lockers (buf c1 i) = 0;
  gv_clean : bdirty (buf c1 i) = false;
  gv_buffers : Buffers c' = <[i:=mkBuf f p (s32 (timecounter c + 1)) zeros 0 false (pHash f)]> (Buffers c1);
  gv_disk : disk c' = disk c1;
  gv_table : phTable c' = fix_table i (hashIndex (buf c1 i)) (pHash f) (phTable c1)
}.

Lemma fixup_given c f p i c1 :
  (i < blen c)%nat -> lockers (buf c i) = 0 ->
  cache_ok c1 -> same_view c c1 -> blen c1 = blen c ->
  timecounter c1 = timecounter c -> bdirty (buf c1 i) = false ->
  (forall j, fid (buf c1 j) = fid (buf c j) /\ bpage (buf c1 j) = bpage (buf c j) /\
             lockers (buf c1 j) = lockers (buf c j)) ->
  let t := s32 (timecounter c1 + 1) in
  given c f p i c1 (FixupBucket i
    (upd_buf i (fun b => mkBuf f p t zeros (lockers b) (bdirty b) (hashIndex b)) (set_time t c1))).
Proof.
  intros Hi Hlk Hok1 Hv1 Hl1 HC Hd1 Hk t. set (c2 := upd_buf _ _ _).
  assert (Hi1 : (i < blen (set_time t c1))%nat) by (cbn; lia).
  assert (Hb2 : buf c2 i = mkBuf f p t zeros (lockers (buf c1 i)) (bdirty (buf c1 i)) (hashIndex (buf c1 i)))
    by by apply buf_upd_same.
  constructor; try done; try lia.
  - intros j g q. unfold cached. rewrite Hl1. by destruct (Hk j) as (-> & -> & _).
  - intros j. apply Hk.
  - destruct (Hk i) as (_ & _ & ->). done.
  - unfold FixupBucket. cbn [set_table upd_buf set_buffers Buffers]. rewrite Hb2. cbn [fid].
    cbn [c2 upd_buf set_buffers Buffers]. rewrite alter_is_insert by done. rewrite alter_insert_same.
    change (buf (set_time t c1) i) with (buf c1 i). cbn [set_index].
    destruct (Hk i) as (_ & _ & ->). rewrite Hlk, Hd1. unfold t. by rewrite HC.
  - unfold FixupBucket. rewrite Hb2. cbn [fid hashIndex set_table phTable]. done.
Qed.

Lemma slot_given_ok c f p lp : cache_ok c -> writes_work c -> (forall j, lp = Some j -> (j < blen c)%nat) ->
  (newslot f p lp c = (Die, c) /\
   forall i, (i < blen c)%nat -> lockers (buf c i) <> 0 \/ BUFFER_LONG_MAX <= accesstime (buf c i)) \/
  exists i c1 c', newslot f p lp c = (Done i, c') /\ given c f p i c1 c' /\
    writes_work c' /\ read_faults c' = read_faults c.
Proof.
  intros Hok Hw Hlp. unfold newslot. destruct (slot_for lp c) as [i|] eqn:E.
  2:{ left. split; [done|]. intros i. by apply (slot_none _ lp). }
  right. destruct (slot_some c lp i Hlp E) as [Hi Hlk]. destruct (bdirty (buf c i)) eqn:Hd.
  - destruct (flushed_ok c i Hok Hi Hd Hw) as (c1 & -> & Hok2 & Hv2 & Hw2 & HB & HT & HC & HR).
    cbn [Z.eqb negb]. assert (Hbi : forall j, buf c1 j = buf c j) by (intros j; unfold buf; by rewrite HB).
    assert (Hi1 : (i < blen c1)%nat) by (rewrite HB; done).
    eexists i, _, _. split; [reflexivity|]. split; [|split; done]. apply fixup_given; try done.
    + rewrite len_upd. by rewrite HB.
    + by rewrite buf_upd_same.
    + intros j. destruct (decide (j = i)) as [->|Hj]; [rewrite buf_upd_same by done|rewrite buf_upd_other by done];
        cbn; by rewrite Hbi.
  - cbn [Z.eqb negb]. eexists i, c, _. split; [reflexivity|]. split; [|split; done]. by apply fixup_given.
Qed.

(** What is done to the new buffer after [newslot]. *)
Lemma given_place c f p i c1 c' g : given c f p i c1 c' -> live f -> (forall j, ~ cached c j f p) ->
  let b' := g (mkBuf f p (s32 (timecounter c + 1)) zeros 0 false (pHash f)) in
  length (data b') = BUFFER_PAGE_SIZE -> hashIndex b' = pHash f -> bpage b' = p ->
  (fid b' = FidZero /\ lockers b' = 0 /\ bdirty b' = false) \/ (fid b' = f /\ 0 < lockers b' <= 127) ->
  cache_ok (upd_buf i g c') /\ buf (upd_buf i g c') i = b' /\ blen (upd_buf i g c') = blen c1 /\
  (forall j, j <> i -> lockers (buf (upd_buf i g c') j) = lockers (buf c j) /\
     forall h q, cached c j h q -> cached (upd_buf i g c') j h q) /\
  forall h q, live h -> ~ (h = f /\ q = p) \/ fid b' = FidZero -> view (upd_buf i g c') h q = view c h q.
Proof.
  intros G Hf Hno b' Hlen Hix Hp Hkey.
  assert (HB : Buffers (upd_buf i g c') = <[i:=b']> (Buffers c1)).
  { cbn. rewrite (gv_buffers _ _ _ _ _ _ G). apply alter_insert_same. }
  assert (Hkey' : (fid b' = FidZero /\ lockers b' = 0 /\ bdirty b' = false) \/
    (live (fid b') /\ hashIndex b' = pHash (fid b') /\ 0 < lockers b' <= 127 /\
     forall j, ~ cached c1 j (fid b') (bpage b'))).
  { destruct Hkey as [?|[-> Hl]]; [by left|right]. split_and!; try done; try lia.
    intros j. rewrite (gv_cached _ _ _ _ _ _ G), Hp. apply Hno. }
  assert (HD : disk (upd_buf i g c') = disk c1) by apply (gv_disk _ _ _ _ _ _ G).
  assert (HT : phTable (upd_buf i g c') = fix_table i (hashIndex (buf c1 i)) (hashIndex b') (phTable c1))
    by (rewrite Hix; apply (gv_table _ _ _ _ _ _ G)).
  pose proof (gv_ok _ _ _ _ _ _ G) as Hok1. pose proof (gv_in _ _ _ _ _ _ G) as Hi1.
  pose proof (gv_free _ _ _ _ _ _ G) as Hlk1. pose proof (gv_clean _ _ _ _ _ _ G) as Hcl1.
  split_and!.
  - by apply (place_ok c1 i b').
  - by apply (place_same c1 i b').
  - by apply (place_len c1 i b').
  - intros j Hj. split; [rewrite (place_other c1 i b' _ HB) by done; apply (gv_held _ _ _ _ _ _ G)|].
    intros h q Hc. apply (place_cached c1 i b' _ HB); [done|]. by apply (gv_cached _ _ _ _ _ _ G).
  - intros h q Hh Hne. rewrite <-(gv_view _ _ _ _ _ _ G h q Hh).
    apply (place_view c1 i b'); try done. intros [E1 E2]. destruct Hne as [Hne|Hz].
    + apply Hne. destruct Hkey as [[Hz _]|[Hz _]]; [|by rewrite <-Hp, <-Hz].
      rewrite Hz in E1. subst h. by apply live_nonzero in Hh.
    + rewrite Hz in E1. subst h. by apply live_nonzero in Hh.
Qed.

(** ** [DRead] and [DNew] *)

Lemma table_ok c c' : cache_ok c -> Buffers c' = Buffers c -> disk c' = disk c ->
  (forall h i, i ∈ phTable c' h <-> i ∈ phTable c h) -> (forall h, NoDup (phTable c' h)) ->
  cache_ok c' /\ forall g q, view c' g q = view c g q.
Proof.
  intros Hok HB HD HT HN. destruct c as [B T t d r w], c' as [B' T' t' d' r' w']. cbn in *. subst B' d'.
  split; [|done]. constructor; try apply Hok; try done.
  - intros h i Hi. apply HT in Hi. by apply (co_chain _ Hok).
  - intros i Hi Hz. destruct (co_fid _ Hok i Hi Hz). split; [done|]. by apply HT.
Qed.

Lemma upd_upd c i g1 g2 r w :
  upd_buf i g2 (set_faults r w (upd_buf i g1 c)) = upd_buf i (fun b => g2 (g1 b)) (set_faults r w c).
Proof.
  unfold upd_buf, set_faults, set_buffers. cbn. f_equal. apply list_eq. intros j.
  destruct (decide (j = i)) as [->|Hj]; [|by rewrite !list_lookup_alter_ne].
  rewrite !list_lookup_alter_eq. by destruct (Buffers c !! i).
Qed.

Lemma given_faults c f p i c1 c' r w : given c f p i c1 c' -> given c f p i c1 (set_faults r w c').
Proof. intros []. by constructor. Qed.

(** The buffers that are held stay. *)
Definition keeps_held (c c' : cache) : Prop :=
  forall j g q, lockers (buf c j) <> 0 -> cached c j g q -> cached c' j g q.

(** A reference was taken on buffer [i] and no other. *)
Definition taken (c : cache) (i : nat) (c' : cache) : Prop :=
  lockers (buf c' i) = lockers (buf c i) + 1 /\ (forall j, j <> i -> lockers (buf c' j) = lockers (buf c j)) /\
  keeps_held c c'.

Lemma last_elem {A} (l : list A) x : last l = Some x -> x ∈ l.
Proof. intros H. apply last_Some in H as [l' ->]. apply elem_of_app. right. by apply elem_of_cons; left. Qed.

Lemma find_hit c f p i : cache_ok c -> live f ->
  List.find (bufmatch c f p) (phTable c (pHash f)) = Some i ->
  i ∈ phTable c (pHash f) /\ cached c i f p.
Proof.
  intros Hok Hf H. apply find_some in H as [Hin Hm]. apply list_elem_of_In in Hin. split; [done|].
  destruct (co_chain _ Hok _ _ Hin) as [Hi _]. unfold bufmatch in Hm. bool_hyps.
  assert (Hz : fid (buf c i) <> FidZero).
  { intros E. rewrite E, live_key in H0 by done. done. }
  destruct (co_fid _ Hok i Hi Hz) as [Hl _]. split; [done|]. split; [by apply FidEq_live|lia].
Qed.
Lemma find_miss c f p j : cache_ok c -> live f ->
  List.find (bufmatch c f p) (phTable c (pHash f)) = None -> ~ cached c j f p.
Proof.
  intros Hok Hf H (Hj & Hfid & Hp). assert (Hz : fid (buf c j) <> FidZero) by (rewrite Hfid; by apply live_nonzero).
  destruct (co_fid _ Hok j Hj Hz) as [_ Hin]. rewrite Hfid in Hin. apply list_elem_of_In in Hin.
  pose proof (find_none _ _ H j Hin) as Hm. unfold bufmatch in Hm.
  by rewrite Hfid, Hp, Z.eqb_refl, FidEq_refl in Hm.
Qed.

Lemma schar_small z : -128 <= z <= 127 -> schar z = z.
Proof. intros H. unfold schar. rewrite Z.mod_small by lia. lia. Qed.

(** A hit: the buffer moves to the front of its chain and gets a reference. *)
Lemma hit_ok c f p i : cache_ok c -> writes_work c -> live f -> lockers (buf c i) < 127 ->
  i ∈ phTable c (pHash f) -> cached c i f p ->
  let t := s32 (timecounter c + 1) in
  let c' := upd_buf i (fun b => set_access t (set_lockers (schar (lockers b + 1)) b))
    (set_time t (set_table (fun k => if k =? pHash f then i :: without i (phTable c (pHash f)) else phTable c k) c)) in
  cache_ok c' /\ writes_work c' /\ same_view c c' /\ cached c' i f p /\
  view c f p = Some (data (buf c' i)) /\ taken c i c'.
Proof.
  intros Hok Hw Hf Hlk Hin Hc t c'. pose proof Hc as (Hi & Hfid & Hp).
  set (c0 := set_time t _) in *. pose proof (co_lockers _ Hok i Hi) as Hr.
  assert (Hl1 : schar (lockers (buf c i) + 1) = lockers (buf c i) + 1) by (apply schar_small; lia).
  assert (Hz : fid (buf c i) <> FidZero) by (rewrite Hfid; by apply live_nonzero).
  destruct (table_ok c c0 Hok) as [Hok0 Hv0]; try done.
  { intros h j. cbn. destruct (Z.eqb_spec h (pHash f)) as [->|]; [|done]. rewrite elem_of_cons, elem_chain_without.
    destruct (decide (j = i)) as [->|]; tauto. }
  { intros h. cbn. destruct (Z.eqb_spec h (pHash f)) as [->|]; [|apply (co_nodup _ Hok)].
    constructor; [rewrite elem_chain_without; tauto|]. apply nodup_without, (co_nodup _ Hok). }
  assert (Hb : buf c' i = set_access t (set_lockers (schar (lockers (buf c i) + 1)) (buf c i)))
    by by apply buf_upd_same.
  assert (Hok' : cache_ok c').
  { apply upd_ok; try done; change (buf c0 i) with (buf c i); cbn.
    - by apply (co_len _ Hok).
    - lia.
    - intros _ E. lia. }
  split_and!; try done.
  - intros g q Hg. rewrite <-(Hv0 g q). by apply upd_view.
  - unfold cached. rewrite Hb. unfold c'. by rewrite len_upd.
  - rewrite Hb. apply (view_cached c i f p); [done|by apply live_nonzero|done].
  - split; [by rewrite Hb|]. split; [intros j Hj; unfold c'; by rewrite buf_upd_other|].
    intros j g q _ Hcj. unfold cached, c'. rewrite len_upd. destruct (decide (j = i)) as [->|Hj];
      [by rewrite buf_upd_same|by rewrite buf_upd_other].
Qed.

(** After [newslot] the held buffers are where they were. *)
Lemma given_keeps c f p i c1 c' g : given c f p i c1 c' ->
  (forall j, j <> i -> lockers (buf (upd_buf i g c') j) = lockers (buf c j) /\
     forall h q, cached c j h q -> cached (upd_buf i g c') j h q) ->
  keeps_held c (upd_buf i g c') /\ lockers (buf c i) = 0.
Proof.
  intros G Ho. assert (Hl : lockers (buf c i) = 0)
    by by rewrite <-(gv_held _ _ _ _ _ _ G), (gv_free _ _ _ _ _ _ G).
  split; [|done]. intros j h q Hj. apply Ho. by intros ->.
Qed.

Definition all_locked (c : cache) : Prop :=
  forall i, (i < blen c)%nat -> lockers (buf c i) <> 0 \/ BUFFER_LONG_MAX <= accesstime (buf c i).

Lemma cache_read_ok c f p r c' : cache_ok c -> writes_work c -> live f ->
  (forall i, (i < blen c)%nat -> lockers (buf c i) < 127) -> DRead f p c = (r, c') ->
  match r with
  | Done i => cache_ok c' /\ writes_work c' /\ same_view c c' /\ cached c' i f p /\
      view c f p = Some (data (buf c' i)) /\ taken c i c'
  | Err e => e = EIO /\ cache_ok c' /\ writes_work c' /\ same_view c c' /\
      (forall j, lockers (buf c' j) = lockers (buf c j)) /\ keeps_held c c' /\
      (view c f p = None \/ head (read_faults c) = Some true)
  | Die => all_locked c
  end.
Proof.
  intros Hok Hw Hf Hlk. unfold DRead. destruct (List.find _ _) as [i|] eqn:E.
  { destruct (find_hit c f p i Hok Hf E) as [Hin Hc]. intros [= <- <-].
    apply hit_ok; try done. apply Hlk, Hc. }
  assert (Hno : forall j, ~ cached c j f p) by (intros j; by apply find_miss).
  destruct (slot_given_ok c f p (last (phTable c (pHash f))) Hok Hw) as [[-> Hd]|(i & c1 & c2 & -> & G & Hw2 & HR)].
  { intros j Hj. apply last_elem in Hj. by apply (co_chain _ Hok (pHash f)). }
  { by intros [= <- <-]. }
  pose proof (given_place c f p i c1) as GP.
  destruct (GP _ (fun b => set_lockers (schar (lockers b + 1)) b) G Hf Hno) as (Hokl & Hbl & _); try done.
  { by right. }
  rewrite Hbl. cbn [fid bpage set_lockers]. unfold ReallyRead. rewrite (live_handle _ Hf).
  cbn [read_faults upd_buf set_buffers]. rewrite HR.
  assert (Hdk : disk c2 (mkIH (dirh_dev f) (dirh_vid f) (dirh_ino f)) p = view c f p).
  { rewrite (gv_disk _ _ _ _ _ _ G), <-(gv_view _ _ _ _ _ _ G f p Hf), view_uncached.
    - unfold disk_of. by rewrite (live_handle _ Hf).
    - intros j. rewrite (gv_cached _ _ _ _ _ _ G). apply Hno. }
  destruct (next_fault (read_faults c)) as [bad fl] eqn:Ef. cbn [disk upd_buf set_buffers]. rewrite Hdk.
  destruct (if bad then None else view c f p) as [d|] eqn:Ed.
  - intros [= <- <-]. rewrite upd_upd. destruct bad; [done|].
    destruct (GP _ (fun b => set_data d (set_lockers (schar (lockers b + 1)) b)) (given_faults _ _ _ _ _ _ fl (write_faults c2) G) Hf Hno)
      as (Hok' & Hb' & Hl' & Ho' & Hv'); try done.
    { cbn. eapply (co_disk _ (gv_ok _ _ _ _ _ _ G)). rewrite <-(gv_disk _ _ _ _ _ _ G), Hdk. done. }
    { by right. }
    split_and!; try done.
    + intros h q Hh. destruct (decide (h = f /\ q = p)) as [[-> ->]|Hne]; [|by apply Hv'; [|left]].
      rewrite Ed. rewrite (view_cached _ i f p); [by rewrite Hb'|done|by apply live_nonzero|].
      unfold cached. rewrite Hb', Hl'. split; [apply (gv_in _ _ _ _ _ _ G)|done].
    + unfold cached. rewrite Hl', Hb'. split; [apply (gv_in _ _ _ _ _ _ G)|done].
    + by rewrite Hb'.
    + destruct (given_keeps _ _ _ _ _ _ _ (given_faults _ _ _ _ _ _ fl (write_faults c2) G) Ho') as [Hk Hl0].
      split; [by rewrite Hb', Hl0|]. split; [intros j Hj; by apply Ho'|done].
  - intros [= <- <-]. rewrite upd_upd.
    destruct (GP _ (fun b => FidZap (set_lockers (schar (lockers (set_lockers (schar (lockers b + 1)) b) - 1))
       (set_lockers (schar (lockers b + 1)) b))) (given_faults _ _ _ _ _ _ fl (write_faults c2) G) Hf Hno)
      as (Hok' & Hb' & Hl' & Ho' & Hv'); try done.
    { by left. }
    split_and!; try done.
    + intros h q Hh. apply Hv'; [done|]. by right.
    + destruct (given_keeps _ _ _ _ _ _ _ (given_faults _ _ _ _ _ _ fl (write_faults c2) G) Ho') as [Hk Hl0].
      intros j. destruct (decide (j = i)) as [->|Hj]; [by rewrite Hb', Hl0|by apply Ho'].
    + apply (given_keeps _ _ _ _ _ _ _ (given_faults _ _ _ _ _ _ fl (write_faults c2) G) Ho').
    + destruct bad; [right|by left]. destruct (read_faults c) as [|b l]; cbn in *; congruence.
Qed.

Lemma DNew_ok c f p r c' : cache_ok c -> writes_work c -> live f -> (forall j, ~ cached c j f p) ->
  DNew f p c = (r, c') ->
  match r with
  | Done i => cache_ok c' /\ writes_work c' /\ cached c' i f p /\ view c' f p = Some zeros /\
      data (buf c' i) = zeros /\ taken c i c' /\
      forall h q, live h -> ~ (h = f /\ q = p) -> view c' h q = view c h q
  | Err _ => False
  | Die => all_locked c
  end.
Proof.
  intros Hok Hw Hf Hno. unfold DNew.
  destruct (slot_given_ok c f p None Hok Hw) as [[-> Hd]|(i & c1 & c2 & -> & G & Hw2 & HR)]; [done| |].
  { by intros [= <- <-]. }
  intros [= <- <-].
  destruct (given_place c f p i c1 c2 (fun b => set_lockers (schar (lockers b + 1)) b) G Hf Hno)
    as (Hok' & Hb' & Hl' & Ho' & Hv'); try done.
  { by right. }
  assert (Hc : cached (upd_buf i (fun b => set_lockers (schar (lockers b + 1)) b) c2) i f p).
  { unfold cached. rewrite Hl', Hb'. split; [apply (gv_in _ _ _ _ _ _ G)|done]. }
  split_and!; try done.
  - rewrite (view_cached _ i f p); [by rewrite Hb'|done|by apply live_nonzero|done].
  - by rewrite Hb'.
  - destruct (given_keeps _ _ _ _ _ _ _ G Ho') as [Hk Hl0].
    split; [by rewrite Hb', Hl0|]. split; [intros j Hj; by apply Ho'|done].
  - intros h q Hh Hne. apply Hv'; [done|by left].
Qed.

(** ** Changing and releasing a page *)

Lemma held_nonzero c i : cache_ok c -> (i < blen c)%nat -> lockers (buf c i) <> 0 -> fid (buf c i) <> FidZero.
Proof. intros Hok Hi Hl E. by destruct (co_zero _ Hok i Hi E). Qed.

Lemma write_page_ok c i d : cache_ok c -> (i < blen c)%nat -> lockers (buf c i) <> 0 ->
  length d = BUFFER_PAGE_SIZE ->
  cache_ok (write_page i d c) /\
  view (write_page i d c) (fid (buf c i)) (bpage (buf c i)) = Some d /\
  forall h q, live h -> ~ cached c i h q -> view (write_page i d c) h q = view c h q.
Proof.
  intros Hok Hi Hl Hd. pose proof (held_nonzero c i Hok Hi Hl) as Hz.
  assert (Hok' : cache_ok (write_page i d c)).
  { apply upd_ok; try done; cbn. by apply (co_lockers _ Hok). }
  assert (Hf : forall j, fid (buf (write_page i d c) j) = fid (buf c j) /\
             bpage (buf (write_page i d c) j) = bpage (buf c j)).
  { intros j. unfold write_page. destruct (decide (j = i)) as [->|Hj]; [by rewrite buf_upd_same|by rewrite buf_upd_other]. }
  assert (Hc : forall j f p, cached (write_page i d c) j f p <-> cached c j f p).
  { intros j f p. unfold cached. destruct (Hf j) as (-> & ->). unfold write_page. by rewrite len_upd. }
  split_and!; [done| |].
  - rewrite (view_cached _ i _ _ Hok' Hz) by by apply Hc. unfold write_page. by rewrite buf_upd_same.
  - intros h q Hh Hn. destruct (view_cases c h q Hok (live_nonzero _ Hh)) as [(j & Hj & ->)|[Hno ->]].
    + rewrite (view_cached _ j h q Hok' (live_nonzero _ Hh)) by by apply Hc.
      unfold write_page. rewrite buf_upd_other; [done|]. by intros ->.
    + rewrite view_uncached; [done|]. intros j Hj. apply Hc in Hj. by apply Hno in Hj.
Qed.

Lemma DRelease_ok c i flag : cache_ok c -> (i < blen c)%nat -> lockers (buf c i) <> 0 ->
  flag = true \/ bdirty (buf c i) = true \/ 1 < lockers (buf c i) \/
    disk_of c (fid (buf c i)) (bpage (buf c i)) = Some (data (buf c i)) ->
  cache_ok (DRelease i flag c) /\ same_view c (DRelease i flag c) /\
  lockers (buf (DRelease i flag c) i) = lockers (buf c i) - 1.
Proof.
  intros Hok Hi Hl Hlast. pose proof (held_nonzero c i Hok Hi Hl) as Hz. pose proof (co_lockers _ Hok i Hi) as Hr.
  assert (Hs : schar (lockers (buf c i) - 1) = lockers (buf c i) - 1) by (apply schar_small; lia).
  assert (Hok' : cache_ok (DRelease i flag c)).
  { apply upd_ok; try done.
    - by intros b; destruct flag.
    - destruct flag; cbn; by apply (co_len _ Hok).
    - destruct flag; cbn; lia.
    - intros _ Hl0 Hd0. destruct flag; cbn in *; [done|].
      destruct Hlast as [?|[?|[?|?]]]; [done|congruence|lia|done]. }
  split_and!; [done| |].
  - apply upd_view; try done; [by intros b; destruct flag|by destruct flag].
  - unfold DRelease. rewrite buf_upd_same by done. by destruct flag.
Qed.

(** ** Flushing *)

(** From [c] to [c'] only dirty flags and files changed, and no contents. *)
Record flushed (c c' : cache) : Prop := {
  fl_ok : cache_ok c';
  fl_view : same_view c c';
  fl_writes : writes_work c';
  fl_len : blen c' = blen c;
  fl_table : phTable c' = phTable c;
  fl_buf : forall j, fid (buf c' j) = fid (buf c j) /\ bpage (buf c' j) = bpage (buf c j) /\
    data (buf c' j) = data (buf c j) /\ lockers (buf c' j) = lockers (buf c j) /\
    (bdirty (buf c j) = false -> bdirty (buf c' j) = false)
}.

Lemma flushed_refl c : cache_ok c -> writes_work c -> flushed c c.
Proof. by constructor. Qed.
Lemma flushed_trans c1 c2 c3 : flushed c1 c2 -> flushed c2 c3 -> flushed c1 c3.
Proof.
  intros F G. constructor; [apply G| |apply G| | |].
  - intros g q Hg. by rewrite (fl_view _ _ G), (fl_view _ _ F).
  - by rewrite (fl_len _ _ G), (fl_len _ _ F).
  - by rewrite (fl_table _ _ G), (fl_table _ _ F).
  - intros j. destruct (fl_buf _ _ F j) as (<- & <- & <- & <- & ?).
    destruct (fl_buf _ _ G j) as (-> & -> & -> & -> & ?). split_and!; auto.
Qed.

(** One dirty buffer written and marked clean. *)
Lemma flush_step c i : cache_ok c -> (i < blen c)%nat -> bdirty (buf c i) = true -> writes_work c ->
  exists c1, ReallyWrite (fid (buf c i)) (bpage (buf c i)) (data (buf c i)) c = (0, c1) /\
    Buffers c1 = Buffers c /\
    flushed c (upd_buf i (set_dirty false) c1) /\ bdirty (buf (upd_buf i (set_dirty false) c1) i) = false.
Proof.
  intros Hok Hi Hd Hw. destruct (flushed_ok c i Hok Hi Hd Hw) as (c1 & E & Hok2 & Hv2 & Hw2 & HB & HT & HC & HR).
  assert (Hi1 : (i < blen c1)%nat) by by rewrite HB.
  assert (Hb : forall j, buf c1 j = buf c j) by (intros j; unfold buf; by rewrite HB).
  exists c1. split_and!; try done.
  - constructor; try done; [by rewrite len_upd, HB|]. intros j.
    destruct (decide (j = i)) as [->|Hj]; [rewrite buf_upd_same by done|rewrite buf_upd_other by done];
      rewrite Hb; by split_and!.
  - by rewrite buf_upd_same.
Qed.

(** The reference taken around the write makes no difference. *)
Lemma flush_buffer_eq c i c1 : cache_ok c -> (i < blen c)%nat -> bdirty (buf c i) = true ->
  ReallyWrite (fid (buf c i)) (bpage (buf c i)) (data (buf c i)) c = (0, c1) -> Buffers c1 = Buffers c ->
  flush_buffer (0, c) i = (0, upd_buf i (set_dirty false) c1).
Proof.
  intros Hok Hi Hd E HB. unfold flush_buffer. rewrite Hd, buf_upd_same by done. cbn [fid bpage data set_lockers].
  assert (Ec : forall f b d g, ReallyWrite f b d (upd_buf i g c) =
    let (k, c1) := ReallyWrite f b d c in (k, upd_buf i g c1)).
  { intros f b d g. unfold ReallyWrite. destruct (dirh_handle f); [|done]. cbn.
    destruct (next_fault (write_faults c)) as [[] fl]; done. }
  rewrite Ec, E. cbn [Z.eqb negb andb]. f_equal. unfold upd_buf, set_buffers. cbn. f_equal.
  rewrite HB. apply list_eq. intros j. destruct (decide (j = i)) as [->|Hj]; [|by rewrite !list_lookup_alter_ne].
  rewrite !list_lookup_alter_eq, buf_lookup by done. cbn. f_equal. unfold set_dirty, set_lockers. cbn. f_equal.
  pose proof (co_lockers _ Hok i Hi). unfold schar. Z.div_mod_to_equations. lia.
Qed.

Lemma flush_list c l : cache_ok c -> writes_work c -> (forall i, i ∈ l -> (i < blen c)%nat) ->
  exists c', fold_left flush_buffer l (0, c) = (0, c') /\ flushed c c' /\
    forall i, i ∈ l -> bdirty (buf c' i) = false.
Proof.
  revert c. induction l as [|i l IH]; intros c Hok Hw Hl; cbn [fold_left].
  { exists c. split; [done|]. split; [by apply flushed_refl|]. intros i Hi. by apply not_elem_of_nil in Hi. }
  assert (Hi : (i < blen c)%nat) by (apply Hl, elem_of_cons; by left).
  assert (Hs : exists c1, flush_buffer (0, c) i = (0, c1) /\ flushed c c1 /\ bdirty (buf c1 i) = false).
  { destruct (bdirty (buf c i)) eqn:Hd.
    - destruct (flush_step c i Hok Hi Hd Hw) as (c1 & E & HB & F & Hc). exists (upd_buf i (set_dirty false) c1).
      split; [by apply flush_buffer_eq|done].
    - exists c. unfold flush_buffer. rewrite Hd. split; [done|]. split; [by apply flushed_refl|done]. }
  destruct Hs as (c1 & -> & F & Hc).
  destruct (IH c1) as (c' & E & G & Hd); [apply F|apply F| |].
  { intros j Hj. rewrite (fl_len _ _ F). apply Hl, elem_of_cons. by right. }
  exists c'. split; [done|]. split; [by eapply flushed_trans|]. intros j Hj.
  apply elem_of_cons in Hj as [->|Hj]; [by apply (fl_buf _ _ G i)|by apply Hd].
Qed.

Lemma DFlush_ok c : cache_ok c -> writes_work c ->
  exists c', DFlush c = (0, c') /\ flushed c c' /\
    forall i, (i < blen c)%nat -> bdirty (buf c' i) = false.
Proof.
  intros Hok Hw. destruct (flush_list c (seq 0 (blen c)) Hok Hw) as (c' & E & F & Hd).
  { intros i Hi. apply elem_of_seq in Hi. lia. }
  exists c'. split; [done|]. split; [done|]. intros i Hi. apply Hd, elem_of_seq. lia.
Qed.

Lemma flush_entry_ok c f l : cache_ok c -> writes_work c -> live f -> (forall i, i ∈ l -> (i < blen c)%nat) ->
  exists c', flush_entry f l c = (0, c') /\ flushed c c' /\
    forall i, i ∈ l -> fid (buf c i) = f -> bdirty (buf c' i) = false.
Proof.
  intros Hok Hw Hf. revert c Hok Hw. induction l as [|i l IH]; intros c Hok Hw Hl; cbn [flush_entry].
  { exists c. split; [done|]. split; [by apply flushed_refl|]. intros i Hi. by apply not_elem_of_nil in Hi. }
  assert (Hi : (i < blen c)%nat) by (apply Hl, elem_of_cons; by left).
  assert (Hrec : forall c1, flushed c c1 -> (fid (buf c i) = f -> bdirty (buf c1 i) = false) ->
    exists c', flush_entry f l c1 = (0, c') /\ flushed c c' /\
      forall j, j ∈ i :: l -> fid (buf c j) = f -> bdirty (buf c' j) = false).
  { intros c1 F Hc. destruct (IH c1) as (c' & E & G & Hd); [apply F|apply F| |].
    { intros j Hj. rewrite (fl_len _ _ F). apply Hl, elem_of_cons. by right. }
    exists c'. split; [done|]. split; [by eapply flushed_trans|]. intros j Hj Hfj.
    apply elem_of_cons in Hj as [->|Hj]; [apply (fl_buf _ _ G i); by apply Hc|]. apply Hd; [done|].
    by destruct (fl_buf _ _ F j) as (-> & _). }
  destruct (FidEq (fid (buf c i)) f && bdirty (buf c i)) eqn:Ec.
  - apply andb_true_iff in Ec as [_ Hd]. destruct (flush_step c i Hok Hi Hd Hw) as (c1 & -> & HB & F & Hc).
    cbn [Z.eqb negb]. by apply Hrec.
  - apply Hrec; [by apply flushed_refl|]. intros <-. rewrite FidEq_refl in Ec. done.
Qed.

Lemma DFlushEntry_ok c f : cache_ok c -> writes_work c -> live f ->
  exists c', DFlushEntry f c = (0, c') /\ flushed c c' /\
    forall i, (i < blen c)%nat -> fid (buf c i) = f -> bdirty (buf c' i) = false.
Proof.
  intros Hok Hw Hf. destruct (flush_entry_ok c f (phTable c (pHash f)) Hok Hw Hf) as (c' & E & F & Hd).
  { intros i Hi. by apply (co_chain _ Hok (pHash f)). }
  exists c'. split; [done|]. split; [done|]. intros i Hi Hfi. apply Hd; [|done]. rewrite <-Hfi.
  apply (co_fid _ Hok i Hi). rewrite Hfi. by apply live_nonzero.
Qed.

(** After a flush the file holds the pages that nobody holds. *)
Lemma flushed_on_disk c' g q : cache_ok c' -> live g ->
  (forall i, cached c' i g q -> lockers (buf c' i) = 0 /\ bdirty (buf c' i) = false) ->
  disk_of c' g q = view c' g q.
Proof.
  intros Hok Hg Hc. destruct (view_cases c' g q Hok (live_nonzero _ Hg)) as [(i & Hi & ->)|[_ ->]]; [|done].
  destruct (Hc i Hi). destruct Hi as (Hi & <- & <-). by apply (co_clean _ Hok); [|apply live_nonzero|..].
Qed.

(** ** Dropping buffers *)

Lemma zap_ok c i g : cache_ok c -> (i < blen c)%nat -> lockers (buf c i) = 0 ->
  g (buf c i) = mkBuf FidZero (bpage (buf c i)) (accesstime (buf c i)) (data (buf c i)) 0 false (hashIndex (buf c i)) ->
  cache_ok (upd_buf i g c) /\
  (forall h q, live h -> ~ cached c i h q -> view (upd_buf i g c) h q = view c h q) /\
  (forall h q, live h -> cached c i h q -> view (upd_buf i g c) h q = disk_of c h q).
Proof.
  intros Hok Hi Hl Hg.
  assert (Hs : buf (upd_buf i g c) i = _) by (etransitivity; [by apply buf_upd_same|exact Hg]).
  assert (Hc : forall j f p, f <> FidZero -> cached (upd_buf i g c) j f p <-> j <> i /\ cached c j f p).
  { intros j f p Hf. unfold cached. rewrite len_upd. destruct (decide (j = i)) as [->|Hj].
    - rewrite Hs. cbn. split; [|tauto]. intros (_ & <- & _). done.
    - rewrite buf_upd_other by done. tauto. }
  assert (Hok' : cache_ok (upd_buf i g c)).
  { constructor; rewrite ?len_upd; cbn [disk phTable upd_buf set_buffers]; try apply Hok;
      try (intros j Hj; destruct (decide (j = i)) as [->|Hji];
        [rewrite Hs; cbn|rewrite buf_upd_other by done; by apply Hok]); try done.
    - by apply (co_len _ Hok).
    - intros h j Hj. destruct (co_chain _ Hok h j Hj) as [? <-]. split; [done|].
      destruct (decide (j = i)) as [->|Hji]; [by rewrite Hs|by rewrite buf_upd_other].
    - intros j k f p Hf Hj Hk. apply Hc in Hj as [_ Hj]; [|done]. apply Hc in Hk as [_ Hk]; [|done].
      by eapply (co_unique _ Hok). }
  split_and!; [done| |].
  - intros h q Hh Hn. pose proof (live_nonzero _ Hh) as Hz.
    destruct (view_cases c h q Hok Hz) as [(j & Hj & ->)|[Hno ->]].
    + assert (j <> i) by (by intros ->). rewrite (view_cached _ j h q Hok' Hz) by by apply Hc.
      by rewrite buf_upd_other.
    + rewrite view_uncached; [done|]. intros j Hj. apply Hc in Hj as [_ Hj]; [|done]. by apply Hno in Hj.
  - intros h q Hh Hci. pose proof (live_nonzero _ Hh) as Hz. rewrite view_uncached; [done|].
    intros j Hj. apply Hc in Hj as [Hji Hj]; [|done]. apply Hji. by eapply (co_unique _ Hok).
Qed.

(** From [c] to [c'] some unlocked buffers were given up. *)
Record dropped (c c' : cache) : Prop := {
  dr_ok : cache_ok c';
  dr_len : blen c' = blen c;
  dr_writes : write_faults c' = write_faults c \/ writes_work c';
  dr_buf : forall j, lockers (buf c' j) = lockers (buf c j) /\
    (fid (buf c' j) = fid (buf c j) \/ fid (buf c' j) = FidZero)
}.
Lemma dropped_trans c1 c2 c3 : dropped c1 c2 -> dropped c2 c3 -> dropped c1 c3.
Proof.
  intros F G. constructor; [apply G| | |].
  - by rewrite (dr_len _ _ G), (dr_len _ _ F).
  - destruct (dr_writes _ _ G) as [E|?]; [|by right]. destruct (dr_writes _ _ F) as [E'|?]; [left; congruence|right].
    unfold writes_work in *. by rewrite E.
  - intros j. destruct (dr_buf _ _ F j) as [<- HF], (dr_buf _ _ G j) as [-> HG]. split; [done|].
    destruct HG as [->| ->]; [done|by right].
Qed.

Lemma zap_dropped c i g : cache_ok c -> (i < blen c)%nat -> lockers (buf c i) = 0 ->
  g (buf c i) = mkBuf FidZero (bpage (buf c i)) (accesstime (buf c i)) (data (buf c i)) 0 false (hashIndex (buf c i)) ->
  dropped c (upd_buf i g c) /\ fid (buf (upd_buf i g c) i) = FidZero.
Proof.
  intros Hok Hi Hl Hg. destruct (zap_ok c i g Hok Hi Hl Hg) as (Hok' & _). split.
  - constructor; [done|apply len_upd|by left|]. intros j. destruct (decide (j = i)) as [->|Hj].
    + rewrite buf_upd_same, Hg by done. cbn. rewrite Hl. by split; [|right].
    + rewrite buf_upd_other by done. by split; [|left].
  - by rewrite buf_upd_same, Hg.
Qed.

Definition zap_step (dir : DirHandle) (c : cache) (i : nat) : cache :=
  if FidEq (fid (buf c i)) dir then upd_buf i (fun b => set_dirty false (FidZap b)) c else c.

Lemma zap_list c f l : cache_ok c -> live f -> (forall i, i ∈ l -> (i < blen c)%nat) ->
  (forall i, (i < blen c)%nat -> fid (buf c i) = f -> lockers (buf c i) = 0) ->
  let c' := fold_left (zap_step f) l c in
  dropped c c' /\ disk c' = disk c /\ (forall i, i ∈ l -> fid (buf c' i) <> f) /\
  (forall h q, live h -> h <> f -> view c' h q = view c h q).
Proof.
  intros Hok Hf. pose proof (live_nonzero _ Hf) as Hfz.
  revert c Hok. induction l as [|i l IH]; intros c Hok Hl Hlk; cbn [fold_left].
  { split; [constructor; auto|]. split; [done|]. split; [|done]. intros i Hi. by apply not_elem_of_nil in Hi. }
  assert (Hi : (i < blen c)%nat) by (apply Hl, elem_of_cons; by left).
  assert (Hs : dropped c (zap_step f c i) /\ disk (zap_step f c i) = disk c /\ fid (buf (zap_step f c i) i) <> f /\
    forall h q, live h -> h <> f -> view (zap_step f c i) h q = view c h q).
  { unfold zap_step. destruct (FidEq (fid (buf c i)) f) eqn:E.
    - assert (Hz : fid (buf c i) <> FidZero) by (intros Ez; rewrite Ez, live_key in E by done; done).
      apply FidEq_live in E; [|by apply (co_fid _ Hok)|done].
      assert (Hg : set_dirty false (FidZap (buf c i)) = mkBuf FidZero (bpage (buf c i)) (accesstime (buf c i))
        (data (buf c i)) 0 false (hashIndex (buf c i))) by (unfold set_dirty, FidZap, set_fid; cbn; by rewrite Hlk).
      destruct (zap_dropped c i (fun b => set_dirty false (FidZap b)) Hok Hi (Hlk i Hi E) Hg) as [HD HZ].
      destruct (zap_ok c i (fun b => set_dirty false (FidZap b)) Hok Hi (Hlk i Hi E) Hg) as (_ & Hv & _).
      split_and!; try done; [by rewrite HZ; apply not_eq_sym|]. intros h q Hh Hne. apply Hv; [done|].
      intros (_ & <- & _). done.
    - split; [constructor; auto|]. split; [done|]. split; [|done]. intros <-. by rewrite FidEq_refl in E. }
  destruct Hs as (HD & Hdk & Hne & Hv).
  destruct (IH (zap_step f c i)) as (HD' & Hdk' & Hne' & Hv'); [apply HD| | |].
  { intros j Hj. rewrite (dr_len _ _ HD). apply Hl, elem_of_cons. by right. }
  { intros j Hj Hfj. destruct (dr_buf _ _ HD j) as [-> [E|E]]; [|congruence].
    apply Hlk; [by rewrite <-(dr_len _ _ HD)|congruence]. }
  split_and!; [by eapply dropped_trans|congruence| |].
  - intros j Hj. apply elem_of_cons in Hj as [->|Hj]; [|by apply Hne'].
    destruct (dr_buf _ _ HD' i) as [_ [->| ->]]; [done|by apply not_eq_sym].
  - intros h q Hh Hhf. by rewrite Hv', Hv.
Qed.

Lemma DZap_ok c f : cache_ok c -> live f ->
  (forall i, (i < blen c)%nat -> fid (buf c i) = f -> lockers (buf c i) = 0) ->
  dropped c (DZap f c) /\ (forall q, view (DZap f c) f q = disk_of c f q) /\
  (forall h q, live h -> h <> f -> view (DZap f c) h q = view c h q).
Proof.
  intros Hok Hf Hlk. destruct (zap_list c f (phTable c (pHash f)) Hok Hf) as (HD & Hdk & Hne & Hv); [|done|].
  { intros i Hi. by apply (co_chain _ Hok (pHash f)). }
  change (fold_left _ _ _) with (DZap f c) in *. split_and!; try done. intros q. rewrite view_uncached.
  - unfold disk_of. by rewrite Hdk.
  - intros i (Hi & Hfi & _). destruct (dr_buf _ _ HD i) as [_ [E|E]].
    + apply (Hne i); [|done]. assert (Hz : fid (buf c i) <> FidZero) by (rewrite <-E, Hfi; by apply live_nonzero).
      rewrite (dr_len _ _ HD) in Hi. destruct (co_fid _ Hok i Hi Hz) as [_ Hin]. by rewrite <-E, Hfi in Hin.
    + rewrite E in Hfi. by apply live_nonzero in Hf.
Qed.

(** A volume's pages are written and given up. *)
Lemma flush_vol_list c vid l : cache_ok c -> writes_work c -> (forall i, i ∈ l -> (i < blen c)%nat) ->
  (forall i, (i < blen c)%nat -> dirh_vid (fid (buf c i)) = vid -> lockers (buf c i) = 0) ->
  exists c', fold_left (flush_vol_buffer vid) l (0, c) = (0, c') /\
  dropped c c' /\ writes_work c' /\ same_view c c' /\
  (forall i, i ∈ l -> fid (buf c' i) = FidZero \/ dirh_vid (fid (buf c' i)) <> vid).
Proof.
  revert c. induction l as [|i l IH]; intros c Hok Hw Hl Hlk; cbn [fold_left].
  { exists c. split; [done|]. split; [constructor; auto|]. split_and!; try done. intros i Hi. by apply not_elem_of_nil in Hi. }
  assert (Hi : (i < blen c)%nat) by (apply Hl, elem_of_cons; by left).
  assert (Hs : exists c1, flush_vol_buffer vid (0, c) i = (0, c1) /\ dropped c c1 /\ writes_work c1 /\ same_view c c1 /\
    (fid (buf c1 i) = FidZero \/ dirh_vid (fid (buf c1 i)) <> vid)).
  { unfold flush_vol_buffer. destruct (FidVolEq (fid (buf c i)) vid) eqn:E; unfold FidVolEq in E.
    2:{ exists c. split; [done|]. split; [constructor; auto|]. split_and!; try done. right. lia. }
    assert (Hl0 : lockers (buf c i) = 0) by (apply Hlk; [done|lia]).
    assert (Hz : forall c0, flushed c c0 -> bdirty (buf c0 i) = false ->
      dropped c (upd_buf i FidZap c0) /\ writes_work (upd_buf i FidZap c0) /\ same_view c (upd_buf i FidZap c0) /\
      (fid (buf (upd_buf i FidZap c0) i) = FidZero \/ dirh_vid (fid (buf (upd_buf i FidZap c0) i)) <> vid)).
    { intros c0 F Hd0. destruct (fl_buf _ _ F i) as (_ & _ & _ & Hl1 & _). rewrite Hl0 in Hl1.
      assert (Hi0 : (i < blen c0)%nat) by by rewrite (fl_len _ _ F).
      assert (Hg : FidZap (buf c0 i) = mkBuf FidZero (bpage (buf c0 i)) (accesstime (buf c0 i))
        (data (buf c0 i)) 0 false (hashIndex (buf c0 i))) by (unfold FidZap, set_fid; by rewrite Hl1, Hd0).
      destruct (zap_dropped c0 i FidZap (fl_ok _ _ F) Hi0 Hl1 Hg) as [HD HZ].
      destruct (zap_ok c0 i FidZap (fl_ok _ _ F) Hi0 Hl1 Hg) as (_ & Hv & Hvi).
      assert (HD0 : dropped c c0).
      { constructor; [apply F|apply F|right; apply F|]. intros j. destruct (fl_buf _ _ F j) as (-> & _ & _ & -> & _). auto. }
      split_and!; [by eapply dropped_trans|apply F| |by left].
      intros h q Hh. rewrite <-(fl_view _ _ F h q Hh). destruct (decide (cached c0 i h q)) as [Hc|Hc]; [|by apply Hv].
      rewrite Hvi by done. apply flushed_on_disk; [apply F|done|]. intros j Hj.
      assert (j = i) as -> by (eapply (co_unique _ (fl_ok _ _ F)); [by apply live_nonzero|done..]). done. }
    destruct (bdirty (buf c i)) eqn:Hd.
    - destruct (flush_step c i Hok Hi Hd Hw) as (c1 & -> & HB & F & Hc). cbn [Z.eqb negb andb].
      eexists. split; [reflexivity|]. by apply Hz.
    - eexists. split; [reflexivity|]. apply Hz; [by apply flushed_refl|done]. }
  destruct Hs as (c1 & -> & HD & Hw1 & Hv & Hf).
  destruct (IH c1) as (c' & E & HD' & Hw' & Hv' & Hf'); [apply HD|done| | |].
  { intros j Hj. rewrite (dr_len _ _ HD). apply Hl, elem_of_cons. by right. }
  { intros j Hj Hfj. destruct (dr_buf _ _ HD j) as [-> [Ej|Ej]].
    - apply Hlk; [by rewrite <-(dr_len _ _ HD)|congruence].
    - destruct (dr_buf _ _ HD j) as [<- _]. by apply (co_zero _ (dr_ok _ _ HD)). }
  exists c'. split_and!; [done|by eapply dropped_trans|done| |].
  - intros h q Hh. by rewrite Hv', Hv.
  - intros j Hj. apply elem_of_cons in Hj as [->|Hj]; [|by apply Hf'].
    destruct (dr_buf _ _ HD' i) as [_ [->| ->]]; auto.
Qed.

Lemma DFlushVolume_ok c vid : cache_ok c -> writes_work c ->
  (forall i, (i < blen c)%nat -> dirh_vid (fid (buf c i)) = vid -> lockers (buf c i) = 0) ->
  exists c', DFlushVolume vid c = (0, c') /\ dropped c c' /\ writes_work c' /\ same_view c c' /\
  forall f q, live f -> dirh_vid f = vid -> disk_of c' f q = view c f q.
Proof.
  intros Hok Hw Hlk. destruct (flush_vol_list c vid (phTable c (vHash vid)) Hok Hw) as (c' & E & HD & Hw' & Hv & Hf); [|done|].
  { intros i Hi. by apply (co_chain _ Hok (vHash vid)). }
  exists c'. split_and!; try done. intros f q Hlf Hvid. rewrite <-Hv by done. symmetry. apply view_uncached.
  intros i (Hi & Hfi & _). pose proof (live_nonzero _ Hlf) as Hz. rewrite (dr_len _ _ HD) in Hi.
  destruct (dr_buf _ _ HD i) as [_ [Ei|Ei]]; [|congruence]. rewrite Hfi in Ei.
  destruct (co_fid _ Hok i Hi) as [_ Hin]; [congruence|].
  destruct (Hf i) as [?|Hne]; [|congruence|].
  - rewrite <-Ei in Hin. unfold pHash in Hin. by rewrite Hvid in Hin.
  - by rewrite Hfi in Hne.
Qed.

Lemma DInit_ok n d rd wr : (forall h p x, d h p = Some x -> length x = BUFFER_PAGE_SIZE) -> cache_ok (DInit n d rd wr).
Proof.
  intros Hd. assert (Hb : forall i, buf (DInit n d rd wr) i = no_buffer).
  { intros i. unfold buf. cbn. apply nth_repeat. }
  constructor; try done.
  - intros i Hi. by rewrite Hb.
  - intros h i Hi. by apply not_elem_of_nil in Hi.
  - intros h. constructor.
  - intros i Hi. by rewrite Hb.
  - intros i j f p Hf (_ & E & _). rewrite Hb in E. by subst f.
  - intros i Hi. by rewrite Hb.
  - intros i Hi. by rewrite Hb.
  - intros i Hi. by rewrite Hb.
Qed.

(** ** All operations *)

Inductive cop :=
| CRead (f : DirHandle) (p : Z)
| CNew (f : DirHandle) (p : Z)
| CWrite (i : nat) (d : list Z)
| CRelease (i : nat) (flag : bool)
| CFlush
| CFlushEntry (f : DirHandle)
| CFlushVolume (vid : Z)
| CZap (f : DirHandle).

Definition of_code (r : Z * cache) : outcome nat * cache :=
  (if r.1 =? 0 then Done 0%nat else Err r.1, r.2).

Definition exec (op : cop) (c : cache) : outcome nat * cache :=
  match op with
  | CRead f p => DRead f p c
  | CNew f p => DNew f p c
  | CWrite i d => (Done i, write_page i d c)
  | CRelease i flag => (Done i, DRelease i flag c)
  | CFlush => of_code (DFlush c)
  | CFlushEntry f => of_code (DFlushEntry f c)
  | CFlushVolume vid => of_code (DFlushVolume vid c)
  | CZap f => (Done 0%nat, DZap f c)
  end.

(** What clients keep to: handles in use, fewer than 127 references to a buffer, a new
    page is not in the cache, a page is changed only while it is held, and whoever
    gives up the last reference to a changed page says so; a directory or volume is
    dropped when nobody holds its pages. *)
Definition permitted (c : cache) (op : cop) : Prop :=
  match op with
  | CRead f p => live f /\ forall i, (i < blen c)%nat -> lockers (buf c i) < 127
  | CNew f p => live f /\ forall i, ~ cached c i f p
  | CWrite i d => (i < blen c)%nat /\ lockers (buf c i) <> 0 /\ length d = BUFFER_PAGE_SIZE
  | CRelease i flag => (i < blen c)%nat /\ lockers (buf c i) <> 0 /\
      (flag = true \/ bdirty (buf c i) = true \/ 1 < lockers (buf c i) \/
       disk_of c (fid (buf c i)) (bpage (buf c i)) = Some (data (buf c i)))
  | CFlush => True
  | CFlushEntry f => live f
  | CFlushVolume vid => forall i, (i < blen c)%nat -> dirh_vid (fid (buf c i)) = vid -> lockers (buf c i) = 0
  | CZap f => live f /\ forall i, (i < blen c)%nat -> fid (buf c i) = f -> lockers (buf c i) = 0
  end.

(** The page at [f], [p] becomes [d] and no other page changes. *)
Definition page_set (c c' : cache) (f : DirHandle) (p : Z) (d : list Z) : Prop :=
  view c' f p = Some d /\ forall h q, live h -> ~ (h = f /\ q = p) -> view c' h q = view c h q.

Definition promise (op : cop) (r : outcome nat) (c c' : cache) : Prop :=
  match op, r with
  | CRead f p, Done i =>
      same_view c c' /\ cached c' i f p /\ view c f p = Some (data (buf c' i)) /\ taken c i c'
  | CRead f p, Err e =>
      e = EIO /\ same_view c c' /\ (view c f p = None \/ head (read_faults c) = Some true)
  | CNew f p, Done i => page_set c c' f p zeros /\ cached c' i f p /\ taken c i c'
  | CRead _ _, Die => all_locked c
  | CNew _ _, Die => all_locked c
  | CWrite i d, Done _ => page_set c c' (fid (buf c i)) (bpage (buf c i)) d
  | CRelease i _, Done _ => same_view c c' /\ lockers (buf c' i) = lockers (buf c i) - 1
  | CFlush, Done _ =>
      same_view c c' /\ forall g q, live g -> (forall i, cached c' i g q -> lockers (buf c' i) = 0) ->
        disk_of c' g q = view c g q
  | CFlushEntry f, Done _ =>
      same_view c c' /\ forall q, (forall i, cached c' i f q -> lockers (buf c' i) = 0) ->
        disk_of c' f q = view c f q
  | CFlushVolume vid, Done _ =>
      same_view c c' /\ forall f q, live f -> dirh_vid f = vid -> disk_of c' f q = view c f q
  | CZap f, Done _ =>
      (forall q, view c' f q = disk_of c f q) /\ forall h q, live h -> h <> f -> view c' h q = view c h q
  | _, _ => False
  end.

Lemma dropped_works c c' : dropped c c' -> writes_work c -> writes_work c'.
Proof. intros HD Hw. destruct (dr_writes _ _ HD) as [E|?]; [|done]. unfold writes_work. by rewrite E. Qed.

Lemma exec_ok c op r c' : cache_ok c -> writes_work c -> permitted c op -> exec op c = (r, c') ->
  promise op r c c' /\ (r <> Die -> cache_ok c' /\ writes_work c').
Proof.
  intros Hok Hw Hp He. destruct op; cbn [exec permitted promise] in *.
  - destruct Hp as [Hf Hl]. pose proof (cache_read_ok c f p r c' Hok Hw Hf Hl He) as H.
    destruct r; [| |by split]; split; tauto.
  - destruct Hp as [Hf Hn]. pose proof (DNew_ok c f p r c' Hok Hw Hf Hn He) as H.
    destruct r; [|done|by split]. unfold page_set. split; tauto.
  - destruct Hp as (Hi & Hl & Hd). injection He as <- <-. destruct (write_page_ok c i d Hok Hi Hl Hd) as (? & ? & Hv).
    split; [|done]. split; [done|]. intros h q Hh Hne. apply Hv; [done|]. intros (_ & <- & <-). by apply Hne.
  - destruct Hp as (Hi & Hl & Hd). injection He as <- <-. destruct (DRelease_ok c i flag Hok Hi Hl Hd) as (? & ? & ?).
    done.
  - destruct (DFlush_ok c Hok Hw) as (c1 & E & F & Hd). rewrite E in He. injection He as <- <-.
    split; [|split; apply F]. split; [apply F|]. intros g q Hg Hl. rewrite <-(fl_view _ _ F g q Hg).
    apply flushed_on_disk; [apply F|done|]. intros i Hi. split; [by apply Hl|]. apply Hd.
    rewrite <-(fl_len _ _ F). apply Hi.
  - destruct (DFlushEntry_ok c f Hok Hw Hp) as (c1 & E & F & Hd). rewrite E in He. injection He as <- <-.
    split; [|split; apply F]. split; [apply F|]. intros q Hl. rewrite <-(fl_view _ _ F f q Hp).
    apply flushed_on_disk; [apply F|done|]. intros i Hi. split; [by apply Hl|]. destruct Hi as (Hi & Hfi & _).
    apply Hd; [by rewrite <-(fl_len _ _ F)|]. by destruct (fl_buf _ _ F i) as (<- & _).
  - destruct (DFlushVolume_ok c vid Hok Hw Hp) as (c1 & E & HD & Hw' & Hv & Hf). rewrite E in He. injection He as <- <-.
    split; [by split|]. intros _. split; [apply HD|done].
  - destruct Hp as [Hf Hl]. injection He as <- <-. destruct (DZap_ok c f Hok Hf Hl) as (HD & Hz & Hv).
    split; [by split|]. intros _. split; [apply HD|by eapply dropped_works].
Qed.

(** Sequences of permitted operations, none of which ends the process. *)
Inductive runs : cache -> cache -> Prop :=
| runs_refl c : runs c c
| runs_step c op r c' c'' : permitted c op -> exec op c = (r, c') -> r <> Die -> runs c' c'' -> runs c c''.

Lemma runs_ok c c' : runs c c' -> cache_ok c -> writes_work c -> cache_ok c' /\ writes_work c'.
Proof.
  induction 1 as [|c op r c1 c2 Hp He Hr _ IH]; [done|]. intros Hok Hw.
  destruct (exec_ok c op r c1 Hok Hw Hp He) as [_ H]. by apply IH; apply H.
Qed.


(** ** The pages that dir.c works on *)

(** A client works on directory [f] and holds the buffers [R], each for a page.  Its
    state in the model of dir.c: the bytes of the pages that are there, and the
    number of references. *)
Record sim (f : DirHandle) (R : list (Z * nat)) (c : cache) (s : dirf) : Prop := {
  sm_page : forall p, if decide (p ∈ present s)
    then view c f p = Some (bytes (cells s) (p * AFS_PAGESIZE) BUFFER_PAGE_SIZE)
    else view c f p = None;
  sm_held : held s = Z.of_nat (length R);
  sm_refs : forall p i, (p, i) ∈ R -> cached c i f p;
  sm_count : forall i, Z.of_nat (count_occ Nat.eq_dec R.*2 i) <= lockers (buf c i)
}.

Lemma sim_refs_held f R c s p i : sim f R c s -> (p, i) ∈ R -> lockers (buf c i) <> 0.
Proof.
  intros S Hin. pose proof (sm_count _ _ _ _ S i) as Hc.
  assert (Hi : In i R.*2) by (apply list_elem_of_In; by apply (list_elem_of_fmap_2 snd R (p, i))).
  apply (count_occ_In Nat.eq_dec) in Hi. lia.
Qed.

(** Whatever others do, as long as the pages of [f] stay and so do the references. *)
Lemma sim_frame f R c s c' s' : sim f R c s -> live f -> same_view c c' -> keeps_held c c' ->
  (forall j, lockers (buf c j) <= lockers (buf c' j)) ->
  cells s' = cells s -> present s' = present s -> held s' = held s -> sim f R c' s'.
Proof.
  intros S Hf Hv Hk Hl E1 E2 E3. constructor.
  - intros p. rewrite E1, E2, Hv by done. apply (sm_page _ _ _ _ S).
  - rewrite E3. apply S.
  - intros p i Hin. apply Hk; [by eapply sim_refs_held|by apply (sm_refs _ _ _ _ S)].
  - intros i. etransitivity; [apply (sm_count _ _ _ _ S)|done].
Qed.

Lemma sim_taken f R c s i p c' s' : sim f R c s -> live f -> same_view c c' -> taken c i c' -> cached c' i f p ->
  cells s' = cells s -> present s' = present s -> held s' = held s + 1 -> sim f ((p, i) :: R) c' s'.
Proof.
  intros S Hf Hv (Hi & Ho & Hk) Hc E1 E2 E3. constructor.
  - intros q. rewrite E1, E2, Hv by done. apply (sm_page _ _ _ _ S).
  - rewrite E3, (sm_held _ _ _ _ S). cbn [length]. lia.
  - intros q j Hin. apply elem_of_cons in Hin as [[= -> ->]|Hin]; [done|].
    apply Hk; [by eapply sim_refs_held|by apply (sm_refs _ _ _ _ S)].
  - intros j. change (((p, i) :: R).*2) with (i :: R.*2). cbn [count_occ]. pose proof (sm_count _ _ _ _ S j) as Hj.
    destruct (Nat.eq_dec i j) as [<-|Hij]; [lia|]. rewrite Ho by done. done.
Qed.

Definition with_fault (b : bool) (s : dirf) : dirf :=
  mkDir (cells s) (present s) (dirty s) (held s) (b :: io_faults s).

Lemma sim_DRead f R c s p r c' : cache_ok c -> writes_work c -> live f ->
  (forall i, (i < blen c)%nat -> lockers (buf c i) < 127) -> sim f R c s -> DRead f p c = (r, c') ->
  match r with
  | Done i => exists s', Dir.DRead p (with_fault false s) = (Ret tt, s') /\ sim f ((p, i) :: R) c' s'
  | Err e => exists s', Dir.DRead p (with_fault (default false (head (read_faults c))) s) = (Fail e, s') /\
      sim f R c' s'
  | Die => True
  end.
Proof.
  intros Hok Hw Hf Hl S He. pose proof (cache_read_ok c f p r c' Hok Hw Hf Hl He) as H.
  pose proof (sm_page _ _ _ _ S p) as Hp. destruct r as [i|e|]; [| |done].
  - destruct H as (_ & _ & Hv & Hc & Hd & Ht). unfold Dir.DRead. cbn [with_fault io_faults present orb].
    destruct (decide (p ∈ present s)) as [Hin|Hin]; [|congruence]. rewrite bool_decide_eq_true_2 by done. cbn [negb].
    eexists. split; [reflexivity|]. by eapply sim_taken.
  - destruct H as (-> & _ & _ & Hv & Hlk & Hk & Hwhy).
    exists (mkDir (cells s) (present s) (dirty s) (held s) (io_faults s)). split.
    + unfold Dir.DRead. cbn [with_fault io_faults present]. destruct Hwhy as [Hn| ->]; [|done].
      destruct (decide (p ∈ present s)) as [Hin|Hin]; [congruence|].
      rewrite bool_decide_eq_false_2 by done. by rewrite orb_true_r.
    + eapply sim_frame; try done. intros j. by rewrite Hlk.
Qed.

Lemma sim_DNew f R c s p i c' : cache_ok c -> writes_work c -> live f -> (forall j, ~ cached c j f p) ->
  sim f R c s -> DNew f p c = (Done i, c') ->
  exists s', Dir.DNew p s = (Ret tt, s') /\ sim f ((p, i) :: R) c' s'.
Proof.
  intros Hok Hw Hf Hn S He. pose proof (DNew_ok c f p _ c' Hok Hw Hf Hn He) as (_ & _ & Hc & Hv & _ & (Hi & Ho & Hk) & Hvo).
  eexists. split; [reflexivity|]. constructor; cbn [present cells held].
  - intros q. destruct (decide (q = p)) as [->|Hq].
    + rewrite decide_True by (apply elem_of_union; left; by apply elem_of_singleton). rewrite Hv. f_equal.
      replace (p * AFS_PAGESIZE) with (p * AFS_PAGESIZE + Z.of_nat 0) at 1 by lia.
      rewrite bytes_patch by by rewrite repeat_length. unfold patch. rewrite drop_ge; [by rewrite app_nil_r|].
      rewrite page_bytes_length, repeat_length. done.
    + rewrite Hvo by (done || tauto).
      rewrite bytes_elsewhere by (rewrite repeat_length; unfold AFS_PAGESIZE, BUFFER_PAGE_SIZE; lia).
      pose proof (sm_page _ _ _ _ S q) as Hs. destruct (decide (q ∈ present s)).
      * rewrite decide_True by (apply elem_of_union; by right). done.
      * rewrite decide_False; [done|]. rewrite elem_of_union, elem_of_singleton. tauto.
  - rewrite (sm_held _ _ _ _ S). cbn [length]. lia.
  - intros q j Hin. apply elem_of_cons in Hin as [[= -> ->]|Hin]; [done|].
    apply Hk; [by eapply sim_refs_held|by apply (sm_refs _ _ _ _ S)].
  - intros j. change (((p, i) :: R).*2) with (i :: R.*2). cbn [count_occ]. pose proof (sm_count _ _ _ _ S j) as Hj.
    destruct (Nat.eq_dec i j) as [<-|Hij]; [lia|]. rewrite Ho by done. done.
Qed.

Lemma sim_put f R c s p i off l : cache_ok c -> live f -> sim f R c s -> (p, i) ∈ R ->
  (off + length l <= BUFFER_PAGE_SIZE)%nat ->
  exists s', Dir.put (p * AFS_PAGESIZE + Z.of_nat off) l s = (Ret tt, s') /\
    sim f R (write_page i (patch off l (data (buf c i))) c) s'.
Proof.
  intros Hok Hf S Hin Hl. pose proof (sm_refs _ _ _ _ S p i Hin) as Hc. pose proof (sim_refs_held _ _ _ _ _ _ S Hin) as Hlk.
  destruct (Hc) as (Hi & Hfi & Hpi). pose proof (co_len _ Hok i Hi) as Hlen.
  destruct (write_page_ok c i (patch off l (data (buf c i))) Hok Hi Hlk) as (Hok' & Hvp & Hvo);
    [rewrite patch_length; lia|]. rewrite Hfi, Hpi in Hvp.
  pose proof (view_cached c i f p Hok (live_nonzero _ Hf) Hc) as Hview.
  assert (Hb : forall j, fid (buf (write_page i (patch off l (data (buf c i))) c) j) = fid (buf c j) /\
    bpage (buf (write_page i (patch off l (data (buf c i))) c) j) = bpage (buf c j) /\
    lockers (buf (write_page i (patch off l (data (buf c i))) c) j) = lockers (buf c j)).
  { intros j. unfold write_page. destruct (decide (j = i)) as [->|Hj]; [by rewrite buf_upd_same|by rewrite buf_upd_other]. }
  eexists. split; [reflexivity|]. constructor; cbn [present cells held].
  - intros q. pose proof (sm_page _ _ _ _ S q) as Hs. destruct (decide (q = p)) as [->|Hq].
    + destruct (decide (p ∈ present s)); [|congruence]. rewrite Hvp. f_equal. rewrite bytes_patch by done. congruence.
    + rewrite Hvo; [|done|by intros (_ & _ & ?); congruence].
      rewrite bytes_elsewhere by (unfold AFS_PAGESIZE, BUFFER_PAGE_SIZE in *; lia). done.
  - apply S.
  - intros q j Hj. unfold cached. destruct (Hb j) as (-> & -> & _). unfold write_page. rewrite len_upd.
    by apply (sm_refs _ _ _ _ S).
  - intros j. destruct (Hb j) as (_ & _ & ->). apply (sm_count _ _ _ _ S).
Qed.

Lemma sim_DRelease f R1 R2 c s p i flag : cache_ok c -> live f -> sim f (R1 ++ (p, i) :: R2) c s ->
  flag = true \/ bdirty (buf c i) = true \/ 1 < lockers (buf c i) \/ disk_of c f p = Some (data (buf c i)) ->
  exists s', Dir.DRelease p flag s = (Ret tt, s') /\ sim f (R1 ++ R2) (DRelease i flag c) s'.
Proof.
  intros Hok Hf S Hlast. assert (Hin : (p, i) ∈ R1 ++ (p, i) :: R2) by (apply elem_of_app; right; by apply elem_of_cons; left).
  pose proof (sm_refs _ _ _ _ S p i Hin) as (Hi & Hfi & Hpi). pose proof (sim_refs_held _ _ _ _ _ _ S Hin) as Hlk.
  destruct (DRelease_ok c i flag Hok Hi Hlk) as (Hok' & Hv & Hl); [by rewrite Hfi, Hpi|].
  assert (Hb : forall j, fid (buf (DRelease i flag c) j) = fid (buf c j) /\ bpage (buf (DRelease i flag c) j) = bpage (buf c j)).
  { intros j. unfold DRelease. destruct (decide (j = i)) as [->|Hj]; [rewrite buf_upd_same by done; by destruct flag|by rewrite buf_upd_other]. }
  eexists. split; [reflexivity|]. constructor; cbn [present cells held].
  - intros q. rewrite Hv by done. apply (sm_page _ _ _ _ S).
  - rewrite (sm_held _ _ _ _ S), !length_app. cbn [length]. lia.
  - intros q j Hj. unfold cached. destruct (Hb j) as (-> & ->). unfold DRelease. rewrite len_upd.
    apply (sm_refs _ _ _ _ S). apply elem_of_app in Hj as [Hj|Hj]; apply elem_of_app; [by left|right; apply elem_of_cons; by right].
  - intros j. pose proof (sm_count _ _ _ _ S j) as Hj. rewrite fmap_app in *. cbn [fmap list_fmap] in Hj.
    rewrite count_occ_app in *. cbn [count_occ] in Hj. destruct (decide (j = i)) as [->|Hji].
    + rewrite Hl. destruct (Nat.eq_dec _ _); cbn in *; [lia|done].
    + unfold DRelease. rewrite buf_upd_other by done. destruct (Nat.eq_dec _ _); [cbn in *; congruence|lia].
Qed.

(** Others reading their directories do not disturb a client. *)
Lemma sim_other f R c s g p r c' : cache_ok c -> writes_work c -> live f -> live g ->
  (forall i, (i < blen c)%nat -> lockers (buf c i) < 127) -> sim f R c s ->
  DRead g p c = (r, c') -> r <> Die -> sim f R c' s.
Proof.
  intros Hok Hw Hf Hg Hl S He Hr. pose proof (cache_read_ok c g p r c' Hok Hw Hg Hl He) as H.
  destruct r as [i|e|]; [| |done].
  - destruct H as (_ & _ & Hv & _ & _ & Hi & Ho & Hk). eapply sim_frame; try done. intros j.
    destruct (decide (j = i)) as [->|Hj]; [lia|by rewrite Ho].
  - destruct H as (_ & _ & _ & Hv & Hlk & Hk & _). eapply sim_frame; try done. intros j. by rewrite Hlk.
Qed.

End Live.

(** ** Instances *)

Definition ih0 : IHandle := mkIH 1 536870912 7.
Definition dir0 : DirHandle := SetDirHandle ih0 1 1 1.
Definition live0 (f : DirHandle) : Prop := f = dir0.
Definition disk0 (h : IHandle) (p : Z) : option (list Z) :=
  if decide (h = ih0 /\ p = 0) then Some zeros else None.
Definition file0 : dirf := mkDir (fun _ => 0) {[0]} ∅ 0 [].

Lemma live0_handle f : live0 f -> dirh_handle f = Some (mkIH (dirh_dev f) (dirh_vid f) (dirh_ino f)).
Proof. by intros ->. Qed.
Lemma live0_file f g : live0 f -> live0 g -> dirh_handle f = dirh_handle g -> f = g.
Proof. by intros -> ->. Qed.
Lemma live0_key f : live0 f -> FidEq FidZero f = false.
Proof. by intros ->. Qed.
Lemma disk0_len h p x : disk0 h p = Some x -> length x = BUFFER_PAGE_SIZE.
Proof. unfold disk0. destruct (decide _); [|done]. by intros [= <-]. Qed.


Lemma sim0 : sim dir0 [] (DInit 2 disk0 [] []) file0.
Proof.
  constructor; [|done| |].
  - intros p. unfold view. cbn [List.find seq length Buffers DInit repeat]. cbn. unfold disk0.
    destruct (decide (p = 0)) as [->|Hp].
    + rewrite !decide_True by (done || by apply elem_of_singleton). by vm_compute.
    + rewrite !decide_False; [done|tauto|by rewrite elem_of_singleton].
  - intros p i Hin. by apply not_elem_of_nil in Hin.
  - intros [|[|[|i]]]; done.
Qed.


(** [ReallyWrite] fails while [DFlush] writes a new page: the flush reports success, the
    buffer counts as clean, and the page is gone when the buffer is reused. *)
Definition lost_page : cache :=
  let c := (DNew dir0 1 (DInit 1 disk0 [] [true])).2 in
  DRelease 0 true (write_page 0 (repeat 7 BUFFER_PAGE_SIZE) c).
Example flush_loses_page :
  (DFlush lost_page).1 = 0 /\ bdirty (buf (DFlush lost_page).2 0) = false /\
  view lost_page dir0 1 = Some (repeat 7 BUFFER_PAGE_SIZE) /\
  let c := (DRead dir0 0 (DFlush lost_page).2).2 in
  (DRead dir0 1 (DRelease 0 false c)).1 = Err EIO.
Proof. by vm_compute. Qed.
