(* ===== verification/Xdr.v ===== *)
(** * XDR: the wire format of all AFS RPCs (rx/xdr.c and its companions)

    An XDR procedure encodes, decodes or frees one object, depending on the stream's
    operation.  Here it takes the operation, the object as it is in memory before the
    call, and the stream, and gives the returned boolean, the object after the call
    and the stream.  The stream is the interface [XdrStream], the [struct xdr_ops]
    of xdr.h, with two implementations: [xdrmem] (xdr_mem.c) over a buffer, and
    [xdrlen] (xdr_len.c), which only counts.

    A pointer is an [option]: [None] is NULL.  The memory behind a [char *] is the
    list of its bytes, for a string with the terminating zero. *)

From stdpp Require Import prelude list.
From Stdlib Require Import ZArith Lia ZifyBool.
From S2P Require Import Prelude ByteMem.

#[local] Open Scope Z_scope.

Inductive xdr_op := XDR_ENCODE | XDR_DECODE | XDR_FREE.

(** [struct xdr_ops]; a getter that fails gives [None]. *)
Class XdrStream (X : Type) := {
  XDR_GETINT32 : X -> option Z * X;
  XDR_PUTINT32 : Z -> X -> bool * X;
  XDR_GETBYTES : nat -> X -> option (list Z) * X;
  XDR_PUTBYTES : list Z -> X -> bool * X
}.

Definition xdrproc (X A : Type) : Type := xdr_op -> A -> X -> bool * A * X.

Definition s16 (z : Z) : Z := (z + 2 ^ 15) mod 2 ^ 16 - 2 ^ 15.
Definition s8 (z : Z) : Z := (z + 2 ^ 7) mod 2 ^ 8 - 2 ^ 7.
Definition s64 (z : Z) : Z := (z + 2 ^ 63) mod 2 ^ 64 - 2 ^ 63.
Definition u64 (z : Z) : Z := z mod 2 ^ 64.

Definition BYTES_PER_XDR_UNIT : nat := 4.
Definition LIMIT := 2 ^ 31 - 1.   (* (~0u) >> 1 *)

Section Procs.
Context {X : Type} `{XdrStream X}.

(** ** Integers *)

(** The [switch] of the integer procedures: [enc] is the conversion of the object to
    the 32-bit word, [dec] that of the word to the object. *)
Definition xdr_scalar (enc dec : Z -> Z) : xdrproc X Z := fun op v x =>
  match op with
  | XDR_ENCODE => let (b, x') := XDR_PUTINT32 (enc v) x in (b, v, x')
  | XDR_DECODE =>
      match XDR_GETINT32 x with
      | (Some l, x') => (true, dec l, x')
      | (None, x') => (false, v, x')
      end
  | XDR_FREE => (true, v, x)
  end.

Definition xdr_int : xdrproc X Z := xdr_scalar (fun ip => ip) (fun l => l).
Definition xdr_u_int : xdrproc X Z := xdr_scalar (fun uip => s32 uip) (fun l => u32 l).
(** [long] has 64 bits. *)
Definition xdr_long : xdrproc X Z := xdr_scalar (fun lp => s32 lp) (fun l => l).
Definition xdr_u_long : xdrproc X Z := xdr_scalar (fun ulp => s32 ulp) (fun l => u32 l).
Definition xdr_char : xdrproc X Z := xdr_scalar (fun sp => sp) (fun l => s8 l).
Definition xdr_u_char : xdrproc X Z := xdr_scalar (fun usp => usp) (fun l => u8 l).
Definition xdr_short : xdrproc X Z := xdr_scalar (fun sp => sp) (fun l => s16 l).
Definition xdr_u_short : xdrproc X Z := xdr_scalar (fun usp => usp) (fun l => u16 l).
Definition xdr_afs_int32 : xdrproc X Z := xdr_scalar (fun lp => lp) (fun l => l).
Definition xdr_afs_uint32 : xdrproc X Z := xdr_scalar (fun ulp => s32 ulp) (fun l => u32 l).
(** [bool_t] is an [int]. *)
Definition xdr_bool : xdrproc X Z :=
  xdr_scalar (fun bp => if negb (bp =? 0) then 1 else 0) (fun lb => if lb =? 0 then 0 else 1).
Definition xdr_enum : xdrproc X Z := xdr_int.
Definition xdr_void {A} : xdrproc X A := fun _ v x => (true, v, x).

(** [*ulp = high; *ulp <<= 32; *ulp += low]; a failed second read leaves [*ulp]. *)
Definition xdr_afs_int64 : xdrproc X Z := fun op v x =>
  match op with
  | XDR_DECODE =>
      match XDR_GETINT32 x with
      | (None, x1) => (false, v, x1)
      | (Some high, x1) =>
          match XDR_GETINT32 x1 with
          | (None, x2) => (false, v, x2)
          | (Some low, x2) => (true, s64 (Z.shiftl high 32 + u32 low), x2)
          end
      end
  | XDR_ENCODE =>
      let (b1, x1) := XDR_PUTINT32 (s32 (Z.shiftr v 32)) x in
      if negb b1 then (false, v, x1)
      else let (b2, x2) := XDR_PUTINT32 (s32 (Z.land v 4294967295)) x1 in (b2, v, x2)
  | XDR_FREE => (true, v, x)
  end.

Definition xdr_afs_uint64 : xdrproc X Z := fun op v x =>
  match op with
  | XDR_DECODE =>
      match XDR_GETINT32 x with
      | (None, x1) => (false, v, x1)
      | (Some high, x1) =>
          match XDR_GETINT32 x1 with
          | (None, x2) => (false, v, x2)
          | (Some low, x2) => (true, u64 (Z.shiftl (u32 high) 32 + u32 low), x2)
          end
      end
  | XDR_ENCODE =>
      let (b1, x1) := XDR_PUTINT32 (s32 (Z.shiftr v 32)) x in
      if negb b1 then (false, v, x1)
      else let (b2, x2) := XDR_PUTINT32 (s32 (Z.land v 4294967295)) x1 in (b2, v, x2)
  | XDR_FREE => (true, v, x)
  end.

Definition xdr_int64 : xdrproc X Z := xdr_afs_int64.
Definition xdr_uint64 : xdrproc X Z := xdr_afs_uint64.

(** ** Bytes and strings *)

Definition rndup (cnt : nat) : nat :=
  let r := (cnt mod BYTES_PER_XDR_UNIT)%nat in
  if (0 <? r)%nat then (BYTES_PER_XDR_UNIT - r)%nat else 0%nat.

(** Write the bytes [l] over the start of the memory [m]. *)
Definition over (l m : list Z) : list Z := l ++ drop (length l) m.

(** [xdr_opaque(xdrs, cp, cnt)]; [m] is the memory behind [cp]. *)
Definition xdr_opaque (cnt : nat) : xdrproc X (list Z) := fun op m x =>
  if (cnt =? 0)%nat then (true, m, x)
  else
    match op with
    | XDR_DECODE =>
        match XDR_GETBYTES cnt x with
        | (None, x1) => (false, m, x1)
        | (Some l, x1) =>
            if (rndup cnt =? 0)%nat then (true, over l m, x1)
            else match XDR_GETBYTES (rndup cnt) x1 with
                 | (None, x2) => (false, over l m, x2)
                 | (Some _, x2) => (true, over l m, x2)
                 end
        end
    | XDR_ENCODE =>
        let (b1, x1) := XDR_PUTBYTES (take cnt m) x in
        if negb b1 then (false, m, x1)
        else if (rndup cnt =? 0)%nat then (true, m, x1)
        else let (b2, x2) := XDR_PUTBYTES (repeat 0 (rndup cnt)) x1 in (b2, m, x2)
    | XDR_FREE => (true, m, x)
    end.

Context (osi_alloc : Z -> bool).

(** The memory behind a pointer that is not NULL. *)
Definition deref {A} (p : option (list A)) : list A :=
  match p with Some l => l | None => [] end.

(** [xdr_bytes(xdrs, cpp, sizep, maxsize)]: the object is the pointer and the size. *)
Definition xdr_bytes (maxsize : Z) : xdrproc X (option (list Z) * Z) := fun op obj x =>
  let (sp, size0) := (obj : option (list Z) * Z) in
  let '(b, nodesize, x1) := xdr_u_int op size0 x in
  if negb b then (false, (sp, nodesize), x1)
  else
    match op with
    | XDR_FREE => (true, (None, nodesize), x1)
    | XDR_ENCODE =>
        if maxsize <? nodesize then (false, (sp, nodesize), x1)
        else let '(b, m, x2) := xdr_opaque (Z.to_nat nodesize) op (deref sp) x1 in
             (b, (sp, nodesize), x2)
    | XDR_DECODE =>
        if maxsize <? nodesize then (false, (sp, nodesize), x1)
        else if (match sp with None => negb (osi_alloc nodesize) | Some _ => false end)
        then (false, (None, nodesize), x1)
        else
          let '(b, m, x2) := xdr_opaque (Z.to_nat nodesize) op
                               (match sp with None => repeat 0 (Z.to_nat nodesize) | Some m => m end) x1 in
          (b, (Some m, nodesize), x2)
    end.

(** [xdr_string(xdrs, cpp, maxsize)]: the memory of a string has its zero. *)
Definition xdr_string (maxsize : Z) : xdrproc X (option (list Z)) := fun op sp x =>
  let maxsize := Z.min maxsize (LIMIT - 1) in
  match op, sp with
  | XDR_FREE, None => (true, None, x)
  | _, _ =>
      let size0 := match op with XDR_DECODE => 0 | _ => Z.of_nat (length (cstr (deref sp))) end in
      let '(b, size, x1) := xdr_u_int op (u32 size0) x in
      if negb b then (false, sp, x1)
      else if maxsize <? size then (false, sp, x1)
      else
        match op with
        | XDR_FREE => (true, None, x1)
        | XDR_ENCODE =>
            let '(b, m, x2) := xdr_opaque (Z.to_nat size) op (deref sp) x1 in (b, sp, x2)
        | XDR_DECODE =>
            if (match sp with None => negb (osi_alloc (size + 1)) | Some _ => false end)
            then (false, None, x1)
            else
              let n := Z.to_nat size in
              let m := match sp with None => repeat 0 (S n) | Some m => m end in
              let '(b, m', x2) := xdr_opaque n op (take n m ++ 0 :: drop (S n) m) x1 in
              (b, Some m', x2)
        end
  end.

Definition BUFSIZ := 8192.
Definition xdr_wrapstring : xdrproc X (option (list Z)) := xdr_string BUFSIZ.

(** ** Arrays, pointers, unions *)

(** [for (i = 0; (i < c) && stat; i++)] over the elements. *)
Fixpoint xdr_elements {A} (elproc : xdrproc X A) (op : xdr_op) (l : list A) (x : X)
    : bool * list A * X :=
  match l with
  | [] => (true, [], x)
  | v :: r =>
      let '(b, v', x1) := elproc op v x in
      if negb b then (false, v' :: r, x1)
      else let '(b', r', x2) := xdr_elements elproc op r x1 in (b', v' :: r', x2)
  end.

(** The body of [xdr_array] and of [xdr_arrayN], which differ in the byte limit;
    [zero] is an element of zero bytes, [elsize] its size.  An array that is there
    already has room for the elements. *)
Definition xdr_array_lim (limit : Z) {A} (zero : A) (elsize maxsize : Z) (elproc : xdrproc X A)
    : xdrproc X (option (list A) * Z) := fun op obj x =>
  let (target, size0) := (obj : option (list A) * Z) in
  let maxsize := Z.min maxsize (limit / elsize) in
  let '(b, c, x1) := xdr_u_int op size0 x in
  if negb b then (false, (target, c), x1)
  else
    match op with
    | XDR_FREE =>
        match target with
        | None => (true, (None, c), x1)
        | Some l => let '(b, _, x2) := xdr_elements elproc op (take (Z.to_nat c) l) x1 in
                    (b, (None, c), x2)
        end
    | XDR_ENCODE =>
        if maxsize <? c then (false, (target, c), x1)
        else let '(b, _, x2) := xdr_elements elproc op (take (Z.to_nat c) (deref target)) x1 in
             (b, (target, c), x2)
    | XDR_DECODE =>
        if maxsize <? c then (false, (target, c), x1)
        else
          match target with
          | None =>
              if c =? 0 then (true, (None, c), x1)
              else if negb (osi_alloc (u32 (c * elsize))) then (false, (None, c), x1)
              else let '(b, l', x2) := xdr_elements elproc op (repeat zero (Z.to_nat c)) x1 in
                   (b, (Some l', c), x2)
          | Some l =>
              let '(b, l', x2) := xdr_elements elproc op (take (Z.to_nat c) l) x1 in
              (b, (Some (l' ++ drop (Z.to_nat c) l), c), x2)
          end
    end.

Definition xdr_array {A} := @xdr_array_lim LIMIT A.
(** [(~0) >> 1] is [-1]; divided by the unsigned [elsize] it is [2^32 - 1]. *)
Definition xdr_arrayN {A} := @xdr_array_lim (2 ^ 32 - 1) A.

(** [xdr_vector]: the elements are where they are. *)
Definition xdr_vector {A} (nelem : nat) (elproc : xdrproc X A) : xdrproc X (list A) := fun op l x =>
  let '(b, l', x1) := xdr_elements elproc op (take nelem l) x in (b, l' ++ drop nelem l, x1).

(** [xdr_reference]; encoding through NULL is not meaningful and given as a failure. *)
Definition xdr_reference {A} (zero : A) (size : Z) (proc : xdrproc X A) : xdrproc X (option A) :=
  fun op pp x =>
  match pp, op with
  | None, XDR_FREE => (true, None, x)
  | None, XDR_ENCODE => (false, None, x)
  | None, XDR_DECODE =>
      if negb (osi_alloc size) then (false, None, x)
      else let '(b, v, x1) := proc op zero x in (b, Some v, x1)
  | Some v, XDR_FREE => let '(b, _, x1) := proc op v x in (b, None, x1)
  | Some v, _ => let '(b, v', x1) := proc op v x in (b, Some v', x1)
  end.

Definition xdr_pointer {A} (zero : A) (obj_size : Z) (xdr_obj : xdrproc X A) : xdrproc X (option A) :=
  fun op objpp x =>
  let '(b, more_data, x1) := xdr_bool op (match objpp with None => 0 | Some _ => 1 end) x in
  if negb b then (false, objpp, x1)
  else if more_data =? 0 then (true, None, x1)
  else xdr_reference zero obj_size xdr_obj op objpp x1.

(** [xdr_union]: the discriminant and the arm. *)
Fixpoint union_arm {U} (dscm : Z) (choices : list (Z * xdrproc X U)) : option (xdrproc X U) :=
  match choices with
  | [] => None
  | (value, proc) :: rest => if value =? dscm then Some proc else union_arm dscm rest
  end.

Definition xdr_union {U} (choices : list (Z * xdrproc X U)) (dfault : option (xdrproc X U))
    : xdrproc X (Z * U) := fun op obj x =>
  let (dscm0, unp) := (obj : Z * U) in
  let '(b, dscm, x1) := xdr_enum op dscm0 x in
  if negb b then (false, (dscm, unp), x1)
  else
    match (match union_arm dscm choices with None => dfault | Some p => Some p end) with
    | None => (false, (dscm, unp), x1)
    | Some proc => let '(b, u, x2) := proc op unp x1 in (b, (dscm, u), x2)
    end.

(** ** A structure: [afsUUID] *)

Record afsUUID := mkUUID {
  time_low : Z;
  time_mid : Z;
  time_hi_and_version : Z;
  clock_seq_hi_and_reserved : Z;
  clock_seq_low : Z;
  node : list Z
}.

Definition xdr_afsUUID : xdrproc X afsUUID := fun op o x =>
  let '(b, tl, x) := xdr_afs_uint32 op (time_low o) x in
  if negb b then (false, mkUUID tl (time_mid o) (time_hi_and_version o)
                    (clock_seq_hi_and_reserved o) (clock_seq_low o) (node o), x)
  else let '(b, tm, x) := xdr_u_short op (time_mid o) x in
  if negb b then (false, mkUUID tl tm (time_hi_and_version o)
                    (clock_seq_hi_and_reserved o) (clock_seq_low o) (node o), x)
  else let '(b, th, x) := xdr_u_short op (time_hi_and_version o) x in
  if negb b then (false, mkUUID tl tm th (clock_seq_hi_and_reserved o) (clock_seq_low o) (node o), x)
  else let '(b, ch, x) := xdr_char op (clock_seq_hi_and_reserved o) x in
  if negb b then (false, mkUUID tl tm th ch (clock_seq_low o) (node o), x)
  else let '(b, cl, x) := xdr_char op (clock_seq_low o) x in
  if negb b then (false, mkUUID tl tm th ch cl (node o), x)
  else let '(b, nd, x) := xdr_vector 6 xdr_char op (node o) x in
  (b, mkUUID tl tm th ch cl nd, x).

(** [xdr_free]: the stream is not initialised but for its operation. *)
Definition xdr_free {A} (proc : xdrproc X A) (obj : A) (x : X) : A :=
  (proc XDR_FREE obj x).1.2.

End Procs.

(** ** Streams *)

(** [xdrmem]: the buffer, the offset of [x_private] in it and [x_handy]. *)
Record xdrmem := mkMem {
  x_base : list Z;
  x_private : nat;
  x_handy : Z
}.

Definition INT_MAX := 2 ^ 31 - 1.
Definition xdrmem_create (addr : list Z) (size : Z) : xdrmem :=
  mkMem addr 0 (if INT_MAX <? size then INT_MAX else size).

(** Bytes written at an offset. *)
Definition splice (m : list Z) (p : nat) (l : list Z) : list Z :=
  take p m ++ l ++ drop (p + length l) m.

(** [x_handy] is an [int]; it is compared with a [size_t], or with a [u_int], and
    so as an unsigned number. *)
Definition xdrmem_getint32 (x : xdrmem) : option Z * xdrmem :=
  if u64 (x_handy x) <? 4 then (None, x)
  else (option_map s32 (un_be32 (take 4 (drop (x_private x) (x_base x)))),
        mkMem (x_base x) (x_private x + 4) (x_handy x - 4)).

Definition xdrmem_putint32 (l : Z) (x : xdrmem) : bool * xdrmem :=
  if u64 (x_handy x) <? 4 then (false, x)
  else (true, mkMem (splice (x_base x) (x_private x) (be32 l)) (x_private x + 4) (x_handy x - 4)).

Definition xdrmem_getbytes (len : nat) (x : xdrmem) : option (list Z) * xdrmem :=
  if u32 (x_handy x) <? Z.of_nat len then (None, x)
  else (Some (take len (drop (x_private x) (x_base x))),
        mkMem (x_base x) (x_private x + len) (x_handy x - Z.of_nat len)).

Definition xdrmem_putbytes (l : list Z) (x : xdrmem) : bool * xdrmem :=
  if u32 (x_handy x) <? Z.of_nat (length l) then (false, x)
  else (true, mkMem (splice (x_base x) (x_private x) l) (x_private x + length l)
                (x_handy x - Z.of_nat (length l))).

Definition xdrmem_getpos (x : xdrmem) : Z := u32 (Z.of_nat (x_private x)).

Definition xdrmem_setpos (pos : Z) (x : xdrmem) : bool * xdrmem :=
  let newaddr := pos in
  let lastaddr := Z.of_nat (x_private x) + x_handy x in
  if lastaddr <? newaddr then (false, x)
  else (true, mkMem (x_base x) (Z.to_nat newaddr) (s32 (lastaddr - newaddr))).

(** [xdrmem_inline]: the offset of the block handed out. *)
Definition xdrmem_inline (len : Z) (x : xdrmem) : option nat * xdrmem :=
  if len <=? u32 (x_handy x)
  then (Some (x_private x), mkMem (x_base x) (x_private x + Z.to_nat len) (x_handy x - len))
  else (None, x).

#[export] Instance xdrmem_ops : XdrStream xdrmem := {
  XDR_GETINT32 := xdrmem_getint32;
  XDR_PUTINT32 := xdrmem_putint32;
  XDR_GETBYTES := xdrmem_getbytes;
  XDR_PUTBYTES := xdrmem_putbytes
}.

(** [xdrlen]: the counter [x_handy] is an [int]. *)
Record xdrlen := mkLen { l_handy : Z }.
Definition xdrlen_create : xdrlen := mkLen 0.
Definition xdrlen_getint32 (x : xdrlen) : option Z * xdrlen := (None, x).
Definition xdrlen_putint32 (l : Z) (x : xdrlen) : bool * xdrlen := (true, mkLen (s32 (l_handy x + 4))).
Definition xdrlen_getbytes (len : nat) (x : xdrlen) : option (list Z) * xdrlen := (None, x).
Definition xdrlen_putbytes (l : list Z) (x : xdrlen) : bool * xdrlen :=
  (true, mkLen (s32 (l_handy x + Z.of_nat (length l)))).
Definition xdrlen_getpos (x : xdrlen) : Z := u32 (l_handy x).
Definition xdrlen_setpos (pos : Z) (x : xdrlen) : bool * xdrlen := (true, mkLen (s32 pos)).

Definition xdrlen_inline (len : Z) (x : xdrlen) : option nat * xdrlen := (None, x).

#[export] Instance xdrlen_ops : XdrStream xdrlen := {
  XDR_GETINT32 := xdrlen_getint32;
  XDR_PUTINT32 := xdrlen_putint32;
  XDR_GETBYTES := xdrlen_getbytes;
  XDR_PUTBYTES := xdrlen_putbytes
}.
