(* ===== verification/XdrFormat.v ===== *)
(** * XDR: formats and their laws

    A [format] describes a type of RPC arguments: the procedure that handles it, the
    objects that can be sent, the objects a decoder may be given and those it can
    produce, and the bytes on the wire as RFC 4506 defines them.  A format is
    [lawful] when its procedure encodes exactly the wire format, decodes it back,
    counts its length and stays inside its buffer.  The procedures of Xdr are
    lawful, the constructors (arrays, pointers, unions) when their elements are. *)

From stdpp Require Import prelude list.
From Stdlib Require Import ZArith Lia ZifyBool.
From S2P Require Import Prelude ByteMem Xdr.

#[local] Open Scope Z_scope.

(** ** The memory stream *)

Definition mem_wf (x : xdrmem) : Prop :=
  0 <= x_handy x <= INT_MAX /\ Z.of_nat (x_private x) + x_handy x <= Z.of_nat (length (x_base x)).

(** The stream after [w] was written, and after [n] bytes were read. *)
Definition wr (x : xdrmem) (w : list Z) : xdrmem :=
  mkMem (splice (x_base x) (x_private x) w) (x_private x + length w)
    (x_handy x - Z.of_nat (length w)).
Definition adv (x : xdrmem) (n : nat) : xdrmem :=
  mkMem (x_base x) (x_private x + n) (x_handy x - Z.of_nat n).

(** The bytes [w] are next in the stream. *)
Definition next (x : xdrmem) (w : list Z) : Prop :=
  take (length w) (drop (x_private x) (x_base x)) = w.

Definition room (x : xdrmem) (w : list Z) : Prop := Z.of_nat (length w) <= x_handy x.
#[export] Instance room_dec x w : Decision (room x w).
Proof. unfold room. apply _. Defined.

(** From [x] to [x'] the stream only moved forward inside its window, and nothing
    outside the window was written, nor anything at all when decoding. *)
Record moved (op : xdr_op) (x x' : xdrmem) : Prop := {
  mv_wf : mem_wf x';
  mv_end : Z.of_nat (x_private x') + x_handy x' = Z.of_nat (x_private x) + x_handy x;
  mv_fwd : (x_private x <= x_private x')%nat;
  mv_len : length (x_base x') = length (x_base x);
  mv_out : forall i, (i < x_private x)%nat \/ Z.of_nat (x_private x) + x_handy x <= Z.of_nat i ->
             x_base x' !! i = x_base x !! i;
  mv_ro : op <> XDR_ENCODE -> x_base x' = x_base x
}.

Lemma splice_length m p l : (p + length l <= length m)%nat -> length (splice m p l) = length m.
Proof. intros. unfold splice. rewrite !length_app, length_take, length_drop. lia. Qed.

Lemma splice_lookup_out m p l i :
  (p + length l <= length m)%nat -> (i < p \/ p + length l <= i)%nat -> splice m p l !! i = m !! i.
Proof.
  intros Hl Hi. unfold splice. destruct (decide (i < p)%nat).
  - rewrite lookup_app_l by (rewrite length_take; lia). by apply lookup_take_lt.
  - rewrite lookup_app_r by (rewrite length_take; lia).
    rewrite length_take_le by lia. rewrite lookup_app_r by lia.
    rewrite lookup_drop. f_equal. lia.
Qed.

Lemma splice_app m p a b :
  (p + length a + length b <= length m)%nat ->
  splice (splice m p a) (p + length a) b = splice m p (a ++ b).
Proof.
  intros Hl. unfold splice. rewrite length_app.
  rewrite take_app, take_take, length_take_le by lia.
  rewrite Nat.min_r by lia. rewrite <-app_assoc. f_equal.
  rewrite take_app_le by lia. rewrite (take_ge a) by lia. rewrite <-app_assoc. do 2 f_equal.
  rewrite drop_app_ge by (rewrite length_take_le; lia). rewrite length_take_le by lia.
  rewrite drop_app_ge by lia. rewrite drop_drop. f_equal. lia.
Qed.

Lemma wr_wf x w : mem_wf x -> room x w -> mem_wf (wr x w).
Proof.
  intros [? ?] Hr. unfold room in Hr. split; cbn; [lia|]. rewrite splice_length by lia. lia.
Qed.
Lemma adv_wf x n : mem_wf x -> Z.of_nat n <= x_handy x -> mem_wf (adv x n).
Proof. intros [? ?] Hr. split; cbn; lia. Qed.

Lemma wr_wr x a b : mem_wf x -> room x (a ++ b) -> wr (wr x a) b = wr x (a ++ b).
Proof.
  intros [? ?] Hr. unfold room in Hr. rewrite length_app in Hr. unfold wr. cbn [x_base x_private x_handy].
  rewrite splice_app by lia. rewrite length_app. f_equal; lia.
Qed.
Lemma adv_adv x a b : adv (adv x a) b = adv x (a + b).
Proof. unfold adv. cbn. f_equal; lia. Qed.
Lemma adv_0 x : adv x 0 = x.
Proof. destruct x. unfold adv. cbn. f_equal; lia. Qed.
Lemma wr_nil x : mem_wf x -> wr x [] = x.
Proof.
  intros _. destruct x as [m p h]. unfold wr, splice. cbn [x_base x_private x_handy length app].
  rewrite !Nat.add_0_r, take_drop. f_equal; lia.
Qed.

Lemma next_app x a b : next x (a ++ b) -> next x a /\ next (adv x (length a)) b.
Proof.
  unfold next. cbn. rewrite length_app, <-drop_drop. generalize (drop (x_private x) (x_base x)) as l.
  intros l Hl.
  assert (Ha : take (length a) l = a).
  { apply (f_equal (take (length a))) in Hl. rewrite take_take, Nat.min_l in Hl by lia.
    by rewrite take_app_length in Hl. }
  split; [done|]. apply (f_equal (drop (length a))) in Hl.
  rewrite drop_app_length in Hl. rewrite <-Hl at 2. rewrite take_drop_commute. f_equal.
Qed.

Lemma next_wr x w : mem_wf x -> room x w -> next (mkMem (x_base (wr x w)) (x_private x) (x_handy x)) w.
Proof.
  intros [? ?] Hr. unfold room in Hr. unfold next, wr, splice. cbn.
  rewrite drop_app_ge by (rewrite length_take; lia). rewrite length_take_le by lia.
  rewrite Nat.sub_diag, drop_0. apply take_app_length.
Qed.

Lemma moved_refl op x : mem_wf x -> moved op x x.
Proof. by constructor. Qed.
Lemma moved_trans op x y z : moved op x y -> moved op y z -> moved op x z.
Proof.
  intros [] []. constructor; try done; try lia; try congruence.
  - intros i Hi. rewrite mv_out1, mv_out0; [done|lia|lia].
  - intros Ho. rewrite mv_ro1, mv_ro0; done.
Qed.
Lemma moved_wr x w : mem_wf x -> room x w -> moved XDR_ENCODE x (wr x w).
Proof.
  intros Hx Hr. pose proof Hx as [? ?]. pose proof Hr as Hr'. unfold room in Hr'.
  constructor; cbn; try lia; try done; [by apply wr_wf|apply splice_length; lia|].
  intros i Hi. apply splice_lookup_out; lia.
Qed.
Lemma moved_adv op x n : mem_wf x -> Z.of_nat n <= x_handy x -> moved op x (adv x n).
Proof. intros Hx Hr. constructor; cbn; try lia; try done. by apply adv_wf. Qed.

(** The four operations of the stream. *)
Section MemOps.
Context (x : xdrmem) (Hx : mem_wf x).

Lemma handy_u64 : u64 (x_handy x) = x_handy x.
Proof. destruct Hx as [[? ?] _]. unfold u64, INT_MAX in *. apply Z.mod_small. lia. Qed.
Lemma handy_u32 : u32 (x_handy x) = x_handy x.
Proof. destruct Hx as [[? ?] _]. unfold u32, INT_MAX in *. apply Z.mod_small. lia. Qed.

Lemma put32 l : 4 <= x_handy x -> xdrmem_putint32 l x = (true, wr x (be32 l)).
Proof. intros Hr. unfold xdrmem_putint32. rewrite handy_u64. by rewrite (proj2 (Z.ltb_ge _ _)) by lia. Qed.
Lemma put32_full l : x_handy x < 4 -> xdrmem_putint32 l x = (false, x).
Proof. intros Hr. unfold xdrmem_putint32. rewrite handy_u64. by rewrite (proj2 (Z.ltb_lt _ _)) by lia. Qed.
Lemma get32 v : next x (be32 v) -> 4 <= x_handy x -> xdrmem_getint32 x = (Some (s32 v), adv x 4).
Proof.
  intros Hn Hr. unfold xdrmem_getint32. rewrite handy_u64. rewrite (proj2 (Z.ltb_ge _ _)) by lia.
  unfold next in Hn. rewrite be32_length in Hn. rewrite Hn, un_be32_be32. cbn [option_map].
  rewrite s32_u32. done.
Qed.
Lemma get32_any : (exists v, xdrmem_getint32 x = (Some (s32 v), adv x 4) /\ 4 <= x_handy x)
    \/ xdrmem_getint32 x = (None, x).
Proof.
  unfold xdrmem_getint32. rewrite handy_u64. destruct (Z.ltb_spec (x_handy x) 4); [by right|left].
  destruct Hx as [? ?].
  destruct (un_be32 (take 4 (drop (x_private x) (x_base x)))) as [v|] eqn:E.
  { by exists v. }
  exfalso. assert (Hl : length (take 4 (drop (x_private x) (x_base x))) = 4%nat)
    by (rewrite length_take, length_drop; lia).
  destruct (take 4 _) as [|? [|? [|? [|? [|? ?]]]]]; discriminate.
Qed.
Lemma putb l : room x l -> xdrmem_putbytes l x = (true, wr x l).
Proof. intros Hr. unfold room in Hr. unfold xdrmem_putbytes. rewrite handy_u32. by rewrite (proj2 (Z.ltb_ge _ _)) by lia. Qed.
Lemma putb_full l : x_handy x < Z.of_nat (length l) -> xdrmem_putbytes l x = (false, x).
Proof. intros Hr. unfold xdrmem_putbytes. rewrite handy_u32. by rewrite (proj2 (Z.ltb_lt _ _)) by lia. Qed.
Lemma getb n : Z.of_nat n <= x_handy x ->
  xdrmem_getbytes n x = (Some (take n (drop (x_private x) (x_base x))), adv x n).
Proof. intros Hr. unfold xdrmem_getbytes. rewrite handy_u32. by rewrite (proj2 (Z.ltb_ge _ _)) by lia. Qed.
Lemma getb_full n : x_handy x < Z.of_nat n -> xdrmem_getbytes n x = (None, x).
Proof. intros Hr. unfold xdrmem_getbytes. rewrite handy_u32. by rewrite (proj2 (Z.ltb_lt _ _)) by lia. Qed.
End MemOps.

(** ** Formats *)

Record format (A : Type) := Format {
  f_proc : forall X (S : XdrStream X), xdrproc X A;
  f_ok : A -> Prop;      (* can be sent *)
  f_fresh : A -> Prop;   (* a decoder may be given *)
  f_out : A -> Prop;     (* a decoder may produce *)
  f_freed : A -> Prop;   (* holds no memory *)
  f_zero : A;            (* all bytes zero *)
  f_wire : A -> list Z   (* the bytes on the wire *)
}.
Arguments Format {A}.
Arguments f_proc {A} _ {X S}.
Arguments f_ok {A}.
Arguments f_fresh {A}.
Arguments f_out {A}.
Arguments f_freed {A}.
Arguments f_zero {A}.
Arguments f_wire {A}.

(** What a format promises; [alloc_ok] says that allocations succeed, and only
    decoding the sent object back needs it. *)
Record lawful (alloc_ok : Prop) {A} (F : format A) : Prop := {
  l_put v x : mem_wf x -> f_ok F v -> room x (f_wire F v) ->
    f_proc F XDR_ENCODE v x = (true, v, wr x (f_wire F v));
  l_full v x : mem_wf x -> f_ok F v -> ~ room x (f_wire F v) ->
    exists x', f_proc F XDR_ENCODE v x = (false, v, x');
  l_len v n : f_ok F v ->
    f_proc F XDR_ENCODE v (mkLen (s32 n)) = (true, v, mkLen (s32 (n + Z.of_nat (length (f_wire F v)))));
  l_get v v0 x : alloc_ok -> mem_wf x -> f_fresh F v0 -> f_ok F v -> next x (f_wire F v) ->
    room x (f_wire F v) -> f_proc F XDR_DECODE v0 x = (true, v, adv x (length (f_wire F v)));
  l_safe op v x b v' x' : mem_wf x -> f_proc F op v x = (b, v', x') -> moved op x x';
  l_out v x v' x' : mem_wf x -> f_fresh F v -> f_proc F XDR_DECODE v x = (true, v', x') -> f_out F v';
  l_free v (x : xdrmem) : f_out F v -> exists v', f_proc F XDR_FREE v x = (true, v', x) /\ f_freed F v';
  l_zero : f_fresh F (f_zero F);
  l_align v : f_ok F v -> Nat.divide 4 (length (f_wire F v))
}.

Lemma room_app x a b : mem_wf x -> room x (a ++ b) -> room x a /\ room (wr x a) b /\ room (adv x (length a)) b.
Proof. intros _. unfold room. rewrite length_app. cbn. lia. Qed.
Lemma not_room_app x a b : ~ room x (a ++ b) -> room x a -> ~ room (wr x a) b.
Proof. unfold room. rewrite length_app. cbn. lia. Qed.

(** A scalar is one word; [int64] two. *)
Definition scalar_fmt (p : forall X (S : XdrStream X), xdrproc X Z) (range : Z -> Prop) : format Z :=
  Format p range (fun _ => True) range (fun _ => True) 0 be32.
Definition hyper_fmt (p : forall X (S : XdrStream X), xdrproc X Z) (range : Z -> Prop) : format Z :=
  Format p range (fun _ => True) range (fun _ => True) 0 (fun v => be32 (Z.shiftr v 32) ++ be32 v).

Definition is_s8 (z : Z) : Prop := - 2 ^ 7 <= z < 2 ^ 7.
Definition is_s16 (z : Z) : Prop := - 2 ^ 15 <= z < 2 ^ 15.
Definition is_s64 (z : Z) : Prop := - 2 ^ 63 <= z < 2 ^ 63.
Definition is_u64 (z : Z) : Prop := 0 <= z < 2 ^ 64.

Definition xdr_seq {X A B} (p : xdrproc X A) (q : xdrproc X B) : xdrproc X (A * B) := fun op o x =>
  let '(b, v, x1) := p op o.1 x in
  if negb b then (false, (v, o.2), x1)
  else let '(b, w, x2) := q op o.2 x1 in (b, (v, w), x2).
Definition pair_fmt {A B} (F : format A) (G : format B) : format (A * B) :=
  Format (fun X S => xdr_seq (f_proc F) (f_proc G))
    (fun o => f_ok F o.1 /\ f_ok G o.2) (fun o => f_fresh F o.1 /\ f_fresh G o.2)
    (fun o => f_out F o.1 /\ f_out G o.2) (fun o => f_freed F o.1 /\ f_freed G o.2)
    (f_zero F, f_zero G)
    (fun o => f_wire F o.1 ++ f_wire G o.2).

(** Bytes are padded to whole words. *)
Definition pad (l : list Z) : list Z := l ++ repeat 0 (rndup (length l)).

Section Laws.
Context (alloc_ok : Prop).

Lemma scalar_law enc dec (range : Z -> Prop) :
  (forall v, range v -> be32 (enc v) = be32 v) ->
  (forall v, range v -> dec (s32 v) = v) ->
  (forall l, range (dec (s32 l))) ->
  lawful alloc_ok (scalar_fmt (fun X S => xdr_scalar enc dec) range).
Proof.
  intros He Hd Hr. constructor; cbn [scalar_fmt f_proc f_ok f_fresh f_out f_freed f_zero f_wire];
    unfold xdr_scalar; try done.
  - intros v x Hx Hv Hroom. unfold room in Hroom. rewrite be32_length in Hroom. cbn [XDR_PUTINT32 xdrmem_ops].
    rewrite put32 by (done || lia). by rewrite He.
  - intros v x Hx Hv Hroom. unfold room in Hroom. rewrite be32_length in Hroom. cbn [XDR_PUTINT32 xdrmem_ops].
    rewrite put32_full by (done || lia). by eexists.
  - intros v n Hv. cbn. by rewrite s32_add.
  - intros v v0 x _ Hx _ Hv Hn Hroom. unfold room in Hroom. rewrite be32_length in Hroom.
    cbn [XDR_GETINT32 xdrmem_ops]. rewrite (get32 x Hx v) by (done || lia). by rewrite Hd.
  - intros op v x b v' x' Hx Hp. destruct op.
    + cbn [XDR_PUTINT32 xdrmem_ops] in Hp. destruct (decide (4 <= x_handy x)).
      * rewrite put32 in Hp by done. injection Hp as <- <- <-. apply moved_wr; [done|]. unfold room.
        rewrite be32_length. lia.
      * rewrite put32_full in Hp by (done || lia). injection Hp as <- <- <-. by apply moved_refl.
    + cbn [XDR_GETINT32 xdrmem_ops] in Hp. destruct (get32_any x Hx) as [(w & Hw & ?)|Hw]; rewrite Hw in Hp;
        injection Hp as <- <- <-; [apply moved_adv; [done|lia]|by apply moved_refl].
    + injection Hp as <- <- <-. by apply moved_refl.
  - intros v x v' x' Hx _. cbn [XDR_GETINT32 xdrmem_ops].
    destruct (get32_any x Hx) as [(w & Hw & ?)|Hw]; rewrite Hw; [|discriminate].
    intros Hp. injection Hp as <- <-. apply Hr.
  - intros v x Hv. by eexists.
Qed.

(** Two fields one after the other, as in the code rxgen emits for a structure. *)
Lemma pair_law {A B} (F : format A) (G : format B) :
  lawful alloc_ok F -> lawful alloc_ok G -> lawful alloc_ok (pair_fmt F G).
Proof.
  intros LF LG. constructor; cbn [pair_fmt f_proc f_ok f_fresh f_out f_freed f_zero f_wire]; unfold xdr_seq.
  - intros [v w] x Hx [Hv Hw] R. destruct (room_app _ _ _ Hx R) as (R1 & R2 & _). cbn [fst snd] in *.
    rewrite (l_put _ _ LF) by done. cbn [negb]. rewrite (l_put _ _ LG) by (done || by apply wr_wf).
    by rewrite wr_wr.
  - intros [v w] x Hx [Hv Hw] R. cbn [fst snd] in *. destruct (decide (room x (f_wire F v))) as [R1|R1].
    + rewrite (l_put _ _ LF) by done. cbn [negb].
      destruct (l_full _ _ LG w (wr x (f_wire F v))) as [x' ->];
        [by apply wr_wf|done|by apply not_room_app|by eexists].
    + destruct (l_full _ _ LF v x) as [x' ->]; [done..|]. by eexists.
  - intros [v w] n [Hv Hw]. cbn [fst snd] in *. rewrite (l_len _ _ LF) by done. cbn [negb].
    rewrite (l_len _ _ LG) by done. rewrite length_app. do 3 f_equal. lia.
  - intros [v w] [v0 w0] x Ha Hx [Hv0 Hw0] [Hv Hw] N R. cbn [fst snd] in *.
    destruct (room_app _ _ _ Hx R) as (R1 & _ & R2). destruct (next_app _ _ _ N) as [N1 N2].
    rewrite (l_get _ _ LF v) by done. cbn [negb].
    rewrite (l_get _ _ LG w) by (done || by apply adv_wf). by rewrite adv_adv, length_app.
  - intros op [v w] x b [v' w'] x' Hx. cbn [fst snd]. destruct (f_proc F op v x) as [[b1 v1] x1] eqn:E1.
    pose proof (l_safe _ _ LF _ _ _ _ _ _ Hx E1) as M1. destruct b1; cbn [negb]; [|by intros [= <- <- <- <-]].
    destruct (f_proc G op w x1) as [[b2 w2] x2] eqn:E2. intros [= <- <- <- <-].
    eapply moved_trans; [exact M1|]. by eapply (l_safe _ _ LG); [apply (mv_wf _ _ _ M1)|].
  - intros [v w] x [v' w'] x' Hx [Hv Hw]. cbn [fst snd] in *.
    destruct (f_proc F XDR_DECODE v x) as [[b1 v1] x1] eqn:E1.
    pose proof (l_safe _ _ LF _ _ _ _ _ _ Hx E1) as M1. destruct b1; cbn [negb]; [|discriminate].
    destruct (f_proc G XDR_DECODE w x1) as [[b2 w2] x2] eqn:E2. intros [= -> <- <- <-].
    split; [by eapply (l_out _ _ LF)|]. by eapply (l_out _ _ LG); [apply (mv_wf _ _ _ M1)|..].
  - intros [v w] x [Hv Hw]. cbn [fst snd] in *. destruct (l_free _ _ LF v x Hv) as (v' & -> & ?). cbn [negb].
    destruct (l_free _ _ LG w x Hw) as (w' & -> & ?). by eexists (_, _).
  - split; [apply (l_zero _ _ LF)|apply (l_zero _ _ LG)].
  - intros [v w] [Hv Hw]. cbn [fst snd] in *. rewrite length_app.
    apply Nat.divide_add_r; [by apply (l_align _ _ LF)|by apply (l_align _ _ LG)].
Qed.

(** A procedure that does on its objects what a lawful one does on their images
    obeys the laws too; a failed decoding may leave any object. *)
Lemma map_law {A B} (F : format A) (G : format B) (to : B -> A) (back : A -> B) :
  lawful alloc_ok F ->
  (forall X (S : XdrStream X) v x, f_proc G XDR_ENCODE v x =
     let '(b, _, x') := f_proc F XDR_ENCODE (to v) x in (b, v, x')) ->
  (forall X (S : XdrStream X) v x b a x', f_proc F XDR_DECODE (to v) x = (b, a, x') ->
     exists v', f_proc G XDR_DECODE v x = (b, v', x') /\ (b = true -> v' = back a)) ->
  (forall X (S : XdrStream X) v x b a x', f_proc F XDR_FREE (to v) x = (b, a, x') ->
     exists v', f_proc G XDR_FREE v x = (b, v', x') /\ (f_freed F a -> f_freed G v')) ->
  (forall v, f_ok G v -> f_ok F (to v) /\ back (to v) = v /\ f_wire G v = f_wire F (to v)) ->
  (forall v, f_fresh G v -> f_fresh F (to v)) ->
  (forall v, f_out G v -> f_out F (to v)) -> (forall a, f_out F a -> f_out G (back a)) ->
  f_fresh G (f_zero G) ->
  lawful alloc_ok G.
Proof.
  intros LF Pe Pd Pf Hok Hfr Hout Hbo Hz. constructor.
  - intros v x Hx Hv R. destruct (Hok v Hv) as (Ha & _ & Hw). rewrite Hw in *.
    by rewrite Pe, (l_put _ _ LF).
  - intros v x Hx Hv R. destruct (Hok v Hv) as (Ha & _ & Hw). rewrite Hw in *.
    destruct (l_full _ _ LF (to v) x) as [x' E]; [done..|]. exists x'. by rewrite Pe, E.
  - intros v n Hv. destruct (Hok v Hv) as (Ha & _ & ->). by rewrite Pe, (l_len _ _ LF).
  - intros v v0 x Hal Hx Hv0 Hv N R. destruct (Hok v Hv) as (Ha & Hb & Hw). rewrite Hw in *.
    destruct (Pd _ _ v0 x _ _ _ (l_get _ _ LF (to v) (to v0) x Hal Hx (Hfr _ Hv0) Ha N R)) as (v' & -> & E).
    rewrite E by done. by rewrite Hb.
  - intros op v x b v' x' Hx. destruct op.
    + rewrite Pe. destruct (f_proc F XDR_ENCODE (to v) x) as [[b1 a1] x1] eqn:E.
      intros [= <- <- <-]. by eapply (l_safe _ _ LF).
    + destruct (f_proc F XDR_DECODE (to v) x) as [[b1 a1] x1] eqn:E.
      destruct (Pd _ _ _ _ _ _ _ E) as (v1 & -> & _). intros [= <- <- <-]. by eapply (l_safe _ _ LF).
    + destruct (f_proc F XDR_FREE (to v) x) as [[b1 a1] x1] eqn:E.
      destruct (Pf _ _ _ _ _ _ _ E) as (v1 & -> & _). intros [= <- <- <-]. by eapply (l_safe _ _ LF).
  - intros v x v' x' Hx Hv. destruct (f_proc F XDR_DECODE (to v) x) as [[b1 a1] x1] eqn:E.
    destruct (Pd _ _ _ _ _ _ _ E) as (v1 & -> & E1). intros [= -> <- <-]. rewrite E1 by done.
    apply Hbo. by eapply (l_out _ _ LF), E; [|apply Hfr].
  - intros v x Hv. destruct (l_free _ _ LF (to v) x (Hout _ Hv)) as (a & E & Hf).
    destruct (Pf _ _ _ _ _ _ _ E) as (v1 & E1 & ?). exists v1. auto.
  - done.
  - intros v Hv. destruct (Hok v Hv) as (Ha & _ & ->). by apply (l_align _ _ LF).
Qed.

Lemma u_int_law (p : forall X (S : XdrStream X), xdrproc X Z) :
  p = (fun X S => xdr_scalar (fun uip => s32 uip) (fun l => u32 l)) ->
  lawful alloc_ok (scalar_fmt p is_u32).
Proof.
  intros ->. apply scalar_law.
  - intros v _. by rewrite <-(be32_u32 (s32 _)), u32_s32, be32_u32.
  - intros v Hv. by rewrite u32_s32, u32_small.
  - auto with width.
Qed.
Lemma int_law (p : forall X (S : XdrStream X), xdrproc X Z) :
  p = (fun X S => xdr_scalar (fun ip => ip) (fun l => l)) ->
  lawful alloc_ok (scalar_fmt p is_s32).
Proof. intros ->. apply scalar_law; [done|apply s32_small|auto with width]. Qed.

(** The 64-bit procedures send the high and the low word. *)
Ltac hcbn :=
  unfold xdr_seq, xdr_afs_int64, xdr_afs_uint64, xdr_afs_int32, xdr_afs_uint32, xdr_scalar; cbn [fst snd].
Lemma int64_law : lawful alloc_ok (hyper_fmt (@xdr_afs_int64) is_s64).
Proof.
  apply (map_law (pair_fmt (scalar_fmt (@xdr_afs_int32) is_s32) (scalar_fmt (@xdr_afs_uint32) is_u32)) _
    (fun v => (s32 (Z.shiftr v 32), u32 v)) (fun a => s64 (Z.shiftl a.1 32 + a.2)));
    [by apply pair_law; [apply int_law|apply u_int_law]|..];
    cbn [hyper_fmt scalar_fmt pair_fmt f_proc f_ok f_fresh f_out f_freed f_zero f_wire]; try done.
  - intros X S v x. hcbn. destruct (XDR_PUTINT32 (s32 (Z.shiftr v 32)) x) as [[] x1]; [|done]. cbn [negb].
    change 4294967295 with (Z.ones 32). rewrite Z.land_ones by lia. fold (u32 v).
    by destruct (XDR_PUTINT32 (s32 (u32 v)) x1) as [b x2].
  - intros X S v x b a x'. hcbn. destruct (XDR_GETINT32 x) as [[h|] x1]; cbn [negb].
    + destruct (XDR_GETINT32 x1) as [[l|] x2]; intros [= <- <- <-]; eexists; split; done.
    + intros [= <- <- <-]. eexists. split; done.
  - intros X S v x b a x'. hcbn. intros [= <- <- <-]. by eexists.
  - intros v Hv. unfold is_s64 in Hv. split; [split; cbn [fst snd]; auto with width|split].
    + cbn [fst snd]. rewrite s32_small; [|rewrite Z.shiftr_div_pow2 by lia; unfold is_s32; Z.div_mod_to_equations; lia].
      rewrite Z.shiftl_mul_pow2, Z.shiftr_div_pow2 by lia. unfold s64, u32. Z.div_mod_to_equations. lia.
    + cbn [fst snd]. rewrite be32_u32. by rewrite <-(be32_u32 (s32 _)), u32_s32, be32_u32.
  - intros v _. split; cbn [fst snd]; auto with width.
  - intros a _. unfold is_s64, s64. Z.div_mod_to_equations. lia.
Qed.
Lemma uint64_law : lawful alloc_ok (hyper_fmt (@xdr_afs_uint64) is_u64).
Proof.
  apply (map_law (pair_fmt (scalar_fmt (@xdr_afs_uint32) is_u32) (scalar_fmt (@xdr_afs_uint32) is_u32)) _
    (fun v => (u32 (Z.shiftr v 32), u32 v)) (fun a => u64 (Z.shiftl a.1 32 + a.2)));
    [by apply pair_law; apply u_int_law|..];
    cbn [hyper_fmt scalar_fmt pair_fmt f_proc f_ok f_fresh f_out f_freed f_zero f_wire]; try done.
  - intros X S v x. hcbn. rewrite s32_u32.
    destruct (XDR_PUTINT32 (s32 (Z.shiftr v 32)) x) as [[] x1]; [|done]. cbn [negb].
    change 4294967295 with (Z.ones 32). rewrite Z.land_ones by lia. fold (u32 v).
    by destruct (XDR_PUTINT32 (s32 (u32 v)) x1) as [b x2].
  - intros X S v x b a x'. hcbn. destruct (XDR_GETINT32 x) as [[h|] x1]; cbn [negb].
    + destruct (XDR_GETINT32 x1) as [[l|] x2]; intros [= <- <- <-]; eexists; split; done.
    + intros [= <- <- <-]. eexists. split; done.
  - intros X S v x b a x'. hcbn. intros [= <- <- <-]. by eexists.
  - intros v Hv. unfold is_u64 in Hv. split; [split; cbn [fst snd]; auto with width|split].
    + cbn [fst snd]. rewrite Z.shiftl_mul_pow2, Z.shiftr_div_pow2 by lia. unfold u64, u32. Z.div_mod_to_equations. lia.
    + cbn [fst snd]. by rewrite !be32_u32.
  - intros v _. split; cbn [fst snd]; auto with width.
  - intros a _. unfold is_u64, u64. Z.div_mod_to_equations. lia.
Qed.

(** ** Bytes *)

Lemma pad_length l : Nat.divide 4 (length (pad l)).
Proof.
  unfold pad, rndup, BYTES_PER_XDR_UNIT. rewrite length_app, repeat_length. pose proof (Nat.div_mod_eq (length l) 4).
  pose proof (Nat.mod_upper_bound (length l) 4 ltac:(lia)).
  destruct (Nat.ltb_spec 0 (length l mod 4)).
  - exists (S (length l / 4)). lia.
  - exists (length l / 4)%nat. lia.
Qed.

(** [xdr_opaque] on memory [m] of at least [cnt] bytes. *)
Lemma opaque_put m n x :
  mem_wf x -> (n <= length m)%nat -> room x (pad (take n m)) ->
  xdr_opaque n XDR_ENCODE m x = (true, m, wr x (pad (take n m))).
Proof.
  intros Hx Hm R. unfold xdr_opaque, pad in *. rewrite length_take_le in * by lia.
  destruct (Nat.eqb_spec n 0) as [->|Hn]. { cbn. by rewrite wr_nil. }
  destruct (room_app _ _ _ Hx R) as (R1 & R2 & _). cbn [XDR_PUTBYTES xdrmem_ops]. rewrite putb by done. cbn [negb].
  destruct (Nat.eqb_spec (rndup n) 0) as [E|E].
  - rewrite E in *. cbn [repeat]. by rewrite app_nil_r.
  - rewrite putb by (done || by apply wr_wf). by rewrite wr_wr.
Qed.

Lemma opaque_full m n x :
  mem_wf x -> (n <= length m)%nat -> ~ room x (pad (take n m)) ->
  exists x', xdr_opaque n XDR_ENCODE m x = (false, m, x').
Proof.
  intros Hx Hm R. unfold xdr_opaque, pad in *. rewrite length_take_le in * by lia.
  destruct (Nat.eqb_spec n 0) as [->|Hn]. { exfalso. apply R. unfold room. destruct Hx as [[? ?] _]. by rewrite take_0. }
  cbn [XDR_PUTBYTES xdrmem_ops]. destruct (decide (room x (take n m))) as [R1|R1].
  - rewrite putb by done. cbn [negb]. pose proof (not_room_app _ _ _ R R1) as R2.
    destruct (Nat.eqb_spec (rndup n) 0) as [E|E].
    { rewrite E in R2. exfalso. apply R2. unfold room in *. cbn. lia. }
    rewrite putb_full; [by eexists|by apply wr_wf|]. unfold room in *. cbn in *. lia.
  - unfold room in R1. rewrite putb_full by (done || lia). by eexists.
Qed.

Lemma opaque_len m n k :
  (n <= length m)%nat ->
  xdr_opaque n XDR_ENCODE m (mkLen (s32 k)) = (true, m, mkLen (s32 (k + Z.of_nat (length (pad (take n m)))))).
Proof.
  intros Hm. unfold xdr_opaque, pad. rewrite length_app, repeat_length, length_take_le by lia.
  destruct (Nat.eqb_spec n 0) as [->|Hn]. { cbn. by rewrite Z.add_0_r. }
  cbn [XDR_PUTBYTES xdrlen_ops xdrlen_putbytes negb l_handy]. rewrite repeat_length, length_take_le, !s32_add by lia.
  destruct (Nat.eqb_spec (rndup n) 0) as [E|E]; [rewrite E|]; do 3 f_equal; lia.
Qed.

Lemma opaque_get l m x :
  mem_wf x -> (length l <= length m)%nat -> next x (pad l) -> room x (pad l) ->
  xdr_opaque (length l) XDR_DECODE m x = (true, over l m, adv x (length (pad l))).
Proof.
  intros Hx Hm N R. unfold xdr_opaque, pad in *.
  destruct (Nat.eqb_spec (length l) 0) as [E|Hn].
  { destruct l; [|done]. cbn. by rewrite adv_0. }
  destruct (room_app _ _ _ Hx R) as (R1 & _ & R2). destruct (next_app _ _ _ N) as [N1 N2].
  unfold room in R1, R2. rewrite repeat_length in R2.
  cbn [XDR_GETBYTES xdrmem_ops]. rewrite getb by done. unfold next in N1. rewrite N1.
  rewrite length_app, repeat_length.
  destruct (Nat.eqb_spec (rndup (length l)) 0) as [E|E].
  - rewrite E. by rewrite Nat.add_0_r.
  - rewrite getb by (done || by apply adv_wf). by rewrite adv_adv.
Qed.

Lemma opaque_safe op n m x b m' x' :
  mem_wf x -> xdr_opaque n op m x = (b, m', x') -> moved op x x'.
Proof.
  intros Hx. unfold xdr_opaque. destruct (Nat.eqb_spec n 0). { intros [= <- <- <-]. by apply moved_refl. }
  destruct op; cbn [XDR_GETBYTES XDR_PUTBYTES xdrmem_ops].
  - destruct (decide (room x (take n m))) as [R|R].
    + rewrite putb by done. cbn [negb]. pose proof (moved_wr _ _ Hx R) as M.
      destruct (Nat.eqb_spec (rndup n) 0); [by intros [= <- <- <-]|].
      destruct (decide (room (wr x (take n m)) (repeat 0 (rndup n)))) as [R2|R2].
      * rewrite putb by (done || apply (mv_wf _ _ _ M)). intros [= <- <- <-].
        eapply moved_trans; [exact M|]. apply moved_wr; [apply (mv_wf _ _ _ M)|done].
      * rewrite putb_full; [by intros [= <- <- <-]|apply (mv_wf _ _ _ M)|unfold room in R2; lia].
    + unfold room in R. rewrite putb_full by (done || lia). intros [= <- <- <-]. by apply moved_refl.
  - destruct (decide (Z.of_nat n <= x_handy x)) as [R|R].
    + rewrite getb by done. pose proof (moved_adv XDR_DECODE _ _ Hx R) as M.
      destruct (Nat.eqb_spec (rndup n) 0); [by intros [= <- <- <-]|].
      destruct (decide (Z.of_nat (rndup n) <= x_handy (adv x n))) as [R2|R2].
      * rewrite getb by (done || apply (mv_wf _ _ _ M)). intros [= <- <- <-].
        eapply moved_trans; [exact M|]. apply moved_adv; [apply (mv_wf _ _ _ M)|done].
      * rewrite getb_full; [by intros [= <- <- <-]|apply (mv_wf _ _ _ M)|lia].
    + rewrite getb_full by (done || lia). intros [= <- <- <-]. by apply moved_refl.
  - intros [= <- <- <-]. by apply moved_refl.
Qed.

(** Decoding keeps the size of the memory. *)
Lemma opaque_out n m x b m' x' :
  mem_wf x -> (n <= length m)%nat -> xdr_opaque n XDR_DECODE m x = (b, m', x') ->
  length m' = length m /\ drop n m' = drop n m.
Proof.
  intros [? ?] Hm. unfold xdr_opaque. destruct (Nat.eqb_spec n 0). { by intros [= <- <- <-]. }
  cbn [XDR_GETBYTES xdrmem_ops]. destruct (decide (Z.of_nat n <= x_handy x)) as [R|R].
  - rewrite getb by done.
    assert (L : length (take n (drop (x_private x) (x_base x))) = n) by (rewrite length_take, length_drop; lia).
    assert (length (over (take n (drop (x_private x) (x_base x))) m) = length m /\
            drop n (over (take n (drop (x_private x) (x_base x))) m) = drop n m).
    { unfold over. rewrite length_app, length_drop, L. split; [lia|].
      rewrite drop_app_ge by lia. by rewrite L, Nat.sub_diag. }
    destruct (Nat.eqb_spec (rndup n) 0); [by intros [= <- <- <-]|].
    destruct (xdrmem_getbytes _ _) as [[]]; by intros [= <- <- <-].
  - rewrite getb_full by (done || lia). by intros [= <- <- <-].
Qed.
End Laws.

(** The count in front of bytes, strings and arrays. *)
Section Count.
Let LU : lawful True (scalar_fmt (@xdr_u_int) is_u32) := u_int_law True (@xdr_u_int) eq_refl.

Lemma u_put c x : mem_wf x -> is_u32 c -> room x (be32 c) ->
  xdr_u_int XDR_ENCODE c x = (true, c, wr x (be32 c)).
Proof. apply (l_put _ _ LU). Qed.
Lemma u_full c x : mem_wf x -> is_u32 c -> ~ room x (be32 c) ->
  exists x', xdr_u_int XDR_ENCODE c x = (false, c, x').
Proof. apply (l_full _ _ LU). Qed.
Lemma u_len c n : is_u32 c -> xdr_u_int XDR_ENCODE c (mkLen (s32 n)) = (true, c, mkLen (s32 (n + 4))).
Proof. apply (l_len _ _ LU). Qed.
Lemma u_get c c0 x : mem_wf x -> is_u32 c -> next x (be32 c) -> room x (be32 c) ->
  xdr_u_int XDR_DECODE c0 x = (true, c, adv x 4).
Proof. intros. by apply (l_get _ _ LU). Qed.
Lemma u_safe op c x b c' x' : mem_wf x -> xdr_u_int op c x = (b, c', x') -> moved op x x'.
Proof. apply (l_safe _ _ LU). Qed.
Lemma u_out c x c' x' : mem_wf x -> xdr_u_int XDR_DECODE c x = (true, c', x') -> is_u32 c'.
Proof. intros Hx. by apply (l_out _ _ LU). Qed.
End Count.

(** ** Opaque data, counted bytes, strings *)

Section Alloc.
Context (osi_alloc : Z -> bool).
Let alloc_ok : Prop := forall n, is_u32 n -> osi_alloc n = true.

Definition opaque_fmt (cnt : nat) : format (list Z) :=
  Format (fun X S => xdr_opaque cnt) (fun m => length m = cnt) (fun m => length m = cnt)
    (fun m => length m = cnt) (fun _ => True) (repeat 0 cnt) pad.

Lemma opaque_law cnt : lawful alloc_ok (opaque_fmt cnt).
Proof.
  constructor; cbn [opaque_fmt f_proc f_ok f_fresh f_out f_freed f_zero f_wire].
  - intros m x Hx <- R. rewrite opaque_put; rewrite ?(take_ge m) by lia; done || lia.
  - intros m x Hx <- R. apply opaque_full; [done|lia|]. by rewrite take_ge by lia.
  - intros m n <-. rewrite opaque_len by lia. by rewrite take_ge by lia.
  - intros m m0 x _ Hx H0 H N R. rewrite <-H. rewrite opaque_get by (done || lia).
    unfold over. rewrite drop_ge by lia. by rewrite app_nil_r.
  - intros op m x b m' x'. apply opaque_safe.
  - intros m x m' x' Hx H E. by edestruct opaque_out as [-> _]; [..|exact E|]; [|lia|].
  - intros m x H. exists m. split; [|done]. unfold xdr_opaque. by destruct (_ =? _)%nat.
  - apply repeat_length.
  - intros m _. apply pad_length.
Qed.

Definition bytes_ok (maxsize : Z) (o : option (list Z) * Z) : Prop :=
  match o.1 with
  | Some m => o.2 = Z.of_nat (length m) /\ o.2 <= maxsize
  | None => False
  end.
Definition bytes_fmt (maxsize : Z) : format (option (list Z) * Z) :=
  Format (fun X S => xdr_bytes osi_alloc maxsize) (bytes_ok maxsize) (fun o => o.1 = None)
    (bytes_ok maxsize) (fun o => o.1 = None) (None, 0) (fun o => be32 o.2 ++ pad (deref o.1)).

Lemma bytes_law maxsize : is_u32 maxsize -> lawful alloc_ok (bytes_fmt maxsize).
Proof.
  intros Hmax.
  assert (Hcnt : forall m : list Z, Z.of_nat (length m) <= maxsize ->
            is_u32 (Z.of_nat (length m)) /\ (maxsize <? Z.of_nat (length m)) = false).
  { intros m H. split; [mlia|by apply Z.ltb_ge]. }
  constructor; cbn [bytes_fmt f_proc f_ok f_fresh f_out f_freed f_zero f_wire]; unfold xdr_bytes, bytes_ok.
  - intros [[m|] c] x Hx H R; [|done]. cbn [fst snd deref] in *; destruct H as [-> H].
    destruct (Hcnt m H) as [Hu Hm]. destruct (room_app _ _ _ Hx R) as (R1 & R2 & _).
    rewrite u_put by done. cbn [negb]. rewrite Hm, Nat2Z.id, opaque_put; rewrite ?(take_ge m) by lia;
      [by rewrite wr_wr|by apply wr_wf|lia|done].
  - intros [[m|] c] x Hx H R; [|done]. cbn [fst snd deref] in *; destruct H as [-> H].
    destruct (Hcnt m H) as [Hu Hm]. destruct (decide (room x (be32 (Z.of_nat (length m))))) as [R1|R1].
    + rewrite u_put by done. cbn [negb]. rewrite Hm, Nat2Z.id.
      destruct (opaque_full m (length m) (wr x (be32 (Z.of_nat (length m))))) as [x' ->];
        [by apply wr_wf|lia|rewrite take_ge by lia; by apply not_room_app|by eexists].
    + destruct (u_full _ x Hx Hu R1) as [x' ->]. by eexists.
  - intros [[m|] c] n H; [|done]. cbn [fst snd deref] in *; destruct H as [-> H].
    destruct (Hcnt m H) as [Hu Hm]. rewrite u_len by done. cbn [negb].
    rewrite Hm, Nat2Z.id, opaque_len, take_ge by lia. rewrite length_app, be32_length. do 3 f_equal. lia.
  - intros [[m|] c] [p0 c0] x Ha Hx H0 H N R; [|done]. cbn [fst snd deref] in *; destruct H as [-> H]. subst p0.
    destruct (Hcnt m H) as [Hu Hm]. destruct (room_app _ _ _ Hx R) as (R1 & _ & R2).
    destruct (next_app _ _ _ N) as [N1 N2]. rewrite (u_get _ _ _ Hx Hu N1 R1). cbn [negb].
    rewrite Hm, Ha by done. cbn [negb]. rewrite Nat2Z.id.
    rewrite opaque_get; [|by apply adv_wf|by rewrite repeat_length|done|done].
    unfold over. rewrite drop_ge by (rewrite repeat_length; lia). by rewrite app_nil_r, adv_adv, length_app.
  - intros op [p c] x b [p' c'] x' Hx. destruct (xdr_u_int op c x) as [[b1 c1] x1] eqn:E1.
    pose proof (u_safe _ _ _ _ _ _ Hx E1) as M. pose proof (mv_wf _ _ _ M).
    destruct b1; cbn [negb]; [|by intros [= <- <- <- <-]].
    destruct op; [destruct (maxsize <? c1)|destruct (maxsize <? c1)|]; try by intros [= <- <- <- <-].
    + destruct (xdr_opaque _ _ _ _) as [[b2 m2] x2] eqn:E2. intros [= <- <- <- <-].
      eapply moved_trans; [exact M|]. by eapply opaque_safe.
    + match goal with |- context [if ?t then _ else _] => destruct t end; [by intros [= <- <- <- <-]|].
      destruct (xdr_opaque _ _ _ _) as [[b2 m2] x2] eqn:E2. intros [= <- <- <- <-].
      eapply moved_trans; [exact M|]. by eapply opaque_safe.
  - intros [p c] x [p' c'] x' Hx Hf. cbn [fst snd] in *. subst p.
    destruct (xdr_u_int _ c x) as [[b1 c1] x1] eqn:E1.
    pose proof (mv_wf _ _ _ (u_safe _ _ _ _ _ _ Hx E1)). destruct b1; cbn [negb]; [|done].
    apply u_out in E1 as Hc; [|done]. destruct (Z.ltb_spec maxsize c1); [done|].
    destruct (osi_alloc c1); cbn [negb]; [|done].
    destruct (xdr_opaque _ _ _ _) as [[b2 m2] x2] eqn:E2. intros [= -> <- <- <-].
    apply opaque_out in E2 as [-> _]; [|done|by rewrite repeat_length]. rewrite repeat_length. mlia.
  - intros [p c] x H. by eexists (None, c).
  - done.
  - intros [p c] H. rewrite length_app. apply Nat.divide_add_r; [by exists 1%nat|apply pad_length].
Qed.

(** A string has no zero but the one that ends it; a decoder may produce one with
    zeros inside. *)
Definition string_out (maxsize : Z) (o : option (list Z)) : Prop :=
  exists s, o = Some (s ++ [0]) /\ Z.of_nat (length s) <= Z.min maxsize (LIMIT - 1).
Definition string_ok (maxsize : Z) (o : option (list Z)) : Prop :=
  exists s, o = Some (s ++ [0]) /\ Forall (fun c => c <> 0) s /\
    Z.of_nat (length s) <= Z.min maxsize (LIMIT - 1).
Definition string_fmt (maxsize : Z) : format (option (list Z)) :=
  Format (fun X S => xdr_string osi_alloc maxsize) (string_ok maxsize) (fun o => o = None)
    (string_out maxsize) (fun o => o = None) None
    (fun o => let s := cstr (deref o) in be32 (Z.of_nat (length s)) ++ pad s).

Lemma cstr_string (s : list Z) : Forall (fun c => c <> 0) s -> cstr (s ++ [0]) = s.
Proof.
  induction 1 as [|c s Hc _ IH]; [done|]. cbn. destruct (Z.eqb_spec c 0); [done|]. by rewrite IH.
Qed.
Lemma zeros_S n : repeat 0 (S n) = repeat 0 n ++ [0].
Proof. apply (repeat_cons n 0). Qed.
Lemma string_mem n : take n (repeat 0 (S n)) ++ 0 :: drop (S n) (repeat 0 (S n)) = repeat 0 (S n).
Proof.
  rewrite drop_ge by (rewrite repeat_length; lia). rewrite zeros_S, take_app_le by (rewrite repeat_length; lia).
  by rewrite take_ge by (rewrite repeat_length; lia).
Qed.
Lemma over_mem (s : list Z) : over s (repeat 0 (S (length s))) = s ++ [0].
Proof.
  unfold over. rewrite zeros_S. rewrite drop_app_ge by (rewrite repeat_length; lia).
  by rewrite repeat_length, Nat.sub_diag.
Qed.
Lemma cstr_string_length_le (s : list Z) : (length (cstr (s ++ [0%Z])) <= length s)%nat.
Proof. induction s as [|c s IH]; cbn; [lia|]. destruct (c =? 0); cbn; lia. Qed.
Lemma string_count maxsize (s : list Z) :
  Z.of_nat (length s) <= Z.min maxsize (LIMIT - 1) ->
  is_u32 (Z.of_nat (length s)) /\ (Z.min maxsize (LIMIT - 1) <? Z.of_nat (length s)) = false.
Proof. unfold LIMIT. intros H. split; [mlia|by apply Z.ltb_ge]. Qed.

Lemma string_safe maxsize op p x b p' x' :
  mem_wf x -> xdr_string osi_alloc maxsize op p x = (b, p', x') -> moved op x x'.
Proof.
  intros Hx. unfold xdr_string.
  assert (M1 : forall c b1 c1 x1, xdr_u_int op c x = (b1, c1, x1) -> moved op x x1 /\ mem_wf x1).
  { intros c b1 c1 x1 E. apply u_safe in E as M; [|done]. split; [done|apply (mv_wf _ _ _ M)]. }
  assert (M2 : forall n m x1 b2 m2 x2, moved op x x1 /\ mem_wf x1 ->
    xdr_opaque n op m x1 = (b2, m2, x2) -> moved op x x2).
  { intros n m x1 b2 m2 x2 [? ?] E. eapply moved_trans; [done|]. by eapply opaque_safe. }
  destruct op.
  - destruct (xdr_u_int _ _ _) as [[[] c1] x1] eqn:E1; apply M1 in E1; cbn [negb]; [|intros [= <- <- <-]; apply E1].
    destruct (_ <? _); [intros [= <- <- <-]; apply E1|].
    destruct (xdr_opaque _ _ _ _) as [[b2 m2] x2] eqn:E2. intros [= <- <- <-]. by eapply M2.
  - destruct (xdr_u_int _ _ _) as [[[] c1] x1] eqn:E1; apply M1 in E1; cbn [negb]; [|intros [= <- <- <-]; apply E1].
    destruct (_ <? _); [intros [= <- <- <-]; apply E1|].
    match goal with |- context [if ?t then _ else _] => destruct t end; [intros [= <- <- <-]; apply E1|].
    destruct (xdr_opaque _ _ _ _) as [[b2 m2] x2] eqn:E2. intros [= <- <- <-]. by eapply M2.
  - destruct p; cbn; [destruct (_ <? _)|]; intros [= <- <- <-]; by apply moved_refl.
Qed.

Lemma string_law maxsize : is_u32 maxsize -> lawful alloc_ok (string_fmt maxsize).
Proof.
  intros Hmax.
  constructor; cbn [string_fmt f_proc f_ok f_fresh f_out f_freed f_zero f_wire]; unfold xdr_string.
  - intros o x Hx (s & -> & Hs & H) R. cbn [deref] in *. rewrite cstr_string in * by done.
    destruct (string_count _ _ H) as [Hu Hm]. destruct (room_app _ _ _ Hx R) as (R1 & R2 & _).
    rewrite u32_small by done. rewrite u_put by done. cbn [negb]. rewrite Hm, Nat2Z.id.
    rewrite opaque_put; rewrite ?take_app_length; [by rewrite wr_wr|by apply wr_wf| |done].
    rewrite length_app. lia.
  - intros o x Hx (s & -> & Hs & H) R. cbn [deref] in *. rewrite cstr_string in * by done.
    destruct (string_count _ _ H) as [Hu Hm]. rewrite u32_small by done.
    destruct (decide (room x (be32 (Z.of_nat (length s))))) as [R1|R1].
    + rewrite u_put by done. cbn [negb]. rewrite Hm, Nat2Z.id.
      destruct (opaque_full (s ++ [0]) (length s) (wr x (be32 (Z.of_nat (length s))))) as [x' ->];
        [by apply wr_wf|rewrite length_app; lia|rewrite take_app_length; by apply not_room_app|by eexists].
    + destruct (u_full _ x Hx Hu R1) as [x' ->]. by eexists.
  - intros o n (s & -> & Hs & H). cbn [deref] in *. rewrite cstr_string in * by done.
    destruct (string_count _ _ H) as [Hu Hm]. rewrite u32_small, u_len by done. cbn [negb].
    rewrite Hm, Nat2Z.id, opaque_len by (rewrite length_app; lia).
    rewrite take_app_length, length_app, be32_length. do 3 f_equal. lia.
  - intros o o0 x Ha Hx -> (s & -> & Hs & H) N R. cbn [deref] in *. rewrite cstr_string in * by done.
    destruct (string_count _ _ H) as [Hu Hm]. destruct (room_app _ _ _ Hx R) as (R1 & _ & R2).
    destruct (next_app _ _ _ N) as [N1 N2]. rewrite (u_get _ _ _ Hx Hu N1 R1). cbn [negb].
    rewrite Hm, Ha by (unfold LIMIT in H; mlia). cbn [negb]. rewrite Nat2Z.id, string_mem.
    rewrite opaque_get; [|by apply adv_wf|rewrite repeat_length; lia|done|done].
    rewrite over_mem, adv_adv, length_app by done. done.
  - intros op p x b p' x' Hx. by apply string_safe.
  - intros p x p' x' Hx ->. destruct (xdr_u_int _ _ _) as [[[] c1] x1] eqn:E1; cbn [negb]; [|done].
    pose proof (mv_wf _ _ _ (u_safe _ _ _ _ _ _ Hx E1)). apply u_out in E1 as Hc; [|done].
    destruct (Z.ltb_spec (Z.min maxsize (LIMIT - 1)) c1); [done|]. destruct (osi_alloc _); cbn [negb]; [|done].
    rewrite string_mem. destruct (xdr_opaque _ _ _ _) as [[b2 m2] x2] eqn:E2. intros [= -> <- <-].
    apply opaque_out in E2 as [L D]; [|done|rewrite repeat_length; lia].
    rewrite repeat_length in L. exists (take (Z.to_nat c1) m2). split; [|rewrite length_take; mlia].
    rewrite <-(take_drop (Z.to_nat c1) m2) at 1. do 2 f_equal. rewrite D, zeros_S.
    rewrite drop_app_ge by (rewrite repeat_length; lia). by rewrite repeat_length, Nat.sub_diag.
  - intros p x (s & -> & H). exists None. split; [|done]. cbn [deref].
    pose proof (cstr_string_length_le s). unfold xdr_u_int, xdr_scalar. cbn [negb].
    rewrite u32_small by (unfold LIMIT in H; mlia). by rewrite (proj2 (Z.ltb_ge _ _)) by lia.
  - done.
  - intros p H. rewrite length_app. apply Nat.divide_add_r; [by exists 1%nat|apply pad_length].
Qed.

(** ** Elements in sequence *)

Section Elements.
Context {A : Type} (F : format A) (LF : lawful alloc_ok F).
#[local] Abbreviation elements := (xdr_elements (f_proc F)).
Definition wires (l : list A) : list Z := concat (map (f_wire F) l).

Lemma elements_put l x : mem_wf x -> Forall (f_ok F) l -> room x (wires l) ->
  elements XDR_ENCODE l x = (true, l, wr x (wires l)).
Proof.
  intros Hx Hl. revert x Hx. induction Hl as [|v l Hv _ IH]; intros x Hx R; cbn.
  { by rewrite wr_nil. }
  destruct (room_app _ _ _ Hx R) as (R1 & R2 & _). rewrite (l_put _ _ LF) by done. cbn [negb].
  rewrite IH by (done || by apply wr_wf). by rewrite wr_wr.
Qed.
Lemma elements_full l x : mem_wf x -> Forall (f_ok F) l -> ~ room x (wires l) ->
  exists x', elements XDR_ENCODE l x = (false, l, x').
Proof.
  intros Hx Hl. revert x Hx. induction Hl as [|v l Hv _ IH]; intros x Hx R; cbn.
  { exfalso. apply R. destruct Hx as [[? ?] _]. done. }
  destruct (decide (room x (f_wire F v))) as [R1|R1].
  - rewrite (l_put _ _ LF) by done. cbn [negb].
    destruct (IH (wr x (f_wire F v))) as [x' ->]; [by apply wr_wf|by apply not_room_app|by eexists].
  - destruct (l_full _ _ LF v x) as [x' ->]; [done..|]. by eexists.
Qed.
Lemma elements_len l n : Forall (f_ok F) l ->
  elements XDR_ENCODE l (mkLen (s32 n)) = (true, l, mkLen (s32 (n + Z.of_nat (length (wires l))))).
Proof.
  intros Hl. revert n. induction Hl as [|v l Hv _ IH]; intros n; cbn. { by rewrite Z.add_0_r. }
  rewrite (l_len _ _ LF) by done. cbn [negb]. rewrite IH, length_app. fold (wires l). do 3 f_equal. lia.
Qed.
Lemma elements_get l l0 x : alloc_ok -> mem_wf x -> Forall (f_fresh F) l0 -> length l0 = length l ->
  Forall (f_ok F) l -> next x (wires l) -> room x (wires l) ->
  elements XDR_DECODE l0 x = (true, l, adv x (length (wires l))).
Proof.
  intros Ha Hx H0 Hlen Hl. revert l0 x Hx H0 Hlen.
  induction Hl as [|v l Hv _ IH]; intros l0 x Hx H0 Hlen N R; destruct l0 as [|v0 l0]; try done; cbn.
  { by rewrite adv_0. }
  inversion_clear H0. destruct (room_app _ _ _ Hx R) as (R1 & _ & R2). destruct (next_app _ _ _ N) as [N1 N2].
  rewrite (l_get _ _ LF v) by done. cbn [negb]. injection Hlen as Hlen.
  rewrite IH by (done || by apply adv_wf). by rewrite adv_adv, length_app.
Qed.
Lemma elements_safe op l x b l' x' : mem_wf x -> elements op l x = (b, l', x') -> moved op x x'.
Proof.
  revert x b l' x'. induction l as [|v l IH]; intros x b l' x' Hx; cbn.
  { intros [= <- <- <-]. by apply moved_refl. }
  destruct (f_proc F op v x) as [[b1 v1] x1] eqn:E1. pose proof (l_safe _ _ LF _ _ _ _ _ _ Hx E1) as M.
  destruct b1; cbn [negb]; [|by intros [= <- <- <-]].
  destruct (elements op l x1) as [[b2 l2] x2] eqn:E2. intros [= <- <- <-].
  eapply moved_trans; [exact M|]. by eapply IH; [apply (mv_wf _ _ _ M)|].
Qed.
Lemma elements_out l x l' x' : mem_wf x -> Forall (f_fresh F) l -> elements XDR_DECODE l x = (true, l', x') ->
  Forall (f_out F) l' /\ length l' = length l.
Proof.
  intros Hx Hl. revert x l' x' Hx. induction Hl as [|v l Hv _ IH]; intros x l' x' Hx; cbn.
  { by intros [= <- <-]. }
  destruct (f_proc F XDR_DECODE v x) as [[b1 v1] x1] eqn:E1. pose proof (l_safe _ _ LF _ _ _ _ _ _ Hx E1) as M.
  destruct b1; cbn [negb]; [|done]. apply (l_out _ _ LF) in E1; [|done..].
  destruct (elements XDR_DECODE l x1) as [[b2 l2] x2] eqn:E2. intros [= -> <- <-].
  apply IH in E2 as [? ?]; [|apply (mv_wf _ _ _ M)]. split; [by constructor|cbn; lia].
Qed.
Lemma elements_free l (x : xdrmem) : Forall (f_out F) l ->
  exists l', elements XDR_FREE l x = (true, l', x) /\ Forall (f_freed F) l' /\ length l' = length l.
Proof.
  induction 1 as [|v l Hv _ (l' & IH & Hf & Hl)]; [by exists []|].
  cbn. destruct (l_free _ _ LF v x Hv) as (v' & -> & ?). cbn [negb]. rewrite IH. eexists. split; [done|].
  split; [by constructor|cbn; lia].
Qed.
Lemma wires_align l : Forall (f_ok F) l -> Nat.divide 4 (length (wires l)).
Proof.
  induction 1 as [|v l Hv _ IH]; [by exists 0%nat|]. cbn. rewrite length_app.
  apply Nat.divide_add_r; [by apply (l_align _ _ LF)|done].
Qed.

(** [xdr_vector]: a fixed number of elements. *)
Definition vector_fmt (n : nat) : format (list A) :=
  Format (fun X S => xdr_vector n (f_proc F)) (fun l => length l = n /\ Forall (f_ok F) l)
    (fun l => length l = n /\ Forall (f_fresh F) l) (fun l => length l = n /\ Forall (f_out F) l)
    (fun l => length l = n /\ Forall (f_freed F) l) (repeat (f_zero F) n) wires.

Lemma vector_elements {X} `{XdrStream X} n op (l : list A) (x : X) :
  length l = n -> xdr_vector n (f_proc F) op l x = elements op l x.
Proof.
  intros <-. unfold xdr_vector. rewrite take_ge, drop_ge by lia.
  destruct (elements op l x) as [[b l'] x']. by rewrite app_nil_r.
Qed.

Lemma vector_law n : lawful alloc_ok (vector_fmt n).
Proof.
  constructor; cbn [vector_fmt f_proc f_ok f_fresh f_out f_freed f_zero f_wire].
  - intros l x Hx [Hn Hl] R. rewrite vector_elements by done. by apply elements_put.
  - intros l x Hx [Hn Hl] R. rewrite vector_elements by done. by apply elements_full.
  - intros l k [Hn Hl]. rewrite vector_elements by done. by apply elements_len.
  - intros l l0 x Ha Hx [Hn0 Hl0] [Hn Hl] N R. rewrite vector_elements by done.
    apply elements_get; try done. congruence.
  - intros op l x b l' x' Hx. unfold xdr_vector.
    destruct (elements op (take n l) x) as [[b1 l1] x1] eqn:E. intros [= <- <- <-]. by eapply elements_safe.
  - intros l x l' x' Hx [Hn Hl]. rewrite vector_elements by done. intros E.
    apply elements_out in E as [? ?]; [|done..]. split; [lia|done].
  - intros l x [Hn Hl]. rewrite vector_elements by done.
    destruct (elements_free l x Hl) as (l' & -> & ? & ?). eexists. split; [done|]. split; [lia|done].
  - split; [apply repeat_length|]. apply Forall_forall. intros v Hv.
    apply list_elem_of_In, repeat_spec in Hv as ->. apply (l_zero _ _ LF).
  - intros l [_ Hl]. by apply wires_align.
Qed.

(** [xdr_array]: a decoder gives NULL for the empty array. *)
Definition array_out (max : Z) (P : A -> Prop) (o : option (list A) * Z) : Prop :=
  match o.1 with
  | Some l => o.2 = Z.of_nat (length l) /\ 0 < o.2 <= max /\ Forall P l
  | None => o.2 = 0
  end.
Definition array_fmt (limit elsize maxsize : Z) : format (option (list A) * Z) :=
  let max := Z.min maxsize (limit / elsize) in
  Format (fun X S => xdr_array_lim osi_alloc limit (f_zero F) elsize maxsize (f_proc F))
    (array_out max (f_ok F)) (fun o => o.1 = None) (array_out max (f_out F)) (fun o => o.1 = None) (None, 0)
    (fun o => be32 o.2 ++ wires (deref o.1)).

Context (limit elsize maxsize : Z) (Hmax : is_u32 maxsize) (Hlim : 0 <= limit) (Hel : 0 < elsize).
Let max := Z.min maxsize (limit / elsize).

Lemma array_max : is_u32 max.
Proof. pose proof (Z.div_pos limit elsize Hlim Hel). unfold max. mlia. Qed.
Lemma array_count P o : array_out max P o ->
  is_u32 o.2 /\ (max <? o.2) = false /\ length (deref o.1) = Z.to_nat o.2 /\ Forall P (deref o.1).
Proof.
  pose proof array_max. unfold array_out. destruct o as [[l|] c]; cbn [fst snd deref].
  - intros (-> & ? & ?). split; [mlia|]. split; [apply Z.ltb_ge; lia|]. split; [lia|done].
  - intros ->. split; [mlia|]. split; [apply Z.ltb_ge; mlia|done].
Qed.
Lemma array_encode {X} `{XdrStream X} P o (x : X) : array_out max P o ->
  xdr_array_lim osi_alloc limit (f_zero F) elsize maxsize (f_proc F) XDR_ENCODE o x =
  let '(b, c, x1) := xdr_u_int XDR_ENCODE o.2 x in
  if negb b then (false, (o.1, c), x1)
  else if max <? c then (false, (o.1, c), x1)
  else let '(b, _, x2) := elements XDR_ENCODE (take (Z.to_nat c) (deref o.1)) x1 in (b, (o.1, c), x2).
Proof. by destruct o. Qed.

Lemma array_put_full o x : mem_wf x -> array_out max (f_ok F) o ->
  let w := be32 o.2 ++ wires (deref o.1) in
  (room x w -> f_proc (array_fmt limit elsize maxsize) XDR_ENCODE o x = (true, o, wr x w)) /\
  (~ room x w -> exists x', f_proc (array_fmt limit elsize maxsize) XDR_ENCODE o x = (false, o, x')).
Proof.
  intros Hx Ho w. destruct (array_count _ _ Ho) as (Hu & Hm & Hlen & Hl).
  cbn [array_fmt f_proc]. erewrite array_encode by done. destruct o as [p c]. cbn [fst snd] in *.
  assert (Ht : take (Z.to_nat c) (deref p) = deref p) by (rewrite take_ge by lia; done).
  split; intros R.
  - destruct (room_app _ _ _ Hx R) as (R1 & R2 & _). rewrite u_put by done. cbn [negb]. rewrite Hm, Ht.
    rewrite elements_put by (done || by apply wr_wf). by rewrite wr_wr.
  - destruct (decide (room x (be32 c))) as [R1|R1].
    + rewrite u_put by done. cbn [negb]. rewrite Hm, Ht.
      destruct (elements_full (deref p) (wr x (be32 c))) as [x' ->];
        [by apply wr_wf|done|by apply not_room_app|by eexists].
    + destruct (u_full _ x Hx Hu R1) as [x' ->]. by eexists.
Qed.

Lemma array_get o o0 x : alloc_ok -> mem_wf x -> o0.1 = None -> array_out max (f_ok F) o ->
  next x (be32 o.2 ++ wires (deref o.1)) -> room x (be32 o.2 ++ wires (deref o.1)) ->
  f_proc (array_fmt limit elsize maxsize) XDR_DECODE o0 x
  = (true, o, adv x (length (be32 o.2 ++ wires (deref o.1)))).
Proof.
  intros Ha Hx H0 Ho N R. destruct (array_count _ _ Ho) as (Hu & Hm & Hlen & Hl).
  destruct (room_app _ _ _ Hx R) as (R1 & _ & R2). destruct (next_app _ _ _ N) as [N1 N2].
  cbn [array_fmt f_proc]. unfold xdr_array_lim. destruct o0 as [p0 c0]. cbn [fst] in H0. subst p0.
  rewrite (u_get _ _ _ Hx Hu N1 R1). cbn [negb]. fold max. rewrite Hm.
  destruct o as [[l|] c]; cbn [fst snd deref] in *.
  - destruct Ho as (Hc & Hpos & _); cbn [fst snd] in Hc, Hpos. rewrite (proj2 (Z.eqb_neq c 0)) by lia.
    rewrite Ha by auto with width. cbn [negb].
    rewrite (elements_get l); [by rewrite adv_adv, length_app|done|by apply adv_wf|
      |by rewrite repeat_length|done..].
    apply Forall_forall. intros v Hv. apply list_elem_of_In, repeat_spec in Hv as ->. apply (l_zero _ _ LF).
  - unfold array_out in Ho. cbn [fst snd] in Ho. subst c. done.
Qed.

Lemma array_safe op o x b o' x' : mem_wf x ->
  f_proc (array_fmt limit elsize maxsize) op o x = (b, o', x') -> moved op x x'.
Proof.
  intros Hx. cbn [array_fmt f_proc]. unfold xdr_array_lim. destruct o as [p c].
  destruct (xdr_u_int op c x) as [[b1 c1] x1] eqn:E1.
  pose proof (u_safe _ _ _ _ _ _ Hx E1) as M. pose proof (mv_wf _ _ _ M) as Hx1.
  assert (M2 : forall l b2 l2 x2, elements op l x1 = (b2, l2, x2) -> moved op x x2).
  { intros l b2 l2 x2 E. eapply moved_trans; [exact M|]. by eapply elements_safe. }
  destruct b1; cbn [negb]; [|by intros [= <- <- <-]].
  destruct op; [destruct (_ <? _)|destruct (_ <? _)|]; try by intros [= <- <- <-].
  - destruct (xdr_elements _ _ _ _) as [[b2 l2] x2] eqn:E2. intros [= <- <- <-]. by eapply M2.
  - destruct p as [l|].
    + destruct (xdr_elements _ _ _ _) as [[b2 l2] x2] eqn:E2. intros [= <- <- <-]. by eapply M2.
    + destruct (_ =? _); [by intros [= <- <- <-]|]. destruct (negb _); [by intros [= <- <- <-]|].
      destruct (xdr_elements _ _ _ _) as [[b2 l2] x2] eqn:E2. intros [= <- <- <-]. by eapply M2.
  - destruct p as [l|]; [|by intros [= <- <- <-]].
    destruct (xdr_elements _ _ _ _) as [[b2 l2] x2] eqn:E2. intros [= <- <- <-]. by eapply M2.
Qed.

Lemma array_decoded o x o' x' : mem_wf x -> o.1 = None ->
  f_proc (array_fmt limit elsize maxsize) XDR_DECODE o x = (true, o', x') -> array_out max (f_out F) o'.
Proof.
  intros Hx. cbn [array_fmt f_proc]. unfold xdr_array_lim. destruct o as [p c]. cbn [fst]. intros ->.
  destruct (xdr_u_int XDR_DECODE c x) as [[[] c1] x1] eqn:E1; cbn [negb]; [|done]. fold max.
  pose proof (mv_wf _ _ _ (u_safe _ _ _ _ _ _ Hx E1)). apply u_out in E1 as Hc; [|done].
  destruct (Z.ltb_spec max c1); [done|]. destruct (Z.eqb_spec c1 0); [by intros [= <- _]|].
  destruct (negb _); [done|]. destruct (xdr_elements _ _ _ _) as [[b2 l2] x2] eqn:E2.
  intros [= -> <- _]. apply elements_out in E2 as [Ho Hl]; [|done|].
  - rewrite repeat_length in Hl. unfold array_out. cbn [fst snd]. rewrite Hl. unfold is_u32 in Hc. split_and!; [lia..|done].
  - apply Forall_forall. intros v Hv. apply list_elem_of_In, repeat_spec in Hv as ->. apply (l_zero _ _ LF).
Qed.

Lemma array_law : lawful alloc_ok (array_fmt limit elsize maxsize).
Proof.
  constructor; cbn [array_fmt f_ok f_fresh f_out f_freed f_zero f_wire]; fold max.
  - intros o x Hx Ho. by apply array_put_full.
  - intros o x Hx Ho. by apply array_put_full.
  - intros o n Ho. destruct (array_count _ _ Ho) as (Hu & Hm & Hlen & Hl). cbn [array_fmt f_proc].
    erewrite array_encode by done. rewrite u_len by done. cbn [negb]. rewrite Hm, take_ge by lia.
    rewrite elements_len by done. rewrite length_app, be32_length. destruct o. cbn [fst snd]. do 3 f_equal. lia.
  - intros o o0 x. apply array_get.
  - apply array_safe.
  - intros o x o' x'. apply array_decoded.
  - intros [p c] x Ho. destruct (array_count _ _ Ho) as (Hu & Hm & Hlen & Hl). cbn [array_fmt f_proc]. unfold xdr_array_lim. cbn.
    destruct p as [l|]; [|by eexists]. cbn [fst snd deref] in *. rewrite take_ge by lia.
    destruct (elements_free l x Hl) as (l' & -> & _). by eexists.
  - done.
  - intros o Ho. destruct (array_count _ _ Ho) as (_ & _ & _ & Hl). rewrite length_app.
    apply Nat.divide_add_r; [by exists 1%nat|by apply wires_align].
Qed.
End Elements.

(** ** Pointers and unions *)

Definition is_bool (z : Z) : Prop := z = 0 \/ z = 1.
Lemma bool_law P : lawful P (scalar_fmt (@xdr_bool) is_bool).
Proof.
  apply scalar_law.
  - by intros v [-> | ->].
  - by intros v [-> | ->].
  - intros l. unfold is_bool. destruct (_ =? _); auto.
Qed.

Section Pointer.
Context {A : Type} (F : format A) (LF : lawful alloc_ok F) (size : Z) (Hsize : is_u32 size).

Definition on_some (P : A -> Prop) (none : Prop) (o : option A) : Prop :=
  match o with Some v => P v | None => none end.

Definition reference_fmt : format (option A) :=
  Format (fun X S => xdr_reference osi_alloc (f_zero F) size (f_proc F)) (on_some (f_ok F) False)
    (fun o => o = None) (on_some (f_out F) False) (fun o => o = None) None
    (fun o => match o with Some v => f_wire F v | None => [] end).

Lemma reference_law : lawful alloc_ok reference_fmt.
Proof.
  constructor; cbn [reference_fmt f_proc f_ok f_fresh f_out f_freed f_zero f_wire].
  - intros [v|] x Hx Ho R; [|done]. cbn. by rewrite (l_put _ _ LF).
  - intros [v|] x Hx Ho R; [|done]. cbn. destruct (l_full _ _ LF v x) as [x' ->]; [done..|]. by eexists.
  - intros [v|] n Ho; [|done]. unfold xdr_reference. by rewrite (l_len _ _ LF).
  - intros [v|] o0 x Ha Hx -> Ho N R; [|done]. cbn. rewrite Ha by done. cbn [negb].
    rewrite (l_get _ _ LF v); try done. apply (l_zero _ _ LF).
  - intros op o x b o' x' Hx. pose proof (fun v b v' x' => l_safe _ _ LF op v x b v' x' Hx) as M.
    unfold xdr_reference.
    destruct o as [v|], op; try (by intros [= <- <- <-]; apply moved_refl);
      try (destruct (f_proc F _ v x) as [[b1 v1] x1] eqn:E; apply M in E; by intros [= <- <- <-]).
    destruct (negb _); [by intros [= <- <- <-]; apply moved_refl|].
    destruct (f_proc F _ _ x) as [[b1 v1] x1] eqn:E; apply M in E; by intros [= <- <- <-].
  - intros o x o' x' Hx ->. cbn. destruct (negb _); [done|].
    destruct (f_proc F _ _ x) as [[b1 v1] x1] eqn:E. intros [= -> <- <-].
    apply (l_out _ _ LF) in E; [done..|apply (l_zero _ _ LF)].
  - intros [v|] x Ho; [|done]. cbn. destruct (l_free _ _ LF v x Ho) as (v' & -> & _). by eexists.
  - done.
  - intros [v|] Ho; [|done]. by apply (l_align _ _ LF).
Qed.

(** [xdr_pointer]: a flag says whether there is an object. *)
Definition flag (o : option A) : Z := match o with Some _ => 1 | None => 0 end.
Definition pointer_fmt : format (option A) :=
  Format (fun X S => xdr_pointer osi_alloc (f_zero F) size (f_proc F)) (on_some (f_ok F) True)
    (fun o => o = None) (on_some (f_out F) True) (fun o => o = None) None
    (fun o => be32 (flag o) ++ match o with Some v => f_wire F v | None => [] end).

Let LB : lawful alloc_ok (scalar_fmt (@xdr_bool) is_bool) := bool_law alloc_ok.
Lemma flag_bool (o : option A) : is_bool (flag o).
Proof. destruct o; unfold is_bool; auto. Qed.

Lemma pointer_eq {X} `{XdrStream X} op o (x : X) :
  xdr_pointer osi_alloc (f_zero F) size (f_proc F) op o x =
  let '(b, more_data, x1) := f_proc (scalar_fmt (@xdr_bool) is_bool) op (flag o) x in
  if negb b then (false, o, x1)
  else if more_data =? 0 then (true, None, x1)
  else f_proc reference_fmt op o x1.
Proof. done. Qed.

Lemma pointer_law : lawful alloc_ok pointer_fmt.
Proof.
  pose proof reference_law as LR. pose proof flag_bool as Hb.
  constructor; cbn [pointer_fmt f_proc f_ok f_fresh f_out f_freed f_zero f_wire].
  - intros o x Hx Ho R. rewrite pointer_eq. destruct (room_app _ _ _ Hx R) as (R1 & R2 & _).
    rewrite (l_put _ _ LB) by (done || apply Hb). cbn [negb f_wire scalar_fmt]. destruct o as [v|]; cbn [flag Z.eqb].
    + rewrite (l_put _ _ LR); [|by apply wr_wf|done|done]. cbn [f_wire reference_fmt scalar_fmt] in *. by rewrite wr_wr.
    + done.
  - intros o x Hx Ho R. rewrite pointer_eq. destruct (decide (room x (be32 (flag o)))) as [R1|R1].
    + rewrite (l_put _ _ LB) by (done || apply Hb). pose proof (not_room_app _ _ _ R R1) as R2. cbn [negb f_wire scalar_fmt].
      destruct o as [v|]; cbn [flag Z.eqb].
      * destruct (l_full _ _ LR (Some v) (wr x (be32 1))) as [x' ->]; [by apply wr_wf|done|done|by eexists].
      * exfalso. apply R2. unfold room in *. cbn in *. lia.
    + destruct (l_full _ _ LB (flag o) x) as [x' ->]; [done|apply Hb|done|]. by eexists.
  - intros o n Ho. rewrite pointer_eq, (l_len _ _ LB) by apply Hb. cbn [negb f_wire scalar_fmt].
    destruct o as [v|]; cbn [flag Z.eqb].
    + rewrite (l_len _ _ LR) by done. cbn [f_wire reference_fmt scalar_fmt]. rewrite length_app, !be32_length.
      do 3 f_equal. lia.
    + done.
  - intros o o0 x Ha Hx -> Ho N R. rewrite pointer_eq. destruct (room_app _ _ _ Hx R) as (R1 & _ & R2).
    destruct (next_app _ _ _ N) as [N1 N2]. rewrite (l_get _ _ LB (flag o)) by (done || apply Hb). cbn [negb f_wire scalar_fmt].
    destruct o as [v|]; cbn [flag Z.eqb].
    + rewrite (l_get _ _ LR (Some v)); try done; [|by apply adv_wf].
      by rewrite adv_adv, length_app.
    + done.
  - intros op o x b o' x' Hx. rewrite pointer_eq.
    destruct (f_proc (scalar_fmt _ _) op (flag o) x) as [[b1 c1] x1] eqn:E1.
    apply (l_safe _ _ LB) in E1 as M; [|done].
    destruct b1; cbn [negb]; [|by intros [= <- <- <-]]. destruct (c1 =? 0); [by intros [= <- <- <-]|].
    intros E2. eapply moved_trans; [exact M|]. by eapply (l_safe _ _ LR); [apply (mv_wf _ _ _ M)|].
  - intros o x o' x' Hx ->. rewrite pointer_eq.
    destruct (f_proc (scalar_fmt _ _) _ (flag None) x) as [[b1 c1] x1] eqn:E1.
    apply (l_safe _ _ LB) in E1 as M; [|done].
    destruct b1; cbn [negb]; [|done]. destruct (c1 =? 0); [by intros [= <- <-]|].
    intros E2. apply (l_out _ _ LR) in E2; [|apply (mv_wf _ _ _ M)|done]. by destruct o'.
  - intros [v|] x Ho; rewrite pointer_eq.
    + destruct (l_free _ _ LR (Some v) x Ho) as (o' & E & ?). exists o'. split; [exact E|done].
    + by eexists.
  - done.
  - intros [v|] Ho; rewrite length_app; [|by exists 1%nat].
    apply Nat.divide_add_r; [by exists 1%nat|by apply (l_align _ _ LF)].
Qed.
End Pointer.

(** [xdr_union]: the discriminant chooses the arm. *)
Section Union.
Context {U : Type} (choices : list (Z * format U)) (dfault : option (format U)) (zero : U).
Definition arm (d : Z) : option (format U) :=
  match list_find (fun c : Z * format U => c.1 = d) choices with
  | Some (_, (_, F)) => Some F
  | None => dfault
  end.
Definition in_arm (P : format U -> U -> Prop) (o : Z * U) : Prop :=
  is_s32 o.1 /\ match arm o.1 with Some F => P F o.2 | None => False end.
Definition union_fmt : format (Z * U) :=
  Format (fun X S => xdr_union (map (fun c => (c.1, f_proc c.2)) choices) (option_map (fun F => f_proc F) dfault))
    (in_arm f_ok) (fun o => forall d F, arm d = Some F -> f_fresh F o.2) (in_arm f_out)
    (in_arm f_freed) (0, zero)
    (fun o => be32 o.1 ++ match arm o.1 with Some F => f_wire F o.2 | None => [] end).

Context (LA : forall d F, arm d = Some F -> lawful alloc_ok F)
        (Hzero : forall d F, arm d = Some F -> f_fresh F zero).
Let LE : lawful alloc_ok (scalar_fmt (@xdr_enum) is_s32) := int_law alloc_ok (@xdr_enum) eq_refl.

Lemma union_arm_eq {X} `{XdrStream X} d :
  match union_arm d (map (fun c => (c.1, f_proc c.2)) choices) with
  | None => option_map (fun F => f_proc F) dfault
  | Some p => Some p
  end = option_map (fun F => f_proc (X := X) F) (arm d).
Proof.
  unfold arm. induction choices as [|[v F] l IH]; [done|]. cbn.
  destruct (Z.eqb_spec v d) as [->|Hn].
  - by rewrite decide_True.
  - rewrite decide_False by done. rewrite IH. by destruct (list_find _ l) as [[? [? ?]]|].
Qed.

Lemma union_eq {X} `{XdrStream X} op o (x : X) :
  f_proc union_fmt op o x =
  let '(b, dscm, x1) := f_proc (scalar_fmt (@xdr_enum) is_s32) op o.1 x in
  if negb b then (false, (dscm, o.2), x1)
  else match arm dscm with
       | None => (false, (dscm, o.2), x1)
       | Some F => let '(b, u, x2) := f_proc F op o.2 x1 in (b, (dscm, u), x2)
       end.
Proof.
  destruct o as [d u]. cbn [union_fmt f_proc scalar_fmt]. unfold xdr_union. cbn [fst snd].
  destruct (xdr_enum op d x) as [[[] dscm] x1]; [|done]. cbn [negb]. rewrite union_arm_eq.
  by destruct (arm dscm).
Qed.

Lemma union_law : lawful alloc_ok union_fmt.
Proof.
  constructor.
  - intros [d u] x Hx [Hd Ho] R. cbn [union_fmt f_wire fst snd] in *. rewrite union_eq. cbn [fst snd].
    destruct (room_app _ _ _ Hx R) as (R1 & R2 & _). rewrite (l_put _ _ LE) by done.
    cbn [negb scalar_fmt f_wire]. destruct (arm d) as [F|] eqn:E; [|done].
    rewrite (l_put _ _ (LA _ _ E)) by (done || by apply wr_wf). by rewrite wr_wr.
  - intros [d u] x Hx [Hd Ho] R. cbn [union_fmt f_wire fst snd] in *. rewrite union_eq. cbn [fst snd].
    destruct (decide (room x (be32 d))) as [R1|R1].
    + rewrite (l_put _ _ LE) by done. cbn [negb scalar_fmt f_wire].
      destruct (arm d) as [F|] eqn:E; [|done].
      destruct (l_full _ _ (LA _ _ E) u (wr x (be32 d))) as [x' ->];
        [by apply wr_wf|done|by apply not_room_app|by eexists].
    + destruct (l_full _ _ LE d x) as [x' ->]; [done..|]. by eexists.
  - intros [d u] n [Hd Ho]. cbn [union_fmt f_wire fst snd] in *. rewrite union_eq. cbn [fst snd].
    rewrite (l_len _ _ LE) by done. cbn [negb scalar_fmt f_wire]. destruct (arm d) as [F|] eqn:E; [|done].
    rewrite (l_len _ _ (LA _ _ E)) by done. rewrite length_app. do 3 f_equal. lia.
  - intros [d u] [d0 u0] x Ha Hx Hf [Hd Ho] N R. cbn [union_fmt f_wire f_fresh fst snd] in *. rewrite union_eq.
    cbn [fst snd]. destruct (room_app _ _ _ Hx R) as (R1 & _ & R2). destruct (next_app _ _ _ N) as [N1 N2].
    rewrite (l_get _ _ LE d) by done. cbn [negb scalar_fmt f_wire]. destruct (arm d) as [F|] eqn:E; [|done].
    rewrite (l_get _ _ (LA _ _ E) u); [|done|by apply adv_wf|by eapply Hf|done..]. by rewrite adv_adv, length_app.
  - intros op [d u] x b o' x' Hx. rewrite union_eq. cbn [fst snd].
    destruct (f_proc (scalar_fmt _ _) op d x) as [[b1 d1] x1] eqn:E1.
    apply (l_safe _ _ LE) in E1 as M; [|done]. destruct b1; cbn [negb]; [|by intros [= <- <- <-]].
    destruct (arm d1) as [F|] eqn:E; [|by intros [= <- <- <-]].
    destruct (f_proc F op u x1) as [[b2 u2] x2] eqn:E2. intros [= <- <- <-].
    eapply moved_trans; [exact M|]. by eapply (l_safe _ _ (LA _ _ E)); [apply (mv_wf _ _ _ M)|].
  - intros [d u] x o' x' Hx Hf. cbn [union_fmt f_out f_fresh fst snd] in *. rewrite union_eq. cbn [fst snd].
    destruct (f_proc (scalar_fmt _ _) _ d x) as [[b1 d1] x1] eqn:E1.
    apply (l_safe _ _ LE) in E1 as M; [|done]. destruct b1; cbn [negb]; [|done].
    apply (l_out _ _ LE) in E1; [|done..].
    destruct (arm d1) as [F|] eqn:E; [|done].
    destruct (f_proc F _ u x1) as [[b2 u2] x2] eqn:E2. intros [= -> <- _]. split; [done|]. cbn [fst snd].
    rewrite E. by apply (l_out _ _ (LA _ _ E)) in E2; [|apply (mv_wf _ _ _ M)|eapply Hf].
  - intros [d u] x [Hd Ho]. rewrite union_eq. cbn [fst snd] in *. unfold f_proc at 1, scalar_fmt, xdr_enum, xdr_int, xdr_scalar.
    cbn [negb]. destruct (arm d) as [F|] eqn:E; [|done].
    destruct (l_free _ _ (LA _ _ E) u x Ho) as (u' & -> & ?). exists (d, u'). split; [done|]. split; [done|].
    cbn [fst snd]. by rewrite E.
  - intros d F. apply Hzero.
  - intros [d u] [Hd Ho]. cbn [union_fmt f_wire fst snd] in *. destruct (arm d) as [F|] eqn:E; [|done].
    rewrite length_app. apply Nat.divide_add_r; [by exists 1%nat|by apply (l_align _ _ (LA _ _ E))].
Qed.
End Union.
End Alloc.
