(* ===== verification/XdrTypes.v ===== *)
(** * XDR: every type follows its wire format

    [xdr_type] is the closure of the XDR procedures under the constructors of types,
    the way rxgen composes them.  By rule induction every type is lawful; the
    theorems say what that means for the memory and the length stream. *)

From stdpp Require Import prelude list.
From Stdlib Require Import ZArith Lia ZifyBool.
From S2P Require Import Prelude ByteMem Xdr XdrFormat.

#[local] Open Scope Z_scope.

(** ** The structure [afsUUID] *)

Definition uuid_fields : format (Z * (Z * (Z * (Z * (Z * list Z))))) :=
  pair_fmt (scalar_fmt (@xdr_afs_uint32) is_u32)
    (pair_fmt (scalar_fmt (@xdr_u_short) is_u16)
       (pair_fmt (scalar_fmt (@xdr_u_short) is_u16)
          (pair_fmt (scalar_fmt (@xdr_char) is_s8)
             (pair_fmt (scalar_fmt (@xdr_char) is_s8) (vector_fmt (scalar_fmt (@xdr_char) is_s8) 6))))).
Definition uuid_tuple (o : afsUUID) :=
  (time_low o, (time_mid o, (time_hi_and_version o,
    (clock_seq_hi_and_reserved o, (clock_seq_low o, node o))))).
Definition tuple_uuid (t : Z * (Z * (Z * (Z * (Z * list Z))))) : afsUUID :=
  let '(tl, (tm, (th, (ch, (cl, nd))))) := t in mkUUID tl tm th ch cl nd.
Definition uuid_fmt : format afsUUID :=
  Format (fun X S => xdr_afsUUID) (fun o => f_ok uuid_fields (uuid_tuple o))
    (fun o => length (node o) = 6%nat) (fun o => f_out uuid_fields (uuid_tuple o)) (fun _ => True)
    (mkUUID 0 0 0 0 0 (repeat 0 6)) (fun o => f_wire uuid_fields (uuid_tuple o)).

Lemma char_law P : lawful P (scalar_fmt (@xdr_char) is_s8).
Proof.
  apply scalar_law; [done|..]; unfold is_s8, s8.
  - intros v Hv. rewrite s32_small by (unfold is_s32; lia). Z.div_mod_to_equations. lia.
  - intros l. Z.div_mod_to_equations. lia.
Qed.
Lemma short_law P : lawful P (scalar_fmt (@xdr_short) is_s16).
Proof.
  apply scalar_law; [done|..]; unfold is_s16, s16.
  - intros v Hv. rewrite s32_small by (unfold is_s32; lia). Z.div_mod_to_equations. lia.
  - intros l. Z.div_mod_to_equations. lia.
Qed.
Lemma u_char_law P : lawful P (scalar_fmt (@xdr_u_char) is_u8).
Proof.
  apply scalar_law; [done| |auto with width].
  intros v Hv. rewrite s32_small by mlia. by apply u8_small.
Qed.
Lemma u_short_law P : lawful P (scalar_fmt (@xdr_u_short) is_u16).
Proof.
  apply scalar_law; [done| |auto with width].
  intros v Hv. rewrite s32_small by mlia. by apply u16_small.
Qed.
Lemma long_law P : lawful P (scalar_fmt (@xdr_long) is_s32).
Proof.
  apply scalar_law; [|apply s32_small|auto with width].
  intros v Hv. by rewrite s32_small.
Qed.

Lemma uuid_proc {X} `{XdrStream X} op o (x : X) b t x' :
  f_proc uuid_fields op (uuid_tuple o) x = (b, t, x') -> xdr_afsUUID op o x = (b, tuple_uuid t, x').
Proof.
  cbn [uuid_fields pair_fmt f_proc scalar_fmt vector_fmt]. unfold xdr_seq, uuid_tuple, xdr_afsUUID. cbn [fst snd].
  destruct (xdr_afs_uint32 op (time_low o) x) as [[[] tl] x1]; cbn [negb]; [|by intros [= <- <- <-]].
  destruct (xdr_u_short op (time_mid o) x1) as [[[] tm] x2]; cbn [negb]; [|by intros [= <- <- <-]].
  destruct (xdr_u_short op (time_hi_and_version o) x2) as [[[] th] x3]; cbn [negb]; [|by intros [= <- <- <-]].
  destruct (xdr_char op (clock_seq_hi_and_reserved o) x3) as [[[] ch] x4]; cbn [negb]; [|by intros [= <- <- <-]].
  destruct (xdr_char op (clock_seq_low o) x4) as [[[] cl] x5]; cbn [negb]; [|by intros [= <- <- <-]].
  destruct (xdr_vector 6 xdr_char op (node o) x5) as [[b6 nd] x6]. by intros [= <- <- <-].
Qed.

(** Encoding leaves the object alone. *)
Section Keeps.
Context {X : Type} `{XdrStream X}.
Definition keeps {A} (p : xdrproc X A) : Prop := forall v x, (p XDR_ENCODE v x).1.2 = v.
Lemma keeps_scalar enc dec : keeps (xdr_scalar enc dec).
Proof. intros v x. unfold xdr_scalar. by destruct (XDR_PUTINT32 _ x). Qed.
Lemma keeps_seq {A B} (p : xdrproc X A) (q : xdrproc X B) : keeps p -> keeps q -> keeps (xdr_seq p q).
Proof.
  intros Hp Hq [v w] x. unfold xdr_seq. cbn [fst snd]. specialize (Hp v x).
  destruct (p XDR_ENCODE v x) as [[[] v1] x1]; cbn in *; subst; [|done]. specialize (Hq w x1).
  destruct (q XDR_ENCODE w x1) as [[b w1] x2]; cbn in *; by subst.
Qed.
Lemma keeps_vector {A} n (p : xdrproc X A) : keeps p -> keeps (xdr_vector n p).
Proof.
  intros Hp l x. unfold xdr_vector. transitivity (take n l ++ drop n l); [|apply take_drop].
  assert (He : forall l x, (xdr_elements p XDR_ENCODE l x).1.2 = l).
  { clear l x. induction l as [|v l IH]; intros x; [done|]. cbn. specialize (Hp v x).
    destruct (p XDR_ENCODE v x) as [[[] v1] x1]; cbn in *; subst; [|done]. specialize (IH x1).
    destruct (xdr_elements p XDR_ENCODE l x1) as [[b l1] x2]; cbn in *; by subst. }
  specialize (He (take n l) x). destruct (xdr_elements _ _ _ _) as [[b l1] x1]; cbn in *. by subst.
Qed.
End Keeps.

Lemma uuid_law osi_alloc : lawful (forall n, is_u32 n -> osi_alloc n = true) uuid_fmt.
Proof.
  apply (map_law _ uuid_fields uuid_fmt uuid_tuple tuple_uuid).
  - repeat apply pair_law; [by apply u_int_law|apply u_short_law..|apply char_law|apply char_law|].
    apply vector_law, char_law.
  - intros X S v x. destruct (f_proc uuid_fields XDR_ENCODE (uuid_tuple v) x) as [[b t] x'] eqn:E.
    cbn [uuid_fmt f_proc]. rewrite (uuid_proc _ _ _ _ _ _ E).
    assert (K : keeps (f_proc (X := X) uuid_fields))
      by (repeat apply keeps_seq; try apply keeps_scalar; apply keeps_vector, keeps_scalar).
    specialize (K (uuid_tuple v) x). rewrite E in K. cbn in K. subst t. by destruct v.
  - intros X S v x b a x' E. eexists. split; [by apply uuid_proc|done].
  - intros X S v x b a x' E. eexists. split; [by apply uuid_proc|done].
  - intros [] Ho. done.
  - intros v Hv. cbn. split_and!; try done. by apply Forall_true.
  - done.
  - intros [? [? [? [? [? ?]]]]]. done.
  - done.
Qed.

(** ** All types *)

Definition void_fmt : format unit :=
  Format (fun X S => xdr_void) (fun _ => True) (fun _ => True) (fun _ => True) (fun _ => True) tt (fun _ => []).
Lemma void_law P : lawful P void_fmt.
Proof.
  constructor; cbn [void_fmt f_proc f_ok f_fresh f_out f_freed f_zero f_wire]; unfold xdr_void; try done.
  - intros v x Hx _ _. by rewrite wr_nil.
  - intros v x [[? ?] _] _ R. exfalso. by apply R.
  - intros v n _. by rewrite Z.add_0_r.
  - intros [] v0 x _ _ _ _ _ _. destruct v0. by rewrite adv_0.
  - intros op v x b v' x' Hx [= <- <- <-]. by apply moved_refl.
  - intros v x _. by exists v.
  - intros v _. by exists 0%nat.
Qed.

(** The types built from the procedures, as rxgen puts them together. *)
Inductive xdr_type (osi_alloc : Z -> bool) : forall {A}, format A -> Prop :=
| xt_void : xdr_type osi_alloc void_fmt
| xt_int : xdr_type osi_alloc (scalar_fmt (@xdr_int) is_s32)
| xt_u_int : xdr_type osi_alloc (scalar_fmt (@xdr_u_int) is_u32)
| xt_long : xdr_type osi_alloc (scalar_fmt (@xdr_long) is_s32)
| xt_u_long : xdr_type osi_alloc (scalar_fmt (@xdr_u_long) is_u32)
| xt_char : xdr_type osi_alloc (scalar_fmt (@xdr_char) is_s8)
| xt_u_char : xdr_type osi_alloc (scalar_fmt (@xdr_u_char) is_u8)
| xt_short : xdr_type osi_alloc (scalar_fmt (@xdr_short) is_s16)
| xt_u_short : xdr_type osi_alloc (scalar_fmt (@xdr_u_short) is_u16)
| xt_afs_int32 : xdr_type osi_alloc (scalar_fmt (@xdr_afs_int32) is_s32)
| xt_afs_uint32 : xdr_type osi_alloc (scalar_fmt (@xdr_afs_uint32) is_u32)
| xt_bool : xdr_type osi_alloc (scalar_fmt (@xdr_bool) is_bool)
| xt_enum : xdr_type osi_alloc (scalar_fmt (@xdr_enum) is_s32)
| xt_int64 : xdr_type osi_alloc (hyper_fmt (@xdr_int64) is_s64)
| xt_uint64 : xdr_type osi_alloc (hyper_fmt (@xdr_uint64) is_u64)
| xt_opaque cnt : xdr_type osi_alloc (opaque_fmt cnt)
| xt_bytes maxsize : is_u32 maxsize -> xdr_type osi_alloc (bytes_fmt osi_alloc maxsize)
| xt_string maxsize : is_u32 maxsize -> xdr_type osi_alloc (string_fmt osi_alloc maxsize)
| xt_uuid : xdr_type osi_alloc uuid_fmt
| xt_struct {A B} (F : format A) (G : format B) :
    xdr_type osi_alloc F -> xdr_type osi_alloc G -> xdr_type osi_alloc (pair_fmt F G)
| xt_vector {A} (F : format A) n : xdr_type osi_alloc F -> xdr_type osi_alloc (vector_fmt F n)
| xt_array {A} (F : format A) elsize maxsize :
    xdr_type osi_alloc F -> 0 < elsize -> is_u32 maxsize ->
    xdr_type osi_alloc (array_fmt osi_alloc F LIMIT elsize maxsize)
| xt_arrayN {A} (F : format A) elsize maxsize :
    xdr_type osi_alloc F -> 0 < elsize -> is_u32 maxsize ->
    xdr_type osi_alloc (array_fmt osi_alloc F (2 ^ 32 - 1) elsize maxsize)
| xt_reference {A} (F : format A) size :
    xdr_type osi_alloc F -> is_u32 size -> xdr_type osi_alloc (reference_fmt osi_alloc F size)
| xt_pointer {A} (F : format A) size :
    xdr_type osi_alloc F -> is_u32 size -> xdr_type osi_alloc (pointer_fmt osi_alloc F size)
| xt_union {U} (choices : list (Z * format U)) (dfault : option (format U)) (zero : U) :
    (forall d F, arm choices dfault d = Some F -> xdr_type osi_alloc F) ->
    (forall d F, arm choices dfault d = Some F -> f_fresh F zero) ->
    xdr_type osi_alloc (union_fmt choices dfault zero).

Definition alloc_succeeds (osi_alloc : Z -> bool) : Prop := forall n, is_u32 n -> osi_alloc n = true.

Lemma xdr_type_lawful osi_alloc A (F : format A) :
  xdr_type osi_alloc F -> lawful (alloc_succeeds osi_alloc) F.
Proof.
  unfold alloc_succeeds. induction 1.
  - apply void_law.
  - by apply int_law.
  - by apply u_int_law.
  - apply long_law.
  - by apply u_int_law.
  - apply char_law.
  - apply u_char_law.
  - apply short_law.
  - apply u_short_law.
  - by apply int_law.
  - by apply u_int_law.
  - apply bool_law.
  - by apply int_law.
  - apply int64_law.
  - apply uint64_law.
  - apply opaque_law.
  - by apply bytes_law.
  - by apply string_law.
  - apply uuid_law.
  - by apply pair_law.
  - by apply vector_law.
  - by apply array_law.
  - by apply array_law.
  - by apply reference_law.
  - by apply pointer_law.
  - by apply union_law.
Qed.

(** ** Properties *)

Lemma create_wf buf : Z.of_nat (length buf) <= INT_MAX -> mem_wf (xdrmem_create buf (Z.of_nat (length buf))).
Proof.
  intros H. unfold xdrmem_create, mem_wf. rewrite (proj2 (Z.ltb_ge _ _)) by lia. cbn. lia.
Qed.

(** [C38] Every XDR type is encoded as RFC 4506 says: when the buffer has room, the
    procedure writes exactly the bytes of the wire format at the position of the
    stream and leaves the object alone; when it has not, it fails without touching a
    byte outside the buffer's window; the length stream counts the same bytes, in a
    32-bit counter; and the encoding is a whole number of words. *)
Theorem xdr_encode_wire osi_alloc A (F : format A) v x :
  xdr_type osi_alloc F -> f_ok F v -> mem_wf x ->
  (room x (f_wire F v) -> f_proc F XDR_ENCODE v x = (true, v, wr x (f_wire F v))) /\
  (~ room x (f_wire F v) -> exists x', f_proc F XDR_ENCODE v x = (false, v, x') /\ moved XDR_ENCODE x x') /\
  f_proc F XDR_ENCODE v xdrlen_create = (true, v, mkLen (s32 (Z.of_nat (length (f_wire F v))))) /\
  Nat.divide 4 (length (f_wire F v)).
Proof.
  intros HF Hv Hx. apply xdr_type_lawful in HF as L. split_and!.
  - by apply (l_put _ _ L).
  - intros R. destruct (l_full _ _ L v x Hx Hv R) as [x' E]. exists x'. split; [done|].
    by eapply (l_safe _ _ L).
  - exact (l_len _ _ L v 0 Hv).
  - by apply (l_align _ _ L).
Qed.

(** [C39] What was encoded is decoded: with a buffer of the size that the length stream
    counted, encoding succeeds and fills the buffer, and decoding the buffer into a
    fresh object gives the object back and consumes the same bytes. *)
Theorem xdr_roundtrip osi_alloc A (F : format A) v v0 buf :
  xdr_type osi_alloc F -> alloc_succeeds osi_alloc -> f_ok F v -> f_fresh F v0 ->
  Z.of_nat (length buf) <= INT_MAX ->
  xdrlen_getpos (f_proc F XDR_ENCODE v xdrlen_create).2 = Z.of_nat (length buf) ->
  Z.of_nat (length (f_wire F v)) < 2 ^ 32 ->
  exists x1 x2, f_proc F XDR_ENCODE v (xdrmem_create buf (Z.of_nat (length buf))) = (true, v, x1) /\
    x_base x1 = f_wire F v /\
    f_proc F XDR_DECODE v0 (xdrmem_create (x_base x1) (Z.of_nat (length buf))) = (true, v, x2) /\
    xdrmem_getpos x1 = Z.of_nat (length buf) /\ xdrmem_getpos x2 = Z.of_nat (length buf).
Proof.
  intros HF Ha Hv Hv0 Hb Hlen Hw. apply xdr_type_lawful in HF as L. pose proof (create_wf buf Hb) as Hx.
  pose proof (l_len _ _ L v 0 Hv) as E. change (mkLen (s32 0)) with xdrlen_create in E.
  rewrite E in Hlen. unfold xdrlen_getpos in Hlen. cbn [snd l_handy] in Hlen.
  rewrite u32_s32, u32_small in Hlen by mlia. cbn in Hlen.
  assert (Hl : length (f_wire F v) = length buf) by lia.
  assert (R : room (xdrmem_create buf (Z.of_nat (length buf))) (f_wire F v)).
  { unfold room, xdrmem_create. rewrite (proj2 (Z.ltb_ge _ _)) by lia. cbn. lia. }
  assert (Hbase : x_base (wr (xdrmem_create buf (Z.of_nat (length buf))) (f_wire F v)) = f_wire F v).
  { cbn. unfold splice. cbn [take app Nat.add]. rewrite drop_ge by lia. apply app_nil_r. }
  exists (wr (xdrmem_create buf (Z.of_nat (length buf))) (f_wire F v)),
    (adv (xdrmem_create (f_wire F v) (Z.of_nat (length buf))) (length (f_wire F v))).
  assert (Hu : u32 (Z.of_nat (length buf)) = Z.of_nat (length buf)) by (apply u32_small; mlia).
  rewrite Hbase. split_and!.
  - by apply (l_put _ _ L).
  - done.
  - rewrite <-Hl. apply (l_get _ _ L); try done.
    + apply create_wf. lia.
    + unfold next. cbn. by rewrite take_ge.
    + unfold room, xdrmem_create. rewrite (proj2 (Z.ltb_ge _ _)) by lia. cbn. lia.
  - unfold xdrmem_getpos. cbn. by rewrite Hl.
  - unfold xdrmem_getpos. cbn. by rewrite Hl.
Qed.


(** ** Instances *)

Definition alloc : Z -> bool := fun _ => true.

(** An array of at most ten structures of a string and an optional 64-bit number. *)
Definition sample_fmt (osi_alloc : Z -> bool) : format (option (list (option (list Z) * option Z)) * Z) :=
  array_fmt osi_alloc
    (pair_fmt (string_fmt osi_alloc 5) (pointer_fmt osi_alloc (hyper_fmt (@xdr_uint64) is_u64) 8))
    LIMIT 16 10.
Definition sample : option (list (option (list Z) * option Z)) * Z :=
  (Some [(Some [65; 66; 0], Some 5000000000); (Some [0], None)], 2).

Lemma sample_type osi_alloc : xdr_type osi_alloc (sample_fmt osi_alloc).
Proof.
  apply xt_array; [apply xt_struct|lia|mlia].
  - apply xt_string. mlia.
  - apply xt_pointer; [apply xt_uint64|mlia].
Qed.
Lemma sample_ok osi_alloc : f_ok (sample_fmt osi_alloc) sample.
Proof.
  cbn [sample_fmt array_fmt f_ok]. unfold array_out. cbn [sample fst snd]. split; [done|].
  split; [by vm_compute|]. apply Forall_cons. split; [split|apply Forall_singleton; split];
    cbn [fst snd pair_fmt f_ok string_fmt pointer_fmt on_some hyper_fmt]; [| unfold is_u64; lia| |done].
  - exists [65; 66]. split; [done|]. split; [by repeat constructor|by vm_compute].
  - exists []. split; [done|]. split; [constructor|by vm_compute].
Qed.

Lemma xdr_encode_wire_witness :
  f_proc (sample_fmt alloc) XDR_ENCODE sample (xdrmem_create (repeat 7 40) 40)
  = (true, sample, wr (xdrmem_create (repeat 7 40) 40)
      [0; 0; 0; 2; 0; 0; 0; 2; 65; 66; 0; 0; 0; 0; 0; 1; 0; 0; 0; 1; 42; 5; 242; 0; 0; 0; 0; 0; 0; 0; 0; 0]).
Proof.
  apply (xdr_encode_wire alloc _ (sample_fmt alloc) sample (xdrmem_create (repeat 7 40) 40)).
  - apply sample_type.
  - apply sample_ok.
  - apply (create_wf (repeat 7 40)). by vm_compute.
  - by vm_compute.
Defined.

Lemma xdr_roundtrip_witness :
  exists x1 x2, f_proc (sample_fmt alloc) XDR_ENCODE sample (xdrmem_create (repeat 7 32) 32) = (true, sample, x1) /\
    x_base x1 = f_wire (sample_fmt alloc) sample /\
    f_proc (sample_fmt alloc) XDR_DECODE (None, 0) (xdrmem_create (x_base x1) 32) = (true, sample, x2) /\
    xdrmem_getpos x1 = 32 /\ xdrmem_getpos x2 = 32.
Proof.
  apply (xdr_roundtrip alloc _ (sample_fmt alloc) sample (None, 0) (repeat 7 32)).
  - apply sample_type.
  - by intros n _.
  - apply sample_ok.
  - done.
  - by vm_compute.
  - by vm_compute.
  - by vm_compute.
Defined.


(** A union of a number and nothing, with no default. *)
Definition union_sample : format (Z * Z) :=
  union_fmt [(1, scalar_fmt (@xdr_int) is_s32);
             (2, Format (fun X S => xdr_void) (fun _ => True) (fun _ => True) (fun _ => True)
                   (fun _ => True) 0 (fun _ => []))] None 0.
Example union_arm_one :
  f_proc union_sample XDR_DECODE (0, 0) (xdrmem_create [0; 0; 0; 1; 255; 255; 255; 255] 8)
  = (true, (1, -1), mkMem [0; 0; 0; 1; 255; 255; 255; 255] 8 0).
Proof. by vm_compute. Qed.
Example union_no_arm :
  f_proc union_sample XDR_DECODE (0, 0) (xdrmem_create [0; 0; 0; 3; 255; 255; 255; 255] 8)
  = (false, (3, 0), mkMem [0; 0; 0; 3; 255; 255; 255; 255] 4 4).
Proof. by vm_compute. Qed.

(** Freeing a string longer than the maximum fails and frees nothing, while
    [xdr_bytes] and [xdr_array] do not look at the size when they free. *)
Example string_free_too_long :
  xdr_string alloc 3 XDR_FREE (Some [97; 98; 99; 100; 0]) xdrlen_create
  = (false, Some [97; 98; 99; 100; 0], xdrlen_create) /\
  xdr_bytes alloc 3 XDR_FREE (Some [97; 98; 99; 100], 4) xdrlen_create
  = (true, (None, 4), xdrlen_create).
Proof. by vm_compute. Qed.
