(* ===== verification/CbTab.v ===== *)
(** * Call-backs: the tables of the file server (viced/callback.c, callback.h)

    A file server promises a cache manager to call back when a file changes.  The
    promises are kept in two arrays, FE (files) and CB (call-backs), whose entries are
    linked by index: hash chains of files, the call-backs of a file, circular lists of
    the call-backs that time out together and of those of a host, and free lists that
    overlay the entries.  This file has the tables and the operations on single
    entries; [Callback] has the handlers.

    The code runs under the lock H_LOCK and gives it up in the middle of handlers: for
    remote calls and to wait for a host's lock.  A computation therefore runs in a
    [world] that holds, beside the tables, what other threads do to them each time the
    lock is given up ([others]), and the outcomes of remote calls and of tests of other
    locks ([answers], [order]).  [Panic] is an access through a null pointer or outside
    an array, a failed assertion or a deliberate shut-down.  Loops without a bound of
    their own take fuel; [NoFuel] says that it was not enough.  The statistics of
    [cbstuff] other than [nFEs], [nCBs] and [nblks] are left out, as are log messages.
    Pointers have 64 bits, and the word at the lower address is the less significant. *)

From stdpp Require Import prelude list gmap.
From Stdlib Require Import ZArith Lia ZifyBool.
From S2P Require Import Prelude.

#[local] Open Scope Z_scope.

(** ** Data *)

Definition FE_LATER := 1.

Record FileEntry := mkFE {
  vnode : Z;
  unique : Z;
  volid : Z;
  fnext : Z;
  ncbs : Z;
  firstcb : Z;
  fe_status : Z
}.

Definition CB_NORMAL := 1.
Definition CB_DELAYED := 2.
Definition CB_VOLUME := 3.
Definition CB_BULK := 4.

Definition CBFLAG_BREAKING := 1.

Record CallBack := mkCB {
  cnext : Z;
  fhead : Z;
  thead : Z;
  cb_status : Z;
  cb_flags : Z;
  hhead : Z;
  tprev : Z;
  tnext : Z;
  hprev : Z;
  hnext : Z
}.

(** Of a host, what the call-back code looks at. *)
Record host := mkHost {
  cblist : Z;
  hostFlags : Z;
  refCount : Z;
  ActiveCall : Z;
  interface : bool
}.

Definition ALTADDR := 4.
Definition VENUSDOWN := 8.
Definition HOSTDELETED := 16.
Definition CLIENTDELETED := 32.
Definition RESETDONE := 64.
Definition HFE_LATER := 128.
Definition HWHO_INPROGRESS := 512.
Definition HCBREAK := 1024.

Definition FEHASH_SIZE := 512.
Definition FEHash (volume unique : Z) : Z := Z.land (u32 (volume + unique)) (FEHASH_SIZE - 1).
Definition CB_NUM_TIMEOUT_QUEUES := 128.

(** Volume, vnode, uniquifier. *)
Definition AFSFid : Type := Z * Z * Z.

(** The tables.  [FE] and [CB] are used from index 1 on; [FE_base] and [CB_base] are the
    addresses of their elements 0; [FEfree] and [CBfree] are pointers. *)
Record cbs := mkCbs {
  FE : Z -> FileEntry;
  CB : Z -> CallBack;
  FE_base : Z;
  CB_base : Z;
  FEfree : Z;
  CBfree : Z;
  HashTable : Z -> Z;
  timeout : Z -> Z;
  tfirst : Z;
  nFEs : Z;
  nCBs : Z;
  nblks : Z;
  hosts : gmap Z host;
  hostList : list Z;
  clock : Z
}.

Inductive msg :=
| RXAFSCB_CallBack (h : Z) (fids : list AFSFid)
| RXAFSCB_InitCallBackState (h : Z)
| RXAFSCB_InitCallBackState3 (h : Z).

(** Other threads: what they do the next time they run, and the times behind it; both
    depend on the tables they find. *)
Inductive env :=
| Quiet
| Step (run : cbs -> cbs) (rest : cbs -> env).

Record world := mkWorld {
  st : cbs;
  others : env;
  answers : list bool;
  order : list nat;
  sent : list msg
}.

(** ** Computations *)

Inductive res (A : Type) :=
| Done (a : A) (w : world)
| Panic
| NoFuel.
Arguments Done {A}.
Arguments Panic {A}.
Arguments NoFuel {A}.

Definition M (A : Type) : Type := world -> res A.

Definition ret {A} (a : A) : M A := fun w => Done a w.
Definition panic {A} : M A := fun _ => Panic.
Definition nofuel {A} : M A := fun _ => NoFuel.
Definition bind {A B} (x : M A) (k : A -> M B) : M B := fun w =>
  match x w with
  | Done a w' => k a w'
  | Panic => Panic
  | NoFuel => NoFuel
  end.
Definition get {A} (f : cbs -> A) : M A := fun w => Done (f (st w)) w.
Definition set_st (s : cbs) (w : world) : world := mkWorld s (others w) (answers w) (order w) (sent w).
Definition modify (f : cbs -> cbs) : M unit := fun w => Done tt (set_st (f (st w)) w).

Declare Scope cb_scope.
Delimit Scope cb_scope with cbm.
Notation "'do' x <- e ; k" := (bind e (fun x => k))
  (at level 10, x name, e at level 100, k at level 200) : cb_scope.
Notation "e ;; k" := (bind e (fun _ => k))
  (at level 100, k at level 200, right associativity) : cb_scope.
#[local] Open Scope cb_scope.

Definition when (b : bool) (m : M unit) : M unit := if b then m else ret tt.

(** H_UNLOCK ... H_LOCK: other threads run. *)
Definition unlocked : M unit := fun w =>
  match others w with
  | Quiet => Done tt w
  | Step run rest => Done tt (mkWorld (run (st w)) (rest (st w)) (answers w) (order w) (sent w))
  end.

(** An outcome that the tables do not determine; [true] is failure. *)
Definition answer : M bool := fun w =>
  match answers w with
  | [] => Done false w
  | b :: bs => Done b (mkWorld (st w) (others w) bs (order w) (sent w))
  end.

Definition send (m : msg) : M unit := fun w =>
  Done tt (mkWorld (st w) (others w) (answers w) (order w) (sent w ++ [m])).

(** time(NULL). *)
Definition time : M Z := get clock.

(** ** Access to the tables *)

Definition set_FE (i : Z) (f : FileEntry) (s : cbs) : cbs :=
  mkCbs (fun x => if x =? i then f else FE s x) (CB s) (FE_base s) (CB_base s) (FEfree s) (CBfree s)
    (HashTable s) (timeout s) (tfirst s) (nFEs s) (nCBs s) (nblks s) (hosts s) (hostList s) (clock s).
Definition set_CB (i : Z) (c : CallBack) (s : cbs) : cbs :=
  mkCbs (FE s) (fun x => if x =? i then c else CB s x) (FE_base s) (CB_base s) (FEfree s) (CBfree s)
    (HashTable s) (timeout s) (tfirst s) (nFEs s) (nCBs s) (nblks s) (hosts s) (hostList s) (clock s).
Definition set_FEfree (p n : Z) (s : cbs) : cbs :=
  mkCbs (FE s) (CB s) (FE_base s) (CB_base s) p (CBfree s)
    (HashTable s) (timeout s) (tfirst s) n (nCBs s) (nblks s) (hosts s) (hostList s) (clock s).
Definition set_CBfree (p n : Z) (s : cbs) : cbs :=
  mkCbs (FE s) (CB s) (FE_base s) (CB_base s) (FEfree s) p
    (HashTable s) (timeout s) (tfirst s) (nFEs s) n (nblks s) (hosts s) (hostList s) (clock s).
Definition set_hash (b v : Z) (s : cbs) : cbs :=
  mkCbs (FE s) (CB s) (FE_base s) (CB_base s) (FEfree s) (CBfree s)
    (fun x => if x =? b then v else HashTable s x) (timeout s) (tfirst s) (nFEs s) (nCBs s) (nblks s)
    (hosts s) (hostList s) (clock s).
Definition set_timeout (q v : Z) (s : cbs) : cbs :=
  mkCbs (FE s) (CB s) (FE_base s) (CB_base s) (FEfree s) (CBfree s)
    (HashTable s) (fun x => if x =? q then v else timeout s x) (tfirst s) (nFEs s) (nCBs s) (nblks s)
    (hosts s) (hostList s) (clock s).
Definition set_tfirst (t : Z) (s : cbs) : cbs :=
  mkCbs (FE s) (CB s) (FE_base s) (CB_base s) (FEfree s) (CBfree s)
    (HashTable s) (timeout s) t (nFEs s) (nCBs s) (nblks s) (hosts s) (hostList s) (clock s).
Definition set_host (h : Z) (v : host) (s : cbs) : cbs :=
  mkCbs (FE s) (CB s) (FE_base s) (CB_base s) (FEfree s) (CBfree s)
    (HashTable s) (timeout s) (tfirst s) (nFEs s) (nCBs s) (nblks s) (<[h := v]> (hosts s)) (hostList s) (clock s).
Definition set_hostList (l : list Z) (s : cbs) : cbs :=
  mkCbs (FE s) (CB s) (FE_base s) (CB_base s) (FEfree s) (CBfree s)
    (HashTable s) (timeout s) (tfirst s) (nFEs s) (nCBs s) (nblks s) (hosts s) l (clock s).

Definition in_table (s : cbs) (i : Z) : bool := (1 <=? i) && (i <=? nblks s).

(** [itofe(i)->...] and [itocb(i)->...]. *)
Definition fe_at (i : Z) : M FileEntry := fun w =>
  if in_table (st w) i then Done (FE (st w) i) w else Panic.
Definition cb_at (i : Z) : M CallBack := fun w =>
  if in_table (st w) i then Done (CB (st w) i) w else Panic.
Definition fe_put (i : Z) (f : FileEntry -> FileEntry) : M unit := fun w =>
  if in_table (st w) i then Done tt (set_st (set_FE i (f (FE (st w) i)) (st w)) w) else Panic.
Definition cb_put (i : Z) (f : CallBack -> CallBack) : M unit := fun w =>
  if in_table (st w) i then Done tt (set_st (set_CB i (f (CB (st w) i)) (st w)) w) else Panic.

(** [h_itoh(i)->z]. *)
Definition host_at (h : Z) : M host := fun w =>
  match hosts (st w) !! h with
  | Some v => Done v w
  | None => Panic
  end.
Definition host_put (h : Z) (f : host -> host) : M unit := fun w =>
  match hosts (st w) !! h with
  | Some v => Done tt (set_st (set_host h (f v) (st w)) w)
  | None => Panic
  end.

(** [*itot(q)]. *)
Definition timeout_at (q : Z) : M Z := fun w =>
  if (1 <=? q) && (q <=? CB_NUM_TIMEOUT_QUEUES) then Done (timeout (st w) q) w else Panic.
Definition timeout_put (q v : Z) : M unit := fun w =>
  if (1 <=? q) && (q <=? CB_NUM_TIMEOUT_QUEUES) then Done tt (set_st (set_timeout q v (st w)) w) else Panic.

(** Assignments to fields. *)
Definition with_cnext (v : Z) (c : CallBack) : CallBack :=
  mkCB v (fhead c) (thead c) (cb_status c) (cb_flags c) (hhead c) (tprev c) (tnext c) (hprev c) (hnext c).
Definition with_fhead (v : Z) (c : CallBack) : CallBack :=
  mkCB (cnext c) v (thead c) (cb_status c) (cb_flags c) (hhead c) (tprev c) (tnext c) (hprev c) (hnext c).
Definition with_thead (v : Z) (c : CallBack) : CallBack :=
  mkCB (cnext c) (fhead c) v (cb_status c) (cb_flags c) (hhead c) (tprev c) (tnext c) (hprev c) (hnext c).
Definition with_status (v : Z) (c : CallBack) : CallBack :=
  mkCB (cnext c) (fhead c) (thead c) v (cb_flags c) (hhead c) (tprev c) (tnext c) (hprev c) (hnext c).
Definition with_flags (v : Z) (c : CallBack) : CallBack :=
  mkCB (cnext c) (fhead c) (thead c) (cb_status c) v (hhead c) (tprev c) (tnext c) (hprev c) (hnext c).
Definition with_hhead (v : Z) (c : CallBack) : CallBack :=
  mkCB (cnext c) (fhead c) (thead c) (cb_status c) (cb_flags c) v (tprev c) (tnext c) (hprev c) (hnext c).
Definition with_tprev (v : Z) (c : CallBack) : CallBack :=
  mkCB (cnext c) (fhead c) (thead c) (cb_status c) (cb_flags c) (hhead c) v (tnext c) (hprev c) (hnext c).
Definition with_tnext (v : Z) (c : CallBack) : CallBack :=
  mkCB (cnext c) (fhead c) (thead c) (cb_status c) (cb_flags c) (hhead c) (tprev c) v (hprev c) (hnext c).
Definition with_hprev (v : Z) (c : CallBack) : CallBack :=
  mkCB (cnext c) (fhead c) (thead c) (cb_status c) (cb_flags c) (hhead c) (tprev c) (tnext c) v (hnext c).
Definition with_hnext (v : Z) (c : CallBack) : CallBack :=
  mkCB (cnext c) (fhead c) (thead c) (cb_status c) (cb_flags c) (hhead c) (tprev c) (tnext c) (hprev c) v.
Definition with_fnext (v : Z) (f : FileEntry) : FileEntry :=
  mkFE (vnode f) (unique f) (volid f) v (ncbs f) (firstcb f) (fe_status f).
Definition with_ncbs (v : Z) (f : FileEntry) : FileEntry :=
  mkFE (vnode f) (unique f) (volid f) (fnext f) v (firstcb f) (fe_status f).
Definition with_firstcb (v : Z) (f : FileEntry) : FileEntry :=
  mkFE (vnode f) (unique f) (volid f) (fnext f) (ncbs f) v (fe_status f).
Definition with_fe_status (v : Z) (f : FileEntry) : FileEntry :=
  mkFE (vnode f) (unique f) (volid f) (fnext f) (ncbs f) (firstcb f) v.
Definition with_cblist (v : Z) (h : host) : host :=
  mkHost v (hostFlags h) (refCount h) (ActiveCall h) (interface h).
Definition with_hostFlags (v : Z) (h : host) : host :=
  mkHost (cblist h) v (refCount h) (ActiveCall h) (interface h).
Definition with_refCount (v : Z) (h : host) : host :=
  mkHost (cblist h) (hostFlags h) v (ActiveCall h) (interface h).

(** ** Free lists *)

(** The pointers to the entries, and back. *)
Definition sizeof_entry := 32.
Definition fe_ptr (s : cbs) (i : Z) : Z := if i =? 0 then 0 else FE_base s + sizeof_entry * i.
Definition fetoi (s : cbs) (p : Z) : Z := if p =? 0 then 0 else (p - FE_base s) / sizeof_entry.
Definition cb_ptr (s : cbs) (i : Z) : Z := if i =? 0 then 0 else CB_base s + sizeof_entry * i.
Definition cbtoi (s : cbs) (p : Z) : Z := if p =? 0 then 0 else (p - CB_base s) / sizeof_entry.

(** [struct object] lies over the first two words of an entry. *)
Definition fe_object_next (f : FileEntry) : Z := vnode f + 2 ^ 32 * unique f.
Definition fe_set_object_next (p : Z) (f : FileEntry) : FileEntry :=
  mkFE (p mod 2 ^ 32) (p / 2 ^ 32) (volid f) (fnext f) (ncbs f) (firstcb f) (fe_status f).
Definition cb_object_next (c : CallBack) : Z := cnext c + 2 ^ 32 * fhead c.
Definition cb_set_object_next (p : Z) (c : CallBack) : CallBack :=
  mkCB (p mod 2 ^ 32) (p / 2 ^ 32) (thead c) (cb_status c) (cb_flags c) (hhead c) (tprev c) (tnext c) (hprev c) (hnext c).

Definition iGetCB : M Z :=
  do s <- get (fun s => s);
  let r := CBfree s in
  if r =? 0 then ret 0
  else
    do c <- cb_at (cbtoi s r);
    modify (fun s => set_CBfree (cb_object_next c) (nCBs s + 1) s) ;;
    ret (cbtoi s r).

Definition iFreeCB (cb : Z) : M unit :=
  do s <- get (fun s => s);
  cb_put cb (cb_set_object_next (CBfree s)) ;;
  modify (fun s => set_CBfree (cb_ptr s cb) (nCBs s - 1) s).

Definition iGetFE : M Z :=
  do s <- get (fun s => s);
  let r := FEfree s in
  if r =? 0 then ret 0
  else
    do f <- fe_at (fetoi s r);
    modify (fun s => set_FEfree (fe_object_next f) (nFEs s + 1) s) ;;
    ret (fetoi s r).

Definition iFreeFE (fe : Z) : M unit :=
  do s <- get (fun s => s);
  fe_put fe (fe_set_object_next (FEfree s)) ;;
  modify (fun s => set_FEfree (fe_ptr s fe) (nFEs s - 1) s).

(** ** Looking for a file *)

Definition same_fid (f : FileEntry) (fid : AFSFid) : bool :=
  let '(vol, vn, un) := fid in (volid f =? vol) && (unique f =? un) && (vnode f =? vn).
Definition is_later (f : FileEntry) : bool := Z.land (fe_status f) FE_LATER =? FE_LATER.

Fixpoint find_fe (fuel : nat) (fei : Z) (fid : AFSFid) : M Z :=
  if fei =? 0 then ret 0
  else match fuel with
  | O => nofuel
  | S fuel =>
      do fe <- fe_at fei;
      if same_fid fe fid && negb (is_later fe) then ret fei
      else find_fe fuel (fnext fe) fid
  end.

(** Fuel for loops over chains of entries. *)
Definition table_size : M nat := get (fun s => Z.to_nat (nblks s)).

Definition FindFE (fid : AFSFid) : M Z :=
  do n <- table_size;
  do fei <- get (fun s => HashTable s (FEHash (fst (fst fid)) (snd fid)));
  find_fe n fei fid.

(** ** Timeout queues *)

(** Add the call-back to the end of the queue [q]. *)
Definition TAdd (cb q : Z) : M unit :=
  do t <- timeout_at q;
  (if t =? 0 then
     cb_put cb (with_tprev cb) ;; cb_put cb (with_tnext cb) ;; timeout_put q cb
   else
     do thp <- cb_at t;
     cb_put cb (with_tprev (tprev thp)) ;;
     cb_put cb (with_tnext t) ;;
     do thp <- cb_at t;
     if negb (tprev thp =? 0) then
       cb_put (tprev thp) (with_tnext cb) ;; cb_put t (with_tprev cb)
     else cb_put t (with_tprev cb)) ;;
  cb_put cb (with_thead (u8 q)).

Definition TDel (cb : Z) : M unit :=
  do c <- cb_at cb;
  do t <- timeout_at (thead c);
  when (t =? cb) (timeout_put (thead c) (if t =? tnext c then 0 else tnext c)) ;;
  when (negb (tprev c =? 0)) (cb_put (tprev c) (with_tnext (tnext c))) ;;
  do c <- cb_at cb;
  when (negb (tnext c =? 0)) (cb_put (tnext c) (with_tprev (tprev c))).

(** ** The lists of the hosts *)

Definition HAdd (cb h : Z) : M unit :=
  cb_put cb (with_hhead h) ;;
  do v <- host_at h;
  if cblist v =? 0 then
    cb_put cb (with_hprev cb) ;; cb_put cb (with_hnext cb) ;; host_put h (with_cblist cb)
  else
    do fcb <- cb_at (cblist v);
    cb_put cb (with_hprev (hprev fcb)) ;;
    cb_put cb (with_hnext (cblist v)) ;;
    do fcb <- cb_at (cblist v);
    cb_put (hprev fcb) (with_hnext cb) ;;
    cb_put (cblist v) (with_hprev cb).

Definition HDel (cb : Z) : M unit :=
  do c <- cb_at cb;
  do v <- host_at (hhead c);
  when (cblist v =? cb) (host_put (hhead c) (with_cblist (if cblist v =? hnext c then 0 else hnext c))) ;;
  cb_put (hprev c) (with_hnext (hnext c)) ;;
  do c <- cb_at cb;
  cb_put (hnext c) (with_hprev (hprev c)).

(** ** The hash chains *)

(** Where an index of a file entry is stored. *)
Inductive fe_loc :=
| Bucket (b : Z)
| Fnext (fe : Z).

Definition fe_loc_get (p : fe_loc) : M Z :=
  match p with
  | Bucket b => get (fun s => HashTable s b)
  | Fnext fe => do f <- fe_at fe; ret (fnext f)
  end.
Definition fe_loc_put (p : fe_loc) (v : Z) : M unit :=
  match p with
  | Bucket b => modify (set_hash b v)
  | Fnext fe => fe_put fe (with_fnext v)
  end.

Fixpoint find_fe_loc (fuel : nat) (fei : Z) (p : fe_loc) : M fe_loc :=
  do v <- fe_loc_get p;
  if (v =? 0) || (v =? fei) then ret p
  else match fuel with
  | O => nofuel
  | S fuel => find_fe_loc fuel fei (Fnext v)
  end.

Definition FDel (fe : Z) : M unit :=
  do n <- table_size;
  do f <- fe_at fe;
  do p <- find_fe_loc n fe (Bucket (FEHash (volid f) (unique f)));
  do v <- fe_loc_get p;
  if v =? 0 then panic
  else
    do f <- fe_at fe;
    fe_loc_put p (fnext f) ;;
    iFreeFE fe.

(** ** The call-backs of a file *)

(** Where an index of a call-back is stored. *)
Inductive cb_loc :=
| Firstcb (fe : Z)
| Cnext (cb : Z).

Definition cb_loc_get (p : cb_loc) : M Z :=
  match p with
  | Firstcb fe => do f <- fe_at fe; ret (firstcb f)
  | Cnext cb => do c <- cb_at cb; ret (cnext c)
  end.
Definition cb_loc_put (p : cb_loc) (v : Z) : M unit :=
  match p with
  | Firstcb fe => fe_put fe (with_firstcb v)
  | Cnext cb => cb_put cb (with_cnext v)
  end.

Definition CDelPtr (fe : Z) (cbp : cb_loc) (deletefe : bool) : M unit :=
  do v <- cb_loc_get cbp;
  if v =? 0 then ret tt
  else
    do c <- cb_at v;
    cb_loc_put cbp (cnext c) ;;
    iFreeCB v ;;
    fe_put fe (fun f => with_ncbs (u32 (ncbs f - 1)) f) ;;
    do f <- fe_at fe;
    when ((ncbs f =? 0) && deletefe) (FDel fe).

(** The loop of [CDel]; [n] is what is left until the safety counter ends it. *)
Fixpoint cdel_loop (n : nat) (cbi : Z) (cbp : cb_loc) : M cb_loc :=
  do v <- cb_loc_get cbp;
  if (v =? 0) || (v =? cbi) then ret cbp
  else match n with
  | O => panic
  | S n => cdel_loop n cbi (Cnext v)
  end.

Definition CDel (cb : Z) (deletefe : bool) : M unit :=
  do n <- get (fun s => Z.to_nat (nblks s + 11));
  do c <- cb_at cb;
  do cbp <- cdel_loop n cb (Firstcb (fhead c));
  CDelPtr (fhead c) cbp deletefe.

Fixpoint find_cb_loop (n : nat) (h : Z) (cbp : cb_loc) : M cb_loc :=
  do v <- cb_loc_get cbp;
  if v =? 0 then ret cbp
  else match n with
  | O => panic
  | S n =>
      do c <- cb_at v;
      if hhead c =? h then ret cbp else find_cb_loop n h (Cnext v)
  end.

Definition FindCBPtr (fe h : Z) : M cb_loc :=
  do n <- get (fun s => Z.to_nat (nblks s + 1));
  find_cb_loop n h (Firstcb fe).
