(* ===== verification/Callback.v ===== *)
(** * Call-backs: the handlers of viced/callback.c

    Every function that changes the tables or sends call-back messages, with the parts
    of the host package (viced/host.c, host.h) that it calls: reference counts,
    enumeration of hosts, and the removal of a host that nobody holds.  A host is named
    by its index; indices start at 0, and a missing host is [None].  A timeout queue is
    named by its index from 1 to 128.  State dumps, the multi-homed probes and
    statistics are not part of the model. *)

From stdpp Require Import prelude list gmap sorting.
From Stdlib Require Import ZArith Lia ZifyBool.
From S2P Require Import Prelude CbTab.

#[local] Open Scope Z_scope.
#[local] Open Scope cb_scope.

(** ** Times *)

Definition CBtime (uxtime : Z) : Z := Z.shiftr uxtime 7.
Definition UXtime (cbtime : Z) : Z := Z.shiftl cbtime 7.
Definition TimeCeiling (uxtime : Z) : Z := Z.land (uxtime + 127) (Z.lnot 127).

Definition TimeOuts : list Z :=
  [4 * 60 * 60; 1 * 60 * 60; 30 * 60; 15 * 60; 15 * 60; 10 * 60; 10 * 60; 10 * 60].
Definition MinTimeOut := 7 * 60.
Definition TimeOutCutoff := 8 * 8.
Definition TimeOut (nusers : Z) : Z :=
  if TimeOutCutoff <=? nusers then MinTimeOut else nth (Z.to_nat (Z.shiftr nusers 3)) TimeOuts 0.
Definition ServerBias := 3 * 60.

Definition TIndex (cbtime : Z) : Z := Z.land cbtime 127 + 1.
Definition TNorm (tfirst index : Z) : Z := if index <? TIndex tfirst then index + 128 else index.

(** ** Initialisation *)

Fixpoint free_fes (n : nat) : M unit :=
  match n with
  | O => ret tt
  | S n' => iFreeFE (Z.of_nat n) ;; free_fes n'
  end.
Fixpoint free_cbs (n : nat) : M unit :=
  match n with
  | O => ret tt
  | S n' => iFreeCB (Z.of_nat n) ;; free_cbs n'
  end.

Definition no_FE : FileEntry := mkFE 0 0 0 0 0 0 0.
Definition no_CB : CallBack := mkCB 0 0 0 0 0 0 0 0 0 0.

(** [feaddr] and [cbaddr] are what calloc returns. *)
Definition InitCallBack (n feaddr cbaddr : Z) : M unit :=
  if negb (0 <? n) then panic
  else
    do now <- time;
    if feaddr =? 0 then panic
    else if cbaddr =? 0 then panic
    else
      modify (fun s => mkCbs (fun _ => no_FE) (fun _ => no_CB)
        (feaddr - sizeof_entry) (cbaddr - sizeof_entry) (FEfree s) (CBfree s) (HashTable s) (timeout s)
        (s32 (CBtime now)) n n n (hosts s) (hostList s) (clock s)) ;;
      free_fes (Z.to_nat n) ;;
      free_cbs (Z.to_nat n).

(** ** Timed-out call-backs *)

(** The call-backs of one queue, from [cbi] until the head of the queue is met again;
    [n] counts down to the panic. *)
Fixpoint cleanup_queue (n : nat) (q cbi : Z) : M nat :=
  do c <- cb_at cbi;
  HDel cbi ;;
  CDel cbi true ;;
  match n with
  | O => panic
  | S n =>
      do t <- timeout_at q;
      if tnext c =? t then ret n else cleanup_queue n q (tnext c)
  end.

(** The queues from [tfirst] to [now]; [k] is their number and [n] what is left of the
    safety counter. *)
Fixpoint cleanup_queues (k n : nat) : M nat :=
  match k with
  | O => ret n
  | S k =>
      do tf <- get tfirst;
      do cbi <- timeout_at (TIndex tf);
      do n <- (if cbi =? 0 then ret n
               else do n <- cleanup_queue n (TIndex tf) cbi;
                    timeout_put (TIndex tf) 0 ;; ret n);
      modify (fun s => set_tfirst (tfirst s + 1) s) ;;
      cleanup_queues k n
  end.

(** Was there any?  The code compares [tfirst] as an unsigned number; it is not negative. *)
Definition CleanupTimedOutCallBacks_r : M bool :=
  do uxnow <- time;
  do tf <- get tfirst;
  do n <- get (fun s => Z.to_nat (nblks s));
  do n' <- cleanup_queues (Z.to_nat (u32 (CBtime uxnow) - tf + 1)) n;
  ret (negb (Nat.eqb n n')).

(** ** Deleting call-backs without breaking them *)

Definition has (flags bit : Z) : bool := negb (Z.land flags bit =? 0).
Definition set_flag (bit : Z) (v : host) : host := with_hostFlags (Z.lor (hostFlags v) bit) v.
Definition clear_flag (bit : Z) (v : host) : host := with_hostFlags (Z.land (hostFlags v) (Z.lnot bit)) v.

(** h_Lock_r gives up H_LOCK while it waits. *)
Definition h_Lock_r (h : Z) : M unit := unlocked.
(** [true] when the lock is busy. *)
Definition h_NBLock_r (h : Z) : M bool := unlocked ;; answer.

Definition DeleteCallBack (h : Z) (fid : AFSFid) : M unit :=
  h_Lock_r h ;;
  do fe <- FindFE fid;
  if fe =? 0 then ret tt
  else
    do pcb <- FindCBPtr fe h;
    do v <- cb_loc_get pcb;
    if v =? 0 then ret tt
    else HDel v ;; TDel v ;; CDelPtr fe pcb true.

Fixpoint delete_file_cbs (fuel : nat) (fe cbi : Z) : M unit :=
  if cbi =? 0 then ret tt
  else match fuel with
  | O => nofuel
  | S fuel =>
      do c <- cb_at cbi;
      TDel cbi ;;
      HDel cbi ;;
      iFreeCB cbi ;;
      fe_put fe (fun f => with_ncbs (u32 (ncbs f - 1)) f) ;;
      delete_file_cbs fuel fe (cnext c)
  end.

Definition DeleteFileCallBacks (fid : AFSFid) : M unit :=
  do fe <- FindFE fid;
  if fe =? 0 then ret tt
  else
    do n <- table_size;
    do f <- fe_at fe;
    delete_file_cbs n fe (firstcb f) ;;
    FDel fe.

Fixpoint delete_host_cbs (fuel : nat) (first cbi : Z) (deletefe : bool) : M unit :=
  match fuel with
  | O => nofuel
  | S fuel =>
      do c <- cb_at cbi;
      TDel cbi ;;
      CDel cbi deletefe ;;
      if hnext c =? first then ret tt else delete_host_cbs fuel first (hnext c) deletefe
  end.

Definition DeleteAllCallBacks_r (h : Z) (deletefe : bool) : M unit :=
  do v <- host_at h;
  if cblist v =? 0 then ret tt
  else
    do n <- table_size;
    delete_host_cbs n (cblist v) (cblist v) deletefe ;;
    host_put h (with_cblist 0).

(** ** References to hosts *)

Definition h_Hold_r (h : Z) : M unit := host_put h (fun v => with_refCount (u32 (refCount v + 1)) v).
Definition h_Decrement_r (h : Z) : M unit := host_put h (fun v => with_refCount (u32 (refCount v - 1)) v).

(** Toss what nobody holds.  The clients of the host are not part of the model: whether
    one of them is in use is an [answer].  A host that goes leaves the list of hosts. *)
Definition h_TossStuff_r (h : Z) : M unit :=
  h_Hold_r h ;;
  do busy <- h_NBLock_r h;
  h_Decrement_r h ;;
  if busy then ret tt
  else
    do v <- host_at h;
    if 0 <? refCount v then ret tt
    else
      do client_in_use <- answer;
      if client_in_use then ret tt
      else
        host_put h (clear_flag CLIENTDELETED) ;;
        do v <- host_at h;
        if has (hostFlags v) HOSTDELETED then
          DeleteAllCallBacks_r h true ;;
          host_put h (clear_flag RESETDONE) ;;
          modify (fun s => set_hostList (filter (fun x => x <> h) (hostList s)) s)
        else ret tt.

Definition h_Release_r (h : Z) : M unit :=
  h_Decrement_r h ;;
  do v <- host_at h;
  when ((refCount v <? 1) && (has (hostFlags v) HOSTDELETED || has (hostFlags v) CLIENTDELETED))
    (h_TossStuff_r h).

(** The hosts behind [h] in the list. *)
Fixpoint after (h : Z) (l : list Z) : list Z :=
  match l with
  | [] => []
  | x :: l => if x =? h then l else after h l
  end.

(** The first host of a list that is not deleted, and how many were skipped. *)
Fixpoint first_alive (l : list Z) : M (option Z * nat) :=
  match l with
  | [] => ret (None, O)
  | h :: l =>
      do v <- host_at h;
      if has (hostFlags v) HOSTDELETED
      then do r <- first_alive l; ret (fst r, S (snd r))
      else ret (Some h, O)
  end.

(** Call [proc] for the hosts from [h] on; each is held meanwhile, and the next one as
    well.  [left] is the number of hosts that are still allowed.  The procedures of
    callback.c never ask to stop. *)
Fixpoint enumerate_from {A} (left : nat) (proc : Z -> A -> M A) (h : Z) (a : A) : M A :=
  match left with
  | O => panic
  | S left' =>
      do l <- get hostList;
      do r <- first_alive (after h l);
      let '(next, skipped) := r in
      if Nat.ltb left skipped then panic
      else
        match next with Some n => h_Hold_r n | None => ret tt end ;;
        do v <- host_at h;
        do a <- (if has (hostFlags v) HOSTDELETED then ret a else proc h a);
        h_Release_r h ;;
        match next with
        | Some n => enumerate_from (left' - skipped) proc n a
        | None => ret a
        end
  end.

Definition h_Enumerate_r {A} (proc : Z -> A -> M A) (a : A) : M A :=
  do l <- get hostList;
  do r <- first_alive l;
  match fst r with
  | None => ret a
  | Some h => h_Hold_r h ;; enumerate_from (length l) proc h a
  end.

(** The same without the lock, on a copy of the list. *)
Fixpoint hold_alive (l : list Z) : M (list Z) :=
  match l with
  | [] => ret []
  | h :: l =>
      do v <- host_at h;
      if has (hostFlags v) HOSTDELETED then hold_alive l
      else h_Hold_r h ;; do r <- hold_alive l; ret (h :: r)
  end.
Fixpoint enumerate_list {A} (proc : Z -> A -> M A) (l : list Z) (a : A) : M A :=
  match l with
  | [] => ret a
  | h :: l =>
      do a <- proc h a;
      unlocked ;;
      h_Release_r h ;;
      unlocked ;;
      enumerate_list proc l a
  end.
Definition h_Enumerate {A} (proc : Z -> A -> M A) (a : A) : M A :=
  do l <- get hostList;
  do l <- hold_alive l;
  unlocked ;;
  enumerate_list proc l a.

(** ** Making room *)

(** 0 for success, [true] for a host that could not be cleared. *)
Definition ClearHostCallbacks_r (h : Z) (locked : bool) : M bool :=
  do v <- host_at h;
  if has (hostFlags v) HOSTDELETED then ret true
  else
    h_Hold_r h ;;
    do busy <- (if locked then ret false else h_NBLock_r h);
    if busy then h_Release_r h ;; ret true
    else
      DeleteAllCallBacks_r h true ;;
      do v <- host_at h;
      (if has (hostFlags v) VENUSDOWN then host_put h (clear_flag RESETDONE)
       else if negb (has (hostFlags v) HOSTDELETED) then
         host_put h (clear_flag ALTADDR) ;;
         host_put h (set_flag HWHO_INPROGRESS) ;;
         send (if interface v then RXAFSCB_InitCallBackState3 h else RXAFSCB_InitCallBackState h) ;;
         unlocked ;;
         do code <- answer;
         host_put h (set_flag ALTADDR) ;;
         host_put h (clear_flag HWHO_INPROGRESS) ;;
         if code then host_put h (set_flag VENUSDOWN) ;; host_put h (clear_flag RESETDONE)
         else host_put h (set_flag RESETDONE)
       else ret tt) ;;
      h_Release_r h ;;
      ret false.

Definition OTHER_MUSTHOLD_LIH := 2.

(** The host to clear next: with call-backs, not deleted, idle for longest, but active
    more recently than the one that was tried last.  [any] also takes hosts that other
    threads hold. *)
Definition lih_r (any : bool) (lastlih : option Z) (h : Z) (lih : option Z) : M (option Z) :=
  do v <- host_at h;
  do older <- match lih with
              | None => ret true
              | Some l => do vl <- host_at l; ret (ActiveCall v <? ActiveCall vl)
              end;
  do newer <- match lastlih with
              | None => ret true
              | Some l => do vl <- host_at l; ret (ActiveCall vl <? ActiveCall v)
              end;
  if negb (cblist v =? 0) && negb (has (hostFlags v) HOSTDELETED)
     && (any || (refCount v <? OTHER_MUSTHOLD_LIH)) && older && newer
  then
    match lih with Some l => h_Release_r l | None => ret tt end ;;
    h_Hold_r h ;;
    ret (Some h)
  else ret lih.
Definition lih0_r := lih_r false.
Definition lih1_r := lih_r true.

Fixpoint find_space (fuel : nat) (h : Z) (i : nat) (lastlih : option Z) : M bool :=
  match fuel with
  | O => nofuel
  | S fuel =>
      do lih <- h_Enumerate_r (match i with O => lih0_r lastlih | _ => lih1_r lastlih end) None;
      match lastlih with Some l => h_Release_r l | None => ret tt end ;;
      match lih with
      | Some hp =>
          do failed <- (if hp =? h then ret true else ClearHostCallbacks_r hp false);
          if failed then find_space fuel h i (Some hp)
          else h_Release_r hp ;; ret true
      | None => if Nat.ltb (S i) 2 then find_space fuel h (S i) None else ret false
      end
  end.

Definition GetSomeSpace_r (fuel : nat) (h : Z) (locked : bool) : M unit :=
  do found <- CleanupTimedOutCallBacks_r;
  if found then ret tt
  else
    do found <- find_space fuel h 0 None;
    if found then ret tt
    else
      when (negb locked) (h_Lock_r h) ;;
      ClearHostCallbacks_r h true ;; ret tt.

(** ** Adding a call-back *)

Fixpoint get_entry (fuel : nat) (alloc : M Z) (h : Z) (locked : bool) : M Z :=
  do i <- alloc;
  if negb (i =? 0) then ret i
  else match fuel with
  | O => nofuel
  | S fuel => GetSomeSpace_r fuel h locked ;; get_entry fuel alloc h locked
  end.

(** When the promise ends, and the queue for it.  [users] is the number of call-backs
    of the file. *)
Definition callback_expiry (type now users : Z) : Z :=
  if type =? CB_NORMAL then u32 (TimeCeiling (now + TimeOut users + ServerBias))
  else if type =? CB_VOLUME then u32 (TimeCeiling (60 * 120 + now + ServerBias))
  else if type =? CB_BULK then u32 (TimeCeiling (now + ServerBias + TimeOut (u32 (22 + users))))
  else 0.
Definition timed_type (type : Z) : bool := (type =? CB_NORMAL) || (type =? CB_VOLUME) || (type =? CB_BULK).

(** The call-back of host [h] on a chain, and the last one before it. *)
Fixpoint add_search (n : nat) (h lastcb cb : Z) : M (Z * Z) :=
  if cb =? 0 then ret (0, lastcb)
  else match n with
  | O => panic
  | S n =>
      do c <- cb_at cb;
      if hhead c =? h then ret (cb, lastcb) else add_search n h cb (cnext c)
  end.

(** Enter [fid] into the hash table with the entry [fe]. *)
Definition new_file (fe : Z) (fid : AFSFid) : M unit :=
  let '(vol, vn, un) := fid in
  let b := FEHash vol un in
  do hd <- get (fun s => HashTable s b);
  fe_put fe (fun _ => mkFE vn un vol hd 0 0 0) ;;
  modify (set_hash b fe).

(** The part of [AddCallBack1_r] behind the allocations: no other thread runs. *)
Definition add_callback (h : Z) (fid : AFSFid) (q type newcb newfe : Z) : M Z :=
  do fe <- FindFE fid;
  do users <- (if fe =? 0 then ret 0 else do f <- fe_at fe; ret (ncbs f));
  do now <- time;
  let time_out := callback_expiry type now users in
  let q := if timed_type type then TIndex (CBtime time_out) else q in
  let made := fe =? 0 in
  (if made then new_file newfe fid else ret tt) ;;
  let fe := if made then newfe else fe in
  do f <- fe_at fe;
  do n <- get (fun s => Z.to_nat (nblks s + 1));
  do r <- add_search n h 0 (firstcb f);
  let '(cb, lastcb) := r in
  (if negb (cb =? 0) then
     do c <- cb_at cb;
     when (negb (cb_status c =? CB_DELAYED)) (cb_put cb (with_status type)) ;;
     do tf <- get tfirst;
     when (TNorm tf (thead c) <? TNorm tf q) (TDel cb ;; TAdd cb q) ;;
     when made (fe_put fe (with_firstcb cb) ;; fe_put fe (fun f => with_ncbs (u32 (ncbs f + 1)) f) ;;
                cb_put cb (with_fhead fe)) ;;
     iFreeCB newcb
   else
     (if lastcb =? 0 then fe_put fe (with_firstcb newcb) else cb_put lastcb (with_cnext newcb)) ;;
     fe_put fe (fun f => with_ncbs (u32 (ncbs f + 1)) f) ;;
     cb_put newcb (with_cnext 0) ;;
     cb_put newcb (with_fhead fe) ;;
     cb_put newcb (with_status type) ;;
     cb_put newcb (with_flags 0) ;;
     HAdd newcb h ;;
     TAdd newcb q) ;;
  when (negb made) (iFreeFE newfe) ;;
  ret (if timed_type type then s32 (time_out - ServerBias) else 0).

Definition AddCallBack1_r (fuel : nat) (h : Z) (fid : AFSFid) (q type : Z) (locked : bool) : M Z :=
  do newcb <- get_entry fuel iGetCB h locked;
  do newfe <- get_entry fuel iGetFE h locked;
  do deleted <- (if locked then ret false
                 else h_Lock_r h ;; do v <- host_at h; ret (has (hostFlags v) HOSTDELETED));
  if deleted then ret 0
  else add_callback h fid q type newcb newfe.

Definition AddCallBack1 (fuel : nat) (h : Z) (fid : AFSFid) (q type : Z) (locked : bool) : M Z :=
  when (negb locked) (h_Lock_r h) ;;
  do v <- host_at h;
  if has (hostFlags v) HOSTDELETED then ret 0 else AddCallBack1_r fuel h fid q type true.

(** ** Breaking call-backs *)

Definition MAX_CB_HOSTS := 1024.
Definition AFSCBMAX := 50.

(** A host to notify, and the queue of its call-back. *)
Definition cbstruct : Type := Z * Z.

Definition CompareCBA (e1 e2 : cbstruct) : Prop := fst e1 <= fst e2.
#[global] Instance CompareCBA_dec e1 e2 : Decision (CompareCBA e1 e2) := decide (fst e1 <= fst e2).

(** The answers arrive in any order: the next one of those outstanding. *)
Definition arrives (l : list cbstruct) : M (option (cbstruct * list cbstruct)) := fun w =>
  match l with
  | [] => Done None w
  | d :: _ =>
      let k := match order w with [] => O | k :: _ => Nat.modulo k (length l) end in
      Done (Some (nth k l d, take k l ++ drop (S k) l))
        (mkWorld (st w) (others w) (answers w) (tail (order w)) (sent w))
  end.

(** The alternate addresses of a host; [true] when there is none but the primary one,
    which is an [answer] as the addresses are not part of the model, or none answers. *)
Definition MultiBreakCallBackAlternateAddress (h : Z) (fid : AFSFid) : M bool :=
  unlocked ;;
  do v <- host_at h;
  if negb (interface v) then ret true
  else
    do alone <- answer;
    if alone then ret true else send (RXAFSCB_CallBack h [fid]) ;; unlocked ;; answer.

Fixpoint multi_rx (fuel n : nat) (l : list cbstruct) (fid : AFSFid) : M unit :=
  match n with
  | O => ret tt
  | S n =>
      do r <- arrives l;
      match r with
      | None => ret tt
      | Some ((hp, idx), l) =>
          do multi_error <- answer;
          (if multi_error && negb (idx =? 0) then
             do down <- MultiBreakCallBackAlternateAddress hp fid;
             when down
               (unlocked ;;
                h_Lock_r hp ;;
                do v <- host_at hp;
                when (negb (has (hostFlags v) HOSTDELETED))
                  (host_put hp (set_flag VENUSDOWN) ;;
                   AddCallBack1_r fuel hp fid idx CB_DELAYED true ;; ret tt) ;;
                unlocked)
           else ret tt) ;;
          multi_rx fuel n l fid
      end
  end.

(** The hosts to call. *)
Fixpoint not_deleted (l : list cbstruct) : M (list cbstruct) :=
  match l with
  | [] => ret []
  | e :: l =>
      do v <- host_at (fst e);
      do r <- not_deleted l;
      ret (if has (hostFlags v) HOSTDELETED then r else e :: r)
  end.
Fixpoint send_all (l : list cbstruct) (fid : AFSFid) : M unit :=
  match l with
  | [] => ret tt
  | e :: l => send (RXAFSCB_CallBack (fst e) [fid]) ;; send_all l fid
  end.
Fixpoint release_all (l : list cbstruct) : M unit :=
  match l with
  | [] => ret tt
  | e :: l => h_Release_r (fst e) ;; release_all l
  end.

Definition MultiBreakCallBack_r (fuel : nat) (cba : list cbstruct) (fid : AFSFid) : M unit :=
  if MAX_CB_HOSTS <? Z.of_nat (length cba) then panic
  else
    let cba := merge_sort CompareCBA cba in
    do conns <- not_deleted cba;
    (match conns with
     | [] => ret tt
     | _ => send_all conns fid ;; unlocked ;; multi_rx fuel (length conns) conns fid ;; unlocked
     end) ;;
    release_all cba ;;
    unlocked.

(** Mark the call-backs to break. *)
Fixpoint mark_breaking (fuel : nat) (cb hostindex : Z) (flag : bool) : M unit :=
  if cb =? 0 then ret tt
  else match fuel with
  | O => nofuel
  | S fuel =>
      do c <- cb_at cb;
      when ((negb (hhead c =? hostindex) || flag)
            && ((cb_status c =? CB_BULK) || (cb_status c =? CB_NORMAL) || (cb_status c =? CB_VOLUME)))
        (cb_put cb (with_flags (Z.lor (cb_flags c) CBFLAG_BREAKING))) ;;
      mark_breaking fuel (cnext c) hostindex flag
  end.

(** Take call-backs off until there are enough hosts; where to go on, and the hosts. *)
Fixpoint break_collect (fuel : nat) (cb : Z) (cba : list cbstruct) : M (Z * list cbstruct) :=
  if (cb =? 0) || (MAX_CB_HOSTS <=? Z.of_nat (length cba)) then ret (cb, cba)
  else match fuel with
  | O => nofuel
  | S fuel =>
      do c <- cb_at cb;
      if negb (Z.land (cb_flags c) CBFLAG_BREAKING =? 0) then
        cb_put cb (with_flags (Z.land (cb_flags c) (Z.lnot CBFLAG_BREAKING))) ;;
        do v <- host_at (hhead c);
        if has (hostFlags v) VENUSDOWN then
          cb_put cb (with_status CB_DELAYED) ;;
          break_collect fuel (cnext c) cba
        else
          do cba <- (if negb (has (hostFlags v) HOSTDELETED)
                     then h_Hold_r (hhead c) ;; ret (cba ++ [(hhead c, thead c)])
                     else ret cba);
          TDel cb ;;
          HDel cb ;;
          CDel cb true ;;
          break_collect fuel (cnext c) cba
      else break_collect fuel (cnext c) cba
  end.

(** Nothing to do: no call-back, or only that of the host itself. *)
Definition nothing_to_break (fe hostindex : Z) (flag : bool) : M bool :=
  do f <- fe_at fe;
  if firstcb f =? 0 then ret true
  else
    do c <- cb_at (firstcb f);
    ret ((ncbs f =? 1) && (hhead c =? hostindex) && negb flag).

Fixpoint break_loop (fuel : nat) (cb : Z) (fid : AFSFid) (hostindex : Z) (flag : bool) : M unit :=
  if cb =? 0 then ret tt
  else match fuel with
  | O => nofuel
  | S fuel =>
      do n <- table_size;
      do r <- break_collect n cb [];
      let '(cb, cba) := r in
      match cba with
      | [] => break_loop fuel cb fid hostindex flag
      | _ =>
          MultiBreakCallBack_r fuel cba fid ;;
          do fe <- FindFE fid;
          if fe =? 0 then ret tt
          else
            do nothing <- nothing_to_break fe hostindex flag;
            if nothing then ret tt
            else do f <- fe_at fe; break_loop fuel (firstcb f) fid hostindex flag
      end
  end.

Definition BreakCallBack (fuel : nat) (xhost : option Z) (fid : AFSFid) (flag : bool) : M unit :=
  do fe <- FindFE fid;
  if fe =? 0 then ret tt
  else
    let hostindex := match xhost with Some h => h | None => 0 end in
    do nothing <- nothing_to_break fe hostindex flag;
    if nothing then ret tt
    else
      do n <- table_size;
      do f <- fe_at fe;
      mark_breaking n (firstcb f) hostindex flag ;;
      do f <- fe_at fe;
      if firstcb f =? 0 then panic else break_loop fuel (firstcb f) fid hostindex flag.

(** ** Delayed call-backs of a host *)

Fixpoint XCallBackBulk_r (n : nat) (h : Z) (fids : list AFSFid) : M bool :=
  match n, fids with
  | S n, _ :: _ =>
      send (RXAFSCB_CallBack h (take (Z.to_nat AFSCBMAX) fids)) ;;
      unlocked ;;
      do code <- answer;
      do rest <- XCallBackBulk_r n h (drop (Z.to_nat AFSCBMAX) fids);
      ret (code || rest)
  | _, _ => ret false
  end.

Fixpoint delayed_collect (fuel : nat) (h cbi : Z) (fids : list AFSFid) : M (list AFSFid) :=
  match fuel with
  | O => nofuel
  | S fuel =>
      do v <- host_at h;
      let first := cblist v in
      do c <- cb_at cbi;
      do fids <- (if cb_status c =? CB_DELAYED then
                    do fe <- fe_at (fhead c);
                    HDel cbi ;; TDel cbi ;; CDel cbi true ;;
                    ret (fids ++ [(volid fe, vnode fe, unique fe)])
                  else ret fids);
      if negb (hnext c =? 0) && negb (hnext c =? first) && (Z.of_nat (length fids) <? AFSCBMAX)
      then delayed_collect fuel h (hnext c) fids
      else ret fids
  end.

Fixpoint break_delayed (fuel : nat) (h : Z) : M unit :=
  do v <- host_at h;
  if has (hostFlags v) HOSTDELETED then ret tt
  else match fuel with
  | O => nofuel
  | S fuel =>
      host_put h (clear_flag VENUSDOWN) ;;
      if cblist v =? 0 then ret tt
      else
        do n <- table_size;
        do fids <- delayed_collect n h (cblist v) [];
        match fids with
        | [] => ret tt
        | _ =>
            do failed <- XCallBackBulk_r (length fids) h fids;
            if failed then
              host_put h (set_flag VENUSDOWN) ;;
              ClearHostCallbacks_r h true ;; ret tt
            else if Z.of_nat (length fids) <? AFSCBMAX then ret tt
            else break_delayed fuel h
        end
  end.

Definition BreakDelayedCallBacks_r (fuel : nat) (h : Z) : M bool :=
  do v <- host_at h;
  (if negb (has (hostFlags v) RESETDONE) && negb (has (hostFlags v) HOSTDELETED) then
     host_put h (clear_flag ALTADDR) ;;
     host_put h (set_flag HWHO_INPROGRESS) ;;
     send (if interface v then RXAFSCB_InitCallBackState3 h else RXAFSCB_InitCallBackState h) ;;
     unlocked ;;
     do code <- answer;
     host_put h (set_flag ALTADDR) ;;
     host_put h (clear_flag HWHO_INPROGRESS) ;;
     if code then host_put h (set_flag VENUSDOWN)
     else host_put h (set_flag RESETDONE) ;; host_put h (clear_flag VENUSDOWN)
   else break_delayed fuel h) ;;
  do v <- host_at h;
  when (negb (has (hostFlags v) VENUSDOWN)) (host_put h (clear_flag HFE_LATER)) ;;
  do v <- host_at h;
  ret (has (hostFlags v) VENUSDOWN).

(** ** Call-backs of a whole volume *)

Record VCBParams := mkVCB {
  v_cba : list cbstruct;
  v_thead : Z;
  v_fid : AFSFid
}.

Definition MultiBreakVolumeCallBack_r (fuel : nat) (deletefe : bool) (h : Z) (parms : VCBParams) : M VCBParams :=
  do v <- host_at h;
  if has (hostFlags v) HOSTDELETED then ret parms
  else if negb (has (hostFlags v) HCBREAK) then ret parms
  else if has (hostFlags v) VENUSDOWN then
    h_Lock_r h ;;
    DeleteAllCallBacks_r h deletefe ;;
    host_put h (clear_flag (Z.lor RESETDONE HCBREAK)) ;;
    ret parms
  else if MAX_CB_HOSTS <? Z.of_nat (length (v_cba parms)) then panic
  else
    do parms <- (if Z.of_nat (length (v_cba parms)) =? MAX_CB_HOSTS then
                   MultiBreakCallBack_r fuel (v_cba parms) (v_fid parms) ;;
                   ret (mkVCB [] (v_thead parms) (v_fid parms))
                 else ret parms);
    host_put h (clear_flag HCBREAK) ;;
    h_Hold_r h ;;
    ret (mkVCB (v_cba parms ++ [(h, v_thead parms)]) (v_thead parms) (v_fid parms)).

Definition MultiBreakVolumeLaterCallBack (fuel : nat) (h : Z) (parms : VCBParams) : M VCBParams :=
  MultiBreakVolumeCallBack_r fuel false h parms.

(** All call-backs of a file are now delayed. *)
Fixpoint delay_cbs (fuel : nat) (cb : Z) : M unit :=
  if cb =? 0 then ret tt
  else match fuel with
  | O => nofuel
  | S fuel =>
      do c <- cb_at cb;
      host_put (hhead c) (set_flag HFE_LATER) ;;
      cb_put cb (with_status CB_DELAYED) ;;
      delay_cbs fuel (cnext c)
  end.

Fixpoint later_chain (fuel : nat) (volume fe : Z) (found : bool) : M bool :=
  if fe =? 0 then ret found
  else match fuel with
  | O => nofuel
  | S fuel =>
      do f <- fe_at fe;
      if volid f =? volume then
        do n <- table_size;
        delay_cbs n (firstcb f) ;;
        fe_put fe (fun f => with_fe_status (Z.lor (fe_status f) FE_LATER) f) ;;
        later_chain fuel volume (fnext f) true
      else later_chain fuel volume (fnext f) found
  end.

Fixpoint later_chains (k : nat) (b volume : Z) (found : bool) : M bool :=
  match k with
  | O => ret found
  | S k =>
      do n <- table_size;
      do fe <- get (fun s => HashTable s b);
      do found <- later_chain n volume fe found;
      later_chains k (b + 1) volume found
  end.

(** [true] when the thread that breaks them has to be woken up. *)
Definition BreakVolumeCallBacksLater (volume : Z) : M bool :=
  later_chains (Z.to_nat FEHASH_SIZE) 0 volume false.

(** Unchain the files of the first volume that is marked; [vol] is that volume, or 0,
    and [myfe] points to the files unchained. *)
Fixpoint unchain (fuel : nat) (p : fe_loc) (vol myfe : Z) : M (Z * Z) :=
  do fei <- fe_loc_get p;
  if fei =? 0 then ret (vol, myfe)
  else match fuel with
  | O => nofuel
  | S fuel =>
      do fe <- fe_at fei;
      if has (fe_status fe) FE_LATER && ((vol =? 0) || (vol =? volid fe)) then
        fe_loc_put p (fnext fe) ;;
        fe_put fei (fun f => with_fe_status (Z.land (fe_status f) (Z.lnot FE_LATER)) f) ;;
        fe_put fei (fe_set_object_next myfe) ;;
        do ptr <- get (fun s => fe_ptr s fei);
        unchain fuel p (volid fe) ptr
      else unchain fuel (Fnext fei) vol myfe
  end.
Fixpoint unchain_all (k : nat) (b vol myfe : Z) : M (Z * Z) :=
  match k with
  | O => ret (vol, myfe)
  | S k =>
      do n <- table_size;
      do r <- unchain n (Bucket b) vol myfe;
      unchain_all k (b + 1) (fst r) (snd r)
  end.

(** The delayed call-backs of a file go; the youngest queue of hosts to notify. *)
Fixpoint drop_later_cbs (fuel : nat) (cb tthead : Z) : M Z :=
  if cb =? 0 then ret tthead
  else match fuel with
  | O => nofuel
  | S fuel =>
      do c <- cb_at cb;
      do v <- host_at (hhead c);
      if cb_status c =? CB_DELAYED then
        do tf <- get tfirst;
        do t <- (if negb (has (hostFlags v) HOSTDELETED) then
                   host_put (hhead c) (set_flag HCBREAK) ;;
                   ret (if (tthead =? 0) || (TNorm tf tthead <? TNorm tf (thead c)) then thead c else tthead)
                 else ret tthead);
        TDel cb ;;
        HDel cb ;;
        CDel cb false ;;
        drop_later_cbs fuel (cnext c) t
      else drop_later_cbs fuel (cnext c) tthead
  end.

Fixpoint drop_later (fuel : nat) (p tthead : Z) : M Z :=
  if p =? 0 then ret tthead
  else match fuel with
  | O => nofuel
  | S fuel =>
      do fe <- get (fun s => fetoi s p);
      do n <- table_size;
      do f <- fe_at fe;
      do t <- drop_later_cbs n (firstcb f) tthead;
      do f <- fe_at fe;
      iFreeFE fe ;;
      drop_later fuel (fe_object_next f) t
  end.

Definition BreakLaterCallBacks (fuel : nat) : M bool :=
  do r <- unchain_all (Z.to_nat FEHASH_SIZE) 0 0 0;
  let '(vol, myfe) := r in
  if myfe =? 0 then ret false
  else
    do n <- table_size;
    do tthead <- drop_later n myfe 0;
    (if negb (tthead =? 0) then
       unlocked ;;
       do parms <- h_Enumerate (MultiBreakVolumeLaterCallBack fuel) (mkVCB [] tthead (vol, 0, 0));
       match v_cba parms with
       | [] => ret tt
       | _ => MultiBreakCallBack_r fuel (v_cba parms) (v_fid parms)
       end
     else ret tt) ;;
    ret true.
