(* ===== verification/CbRing.v ===== *)
(** * Call-backs: circular doubly linked lists

    [ring nx pv hd l]: the list [l] begins at [hd], [nx] leads from each element to the
    next one and from the last to the first, and [pv] leads back; an empty list has the
    head 0.  These are the timeout queues and the lists of the hosts. *)

From stdpp Require Import prelude list gmap.
From Stdlib Require Import ZArith Lia ZifyBool.
From S2P Require Import Prelude.

#[local] Open Scope Z_scope.

(** From [x] through [l]. *)
Fixpoint steps (nx pv : Z -> Z) (x : Z) (l : list Z) : Prop :=
  match l with
  | [] => True
  | y :: l => nx x = y /\ pv y = x /\ steps nx pv y l
  end.

Definition cyc (nx pv : Z -> Z) (l : list Z) : Prop :=
  match l with
  | [] => True
  | a :: r => steps nx pv a (r ++ [a])
  end.

Definition ring (nx pv : Z -> Z) (hd : Z) (l : list Z) : Prop :=
  cyc nx pv l /\ hd = match l with [] => 0 | a :: _ => a end.

Section Rings.
Context (nx pv : Z -> Z).

Lemma steps_app x l1 y l2 : steps nx pv x (l1 ++ y :: l2) <-> steps nx pv x (l1 ++ [y]) /\ steps nx pv y l2.
Proof using.
  revert x. induction l1 as [|z l1 IH]; intros x; cbn [app steps]; [tauto|]. rewrite IH. tauto.
Qed.

Lemma steps_ext nx' pv' x l z :
  (forall y, y ∈ x :: l -> nx' y = nx y) -> (forall y, y ∈ l ++ [z] -> pv' y = pv y) ->
  steps nx pv x (l ++ [z]) -> steps nx' pv' x (l ++ [z]).
Proof using.
  revert x. induction l as [|y l IH]; intros x Hn Hp H.
  - destruct H as (H1 & H2 & _). cbn. rewrite Hn, Hp by (cbn; left). done.
  - destruct H as (H1 & H2 & H3). split; [rewrite Hn; [done|left]|]. split; [rewrite Hp; [done|left]|].
    apply IH; [intros t Ht; apply Hn; by right|intros t Ht; apply Hp; by right|done].
Qed.

Lemma cyc_ext nx' pv' l :
  (forall y, y ∈ l -> nx' y = nx y) -> (forall y, y ∈ l -> pv' y = pv y) -> cyc nx pv l -> cyc nx' pv' l.
Proof using.
  intros Hn Hp. destruct l as [|a r]; [done|]. cbn [cyc]. apply steps_ext.
  - exact Hn.
  - intros y [Hy|Hy%list_elem_of_singleton]%elem_of_app; apply Hp; [by right|subst; left].
Qed.

Lemma cyc_rotate l1 l2 : cyc nx pv (l1 ++ l2) -> cyc nx pv (l2 ++ l1).
Proof using.
  destruct l1 as [|a r1]; [by rewrite app_nil_r|]. destruct l2 as [|b r2]; [by rewrite app_nil_r|].
  cbn [app cyc]. rewrite <- !app_assoc. cbn [app]. rewrite (steps_app a r1 b (r2 ++ [a])), (steps_app b r2 a (r1 ++ [b])). tauto.
Qed.

(** The neighbours of an element of a ring. *)
Lemma cyc_next c r : cyc nx pv (c :: r) -> nx c = List.hd c r /\ pv (List.hd c r) = c.
Proof using. destruct r as [|b r]; cbn; tauto. Qed.

Lemma cyc_prev c r : cyc nx pv (c :: r) -> pv c = List.last r c /\ nx (List.last r c) = c.
Proof using.
  cbn [cyc]. destruct r as [|b r] using rev_ind; [cbn; tauto|]. rewrite <- app_assoc. cbn [app].
  rewrite List.last_last. rewrite (steps_app c r b). cbn [steps]. tauto.
Qed.

End Rings.

(** Taking an element out. *)
Lemma cyc_remove nx pv nx' pv' c r :
  cyc nx pv (c :: r) -> NoDup (c :: r) ->
  (forall y, y ∈ r -> nx' y = if decide (y = pv c) then nx c else nx y) ->
  (forall y, y ∈ r -> pv' y = if decide (y = nx c) then pv c else pv y) ->
  cyc nx' pv' r.
Proof.
  intros Hc [Hcr Hnd]%NoDup_cons Hn Hp.
  destruct (cyc_next _ _ _ _ Hc) as [N1 N2], (cyc_prev _ _ _ _ Hc) as [P1 P2].
  destruct r as [|b r]; [done|]. cbn [cyc List.hd] in *. rewrite N1 in *. destruct Hc as (_ & _ & Hs).
  apply NoDup_cons in Hnd as [Hbr Hnd].
  destruct r as [|z r] using rev_ind.
  - change (List.last [b] c) with b in *. cbn [app steps].
    rewrite (Hn b), (Hp b) by left. rewrite P1. by rewrite !decide_True.
  - clear IHr. rewrite app_comm_cons, List.last_last in *. rewrite <- !app_assoc in Hs |- *.
    cbn [app] in Hs |- *. apply steps_app in Hs as [Hs _].
    assert (Hzb : z <> b) by (intros ->; apply Hbr; apply elem_of_app; right; left).
    apply NoDup_app in Hnd as (Hnd & Hdis & _). rewrite (steps_app nx' pv' b r z). split.
    + revert Hs. apply steps_ext.
      * intros y Hy. rewrite Hn by (apply elem_of_cons in Hy as [->|Hy]; [left|right; apply elem_of_app; by left]).
        rewrite decide_False; [done|]. rewrite P1. intros ->.
        apply elem_of_cons in Hy as [->|Hy]; [done|]. apply (Hdis z Hy). left.
      * intros y Hy. rewrite Hp by by right. rewrite decide_False; [done|]. by intros ->.
    + cbn [steps]. rewrite (Hn z), (Hp b), P1, !decide_True by (done || left || (right; apply elem_of_app; right; left)). done.
Qed.

(** Adding an element at the end. *)
Lemma cyc_add nx pv nx' pv' c a r :
  cyc nx pv (a :: r) -> NoDup (a :: r) -> c ∉ a :: r ->
  nx' c = a -> pv' c = pv a ->
  (forall y, y ∈ a :: r -> nx' y = if decide (y = pv a) then c else nx y) ->
  (forall y, y ∈ a :: r -> pv' y = if decide (y = a) then c else pv y) ->
  cyc nx' pv' (a :: r ++ [c]).
Proof.
  intros Hc [Har Hnd]%NoDup_cons Hca C1 C2 Hn Hp. destruct (cyc_prev _ _ _ _ Hc) as [P1 P2]. cbn [cyc] in *.
  rewrite <- app_assoc. cbn [app]. apply (steps_app nx' pv'). cbn [steps].
  split; [|split; [done|]; split; [|done]; rewrite Hp by left; by rewrite decide_True].
  destruct r as [|z r] using rev_ind.
  - change (List.last [] a) with a in *. cbn. rewrite Hn by left. by rewrite decide_True, C2.
  - clear IHr. rewrite List.last_last in *. rewrite <- app_assoc in *. cbn [app] in *.
    apply (steps_app nx pv) in Hc as [Hs _]. apply (steps_app nx' pv'). apply NoDup_app in Hnd as (_ & Hdis & _).
    assert (Hza : z <> a) by (intros ->; apply Har; apply elem_of_app; right; left).
    split.
    + revert Hs. apply steps_ext.
      * intros y Hy. rewrite Hn by (apply elem_of_cons in Hy as [->|Hy]; [left|right; apply elem_of_app; by left]).
        rewrite decide_False; [done|]. rewrite P1. intros ->.
        apply elem_of_cons in Hy as [->|Hy]; [done|]. apply (Hdis z Hy). left.
      * intros y Hy. rewrite Hp by by right. rewrite decide_False; [done|]. by intros ->.
    + cbn [steps]. rewrite Hn, P1 by (right; apply elem_of_app; right; left). rewrite decide_True by done.
      by rewrite C2.
Qed.

(** The ring that begins at one of its elements. *)
Lemma cyc_at nx pv l c : cyc nx pv l -> c ∈ l -> exists l1 l2, l = l1 ++ c :: l2 /\ cyc nx pv (c :: l2 ++ l1).
Proof.
  intros Hc Hin. apply list_elem_of_split in Hin as (l1 & l2 & ->). exists l1, l2. split; [done|].
  by apply (cyc_rotate nx pv l1 (c :: l2)).
Qed.

(** ** Whole rings *)

Lemma ring_neighbours nx pv hd l c : ring nx pv hd l -> c ∈ l -> nx c ∈ l /\ pv c ∈ l.
Proof.
  intros [Hcyc _] Hc. destruct (cyc_at _ _ _ _ Hcyc Hc) as (l1 & l2 & -> & Hcyc').
  assert (Hin : forall x, x ∈ c :: l2 ++ l1 -> x ∈ l1 ++ c :: l2).
  { intros x. rewrite elem_of_cons, !elem_of_app, elem_of_cons. tauto. }
  pose proof (cyc_next _ _ _ _ Hcyc') as [-> _]. pose proof (cyc_prev _ _ _ _ Hcyc') as [-> _]. split; apply Hin.
  - destruct (l2 ++ l1); [left|right; left].
  - destruct (l2 ++ l1) as [|b r _] using rev_ind; [left|]. rewrite List.last_last.
    right. apply elem_of_app. right. left.
Qed.

Lemma ring_head nx pv hd l : ring nx pv hd l -> l <> [] -> hd ∈ l.
Proof. intros [_ ->]. destruct l; [done|]. intros _. left. Qed.

Lemma ring_empty nx pv hd l : ring nx pv hd l -> (forall x, x ∈ l -> x <> 0) -> hd = 0 <-> l = [].
Proof. intros [_ ->] H. destruct l as [|a l]; [done|]. split; [|done]. intros E. destruct (H a); [left|done]. Qed.

Lemma ring_remove nx pv nx' pv' hd hd' l c :
  ring nx pv hd l -> NoDup l -> c ∈ l -> (forall x, x ∈ l -> x <> 0) ->
  (forall x, x ∈ l -> nx' x = if x =? pv c then nx c else nx x) ->
  (forall x, x ∈ l -> pv' x = if x =? nx c then pv c else pv x) ->
  hd' = (if hd =? c then if hd =? nx c then 0 else nx c else hd) ->
  exists l', ring nx' pv' hd' l' /\ NoDup l' /\ forall x, x ∈ l' <-> x ∈ l /\ x <> c.
Proof.
  intros [Hcyc Hhd] Hnd Hc H0 Hn Hp ->. destruct (cyc_at _ _ _ _ Hcyc Hc) as (l1 & l2 & -> & Hcyc').
  assert (Hnd' : NoDup (c :: l2 ++ l1)) by by rewrite <- Permutation_middle, Permutation_app_comm in Hnd.
  exists (l1 ++ l2).
  assert (Hin : forall x, x ∈ l2 ++ l1 -> x ∈ l1 ++ c :: l2).
  { intros x. rewrite !elem_of_app, elem_of_cons. tauto. }
  split; [split|split].
  - apply cyc_rotate. apply (cyc_remove nx pv _ _ c); [done|done| |].
    + intros y Hy. rewrite Hn by auto. destruct (decide _), (Z.eqb_spec y (pv c)); congruence.
    + intros y Hy. rewrite Hp by auto. destruct (decide _), (Z.eqb_spec y (nx c)); congruence.
  - destruct l1 as [|a l1]; cbn [app] in *; subst hd.
    + rewrite Z.eqb_refl. pose proof (cyc_next _ _ _ _ Hcyc') as [N1 _]. rewrite app_nil_r in *. rewrite N1.
      destruct l2 as [|b l2]; cbn [List.hd]; [by rewrite Z.eqb_refl|]. destruct (Z.eqb_spec c b) as [->|]; [|done].
      apply NoDup_cons in Hnd' as [Hx _]. by destruct Hx; left.
    + destruct (Z.eqb_spec a c) as [->|]; [|done]. apply NoDup_cons in Hnd as [Hx _]. destruct Hx.
      apply elem_of_app. right. left.
  - apply NoDup_cons in Hnd' as [_ Hnd']. by rewrite Permutation_app_comm.
  - intros x. rewrite !elem_of_app, elem_of_cons. apply NoDup_cons in Hnd' as [Hx _]. rewrite elem_of_app in Hx.
    split; [|tauto]. intros Hor. split; [tauto|]. intros ->. tauto.
Qed.

Lemma ring_add nx pv nx' pv' hd hd' l c :
  ring nx pv hd l -> NoDup l -> c ∉ l -> (forall x, x ∈ l -> x <> 0) ->
  (hd = 0 -> nx' c = c /\ pv' c = c /\ hd' = c) ->
  (hd <> 0 -> nx' c = hd /\ pv' c = pv hd /\ hd' = hd
     /\ (forall x, x ∈ l -> nx' x = if x =? pv hd then c else nx x)
     /\ (forall x, x ∈ l -> pv' x = if x =? hd then c else pv x)) ->
  exists l', ring nx' pv' hd' l' /\ NoDup l' /\ forall x, x ∈ l' <-> x ∈ l \/ x = c.
Proof.
  intros [Hcyc Hhd] Hnd Hc H0 HE HN. destruct l as [|a r].
  - destruct (HE Hhd) as (E1 & E2 & ->). exists [c]. split; [by repeat split|]. split; [apply NoDup_singleton|].
    intros x. rewrite list_elem_of_singleton. split; [auto|]. intros [Hx|]; [by apply not_elem_of_nil in Hx|done].
  - subst hd. destruct HN as (N1 & N2 & -> & N3 & N4); [apply H0; left|]. exists (a :: r ++ [c]).
    split; [split; [|done]|split].
    + apply (cyc_add nx pv); try done; intros y Hy;
        [rewrite N3 by done; destruct (decide _), (Z.eqb_spec y (pv a)); congruence
        |rewrite N4 by done; destruct (decide _), (Z.eqb_spec y a); congruence].
    + rewrite app_comm_cons. apply NoDup_app. split; [done|]. split; [|apply NoDup_singleton].
      intros x Hx Hxc. apply list_elem_of_singleton in Hxc. by subst.
    + intros x. rewrite !elem_of_cons, elem_of_app, list_elem_of_singleton. tauto.
Qed.

Lemma ring_ext nx pv nx' pv' hd l :
  (forall x, x ∈ l -> nx' x = nx x) -> (forall x, x ∈ l -> pv' x = pv x) -> ring nx pv hd l -> ring nx' pv' hd l.
Proof. intros H1 H2 [Hc Hh]. split; [|done]. by apply (cyc_ext nx pv). Qed.
