(* ===== verification/CbOk.v ===== *)
(** * Call-backs: the invariant of the tables, and the operations on single entries

    The sets [A] (file entries in use), [U] (call-backs in use), [KC] and [KF] (entries
    that running handlers have taken from the free lists and not yet used) describe the
    tables: [Tpart], [Lpart], [Fpart] and [Hpart] say that the timeout queues, the lists
    of the hosts, the call-backs of the files and the hash chains hold exactly the
    entries they should, [Cfree] and [Ffree] that the free lists hold other ones.  The
    parts can hold for different sets in the middle of an operation; [ok] says that they
    agree. *)

From stdpp Require Import prelude list gmap.
From Stdlib Require Import ZArith Lia ZifyBool.
From S2P Require Import Prelude ByteMem CbTab CbRing.

#[local] Open Scope Z_scope.
#[local] Open Scope cb_scope.

(** ** Weakest preconditions

    [wp f m Q w]: the computation [m] from [w] does not panic, and when it ends [Q]
    holds; it may run out of fuel only if [f]. *)

Definition wp {A} (f : Prop) (m : M A) (Q : A -> world -> Prop) (w : world) : Prop :=
  match m w with
  | Done a w' => Q a w'
  | Panic => False
  | NoFuel => f
  end.

Lemma wp_ret {A} f (a : A) (Q : A -> world -> Prop) w : Q a w -> wp f (ret a) Q w.
Proof. done. Qed.

Lemma wp_bind {A B} f (m : M A) (k : A -> M B) Q w :
  wp f m (fun a w' => wp f (k a) Q w') w -> wp f (bind m k) Q w.
Proof. unfold wp, bind. by destruct (m w). Qed.

Lemma wp_mono {A} f (m : M A) (Q Q' : A -> world -> Prop) w :
  wp f m Q w -> (forall a w', Q a w' -> Q' a w') -> wp f m Q' w.
Proof. unfold wp. destruct (m w); auto. Qed.

Lemma wp_get {A} f (g : cbs -> A) Q w : Q (g (st w)) w -> wp f (get g) Q w.
Proof. done. Qed.

Lemma wp_modify f g (Q : unit -> world -> Prop) w : Q tt (set_st (g (st w)) w) -> wp f (modify g) Q w.
Proof. done. Qed.

Lemma wp_when f (b : bool) m (Q : unit -> world -> Prop) w :
  (b = true -> wp f m Q w) -> (b = false -> Q tt w) -> wp f (when b m) Q w.
Proof. intros H1 H2. unfold when. destruct b; [by apply H1|by apply wp_ret, H2]. Qed.

Definition in_tab (s : cbs) (i : Z) : Prop := 1 <= i <= nblks s.

Lemma in_tab_true s i : in_tab s i -> in_table s i = true.
Proof. unfold in_tab, in_table. lia. Qed.

Lemma wp_cb_at f c Q w : in_tab (st w) c -> Q (CB (st w) c) w -> wp f (cb_at c) Q w.
Proof. intros H%in_tab_true HQ. unfold wp, cb_at. by rewrite H. Qed.
Lemma wp_fe_at f c Q w : in_tab (st w) c -> Q (FE (st w) c) w -> wp f (fe_at c) Q w.
Proof. intros H%in_tab_true HQ. unfold wp, fe_at. by rewrite H. Qed.
Lemma wp_cb_put f c g (Q : unit -> world -> Prop) w :
  in_tab (st w) c -> Q tt (set_st (set_CB c (g (CB (st w) c)) (st w)) w) -> wp f (cb_put c g) Q w.
Proof. intros H%in_tab_true HQ. unfold wp, cb_put. by rewrite H. Qed.
Lemma wp_fe_put f c g (Q : unit -> world -> Prop) w :
  in_tab (st w) c -> Q tt (set_st (set_FE c (g (FE (st w) c)) (st w)) w) -> wp f (fe_put c g) Q w.
Proof. intros H%in_tab_true HQ. unfold wp, fe_put. by rewrite H. Qed.
Lemma wp_timeout_at f q Q w : 1 <= q <= 128 -> Q (timeout (st w) q) w -> wp f (timeout_at q) Q w.
Proof. intros H HQ. unfold wp, timeout_at, CB_NUM_TIMEOUT_QUEUES. by replace (_ && _) with true by lia. Qed.
Lemma wp_timeout_put f q v (Q : unit -> world -> Prop) w :
  1 <= q <= 128 -> Q tt (set_st (set_timeout q v (st w)) w) -> wp f (timeout_put q v) Q w.
Proof. intros H HQ. unfold wp, timeout_put, CB_NUM_TIMEOUT_QUEUES. by replace (_ && _) with true by lia. Qed.
Lemma wp_host_at f h v Q w : hosts (st w) !! h = Some v -> Q v w -> wp f (host_at h) Q w.
Proof. intros H HQ. unfold wp, host_at. by rewrite H. Qed.
Lemma wp_host_put f h g v (Q : unit -> world -> Prop) w :
  hosts (st w) !! h = Some v -> Q tt (set_st (set_host h (g v) (st w)) w) -> wp f (host_put h g) Q w.
Proof. intros H HQ. unfold wp, host_put. by rewrite H. Qed.

(** The fields of an updated table. *)
Ltac cbsimp :=
  cbn [st set_st set_CB set_FE set_timeout set_hash set_host set_CBfree set_FEfree set_tfirst set_hostList
    FE CB FE_base CB_base FEfree CBfree HashTable timeout tfirst nFEs nCBs nblks hosts hostList clock
    with_cnext with_fhead with_thead with_status with_flags with_hhead with_tprev with_tnext with_hprev with_hnext
    with_fnext with_ncbs with_firstcb with_fe_status with_cblist with_hostFlags with_refCount
    cnext fhead thead cb_status cb_flags hhead tprev tnext hprev hnext
    vnode unique volid fnext ncbs firstcb fe_status cblist hostFlags refCount ActiveCall interface
    others answers order sent] in *.

(** ** What an operation leaves alone

    [ft], [fl] and [fc] tell whether the timeout queues, the host lists and the files
    with their chains and the free lists may have changed; [X] are call-backs whose
    status, flags, queue or host may have. *)

Record frame (ft fl fc : bool) (X : gset Z) (s s' : cbs) : Prop := {
  fr_n : nblks s' = nblks s;
  fr_addr : FE_base s' = FE_base s /\ CB_base s' = CB_base s;
  fr_time : tfirst s' = tfirst s /\ clock s' = clock s;
  fr_list : hostList s' = hostList s;
  fr_info : forall c, c ∉ X -> cb_status (CB s' c) = cb_status (CB s c) /\ cb_flags (CB s' c) = cb_flags (CB s c)
    /\ thead (CB s' c) = thead (CB s c) /\ hhead (CB s' c) = hhead (CB s c);
  fr_hosts : forall h, with_cblist 0 <$> hosts s' !! h = with_cblist 0 <$> hosts s !! h;
  fr_t : ft = false -> (forall q, timeout s' q = timeout s q)
    /\ forall c, tnext (CB s' c) = tnext (CB s c) /\ tprev (CB s' c) = tprev (CB s c);
  fr_l : fl = false -> (forall h, cblist <$> hosts s' !! h = cblist <$> hosts s !! h)
    /\ forall c, hnext (CB s' c) = hnext (CB s c) /\ hprev (CB s' c) = hprev (CB s c);
  fr_c : fc = false -> (forall i, FE s' i = FE s i) /\ (forall b, HashTable s' b = HashTable s b)
    /\ (FEfree s' = FEfree s /\ CBfree s' = CBfree s)
    /\ forall c, cnext (CB s' c) = cnext (CB s c) /\ fhead (CB s' c) = fhead (CB s c)
}.

Lemma cb_frame_refl ft fl fc X s : frame ft fl fc X s s.
Proof. by split. Qed.

Lemma cb_frame_trans ft fl fc X ft' fl' fc' X' s1 s2 s3 :
  frame ft fl fc X s1 s2 -> frame ft' fl' fc' X' s2 s3 ->
  frame (ft || ft') (fl || fl') (fc || fc') (X ∪ X') s1 s3.
Proof.
  intros [A1 [A2 A2'] [A3 A3'] A4 A5 A6 A7 A8 A9] [B1 [B2 B2'] [B3 B3'] B4 B5 B6 B7 B8 B9].
  split; [congruence|split; congruence|split; congruence|congruence| | | | |].
  - intros c [C1 C2]%not_elem_of_union. destruct (A5 c C1) as (?&?&?&?), (B5 c C2) as (?&?&?&?). split_and!; congruence.
  - intros h. by rewrite B6, A6.
  - intros [-> ->]%orb_false_iff. destruct (A7 eq_refl) as [T1 T2], (B7 eq_refl) as [T3 T4].
    split; [intros q; by rewrite T3, T1|]. intros c. destruct (T2 c), (T4 c). split; congruence.
  - intros [-> ->]%orb_false_iff. destruct (A8 eq_refl) as [T1 T2], (B8 eq_refl) as [T3 T4].
    split; [intros h; by rewrite T3, T1|]. intros c. destruct (T2 c), (T4 c). split; congruence.
  - intros [-> ->]%orb_false_iff. destruct (A9 eq_refl) as (T1 & T2 & [T5 T6] & T7), (B9 eq_refl) as (R1 & R2 & [R5 R6] & R7).
    split; [intros i; by rewrite R1, T1|]. split; [intros b; by rewrite R2, T2|].
    split; [split; congruence|]. intros c. destruct (T7 c), (R7 c). split; congruence.
Qed.

(** ** The parts *)

Definition tn (s : cbs) (c : Z) : Z := tnext (CB s c).
Definition tp (s : cbs) (c : Z) : Z := tprev (CB s c).
Definition hn (s : cbs) (c : Z) : Z := hnext (CB s c).
Definition hp (s : cbs) (c : Z) : Z := hprev (CB s c).
Definition cn (s : cbs) (c : Z) : Z := cnext (CB s c).
Definition fn (s : cbs) (fe : Z) : Z := fnext (FE s fe).

(** The queues for which [Q] holds have the call-backs of [U]. *)
Definition Tpart (s : cbs) (Q : Z -> Prop) (U : gset Z) : Prop :=
  forall q, 1 <= q <= 128 -> Q q -> exists l, ring (tn s) (tp s) (timeout s q) l /\ NoDup l
    /\ forall c, c ∈ l <-> c ∈ U /\ thead (CB s c) = q.

Definition Lpart (s : cbs) (D : Z -> Prop) (U : gset Z) : Prop :=
  forall h v, hosts s !! h = Some v -> D h -> exists l, ring (hn s) (hp s) (cblist v) l /\ NoDup l
    /\ forall c, c ∈ l <-> c ∈ U /\ hhead (CB s c) = h.

(** Queue and host of every call-back exist, and it is in the table. *)
Definition homes (s : cbs) (U : gset Z) : Prop :=
  forall c, c ∈ U -> in_tab s c /\ 1 <= thead (CB s c) <= 128 /\ is_Some (hosts s !! hhead (CB s c)).

Lemma Tpart_frame fl fc s s' Q U X :
  frame false fl fc X s s' -> U ## X -> Tpart s Q U -> Tpart s' Q U.
Proof.
  intros F HX HT q Hq HQ. destruct (HT q Hq HQ) as (l & [Hc Hh] & Hnd & Hm). exists l.
  destruct (fr_t _ _ _ _ _ _ F eq_refl) as [F1 F2]. split; [|split; [done|]].
  - split; [|by rewrite F1]. revert Hc. apply cyc_ext; intros c _; apply F2.
  - intros c. rewrite Hm. split; intros [Hc1 Hc2]; (split; [done|]); rewrite <- Hc2;
      [|symmetry]; apply (fr_info _ _ _ _ _ _ F); intros Hx; by apply (HX c).
Qed.

Lemma Lpart_frame ft fc s s' D U X :
  frame ft false fc X s s' -> U ## X -> Lpart s D U -> Lpart s' D U.
Proof.
  intros F HX HL h v Hv HD. destruct (fr_l _ _ _ _ _ _ F eq_refl) as [F1 F2].
  pose proof (F1 h) as Fh. rewrite Hv in Fh. destruct (hosts s !! h) as [v0|] eqn:Hv0; [|done].
  injection Fh as Fh. destruct (HL h v0 Hv0 HD) as (l & [Hc Hh] & Hnd & Hm). exists l. split; [|split; [done|]].
  - split; [|by rewrite Fh]. revert Hc. apply cyc_ext; intros c _; apply F2.
  - intros c. rewrite Hm. split; intros [Hc1 Hc2]; (split; [done|]); rewrite <- Hc2;
      [|symmetry]; apply (fr_info _ _ _ _ _ _ F); intros Hx; by apply (HX c).
Qed.

Lemma frame_host ft fl fc X s s' h : frame ft fl fc X s s' -> is_Some (hosts s !! h) -> is_Some (hosts s' !! h).
Proof.
  intros F [v Hv]. pose proof (fr_hosts _ _ _ _ _ _ F h) as Fh. rewrite Hv in Fh.
  destruct (hosts s' !! h); [by eexists|done].
Qed.

Lemma homes_frame ft fl fc s s' U X : frame ft fl fc X s s' -> U ## X -> homes s U -> homes s' U.
Proof.
  intros F HX HU c Hc. destruct (HU c Hc) as (H1 & H2 & H3).
  destruct (fr_info _ _ _ _ _ _ F c) as (_ & _ & -> & ->); [intros Hx; by apply (HX c)|].
  split; [unfold in_tab in *; by rewrite (fr_n _ _ _ _ _ _ F)|]. split; [done|]. by apply (frame_host _ _ _ _ _ _ _ F).
Qed.

Lemma homes_sub s U U' : U' ⊆ U -> homes s U -> homes s U'.
Proof. intros HU H c Hc. by apply H, HU. Qed.

(** ** The timeout queues *)

(** Split on the index of an updated entry. *)
Ltac upd_case := repeat match goal with |- context [?x =? ?y] => destruct (Z.eqb_spec x y); subst end.

(** A queue after its rings changed: that of [c], and the others. *)
Lemma wp_TDel f c (Qs : Z -> Prop) U (Q : unit -> world -> Prop) w :
  Tpart (st w) Qs U -> homes (st w) U -> c ∈ U -> Qs (thead (CB (st w) c)) ->
  (forall s', Tpart s' Qs (U ∖ {[c]}) -> frame true false false ∅ (st w) s' -> Q tt (set_st s' w)) ->
  wp f (TDel c) Q w.
Proof.
  intros HT HU Hc HQ HQ'. destruct (HU c Hc) as (Hin & Hq & _).
  set (s := st w) in *. set (q := thead (CB s c)) in *.
  destruct (HT q Hq HQ) as (l & Hr & Hnd & Hm). assert (Hcl : c ∈ l) by by apply Hm.
  assert (Htab : forall x, x ∈ l -> in_tab s x) by (intros x Hx; apply HU; by apply Hm).
  destruct (ring_neighbours _ _ _ _ _ Hr Hcl) as [Hn Hp].
  pose proof (Htab _ Hn) as Tn. pose proof (Htab _ Hp) as Tp. unfold tn, tp in Tn, Tp.
  set (n := tnext (CB s c)) in *. set (p := tprev (CB s c)) in *.
  set (s1 := if timeout s q =? c then set_timeout q (if timeout s q =? n then 0 else n) s else s).
  assert (E1 : CB s1 = CB s /\ nblks s1 = nblks s) by (subst s1; by destruct (_ =? c)). destruct E1 as [E1 E1'].
  unfold TDel. apply wp_bind, wp_cb_at; [done|]. apply wp_bind, wp_timeout_at; [done|]. fold s q n p.
  apply wp_bind. eapply (wp_mono _ _ (fun _ w' => w' = set_st s1 w)).
  { apply wp_when; intros E; subst s1; rewrite E; [by apply wp_timeout_put|by destruct w]. }
  intros _ w1 ->. apply wp_bind, wp_when; intros E2; [|unfold in_tab in Tp; lia].
  apply wp_cb_put; [unfold in_tab in *; cbsimp; lia|]. cbsimp. rewrite E1.
  set (s2 := set_CB p (with_tnext n (CB s p)) s1).
  assert (En : tnext (CB s2 c) = n /\ tprev (CB s2 c) = p).
  { subst s2. cbsimp. rewrite E1. destruct (Z.eqb_spec c p) as [E|]; [|done]. cbsimp. by rewrite <- E. }
  destruct En as [En Ep]. apply wp_bind, wp_cb_at; [unfold in_tab in *; subst s2; cbsimp; lia|]. cbsimp. rewrite En, Ep.
  apply wp_when; intros E3; [|unfold in_tab in Tn; lia].
  apply wp_cb_put; [unfold in_tab in *; subst s2; cbsimp; lia|]. cbsimp.
  set (s' := set_CB n _ s2). apply (HQ' s').
  - assert (Ftn : forall x, tn s' x = if x =? p then n else tn s x).
    { intros x. subst s' s2. unfold tn. cbsimp. rewrite E1. upd_case; cbsimp; (congruence || (split_and!; congruence)). }
    assert (Ftp : forall x, tp s' x = if x =? n then p else tp s x).
    { intros x. subst s' s2. unfold tp. cbsimp. rewrite E1. upd_case; cbsimp; (congruence || (split_and!; congruence)). }
    assert (Fth : forall x, thead (CB s' x) = thead (CB s x)).
    { intros x. subst s' s2. cbsimp. rewrite E1. upd_case; cbsimp; (congruence || (split_and!; congruence)). }
    intros q' Hq' HQq'. destruct (Z.eq_dec q' q) as [->|Hne].
    + destruct (ring_remove _ _ (tn s') (tp s') _ (timeout s' q) l c Hr Hnd Hcl) as (l' & Hr' & Hnd' & Hm').
      * intros x Hx. specialize (Htab x Hx). unfold in_tab in Htab. lia.
      * intros x _. apply Ftn.
      * intros x _. apply Ftp.
      * subst s' s2 s1. cbsimp. destruct (timeout s q =? c); cbsimp; [by rewrite Z.eqb_refl|done].
      * exists l'. split; [done|]. split; [done|]. intros x. rewrite Hm', Hm, Fth, elem_of_difference, elem_of_singleton.
        fold q. tauto.
    + destruct (HT q' Hq' HQq') as (l0 & Hr0 & Hnd0 & Hm0). exists l0. split; [|split; [done|]].
      * assert (Hto : timeout s' q' = timeout s q').
        { subst s' s2 s1. cbsimp. destruct (timeout s q =? c); cbsimp; [|done]. by destruct (Z.eqb_spec q' q). }
        assert (Hout : forall x, x ∈ l0 -> x ∉ l) by (intros x [_ Hx]%Hm0 [_ Hx']%Hm; congruence).
        rewrite Hto. revert Hr0. apply ring_ext; intros x Hx; [rewrite Ftn; destruct (Z.eqb_spec x p) as [->|]
          |rewrite Ftp; destruct (Z.eqb_spec x n) as [->|]]; try done; by destruct (Hout _ Hx).
      * intros x. rewrite Hm0, Fth, elem_of_difference, elem_of_singleton.
        split; [intros [? Hx]; split; [split; [done|]|done]|tauto]. intros ->. by apply Hne; rewrite <- Hx.
  - split; try (subst s' s2 s1; by destruct (timeout s q =? c)).
    + intros x _. subst s' s2. cbsimp. rewrite E1. upd_case; cbsimp; (congruence || (split_and!; congruence)).
    + subst s' s2 s1. intros _. split; [by destruct (timeout s q =? c)|]. intros x. cbsimp. rewrite E1. upd_case; cbsimp; (congruence || (split_and!; congruence)).
    + intros _. split; [subst s' s2 s1; by destruct (timeout s q =? c)|].
      split; [subst s' s2 s1; by destruct (timeout s q =? c)|].
      split; [subst s' s2 s1; by destruct (timeout s q =? c)|].
      intros x. subst s' s2. cbsimp. rewrite E1. upd_case; cbsimp; (congruence || (split_and!; congruence)).
Qed.

(** The links of [TAdd]: what the new entry and its neighbours point to. *)
Record t_linked (c q : Z) (s s1 : cbs) : Prop := {
  tl_frame : frame true false false ∅ s s1;
  tl_other : forall q', q' <> q -> timeout s1 q' = timeout s q';
  tl_head : timeout s1 q = if timeout s q =? 0 then c else timeout s q;
  tl_next : forall x, tn s1 x = if x =? c then if timeout s q =? 0 then c else timeout s q
    else if timeout s q =? 0 then tn s x else if x =? tp s (timeout s q) then c else tn s x;
  tl_prev : forall x, tp s1 x = if x =? c then if timeout s q =? 0 then c else tp s (timeout s q)
    else if timeout s q =? 0 then tp s x else if x =? timeout s q then c else tp s x
}.

Lemma wp_tadd_link f c q (Q : unit -> world -> Prop) w K :
  in_tab (st w) c -> 1 <= q <= 128 ->
  (timeout (st w) q <> 0 -> in_tab (st w) (timeout (st w) q) /\ timeout (st w) q <> c
     /\ in_tab (st w) (tp (st w) (timeout (st w) q)) /\ tp (st w) (timeout (st w) q) <> c) ->
  (forall s1, t_linked c q (st w) s1 -> wp f K Q (set_st s1 w)) ->
  wp f (do t <- timeout_at q;
  (if t =? 0 then
     cb_put c (with_tprev c) ;; cb_put c (with_tnext c) ;; timeout_put q c
   else
     do thp <- cb_at t;
     cb_put c (with_tprev (tprev thp)) ;;
     cb_put c (with_tnext t) ;;
     do thp <- cb_at t;
     if negb (tprev thp =? 0) then
       cb_put (tprev thp) (with_tnext c) ;; cb_put t (with_tprev c)
     else cb_put t (with_tprev c)) ;; K) Q w.
Proof.
  intros Hin Hq Ht HK. set (s := st w) in *. apply wp_bind, wp_timeout_at; [done|]. fold s.
  set (t := timeout s q) in *. destruct (t =? 0) eqn:Et.
  - apply wp_bind, wp_bind, wp_cb_put; [done|]. apply wp_bind, wp_cb_put; [done|].
    apply wp_timeout_put; [done|]. cbsimp. rewrite Z.eqb_refl. apply HK. split; fold t; rewrite ?Et.
    + split; try done; cbsimp; intros; repeat split; intros; upd_case; done.
    + intros q' Hq'. cbsimp. by destruct (Z.eqb_spec q' q).
    + cbsimp. by rewrite Z.eqb_refl.
    + intros x. unfold tn. cbsimp. upd_case; done.
    + intros x. unfold tp. cbsimp. upd_case; done.
  - destruct Ht as (Tt & Htc & Tp & Hpc); [lia|]. unfold tp in Hpc, Tp. set (p := tprev (CB s t)) in *.
    apply wp_bind, wp_bind, wp_cb_at; [done|]. apply wp_bind, wp_cb_put; [done|].
    apply wp_bind, wp_cb_put; [done|]. apply wp_bind, wp_cb_at; [done|]. cbsimp. fold s.
    destruct (Z.eqb_spec t c); [done|]. fold p. rewrite Z.eqb_refl.
    replace (p =? 0) with false by (unfold in_tab in Tp; lia). cbn [negb].
    apply wp_bind, wp_cb_put; [done|]. apply wp_cb_put; [done|]. cbsimp. fold s. apply HK. split; fold t; rewrite ?Et.
    + split; try done; cbsimp; intros; repeat split; intros; upd_case; cbsimp; congruence.
    + done.
    + done.
    + intros x. unfold tn, tp. cbsimp. fold p. upd_case; cbsimp; congruence.
    + intros x. unfold tp. cbsimp. fold p. upd_case; cbsimp; congruence.
Qed.

Lemma wp_TAdd f c q (Qs : Z -> Prop) U (Q : unit -> world -> Prop) w :
  Tpart (st w) Qs U -> homes (st w) U -> c ∉ U -> in_tab (st w) c -> 1 <= q <= 128 -> Qs q ->
  (forall s', Tpart s' Qs (U ∪ {[c]}) -> frame true false false {[c]} (st w) s' ->
     thead (CB s' c) = q -> hhead (CB s' c) = hhead (CB (st w) c) ->
     cb_status (CB s' c) = cb_status (CB (st w) c) -> cb_flags (CB s' c) = cb_flags (CB (st w) c) -> Q tt (set_st s' w)) ->
  wp f (TAdd c q) Q w.
Proof.
  intros HT HU Hc Hin Hq HQ HQ'. set (s := st w) in *.
  destruct (HT q Hq HQ) as (l & Hr & Hnd & Hm). assert (Hcl : c ∉ l) by (intros [? _]%Hm; done).
  assert (Htab : forall x, x ∈ l -> in_tab s x) by (intros x Hx; apply HU; by apply Hm).
  assert (H0 : forall x, x ∈ l -> x <> 0) by (intros x Hx; specialize (Htab x Hx); unfold in_tab in Htab; lia).
  set (t := timeout s q) in *.
  assert (Htl : t <> 0 -> t ∈ l /\ tp s t ∈ l).
  { intros E0. assert (Htl : t ∈ l) by (apply (ring_head _ _ _ _ Hr); intros ->; by destruct Hr as [_ E1]).
    split; [done|]. by apply (ring_neighbours _ _ _ _ _ Hr). }
  unfold TAdd. apply wp_tadd_link; [done|done| |].
  { fold s t. intros E0. destruct (Htl E0) as [H1 H2]. split_and!; [by apply Htab|by intros E; rewrite E in H1|by apply Htab|by intros E; rewrite E in H2]. }
  intros s1 [F1 Hto Htoq Ftn Ftp]. fold s t in F1, Hto, Htoq, Ftn, Ftp.
  assert (En : nblks s1 = nblks s) by apply F1. assert (Hin1 : in_tab s1 c) by (unfold in_tab in *; lia).
  apply wp_cb_put; [done|]. rewrite u8_small by mlia. cbsimp. set (s' := set_CB c _ s1).
  assert (Ftn' : forall x, tn s' x = tn s1 x) by (intros x; subst s'; unfold tn; cbsimp; upd_case; done).
  assert (Ftp' : forall x, tp s' x = tp s1 x) by (intros x; subst s'; unfold tp; cbsimp; upd_case; done).
  assert (Fth : forall x, thead (CB s' x) = if x =? c then q else thead (CB s x)).
  { intros x. subst s'. cbsimp. upd_case; [done|]. by apply (fr_info _ _ _ _ _ _ F1). }
  assert (F2 : frame false false false {[c]} s1 s').
  { subst s'. split; try done; cbsimp; intros; repeat split; intros; upd_case; cbsimp; try done;
      by rewrite elem_of_singleton in *. }
  pose proof (cb_frame_trans _ _ _ _ _ _ _ _ _ _ _ F1 F2) as F. cbn [orb] in F. rewrite union_empty_l_L in F.
  destruct (fr_info _ _ _ _ _ _ F1 c ltac:(apply not_elem_of_empty)) as (I1 & I2 & _ & I4).
  apply (HQ' s'); [|done|by rewrite Fth, Z.eqb_refl| | |]; try (subst s'; cbsimp; rewrite Z.eqb_refl; done).
  intros q' Hq' HQq'. destruct (Z.eq_dec q' q) as [->|Hne].
  - destruct (ring_add _ _ (tn s') (tp s') _ (timeout s' q) l c Hr Hnd Hcl H0) as (l' & Hr' & Hnd' & Hm').
    + fold t. intros E0. rewrite Ftn', Ftp', Ftn, Ftp, Z.eqb_refl. subst s'. cbsimp. rewrite Htoq.
      by replace (t =? 0) with true by lia.
    + fold t. intros E0. rewrite Ftn', Ftp', Ftn, Ftp, Z.eqb_refl. subst s'. cbsimp. rewrite Htoq.
      replace (t =? 0) with false by lia. split_and!; try done; intros x Hx.
      * rewrite Ftn', Ftn. replace (t =? 0) with false by lia. destruct (Z.eqb_spec x c) as [->|]; done.
      * rewrite Ftp', Ftp. replace (t =? 0) with false by lia. destruct (Z.eqb_spec x c) as [->|]; done.
    + exists l'. split; [done|]. split; [done|]. intros x. rewrite Hm', Hm, Fth, elem_of_union, elem_of_singleton.
      destruct (Z.eqb_spec x c) as [->|]; [tauto|]. split; [intros [[? ?]|?]; [auto|done]|intros [[?|?] ?]; [auto|done]].
  - destruct (HT q' Hq' HQq') as (l0 & Hr0 & Hnd0 & Hm0). exists l0.
    assert (Hout : forall x, x ∈ l0 -> x ∉ l) by (intros x [_ Hx]%Hm0 [_ Hx']%Hm; congruence).
    assert (Hxc : forall x, x ∈ l0 -> x <> c) by (intros x [Hx _]%Hm0 ->; done).
    split; [|split; [done|]].
    + assert (E0 : timeout s' q' = timeout s q') by (subst s'; cbsimp; by apply Hto). rewrite E0.
      revert Hr0. apply ring_ext; intros x Hx; [rewrite Ftn', Ftn|rewrite Ftp', Ftp];
        (destruct (Z.eqb_spec x c); [by destruct (Hxc x)|]); destruct (Z.eqb_spec t 0); try done.
      * destruct (Z.eqb_spec x (tp s t)) as [->|]; [|done]. by destruct (Hout _ Hx); apply Htl.
      * destruct (Z.eqb_spec x t) as [->|]; [|done]. by destruct (Hout _ Hx); apply Htl.
    + intros x. rewrite Hm0, Fth, elem_of_union, elem_of_singleton. destruct (Z.eqb_spec x c) as [->|]; [|tauto].
      split; [tauto|]. intros [_ E0]. congruence.
Qed.

(** ** The lists of the hosts *)

(** Hosts that differ at most in their list. *)
Lemma cblist_frame (m : gmap Z host) h v x :
  m !! h = Some v -> forall h', with_cblist 0 <$> <[h := with_cblist x v]> m !! h' = with_cblist 0 <$> m !! h'.
Proof.
  intros Hv h'. destruct (decide (h' = h)) as [->|]; [by rewrite lookup_insert_eq, Hv|by rewrite lookup_insert_ne].
Qed.

Lemma wp_HDel f c (D : Z -> Prop) U (Q : unit -> world -> Prop) w :
  Lpart (st w) D U -> homes (st w) U -> c ∈ U -> D (hhead (CB (st w) c)) ->
  (forall s', Lpart s' D (U ∖ {[c]}) -> frame false true false ∅ (st w) s' -> Q tt (set_st s' w)) ->
  wp f (HDel c) Q w.
Proof.
  intros HL HU Hc HD HQ'. destruct (HU c Hc) as (Hin & _ & v & Hv).
  set (s := st w) in *. set (h := hhead (CB s c)) in *.
  destruct (HL h v Hv HD) as (l & Hr & Hnd & Hm). assert (Hcl : c ∈ l) by by apply Hm.
  assert (Htab : forall x, x ∈ l -> in_tab s x) by (intros x Hx; apply HU; by apply Hm).
  destruct (ring_neighbours _ _ _ _ _ Hr Hcl) as [Hn Hp].
  pose proof (Htab _ Hn) as Tn. pose proof (Htab _ Hp) as Tp. unfold hn, hp in Tn, Tp.
  set (n := hnext (CB s c)) in *. set (p := hprev (CB s c)) in *.
  set (v1 := if cblist v =? c then with_cblist (if cblist v =? n then 0 else n) v else v).
  set (s1 := if cblist v =? c then set_host h v1 s else s).
  assert (E1 : CB s1 = CB s /\ nblks s1 = nblks s) by (subst s1; by destruct (_ =? c)). destruct E1 as [E1 E1'].
  assert (Hh1 : forall h', hosts s1 !! h' = if decide (h' = h) then Some v1 else hosts s !! h').
  { intros h'. subst s1 v1. destruct (cblist v =? c); cbsimp; destruct (decide (h' = h)) as [->|];
      rewrite ?lookup_insert_eq, ?lookup_insert_ne by done; done. }
  unfold HDel. apply wp_bind, wp_cb_at; [done|]. fold s h. apply wp_bind, (wp_host_at _ _ v); [done|]. fold n p.
  apply wp_bind. eapply (wp_mono _ _ (fun _ w' => w' = set_st s1 w)).
  { apply wp_when; intros E; subst s1 v1; rewrite E; [by apply (wp_host_put _ _ _ v)|by destruct w]. }
  intros _ w1 ->. apply wp_bind, wp_cb_put; [unfold in_tab in *; cbsimp; lia|]. cbsimp. rewrite E1.
  set (s2 := set_CB p (with_hnext n (CB s p)) s1).
  assert (En : hnext (CB s2 c) = n /\ hprev (CB s2 c) = p).
  { subst s2. cbsimp. rewrite E1. destruct (Z.eqb_spec c p) as [E|]; [|done]. cbsimp. by rewrite <- E. }
  destruct En as [En Ep]. apply wp_bind, wp_cb_at; [unfold in_tab in *; subst s2; cbsimp; lia|]. cbsimp. rewrite En, Ep.
  apply wp_cb_put; [unfold in_tab in *; subst s2; cbsimp; lia|]. cbsimp.
  set (s' := set_CB n _ s2). apply (HQ' s').
  - assert (Fhn : forall x, hn s' x = if x =? p then n else hn s x).
    { intros x. subst s' s2. unfold hn. cbsimp. rewrite E1. upd_case; cbsimp; congruence. }
    assert (Fhp : forall x, hp s' x = if x =? n then p else hp s x).
    { intros x. subst s' s2. unfold hp. cbsimp. rewrite E1. upd_case; cbsimp; congruence. }
    assert (Fth : forall x, hhead (CB s' x) = hhead (CB s x)).
    { intros x. subst s' s2. cbsimp. rewrite E1. upd_case; cbsimp; congruence. }
    intros h' v' Hv' HDh'. change (hosts s1 !! h' = Some v') in Hv'. rewrite Hh1 in Hv'.
    destruct (decide (h' = h)) as [->|Hne].
    + injection Hv' as <-.
      destruct (ring_remove _ _ (hn s') (hp s') _ (cblist v1) l c Hr Hnd Hcl) as (l' & Hr' & Hnd' & Hm').
      * intros x Hx. specialize (Htab x Hx). unfold in_tab in Htab. lia.
      * intros x _. apply Fhn.
      * intros x _. apply Fhp.
      * subst v1. by destruct (cblist v =? c).
      * exists l'. split; [done|]. split; [done|]. intros x. rewrite Hm', Hm, Fth, elem_of_difference, elem_of_singleton.
        fold h. tauto.
    + destruct (HL h' v' Hv' HDh') as (l0 & Hr0 & Hnd0 & Hm0). exists l0. split; [|split; [done|]].
      * assert (Hout : forall x, x ∈ l0 -> x ∉ l) by (intros x [_ Hx]%Hm0 [_ Hx']%Hm; congruence).
        revert Hr0. apply ring_ext; intros x Hx; [rewrite Fhn; destruct (Z.eqb_spec x p) as [->|]
          |rewrite Fhp; destruct (Z.eqb_spec x n) as [->|]]; try done; by destruct (Hout _ Hx).
      * intros x. rewrite Hm0, Fth, elem_of_difference, elem_of_singleton.
        split; [intros [? Hx]; split; [split; [done|]|done]|tauto]. intros ->. by apply Hne; rewrite <- Hx.
  - split; try (subst s' s2 s1; by destruct (cblist v =? c)).
    + intros x _. subst s' s2. cbsimp. rewrite E1. upd_case; cbsimp; split_and!; congruence.
    + intros h'. change (hosts s') with (hosts s1). rewrite Hh1. destruct (decide (h' = h)) as [->|]; [|done].
      rewrite Hv. subst v1. by destruct (cblist v =? c).
    + intros _. split; [subst s' s2 s1; by destruct (cblist v =? c)|].
      intros x. subst s' s2. cbsimp. rewrite E1. upd_case; cbsimp; split; congruence.
    + intros _. do 3 (split; [subst s' s2 s1; by destruct (cblist v =? c)|]).
      intros x. subst s' s2. cbsimp. rewrite E1. upd_case; cbsimp; split; congruence.
Qed.

(** What [HAdd] leaves: [x] is the old head of the host's list. *)
Record h_linked (c h : Z) (v : host) (s s1 : cbs) : Prop := {
  hl_frame : frame false true false {[c]} s s1;
  hl_self : hhead (CB s1 c) = h /\ thead (CB s1 c) = thead (CB s c)
    /\ cb_status (CB s1 c) = cb_status (CB s c) /\ cb_flags (CB s1 c) = cb_flags (CB s c);
  hl_hosts : forall h', hosts s1 !! h' =
    if decide (h' = h) then Some (with_cblist (if cblist v =? 0 then c else cblist v) v) else hosts s !! h';
  hl_next : forall x, hn s1 x = if x =? c then if cblist v =? 0 then c else cblist v
    else if cblist v =? 0 then hn s x else if x =? hp s (cblist v) then c else hn s x;
  hl_prev : forall x, hp s1 x = if x =? c then if cblist v =? 0 then c else hp s (cblist v)
    else if cblist v =? 0 then hp s x else if x =? cblist v then c else hp s x
}.

Lemma with_cblist_same v : with_cblist (cblist v) v = v.
Proof. by destruct v. Qed.

Lemma wp_hadd_link f c h v (Q : unit -> world -> Prop) w :
  in_tab (st w) c -> hosts (st w) !! h = Some v ->
  (cblist v <> 0 -> in_tab (st w) (cblist v) /\ cblist v <> c
     /\ in_tab (st w) (hp (st w) (cblist v)) /\ hp (st w) (cblist v) <> c) ->
  (forall s1, h_linked c h v (st w) s1 -> Q tt (set_st s1 w)) -> wp f (HAdd c h) Q w.
Proof.
  intros Hin Hv Ht HK. set (s := st w) in *. unfold HAdd. apply wp_bind, wp_cb_put; [done|].
  apply wp_bind, (wp_host_at _ _ v); [done|]. set (t := cblist v) in *. destruct (t =? 0) eqn:Et.
  - apply wp_bind, wp_cb_put; [done|]. apply wp_bind, wp_cb_put; [done|]. apply (wp_host_put _ _ _ v); [done|].
    cbsimp. rewrite !Z.eqb_refl. apply HK. split; fold t; rewrite ?Et.
    + split; try done; cbsimp; try (by intros h'; destruct (decide (h' = h)) as [->|]; rewrite ?lookup_insert_eq, ?lookup_insert_ne, ?Hv by done);
        intros; repeat split; intros; upd_case; try done; by rewrite elem_of_singleton in *.
    + cbsimp. by rewrite !Z.eqb_refl.
    + intros h'. cbsimp. destruct (decide (h' = h)) as [->|]; by rewrite ?lookup_insert_eq, ?lookup_insert_ne.
    + intros x. unfold hn. cbsimp. upd_case; done.
    + intros x. unfold hp. cbsimp. upd_case; done.
  - destruct Ht as (Tt & Htc & Tp & Hpc); [lia|]. unfold hp in Hpc, Tp. set (p := hprev (CB s t)) in *.
    apply wp_bind, wp_cb_at; [done|]. cbsimp. fold s. destruct (Z.eqb_spec t c); [done|]. fold p.
    apply wp_bind, wp_cb_put; [done|]. apply wp_bind, wp_cb_put; [done|]. apply wp_bind, wp_cb_at; [done|]. cbsimp. fold s.
    destruct (Z.eqb_spec t c); [done|]. fold p. rewrite !Z.eqb_refl.
    apply wp_bind, wp_cb_put; [done|]. apply wp_cb_put; [done|]. cbsimp. fold s. apply HK. split; fold t; rewrite ?Et.
    + split; try done; cbsimp; intros; repeat split; intros; upd_case; cbsimp; try congruence; by rewrite elem_of_singleton in *.
    + cbsimp. rewrite !Z.eqb_refl. destruct (Z.eqb_spec c t); [congruence|]. destruct (Z.eqb_spec c p); [congruence|]. done.
    + intros h'. cbsimp. unfold t. rewrite with_cblist_same. by destruct (decide (h' = h)) as [->|].
    + intros x. unfold hn, hp. cbsimp. fold p. upd_case; cbsimp; congruence.
    + intros x. unfold hp. cbsimp. fold p. upd_case; cbsimp; congruence.
Qed.

Lemma wp_HAdd f c h (D : Z -> Prop) U (Q : unit -> world -> Prop) w :
  Lpart (st w) D U -> homes (st w) U -> c ∉ U -> in_tab (st w) c -> is_Some (hosts (st w) !! h) -> D h ->
  (forall s', Lpart s' D (U ∪ {[c]}) -> frame false true false {[c]} (st w) s' ->
     hhead (CB s' c) = h -> thead (CB s' c) = thead (CB (st w) c) ->
     cb_status (CB s' c) = cb_status (CB (st w) c) -> cb_flags (CB s' c) = cb_flags (CB (st w) c) -> Q tt (set_st s' w)) ->
  wp f (HAdd c h) Q w.
Proof.
  intros HL HU Hc Hin [v Hv] HD HQ'. set (s := st w) in *.
  destruct (HL h v Hv HD) as (l & Hr & Hnd & Hm). assert (Hcl : c ∉ l) by (intros [? _]%Hm; done).
  assert (Htab : forall x, x ∈ l -> in_tab s x) by (intros x Hx; apply HU; by apply Hm).
  assert (H0 : forall x, x ∈ l -> x <> 0) by (intros x Hx; specialize (Htab x Hx); unfold in_tab in Htab; lia).
  set (t := cblist v) in *.
  assert (Htl : t <> 0 -> t ∈ l /\ hp s t ∈ l).
  { intros E0. assert (Htl : t ∈ l) by (apply (ring_head _ _ _ _ Hr); intros ->; by destruct Hr as [_ E1]).
    split; [done|]. by apply (ring_neighbours _ _ _ _ _ Hr). }
  apply (wp_hadd_link _ _ _ v); [done|done| |].
  { fold s t. intros E0. destruct (Htl E0) as [H1 H2]. split_and!; [by apply Htab|by intros E; rewrite E in H1|by apply Htab|by intros E; rewrite E in H2]. }
  intros s' [F (I1 & I2 & I3 & I4) Hho Fhn Fhp]. fold s t in F, Hho, Fhn, Fhp, I2, I3, I4.
  assert (Fth : forall x, hhead (CB s' x) = if x =? c then h else hhead (CB s x)).
  { intros x. destruct (Z.eqb_spec x c) as [->|]; [done|]. apply (fr_info _ _ _ _ _ _ F). by rewrite elem_of_singleton. }
  apply (HQ' s'); try done. intros h' v' Hv' HDh'. rewrite Hho in Hv'. destruct (decide (h' = h)) as [->|Hne].
  - injection Hv' as <-. cbsimp.
    destruct (ring_add _ _ (hn s') (hp s') _ (if t =? 0 then c else t) l c Hr Hnd Hcl H0) as (l' & Hr' & Hnd' & Hm').
    + fold t. intros E0. rewrite Fhn, Fhp, Z.eqb_refl. by replace (t =? 0) with true by lia.
    + fold t. intros E0. rewrite Fhn, Fhp, Z.eqb_refl. replace (t =? 0) with false by lia. split_and!; try done; intros x Hx.
      * rewrite Fhn. replace (t =? 0) with false by lia. destruct (Z.eqb_spec x c) as [->|]; done.
      * rewrite Fhp. replace (t =? 0) with false by lia. destruct (Z.eqb_spec x c) as [->|]; done.
    + exists l'. split; [done|]. split; [done|]. intros x. rewrite Hm', Hm, Fth, elem_of_union, elem_of_singleton.
      destruct (Z.eqb_spec x c) as [->|]; [tauto|]. split; [intros [[? ?]|?]; [auto|done]|intros [[?|?] ?]; [auto|done]].
  - destruct (HL h' v' Hv' HDh') as (l0 & Hr0 & Hnd0 & Hm0). exists l0.
    assert (Hout : forall x, x ∈ l0 -> x ∉ l) by (intros x [_ Hx]%Hm0 [_ Hx']%Hm; congruence).
    assert (Hxc : forall x, x ∈ l0 -> x <> c) by (intros x [Hx _]%Hm0 ->; done).
    split; [|split; [done|]].
    + revert Hr0. apply ring_ext; intros x Hx; [rewrite Fhn|rewrite Fhp];
        (destruct (Z.eqb_spec x c); [by destruct (Hxc x)|]); destruct (Z.eqb_spec t 0); try done.
      * destruct (Z.eqb_spec x (hp s t)) as [->|]; [|done]. by destruct (Hout _ Hx); apply Htl.
      * destruct (Z.eqb_spec x t) as [->|]; [|done]. by destruct (Hout _ Hx); apply Htl.
    + intros x. rewrite Hm0, Fth, elem_of_union, elem_of_singleton. destruct (Z.eqb_spec x c) as [->|]; [|tauto].
      split; [tauto|]. intros [_ E0]. congruence.
Qed.
