(* ===== verification/CbFile.v ===== *)
(** * Call-backs: files, their call-backs, and the free lists

    The parts of the invariant about the hash chains, the chains of call-backs of the
    files and the free lists, and the operations that change them. *)

From stdpp Require Import prelude list gmap list_numbers.
From Stdlib Require Import ZArith Lia ZifyBool.
From S2P Require Import Prelude ByteMem CbTab CbRing CbOk.

#[local] Open Scope Z_scope.
#[local] Open Scope cb_scope.

(** ** The parts *)

Definition fe_hash (s : cbs) (fe : Z) : Z := FEHash (volid (FE s fe)) (unique (FE s fe)).
Definition fe_fid (s : cbs) (fe : Z) : AFSFid := (volid (FE s fe), vnode (FE s fe), unique (FE s fe)).
Definition later (s : cbs) (fe : Z) : bool := is_later (FE s fe).

(** A list of free entries, linked by pointers. *)
Fixpoint pchain (base : Z) (nx : Z -> Z) (p : Z) (l : list Z) : Prop :=
  match l with
  | [] => p = 0
  | i :: l => p = base + sizeof_entry * i /\ pchain base nx (nx i) l
  end.

Definition Cfree (s : cbs) (V : gset Z) : Prop :=
  exists l, pchain (CB_base s) (fun c => cb_object_next (CB s c)) (CBfree s) l /\ NoDup l
    /\ forall c, c ∈ l -> in_tab s c /\ c ∉ V.
Definition Ffree (s : cbs) (V : gset Z) : Prop :=
  exists l, pchain (FE_base s) (fun fe => fe_object_next (FE s fe)) (FEfree s) l /\ NoDup l
    /\ forall fe, fe ∈ l -> in_tab s fe /\ fe ∉ V.

Record Fpart (s : cbs) (A U : gset Z) : Prop := {
  fp_file : forall fe, fe ∈ A -> exists l, chain (cn s) (firstcb (FE s fe)) l /\ NoDup l
    /\ ncbs (FE s fe) = Z.of_nat (length l) /\ forall c, c ∈ l <-> c ∈ U /\ fhead (CB s c) = fe;
  fp_home : forall c, c ∈ U -> fhead (CB s c) ∈ A /\ in_tab s c;
  fp_one : forall c c', c ∈ U -> c' ∈ U -> fhead (CB s c) = fhead (CB s c') -> hhead (CB s c) = hhead (CB s c') -> c = c';
  fp_later : forall c, c ∈ U -> later s (fhead (CB s c)) = true -> cb_status (CB s c) = CB_DELAYED
}.

Record Hpart (s : cbs) (A : gset Z) : Prop := {
  hp_chain : forall b, 0 <= b < 512 -> exists l, chain (fn s) (HashTable s b) l /\ NoDup l
    /\ forall fe, fe ∈ l <-> fe ∈ A /\ fe_hash s fe = b;
  hp_tab : forall fe, fe ∈ A -> in_tab s fe;
  hp_unique : forall fe fe', fe ∈ A -> fe' ∈ A -> later s fe = false -> later s fe' = false ->
    fe_fid s fe = fe_fid s fe' -> fe = fe'
}.

(** The arrays begin behind address 0, and their size is an int. *)
Definition addresses (s : cbs) : Prop :=
  0 < FE_base s + sizeof_entry /\ 0 < CB_base s + sizeof_entry /\ nblks s < 2 ^ 31.

(** Files [A] in the hash table, files [X] outside it, call-backs [U], entries [KC] and
    [KF] in the hands of handlers. *)
Record Cpart (KC KF A X U : gset Z) (s : cbs) : Prop := {
  cp_file : Fpart s (A ∪ X) U;
  cp_hash : Hpart s A;
  cp_cfree : Cfree s (U ∪ KC);
  cp_ffree : Ffree s (A ∪ X ∪ KF);
  cp_addr : addresses s;
  cp_apart : A ## X /\ U ## KC /\ A ∪ X ## KF;
  cp_tab : forall i, i ∈ X ∪ KC ∪ KF -> in_tab s i
}.

Lemma FEHash_range v u : 0 <= FEHash v u < 512.
Proof.
  unfold FEHash, FEHASH_SIZE. change (512 - 1) with (Z.ones 9). rewrite Z.land_ones by lia.
  change (2 ^ 9) with 512. mlia.
Qed.

Lemma addresses_frame ft fl fc X s s' : frame ft fl fc X s s' -> addresses s -> addresses s'.
Proof. intros F. unfold addresses. destruct (fr_addr _ _ _ _ _ _ F) as [-> ->]. by rewrite (fr_n _ _ _ _ _ _ F). Qed.

(** ** Getting and freeing entries *)

Lemma pchain_ext base nx nx' p l :
  (forall i, i ∈ l -> nx' i = nx i) -> pchain base nx p l -> pchain base nx' p l.
Proof.
  revert p. induction l as [|i l IH]; intros p E H; [done|]. destruct H as [-> H]. split; [done|].
  rewrite E by left. apply IH; [|done]. intros j Hj. apply E. by right.
Qed.

Lemma object_next_set p : p mod 2 ^ 32 + 2 ^ 32 * (p / 2 ^ 32) = p.
Proof. pose proof (Z.div_mod p (2 ^ 32)). lia. Qed.

Lemma ptr_index base p i : p = base + sizeof_entry * i -> 0 < base + sizeof_entry -> 1 <= i ->
  p <> 0 /\ (p - base) / sizeof_entry = i.
Proof. unfold sizeof_entry. intros -> Hb Hi. split; [lia|]. mlia. Qed.

Lemma in_tab_nodup s l : NoDup l -> (forall i, i ∈ l -> in_tab s i) -> (length l <= Z.to_nat (nblks s))%nat.
Proof.
  intros Hn Hb. replace (Z.to_nat (nblks s)) with (length (seqZ 1 (nblks s))) by apply length_seqZ.
  apply submseteq_length, NoDup_submseteq; [done|]. intros b Hin. apply elem_of_seqZ. specialize (Hb b Hin).
  unfold in_tab in Hb. lia.
Qed.

(** ** Changes that a part does not see *)

Lemma Fpart_ext s s' A U :
  nblks s' = nblks s ->
  (forall fe, fe ∈ A -> firstcb (FE s' fe) = firstcb (FE s fe) /\ ncbs (FE s' fe) = ncbs (FE s fe)
     /\ fe_status (FE s' fe) = fe_status (FE s fe)) ->
  (forall c, c ∈ U -> cnext (CB s' c) = cnext (CB s c) /\ fhead (CB s' c) = fhead (CB s c)
     /\ hhead (CB s' c) = hhead (CB s c) /\ cb_status (CB s' c) = cb_status (CB s c)) ->
  Fpart s A U -> Fpart s' A U.
Proof.
  intros En EF EC [H1 H2 H3 H4].
  assert (Ef : forall c, c ∈ U -> fhead (CB s' c) = fhead (CB s c)) by (intros c Hc; apply EC, Hc).
  split.
  - intros fe Hfe. destruct (H1 fe Hfe) as (l & Hl & Hnd & Hlen & Hm). exists l.
    destruct (EF fe Hfe) as (-> & -> & _). split; [|split; [done|split; [done|]]].
    + revert Hl. apply chain_ext. intros c [Hc _]%Hm. symmetry. by apply EC.
    + intros c. rewrite Hm. split; intros [Hc <-]; (split; [done|]); [|symmetry]; by apply Ef.
  - intros c Hc. rewrite Ef by done. unfold in_tab. rewrite En. by apply H2.
  - intros c c' Hc Hc'. rewrite !Ef by done. destruct (EC c Hc) as (_ & _ & -> & _), (EC c' Hc') as (_ & _ & -> & _).
    by apply H3.
  - intros c Hc. rewrite Ef by done. destruct (EC c Hc) as (_ & _ & _ & ->). unfold later, is_later.
    destruct (EF (fhead (CB s c))) as (_ & _ & ->); [by apply H2|]. by apply H4.
Qed.

Lemma Hpart_ext s s' A :
  nblks s' = nblks s -> (forall b, HashTable s' b = HashTable s b) ->
  (forall fe, fe ∈ A -> vnode (FE s' fe) = vnode (FE s fe) /\ unique (FE s' fe) = unique (FE s fe)
     /\ volid (FE s' fe) = volid (FE s fe) /\ fnext (FE s' fe) = fnext (FE s fe)
     /\ fe_status (FE s' fe) = fe_status (FE s fe)) ->
  Hpart s A -> Hpart s' A.
Proof.
  intros En EH EF [H1 H2 H3].
  assert (Eh : forall fe, fe ∈ A -> fe_hash s' fe = fe_hash s fe /\ fe_fid s' fe = fe_fid s fe /\ later s' fe = later s fe).
  { intros fe Hfe. destruct (EF fe Hfe) as (E1 & E2 & E3 & _ & E5). unfold fe_hash, fe_fid, later, is_later.
    by rewrite E1, E2, E3, E5. }
  split.
  - intros b Hb. destruct (H1 b Hb) as (l & Hl & Hnd & Hm). exists l. rewrite EH. split; [|split; [done|]].
    + revert Hl. apply chain_ext. intros fe [Hfe _]%Hm. symmetry. by apply EF.
    + intros fe. rewrite Hm. split; intros [Hfe <-]; (split; [done|]); [|symmetry]; by apply Eh.
  - intros fe Hfe. unfold in_tab. rewrite En. by apply H2.
  - intros fe fe' Hfe Hfe'. destruct (Eh fe Hfe) as (_ & -> & ->), (Eh fe' Hfe') as (_ & -> & ->). by apply H3.
Qed.

Lemma Cfree_ext s s' V V' :
  nblks s' = nblks s -> CB_base s' = CB_base s -> CBfree s' = CBfree s -> V' ⊆ V ->
  (forall c, c ∉ V -> cnext (CB s' c) = cnext (CB s c) /\ fhead (CB s' c) = fhead (CB s c)) ->
  Cfree s V -> Cfree s' V'.
Proof.
  intros En Eb Ef HV EC (l & Hl & Hnd & Hm). exists l. rewrite Eb, Ef. split; [|split; [done|]].
  - revert Hl. apply pchain_ext. intros c Hc. unfold cb_object_next. destruct (Hm c Hc) as [_ Hc'].
    by destruct (EC c Hc') as [-> ->].
  - intros c Hc. unfold in_tab. rewrite En. destruct (Hm c Hc). split; [done|]. auto.
Qed.

Lemma Ffree_ext s s' V V' :
  nblks s' = nblks s -> FE_base s' = FE_base s -> FEfree s' = FEfree s -> V' ⊆ V ->
  (forall fe, fe ∉ V -> vnode (FE s' fe) = vnode (FE s fe) /\ unique (FE s' fe) = unique (FE s fe)) ->
  Ffree s V -> Ffree s' V'.
Proof.
  intros En Eb Ef HV EC (l & Hl & Hnd & Hm). exists l. rewrite Eb, Ef. split; [|split; [done|]].
  - revert Hl. apply pchain_ext. intros c Hc. unfold fe_object_next. destruct (Hm c Hc) as [_ Hc'].
    by destruct (EC c Hc') as [-> ->].
  - intros c Hc. unfold in_tab. rewrite En. destruct (Hm c Hc). split; [done|]. auto.
Qed.

Lemma wp_iGetCB f KC KF A X U (Q : Z -> world -> Prop) w :
  Cpart KC KF A X U (st w) -> Q 0 w ->
  (forall c p n, c ∉ U ∪ KC -> in_tab (st w) c -> Cpart ({[c]} ∪ KC) KF A X U (set_CBfree p n (st w)) ->
     Q c (set_st (set_CBfree p n (st w)) w)) ->
  wp f iGetCB Q w.
Proof.
  intros HC H0 HQ. pose proof (cp_cfree _ _ _ _ _ _ HC) as (l & Hl & Hnd & Hm). unfold iGetCB.
  apply wp_bind, wp_get. destruct l as [|c l]; [cbn in Hl; rewrite Hl; by apply wp_ret|]. destruct Hl as [Hp Hl].
  destruct (Hm c) as [Hin Hc]; [left|]. destruct (cp_addr _ _ _ _ _ _ HC) as (_ & Ha & _).
  destruct (ptr_index _ _ _ Hp Ha) as [Hp0 Hpi]; [apply Hin|]. unfold cbtoi. rewrite (proj2 (Z.eqb_neq _ 0) Hp0), Hpi.
  apply wp_bind, wp_cb_at; [done|]. apply wp_bind, wp_modify, wp_ret. apply HQ; [done|done|].
  apply NoDup_cons in Hnd as [Hcl Hnd]. destruct HC as [A1 A2 A3 A4 A5 (A6 & A7 & A8) A9].
  split; [by apply (Fpart_ext (st w))|by apply (Hpart_ext (st w))| |by apply (Ffree_ext (st w) _ (A ∪ X ∪ KF))|done| |].
  - exists l. split; [done|]. split; [done|]. intros x Hx. destruct (Hm x) as [? Hx']; [by right|]. split; [done|].
    rewrite !elem_of_union, elem_of_singleton in *. intros [?|[->|?]]; [tauto|done|tauto].
  - split; [done|]. split; [|done]. intros x Hx [->%elem_of_singleton|Hk]%elem_of_union; [|by apply (A7 x)].
    apply Hc, elem_of_union_l, Hx.
  - intros i Hi. destruct (decide (i = c)) as [->|]; [done|]. apply A9.
    rewrite !elem_of_union, elem_of_singleton in *. tauto.
Qed.

Lemma wp_iGetFE f KC KF A X U (Q : Z -> world -> Prop) w :
  Cpart KC KF A X U (st w) -> Q 0 w ->
  (forall fe p n, fe ∉ A ∪ X ∪ KF -> in_tab (st w) fe -> Cpart KC ({[fe]} ∪ KF) A X U (set_FEfree p n (st w)) ->
     Q fe (set_st (set_FEfree p n (st w)) w)) ->
  wp f iGetFE Q w.
Proof.
  intros HC H0 HQ. pose proof (cp_ffree _ _ _ _ _ _ HC) as (l & Hl & Hnd & Hm). unfold iGetFE.
  apply wp_bind, wp_get. destruct l as [|c l]; [cbn in Hl; rewrite Hl; by apply wp_ret|]. destruct Hl as [Hp Hl].
  destruct (Hm c) as [Hin Hc]; [left|]. destruct (cp_addr _ _ _ _ _ _ HC) as (Ha & _).
  destruct (ptr_index _ _ _ Hp Ha) as [Hp0 Hpi]; [apply Hin|]. unfold fetoi. rewrite (proj2 (Z.eqb_neq _ 0) Hp0), Hpi.
  apply wp_bind, wp_fe_at; [done|]. apply wp_bind, wp_modify, wp_ret. apply HQ; [done|done|].
  apply NoDup_cons in Hnd as [Hcl Hnd]. destruct HC as [A1 A2 A3 A4 A5 (A6 & A7 & A8) A9].
  split; [by apply (Fpart_ext (st w))|by apply (Hpart_ext (st w))|by apply (Cfree_ext (st w) _ (U ∪ KC))| |done| |].
  - exists l. split; [done|]. split; [done|]. intros x Hx. destruct (Hm x) as [? Hx']; [by right|]. split; [done|].
    rewrite !elem_of_union, elem_of_singleton in *. intros [?|[->|?]]; [tauto|done|tauto].
  - split; [done|]. split; [done|]. intros x Hx [->%elem_of_singleton|Hk]%elem_of_union; [|by apply (A8 x)].
    apply Hc, elem_of_union_l, Hx.
  - intros i Hi. destruct (decide (i = c)) as [->|]; [done|]. apply A9.
    rewrite !elem_of_union, elem_of_singleton in *. tauto.
Qed.

(** The tables after [iFreeCB c] and [iFreeFE fe]. *)
Definition freed_cb (c : Z) (s : cbs) : cbs :=
  set_CBfree (cb_ptr s c) (nCBs s - 1) (set_CB c (cb_set_object_next (CBfree s) (CB s c)) s).
Definition freed_fe (fe : Z) (s : cbs) : cbs :=
  set_FEfree (fe_ptr s fe) (nFEs s - 1) (set_FE fe (fe_set_object_next (FEfree s) (FE s fe)) s).

Lemma wp_iFreeCB f c (Q : unit -> world -> Prop) w :
  in_tab (st w) c -> Q tt (set_st (freed_cb c (st w)) w) -> wp f (iFreeCB c) Q w.
Proof. intros Hin HQ. unfold iFreeCB. apply wp_bind, wp_get, wp_bind, wp_cb_put; [done|]. by apply wp_modify. Qed.
Lemma wp_iFreeFE f fe (Q : unit -> world -> Prop) w :
  in_tab (st w) fe -> Q tt (set_st (freed_fe fe (st w)) w) -> wp f (iFreeFE fe) Q w.
Proof. intros Hin HQ. unfold iFreeFE. apply wp_bind, wp_get, wp_bind, wp_fe_put; [done|]. by apply wp_modify. Qed.

Lemma Cfree_freed s V c : Cfree s V -> in_tab s c -> addresses s -> c ∈ V -> Cfree (freed_cb c s) (V ∖ {[c]}).
Proof.
  intros (l & Hl & Hnd & Hm) Hin (_ & Ha & _) Hc. assert (Hcl : c ∉ l) by (intros Hx; by apply (Hm c)).
  exists (c :: l). split; [split|split].
  - unfold freed_cb, cb_ptr. cbsimp. unfold in_tab in Hin. by rewrite (proj2 (Z.eqb_neq c 0)) by lia.
  - revert Hl. replace (cb_object_next (CB (freed_cb c s) c)) with (CBfree s).
    + apply pchain_ext. intros i Hi. unfold freed_cb. cbsimp. destruct (Z.eqb_spec i c) as [->|]; done.
    + unfold freed_cb. cbsimp. rewrite Z.eqb_refl. unfold cb_object_next, cb_set_object_next. cbsimp.
      symmetry. apply object_next_set.
  - by apply NoDup_cons.
  - intros x [->|Hx]%elem_of_cons; rewrite elem_of_difference, elem_of_singleton; [tauto|].
    destruct (Hm x Hx). tauto.
Qed.

Lemma Ffree_freed s V c : Ffree s V -> in_tab s c -> addresses s -> c ∈ V -> Ffree (freed_fe c s) (V ∖ {[c]}).
Proof.
  intros (l & Hl & Hnd & Hm) Hin (Ha & _) Hc. assert (Hcl : c ∉ l) by (intros Hx; by apply (Hm c)).
  exists (c :: l). split; [split|split].
  - unfold freed_fe, fe_ptr. cbsimp. unfold in_tab in Hin. by rewrite (proj2 (Z.eqb_neq c 0)) by lia.
  - revert Hl. replace (fe_object_next (FE (freed_fe c s) c)) with (FEfree s).
    + apply pchain_ext. intros i Hi. unfold freed_fe. cbsimp. destruct (Z.eqb_spec i c) as [->|]; done.
    + unfold freed_fe. cbsimp. rewrite Z.eqb_refl. unfold fe_object_next, fe_set_object_next. cbsimp.
      symmetry. apply object_next_set.
  - by apply NoDup_cons.
  - intros x [->|Hx]%elem_of_cons; rewrite elem_of_difference, elem_of_singleton; [tauto|].
    destruct (Hm x Hx). tauto.
Qed.

(** ** Looking for a file *)

Lemma same_fid_iff s fe fid : same_fid (FE s fe) fid = true <-> fe_fid s fe = fid.
Proof.
  destruct fid as [[vol vn] un]. unfold same_fid, fe_fid. rewrite !andb_true_iff, !Z.eqb_eq.
  split; [intros [[-> ->] ->]; done|by intros [= <- <- <-]].
Qed.

Lemma wp_find_fe f n l hd fid (Q : Z -> world -> Prop) w :
  chain (fn (st w)) hd l -> (forall fe, fe ∈ l -> in_tab (st w) fe) -> (length l <= n)%nat ->
  ((forall fe, fe ∈ l -> later (st w) fe = false -> fe_fid (st w) fe <> fid) -> Q 0 w) ->
  (forall fe, fe ∈ l -> later (st w) fe = false -> fe_fid (st w) fe = fid -> Q fe w) ->
  wp f (find_fe n hd fid) Q w.
Proof.
  revert hd l. induction n as [|n IH]; intros hd l Hl Htab Hn H0 HQ; destruct l as [|fe l]; cbn [chain] in Hl.
  1, 3: subst hd; apply wp_ret, H0; intros fe Hx; by apply not_elem_of_nil in Hx.
  { cbn in Hn. lia. }
  destruct Hl as (-> & Hfe0 & Hl). cbn [find_fe]. rewrite (proj2 (Z.eqb_neq fe 0) Hfe0).
  apply wp_bind, wp_fe_at; [apply Htab; left|].
  destruct (same_fid (FE (st w) fe) fid && negb (is_later (FE (st w) fe))) eqn:E.
  - apply andb_true_iff in E as [E1 E2]. apply wp_ret, HQ; [left|by apply negb_true_iff|by apply same_fid_iff].
  - apply (IH _ l); [done|intros x Hx; apply Htab; by right|cbn in Hn; lia| |].
    + intros Hno. apply H0. intros x [->|Hx]%elem_of_cons; [|by apply Hno]. intros Hlat Hfid.
      apply same_fid_iff in Hfid. unfold later in Hlat. by rewrite Hfid, Hlat in E.
    + intros x Hx. apply HQ. by right.
Qed.

Lemma wp_FindFE f fid A (Q : Z -> world -> Prop) w :
  Hpart (st w) A ->
  ((forall fe, fe ∈ A -> later (st w) fe = false -> fe_fid (st w) fe <> fid) -> Q 0 w) ->
  (forall fe, fe ∈ A -> later (st w) fe = false -> fe_fid (st w) fe = fid -> Q fe w) ->
  wp f (FindFE fid) Q w.
Proof.
  intros [H1 H2 _] H0 HQ. destruct fid as [[vol vn] un]. unfold FindFE. cbn [fst snd].
  destruct (H1 _ (FEHash_range vol un)) as (l & Hl & Hnd & Hm).
  apply wp_bind, wp_get, wp_bind, wp_get, (wp_find_fe _ _ l); [done| | | |].
  - intros fe [Hfe _]%Hm. by apply H2.
  - apply in_tab_nodup; [done|]. intros fe [Hfe _]%Hm. by apply H2.
  - intros Hno. apply H0. intros fe Hfe Hlat Hfid. apply (Hno fe); [|done|done]. apply Hm. split; [done|].
    unfold fe_hash. unfold fe_fid in Hfid. injection Hfid as E1 _ E3; by rewrite E1, E3.
  - intros fe [Hfe _]%Hm. by apply HQ.
Qed.

(** ** Taking a file out of the hash table *)

(** The place that holds the index of the element behind [l1]. *)
Definition fe_loc_of (b : Z) (l1 : list Z) : fe_loc :=
  match last l1 with None => Bucket b | Some p => Fnext p end.

Lemma fe_loc_value f b l1 fe l2 s (Q : Z -> world -> Prop) w :
  st w = s -> chain (fn s) (HashTable s b) (l1 ++ fe :: l2) -> (forall x, x ∈ l1 -> in_tab s x) ->
  Q fe w -> wp f (fe_loc_get (fe_loc_of b l1)) Q w.
Proof.
  intros <- Hl Htab HQ. destruct (chain_split _ _ _ _ _ Hl) as (_ & _ & Hhd & Hlast). unfold fe_loc_of.
  destruct l1 as [|p l1 _] using rev_ind; [cbn [last]|rewrite last_snoc]; cbn [fe_loc_get].
  - apply wp_get. cbn in Hhd. by rewrite <- Hhd.
  - apply wp_bind, wp_fe_at; [apply Htab, elem_of_app; right; left|]. apply wp_ret.
    pose proof (Hlast l1 p eq_refl) as E. unfold fn in E. by rewrite E.
Qed.

Lemma wp_find_fe_loc f n b l1 l1' fe l2 (Q : fe_loc -> world -> Prop) w :
  chain (fn (st w)) (HashTable (st w) b) (l1' ++ l1 ++ fe :: l2) -> NoDup (l1' ++ l1 ++ fe :: l2) ->
  (forall x, x ∈ l1' ++ l1 -> in_tab (st w) x) -> (length l1 <= n)%nat -> fe <> 0 ->
  Q (fe_loc_of b (l1' ++ l1)) w -> wp f (find_fe_loc n fe (fe_loc_of b l1')) Q w.
Proof.
  revert l1 l1'. induction n as [|n IH]; intros l1 l1' Hl Hnd Htab Hn Hfe HQ; destruct l1 as [|x l1]; cbn [find_fe_loc].
  1, 3: apply wp_bind, (fe_loc_value _ _ _ fe l2 (st w)); [done|done|intros y Hy; apply Htab; by apply elem_of_app; left|];
    rewrite Z.eqb_refl, orb_true_r; apply wp_ret; by rewrite app_nil_r in HQ.
  { cbn in Hn. lia. }
  apply wp_bind, (fe_loc_value _ _ _ x (l1 ++ fe :: l2) (st w)); [done|done|intros y Hy; apply Htab; by apply elem_of_app; left|].
  assert (Hx0 : x <> 0).
  { assert (in_tab (st w) x) as [? _] by (apply Htab, elem_of_app; right; left). lia. }
  assert (Hxf : x <> fe).
  { intros ->. apply NoDup_app in Hnd as (_ & _ & Hnd). apply NoDup_cons in Hnd as [Hnd _]. apply Hnd, elem_of_app. right. left. }
  rewrite (proj2 (Z.eqb_neq x 0)), (proj2 (Z.eqb_neq x fe)) by done. cbn [orb].
  replace (Fnext x) with (fe_loc_of b (l1' ++ [x])) by (unfold fe_loc_of; by rewrite last_snoc).
  apply (IH l1); rewrite <- ?app_assoc; try done. cbn in Hn. lia.
Qed.

(** File entries that differ at most in their place in the hash table. *)
Definition same_file (s s' : cbs) (fe : Z) : Prop :=
  vnode (FE s' fe) = vnode (FE s fe) /\ unique (FE s' fe) = unique (FE s fe) /\ volid (FE s' fe) = volid (FE s fe)
  /\ ncbs (FE s' fe) = ncbs (FE s fe) /\ firstcb (FE s' fe) = firstcb (FE s fe)
  /\ fe_status (FE s' fe) = fe_status (FE s fe).

(** What storing [v] at a place of the hash table does. *)
Record fe_stored (b : Z) (l1 : list Z) (v : Z) (s s1 : cbs) : Prop := {
  fs_frame : frame false false true ∅ s s1;
  fs_cb : CB s1 = CB s /\ FEfree s1 = FEfree s /\ CBfree s1 = CBfree s;
  fs_file : forall fe, same_file s s1 fe;
  fs_hash : forall b', HashTable s1 b' = match last l1 with None => if b' =? b then v else HashTable s b' | Some _ => HashTable s b' end;
  fs_next : forall fe, fn s1 fe = match last l1 with None => fn s fe | Some p => if fe =? p then v else fn s fe end
}.

Lemma wp_fe_loc_put f b l1 v (Q : unit -> world -> Prop) w :
  (forall x, x ∈ l1 -> in_tab (st w) x) ->
  (forall s1, fe_stored b l1 v (st w) s1 -> Q tt (set_st s1 w)) -> wp f (fe_loc_put (fe_loc_of b l1) v) Q w.
Proof.
  intros Htab HQ. unfold fe_loc_of. destruct (last l1) as [p|] eqn:El; cbn [fe_loc_put].
  - apply wp_fe_put; [apply Htab; apply last_Some in El as [l ->]; apply elem_of_app; right; left|].
    apply HQ. split; rewrite ?El; [by split|done| |done|].
    + intros fe. unfold same_file. cbsimp. upd_case; done.
    + intros fe. unfold fn. cbsimp. upd_case; done.
  - apply wp_modify, HQ. split; rewrite ?El; by try split.
Qed.

Lemma frame_freed_fe fe s : frame false false true ∅ s (freed_fe fe s).
Proof. by split. Qed.

(** The hash chains without [fe]. *)
Lemma Hpart_remove s s1 A fe l1 l2 :
  Hpart s A -> fe ∈ A -> fe_stored (fe_hash s fe) l1 (fn s fe) s s1 ->
  chain (fn s) (HashTable s (fe_hash s fe)) (l1 ++ fe :: l2) -> NoDup (l1 ++ fe :: l2) ->
  (forall x, x ∈ l1 ++ fe :: l2 <-> x ∈ A /\ fe_hash s x = fe_hash s fe) ->
  Hpart (freed_fe fe s1) (A ∖ {[fe]}).
Proof.
  intros [H1 H2 H3] Hfe [F1 _ Es Eh En] Hl Hnd Hm. set (b := fe_hash s fe) in *.
  assert (Esame : forall x, x <> fe -> same_file s (freed_fe fe s1) x).
  { intros x Hx. unfold same_file, freed_fe. cbsimp. destruct (Z.eqb_spec x fe); [done|]. apply Es. }
  assert (Enb : nblks (freed_fe fe s1) = nblks s) by apply F1.
  assert (Efid : forall x, x <> fe -> fe_hash (freed_fe fe s1) x = fe_hash s x /\ fe_fid (freed_fe fe s1) x = fe_fid s x
    /\ later (freed_fe fe s1) x = later s x).
  { intros x Hx. destruct (Esame x Hx) as (E1 & E2 & E3 & _ & _ & E6). unfold fe_hash, fe_fid, later, is_later.
    by rewrite E1, E2, E3, E6. }
  assert (Efn : forall x, x <> fe -> fn (freed_fe fe s1) x = fn s1 x).
  { intros x Hx. unfold fn, freed_fe. cbsimp. by destruct (Z.eqb_spec x fe). }
  split.
  + intros b' Hb'. change (HashTable (freed_fe fe s1) b') with (HashTable s1 b').
    destruct (Z.eq_dec b' b) as [->|Hne].
    * exists (l1 ++ l2). assert (Hnd' : NoDup (fe :: l1 ++ l2)) by by rewrite <- Permutation_middle in Hnd.
      apply NoDup_cons in Hnd' as [Hfl Hnd']. split; [|split; [done|]].
      -- apply (chain_remove (fn s) _ (HashTable s b) _ l1 fe l2); [done|done|]. rewrite Eh.
         destruct (last l1) as [p|] eqn:El.
         ++ assert (Hp : p ∈ l1) by (apply last_Some in El as [l ->]; apply elem_of_app; right; left).
            assert (p <> fe) by (intros ->; apply Hfl, elem_of_app; by left).
            split; [done|]. split; [rewrite Efn, En, Z.eqb_refl by done; done|].
            intros c Hc Hcp. rewrite Efn by (intros ->; done). rewrite En. by destruct (Z.eqb_spec c p).
         ++ rewrite Z.eqb_refl. split; [done|]. intros c Hc. rewrite Efn, En; [done|].
            intros ->. apply Hfl, elem_of_app. by right.
      -- intros x. specialize (Hm x). rewrite elem_of_app, elem_of_cons in Hm. rewrite elem_of_app, elem_of_difference, elem_of_singleton.
         rewrite elem_of_app in Hfl. split.
         ++ intros Hx. assert (x <> fe) by (intros ->; done). destruct (Efid x) as (-> & _); [done|]. tauto.
         ++ intros [[Hx Hxf] Hxh]. destruct (Efid x) as (E1 & _); [done|]. rewrite E1 in Hxh. tauto.
    * destruct (H1 b' Hb') as (l0 & Hl0 & Hnd0 & Hm0). exists l0.
      assert (Hout : forall x, x ∈ l0 -> x ∉ l1 ++ fe :: l2) by (intros x [_ Hx]%Hm0 [_ Hx']%Hm; congruence).
      assert (Hxf : forall x, x ∈ l0 -> x <> fe) by (intros x Hx ->; apply (Hout fe Hx), elem_of_app; right; left).
      split; [|split; [done|]].
      -- rewrite Eh. replace (match last l1 with Some _ => _ | None => _ end) with (HashTable s b')
           by (destruct (last l1); [done|]; by destruct (Z.eqb_spec b' b)).
         revert Hl0. apply chain_ext. intros x Hx. rewrite Efn by auto. rewrite En.
         destruct (last l1) as [p|] eqn:El; [|done]. destruct (Z.eqb_spec x p) as [->|]; [|done].
         destruct (Hout p Hx). apply elem_of_app. left. apply last_Some in El as [l ->]. apply elem_of_app. right. left.
      -- intros x. rewrite Hm0, elem_of_difference, elem_of_singleton. split.
         ++ intros [Hx Hxh]. assert (x <> fe) by (apply Hxf, Hm0; done). destruct (Efid x) as (-> & _); [done|]. tauto.
         ++ intros [[Hx Hxf'] Hxh]. destruct (Efid x) as (E1 & _); [done|]. rewrite E1 in Hxh. tauto.
  + intros x [Hx _]%elem_of_difference. unfold in_tab. rewrite Enb. by apply H2.
  + intros x y [Hx Nx%not_elem_of_singleton]%elem_of_difference [Hy Ny%not_elem_of_singleton]%elem_of_difference.
    destruct (Efid x Nx) as (_ & -> & ->), (Efid y Ny) as (_ & -> & ->). by apply H3.
Qed.

Lemma wp_FDel_hash f fe A V (Q : unit -> world -> Prop) w :
  Hpart (st w) A -> fe ∈ A -> Ffree (st w) V -> fe ∈ V -> addresses (st w) ->
  (forall s', Hpart s' (A ∖ {[fe]}) -> Ffree s' (V ∖ {[fe]}) -> frame false false true ∅ (st w) s' ->
     (forall x, x <> fe -> same_file (st w) s' x) -> CB s' = CB (st w) -> CBfree s' = CBfree (st w) -> Q tt (set_st s' w)) ->
  wp f (FDel fe) Q w.
Proof.
  intros HH Hfe HV HfeV Ha HQ. pose proof HH as [H1 H2 _].
  pose proof (H2 fe Hfe) as Hin. assert (Hfe0 : fe <> 0) by (unfold in_tab in Hin; lia).
  set (s := st w) in *. set (b := fe_hash s fe).
  destruct (H1 b (FEHash_range _ _)) as (l & Hl & Hnd & Hm).
  assert (Hfl : fe ∈ l) by by apply Hm. apply list_elem_of_split in Hfl as (l1 & l2 & ->).
  assert (Htab : forall x, x ∈ l1 ++ fe :: l2 -> in_tab s x) by (intros x [Hx _]%Hm; by apply H2).
  assert (Htab1 : forall x, x ∈ l1 -> in_tab s x) by (intros x Hx; apply Htab, elem_of_app; by left).
  unfold FDel. apply wp_bind, wp_get, wp_bind, wp_fe_at; [done|]. fold s. change (FEHash _ _) with b.
  apply wp_bind, (wp_find_fe_loc _ _ _ l1 [] _ l2); [done|done|done| |done|].
  { pose proof (in_tab_nodup s _ Hnd Htab) as Hlen. rewrite length_app in Hlen. fold s. lia. }
  cbn [app]. apply wp_bind, (fe_loc_value _ _ _ fe l2 s); [done|done|done|].
  rewrite (proj2 (Z.eqb_neq fe 0) Hfe0). apply wp_bind, wp_fe_at; [done|]. fold s.
  apply wp_bind, wp_fe_loc_put; [done|]. fold s. intros s1 HS. pose proof HS as [F1 (Ec & Ef & Ecf) Es _ _].
  apply wp_iFreeFE; [unfold in_tab; cbsimp; by rewrite (fr_n _ _ _ _ _ _ F1)|]. cbsimp.
  pose proof (cb_frame_trans _ _ _ _ _ _ _ _ _ _ _ F1 (frame_freed_fe fe s1)) as F. cbn [orb] in F. rewrite union_empty_l_L in F.
  apply HQ; [by apply (Hpart_remove s s1 A fe l1 l2)| |done| |by rewrite <- Ec|done].
  - apply Ffree_freed; [|unfold in_tab; by rewrite (fr_n _ _ _ _ _ _ F1)|by apply (addresses_frame _ _ _ _ _ _ F1)|done].
    apply (Ffree_ext s _ V); try done; try apply F1. intros x _. destruct (Es x) as (? & ? & _). done.
  - intros x Hx. unfold same_file, freed_fe. cbsimp. destruct (Z.eqb_spec x fe); [done|]. apply Es.
Qed.

(** Without the file [fe], whose call-backs are gone. *)
Lemma wp_FDel f fe KC KF A X U (Q : unit -> world -> Prop) w :
  Fpart (st w) (A ∖ {[fe]} ∪ X) U -> Hpart (st w) A -> Cfree (st w) (U ∪ KC) -> Ffree (st w) (A ∪ X ∪ KF) ->
  addresses (st w) -> A ## X /\ U ## KC /\ A ∪ X ## KF -> (forall i, i ∈ X ∪ KC ∪ KF -> in_tab (st w) i) -> fe ∈ A ->
  (forall s', Cpart KC KF (A ∖ {[fe]}) X U s' -> frame false false true ∅ (st w) s' ->
     (forall x, x <> fe -> same_file (st w) s' x) -> CB s' = CB (st w) -> Q tt (set_st s' w)) ->
  wp f (FDel fe) Q w.
Proof.
  intros A1 A2 A3 A4 A5 (A6 & A7 & A8) A9 Hfe HQ.
  apply (wp_FDel_hash _ _ A (A ∪ X ∪ KF)); [done|done|done|rewrite !elem_of_union; tauto|done|].
  intros s' HH HF F Hs Ec Ef. apply HQ; [|done|done|done]. split.
  - apply (Fpart_ext (st w)); [apply F| | |done]; [|intros c _; by rewrite Ec].
    intros x Hx. assert (x <> fe) as (_ & _ & _ & ? & ? & ?)%Hs; [|done]. intros ->.
    apply elem_of_union in Hx as [[_ []%not_elem_of_singleton]%elem_of_difference|Hx]; [done|]. by apply (A6 fe).
  - done.
  - apply (Cfree_ext (st w) _ (U ∪ KC)); try done; try apply F. intros c _. by rewrite Ec.
  - apply (Ffree_ext s' _ ((A ∪ X ∪ KF) ∖ {[fe]})); try done.
    intros x. rewrite !elem_of_union, !elem_of_difference, !elem_of_union, elem_of_singleton.
    intros [[[? ?]|?]|?]; (split; [tauto|]); [done|intros ->; by apply (A6 fe)|intros ->].
    apply (A8 fe); [apply elem_of_union; by left|done].
  - by apply (addresses_frame _ _ _ _ _ _ F).
  - split_and!; [|done|].
    + intros x [Hx _]%elem_of_difference Hx'. by apply (A6 x).
    + intros x Hx Hk. apply (A8 x); [|done]. revert Hx. rewrite !elem_of_union, elem_of_difference. tauto.
  - intros i Hi. unfold in_tab. rewrite (fr_n _ _ _ _ _ _ F). by apply A9.
Qed.

(** ** Taking a call-back off its file *)

Definition cb_loc_of (fe : Z) (l1 : list Z) : cb_loc :=
  match last l1 with None => Firstcb fe | Some p => Cnext p end.

(** Reading the place behind [l1]: [v] is the head of what follows. *)
Lemma cb_loc_value f fe l1 l2 (Q : Z -> world -> Prop) w :
  chain (cn (st w)) (firstcb (FE (st w) fe)) (l1 ++ l2) -> in_tab (st w) fe -> (forall x, x ∈ l1 -> in_tab (st w) x) ->
  Q (match l2 with [] => 0 | c :: _ => c end) w -> wp f (cb_loc_get (cb_loc_of fe l1)) Q w.
Proof.
  intros Hl Hfe Htab HQ. unfold cb_loc_of.
  destruct l1 as [|p l1 _] using rev_ind; [cbn [last]|rewrite last_snoc]; cbn [cb_loc_get].
  - apply wp_bind, wp_fe_at; [done|]. apply wp_ret. cbn [app] in Hl. destruct l2 as [|c l2]; cbn [chain] in Hl.
    + by rewrite Hl.
    + by destruct Hl as (-> & _).
  - apply wp_bind, wp_cb_at; [apply Htab, elem_of_app; right; left|]. apply wp_ret.
    rewrite <- app_assoc in Hl. cbn [app] in Hl. destruct (chain_split _ _ _ _ _ Hl) as (Hl2 & _).
    unfold cn at 2 in Hl2. destruct l2 as [|c l2]; cbn [chain] in Hl2; [by rewrite Hl2|by destruct Hl2 as (-> & _)].
Qed.

Lemma wp_cdel_loop f n fe l1 l1' c l2 (Q : cb_loc -> world -> Prop) w :
  chain (cn (st w)) (firstcb (FE (st w) fe)) (l1' ++ l1 ++ c :: l2) -> NoDup (l1' ++ l1 ++ c :: l2) ->
  in_tab (st w) fe -> (forall x, x ∈ l1' ++ l1 -> in_tab (st w) x) -> (length l1 <= n)%nat ->
  Q (cb_loc_of fe (l1' ++ l1)) w -> wp f (cdel_loop n c (cb_loc_of fe l1')) Q w.
Proof.
  revert l1 l1'. induction n as [|n IH]; intros l1 l1' Hl Hnd Hfe Htab Hn HQ; destruct l1 as [|x l1]; cbn [cdel_loop].
  1, 3: apply wp_bind, (cb_loc_value _ _ _ (c :: l2)); [done|done|intros y Hy; apply Htab; by apply elem_of_app; left|];
    rewrite Z.eqb_refl, orb_true_r; apply wp_ret; by rewrite app_nil_r in HQ.
  { cbn in Hn. lia. }
  apply wp_bind, (cb_loc_value _ _ _ (x :: l1 ++ c :: l2)); [done|done|intros y Hy; apply Htab; by apply elem_of_app; left|].
  assert (Hx0 : x <> 0).
  { assert (in_tab (st w) x) as [? _] by (apply Htab, elem_of_app; right; left). lia. }
  assert (Hxf : x <> c).
  { intros ->. apply NoDup_app in Hnd as (_ & _ & Hnd). apply NoDup_cons in Hnd as [Hnd _]. apply Hnd, elem_of_app. right. left. }
  rewrite (proj2 (Z.eqb_neq x 0)), (proj2 (Z.eqb_neq x c)) by done. cbn [orb].
  replace (Cnext x) with (cb_loc_of fe (l1' ++ [x])) by (unfold cb_loc_of; by rewrite last_snoc).
  apply (IH l1); rewrite <- ?app_assoc; try done. cbn in Hn. lia.
Qed.

(** The first call-back of host [h] on a chain, if any. *)
Lemma wp_find_cb_loop f n fe h l1 l2 (Q : cb_loc -> world -> Prop) w :
  chain (cn (st w)) (firstcb (FE (st w) fe)) (l1 ++ l2) -> in_tab (st w) fe ->
  (forall x, x ∈ l1 ++ l2 -> in_tab (st w) x) -> (length l2 <= n)%nat ->
  (forall c l l', l2 = l ++ c :: l' -> hhead (CB (st w) c) = h -> Q (cb_loc_of fe (l1 ++ l)) w) ->
  ((forall c, c ∈ l2 -> hhead (CB (st w) c) <> h) -> Q (cb_loc_of fe (l1 ++ l2)) w) ->
  wp f (find_cb_loop n h (cb_loc_of fe l1)) Q w.
Proof.
  revert l1 l2. induction n as [|n IH]; intros l1 l2 Hl Hfe Htab Hn HQ H0; destruct l2 as [|x l2]; cbn [find_cb_loop].
  1, 3: apply wp_bind, (cb_loc_value _ _ _ []); [done|done|intros y Hy; apply Htab; by apply elem_of_app; left|];
    apply wp_ret; rewrite app_nil_r in H0; apply H0; intros c Hc; by apply not_elem_of_nil in Hc.
  { cbn in Hn. lia. }
  apply wp_bind, (cb_loc_value _ _ _ (x :: l2)); [done|done|intros y Hy; apply Htab; by apply elem_of_app; left|].
  assert (Hx : in_tab (st w) x) by (apply Htab, elem_of_app; right; left).
  rewrite (proj2 (Z.eqb_neq x 0)) by (unfold in_tab in Hx; lia). apply wp_bind, wp_cb_at; [done|].
  destruct (Z.eqb_spec (hhead (CB (st w) x)) h) as [E|E].
  - apply wp_ret. specialize (HQ x [] l2 eq_refl E). by rewrite app_nil_r in HQ.
  - replace (Cnext x) with (cb_loc_of fe (l1 ++ [x])) by (unfold cb_loc_of; by rewrite last_snoc).
    apply (IH _ l2); rewrite <- ?app_assoc; try done.
    + cbn in Hn. lia.
    + intros c l l' El Hc. rewrite <- app_assoc. apply (HQ c (x :: l) l'); [by rewrite El|done].
    + intros Hno. apply H0. intros c [->|Hc]%elem_of_cons; [done|by apply Hno].
Qed.

(** What storing [v] at a place of a file's chain does. *)
Record cb_stored (fe : Z) (l1 : list Z) (v : Z) (s s1 : cbs) : Prop := {
  cs_frame : frame false false true ∅ s s1;
  cs_rest : HashTable s1 = HashTable s /\ FEfree s1 = FEfree s /\ CBfree s1 = CBfree s;
  cs_file : forall x, vnode (FE s1 x) = vnode (FE s x) /\ unique (FE s1 x) = unique (FE s x)
    /\ volid (FE s1 x) = volid (FE s x) /\ fnext (FE s1 x) = fnext (FE s x) /\ ncbs (FE s1 x) = ncbs (FE s x)
    /\ fe_status (FE s1 x) = fe_status (FE s x);
  cs_first : forall x, firstcb (FE s1 x) = match last l1 with None => if x =? fe then v else firstcb (FE s x) | Some _ => firstcb (FE s x) end;
  cs_next : forall x, cn s1 x = match last l1 with None => cn s x | Some p => if x =? p then v else cn s x end;
  cs_head : forall x, fhead (CB s1 x) = fhead (CB s x)
}.

Lemma wp_cb_loc_put f fe l1 v (Q : unit -> world -> Prop) w :
  in_tab (st w) fe -> (forall x, x ∈ l1 -> in_tab (st w) x) ->
  (forall s1, cb_stored fe l1 v (st w) s1 -> Q tt (set_st s1 w)) -> wp f (cb_loc_put (cb_loc_of fe l1) v) Q w.
Proof.
  intros Hfe Htab HQ. unfold cb_loc_of. destruct (last l1) as [p|] eqn:El; cbn [cb_loc_put].
  - apply wp_cb_put; [apply Htab; apply last_Some in El as [l ->]; apply elem_of_app; right; left|].
    apply HQ. split; rewrite ?El; try done.
    + split; try done; cbsimp; intros; repeat split; intros; upd_case; done.
    + intros x. unfold cn. cbsimp. upd_case; done.
    + intros x. cbsimp. upd_case; done.
  - apply wp_fe_put; [done|]. apply HQ. split; rewrite ?El; try done;
      intros x; cbsimp; upd_case; done.
Qed.

(** The tables when the call-back [c] behind [l1] has been taken off the file [fe]. *)
Definition dropped (fe c : Z) (s1 : cbs) : cbs :=
  set_FE fe (with_ncbs (u32 (ncbs (FE s1 fe) - 1)) (FE s1 fe)) (freed_cb c s1).

Lemma frame_dropped fe c s1 : frame false false true ∅ s1 (dropped fe c s1).
Proof. split; try done; cbsimp; intros; repeat split; intros; unfold dropped, freed_cb; cbsimp; upd_case; done. Qed.

Lemma dropped_cb fe c s1 x : x <> c -> CB (dropped fe c s1) x = CB s1 x.
Proof. intros Hx. unfold dropped, freed_cb. cbsimp. by destruct (Z.eqb_spec x c). Qed.
Lemma dropped_fe fe c s1 x :
  FE (dropped fe c s1) x = if x =? fe then with_ncbs (u32 (ncbs (FE s1 x) - 1)) (FE s1 x) else FE s1 x.
Proof. unfold dropped, freed_cb. cbsimp. by destruct (Z.eqb_spec x fe) as [->|]. Qed.

Section Unlink.
Context (s s1 : cbs) (B U : gset Z) (fe c : Z) (l1 l2 : list Z).
Context (HF : Fpart s B U) (Hfe : fe ∈ B) (Hn : nblks s < 2 ^ 31).
Context (HS : cb_stored fe l1 (cn s c) s s1).
Context (Hl : chain (cn s) (firstcb (FE s fe)) (l1 ++ c :: l2)) (Hnd : NoDup (l1 ++ c :: l2)).
Context (Hlen : ncbs (FE s fe) = Z.of_nat (length (l1 ++ c :: l2))).
Context (Hm : forall x, x ∈ l1 ++ c :: l2 <-> x ∈ U /\ fhead (CB s x) = fe).

Lemma unlink_next x : x <> c -> (x ∉ l1 ++ c :: l2 \/ cn s x <> c) -> cn (dropped fe c s1) x = cn s x.
Proof using HS Hl.
  intros Hx Hor. unfold cn at 1. rewrite dropped_cb by done. fold (cn s1 x). rewrite (cs_next _ _ _ _ _ HS).
  destruct (last l1) as [p|] eqn:El; [|done]. destruct (Z.eqb_spec x p) as [->|]; [|done]. exfalso.
  apply last_Some in El as [l El]. destruct Hor as [Ho|Ho]; apply Ho.
  - rewrite El, !elem_of_app. left. right. left.
  - destruct (chain_split _ _ _ _ _ Hl) as (_ & _ & _ & Hlast). by apply (Hlast l).
Qed.

Lemma unlink_Fpart : Fpart (dropped fe c s1) B (U ∖ {[c]}).
Proof using HF Hfe Hn HS Hl Hnd Hlen Hm.
  destruct HF as [B1 B2 B3 B4]. destruct HS as [F1 _ Es E1 En Eh].
  pose proof (cb_frame_trans _ _ _ _ _ _ _ _ _ _ _ F1 (frame_dropped fe c s1)) as F. cbn [orb] in F. rewrite union_empty_l_L in F.
  assert (Ehd : forall x, x <> c -> fhead (CB (dropped fe c s1) x) = fhead (CB s x)) by (intros x Hx; rewrite dropped_cb by done; apply Eh).
  assert (Hnd' : NoDup (c :: l1 ++ l2)) by by rewrite <- Permutation_middle in Hnd.
  apply NoDup_cons in Hnd' as [Hcl Hnd'].
  assert (Hinf : forall x, cb_status (CB (dropped fe c s1) x) = cb_status (CB s x) /\ hhead (CB (dropped fe c s1) x) = hhead (CB s x)).
  { intros x. destruct (fr_info _ _ _ _ _ _ F x (not_elem_of_empty x)) as (? & _ & _ & ?). done. }
  assert (Hlat : forall x, later (dropped fe c s1) x = later s x).
  { intros x. unfold later, is_later. rewrite dropped_fe. destruct (Es x) as (_ & _ & _ & _ & _ & E). by destruct (x =? fe); cbsimp; rewrite E. }
  split.
  - intros fe' Hfe'. destruct (Z.eq_dec fe' fe) as [->|Hne].
    + exists (l1 ++ l2). split; [|split; [done|split]].
      * apply (chain_remove (cn s) _ (firstcb (FE s fe)) _ l1 c l2); [done|done|].
        rewrite dropped_fe, Z.eqb_refl. cbsimp. rewrite E1.
        destruct (last l1) as [p|] eqn:El.
        -- assert (Hp : p ∈ l1) by (apply last_Some in El as [l El]; rewrite El; apply elem_of_app; right; left).
           assert (p <> c) by (intros ->; apply Hcl, elem_of_app; by left).
           split; [done|]. split; [unfold cn at 1; rewrite dropped_cb by done; fold (cn s1 p); by rewrite En, Z.eqb_refl|].
           intros x Hx Hxp. unfold cn at 1. rewrite dropped_cb by (intros ->; done). fold (cn s1 x). rewrite En.
           by destruct (Z.eqb_spec x p).
        -- rewrite Z.eqb_refl. split; [done|]. intros x Hx. unfold cn at 1.
           rewrite dropped_cb by (intros ->; apply Hcl, elem_of_app; by right). fold (cn s1 x). by rewrite En.
      * rewrite dropped_fe, Z.eqb_refl. cbsimp. destruct (Es fe) as (_ & _ & _ & _ & -> & _). rewrite Hlen.
        rewrite !length_app in *. cbn [length] in *.
        assert (length (l1 ++ c :: l2) <= Z.to_nat (nblks s))%nat.
        { apply in_tab_nodup; [done|]. intros x [Hx _]%Hm. by apply B2. }
        rewrite length_app in H. cbn [length] in H. rewrite u32_small by mlia. lia.
      * intros x. specialize (Hm x). rewrite elem_of_app, elem_of_cons in Hm. rewrite elem_of_app, elem_of_difference, elem_of_singleton.
        rewrite elem_of_app in Hcl. split.
        -- intros Hx. assert (x <> c) by (intros ->; done). rewrite Ehd by done. tauto.
        -- intros [[Hx Hxc] Hxh]. rewrite Ehd in Hxh by done. tauto.
    + destruct (B1 fe' Hfe') as (l & Hl' & Hndl & Hlenl & Hml). exists l.
      assert (Hxc : forall x, x ∈ l -> x <> c).
      { intros x Hx ->. apply Hml in Hx as [_ Hx]. apply Hne. rewrite <- Hx. apply Hm, elem_of_app. right. left. }
      rewrite dropped_fe. destruct (Z.eqb_spec fe' fe); [done|]. rewrite E1. destruct (Es fe') as (_ & _ & _ & _ & -> & _).
      split; [|split; [done|split; [done|]]].
      * replace (match last l1 with Some _ => _ | None => _ end) with (firstcb (FE s fe'))
          by (destruct (last l1); [done|]; by destruct (Z.eqb_spec fe' fe)).
        revert Hl'. apply chain_ext. intros x Hx. symmetry. apply unlink_next; [by apply Hxc|]. left.
        intros [_ Hx']%Hm. apply Hml in Hx as [_ Hx]. congruence.
      * intros x. rewrite Hml, elem_of_difference, elem_of_singleton. split.
        -- intros [Hx Hxh]. assert (x <> c) by (apply Hxc, Hml; done). rewrite Ehd by done. tauto.
        -- intros [[Hx Hxc'] Hxh]. rewrite Ehd in Hxh by done. tauto.
  - intros x [Hx Hxc%not_elem_of_singleton]%elem_of_difference. rewrite Ehd by done. unfold in_tab. rewrite (fr_n _ _ _ _ _ _ F).
    by apply B2.
  - intros x y [Hx Nx%not_elem_of_singleton]%elem_of_difference [Hy Ny%not_elem_of_singleton]%elem_of_difference.
    rewrite !Ehd by done. destruct (Hinf x) as [_ ->], (Hinf y) as [_ ->]. by apply B3.
  - intros x [Hx Nx%not_elem_of_singleton]%elem_of_difference. rewrite Ehd by done. rewrite Hlat.
    destruct (Hinf x) as [-> _]. by apply B4.
Qed.
End Unlink.

Lemma unlink_Cpart KC KF A X U s s1 fe c l1 l2 :
  Cpart KC KF A X U s -> fe ∈ A ∪ X -> cb_stored fe l1 (cn s c) s s1 ->
  chain (cn s) (firstcb (FE s fe)) (l1 ++ c :: l2) -> NoDup (l1 ++ c :: l2) ->
  ncbs (FE s fe) = Z.of_nat (length (l1 ++ c :: l2)) ->
  (forall x, x ∈ l1 ++ c :: l2 <-> x ∈ U /\ fhead (CB s x) = fe) ->
  Cpart KC KF A X (U ∖ {[c]}) (dropped fe c s1).
Proof.
  intros [A1 A2 A3 A4 A5 (A6 & A7 & A8) A9] Hfe HS Hl Hnd Hlen Hm. pose proof HS as [F1 (R1 & R2 & R3) Es E1 En Eh].
  pose proof (cb_frame_trans _ _ _ _ _ _ _ _ _ _ _ F1 (frame_dropped fe c s1)) as F. cbn [orb] in F. rewrite union_empty_l_L in F.
  assert (Hc : c ∈ U /\ fhead (CB s c) = fe) by (apply Hm, elem_of_app; right; left). destruct Hc as [Hc _].
  assert (Hcin : in_tab s c) by by apply (fp_home _ _ _ A1).
  split; [apply (unlink_Fpart s s1 _ U fe c l1 l2); try done; apply A5| | | | | |].
  - apply (Hpart_ext s); [apply F| | |done].
    + intros b. change (HashTable (dropped fe c s1) b) with (HashTable s1 b). by rewrite R1.
    + intros x _. rewrite dropped_fe. destruct (Es x) as (? & ? & ? & ? & ? & ?). by destruct (x =? fe).
  - apply (Cfree_ext (freed_cb c s1) _ ((U ∪ KC) ∖ {[c]})); try done.
    + intros x. rewrite !elem_of_union, !elem_of_difference, !elem_of_union, elem_of_singleton.
      intros [[? ?]|?]; [tauto|]. split; [tauto|]. intros ->. by apply (A7 c).
    + apply Cfree_freed.
      * apply (Cfree_ext s _ (U ∪ KC)); try done; try apply F1. intros x Hx. split; [|apply Eh].
        fold (cn s1 x) (cn s x). rewrite En. destruct (last l1) as [p|] eqn:El; [|done]. destruct (Z.eqb_spec x p) as [->|]; [|done].
        destruct Hx. apply elem_of_union. left. apply Hm, elem_of_app. left. apply last_Some in El as [l ->].
        apply elem_of_app. right. left.
      * unfold in_tab. by rewrite (fr_n _ _ _ _ _ _ F1).
      * by apply (addresses_frame _ _ _ _ _ _ F1).
      * apply elem_of_union. by left.
  - apply (Ffree_ext s _ (A ∪ X ∪ KF)); try done; try apply F. intros x _. rewrite dropped_fe.
    destruct (Es x) as (? & ? & _). by destruct (x =? fe).
  - by apply (addresses_frame _ _ _ _ _ _ F).
  - split_and!; [done| |done]. intros x [Hx _]%elem_of_difference Hk. by apply (A7 x).
  - intros i Hi. unfold in_tab. rewrite (fr_n _ _ _ _ _ _ F). by apply A9.
Qed.

(** A file without call-backs does not count. *)
Lemma Fpart_less s A X U fe :
  Fpart s (A ∪ X) U -> (forall c, c ∈ U -> fhead (CB s c) <> fe) -> Fpart s (A ∖ {[fe]} ∪ X) U.
Proof.
  intros [B1 B2 B3 B4] Hnone. split; [| |done|done].
  - intros x Hx. apply B1. revert Hx. rewrite !elem_of_union, elem_of_difference. tauto.
  - intros c Hc. destruct (B2 c Hc) as [Hh ?]. split; [|done]. revert Hh. pose proof (Hnone c Hc).
    rewrite !elem_of_union, elem_of_difference, elem_of_singleton. tauto.
Qed.

(** Files that keep their name. *)
Definition same_name (s s' : cbs) (fe : Z) : Prop :=
  vnode (FE s' fe) = vnode (FE s fe) /\ unique (FE s' fe) = unique (FE s fe) /\ volid (FE s' fe) = volid (FE s fe)
  /\ fe_status (FE s' fe) = fe_status (FE s fe).

(** The call-back [c] is gone, and perhaps its file with it. *)
Record cdel_post (KC KF A X U : gset Z) (fe c : Z) (deletefe : bool) (s : cbs) (A' : gset Z) (s' : cbs) : Prop := {
  cd_ok : Cpart KC KF A' X (U ∖ {[c]}) s';
  cd_frame : frame false false true ∅ s s';
  cd_A : A' = A \/ (A' = A ∖ {[fe]} /\ deletefe = true /\ forall x, x ∈ U ∖ {[c]} -> fhead (CB s x) <> fe);
  cd_keep : deletefe = true -> A' = A -> exists x, x ∈ U ∖ {[c]} /\ fhead (CB s x) = fe;
  cd_name : forall x, x ∈ A' ∪ X -> same_name s s' x;
  cd_other : forall x, x <> fe -> same_file s s' x;
  cd_head : forall x, x <> c -> fhead (CB s' x) = fhead (CB s x);
  cd_next : forall x, x <> c -> x ∉ U \/ cn s x <> c -> cn s' x = cn s x
}.

Lemma wp_CDelPtr f fe c l1 l2 KC KF A X U deletefe (Q : unit -> world -> Prop) w :
  Cpart KC KF A X U (st w) -> fe ∈ A ∪ X -> (deletefe = true -> fe ∈ A) ->
  chain (cn (st w)) (firstcb (FE (st w) fe)) (l1 ++ c :: l2) -> NoDup (l1 ++ c :: l2) ->
  ncbs (FE (st w) fe) = Z.of_nat (length (l1 ++ c :: l2)) ->
  (forall x, x ∈ l1 ++ c :: l2 <-> x ∈ U /\ fhead (CB (st w) x) = fe) ->
  (forall A' s', cdel_post KC KF A X U fe c deletefe (st w) A' s' -> Q tt (set_st s' w)) ->
  wp f (CDelPtr fe (cb_loc_of fe l1) deletefe) Q w.
Proof.
  intros HC Hfe Hdel Hl Hnd Hlen Hm HQ. set (s := st w) in *.
  assert (Hfin : in_tab s fe).
  { apply elem_of_union in Hfe as [?|?]; [by apply (cp_hash _ _ _ _ _ _ HC)|].
    apply (cp_tab _ _ _ _ _ _ HC). rewrite !elem_of_union. tauto. }
  assert (Htab : forall x, x ∈ l1 ++ c :: l2 -> in_tab s x).
  { intros x [Hx _]%Hm. by apply (fp_home _ _ _ (cp_file _ _ _ _ _ _ HC)). }
  assert (Hcin : in_tab s c) by (apply Htab, elem_of_app; right; left).
  assert (Htab1 : forall x, x ∈ l1 -> in_tab s x) by (intros x Hx; apply Htab, elem_of_app; by left).
  unfold CDelPtr. apply wp_bind, (cb_loc_value _ _ _ (c :: l2)); [done|done|done|].
  rewrite (proj2 (Z.eqb_neq c 0)) by (unfold in_tab in Hcin; lia). apply wp_bind, wp_cb_at; [done|]. fold s. fold (cn s c).
  apply wp_bind, wp_cb_loc_put; [done|done|]. fold s. intros s1 HS. pose proof HS as [F1 _ Es E1 En Eh].
  apply wp_bind, wp_iFreeCB; [cbsimp; unfold in_tab; by rewrite (fr_n _ _ _ _ _ _ F1)|].
  apply wp_bind, wp_fe_put; [cbsimp; unfold in_tab; change (nblks (freed_cb c s1)) with (nblks s1); by rewrite (fr_n _ _ _ _ _ _ F1)|].
  cbsimp. change (FE (freed_cb c s1) fe) with (FE s1 fe). fold (dropped fe c s1).
  pose proof (cb_frame_trans _ _ _ _ _ _ _ _ _ _ _ F1 (frame_dropped fe c s1)) as F. cbn [orb] in F. rewrite union_empty_l_L in F.
  pose proof (unlink_Cpart _ _ _ _ _ _ _ _ _ _ _ HC Hfe HS Hl Hnd Hlen Hm) as HC2. set (s2 := dropped fe c s1) in *.
  apply wp_bind, wp_fe_at; [cbsimp; unfold in_tab; by rewrite (fr_n _ _ _ _ _ _ F)|]. cbsimp.
  assert (Hname : forall x, same_name s s2 x).
  { intros x. unfold same_name, s2. rewrite dropped_fe. destruct (Es x) as (? & ? & ? & ? & ? & ?). by destruct (x =? fe). }
  assert (Hoth : forall x, x <> fe -> same_file s s2 x).
  { intros x Hx. unfold same_file, s2. rewrite dropped_fe. destruct (Es x) as (? & ? & ? & ? & ? & ?).
    destruct (Z.eqb_spec x fe); [done|]. split_and!; try done. rewrite E1. destruct (last l1); [done|]. by destruct (Z.eqb_spec x fe). }
  assert (Hhd : forall x, x <> c -> fhead (CB s2 x) = fhead (CB s x)) by (intros x Hx; unfold s2; rewrite dropped_cb by done; apply Eh).
  assert (Hnx : forall x, x <> c -> x ∉ U \/ cn s x <> c -> cn s2 x = cn s x).
  { intros x Hx Hor. apply (unlink_next s s1 fe c l1 l2 HS Hl); [done|]. destruct Hor as [Ho|?]; [left|by right].
    intros [? _]%Hm. done. }
  assert (Hncb : ncbs (FE s2 fe) = Z.of_nat (length (l1 ++ l2))).
  { destruct (fp_file _ _ _ (cp_file _ _ _ _ _ _ HC2) fe Hfe) as (l & _ & Hndl & -> & Hml). f_equal.
    apply Permutation_length, NoDup_Permutation; [done| |].
    - rewrite <- Permutation_middle in Hnd. by apply NoDup_cons in Hnd as [_ ?].
    - intros x. rewrite Hml, elem_of_difference, elem_of_singleton. specialize (Hm x).
      rewrite <- Permutation_middle in Hnd. apply NoDup_cons in Hnd as [Hcl _].
      rewrite elem_of_app, elem_of_cons in Hm. rewrite elem_of_app in Hcl |- *. split.
      + intros [[Hx Hxc] Hxh]. rewrite Hhd in Hxh by done. tauto.
      + intros Hx. assert (x <> c) by (intros ->; done). rewrite Hhd by done. tauto. }
  apply wp_when.
  - intros [E2 ->]%andb_true_iff. pose proof (Hdel eq_refl) as HfeA.
    assert (Hnone : forall x, x ∈ U ∖ {[c]} -> fhead (CB s x) <> fe).
    { intros x [Hx Hxc%not_elem_of_singleton]%elem_of_difference Hxh.
      assert (Hxl : x ∈ l1 ++ c :: l2) by by apply Hm. rewrite elem_of_app, elem_of_cons in Hxl.
      destruct (l1 ++ l2) as [|y r] eqn:El; [|cbn [length] in Hncb; lia]. apply app_eq_nil in El as [-> ->].
      destruct Hxl as [Hy|[?|Hy]]; [by apply not_elem_of_nil in Hy|done|by apply not_elem_of_nil in Hy]. }
    destruct HC2 as [B1 B2 B3 B4 B5 B6 B7]. apply (wp_FDel _ _ KC KF A X (U ∖ {[c]})); try done.
    + cbsimp. apply (Fpart_less _ _ _ _ fe B1). intros x Hx. pose proof Hx as [_ Hxc%not_elem_of_singleton]%elem_of_difference.
      rewrite Hhd by done. by apply Hnone.
    + cbsimp. intros s3 HC3 F3 Hs3 Ec3. pose proof (cb_frame_trans _ _ _ _ _ _ _ _ _ _ _ F F3) as F'. cbn [orb] in F'. rewrite union_empty_l_L in F'.
      apply (HQ (A ∖ {[fe]}) s3). split; try done.
      * by right.
      * intros _ EA. exfalso. assert (fe ∈ A ∖ {[fe]}) by by rewrite EA. by apply elem_of_difference in H as [_ H%not_elem_of_singleton].
      * intros x Hx. assert (x <> fe).
        { intros ->. apply elem_of_union in Hx as [[_ Hx%not_elem_of_singleton]%elem_of_difference|Hx]; [done|].
          by apply (proj1 (cp_apart _ _ _ _ _ _ HC) fe). }
        destruct (Hs3 x) as (G1 & G2 & G3 & _ & _ & G4), (Hname x) as (K1 & K2 & K3 & K4); [done|].
        unfold same_name. cbsimp. by rewrite G1, G2, G3, G4.
      * intros x Hx. destruct (Hs3 x Hx) as (G1 & G2 & G3 & G4 & G5 & G6), (Hoth x Hx) as (K1 & K2 & K3 & K4 & K5 & K6).
        unfold same_file. cbsimp. by rewrite G1, G2, G3, G4, G5, G6.
      * intros x Hx. rewrite Ec3. by apply Hhd.
      * intros x Hx Hor. unfold cn. rewrite Ec3. by apply Hnx.
  - intros E2. apply (HQ A s2). split; try done; [by left|]. intros -> _.
    rewrite andb_true_r in E2. destruct (l1 ++ l2) as [|y r] eqn:El; [cbn [length] in Hncb; lia|].
    assert (Hy : y ∈ l1 ++ l2) by (rewrite El; left). exists y. assert (y ∈ l1 ++ c :: l2) by (revert Hy; rewrite !elem_of_app, elem_of_cons; tauto).
    apply Hm in H as [HyU Hyh]. split; [|done]. apply elem_of_difference. split; [done|]. apply not_elem_of_singleton.
    intros ->. rewrite <- Permutation_middle in Hnd. apply NoDup_cons in Hnd as [Hcl _]. apply Hcl; rewrite El; left.
Qed.

Lemma wp_CDel f c KC KF A X U deletefe (Q : unit -> world -> Prop) w :
  Cpart KC KF A X U (st w) -> c ∈ U -> (deletefe = true -> fhead (CB (st w) c) ∈ A) ->
  (forall A' s', cdel_post KC KF A X U (fhead (CB (st w) c)) c deletefe (st w) A' s' -> Q tt (set_st s' w)) ->
  wp f (CDel c deletefe) Q w.
Proof.
  intros HC Hc Hdel HQ. set (s := st w) in *. pose proof (cp_file _ _ _ _ _ _ HC) as HF.
  destruct (fp_home _ _ _ HF c Hc) as [Hfe Hcin].
  destruct (fp_file _ _ _ HF _ Hfe) as (l & Hl & Hnd & Hlen & Hm).
  assert (Hcl : c ∈ l) by by apply Hm. apply list_elem_of_split in Hcl as (l1 & l2 & ->).
  assert (Htab : forall x, x ∈ l1 ++ c :: l2 -> in_tab s x) by (intros x [Hx _]%Hm; by apply (fp_home _ _ _ HF)).
  assert (Hfin : in_tab s (fhead (CB s c))).
  { apply elem_of_union in Hfe as [?|?]; [by apply (cp_hash _ _ _ _ _ _ HC)|].
    apply (cp_tab _ _ _ _ _ _ HC). rewrite !elem_of_union. tauto. }
  unfold CDel. apply wp_bind, wp_get, wp_bind, wp_cb_at; [done|]. fold s.
  apply wp_bind, (wp_cdel_loop _ _ _ l1 [] c l2); [done|done|done| | |].
  - intros x Hx. apply Htab, elem_of_app. by left.
  - pose proof (in_tab_nodup s _ Hnd Htab) as Hle. rewrite length_app in Hle. fold s. lia.
  - cbn [app]. by apply (wp_CDelPtr _ _ c l1 l2 KC KF A X U).
Qed.
