(* ===== verification/CbOps.v ===== *)
(** * Call-backs: deleting them

    The parts of the invariant together, and the handlers that take call-backs out of
    the tables: [DeleteCallBack], [DeleteFileCallBacks], [DeleteAllCallBacks_r] and
    [CleanupTimedOutCallBacks_r].  None of them needs more fuel than it is given. *)

From stdpp Require Import prelude list gmap.
From Stdlib Require Import ZArith Lia ZifyBool.
From S2P Require Import Prelude ByteMem CbTab Callback CbRing CbOk CbFile.

#[local] Open Scope Z_scope.
#[local] Open Scope cb_scope.

(** ** All parts together *)

(** In the middle of an operation a call-back may have left its file ([UC]), its queue
    ([UT]) or the list of its host ([UL]) and not yet the others. *)
Record parts (KC KF A X UC UT UL UH : gset Z) (Qs D : Z -> Prop) (s : cbs) : Prop := {
  pa_c : Cpart KC KF A X UC s;
  pa_t : Tpart s Qs UT;
  pa_l : Lpart s D UL;
  pa_h : homes s UH;
  pa_sub : UC ⊆ UH /\ UT ⊆ UH /\ UL ⊆ UH
}.

Definition all (x : Z) : Prop := True.

(** The invariant: the same call-backs everywhere. *)
Record ok (KC KF A U : gset Z) (s : cbs) : Prop := {
  ok_c : Cpart KC KF A ∅ U s;
  ok_t : Tpart s all U;
  ok_l : Lpart s all U;
  ok_h : homes s U
}.

Lemma ok_parts KC KF A U s : ok KC KF A U s <-> parts KC KF A ∅ U U U U all all s.
Proof. split; [intros []|intros []]; by split. Qed.

(** What deleting the call-backs [R] leaves as it was. *)
Record less (A X R : gset Z) (s : cbs) (A' : gset Z) (s' : cbs) : Prop := {
  le_files : A' ⊆ A;
  le_name : forall x, x ∈ A' ∪ X -> same_name s s' x;
  le_head : forall c, c ∉ R -> fhead (CB s' c) = fhead (CB s c);
  le_frame : frame true true true ∅ s s'
}.

Lemma frame_weaken ft fl fc X s s' : frame ft fl fc X s s' -> frame true true true X s s'.
Proof. by intros []. Qed.

Lemma same_name_trans s1 s2 s3 x : same_name s1 s2 x -> same_name s2 s3 x -> same_name s1 s3 x.
Proof. intros (?&?&?&?) (?&?&?&?). unfold same_name. split_and!; congruence. Qed.

Lemma less_refl A X R s : less A X R s A s.
Proof. by split; [|intros; split_and!| |apply cb_frame_refl]. Qed.

Lemma less_trans A X R1 R2 s1 A2 s2 A3 s3 :
  less A X R1 s1 A2 s2 -> less A2 X R2 s2 A3 s3 -> less A X (R1 ∪ R2) s1 A3 s3.
Proof.
  intros [A1 B1 C1 F1] [A2' B2 C2 F2]. split.
  - by intros x Hx%A2'%A1.
  - intros x Hx. eapply same_name_trans; [apply B1|by apply B2].
    apply elem_of_union in Hx as [Hx|Hx]; apply elem_of_union; [left; by apply A2'|by right].
  - intros c [H1 H2]%not_elem_of_union. by rewrite C2, C1.
  - pose proof (cb_frame_trans _ _ _ _ _ _ _ _ _ _ _ F1 F2) as F. by rewrite union_empty_l_L in F.
Qed.

Lemma less_sub A X R R' s A' s' : R ⊆ R' -> less A X R s A' s' -> less A X R' s A' s'.
Proof. intros HR [L1 L2 L3 L4]. split; [done|done| |done]. intros c Hc. apply L3. by intros ?%HR. Qed.

Lemma less_frame A X R s s' ft fl : frame ft fl false ∅ s s' -> less A X R s A s'.
Proof.
  intros F. destruct (fr_c _ _ _ _ _ _ F eq_refl) as (F1 & _ & _ & F2). split; [done| | |by apply frame_weaken in F].
  - intros x _. unfold same_name. by rewrite F1.
  - intros c _. apply F2.
Qed.

Lemma less_cdel KC KF A X U fe c b s A' s' : cdel_post KC KF A X U fe c b s A' s' -> less A X {[c]} s A' s'.
Proof.
  intros [_ F HA _ Hn _ Hh _]. split; [|done| |by apply frame_weaken in F].
  - destruct HA as [->|[-> _]]; [done|]. by intros x [? _]%elem_of_difference.
  - intros x Hx%not_elem_of_singleton. by apply Hh.
Qed.

Lemma Cpart_frame ft fl s s' KC KF A X U :
  frame ft fl false ∅ s s' -> Cpart KC KF A X U s -> Cpart KC KF A X U s'.
Proof.
  intros F [A1 A2 A3 A4 A5 A6 A7]. destruct (fr_c _ _ _ _ _ _ F eq_refl) as (F1 & F2 & [F3 F4] & F5).
  pose proof (fr_n _ _ _ _ _ _ F) as Fn. destruct (fr_addr _ _ _ _ _ _ F) as [Fa Fb]. split.
  - apply (Fpart_ext s); [done|intros fe _; by rewrite F1| |done]. intros c _. destruct (F5 c).
    destruct (fr_info _ _ _ _ _ _ F c (not_elem_of_empty c)) as (? & _ & _ & ?). done.
  - apply (Hpart_ext s); [done|done| |done]. intros fe _. by rewrite F1.
  - by apply (Cfree_ext s _ (U ∪ KC)).
  - apply (Ffree_ext s _ (A ∪ X ∪ KF)); try done. intros fe _. by rewrite F1.
  - by apply (addresses_frame _ _ _ _ _ _ F).
  - done.
  - intros i Hi. unfold in_tab. rewrite Fn. by apply A7.
Qed.

(** ** Taking a call-back off *)

Section Parts.
Context (f : Prop) (KC KF A X UC UT UL UH : gset Z) (Qs D : Z -> Prop).

Lemma parts_TDel c (Q : unit -> world -> Prop) w :
  parts KC KF A X UC UT UL UH Qs D (st w) -> c ∈ UT -> Qs (thead (CB (st w) c)) ->
  (forall s', parts KC KF A X UC (UT ∖ {[c]}) UL UH Qs D s' -> frame true false false ∅ (st w) s' -> Q tt (set_st s' w)) ->
  wp f (TDel c) Q w.
Proof using.
  intros [P1 P2 P3 P4 (S1 & S2 & S3)] Hc Hq HQ. apply (wp_TDel _ _ Qs UT); [done|by apply (homes_sub _ UH)|done|done|].
  intros s' HT F. apply HQ; [|done]. split; [by apply (Cpart_frame _ _ _ _ _ _ _ _ _ F)|done| | |].
  - by apply (Lpart_frame _ _ _ _ _ _ _ F).
  - by apply (homes_frame _ _ _ _ _ _ _ F).
  - split_and!; [done| |done]. by intros x [? _]%elem_of_difference; apply S2.
Qed.

Lemma parts_HDel c (Q : unit -> world -> Prop) w :
  parts KC KF A X UC UT UL UH Qs D (st w) -> c ∈ UL -> D (hhead (CB (st w) c)) ->
  (forall s', parts KC KF A X UC UT (UL ∖ {[c]}) UH Qs D s' -> frame false true false ∅ (st w) s' -> Q tt (set_st s' w)) ->
  wp f (HDel c) Q w.
Proof using.
  intros [P1 P2 P3 P4 (S1 & S2 & S3)] Hc Hq HQ. apply (wp_HDel _ _ D UL); [done|by apply (homes_sub _ UH)|done|done|].
  intros s' HT F. apply HQ; [|done]. split; [by apply (Cpart_frame _ _ _ _ _ _ _ _ _ F)| |done| |].
  - by apply (Tpart_frame _ _ _ _ _ _ _ F).
  - by apply (homes_frame _ _ _ _ _ _ _ F).
  - split_and!; [done|done|]. by intros x [? _]%elem_of_difference; apply S3.
Qed.

Lemma parts_cdel_post fe c b s A' s' :
  parts KC KF A X UC UT UL UH Qs D s -> cdel_post KC KF A X UC fe c b s A' s' ->
  parts KC KF A' X (UC ∖ {[c]}) UT UL UH Qs D s'.
Proof using.
  intros [P1 P2 P3 P4 (S1 & S2 & S3)] [C1 F _ _ _ _ _ _]. split; [done| | | |].
  - by apply (Tpart_frame _ _ _ _ _ _ _ F).
  - by apply (Lpart_frame _ _ _ _ _ _ _ F).
  - by apply (homes_frame _ _ _ _ _ _ _ F).
  - split_and!; [|done|done]. by intros x [? _]%elem_of_difference; apply S1.
Qed.

Lemma parts_CDel c b (Q : unit -> world -> Prop) w :
  parts KC KF A X UC UT UL UH Qs D (st w) -> c ∈ UC -> (b = true -> fhead (CB (st w) c) ∈ A) ->
  (forall A' s', parts KC KF A' X (UC ∖ {[c]}) UT UL UH Qs D s' ->
     cdel_post KC KF A X UC (fhead (CB (st w) c)) c b (st w) A' s' -> Q tt (set_st s' w)) ->
  wp f (CDel c b) Q w.
Proof using.
  intros HP Hc Hb HQ. apply (wp_CDel _ _ KC KF A X UC); [by apply HP|done|done|].
  intros A' s' HC. apply (HQ A'); [|done]. by eapply parts_cdel_post.
Qed.
End Parts.

Lemma frame_trans0 ft fl fc ft' fl' fc' s1 s2 s3 :
  frame ft fl fc ∅ s1 s2 -> frame ft' fl' fc' ∅ s2 s3 -> frame (ft || ft') (fl || fl') (fc || fc') ∅ s1 s3.
Proof. intros F1 F2. pose proof (cb_frame_trans _ _ _ _ _ _ _ _ _ _ _ F1 F2) as F. by rewrite union_empty_l_L in F. Qed.

Lemma frame_hd ft fl fc s s' c : frame ft fl fc ∅ s s' -> thead (CB s' c) = thead (CB s c) /\ hhead (CB s' c) = hhead (CB s c).
Proof. intros F. by destruct (fr_info _ _ _ _ _ _ F c (not_elem_of_empty c)) as (_ & _ & ? & ?). Qed.

Lemma frame_hlink ft fc s s' : frame ft false fc ∅ s s' -> (forall c, hn s' c = hn s c) /\ forall c, hp s' c = hp s c.
Proof. intros F. destruct (fr_l _ _ _ _ _ _ F eq_refl) as [_ F2]. split; intros c; apply F2. Qed.
Lemma frame_tlink fl fc s s' : frame false fl fc ∅ s s' -> (forall c, tn s' c = tn s c) /\ forall c, tp s' c = tp s c.
Proof. intros F. destruct (fr_t _ _ _ _ _ _ F eq_refl) as [_ F2]. split; intros c; apply F2. Qed.

(** The sets of call-backs behind the ones deleted. *)
Lemma difference_cons (V : gset Z) c (l : list Z) : V ∖ {[c]} ∖ list_to_set l = V ∖ list_to_set (c :: l).
Proof. apply set_eq. intros x. rewrite list_to_set_cons, !elem_of_difference, elem_of_union. tauto. Qed.

Lemma list_in_difference (V : gset Z) c (l : list Z) :
  NoDup (c :: l) -> (forall x, x ∈ c :: l -> x ∈ V) -> forall x, x ∈ l -> x ∈ V ∖ {[c]}.
Proof.
  intros [Hc _]%NoDup_cons Hl x Hx. apply elem_of_difference. split; [apply Hl; by right|].
  apply not_elem_of_singleton. by intros ->.
Qed.

(** ** All call-backs of a host *)

Lemma wp_delete_host_cbs f n KC KF A X V UL UH D first cbi r b (Q : unit -> world -> Prop) w :
  parts KC KF A X V V UL UH all D (st w) -> (b = true -> X = ∅) ->
  steps (hn (st w)) (hp (st w)) cbi (r ++ [first]) -> first ∉ r -> NoDup (cbi :: r) ->
  (forall c, c ∈ cbi :: r -> c ∈ V) -> (length (cbi :: r) <= n)%nat ->
  (forall A' s', parts KC KF A' X (V ∖ list_to_set (cbi :: r)) (V ∖ list_to_set (cbi :: r)) UL UH all D s' ->
     less A X (list_to_set (cbi :: r)) (st w) A' s' -> frame true false true ∅ (st w) s' -> Q tt (set_st s' w)) ->
  wp f (delete_host_cbs n first cbi b) Q w.
Proof.
  revert A V cbi r w. induction n as [|n IH]; intros A V cbi r w HP Hb Hst Hf Hnd Hin Hn HQ; [cbn in Hn; lia|].
  assert (Hc : cbi ∈ V) by (apply Hin; left). cbn [delete_host_cbs].
  pose proof (fp_home _ _ _ (cp_file _ _ _ _ _ _ (pa_c _ _ _ _ _ _ _ _ _ _ _ HP)) _ Hc) as [Hh Htab].
  apply wp_bind, wp_cb_at; [done|]. apply wp_bind, (parts_TDel _ KC KF A X V V UL UH all D); [done|done|done|].
  intros s1 HP1 F1. apply wp_bind, (parts_CDel _ KC KF A X V (V ∖ {[cbi]}) UL UH all D); [done|done| |].
  { intros E. specialize (Hb E). subst X. cbsimp. rewrite union_empty_r_L in Hh.
    destruct (fr_c _ _ _ _ _ _ F1 eq_refl) as (_ & _ & _ & E1). by destruct (E1 cbi) as [_ ->]. }
  intros A2 s2 HP2 HC. cbsimp. pose proof (less_trans _ _ ∅ _ _ _ _ _ _ (less_frame A X ∅ _ _ _ _ F1) (less_cdel _ _ _ _ _ _ _ _ _ _ _ HC)) as L.
  pose proof (frame_trans0 _ _ _ _ _ _ _ _ _ F1 (cd_frame _ _ _ _ _ _ _ _ _ _ _ HC)) as F. cbn [orb] in F. rewrite union_empty_l_L in L.
  destruct (frame_hlink _ _ _ _ F) as [En Ep].
  destruct r as [|c2 r]; cbn [app steps] in Hst; destruct Hst as (E1 & E2 & Hst); unfold hn in E1; rewrite E1.
  - rewrite Z.eqb_refl. apply wp_ret. apply (HQ A2); rewrite ?list_to_set_cons, ?list_to_set_nil, ?union_empty_r_L; done.
  - destruct (Z.eqb_spec c2 first) as [->|_]; [destruct Hf; left|]. apply (IH A2 (V ∖ {[cbi]}) c2 r); [done|done| | | | | |].
    + cbsimp. revert Hst. apply steps_ext; intros; [by rewrite En|by rewrite Ep].
    + intros Hx. apply Hf. by right.
    + by apply NoDup_cons in Hnd as [_ ?].
    + by apply (list_in_difference _ _ (c2 :: r)).
    + cbn [length] in Hn |- *. lia.
    + cbsimp. intros A3 s3 HP3 L3 F3. apply (HQ A3); [by rewrite difference_cons in HP3| |].
      * change (list_to_set (cbi :: c2 :: r)) with ({[cbi]} ∪ list_to_set (C := gset Z) (c2 :: r)). by apply (less_trans _ _ _ _ _ A2 s2).
      * by apply (frame_trans0 _ _ _ _ _ _ _ _ _ F F3).
Qed.

(** The list of a host that has been torn down is empty. *)
Lemma Lpart_reset s h v U :
  Lpart s (fun x => x <> h) U -> hosts s !! h = Some v -> (forall c, c ∈ U -> hhead (CB s c) <> h) ->
  Lpart (set_host h (with_cblist 0 v) s) all U /\ frame false true false ∅ s (set_host h (with_cblist 0 v) s).
Proof.
  intros HL Hv Hno. split.
  - intros h' v' Hv' _. cbsimp. destruct (decide (h' = h)) as [->|Hne].
    + rewrite lookup_insert_eq in Hv'. injection Hv' as <-. exists []. split; [by split|]. split; [by apply NoDup_nil|].
      intros c. split; [by intros ?%not_elem_of_nil|]. intros [Hc E]. by destruct (Hno c Hc).
    + rewrite lookup_insert_ne in Hv' by done. by apply (HL h').
  - split; try done. intros h'. cbsimp. destruct (decide (h' = h)) as [->|]; [by rewrite lookup_insert_eq, Hv|by rewrite lookup_insert_ne].
Qed.

Definition cbs_of (s : cbs) (h : Z) (U : gset Z) : gset Z := filter (fun c => hhead (CB s c) = h) U.

Lemma wp_DeleteAllCallBacks_r f KC KF A U h b (Q : unit -> world -> Prop) w :
  ok KC KF A U (st w) -> is_Some (hosts (st w) !! h) ->
  (forall A' s', ok KC KF A' (U ∖ cbs_of (st w) h U) s' -> less A ∅ (cbs_of (st w) h U) (st w) A' s' -> Q tt (set_st s' w)) ->
  wp f (DeleteAllCallBacks_r h b) Q w.
Proof.
  intros Hok [v Hv] HQ. pose proof Hok as [O1 O2 O3 O4]. destruct (O3 h v Hv I) as (l & Hr & Hnd & Hm).
  assert (Hl : cbs_of (st w) h U = list_to_set l).
  { apply set_eq. intros c. unfold cbs_of. rewrite elem_of_filter, elem_of_list_to_set, Hm. tauto. }
  rewrite Hl in HQ. unfold DeleteAllCallBacks_r. apply wp_bind, (wp_host_at _ _ v); [done|].
  assert (H0 : forall x, x ∈ l -> in_tab (st w) x) by (intros x [Hx _]%Hm; by apply O4).
  destruct l as [|a r]; destruct Hr as [Hcyc Hhd]; rewrite Hhd.
  { rewrite Z.eqb_refl. apply wp_ret. change (Q tt w). replace w with (set_st (st w) w) by by destruct w.
    apply (HQ A); [|apply less_refl]. by rewrite list_to_set_nil, difference_empty_L. }
  assert (Ha : a <> 0) by (assert (in_tab (st w) a) as [? _] by (apply H0; left); lia).
  rewrite (proj2 (Z.eqb_neq a 0) Ha). apply wp_bind, wp_get.
  apply wp_bind, (wp_delete_host_cbs _ _ KC KF A ∅ U U U (fun x => x <> h) a a r).
  - split; [done|done| |done|done]. intros h' v' Hv' _. by apply O3.
  - done.
  - done.
  - by apply NoDup_cons in Hnd as [? _].
  - done.
  - intros c Hc. by apply Hm.
  - by apply in_tab_nodup.
  - intros A' s' [P1 P2 P3 P4 _] HL F. destruct (frame_host _ _ _ _ _ _ h F) as [v' Hv']; [by exists v|].
    apply (wp_host_put _ _ _ v'); [done|]. cbsimp. set (R := list_to_set (a :: r)) in *.
    assert (HinR : forall c, c ∈ R <-> c ∈ U /\ hhead (CB (st w) c) = h) by (intros c; unfold R; by rewrite elem_of_list_to_set, Hm).
    assert (Hno : forall c, c ∈ U ∖ R -> hhead (CB s' c) <> h).
    { intros c [Hc HcR]%elem_of_difference E. apply HcR, HinR. split; [done|]. by destruct (frame_hd _ _ _ _ _ c F) as [_ <-]. }
    destruct (Lpart_reset s' h v' (U ∖ R)) as [HL' F']; [|done|done|].
    { intros h' v0 Hv0 Hne. destruct (P3 h' v0 Hv0 Hne) as (l' & Hr' & Hnd' & Hm'). exists l'. split; [done|]. split; [done|].
      intros c. rewrite Hm', elem_of_difference, HinR. destruct (frame_hd _ _ _ _ _ c F) as [_ ->].
      split; [intros [? ?]; split; [split; [done|]|done]; intros [_ ?]; congruence|tauto]. }
    apply (HQ A').
    + split; [by apply (Cpart_frame _ _ _ _ _ _ _ _ _ F')|by apply (Tpart_frame _ _ _ _ _ _ _ F')|done|].
      apply (homes_frame _ _ _ _ _ _ _ F'); [done|]. apply (homes_sub _ U); [by intros x [? _]%elem_of_difference|done].
    + rewrite <- (union_empty_r_L R). apply (less_trans _ _ _ _ _ A' s'); [done|]. by apply (less_frame _ _ _ _ _ _ _ F').
Qed.

(** ** All call-backs of a file *)

(** The call-backs [l] of the file [fe] are being freed. *)
Record limbo (KC KF A X V : gset Z) (fe : Z) (l : list Z) (s : cbs) : Prop := {
  li_file : Fpart s (A ∖ {[fe]} ∪ X) V;
  li_hash : Hpart s A;
  li_cfree : Cfree s (V ∪ KC ∪ list_to_set l);
  li_ffree : Ffree s (A ∪ X ∪ KF);
  li_addr : addresses s;
  li_apart : A ## X /\ V ## KC /\ A ∪ X ## KF;
  li_tab : forall i, i ∈ X ∪ KC ∪ KF -> in_tab s i;
  li_cbs : NoDup l /\ forall c, c ∈ l -> in_tab s c /\ (c ∉ V) /\ c ∉ KC;
  li_fe : fe ∈ A;
  li_t : Tpart s all (V ∪ list_to_set l);
  li_l : Lpart s all (V ∪ list_to_set l);
  li_h : homes s (V ∪ list_to_set l)
}.

Lemma limbo_start KC KF A U fe l s :
  ok KC KF A U s -> fe ∈ A -> NoDup l -> (forall c, c ∈ l <-> c ∈ U /\ fhead (CB s c) = fe) ->
  limbo KC KF A ∅ (U ∖ list_to_set l) fe l s.
Proof.
  intros [[A1 A2 A3 A4 A5 (A6 & A7 & A8) A9] O2 O3 O4] Hfe Hnd Hm.
  assert (EU : U ∖ list_to_set l ∪ list_to_set l = U).
  { apply set_eq. intros x. rewrite elem_of_union, elem_of_difference, elem_of_list_to_set.
    destruct (decide (x ∈ l)) as [Hx|]; [|tauto]. apply Hm in Hx as Hx'. tauto. }
  split; rewrite ?EU; try done.
  - destruct A1 as [B1 B2 B3 B4]. split.
    + intros x Hx. destruct (B1 x) as (l' & Hl' & Hnd' & Hlen' & Hm'); [revert Hx; rewrite !elem_of_union, elem_of_difference; tauto|].
      exists l'. split; [done|]. split; [done|]. split; [done|]. intros c. rewrite Hm', elem_of_difference, elem_of_list_to_set, Hm.
      split; [|tauto]. intros [Hc E]. split; [split; [done|]|done]. intros [_ E']. rewrite E in E'. subst x.
      rewrite elem_of_union, elem_of_difference, elem_of_singleton in Hx. destruct Hx as [?|Hx]; [tauto|by apply not_elem_of_empty in Hx].
    + intros c [Hc Hcl]%elem_of_difference. destruct (B2 c Hc) as [Hh ?]. split; [|done]. revert Hh.
      rewrite !elem_of_union, elem_of_difference, elem_of_singleton. intros [Hh|?]; [left|by right]. split; [done|].
      intros E. apply Hcl, elem_of_list_to_set, Hm. done.
    + intros c c' [Hc _]%elem_of_difference [Hc' _]%elem_of_difference. by apply B3.
    + intros c [Hc _]%elem_of_difference. by apply B4.
  - apply (Cfree_ext s _ (U ∪ KC)); try done. intros x. rewrite !elem_of_union, elem_of_difference, elem_of_list_to_set, Hm. tauto.
  - split_and!; [done| |done]. intros x [Hx _]%elem_of_difference. by apply A7.
  - split; [done|]. intros c Hc. pose proof Hc as [HcU _]%Hm. split; [by apply (fp_home _ _ _ A1)|]. split.
    + intros [_ Hx]%elem_of_difference. by apply Hx, elem_of_list_to_set.
    + intros Hk. by apply (A7 c).
Qed.

Lemma limbo_free KC KF A X V fe c l s n :
  Fpart s (A ∖ {[fe]} ∪ X) V -> Hpart s A -> Cfree s (V ∪ KC ∪ list_to_set (c :: l)) -> Ffree s (A ∪ X ∪ KF) ->
  addresses s -> A ## X /\ V ## KC /\ A ∪ X ## KF -> (forall i, i ∈ X ∪ KC ∪ KF -> in_tab s i) ->
  (NoDup (c :: l) /\ forall x, x ∈ c :: l -> in_tab s x /\ (x ∉ V) /\ x ∉ KC) -> fe ∈ A ->
  Tpart s all (V ∪ list_to_set l) -> Lpart s all (V ∪ list_to_set l) -> homes s (V ∪ list_to_set l) ->
  let s' := set_FE fe (with_ncbs n (FE s fe)) (freed_cb c s) in
  limbo KC KF A X V fe l s' /\ frame false false true ∅ s s'.
Proof.
  intros A1 A2 A3 A4 A5 (A6 & A7 & A8) A9 [Hnd Hl] Hfe HT HL HH s'. apply NoDup_cons in Hnd as [Hcl Hnd].
  destruct (Hl c) as (Hctab & HcV & HcK); [left|].
  assert (F : frame false false true ∅ s s').
  { split; try done; cbsimp; intros; repeat split; intros; unfold s', freed_cb; cbsimp; upd_case; done. }
  assert (Efe : forall x, x <> fe -> FE s' x = FE s x) by (intros x Hx; unfold s', freed_cb; cbsimp; by destruct (Z.eqb_spec x fe)).
  split; [|done]. split; try done.
  - apply (Fpart_ext s); [done| | |done].
    + intros x Hx. rewrite Efe; [done|]. intros ->. rewrite elem_of_union, elem_of_difference, elem_of_singleton in Hx.
      destruct Hx as [[_ []]|Hx]; [done|by apply (A6 fe)].
    + intros x Hx. unfold s', freed_cb. cbsimp. destruct (Z.eqb_spec x c) as [->|]; done.
  - apply (Hpart_ext s); [done|done| |done]. intros x _. unfold s', freed_cb. cbsimp. by destruct (Z.eqb_spec x fe) as [->|].
  - apply (Cfree_ext (freed_cb c s) _ ((V ∪ KC ∪ list_to_set (c :: l)) ∖ {[c]})); try done.
    + intros x. rewrite elem_of_difference, !elem_of_union, !elem_of_list_to_set, elem_of_cons, elem_of_singleton.
      intros Hx. split; [tauto|]. intros ->. tauto.
    + apply Cfree_freed; [done|done|done|]. rewrite !elem_of_union, elem_of_list_to_set. right. left.
  - apply (Ffree_ext s _ (A ∪ X ∪ KF)); try done. intros x _. unfold s', freed_cb. cbsimp. by destruct (Z.eqb_spec x fe) as [->|].
  - split; [done|]. intros x Hx. apply Hl. by right.
  - by apply (Tpart_frame _ _ _ _ _ _ _ F).
  - by apply (Lpart_frame _ _ _ _ _ _ _ F).
  - by apply (homes_frame _ _ _ _ _ _ _ F).
Qed.

Lemma wp_delete_file_cbs f n KC KF A X V fe l cbi (Q : unit -> world -> Prop) w :
  limbo KC KF A X V fe l (st w) -> in_tab (st w) fe -> chain (cn (st w)) cbi l -> (length l <= n)%nat ->
  (forall s', limbo KC KF A X V fe [] s' -> less A X (list_to_set l) (st w) A s' -> Q tt (set_st s' w)) ->
  wp f (delete_file_cbs n fe cbi) Q w.
Proof.
  revert cbi l w. induction n as [|n IH]; intros cbi l w HL Hfe Hch Hn HQ; destruct l as [|c l]; cbn [chain] in Hch.
  1, 3: rewrite Hch; apply wp_ret; change (Q tt w); replace w with (set_st (st w) w) by (by destruct w); apply HQ; [done|apply less_refl].
  { cbn in Hn. lia. }
  destruct Hch as (-> & Hc0 & Hch). cbn [delete_file_cbs]. rewrite (proj2 (Z.eqb_neq c 0) Hc0).
  destruct HL as [A1 A2 A3 A4 A5 A6 A7 A8 HfeA A9 A10 A11]. pose proof (proj1 (proj2 A8 c ltac:(left))) as Hcin.
  assert (Eset : (V ∪ list_to_set (c :: l)) ∖ {[c]} = V ∪ list_to_set l).
  { apply set_eq. intros x. destruct A8 as [[Hcl _]%NoDup_cons Hx]. destruct (Hx c ltac:(left)) as (_ & ? & _).
    rewrite elem_of_difference, !elem_of_union, !elem_of_list_to_set, elem_of_cons, elem_of_singleton.
    split; [tauto|]. intros Hor. split; [tauto|]. intros ->. tauto. }
  assert (Hcu : c ∈ V ∪ list_to_set (c :: l)) by (rewrite elem_of_union, elem_of_list_to_set; right; left).
  apply wp_bind, wp_cb_at; [done|]. apply wp_bind, (wp_TDel _ _ all (V ∪ list_to_set (c :: l))); [done|done|done|done|].
  intros s1 HT1 F1. rewrite Eset in HT1. apply wp_bind, (wp_HDel _ _ all (V ∪ list_to_set (c :: l))); cbsimp.
  { by apply (Lpart_frame _ _ _ _ _ _ _ F1). } { by apply (homes_frame _ _ _ _ _ _ _ F1). } { done. } { done. }
  intros s2 HL2 F2. rewrite Eset in HL2. pose proof (frame_trans0 _ _ _ _ _ _ _ _ _ F1 F2) as F. cbn [orb] in F.
  pose proof (fr_n _ _ _ _ _ _ F) as En. destruct (fr_c _ _ _ _ _ _ F eq_refl) as (G1 & G2 & [G3 G4] & G5).
  apply wp_bind, wp_iFreeCB; [cbsimp; unfold in_tab; by rewrite En|].
  apply wp_bind, wp_fe_put; [cbsimp; unfold in_tab; change (nblks (freed_cb c s2)) with (nblks s2); by rewrite En|]. cbsimp.
  change (FE (freed_cb c s2)) with (FE s2). set (m := u32 _).
  destruct (limbo_free KC KF A X V fe c l s2 m) as [HL3 F3]; try done.
  - apply (Fpart_ext (st w)); [done|intros x _; by rewrite G1| |done]. intros x _. destruct (G5 x).
    destruct (fr_info _ _ _ _ _ _ F x (not_elem_of_empty x)) as (? & _ & _ & ?). done.
  - apply (Hpart_ext (st w)); [done|done| |done]. intros x _. by rewrite G1.
  - apply (Cfree_ext (st w) _ (V ∪ KC ∪ list_to_set (c :: l))); try done; apply F.
  - apply (Ffree_ext (st w) _ (A ∪ X ∪ KF)); try done; [apply F|]. intros x _. by rewrite G1.
  - by apply (addresses_frame _ _ _ _ _ _ F).
  - intros i Hi. unfold in_tab. rewrite En. by apply A7.
  - split; [by apply A8|]. intros x Hx. unfold in_tab. rewrite En. by apply A8.
  - by apply (Tpart_frame _ _ _ _ _ _ _ F2).
  - apply (homes_frame _ _ _ _ _ _ _ F); [done|]. apply (homes_sub _ (V ∪ list_to_set (c :: l))); [|done].
    rewrite <- Eset. by intros x [? _]%elem_of_difference.
  - apply (IH _ l); [done|unfold in_tab; cbsimp; change (nblks (freed_cb c s2)) with (nblks s2); by rewrite En| |cbn in Hn; lia|].
    + cbsimp. revert Hch. apply chain_ext. intros x Hx. unfold cn, freed_cb. cbsimp. destruct (Z.eqb_spec x c) as [->|].
      * by destruct (proj1 (proj1 (NoDup_cons _ _) (proj1 A8))).
      * symmetry; apply G5.
    + cbsimp. intros s' HL' L'. apply HQ; [done|].
      change (list_to_set (c :: l)) with ({[c]} ∪ list_to_set (C := gset Z) l). refine (less_trans _ _ _ _ _ A _ _ _ _ L').
      rewrite <- (union_empty_l_L {[c]}). apply (less_trans _ _ _ _ _ A s2); [by apply (less_frame _ _ _ _ _ _ _ F)|].
      split; [done| | |by apply frame_weaken in F3].
      * intros x _. unfold same_name, freed_cb. cbsimp. by destruct (Z.eqb_spec x fe) as [->|].
      * intros x Hx%not_elem_of_singleton. unfold freed_cb. cbsimp. by destruct (Z.eqb_spec x c).
Qed.

Definition cbs_on (s : cbs) (fe : Z) (U : gset Z) : gset Z := filter (fun c => fhead (CB s c) = fe) U.

Lemma wp_delete_file f KC KF A U fe (Q : unit -> world -> Prop) w :
  ok KC KF A U (st w) -> fe ∈ A ->
  (forall s', ok KC KF (A ∖ {[fe]}) (U ∖ cbs_on (st w) fe U) s' ->
     less A ∅ (cbs_on (st w) fe U) (st w) (A ∖ {[fe]}) s' -> Q tt (set_st s' w)) ->
  wp f (do n <- table_size; do f <- fe_at fe; delete_file_cbs n fe (firstcb f) ;; FDel fe) Q w.
Proof.
  intros Hok Hfe HQ. pose proof Hok as [O1 O2 O3 O4]. pose proof (hp_tab _ _ (cp_hash _ _ _ _ _ _ O1) _ Hfe) as Hin.
  destruct (fp_file _ _ _ (cp_file _ _ _ _ _ _ O1) fe) as (l & Hl & Hnd & _ & Hm); [apply elem_of_union; by left|].
  assert (El : cbs_on (st w) fe U = list_to_set l).
  { apply set_eq. intros c. unfold cbs_on. rewrite elem_of_filter, elem_of_list_to_set, Hm. tauto. }
  rewrite El in HQ. apply wp_bind, wp_get, wp_bind, wp_fe_at; [done|].
  apply wp_bind, (wp_delete_file_cbs _ _ KC KF A ∅ (U ∖ list_to_set l) _ l); [by apply limbo_start|done|done| |].
  { apply in_tab_nodup; [done|]. intros x [Hx _]%Hm. by apply O4. }
  intros s1 HL1 L1. pose proof HL1 as [A1 A2 A3 A4 A5 A6 A7 _ _ A9 A10 A11].
  rewrite list_to_set_nil, union_empty_r_L in A3, A9, A10, A11.
  apply (wp_FDel _ _ KC KF A ∅ (U ∖ list_to_set l)); try done. intros s' HC F Hs Ec. cbsimp.
  apply HQ.
  - split; [done|by apply (Tpart_frame _ _ _ _ _ _ _ F)|by apply (Lpart_frame _ _ _ _ _ _ _ F)|by apply (homes_frame _ _ _ _ _ _ _ F)].
  - rewrite <- (union_empty_r_L (list_to_set l)). apply (less_trans _ _ _ _ _ A s1); [done|]. split.
    + by intros x [? _]%elem_of_difference.
    + intros x Hx. destruct (Hs x) as (? & ? & ? & _ & _ & ?); [|done]. intros ->.
      rewrite elem_of_union, elem_of_difference, elem_of_singleton in Hx. destruct Hx as [[_ []]|Hx]; [done|by apply not_elem_of_empty in Hx].
    + intros c _. by rewrite Ec.
    + by apply frame_weaken in F.
Qed.

Lemma wp_DeleteFileCallBacks f KC KF A U fid (Q : unit -> world -> Prop) w :
  ok KC KF A U (st w) ->
  ((forall fe, fe ∈ A -> later (st w) fe = false -> fe_fid (st w) fe <> fid) -> Q tt w) ->
  (forall fe s', fe ∈ A -> later (st w) fe = false -> fe_fid (st w) fe = fid ->
     ok KC KF (A ∖ {[fe]}) (U ∖ cbs_on (st w) fe U) s' ->
     less A ∅ (cbs_on (st w) fe U) (st w) (A ∖ {[fe]}) s' -> Q tt (set_st s' w)) ->
  wp f (DeleteFileCallBacks fid) Q w.
Proof.
  intros Hok H0 HQ. unfold DeleteFileCallBacks. apply wp_bind, (wp_FindFE _ _ A); [by apply Hok|by intros ?; apply wp_ret, H0|].
  intros fe Hfe Hlat Hfid. pose proof (hp_tab _ _ (cp_hash _ _ _ _ _ _ (ok_c _ _ _ _ _ Hok)) _ Hfe) as [? _].
  rewrite (proj2 (Z.eqb_neq fe 0)) by lia. apply (wp_delete_file _ KC KF A U); [done|done|]. intros s'. by apply HQ.
Qed.

(** ** One call-back *)

Lemma wp_FindCBPtr f KC KF A X U fe h (Q : cb_loc -> world -> Prop) w :
  Cpart KC KF A X U (st w) -> fe ∈ A ∪ X -> in_tab (st w) fe ->
  (forall c l1 l2, chain (cn (st w)) (firstcb (FE (st w) fe)) (l1 ++ c :: l2) -> NoDup (l1 ++ c :: l2) ->
     ncbs (FE (st w) fe) = Z.of_nat (length (l1 ++ c :: l2)) ->
     (forall x, x ∈ l1 ++ c :: l2 <-> x ∈ U /\ fhead (CB (st w) x) = fe) ->
     hhead (CB (st w) c) = h -> Q (cb_loc_of fe l1) w) ->
  (forall l, chain (cn (st w)) (firstcb (FE (st w) fe)) (l ++ []) -> (forall x, x ∈ l -> in_tab (st w) x) ->
     (forall x, x ∈ U -> fhead (CB (st w) x) = fe -> hhead (CB (st w) x) <> h) -> Q (cb_loc_of fe l) w) ->
  wp f (FindCBPtr fe h) Q w.
Proof.
  intros HC Hfe Hin HQ H0. destruct (fp_file _ _ _ (cp_file _ _ _ _ _ _ HC) fe Hfe) as (l & Hl & Hnd & Hlen & Hm).
  assert (Htab : forall x, x ∈ l -> in_tab (st w) x) by (intros x [Hx _]%Hm; by apply (fp_home _ _ _ (cp_file _ _ _ _ _ _ HC))).
  unfold FindCBPtr. apply wp_bind, wp_get, (wp_find_cb_loop _ _ _ _ [] l); try done.
  - pose proof (in_tab_nodup _ _ Hnd Htab). lia.
  - intros c l1 l2 -> Hc. by apply (HQ c l1 l2).
  - intros Hno. cbn [app]. apply H0; [by rewrite app_nil_r|done|]. intros x Hx E. by apply Hno, Hm.
Qed.

(** [DeleteCallBack] when it has the lock of the host. *)
Lemma wp_delete_one f KC KF A U h fid (Q : unit -> world -> Prop) w :
  ok KC KF A U (st w) ->
  ((forall c, c ∈ U -> later (st w) (fhead (CB (st w) c)) = false -> fe_fid (st w) (fhead (CB (st w) c)) = fid ->
     hhead (CB (st w) c) <> h) -> Q tt w) ->
  (forall c A' s', c ∈ U -> later (st w) (fhead (CB (st w) c)) = false -> fe_fid (st w) (fhead (CB (st w) c)) = fid ->
     hhead (CB (st w) c) = h -> ok KC KF A' (U ∖ {[c]}) s' -> less A ∅ {[c]} (st w) A' s' -> Q tt (set_st s' w)) ->
  wp f (do fe <- FindFE fid;
        if fe =? 0 then ret tt
        else
          do pcb <- FindCBPtr fe h;
          do v <- cb_loc_get pcb;
          if v =? 0 then ret tt
          else HDel v ;; TDel v ;; CDelPtr fe pcb true) Q w.
Proof.
  intros Hok H0 HQ. pose proof Hok as [O1 _ _ O4]. pose proof (cp_hash _ _ _ _ _ _ O1) as HH. pose proof (cp_file _ _ _ _ _ _ O1) as HF.
  assert (HA : forall c, c ∈ U -> fhead (CB (st w) c) ∈ A).
  { intros c Hc. destruct (fp_home _ _ _ HF c Hc) as [Hh _]. by rewrite union_empty_r_L in Hh. }
  apply wp_bind, (wp_FindFE _ _ A); [done| |].
  { intros Hno. apply wp_ret, H0. intros c Hc Hl Hf _. by apply (Hno (fhead (CB (st w) c))); [apply HA| |]. }
  intros fe Hfe Hlat Hfid. pose proof (hp_tab _ _ HH _ Hfe) as Hin.
  rewrite (proj2 (Z.eqb_neq fe 0)) by (unfold in_tab in Hin; lia). assert (Hfe' : fe ∈ A ∪ ∅) by (apply elem_of_union; by left).
  apply wp_bind, (wp_FindCBPtr _ KC KF A ∅ U); [done|done|done| |].
  - intros c l1 l2 Hl Hnd Hlen Hm Hh. assert (Hcl : c ∈ l1 ++ c :: l2) by (apply elem_of_app; right; left).
    pose proof Hcl as [HcU Hcf]%Hm. pose proof (O4 _ HcU) as (Hcin & _).
    apply wp_bind, (cb_loc_value _ _ _ (c :: l2)); [done|done| |].
    { intros x Hx. assert (x ∈ l1 ++ c :: l2) as [HxU _]%Hm by (apply elem_of_app; by left). by apply O4. }
    rewrite (proj2 (Z.eqb_neq c 0)) by (unfold in_tab in Hcin; lia). apply ok_parts in Hok.
    apply wp_bind, (parts_HDel _ KC KF A ∅ U U U U all all); [done|done|done|]. intros s1 P1 F1.
    apply wp_bind, (parts_TDel _ KC KF A ∅ U U (U ∖ {[c]}) U all all); [done|done|done|]. cbsimp. intros s2 P2 F2.
    pose proof (frame_trans0 _ _ _ _ _ _ _ _ _ F1 F2) as F. destruct (fr_c _ _ _ _ _ _ F eq_refl) as (G1 & _ & _ & G2). cbn [orb] in F.
    apply (wp_CDelPtr _ _ c l1 l2 KC KF A ∅ U); cbsimp; rewrite ?G1; try done; [by apply P2|revert Hl; apply chain_ext; intros x _; symmetry; apply G2| |].
    + intros x. rewrite Hm. by destruct (G2 x) as [_ ->].
    + intros A' s' HD. apply (HQ c A'); rewrite ?Hcf; try done.
      * pose proof (parts_cdel_post _ _ _ _ _ _ _ _ _ _ _ _ _ _ _ _ P2 HD) as [? ? ? ? _]. split; try done.
        apply (homes_sub _ U); [by intros x [? _]%elem_of_difference|done].
      * rewrite <- (union_empty_l_L {[c]}). apply (less_trans _ _ _ _ _ A s2); [by apply (less_frame _ _ _ _ _ _ _ F)|].
        by apply (less_cdel _ _ _ _ _ _ _ _ _ _ _ HD).
  - intros l Hl Htab Hno. apply wp_bind, (cb_loc_value _ _ _ []); [done|done|done|]. apply wp_ret, H0.
    intros c Hc Hl' Hf. apply Hno; [done|]. apply (hp_unique _ _ HH); [by apply HA|done|done|done|congruence].
Qed.

(** ** Call-backs that have timed out *)

Lemma wp_cleanup_queue f n KC KF A V UT UH Qs q first cbi r (Q : nat -> world -> Prop) w :
  parts KC KF A ∅ V UT V UH Qs all (st w) -> 1 <= q <= 128 -> timeout (st w) q = first ->
  steps (tn (st w)) (tp (st w)) cbi (r ++ [first]) -> first ∉ r -> NoDup (cbi :: r) ->
  (forall c, c ∈ cbi :: r -> c ∈ V) -> (length (cbi :: r) <= n)%nat ->
  (forall A' s', parts KC KF A' ∅ (V ∖ list_to_set (cbi :: r)) UT (V ∖ list_to_set (cbi :: r)) UH Qs all s' ->
     less A ∅ (list_to_set (cbi :: r)) (st w) A' s' -> frame false true true ∅ (st w) s' ->
     Q (n - length (cbi :: r))%nat (set_st s' w)) ->
  wp f (cleanup_queue n q cbi) Q w.
Proof.
  revert A V cbi r w. induction n as [|n IH]; intros A V cbi r w HP Hq Hto Hst Hf Hnd Hin Hn HQ; [cbn in Hn; lia|].
  assert (Hc : cbi ∈ V) by (apply Hin; left). cbn [cleanup_queue].
  pose proof (fp_home _ _ _ (cp_file _ _ _ _ _ _ (pa_c _ _ _ _ _ _ _ _ _ _ _ HP)) _ Hc) as [Hh Htab].
  apply wp_bind, wp_cb_at; [done|]. apply wp_bind, (parts_HDel _ KC KF A ∅ V UT V UH Qs all); [done|done|done|].
  intros s1 HP1 F1. apply wp_bind, (parts_CDel _ KC KF A ∅ V UT (V ∖ {[cbi]}) UH Qs all); [done|done| |].
  { intros _. cbsimp. rewrite union_empty_r_L in Hh.
    destruct (fr_c _ _ _ _ _ _ F1 eq_refl) as (_ & _ & _ & E1). by destruct (E1 cbi) as [_ ->]. }
  intros A2 s2 HP2 HC. cbsimp. pose proof (less_trans _ _ ∅ _ _ _ _ _ _ (less_frame A ∅ ∅ _ _ _ _ F1) (less_cdel _ _ _ _ _ _ _ _ _ _ _ HC)) as L.
  pose proof (frame_trans0 _ _ _ _ _ _ _ _ _ F1 (cd_frame _ _ _ _ _ _ _ _ _ _ _ HC)) as F. cbn [orb] in F. rewrite union_empty_l_L in L.
  destruct (frame_tlink _ _ _ _ F) as [En Ep]. destruct (fr_t _ _ _ _ _ _ F eq_refl) as [Et _].
  apply wp_bind, wp_timeout_at; [done|]. cbsimp. rewrite Et, Hto.
  destruct r as [|c2 r]; cbn [app steps] in Hst; destruct Hst as (E1 & E2 & Hst); unfold tn in E1; rewrite E1.
  - rewrite Z.eqb_refl. apply wp_ret. replace n with (S n - length [cbi])%nat at 1 by (cbn; lia).
    apply (HQ A2); rewrite ?list_to_set_cons, ?list_to_set_nil, ?union_empty_r_L; done.
  - destruct (Z.eqb_spec c2 first) as [->|_]; [destruct Hf; left|]. apply (IH A2 (V ∖ {[cbi]}) c2 r); [done|done| | | | | | |].
    + cbsimp. by rewrite Et.
    + cbsimp. revert Hst. apply steps_ext; intros; [by rewrite En|by rewrite Ep].
    + intros Hx. apply Hf. by right.
    + by apply NoDup_cons in Hnd as [_ ?].
    + by apply (list_in_difference _ _ (c2 :: r)).
    + cbn [length] in Hn |- *. lia.
    + cbsimp. intros A3 s3 HP3 L3 F3. apply (HQ A3); [by rewrite difference_cons in HP3| |].
      * change (list_to_set (cbi :: c2 :: r)) with ({[cbi]} ∪ list_to_set (C := gset Z) (c2 :: r)). by apply (less_trans _ _ _ _ _ A2 s2).
      * by apply (frame_trans0 _ _ _ _ _ _ _ _ _ F F3).
Qed.

(** A queue that has been torn down is empty. *)
Lemma Tpart_reset s q U :
  Tpart s (fun x => x <> q) U -> (forall c, c ∈ U -> thead (CB s c) <> q) ->
  Tpart (set_timeout q 0 s) all U /\ frame true false false ∅ s (set_timeout q 0 s).
Proof.
  intros HT Hno. split.
  - intros q' Hq' _. cbsimp. destruct (Z.eqb_spec q' q) as [->|Hne].
    + exists []. split; [by split|]. split; [by apply NoDup_nil|].
      intros c. split; [by intros ?%not_elem_of_nil|]. intros [Hc E]. by destruct (Hno c Hc).
    + by apply (HT q').
  - by split.
Qed.

Definition cbs_in (s : cbs) (q : Z) (U : gset Z) : gset Z := filter (fun c => thead (CB s c) = q) U.

Lemma wp_cleanup_one f n KC KF A U q (Q : nat -> world -> Prop) w :
  ok KC KF A U (st w) -> 1 <= q <= 128 -> (size U <= n)%nat ->
  (forall A' s', ok KC KF A' (U ∖ cbs_in (st w) q U) s' -> less A ∅ (cbs_in (st w) q U) (st w) A' s' -> Q (n - size (cbs_in (st w) q U))%nat (set_st s' w)) ->
  wp f (do cbi <- timeout_at q;
        if cbi =? 0 then ret n else do n <- cleanup_queue n q cbi; timeout_put q 0 ;; ret n) Q w.
Proof.
  intros Hok Hq Hsz HQ. pose proof Hok as [O1 O2 O3 O4]. destruct (O2 q Hq I) as (l & Hr & Hnd & Hm).
  assert (Hl : cbs_in (st w) q U = list_to_set l).
  { apply set_eq. intros c. unfold cbs_in. rewrite elem_of_filter, elem_of_list_to_set, Hm. tauto. }
  rewrite Hl, size_list_to_set in HQ by done. apply wp_bind, wp_timeout_at; [done|].
  assert (H0 : forall x, x ∈ l -> in_tab (st w) x) by (intros x [Hx _]%Hm; by apply O4).
  assert (Hlen : (length l <= n)%nat).
  { rewrite <- (size_list_to_set (C := gset Z) l) by done. etransitivity; [apply subseteq_size|done].
    intros x Hx%elem_of_list_to_set. by apply Hm. }
  destruct l as [|a r]; destruct Hr as [Hcyc Hhd]; rewrite Hhd.
  { rewrite Z.eqb_refl. apply wp_ret. change (Q n w). replace w with (set_st (st w) w) by by destruct w.
    replace n with (n - length (@nil Z))%nat by (cbn; lia).
    apply (HQ A); [|apply less_refl]. by rewrite list_to_set_nil, difference_empty_L. }
  assert (Ha : a <> 0) by (assert (in_tab (st w) a) as [? _] by (apply H0; left); lia).
  rewrite (proj2 (Z.eqb_neq a 0) Ha).
  apply wp_bind, (wp_cleanup_queue _ _ KC KF A U U U (fun x => x <> q) q a a r); try done.
  - split; [done| |done|done|done]. intros q' Hq' _. by apply O2.
  - by apply NoDup_cons in Hnd as [? _].
  - intros c Hc. by apply Hm.
  - intros A' s' [P1 P2 P3 P4 _] HL F. apply wp_bind, wp_timeout_put; [done|]. cbsimp. set (R := list_to_set (a :: r)) in *.
    assert (HinR : forall c, c ∈ R <-> c ∈ U /\ thead (CB (st w) c) = q) by (intros c; unfold R; by rewrite elem_of_list_to_set, Hm).
    destruct (Tpart_reset s' q (U ∖ R)) as [HT' F'].
    { intros q' Hq' Hne. destruct (P2 q' Hq' Hne) as (l' & Hr' & Hnd' & Hm'). exists l'. split; [done|]. split; [done|].
      intros c. rewrite Hm', elem_of_difference, HinR. destruct (frame_hd _ _ _ _ _ c F) as [-> _].
      split; [intros [? ?]; split; [split; [done|]|done]; intros [_ ?]; congruence|tauto]. }
    { intros c [Hc HcR]%elem_of_difference E. apply HcR, HinR. split; [done|]. by destruct (frame_hd _ _ _ _ _ c F) as [<- _]. }
    apply wp_ret, (HQ A').
    + split; [by apply (Cpart_frame _ _ _ _ _ _ _ _ _ F')|done|by apply (Lpart_frame _ _ _ _ _ _ _ F')|].
      apply (homes_frame _ _ _ _ _ _ _ F'); [done|]. apply (homes_sub _ U); [by intros x [? _]%elem_of_difference|done].
    + rewrite <- (union_empty_r_L R). apply (less_trans _ _ _ _ _ A' s'); [done|]. by apply (less_frame _ _ _ _ _ _ _ F').
Qed.

Lemma wp_assoc {A B C} f (a : M A) (b : A -> M B) (c : B -> M C) Q w :
  wp f (bind (bind a b) c) Q w -> wp f (bind a (fun x => bind (b x) c)) Q w.
Proof. unfold wp, bind. by destruct (a w). Qed.

Lemma ok_tfirst KC KF A U s t : ok KC KF A U s -> ok KC KF A U (set_tfirst t s).
Proof.
  intros [[A1 A2 A3 A4 A5 A6 A7] O2 O3 O4]. split; [split| | |]; try done; [by apply (Fpart_ext s)|by apply (Hpart_ext s)].
Qed.

Lemma less_tfirst A X R s A' s' t : less A X R s A' s' -> less A X R (set_tfirst t s) A' (set_tfirst t s').
Proof. intros [L1 L2 L3 [F1 F2 [_ F3] F4 F5 F6 F7 F8 F9]]. split; try done. Qed.

Lemma set_tfirst_same s : set_tfirst (tfirst s) s = s.
Proof. by destruct s. Qed.

Lemma ok_size KC KF A U s : ok KC KF A U s -> (size U <= Z.to_nat (nblks s))%nat.
Proof.
  intros [_ _ _ O4]. change (size U) with (length (elements U)). apply in_tab_nodup; [apply NoDup_elements|].
  intros i Hi%elem_of_elements. by apply O4.
Qed.

Lemma TIndex_mod t : TIndex t = t mod 128 + 1.
Proof. unfold TIndex. change 127 with (Z.ones 7). by rewrite Z.land_ones by lia. Qed.
Lemma TIndex_range t : 1 <= TIndex t <= 128.
Proof. rewrite TIndex_mod. mlia. Qed.

(** The tick at which the queue [q] is due, when [tf] is the first that is not past. *)
Definition due (tf q : Z) : Z := tf + (q - 1 - tf) mod 128.

Lemma due_first tf q : 1 <= q <= 128 -> due tf q = tf <-> q = TIndex tf.
Proof. intros Hq. unfold due. rewrite TIndex_mod. split; intros; mlia. Qed.
Lemma due_next tf q : 1 <= q <= 128 -> q <> TIndex tf -> due (tf + 1) q = due tf q.
Proof. intros Hq Hne. unfold due. rewrite TIndex_mod in Hne. mlia. Qed.
Lemma due_range tf q : tf <= due tf q < tf + 128.
Proof. unfold due. mlia. Qed.

Definition cbs_due (s : cbs) (t : Z) (U : gset Z) : gset Z := filter (fun c => due (tfirst s) (thead (CB s c)) < t) U.

(** The call-backs of the first queue, and those of the others. *)
Lemma cbs_due_step s A A' U R s' t :
  homes s U -> R = cbs_in s (TIndex (tfirst s)) U -> less A ∅ R s A' s' -> tfirst s < t ->
  R ## cbs_due (set_tfirst (tfirst s + 1) s') t (U ∖ R)
  /\ R ∪ cbs_due (set_tfirst (tfirst s + 1) s') t (U ∖ R) = cbs_due s t U.
Proof.
  intros HU -> HL Ht. set (R := cbs_in s _ U) in *. split.
  - intros c Hc [_ [_ Hc']%elem_of_difference]%elem_of_filter. done.
  - apply set_eq. intros c. unfold cbs_due. rewrite elem_of_union, !elem_of_filter, elem_of_difference. cbsimp.
    destruct (frame_hd _ _ _ _ _ c (le_frame _ _ _ _ _ _ HL)) as [-> _]. unfold R, cbs_in. rewrite elem_of_filter.
    destruct (decide (c ∈ U)) as [Hc|]; [|tauto]. destruct (HU c Hc) as (_ & Hq & _).
    destruct (decide (thead (CB s c) = TIndex (tfirst s))) as [E|E].
    + apply due_first in E as E'; [|done]. rewrite E'. tauto.
    + rewrite due_next by done. tauto.
Qed.

Lemma wp_cleanup_queues f k n KC KF A U (Q : nat -> world -> Prop) w :
  ok KC KF A U (st w) -> (size U <= n)%nat ->
  let t := tfirst (st w) + Z.of_nat k in
  (forall A' s', ok KC KF A' (U ∖ cbs_due (st w) t U) s' ->
     less A ∅ (cbs_due (st w) t U) (st w) A' (set_tfirst (tfirst (st w)) s') -> tfirst s' = t -> Q (n - size (cbs_due (st w) t U))%nat (set_st s' w)) ->
  wp f (cleanup_queues k n) Q w.
Proof.
  revert n A U w. induction k as [|k IH]; intros n A U w Hok Hsz t HQ; cbn [cleanup_queues].
  - assert (E : cbs_due (st w) t U = ∅).
    { apply set_eq. intros c. unfold cbs_due. rewrite elem_of_filter. pose proof (due_range (tfirst (st w)) (thead (CB (st w) c))).
      split; [intros [? _]; subst t; lia|by intros ?%not_elem_of_empty]. }
    rewrite E, size_empty, Nat.sub_0_r, difference_empty_L in HQ. apply wp_ret. change (Q n w).
    replace w with (set_st (st w) w) by by destruct w. apply (HQ A); [done|rewrite set_tfirst_same; apply less_refl|subst t; lia].
  - apply wp_bind, wp_get, wp_assoc, wp_bind. set (tf := tfirst (st w)) in *.
    apply (wp_cleanup_one _ _ KC KF A U); [done|apply TIndex_range|done|]. set (R := cbs_in (st w) (TIndex tf) U).
    intros A1 s1 Hok1 L1. apply wp_bind, wp_modify. cbsimp. destruct (fr_time _ _ _ _ _ _ (le_frame _ _ _ _ _ _ L1)) as [Ht1 _]. rewrite Ht1. fold tf.
    destruct (cbs_due_step (st w) A A1 U R s1 t) as [Hdis Hun]; [by apply Hok|done|done|subst t; fold tf; lia|]. fold tf in Hdis, Hun.
    set (R2 := cbs_due _ _ (U ∖ R)) in *.
    assert (Hs : (size R + size (U ∖ R) = size U)%nat).
    { rewrite <- size_union; [f_equal; symmetry; apply union_difference_L|]; intros x; [by intros [_ ?]%elem_of_filter|].
      intros Hx [_ Hx']%elem_of_difference. done. }
    apply (IH _ A1 (U ∖ R)); cbsimp; [by apply ok_tfirst|lia|]. replace (tf + 1 + Z.of_nat k) with t by (subst t; lia). fold R2.
    intros A' s' Hok' L' Ht'. rewrite <- Hun in HQ. rewrite (size_union _ _ Hdis) in HQ.
    replace (n - size R - size R2)%nat with (n - (size R + size R2))%nat by lia. apply (HQ A'); [| |done].
    + replace (U ∖ (R ∪ R2)) with (U ∖ R ∖ R2); [done|]. apply set_eq. intros x. rewrite !elem_of_difference, elem_of_union. tauto.
    + apply (less_tfirst _ _ _ _ _ _ tf) in L'. refine (less_trans _ _ _ _ _ A1 s1 _ _ L1 _).
      replace s1 with (set_tfirst tf (set_tfirst (tf + 1) s1)) at 1; [exact L'|]. unfold tf. rewrite <- Ht1. by destruct s1.
Qed.

(** Every call-back whose tick is not later than now goes. *)
Lemma wp_CleanupTimedOutCallBacks_r f KC KF A U (Q : bool -> world -> Prop) w :
  ok KC KF A U (st w) ->
  let t := Z.max (tfirst (st w)) (u32 (CBtime (clock (st w))) + 1) in
  (forall A' s', ok KC KF A' (U ∖ cbs_due (st w) t U) s' ->
     less A ∅ (cbs_due (st w) t U) (st w) A' (set_tfirst (tfirst (st w)) s') -> tfirst s' = t ->
     Q (bool_decide (cbs_due (st w) t U <> ∅)) (set_st s' w)) ->
  wp f CleanupTimedOutCallBacks_r Q w.
Proof.
  intros Hok t HQ. unfold CleanupTimedOutCallBacks_r. apply wp_bind, wp_get, wp_bind, wp_get, wp_bind, wp_get.
  pose proof (ok_size _ _ _ _ _ Hok) as Hsz. apply wp_bind, (wp_cleanup_queues _ _ _ KC KF A U); [done|done|].
  replace (tfirst (st w) + Z.of_nat _) with t by (subst t; lia). intros A' s' Hok' HL Ht. apply wp_ret.
  replace (negb _) with (bool_decide (cbs_due (st w) t U <> ∅)); [by apply (HQ A')|].
  assert (size (cbs_due (st w) t U) <= size U)%nat by (apply subseteq_size; by intros x [_ ?]%elem_of_filter).
  destruct (decide (cbs_due (st w) t U = ∅)) as [E|E].
  - rewrite bool_decide_false by (by intros []). rewrite E, size_empty, Nat.sub_0_r, Nat.eqb_refl. done.
  - rewrite bool_decide_true by done. assert (size (cbs_due (st w) t U) <> 0%nat) by (intros E0; by apply E, leibniz_equiv, size_empty_inv).
    symmetry. apply negb_true_iff, Nat.eqb_neq. lia.
Qed.
