(* ===== verification/CbAdd.v ===== *)
(** * Call-backs: making a promise

    [add_callback], the part of [AddCallBack1_r] behind the allocations, keeps the
    invariant and leaves exactly one promise for the host and the file. *)

From stdpp Require Import prelude list gmap.
From Stdlib Require Import ZArith Lia ZifyBool.
From S2P Require Import Prelude ByteMem CbTab Callback CbRing CbOk CbFile CbOps.

#[local] Open Scope Z_scope.
#[local] Open Scope cb_scope.

(** ** What a call-back promises *)

Record promise := mkPromise {
  p_host : Z;
  p_fid : AFSFid;
  p_later : bool;
  p_queue : Z;
  p_status : Z;
  p_flags : Z
}.

Definition promise_of (s : cbs) (c : Z) : promise :=
  let fe := fhead (CB s c) in
  mkPromise (hhead (CB s c)) (fe_fid s fe) (later s fe) (thead (CB s c)) (cb_status (CB s c)) (cb_flags (CB s c)).

Lemma promise_same s s' c :
  hhead (CB s' c) = hhead (CB s c) -> thead (CB s' c) = thead (CB s c) -> cb_status (CB s' c) = cb_status (CB s c) ->
  cb_flags (CB s' c) = cb_flags (CB s c) -> fhead (CB s' c) = fhead (CB s c) -> same_name s s' (fhead (CB s c)) ->
  promise_of s' c = promise_of s c.
Proof.
  intros E1 E2 E3 E4 E5 (E6 & E7 & E8 & E9). unfold promise_of, fe_fid, later, is_later.
  by rewrite E1, E2, E3, E4, E5, E6, E7, E8, E9.
Qed.

Lemma ok_file KC KF A U s c : ok KC KF A U s -> c ∈ U -> fhead (CB s c) ∈ A.
Proof.
  intros Hok Hc. destruct (fp_home _ _ _ (cp_file _ _ _ _ _ _ (ok_c _ _ _ _ _ Hok)) c Hc) as [Hh _].
  by rewrite union_empty_r_L in Hh.
Qed.
Lemma ok_tab KC KF A U s c : ok KC KF A U s -> c ∈ U -> in_tab s c.
Proof. intros Hok Hc. by destruct (ok_h _ _ _ _ _ Hok c Hc). Qed.
Lemma ok_fe_tab KC KF A U s fe : ok KC KF A U s -> fe ∈ A -> in_tab s fe.
Proof. intros Hok. apply (hp_tab _ _ (cp_hash _ _ _ _ _ _ (ok_c _ _ _ _ _ Hok))). Qed.

(** Deleting call-backs leaves the other promises alone. *)
Lemma less_promise KC KF A U R s A' s' :
  less A ∅ R s A' s' -> ok KC KF A' (U ∖ R) s' -> forall c, c ∈ U ∖ R -> promise_of s' c = promise_of s c.
Proof.
  intros L Hok c Hc. pose proof (ok_file _ _ _ _ _ _ Hok Hc) as Hfe. pose proof Hc as [_ HcR]%elem_of_difference.
  destruct L as [_ L2 L3 L4]. rewrite L3 in Hfe by done.
  destruct (fr_info _ _ _ _ _ _ L4 c (not_elem_of_empty c)) as (? & ? & ? & ?).
  apply promise_same; try done; [by apply L3|]. apply L2, elem_of_union. by left.
Qed.

(** ** Changes of single entries *)

Lemma Tpart_ext s s' Qs U :
  (forall q, timeout s' q = timeout s q) -> (forall c, tn s' c = tn s c) -> (forall c, tp s' c = tp s c) ->
  (forall c, c ∈ U -> thead (CB s' c) = thead (CB s c)) -> Tpart s Qs U -> Tpart s' Qs U.
Proof.
  intros E1 E2 E3 E4 HT q Hq HQ. destruct (HT q Hq HQ) as (l & Hr & Hnd & Hm). exists l. rewrite E1.
  split; [revert Hr; apply ring_ext; intros; [apply E2|apply E3]|]. split; [done|]. intros c. rewrite Hm.
  split; intros [Hc <-]; (split; [done|]); [|symmetry]; by apply E4.
Qed.

Lemma Lpart_ext s s' D U :
  (forall h v', hosts s' !! h = Some v' -> exists v, hosts s !! h = Some v /\ cblist v' = cblist v) ->
  (forall c, hn s' c = hn s c) -> (forall c, hp s' c = hp s c) ->
  (forall c, c ∈ U -> hhead (CB s' c) = hhead (CB s c)) -> Lpart s D U -> Lpart s' D U.
Proof.
  intros E1 E2 E3 E4 HT h v' Hv' HD. destruct (E1 h v' Hv') as (v & Hv & ->). destruct (HT h v Hv HD) as (l & Hr & Hnd & Hm). exists l.
  split; [revert Hr; apply ring_ext; intros; [apply E2|apply E3]|]. split; [done|]. intros c. rewrite Hm.
  split; intros [Hc <-]; (split; [done|]); [|symmetry]; by apply E4.
Qed.

(** A change of the status or the flags of a call-back. *)
Lemma ok_cb_info KC KF A U s c st' fl :
  ok KC KF A U s -> (c ∈ U -> later s (fhead (CB s c)) = true -> st' = CB_DELAYED) ->
  ok KC KF A U (set_CB c (with_flags fl (with_status st' (CB s c))) s).
Proof.
  intros [[A1 A2 A3 A4 A5 A6 A7] O2 O3 O4] Hlat. set (s' := set_CB _ _ s).
  assert (E : forall x, CB s' x = if x =? c then with_flags fl (with_status st' (CB s x)) else CB s x).
  { intros x. unfold s'. cbsimp. by destruct (Z.eqb_spec x c) as [->|]. }
  assert (Ei : forall x, cnext (CB s' x) = cnext (CB s x) /\ fhead (CB s' x) = fhead (CB s x) /\ thead (CB s' x) = thead (CB s x)
    /\ hhead (CB s' x) = hhead (CB s x) /\ tnext (CB s' x) = tnext (CB s x) /\ tprev (CB s' x) = tprev (CB s x)
    /\ hnext (CB s' x) = hnext (CB s x) /\ hprev (CB s' x) = hprev (CB s x)).
  { intros x. rewrite E. by destruct (x =? c). }
  split; [split| | |]; try done.
  - destruct A1 as [B1 B2 B3 B4]. split.
    + intros fe Hfe. destruct (B1 fe Hfe) as (l & Hl & Hnd & Hlen & Hm). exists l. split; [|split; [done|split; [done|]]].
      * revert Hl. apply chain_ext. intros x _. symmetry. apply Ei.
      * intros x. rewrite Hm. by destruct (Ei x) as (_ & -> & _).
    + intros x Hx. destruct (Ei x) as (_ & -> & _). by apply B2.
    + intros x y Hx Hy. destruct (Ei x) as (_ & -> & _ & -> & _), (Ei y) as (_ & -> & _ & -> & _). by apply B3.
    + intros x Hx. destruct (Ei x) as (_ & -> & _). rewrite E. destruct (Z.eqb_spec x c) as [->|]; [by apply Hlat|by apply B4].
  - by apply (Hpart_ext s).
  - apply (Cfree_ext s _ (U ∪ KC)); try done. intros x _. by destruct (Ei x) as (? & ? & _).
  - apply (Tpart_ext s); try done; intros x; try intros _; apply Ei.
  - apply (Lpart_ext s); try done; try (intros x; try intros _; apply Ei). intros h v' Hv'. by exists v'.
  - intros x Hx. destruct (Ei x) as (_ & _ & -> & -> & _). by apply O4.
Qed.

(** Entries that go back to the free lists. *)
Lemma ok_free_cb KC KF A U s c :
  ok KC KF A U s -> c ∈ KC -> ok (KC ∖ {[c]}) KF A U (freed_cb c s) /\ less A ∅ {[c]} s A (freed_cb c s).
Proof.
  intros [[A1 A2 A3 A4 A5 (A6 & A7 & A8) A9] O2 O3 O4] Hc.
  assert (HcU : c ∉ U) by (intros HcU; by apply (A7 c)).
  assert (F : frame false false true ∅ s (freed_cb c s)).
  { split; try done; cbsimp; intros; repeat split; intros; unfold freed_cb; cbsimp; upd_case; done. }
  assert (Ex : forall x, x <> c -> CB (freed_cb c s) x = CB s x) by (intros x Hx; unfold freed_cb; cbsimp; by destruct (Z.eqb_spec x c)).
  split; [split; [split| | |]|split]; try done.
  - apply (Fpart_ext s); try done. intros x Hx. by rewrite Ex by (by intros ->).
  - by apply (Hpart_ext s).
  - apply (Cfree_ext (freed_cb c s) _ ((U ∪ KC) ∖ {[c]})); try done.
    + intros x. rewrite elem_of_difference, !elem_of_union, elem_of_difference, elem_of_singleton.
      intros [?|?]; [|tauto]. split; [tauto|]. by intros ->.
    + apply Cfree_freed; try done; [|apply elem_of_union; by right]. apply A9. rewrite !elem_of_union. tauto.
  - split_and!; try done. by intros x Hx [? _]%elem_of_difference; apply (A7 x).
  - intros i Hi. apply A9. rewrite !elem_of_union, elem_of_difference in *. tauto.
  - by apply (Tpart_frame _ _ _ _ _ _ _ F).
  - by apply (Lpart_frame _ _ _ _ _ _ _ F).
  - by apply (homes_frame _ _ _ _ _ _ _ F).
  - intros x Hx%not_elem_of_singleton. by rewrite Ex.
  - by apply frame_weaken in F.
Qed.

Lemma ok_free_fe KC KF A U s fe :
  ok KC KF A U s -> fe ∈ KF -> ok KC (KF ∖ {[fe]}) A U (freed_fe fe s) /\ less A ∅ ∅ s A (freed_fe fe s).
Proof.
  intros [[A1 A2 A3 A4 A5 (A6 & A7 & A8) A9] O2 O3 O4] Hfe.
  assert (HfA : forall x, x ∈ A ∪ ∅ -> x <> fe) by (intros x Hx ->; by apply (A8 fe)).
  pose proof (frame_freed_fe fe s) as F.
  assert (Ex : forall x, x <> fe -> FE (freed_fe fe s) x = FE s x) by (intros x Hx; unfold freed_fe; cbsimp; by destruct (Z.eqb_spec x fe)).
  split; [split; [split| | |]|split]; try done.
  - apply (Fpart_ext s); try done. intros x Hx. by rewrite Ex by (by apply HfA).
  - apply (Hpart_ext s); try done. intros x Hx. rewrite Ex; [done|]. apply HfA, elem_of_union. by left.
  - apply (Ffree_ext (freed_fe fe s) _ ((A ∪ ∅ ∪ KF) ∖ {[fe]})); try done.
    + intros x. rewrite elem_of_difference, elem_of_union, (elem_of_union (A ∪ ∅)), elem_of_difference, elem_of_singleton.
      intros [Hx|?]; [|tauto]. split; [tauto|]. by apply HfA.
    + apply Ffree_freed; try done; [|apply elem_of_union; by right]. apply A9. rewrite !elem_of_union. tauto.
  - split_and!; try done. by intros x Hx [? _]%elem_of_difference; apply (A8 x).
  - intros i Hi. apply A9. rewrite !elem_of_union, elem_of_difference in *. tauto.
  - intros x Hx. unfold same_name. by rewrite Ex by (by apply HfA).
Qed.

(** ** A new file *)

Lemma wp_new_file f KC KF A U fe fid (Q : unit -> world -> Prop) w :
  ok KC KF A U (st w) -> fe ∈ KF ->
  (forall x, x ∈ A -> later (st w) x = false -> fe_fid (st w) x <> fid) ->
  (forall s', ok KC (KF ∖ {[fe]}) ({[fe]} ∪ A) U s' -> CB s' = CB (st w) ->
     (forall x, x <> fe -> FE s' x = FE (st w) x) ->
     fe_fid s' fe = fid -> later s' fe = false -> firstcb (FE s' fe) = 0 ->
     frame false false true ∅ (st w) s' -> Q tt (set_st s' w)) ->
  wp f (new_file fe fid) Q w.
Proof.
  intros [[A1 A2 A3 A4 A5 (A6 & A7 & A8) A9] O2 O3 O4] Hfe Hno HQ. destruct fid as [[vol vn] un].
  assert (Hin : in_tab (st w) fe) by (apply A9; rewrite !elem_of_union; tauto).
  assert (HfA : fe ∉ A ∪ ∅) by (intros Hx; by apply (A8 fe)).
  unfold new_file. apply wp_bind, wp_get, wp_bind, wp_fe_put; [done|]. apply wp_modify. cbsimp.
  set (s := st w) in *. set (b := FEHash vol un). set (s' := set_hash b fe _).
  assert (Ex : forall x, x <> fe -> FE s' x = FE s x) by (intros x Hx; unfold s'; cbsimp; by destruct (Z.eqb_spec x fe)).
  assert (Efe : FE s' fe = mkFE vn un vol (HashTable s b) 0 0 0) by (unfold s'; cbsimp; by rewrite Z.eqb_refl).
  assert (F : frame false false true ∅ s s') by by split.
  assert (HxA : forall x, x ∈ A -> x <> fe) by (intros x Hx ->; apply HfA, elem_of_union; by left).
  assert (Ehash : fe_hash s' fe = b) by (unfold fe_hash; by rewrite Efe).
  assert (Eother : forall x, x ∈ A -> fe_hash s' x = fe_hash s x /\ fe_fid s' x = fe_fid s x /\ later s' x = later s x).
  { intros x Hx. unfold fe_hash, fe_fid, later. by rewrite Ex by (by apply HxA). }
  apply (HQ s'); rewrite ?Efe; try done; [|unfold fe_fid; by rewrite Efe|unfold later; by rewrite Efe].
  split; [split| | |]; try done.
  - destruct A1 as [B1 B2 B3 B4]. assert (HUfe : forall c, c ∈ U -> fhead (CB s c) <> fe) by (intros c Hc E; apply HfA; rewrite <- E; by apply B2).
    split; [| |done|].
    + intros x Hx. destruct (Z.eq_dec x fe) as [->|Hne].
      * exists []. rewrite Efe. split; [done|]. split; [by apply NoDup_nil|]. split; [done|]. intros c.
        split; [by intros ?%not_elem_of_nil|]. intros [Hc E]. by destruct (HUfe c Hc).
      * rewrite Ex by done. apply B1. revert Hx. rewrite !elem_of_union, elem_of_singleton. tauto.
    + intros c Hc. destruct (B2 c Hc) as [Hh ?]. split; [|done]. revert Hh. rewrite !elem_of_union. change (CB s' c) with (CB s c). tauto.
    + intros c Hc. unfold later. change (CB s' c) with (CB s c). rewrite Ex by (by apply HUfe). by apply B4.
  - destruct A2 as [B1 B2 B3]. split.
    + intros b' Hb'. destruct (B1 b' Hb') as (l & Hl & Hnd & Hm).
      assert (Hlfe : forall x, x ∈ l -> x <> fe) by (intros x [Hx _]%Hm; by apply HxA).
      assert (Hch : chain (fn s') (HashTable s b') l).
      { revert Hl. apply chain_ext. intros x Hx. unfold fn. by rewrite Ex by (by apply Hlfe). }
      change (HashTable s' b') with (if b' =? b then fe else HashTable s b'). destruct (Z.eqb_spec b' b) as [->|Hne].
      * exists (fe :: l). split; [split; [done|]; split; [unfold in_tab in Hin; lia|]; unfold fn at 2; by rewrite Efe|].
        split; [apply NoDup_cons; split; [intros Hx; by destruct (Hlfe fe Hx)|done]|]. intros x.
        rewrite elem_of_cons, Hm, elem_of_union, elem_of_singleton. split.
        -- intros [->|[Hx E]]; [by split; [left|]|]. split; [by right|]. by rewrite (proj1 (Eother x Hx)).
        -- intros [[->|Hx] E]; [by left|right]. split; [done|]. by rewrite (proj1 (Eother x Hx)) in E.
      * exists l. split; [done|]. split; [done|]. intros x. rewrite Hm, elem_of_union, elem_of_singleton. split.
        -- intros [Hx E]. split; [by right|]. by rewrite (proj1 (Eother x Hx)).
        -- intros [[->|Hx] E]; [congruence|]. split; [done|]. by rewrite (proj1 (Eother x Hx)) in E.
    + intros x [->%elem_of_singleton|Hx]%elem_of_union; [done|by apply B2].
    + intros x y [->%elem_of_singleton|Hx]%elem_of_union [->%elem_of_singleton|Hy]%elem_of_union; [done| | |].
      * intros _. destruct (Eother y Hy) as (_ & -> & ->). intros Hl E. destruct (Hno y Hy Hl). rewrite <- E. unfold fe_fid. by rewrite Efe.
      * destruct (Eother x Hx) as (_ & -> & ->). intros Hl _ E. destruct (Hno x Hx Hl). rewrite E. unfold fe_fid. by rewrite Efe.
      * destruct (Eother x Hx) as (_ & -> & ->), (Eother y Hy) as (_ & -> & ->). by apply B3.
  - apply (Ffree_ext s _ (A ∪ ∅ ∪ KF)); try done.
    + intros x. rewrite !elem_of_union, elem_of_difference, elem_of_singleton. intros [[[->|?]|?]|[? _]]; tauto.
    + intros x Hx. rewrite Ex; [done|]. intros ->. apply Hx, elem_of_union. by right.
  - split_and!; [by intros x _ ?%not_elem_of_empty|done|].
    intros x Hx [Hk Hne%not_elem_of_singleton]%elem_of_difference. apply (A8 x); [|done].
    revert Hx. rewrite !elem_of_union, elem_of_singleton. tauto.
  - intros i Hi. apply A9. rewrite !elem_of_union, elem_of_difference in *. tauto.
Qed.

(** ** A new call-back at the end of a file's chain *)

Lemma chain_append nx nx' hd l c :
  chain nx hd l -> NoDup l -> c <> 0 -> nx' c = 0 ->
  (forall x, x ∈ l -> nx' x = match last l with Some p => if x =? p then c else nx x | None => nx x end) ->
  chain nx' (match last l with Some _ => hd | None => c end) (l ++ [c]).
Proof.
  intros Hl Hnd Hc Ec En. revert hd Hl. induction l as [|a l IH]; intros hd Hl; [done|].
  destruct Hl as (-> & Ha & Hl). apply NoDup_cons in Hnd as [Hal Hnd].
  assert (exists p, last (a :: l) = Some p) as [p Hp] by (destruct (last (a :: l)) eqn:E; [eauto|by apply last_None in E]).
  rewrite Hp in *. split; [done|]. split; [done|]. fold (app l [c]).
  assert (Hlast : match l with [] => p = a | _ => last l = Some p end) by (destruct l; [by injection Hp|done]).
  assert (Hpl : l <> [] -> p ∈ l).
  { intros Hne. destruct l as [|b l]; [done|]. apply last_Some in Hlast as [l' ->]. apply elem_of_app. right. left. }
  rewrite (En a) by left. destruct l as [|b l].
  - subst p. rewrite Z.eqb_refl. done.
  - destruct (Z.eqb_spec a p) as [->|]; [by destruct Hal; apply Hpl|]. specialize (IH Hnd). rewrite Hlast in IH. apply IH; [|done].
    intros x Hx. apply En. by right.
Qed.

Record appended (fe c : Z) (l : list Z) (type : Z) (s s1 : cbs) : Prop := {
  ap_frame : frame false false true {[c]} s s1;
  ap_rest : HashTable s1 = HashTable s /\ FEfree s1 = FEfree s /\ CBfree s1 = CBfree s;
  ap_fe : forall x, FE s1 x = if x =? fe then with_ncbs (u32 (ncbs (FE s fe) + 1))
      (match last l with None => with_firstcb c (FE s fe) | Some _ => FE s fe end) else FE s x;
  ap_next : forall x, cn s1 x = if x =? c then 0 else match last l with Some p => if x =? p then c else cn s x | None => cn s x end;
  ap_head : forall x, fhead (CB s1 x) = if x =? c then fe else fhead (CB s x);
  ap_new : cb_status (CB s1 c) = type /\ cb_flags (CB s1 c) = 0
}.

Definition lastof (l : list Z) : Z := match last l with Some p => p | None => 0 end.

Lemma wp_append_links f fe c l type (Q : unit -> world -> Prop) w K :
  in_tab (st w) fe -> in_tab (st w) c -> (forall x, x ∈ l -> in_tab (st w) x /\ x <> c) ->
  (forall s1, appended fe c l type (st w) s1 -> wp f K Q (set_st s1 w)) ->
  wp f ((if lastof l =? 0 then fe_put fe (with_firstcb c) else cb_put (lastof l) (with_cnext c)) ;;
     fe_put fe (fun f => with_ncbs (u32 (ncbs f + 1)) f) ;;
     cb_put c (with_cnext 0) ;; cb_put c (with_fhead fe) ;; cb_put c (with_status type) ;; cb_put c (with_flags 0) ;; K) Q w.
Proof.
  intros Hfe Hc Hl HK. unfold lastof. apply wp_bind. destruct (last l) as [p|] eqn:El.
  - destruct (Hl p) as [Hp Hpc]; [apply last_Some in El as [l' ->]; apply elem_of_app; right; left|].
    rewrite (proj2 (Z.eqb_neq p 0)) by (unfold in_tab in Hp; lia). apply wp_cb_put; [done|].
    apply wp_bind, wp_fe_put; [done|]. do 4 (apply wp_bind, wp_cb_put; [done|]). cbsimp. rewrite !Z.eqb_refl. cbsimp.
    apply HK. split; rewrite ?El; try done; cbsimp.
    + split; try done; cbsimp; intros x; intros; repeat split; intros; upd_case; cbsimp; try done; by rewrite elem_of_singleton in *.
    + intros x. unfold cn. cbsimp. upd_case; done.
    + intros x. upd_case; done.
    + by rewrite Z.eqb_refl.
  - apply wp_fe_put; [done|]. apply wp_bind, wp_fe_put; [done|]. do 4 (apply wp_bind, wp_cb_put; [done|]).
    cbsimp. rewrite !Z.eqb_refl. cbsimp. apply HK. split; rewrite ?El; try done; cbsimp.
    + split; try done; cbsimp; intros x; intros; repeat split; intros; upd_case; cbsimp; try done; by rewrite elem_of_singleton in *.
    + intros x. upd_case; done.
    + intros x. unfold cn. cbsimp. upd_case; done.
    + intros x. upd_case; done.
    + by rewrite Z.eqb_refl.
Qed.

(** The chains of the files with the new call-back, which belongs to host [h]. *)
Lemma append_Fpart s s1 s2 A U fe c l type h :
  Fpart s A U -> nblks s < 2 ^ 31 -> fe ∈ A -> c ∉ U -> in_tab s c ->
  chain (cn s) (firstcb (FE s fe)) l -> NoDup l -> ncbs (FE s fe) = Z.of_nat (length l) ->
  (forall x, x ∈ l <-> x ∈ U /\ fhead (CB s x) = fe) -> later s fe = false ->
  (forall x, x ∈ U -> fhead (CB s x) = fe -> hhead (CB s x) <> h) ->
  appended fe c l type s s1 -> frame true true false {[c]} s1 s2 -> hhead (CB s2 c) = h ->
  Fpart s2 A (U ∪ {[c]}).
Proof.
  intros HF Hn Hfe HcU Hcin Hl Hnd Hlen Hm Hlat Hnh HA F2 Hhc. pose proof HF as [B1 B2 B3 B4].
  destruct HA as [F1 _ Ef En Eh _]. destruct (fr_c _ _ _ _ _ _ F2 eq_refl) as (G1 & _ & _ & G2).
  assert (Ecn : forall x, cn s2 x = cn s1 x) by (intros x; apply G2).
  assert (Efh : forall x, fhead (CB s2 x) = if x =? c then fe else fhead (CB s x)) by (intros x; destruct (G2 x) as [_ ->]; apply Eh).
  assert (Hxc : forall x, x ∈ U -> x <> c) by (by intros x Hx ->).
  assert (Einf : forall x, x ∈ U -> cb_status (CB s2 x) = cb_status (CB s x) /\ hhead (CB s2 x) = hhead (CB s x)).
  { intros x Hx%Hxc. assert (x ∉ ({[c]} : gset Z)) by by rewrite elem_of_singleton.
    destruct (fr_info _ _ _ _ _ _ F1 x) as (I1 & _ & _ & I2), (fr_info _ _ _ _ _ _ F2 x) as (I3 & _ & _ & I4); try done. by rewrite I3, I4, I1, I2. }
  assert (Elat : forall x, later s2 x = later s x).
  { intros x. unfold later, is_later. rewrite G1, Ef. destruct (Z.eqb_spec x fe) as [->|]; [|done]. by destruct (last l). }
  assert (Efu : forall x, x ∈ U -> fhead (CB s2 x) = fhead (CB s x)) by (intros x Hx%Hxc; rewrite Efh; by destruct (Z.eqb_spec x c)).
  assert (Efc : fhead (CB s2 c) = fe) by by rewrite Efh, Z.eqb_refl.
  split.
  - intros x Hx. rewrite G1, Ef. destruct (Z.eqb_spec x fe) as [->|Hne].
    + exists (l ++ [c]). split; [|split; [|split]].
      * replace (firstcb _) with (match last l with Some _ => firstcb (FE s fe) | None => c end) by by destruct (last l).
        apply (chain_append (cn s)); [done|done|unfold in_tab in Hcin; lia|by rewrite Ecn, En, Z.eqb_refl|].
        intros y [Hy _]%Hm. rewrite Ecn, En. by destruct (Z.eqb_spec y c) as [->|].
      * apply NoDup_app. split; [done|]. split; [|apply NoDup_singleton]. intros y [Hy _]%Hm ->%list_elem_of_singleton. done.
      * cbsimp. rewrite Hlen, length_app. cbn [length].
        assert (length l <= Z.to_nat (nblks s))%nat by (apply in_tab_nodup; [done|]; intros y [Hy _]%Hm; by apply B2).
        rewrite u32_small by mlia. lia.
      * intros y. rewrite elem_of_app, list_elem_of_singleton, Hm, elem_of_union, elem_of_singleton. split.
        -- intros [[Hy E]| ->]; [|by split; [right|]]. split; [by left|]. by rewrite Efu.
        -- intros [[Hy| ->] E]; [left|by right]. by rewrite Efu in E.
    + destruct (B1 x Hx) as (l' & Hl' & Hnd' & Hlen' & Hm'). exists l'. split; [|split; [done|split; [done|]]].
      * revert Hl'. apply chain_ext. intros y Hy. pose proof Hy as [HyU Hyx]%Hm'. rewrite Ecn, En.
        destruct (Z.eqb_spec y c) as [->|]; [done|]. destruct (last l) as [p|] eqn:El; [|done].
        destruct (Z.eqb_spec y p) as [->|]; [|done]. exfalso. apply Hne.
        assert (p ∈ l) as [_ ?]%Hm by (apply last_Some in El as [l0 ->]; apply elem_of_app; right; left). congruence.
      * intros y. rewrite Hm', elem_of_union, elem_of_singleton. split.
        -- intros [Hy E]. split; [by left|]. by rewrite Efu.
        -- intros [[Hy| ->] E]; [by rewrite Efu in E|congruence].
  - intros x [Hx| ->%elem_of_singleton]%elem_of_union; unfold in_tab; rewrite (fr_n _ _ _ _ _ _ F2), (fr_n _ _ _ _ _ _ F1);
      [rewrite Efu by done; by apply B2|by rewrite Efc].
  - intros x y [Hx| ->%elem_of_singleton]%elem_of_union [Hy| ->%elem_of_singleton]%elem_of_union; rewrite ?Efc, ?Hhc; [| | |done].
    + rewrite !Efu by done. destruct (Einf x Hx) as [_ ->], (Einf y Hy) as [_ ->]. by apply B3.
    + rewrite Efu by done. destruct (Einf x Hx) as [_ ->]. intros E1 E2. by destruct (Hnh x Hx).
    + rewrite Efu by done. destruct (Einf y Hy) as [_ ->]. intros E1 E2. by destruct (Hnh y Hy).
  - intros x [Hx| ->%elem_of_singleton]%elem_of_union; rewrite Elat; [|rewrite Efc; congruence].
    rewrite Efu by done. destruct (Einf x Hx) as [-> _]. by apply B4.
Qed.

Lemma append_Cpart KC KF A U fe c l type h s s1 s2 :
  Cpart KC KF A ∅ U s -> c ∈ KC -> fe ∈ A ->
  chain (cn s) (firstcb (FE s fe)) l -> NoDup l -> ncbs (FE s fe) = Z.of_nat (length l) ->
  (forall x, x ∈ l <-> x ∈ U /\ fhead (CB s x) = fe) -> later s fe = false ->
  (forall x, x ∈ U -> fhead (CB s x) = fe -> hhead (CB s x) <> h) ->
  appended fe c l type s s1 -> frame true true false {[c]} s1 s2 -> hhead (CB s2 c) = h ->
  Cpart (KC ∖ {[c]}) KF A ∅ (U ∪ {[c]}) s2.
Proof.
  intros [A1 A2 A3 A4 A5 (A6 & A7 & A8) A9] Hc Hfe Hl Hnd Hlen Hm Hlat Hnh HA F2 Hhc.
  assert (HcU : c ∉ U) by (intros HcU; by apply (A7 c)).
  assert (Hcin : in_tab s c) by (apply A9; rewrite !elem_of_union; tauto).
  pose proof HA as [F1 (R1 & R2 & R3) Ef En Eh _]. destruct (fr_c _ _ _ _ _ _ F2 eq_refl) as (G1 & G2 & [G3 G4] & G5).
  pose proof (cb_frame_trans _ _ _ _ _ _ _ _ _ _ _ F1 F2) as F. cbn [orb] in F.
  assert (Ename : forall x, vnode (FE s2 x) = vnode (FE s x) /\ unique (FE s2 x) = unique (FE s x) /\ volid (FE s2 x) = volid (FE s x)
    /\ fnext (FE s2 x) = fnext (FE s x) /\ fe_status (FE s2 x) = fe_status (FE s x)).
  { intros x. rewrite G1, Ef. destruct (Z.eqb_spec x fe) as [->|]; [|done]. by destruct (last l). }
  split.
  - apply (append_Fpart s s1 s2 (A ∪ ∅) U fe c l type h); try done; [apply A5|apply elem_of_union; by left].
  - apply (Hpart_ext s); [apply F| |intros x _; apply Ename|done]. intros b. by rewrite G2, R1.
  - apply (Cfree_ext s _ (U ∪ KC)); [apply F|apply F|by rewrite G4, R3| | |done].
    + intros x. rewrite !elem_of_union, elem_of_difference, elem_of_singleton. intros [[?| ->]|[? _]]; tauto.
    + intros x [HxU HxK]%not_elem_of_union. destruct (G5 x) as [Ex1 Ex2]. rewrite Ex1, Ex2, Eh. fold (cn s1 x) (cn s x). rewrite En.
      destruct (Z.eqb_spec x c) as [->|]; [done|]. split; [|done]. destruct (last l) as [p|] eqn:El; [|done].
      destruct (Z.eqb_spec x p) as [->|]; [|done]. destruct HxU.
      apply last_Some in El as [l0 E0]. apply (Hm p). rewrite E0. apply elem_of_app. right. left.
  - apply (Ffree_ext s _ (A ∪ ∅ ∪ KF)); [apply F|apply F|by rewrite G3, R2|done| |done]. intros x _. destruct (Ename x) as (? & ? & _). done.
  - by apply (addresses_frame _ _ _ _ _ _ F).
  - split_and!; [done| |done]. intros x [Hx| ->%elem_of_singleton]%elem_of_union [Hk Hne%not_elem_of_singleton]%elem_of_difference; [|done].
    by apply (A7 x).
  - intros i Hi. unfold in_tab. rewrite (fr_n _ _ _ _ _ _ F). apply A9. rewrite !elem_of_union, elem_of_difference in *. tauto.
Qed.

Lemma wp_append f KC KF A U fe c l type h q (Q : unit -> world -> Prop) w :
  ok KC KF A U (st w) -> c ∈ KC -> fe ∈ A -> is_Some (hosts (st w) !! h) -> 1 <= q <= 128 ->
  chain (cn (st w)) (firstcb (FE (st w) fe)) l -> NoDup l -> ncbs (FE (st w) fe) = Z.of_nat (length l) ->
  (forall x, x ∈ l <-> x ∈ U /\ fhead (CB (st w) x) = fe) -> later (st w) fe = false ->
  (forall x, x ∈ U -> fhead (CB (st w) x) = fe -> hhead (CB (st w) x) <> h) ->
  (forall s', ok (KC ∖ {[c]}) KF A (U ∪ {[c]}) s' -> (forall x, x ∈ U -> promise_of s' x = promise_of (st w) x) ->
     promise_of s' c = mkPromise h (fe_fid (st w) fe) false q type 0 -> frame true true true {[c]} (st w) s' ->
     (forall x, same_name (st w) s' x) -> Q tt (set_st s' w)) ->
  wp f ((if lastof l =? 0 then fe_put fe (with_firstcb c) else cb_put (lastof l) (with_cnext c)) ;;
     fe_put fe (fun f => with_ncbs (u32 (ncbs f + 1)) f) ;;
     cb_put c (with_cnext 0) ;; cb_put c (with_fhead fe) ;; cb_put c (with_status type) ;; cb_put c (with_flags 0) ;;
     HAdd c h ;; TAdd c q) Q w.
Proof.
  intros Hok Hc Hfe Hh Hq Hl Hnd Hlen Hm Hlat Hnh HQ. pose proof Hok as [O1 O2 O3 O4]. set (s := st w) in *.
  assert (HcU : c ∉ U) by (intros HcU; destruct (cp_apart _ _ _ _ _ _ O1) as (_ & Ha & _); by apply (Ha c)).
  assert (Hcin : in_tab s c) by (apply (cp_tab _ _ _ _ _ _ O1); rewrite !elem_of_union; tauto).
  assert (Hdis : U ## {[c]}) by (by intros x Hx ->%elem_of_singleton).
  apply wp_append_links; [by apply (ok_fe_tab _ _ _ _ _ _ Hok)|done| |].
  { intros x [Hx _]%Hm. split; [by apply (ok_tab _ _ _ _ _ _ Hok)|by intros ->]. }
  intros s1 HA. pose proof HA as [F1 (R1 & R2 & R3) Ef En Eh [Es Efl]]. fold s in F1.
  apply wp_bind, (wp_HAdd _ _ _ all U); cbsimp; try done.
  { by apply (Lpart_frame _ _ _ _ _ _ _ F1). } { by apply (homes_frame _ _ _ _ _ _ _ F1). }
  { unfold in_tab. by rewrite (fr_n _ _ _ _ _ _ F1). } { by apply (frame_host _ _ _ _ _ _ _ F1). }
  intros s2 HL2 F2 Hh2 Ht2 Hs2 Hf2. pose proof (cb_frame_trans _ _ _ _ _ _ _ _ _ _ _ F1 F2) as F12. cbn [orb] in F12. rewrite union_idemp_L in F12.
  assert (Hcin2 : in_tab s2 c) by (unfold in_tab; by rewrite (fr_n _ _ _ _ _ _ F12)).
  apply (wp_TAdd _ _ _ all U); cbsimp; try done.
  { apply (Tpart_frame _ _ _ _ _ _ _ F2); [done|]. by apply (Tpart_frame _ _ _ _ _ _ _ F1). }
  { by apply (homes_frame _ _ _ _ _ _ _ F12). }
  intros s3 HT3 F3 Ht3 Hh3 Hs3 Hf3. pose proof (cb_frame_trans _ _ _ _ _ _ _ _ _ _ _ F2 F3) as F23. cbn [orb] in F23. rewrite union_idemp_L in F23.
  pose proof (cb_frame_trans _ _ _ _ _ _ _ _ _ _ _ F1 F23) as F. cbn [orb] in F. rewrite union_idemp_L in F.
  destruct (fr_c _ _ _ _ _ _ F23 eq_refl) as (G1 & _ & _ & G2).
  assert (Hname : forall x, same_name s s3 x).
  { intros x. unfold same_name. rewrite G1, Ef. fold s. destruct (Z.eqb_spec x fe) as [->|]; [|done]. by destruct (last l). }
  assert (Hnew : fhead (CB s3 c) = fe) by (destruct (G2 c) as [_ ->]; by rewrite Eh, Z.eqb_refl).
  apply (HQ s3); try done.
  - split.
    + apply (append_Cpart KC KF A U fe c l type h s s1 s3); try done. congruence.
    + done.
    + apply (Lpart_ext s2); [| | | |done].
      * intros h' v' Hv'. destruct (fr_l _ _ _ _ _ _ F3 eq_refl) as [E _]. specialize (E h'). rewrite Hv' in E.
        destruct (hosts s2 !! h') as [v|]; [|done]. exists v. split; [done|]. by injection E.
      * intros x. destruct (fr_l _ _ _ _ _ _ F3 eq_refl) as [_ E]. apply E.
      * intros x. destruct (fr_l _ _ _ _ _ _ F3 eq_refl) as [_ E]. apply E.
      * intros x [Hx| ->%elem_of_singleton]%elem_of_union; [|done].
        apply (fr_info _ _ _ _ _ _ F3). intros ->%elem_of_singleton. done.
    + intros x [Hx| ->%elem_of_singleton]%elem_of_union; [apply (homes_frame _ _ _ _ _ _ _ F Hdis O4 x Hx)|].
      split; [unfold in_tab; by rewrite (fr_n _ _ _ _ _ _ F)|]. rewrite Ht3, Hh3, Hh2. split; [done|]. by apply (frame_host _ _ _ _ _ _ _ F).
  - intros x Hx. assert (Hxc : x <> c) by by intros ->. destruct (fr_info _ _ _ _ _ _ F x) as (? & ? & ? & ?); [by rewrite elem_of_singleton|].
    apply promise_same; try done. destruct (G2 x) as [_ ->]. rewrite Eh. by destruct (Z.eqb_spec x c).
  - unfold promise_of. rewrite Hnew, Ht3, Hh3, Hh2, Hs3, Hs2, Hf3, Hf2, Es, Efl.
    destruct (Hname fe) as (E1 & E2 & E3 & E4). unfold fe_fid, later, is_later in Hlat |- *. rewrite E1, E2, E3, E4. by rewrite Hlat.
Qed.

(** ** A call-back that exists *)

Lemma wp_add_search f n h lastcb cb l (Q : Z * Z -> world -> Prop) w :
  chain (cn (st w)) cb l -> (forall x, x ∈ l -> in_tab (st w) x) -> (length l <= n)%nat ->
  (forall c x, c ∈ l -> hhead (CB (st w) c) = h -> Q (c, x) w) ->
  ((forall c, c ∈ l -> hhead (CB (st w) c) <> h) -> Q (0, match last l with Some p => p | None => lastcb end) w) ->
  wp f (add_search n h lastcb cb) Q w.
Proof.
  revert n lastcb cb. induction l as [|c l IH]; intros n lastcb cb Hl Htab Hn HQ H0; cbn [chain] in Hl.
  { subst cb. destruct n; apply wp_ret, H0; intros c Hc; by apply not_elem_of_nil in Hc. }
  destruct Hl as (-> & Hc0 & Hl). destruct n as [|n]; [cbn in Hn; lia|]. cbn [add_search].
  rewrite (proj2 (Z.eqb_neq c 0) Hc0). apply wp_bind, wp_cb_at; [apply Htab; left|].
  destruct (Z.eqb_spec (hhead (CB (st w) c)) h) as [E|E]; [apply wp_ret, HQ; [left|done]|].
  apply IH; [done|intros x Hx; apply Htab; by right|cbn in Hn; lia|intros x y Hx; apply HQ; by right|].
  intros Hno. replace (match last l with Some p => p | None => c end) with (match last (c :: l) with Some p => p | None => lastcb end).
  - apply H0. intros x [->|Hx]%elem_of_cons; [done|by apply Hno].
  - destruct l as [|a l]; [done|]. rewrite last_cons_cons. destruct (last (a :: l)) eqn:El; [done|]. by apply last_None in El.
Qed.

Lemma wp_requeue f KC KF A U c q (Q : unit -> world -> Prop) w :
  ok KC KF A U (st w) -> c ∈ U -> 1 <= q <= 128 ->
  (forall s', ok KC KF A U s' -> frame true true true {[c]} (st w) s' -> (forall x, same_name (st w) s' x) ->
     (forall x, x <> c -> promise_of s' x = promise_of (st w) x) ->
     promise_of s' c = (let p := promise_of (st w) c in mkPromise (p_host p) (p_fid p) (p_later p) q (p_status p) (p_flags p)) ->
     Q tt (set_st s' w)) ->
  wp f (TDel c ;; TAdd c q) Q w.
Proof.
  intros Hok Hc Hq HQ. pose proof Hok as [O1 O2 O3 O4]. apply ok_parts in Hok.
  apply wp_bind, (parts_TDel _ KC KF A ∅ U U U U all all); [done|done|done|]. intros s1 [P1 P2 P3 P4 _] F1.
  assert (Hcin : in_tab s1 c) by (by destruct (P4 c Hc)).
  apply (wp_TAdd _ _ _ all (U ∖ {[c]})); cbsimp; try done.
  { apply (homes_sub _ U); [by intros x [? _]%elem_of_difference|done]. }
  { by intros [_ []%not_elem_of_singleton]%elem_of_difference. }
  intros s2 HT2 F2 Ht Hh Hs Hf. pose proof (cb_frame_trans _ _ _ _ _ _ _ _ _ _ _ F1 F2) as F. cbn [orb] in F. rewrite union_empty_l_L in F.
  replace (U ∖ {[c]} ∪ {[c]}) with U in HT2.
  2:{ apply set_eq. intros x. rewrite elem_of_union, elem_of_difference, elem_of_singleton. destruct (decide (x = c)) as [->|]; tauto. }
  destruct (fr_c _ _ _ _ _ _ F eq_refl) as (G1 & G2 & [G3 G4] & G5). destruct (fr_l _ _ _ _ _ _ F eq_refl) as [L1 L2].
  assert (Ei : forall x, cb_status (CB s2 x) = cb_status (CB (st w) x) /\ cb_flags (CB s2 x) = cb_flags (CB (st w) x)
    /\ hhead (CB s2 x) = hhead (CB (st w) x)).
  { intros x. destruct (fr_info _ _ _ _ _ _ F1 x (not_elem_of_empty x)) as (I1 & I2 & _ & I3).
    destruct (Z.eq_dec x c) as [->|Hne]; [split_and!; congruence|].
    destruct (fr_info _ _ _ _ _ _ F2 x) as (I4 & I5 & _ & I6); [by rewrite elem_of_singleton|]. split_and!; congruence. }
  assert (Hn : forall x, same_name (st w) s2 x) by (intros x; unfold same_name; by rewrite G1).
  apply (HQ s2); try done.
  - destruct O1 as [A1 A2 A3 A4 A5 A6 A7]. split; [split| | |]; try done.
    + apply (Fpart_ext (st w)); [apply F|intros x _; by rewrite G1| |done]. intros x _. destruct (G5 x), (Ei x) as (? & _ & ?). done.
    + apply (Hpart_ext (st w)); [apply F|done|intros x _; by rewrite G1|done].
    + apply (Cfree_ext (st w) _ (U ∪ KC)); try done; apply F.
    + apply (Ffree_ext (st w) _ (A ∪ ∅ ∪ KF)); try done; try apply F. intros x _. by rewrite G1.
    + by apply (addresses_frame _ _ _ _ _ _ F).
    + intros i Hi. unfold in_tab. rewrite (fr_n _ _ _ _ _ _ F). by apply A7.
    + apply (Lpart_ext (st w)); [|intros x; apply L2|intros x; apply L2|intros x _; apply Ei|done].
      intros h v' Hv'. specialize (L1 h). rewrite Hv' in L1. destruct (hosts (st w) !! h) as [v|]; [|done]. exists v. split; [done|]. by injection L1.
    + intros x Hx. destruct (O4 x Hx) as (T1 & T2 & T3). destruct (Ei x) as (_ & _ & ->).
      split; [unfold in_tab; by rewrite (fr_n _ _ _ _ _ _ F)|]. split; [|by apply (frame_host _ _ _ _ _ _ _ F)].
      destruct (Z.eq_dec x c) as [->|Hne]; [by rewrite Ht|]. by destruct (fr_info _ _ _ _ _ _ F x) as (_ & _ & -> & _); [rewrite elem_of_singleton|].
  - by apply frame_weaken in F.
  - intros x Hne. destruct (fr_info _ _ _ _ _ _ F x) as (? & ? & ? & ?); [by rewrite elem_of_singleton|]. apply promise_same; try done. apply G5.
  - unfold promise_of. destruct (G5 c) as [_ ->]. rewrite Ht. destruct (Ei c) as (-> & -> & ->). cbn [p_host p_fid p_later p_status p_flags].
    unfold fe_fid, later, is_later. by rewrite G1.
Qed.

(** ** Either of them *)

(** The promise of [c] to host [h] for the file [fid] is new, or an old one extended. *)
Record extended (h : Z) (fid : AFSFid) (q type : Z) (U : gset Z) (s : cbs) (U' : gset Z) (c : Z) (s' : cbs) : Prop := {
  ex_set : U' = U ∪ {[c]};
  ex_new : c ∉ U -> promise_of s' c = mkPromise h fid false q type 0
    /\ forall x, x ∈ U -> p_fid (promise_of s x) = fid -> p_later (promise_of s x) = false -> p_host (promise_of s x) <> h;
  ex_old : c ∈ U -> let p := promise_of s c in p_host p = h /\ p_fid p = fid /\ p_later p = false
    /\ promise_of s' c = mkPromise h fid false
         (if TNorm (tfirst s) (p_queue p) <? TNorm (tfirst s) q then q else p_queue p)
         (if p_status p =? CB_DELAYED then CB_DELAYED else type) (p_flags p);
  ex_other : forall x, x ∈ U -> x <> c -> promise_of s' x = promise_of s x;
  ex_frame : frame true true true {[c]} s s'
}.

(** A step that changes at most the promise of [c]. *)
Record changes (KC KF A U : gset Z) (c : Z) (p : promise) (s s' : cbs) : Prop := {
  ch_ok : ok KC KF A U s';
  ch_frame : frame true true true {[c]} s s';
  ch_name : forall x, same_name s s' x;
  ch_other : forall x, x <> c -> promise_of s' x = promise_of s x;
  ch_this : promise_of s' c = p
}.

Lemma changes_none KC KF A U c s : ok KC KF A U s -> changes KC KF A U c (promise_of s c) s s.
Proof. by split. Qed.

Lemma changes_trans KC KF A U c p1 p2 s s1 s2 :
  changes KC KF A U c p1 s s1 -> changes KC KF A U c p2 s1 s2 -> changes KC KF A U c p2 s s2.
Proof.
  intros [A1 A2 A3 A4 A5] [B1 B2 B3 B4 B5]. split; try done.
  - pose proof (cb_frame_trans _ _ _ _ _ _ _ _ _ _ _ A2 B2) as F. by rewrite union_idemp_L in F.
  - intros x. by apply (same_name_trans _ s1).
  - intros x Hx. by rewrite B4, A4.
Qed.

Lemma changes_info KC KF A U s c v fl :
  ok KC KF A U s -> (c ∈ U -> later s (fhead (CB s c)) = true -> v = CB_DELAYED) ->
  changes KC KF A U c (let p := promise_of s c in mkPromise (p_host p) (p_fid p) (p_later p) (p_queue p) v fl) s
    (set_CB c (with_flags fl (with_status v (CB s c))) s).
Proof.
  intros Hok Hl. split.
  - by apply ok_cb_info.
  - split; try done. intros x Hx%not_elem_of_singleton. cbsimp. by destruct (Z.eqb_spec x c).
  - done.
  - intros x Hx. unfold promise_of. cbsimp. by destruct (Z.eqb_spec x c).
  - unfold promise_of. cbsimp. by rewrite Z.eqb_refl.
Qed.

(** The branch of [AddCallBack1_r] for a call-back that exists. *)
Lemma wp_extend {B} f KC KF A U cb q type (Q : B -> world -> Prop) w (K : M B) :
  ok KC KF A U (st w) -> cb ∈ U -> later (st w) (fhead (CB (st w) cb)) = false -> 1 <= q <= 128 ->
  (forall s', changes KC KF A U cb (let p := promise_of (st w) cb in
       mkPromise (p_host p) (p_fid p) (p_later p) (if TNorm (tfirst (st w)) (p_queue p) <? TNorm (tfirst (st w)) q then q else p_queue p)
         (if p_status p =? CB_DELAYED then CB_DELAYED else type) (p_flags p)) (st w) s' -> wp f K Q (set_st s' w)) ->
  wp f (do c <- cb_at cb;
        when (negb (cb_status c =? CB_DELAYED)) (cb_put cb (with_status type)) ;;
        do tf <- get tfirst;
        when (TNorm tf (thead c) <? TNorm tf q) (TDel cb ;; TAdd cb q) ;; K) Q w.
Proof.
  intros Hok Hcb Hlat Hq HQ. apply wp_bind, wp_cb_at; [by apply (ok_tab _ _ _ _ _ _ Hok)|]. set (s := st w) in *. set (p := promise_of s cb) in *.
  apply wp_bind. eapply (wp_mono _ _ (fun _ w' => exists s1, w' = set_st s1 w /\ tfirst s1 = tfirst s
    /\ changes KC KF A U cb (mkPromise (p_host p) (p_fid p) (p_later p) (p_queue p) (if p_status p =? CB_DELAYED then CB_DELAYED else type) (p_flags p)) s s1)).
  { change (p_status p) with (cb_status (CB s cb)). apply wp_when; intros E; [apply negb_true_iff in E|apply negb_false_iff in E]; rewrite E.
    - apply wp_cb_put; [by apply (ok_tab _ _ _ _ _ _ Hok)|]. eexists. split; [done|]. split; [done|]. fold s.
      replace (with_status type (CB s cb)) with (with_flags (cb_flags (CB s cb)) (with_status type (CB s cb))) by by destruct (CB s cb).
      apply (changes_info _ _ _ _ s cb type); [done|congruence].
    - exists s. split; [by destruct w|]. split; [done|]. replace (mkPromise _ _ _ _ _ _) with p; [by apply changes_none|].
      unfold p, promise_of. cbn [p_host p_fid p_later p_queue p_flags]. f_equal. lia. }
  intros _ w1 (s1 & -> & Ht & Hch). apply wp_bind, wp_get, wp_bind. cbsimp. rewrite Ht. change (thead (CB s cb)) with (p_queue p).
  apply wp_when; intros E; rewrite E in HQ; [|by apply HQ].
  apply (wp_requeue _ KC KF A U); cbsimp; [by apply Hch|done|done|].
  intros s2 Hok2 F2 N2 O2 P2. apply (HQ s2). apply (changes_trans _ _ _ _ _ _ _ _ s1 _ Hch). split; try done.
  rewrite P2, (ch_this _ _ _ _ _ _ _ _ Hch). done.
Qed.

Lemma wp_add_or_extend {B} f KC KF A U fe h q type newcb (made : bool) (Q : B -> world -> Prop) w (K : M B) :
  ok KC KF A U (st w) -> fe ∈ A -> later (st w) fe = false -> newcb ∈ KC -> is_Some (hosts (st w) !! h) -> 1 <= q <= 128 ->
  (made = true -> forall c, c ∈ U -> fhead (CB (st w) c) <> fe) ->
  (forall c U' s', ok (KC ∖ {[newcb]}) KF A U' s' -> extended h (fe_fid (st w) fe) q type U (st w) U' c s' ->
     (forall x, x ∈ A -> same_name (st w) s' x) -> wp f K Q (set_st s' w)) ->
  wp f (do f <- fe_at fe;
  do n <- get (fun s => Z.to_nat (nblks s + 1));
  do r <- add_search n h 0 (firstcb f);
  let '(cb, lastcb) := r in
  (if negb (cb =? 0) then
     do c <- cb_at cb;
     when (negb (cb_status c =? CB_DELAYED)) (cb_put cb (with_status type)) ;;
     do tf <- get tfirst;
     when (TNorm tf (thead c) <? TNorm tf q) (TDel cb ;; TAdd cb q) ;;
     when made (fe_put fe (with_firstcb cb) ;; fe_put fe (fun f => with_ncbs (u32 (ncbs f + 1)) f) ;;
                cb_put cb (with_fhead fe)) ;;
     iFreeCB newcb
   else
     (if lastcb =? 0 then fe_put fe (with_firstcb newcb) else cb_put lastcb (with_cnext newcb)) ;;
     fe_put fe (fun f => with_ncbs (u32 (ncbs f + 1)) f) ;;
     cb_put newcb (with_cnext 0) ;;
     cb_put newcb (with_fhead fe) ;;
     cb_put newcb (with_status type) ;;
     cb_put newcb (with_flags 0) ;;
     HAdd newcb h ;;
     TAdd newcb q) ;; K) Q w.
Proof.
  intros Hok Hfe Hlat Hnew Hh Hq Hmade HQ. pose proof Hok as [O1 O2 O3 O4]. set (s := st w) in *.
  destruct (fp_file _ _ _ (cp_file _ _ _ _ _ _ O1) fe) as (l & Hl & Hnd & Hlen & Hm); [apply elem_of_union; by left|].
  assert (Htab : forall x, x ∈ l -> in_tab s x) by (intros x [Hx _]%Hm; by apply O4).
  apply wp_bind, wp_fe_at; [by apply (ok_fe_tab _ _ _ _ _ _ Hok)|]. apply wp_bind, wp_get. fold s.
  apply wp_bind, (wp_add_search _ _ _ _ _ l); [done|done|pose proof (in_tab_nodup s l Hnd Htab); fold s; lia| |].
  - intros c x Hc Hch. pose proof Hc as [HcU Hcf]%Hm. pose proof (Htab c Hc) as [Hc1 _].
    rewrite (proj2 (Z.eqb_neq c 0)) by lia. cbn [negb]. apply wp_bind, (wp_extend _ KC KF A U); [done|done|by fold s; rewrite Hcf|done|].
    intros s1 Hchg. cbsimp. apply wp_bind. destruct made; [by destruct (Hmade eq_refl c HcU)|]. apply wp_ret.
    pose proof Hchg as [Hok1 F1 N1 Ot1 P1]. fold s in F1, N1, Ot1, P1.
    assert (Hnin : in_tab s1 newcb) by (apply (cp_tab _ _ _ _ _ _ (ok_c _ _ _ _ _ Hok1)); rewrite !elem_of_union; tauto).
    apply wp_iFreeCB; [done|]. cbsimp. destruct (ok_free_cb _ _ _ _ _ _ Hok1 Hnew) as [Hok2 L2].
    assert (HnU : newcb ∉ U) by (intros HnU; destruct (cp_apart _ _ _ _ _ _ O1) as (_ & Ha & _); by apply (Ha newcb)).
    assert (Hp2 : forall x, x ∈ U -> promise_of (freed_cb newcb s1) x = promise_of s1 x).
    { intros y Hy. unfold promise_of, freed_cb, fe_fid, later. cbsimp. destruct (Z.eqb_spec y newcb) as [->|]; done. }
    apply (HQ c U); [done| |].
    + split.
      * apply set_eq. intros y. rewrite elem_of_union, elem_of_singleton. split; [tauto|]. by intros [?| ->].
      * done.
      * intros _. rewrite Hp2, P1 by done. cbn zeta.
        assert (E : p_host (promise_of s c) = h /\ p_fid (promise_of s c) = fe_fid s fe /\ p_later (promise_of s c) = false)
          by (unfold promise_of; cbn [p_host p_fid p_later]; by rewrite Hcf).
        destruct E as (E1 & E2 & E3). rewrite E1, E2, E3. split_and!; reflexivity.
      * intros y Hy Hne. rewrite Hp2 by done. by apply Ot1.
      * pose proof (cb_frame_trans _ _ _ _ _ _ _ _ _ _ _ F1 (le_frame _ _ _ _ _ _ L2)) as F. by rewrite union_empty_r_L in F.
    + intros y Hy. apply (same_name_trans _ s1); [done|]. apply (le_name _ _ _ _ _ _ L2), elem_of_union. by left.
  - intros Hno. apply wp_bind. change (match last l with Some p => p | None => 0 end) with (lastof l). cbn [Z.eqb negb].
    apply (wp_append _ KC KF A U fe newcb l); try done.
    + intros x Hx E. by apply Hno, Hm.
    + intros s' Hok' Hp' Hpn F' N'. apply (HQ newcb (U ∪ {[newcb]})); [done| |done]. split; try done.
      * intros _. split; [done|]. intros x Hx E1 E2. cbn in E1, E2 |- *. apply Hno, Hm. split; [done|].
        apply (hp_unique _ _ (cp_hash _ _ _ _ _ _ O1)); [by apply (ok_file _ _ _ _ _ _ Hok)|done|done|done|done].
      * intros HnU. destruct (cp_apart _ _ _ _ _ _ O1) as (_ & Ha & _). by destruct (Ha newcb).
      * intros x Hx _. by apply Hp'.
Qed.

#[global] Instance AFSFid_eq_dec : EqDecision AFSFid.
Proof. unfold AFSFid. apply _. Defined.

(** The call-backs of a file. *)
Definition cbs_for (s : cbs) (fid : AFSFid) (U : gset Z) : gset Z :=
  filter (fun c => p_fid (promise_of s c) = fid /\ p_later (promise_of s c) = false) U.

Lemma cbs_for_found KC KF A U s fe :
  ok KC KF A U s -> fe ∈ A -> later s fe = false -> ncbs (FE s fe) = Z.of_nat (size (cbs_for s (fe_fid s fe) U)).
Proof.
  intros Hok Hfe Hlat. pose proof (ok_c _ _ _ _ _ Hok) as O1.
  destruct (fp_file _ _ _ (cp_file _ _ _ _ _ _ O1) fe) as (l & _ & Hnd & -> & Hm); [apply elem_of_union; by left|].
  rewrite <- (size_list_to_set (C := gset Z) l) by done. do 2 f_equal. apply set_eq. intros c. unfold cbs_for.
  rewrite elem_of_list_to_set, elem_of_filter, Hm. cbn. split.
  - by intros [Hc ->].
  - intros [[E1 E2] Hc]. split; [done|]. apply (hp_unique _ _ (cp_hash _ _ _ _ _ _ O1)); [by apply (ok_file _ _ _ _ _ _ Hok)|done|done|done|done].
Qed.

Lemma cbs_for_none KC KF A U s fid :
  ok KC KF A U s -> (forall fe, fe ∈ A -> later s fe = false -> fe_fid s fe <> fid) -> cbs_for s fid U = ∅.
Proof.
  intros Hok Hno. apply set_eq. intros c. unfold cbs_for. rewrite elem_of_filter. cbn.
  split; [|by intros ?%not_elem_of_empty]. intros [[E1 E2] Hc]. destruct (Hno _ (ok_file _ _ _ _ _ _ Hok Hc) E2 E1).
Qed.

Lemma wp_add_callback f KC KF A U h fid q type newcb newfe (Q : Z -> world -> Prop) w :
  ok KC KF A U (st w) -> newcb ∈ KC -> newfe ∈ KF -> is_Some (hosts (st w) !! h) ->
  (timed_type type = false -> 1 <= q <= 128) ->
  let expiry := callback_expiry type (clock (st w)) (Z.of_nat (size (cbs_for (st w) fid U))) in
  (forall A' c U' s', ok (KC ∖ {[newcb]}) (KF ∖ {[newfe]}) A' U' s' ->
     extended h fid (if timed_type type then TIndex (CBtime expiry) else q) type U (st w) U' c s' ->
     Q (if timed_type type then s32 (expiry - ServerBias) else 0) (set_st s' w)) ->
  wp f (add_callback h fid q type newcb newfe) Q w.
Proof.
  intros Hok Hnc Hnf Hh Hq ex HQ. unfold add_callback. pose proof (ok_c _ _ _ _ _ Hok) as O1. set (s := st w) in *.
  assert (Hq' : 1 <= (if timed_type type then TIndex (CBtime ex) else q) <= 128)
    by (destruct (timed_type type); [apply TIndex_range|auto]).
  apply wp_bind, (wp_FindFE _ _ A); [by apply O1| |].
  - intros Hno. apply wp_bind, wp_ret, wp_bind, wp_get. change (0 =? 0) with true. cbn iota.
    assert (E0 : size (cbs_for s fid U) = 0%nat) by (by rewrite (cbs_for_none KC KF A), size_empty).
    apply wp_bind, (wp_new_file _ KC KF A U); [done|done|done|]. fold s. intros s1 Hok1 Ec Ex Efid Elat Efc F1.
    replace (callback_expiry type (clock s) 0) with ex by (unfold ex; by rewrite E0).
    apply (wp_add_or_extend _ KC (KF ∖ {[newfe]}) ({[newfe]} ∪ A) U newfe h); cbsimp; try done.
    + apply elem_of_union. left. by apply elem_of_singleton.
    + by apply (frame_host _ _ _ _ _ _ _ F1).
    + intros _ c Hc E. pose proof (ok_file _ _ _ _ _ _ Hok Hc) as HA. fold s in HA. rewrite Ec in E. rewrite E in HA.
      destruct (cp_apart _ _ _ _ _ _ O1) as (_ & _ & Ha). apply (Ha newfe); [apply elem_of_union; by left|done].
    + intros c U' s' Hok' [X1 X2 X3 X4 X5] N. apply wp_bind. cbn [negb]. apply wp_ret, wp_ret.
      assert (Hp : forall x, x ∈ U -> promise_of s1 x = promise_of s x).
      { intros x Hx. unfold promise_of. rewrite Ec. pose proof (ok_file _ _ _ _ _ _ Hok Hx) as HA. fold s in HA.
        assert (fhead (CB s x) <> newfe) as Hne.
        { intros E. rewrite E in HA. destruct (cp_apart _ _ _ _ _ _ O1) as (_ & _ & Ha). apply (Ha newfe); [apply elem_of_union; by left|done]. }
        unfold fe_fid, later. by rewrite Ex. }
      assert (Ht : tfirst s1 = tfirst s) by (by destruct (fr_time _ _ _ _ _ _ F1)).
      apply (HQ ({[newfe]} ∪ A) c U'); [done|]. rewrite Efid in X2, X3. split; [done| | | |].
      * intros Hc. destruct (X2 Hc) as [? X2']. split; [done|]. intros x Hx. rewrite <- Hp by done. by apply X2'.
      * intros Hc. specialize (X3 Hc). by rewrite Hp, Ht in X3 by done.
      * intros x Hx Hne. rewrite X4 by done. by apply Hp.
      * pose proof (cb_frame_trans _ _ _ _ _ _ _ _ _ _ _ F1 X5) as F. by rewrite union_empty_l_L in F.
  - intros fe Hfe Hlat Hfid. pose proof (ok_fe_tab _ _ _ _ _ _ Hok Hfe) as Hin. fold s in Hin.
    assert (E0 : (fe =? 0) = false) by (unfold in_tab in Hin; lia). rewrite E0.
    apply wp_bind, wp_bind, wp_fe_at; [done|]. apply wp_ret, wp_bind, wp_get. fold s.
    rewrite (cbs_for_found KC KF A U s fe) by done. fold s in Hfid. rewrite Hfid. fold ex. apply wp_bind, wp_ret.
    apply (wp_add_or_extend _ KC KF A U fe h); try done. fold s. rewrite Hfid.
    intros c U' s' Hok' Hex N. apply wp_bind. cbn [negb]. unfold when. 
    assert (Hnin : in_tab s' newfe) by (apply (cp_tab _ _ _ _ _ _ (ok_c _ _ _ _ _ Hok')); rewrite !elem_of_union; tauto).
    apply wp_iFreeFE; [done|]. apply wp_ret. cbsimp. destruct (ok_free_fe _ _ _ _ _ _ Hok' Hnf) as [Hok2 L2].
    apply (HQ A c U'); [done|]. assert (Hp : forall x, x ∈ U' -> promise_of (freed_fe newfe s') x = promise_of s' x).
    { intros x Hx. apply (less_promise (KC ∖ {[newcb]}) (KF ∖ {[newfe]}) A U' ∅ s' A); try done; rewrite difference_empty_L; done. }
    destruct Hex as [X1 X2 X3 X4 X5]. assert (HcU : c ∈ U') by (rewrite X1, elem_of_union, elem_of_singleton; tauto).
    split; [done| | | |].
    + intros Hc. rewrite Hp by done. by apply X2.
    + intros Hc. rewrite Hp by done. by apply X3.
    + intros x Hx Hne. rewrite Hp by (rewrite X1, elem_of_union; tauto). by apply X4.
    + pose proof (cb_frame_trans _ _ _ _ _ _ _ _ _ _ _ X5 (le_frame _ _ _ _ _ _ L2)) as F. by rewrite union_empty_r_L in F.
Qed.
