(* ===== verification/CbInv.v ===== *)
(** * Call-backs: other threads, and computations that keep the invariant

    A handler gives up H_LOCK in the middle, and finds the tables as other threads leave
    them.  [others_ok e OC OF] says of the other threads that they keep the invariant:
    they hold the entries [OC] and [OF], and whatever entries handlers hold, they leave
    those alone.  [evolves] is what a handler can rely on: the size of the tables and
    the hosts it knows stay, and in the list of hosts new ones are put in front only.
    [safe] computations never panic and end with the invariant. *)

From stdpp Require Import prelude list gmap.
From Stdlib Require Import ZArith Lia ZifyBool.
From S2P Require Import Prelude ByteMem CbTab Callback CbRing CbOk CbFile CbOps CbAdd.

#[local] Open Scope Z_scope.
#[local] Open Scope cb_scope.

Definition known (s : cbs) (h : Z) : Prop := is_Some (hosts s !! h).

Record hosts_ok (s : cbs) : Prop := {
  ho_nodup : NoDup (hostList s);
  ho_known : forall h, h ∈ hostList s -> known s h
}.

Record evolves (s s' : cbs) : Prop := {
  ev_n : nblks s' = nblks s;
  ev_known : forall h, known s h -> known s' h;
  ev_after : forall h, known s h -> (length (after h (hostList s')) <= length (after h (hostList s)))%nat
}.

Fixpoint others_ok (e : env) (OC OF : gset Z) : Prop :=
  match e with
  | Quiet => True
  | Step run rest => forall KC KF A U s, KC ## OC -> KF ## OF -> ok (KC ∪ OC) (KF ∪ OF) A U s -> hosts_ok s ->
      evolves s (run s) /\ hosts_ok (run s) /\
      exists OC' OF' A' U', KC ## OC' /\ KF ## OF' /\ ok (KC ∪ OC') (KF ∪ OF') A' U' (run s) /\ others_ok (rest s) OC' OF'
  end.

(** The handler holds the entries [KC] and [KF]. *)
Record inv_with (KC KF OC OF A U : gset Z) (w : world) : Prop := {
  iw_apart : KC ## OC /\ KF ## OF;
  iw_ok : ok (KC ∪ OC) (KF ∪ OF) A U (st w);
  iw_hosts : hosts_ok (st w);
  iw_others : others_ok (others w) OC OF
}.
Definition inv (KC KF : gset Z) (w : world) : Prop := exists OC OF A U, inv_with KC KF OC OF A U w.

Lemma evolves_refl s : evolves s s.
Proof. by split. Qed.

Lemma evolves_trans s1 s2 s3 : evolves s1 s2 -> evolves s2 s3 -> evolves s1 s3.
Proof.
  intros [A1 A2 A3] [B1 B2 B3]. split; [congruence|auto|]. intros h Hh. etransitivity; [by apply B3, A2|by apply A3].
Qed.

Lemma frame_known ft fl fc X s s' h : frame ft fl fc X s s' -> known s h <-> known s' h.
Proof.
  intros F. pose proof (fr_hosts _ _ _ _ _ _ F h) as E. unfold known.
  destruct (hosts s !! h), (hosts s' !! h); try done; split; intros; try done; try (by eexists); by destruct H.
Qed.

Lemma frame_evolves ft fl fc X s s' : frame ft fl fc X s s' -> evolves s s' /\ (hosts_ok s -> hosts_ok s').
Proof.
  intros F. split; [split|].
  - apply F.
  - intros h. by rewrite (frame_known _ _ _ _ _ _ h F).
  - intros h _. by rewrite (fr_list _ _ _ _ _ _ F).
  - intros [H1 H2]. split; rewrite (fr_list _ _ _ _ _ _ F); [done|]. intros h Hh. rewrite <- (frame_known _ _ _ _ _ _ h F). auto.
Qed.

(** ** Safe computations *)

Definition safe {B} (f : Prop) (KC KF : gset Z) (m : M B) (P : B -> cbs -> Prop) (w : world) : Prop :=
  wp f m (fun b w' => inv KC KF w' /\ evolves (st w) (st w') /\ P b (st w')) w.

Definition anything {B} (b : B) (s : cbs) : Prop := True.

Lemma safe_bind {B C} f KC KF KC' KF' (m : M B) (k : B -> M C) P P' w :
  safe f KC' KF' m P w ->
  (forall b w', inv KC' KF' w' -> evolves (st w) (st w') -> P b (st w') -> safe f KC KF (k b) P' w') ->
  safe f KC KF (bind m k) P' w.
Proof.
  intros Hm Hk. apply wp_bind. eapply wp_mono; [exact Hm|]. intros b w' (Hi & He & HP).
  eapply wp_mono; [by apply Hk|]. intros c w2 (Hi2 & He2 & HP2). split; [done|]. split; [|done]. by apply (evolves_trans _ (st w')).
Qed.

Lemma safe_mono {B} f KC KF (m : M B) P P' w :
  safe f KC KF m P w -> (forall b s, evolves (st w) s -> P b s -> P' b s) -> safe f KC KF m P' w.
Proof. intros Hm HP. eapply wp_mono; [exact Hm|]. intros b w' (Hi & He & Hb). auto. Qed.

Lemma safe_ret {B} f KC KF (b : B) (P : B -> cbs -> Prop) w : inv KC KF w -> P b (st w) -> safe f KC KF (ret b) P w.
Proof. intros Hi HP. apply wp_ret. split; [done|]. split; [apply evolves_refl|done]. Qed.

Lemma safe_get {B} f KC KF (g : cbs -> B) w : inv KC KF w -> safe f KC KF (get g) (fun b s => b = g s) w.
Proof. intros Hi. apply wp_get. split; [done|]. split; [apply evolves_refl|done]. Qed.

Lemma safe_when f KC KF (b : bool) m (P : unit -> cbs -> Prop) w :
  inv KC KF w -> (b = true -> safe f KC KF m P w) -> (b = false -> P tt (st w)) -> safe f KC KF (when b m) P w.
Proof. intros Hi H1 H2. unfold when. destruct b; [by apply H1|by apply safe_ret; auto]. Qed.

Lemma safe_nofuel {B} (f : Prop) KC KF (P : B -> cbs -> Prop) w : f -> safe f KC KF nofuel P w.
Proof. done. Qed.

(** A computation with no [unlocked] changes only the tables. *)
Lemma inv_step KC KF KC' KF' OC OF A U A' U' w s' :
  inv_with KC KF OC OF A U w -> KC' ## OC -> KF' ## OF -> ok (KC' ∪ OC) (KF' ∪ OF) A' U' s' ->
  hosts_ok s' -> inv KC' KF' (set_st s' w).
Proof. intros [_ _ H3 H4] HC HF Hok Hh. by exists OC, OF, A', U'; split. Qed.

Lemma inv_frame KC KF OC OF A U A' U' w s' ft fl fc X :
  inv_with KC KF OC OF A U w -> frame ft fl fc X (st w) s' -> ok (KC ∪ OC) (KF ∪ OF) A' U' s' ->
  inv KC KF (set_st s' w) /\ evolves (st w) s'.
Proof.
  intros Hi F Hok. destruct (frame_evolves _ _ _ _ _ _ F) as [He Hh]. split; [|done].
  apply (inv_step KC KF KC KF OC OF A U A' U'); try done; try apply Hi. apply Hh, Hi.
Qed.

Lemma safe_unlocked f KC KF w : inv KC KF w -> safe f KC KF unlocked anything w.
Proof.
  intros (OC & OF & A & U & [[HC HF] Hok Hh Ho]). unfold safe, wp, unlocked. destruct (others w) as [|run rest] eqn:E.
  - split; [|by split; [apply evolves_refl|]]. exists OC, OF, A, U. split; try done. by rewrite E.
  - destruct (Ho KC KF A U (st w) HC HF Hok Hh) as (He & Hh' & OC' & OF' & A' & U' & HC' & HF' & Hok' & Ho').
    split; [|done]. by exists OC', OF', A', U'; split.
Qed.

Lemma inv_same KC KF w w' : st w' = st w -> others w' = others w -> inv KC KF w -> inv KC KF w'.
Proof. intros E1 E2 (OC & OF & A & U & [H1 H2 H3 H4]). exists OC, OF, A, U. split; rewrite ?E1, ?E2; done. Qed.

Lemma safe_answer f KC KF w : inv KC KF w -> safe f KC KF answer anything w.
Proof.
  intros Hi. unfold safe, wp, answer. destruct (answers w) as [|b bs];
    (split; [by apply (inv_same _ _ w)|by split; [apply evolves_refl|]]).
Qed.

Lemma safe_send f KC KF m w : inv KC KF w -> safe f KC KF (send m) anything w.
Proof. intros Hi. split; [by apply (inv_same _ _ w)|by split; [apply evolves_refl|]]. Qed.

Lemma safe_host_at f KC KF h w :
  inv KC KF w -> known (st w) h -> safe f KC KF (host_at h) (fun v s => hosts s !! h = Some v) w.
Proof. intros Hi [v Hv]. apply (wp_host_at _ _ v); [done|]. split; [done|]. split; [apply evolves_refl|done]. Qed.

(** A change of a host other than of its list of call-backs. *)
Lemma parts_host_put KC KF A X UC UT UL UH Qs D s h v g :
  parts KC KF A X UC UT UL UH Qs D s -> hosts s !! h = Some v -> (forall v, cblist (g v) = cblist v) ->
  parts KC KF A X UC UT UL UH Qs D (set_host h (g v) s).
Proof.
  intros [[A1 A2 A3 A4 A5 A6 A7] O2 O3 O4 O5] Hv Hg. split; [split| | | |]; try done.
  - by apply (Fpart_ext s).
  - by apply (Hpart_ext s).
  - apply (Lpart_ext s); try done. intros h' v' Hv'. cbsimp. destruct (decide (h' = h)) as [->|].
    + rewrite lookup_insert_eq in Hv'. injection Hv' as <-. by exists v.
    + rewrite lookup_insert_ne in Hv' by done. by exists v'.
  - intros c Hc. destruct (O4 c Hc) as (H1 & H2 & H3). split; [done|]. split; [done|]. cbsimp. by apply lookup_insert_is_Some'; right.
Qed.

Lemma ok_host_put KC KF A U s h v g :
  ok KC KF A U s -> hosts s !! h = Some v -> (forall v, cblist (g v) = cblist v) -> ok KC KF A U (set_host h (g v) s).
Proof. rewrite !ok_parts. apply parts_host_put. Qed.

Lemma set_host_evolves s h v : evolves s (set_host h v s) /\ (hosts_ok s -> hosts_ok (set_host h v s)).
Proof.
  assert (Hk : forall x, known s x -> known (set_host h v s) x) by (intros x Hx; unfold known; cbsimp; apply lookup_insert_is_Some'; by right).
  split; [by split|]. intros [H1 H2]. split; [done|]. intros x Hx. by apply Hk, H2.
Qed.

Lemma safe_host_put f KC KF h g w :
  inv KC KF w -> known (st w) h -> (forall v, cblist (g v) = cblist v) -> safe f KC KF (host_put h g) anything w.
Proof.
  intros (OC & OF & A & U & Hi) [v Hv] Hg. apply (wp_host_put _ _ _ v); [done|].
  destruct (set_host_evolves (st w) h (g v)) as [He Hh]. split; [|done].
  apply (inv_step KC KF KC KF OC OF A U A U); [done|apply Hi|apply Hi| |apply Hh, Hi]. apply ok_host_put; try done. apply Hi.
Qed.

(** ** The entries that a handler takes *)

Lemma union_swap (c : Z) (K O : gset Z) : {[c]} ∪ (K ∪ O) = {[c]} ∪ K ∪ O.
Proof. apply union_assoc_L. Qed.

Lemma set_CBfree_frame p n s : frame false false true ∅ s (set_CBfree p n s).
Proof. by split. Qed.
Lemma set_FEfree_frame p n s : frame false false true ∅ s (set_FEfree p n s).
Proof. by split. Qed.

Lemma inv_iGetCB f KC KF (Q : Z -> world -> Prop) w :
  inv KC KF w -> Q 0 w ->
  (forall c w', c <> 0 -> c ∉ KC -> inv ({[c]} ∪ KC) KF w' -> evolves (st w) (st w') -> Q c w') -> wp f iGetCB Q w.
Proof.
  intros (OC & OF & A & U & Hi) H0 HQ. pose proof Hi as [[HC HF] [O1 O2 O3 O4] Hh Ho].
  apply (wp_iGetCB _ (KC ∪ OC) (KF ∪ OF) A ∅ U); [done|done|]. intros c p n Hc Hin HC'.
  destruct (frame_evolves _ _ _ _ _ _ (set_CBfree_frame p n (st w))) as [He Hh'].
  apply not_elem_of_union in Hc as [HcU [HcK HcO]%not_elem_of_union]. apply HQ; [unfold in_tab in Hin; lia|done| |done].
  apply (inv_step KC KF _ KF OC OF A U A U); [done| |done| |by apply Hh'].
  - by intros x [->%elem_of_singleton|Hx]%elem_of_union; [|apply HC].
  - rewrite <- union_swap. by split.
Qed.

Lemma inv_iGetFE f KC KF (Q : Z -> world -> Prop) w :
  inv KC KF w -> Q 0 w ->
  (forall c w', c <> 0 -> c ∉ KF -> inv KC ({[c]} ∪ KF) w' -> evolves (st w) (st w') -> Q c w') -> wp f iGetFE Q w.
Proof.
  intros (OC & OF & A & U & Hi) H0 HQ. pose proof Hi as [[HC HF] [O1 O2 O3 O4] Hh Ho].
  apply (wp_iGetFE _ (KC ∪ OC) (KF ∪ OF) A ∅ U); [done|done|]. intros c p n Hc Hin HC'.
  destruct (frame_evolves _ _ _ _ _ _ (set_FEfree_frame p n (st w))) as [He Hh'].
  apply not_elem_of_union in Hc as [HcU [HcK HcO]%not_elem_of_union]. apply HQ; [unfold in_tab in Hin; lia|done| |done].
  apply (inv_step KC KF KC _ OC OF A U A U); [done|done| | |by apply Hh'].
  - by intros x [->%elem_of_singleton|Hx]%elem_of_union; [|apply HF].
  - rewrite <- union_swap. by split.
Qed.

(** Entries that are given up without being freed. *)
Lemma ok_sub KC KF KC' KF' A U s : KC' ⊆ KC -> KF' ⊆ KF -> ok KC KF A U s -> ok KC' KF' A U s.
Proof.
  intros HC HF [[A1 A2 A3 A4 A5 (A6 & A7 & A8) A9] O2 O3 O4]. split; [split| | |]; try done.
  - apply (Cfree_ext s _ (U ∪ KC)); try done. intros x. rewrite !elem_of_union. intros [?|?%HC]; tauto.
  - apply (Ffree_ext s _ (A ∪ ∅ ∪ KF)); try done. intros x. rewrite (elem_of_union (A ∪ ∅) KF), elem_of_union. intros [?|?%HF]; tauto.
  - split_and!; [done|by intros x Hx ?%HC; apply (A7 x)|by intros x Hx ?%HF; apply (A8 x)].
  - intros i. rewrite !elem_of_union. intros [[?|?%HC]|?%HF]; apply A9; rewrite !elem_of_union; tauto.
Qed.

Lemma inv_sub KC KF KC' KF' w : KC' ⊆ KC -> KF' ⊆ KF -> inv KC KF w -> inv KC' KF' w.
Proof.
  intros HC HF (OC & OF & A & U & [[H1 H2] Hok Hh Ho]). exists OC, OF, A, U. split; try done.
  - split; [by intros x ?%HC; apply H1|by intros x ?%HF; apply H2].
  - apply (ok_sub (KC ∪ OC) (KF ∪ OF)); [| |done]; intros x; rewrite !elem_of_union; [intros [?%HC|?]|intros [?%HF|?]]; tauto.
Qed.
