(* ===== verification/CbSafe.v ===== *)
(** * Call-backs: no handler panics

    Every handler of callback.c, with any outcome of the remote calls and with other
    threads that keep the invariant, keeps it as well and never panics. *)

From stdpp Require Import prelude list gmap.
From Stdlib Require Import ZArith Lia ZifyBool.
From S2P Require Import Prelude ByteMem CbTab Callback CbRing CbOk CbFile CbOps CbAdd CbInv.

#[local] Open Scope Z_scope.
#[local] Open Scope cb_scope.

(** ** Steps *)

(** A host to notify is known, and its queue exists. *)
Definition held (s : cbs) (e : cbstruct) : Prop := known s (fst e) /\ 1 <= snd e <= 128.

Lemma held_evolves s s' l : evolves s s' -> Forall (held s) l -> Forall (held s') l.
Proof. intros E H. eapply Forall_impl; [exact H|]. intros e [H1 H2]. split; [by apply (ev_known _ _ E)|done]. Qed.
Lemma known_all_evolves s s' l : evolves s s' -> Forall (known s) l -> Forall (known s') l.
Proof. intros E H. eapply Forall_impl; [exact H|]. intros e. apply (ev_known _ _ E). Qed.

(** Carry what is known of the hosts over a step. *)
Ltac evolve E :=
  match type of E with
  | evolves (st ?w) (st ?w') =>
      repeat match goal with
      | K : known (st w) _ |- _ => apply (ev_known _ _ E) in K
      | K : Forall (held (st w)) _ |- _ => apply (held_evolves _ _ _ E) in K
      | K : Forall (known (st w)) _ |- _ => apply (known_all_evolves _ _ _ E) in K
      end
  end.

(** One step of a handler. *)
Tactic Notation "step" uconstr(lem) :=
  eapply safe_bind; [eapply lem; eauto 2|];
  let E := fresh "E" in intros ? ? ? E ?; evolve E; clear E.
Tactic Notation "step" uconstr(lem) "as" simple_intropattern(b) simple_intropattern(P) :=
  eapply safe_bind; [eapply lem; eauto 2|];
  let E := fresh "E" in intros b ? ? E P; evolve E; clear E.

Lemma lookup_known (s : cbs) h v : hosts s !! h = Some v -> known s h.
Proof. intros H. by exists v. Qed.

Create HintDb callbacks.
#[export] Hint Resolve safe_unlocked safe_answer safe_send safe_host_at lookup_known : callbacks.

Lemma anything_any {B} f KC KF (m : M B) P w : safe f KC KF m P w -> safe f KC KF m anything w.
Proof. intros H. by eapply safe_mono. Qed.

Lemma safe_done f KC KF w : inv KC KF w -> safe f KC KF (ret tt) anything w.
Proof. intros Hi. by apply safe_ret. Qed.

(** ** Deleting *)

Lemma safe_DeleteAllCallBacks_r f KC KF h b w :
  inv KC KF w -> known (st w) h -> safe f KC KF (DeleteAllCallBacks_r h b) anything w.
Proof.
  intros (OC & OF & A & U & Hi) Hk. apply (wp_DeleteAllCallBacks_r _ (KC ∪ OC) (KF ∪ OF) A U); [apply Hi|done|].
  intros A' s' Hok L. by destruct (inv_frame _ _ _ _ _ _ _ _ _ _ _ _ _ _ Hi (le_frame _ _ _ _ _ _ L) Hok).
Qed.

Lemma safe_CleanupTimedOutCallBacks_r f KC KF w :
  inv KC KF w -> safe f KC KF CleanupTimedOutCallBacks_r anything w.
Proof.
  intros (OC & OF & A & U & Hi). apply (wp_CleanupTimedOutCallBacks_r _ (KC ∪ OC) (KF ∪ OF) A U); [apply Hi|].
  intros A' s' Hok L _. destruct (frame_evolves _ _ _ _ _ _ (le_frame _ _ _ _ _ _ L)) as [[E1 E2 E3] Hh]. split; [|by split].
  eapply (inv_step KC KF KC KF OC OF A U A'); [exact Hi|apply Hi|apply Hi|exact Hok|]. destruct (Hh (iw_hosts _ _ _ _ _ _ _ Hi)) as [H1 H2]. by split.
Qed.

Lemma safe_DeleteFileCallBacks f KC KF fid w : inv KC KF w -> safe f KC KF (DeleteFileCallBacks fid) anything w.
Proof.
  intros (OC & OF & A & U & Hi). apply (wp_DeleteFileCallBacks _ (KC ∪ OC) (KF ∪ OF) A U); [apply Hi| |].
  - intros _. split; [by exists OC, OF, A, U|]. split; [apply evolves_refl|done].
  - intros fe s' _ _ _ Hok L. by destruct (inv_frame _ _ _ _ _ _ _ _ _ _ _ _ _ _ Hi (le_frame _ _ _ _ _ _ L) Hok).
Qed.

Lemma safe_DeleteCallBack f KC KF h fid w : inv KC KF w -> safe f KC KF (DeleteCallBack h fid) anything w.
Proof.
  intros Hi0. unfold DeleteCallBack, h_Lock_r. step safe_unlocked. clear Hi0 w. rename w' into w.
  match goal with H : inv _ _ w |- _ => destruct H as (OC & OF & A & U & Hi) end.
  apply (wp_delete_one _ (KC ∪ OC) (KF ∪ OF) A U); [apply Hi| |].
  - intros _. split; [by exists OC, OF, A, U|]. split; [apply evolves_refl|done].
  - intros c A' s' _ _ _ _ Hok L. by destruct (inv_frame _ _ _ _ _ _ _ _ _ _ _ _ _ _ Hi (le_frame _ _ _ _ _ _ L) Hok).
Qed.

(** ** References to hosts *)

Lemma safe_h_Hold_r f KC KF h w : inv KC KF w -> known (st w) h -> safe f KC KF (h_Hold_r h) anything w.
Proof. intros Hi Hk. by apply safe_host_put. Qed.
Lemma safe_h_Decrement_r f KC KF h w : inv KC KF w -> known (st w) h -> safe f KC KF (h_Decrement_r h) anything w.
Proof. intros Hi Hk. by apply safe_host_put. Qed.
Lemma safe_set_flag f KC KF h b w : inv KC KF w -> known (st w) h -> safe f KC KF (host_put h (set_flag b)) anything w.
Proof. intros Hi Hk. by apply safe_host_put. Qed.
Lemma safe_clear_flag f KC KF h b w : inv KC KF w -> known (st w) h -> safe f KC KF (host_put h (clear_flag b)) anything w.
Proof. intros Hi Hk. by apply safe_host_put. Qed.
#[export] Hint Resolve safe_DeleteAllCallBacks_r safe_CleanupTimedOutCallBacks_r safe_h_Hold_r safe_h_Decrement_r
  safe_set_flag safe_clear_flag safe_done : callbacks.

Lemma after_filter h x l : (length (after h (filter (fun y => y <> x) l)) <= length (after h l))%nat.
Proof.
  induction l as [|y l IH]; [done|]. rewrite filter_cons. cbn [after]. destruct (decide (y <> x)); cbn [after].
  - destruct (y =? h); [|done]. apply length_filter.
  - destruct (y =? h); [|done]. etransitivity; [exact IH|]. clear. induction l as [|z l IH]; [done|]. cbn [after length].
    destruct (z =? h); lia.
Qed.

Lemma safe_unlist f KC KF h w :
  inv KC KF w -> safe f KC KF (modify (fun s => set_hostList (filter (fun x => x <> h) (hostList s)) s)) anything w.
Proof.
  intros (OC & OF & A & U & Hi). pose proof Hi as [_ [[A1 A2 A3 A4 A5 A6 A7] O2 O3 O4] [H1 H2] _]. apply wp_modify.
  split; [|split; [split; try done; intros x _; apply after_filter|done]].
  apply (inv_step KC KF KC KF OC OF A U A U); [done|apply Hi|apply Hi| |].
  - split; [split| | |]; try done; [by apply (Fpart_ext (st w))|by apply (Hpart_ext (st w))].
  - split; cbsimp; [by apply NoDup_filter|]. intros x [_ Hx]%list_elem_of_filter. by apply H2.
Qed.

Lemma safe_h_NBLock_r f KC KF h w : inv KC KF w -> safe f KC KF (h_NBLock_r h) anything w.
Proof. intros Hi. unfold h_NBLock_r. step safe_unlocked. by apply safe_answer. Qed.
#[export] Hint Resolve safe_unlist safe_h_NBLock_r : callbacks.

Lemma safe_h_TossStuff_r f KC KF h w : inv KC KF w -> known (st w) h -> safe f KC KF (h_TossStuff_r h) anything w.
Proof.
  intros Hi Hk. unfold h_TossStuff_r. step safe_h_Hold_r. step safe_h_NBLock_r as busy ?. step safe_h_Decrement_r.
  destruct busy; [by apply safe_done|]. step safe_host_at as v ?. destruct (0 <? refCount v); [by apply safe_done|].
  step safe_answer as used ?. destruct used; [by apply safe_done|]. step safe_clear_flag. step safe_host_at as v' ?.
  destruct (has _ _); [|by apply safe_done]. step safe_DeleteAllCallBacks_r. step safe_clear_flag. by apply safe_unlist.
Qed.

Lemma safe_h_Release_r f KC KF h w : inv KC KF w -> known (st w) h -> safe f KC KF (h_Release_r h) anything w.
Proof.
  intros Hi Hk. unfold h_Release_r. step safe_h_Decrement_r. step safe_host_at as v ?.
  apply safe_when; [done| |done]. intros _. by apply safe_h_TossStuff_r.
Qed.
#[export] Hint Resolve safe_h_Release_r : callbacks.

(** One step of a handler, by the lemmas for its parts. *)
Tactic Notation "auto_step" :=
  eapply safe_bind; [solve [eauto 4 with callbacks]|];
  let E := fresh "E" in intros ? ? ? E ?; evolve E; clear E.
Tactic Notation "auto_step" "as" simple_intropattern(b) :=
  eapply safe_bind; [solve [eauto 4 with callbacks]|];
  let E := fresh "E" in intros b ? ? E ?; evolve E; clear E.

(** ** Enumerating hosts *)

Lemma inv_hosts KC KF w : inv KC KF w -> hosts_ok (st w).
Proof. by intros (OC & OF & A & U & []). Qed.

Lemma wp_first_alive f l (Q : option Z * nat -> world -> Prop) w :
  Forall (known (st w)) l ->
  (forall n, (n <= length l)%nat -> Q (None, n) w) -> (forall sk h r, l = sk ++ h :: r -> Q (Some h, length sk) w) ->
  wp f (first_alive l) Q w.
Proof.
  revert Q. induction l as [|h l IH]; intros Q Hk H0 H1; cbn [first_alive]; [by apply wp_ret, H0|].
  apply Forall_cons in Hk as [[v Hv] Hk]. apply wp_bind, (wp_host_at _ _ v); [done|]. destruct (has _ _).
  - apply wp_bind, IH; [done| |].
    + intros n Hn. apply wp_ret, H0. cbn. lia.
    + intros sk x r ->. apply wp_ret, (H1 (h :: sk) x r). done.
  - by apply wp_ret, (H1 [] h l).
Qed.

Lemma after_sub h l : forall x, x ∈ after h l -> x ∈ l.
Proof.
  induction l as [|y l IH]; intros x Hx; [done|]. cbn [after] in Hx. destruct (y =? h); right; [done|by apply IH].
Qed.

Lemma after_split h l sk n r : NoDup l -> after h l = sk ++ n :: r -> after n l = r.
Proof.
  induction l as [|y l IH]; intros Hnd E; [by destruct sk|]. apply NoDup_cons in Hnd as [Hy Hnd]. cbn [after] in *.
  assert (Hn : n ∈ l).
  { destruct (y =? h); [rewrite E; apply elem_of_app; right; left|]. apply (after_sub h). rewrite E. apply elem_of_app. right. left. }
  destruct (Z.eqb_spec y n) as [->|]; [done|]. destruct (y =? h); [|by apply IH]. subst l.
  clear -Hnd. induction sk as [|z sk IH]; cbn [app after]; [by rewrite Z.eqb_refl|].
  cbn [app] in Hnd. apply NoDup_cons in Hnd as [Hz Hnd]. destruct (Z.eqb_spec z n) as [->|]; [|by apply IH].
  destruct Hz. apply elem_of_app. right. left.
Qed.

Lemma after_first sk h r l : NoDup l -> l = sk ++ h :: r -> after h l = r.
Proof.
  intros Hnd ->. induction sk as [|z sk IH]; cbn [app after]; [by rewrite Z.eqb_refl|].
  cbn [app] in Hnd. apply NoDup_cons in Hnd as [Hz Hnd]. destruct (Z.eqb_spec z h) as [->|]; [|by apply IH].
  destruct Hz. apply elem_of_app. right. left.
Qed.

Section Enumerate.
Context {B : Type} (f : Prop) (KC KF : gset Z) (I : B -> cbs -> Prop) (proc : Z -> B -> M B).
Context (Istable : forall s s' b, evolves s s' -> I b s -> I b s').
Context (Hproc : forall h a w, inv KC KF w -> known (st w) h -> I a (st w) -> safe f KC KF (proc h a) I w).

Lemma safe_enumerate_from left h a w :
  inv KC KF w -> known (st w) h -> I a (st w) -> (length (after h (hostList (st w))) < left)%nat ->
  safe f KC KF (enumerate_from left proc h a) I w.
Proof using Istable Hproc.
  revert h a w. induction left as [left IH] using lt_wf_ind. intros h a w Hi Hk Ha Hlen. destruct left as [|left]; [lia|].
  cbn [enumerate_from]. pose proof (inv_hosts _ _ _ Hi) as [Hnd Hkn]. apply wp_bind, wp_get.
  assert (HkA : Forall (known (st w)) (after h (hostList (st w)))) by (apply Forall_forall; intros x Hx; by apply Hkn, (after_sub h)).
  apply wp_bind, wp_first_alive; [done| |].
  - intros n Hn. cbn [Nat.ltb]. rewrite (proj2 (Nat.ltb_ge _ _)) by lia.
    eapply safe_bind; [by apply safe_done|]. intros ? w1 Hi1 E1 _. eapply (Istable _ _ _ E1) in Ha. evolve E1.
    eapply safe_bind; [by apply safe_host_at|]. intros v w2 Hi2 E2 _. eapply (Istable _ _ _ E2) in Ha. evolve E2.
    eapply (safe_bind _ _ _ _ _ _ _ I).
    + destruct (has _ _); [by apply safe_ret|by apply Hproc].
    + intros a' w3 Hi3 E3 Ha'. evolve E3. eapply safe_bind; [by apply safe_h_Release_r|].
      intros ? w4 Hi4 E4 _. eapply (Istable _ _ _ E4) in Ha'. by apply safe_ret.
  - intros sk n r Hr. pose proof (after_split _ _ _ _ _ Hnd Hr) as Hrest.
    assert (Hkn' : known (st w) n) by (apply Forall_forall with (x := n) in HkA; [done|]; rewrite Hr; apply elem_of_app; right; left).
    rewrite Hr, length_app in Hlen. cbn [length] in Hlen. rewrite (proj2 (Nat.ltb_ge _ _)) by lia.
    eapply safe_bind; [by apply safe_h_Hold_r|]. intros ? w1 Hi1 E1 _. eapply (Istable _ _ _ E1) in Ha. pose proof (ev_after _ _ E1 n Hkn') as L1. evolve E1.
    eapply safe_bind; [by apply safe_host_at|]. intros v w2 Hi2 E2 _. eapply (Istable _ _ _ E2) in Ha. pose proof (ev_after _ _ E2 n Hkn') as L2. evolve E2.
    eapply (safe_bind _ _ _ _ _ _ _ I).
    + destruct (has _ _); [by apply safe_ret|by apply Hproc].
    + intros a' w3 Hi3 E3 Ha'. pose proof (ev_after _ _ E3 n Hkn') as L3. evolve E3. eapply safe_bind; [by apply safe_h_Release_r|].
      intros ? w4 Hi4 E4 _. pose proof (ev_after _ _ E4 n Hkn') as L4. eapply (Istable _ _ _ E4) in Ha'. evolve E4.
      apply IH; [lia|done|done|done|]. rewrite Hrest in L1. lia.
Qed.

Lemma safe_h_Enumerate_r a w : inv KC KF w -> I a (st w) -> safe f KC KF (h_Enumerate_r proc a) I w.
Proof using Istable Hproc.
  intros Hi Ha. unfold h_Enumerate_r. pose proof (inv_hosts _ _ _ Hi) as [Hnd Hkn]. apply wp_bind, wp_get.
  apply wp_bind, wp_first_alive; [apply Forall_forall; auto|intros n _; by apply safe_ret|].
  intros sk h r E. cbn [fst]. pose proof (after_first _ _ _ _ Hnd E) as Er.
  assert (Hk : known (st w) h) by (apply Hkn; rewrite E; apply elem_of_app; right; left).
  assert (Hlen : (length (after h (hostList (st w))) < length (hostList (st w)))%nat)
    by (rewrite Er, E, length_app; cbn [length]; lia).
  eapply safe_bind; [by apply safe_h_Hold_r|]. intros ? w1 Hi1 E1 _. eapply (Istable _ _ _ E1) in Ha.
  pose proof (ev_after _ _ E1 h Hk) as L1. evolve E1. apply safe_enumerate_from; try done. lia.
Qed.

Lemma safe_hold_alive l w :
  inv KC KF w -> Forall (known (st w)) l -> safe f KC KF (hold_alive l) (fun r s => Forall (known s) r) w.
Proof using.
  revert w. induction l as [|h l IH]; intros w Hi Hl; cbn [hold_alive]; [apply safe_ret; [done|by apply Forall_nil]|].
  apply Forall_cons in Hl as [Hk Hl]. auto_step as v. destruct (has _ _); [by apply IH|]. auto_step.
  eapply safe_bind; [by apply IH|]. intros r w2 Hi2 E2 Hr. evolve E2. apply safe_ret; [done|]. by apply Forall_cons.
Qed.

Lemma safe_enumerate_list l a w :
  inv KC KF w -> Forall (known (st w)) l -> I a (st w) -> safe f KC KF (enumerate_list proc l a) I w.
Proof using Istable Hproc.
  revert a w. induction l as [|h l IH]; intros a w Hi Hl Ha; cbn [enumerate_list]; [by apply safe_ret|].
  apply Forall_cons in Hl as [Hk Hl]. eapply safe_bind; [by apply Hproc|]. intros a' w1 Hi1 E1 Ha'. evolve E1.
  eapply safe_bind; [by apply safe_unlocked|]. intros ? w2 Hi2 E2 _. eapply (Istable _ _ _ E2) in Ha'. evolve E2.
  eapply safe_bind; [by apply safe_h_Release_r|]. intros ? w3 Hi3 E3 _. eapply (Istable _ _ _ E3) in Ha'. evolve E3.
  eapply safe_bind; [by apply safe_unlocked|]. intros ? w4 Hi4 E4 _. eapply (Istable _ _ _ E4) in Ha'. evolve E4.
  by apply IH.
Qed.

Lemma safe_h_Enumerate a w : inv KC KF w -> I a (st w) -> safe f KC KF (h_Enumerate proc a) I w.
Proof using Istable Hproc.
  intros Hi Ha. unfold h_Enumerate. pose proof (inv_hosts _ _ _ Hi) as [Hnd Hkn]. apply wp_bind, wp_get.
  eapply safe_bind; [apply safe_hold_alive; [done|apply Forall_forall; auto]|]. intros l w1 Hi1 E1 Hl. cbn beta in Hl. eapply (Istable _ _ _ E1) in Ha.
  eapply safe_bind; [by apply safe_unlocked|]. intros ? w2 Hi2 E2 _. eapply (Istable _ _ _ E2) in Ha. evolve E2.
  by apply safe_enumerate_list.
Qed.
End Enumerate.

(** ** Making room *)

Lemma safe_ClearHostCallbacks_r f KC KF h locked w :
  inv KC KF w -> known (st w) h -> safe f KC KF (ClearHostCallbacks_r h locked) anything w.
Proof.
  intros Hi Hk. unfold ClearHostCallbacks_r. auto_step as v. destruct (has _ _); [by apply safe_ret|]. auto_step.
  eapply (safe_bind _ _ _ _ _ _ _ anything); [destruct locked; [by apply safe_ret|by apply safe_h_NBLock_r]|].
  intros busy w2 Hi2 E2 _. evolve E2. destruct busy; [auto_step; by apply safe_ret|]. auto_step. auto_step as v2.
  eapply (safe_bind _ _ _ _ _ _ _ anything).
  - destruct (has _ _); [by apply safe_clear_flag|]. destruct (negb _); [|by apply safe_done].
    auto_step. auto_step. auto_step. auto_step. auto_step as code. auto_step. auto_step.
    destruct code; [auto_step; by apply safe_clear_flag|by apply safe_set_flag].
  - intros ? w5 Hi5 E5 _. evolve E5. auto_step. by apply safe_ret.
Qed.
#[export] Hint Resolve safe_ClearHostCallbacks_r : callbacks.

Definition maybe_known (s : cbs) (o : option Z) : Prop := match o with Some h => known s h | None => True end.

Lemma maybe_evolves s s' o : evolves s s' -> maybe_known s o -> maybe_known s' o.
Proof. intros E. destruct o; [apply (ev_known _ _ E)|done]. Qed.

Lemma safe_lih_r f KC KF any last h lih w :
  inv KC KF w -> known (st w) h -> maybe_known (st w) lih /\ maybe_known (st w) last ->
  safe f KC KF (lih_r any last h lih) (fun b s => maybe_known s b /\ maybe_known s last) w.
Proof.
  intros Hi Hk [Hl Hll]. unfold lih_r. eapply safe_bind; [by apply safe_host_at|]. intros v w1 Hi1 E1 _.
  apply (maybe_evolves _ _ _ E1) in Hl, Hll. evolve E1.
  eapply (safe_bind _ _ _ _ _ _ _ anything).
  { destruct lih; [auto_step as vl|]; by apply safe_ret. }
  intros older w2 Hi2 E2 _. apply (maybe_evolves _ _ _ E2) in Hl, Hll. evolve E2.
  eapply (safe_bind _ _ _ _ _ _ _ anything).
  { destruct last; [auto_step as vl|]; by apply safe_ret. }
  intros newer w3 Hi3 E3 _. apply (maybe_evolves _ _ _ E3) in Hl, Hll. evolve E3.
  destruct (_ && newer); [|by apply safe_ret].
  eapply (safe_bind _ _ _ _ _ _ _ anything).
  { destruct lih; [by apply safe_h_Release_r|by apply safe_done]. }
  intros ? w4 Hi4 E4 _. apply (maybe_evolves _ _ _ E4) in Hll. evolve E4.
  eapply safe_bind; [by apply safe_h_Hold_r|]. intros ? w5 Hi5 E5 _. apply (maybe_evolves _ _ _ E5) in Hll. evolve E5. by apply safe_ret.
Qed.

Lemma safe_find_space KC KF fuel h i last w :
  inv KC KF w -> known (st w) h -> maybe_known (st w) last -> safe True KC KF (find_space fuel h i last) anything w.
Proof.
  revert i last w. induction fuel as [|fuel IH]; intros i last w Hi Hk Hl; cbn [find_space]; [done|].
  eapply (safe_bind _ _ _ _ _ _ _ (fun b s => maybe_known s b /\ maybe_known s last)).
  { apply safe_h_Enumerate_r; [|destruct i; apply safe_lih_r|done|done].
    intros s s' b E [H1 H2]. split; by apply (maybe_evolves s). }
  intros lih w1 Hi1 E1 [Hlih Hlast]. evolve E1.
  eapply (safe_bind _ _ _ _ _ _ _ anything).
  { destruct last; [by apply safe_h_Release_r|by apply safe_done]. }
  intros ? w2 Hi2 E2 _. apply (maybe_evolves _ _ _ E2) in Hlih. evolve E2.
  destruct lih as [hp|]; [|destruct (Nat.ltb _ _); [by apply IH|by apply safe_ret]].
  cbn [maybe_known] in Hlih. eapply (safe_bind _ _ _ _ _ _ _ anything).
  { destruct (hp =? h); [by apply safe_ret|by apply safe_ClearHostCallbacks_r]. }
  intros failed w3 Hi3 E3 _. evolve E3. destruct failed; [by apply IH|]. auto_step. by apply safe_ret.
Qed.

Lemma safe_GetSomeSpace_r KC KF fuel h locked w :
  inv KC KF w -> known (st w) h -> safe True KC KF (GetSomeSpace_r fuel h locked) anything w.
Proof.
  intros Hi Hk. unfold GetSomeSpace_r. auto_step as found. destruct found; [by apply safe_done|].
  eapply safe_bind; [by apply safe_find_space|]. intros found w2 Hi2 E2 _. evolve E2. destruct found; [by apply safe_done|].
  eapply (safe_bind _ _ _ _ _ _ _ anything).
  { apply safe_when; [done| |done]. intros _. by apply safe_unlocked. }
  intros ? w3 Hi3 E3 _. evolve E3. auto_step. by apply safe_done.
Qed.

(** ** Adding a call-back *)

Lemma inv_get_CB KC KF fuel h locked (Q : Z -> world -> Prop) w :
  inv KC KF w -> known (st w) h ->
  (forall c w', c ∉ KC -> inv ({[c]} ∪ KC) KF w' -> evolves (st w) (st w') -> Q c w') ->
  wp True (get_entry fuel iGetCB h locked) Q w.
Proof.
  revert w. induction fuel as [|fuel IH]; intros w Hi Hk HQ; cbn [get_entry].
  - apply wp_bind, (inv_iGetCB _ KC KF); [done|done|]. intros c w' Hc0 Hc Hi' E. rewrite (proj2 (Z.eqb_neq c 0) Hc0). by apply wp_ret, HQ.
  - apply wp_bind, (inv_iGetCB _ KC KF); [done| |].
    + cbn [Z.eqb negb]. apply wp_bind. eapply wp_mono; [by apply (safe_GetSomeSpace_r KC KF)|]. intros _ w1 (Hi1 & E1 & _).
      apply IH; [done|by apply (ev_known _ _ E1)|]. intros c w' Hc Hi' E. apply HQ; [done|done|]. by apply (evolves_trans _ (st w1)).
    + intros c w' Hc0 Hc Hi' E. rewrite (proj2 (Z.eqb_neq c 0) Hc0). by apply wp_ret, HQ.
Qed.

Lemma inv_get_FE KC KF fuel h locked (Q : Z -> world -> Prop) w :
  inv KC KF w -> known (st w) h ->
  (forall c w', c ∉ KF -> inv KC ({[c]} ∪ KF) w' -> evolves (st w) (st w') -> Q c w') ->
  wp True (get_entry fuel iGetFE h locked) Q w.
Proof.
  revert w. induction fuel as [|fuel IH]; intros w Hi Hk HQ; cbn [get_entry].
  - apply wp_bind, (inv_iGetFE _ KC KF); [done|done|]. intros c w' Hc0 Hc Hi' E. rewrite (proj2 (Z.eqb_neq c 0) Hc0). by apply wp_ret, HQ.
  - apply wp_bind, (inv_iGetFE _ KC KF); [done| |].
    + cbn [Z.eqb negb]. apply wp_bind. eapply wp_mono; [by apply (safe_GetSomeSpace_r KC KF)|]. intros _ w1 (Hi1 & E1 & _).
      apply IH; [done|by apply (ev_known _ _ E1)|]. intros c w' Hc Hi' E. apply HQ; [done|done|]. by apply (evolves_trans _ (st w1)).
    + intros c w' Hc0 Hc Hi' E. rewrite (proj2 (Z.eqb_neq c 0) Hc0). by apply wp_ret, HQ.
Qed.

Lemma singleton_difference (c : Z) (K O : gset Z) : c ∉ K -> {[c]} ∪ K ## O -> ({[c]} ∪ K ∪ O) ∖ {[c]} = K ∪ O.
Proof.
  intros Hc Hd. apply set_eq. intros x. rewrite elem_of_difference, !elem_of_union, elem_of_singleton.
  split; [tauto|]. intros Hx. split; [tauto|]. intros ->. destruct Hx as [?|Hx]; [done|].
  apply (Hd c); [apply elem_of_union; left; by apply elem_of_singleton|done].
Qed.

Lemma safe_add_callback f KC KF h fid q type c fe w :
  inv ({[c]} ∪ KC) ({[fe]} ∪ KF) w -> c ∉ KC -> fe ∉ KF -> known (st w) h -> (timed_type type = false -> 1 <= q <= 128) ->
  safe f KC KF (add_callback h fid q type c fe) anything w.
Proof.
  intros (OC & OF & A & U & Hi) Hc Hfe Hk Hq. pose proof Hi as [[HC HF] Hok Hh _].
  apply (wp_add_callback _ ({[c]} ∪ KC ∪ OC) ({[fe]} ∪ KF ∪ OF) A U); try done; try (rewrite !elem_of_union, elem_of_singleton; tauto).
  intros A' c' U' s' Hok' Hex. destruct (frame_evolves _ _ _ _ _ _ (ex_frame _ _ _ _ _ _ _ _ _ Hex)) as [He Hh'].
  rewrite (singleton_difference c KC OC), (singleton_difference fe KF OF) in Hok' by done. split; [|done].
  apply (inv_step _ _ KC KF OC OF A U A' U' _ _ Hi); [| |done|by apply Hh'].
  - intros x Hx. apply HC. apply elem_of_union. by right.
  - intros x Hx. apply HF. apply elem_of_union. by right.
Qed.

Lemma safe_rebase {B} f KC KF (m : M B) P w w2 :
  evolves (st w) (st w2) -> safe f KC KF m P w2 -> wp f m (fun b w' => inv KC KF w' /\ evolves (st w) (st w') /\ P b (st w')) w2.
Proof. intros E H. eapply wp_mono; [exact H|]. intros b w' (H1 & H2 & H3). split; [done|]. split; [by apply (evolves_trans _ (st w2))|done]. Qed.

Lemma safe_AddCallBack1_r KC KF fuel h fid q type locked w :
  inv KC KF w -> known (st w) h -> (timed_type type = false -> 1 <= q <= 128) ->
  safe True KC KF (AddCallBack1_r fuel h fid q type locked) anything w.
Proof.
  intros Hi Hk Hq. unfold AddCallBack1_r. apply wp_bind, (inv_get_CB KC KF); [done|done|]. intros c w1 Hc Hi1 E1.
  apply wp_bind, (inv_get_FE ({[c]} ∪ KC) KF); [done|by apply (ev_known _ _ E1)|]. intros fe w2 Hfe Hi2 E2.
  pose proof (evolves_trans _ _ _ E1 E2) as E12. apply (ev_known _ _ E12) in Hk.
  apply (safe_rebase _ _ _ _ _ _ w2 E12).
  apply (safe_bind _ _ _ ({[c]} ∪ KC) ({[fe]} ∪ KF) _ _ anything).
  { destruct locked; [by apply safe_ret|]. unfold h_Lock_r. auto_step. auto_step as v. by apply safe_ret. }
  intros deleted w3 Hi3 E3 _. evolve E3. destruct deleted; [|by apply safe_add_callback].
  apply safe_ret; [|done]. apply (inv_sub ({[c]} ∪ KC) ({[fe]} ∪ KF)); [| |done]; intros x Hx; apply elem_of_union; by right.
Qed.

Lemma safe_AddCallBack1 KC KF fuel h fid q type locked w :
  inv KC KF w -> known (st w) h -> (timed_type type = false -> 1 <= q <= 128) ->
  safe True KC KF (AddCallBack1 fuel h fid q type locked) anything w.
Proof.
  intros Hi Hk Hq. unfold AddCallBack1. eapply (safe_bind _ _ _ _ _ _ _ anything).
  { apply safe_when; [done| |done]. intros _. by apply safe_unlocked. }
  intros ? w1 Hi1 E1 _. evolve E1. auto_step as v. destruct (has _ _); [by apply safe_ret|by apply safe_AddCallBack1_r].
Qed.
