(* ===== verification/CbBreak.v ===== *)
(** * Call-backs: what breaking takes off a file

    [mark_breaking] and [break_collect], the two passes of [BreakCallBack] over the
    call-backs of a file, and [delayed_collect], the pass over those of a host. *)

From stdpp Require Import prelude list gmap.
From Stdlib Require Import ZArith Lia ZifyBool.
From S2P Require Import Prelude ByteMem CbTab Callback CbRing CbOk CbFile CbOps CbAdd CbInv.

#[local] Open Scope Z_scope.
#[local] Open Scope cb_scope.

(** ** Flags *)

Definition with_pflags (v : Z) (p : promise) : promise :=
  mkPromise (p_host p) (p_fid p) (p_later p) (p_queue p) (p_status p) v.
Definition delayed (p : promise) : promise :=
  mkPromise (p_host p) (p_fid p) (p_later p) (p_queue p) CB_DELAYED (Z.land (p_flags p) (Z.lnot CBFLAG_BREAKING)).

Definition marked (p : promise) : bool := negb (Z.land (p_flags p) CBFLAG_BREAKING =? 0).
(** The call-backs that [BreakCallBack] for [hostindex] marks. *)
Definition to_break (hostindex : Z) (flag : bool) (p : promise) : bool :=
  (negb (p_host p =? hostindex) || flag)
  && ((p_status p =? CB_BULK) || (p_status p =? CB_NORMAL) || (p_status p =? CB_VOLUME)).

Definition host_has (s : cbs) (h bit : Z) : bool :=
  match hosts s !! h with Some v => has (hostFlags v) bit | None => false end.

Definition same_flags (s s' : cbs) : Prop := forall h, hostFlags <$> hosts s' !! h = hostFlags <$> hosts s !! h.

Lemma same_flags_has s s' h b : same_flags s s' -> host_has s' h b = host_has s h b.
Proof.
  intros E. specialize (E h). unfold host_has. destruct (hosts s !! h), (hosts s' !! h); try done. cbn in E. by injection E as ->.
Qed.
Lemma same_flags_trans s1 s2 s3 : same_flags s1 s2 -> same_flags s2 s3 -> same_flags s1 s3.
Proof. intros E1 E2 h. by rewrite E2, E1. Qed.
Lemma frame_flags ft fl fc X s s' : frame ft fl fc X s s' -> same_flags s s'.
Proof.
  intros F h. pose proof (fr_hosts _ _ _ _ _ _ F h) as E. destruct (hosts s !! h), (hosts s' !! h); try done.
  cbn in E |- *. injection E as E. by rewrite E.
Qed.

Lemma host_lookup_flags s h v : hosts s !! h = Some v -> forall b, host_has s h b = has (hostFlags v) b.
Proof. intros E b. unfold host_has. by rewrite E. Qed.

(** ** Marking *)

Lemma wp_mark_breaking f n KC KF A U hx flag cb l (Q : unit -> world -> Prop) w :
  ok KC KF A U (st w) -> chain (cn (st w)) cb l -> NoDup l -> (forall x, x ∈ l -> x ∈ U) -> (length l <= n)%nat ->
  (forall s', ok KC KF A U s' -> frame true true true (list_to_set l) (st w) s' -> (forall x, same_name (st w) s' x) ->
     (forall x, CB s' x = if bool_decide (x ∈ l) && to_break hx flag (promise_of (st w) x)
        then with_flags (Z.lor (cb_flags (CB (st w) x)) CBFLAG_BREAKING) (CB (st w) x) else CB (st w) x) ->
     FE s' = FE (st w) -> HashTable s' = HashTable (st w) -> Q tt (set_st s' w)) ->
  wp f (mark_breaking n cb hx flag) Q w.
Proof.
  revert cb l w. induction n as [|n IH]; intros cb l w Hok Hl Hnd HU Hn HQ; destruct l as [|c l]; cbn [chain] in Hl.
  1, 3: subst cb; apply wp_ret; change (Q tt w); replace w with (set_st (st w) w) by (by destruct w); by apply HQ.
  { cbn in Hn. lia. }
  destruct Hl as (-> & Hc0 & Hl). cbn [mark_breaking]. rewrite (proj2 (Z.eqb_neq c 0) Hc0). assert (HcU : c ∈ U) by (apply HU; left).
  pose proof (ok_tab _ _ _ _ _ _ Hok HcU) as Hcin. apply NoDup_cons in Hnd as [Hcl Hnd].
  apply wp_bind, wp_cb_at; [done|]. set (s := st w) in *. apply wp_bind.
  set (b := to_break hx flag (promise_of s c)). set (fl := Z.lor (cb_flags (CB s c)) CBFLAG_BREAKING).
  eapply (wp_mono _ _ (fun _ w' => exists s1, w' = set_st s1 w /\ ok KC KF A U s1 /\ frame true true true {[c]} s s1
    /\ FE s1 = FE s /\ HashTable s1 = HashTable s /\ forall x, CB s1 x = if (x =? c) && b then with_flags fl (CB s x) else CB s x)).
  { apply wp_when; intros E; change (b = true) in E || change (b = false) in E; rewrite E.
    - apply wp_cb_put; [done|]. fold s fl. eexists. split; [done|].
      pose proof (changes_info KC KF A U s c (cb_status (CB s c)) fl Hok) as H. destruct H as [H1 H2 _ _ _].
      { intros Hc Hlat. by apply (fp_later _ _ _ (cp_file _ _ _ _ _ _ (ok_c _ _ _ _ _ Hok))). }
      replace (with_status (cb_status (CB s c)) (CB s c)) with (CB s c) in H1, H2 by by destruct (CB s c).
      split_and!; try done. intros x. cbsimp. rewrite andb_true_r. by destruct (Z.eqb_spec x c) as [->|].
    - exists s. split; [by destruct w|]. split_and!; try done. intros x. by rewrite andb_false_r. }
  intros _ w1 (s1 & -> & Hok1 & F1 & EF & EH & EC).
  assert (Ecx : forall x, cnext (CB s1 x) = cnext (CB s x)) by (intros x; rewrite EC; by destruct (_ && b)).
  apply (IH _ l); cbsimp; [done| |done|intros x Hx; apply HU; by right|cbn in Hn; lia|].
  { revert Hl. apply chain_ext. intros x _. symmetry. apply Ecx. }
  intros s' Hok' F' N' EC' EF' EH'. apply HQ; try done.
  - change (list_to_set (c :: l)) with ({[c]} ∪ list_to_set (C := gset Z) l). apply (cb_frame_trans _ _ _ _ _ _ _ _ _ _ _ F1 F').
  - intros x. unfold same_name. by rewrite EF', EF.
  - intros x. rewrite EC', EC. destruct (Z.eqb_spec x c) as [->|Hne].
    + rewrite (bool_decide_false (c ∈ l)), (bool_decide_true (c ∈ c :: l)) by (done || left). cbn [andb]. fold s b. by destruct b.
    + cbn [andb]. assert (Hp : promise_of s1 x = promise_of s x).
      { unfold promise_of, fe_fid, later. rewrite EC, EF. by destruct (Z.eqb_spec x c). }
      rewrite Hp. replace (bool_decide (x ∈ c :: l)) with (bool_decide (x ∈ l)); [done|].
      apply bool_decide_ext. rewrite elem_of_cons. tauto.
  - by rewrite EF'.
  - by rewrite EH'.
Qed.

(** ** Collecting *)

(** What becomes of a promise when its file is broken, and whom to tell. *)
Definition fate (s : cbs) (p : promise) : option promise :=
  if marked p then if host_has s (p_host p) VENUSDOWN then Some (delayed p) else None else Some p.
Definition target (s : cbs) (p : promise) : option cbstruct :=
  if marked p && negb (host_has s (p_host p) VENUSDOWN) && negb (host_has s (p_host p) HOSTDELETED)
  then Some (p_host p, p_queue p) else None.

(** The call-backs [l] have met their fate. *)
Record collected (l : list Z) (U : gset Z) (s : cbs) (U' : gset Z) (s' : cbs) : Prop := {
  co_sub : U' ⊆ U;
  co_done : forall x, x ∈ l -> match fate s (promise_of s x) with None => x ∉ U' | Some p => x ∈ U' /\ promise_of s' x = p end;
  co_rest : forall x, x ∈ U -> x ∉ l -> x ∈ U' /\ promise_of s' x = promise_of s x;
  co_flags : same_flags s s';
  co_evolves : evolves s s' /\ (hosts_ok s -> hosts_ok s');
  co_clock : clock s' = clock s
}.

Lemma collected_nil U s : collected [] U s U s.
Proof. split; try done. by intros x ?%not_elem_of_nil. Qed.

Lemma collected_trans c l U s U1 s1 U2 s2 :
  collected [c] U s U1 s1 -> collected l U1 s1 U2 s2 -> c ∉ l -> (forall x, x ∈ l -> x ∈ U) -> collected (c :: l) U s U2 s2.
Proof.
  intros [A1 A2 A3 A4 [A5 A6] A7] [B1 B2 B3 B4 [B5 B6] B7] Hc Hl. split.
  - by intros x ?%B1%A1.
  - intros x [->|Hx]%elem_of_cons.
    + specialize (A2 c ltac:(left)). destruct (fate s (promise_of s c)) as [p|]; [|intros Hx; by apply A2, B1].
      destruct A2 as [HcU E]. destruct (B3 c HcU Hc) as [HcU' E']. split; [done|]. congruence.
    + destruct (A3 x) as [HxU1 E]; [by apply Hl|intros ->%list_elem_of_singleton; done|]. specialize (B2 x Hx). rewrite E in B2.
      unfold fate in *. by rewrite (same_flags_has _ _ _ _ A4) in B2.
  - intros x Hx [Hxc Hxl]%not_elem_of_cons. destruct (A3 x Hx) as [HxU1 E]; [by rewrite list_elem_of_singleton|].
    destruct (B3 x HxU1 Hxl) as [? ?]. split; [done|]. congruence.
  - by apply (same_flags_trans _ s1).
  - split; [by apply (evolves_trans _ s1)|auto].
  - congruence.
Qed.

Lemma chain_next nx hd l x : chain nx hd l -> x ∈ l -> nx x ∈ l \/ nx x = 0.
Proof.
  intros Hl Hx. apply list_elem_of_split in Hx as (l1 & l2 & ->). destruct (chain_split _ _ _ _ _ Hl) as (H2 & _).
  destruct l2 as [|y l2]; cbn [chain] in H2; [by right|]. destruct H2 as (-> & _). left. apply elem_of_app. right. right. left.
Qed.

(** One call-back is taken off everything. *)
Lemma wp_take_off {B} f KC KF A U c (Q : B -> world -> Prop) w (K : M B) :
  ok KC KF A U (st w) -> c ∈ U ->
  (forall A' s', ok KC KF A' (U ∖ {[c]}) s' -> less A ∅ {[c]} (st w) A' s' ->
     (forall x, x <> c -> x ∉ U \/ cn (st w) x <> c -> cn s' x = cn (st w) x) -> wp f K Q (set_st s' w)) ->
  wp f (TDel c ;; HDel c ;; CDel c true ;; K) Q w.
Proof.
  intros Hok Hc HQ. pose proof (ok_file _ _ _ _ _ _ Hok Hc) as Hfe. apply ok_parts in Hok.
  apply wp_bind, (parts_TDel _ KC KF A ∅ U U U U all all); [done|done|done|]. intros s1 P1 F1.
  apply wp_bind, (parts_HDel _ KC KF A ∅ U (U ∖ {[c]}) U U all all); [done|done|done|]. cbsimp. intros s2 P2 F2.
  pose proof (frame_trans0 _ _ _ _ _ _ _ _ _ F1 F2) as F. destruct (fr_c _ _ _ _ _ _ F eq_refl) as (_ & _ & _ & G). cbn [orb] in F.
  apply wp_bind, (parts_CDel _ KC KF A ∅ U (U ∖ {[c]}) (U ∖ {[c]}) U all all); [done|done| |]; cbsimp.
  { intros _. by destruct (G c) as [_ ->]. }
  intros A' s' [P3 P4 P5 P6 _] HD. apply (HQ A').
  - split; try done. apply (homes_sub _ U); [by intros x [? _]%elem_of_difference|done].
  - rewrite <- (union_empty_l_L {[c]}). apply (less_trans _ _ _ _ _ A s2); [by apply (less_frame _ _ _ _ _ _ _ F)|].
    by apply (less_cdel _ _ _ _ _ _ _ _ _ _ _ HD).
  - intros x Hx Hor. assert (E : cn s2 x = cn (st w) x) by apply G. rewrite <- E. apply (cd_next _ _ _ _ _ _ _ _ _ _ _ HD); [done|]. by rewrite E.
Qed.

Lemma hold_same_flags s h v n : hosts s !! h = Some v -> same_flags s (set_host h (with_refCount n v) s).
Proof.
  intros Hv h'. cbsimp. destruct (decide (h' = h)) as [->|]; [by rewrite lookup_insert_eq, Hv|by rewrite lookup_insert_ne].
Qed.

(** The flag of a marked call-back is cleared, and nothing else. *)
Definition unmarked (c : Z) (s : cbs) : cbs := set_CB c (with_flags (Z.land (cb_flags (CB s c)) (Z.lnot CBFLAG_BREAKING)) (CB s c)) s.

Lemma ok_unmarked KC KF A U s c : ok KC KF A U s -> ok KC KF A U (unmarked c s).
Proof.
  intros Hok. unfold unmarked. replace (with_flags _ (CB s c)) with
    (with_flags (Z.land (cb_flags (CB s c)) (Z.lnot CBFLAG_BREAKING)) (with_status (cb_status (CB s c)) (CB s c))) by by destruct (CB s c).
  apply ok_cb_info; [done|]. intros Hc Hlat. by apply (fp_later _ _ _ (cp_file _ _ _ _ _ _ (ok_c _ _ _ _ _ Hok))).
Qed.

(** The step for a call-back whose host is down. *)
Lemma collected_down KC KF A U s c :
  ok KC KF A U s -> c ∈ U -> marked (promise_of s c) = true -> host_has s (hhead (CB s c)) VENUSDOWN = true ->
  let s' := set_CB c (with_status CB_DELAYED (CB (unmarked c s) c)) (unmarked c s) in
  ok KC KF A U s' /\ collected [c] U s U s' /\ forall x, cn s' x = cn s x.
Proof.
  intros Hok HcU Hm Hd s'. pose proof (ok_unmarked _ _ _ _ _ c Hok) as Hok1. set (s1 := unmarked c s) in *.
  pose proof (changes_info KC KF A U s1 c CB_DELAYED (cb_flags (CB s1 c)) Hok1 ltac:(done)) as [H1 H2 H3 H4 H5].
  replace (set_CB c _ s1) with s' in H1, H2, H3, H4, H5 by (unfold s'; by destruct (CB s1 c)).
  assert (Ex : forall x, x <> c -> CB s' x = CB s x).
  { intros x Hx. unfold s', s1, unmarked. cbsimp. by destruct (Z.eqb_spec x c). }
  assert (F : frame true true true {[c]} s s').
  { split; try done. intros x Hx%not_elem_of_singleton. by rewrite Ex. }
  assert (Ep : promise_of s' c = delayed (promise_of s c)).
  { rewrite H5. unfold s1, unmarked, promise_of, delayed. cbsimp. by rewrite Z.eqb_refl. }
  split; [done|]. split; [|intros x; unfold cn, s', s1, unmarked; cbsimp; upd_case; done]. split; try done.
  - intros x ->%list_elem_of_singleton. unfold fate. rewrite Hm. change (p_host (promise_of s c)) with (hhead (CB s c)). by rewrite Hd.
  - intros x Hx Hne%not_elem_of_cons. split; [done|]. destruct Hne as [Hne _]. unfold promise_of. by rewrite Ex.
  - apply (frame_evolves _ _ _ _ _ _ F).
Qed.

(** The step for a call-back that is broken; [s1] is [unmarked c s] with its host held. *)
Lemma collected_off KC KF A U s s1 c A' s' :
  c ∈ U -> marked (promise_of s c) = true -> host_has s (hhead (CB s c)) VENUSDOWN = false ->
  (forall x, x <> c -> CB s1 x = CB s x) -> FE s1 = FE s -> same_flags s s1 -> evolves s s1 /\ (hosts_ok s -> hosts_ok s1) ->
  clock s1 = clock s -> ok KC KF A' (U ∖ {[c]}) s' -> less A ∅ {[c]} s1 A' s' ->
  collected [c] U s (U ∖ {[c]}) s'.
Proof.
  intros HcU Hm Hd EC EF Hfl [He Hh] Ec Hok L. pose proof (le_frame _ _ _ _ _ _ L) as F. destruct (frame_evolves _ _ _ _ _ _ F) as [He' Hh'].
  split.
  - by intros x [? _]%elem_of_difference.
  - intros x ->%list_elem_of_singleton. unfold fate. rewrite Hm. change (p_host (promise_of s c)) with (hhead (CB s c)). rewrite Hd.
    by intros [_ []%not_elem_of_singleton]%elem_of_difference.
  - intros x Hx [Hne _]%not_elem_of_cons. assert (Hx' : x ∈ U ∖ {[c]}) by (apply elem_of_difference; split; [done|by rewrite elem_of_singleton]).
    split; [done|]. rewrite (less_promise _ _ _ _ _ _ _ _ L Hok x Hx'). unfold promise_of, fe_fid, later. by rewrite EC, EF.
  - apply (same_flags_trans _ s1); [done|]. by apply (frame_flags _ _ _ _ _ _ F).
  - split; [by apply (evolves_trans _ s1)|auto].
  - destruct (fr_time _ _ _ _ _ _ F) as [_ ->]. done.
Qed.

(** The last two steps as computations. *)
Lemma wp_break_one f KC KF A U c cba (K : list cbstruct -> M (Z * list cbstruct)) Q w :
  ok KC KF A U (st w) -> c ∈ U -> marked (promise_of (st w) c) = true ->
  (forall A' U' s', ok KC KF A' U' s' -> collected [c] U (st w) U' s' ->
     (forall x, x <> c -> x ∉ U \/ cn (st w) x <> c -> cn s' x = cn (st w) x) ->
     wp f (K (cba ++ option_list (target (st w) (promise_of (st w) c)))) Q (set_st s' w)) ->
  wp f (cb_put c (with_flags (Z.land (cb_flags (CB (st w) c)) (Z.lnot CBFLAG_BREAKING))) ;;
        do v <- host_at (hhead (CB (st w) c));
        if has (hostFlags v) VENUSDOWN then cb_put c (with_status CB_DELAYED) ;; K cba
        else
          do cba <- (if negb (has (hostFlags v) HOSTDELETED)
                     then h_Hold_r (hhead (CB (st w) c)) ;; ret (cba ++ [(hhead (CB (st w) c), thead (CB (st w) c))])
                     else ret cba);
          TDel c ;; HDel c ;; CDel c true ;; K cba) Q w.
Proof.
  intros Hok Hc Hm HK. pose proof (ok_tab _ _ _ _ _ _ Hok Hc) as Hin. destruct (ok_h _ _ _ _ _ Hok c Hc) as (_ & _ & v & Hv).
  set (s := st w) in *. apply wp_bind, wp_cb_put; [done|]. fold s. change (set_CB c _ s) with (unmarked c s).
  apply wp_bind, (wp_host_at _ _ v); [done|]. pose proof (host_lookup_flags _ _ _ Hv) as Hfl. rewrite <- !Hfl.
  assert (Et : option_list (target s (promise_of s c)) = if negb (host_has s (hhead (CB s c)) VENUSDOWN) && negb (host_has s (hhead (CB s c)) HOSTDELETED)
      then [(hhead (CB s c), thead (CB s c))] else []).
  { unfold target. rewrite Hm. cbn [andb]. change (p_host (promise_of s c)) with (hhead (CB s c)). by destruct (negb _ && negb _). }
  rewrite Et in HK. pose proof (ok_unmarked _ _ _ _ _ c Hok) as Hok1.
  assert (Ex : forall x, x <> c -> CB (unmarked c s) x = CB s x) by (intros x Hx; unfold unmarked; cbsimp; by destruct (Z.eqb_spec x c)).
  destruct (host_has s (hhead (CB s c)) VENUSDOWN) eqn:Ed; cbn [negb andb] in HK.
  - destruct (collected_down _ _ _ _ _ _ Hok Hc Hm Ed) as (Hok2 & Hco & Hcn). apply wp_bind, wp_cb_put; [done|]. cbsimp.
    rewrite app_nil_r in HK. by apply (HK A U).
  - set (h := hhead (CB s c)) in *. apply wp_bind.
    eapply (wp_mono _ _ (fun r w' => exists s1, w' = set_st s1 w /\ ok KC KF A U s1
      /\ r = cba ++ (if negb (host_has s h HOSTDELETED) then [(h, thead (CB s c))] else [])
      /\ (forall x, x <> c -> CB s1 x = CB s x) /\ FE s1 = FE s /\ same_flags s s1 /\ (evolves s s1 /\ (hosts_ok s -> hosts_ok s1))
      /\ clock s1 = clock s)).
    { destruct (negb (host_has s h HOSTDELETED)).
      - apply wp_bind, (wp_host_put _ _ _ v); [done|]. apply wp_ret. eexists. split; [done|].
        split; [by apply ok_host_put|]. split; [done|]. split; [done|]. split; [done|].
        split; [exact (hold_same_flags (unmarked c s) h v _ Hv)|]. split; [|done].
        destruct (set_host_evolves (unmarked c s) h (with_refCount (u32 (refCount v + 1)) v)) as [[E1 E2 E3] E4]. split; [by split|].
        intros [H1 H2]. apply E4. by split.
      - apply wp_ret. exists (unmarked c s). rewrite app_nil_r. split_and!; try done; try (by split). intros [H1 H2]. by split. }
    intros r w1 (s1 & -> & Hok2 & -> & EC & EF & Hsf & Hev & Ecl). apply (wp_take_off _ KC KF A U); [done|done|]. cbsimp.
    intros A' s' Hok' L Hcn. assert (Hcn1 : forall x, x <> c -> cn s1 x = cn s x) by (intros x Hx; unfold cn; by rewrite EC).
    apply (HK A' (U ∖ {[c]})); [done|by apply (collected_off KC KF A U s s1 c A')|].
    intros x Hx Hor. rewrite Hcn, Hcn1; [done|done|done|]. by rewrite Hcn1.
Qed.

Definition targets (s : cbs) (l : list Z) : list cbstruct := omap (fun x => target s (promise_of s x)) l.

Lemma targets_same c l U s U1 s1 :
  collected [c] U s U1 s1 -> c ∉ l -> (forall x, x ∈ l -> x ∈ U) -> targets s1 l = targets s l.
Proof.
  intros [_ _ A3 A4 _ _] Hc Hl. unfold targets. induction l as [|x l IH]; [done|]. apply not_elem_of_cons in Hc as [Hxc Hc].
  cbn. rewrite IH; [|done|intros y Hy; apply Hl; by right].
  destruct (A3 x) as [_ ->]; [apply Hl; left|rewrite list_elem_of_singleton; congruence|].
  unfold target. by rewrite !(same_flags_has _ _ _ _ A4).
Qed.

Lemma wp_break_collect f n KC KF A U cb l cba (Q : Z * list cbstruct -> world -> Prop) w :
  ok KC KF A U (st w) -> chain (cn (st w)) cb l -> NoDup l -> (forall x, x ∈ l -> x ∈ U) -> (length l <= n)%nat ->
  (Z.of_nat (length cba) <= MAX_CB_HOSTS) ->
  (forall A' U' s' l1 l2 cb', l = l1 ++ l2 -> ok KC KF A' U' s' -> collected l1 U (st w) U' s' -> chain (cn s') cb' l2 ->
     (forall x, x ∈ l2 -> x ∈ U') ->
     (cb' <> 0 -> Z.of_nat (length (cba ++ targets (st w) l1)) = MAX_CB_HOSTS) ->
     Z.of_nat (length (cba ++ targets (st w) l1)) <= MAX_CB_HOSTS ->
     Q (cb', cba ++ targets (st w) l1) (set_st s' w)) ->
  wp f (break_collect n cb cba) Q w.
Proof.
  revert A U cb l cba w. induction n as [|n IH]; intros A U cb l cba w Hok Hl Hnd HU Hn Hcba HQ.
  all: assert (Hstop : (cb = 0 \/ Z.of_nat (length cba) = MAX_CB_HOSTS) -> Q (cb, cba) w).
  1, 3: intros Hs; replace w with (set_st (st w) w) by (by destruct w); rewrite <- (app_nil_r cba); apply (HQ A U (st w) [] l cb); try done;
    [apply collected_nil|intros Hcb; cbn [targets omap]; rewrite app_nil_r; by destruct Hs|cbn [targets omap]; by rewrite app_nil_r].
  { destruct l as [|c l]; [|cbn in Hn; lia]. cbn [chain] in Hl. subst cb. cbn [break_collect]. apply wp_ret, Hstop. by left. }
  cbn [break_collect]. destruct (Z.eqb_spec cb 0) as [->|Hcb]; [apply wp_ret, Hstop; by left|].
  destruct (Z.leb_spec MAX_CB_HOSTS (Z.of_nat (length cba))); cbn [orb]; [apply wp_ret, Hstop; right; lia|].
  destruct l as [|c l]; cbn [chain] in Hl; [done|]. destruct Hl as (-> & _ & Hl). apply NoDup_cons in Hnd as [Hcl Hnd].
  assert (HcU : c ∈ U) by (apply HU; left). assert (HUl : forall x, x ∈ l -> x ∈ U) by (intros x Hx; apply HU; by right).
  assert (Hlen : (length l <= n)%nat) by (cbn in Hn; lia).
  apply wp_bind, wp_cb_at; [by apply (ok_tab _ _ _ _ _ _ Hok)|]. change (negb (Z.land _ _ =? 0)) with (marked (promise_of (st w) c)).
  assert (Hnext : forall cba' A' U' s', ok KC KF A' U' s' -> collected [c] U (st w) U' s' -> (forall x, x ∈ l -> x ∈ U') ->
    cba' = cba ++ option_list (target (st w) (promise_of (st w) c)) -> chain (cn s') (cn (st w) c) l ->
    wp f (break_collect n (cn (st w) c) cba') Q (set_st s' w)).
  { intros cba' A' U' s' Hok' Hco HUl' -> Hl'.
    assert (Elen : Z.of_nat (length (cba ++ option_list (target (st w) (promise_of (st w) c)))) <= MAX_CB_HOSTS)
      by (rewrite length_app; destruct (target _ _); unfold option_list; cbn [option_rect length]; lia).
    apply (IH A' U' _ l); cbsimp; try done. intros A2 U2 s2 l1 l2 cb' -> Hok2 Hco2 Hl2 HU2 Hfull Hmax.
    assert (Et : targets s' l1 = targets (st w) l1).
    { apply (targets_same c l1 U (st w) U' s'); [done|intros Hx; apply Hcl, elem_of_app; by left|intros x Hx; apply HUl, elem_of_app; by left]. }
    rewrite Et, <- app_assoc in *. replace (option_list (target (st w) (promise_of (st w) c)) ++ targets (st w) l1) with (targets (st w) (c :: l1)) in *
      by (unfold targets; cbn [omap list_omap]; by destruct (target _ _)).
    apply (HQ A2 U2 s2 (c :: l1) l2 cb'); try done. apply (collected_trans c l1 U (st w) U' s'); [done|done| |].
    - intros Hx. apply Hcl, elem_of_app. by left.
    - intros x Hx. apply HUl, elem_of_app. by left. }
  destruct (marked (promise_of (st w) c)) eqn:Em.
  - apply (wp_break_one f KC KF A U c cba (fun r => break_collect n (cn (st w) c) r)); [done|done|done|].
    intros A' U' s' Hok' Hco Hcn. assert (HUl' : forall x, x ∈ l -> x ∈ U').
    { intros x Hx. apply (co_rest _ _ _ _ _ Hco); [by apply HUl|]. intros ->%list_elem_of_singleton. done. }
    apply (Hnext _ A' U'); try done. apply (chain_ext (cn (st w))); [|done]. intros x Hx. symmetry. apply Hcn; [by intros ->|]. right.
    intros E. destruct (chain_next _ _ _ _ Hl Hx) as [Hy|Hy]; congruence.
  - replace w with (set_st (st w) w) by by destruct w. apply (Hnext _ A U); try done.
    + split; try done. intros x ->%list_elem_of_singleton. unfold fate. by rewrite Em.
    + unfold target. rewrite Em. by rewrite app_nil_r.
Qed.
