(* ===== verification/CbHandlers.v ===== *)
(** * Call-backs: no handler that breaks call-backs panics

    The continuation of [CbSafe]: [BreakCallBack], [BreakDelayedCallBacks_r],
    [BreakVolumeCallBacksLater], [BreakLaterCallBacks] and what they call. *)

From stdpp Require Import prelude list gmap sorting.
From Stdlib Require Import ZArith Lia ZifyBool.
From S2P Require Import Prelude ByteMem CbTab Callback CbRing CbOk CbFile CbOps CbAdd CbInv CbSafe CbBreak.

#[local] Open Scope Z_scope.
#[local] Open Scope cb_scope.

#[local] Hint Resolve safe_AddCallBack1_r : callbacks.

(** ** Telling the hosts *)

Lemma safe_MultiBreakCallBackAlternateAddress f KC KF h fid w :
  inv KC KF w -> known (st w) h -> safe f KC KF (MultiBreakCallBackAlternateAddress h fid) anything w.
Proof.
  intros Hi Hk. unfold MultiBreakCallBackAlternateAddress. auto_step. auto_step as v. destruct (negb _); [by apply safe_ret|].
  auto_step as alone. destruct alone; [by apply safe_ret|]. auto_step. auto_step. by apply safe_answer.
Qed.
#[local] Hint Resolve safe_MultiBreakCallBackAlternateAddress : callbacks.

Lemma safe_arrives f KC KF l w :
  inv KC KF w -> Forall (held (st w)) l ->
  safe f KC KF (arrives l) (fun r s => match r with None => True | Some (e, l') => held s e /\ Forall (held s) l' end) w.
Proof.
  intros Hi Hl. unfold safe, wp, arrives. destruct l as [|d l]; [split; [done|]; split; [apply evolves_refl|done]|].
  split; [by apply (inv_same _ _ w)|]. split; [apply evolves_refl|]. cbn [st]. set (k := match order w with [] => _ | _ => _ end).
  rewrite Forall_forall in Hl. split.
  - apply Hl. destruct (nth_in_or_default k (d :: l) d) as [Hin| ->]; [by apply list_elem_of_In|left].
  - apply Forall_forall. intros x [Hx|Hx]%elem_of_app; apply Hl;
      [by apply subseteq_take in Hx|by apply (subseteq_drop (S k) (d :: l)) in Hx].
Qed.

Lemma safe_multi_rx KC KF fuel n l fid w :
  inv KC KF w -> Forall (held (st w)) l -> safe True KC KF (multi_rx fuel n l fid) anything w.
Proof.
  revert l w. induction n as [|n IH]; intros l w Hi Hl; cbn [multi_rx]; [by apply safe_done|].
  eapply safe_bind; [by apply safe_arrives|]. intros r w1 Hi1 _ Hr. destruct r as [[[hp idx] l']|]; [|by apply safe_done].
  destruct Hr as [[Hk Hidx] Hl']. cbn [fst snd] in Hk, Hidx. auto_step as err. eapply (safe_bind _ _ _ _ _ _ _ anything).
  - destruct (err && _); [|by apply safe_done]. auto_step as down. apply safe_when; [done| |done]. intros _.
    unfold h_Lock_r. auto_step. auto_step. auto_step as v. eapply (safe_bind _ _ _ _ _ _ _ anything); [|intros ? w6 Hi6 E6 _; by apply safe_unlocked].
    apply safe_when; [done| |done]. intros _. auto_step. eapply safe_bind; [by apply safe_AddCallBack1_r|]. intros ? w7 Hi7 E7 _. by apply safe_done.
  - intros ? w3 Hi3 E3 _. evolve E3. by apply IH.
Qed.

Lemma safe_not_deleted f KC KF l w :
  inv KC KF w -> Forall (held (st w)) l -> safe f KC KF (not_deleted l) (fun r s => Forall (held s) r) w.
Proof.
  revert w. induction l as [|e l IH]; intros w Hi Hl; cbn [not_deleted]; [apply safe_ret; [done|by apply Forall_nil]|].
  pose proof Hl as [[Hk _] _]%Forall_cons. auto_step as v. pose proof Hl as [He Hl']%Forall_cons.
  eapply safe_bind; [by apply IH|]. intros r w2 Hi2 E2 Hr. evolve E2. apply safe_ret; [done|]. apply Forall_cons in Hl as [He' _].
  destruct (has _ _); [done|by apply Forall_cons].
Qed.

Lemma safe_send_all f KC KF l fid w : inv KC KF w -> safe f KC KF (send_all l fid) anything w.
Proof.
  revert w. induction l as [|e l IH]; intros w Hi; cbn [send_all]; [by apply safe_done|]. auto_step. by apply IH.
Qed.

Lemma safe_release_all f KC KF l w : inv KC KF w -> Forall (held (st w)) l -> safe f KC KF (release_all l) anything w.
Proof.
  revert w. induction l as [|e l IH]; intros w Hi Hl; cbn [release_all]; [by apply safe_done|].
  apply Forall_cons in Hl as [[Hk Hq] Hl]. auto_step. by apply IH.
Qed.

Lemma safe_MultiBreakCallBack_r KC KF fuel cba fid w :
  inv KC KF w -> Forall (held (st w)) cba -> Z.of_nat (length cba) <= MAX_CB_HOSTS ->
  safe True KC KF (MultiBreakCallBack_r fuel cba fid) anything w.
Proof.
  intros Hi Hl Hlen. unfold MultiBreakCallBack_r. rewrite (proj2 (Z.ltb_ge _ _) Hlen).
  assert (Hs : Forall (held (st w)) (merge_sort CompareCBA cba)) by by rewrite merge_sort_Permutation.
  eapply safe_bind; [by apply safe_not_deleted|]. intros conns w1 Hi1 E1 Hc. evolve E1. cbn beta in Hc.
  eapply (safe_bind _ _ _ _ _ _ _ anything).
  - destruct conns as [|e conns]; [by apply safe_done|]. eapply safe_bind; [by apply safe_send_all|]. intros ? w2 Hi2 E2 _. evolve E2.
    auto_step. eapply safe_bind; [by apply safe_multi_rx|]. intros ? w4 Hi4 E4 _. by apply safe_unlocked.
  - intros ? w2 Hi2 E2 _. evolve E2. eapply safe_bind; [by apply safe_release_all|]. intros ? w3 Hi3 E3 _. by apply safe_unlocked.
Qed.

(** ** Breaking the call-backs of a file *)

Lemma inv_lift {B} f KC KF (m : M B) (P : B -> cbs -> Prop) w :
  inv KC KF w ->
  (forall OC OF A U, inv_with KC KF OC OF A U w -> ok (KC ∪ OC) (KF ∪ OF) A U (st w) -> safe f KC KF m P w) -> safe f KC KF m P w.
Proof. intros (OC & OF & A & U & Hi) H. apply (H OC OF A U); [done|apply Hi]. Qed.

Lemma targets_held KC KF A U s s' l :
  ok KC KF A U s -> (forall x, x ∈ l -> x ∈ U) -> evolves s s' -> Forall (held s') (targets s l).
Proof.
  intros Hok Hl E. apply Forall_forall. intros e [x [Hx Ht]]%list_elem_of_omap. unfold target in Ht.
  destruct (marked _ && _ && _); [|done]. injection Ht as <-. destruct (ok_h _ _ _ _ _ Hok x (Hl x Hx)) as (_ & Hq & Hk).
  split; [by apply (ev_known _ _ E)|done].
Qed.

(** What [nothing_to_break] and the loop behind it find: a file and its call-backs. *)
Lemma safe_FindFE f KC KF fid w :
  inv KC KF w ->
  safe f KC KF (FindFE fid) (fun fe s => fe = 0 \/ fe_fid s fe = fid /\ later s fe = false) w.
Proof.
  intros Hi. apply (inv_lift _ _ _ _ _ _ Hi). intros OC OF A U Hiw Hok. apply (wp_FindFE _ _ A); [by apply Hok| |].
  - intros _. split; [done|]. split; [apply evolves_refl|by left].
  - intros fe _ ? ?. split; [done|]. split; [apply evolves_refl|by right].
Qed.

(** [cb] is a place on the chain of a file. *)
Definition on_chain (KC KF : gset Z) (cb : Z) (w : world) : Prop :=
  exists OC OF A U l, inv_with KC KF OC OF A U w /\ chain (cn (st w)) cb l /\ NoDup l /\ forall x, x ∈ l -> x ∈ U.

Lemma on_chain_first KC KF OC OF A U fe w :
  inv_with KC KF OC OF A U w -> fe ∈ A -> on_chain KC KF (firstcb (FE (st w) fe)) w.
Proof.
  intros Hi Hfe. pose proof (iw_ok _ _ _ _ _ _ _ Hi) as Hok.
  destruct (fp_file _ _ _ (cp_file _ _ _ _ _ _ (ok_c _ _ _ _ _ Hok)) fe) as (l & Hl & Hnd & _ & Hm); [apply elem_of_union; by left|].
  exists OC, OF, A, U, l. split_and!; try done. intros x Hx. by apply Hm.
Qed.

Lemma chain_tab KC KF A U s l : ok KC KF A U s -> NoDup l -> (forall x, x ∈ l -> x ∈ U) -> (length l <= Z.to_nat (nblks s))%nat.
Proof. intros Hok Hnd HU. apply in_tab_nodup; [done|]. intros x Hx. apply (ok_tab _ _ _ _ _ _ Hok). auto. Qed.

(** Finding the file, and the head of its chain unless there is nothing to do. *)
Lemma wp_find_to_break f KC KF fid hx flag (Q : unit -> world -> Prop) w (K : Z -> M unit) :
  inv KC KF w -> Q tt w ->
  (forall OC OF A U fe, inv_with KC KF OC OF A U w -> fe ∈ A -> fe_fid (st w) fe = fid -> later (st w) fe = false -> firstcb (FE (st w) fe) <> 0 -> wp f (K fe) Q w) ->
  wp f (do fe <- FindFE fid;
        if fe =? 0 then ret tt
        else do nothing <- nothing_to_break fe hx flag; if nothing then ret tt else K fe) Q w.
Proof.
  intros (OC & OF & A & U & Hi) H0 HK. pose proof (iw_ok _ _ _ _ _ _ _ Hi) as Hok.
  apply wp_bind, (wp_FindFE _ _ A); [by apply Hok|by intros _; apply wp_ret|]. intros fe Hfe Hlat Hfid.
  pose proof (ok_fe_tab _ _ _ _ _ _ Hok Hfe) as Hin. rewrite (proj2 (Z.eqb_neq fe 0)) by (unfold in_tab in Hin; lia).
  apply wp_bind. unfold nothing_to_break. apply wp_bind, wp_fe_at; [done|]. destruct (_ =? 0) eqn:E0; [by apply wp_ret, wp_ret|].
  destruct (fp_file _ _ _ (cp_file _ _ _ _ _ _ (ok_c _ _ _ _ _ Hok)) fe) as (l & Hl & Hnd & _ & Hm); [apply elem_of_union; by left|].
  destruct l as [|c l]; cbn [chain] in Hl; [lia|]. destruct Hl as (E1 & _). rewrite E1.
  apply wp_bind, wp_cb_at; [apply (ok_tab _ _ _ _ _ _ Hok); apply (Hm c); left|]. apply wp_ret.
  destruct (_ && _); [by apply wp_ret|]. apply (HK OC OF A U); try done. lia.
Qed.

Lemma safe_break_loop KC KF fuel cb fid hx flag w :
  on_chain KC KF cb w -> safe True KC KF (break_loop fuel cb fid hx flag) anything w.
Proof.
  revert cb w. induction fuel as [|fuel IH]; intros cb w (OC & OF & A & U & l & Hi & Hl & Hnd & HU); cbn [break_loop].
  all: assert (Hinv : inv KC KF w) by (by exists OC, OF, A, U).
  { destruct (cb =? 0); [by apply safe_done|done]. }
  destruct (cb =? 0); [by apply safe_done|]. pose proof (iw_ok _ _ _ _ _ _ _ Hi) as Hok. apply wp_bind, wp_get.
  apply wp_bind, (wp_break_collect _ _ (KC ∪ OC) (KF ∪ OF) A U cb l []); try done; [by apply (chain_tab _ _ _ _ _ _ Hok)|].
  intros A' U' s' l1 l2 cb' -> Hok' Hco Hl2 HU2 _ Hmax. destruct (co_evolves _ _ _ _ _ Hco) as [He Hh]. cbn [app] in *.
  assert (Hi' : inv_with KC KF OC OF A' U' (set_st s' w)) by (split; [apply Hi|done|apply Hh, Hi|apply Hi]).
  assert (HT : Forall (held s') (targets (st w) l1)).
  { apply (targets_held _ _ _ _ _ _ _ Hok); [|done]. intros x Hx. apply HU, elem_of_app. by left. }
  destruct (targets (st w) l1) as [|e cba].
  - eapply wp_mono; [apply (IH cb')|].
    + exists OC, OF, A', U', l2. split_and!; try done. by apply NoDup_app in Hnd as (_ & _ & ?).
    + intros b w' (H1 & H2 & H3). split; [done|]. split; [by apply (evolves_trans _ s')|done].
  - apply (safe_rebase _ _ _ _ _ _ (set_st s' w) He). eapply safe_bind; [apply safe_MultiBreakCallBack_r; [by exists OC, OF, A', U'|done|done]|].
    intros ? w2 Hi2 E2 _. apply (wp_find_to_break _ KC KF _ _ _ _ _ (fun fe => do f <- fe_at fe; break_loop fuel (firstcb f) fid hx flag)); [done| |].
    + split; [done|]. by split; [apply evolves_refl|].
    + intros OC2 OF2 A2 U2 fe Hi2' Hfe _ _ _. apply wp_bind, wp_fe_at; [by apply (ok_fe_tab _ _ _ _ _ _ (iw_ok _ _ _ _ _ _ _ Hi2'))|].
      by apply IH, (on_chain_first _ _ OC2 OF2 A2 U2).
Qed.

Lemma safe_BreakCallBack KC KF fuel xhost fid flag w :
  inv KC KF w -> safe True KC KF (BreakCallBack fuel xhost fid flag) anything w.
Proof.
  intros Hinv. unfold BreakCallBack. set (hx := match xhost with Some h => h | None => 0 end).
  apply (wp_find_to_break _ KC KF _ _ _ _ _ (fun fe => do n <- table_size; do f <- fe_at fe; mark_breaking n (firstcb f) hx flag ;;
    do f <- fe_at fe; if firstcb f =? 0 then panic else break_loop fuel (firstcb f) fid hx flag)); [done| |].
  { split; [done|]. by split; [apply evolves_refl|]. }
  intros OC OF A U fe Hi Hfe _ _ H0. pose proof (iw_ok _ _ _ _ _ _ _ Hi) as Hok. pose proof (ok_fe_tab _ _ _ _ _ _ Hok Hfe) as Hin.
  apply wp_bind, wp_get, wp_bind, wp_fe_at; [done|].
  destruct (fp_file _ _ _ (cp_file _ _ _ _ _ _ (ok_c _ _ _ _ _ Hok)) fe) as (l & Hl & Hnd & _ & Hm); [apply elem_of_union; by left|].
  assert (HU : forall x, x ∈ l -> x ∈ U) by (intros x Hx; by apply Hm).
  apply wp_bind, (wp_mark_breaking _ _ (KC ∪ OC) (KF ∪ OF) A U _ _ _ l); try done; [by apply (chain_tab _ _ _ _ _ _ Hok)|].
  intros s' Hok' F' _ _ EF _. destruct (frame_evolves _ _ _ _ _ _ F') as [He Hh].
  assert (Hi' : inv_with KC KF OC OF A U (set_st s' w)) by (split; [apply Hi|done|apply Hh, Hi|apply Hi]).
  apply wp_bind, wp_fe_at; [by apply (ok_fe_tab _ _ _ _ _ _ Hok')|]. apply (safe_rebase _ _ _ _ _ _ (set_st s' w) He). cbsimp.
  rewrite EF, (proj2 (Z.eqb_neq _ 0) H0), <- EF. by apply safe_break_loop, (on_chain_first _ _ OC OF A U).
Qed.

(** ** The delayed call-backs of a host *)

Lemma safe_XCallBackBulk_r f KC KF n h fids w : inv KC KF w -> safe f KC KF (XCallBackBulk_r n h fids) anything w.
Proof.
  revert fids w. induction n as [|n IH]; intros fids w Hi; [by apply safe_ret|]. destruct fids as [|fid fids]; [by apply safe_ret|].
  cbn [XCallBackBulk_r]. auto_step. auto_step. auto_step as code. eapply safe_bind; [by apply IH|]. intros r w4 Hi4 _ _. by apply safe_ret.
Qed.

(** The next call-back of the same host; a call-back followed by itself is the only one. *)
Lemma list_next KC KF A U s h v c :
  ok KC KF A U s -> hosts s !! h = Some v -> c ∈ U -> hhead (CB s c) = h ->
  hn s c ∈ U /\ hhead (CB s (hn s c)) = h /\ (hn s c = c -> cblist v = c).
Proof.
  intros Hok Hv Hc Hh. destruct (ok_l _ _ _ _ _ Hok h v Hv I) as (l & Hr & Hnd & Hm). assert (Hcl : c ∈ l) by by apply Hm.
  destruct (ring_neighbours _ _ _ _ _ Hr Hcl) as [[Hn1 Hn2]%Hm _]. split; [done|]. split; [done|]. intros E.
  destruct Hr as [Hcyc Hhd]. destruct (cyc_at _ _ _ _ Hcyc Hcl) as (l1 & l2 & -> & Hcyc').
  destruct (cyc_next _ _ _ _ Hcyc') as [E' _]. rewrite E in E'. destruct (l2 ++ l1) as [|b r] eqn:El.
  - apply app_eq_nil in El as [-> ->]. done.
  - cbn in E'. subst b. exfalso. rewrite Permutation_app_comm in Hnd. cbn [app] in Hnd. rewrite El in Hnd.
    apply NoDup_cons in Hnd as [Hx _]. apply Hx. left.
Qed.

Lemma wp_take_off_list {B} f KC KF A U c (Q : B -> world -> Prop) w (K : M B) :
  ok KC KF A U (st w) -> c ∈ U ->
  (forall A' s', ok KC KF A' (U ∖ {[c]}) s' -> less A ∅ {[c]} (st w) A' s' -> wp f K Q (set_st s' w)) ->
  wp f (HDel c ;; TDel c ;; CDel c true ;; K) Q w.
Proof.
  intros Hok Hc HQ. pose proof (ok_file _ _ _ _ _ _ Hok Hc) as Hfe. apply ok_parts in Hok.
  apply wp_bind, (parts_HDel _ KC KF A ∅ U U U U all all); [done|done|done|]. intros s1 P1 F1.
  apply wp_bind, (parts_TDel _ KC KF A ∅ U U (U ∖ {[c]}) U all all); [done|done|done|]. cbsimp. intros s2 P2 F2.
  pose proof (frame_trans0 _ _ _ _ _ _ _ _ _ F1 F2) as F. destruct (fr_c _ _ _ _ _ _ F eq_refl) as (_ & _ & _ & G). cbn [orb] in F.
  apply wp_bind, (parts_CDel _ KC KF A ∅ U (U ∖ {[c]}) (U ∖ {[c]}) U all all); [done|done| |]; cbsimp.
  { intros _. by destruct (G c) as [_ ->]. }
  intros A' s' [P3 P4 P5 P6 _] HD. apply (HQ A').
  - split; try done. apply (homes_sub _ U); [by intros x [? _]%elem_of_difference|done].
  - rewrite <- (union_empty_l_L {[c]}). apply (less_trans _ _ _ _ _ A s2); [by apply (less_frame _ _ _ _ _ _ _ F)|].
    by apply (less_cdel _ _ _ _ _ _ _ _ _ _ _ HD).
Qed.

Lemma safe_delayed_collect KC KF n h cbi fids OC OF A U w :
  inv_with KC KF OC OF A U w -> cbi ∈ U -> hhead (CB (st w) cbi) = h ->
  safe True KC KF (delayed_collect n h cbi fids) anything w.
Proof.
  revert cbi fids A U w. induction n as [|n IH]; intros cbi fids A U w Hi Hc Hh; [done|]. cbn [delayed_collect].
  pose proof (iw_ok _ _ _ _ _ _ _ Hi) as Hok. assert (Hinv : inv KC KF w) by (by exists OC, OF, A, U).
  destruct (ok_h _ _ _ _ _ Hok cbi Hc) as (Hin & _ & v & Hv). rewrite Hh in Hv.
  apply wp_bind, (wp_host_at _ _ v); [done|]. apply wp_bind, wp_cb_at; [done|].
  destruct (list_next _ _ _ _ _ _ _ _ Hok Hv Hc Hh) as (Hn & Hnh & Hself). unfold hn in Hn, Hnh, Hself. set (nx := hnext (CB (st w) cbi)) in *.
  apply wp_bind. destruct (_ =? CB_DELAYED).
  - apply wp_bind, wp_fe_at; [apply (ok_fe_tab _ _ _ _ _ _ Hok), (ok_file _ _ _ _ _ _ Hok Hc)|].
    apply (wp_take_off_list _ (KC ∪ OC) (KF ∪ OF) A U); [done|done|]. intros A' s' Hok' L. apply wp_ret. set (fids' := fids ++ _).
    destruct (frame_evolves _ _ _ _ _ _ (le_frame _ _ _ _ _ _ L)) as [He Hhs].
    assert (Hi' : inv_with KC KF OC OF A' (U ∖ {[cbi]}) (set_st s' w)) by (split; [apply Hi|done|apply Hhs, Hi|apply Hi]).
    apply (safe_rebase _ _ _ _ _ _ (set_st s' w) He). destruct (_ && _) eqn:Eb; [|apply safe_ret; [by exists OC, OF, A', (U ∖ {[cbi]})|done]].
    apply (IH _ _ A' (U ∖ {[cbi]})); [done| |].
    + apply elem_of_difference. split; [done|]. apply not_elem_of_singleton. intros E. specialize (Hself E). lia.
    + cbsimp. destruct (frame_hd _ _ _ _ _ nx (le_frame _ _ _ _ _ _ L)) as [_ ->]. done.
  - apply wp_ret. destruct (_ && _); [by apply (IH _ _ A U)|by apply safe_ret].
Qed.

Lemma safe_break_delayed KC KF fuel h w : inv KC KF w -> known (st w) h -> safe True KC KF (break_delayed fuel h) anything w.
Proof.
  revert w. induction fuel as [|fuel IH]; intros w Hi Hk; cbn [break_delayed].
  all: eapply safe_bind; [by apply safe_host_at|]; intros v w1 Hi1 E1 Hv; evolve E1; cbn beta in Hv; destruct (has _ _); [by apply safe_done|].
  { done. }
  apply wp_bind, (wp_host_put _ _ _ v); [done|]. set (s2 := set_host h _ _).
  destruct Hi1 as (OC & OF & A & U & Hiw). pose proof (iw_ok _ _ _ _ _ _ _ Hiw) as Hok.
  destruct (set_host_evolves (st w1) h (clear_flag VENUSDOWN v)) as [He Hh]. fold s2 in He, Hh.
  assert (Hok2 : ok (KC ∪ OC) (KF ∪ OF) A U s2) by (by apply ok_host_put).
  assert (Hi2 : inv_with KC KF OC OF A U (set_st s2 w1)) by (split; [apply Hiw|done|apply Hh, Hiw|apply Hiw]).
  assert (Hi2' : inv KC KF (set_st s2 w1)) by (by exists OC, OF, A, U).
  assert (Hk2 : known (st (set_st s2 w1)) h) by by apply (ev_known _ _ He).
  apply (safe_rebase _ _ _ _ _ _ (set_st s2 w1) He). destruct (Z.eqb_spec (cblist v) 0) as [|E0]; [by apply safe_done|].
  apply wp_bind, wp_get. eapply safe_bind.
  { destruct (ok_l _ _ _ _ _ Hok h v Hv I) as (l & Hr & _ & Hm).
    assert (cblist v ∈ l) as [HcU Hch]%Hm by (apply (ring_head _ _ _ _ Hr); intros ->; by destruct Hr).
    by apply (safe_delayed_collect _ _ _ _ _ _ OC OF A U). }
  intros fids w3 Hi3 E3 _. evolve E3. destruct fids as [|fid fids]; [by apply safe_done|].
  eapply safe_bind; [by apply safe_XCallBackBulk_r|]. intros failed w4 Hi4 E4 _. evolve E4. destruct failed.
  - auto_step. auto_step. by apply safe_done.
  - destruct (_ <? _); [by apply safe_done|by apply IH].
Qed.

Lemma safe_BreakDelayedCallBacks_r KC KF fuel h w :
  inv KC KF w -> known (st w) h -> safe True KC KF (BreakDelayedCallBacks_r fuel h) anything w.
Proof.
  intros Hi Hk. unfold BreakDelayedCallBacks_r. auto_step as v. eapply (safe_bind _ _ _ _ _ _ _ anything).
  - destruct (_ && _); [|by apply safe_break_delayed]. auto_step. auto_step. auto_step. auto_step. auto_step as code. auto_step. auto_step.
    destruct code; [by apply safe_set_flag|]. auto_step. by apply safe_clear_flag.
  - intros ? w2 Hi2 E2 _. evolve E2. auto_step as v2. eapply (safe_bind _ _ _ _ _ _ _ anything).
    { apply safe_when; [done| |done]. intros _. by apply safe_clear_flag. }
    intros ? w4 Hi4 E4 _. evolve E4. auto_step as v4. by apply safe_ret.
Qed.
