(* ===== verification/CbLater.v ===== *)
(** * Call-backs: whole volumes

    [BreakVolumeCallBacksLater] marks the files of a volume and delays their
    call-backs; [BreakLaterCallBacks] takes the marked files of one volume out of the
    tables and notifies their hosts.  Files on their way out are outside the hash table
    (the set [X] of [Cpart]), linked through the words that held their names. *)

From stdpp Require Import prelude list gmap sorting.
From Stdlib Require Import ZArith Lia ZifyBool.
From S2P Require Import Prelude ByteMem CbTab Callback CbRing CbOk CbFile CbOps CbAdd CbInv CbSafe CbBreak CbHandlers.

#[local] Open Scope Z_scope.
#[local] Open Scope cb_scope.

(** ** Marking the files of a volume *)

(** The promises of files in [B] are delayed and their files marked. *)
Definition put_off (p : promise) : promise := mkPromise (p_host p) (p_fid p) true (p_queue p) CB_DELAYED (p_flags p).

Lemma wp_delay_cbs f n KC KF A U cb l (Q : unit -> world -> Prop) w :
  ok KC KF A U (st w) -> chain (cn (st w)) cb l -> NoDup l -> (forall x, x ∈ l -> x ∈ U) -> (length l <= n)%nat ->
  (forall s', ok KC KF A U s' -> (forall x, CB s' x = if bool_decide (x ∈ l) then with_status CB_DELAYED (CB (st w) x) else CB (st w) x) ->
     FE s' = FE (st w) -> HashTable s' = HashTable (st w) -> evolves (st w) s' /\ (hosts_ok (st w) -> hosts_ok s') -> Q tt (set_st s' w)) ->
  wp f (delay_cbs n cb) Q w.
Proof.
  revert cb l w. induction n as [|n IH]; intros cb l w Hok Hl Hnd HU Hn HQ; destruct l as [|c l]; cbn [chain] in Hl.
  1, 3: subst cb; apply wp_ret; change (Q tt w); replace w with (set_st (st w) w) by (by destruct w); by apply HQ.
  { cbn in Hn. lia. }
  destruct Hl as (-> & Hc0 & Hl). cbn [delay_cbs]. rewrite (proj2 (Z.eqb_neq c 0) Hc0). assert (HcU : c ∈ U) by (apply HU; left).
  destruct (ok_h _ _ _ _ _ Hok c HcU) as (Hcin & _ & v & Hv). apply NoDup_cons in Hnd as [Hcl Hnd].
  apply wp_bind, wp_cb_at; [done|]. set (s := st w) in *. apply wp_bind, (wp_host_put _ _ _ v); [done|].
  apply wp_bind, wp_cb_put; [done|]. cbsimp. set (s1 := set_host (hhead (CB s c)) (set_flag HFE_LATER v) s). set (s2 := set_CB c (with_status CB_DELAYED (CB s c)) s1).
  change (wp f (delay_cbs n (cnext (CB s c))) Q (set_st s2 w)).
  assert (Hok1 : ok KC KF A U s1) by by apply ok_host_put.
  destruct (changes_info KC KF A U s1 c CB_DELAYED (cb_flags (CB s c)) Hok1 ltac:(done)) as [Hok2 _ _ _ _].
  replace (with_flags _ _) with (with_status CB_DELAYED (CB s c)) in Hok2 by (change (CB s1 c) with (CB s c); by destruct (CB s c)).
  change (set_CB c _ s1) with s2 in Hok2.
  destruct (set_host_evolves s (hhead (CB s c)) (set_flag HFE_LATER v)) as [[E1 E2 E3] E4]. fold s1 in E1, E2, E3, E4.
  assert (EC : forall x, CB s2 x = if x =? c then with_status CB_DELAYED (CB s x) else CB s x).
  { intros x. unfold s2. cbsimp. by destruct (Z.eqb_spec x c) as [->|]. }
  apply (IH _ l); cbsimp; [done| |done|intros x Hx; apply HU; by right|cbn in Hn; lia|].
  { revert Hl. apply chain_ext. intros x _. unfold cn. rewrite EC. by destruct (x =? c). }
  intros s' Hok' EC' EF' EH' [He' Hh']. apply HQ; try done.
  - intros x. rewrite EC', EC. destruct (Z.eqb_spec x c) as [->|Hne].
    + rewrite (bool_decide_false (c ∈ l)), (bool_decide_true (c ∈ c :: l)) by (done || left). done.
    + replace (bool_decide (x ∈ c :: l)) with (bool_decide (x ∈ l)); [done|]. apply bool_decide_ext. rewrite elem_of_cons. tauto.
  - split; [apply (evolves_trans _ s2); [by split|done]|]. intros Hh. apply Hh'. destruct (E4 Hh) as [H1 H2]. by split.
Qed.

Lemma later_set f : is_later (with_fe_status (Z.lor (fe_status f) FE_LATER) f) = true.
Proof.
  unfold is_later, FE_LATER. cbsimp. apply Z.eqb_eq. rewrite Z.land_lor_distr_l. change (Z.land 1 1) with 1.
  apply Z.bits_inj'. intros n Hn. rewrite Z.lor_spec, Z.land_spec. destruct (Z.testbit 1 n); [by rewrite orb_true_r|by rewrite andb_false_r].
Qed.

Definition marked_later (fe : Z) (s : cbs) : cbs :=
  set_FE fe (with_fe_status (Z.lor (fe_status (FE s fe)) FE_LATER) (FE s fe)) s.

Lemma ok_marked_later KC KF A U s fe :
  ok KC KF A U s -> (forall c, c ∈ U -> fhead (CB s c) = fe -> cb_status (CB s c) = CB_DELAYED) ->
  ok KC KF A U (marked_later fe s).
Proof.
  intros [[A1 A2 A3 A4 A5 A6 A7] O2 O3 O4] Hd. set (s' := marked_later fe s).
  assert (EF : forall x, FE s' x = if x =? fe then with_fe_status (Z.lor (fe_status (FE s x)) FE_LATER) (FE s x) else FE s x).
  { intros x. unfold s', marked_later. cbsimp. by destruct (Z.eqb_spec x fe) as [->|]. }
  assert (El : forall x, later s' x = if x =? fe then true else later s x).
  { intros x. unfold later. rewrite EF. destruct (x =? fe); [apply later_set|done]. }
  assert (En : forall x, fe_hash s' x = fe_hash s x /\ fe_fid s' x = fe_fid s x /\ fn s' x = fn s x
     /\ firstcb (FE s' x) = firstcb (FE s x) /\ ncbs (FE s' x) = ncbs (FE s x)).
  { intros x. unfold fe_hash, fe_fid, fn. rewrite EF. by destruct (x =? fe). }
  split; [split| | |]; try done.
  - destruct A1 as [B1 B2 B3 B4]. split; [|done|done|].
    + intros x Hx. destruct (En x) as (_ & _ & _ & -> & ->). by apply B1.
    + intros c Hc. rewrite El. destruct (Z.eqb_spec (fhead (CB s' c)) fe) as [E|]; [intros _; by apply Hd|by apply B4].
  - destruct A2 as [B1 B2 B3]. split; [|done|].
    + intros b Hb. destruct (B1 b Hb) as (l & Hl & Hnd & Hm). exists l. split; [|split; [done|]].
      * revert Hl. apply chain_ext. intros x _. by destruct (En x) as (_ & _ & -> & _).
      * intros x. rewrite Hm. by destruct (En x) as (-> & _).
    + intros x y Hx Hy. rewrite !El. destruct (En x) as (_ & -> & _), (En y) as (_ & -> & _).
      destruct (x =? fe), (y =? fe); try done. by apply B3.
  - apply (Ffree_ext s _ (A ∪ ∅ ∪ KF)); try done. intros x _. rewrite EF. by destruct (x =? fe).
Qed.

(** What the files [l] have become, when those of [volume] are put off. *)
Definition hit (volume : Z) (l : list Z) (s : cbs) (fe : Z) : bool := bool_decide (fe ∈ l) && (volid (FE s fe) =? volume).

Record put_off_in (volume : Z) (l : list Z) (U : gset Z) (s s' : cbs) : Prop := {
  po_name : forall x, fe_fid s' x = fe_fid s x /\ fe_hash s' x = fe_hash s x /\ fn s' x = fn s x;
  po_hash : HashTable s' = HashTable s;
  po_later : forall x, later s' x = later s x || hit volume l s x;
  po_cb : forall c, c ∈ U -> promise_of s' c = if hit volume l s (fhead (CB s c)) then put_off (promise_of s c) else promise_of s c;
  po_head : forall c, fhead (CB s' c) = fhead (CB s c);
  po_evolves : evolves s s' /\ (hosts_ok s -> hosts_ok s')
}.

Lemma po_volid volume l U s s' x : put_off_in volume l U s s' -> volid (FE s' x) = volid (FE s x).
Proof. intros P. destruct (po_name _ _ _ _ _ P x) as [E _]. unfold fe_fid in E. by injection E. Qed.

Lemma put_off_nil volume U s : put_off_in volume [] U s s.
Proof.
  assert (E : forall x, hit volume [] s x = false) by (intros x; unfold hit; by rewrite bool_decide_false by (by intros ?%not_elem_of_nil)).
  split; try done; intros; rewrite E; by rewrite ?orb_false_r.
Qed.

Lemma put_off_app volume l1 l2 U s s1 s2 :
  put_off_in volume l1 U s s1 -> put_off_in volume l2 U s1 s2 -> put_off_in volume (l1 ++ l2) U s s2.
Proof.
  intros P1 P2. pose proof P1 as [A1 A2 A3 A4 A5 [A6 A7]]. pose proof P2 as [B1 B2 B3 B4 B5 [B6 B7]].
  assert (Eh : forall x, hit volume (l1 ++ l2) s x = hit volume l1 s x || hit volume l2 s1 x).
  { intros x. unfold hit. rewrite (po_volid _ _ _ _ _ x P1). rewrite <- andb_orb_distrib_l. f_equal.
    rewrite (bool_decide_ext (x ∈ l1 ++ l2) (x ∈ l1 \/ x ∈ l2)) by apply elem_of_app. apply bool_decide_or. }
  split.
  - intros x. destruct (A1 x) as (? & ? & ?), (B1 x) as (? & ? & ?). split_and!; congruence.
  - congruence.
  - intros x. rewrite B3, A3, Eh. by rewrite orb_assoc.
  - intros c Hc. rewrite B4, A4, A5, Eh by done. by destruct (hit volume l1 s _), (hit volume l2 s1 _).
  - intros c. by rewrite B5.
  - split; [by apply (evolves_trans _ s1)|auto].
Qed.

(** One file. *)
Lemma wp_put_off_file {B} f KC KF A U fe (Q : B -> world -> Prop) w (K : M B) :
  ok KC KF A U (st w) -> fe ∈ A ->
  (forall s', ok KC KF A U s' -> put_off_in (volid (FE (st w) fe)) [fe] U (st w) s' -> wp f K Q (set_st s' w)) ->
  wp f (do n <- table_size;
        delay_cbs n (firstcb (FE (st w) fe)) ;;
        fe_put fe (fun f => with_fe_status (Z.lor (fe_status f) FE_LATER) f) ;; K) Q w.
Proof.
  intros Hok Hfe HK. set (s := st w) in *. pose proof (ok_fe_tab _ _ _ _ _ _ Hok Hfe) as Hin. apply wp_bind, wp_get.
  destruct (fp_file _ _ _ (cp_file _ _ _ _ _ _ (ok_c _ _ _ _ _ Hok)) fe) as (l & Hl & Hnd & _ & Hm); [apply elem_of_union; by left|].
  assert (HU : forall x, x ∈ l -> x ∈ U) by (intros x Hx; by apply Hm).
  apply wp_bind, (wp_delay_cbs _ _ KC KF A U _ l); try done; [by apply (chain_tab _ _ _ _ _ _ Hok)|].
  intros s1 Hok1 EC EF EH [He Hh]. fold s in EC, EF, EH, He, Hh. apply wp_bind, wp_fe_put; [cbsimp; unfold in_tab; by rewrite (ev_n _ _ He)|]. cbsimp.
  change (set_FE fe _ s1) with (marked_later fe s1). set (s2 := marked_later fe s1).
  assert (EC2 : forall c, fhead (CB s2 c) = fhead (CB s c)) by (intros c; unfold s2; cbsimp; change (CB (marked_later fe s1)) with (CB s1); rewrite EC; by destruct (bool_decide _)).
  assert (EF2 : forall x, FE s2 x = if x =? fe then with_fe_status (Z.lor (fe_status (FE s x)) FE_LATER) (FE s x) else FE s x).
  { intros x. unfold s2, marked_later. cbsimp. rewrite EF. by destruct (Z.eqb_spec x fe) as [->|]. }
  assert (Ehit : forall x, hit (volid (FE s fe)) [fe] s x = (x =? fe)).
  { intros x. unfold hit. destruct (Z.eqb_spec x fe) as [->|]; [by rewrite bool_decide_true, Z.eqb_refl by left|].
    by rewrite bool_decide_false by (by rewrite list_elem_of_singleton). }
  assert (En : forall x, fe_fid s2 x = fe_fid s x /\ fe_hash s2 x = fe_hash s x /\ fn s2 x = fn s x).
  { intros x. unfold fe_fid, fe_hash, fn. rewrite EF2. by destruct (x =? fe). }
  apply (HK s2).
  - apply ok_marked_later; [done|]. intros c Hc E. rewrite EC. rewrite (bool_decide_true (c ∈ l)); [done|]. apply Hm.
    split; [done|]. rewrite <- E, EC. by destruct (bool_decide _).
  - split; try done.
    + intros x. rewrite Ehit. unfold later. rewrite EF2. destruct (x =? fe); [by rewrite later_set, orb_true_r|by rewrite orb_false_r].
    + intros c Hc. rewrite Ehit. unfold promise_of at 1. rewrite EC2. destruct (En (fhead (CB s c))) as (-> & _).
      change (CB s2 c) with (CB s1 c). rewrite EC. unfold later. rewrite EF2. destruct (Z.eqb_spec (fhead (CB s c)) fe) as [E|E].
      * rewrite bool_decide_true by (by apply Hm). rewrite later_set. done.
      * rewrite bool_decide_false by (intros Hx; apply E; by apply Hm). done.
    + destruct He as [E1 E2 E3]. split; [by split|]. intros H. destruct (Hh H) as [H1 H2]. by split.
Qed.

Lemma wp_later_chain f n KC KF A U volume fe l found (Q : bool -> world -> Prop) w :
  ok KC KF A U (st w) -> chain (fn (st w)) fe l -> (forall x, x ∈ l -> x ∈ A) -> (length l <= n)%nat ->
  (forall s' b, ok KC KF A U s' -> put_off_in volume l U (st w) s' ->
     b = found || existsb (fun x => volid (FE (st w) x) =? volume) l -> Q b (set_st s' w)) ->
  wp f (later_chain n volume fe found) Q w.
Proof.
  revert fe l found w. induction n as [|n IH]; intros fe l found w Hok Hl HA Hn HQ; destruct l as [|x l]; cbn [chain] in Hl.
  1, 3: subst fe; apply wp_ret; change (Q found w); replace w with (set_st (st w) w) by (by destruct w);
    apply HQ; [done|apply put_off_nil|by rewrite orb_false_r].
  { cbn in Hn. lia. }
  destruct Hl as (-> & Hx0 & Hl). cbn [later_chain]. rewrite (proj2 (Z.eqb_neq x 0) Hx0). assert (HxA : x ∈ A) by (apply HA; left).
  apply wp_bind, wp_fe_at; [by apply (ok_fe_tab _ _ _ _ _ _ Hok)|]. set (s := st w) in *.
  assert (Hnext : forall s1 b, ok KC KF A U s1 -> put_off_in volume [x] U s s1 -> b = found || (volid (FE s x) =? volume) ->
    wp f (later_chain n volume (fnext (FE s x)) b) Q (set_st s1 w)).
  { intros s1 b Hok1 P1 ->. apply (IH _ l); cbsimp; [done| |intros y Hy; apply HA; by right|cbn in Hn; lia|].
    - revert Hl. apply chain_ext. intros y _. by destruct (po_name _ _ _ _ _ P1 y) as (_ & _ & ->).
    - intros s' b Hok' P' ->. apply HQ; [done|by apply (put_off_app _ [x] l _ _ s1)|]. cbn [existsb]. rewrite orb_assoc. f_equal.
      clear -P1. induction l as [|y l IHl]; [done|]. cbn [existsb]. by rewrite IHl, (po_volid _ _ _ _ _ y P1). }
  destruct (Z.eqb_spec (volid (FE s x)) volume) as [E|E].
  - apply (wp_put_off_file _ KC KF A U); [done|done|]. fold s. rewrite E. intros s1 Hok1 P1. apply Hnext; [done|done|by rewrite orb_true_r].
  - replace w with (set_st s w) by (by destruct w). apply Hnext; [done| |by rewrite orb_false_r].
    assert (Eh : forall y, hit volume [x] s y = false).
    { intros y. unfold hit. destruct (bool_decide_reflect (y ∈ [x])) as [->%list_elem_of_singleton|]; [lia|done]. }
    split; try done; intros y; intros; rewrite Eh; by rewrite ?orb_false_r.
Qed.

Lemma existsb_volid volume l1 U s s1 l :
  put_off_in volume l1 U s s1 -> existsb (fun x => volid (FE s1 x) =? volume) l = existsb (fun x => volid (FE s x) =? volume) l.
Proof. intros P. induction l as [|y l IH]; [done|]. cbn [existsb]. by rewrite IH, (po_volid _ _ _ _ _ y P). Qed.

Lemma wp_later_chains f k KC KF A U b volume found (Q : bool -> world -> Prop) w :
  ok KC KF A U (st w) -> 0 <= b -> b + Z.of_nat k <= 512 ->
  (forall s' l r, ok KC KF A U s' -> put_off_in volume l U (st w) s' ->
     (forall x, x ∈ l <-> x ∈ A /\ b <= fe_hash (st w) x < b + Z.of_nat k) ->
     r = found || existsb (fun x => volid (FE (st w) x) =? volume) l -> Q r (set_st s' w)) ->
  wp f (later_chains k b volume found) Q w.
Proof.
  revert b found w. induction k as [|k IH]; intros b found w Hok Hb Hk HQ; cbn [later_chains].
  - apply wp_ret. change (Q found w). replace w with (set_st (st w) w) by (by destruct w).
    apply (HQ (st w) []); [done|apply put_off_nil| |by rewrite orb_false_r]. intros x. split; [by intros ?%not_elem_of_nil|lia].
  - apply wp_bind, wp_get, wp_bind, wp_get. destruct (hp_chain _ _ (cp_hash _ _ _ _ _ _ (ok_c _ _ _ _ _ Hok)) b) as (l & Hl & Hnd & Hm); [lia|].
    apply wp_bind, (wp_later_chain _ _ KC KF A U _ _ l); [done|done|intros x Hx; by apply Hm| |].
    { apply in_tab_nodup; [done|]. intros x [Hx _]%Hm. by apply (ok_fe_tab _ _ _ _ _ _ Hok). }
    intros s1 r Hok1 P1 ->. apply IH; cbsimp; [done|lia|lia|]. intros s' l' r Hok' P' Hm' ->.
    apply (HQ s' (l ++ l')); [done|by apply (put_off_app _ l l' _ _ s1)| |].
    + intros x. rewrite elem_of_app, Hm, Hm'. destruct (po_name _ _ _ _ _ P1 x) as (_ & -> & _). split; [intros [[? ?]|[? ?]]|intros [? ?]].
      * split; [done|lia]. * split; [done|lia].
      * destruct (Z.eq_dec (fe_hash (st w) x) b); [by left|right; split; [done|lia]].
    + rewrite (existsb_volid _ _ _ _ _ _ P1), existsb_app. by rewrite orb_assoc.
Qed.

(** The promises for the files of the volume are put off, and no file that is in use is
    of that volume. *)
Lemma wp_BreakVolumeCallBacksLater f KC KF A U volume (Q : bool -> world -> Prop) w :
  ok KC KF A U (st w) ->
  (forall s' r, ok KC KF A U s' ->
     (forall c, c ∈ U -> promise_of s' c = if fst (fst (p_fid (promise_of (st w) c))) =? volume then put_off (promise_of (st w) c) else promise_of (st w) c) ->
     (forall fe, fe ∈ A -> fe_fid s' fe = fe_fid (st w) fe /\ later s' fe = later (st w) fe || (volid (FE (st w) fe) =? volume)) ->
     evolves (st w) s' /\ (hosts_ok (st w) -> hosts_ok s') ->
     (r = true <-> exists fe, fe ∈ A /\ volid (FE (st w) fe) = volume) -> Q r (set_st s' w)) ->
  wp f (BreakVolumeCallBacksLater volume) Q w.
Proof.
  intros Hok HQ. unfold BreakVolumeCallBacksLater. apply (wp_later_chains _ _ KC KF A U); [done|done|done|].
  intros s' l r Hok' P Hm ->. change (0 + Z.of_nat (Z.to_nat FEHASH_SIZE)) with 512 in Hm. cbn [orb].
  assert (HlA : forall x, x ∈ l <-> x ∈ A) by (intros x; rewrite Hm; split; [tauto|]; split; [done|]; apply FEHash_range).
  assert (Ehit : forall x, x ∈ A -> hit volume l (st w) x = (volid (FE (st w) x) =? volume)).
  { intros x Hx. unfold hit. by rewrite bool_decide_true by (by apply HlA). }
  apply HQ; [done| | |apply P|].
  - intros c Hc. rewrite (po_cb _ _ _ _ _ P c Hc), Ehit by (by apply (ok_file _ _ _ _ _ _ Hok)). done.
  - intros fe Hfe. destruct (po_name _ _ _ _ _ P fe) as (-> & _). rewrite (po_later _ _ _ _ _ P), Ehit by done. done.
  - rewrite existsb_exists. split; intros (x & Hx & E); exists x.
    + split; [apply HlA; by apply list_elem_of_In|lia].
    + split; [apply list_elem_of_In; by apply HlA|lia].
Qed.

(** ** Taking marked files out of the hash table *)

(** The files [X], linked from the pointer [p] in the order [lX], are on their way out:
    all their call-backs are delayed. *)
Record unchained (KC KF A X U : gset Z) (p : Z) (lX : list Z) (s : cbs) : Prop := {
  un_parts : parts KC KF A X U U U U all all s;
  un_chain : pchain (FE_base s) (fun fe => fe_object_next (FE s fe)) p lX;
  un_nodup : NoDup lX;
  un_X : forall x, x ∈ lX <-> x ∈ X;
  un_delayed : forall c, c ∈ U -> fhead (CB s c) ∈ X -> cb_status (CB s c) = CB_DELAYED
}.

Lemma fe_loc_value0 f b l1 (Q : Z -> world -> Prop) w :
  chain (fn (st w)) (HashTable (st w) b) l1 -> (forall x, x ∈ l1 -> in_tab (st w) x) -> Q 0 w ->
  wp f (fe_loc_get (fe_loc_of b l1)) Q w.
Proof.
  intros Hl Htab HQ. unfold fe_loc_of. destruct l1 as [|p l1 _] using rev_ind; [cbn [last]|rewrite last_snoc]; cbn [fe_loc_get].
  - apply wp_get. cbn [chain] in Hl. by rewrite Hl.
  - apply wp_bind, wp_fe_at; [apply Htab, elem_of_app; right; left|]. apply wp_ret.
    destruct (chain_split _ _ _ _ _ Hl) as (E & _). cbn [chain] in E. unfold fn in E. by rewrite E.
Qed.

Definition unflagged (fe : Z) (s1 : cbs) : cbs :=
  set_FE fe (with_fe_status (Z.land (fe_status (FE s1 fe)) (Z.lnot FE_LATER)) (FE s1 fe)) s1.
Definition taken_out (p fe : Z) (s1 : cbs) : cbs :=
  set_FE fe (fe_set_object_next p (FE (unflagged fe s1) fe)) (unflagged fe s1).

Lemma taken_out_fe p fe s1 x : x <> fe -> FE (taken_out p fe s1) x = FE s1 x.
Proof. intros Hx. unfold taken_out, unflagged. cbsimp. by destruct (Z.eqb_spec x fe). Qed.
Lemma taken_out_self p fe s1 :
  FE (taken_out p fe s1) fe = fe_set_object_next p (with_fe_status (Z.land (fe_status (FE s1 fe)) (Z.lnot FE_LATER)) (FE s1 fe)).
Proof. unfold taken_out, unflagged. cbsimp. by rewrite !Z.eqb_refl. Qed.

Lemma taken_out_frame p fe s1 : frame false false true ∅ s1 (taken_out p fe s1).
Proof. by split. Qed.

(** The file [fe] behind [l1] leaves the hash table. *)
Lemma unchained_step KC KF A X U p lX s s1 fe l1 l2 :
  unchained KC KF A X U p lX s -> fe ∈ A -> later s fe = true ->
  fe_stored (fe_hash s fe) l1 (fn s fe) s s1 ->
  chain (fn s) (HashTable s (fe_hash s fe)) (l1 ++ fe :: l2) -> NoDup (l1 ++ fe :: l2) ->
  (forall x, x ∈ l1 ++ fe :: l2 <-> x ∈ A /\ fe_hash s x = fe_hash s fe) ->
  unchained KC KF (A ∖ {[fe]}) (X ∪ {[fe]}) U (fe_ptr s fe) (fe :: lX) (taken_out p fe s1).
Proof.
  intros [[[A1 A2 A3 A4 A5 (A6 & A7 & A8) A9] P2 P3 P4 P5] C1 C2 C3 C4] Hfe Hlat HS Hl Hnd Hm.
  pose proof (hp_tab _ _ A2 fe Hfe) as Hin. pose proof HS as [F1 (Ec & Ef & Ecf) Es _ _]. set (s2 := taken_out p fe s1).
  pose proof (frame_trans0 _ _ _ _ _ _ _ _ _ F1 (taken_out_frame p fe s1)) as F. cbn [orb] in F. fold s2 in F.
  assert (HfX : fe ∉ X) by (intros Hx; by apply (A6 fe)).
  assert (EAX : A ∖ {[fe]} ∪ (X ∪ {[fe]}) = A ∪ X).
  { apply set_eq. intros x. rewrite !elem_of_union, elem_of_difference, elem_of_singleton. destruct (decide (x = fe)) as [->|]; tauto. }
  assert (Esame : forall x, x <> fe -> same_file s s2 x) by (intros x Hx; unfold same_file, s2; rewrite taken_out_fe by done; apply Es).
  assert (Efe : firstcb (FE s2 fe) = firstcb (FE s fe) /\ ncbs (FE s2 fe) = ncbs (FE s fe)).
  { unfold s2. rewrite taken_out_self. destruct (Es fe) as (_ & _ & _ & ? & ? & _). done. }
  assert (ECB : CB s2 = CB s) by (rewrite <- Ec; done).
  assert (Hfst : forall x, firstcb (FE s2 x) = firstcb (FE s x) /\ ncbs (FE s2 x) = ncbs (FE s x)).
  { intros x. destruct (Z.eq_dec x fe) as [->|Hx]; [done|]. destruct (Esame x Hx) as (_ & _ & _ & ? & ? & _). done. }
  assert (Hnl : later s2 fe = false).
  { unfold later, is_later, s2. rewrite taken_out_self. cbn [fe_status fe_set_object_next with_fe_status]. unfold FE_LATER.
    rewrite <- Z.land_assoc. change (Z.land (Z.lnot 1) 1) with 0. by rewrite Z.land_0_r. }
  split; [split; [split| | | |]| | | |]; rewrite ?EAX; try done.
  - destruct A1 as [B1 B2 B3 B4]. split.
    + intros x Hx. destruct (B1 x Hx) as (l & Hl' & Hnd' & Hlen & Hm'). exists l. destruct (Hfst x) as [-> ->]. unfold cn. rewrite ECB. done.
    + intros c Hc. rewrite ECB. unfold in_tab. rewrite (fr_n _ _ _ _ _ _ F). by apply B2.
    + intros c c'. rewrite ECB. apply B3.
    + intros c Hc. rewrite ECB. destruct (Z.eq_dec (fhead (CB s c)) fe) as [->|Hx]; [by rewrite Hnl|].
      destruct (Esame _ Hx) as (_ & _ & _ & _ & _ & E). unfold later, is_later. rewrite E. by apply B4.
  - apply (Hpart_ext (freed_fe fe s1)); [done|done| |by apply (Hpart_remove s s1 A fe l1 l2)].
    intros x [_ Hx%not_elem_of_singleton]%elem_of_difference. unfold s2. rewrite taken_out_fe by done. unfold freed_fe. cbsimp. by destruct (Z.eqb_spec x fe).
  - apply (Cfree_ext s _ (U ∪ KC)); try done; try apply F. intros c _. by rewrite ECB.
  - apply (Ffree_ext s _ (A ∪ X ∪ KF)); try done; try apply F. intros x Hx. destruct (Esame x) as (? & ? & _); [|done].
    intros ->. apply Hx. rewrite !elem_of_union. tauto.
  - by apply (addresses_frame _ _ _ _ _ _ F).
  - split_and!; try done. intros x [Hx Hne%not_elem_of_singleton]%elem_of_difference [Hx'| ->%elem_of_singleton]%elem_of_union; [by apply (A6 x)|done].
  - intros i Hi. unfold in_tab. rewrite (fr_n _ _ _ _ _ _ F). destruct (Z.eq_dec i fe) as [->|]; [done|]. apply A9.
    rewrite !elem_of_union, elem_of_singleton in *. tauto.
  - by apply (Tpart_frame _ _ _ _ _ _ _ F).
  - by apply (Lpart_frame _ _ _ _ _ _ _ F).
  - by apply (homes_frame _ _ _ _ _ _ _ F).
  - split.
    + unfold fe_ptr. rewrite (proj2 (Z.eqb_neq fe 0)) by (unfold in_tab in Hin; lia). by destruct (fr_addr _ _ _ _ _ _ F) as [-> _].
    + replace (fe_object_next (FE s2 fe)) with p.
      * destruct (fr_addr _ _ _ _ _ _ F) as [-> _]. revert C1. apply pchain_ext. intros x Hx%C3. unfold fe_object_next.
        destruct (Esame x) as (-> & -> & _); [|done]. by intros ->.
      * unfold s2. rewrite taken_out_self. unfold fe_object_next, fe_set_object_next. cbn [vnode unique]. symmetry. apply object_next_set.
  - apply NoDup_cons. split; [by rewrite C3|done].
  - intros x. rewrite elem_of_cons, C3, elem_of_union, elem_of_singleton. tauto.
  - intros c Hc. rewrite ECB. intros [Hx|Hx%elem_of_singleton]%elem_of_union; [by apply C4|].
    apply (fp_later _ _ _ A1); [done|]. by rewrite Hx.
Qed.

Lemma has_later f : has (fe_status f) FE_LATER = is_later f.
Proof.
  unfold has, is_later, FE_LATER. change 1 with (Z.ones 1). rewrite Z.land_ones by lia. change (2 ^ 1) with 2. change (Z.ones 1) with 1.
  pose proof (Z.mod_pos_bound (fe_status f) 2). lia.
Qed.

Lemma unchained_tab KC KF A X U p lX s fe : unchained KC KF A X U p lX s -> fe ∈ A -> in_tab s fe.
Proof. intros [P _ _ _ _]. apply (hp_tab _ _ (cp_hash _ _ _ _ _ _ (pa_c _ _ _ _ _ _ _ _ _ _ _ P))). Qed.

(** The rest of the hash chain. *)
Lemma fe_stored_chain b l1 fe l2 s s1 :
  fe_stored b l1 (fn s fe) s s1 -> chain (fn s) (HashTable s b) (l1 ++ fe :: l2) -> NoDup (l1 ++ fe :: l2) ->
  chain (fn s1) (HashTable s1 b) (l1 ++ l2).
Proof.
  intros [_ _ _ Eh En] Hl Hnd. apply (chain_remove (fn s) _ (HashTable s b) _ l1 fe l2); [done|done|]. rewrite Eh.
  destruct (last l1) as [p|] eqn:El; [|rewrite Z.eqb_refl; split; [done|]; intros x _; apply En].
  split; [done|]. split; [by rewrite En, Z.eqb_refl|]. intros x _ Hx. rewrite En. by destruct (Z.eqb_spec x p).
Qed.

Lemma wp_unchain f n KC KF A X U b l1 l2 vol p lX (Q : Z * Z -> world -> Prop) w :
  unchained KC KF A X U p lX (st w) -> chain (fn (st w)) (HashTable (st w) b) (l1 ++ l2) -> NoDup (l1 ++ l2) ->
  (forall x, x ∈ l1 ++ l2 <-> x ∈ A /\ fe_hash (st w) x = b) -> (length l2 <= n)%nat ->
  (forall A' X' p' lX' vol' s', unchained KC KF A' X' U p' lX' s' -> frame false false true ∅ (st w) s' ->
     Q (vol', p') (set_st s' w)) ->
  wp f (unchain n (fe_loc_of b l1) vol p) Q w.
Proof.
  revert A X l1 l2 vol p lX w. induction n as [|n IH]; intros A X l1 l2 vol p lX w HX Hl Hnd Hm Hn HQ.
  all: assert (Htab : forall x, x ∈ l1 ++ l2 -> in_tab (st w) x) by (intros x [Hx _]%Hm; by apply (unchained_tab _ _ _ _ _ _ _ _ _ HX)).
  all: assert (Htab1 : forall x, x ∈ l1 -> in_tab (st w) x) by (intros x Hx; apply Htab, elem_of_app; by left).
  all: cbn [unchain]; apply wp_bind; destruct l2 as [|fe l2]; [rewrite app_nil_r in Hl; apply fe_loc_value0; [done|done|]; apply wp_ret;
    change (Q (vol, p) w); replace w with (set_st (st w) w) by (by destruct w); apply (HQ A X p lX); [done|apply cb_frame_refl]|].
  { cbn in Hn. lia. }
  apply (fe_loc_value _ _ _ fe l2 (st w)); [done|done|done|]. assert (Hfl : fe ∈ l1 ++ fe :: l2) by (apply elem_of_app; right; left).
  pose proof (Htab _ Hfl) as Hin. rewrite (proj2 (Z.eqb_neq fe 0)) by (unfold in_tab in Hin; lia). pose proof Hfl as [HfA Hfb]%Hm.
  apply wp_bind, wp_fe_at; [done|]. rewrite has_later. destruct (is_later _ && _) eqn:Et.
  - apply andb_true_iff in Et as [Hlat _]. apply wp_bind, wp_fe_loc_put; [done|]. intros s1 HS. pose proof HS as [F1 _ Es Eh En].
    apply wp_bind, wp_fe_put; [unfold in_tab; cbsimp; by rewrite (fr_n _ _ _ _ _ _ F1)|].
    apply wp_bind, wp_fe_put; [unfold in_tab; cbsimp; by rewrite (fr_n _ _ _ _ _ _ F1)|]. apply wp_bind, wp_get.
    pose proof (frame_trans0 _ _ _ _ _ _ _ _ _ F1 (taken_out_frame p fe s1)) as F. cbn [orb] in F.
    pose proof (unchained_step KC KF A X U p lX (st w) s1 fe l1 l2 HX HfA Hlat) as HX'. rewrite Hfb in HX'. specialize (HX' HS Hl Hnd Hm).
    change (wp f (unchain n (fe_loc_of b l1) (volid (FE (st w) fe)) (fe_ptr (taken_out p fe s1) fe)) Q (set_st (taken_out p fe s1) w)).
    replace (fe_ptr (taken_out p fe s1) fe) with (fe_ptr (st w) fe) by (unfold fe_ptr; by destruct (fr_addr _ _ _ _ _ _ F) as [-> _]).
    set (s2 := taken_out p fe s1) in *.
    assert (Hnd' : NoDup (fe :: l1 ++ l2)) by (by rewrite <- Permutation_middle in Hnd). apply NoDup_cons in Hnd' as [Hfl' Hnd'].
    assert (Eh2 : forall x, x <> fe -> fe_hash s2 x = fe_hash (st w) x).
    { intros x Hx. unfold fe_hash, s2. rewrite taken_out_fe by done. destruct (Es x) as (_ & -> & -> & _). done. }
    apply (IH (A ∖ {[fe]}) (X ∪ {[fe]}) l1 l2 _ _ (fe :: lX)); cbsimp; [done| |done| |cbn in Hn; lia|].
    + change (HashTable s2 b) with (HashTable s1 b). apply (chain_ext (fn s1)); [|by apply (fe_stored_chain b l1 fe l2 (st w))]. intros x Hx. unfold fn, s2.
      by rewrite taken_out_fe by (by intros ->).
    + intros x. specialize (Hm x). rewrite elem_of_app, elem_of_cons in Hm. rewrite elem_of_app in Hfl' |- *.
      rewrite elem_of_difference, elem_of_singleton. split.
      * intros Hx. assert (Hne : x <> fe) by (by intros ->). rewrite Eh2 by done. tauto.
      * intros [[Hx Hne] E]. rewrite Eh2 in E by done. tauto.
    + intros A' X' p' lX' vol' s' HX2 F2. apply (HQ A' X' p' lX'); [done|]. apply (frame_trans0 _ _ _ _ _ _ _ _ _ F F2).
  - replace (Fnext fe) with (fe_loc_of b (l1 ++ [fe])) by (unfold fe_loc_of; by rewrite last_snoc).
    apply (IH A X _ l2 _ _ lX); rewrite <- ?app_assoc; try done. cbn in Hn. lia.
Qed.

Lemma wp_unchain_all f k KC KF A X U b vol p lX (Q : Z * Z -> world -> Prop) w :
  unchained KC KF A X U p lX (st w) -> 0 <= b -> b + Z.of_nat k <= 512 ->
  (forall A' X' p' lX' vol' s', unchained KC KF A' X' U p' lX' s' -> frame false false true ∅ (st w) s' ->
     Q (vol', p') (set_st s' w)) ->
  wp f (unchain_all k b vol p) Q w.
Proof.
  revert A X b vol p lX w. induction k as [|k IH]; intros A X b vol p lX w HX Hb Hk HQ; cbn [unchain_all].
  - apply wp_ret. change (Q (vol, p) w). replace w with (set_st (st w) w) by (by destruct w). apply (HQ A X p lX); [done|apply cb_frame_refl].
  - pose proof (cp_hash _ _ _ _ _ _ (pa_c _ _ _ _ _ _ _ _ _ _ _ (un_parts _ _ _ _ _ _ _ _ HX))) as HH.
    destruct (hp_chain _ _ HH b) as (l & Hl & Hnd & Hm); [lia|]. apply wp_bind, wp_get.
    apply wp_bind, (wp_unchain _ _ KC KF A X U b [] l vol p lX); [done|done|done|done| |].
    { apply in_tab_nodup; [done|]. intros x [Hx _]%Hm. by apply (unchained_tab _ _ _ _ _ _ _ _ _ HX). }
    intros A1 X1 p1 lX1 vol1 s1 HX1 F1. apply (IH A1 X1 _ _ _ lX1); cbsimp; [done|lia|lia|].
    intros A2 X2 p2 lX2 vol2 s2 HX2 F2. apply (HQ A2 X2 p2 lX2); [done|]. apply (frame_trans0 _ _ _ _ _ _ _ _ _ F1 F2).
Qed.

(** ** Dropping the files that are out *)

Lemma unchained_less KC KF A X U R p lX s s' :
  unchained KC KF A X U p lX s -> parts KC KF A X (U ∖ R) (U ∖ R) (U ∖ R) (U ∖ R) all all s' -> less A X R s A s' ->
  unchained KC KF A X (U ∖ R) p lX s'.
Proof.
  intros [_ C1 C2 C3 C4] P [_ L2 L3 L4]. split; try done.
  - destruct (fr_addr _ _ _ _ _ _ L4) as [-> _]. revert C1. apply pchain_ext. intros x Hx%C3. unfold fe_object_next.
    destruct (L2 x) as (-> & -> & _); [apply elem_of_union; by right|done].
  - intros c [Hc HcR]%elem_of_difference. rewrite L3 by done. destruct (fr_info _ _ _ _ _ _ L4 c (not_elem_of_empty c)) as (-> & _). by apply C4.
Qed.

Lemma wp_take_off_out {B} f KC KF A X U p lX c (Q : B -> world -> Prop) w (K : M B) :
  unchained KC KF A X U p lX (st w) -> c ∈ U ->
  (forall s', unchained KC KF A X (U ∖ {[c]}) p lX s' -> less A X {[c]} (st w) A s' ->
     (forall x, x <> c -> x ∉ U \/ cn (st w) x <> c -> cn s' x = cn (st w) x) -> wp f K Q (set_st s' w)) ->
  wp f (TDel c ;; HDel c ;; CDel c false ;; K) Q w.
Proof.
  intros HX Hc HQ. pose proof (un_parts _ _ _ _ _ _ _ _ HX) as HP.
  apply wp_bind, (parts_TDel _ KC KF A X U U U U all all); [done|done|done|]. intros s1 P1 F1.
  apply wp_bind, (parts_HDel _ KC KF A X U (U ∖ {[c]}) U U all all); [done|done|done|]. cbsimp. intros s2 P2 F2.
  pose proof (frame_trans0 _ _ _ _ _ _ _ _ _ F1 F2) as F. destruct (fr_c _ _ _ _ _ _ F eq_refl) as (_ & _ & _ & G). cbn [orb] in F.
  apply wp_bind, (parts_CDel _ KC KF A X U (U ∖ {[c]}) (U ∖ {[c]}) U all all); [done|done|done|]; cbsimp.
  intros A' s' [P3 P4 P5 P6 _] HD. assert (A' = A) as -> by (by destruct (cd_A _ _ _ _ _ _ _ _ _ _ _ HD) as [?|(_ & ? & _)]).
  assert (L : less A X {[c]} (st w) A s').
  { rewrite <- (union_empty_l_L {[c]}). apply (less_trans _ _ _ _ _ A s2); [by apply (less_frame _ _ _ _ _ _ _ F)|].
    by apply (less_cdel _ _ _ _ _ _ _ _ _ _ _ HD). }
  apply HQ; [|done|].
  - apply (unchained_less KC KF A X U {[c]} p lX (st w)); [done| |done]. split; try done.
    apply (homes_sub _ U); [by intros x [? _]%elem_of_difference|done].
  - intros x Hx Hor. assert (E : cn s2 x = cn (st w) x) by apply G. rewrite <- E. apply (cd_next _ _ _ _ _ _ _ _ _ _ _ HD); [done|]. by rewrite E.
Qed.

Lemma unchained_host_put KC KF A X U p lX s h v g :
  unchained KC KF A X U p lX s -> hosts s !! h = Some v -> (forall v, cblist (g v) = cblist v) ->
  unchained KC KF A X U p lX (set_host h (g v) s).
Proof. intros [P C1 C2 C3 C4] Hv Hg. split; try done. by apply parts_host_put. Qed.

Definition some_queue (t : Z) : Prop := 0 <= t <= 128.

Lemma wp_drop_later_cbs f n KC KF A X U p lX cb l t (Q : Z -> world -> Prop) w :
  unchained KC KF A X U p lX (st w) -> chain (cn (st w)) cb l -> NoDup l ->
  (forall x, x ∈ l -> x ∈ U /\ fhead (CB (st w) x) ∈ X) -> (length l <= n)%nat -> some_queue t ->
  (forall s' t', unchained KC KF A X (U ∖ list_to_set l) p lX s' -> evolves (st w) s' /\ (hosts_ok (st w) -> hosts_ok s') ->
     (forall x, x ∈ U ∖ list_to_set l -> fhead (CB s' x) = fhead (CB (st w) x)) -> some_queue t' -> Q t' (set_st s' w)) ->
  wp f (drop_later_cbs n cb t) Q w.
Proof.
  revert U cb l t w. induction n as [|n IH]; intros U cb l t w HX Hl Hnd HU Hn Ht HQ; destruct l as [|c l]; cbn [chain] in Hl.
  1, 3: subst cb; apply wp_ret; change (Q t w); replace w with (set_st (st w) w) by (by destruct w);
    rewrite list_to_set_nil, difference_empty_L in HQ; by apply HQ.
  { cbn in Hn. lia. }
  destruct Hl as (-> & Hc0 & Hl). cbn [drop_later_cbs]. rewrite (proj2 (Z.eqb_neq c 0) Hc0). destruct (HU c) as [HcU HcX]; [left|].
  destruct (pa_h _ _ _ _ _ _ _ _ _ _ _ (un_parts _ _ _ _ _ _ _ _ HX) c HcU) as (Hin & Hq & v & Hv). apply NoDup_cons in Hnd as [Hcl Hnd].
  apply wp_bind, wp_cb_at; [done|]. apply wp_bind, (wp_host_at _ _ v); [done|]. rewrite (un_delayed _ _ _ _ _ _ _ _ HX c HcU HcX).
  cbn [Z.eqb Pos.eqb CB_DELAYED]. apply wp_bind, wp_get, wp_bind. set (s := st w) in *.
  eapply (wp_mono _ _ (fun t' w' => exists s1, w' = set_st s1 w /\ unchained KC KF A X U p lX s1 /\ CB s1 = CB s
    /\ (evolves s s1 /\ (hosts_ok s -> hosts_ok s1)) /\ some_queue t')).
  { destruct (negb _).
    - apply wp_bind, (wp_host_put _ _ _ v); [done|]. apply wp_ret. eexists. split; [done|]. split; [by apply unchained_host_put|].
      split; [done|]. split; [apply set_host_evolves|]. destruct (_ || _); [unfold some_queue; lia|done].
    - apply wp_ret. exists s. split; [by destruct w|]. by split_and!. }
  intros t' w1 (s1 & -> & HX1 & EC1 & [He1 Hh1] & Ht'). apply (wp_take_off_out _ KC KF A X U p lX); [done|done|]. cbsimp.
  intros s2 HX2 L2 Hcn. destruct (frame_evolves _ _ _ _ _ _ (le_frame _ _ _ _ _ _ L2)) as [He2 Hh2].
  assert (Ehd : forall x, x <> c -> fhead (CB s2 x) = fhead (CB s x)).
  { intros x Hx. rewrite (le_head _ _ _ _ _ _ L2) by (by rewrite elem_of_singleton). by rewrite EC1. }
  apply (IH (U ∖ {[c]}) _ l); cbsimp; [done| |done| |cbn in Hn; lia|done|].
  - apply (chain_ext (cn s)); [|done]. intros x Hx. unfold cn at 1. rewrite <- EC1. fold (cn s1 x). symmetry. apply Hcn; [by intros ->|].
    right. unfold cn. rewrite EC1. fold (cn s x). intros E. destruct (chain_next _ _ _ _ Hl Hx) as [Hy|Hy]; congruence.
  - intros x Hx. assert (x <> c) by (by intros ->). destruct (HU x) as [HxU HxX]; [by right|]. rewrite Ehd by done. split; [|done].
    apply elem_of_difference. split; [done|]. by rewrite elem_of_singleton.
  - intros s' t2 HX' [He' Hh'] Ehd' Ht2. rewrite difference_cons in HX', Ehd'. apply HQ; [done| | |done].
    + split; [apply (evolves_trans _ s1); [done|]; by apply (evolves_trans _ s2)|auto].
    + intros x Hx. rewrite Ehd' by done. apply Ehd. intros ->. apply elem_of_difference in Hx as [_ Hx].
      apply Hx, elem_of_list_to_set. left.
Qed.

Lemma unchained_free KC KF A X U p fe lX s :
  unchained KC KF A X U p (fe :: lX) s -> (forall c, c ∈ U -> fhead (CB s c) <> fe) ->
  unchained KC KF A (X ∖ {[fe]}) U (fe_object_next (FE s fe)) lX (freed_fe fe s).
Proof.
  intros [[[A1 A2 A3 A4 A5 (A6 & A7 & A8) A9] P2 P3 P4 P5] C1 C2 C3 C4] Hno. destruct C1 as [_ C1]. apply NoDup_cons in C2 as [Hfl C2].
  assert (HfX : fe ∈ X) by (apply C3; left). assert (HfA : fe ∉ A) by (intros Hx; by apply (A6 fe)).
  assert (Ex : forall x, x <> fe -> FE (freed_fe fe s) x = FE s x) by (intros x Hx; unfold freed_fe; cbsimp; by destruct (Z.eqb_spec x fe)).
  assert (Hne : forall x, x ∈ A ∪ X ∖ {[fe]} -> x <> fe) by (intros x [Hx|[_ Hx%not_elem_of_singleton]%elem_of_difference]%elem_of_union; [by intros ->|done]).
  split; [split; [split| | | |]| | | |]; try done.
  - apply (Fpart_ext s); [done|intros x Hx; by rewrite Ex by (by apply Hne)|done|]. destruct A1 as [B1 B2 B3 B4]. split; [| |done|done].
    + intros x Hx. apply B1. rewrite !elem_of_union, elem_of_difference in *. tauto.
    + intros c Hc. destruct (B2 c Hc) as [Hh ?]. split; [|done]. pose proof (Hno c Hc).
      rewrite !elem_of_union, elem_of_difference, elem_of_singleton in *. tauto.
  - apply (Hpart_ext s); [done|done| |done]. intros x Hx. by rewrite Ex by (by intros ->).
  - apply (Ffree_ext (freed_fe fe s) _ ((A ∪ X ∪ KF) ∖ {[fe]})); try done.
    + intros x. rewrite elem_of_difference, !elem_of_union, elem_of_difference, elem_of_singleton.
      intros [[?|?]|?]; (split; [tauto|]); [by intros ->|tauto|]. intros ->. apply (A8 fe); [apply elem_of_union; by right|done].
    + apply Ffree_freed; try done; [|rewrite !elem_of_union; tauto]. apply A9. rewrite !elem_of_union. tauto.
  - split_and!; [|done|].
    + intros x Hx [Hx' _]%elem_of_difference. by apply (A6 x).
    + intros x Hx Hk. apply (A8 x); [|done]. rewrite !elem_of_union, elem_of_difference in *. tauto.
  - intros i Hi. apply A9. rewrite !elem_of_union, elem_of_difference in *. tauto.
  - change (FE_base (freed_fe fe s)) with (FE_base s). revert C1. apply pchain_ext. intros x Hx. rewrite Ex; [done|]. by intros ->.
  - intros x. rewrite elem_of_difference, elem_of_singleton, <- C3, elem_of_cons. split; [|tauto]. intros Hx. split; [by right|by intros ->].
  - intros c Hc [Hx _]%elem_of_difference. by apply C4.
Qed.

Lemma wp_drop_later f n KC KF A X U p lX t (Q : Z -> world -> Prop) w :
  unchained KC KF A X U p lX (st w) -> (length lX <= n)%nat -> some_queue t ->
  (forall U' s' t', ok KC KF A U' s' -> evolves (st w) s' /\ (hosts_ok (st w) -> hosts_ok s') -> some_queue t' -> Q t' (set_st s' w)) ->
  wp f (drop_later n p t) Q w.
Proof.
  revert X U p lX t w. induction n as [|n IH]; intros X U p lX t w HX Hn Ht HQ; destruct lX as [|fe lX].
  1, 3: assert (p = 0) as -> by exact (un_chain _ _ _ _ _ _ _ _ HX); apply wp_ret; change (Q t w); replace w with (set_st (st w) w) by (by destruct w);
    assert (X = ∅) as -> by (apply set_eq; intros x; rewrite <- (un_X _ _ _ _ _ _ _ _ HX); split; [by intros ?%not_elem_of_nil|by intros ?%not_elem_of_empty]);
    apply (HQ U); [apply ok_parts, HX|split; [apply evolves_refl|done]|done].
  { cbn in Hn. lia. }
  pose proof (un_parts _ _ _ _ _ _ _ _ HX) as HP. pose proof (pa_c _ _ _ _ _ _ _ _ _ _ _ HP) as HC.
  assert (HfX : fe ∈ X) by (apply (un_X _ _ _ _ _ _ _ _ HX); left).
  assert (Hin : in_tab (st w) fe) by (apply (cp_tab _ _ _ _ _ _ HC); rewrite !elem_of_union; tauto).
  pose proof (un_chain _ _ _ _ _ _ _ _ HX) as [Hp _]. destruct (cp_addr _ _ _ _ _ _ HC) as (Ha & _).
  destruct (ptr_index _ _ _ Hp Ha) as [Hp0 Hpi]; [apply Hin|]. cbn [drop_later]. rewrite (proj2 (Z.eqb_neq p 0) Hp0).
  apply wp_bind, wp_get, wp_bind, wp_get. unfold fetoi. rewrite (proj2 (Z.eqb_neq p 0) Hp0), Hpi. apply wp_bind, wp_fe_at; [done|].
  destruct (fp_file _ _ _ (cp_file _ _ _ _ _ _ HC) fe) as (l & Hl & Hnd & _ & Hm); [apply elem_of_union; by right|].
  assert (HU : forall x, x ∈ l -> x ∈ U /\ fhead (CB (st w) x) ∈ X) by (intros x [? E]%Hm; by rewrite E).
  apply wp_bind, (wp_drop_later_cbs _ _ KC KF A X U p (fe :: lX) _ l); try done.
  { apply in_tab_nodup; [done|]. intros x [Hx _]%HU. by apply (pa_h _ _ _ _ _ _ _ _ _ _ _ HP). }
  intros s1 t1 HX1 [He1 Hh1] Ehd Ht1. assert (Hin1 : in_tab s1 fe) by (unfold in_tab; by rewrite (ev_n _ _ He1)).
  apply wp_bind, wp_fe_at; [done|]. apply wp_bind, wp_iFreeFE; [done|]. cbsimp.
  assert (HX2 : unchained KC KF A (X ∖ {[fe]}) (U ∖ list_to_set l) (fe_object_next (FE s1 fe)) lX (freed_fe fe s1)).
  { apply (unchained_free _ _ _ _ _ p); [done|]. intros c Hc E. rewrite Ehd in E by done. apply elem_of_difference in Hc as [HcU Hc].
    apply Hc, elem_of_list_to_set, Hm. done. }
  destruct (frame_evolves _ _ _ _ _ _ (frame_freed_fe fe s1)) as [He2 Hh2].
  apply (IH (X ∖ {[fe]}) (U ∖ list_to_set l) _ lX); [exact HX2|cbn in Hn; lia|done|]. cbsimp. intros U' s' t' Hok' [He' Hh'] Ht'. apply (HQ U'); [done| |done].
  split; [apply (evolves_trans _ s1); [done|]; by apply (evolves_trans _ (freed_fe fe s1))|auto].
Qed.

(** ** The handlers *)

Definition vcb_ok (parms : VCBParams) (s : cbs) : Prop :=
  Forall (held s) (v_cba parms) /\ Z.of_nat (length (v_cba parms)) <= MAX_CB_HOSTS /\ 1 <= v_thead parms <= 128.

Lemma vcb_ok_evolves s s' parms : evolves s s' -> vcb_ok parms s -> vcb_ok parms s'.
Proof. intros E (H1 & H2). split; [by apply (held_evolves s)|done]. Qed.

Lemma safe_MultiBreakVolumeCallBack_r KC KF fuel b h parms w :
  inv KC KF w -> known (st w) h -> vcb_ok parms (st w) ->
  safe True KC KF (MultiBreakVolumeCallBack_r fuel b h parms) vcb_ok w.
Proof.
  intros Hi Hk Hp. unfold MultiBreakVolumeCallBack_r. eapply safe_bind; [by apply safe_host_at|]. intros v w1 Hi1 E1 _.
  apply (vcb_ok_evolves _ _ _ E1) in Hp. evolve E1. destruct (has _ _); [by apply safe_ret|]. destruct (negb _); [by apply safe_ret|].
  destruct (has _ _).
  - unfold h_Lock_r. eapply safe_bind; [by apply safe_unlocked|]. intros ? w2 Hi2 E2 _. apply (vcb_ok_evolves _ _ _ E2) in Hp. evolve E2.
    eapply safe_bind; [by apply safe_DeleteAllCallBacks_r|]. intros ? w3 Hi3 E3 _. apply (vcb_ok_evolves _ _ _ E3) in Hp. evolve E3.
    eapply safe_bind; [by apply safe_clear_flag|]. intros ? w4 Hi4 E4 _. apply (vcb_ok_evolves _ _ _ E4) in Hp. by apply safe_ret.
  - destruct Hp as (Hp1 & Hp2 & Hp3). rewrite (proj2 (Z.ltb_ge _ _) Hp2).
    eapply (safe_bind _ _ _ _ _ _ _ (fun r s => vcb_ok r s /\ Z.of_nat (length (v_cba r)) < MAX_CB_HOSTS)).
    { destruct (Z.eqb_spec (Z.of_nat (length (v_cba parms))) MAX_CB_HOSTS).
      - eapply safe_bind; [by apply safe_MultiBreakCallBack_r|]. intros ? w2 Hi2 E2 _. apply safe_ret; [done|]. split; [|done]. split; [by apply Forall_nil|done].
      - apply safe_ret; [done|]. split; [done|lia]. }
    intros r w2 Hi2 E2 [Hr Hlen]. evolve E2.
    eapply safe_bind; [by apply safe_clear_flag|]. intros ? w3 Hi3 E3 _. apply (vcb_ok_evolves _ _ _ E3) in Hr. evolve E3.
    eapply safe_bind; [by apply safe_h_Hold_r|]. intros ? w4 Hi4 E4 _. apply (vcb_ok_evolves _ _ _ E4) in Hr. evolve E4.
    destruct Hr as (Hr1 & Hr2 & Hr3). apply safe_ret; [done|]. split; [|split; [cbn [v_cba]; rewrite length_app; cbn [length]; lia|done]].
    apply Forall_app. split; [done|]. apply Forall_singleton. by split.
Qed.

Lemma safe_BreakVolumeCallBacksLater f KC KF volume w :
  inv KC KF w -> safe f KC KF (BreakVolumeCallBacksLater volume) anything w.
Proof.
  intros Hi. apply (inv_lift _ _ _ _ _ _ Hi). intros OC OF A U Hiw Hok. apply (wp_BreakVolumeCallBacksLater _ (KC ∪ OC) (KF ∪ OF) A U); [done|].
  intros s' r Hok' _ _ [He Hh] _. split; [|done]. apply (inv_step KC KF KC KF OC OF A U A U); [done|apply Hiw|apply Hiw|done|apply Hh, Hiw].
Qed.

Lemma safe_BreakLaterCallBacks KC KF fuel w : inv KC KF w -> safe True KC KF (BreakLaterCallBacks fuel) anything w.
Proof.
  intros Hi. apply (inv_lift _ _ _ _ _ _ Hi). intros OC OF A U Hiw Hok. unfold BreakLaterCallBacks.
  assert (HX : unchained (KC ∪ OC) (KF ∪ OF) A ∅ U 0 [] (st w)).
  { split; [by apply ok_parts|done|by apply NoDup_nil| |by intros c _ ?%not_elem_of_empty].
    intros x. split; [by intros ?%not_elem_of_nil|by intros ?%not_elem_of_empty]. }
  apply wp_bind, (wp_unchain_all _ _ _ _ _ _ _ _ _ _ _ _ _ HX); [done|done|]. intros A1 X1 p lX vol s1 HX1 F1.
  destruct (frame_evolves _ _ _ _ _ _ F1) as [He1 Hh1]. apply (safe_rebase _ _ _ _ _ _ (set_st s1 w) He1).
  assert (Hlen : (length lX <= Z.to_nat (nblks s1))%nat).
  { apply in_tab_nodup; [apply HX1|]. intros x Hx%(un_X _ _ _ _ _ _ _ _ HX1).
    apply (cp_tab _ _ _ _ _ _ (pa_c _ _ _ _ _ _ _ _ _ _ _ (un_parts _ _ _ _ _ _ _ _ HX1))). rewrite !elem_of_union. tauto. }
  assert (Hdrop : forall Q, (forall t w', inv KC KF w' -> evolves s1 (st w') -> some_queue t -> Q t w') ->
    forall n, (length lX <= n)%nat -> wp True (drop_later n p 0) Q (set_st s1 w)).
  { intros Q HQ n Hn. apply (wp_drop_later _ _ (KC ∪ OC) (KF ∪ OF) A1 X1 U p lX); [exact HX1|done|by unfold some_queue|]. intros U' s' t' Hok' [He' Hh'] Ht'.
    apply HQ; [|done|done]. change (inv KC KF (set_st s' w)). apply (inv_step KC KF KC KF OC OF A U A1 U'); [done|apply Hiw|apply Hiw|done|apply Hh', Hh1, Hiw]. }
  destruct (p =? 0) eqn:Ep.
  { (* nothing was marked *)
    assert (lX = []) as ->.
    { destruct lX as [|fe lX]; [done|]. pose proof (un_chain _ _ _ _ _ _ _ _ HX1) as [Hp _].
      pose proof (pa_c _ _ _ _ _ _ _ _ _ _ _ (un_parts _ _ _ _ _ _ _ _ HX1)) as HC. destruct (cp_addr _ _ _ _ _ _ HC) as (Ha & _).
      assert (Hin : in_tab s1 fe) by (apply (cp_tab _ _ _ _ _ _ HC); rewrite !elem_of_union, <- (un_X _ _ _ _ _ _ _ _ HX1), elem_of_cons; tauto).
      destruct (ptr_index _ _ _ Hp Ha) as [Hp0 _]; [apply Hin|]. lia. }
    apply safe_ret; [|done]. assert (X1 = ∅) as ->.
    { apply set_eq. intros x. rewrite <- (un_X _ _ _ _ _ _ _ _ HX1). split; [by intros ?%not_elem_of_nil|by intros ?%not_elem_of_empty]. }
    apply (inv_step KC KF KC KF OC OF A U A1 U); [done|apply Hiw|apply Hiw|apply ok_parts, HX1|apply Hh1, Hiw]. }
  apply wp_bind, wp_get, wp_bind. apply Hdrop; [|done]. intros t w2 Hi2 E2 Ht. apply (safe_rebase _ _ _ _ _ (set_st s1 w) w2 E2).
  eapply (safe_bind _ _ _ _ _ _ _ anything); [|intros ? w3 Hi3 _ _; by apply safe_ret].
  destruct (Z.eqb_spec t 0) as [|Ht0]; cbn [negb]; [by apply safe_done|]. eapply safe_bind; [by apply safe_unlocked|]. intros ? w3 Hi3 _ _.
  eapply (safe_bind _ _ _ _ _ _ _ vcb_ok).
  { apply safe_h_Enumerate; [by intros s s' r E; apply vcb_ok_evolves| |done|].
    - intros h parms w4 Hi4 Hk Hp. by apply safe_MultiBreakVolumeCallBack_r.
    - split; [by apply Forall_nil|]. split; [done|]. unfold some_queue in Ht. cbn. lia. }
  intros parms w4 Hi4 _ (Hp1 & Hp2 & Hp3). destruct (v_cba parms) as [|e l] eqn:El; [by apply safe_done|]. by apply safe_MultiBreakCallBack_r.
Qed.
