(* ===== verification/CbNotify.v ===== *)
(** * Call-backs: everybody is told

    [BreakCallBack] when no other thread runs and every host answers: each other host
    with a promise for the file gets a message and loses the promise, or, when it is
    known to be down, has it delayed; everything else stays. *)

From stdpp Require Import prelude list gmap sorting.
From Stdlib Require Import ZArith Lia ZifyBool.
From S2P Require Import Prelude ByteMem CbTab Callback CbRing CbOk CbFile CbOps CbAdd CbInv CbSafe CbBreak CbHandlers.

#[local] Open Scope Z_scope.
#[local] Open Scope cb_scope.

(** ** Calm *)

(** No other threads, and every remote call succeeds. *)
Definition calm (w : world) : Prop := others w = Quiet /\ Forall (fun b => b = false) (answers w).

Lemma calm_set_st s w : calm w -> calm (set_st s w).
Proof. done. Qed.

Lemma wp_unlocked_calm f (Q : unit -> world -> Prop) w : calm w -> Q tt w -> wp f unlocked Q w.
Proof. intros [E _] HQ. unfold wp, unlocked. by rewrite E. Qed.

(** The same but for what was answered. *)
Definition alike (w w' : world) : Prop := calm w' /\ st w' = st w /\ sent w' = sent w.

Lemma wp_answer_calm f (Q : bool -> world -> Prop) w :
  calm w -> (forall w', alike w w' -> Q false w') -> wp f answer Q w.
Proof.
  intros [E HA] HQ. unfold wp, answer. destruct (answers w) as [|b bs] eqn:Ea.
  - apply HQ. split; [|done]. split; [done|]. by rewrite Ea.
  - apply Forall_cons in HA as [-> HA]. by apply HQ.
Qed.

Lemma wp_multi_rx_calm f fuel n l fid (Q : unit -> world -> Prop) w :
  calm w -> (forall w', alike w w' -> Q tt w') -> wp f (multi_rx fuel n l fid) Q w.
Proof.
  revert l w. induction n as [|n IH]; intros l w Hc HQ; cbn [multi_rx]; [by apply wp_ret, HQ|].
  apply wp_bind. unfold wp, arrives. destruct l as [|e l]; [by apply HQ|]. set (k := match order w with [] => _ | _ => _ end).
  destruct (nth k (e :: l) e) as [hp idx]. set (w1 := mkWorld _ _ _ _ _).
  apply (wp_bind f answer). apply wp_answer_calm; [done|]. intros w2 (Hc2 & Es2 & Em2). cbn [andb].
  apply wp_bind, wp_ret. apply IH; [done|]. intros w3 (Hc3 & Es3 & Em3). apply HQ. split; [done|]. split; [by rewrite Es3, Es2|by rewrite Em3, Em2].
Qed.

Lemma wp_not_deleted f l (Q : list cbstruct -> world -> Prop) w :
  Forall (fun e => known (st w) (fst e) /\ host_has (st w) (fst e) HOSTDELETED = false) l -> Q l w -> wp f (not_deleted l) Q w.
Proof.
  revert Q. induction l as [|e l IH]; intros Q Hl HQ; cbn [not_deleted]; [by apply wp_ret|].
  apply Forall_cons in Hl as [[[v Hv] Hd] Hl]. apply wp_bind, (wp_host_at _ _ v); [done|]. rewrite (host_lookup_flags _ _ _ Hv) in Hd. rewrite Hd.
  apply wp_bind, IH; [done|]. by apply wp_ret.
Qed.

Definition tell (fid : AFSFid) (l : list cbstruct) : list msg := map (fun e => RXAFSCB_CallBack (fst e) [fid]) l.

Definition sent_more (l : list msg) (w : world) : world := mkWorld (st w) (others w) (answers w) (order w) (sent w ++ l).

Lemma wp_send_all f l fid (Q : unit -> world -> Prop) w : Q tt (sent_more (tell fid l) w) -> wp f (send_all l fid) Q w.
Proof.
  revert w. induction l as [|e l IH]; intros w HQ; cbn [send_all].
  - apply wp_ret. unfold sent_more in HQ. cbn [tell map] in HQ. rewrite app_nil_r in HQ. by destruct w.
  - apply wp_bind. unfold wp at 1, send. apply IH. unfold sent_more in *. cbn [st others answers order sent] in *. by rewrite <- app_assoc.
Qed.

(** ** Giving hosts back *)

(** The tables are the same, and so are the flags of hosts that matter here. *)
Record quietly (s s' : cbs) : Prop := {
  qu_cb : CB s' = CB s;
  qu_fe : FE s' = FE s;
  qu_known : forall h, known s h -> known s' h;
  qu_down : forall h, host_has s' h VENUSDOWN = host_has s h VENUSDOWN;
  qu_deleted : forall h, host_has s' h HOSTDELETED = host_has s h HOSTDELETED
}.

Lemma quietly_refl s : quietly s s.
Proof. by split. Qed.
Lemma quietly_trans s1 s2 s3 : quietly s1 s2 -> quietly s2 s3 -> quietly s1 s3.
Proof. intros [A1 A2 A3 A4 A5] [B1 B2 B3 B4 B5]. split; [congruence|congruence|auto| |]; intros h; congruence. Qed.

Lemma quietly_promise s s' c : quietly s s' -> promise_of s' c = promise_of s c.
Proof. intros [E1 E2 _ _ _]. unfold promise_of, fe_fid, later. by rewrite E1, E2. Qed.

(** A change of one host that leaves the two flags alone. *)
Definition keeps_flags (g : host -> host) : Prop :=
  forall v, cblist (g v) = cblist v /\ has (hostFlags (g v)) VENUSDOWN = has (hostFlags v) VENUSDOWN
    /\ has (hostFlags (g v)) HOSTDELETED = has (hostFlags v) HOSTDELETED.

Lemma wp_host_put_quietly {B} f KC KF A U h g (Q : B -> world -> Prop) w (K : M B) :
  ok KC KF A U (st w) -> known (st w) h -> keeps_flags g ->
  (forall s', ok KC KF A U s' -> quietly (st w) s' -> wp f K Q (set_st s' w)) -> wp f (host_put h g ;; K) Q w.
Proof.
  intros Hok [v Hv] Hg HQ. destruct (Hg v) as (_ & G2 & G3). apply wp_bind, (wp_host_put _ _ _ v); [done|]. apply HQ.
  - apply ok_host_put; [done|done|]. intros v'. by destruct (Hg v').
  - split; try done; cbsimp.
    + intros x Hx. unfold known. cbsimp. apply lookup_insert_is_Some'. by right.
    + intros x. unfold host_has. cbsimp. destruct (decide (x = h)) as [->|]; [by rewrite lookup_insert_eq, Hv|by rewrite lookup_insert_ne].
    + intros x. unfold host_has. cbsimp. destruct (decide (x = h)) as [->|]; [by rewrite lookup_insert_eq, Hv|by rewrite lookup_insert_ne].
Qed.

Lemma keeps_flags_ref n : keeps_flags (fun v => with_refCount (n v) v).
Proof. done. Qed.
Lemma keeps_flags_client : keeps_flags (clear_flag CLIENTDELETED).
Proof.
  intros v. split; [done|]. unfold clear_flag, has. cbsimp. rewrite <- !Z.land_assoc.
  split; do 2 f_equal; done.
Qed.

(** What a step in calm leaves: the tables, and what has been sent. *)
Definition after_calm (KC KF A U : gset Z) (m : list msg) (w w' : world) : Prop :=
  calm w' /\ ok KC KF A U (st w') /\ quietly (st w) (st w') /\ sent w' = sent w ++ m.

Lemma after_calm_trans KC KF A U m1 m2 w1 w2 w3 :
  after_calm KC KF A U m1 w1 w2 -> after_calm KC KF A U m2 w2 w3 -> after_calm KC KF A U (m1 ++ m2) w1 w3.
Proof.
  intros (A1 & A2 & A3 & A4) (B1 & B2 & B3 & B4). split; [done|]. split; [done|]. split; [by apply (quietly_trans _ (st w2))|].
  by rewrite B4, A4, app_assoc.
Qed.

Lemma after_calm_st KC KF A U w s' : calm w -> ok KC KF A U s' -> quietly (st w) s' -> after_calm KC KF A U [] w (set_st s' w).
Proof. intros Hc Hok Hq. split; [done|]. split; [done|]. split; [done|]. cbsimp. by rewrite app_nil_r. Qed.

Lemma after_calm_alike KC KF A U w w' : ok KC KF A U (st w) -> alike w w' -> after_calm KC KF A U [] w w'.
Proof. intros Hok (Hc & Es & Em). split; [done|]. rewrite Es, Em, app_nil_r. split; [done|]. split; [apply quietly_refl|done]. Qed.

Lemma wp_h_TossStuff_calm f KC KF A U h (Q : unit -> world -> Prop) w :
  calm w -> ok KC KF A U (st w) -> known (st w) h -> host_has (st w) h HOSTDELETED = false ->
  (forall w', after_calm KC KF A U [] w w' -> Q tt w') -> wp f (h_TossStuff_r h) Q w.
Proof.
  intros Hc Hok Hk Hd HQ. unfold h_TossStuff_r. apply (wp_host_put_quietly _ KC KF A U); [done|done|apply keeps_flags_ref|].
  intros s1 Hok1 Q1. pose proof (after_calm_st _ _ _ _ _ _ Hc Hok1 Q1) as C1. unfold h_NBLock_r.
  apply wp_bind, wp_bind, wp_unlocked_calm; [done|]. apply wp_answer_calm; [done|]. intros w2 A2.
  pose proof (after_calm_trans _ _ _ _ _ _ _ _ _ C1 (after_calm_alike KC KF A U (set_st s1 w) w2 Hok1 A2)) as C2. clear C1 A2. cbn [app] in C2.
  destruct C2 as (Hc2 & Hok2 & Q2 & M2). apply (wp_host_put_quietly _ KC KF A U); [done|by apply Q2|apply keeps_flags_ref|].
  intros s3 Hok3 Q3. pose proof (quietly_trans _ _ _ Q2 Q3) as Q03. destruct (qu_known _ _ Q03 h Hk) as [v Hv].
  apply wp_bind, (wp_host_at _ _ v); [done|]. assert (Hend : Q tt (set_st s3 w2)) by (apply HQ; split; [done|]; split_and!; done).
  destruct (0 <? refCount v); [by apply wp_ret|]. apply wp_bind, wp_answer_calm; [done|]. intros w4 (Hc4 & E4 & M4).
  assert (Hok4 : ok KC KF A U (st w4)) by (by rewrite E4).
  apply (wp_host_put_quietly _ KC KF A U); [done|rewrite E4; by apply Q03|apply keeps_flags_client|]. intros s5 Hok5 Q5. rewrite E4 in Q5.
  pose proof (quietly_trans _ _ _ Q03 Q5) as Q05. destruct (qu_known _ _ Q05 h Hk) as [v5 Hv5]. apply wp_bind, (wp_host_at _ _ v5); [done|].
  rewrite <- (host_lookup_flags _ _ _ Hv5), (qu_deleted _ _ Q05), Hd. apply wp_ret, HQ. split; [done|]. split; [done|]. split; [done|].
  cbsimp. by rewrite M4.
Qed.

Lemma wp_h_Release_calm f KC KF A U h (Q : unit -> world -> Prop) w :
  calm w -> ok KC KF A U (st w) -> known (st w) h -> host_has (st w) h HOSTDELETED = false ->
  (forall w', after_calm KC KF A U [] w w' -> Q tt w') -> wp f (h_Release_r h) Q w.
Proof.
  intros Hc Hok Hk Hd HQ. unfold h_Release_r. apply (wp_host_put_quietly _ KC KF A U); [done|done|apply keeps_flags_ref|].
  intros s1 Hok1 Q1. pose proof (after_calm_st _ _ _ _ _ _ Hc Hok1 Q1) as C1. destruct (qu_known _ _ Q1 h Hk) as [v Hv].
  apply wp_bind, (wp_host_at _ _ v); [done|]. apply wp_when; intros _; [|by apply HQ].
  apply (wp_h_TossStuff_calm _ KC KF A U); [done|done|by apply Q1|by rewrite (qu_deleted _ _ Q1)|]. intros w' C2.
  apply HQ, (after_calm_trans _ _ _ _ [] [] _ _ _ C1 C2).
Qed.

Definition alive (s : cbs) (e : cbstruct) : Prop := known s (fst e) /\ host_has s (fst e) HOSTDELETED = false.

Lemma alive_quietly s s' l : quietly s s' -> Forall (alive s) l -> Forall (alive s') l.
Proof.
  intros Hq H. eapply Forall_impl; [exact H|]. intros e [H1 H2]. split; [by apply (qu_known _ _ Hq)|by rewrite (qu_deleted _ _ Hq)].
Qed.

Lemma wp_release_all_calm f KC KF A U l (Q : unit -> world -> Prop) w :
  calm w -> ok KC KF A U (st w) -> Forall (alive (st w)) l ->
  (forall w', after_calm KC KF A U [] w w' -> Q tt w') -> wp f (release_all l) Q w.
Proof.
  revert w. induction l as [|e l IH]; intros w Hc Hok Hl HQ; cbn [release_all].
  - apply wp_ret, HQ. split; [done|]. split; [done|]. split; [apply quietly_refl|by rewrite app_nil_r].
  - apply Forall_cons in Hl as [[Hk Hd] Hl]. apply wp_bind, (wp_h_Release_calm _ KC KF A U); try done. intros w1 C1.
    pose proof C1 as (Hc1 & Hok1 & Q1 & _). apply IH; [done|done|by apply (alive_quietly (st w))|].
    intros w' C2. apply HQ, (after_calm_trans _ _ _ _ [] [] _ _ _ C1 C2).
Qed.

(** ** Telling a batch of hosts *)

Lemma wp_MultiBreakCallBack_calm f fuel KC KF A U cba fid (Q : unit -> world -> Prop) w :
  calm w -> ok KC KF A U (st w) -> Forall (alive (st w)) cba -> Z.of_nat (length cba) <= MAX_CB_HOSTS ->
  (forall w', after_calm KC KF A U (tell fid (merge_sort CompareCBA cba)) w w' -> Q tt w') ->
  wp f (MultiBreakCallBack_r fuel cba fid) Q w.
Proof.
  intros Hc Hok Hl Hlen HQ. unfold MultiBreakCallBack_r. rewrite (proj2 (Z.ltb_ge _ _) Hlen). set (l := merge_sort CompareCBA cba) in *.
  assert (Hs : Forall (alive (st w)) l) by (unfold l; by rewrite merge_sort_Permutation).
  apply wp_bind, wp_not_deleted; [done|]. apply wp_bind.
  assert (Hrest : forall w1, after_calm KC KF A U (tell fid l) w w1 -> wp f (release_all l ;; unlocked) Q w1).
  { intros w1 C1. pose proof C1 as (Hc1 & Hok1 & Q1 & _).
    apply wp_bind, (wp_release_all_calm _ KC KF A U); [done|done|by apply (alive_quietly (st w))|]. intros w2 C2.
    apply wp_unlocked_calm; [apply C2|]. apply HQ. rewrite <- (app_nil_r (tell fid l)). by apply (after_calm_trans _ _ _ _ _ _ _ w1). }
  clearbody l. destruct l as [|e r] eqn:El.
  - apply wp_ret, Hrest. split; [done|]. split; [done|]. split; [apply quietly_refl|by rewrite app_nil_r].
  - rewrite <- El in *. apply wp_bind, wp_send_all. apply wp_bind, wp_unlocked_calm; [done|]. apply wp_bind, wp_multi_rx_calm; [done|].
    intros w2 (Hc2 & E2 & M2). apply wp_unlocked_calm; [done|]. apply Hrest. split; [done|]. cbn [st sent_more] in E2. rewrite E2.
    split; [done|]. split; [apply quietly_refl|done].
Qed.

(** ** The loop *)

Lemma delayed_unmarked p : marked (delayed p) = false.
Proof.
  unfold marked, delayed. cbn [p_flags]. rewrite <- Z.land_assoc. change (Z.land (Z.lnot CBFLAG_BREAKING) CBFLAG_BREAKING) with 0.
  by rewrite Z.land_0_r.
Qed.

Lemma fate_unmarked s p q : fate s p = Some q -> marked q = false.
Proof.
  unfold fate. destruct (marked p) eqn:E; [|by intros [= <-]]. destruct (host_has _ _ _); [|done]. intros [= <-]. apply delayed_unmarked.
Qed.

Section Loop.
Context (KC KF : gset Z) (fid : AFSFid) (hx : Z) (flag : bool) (s0 : cbs) (U0 : gset Z).
Context (Hmarks : forall c, c ∈ U0 -> marked (promise_of s0 c) = true ->
  p_fid (promise_of s0 c) = fid /\ p_later (promise_of s0 c) = false /\ to_break hx flag (promise_of s0 c) = true).

(** A promise that is still to be broken, or has met its fate. *)
Definition pending (s : cbs) (U : gset Z) (c : Z) : Prop :=
  marked (promise_of s0 c) = true /\ c ∈ U /\ promise_of s c = promise_of s0 c.
Definition settled (s : cbs) (U : gset Z) (m : list msg) (c : Z) : Prop :=
  match fate s0 (promise_of s0 c) with
  | None => (c ∉ U) /\ (host_has s0 (p_host (promise_of s0 c)) HOSTDELETED = false -> RXAFSCB_CallBack (p_host (promise_of s0 c)) [fid] ∈ m)
  | Some p => c ∈ U /\ promise_of s c = p
  end.

Record halfway (A U : gset Z) (w : world) : Prop := {
  hw_calm : calm w;
  hw_ok : ok KC KF A U (st w);
  hw_sub : U ⊆ U0;
  hw_known : forall h, known s0 h -> known (st w) h;
  hw_down : forall h, host_has (st w) h VENUSDOWN = host_has s0 h VENUSDOWN;
  hw_deleted : forall h, host_has (st w) h HOSTDELETED = host_has s0 h HOSTDELETED;
  hw_all : forall c, c ∈ U0 -> settled (st w) U (sent w) c \/ pending (st w) U c
}.

Lemma halfway_step A U w l A' U' s1 w' cba :
  halfway A U w -> collected l U (st w) U' s1 -> after_calm KC KF A' U' (tell fid cba) (set_st s1 w) w' ->
  (forall e, e ∈ targets (st w) l -> e ∈ cba) -> halfway A' U' w'.
Proof using.
  intros [H1 H2 H3 H3' H4 H5 H6] Hco (C1 & C2 & C3 & C4) Hcba. cbsimp. pose proof (co_flags _ _ _ _ _ Hco) as Hfl.
  assert (Hp : forall c, promise_of (st w') c = promise_of s1 c) by (intros c; by apply quietly_promise).
  assert (Hfate : forall p, fate (st w) p = fate s0 p) by (intros p; unfold fate; by rewrite H4).
  split; try done.
  - intros c Hc. by apply H3, (co_sub _ _ _ _ _ Hco).
  - intros h Hh. apply (qu_known _ _ C3), (ev_known _ _ (proj1 (co_evolves _ _ _ _ _ Hco))). auto.
  - intros h. by rewrite (qu_down _ _ C3), (same_flags_has _ _ _ _ Hfl).
  - intros h. by rewrite (qu_deleted _ _ C3), (same_flags_has _ _ _ _ Hfl).
  - intros c Hc. unfold settled, pending. rewrite Hp, C4. destruct (H6 c Hc) as [Hs|(P1 & P2 & P3)].
    + left. unfold settled in Hs. destruct (fate s0 (promise_of s0 c)) as [p|] eqn:Ef.
      * destruct Hs as [HcU Ep]. pose proof (fate_unmarked _ _ _ Ef) as Hum. destruct (decide (c ∈ l)) as [Hcl|Hcl].
        -- pose proof (co_done _ _ _ _ _ Hco c Hcl) as Hd. rewrite Ep in Hd. unfold fate in Hd. by rewrite Hum in Hd.
        -- destruct (co_rest _ _ _ _ _ Hco c HcU Hcl) as [? ->]. done.
      * destruct Hs as [HcU Hm]. split; [intros Hx; by apply HcU, (co_sub _ _ _ _ _ Hco)|]. intros Hd. apply elem_of_app. left. auto.
    + destruct (decide (c ∈ l)) as [Hcl|Hcl].
      * left. pose proof (co_done _ _ _ _ _ Hco c Hcl) as Hd. rewrite P3, Hfate in Hd. destruct (fate s0 (promise_of s0 c)) as [p|] eqn:Ef; [done|].
        split; [done|]. intros Hdel. apply elem_of_app. right. unfold fate in Ef. rewrite P1 in Ef.
        destruct (host_has s0 (p_host (promise_of s0 c)) VENUSDOWN) eqn:Edown; [done|].
        apply list_elem_of_In, in_map_iff. exists (p_host (promise_of s0 c), p_queue (promise_of s0 c)). split; [done|].
        apply list_elem_of_In, Hcba. apply list_elem_of_omap. exists c. split; [done|]. rewrite P3. unfold target. by rewrite P1, H4, H5, Edown, Hdel.
      * right. destruct (co_rest _ _ _ _ _ Hco c P2 Hcl) as [? ->]. done.
Qed.

(** The promises that are marked now. *)
Definition marks (s : cbs) (U : gset Z) : gset Z := filter (fun c => marked (promise_of s c) = true) U.

Lemma halfway_marked A U w c : halfway A U w -> c ∈ U -> marked (promise_of (st w) c) = true -> pending (st w) U c.
Proof using.
  intros H Hc Hm. destruct (hw_all _ _ _ H c) as [Hs|]; [by apply (hw_sub _ _ _ H)| |done]. exfalso. unfold settled in Hs.
  destruct (fate s0 (promise_of s0 c)) as [p|] eqn:Ef; [|by destruct Hs]. destruct Hs as [_ E]. apply fate_unmarked in Ef. congruence.
Qed.

Lemma halfway_done A U w : halfway A U w -> (forall c, ~ pending (st w) U c) -> forall c, c ∈ U0 -> settled (st w) U (sent w) c.
Proof using. intros H Hno c Hc. destruct (hw_all _ _ _ H c Hc) as [?|Hp]; [done|]. by destruct (Hno c). Qed.

Lemma collected_marks l U s U' s' c :
  collected l U s U' s' -> c ∈ U' -> marked (promise_of s' c) = true -> (c ∉ l) /\ promise_of s' c = promise_of s c.
Proof using.
  intros Hco Hc Hm. assert (Hcl : c ∉ l).
  { intros Hcl. pose proof (co_done _ _ _ _ _ Hco c Hcl) as Hd. destruct (fate s (promise_of s c)) as [p|] eqn:Ef; [|done].
    destruct Hd as [_ E]. apply fate_unmarked in Ef. congruence. }
  split; [done|]. apply (co_rest _ _ _ _ _ Hco); [by apply (co_sub _ _ _ _ _ Hco)|done].
Qed.

(** Where a pending promise is. *)
Lemma pending_file A U w c fe :
  halfway A U w -> pending (st w) U c -> fe ∈ A -> later (st w) fe = false -> fe_fid (st w) fe = fid -> fhead (CB (st w) c) = fe.
Proof using Hmarks.
  intros H (P1 & P2 & P3) Hfe Hlat Hfid. destruct (Hmarks c (hw_sub _ _ _ H c P2) P1) as (E1 & E2 & _). rewrite <- P3 in E1, E2.
  apply (hp_unique _ _ (cp_hash _ _ _ _ _ _ (ok_c _ _ _ _ _ (hw_ok _ _ _ H)))); [by apply (ok_file _ _ _ _ _ _ (hw_ok _ _ _ H))|done|done|done|].
  by rewrite Hfid.
Qed.

(** Looking for the file again: what is pending is on its chain. *)
Lemma wp_refind f A U (Q : unit -> world -> Prop) w (K : Z -> M unit) :
  halfway A U w -> ((forall c, ~ pending (st w) U c) -> Q tt w) ->
  (forall fe l, fe ∈ A -> chain (cn (st w)) (firstcb (FE (st w) fe)) l -> NoDup l -> (forall x, x ∈ l -> x ∈ U) ->
     (forall c, pending (st w) U c -> c ∈ l) -> wp f (K fe) Q w) ->
  wp f (do fe <- FindFE fid;
        if fe =? 0 then ret tt
        else do nothing <- nothing_to_break fe hx flag; if nothing then ret tt else K fe) Q w.
Proof using Hmarks.
  intros H H0 HK. pose proof (hw_ok _ _ _ H) as Hok. apply wp_bind, (wp_FindFE _ _ A); [by apply Hok| |].
  - intros Hno. apply wp_ret, H0. intros c (P1 & P2 & P3). destruct (Hmarks c (hw_sub _ _ _ H c P2) P1) as (E1 & E2 & _).
    rewrite <- P3 in E1, E2. by apply (Hno _ (ok_file _ _ _ _ _ _ Hok P2)).
  - intros fe Hfe Hlat Hfid. pose proof (ok_fe_tab _ _ _ _ _ _ Hok Hfe) as Hin. rewrite (proj2 (Z.eqb_neq fe 0)) by (unfold in_tab in Hin; lia).
    destruct (fp_file _ _ _ (cp_file _ _ _ _ _ _ (ok_c _ _ _ _ _ Hok)) fe) as (l & Hl & Hnd & Hlen & Hm); [apply elem_of_union; by left|].
    assert (Hpl : forall c, pending (st w) U c -> c ∈ l) by (intros c Hp; apply Hm; split; [apply Hp|by apply (pending_file A U)]).
    assert (HlU : forall x, x ∈ l -> x ∈ U) by (intros x Hx; by apply Hm).
    apply wp_bind. unfold nothing_to_break. apply wp_bind, wp_fe_at; [done|]. destruct (firstcb (FE (st w) fe) =? 0) eqn:E0.
    { apply wp_ret, wp_ret, H0. intros c Hc%Hpl. destruct l as [|x l]; [by apply not_elem_of_nil in Hc|]. cbn [chain] in Hl. lia. }
    pose proof Hl as Hl'. destruct l as [|x l]; cbn [chain] in Hl'; [lia|]. destruct Hl' as (E1 & _). rewrite E1.
    apply wp_bind, wp_cb_at; [apply (ok_tab _ _ _ _ _ _ Hok), HlU; left|]. apply wp_ret. destruct (_ && negb flag) eqn:Eb; [|by apply (HK fe (x :: l))].
    apply wp_ret, H0. intros c Hc. pose proof (Hpl c Hc) as Hcl. destruct l as [|y l]; [|cbn [length] in Hlen; lia].
    apply list_elem_of_singleton in Hcl as ->. destruct Hc as (P1 & P2 & P3). destruct (Hmarks x (hw_sub _ _ _ H x P2) P1) as (_ & _ & E3).
    unfold to_break in E3. rewrite <- P3 in E3. cbn [promise_of p_host] in E3. lia.
Qed.

Lemma wp_break_loop_calm fuel A U cb l (Q : unit -> world -> Prop) w :
  halfway A U w -> chain (cn (st w)) cb l -> NoDup l -> (forall x, x ∈ l -> x ∈ U) ->
  (forall c, pending (st w) U c -> c ∈ l) -> (size (marks (st w) U) < fuel)%nat ->
  (forall A' U' w', halfway A' U' w' -> (forall c, ~ pending (st w') U' c) -> Q tt w') ->
  wp False (break_loop fuel cb fid hx flag) Q w.
Proof using Hmarks.
  revert A U cb l w. induction fuel as [|fuel IH]; intros A U cb l w H Hl Hnd HU Hpl Hsz HQ; [lia|]. cbn [break_loop].
  destruct (Z.eqb_spec cb 0) as [->|Hcb].
  { apply wp_ret, (HQ A U); [done|]. intros c Hc%Hpl. destruct l as [|x l]; [by apply not_elem_of_nil in Hc|]. by destruct Hl as (? & ? & _). }
  pose proof (hw_ok _ _ _ H) as Hok. apply wp_bind, wp_get.
  apply wp_bind, (wp_break_collect _ _ KC KF A U cb l []); try done; [by apply (chain_tab _ _ _ _ _ _ Hok)|].
  intros A' U' s' l1 l2 cb' -> Hok' Hco Hl2 HU2 Hfull Hmax. cbn [app] in Hfull, Hmax |- *.
  assert (Hsub : forall w', quietly s' (st w') -> marks (st w') U' ⊆ marks (st w) U).
  { intros w' Hq c [Hm Hc]%elem_of_filter. rewrite (quietly_promise _ _ c Hq) in Hm. apply elem_of_filter.
    destruct (collected_marks _ _ _ _ _ c Hco Hc Hm) as [_ E]. rewrite <- E. split; [done|]. by apply (co_sub _ _ _ _ _ Hco). }
  destruct (targets (st w) l1) as [|e cba] eqn:ET.
  - assert (cb' = 0) as -> by (destruct (Z.eq_dec cb' 0); [done|]; specialize (Hfull n); cbn in Hfull; unfold MAX_CB_HOSTS in Hfull; lia).
    assert (l2 = []) as -> by (destruct l2 as [|x l2]; [done|]; by destruct Hl2 as (? & ? & _)).
    assert (H' : halfway A' U' (set_st s' w)).
    { apply (halfway_step A U w l1 A' U' s' (set_st s' w) []); [done|done| |by rewrite ET].
      split; [apply H|]. split; [done|]. split; [apply quietly_refl|cbsimp; by rewrite app_nil_r]. }
    destruct fuel; apply wp_ret, (HQ A' U'); try done; intros c (P1 & P2 & P3); cbsimp;
      (destruct (collected_marks _ _ _ _ _ c Hco P2) as [Hc E]; [by rewrite P3|]);
      apply Hc; rewrite app_nil_r in Hpl; apply Hpl; (split; [done|]); (split; [by apply (co_sub _ _ _ _ _ Hco)|by rewrite <- E]).
  - rewrite <- ET in *. assert (Hal : Forall (alive s') (targets (st w) l1)).
    { apply Forall_forall. intros t (x & Hx & Ht)%list_elem_of_omap. unfold target in Ht. destruct (_ && negb (host_has _ _ HOSTDELETED)) eqn:Eb; [|done].
      injection Ht as <-. cbn [fst]. apply andb_true_iff in Eb as [_ Eb]. split.
      - apply (ev_known _ _ (proj1 (co_evolves _ _ _ _ _ Hco))). apply (ok_h _ _ _ _ _ Hok), HU, elem_of_app. by left.
      - cbn [fst]. rewrite (same_flags_has _ _ _ _ (co_flags _ _ _ _ _ Hco)). by apply negb_true_iff. }
    apply wp_bind, (wp_MultiBreakCallBack_calm _ _ KC KF A' U'); [apply H|done|done|done|]. intros w2 C2.
    assert (H2 : halfway A' U' w2).
    { apply (halfway_step A U w l1 A' U' s' w2 _ H Hco C2). intros t Ht. by rewrite merge_sort_Permutation. }
    apply (wp_refind _ A' U' _ _ (fun fe => do f <- fe_at fe; break_loop fuel (firstcb f) fid hx flag)); [done|by apply (HQ A' U')|].
    intros fe l' Hfe Hl' Hnd' HU' Hpl'. apply wp_bind, wp_fe_at; [by apply (ok_fe_tab _ _ _ _ _ _ (hw_ok _ _ _ H2))|].
    apply (IH A' U' _ l'); try done. apply Nat.lt_le_trans with (size (marks (st w) U)); [|lia]. apply subset_size. split; [by apply Hsub; apply C2|].
    intros Hsup. assert (He : e ∈ targets (st w) l1) by (rewrite ET; left). apply list_elem_of_omap in He as (x & Hx & Ht).
    unfold target in Ht. destruct (_ && _ && _) eqn:Eb; [|done]. apply andb_true_iff in Eb as [[Em Ed]%andb_true_iff _].
    assert (Hxm : x ∈ marks (st w) U) by (apply elem_of_filter; split; [done|]; apply HU, elem_of_app; by left).
    apply Hsup, elem_of_filter in Hxm as [_ HxU]. pose proof (co_done _ _ _ _ _ Hco x Hx) as Hd. unfold fate in Hd. rewrite Em in Hd.
    apply negb_true_iff in Ed. by rewrite Ed in Hd.
Qed.
End Loop.

(** ** The whole handler *)

Definition put_delayed (p : promise) : promise := mkPromise (p_host p) (p_fid p) (p_later p) (p_queue p) CB_DELAYED (p_flags p).

(** Does breaking [fid] on behalf of [h] concern the promise? *)
Definition concerns (fid : AFSFid) (h : Z) (flag : bool) (p : promise) : bool :=
  bool_decide (p_fid p = fid) && negb (p_later p) && to_break h flag p.

(** What became of the promise [c] of the tables [s]. *)
Definition told (fid : AFSFid) (h : Z) (flag : bool) (s : cbs) (U' : gset Z) (w' : world) (c : Z) : Prop :=
  let p := promise_of s c in
  if concerns fid h flag p then
    if host_has s (p_host p) VENUSDOWN then c ∈ U' /\ promise_of (st w') c = put_delayed p
    else (c ∉ U') /\ (host_has s (p_host p) HOSTDELETED = false -> RXAFSCB_CallBack (p_host p) [fid] ∈ sent w')
  else c ∈ U' /\ promise_of (st w') c = p.

Lemma flag_set x : Z.land (Z.lor x 1) 1 = 1.
Proof.
  rewrite Z.land_lor_distr_l. change (Z.land 1 1) with 1. apply Z.bits_inj'. intros n Hn. rewrite Z.lor_spec, Z.land_spec.
  destruct (Z.testbit 1 n); [by rewrite orb_true_r|by rewrite andb_false_r].
Qed.

Lemma flag_set_clear x : Z.land x 1 = 0 -> Z.land (Z.lor x 1) (Z.lnot 1) = x.
Proof.
  intros H. apply Z.bits_inj'. intros n Hn. rewrite Z.land_spec, Z.lor_spec, Z.lnot_spec by done.
  pose proof (f_equal (fun z => Z.testbit z n) H) as Hn'. cbn beta in Hn'. rewrite Z.land_spec, Z.bits_0 in Hn'.
  destruct (Z.testbit x n), (Z.testbit 1 n); done.
Qed.

Section Break.
Context (KC KF A U : gset Z) (fid : AFSFid) (h : Z) (flag : bool) (s s1 : cbs) (fe : Z) (l : list Z).
Context (Hok : ok KC KF A U s) (Hun : forall c, c ∈ U -> marked (promise_of s c) = false).
Context (Hm : forall x, x ∈ l <-> x ∈ U /\ p_fid (promise_of s x) = fid /\ p_later (promise_of s x) = false).
Context (EF : FE s1 = FE s) (EH : same_flags s s1).
Context (EC : forall x, CB s1 x = if bool_decide (x ∈ l) && to_break h flag (promise_of s x)
  then with_flags (Z.lor (cb_flags (CB s x)) CBFLAG_BREAKING) (CB s x) else CB s x).

Lemma concerns_iff c : c ∈ U -> concerns fid h flag (promise_of s c) = bool_decide (c ∈ l) && to_break h flag (promise_of s c).
Proof using Hm.
  intros Hc. unfold concerns. f_equal. apply eq_true_iff_eq. rewrite andb_true_iff, !bool_decide_eq_true, negb_true_iff, Hm. tauto.
Qed.

Lemma marked_promise c : c ∈ U ->
  promise_of s1 c = if concerns fid h flag (promise_of s c)
    then with_pflags (Z.lor (p_flags (promise_of s c)) CBFLAG_BREAKING) (promise_of s c) else promise_of s c.
Proof using Hm EF EC.
  intros Hc. rewrite concerns_iff by done. unfold promise_of at 1, fe_fid, later. rewrite EF, EC. by destruct (_ && _).
Qed.

Lemma marked_concerns c : c ∈ U -> marked (promise_of s1 c) = concerns fid h flag (promise_of s c).
Proof using Hun Hm EF EC.
  intros Hc. rewrite marked_promise by done. destruct (concerns _ _ _ _); [|by apply Hun]. unfold marked, with_pflags. cbn [p_flags].
  unfold CBFLAG_BREAKING. by rewrite flag_set.
Qed.

Lemma settled_told U' w' c : c ∈ U -> settled fid s1 (st w') U' (sent w') c -> told fid h flag s U' w' c.
Proof using Hun Hm EF EC EH.
  intros Hc. unfold settled, told, fate. rewrite marked_concerns by done. rewrite (marked_promise c Hc). cbn zeta.
  destruct (concerns _ _ _ _) eqn:E; [|done]. cbn [p_host with_pflags]. rewrite !(same_flags_has _ _ _ _ EH).
  destruct (host_has s _ VENUSDOWN); [|done]. intros [H1 ->]. split; [done|]. unfold delayed, put_delayed, with_pflags.
  cbn [p_host p_fid p_later p_queue p_flags]. f_equal. apply flag_set_clear. specialize (Hun c Hc). unfold marked in Hun.
  unfold CBFLAG_BREAKING in Hun. lia.
Qed.
End Break.

Lemma told_nothing KC KF A U fid h flag w :
  ok KC KF A U (st w) -> (forall c, c ∈ U -> concerns fid h flag (promise_of (st w) c) = false) ->
  forall c, c ∈ U -> told fid h flag (st w) U w c.
Proof. intros _ H c Hc. unfold told. by rewrite H. Qed.

(** [BreakCallBack] in calm. *)
Lemma wp_BreakCallBack_calm fuel KC KF A U h fid flag (Q : unit -> world -> Prop) w :
  calm w -> ok KC KF A U (st w) -> (forall c, c ∈ U -> marked (promise_of (st w) c) = false) ->
  nblks (st w) < Z.of_nat fuel ->
  (forall A' U' w', calm w' -> ok KC KF A' U' (st w') -> U' ⊆ U -> (forall c, c ∈ U -> told fid h flag (st w) U' w' c) -> Q tt w') ->
  wp False (BreakCallBack fuel (Some h) fid flag) Q w.
Proof.
  intros Hc Hok Hun Hfuel HQ. unfold BreakCallBack.
  assert (Hsame : (forall c, c ∈ U -> concerns fid h flag (promise_of (st w) c) = false) -> Q tt w).
  { intros Hno. apply (HQ A U); try done. by apply (told_nothing KC KF A U). }
  apply wp_bind, (wp_FindFE _ _ A); [by apply Hok| |].
  { intros Hno. apply wp_ret, Hsame. intros c HcU. unfold concerns. destruct (p_later _) eqn:El; [by rewrite andb_false_r|].
    rewrite bool_decide_false; [done|]. apply (Hno (fhead (CB (st w) c))); [by apply (ok_file _ _ _ _ _ _ Hok)|done]. }
  intros fe Hfe Hlat Hfid. pose proof (ok_fe_tab _ _ _ _ _ _ Hok Hfe) as Hin. rewrite (proj2 (Z.eqb_neq fe 0)) by (unfold in_tab in Hin; lia).
  destruct (fp_file _ _ _ (cp_file _ _ _ _ _ _ (ok_c _ _ _ _ _ Hok)) fe) as (l & Hl & Hnd & Hlen & Hm0); [apply elem_of_union; by left|].
  assert (Hm : forall x, x ∈ l <-> x ∈ U /\ p_fid (promise_of (st w) x) = fid /\ p_later (promise_of (st w) x) = false).
  { intros x. rewrite Hm0. cbn [promise_of p_fid p_later]. split; [by intros [? ->]|]. intros (Hx & E1 & E2). split; [done|].
    apply (hp_unique _ _ (cp_hash _ _ _ _ _ _ (ok_c _ _ _ _ _ Hok))); [by apply (ok_file _ _ _ _ _ _ Hok)|done|done|done|congruence]. }
  assert (HlU : forall x, x ∈ l -> x ∈ U) by (intros x Hx; by apply Hm). cbv zeta.
  apply wp_bind. unfold nothing_to_break. apply wp_bind, wp_fe_at; [done|]. destruct (firstcb (FE (st w) fe) =? 0) eqn:E0.
  { apply wp_ret, wp_ret, Hsame. intros c HcU. rewrite (concerns_iff U fid h flag (st w) l) by done. rewrite bool_decide_false; [done|].
    intros Hx. destruct l as [|x l]; [by apply not_elem_of_nil in Hx|]. cbn [chain] in Hl. lia. }
  destruct l as [|x l]; [cbn [chain] in Hl; lia|]. pose proof Hl as (E1 & _). rewrite E1.
  apply wp_bind, wp_cb_at; [apply (ok_tab _ _ _ _ _ _ Hok), HlU; left|]. apply wp_ret. destruct (_ && negb flag) eqn:Eb.
  { apply wp_ret, Hsame. intros c HcU. rewrite (concerns_iff U fid h flag (st w) (x :: l)) by done.
    destruct (bool_decide_reflect (c ∈ x :: l)) as [Hcl|]; [|done]. destruct l as [|y l]; [|cbn [length] in Hlen; lia].
    apply list_elem_of_singleton in Hcl as ->. unfold to_break. cbn [promise_of p_host]. lia. }
  apply wp_bind, wp_get, wp_bind, wp_fe_at; [done|].
  apply wp_bind, (wp_mark_breaking _ _ KC KF A U _ _ _ (x :: l)); try done; [by apply (chain_tab _ _ _ _ _ _ Hok)|].
  intros s1 Hok1 F1 _ EC EF _. apply wp_bind, wp_fe_at; [unfold in_tab; cbsimp; by rewrite (fr_n _ _ _ _ _ _ F1)|]. cbsimp.
  pose proof (frame_flags _ _ _ _ _ _ F1) as EH. rewrite EF, (proj2 (Z.eqb_neq (firstcb (FE (st w) fe)) 0)) by lia.
  assert (Hmk : forall c, c ∈ U -> marked (promise_of s1 c) = concerns fid h flag (promise_of (st w) c))
    by (intros c HcU; by apply (marked_concerns U fid h flag (st w) s1 (x :: l))).
  apply (wp_break_loop_calm KC KF fid h flag s1 U) with (A := A) (U := U) (l := x :: l); try done; cbsimp.
  - intros c HcU Hmc. rewrite Hmk in Hmc by done. rewrite (marked_promise U fid h flag (st w) s1 (x :: l)) by done. rewrite Hmc.
    unfold concerns in Hmc. apply andb_true_iff in Hmc as [[M1 M2]%andb_true_iff M3]. apply bool_decide_eq_true in M1. apply negb_true_iff in M2. done.
  - split; try done. intros c HcU. unfold settled, pending, fate. cbsimp. destruct (marked (promise_of s1 c)) eqn:E; [right|left]; done.
  - revert Hl. apply chain_ext. intros y _. unfold cn. rewrite EC. by destruct (bool_decide (y ∈ x :: l) && _).
  - intros c (P1 & HcU & _). rewrite Hmk in P1 by done. rewrite (concerns_iff U fid h flag (st w) (x :: l)) in P1 by done.
    apply andb_true_iff in P1 as [P1 _]. by apply bool_decide_eq_true in P1.
  - pose proof (ok_size _ _ _ _ _ Hok). assert (size (marks s1 U) <= size U)%nat by (apply subseteq_size; by intros y [_ ?]%elem_of_filter). unfold in_tab in Hin. lia.
  - intros A' U' w' H Hno. apply (HQ A' U'); [apply H|apply H|apply H|]. intros c HcU.
    apply (settled_told U fid h flag (st w) s1 (x :: l)); try done. by apply (halfway_done KC KF fid s1 U A').
Qed.
