(* ===== verification/CbServer.v ===== *)
(** * Call-backs: the file server's promises

    The theorems about the handlers, for any state that they reach: from
    [InitCallBack] on no sequence of requests panics, a promise outlives what the
    client was told, exactly the promises that have run out are cleaned up, and when a
    file changes every other client is told. *)

From stdpp Require Import prelude list gmap list_numbers.
From Stdlib Require Import ZArith Lia ZifyBool.
From S2P Require Import Prelude ByteMem CbTab Callback CbRing CbOk CbFile CbOps CbAdd CbInv CbSafe CbBreak CbHandlers CbLater CbNotify.

#[local] Open Scope Z_scope.
#[local] Open Scope cb_scope.

(** ** The call-backs in the tables *)

(** What the links [nx] lead to from [hd]. *)
Inductive linked (nx : Z -> Z) (hd : Z) : Z -> Prop :=
| linked_head : hd <> 0 -> linked nx hd hd
| linked_next x : linked nx hd x -> nx x <> 0 -> linked nx hd (nx x).

(** The call-back [c] is on the chain of a file that is in the hash table. *)
Definition in_tables (s : cbs) (c : Z) : Prop :=
  exists b fe, 0 <= b < FEHASH_SIZE /\ linked (fun x => fnext (FE s x)) (HashTable s b) fe
    /\ linked (fun x => cnext (CB s x)) (firstcb (FE s fe)) c.

Lemma chain_linked nx hd l x : chain nx hd l -> x ∈ l <-> linked nx hd x.
Proof.
  intros Hl. split.
  - intros Hx. apply list_elem_of_split in Hx as (l1 & l2 & ->). revert x l2 Hl.
    induction l1 as [|y l1 IH] using rev_ind; intros x l2 Hl.
    + destruct Hl as (-> & Hx & _). by apply linked_head.
    + rewrite <- app_assoc in Hl. cbn [app] in Hl. pose proof (IH _ _ Hl) as Hy. destruct (chain_split _ _ _ _ _ Hl) as ((E & Hx & _) & _).
      rewrite <- E. apply linked_next; [done|]. by rewrite E.
  - induction 1 as [H0|x Hx IH H0].
    + destruct l as [|a l]; [done|]. destruct Hl as (-> & _). left.
    + destruct (chain_next _ _ _ _ Hl IH) as [?|?]; done.
Qed.

Lemma in_tables_iff KC KF A U s c : ok KC KF A U s -> in_tables s c <-> c ∈ U.
Proof.
  intros Hok. pose proof (ok_c _ _ _ _ _ Hok) as HC. pose proof (cp_hash _ _ _ _ _ _ HC) as HH. pose proof (cp_file _ _ _ _ _ _ HC) as HF.
  assert (Hcbs : forall fe, fe ∈ A -> linked (fun x => cnext (CB s x)) (firstcb (FE s fe)) c <-> c ∈ U /\ fhead (CB s c) = fe).
  { intros fe Hfe. destruct (fp_file _ _ _ HF fe) as (l & Hl & _ & _ & Hm); [apply elem_of_union; by left|].
    rewrite <- (chain_linked _ _ _ _ Hl). apply Hm. }
  split.
  - intros (b & fe & Hb & Hfe & Hc). destruct (hp_chain _ _ HH b Hb) as (l & Hl & _ & Hm).
    apply (chain_linked _ _ _ _ Hl), Hm in Hfe as [HfA _]. by apply (proj1 (Hcbs fe HfA)) in Hc as [? _].
  - intros Hc. pose proof (ok_file _ _ _ _ _ _ Hok Hc) as HfA. set (fe := fhead (CB s c)) in *.
    exists (fe_hash s fe), fe. split; [apply FEHash_range|]. destruct (hp_chain _ _ HH (fe_hash s fe)) as (l & Hl & _ & Hm); [apply FEHash_range|].
    split; [by apply (chain_linked _ _ _ _ Hl), Hm|]. by apply Hcbs.
Qed.

(** ** Start *)

(** The file server when it starts: no call-backs yet. *)
Record fresh (s : cbs) : Prop := {
  fr_lists : FEfree s = 0 /\ CBfree s = 0;
  fr_hash : forall b, HashTable s b = 0;
  fr_queues : forall q, timeout s q = 0;
  fr_host : forall h v, hosts s !! h = Some v -> cblist v = 0;
  fr_hosts_ok : hosts_ok s
}.

Definition upto (n : nat) : gset Z := list_to_set (seqZ 1 (Z.of_nat n)).
Lemma elem_of_upto n x : x ∈ upto n <-> 1 <= x <= Z.of_nat n.
Proof. unfold upto. rewrite elem_of_list_to_set, elem_of_seqZ. lia. Qed.
Lemma upto_less n : upto (S n) ∖ {[Z.of_nat (S n)]} = upto n.
Proof. apply set_eq. intros x. rewrite elem_of_difference, elem_of_singleton, !elem_of_upto. lia. Qed.

Lemma wp_free_fes f n (Q : unit -> world -> Prop) w :
  Ffree (st w) (upto n) -> Z.of_nat n <= nblks (st w) -> addresses (st w) ->
  (forall s', Ffree s' ∅ -> frame false false true ∅ (st w) s' -> CB s' = CB (st w) -> CBfree s' = CBfree (st w) ->
     HashTable s' = HashTable (st w) -> Q tt (set_st s' w)) -> wp f (free_fes n) Q w.
Proof.
  revert w. induction n as [|n IH]; intros w HF Hn Ha HQ; cbn [free_fes].
  - apply wp_ret. replace w with (set_st (st w) w) by (by destruct w). apply HQ; try done.
  - assert (Hin : in_tab (st w) (Z.of_nat (S n))) by (unfold in_tab; lia).
    apply wp_bind, wp_iFreeFE; [done|]. apply IH; cbsimp.
    + rewrite <- upto_less. apply Ffree_freed; try done. apply elem_of_upto. lia.
    + change (nblks (freed_fe (Z.of_nat (S n)) (st w))) with (nblks (st w)). lia.
    + by apply (addresses_frame _ _ _ _ _ _ (frame_freed_fe (Z.of_nat (S n)) (st w))).
    + intros s' HF' F' E1 E2 E3. apply HQ; [done| |by rewrite E1|by rewrite E2|by rewrite E3].
      apply (frame_trans0 _ _ _ _ _ _ _ _ _ (frame_freed_fe (Z.of_nat (S n)) (st w)) F').
Qed.

Lemma frame_freed_cb c s : frame false false true ∅ s (freed_cb c s).
Proof. split; try done; cbsimp; intros; repeat split; intros; unfold freed_cb; cbsimp; upd_case; done. Qed.

Lemma wp_free_cbs f n (Q : unit -> world -> Prop) w :
  Cfree (st w) (upto n) -> Z.of_nat n <= nblks (st w) -> addresses (st w) ->
  (forall s', Cfree s' ∅ -> frame false false true ∅ (st w) s' -> FE s' = FE (st w) -> FEfree s' = FEfree (st w) ->
     HashTable s' = HashTable (st w) -> Q tt (set_st s' w)) -> wp f (free_cbs n) Q w.
Proof.
  revert w. induction n as [|n IH]; intros w HF Hn Ha HQ; cbn [free_cbs].
  - apply wp_ret. replace w with (set_st (st w) w) by (by destruct w). apply HQ; try done.
  - assert (Hin : in_tab (st w) (Z.of_nat (S n))) by (unfold in_tab; lia).
    apply wp_bind, wp_iFreeCB; [done|]. apply IH; cbsimp.
    + rewrite <- upto_less. apply Cfree_freed; try done. apply elem_of_upto. lia.
    + change (nblks (freed_cb (Z.of_nat (S n)) (st w))) with (nblks (st w)). lia.
    + by apply (addresses_frame _ _ _ _ _ _ (frame_freed_cb (Z.of_nat (S n)) (st w))).
    + intros s' HF' F' E1 E2 E3. apply HQ; [done| |by rewrite E1|by rewrite E2|by rewrite E3].
      apply (frame_trans0 _ _ _ _ _ _ _ _ _ (frame_freed_cb (Z.of_nat (S n)) (st w)) F').
Qed.

Lemma wp_InitCallBack f n feaddr cbaddr (Q : unit -> world -> Prop) w :
  fresh (st w) -> 0 < n < 2 ^ 31 -> 0 < feaddr -> 0 < cbaddr ->
  (forall s', ok ∅ ∅ ∅ ∅ s' -> nblks s' = n -> hosts_ok s' -> hostList s' = hostList (st w) ->
     (forall h, known (st w) h -> known s' h) -> clock s' = clock (st w) -> Q tt (set_st s' w)) ->
  wp f (InitCallBack n feaddr cbaddr) Q w.
Proof.
  intros [[R1 R2] R3 R4 R5 R6] Hn Hfe Hcb HQ. unfold InitCallBack. replace (0 <? n) with true by lia. cbn [negb].
  apply wp_bind, wp_get. rewrite (proj2 (Z.eqb_neq feaddr 0)), (proj2 (Z.eqb_neq cbaddr 0)) by lia. apply wp_bind, wp_modify. cbsimp.
  set (s1 := mkCbs _ _ _ _ _ _ _ _ _ _ _ _ _ _ _).
  assert (Ha : addresses s1) by (unfold addresses, s1, sizeof_entry; cbsimp; lia).
  apply wp_bind, wp_free_fes; [| |done|].
  { exists []. split; [done|]. split; [by apply NoDup_nil|by intros fe ?%not_elem_of_nil]. }
  { change (nblks (st (set_st s1 w))) with n. lia. }
  cbsimp. intros s2 HF2 F2 EC2 Ef2 EH2. apply wp_free_cbs; cbsimp.
  { exists []. split; [cbn [pchain]; by rewrite Ef2|]. split; [by apply NoDup_nil|by intros fe ?%not_elem_of_nil]. }
  { rewrite (fr_n _ _ _ _ _ _ F2). unfold s1. cbsimp. lia. }
  { by apply (addresses_frame _ _ _ _ _ _ F2). }
  intros s3 HC3 F3 EF3 Ef3 EH3. pose proof (frame_trans0 _ _ _ _ _ _ _ _ _ F2 F3) as F. cbn [orb] in F.
  destruct (fr_t _ _ _ _ _ _ F eq_refl) as [Et _]. destruct (fr_l _ _ _ _ _ _ F eq_refl) as [El _].
  assert (Hnone : forall c, c ∈ (∅ : gset Z) <-> False) by (intros c; split; [by intros ?%not_elem_of_empty|done]).
  destruct (frame_evolves _ _ _ _ _ _ F) as [[_ Ek _] Hh]. apply HQ.
  - split; [split| | |].
    + rewrite union_empty_l_L. split; intros x; intros; exfalso; by apply (not_elem_of_empty (C := gset Z) x).
    + split; [|intros x Hx; exfalso; by apply Hnone in Hx|intros x y Hx; exfalso; by apply Hnone in Hx]. intros b _. exists []. rewrite EH3, EH2.
      split; [apply R3|]. split; [by apply NoDup_nil|]. intros x. rewrite Hnone. split; [by intros ?%not_elem_of_nil|tauto].
    + by rewrite union_empty_l_L.
    + rewrite !union_empty_l_L. apply (Ffree_ext s2 _ ∅); try done; try apply F3. intros x _. by rewrite EF3.
    + by apply (addresses_frame _ _ _ _ _ _ F).
    + split_and!; intros x; by rewrite ?union_empty_l_L, Hnone.
    + intros x. by rewrite !union_empty_l_L, Hnone.
    + intros q _ _. exists []. rewrite Et. split; [split; [done|apply R4]|]. split; [by apply NoDup_nil|].
      intros x. rewrite Hnone. split; [by intros ?%not_elem_of_nil|tauto].
    + intros h v Hv _. exists []. split; [split; [done|]|split; [by apply NoDup_nil|]].
      * specialize (El h). rewrite Hv in El. cbsimp. destruct (hosts (st w) !! h) as [v0|] eqn:Ev; [|unfold s1 in El; cbsimp; by rewrite Ev in El].
        unfold s1 in El. cbsimp. rewrite Ev in El. injection El as ->. by apply (R5 h).
      * intros x. rewrite Hnone. split; [by intros ?%not_elem_of_nil|tauto].
    + intros x Hx. by apply Hnone in Hx.
  - apply (fr_n _ _ _ _ _ _ F).
  - apply Hh. destruct R6 as [H1 H2]. by split.
  - apply (fr_list _ _ _ _ _ _ F).
  - intros h Hk. by apply Ek.
  - apply (fr_time _ _ _ _ _ _ F).
Qed.

(** ** Requests *)

(** What the rest of the file server asks for. *)
Inductive request :=
| Add (h : Z) (fid : AFSFid) (q type : Z) (locked : bool)
| Break (xhost : option Z) (fid : AFSFid) (flag : bool)
| Delete (h : Z) (fid : AFSFid)
| DeleteFile (fid : AFSFid)
| DeleteAll (h : Z) (deletefe : bool)
| Clear (h : Z) (locked : bool)
| BreakDelayed (h : Z)
| BreakVolumeLater (volume : Z)
| BreakLater
| Cleanup.

Definition handle (fuel : nat) (r : request) : M unit :=
  match r with
  | Add h fid q type locked => AddCallBack1 fuel h fid q type locked ;; ret tt
  | Break xhost fid flag => BreakCallBack fuel xhost fid flag
  | Delete h fid => DeleteCallBack h fid
  | DeleteFile fid => DeleteFileCallBacks fid
  | DeleteAll h deletefe => DeleteAllCallBacks_r h deletefe
  | Clear h locked => ClearHostCallbacks_r h locked ;; ret tt
  | BreakDelayed h => BreakDelayedCallBacks_r fuel h ;; ret tt
  | BreakVolumeLater volume => BreakVolumeCallBacksLater volume ;; ret tt
  | BreakLater => BreakLaterCallBacks fuel ;; ret tt
  | Cleanup => CleanupTimedOutCallBacks_r ;; ret tt
  end.

(** Requests one after the other; in between other threads run. *)
Fixpoint serve (fuel : nat) (rs : list request) : M unit :=
  match rs with
  | [] => ret tt
  | r :: rs => handle fuel r ;; unlocked ;; serve fuel rs
  end.

(** The host exists, and a call-back without a time of its own comes with its queue. *)
Definition request_ok (s : cbs) (r : request) : Prop :=
  match r with
  | Add h _ q type _ => known s h /\ (timed_type type = false -> 1 <= q <= 128)
  | DeleteAll h _ | Clear h _ | BreakDelayed h => known s h
  | Break _ _ _ | Delete _ _ | DeleteFile _ | BreakVolumeLater _ | BreakLater | Cleanup => True
  end.

#[global] Instance request_ok_dec s r : Decision (request_ok s r).
Proof. destruct r; cbn [request_ok]; unfold known; apply _. Defined.

Lemma request_ok_evolves s s' r : evolves s s' -> request_ok s r -> request_ok s' r.
Proof. intros E. pose proof (ev_known _ _ E). destruct r; cbn [request_ok]; intuition. Qed.

Lemma safe_then {B} f KC KF (m : M B) P w : safe f KC KF m P w -> safe f KC KF (m ;; ret tt) anything w.
Proof. intros H. eapply safe_bind; [exact H|]. intros b w' Hi _ _. by apply safe_ret. Qed.

Lemma safe_handle KC KF fuel r w : inv KC KF w -> request_ok (st w) r -> safe True KC KF (handle fuel r) anything w.
Proof.
  intros Hi Hr. destruct r; cbn [handle request_ok] in *.
  - destruct Hr. by eapply safe_then, safe_AddCallBack1.
  - by apply safe_BreakCallBack.
  - by apply safe_DeleteCallBack.
  - by apply safe_DeleteFileCallBacks.
  - by apply safe_DeleteAllCallBacks_r.
  - by eapply safe_then, safe_ClearHostCallbacks_r.
  - by eapply safe_then, safe_BreakDelayedCallBacks_r.
  - by eapply safe_then, safe_BreakVolumeCallBacksLater.
  - by eapply safe_then, safe_BreakLaterCallBacks.
  - by eapply safe_then, safe_CleanupTimedOutCallBacks_r.
Qed.

Lemma safe_serve KC KF fuel rs w :
  inv KC KF w -> Forall (request_ok (st w)) rs -> safe True KC KF (serve fuel rs) anything w.
Proof.
  revert w. induction rs as [|r rs IH]; intros w Hi Hrs; cbn [serve]; [by apply safe_ret|].
  apply Forall_cons in Hrs as [Hr Hrs]. eapply safe_bind; [by apply safe_handle|]. intros ? w1 Hi1 E1 _.
  eapply safe_bind; [by apply safe_unlocked|]. intros ? w2 Hi2 E2 _. apply IH; [done|].
  eapply Forall_impl; [exact Hrs|]. intros r'. by apply request_ok_evolves, (evolves_trans _ (st w1)).
Qed.

(** ** Other threads that serve requests *)

(** Another thread serves a request from beginning to end. *)
Definition atomically (fuel : nat) (r : request) (s : cbs) : cbs :=
  if decide (request_ok s r) then
    match handle fuel r (mkWorld s Quiet [] [] []) with
    | Done _ w => st w
    | _ => s
    end
  else s.
Fixpoint threads (fuel : nat) (rs : list request) : env :=
  match rs with
  | [] => Quiet
  | r :: rs => Step (atomically fuel r) (fun _ => threads fuel rs)
  end.

Lemma threads_ok fuel rs OC OF : others_ok (threads fuel rs) OC OF.
Proof.
  revert OC OF. induction rs as [|r rs IH]; [done|]. intros OC OF. cbn [threads others_ok]. intros KC KF A U s HC HF Hok Hh.
  unfold atomically. destruct (decide (request_ok s r)) as [Hr|].
  - set (w := mkWorld s Quiet [] [] []). assert (Hi : inv KC KF w) by (by exists OC, OF, A, U).
    pose proof (safe_handle KC KF fuel r w Hi Hr) as Hs. unfold safe, wp in Hs. destruct (handle fuel r w) as [? w'| |]; [|done|].
    + destruct Hs as ((OC' & OF' & A' & U' & [[HC' HF'] Hok' Hh' _]) & He & _). split; [done|]. split; [done|]. by exists OC', OF', A', U'.
    + split; [apply evolves_refl|]. split; [done|]. by exists OC, OF, A, U.
  - split; [apply evolves_refl|]. split; [done|]. by exists OC, OF, A, U.
Qed.

(** ** From the start *)

(** The world when the file server starts. *)
Record started (n feaddr cbaddr : Z) (w : world) : Prop := {
  sd_fresh : fresh (st w);
  sd_size : 0 < n < 2 ^ 31;
  sd_addresses : 0 < feaddr /\ 0 < cbaddr;
  sd_others : others_ok (others w) ∅ ∅
}.

Lemma server_inv n feaddr cbaddr fuel rs w :
  started n feaddr cbaddr w -> Forall (request_ok (st w)) rs ->
  wp True (InitCallBack n feaddr cbaddr ;; serve fuel rs) (fun _ => inv ∅ ∅) w.
Proof.
  intros [Hf Hn [Hfe Hcb] Ho] Hrs. apply wp_bind, wp_InitCallBack; try done. intros s Hok _ Hh _ Hk _.
  eapply wp_mono; [apply (safe_serve ∅ ∅)|by intros ? w' []].
  - exists ∅, ∅, ∅, ∅. by split.
  - eapply Forall_impl; [exact Hrs|]. intros r. cbn [set_st st]. destruct r; cbn [request_ok]; try done; try apply Hk.
    intros [? ?]. split; [by apply Hk|done].
Qed.

(** The worlds between requests. *)
Definition reached (w : world) : Prop :=
  exists n feaddr cbaddr fuel rs w0, started n feaddr cbaddr w0 /\ Forall (request_ok (st w0)) rs
    /\ (InitCallBack n feaddr cbaddr ;; serve fuel rs) w0 = Done tt w.

Lemma reached_inv w : reached w -> inv ∅ ∅ w.
Proof.
  intros (n & fa & ca & fuel & rs & w0 & Hs & Hrs & E). pose proof (server_inv n fa ca fuel rs w0 Hs Hrs) as H.
  unfold wp in H. by rewrite E in H.
Qed.

(** ** How long a promise lasts *)

Lemma due_TNorm tf q : 1 <= q <= 128 -> due tf q = tf - TIndex tf + TNorm tf q.
Proof.
  intros Hq. unfold due, TNorm. rewrite TIndex_mod. pose proof (Z.mod_pos_bound tf 128 ltac:(lia)).
  pose proof (Z.div_mod tf 128 ltac:(lia)) as E. destruct (Z.ltb_spec q (tf mod 128 + 1)).
  - replace (q - 1 - tf) with (q - 1 - tf mod 128 + 128 + (- (tf / 128) - 1) * 128) by lia. rewrite Z_mod_plus_full, Z.mod_small by lia. lia.
  - replace (q - 1 - tf) with (q - 1 - tf mod 128 + (- (tf / 128)) * 128) by lia. rewrite Z_mod_plus_full, Z.mod_small by lia. lia.
Qed.

Lemma due_TIndex tf t : tf <= t < tf + 128 -> due tf (TIndex t) = t.
Proof.
  intros Ht. unfold due. rewrite TIndex_mod. rewrite Z.add_simpl_r, Zminus_mod_idemp_l, Z.mod_small by lia. lia.
Qed.

Lemma TimeCeiling_spec x : 0 <= x -> TimeCeiling x = 128 * ((x + 127) / 128) /\ x <= TimeCeiling x <= x + 127.
Proof.
  intros Hx. assert (E : TimeCeiling x = 128 * ((x + 127) / 128)).
  { unfold TimeCeiling. rewrite <- Z.ldiff_land. change 127 with (Z.ones 7). rewrite Z.ldiff_ones_r by lia.
    rewrite Z.shiftl_mul_pow2, Z.shiftr_div_pow2 by lia. change (2 ^ 7) with 128. change (Z.ones 7) with 127. lia. }
  split; [done|]. rewrite E. pose proof (Z.div_mod (x + 127) 128 ltac:(lia)). pose proof (Z.mod_pos_bound (x + 127) 128 ltac:(lia)). lia.
Qed.

Lemma TimeOut_range users : 0 <= users -> 420 <= TimeOut users <= 14400.
Proof.
  intros Hu. unfold TimeOut, TimeOutCutoff, MinTimeOut, TimeOuts. destruct (Z.leb_spec (8 * 8) users); [lia|].
  rewrite Z.shiftr_div_pow2 by lia. change (2 ^ 3) with 8. assert (Hr : 0 <= users / 8 < 8) by (split; [apply Z.div_pos|apply Z.div_lt_upper_bound]; lia).
  destruct (users / 8) as [|p|p]; [by vm_compute| |lia]. do 3 (try destruct p as [p|p|]; try lia); by vm_compute.
Qed.

Lemma expiry_range type now users :
  timed_type type = true -> 0 <= users -> 0 <= now < 2 ^ 31 - 2 ^ 15 ->
  let e := callback_expiry type now users in
  e = 128 * CBtime e /\ now + 600 <= e <= now + 14707.
Proof.
  intros Ht Hu Hn. assert (Hbase : forall d, 600 <= d <= 14580 -> let e := u32 (TimeCeiling (now + d)) in
    e = 128 * CBtime e /\ now + 600 <= e <= now + 14707).
  { intros d Hd. destruct (TimeCeiling_spec (now + d) ltac:(lia)) as [E Hr]. set (x := TimeCeiling (now + d)) in *. cbv zeta.
    assert (Eu : u32 x = x) by (unfold u32; apply Z.mod_small; lia). rewrite Eu. split; [|lia]. unfold CBtime.
    rewrite Z.shiftr_div_pow2 by lia. change (2 ^ 7) with 128. rewrite E, (Z.mul_comm 128 ((now + d + 127) / 128)), Z.div_mul by lia. lia. }
  unfold callback_expiry, timed_type, ServerBias in *. cbv zeta. pose proof (TimeOut_range users Hu).
  assert (0 <= u32 (22 + users)) by (unfold u32; apply Z.mod_pos_bound; lia). pose proof (TimeOut_range (u32 (22 + users)) ltac:(lia)).
  destruct (type =? CB_NORMAL); [|destruct (type =? CB_VOLUME); [|destruct (type =? CB_BULK); [|done]]].
  - replace (now + TimeOut users + 3 * 60) with (now + (TimeOut users + 180)) by lia. apply Hbase. lia.
  - replace (60 * 120 + now + 3 * 60) with (now + 7380) by lia. apply Hbase. lia.
  - replace (now + 3 * 60 + TimeOut (u32 (22 + users))) with (now + (180 + TimeOut (u32 (22 + users)))) by lia. apply Hbase. lia.
Qed.

(** The time before which the queues are emptied. *)
Definition cleaned_to (s : cbs) : Z := Z.max (tfirst s) (u32 (CBtime (clock s)) + 1).

(** What [CleanupTimedOutCallBacks_r] does. *)
Record cleaned (s : cbs) (b : bool) (s' : cbs) : Prop := {
  cl_tfirst : tfirst s' = cleaned_to s;
  cl_stay : forall c, in_tables s' c <-> in_tables s c /\ u32 (CBtime (clock s)) < due (tfirst s) (p_queue (promise_of s c));
  cl_same : forall c, in_tables s' c -> promise_of s' c = promise_of s c;
  cl_found : b = true <-> exists c, in_tables s c /\ ~ in_tables s' c
}.

Lemma wp_cleaned f KC KF A U w :
  ok KC KF A U (st w) -> wp f CleanupTimedOutCallBacks_r (fun b w' => cleaned (st w) b (st w')) w.
Proof.
  intros Hok. apply (wp_CleanupTimedOutCallBacks_r _ KC KF A U); [done|]. set (s := st w) in *. fold (cleaned_to s).
  intros A' s' Hok' HL Ht. cbn [set_st st]. set (R := cbs_due s (cleaned_to s) U) in *.
  assert (HR : forall c, c ∈ R <-> c ∈ U /\ due (tfirst s) (thead (CB s c)) < cleaned_to s)
    by (intros c; unfold R, cbs_due; rewrite elem_of_filter; tauto).
  pose proof (fun c => in_tables_iff _ _ _ _ _ c Hok) as Hin. pose proof (fun c => in_tables_iff _ _ _ _ _ c Hok') as Hin'.
  assert (Hok2 : ok KC KF A' (U ∖ R) (set_tfirst (tfirst s) s')) by by apply ok_tfirst.
  split; [done| | |].
  - intros c. rewrite Hin, Hin', elem_of_difference, HR. cbn [promise_of p_queue]. split; intros [H1 H2]; (split; [done|]); pose proof (due_range (tfirst s) (thead (CB s c))); unfold cleaned_to in *; [|lia].
    destruct (Z.lt_ge_cases (due (tfirst s) (thead (CB s c))) (Z.max (tfirst s) (u32 (CBtime (clock s)) + 1))); [tauto|lia].
  - intros c Hc%Hin'. apply (less_promise KC KF A U R s A' (set_tfirst (tfirst s) s')); done.
  - rewrite bool_decide_eq_true. split.
    + intros HRne. destruct (set_choose_L R HRne) as (c & Hc). exists c. rewrite Hin, Hin', elem_of_difference.
      split; [by apply HR|tauto].
    + intros (c & Hc & Hc') E. rewrite Hin, Hin', elem_of_difference, E in *. apply Hc'. split; [done|apply not_elem_of_empty].
Qed.

(** A promise of a kind with a time of its own, after it was given. *)
Lemma wp_AddCallBack1 fuel h fid q type locked (Q : Z -> world -> Prop) w :
  inv ∅ ∅ w -> known (st w) h -> timed_type type = true ->
  (forall w', Q 0 w') ->
  (forall KC KF A U U' c users s w', 0 <= users -> ok KC KF A U' (st w') ->
     let e := callback_expiry type (clock (st w')) users in
     extended h fid (TIndex (CBtime e)) type U s U' c (st w') -> (U ⊆ U') /\ homes s U -> Q (s32 (e - ServerBias)) w') ->
  wp True (AddCallBack1 fuel h fid q type locked) Q w.
Proof.
  intros Hi Hk Ht HQ0 HQ. unfold AddCallBack1.
  apply wp_bind. eapply wp_mono; [apply (safe_when True ∅ ∅ (negb locked) (h_Lock_r h) anything w); [done| |done]; intros _; by apply safe_unlocked|].
  intros _ w1 (Hi1 & E1 & _). apply (ev_known _ _ E1) in Hk. destruct Hk as [v Hv]. apply wp_bind, (wp_host_at _ _ v); [done|].
  destruct (has _ _); [by apply wp_ret|]. unfold AddCallBack1_r.
  apply wp_bind, (inv_get_CB ∅ ∅); [done|by exists v|]. intros c w2 _ Hi2 E2. apply wp_bind, (inv_get_FE ({[c]} ∪ ∅) ∅); [done|by apply (ev_known _ _ E2); exists v|].
  intros fe w3 _ (OC & OF & A & U & [_ Hok _ _]) E3. apply wp_bind, wp_ret.
  apply (wp_add_callback _ ({[c]} ∪ ∅ ∪ OC) ({[fe]} ∪ ∅ ∪ OF) A U).
  - done.
  - set_solver.
  - set_solver.
  - apply (ev_known _ _ E3), (ev_known _ _ E2). by exists v.
  - by rewrite Ht.
  - cbv zeta. rewrite Ht. intros A' c' U' s' Hok' Hex.
    destruct (fr_time _ _ _ _ _ _ (ex_frame _ _ _ _ _ _ _ _ _ Hex)) as [_ Ec]. rewrite <- Ec in Hex. rewrite <- Ec.
    refine (HQ _ _ A' U U' c' (Z.of_nat _) (st w3) (set_st s' w3) _ Hok' Hex _); [lia|]. split; [|apply Hok].
    rewrite (ex_set _ _ _ _ _ _ _ _ _ Hex). apply union_subseteq_l.
Qed.
