(* ===== verification/CbPromises.v ===== *)
(** * Call-backs: what the file server promises

    The properties of the call-back package, for every world it can reach from
    [InitCallBack] on, by any requests and with any other threads that keep the tables
    in order: it never panics, a promise outlives what the client was told, exactly the
    promises that have run out are cleaned up, a change of a file reaches every other
    client, and breaking the call-backs of a volume later puts off exactly its
    promises. *)

From stdpp Require Import prelude list gmap.
From Stdlib Require Import ZArith Lia ZifyBool.
From S2P Require Import Prelude ByteMem CbTab Callback CbRing CbOk CbFile CbOps CbAdd CbInv CbSafe CbBreak CbHandlers CbLater CbNotify CbServer.

#[local] Open Scope Z_scope.
#[local] Open Scope cb_scope.

(** ** Time *)

(** The clock of the world. *)
Definition set_clock (t : Z) (s : cbs) : cbs :=
  mkCbs (FE s) (CB s) (FE_base s) (CB_base s) (FEfree s) (CBfree s) (HashTable s) (timeout s)
    (tfirst s) (nFEs s) (nCBs s) (nblks s) (hosts s) (hostList s) t.
Definition at_time (t : Z) (w : world) : world := set_st (set_clock t (st w)) w.

Lemma ok_clock KC KF A U t s : ok KC KF A U s -> ok KC KF A U (set_clock t s).
Proof. intros [[A1 A2 A3 A4 A5 A6 A7] O2 O3 O4]. split; [split| | |]; try done; [by apply (Fpart_ext s)|by apply (Hpart_ext s)]. Qed.

(** Other threads that only let time pass. *)
Fixpoint ticks (ts : list Z) : env :=
  match ts with
  | [] => Quiet
  | t :: ts => Step (set_clock t) (fun _ => ticks ts)
  end.
Lemma ticks_ok ts OC OF : others_ok (ticks ts) OC OF.
Proof.
  revert OC OF. induction ts as [|t ts IH]; [done|]. intros OC OF KC KF A U s HC HF Hok [H1 H2].
  split; [by split|]. split; [by split|]. exists OC, OF, A, U. split; [done|]. split; [done|]. split; [by apply ok_clock|done].
Qed.

(** ** A server to try things on *)

Definition client (active : Z) : host := mkHost 0 RESETDONE 0 active true.
Definition tables0 : cbs :=
  mkCbs (fun _ => no_FE) (fun _ => no_CB) 0 0 0 0 (fun _ => 0) (fun _ => 0) 0 0 0 0
    (<[1 := client 100]> (<[2 := client 200]> ∅)) [1; 2] 1000000.
Definition world0 (e : env) : world := mkWorld tables0 e [] [] [].

Lemma started0 e : others_ok e ∅ ∅ -> started 4 4096 8192 (world0 e).
Proof.
  intros He. split; [split|lia|lia|done]; try done.
  - intros h v Hv. cbn [world0 st tables0 hosts] in Hv.
    apply lookup_insert_Some in Hv as [[_ <-]|[_ Hv]]; [done|]. apply lookup_insert_Some in Hv as [[_ <-]|[_ Hv]]; [done|].
    by rewrite lookup_empty in Hv.
  - split; [by apply (bool_decide_unpack (NoDup [1; 2]))|]. intros h Hh. cbn [world0 st tables0 hostList] in Hh.
    repeat (apply elem_of_cons in Hh as [->|Hh]); [by eexists|by eexists|by apply not_elem_of_nil in Hh].
Qed.

Definition requests0 : list request :=
  [Add 1 (1, 2, 3) 0 CB_NORMAL false; Add 2 (1, 2, 3) 0 CB_BULK false; Add 1 (1, 4, 5) 0 CB_NORMAL true].

Definition result {B} (m : M B) (w : world) : world := match m w with Done _ w' => w' | _ => w end.
Definition returns {B} `{EqDecision B} (m : M B) (w : world) (b : B) : bool :=
  match m w with Done a _ => bool_decide (a = b) | _ => false end.
Lemma returns_result {B} `{EqDecision B} (m : M B) w b : returns m w b = true -> m w = Done b (result m w).
Proof. unfold returns, result. destruct (m w) as [a w'| |]; [|done|done]. by intros ->%bool_decide_eq_true. Qed.

Lemma returns_value {B} `{EqDecision B} (m : M B) w b a w' : returns m w b = true -> m w = Done a w' -> a = b.
Proof. unfold returns. intros H E. rewrite E in H. by apply bool_decide_eq_true in H. Qed.

Definition after0 (e : env) : world := result (InitCallBack 4 4096 8192 ;; serve 9 requests0) (world0 e).

Lemma reached0 e : others_ok e ∅ ∅ -> returns (InitCallBack 4 4096 8192 ;; serve 9 requests0) (world0 e) tt = true -> reached (after0 e).
Proof.
  intros He E. exists 4, 4096, 8192, 9%nat, requests0, (world0 e). split; [by apply started0|].
  split; [by apply (bool_decide_unpack (Forall (request_ok tables0) requests0))|]. by apply (returns_result _ (world0 e) tt).
Qed.

Definition world1 : world := after0 Quiet.
Lemma reached1 : reached world1.
Proof. apply reached0; [done|by vm_compute]. Qed.

(** Some time later. *)
Definition world2 : world := after0 (ticks [1000000; 1000000; 1000000; 1000000; 1004000]).
Lemma reached2 : reached world2.
Proof. apply reached0; [apply ticks_ok|by vm_compute]. Qed.

(** ** No panic *)

(** [C7] From [InitCallBack] on, no sequence of requests makes the file server panic,
    whatever other threads do to the tables while a handler has given up the lock (as
    long as they leave them in order), however peers answer and in whatever order; and
    between requests the tables are in order. *)
Theorem callbacks_never_panic n feaddr cbaddr fuel rs w :
  started n feaddr cbaddr w -> Forall (request_ok (st w)) rs ->
  let r := (InitCallBack n feaddr cbaddr ;; serve fuel rs) w in
  r <> Panic /\ forall w', r = Done tt w' -> inv ∅ ∅ w'.
Proof.
  intros Hs Hrs. pose proof (server_inv n feaddr cbaddr fuel rs w Hs Hrs) as H. unfold wp in H. cbv zeta.
  destruct ((InitCallBack n feaddr cbaddr ;; serve fuel rs) w) as [[] w'| |]; [|done|done].
  split; [done|]. by intros ? [= <-].
Qed.

(** Meanwhile another thread breaks the call-backs of the file, and one cleans up. *)
Lemma callbacks_never_panic_witness :
  let w := world0 (threads 9 [Break None (1, 2, 3) true; BreakVolumeLater 1; Cleanup]) in
  let rs := requests0 ++ [Break (Some 1) (1, 2, 3) false; BreakLater; Cleanup] in
  exists w', (InitCallBack 4 4096 8192 ;; serve 9 rs) w = Done tt w' /\ inv ∅ ∅ w'.
Proof.
  intros w rs. set (r := (InitCallBack 4 4096 8192 ;; serve 9 rs) w).
  assert (H : r <> Panic /\ forall w', r = Done tt w' -> inv ∅ ∅ w').
  { apply (callbacks_never_panic 4 4096 8192 9 rs w); [apply started0, threads_ok|].
    by apply (bool_decide_unpack (Forall (request_ok tables0) rs)). }
  assert (E : r = Done tt (result (InitCallBack 4 4096 8192 ;; serve 9 rs) w)) by (apply (returns_result _ w tt); by vm_compute).
  eexists. split; [exact E|by apply H].
Defined.

(** ** The life of a promise *)

(** [C15] [CleanupTimedOutCallBacks_r] ends, and takes out exactly the promises whose
    time has come: a promise stays if and only if the clock has not reached its queue,
    and stays as it was; the first queue is now the one behind the clock, and the result
    says whether any promise went. *)
Theorem cleanup_is_exact w :
  reached w -> exists b w', CleanupTimedOutCallBacks_r w = Done b w' /\ cleaned (st w) b (st w').
Proof.
  intros (OC & OF & A & U & Hi)%reached_inv. pose proof (wp_cleaned False _ _ _ _ _ (iw_ok _ _ _ _ _ _ _ Hi)) as H. unfold wp in H.
  destruct (CleanupTimedOutCallBacks_r w) as [b w'| |]; [|done|done]. by exists b, w'.
Qed.

(** The promise for many users has run out, those for a single one have not. *)
Lemma cleanup_is_exact_witness :
  exists w', CleanupTimedOutCallBacks_r world2 = Done true w' /\ cleaned (st world2) true (st w').
Proof.
  destruct (cleanup_is_exact world2 reached2) as (b & w' & E & Hc).
  assert (E' : returns CleanupTimedOutCallBacks_r world2 true = true) by by vm_compute.
  rewrite <- (returns_value _ _ _ _ _ E' E). exists w'. exact (conj E Hc).
Defined.

(** A promise of host and file in the tables. *)
Definition promised (h : Z) (fid : AFSFid) (s : cbs) (c : Z) : Prop :=
  in_tables s c /\ p_host (promise_of s c) = h /\ p_fid (promise_of s c) = fid /\ p_later (promise_of s c) = false.

(** The queue of a call-back that was added or extended is due no earlier than its time. *)
Lemma extended_due KC KF A h fid e type U s U' c s' :
  ok KC KF A U' s' -> extended h fid (TIndex e) type U s U' c s' -> homes s U -> tfirst s' <= e < tfirst s' + 128 ->
  promised h fid s' c /\ e <= due (tfirst s') (p_queue (promise_of s' c)).
Proof.
  intros Hok Hex Hh He. assert (HcU : c ∈ U') by (rewrite (ex_set _ _ _ _ _ _ _ _ _ Hex); apply elem_of_union_r; by apply elem_of_singleton).
  pose proof (in_tables_iff _ _ _ _ _ c Hok) as Hin. destruct (fr_time _ _ _ _ _ _ (ex_frame _ _ _ _ _ _ _ _ _ Hex)) as [Et _].
  unfold promised. destruct (decide (c ∈ U)) as [HU|HU].
  - destruct (ex_old _ _ _ _ _ _ _ _ _ Hex HU) as (E1 & E2 & E3 & ->). cbn [p_host p_fid p_later p_queue].
    split; [by split; [apply Hin|]|]. destruct (Hh c HU) as (_ & Hq & _). set (pq := p_queue (promise_of s c)).
    change (thead (CB s c)) with pq in Hq. rewrite <- Et. rewrite <- (due_TIndex (tfirst s') e) at 1 by done.
    destruct (Z.ltb_spec (TNorm (tfirst s') pq) (TNorm (tfirst s') (TIndex e))); [done|].
    rewrite !due_TNorm by (done || apply TIndex_range). lia.
  - destruct (ex_new _ _ _ _ _ _ _ _ _ Hex HU) as [-> _]. cbn [p_host p_fid p_later p_queue].
    split; [by split; [apply Hin|]|]. by rewrite due_TIndex.
Qed.

(** [C14] A promise outlives what the client is told.  When [AddCallBack1] returns the
    time [r] to the client, the tables hold a promise for the host and the file, which is
    at least seven minutes ahead, and cleaning up at any time before [r] and the bias of
    three minutes leaves it there, unchanged; provided that the queues are at most a
    dozen ticks (25 minutes) behind the clock. *)
Theorem promise_outlives_client fuel h fid q type locked r w w' :
  reached w -> known (st w) h -> timed_type type = true ->
  AddCallBack1 fuel h fid q type locked w = Done r w' -> r <> 0 ->
  let s := st w' in
  0 <= clock s < 2 ^ 31 - 2 ^ 15 -> tfirst s - 1 <= CBtime (clock s) <= tfirst s + 12 ->
  clock s + MinTimeOut <= r
  /\ exists c, promised h fid s c
     /\ forall t, clock s <= t < r + ServerBias ->
        exists b w2, CleanupTimedOutCallBacks_r (at_time t w') = Done b w2
          /\ in_tables (st w2) c /\ promise_of (st w2) c = promise_of s c.
Proof.
  intros Hr Hk Ht E Hr0 s Hclk Htf. assert (Hw : wp True (AddCallBack1 fuel h fid q type locked)
    (fun r w' => r = 0 \/ exists KC KF A U U' c users s0, 0 <= users /\ ok KC KF A U' (st w') /\ homes s0 U /\
       let e := callback_expiry type (clock (st w')) users in
       extended h fid (TIndex (CBtime e)) type U s0 U' c (st w') /\ r = s32 (e - ServerBias)) w).
  { apply wp_AddCallBack1; [by apply reached_inv|done|done|by left|]. intros KC KF A U U' c users s0 w1 Hu Hok e Hex [_ Hh].
    right. by exists KC, KF, A, U, U', c, users, s0. }
  unfold wp in Hw. rewrite E in Hw. destruct Hw as [->|(KC & KF & A & U & U' & c & users & s0 & Hu & Hok & Hh & Hex & Er)]; [done|].
  fold s in Hok, Hex, Er. destruct (expiry_range type (clock s) users Ht Hu Hclk) as [Ee Hrng].
  set (e := callback_expiry type (clock s) users) in *. unfold ServerBias, MinTimeOut in *.
  replace (s32 (e - 3 * 60)) with (e - 3 * 60) in Er by (symmetry; apply s32_small; unfold is_s32; lia). subst r. split; [lia|].
  assert (Hcb : CBtime (clock s) = clock s / 128) by (unfold CBtime; by rewrite Z.shiftr_div_pow2).
  pose proof (Z.div_mod (clock s) 128 ltac:(lia)). pose proof (Z.mod_pos_bound (clock s) 128 ltac:(lia)).
  destruct (extended_due KC KF A h fid (CBtime e) type U s0 U' c s Hok Hex Hh) as [Hp Hdue]; [lia|].
  exists c. split; [done|]. intros t Htt. pose proof (wp_cleaned False _ _ _ _ (at_time t w') (ok_clock _ _ _ _ t _ Hok)) as Hc.
  unfold wp in Hc. destruct (CleanupTimedOutCallBacks_r (at_time t w')) as [b w2| |]; [|done|done]. exists b, w2. split; [done|].
  assert (Hin : in_tables (st w2) c).
  { apply (cl_stay _ _ _ Hc). split; [by apply Hp|]. change (u32 (CBtime t) < due (tfirst s) (p_queue (promise_of s c))).
    assert (CBtime t = t / 128) as -> by (unfold CBtime; by rewrite Z.shiftr_div_pow2).
    assert (t / 128 < CBtime e) by (apply Z.div_lt_upper_bound; lia). unfold u32. rewrite Z.mod_small; [lia|].
    split; [apply Z.div_pos; lia|]. apply Z.div_lt_upper_bound; lia. }
  split; [done|]. by rewrite (cl_same _ _ _ Hc c Hin).
Qed.

Lemma promise_outlives_client_witness :
  let w' := result (AddCallBack1 9 2 (1, 4, 5) 0 CB_NORMAL false) world1 in
  AddCallBack1 9 2 (1, 4, 5) 0 CB_NORMAL false world1 = Done 1014476 w'
  /\ exists c, promised 2 (1, 4, 5) (st w') c
     /\ exists b w2, CleanupTimedOutCallBacks_r (at_time 1014655 w') = Done b w2
          /\ in_tables (st w2) c /\ promise_of (st w2) c = promise_of (st w') c.
Proof.
  intros w'. assert (E : AddCallBack1 9 2 (1, 4, 5) 0 CB_NORMAL false world1 = Done 1014476 w') by (apply (returns_result _ world1 1014476); by vm_compute).
  split; [exact E|]. assert (Ec : clock (st w') = 1000000) by (vm_compute; reflexivity). assert (Et : tfirst (st w') = 7812) by (vm_compute; reflexivity).
  clearbody w'. destruct (promise_outlives_client 9 2 (1, 4, 5) 0 CB_NORMAL false 1014476 world1 w' reached1) as [_ (c & Hc & Hcl)].
  - apply (bool_decide_unpack (known (st world1) 2)). vm_compute. exact I.
  - reflexivity.
  - exact E.
  - lia.
  - rewrite Ec. lia.
  - rewrite Ec, Et. vm_compute. split; discriminate.
  - exists c. split; [exact Hc|]. apply Hcl. rewrite Ec. unfold ServerBias. lia.
Defined.

(** ** Breaking the promises for a file *)

(** The messages from now on. *)
Definition from_here (w : world) : world := mkWorld (st w) (others w) (answers w) (order w) [].

(** What [BreakCallBack] makes of the promise [c], the world being [w'] afterwards. *)
Definition broken (fid : AFSFid) (h : Z) (flag : bool) (s : cbs) (w' : world) (c : Z) : Prop :=
  let p := promise_of s c in
  if concerns fid h flag p then
    if host_has s (p_host p) VENUSDOWN then in_tables (st w') c /\ promise_of (st w') c = put_delayed p
    else ~ in_tables (st w') c
         /\ (host_has s (p_host p) HOSTDELETED = false -> RXAFSCB_CallBack (p_host p) [fid] ∈ sent w')
  else in_tables (st w') c /\ promise_of (st w') c = p.

(** [C28] When a file changes every other client is told.  While no other thread runs
    and all hosts answer, [BreakCallBack] ends; every promise for the file, but the one
    of the host that made the change (unless [flag] is set) and those put off before, is
    gone and its host was sent a message, or stays as a delayed one when its host is
    down; every other promise stays as it was, and no new one appears. *)
Theorem break_tells_every_client fuel h fid flag w :
  reached w -> calm w -> (forall c, in_tables (st w) c -> marked (promise_of (st w) c) = false) ->
  nblks (st w) < Z.of_nat fuel ->
  exists w', BreakCallBack fuel (Some h) fid flag (from_here w) = Done tt w'
    /\ (forall c, in_tables (st w') c -> in_tables (st w) c)
    /\ forall c, in_tables (st w) c -> broken fid h flag (st w) w' c.
Proof.
  intros (OC & OF & A & U & Hi)%reached_inv Hc Hun Hf. pose proof (iw_ok _ _ _ _ _ _ _ Hi) as Hok.
  pose proof (fun c => in_tables_iff _ _ _ _ _ c Hok) as Hin.
  assert (H : wp False (BreakCallBack fuel (Some h) fid flag) (fun _ w' => (forall c, in_tables (st w') c -> in_tables (st w) c)
    /\ forall c, in_tables (st w) c -> broken fid h flag (st w) w' c) (from_here w)).
  { apply (wp_BreakCallBack_calm fuel _ _ _ _ h fid flag _ (from_here w) Hc Hok); [intros c Hcu; by apply Hun, Hin|done|].
    intros A' U' w' _ Hok' Hsub Hto. pose proof (fun c => in_tables_iff _ _ _ _ _ c Hok') as Hin'.
    split; [intros c; rewrite Hin, Hin'; apply Hsub|]. intros c Hcu. specialize (Hto c (proj1 (Hin c) Hcu)). unfold told in Hto. unfold broken.
    change (st (from_here w)) with (st w) in Hto. destruct (concerns _ _ _ _); [destruct (host_has _ _ VENUSDOWN)|].
    - by rewrite Hin'.
    - by rewrite Hin'.
    - by rewrite Hin'. }
  unfold wp in H. destruct (BreakCallBack fuel (Some h) fid flag (from_here w)) as [[] w'| |]; [|done|done]. by exists w'.
Qed.

Lemma in_tables_range w c : reached w -> in_tables (st w) c -> 1 <= c <= nblks (st w).
Proof.
  intros (OC & OF & A & U & Hi)%reached_inv Hc. pose proof (iw_ok _ _ _ _ _ _ _ Hi) as Hok.
  apply (in_tables_iff _ _ _ _ _ c Hok) in Hc. exact (ok_tab _ _ _ _ _ _ Hok Hc).
Qed.

Lemma linked_at_head nx hd x : hd = x -> x <> 0 -> linked nx hd x.
Proof. intros <-. apply linked_head. Qed.
Lemma linked_at_next nx hd x y : linked nx hd x -> nx x = y -> y <> 0 -> linked nx hd y.
Proof. intros Hx <-. by apply linked_next. Qed.

Lemma in_tables_2 : in_tables (st world1) 2.
Proof.
  exists 4, 1. split; [unfold FEHASH_SIZE; lia|]. split.
  - apply linked_at_head; [vm_compute; reflexivity|lia].
  - apply (linked_at_next _ _ 1 2); [apply linked_at_head; [vm_compute; reflexivity|lia]|vm_compute; reflexivity|lia].
Qed.

(** Host 1 writes the file that host 2 has a promise for, too. *)
Lemma break_tells_every_client_witness :
  exists w', BreakCallBack 9 (Some 1) (1, 2, 3) false (from_here world1) = Done tt w'
    /\ broken (1, 2, 3) 1 false (st world1) w' 2 /\ RXAFSCB_CallBack 2 [(1, 2, 3)] ∈ sent w'.
Proof.
  assert (En : nblks (st world1) = 4) by (vm_compute; reflexivity).
  assert (Hun : forall c, in_tables (st world1) c -> marked (promise_of (st world1) c) = false).
  { intros c Hc. pose proof (in_tables_range world1 c reached1 Hc) as Hr. rewrite En in Hr.
    assert (c = 1 \/ c = 2 \/ c = 3 \/ c = 4) as [->|[->|[->| ->]]] by lia; vm_compute; reflexivity. }
  destruct (break_tells_every_client 9 1 (1, 2, 3) false world1 reached1) as (w' & E & _ & Hb); [|exact Hun|rewrite En; lia|].
  - split; [vm_compute; reflexivity|]. apply (bool_decide_unpack (Forall (fun b => b = false) (answers world1))). vm_compute. exact I.
  - exists w'. split; [exact E|].
    specialize (Hb 2 in_tables_2). split; [exact Hb|]. revert Hb.
    assert (Ep : promise_of (st world1) 2 = mkPromise 2 (1, 2, 3) false 21 CB_BULK 0) by (vm_compute; reflexivity).
    assert (Eh : host_has (st world1) 2 VENUSDOWN = false /\ host_has (st world1) 2 HOSTDELETED = false) by (split; vm_compute; reflexivity).
    destruct Eh as [Eh1 Eh2]. unfold broken. rewrite Ep. cbn [p_host]. rewrite Eh1, Eh2. intros [_ H]. by apply H.
Defined.

(** ** Breaking the promises for a volume *)

(** [C6] [BreakVolumeCallBacksLater] ends, and puts off exactly the promises for files of
    the volume: they are delayed ones from now on, and the look-up for new promises and
    for breaking does not find their files any more; every other promise stays as it was.
    The result says whether the volume has any file in the table. *)
Theorem volume_is_put_off volume w :
  reached w -> exists r w', BreakVolumeCallBacksLater volume w = Done r w'
    /\ (forall c, in_tables (st w') c <-> in_tables (st w) c)
    /\ (forall c, in_tables (st w) c -> let p := promise_of (st w) c in
         promise_of (st w') c = if fst (fst (p_fid p)) =? volume then put_off p else p)
    /\ (forall vn un, FindFE (volume, vn, un) w' = Done 0 w')
    /\ (forall c, in_tables (st w) c -> fst (fst (p_fid (promise_of (st w) c))) = volume -> r = true).
Proof.
  intros (OC & OF & A & U & Hi)%reached_inv. pose proof (iw_ok _ _ _ _ _ _ _ Hi) as Hok.
  pose proof (fun c => in_tables_iff _ _ _ _ _ c Hok) as Hin.
  assert (H : wp False (BreakVolumeCallBacksLater volume) (fun r w' => (forall c, in_tables (st w') c <-> in_tables (st w) c)
    /\ (forall c, in_tables (st w) c -> let p := promise_of (st w) c in
         promise_of (st w') c = if fst (fst (p_fid p)) =? volume then put_off p else p)
    /\ (forall vn un, FindFE (volume, vn, un) w' = Done 0 w')
    /\ (forall c, in_tables (st w) c -> fst (fst (p_fid (promise_of (st w) c))) = volume -> r = true)) w).
  { apply (wp_BreakVolumeCallBacksLater _ _ _ _ _ _ _ _ Hok). intros s' r Hok' Hp Hf _ Hr.
    pose proof (fun c => in_tables_iff _ _ _ _ _ c Hok') as Hin'. change (st (set_st s' w)) with s'.
    split; [intros c; by rewrite Hin, Hin'|]. split; [intros c Hc; by apply Hp, Hin|]. split.
    - intros vn un. assert (HF : wp False (FindFE (volume, vn, un)) (fun fe w2 => fe = 0 /\ w2 = set_st s' w) (set_st s' w)).
      { apply (wp_FindFE _ _ A); [by apply Hok'|done|]. intros fe Hfe Hlat Efid. exfalso. destruct (Hf fe Hfe) as [E1 E2].
        change (later s' fe = false) in Hlat. change (fe_fid s' fe = (volume, vn, un)) in Efid.
        rewrite E1 in Efid. unfold fe_fid in Efid. injection Efid as E3 _ _. rewrite E3, Z.eqb_refl, orb_true_r in E2. congruence. }
      unfold wp in HF. destruct (FindFE (volume, vn, un) (set_st s' w)) as [fe w2| |]; [|done|done]. by destruct HF as [-> ->].
    - intros c Hc E. apply Hr. exists (fhead (CB (st w) c)). split; [by apply (ok_file _ _ _ _ _ _ Hok), Hin|exact E]. }
  unfold wp in H. destruct (BreakVolumeCallBacksLater volume w) as [r w'| |]; [|done|done]. by exists r, w'.
Qed.

Lemma volume_is_put_off_witness :
  exists w', BreakVolumeCallBacksLater 1 world1 = Done true w' /\ FindFE (1, 2, 3) w' = Done 0 w'
    /\ promise_of (st w') 2 = mkPromise 2 (1, 2, 3) true 21 CB_DELAYED 0.
Proof.
  destruct (volume_is_put_off 1 world1 reached1) as (r & w' & E & _ & Hp & Hf & Hr).
  assert (Ep : promise_of (st world1) 2 = mkPromise 2 (1, 2, 3) false 21 CB_BULK 0) by (vm_compute; reflexivity).
  exists w'. split; [|split; [apply Hf|]].
  - rewrite <- (Hr 2 in_tables_2); [exact E|by rewrite Ep].
  - rewrite (Hp 2 in_tables_2), Ep. reflexivity.
Defined.

(** ** A call without a host *)

(** Host 0 and host 2 have promises for a file. *)
Definition host0_run : M unit :=
  InitCallBack 4 4096 8192 ;; AddCallBack1 9 0 (1, 2, 3) 0 CB_NORMAL false ;;
  AddCallBack1 9 2 (1, 2, 3) 0 CB_NORMAL false ;; BreakCallBack 9 None (1, 2, 3) false.
Definition host0_world : world := mkWorld (set_host 0 (client 50) (set_hostList [0; 1; 2] tables0)) Quiet [] [] [].

(** [BreakCallBack] without a host and without [flag] takes the host with index 0 for
    the one that made the change: it is not told. *)
Example break_without_host : sent (result host0_run host0_world) = [RXAFSCB_CallBack 2 [(1, 2, 3)]].
Proof. vm_compute. reflexivity. Qed.

(** A host that is deleted while [AddCallBack1_r] waits for its lock: the two entries
    that it took are neither used nor given back. *)
Definition deleted_meanwhile : env := Step (fun s => set_host 1 (set_flag HOSTDELETED (client 100)) s) (fun _ => Quiet).
Example add_unlocked_leaks :
  let w := result (InitCallBack 4 4096 8192 ;; AddCallBack1_r 9 1 (1, 2, 3) 0 CB_NORMAL false) (world0 deleted_meanwhile) in
  (nCBs (st w), nFEs (st w), HashTable (st w) (FEHash 1 3)) = (1, 1, 0).
Proof. vm_compute. reflexivity. Qed.
