(* ===== verification/Pt.v ===== *)
(** * The protection database: entries, memberships, access
    (ptserver/utils.c, ptutils.c and the handlers of ptprocs.c for groups)

    The database is the byte contents of ubik file 0 as the transaction sees them:
    a header with two hash tables, then blocks of 192 bytes, each an entry for a user
    or a group ([prentry]), a continuation of the membership list of an entry
    ([contentry]), or free.  The cached header ([cheader]) is the array of its 32-bit
    words, by value.  Every read and every write can fail with an error code of ubik.
    The build without SUPERGROUPS, which is the default, on a host that has to swap
    bytes. *)

From stdpp Require Import prelude list gmap sorting.
From Stdlib Require Import ZArith Lia ZifyBool.
From S2P Require Import Prelude ByteMem.

#[local] Open Scope Z_scope.

Definition ENTRYSIZE := 192.
Definition HASHSIZE := 8191.
Definition PRBADID := - 2 ^ 31.
Definition SYSVIEWERID := -203.
Definition SYSADMINID := -204.
Definition ANYUSERID := -101.
Definition AUTHUSERID := -102.
Definition ANONYMOUSID := 32766.
Definition PRSIZE := 10.
Definition COSIZE := 39.
Definition PR_MAXNAMELEN := 64.

Definition PRFREE := 1.
Definition PRGRP := 2.
Definition PRCONT := 4.
Definition PRFOREIGN := 16.
Definition PRINST := 32.
Definition PRACCESS := 64.
Definition PRQUOTA := 128.

Definition PRP_STATUS_ANY := Z.shiftl 128 16.
Definition PRP_STATUS_MEM := Z.shiftl 64 16.
Definition PRP_OWNED_ANY := Z.shiftl 32 16.
Definition PRP_MEMBER_ANY := Z.shiftl 16 16.
Definition PRP_MEMBER_MEM := Z.shiftl 8 16.
Definition PRP_ADD_ANY := Z.shiftl 4 16.
Definition PRP_ADD_MEM := Z.shiftl 2 16.
Definition PRP_REMOVE_MEM := Z.shiftl 1 16.

(** pterror.et *)
Definition PRSUCCESS := 0.
Definition PREXIST := 267264.
Definition PRIDEXIST := 267265.
Definition PRNOIDS := 267266.
Definition PRDBFAIL := 267267.
Definition PRNOENT := 267268.
Definition PRPERM := 267269.
Definition PRNOTGROUP := 267270.
Definition PRNOTUSER := 267271.
Definition PRBADNAM := 267272.
Definition PRBADARG := 267273.
Definition PRNOMORE := 267274.
Definition PRDBBAD := 267275.
Definition PRGROUPEMPTY := 267276.
Definition PRINCONSISTENT := 267277.

(** ** The header as words *)

Definition w_freePtr := 2.
Definition w_eofPtr := 3.
Definition w_maxGroup := 4.
Definition w_maxID := 5.
Definition w_maxForeign := 6.
Definition w_orphan := 8.
Definition w_usercount := 9.
Definition w_groupcount := 10.
Definition w_foreigncount := 11.
Definition w_instcount := 12.
Definition w_nameHash (i : Z) : Z := 18 + i.
Definition w_idHash (i : Z) : Z := 18 + HASHSIZE + i.
Definition sizeof_prheader := 65600.

Record ptdb := mkPt {
  disk : Z -> Z;
  cheader : Z -> Z;
  now : Z;
  io : list Z
}.
Definition set_disk (d : Z -> Z) (s : ptdb) : ptdb := mkPt d (cheader s) (now s) (io s).
Definition set_word (k v : Z) (s : ptdb) : ptdb :=
  mkPt (disk s) (fun x => if x =? k then v else cheader s x) (now s) (io s).

(** ** Code that may fail

    [Err c]: the routine returned the error [c]; [Dies]: an assertion failed; [Loops]:
    the fuel of a walk ran out. *)

Inductive res (A : Type) :=
| Ok (a : A)
| Err (c : Z)
| Dies
| Loops.
Arguments Ok {A} a.
Arguments Err {A} c.
Arguments Dies {A}.
Arguments Loops {A}.

Definition M (A : Type) : Type := ptdb -> res A * ptdb.
Definition ret {A} (a : A) : M A := fun s => (Ok a, s).
Definition fail {A} (c : Z) : M A := fun s => (Err c, s).
Definition dies {A} : M A := fun s => (Dies, s).
Definition loops {A} : M A := fun s => (Loops, s).
Definition bind {A B} (x : M A) (k : A -> M B) : M B :=
  fun s => match x s with
           | (Ok a, s') => k a s'
           | (Err c, s') => (Err c, s')
           | (Dies, s') => (Dies, s')
           | (Loops, s') => (Loops, s')
           end.
(** [if (x) return c;] *)
Definition or_code {A} (x : M A) (c : Z) : M A :=
  fun s => match x s with
           | (Err _, s') => (Err c, s')
           | r => r
           end.
(** [None] for a call that fails. *)
Definition try {A} (x : M A) : M (option A) :=
  fun s => match x s with
           | (Ok a, s') => (Ok (Some a), s')
           | (Err _, s') => (Ok None, s')
           | (Dies, s') => (Dies, s')
           | (Loops, s') => (Loops, s')
           end.
Definition get {A} (f : ptdb -> A) : M A := fun s => (Ok (f s), s).
Definition put_word (k v : Z) : M unit := fun s => (Ok tt, set_word k v s).

Declare Scope pt_scope.
Delimit Scope pt_scope with pt.
Notation "'do' x <- e ; k" := (bind e (fun x => k))
  (at level 10, x name, e at level 100, k at level 200) : pt_scope.
Notation "e ;; k" := (bind e (fun _ => k))
  (at level 100, k at level 200, right associativity) : pt_scope.
#[local] Open Scope pt_scope.

(** The outcome of the next call of ubik. *)
Definition ubik : M unit := fun s =>
  match io s with
  | [] => (Ok tt, s)
  | c :: l => (if c =? 0 then Ok tt else Err c, mkPt (disk s) (cheader s) (now s) l)
  end.
Definition ubik_Read {A} (f : (Z -> Z) -> A) : M A := ubik ;; get (fun s => f (disk s)).
Definition ubik_Write (pos : Z) (l : list Z) : M unit :=
  ubik ;; fun s => (Ok tt, set_disk (upd (disk s) pos l) s).

(** [pr_Write] of something else than the header. *)
Definition pr_Write (pos : Z) (l : list Z) : M unit :=
  if (0 <=? pos) && (pos <? sizeof_prheader) then fail PRDBFAIL else ubik_Write pos l.
(** [pr_Write] of word [k] of the cached header. *)
Definition write_word (k : Z) : M unit :=
  do v <- get (fun s => cheader s k);
  ubik_Write (4 * k) (be32 v).
Definition set_header_word (k v : Z) : M unit := put_word k v ;; write_word k.
Definition inc_header_word (k i : Z) : M unit :=
  do v <- get (fun s => cheader s k);
  set_header_word k (s32 (v + i)).

(** ** Strings *)

(** [strncpy(_, l, 64)]. *)
Definition strncpy64 (l : list Z) : list Z :=
  let c := take 64 (cstr l) in c ++ repeat 0 (64 - length c).
Definition strchr (c : Z) (l : list Z) : bool := bool_decide (c ∈ cstr l).
(** [strncmp(a, b, 64) == 0] *)
Definition same64 (a b : list Z) : bool := bool_decide (take 64 (cstr a) = take 64 (cstr b)).

Definition IDHash (x : Z) : Z := Z.rem (s32 (Z.abs (s32 x))) HASHSIZE.
(** From the last character to the first. *)
Definition NameHash (aname : list Z) : Z :=
  fold_right (fun c hash => u32 (hash * 31 + (c - 31))) 0 (cstr aname) mod HASHSIZE.

(** ** Entries *)

Record prentry := mkEntry {
  flags : Z;
  id : Z;
  cellid : Z;
  next : Z;
  createTime : Z;
  addTime : Z;
  removeTime : Z;
  changeTime : Z;
  entries : list Z;             (* PRSIZE *)
  nextID : Z;
  nextName : Z;
  owner : Z;
  creator : Z;
  ngroups : Z;
  nusers : Z;
  count : Z;
  inst : Z;
  owned : Z;
  nextOwned : Z;
  parent : Z;
  sibling : Z;
  child : Z;
  name : list Z                 (* PR_MAXNAMELEN *)
}.

Record contentry := mkCo {
  c_flags : Z;
  c_id : Z;
  c_cellid : Z;
  c_next : Z;
  c_entries : list Z            (* COSIZE *)
}.

Definition zero_name : list Z := repeat 0 64.
Definition zero_entry : prentry :=
  mkEntry 0 0 0 0 0 0 0 0 (repeat 0 10) 0 0 0 0 0 0 0 0 0 0 0 0 0 zero_name.

(** The words of [struct prentry] before the name. *)
Definition entry_words (e : prentry) : list Z :=
  [flags e; id e; cellid e; next e; createTime e; addTime e; removeTime e; changeTime e; 0]
  ++ entries e
  ++ [nextID e; nextName e; owner e; creator e; ngroups e; nusers e; count e; inst e;
      owned e; nextOwned e; parent e; sibling e; child e].
Definition entry_layout (e : prentry) : list Z := words32 (entry_words e) ++ strncpy64 (name e).
Definition co_words (c : contentry) : list Z :=
  [c_flags c; c_id c; c_cellid c; c_next c; 0; 0; 0; 0; 0] ++ c_entries c.
Definition co_layout (c : contentry) : list Z := words32 (co_words c).

(** Word [k] of the block at [a]. *)
Definition wat (d : Z -> Z) (a : Z) (k : nat) : Z := word d (a + 4 * Z.of_nat k).
Definition ints (d : Z -> Z) (a : Z) (k n : nat) : list Z := map (fun i => s32 (wat d a i)) (seq k n).

Definition read_entry (d : Z -> Z) (a : Z) : prentry :=
  let w k := s32 (wat d a k) in
  mkEntry (w 0%nat) (w 1%nat) (w 2%nat) (w 3%nat) (wat d a 4) (wat d a 5) (wat d a 6) (wat d a 7)
    (ints d a 9 10) (w 19%nat) (w 20%nat) (w 21%nat) (w 22%nat) (w 23%nat) (w 24%nat) (w 25%nat)
    (w 26%nat) (w 27%nat) (w 28%nat) (w 29%nat) (w 30%nat) (w 31%nat)
    (strncpy64 (bytes d (a + 128) 64)).
Definition read_co (d : Z -> Z) (a : Z) : contentry :=
  let w k := s32 (wat d a k) in
  mkCo (w 0%nat) (w 1%nat) (w 2%nat) (w 3%nat) (ints d a 9 39).

Definition pr_WriteEntry (pos : Z) (e : prentry) : M unit := pr_Write pos (entry_layout e).
Definition pr_ReadEntry (pos : Z) : M prentry := ubik_Read (fun d => read_entry d pos).
Definition pr_WriteCoEntry (pos : Z) (c : contentry) : M unit := pr_Write pos (co_layout c).
Definition pr_ReadCoEntry (pos : Z) : M contentry := ubik_Read (fun d => read_co d pos).

(** Assignments to fields. *)
Definition with_next (v : Z) (e : prentry) : prentry :=
  mkEntry (flags e) (id e) (cellid e) v (createTime e) (addTime e) (removeTime e) (changeTime e) (entries e)
    (nextID e) (nextName e) (owner e) (creator e) (ngroups e) (nusers e) (count e) (inst e) (owned e)
    (nextOwned e) (parent e) (sibling e) (child e) (name e).
Definition with_addTime (v : Z) (e : prentry) : prentry :=
  mkEntry (flags e) (id e) (cellid e) (next e) (createTime e) v (removeTime e) (changeTime e) (entries e)
    (nextID e) (nextName e) (owner e) (creator e) (ngroups e) (nusers e) (count e) (inst e) (owned e)
    (nextOwned e) (parent e) (sibling e) (child e) (name e).
Definition with_removeTime (v : Z) (e : prentry) : prentry :=
  mkEntry (flags e) (id e) (cellid e) (next e) (createTime e) (addTime e) v (changeTime e) (entries e)
    (nextID e) (nextName e) (owner e) (creator e) (ngroups e) (nusers e) (count e) (inst e) (owned e)
    (nextOwned e) (parent e) (sibling e) (child e) (name e).
Definition with_entries (v : list Z) (e : prentry) : prentry :=
  mkEntry (flags e) (id e) (cellid e) (next e) (createTime e) (addTime e) (removeTime e) (changeTime e) v
    (nextID e) (nextName e) (owner e) (creator e) (ngroups e) (nusers e) (count e) (inst e) (owned e)
    (nextOwned e) (parent e) (sibling e) (child e) (name e).
Definition with_nextID (v : Z) (e : prentry) : prentry :=
  mkEntry (flags e) (id e) (cellid e) (next e) (createTime e) (addTime e) (removeTime e) (changeTime e) (entries e)
    v (nextName e) (owner e) (creator e) (ngroups e) (nusers e) (count e) (inst e) (owned e)
    (nextOwned e) (parent e) (sibling e) (child e) (name e).
Definition with_nextName (v : Z) (e : prentry) : prentry :=
  mkEntry (flags e) (id e) (cellid e) (next e) (createTime e) (addTime e) (removeTime e) (changeTime e) (entries e)
    (nextID e) v (owner e) (creator e) (ngroups e) (nusers e) (count e) (inst e) (owned e)
    (nextOwned e) (parent e) (sibling e) (child e) (name e).
Definition with_count (v : Z) (e : prentry) : prentry :=
  mkEntry (flags e) (id e) (cellid e) (next e) (createTime e) (addTime e) (removeTime e) (changeTime e) (entries e)
    (nextID e) (nextName e) (owner e) (creator e) (ngroups e) (nusers e) v (inst e) (owned e)
    (nextOwned e) (parent e) (sibling e) (child e) (name e).
Definition with_owner (v : Z) (e : prentry) : prentry :=
  mkEntry (flags e) (id e) (cellid e) (next e) (createTime e) (addTime e) (removeTime e) (changeTime e) (entries e)
    (nextID e) (nextName e) v (creator e) (ngroups e) (nusers e) (count e) (inst e) (owned e)
    (nextOwned e) (parent e) (sibling e) (child e) (name e).
Definition with_owned (v : Z) (e : prentry) : prentry :=
  mkEntry (flags e) (id e) (cellid e) (next e) (createTime e) (addTime e) (removeTime e) (changeTime e) (entries e)
    (nextID e) (nextName e) (owner e) (creator e) (ngroups e) (nusers e) (count e) (inst e) v
    (nextOwned e) (parent e) (sibling e) (child e) (name e).
Definition with_nextOwned (v : Z) (e : prentry) : prentry :=
  mkEntry (flags e) (id e) (cellid e) (next e) (createTime e) (addTime e) (removeTime e) (changeTime e) (entries e)
    (nextID e) (nextName e) (owner e) (creator e) (ngroups e) (nusers e) (count e) (inst e) (owned e)
    v (parent e) (sibling e) (child e) (name e).
Definition c_with_next (v : Z) (c : contentry) : contentry :=
  mkCo (c_flags c) (c_id c) (c_cellid c) v (c_entries c).
Definition c_with_entries (v : list Z) (c : contentry) : contentry :=
  mkCo (c_flags c) (c_id c) (c_cellid c) (c_next c) v.

Definition has (fl bit : Z) : bool := negb (Z.land fl bit =? 0).

(** ** Allocation *)

(** 0 for any failure. *)
Definition AllocBlock : M Z :=
  do fp <- get (fun s => cheader s w_freePtr);
  if negb (fp =? 0) then
    do r <- try (do e <- pr_ReadEntry fp; set_header_word w_freePtr (next e));
    match r with Some _ => ret fp | None => ret 0 end
  else
    do ep <- get (fun s => cheader s w_eofPtr);
    do r <- try (set_header_word w_eofPtr (s32 (ep + ENTRYSIZE)));
    match r with Some _ => ret ep | None => ret 0 end.

Definition free_entry (fp : Z) : prentry :=
  mkEntry PRFREE 0 0 fp 0 0 0 0 (repeat 0 10) 0 0 0 0 0 0 0 0 0 0 0 0 0 zero_name.
Definition FreeBlock (pos : Z) : M unit :=
  do fp <- get (fun s => cheader s w_freePtr);
  set_header_word w_freePtr pos ;;
  pr_WriteEntry pos (free_entry fp).

(** ** Look-up *)

Section Db.
Context (fuel : nat).

Fixpoint find_id_chain (n : nat) (aid entry : Z) : M Z :=
  if entry =? 0 then ret 0
  else match n with
  | O => loops
  | S n =>
      do r <- try (pr_ReadEntry entry);
      match r with
      | None => ret 0
      | Some e =>
          if aid =? id e then ret entry
          else if entry =? nextID e then dies
          else find_id_chain n aid (nextID e)
      end
  end.
(** The address of the entry, 0 when there is none. *)
Definition FindByID (aid : Z) : M Z :=
  if (aid =? PRBADID) || (aid =? 0) then ret 0
  else
    do entry <- get (fun s => cheader s (w_idHash (IDHash aid)));
    find_id_chain fuel aid entry.

Fixpoint find_name_chain (n : nat) (aname : list Z) (entry : Z) : M (option (Z * prentry)) :=
  if entry =? 0 then ret None
  else match n with
  | O => loops
  | S n =>
      do r <- try (pr_ReadEntry entry);
      match r with
      | None => ret None
      | Some e =>
          if same64 aname (name e) then ret (Some (entry, e))
          else if entry =? nextName e then dies
          else find_name_chain n aname (nextName e)
      end
  end.
(** The address of the entry and the entry itself. *)
Definition FindByName (aname : list Z) : M (option (Z * prentry)) :=
  do entry <- get (fun s => cheader s (w_nameHash (NameHash aname)));
  find_name_chain fuel aname entry.

(** At most [n] ids from [aid] on are tried, in steps of [step], up to [stop]. *)
Fixpoint free_id (n : nat) (aid step : Z) (stop : option Z) : M (option Z) :=
  if bool_decide (stop = Some aid) then ret None
  else match n with
  | O => ret None
  | S n =>
      let aid := s32 (aid + step) in
      do code <- FindByID aid;
      if code =? 0 then ret (Some aid) else free_id n aid step stop
  end.
Definition alloc_id (w step : Z) (stop : option Z) : M Z :=
  do aid <- get (fun s => cheader s w);
  do r <- free_id 50 aid step stop;
  match r with
  | None => fail PRNOIDS
  | Some aid => or_code (set_header_word w aid) PRDBFAIL ;; ret aid
  end.
Definition AllocID (flag : Z) : M Z :=
  if has flag PRGRP then alloc_id w_maxGroup (-1) (Some PRBADID)
  else if has flag PRFOREIGN then alloc_id w_maxForeign 1 None
  else alloc_id w_maxID 1 (Some 2147483647).

Definition NameToID (aname : list Z) : M Z :=
  do r <- FindByName aname;
  match r with None => fail PRNOENT | Some (_, e) => ret (id e) end.
Definition IDToName (aid : Z) : M (list Z) :=
  do temp <- FindByID aid;
  if temp =? 0 then fail PRNOENT else do e <- pr_ReadEntry temp; ret (name e).

(** ** The hash tables *)

(** The block before the one with the id and that block; [None] at the end of the chain. *)
Fixpoint unhash_id_walk (n : nat) (aid trail current : Z) (e : prentry) : M (option (Z * Z * prentry)) :=
  if aid =? id e then ret (Some (trail, current, e))
  else match n with
  | O => loops
  | S n =>
      if trail =? current then dies
      else if nextID e =? 0 then ret None
      else
        do e' <- or_code (pr_ReadEntry (nextID e)) PRDBFAIL;
        unhash_id_walk n aid current (nextID e) e'
  end.
(** The address of the entry that was taken out, if any. *)
Definition RemoveFromIDHash (aid : Z) : M (option Z) :=
  if (aid =? PRBADID) || (aid =? 0) then fail PRINCONSISTENT
  else
    let i := IDHash aid in
    do current <- get (fun s => cheader s (w_idHash i));
    if current =? 0 then ret None
    else
      do e <- or_code (pr_ReadEntry current) PRDBFAIL;
      do r <- unhash_id_walk fuel aid 0 current e;
      match r with
      | None => ret None
      | Some (trail, current, e) =>
          (if trail =? 0 then or_code (set_header_word (w_idHash i) (nextID e)) PRDBFAIL
           else
             do b <- or_code (pr_ReadEntry trail) PRDBFAIL;
             or_code (pr_WriteEntry trail (with_nextID (nextID e) b)) PRDBFAIL) ;;
          ret (Some current)
      end.

Definition AddToIDHash (aid loc : Z) : M unit :=
  if (aid =? PRBADID) || (aid =? 0) then fail PRINCONSISTENT
  else
    let i := IDHash aid in
    do e <- or_code (pr_ReadEntry loc) PRDBFAIL;
    do hd <- get (fun s => cheader s (w_idHash i));
    put_word (w_idHash i) loc ;;
    or_code (pr_WriteEntry loc (with_nextID hd e)) PRDBFAIL ;;
    or_code (write_word (w_idHash i)) PRDBFAIL.

Fixpoint unhash_name_walk (n : nat) (aname : list Z) (trail current : Z) (e : prentry) : M (option (Z * Z * prentry)) :=
  if bool_decide (cstr aname = cstr (name e)) then ret (Some (trail, current, e))
  else match n with
  | O => loops
  | S n =>
      if trail =? current then dies
      else if nextName e =? 0 then ret None
      else
        do e' <- or_code (pr_ReadEntry (nextName e)) PRDBFAIL;
        unhash_name_walk n aname current (nextName e) e'
  end.
Definition RemoveFromNameHash (aname : list Z) : M (option Z) :=
  let i := NameHash aname in
  do current <- get (fun s => cheader s (w_nameHash i));
  if current =? 0 then ret None
  else
    do e <- or_code (pr_ReadEntry current) PRDBFAIL;
    do r <- unhash_name_walk fuel aname 0 current e;
    match r with
    | None => ret None
    | Some (trail, current, e) =>
        (if trail =? 0 then or_code (set_header_word (w_nameHash i) (nextName e)) PRDBFAIL
         else
           do b <- or_code (pr_ReadEntry trail) PRDBFAIL;
           or_code (pr_WriteEntry trail (with_nextName (nextName e) b)) PRDBFAIL) ;;
        ret (Some current)
    end.

Definition AddToNameHash (aname : list Z) (loc : Z) : M unit :=
  let i := NameHash aname in
  do e <- or_code (pr_ReadEntry loc) PRDBFAIL;
  do hd <- get (fun s => cheader s (w_nameHash i));
  put_word (w_nameHash i) loc ;;
  or_code (pr_WriteEntry loc (with_nextName hd e)) PRDBFAIL ;;
  or_code (write_word (w_nameHash i)) PRDBFAIL.

(** ** Membership *)

(** Is [aid] among the slots?  [None] when the list ends here. *)
Fixpoint member_first (l : list Z) (aid : Z) : option bool :=
  match l with
  | [] => Some false
  | x :: l => if x =? 0 then None else if x =? aid then Some true else member_first l aid
  end.
Fixpoint member_co (l : list Z) (aid : Z) : option bool :=
  match l with
  | [] => Some false
  | x :: l => if x =? aid then Some true else if x =? 0 then None else member_co l aid
  end.
Fixpoint member_walk (n : nat) (loc aid : Z) : M bool :=
  if loc =? 0 then ret false
  else match n with
  | O => loops
  | S n =>
      do r <- try (pr_ReadCoEntry loc);
      match r with
      | None => ret false
      | Some c =>
          match member_co (c_entries c) aid with
          | Some true => ret true
          | None => ret false
          | Some false => member_walk n (c_next c) aid
          end
      end
  end.
Definition IsAMemberOf (aid gid : Z) : M bool :=
  if gid =? ANYUSERID then ret true
  else if (gid =? AUTHUSERID) && negb (aid =? ANONYMOUSID) then ret true
  else if (gid =? SYSADMINID) && (aid =? SYSADMINID) then ret true
  else if (gid =? 0) || (aid =? 0) then ret false
  else
    do loc <- FindByID gid;
    if loc =? 0 then ret false
    else
      do r <- try (pr_ReadEntry loc);
      match r with
      | None => ret false
      | Some e =>
          if negb (has (flags e) PRGRP) then ret false
          else
            match member_first (entries e) aid with
            | Some true => ret true
            | None => ret false
            | Some false => member_walk fuel (next e) aid
            end
      end.

(** A place for a new member: in the entry, or in the continuation block at an address. *)
Inductive spot :=
| Nowhere
| First (i : nat)
| Cont (i : nat) (loc : Z).

(** [None] when [aid] is already there. *)
Fixpoint scan_first (l : list Z) (i : nat) (aid : Z) (slot : spot) : option spot :=
  match l with
  | [] => Some slot
  | x :: l =>
      if x =? aid then None
      else if x =? PRBADID then scan_first l (S i) aid (First i)
      else if x =? 0 then Some (match slot with Nowhere => First i | _ => slot end)
      else scan_first l (S i) aid slot
  end.
Fixpoint scan_co (l : list Z) (i : nat) (loc aid : Z) (slot : spot) : option spot :=
  match l with
  | [] => Some slot
  | x :: l =>
      let slot' := match slot with Nowhere => Cont i loc | _ => slot end in
      if x =? aid then None
      else if x =? PRBADID then scan_co l (S i) loc aid slot'
      else if x =? 0 then Some slot'
      else scan_co l (S i) loc aid slot
  end.
(** The place, and the last continuation block. *)
Fixpoint add_walk (n : nat) (nptr aid : Z) (slot : spot) (last : option (Z * contentry))
    : M (spot * option (Z * contentry)) :=
  if nptr =? 0 then ret (slot, last)
  else match n with
  | O => loops
  | S n =>
      do c <- pr_ReadCoEntry nptr;
      if negb (has (c_flags c) PRCONT) then fail PRDBFAIL
      else
        match scan_co (c_entries c) 0 nptr aid slot with
        | None => fail PRIDEXIST
        | Some slot => add_walk n (c_next c) aid slot (Some (nptr, c))
        end
  end.

Definition AddToEntry (entry : prentry) (loc aid : Z) : M unit :=
  if id entry =? aid then fail PRINCONSISTENT
  else
    do t <- get now;
    let entry := with_addTime (u32 t) entry in
    match scan_first (entries entry) 0 aid Nowhere with
    | None => fail PRIDEXIST
    | Some slot =>
        do r <- add_walk fuel (next entry) aid slot None;
        let '(slot, last) := r in
        match slot with
        | First i =>
            pr_WriteEntry loc (with_entries (<[i := aid]> (entries entry)) (with_count (s32 (count entry + 1)) entry))
        | Cont i cloc =>
            pr_WriteEntry loc (with_count (s32 (count entry + 1)) entry) ;;
            do c <- pr_ReadCoEntry cloc;
            pr_WriteCoEntry cloc (c_with_entries (<[i := aid]> (c_entries c)) c)
        | Nowhere =>
            do nptr <- AllocBlock;
            (match last with
             | Some (l, c) => pr_WriteCoEntry l (c_with_next nptr c)
             | None => ret tt
             end) ;;
            let entry := match last with Some _ => entry | None => with_next nptr entry end in
            pr_WriteCoEntry nptr (mkCo PRCONT (id entry) 0 0 (aid :: repeat 0 38)) ;;
            pr_WriteEntry loc (with_count (s32 (count entry + 1)) entry)
        end
    end.

(** The slot of [aid]; [None] when the list ends before it. *)
Fixpoint find_slot (l : list Z) (i : nat) (aid : Z) : option (option nat) :=
  match l with
  | [] => Some None
  | x :: l => if x =? aid then Some (Some i) else if x =? 0 then None else find_slot l (S i) aid
  end.
Definition vacant (x : Z) : bool := (x =? PRBADID) || (x =? 0).

(** [prev] is the continuation block before [nptr]. *)
Fixpoint remove_walk (n : nat) (nptr aid bid temp : Z) (e : prentry) (prev : option (Z * contentry)) : M unit :=
  if nptr =? 0 then fail PRNOENT
  else match n with
  | O => loops
  | S n =>
      do c <- pr_ReadCoEntry nptr;
      if negb (c_id c =? bid) || negb (has (c_flags c) PRCONT) then fail PRDBBAD
      else
        match find_slot (c_entries c) 0 aid with
        | None => fail PRNOENT
        | Some None => remove_walk n (c_next c) aid bid temp e (Some (nptr, c))
        | Some (Some i) =>
            let c' := c_with_entries (<[i := PRBADID]> (c_entries c)) c in
            if forallb vacant (c_entries c') then
              (match prev with
               | None => ret tt
               | Some (hloc, h) => pr_WriteCoEntry hloc (c_with_next (c_next c) h)
               end) ;;
              FreeBlock nptr ;;
              let e := match prev with None => with_next (c_next c) e | Some _ => e end in
              or_code (pr_WriteEntry temp (with_count (s32 (count e - 1)) e)) PRDBFAIL
            else
              pr_WriteCoEntry nptr c' ;;
              or_code (pr_WriteEntry temp (with_count (s32 (count e - 1)) e)) PRDBFAIL
        end
  end.

Definition RemoveFromEntry (aid bid : Z) : M unit :=
  if aid =? bid then fail PRINCONSISTENT
  else
    do temp <- FindByID bid;
    if temp =? 0 then fail PRNOENT
    else
      do e <- pr_ReadEntry temp;
      do t <- get now;
      let e := with_removeTime (u32 t) e in
      match find_slot (entries e) 0 aid with
      | None => fail PRNOENT
      | Some (Some i) =>
          pr_WriteEntry temp (with_entries (<[i := PRBADID]> (entries e)) (with_count (s32 (count e - 1)) e))
      | Some None => remove_walk fuel (next e) aid bid temp e None
      end.

(** ** Lists of members *)

Fixpoint collect (l : list Z) : list Z :=
  match l with
  | [] => []
  | x :: l => if x =? PRBADID then collect l else if x =? 0 then [] else x :: collect l
  end.
Fixpoint collect_walk (n : nat) (nptr : Z) (alist : list Z) : M (list Z) :=
  if nptr =? 0 then ret alist
  else match n with
  | O => loops
  | S n =>
      do c <- pr_ReadCoEntry nptr;
      collect_walk n (c_next c) (alist ++ collect (c_entries c))
  end.
Definition AddAuthGroup (e : prentry) : list Z := if strchr 64 (name e) then [] else [AUTHUSERID].
Definition IDCmp (a b : Z) : Prop := a <= b.
#[global] Instance IDCmp_dec a b : Decision (IDCmp a b) := decide (a <= b).
(** Memory for the list is taken to be available. *)
Definition GetList (e : prentry) (add : bool) : M (list Z) :=
  do l <- collect_walk fuel (next e) (collect (entries e));
  let l :=
    if add then
      if negb (id e =? ANONYMOUSID) && negb (id e =? ANYUSERID)
      then l ++ [ANYUSERID] ++ AddAuthGroup e ++ [id e]
      else l ++ [ANYUSERID; id e]
    else l in
  ret (merge_sort IDCmp l).

(** ** Access *)

Record config := mkConfig {
  pr_noAuth : bool;
  restricted : bool;
  restrict_anonymous : bool;
  prp_user_default : Z;
  prp_group_default : Z
}.

Definition or_else (a b : M bool) : M bool := do x <- a; if x then ret true else b.

Definition AccessOK (cf : config) (cid : Z) (tentry : option prentry) (mem any : Z) : M bool :=
  if pr_noAuth cf then ret true
  else if cid =? SYSADMINID then ret true
  else
    do refused <- (if restricted cf then
                     do adm <- IsAMemberOf cid SYSADMINID;
                     ret (negb adm && ((mem =? PRP_ADD_MEM) || (mem =? PRP_REMOVE_MEM) || ((mem =? 0) && (any =? 0))))
                   else ret false);
    if refused then ret false
    else
      let fl := match tentry with Some e => flags e | None => 0 end in
      let oid := match tentry with Some e => owner e | None => 0 end in
      let aid := match tentry with Some e => id e | None => 0 end in
      let fl := if has fl PRACCESS then fl
                else Z.lor fl (if has fl PRGRP then prp_group_default cf else prp_user_default cf) in
      if has fl any then ret true
      else
        or_else (if negb (oid =? 0) then (if cid =? oid then ret true else IsAMemberOf cid oid) else ret false)
        (or_else (if 0 <? aid then ret (aid =? cid)
                  else if aid <? 0 then (if has fl mem then IsAMemberOf cid aid else ret false) else ret false)
        (or_else (if (mem =? PRP_STATUS_MEM) || (mem =? PRP_MEMBER_MEM) || (any =? PRP_OWNED_ANY)
                  then IsAMemberOf cid SYSVIEWERID else ret false)
        (IsAMemberOf cid SYSADMINID))).

(** ** The handlers for members of groups, within their transaction

    [cid] is the caller, as found by WhoIsThis. *)

Definition addToGroup (cf : config) (cid aid gid : Z) : M unit :=
  if (gid =? ANYUSERID) || (gid =? AUTHUSERID) then fail PRPERM
  else if aid =? ANONYMOUSID then fail PRPERM
  else
    do tempu <- FindByID aid;
    if tempu =? 0 then fail PRNOENT
    else
      do uentry <- pr_ReadEntry tempu;
      if has (flags uentry) PRGRP then fail PRNOTUSER
      else
        do tempg <- FindByID gid;
        if tempg =? 0 then fail PRNOENT
        else
          do tentry <- pr_ReadEntry tempg;
          if negb (has (flags tentry) PRGRP) then fail PRNOTGROUP
          else
            do ok <- AccessOK cf cid (Some tentry) PRP_ADD_MEM PRP_ADD_ANY;
            if negb ok then fail PRPERM
            else
              AddToEntry tentry tempg aid ;;
              AddToEntry uentry tempu gid.

Definition removeFromGroup (cf : config) (cid aid gid : Z) : M unit :=
  do tempu <- FindByID aid;
  if tempu =? 0 then fail PRNOENT
  else
    do tempg <- FindByID gid;
    if tempg =? 0 then fail PRNOENT
    else
      do uentry <- pr_ReadEntry tempu;
      do gentry <- pr_ReadEntry tempg;
      if negb (has (flags gentry) PRGRP) then fail PRNOTGROUP
      else if has (flags uentry) PRGRP then fail PRNOTUSER
      else
        do ok <- AccessOK cf cid (Some gentry) PRP_REMOVE_MEM 0;
        if negb ok then fail PRPERM
        else
          RemoveFromEntry aid gid ;;
          RemoveFromEntry gid aid.

Definition getCPS (cf : config) (cid aid : Z) : M (list Z) :=
  if negb (pr_noAuth cf) && restrict_anonymous cf && (cid =? ANONYMOUSID) then fail PRPERM
  else
    do temp <- FindByID aid;
    if temp =? 0 then fail PRNOENT
    else
      do tentry <- pr_ReadEntry temp;
      do ok <- AccessOK cf cid (Some tentry) PRP_MEMBER_MEM PRP_MEMBER_ANY;
      if negb ok then fail PRPERM else GetList tentry true.

Definition listElements (cf : config) (cid aid : Z) : M (list Z) :=
  do temp <- FindByID aid;
  if temp =? 0 then fail PRNOENT
  else
    do tentry <- pr_ReadEntry temp;
    do ok <- AccessOK cf cid (Some tentry) PRP_MEMBER_MEM PRP_MEMBER_ANY;
    if negb ok then fail PRPERM else GetList tentry false.

Definition isAMemberOf (cf : config) (cid uid gid : Z) : M bool :=
  do uloc <- FindByID uid;
  do gloc <- FindByID gid;
  if (uloc =? 0) || (gloc =? 0) then fail PRNOENT
  else
    do uentry <- pr_ReadEntry uloc;
    do gentry <- pr_ReadEntry gloc;
    if has (flags uentry) PRGRP || negb (has (flags gentry) PRGRP) then fail PRBADARG
    else
      do ok <- or_else (AccessOK cf cid (Some uentry) 0 PRP_MEMBER_ANY)
                       (AccessOK cf cid (Some gentry) PRP_MEMBER_MEM PRP_MEMBER_ANY);
      if negb ok then fail PRPERM else IsAMemberOf uid gid.

End Db.
