(* ===== verification/PtBlock.v ===== *)
(** * The protection database: blocks on disk

    What is written to a block is read back, and leaves other blocks alone.  [wp] is
    the reasoning about computations: [q] says that calls of ubik may fail. *)

From stdpp Require Import prelude list gmap.
From Stdlib Require Import ZArith Lia ZifyBool.
From S2P Require Import Prelude ByteMem Pt.

#[local] Open Scope Z_scope.
#[local] Open Scope pt_scope.

(** ** Words *)

Lemma wat_upd d a ws r k : (k < length ws)%nat -> wat (upd d a (words32 ws ++ r)) a k = u32 (nth k ws 0).
Proof.
  intros Hk. unfold wat. destruct (nth_split ws 0 Hk) as (l1 & l2 & E & Hl). rewrite E at 1.
  rewrite <- Hl at 2. by apply word_upd_words32.
Qed.

Lemma ints_upd d a ws r k n :
  (k + n <= length ws)%nat -> Forall is_s32 ws -> ints (upd d a (words32 ws ++ r)) a k n = take n (drop k ws).
Proof.
  intros Hk Hws. apply nth_ext with 0 0; unfold ints; rewrite length_map, length_seq.
  - rewrite length_take, length_drop. lia.
  - intros i Hi. rewrite (nth_indep _ 0 (s32 (wat (upd d a (words32 ws ++ r)) a 0))) by (rewrite length_map, length_seq; done).
    rewrite (map_nth (fun i => s32 (wat (upd d a (words32 ws ++ r)) a i))), seq_nth by done.
    rewrite wat_upd, s32_u32, s32_small by (lia || (rewrite List.Forall_forall in Hws; apply Hws, nth_In; lia)).
    rewrite !nth_lookup, lookup_take_lt, lookup_drop by done. done.
Qed.

Lemma words32_u8 l : Forall is_u8 (words32 l).
Proof. induction l as [|x l IH]; [by apply Forall_nil|]. unfold words32 in *. cbn [map concat]. apply Forall_app. split; [apply be32_bytes|exact IH]. Qed.

(** ** Names *)

Lemma strncpy64_length l : length (strncpy64 l) = 64%nat.
Proof. unfold strncpy64. rewrite length_app, repeat_length, length_take. lia. Qed.

Lemma cstr_zeros l n : cstr l = l -> cstr (l ++ repeat 0 n) = l.
Proof.
  induction l as [|c l IH]; intros E; cbn in *; [by destruct n|]. destruct (c =? 0); [discriminate|]. injection E as E. by rewrite IH.
Qed.

Lemma cstr_strncpy64 l : cstr (strncpy64 l) = take 64 (cstr l).
Proof. unfold strncpy64. apply cstr_zeros, cstr_take, cstr_idem. Qed.

Lemma strncpy64_idem l : strncpy64 (strncpy64 l) = strncpy64 l.
Proof.
  unfold strncpy64 at 1. rewrite cstr_strncpy64, take_take, Nat.min_id. done.
Qed.

Lemma cstr_u8 l : Forall is_u8 l -> Forall is_u8 (cstr l).
Proof. induction 1 as [|c l Hc _ IH]; cbn; [by apply Forall_nil|]. destruct (c =? 0); [by apply Forall_nil|by apply Forall_cons]. Qed.

Lemma strncpy64_u8 l : Forall is_u8 l -> Forall is_u8 (strncpy64 l).
Proof.
  intros Hl. unfold strncpy64. apply Forall_app. split; [by apply Forall_take, cstr_u8|]. apply Forall_forall. intros x Hx.
  apply list_elem_of_In, repeat_spec in Hx as ->. unfold is_u8. lia.
Qed.

(** ** Entries *)

Record entry_ok (e : prentry) : Prop := {
  eo_words : Forall is_s32 [flags e; id e; cellid e; next e; nextID e; nextName e; owner e; creator e; ngroups e;
    nusers e; count e; inst e; owned e; nextOwned e; parent e; sibling e; child e];
  eo_times : Forall is_u32 [createTime e; addTime e; removeTime e; changeTime e];
  eo_len : length (entries e) = 10%nat;
  eo_entries : Forall is_s32 (entries e);
  eo_name : strncpy64 (name e) = name e /\ Forall is_u8 (name e)
}.
Record co_ok (c : contentry) : Prop := {
  co_fields : Forall is_s32 [c_flags c; c_id c; c_cellid c; c_next c];
  co_len : length (c_entries c) = 39%nat;
  co_slots : Forall is_s32 (c_entries c)
}.

Lemma entry_layout_length e : entry_ok e -> length (entry_layout e) = 192%nat.
Proof.
  intros He. unfold entry_layout. rewrite length_app, words32_length, strncpy64_length. unfold entry_words.
  rewrite !length_app, (eo_len _ He). done.
Qed.
Lemma co_layout_length c : co_ok c -> length (co_layout c) = 192%nat.
Proof. intros Hc. unfold co_layout. rewrite words32_length. unfold co_words. rewrite length_app, (co_len _ Hc). done. Qed.

Lemma entry_layout_u8 e : entry_ok e -> Forall is_u8 (entry_layout e).
Proof. intros He. unfold entry_layout. apply Forall_app. split; [apply words32_u8|apply strncpy64_u8, He]. Qed.
Lemma co_layout_u8 c : Forall is_u8 (co_layout c).
Proof. apply words32_u8. Qed.

Lemma read_co_ok d a : co_ok (read_co d a).
Proof.
  split; cbn [read_co c_flags c_id c_cellid c_next c_entries].
  - repeat (apply Forall_cons; split; [apply s32_range|]). by apply Forall_nil.
  - unfold ints. by rewrite length_map, length_seq.
  - unfold ints. apply Forall_forall. intros x (i & -> & _)%list_elem_of_fmap. apply s32_range.
Qed.
Lemma read_entry_ok d a : (forall x, is_u8 (d x)) -> entry_ok (read_entry d a).
Proof.
  intros Hd. split; unfold read_entry; cbn [flags id cellid next createTime addTime removeTime changeTime entries nextID nextName owner creator ngroups nusers count inst owned nextOwned parent sibling child name].
  - repeat (apply Forall_cons; split; [apply s32_range|]). by apply Forall_nil.
  - repeat (apply Forall_cons; split; [by apply word_u32|]). by apply Forall_nil.
  - done.
  - unfold ints. apply Forall_forall. intros x (i & -> & _)%list_elem_of_fmap. apply s32_range.
  - split; [apply strncpy64_idem|]. apply strncpy64_u8, Forall_forall. intros x (i & -> & _)%list_elem_of_fmap. apply Hd.
Qed.

Lemma read_co_written d a c : co_ok c -> read_co (upd d a (co_layout c)) a = c.
Proof.
  intros [Hf Hl Hs]. unfold co_layout. rewrite <- (app_nil_r (words32 _)).
  assert (Hws : Forall is_s32 (co_words c)).
  { unfold co_words. rewrite !Forall_cons in Hf. apply Forall_app. split; [|done]. rewrite !Forall_cons.
    assert (is_s32 0) by (unfold is_s32; lia). assert (Forall is_s32 []) by by apply Forall_nil. tauto. }
  assert (Hn : length (co_words c) = 48%nat) by (unfold co_words; rewrite length_app, Hl; done).
  assert (Hw : forall k, (k < 48)%nat -> s32 (wat (upd d a (words32 (co_words c) ++ [])) a k) = nth k (co_words c) 0).
  { intros k Hk. rewrite wat_upd, s32_u32 by lia. apply s32_small. rewrite List.Forall_forall in Hws. apply Hws, nth_In. lia. }
  unfold read_co. rewrite !Hw by lia. rewrite ints_upd by (done || lia). destruct c as [f i ce nx l].
  cbn [co_words c_flags c_id c_cellid c_next c_entries] in *. cbn [nth app drop]. f_equal. apply take_ge. cbn in Hl. lia.
Qed.

Lemma read_entry_written d a e : entry_ok e -> read_entry (upd d a (entry_layout e)) a = e.
Proof.
  intros He. pose proof (entry_layout_length _ He) as Hlen. destruct He as [Hf Ht Hl Hs [Hn _]]. unfold entry_layout in *.
  assert (Hl32 : length (entry_words e) = 32%nat) by (unfold entry_words; rewrite !length_app, Hl; done).
  assert (Hw : forall k, (k < 32)%nat -> wat (upd d a (words32 (entry_words e) ++ strncpy64 (name e))) a k = u32 (nth k (entry_words e) 0))
    by (intros k Hk; apply wat_upd; lia).
  assert (Hnm : bytes (upd d a (words32 (entry_words e) ++ strncpy64 (name e))) (a + 128) 64 = name e).
  { rewrite Hn. apply (read_bytes_at _ _ (words32 (entry_words e)) _ []); [by rewrite app_nil_r| |].
    - rewrite words32_length, Hl32. done.
    - rewrite <- Hn, strncpy64_length. done. }
  set (d' := upd d a _) in *. unfold read_entry. rewrite Hnm, Hn, !Hw by lia.
  replace (ints d' a 9 10) with (entries e).
  2: { apply nth_ext with 0 0; [unfold ints; by rewrite length_map, length_seq|]. intros i Hi. rewrite Hl in Hi. unfold ints.
       rewrite (nth_lookup (map (fun i => s32 (wat d' a i)) (seq 9 10))), list_lookup_fmap, lookup_seq_lt by lia. cbn [fmap option_fmap option_map default].
       rewrite Hw by lia. rewrite s32_u32. unfold entry_words. rewrite app_nth2 by (cbn; lia). cbn [length].
       rewrite app_nth1 by lia. replace (9 + i - 9)%nat with i by lia. symmetry. apply s32_small.
       rewrite List.Forall_forall in Hs. apply Hs, nth_In. lia. }
  rewrite !Forall_cons in Ht. rewrite !Forall_cons in Hf. clear Hnm Hw Hlen Hl32. clearbody d'. destruct e as [f i ce nx t1 t2 t3 t4 l n1 n2 ow cr ng nu co ins od no pa si ch nm].
  unfold entry_words. cbn [flags id cellid next createTime addTime removeTime changeTime entries nextID nextName owner creator ngroups nusers count inst owned nextOwned parent sibling child name] in *.
  do 10 (destruct l as [|? l]; [discriminate Hl|]). destruct l; [|discriminate Hl]. cbn [app nth].
  f_equal; rewrite ?s32_u32; first [apply s32_small; tauto|apply u32_small; tauto].
Qed.

(** ** Other blocks *)

Definition apart (a b : Z) : Prop := a + 192 <= b \/ b + 192 <= a.

Lemma read_ext d d' a :
  (forall x, a <= x < a + 192 -> d' x = d x) -> read_entry d' a = read_entry d a /\ read_co d' a = read_co d a.
Proof.
  intros E. assert (Ew : forall k, (k < 48)%nat -> wat d' a k = wat d a k) by (intros k Hk; apply word_ext; intros x Hx; apply E; lia).
  assert (Ei : forall n, (9 + n <= 48)%nat -> ints d' a 9 n = ints d a 9 n).
  { intros n Hn. unfold ints. apply map_ext_in. intros k Hk%in_seq. by rewrite Ew by lia. }
  unfold read_entry, read_co. rewrite !Ew, !Ei by lia. split; [|done]. do 2 f_equal. apply bytes_ext. intros x Hx. apply E. lia.
Qed.

Lemma read_apart d a b l : length l = 192%nat -> apart a b ->
  read_entry (upd d b l) a = read_entry d a /\ read_co (upd d b l) a = read_co d a.
Proof. intros Hl Hab. apply read_ext. intros x Hx. apply upd_out. rewrite Hl. unfold apart in Hab. lia. Qed.

(** ** Reasoning about computations *)

(** Calls of ubik succeed unless [q], and the disk has bytes. *)
Record good (q : Prop) (s : ptdb) : Prop := {
  gd_calm : q \/ Forall (fun c => c = 0) (io s);
  gd_bytes : forall x, is_u8 (disk s x)
}.

Definition wp {A} (q : Prop) (m : M A) (Q : A -> ptdb -> Prop) (E : Z -> ptdb -> Prop) (s : ptdb) : Prop :=
  match m s with
  | (Ok a, s') => Q a s'
  | (Err c, s') => q /\ good q s' \/ E c s'
  | _ => False
  end.

(** The entry and the continuation block at an address; sealed, so that unification
    does not look inside. *)
Definition ent_def (s : ptdb) (p : Z) : prentry := read_entry (disk s) p.
Definition ent_aux : seal (@ent_def). Proof. by eexists. Qed.
Definition ent := unseal ent_aux.
Definition con_def (s : ptdb) (p : Z) : contentry := read_co (disk s) p.
Definition con_aux : seal (@con_def). Proof. by eexists. Qed.
Definition con := unseal con_aux.

Lemma ent_eq s p : ent s p = read_entry (disk s) p.
Proof. unfold ent. by rewrite (seal_eq ent_aux). Qed.
Lemma con_eq s p : con s p = read_co (disk s) p.
Proof. unfold con. by rewrite (seal_eq con_aux). Qed.

Lemma pt_ret {A} q (a : A) (Q : A -> ptdb -> Prop) E s : Q a s -> wp q (ret a) Q E s.
Proof. done. Qed.
Lemma wp_fail {A} q c (Q : A -> ptdb -> Prop) E s : E c s -> wp q (fail c) Q E s.
Proof. by right. Qed.
Lemma pt_get {A} q (f : ptdb -> A) (Q : A -> ptdb -> Prop) E s : Q (f s) s -> wp q (get f) Q E s.
Proof. done. Qed.
Lemma pt_bind {A B} q (m : M A) (k : A -> M B) Q E s :
  wp q m (fun a => wp q (k a) Q E) E s -> wp q (bind m k) Q E s.
Proof. unfold wp, bind. by destruct (m s) as [[a|c| |] s']. Qed.
Lemma wp_or_code {A} q (m : M A) c Q E s : wp q m Q (fun _ s' => E c s') s -> wp q (or_code m c) Q E s.
Proof. unfold wp, or_code. by destruct (m s) as [[a|c'| |] s']. Qed.
Lemma pt_mono {A} q (m : M A) (Q Q' : A -> ptdb -> Prop) (E E' : Z -> ptdb -> Prop) s :
  wp q m Q E s -> (forall a s', Q a s' -> Q' a s') -> (forall c s', E c s' -> E' c s') -> wp q m Q' E' s.
Proof. unfold wp. destruct (m s) as [[a|c| |] s']; try done; [auto|]. intros [H|H] _ HE; [by left|right; auto]. Qed.

Lemma wp_try {A} q (m : M A) (Q : option A -> ptdb -> Prop) E s :
  wp q m (fun a => Q (Some a)) (fun _ => Q None) s -> (q -> forall s', good q s' -> Q None s') -> wp q (try m) Q E s.
Proof. unfold wp, try. destruct (m s) as [[a|c| |] s']; try done. intros [[Hq Hg]|H] H0; [by apply H0|done]. Qed.

(** The same but for what is to come from ubik. *)
Record alike (q : Prop) (s s' : ptdb) : Prop := {
  al_disk : disk s' = disk s;
  al_head : cheader s' = cheader s;
  al_now : now s' = now s;
  al_good : good q s'
}.

Lemma al_ent q s s' p : alike q s s' -> ent s' p = ent s p.
Proof. intros A. by rewrite !ent_eq, (al_disk _ _ _ A). Qed.
Lemma al_con q s s' p : alike q s s' -> con s' p = con s p.
Proof. intros A. by rewrite !con_eq, (al_disk _ _ _ A). Qed.

Lemma alike_refl q s : good q s -> alike q s s.
Proof. by split. Qed.

Lemma wp_ubik q (Q : unit -> ptdb -> Prop) E s :
  good q s -> (forall s', alike q s s' -> Q tt s') -> wp q ubik Q E s.
Proof.
  intros [Hc Hb] HQ. unfold wp, ubik. destruct (io s) as [|c l] eqn:Ei; [by apply HQ; split; [..|split; rewrite ?Ei]|].
  destruct (Z.eqb_spec c 0) as [->|Hne].
  - apply HQ. split; try done. split; [|done]. destruct Hc as [?|Hc]; [by left|right]. by apply Forall_cons in Hc as [_ ?].
  - left. assert (Hq : q) by (destruct Hc as [?|Hc]; [done|]; by apply Forall_cons in Hc as [-> _]). split; [done|]. split; [by left|done].
Qed.

Lemma wp_ReadEntry q pos (Q : prentry -> ptdb -> Prop) E s :
  good q s -> (forall s', alike q s s' -> Q (ent s pos) s') -> wp q (pr_ReadEntry pos) Q E s.
Proof. intros Hg HQ. unfold pr_ReadEntry, ubik_Read. apply pt_bind, wp_ubik; [done|]. intros s' A. apply pt_get. rewrite (al_disk _ _ _ A), <- ent_eq. by apply HQ. Qed.
Lemma wp_ReadCo q pos (Q : contentry -> ptdb -> Prop) E s :
  good q s -> (forall s', alike q s s' -> Q (con s pos) s') -> wp q (pr_ReadCoEntry pos) Q E s.
Proof. intros Hg HQ. unfold pr_ReadCoEntry, ubik_Read. apply pt_bind, wp_ubik; [done|]. intros s' A. apply pt_get. rewrite (al_disk _ _ _ A), <- con_eq. by apply HQ. Qed.

(** Reads whose failure is taken for an absence. *)
Lemma wp_try_ubik {A} q (f : (Z -> Z) -> A) (Q : option A -> ptdb -> Prop) E s :
  good q s -> (forall s', alike q s s' -> Q (Some (f (disk s))) s') -> (q -> forall s', alike q s s' -> Q None s') ->
  wp q (try (ubik_Read f)) Q E s.
Proof.
  intros [Hc Hb] HQ H0. unfold wp, try, ubik_Read, bind, get, ubik. destruct (io s) as [|c l] eqn:Ei.
  - apply HQ. split; try done. split; [|done]. by rewrite Ei.
  - destruct (Z.eqb_spec c 0) as [->|Hne].
    + apply HQ. split; try done. split; [|done]. destruct Hc as [?|Hc]; [by left|right]. by apply Forall_cons in Hc as [_ ?].
    + assert (Hq : q) by (destruct Hc as [?|Hc]; [done|]; by apply Forall_cons in Hc as [-> _]).
      apply H0; [done|]. split; try done. split; [by left|done].
Qed.

(** ** Writes *)

(** Only the block at [pos] is different. *)
Record wrote (q : Prop) (pos : Z) (s s' : ptdb) : Prop := {
  wr_head : cheader s' = cheader s;
  wr_now : now s' = now s;
  wr_good : good q s';
  wr_apart : forall p, apart p pos -> ent s' p = ent s p /\ con s' p = con s p
}.

Lemma wp_Write q pos l (Q : unit -> ptdb -> Prop) E s :
  good q s -> sizeof_prheader <= pos -> length l = 192%nat -> Forall is_u8 l ->
  (forall s', wrote q pos s s' -> disk s' = upd (disk s) pos l -> Q tt s') -> wp q (pr_Write pos l) Q E s.
Proof.
  intros Hg Hp Hl Hu HQ. unfold pr_Write. replace (_ && _) with false by (unfold sizeof_prheader in *; lia).
  unfold ubik_Write. apply pt_bind, wp_ubik; [done|]. intros s' A. destruct A as [A1 A2 A3 [A4 A5]]. unfold wp, set_disk.
  apply HQ; cbn [disk cheader now io]; [|by rewrite A1]. split; cbn [disk cheader now io]; try done.
  - split; [done|]. cbn [disk]. by apply upd_u8.
  - intros p Hap. rewrite !ent_eq, !con_eq. cbn [disk]. rewrite A1. by apply read_apart.
Qed.

Lemma wp_WriteEntry q pos e (Q : unit -> ptdb -> Prop) E s :
  good q s -> sizeof_prheader <= pos -> entry_ok e ->
  (forall s', wrote q pos s s' -> ent s' pos = e -> Q tt s') -> wp q (pr_WriteEntry pos e) Q E s.
Proof.
  intros Hg Hp He HQ. apply wp_Write; [done|done|by apply entry_layout_length|by apply entry_layout_u8|].
  intros s' W E1. apply HQ; [done|]. rewrite ent_eq, E1. by apply read_entry_written.
Qed.
Lemma wp_WriteCo q pos c (Q : unit -> ptdb -> Prop) E s :
  good q s -> sizeof_prheader <= pos -> co_ok c ->
  (forall s', wrote q pos s s' -> con s' pos = c -> Q tt s') -> wp q (pr_WriteCoEntry pos c) Q E s.
Proof.
  intros Hg Hp He HQ. apply wp_Write; [done|done|by apply co_layout_length|apply co_layout_u8|].
  intros s' W E1. apply HQ; [done|]. rewrite con_eq, E1. by apply read_co_written.
Qed.

(** Only word [k] of the header is different. *)
Record worded (q : Prop) (k v : Z) (s s' : ptdb) : Prop := {
  wd_head : forall x, cheader s' x = if x =? k then v else cheader s x;
  wd_now : now s' = now s;
  wd_good : good q s';
  wd_blocks : forall p, sizeof_prheader <= p -> ent s' p = ent s p /\ con s' p = con s p
}.

Lemma wp_write_word q k (Q : unit -> ptdb -> Prop) E s :
  good q s -> 4 * k + 4 <= sizeof_prheader -> (forall s', worded q k (cheader s k) s s' -> Q tt s') -> wp q (write_word k) Q E s.
Proof.
  intros Hg Hk HQ. unfold write_word. apply pt_bind, pt_get. unfold ubik_Write. apply pt_bind, wp_ubik; [done|].
  intros s' [A1 A2 A3 [A4 A5]]. unfold wp, set_disk. apply HQ. split; cbn [disk cheader now io].
  - intros x. rewrite A2. by destruct (Z.eqb_spec x k) as [->|].
  - done.
  - split; [done|]. cbn [disk]. apply upd_u8; [done|apply be32_bytes].
  - intros p Hp. rewrite !ent_eq, !con_eq. cbn [disk]. rewrite A1. apply read_ext. intros x Hx. apply upd_out. rewrite be32_length. unfold sizeof_prheader in *. lia.
Qed.

Lemma wp_set_header_word q k v (Q : unit -> ptdb -> Prop) E s :
  good q s -> 4 * k + 4 <= sizeof_prheader -> (forall s', worded q k v s s' -> Q tt s') -> wp q (set_header_word k v) Q E s.
Proof.
  intros [Hg1 Hg2] Hk HQ. unfold set_header_word. apply pt_bind. unfold put_word. cbn. apply wp_write_word; [by split|done|].
  intros s' [W1 W2 W3 W4]. apply HQ. split; [|done|done|].
  2: { intros p Hp. rewrite (ent_eq s), (con_eq s). destruct (W4 p Hp) as [-> ->]. by rewrite ent_eq, con_eq. }
  intros x. rewrite W1. cbn [set_word cheader].
  rewrite Z.eqb_refl. by destruct (x =? k).
Qed.
