(* ===== verification/PtOk.v ===== *)
(** * The protection database: the invariant, and looking up ids

    Entries [E], the continuation blocks [K p] of the entry at [p], and the free list [F]
    are different blocks of the file.  Every entry is on the hash chain of its id and on
    no other, ids are different, and the membership list of every entry is in order
    ([listed]): its slots, taken together, have zeros at the end only, every continuation
    block holds a member, no id is listed twice, and the count is right. *)

From stdpp Require Import prelude list gmap list_numbers.
From Stdlib Require Import ZArith Lia ZifyBool.
From S2P Require Import Prelude ByteMem Pt PtBlock.

#[local] Open Scope Z_scope.
#[local] Open Scope pt_scope.

(** ** Membership lists *)

Definition tailed (l : list Z) : Prop :=
  forall i j x, (i < j)%nat -> l !! i = Some 0 -> l !! j = Some x -> x = 0.
Definition real (l : list Z) : list Z := filter (fun x => vacant x = false) l.

Definition slots (s : ptdb) (p : Z) (ks : list Z) : list Z :=
  entries (ent s p) ++ concat (map (fun b => c_entries (con s b)) ks).
Definition members (s : ptdb) (p : Z) (ks : list Z) : list Z := real (slots s p ks).

Record listed (s : ptdb) (p : Z) (ks : list Z) : Prop := {
  li_chain : chain (fun b => c_next (con s b)) (next (ent s p)) ks;
  li_blocks : forall b, b ∈ ks -> has (c_flags (con s b)) PRCONT = true /\ c_id (con s b) = id (ent s p)
    /\ exists x, x ∈ c_entries (con s b) /\ vacant x = false;
  li_tailed : tailed (slots s p ks);
  li_nodup : NoDup (members s p ks);
  li_self : id (ent s p) ∉ members s p ks;
  li_count : count (ent s p) = s32 (Z.of_nat (length (members s p ks)))
}.

(** ** Blocks *)

Definition eof (s : ptdb) : Z := cheader s w_eofPtr.
Definition block (s : ptdb) (p : Z) : Prop :=
  exists n, 0 <= n /\ p = sizeof_prheader + 192 * n /\ p + 192 <= eof s.
Definition used (E : gset Z) (K : Z -> list Z) (p : Z) : Prop := p ∈ E \/ exists e, e ∈ E /\ p ∈ K e.

Record ok (E : gset Z) (K : Z -> list Z) (F : list Z) (s : ptdb) : Prop := {
  ok_eof : exists n, 0 <= n /\ eof s = sizeof_prheader + 192 * n /\ eof s < 2 ^ 31;
  ok_used : forall p, used E K p -> block s p;
  ok_frees : forall p, p ∈ F -> block s p /\ ~ used E K p;
  ok_nodup : NoDup F /\ forall e, e ∈ E -> NoDup (K e) /\ forall b, b ∈ K e -> b ∉ E;
  ok_owner : forall e e' b, e ∈ E -> e' ∈ E -> b ∈ K e -> b ∈ K e' -> e = e';
  ok_free : chain (fun p => next (ent s p)) (cheader s w_freePtr) F;
  ok_hash : forall i, 0 <= i < HASHSIZE -> exists l,
    chain (fun p => nextID (ent s p)) (cheader s (w_idHash i)) l /\ NoDup l
    /\ forall p, p ∈ l <-> p ∈ E /\ IDHash (id (ent s p)) = i;
  ok_ids : forall p, p ∈ E -> id (ent s p) <> 0 /\ id (ent s p) <> PRBADID;
  ok_unique : forall p p', p ∈ E -> p' ∈ E -> id (ent s p) = id (ent s p') -> p = p';
  ok_lists : forall p, p ∈ E -> listed s p (K p)
}.

Lemma block_apart s p p' : block s p -> block s p' -> p <> p' -> apart p p'.
Proof. intros (n & _ & -> & _) (n' & _ & -> & _) Hne. unfold apart. lia. Qed.
Lemma block_low s p : block s p -> sizeof_prheader <= p /\ p <> 0 /\ is_s32 p \/ ~ eof s < 2 ^ 31.
Proof. intros (n & Hn & -> & H). destruct (Z.lt_ge_cases (eof s) (2 ^ 31)); [left|right; lia]. unfold sizeof_prheader, is_s32 in *. lia. Qed.

Lemma ok_block_low E K F s p : ok E K F s -> block s p -> sizeof_prheader <= p /\ p <> 0 /\ is_s32 p.
Proof. intros H Hp. destruct (ok_eof _ _ _ _ H) as (n & _ & _ & Hlt). by destruct (block_low s p Hp) as [?|[]]. Qed.

Lemma ok_entry E K F s p : ok E K F s -> p ∈ E -> block s p.
Proof. intros H Hp. apply (ok_used _ _ _ _ H). by left. Qed.
Lemma ok_cont E K F s e b : ok E K F s -> e ∈ E -> b ∈ K e -> block s b.
Proof. intros H He Hb. apply (ok_used _ _ _ _ H). right. by exists e. Qed.

(** Enough fuel for every walk. *)
Definition enough (fuel : nat) (s : ptdb) : Prop := eof s <= sizeof_prheader + 192 * Z.of_nat fuel.

Lemma blocks_fit fuel s l : enough fuel s -> NoDup l -> (forall p, p ∈ l -> block s p) -> (length l <= fuel)%nat.
Proof.
  intros Hf Hnd Hl. set (f := fun p => (p - sizeof_prheader) / 192).
  assert (Hnd' : NoDup (map f l)).
  { apply NoDup_fmap_2_strong; [|done]. intros x y Hx Hy E. destruct (Hl x Hx) as (n & _ & -> & _), (Hl y Hy) as (m & _ & -> & _).
    unfold f in E. replace (sizeof_prheader + 192 * n - sizeof_prheader) with (n * 192) in E by lia.
    replace (sizeof_prheader + 192 * m - sizeof_prheader) with (m * 192) in E by lia. rewrite !Z.div_mul in E by lia. lia. }
  assert (Hin : map f l ⊆ seqZ 0 (Z.of_nat fuel)).
  { intros x (p & -> & Hp)%list_elem_of_fmap. destruct (Hl p Hp) as (n & Hn & -> & He). unfold f.
    replace (sizeof_prheader + 192 * n - sizeof_prheader) with (n * 192) by lia. rewrite Z.div_mul by lia.
    apply elem_of_seqZ. unfold enough in Hf. lia. }
  pose proof (submseteq_length _ _ (NoDup_submseteq _ _ Hnd' Hin)) as H. rewrite length_map, length_seqZ in H. lia.
Qed.

Lemma pt_IDHash_range x : is_s32 x -> x <> PRBADID -> 0 <= IDHash x < HASHSIZE.
Proof.
  intros Hx Hb. unfold IDHash. rewrite (s32_small x) by done. assert (is_s32 (Z.abs x)) by (unfold is_s32, PRBADID in *; lia).
  rewrite s32_small by done. pose proof (Z.rem_bound_pos (Z.abs x) HASHSIZE ltac:(lia) ltac:(done)). done.
Qed.

(** ** States that look the same *)

Lemma listed_ext s s' p ks :
  ent s' p = ent s p -> (forall b, b ∈ ks -> con s' b = con s b) -> listed s p ks -> listed s' p ks.
Proof.
  intros E1 E2 [L1 L2 L3 L4 L5 L6].
  assert (Es : slots s' p ks = slots s p ks).
  { unfold slots. rewrite E1. f_equal. f_equal. apply map_ext_in. intros b Hb%list_elem_of_In. by rewrite E2. }
  assert (Em : members s' p ks = members s p ks) by (unfold members; by rewrite Es).
  split; rewrite ?E1, ?Es, ?Em; try done.
  - revert L1. apply chain_ext. intros b Hb. by rewrite E2.
  - intros b Hb. rewrite E2 by done. by apply L2.
Qed.

Lemma ok_ext E K F s s' :
  cheader s' = cheader s -> (forall p, sizeof_prheader <= p -> ent s' p = ent s p /\ con s' p = con s p) -> ok E K F s -> ok E K F s'.
Proof.
  intros Eh Eb Hok. pose proof Hok as [O1 O2 O3 O4 O5 O6 O7 O8 O9 O10]. unfold eof, block, eof in *.
  assert (Hblk : forall p, block s p -> ent s' p = ent s p /\ con s' p = con s p).
  { intros p Hp. apply Eb. by apply (ok_block_low _ _ _ _ _ Hok). }
  assert (HE : forall p, p ∈ E -> ent s' p = ent s p) by (intros p Hp; apply Hblk, O2; by left).
  split; unfold eof, block, eof; rewrite ?Eh; try done.
  - revert O6. apply chain_ext. intros p Hp. destruct (Hblk p) as [-> _]; [by apply O3|done].
  - intros i Hi. destruct (O7 i Hi) as (l & Hl & Hnd & Hm). exists l. split; [|split; [done|]].
    + revert Hl. apply chain_ext. intros p Hp. rewrite HE by (by apply Hm). done.
    + intros p. rewrite Hm. split; intros [Hp E1]; (split; [done|]); by rewrite HE in *.
  - intros p Hp. rewrite HE by done. by apply O8.
  - intros p p' Hp Hp'. rewrite !HE by done. by apply O9.
  - intros p Hp. apply (listed_ext s); [by apply HE| |by apply O10]. intros b Hb. apply Hblk, O2. right. by exists p.
Qed.

Lemma ok_alike q E K F s s' : alike q s s' -> ok E K F s -> ok E K F s'.
Proof. intros A. apply ok_ext; [apply A|]. intros p _. split; [by apply (al_ent q)|by apply (al_con q)]. Qed.

Lemma alike_trans q s s1 s2 : alike q s s1 -> alike q s1 s2 -> alike q s s2.
Proof. intros [] []. split; congruence || done. Qed.

(** ** Looking up an id *)

Lemma wp_find_id_chain q n aid entry l (Q : Z -> ptdb -> Prop) E s :
  good q s -> chain (fun p => nextID (ent s p)) entry l -> NoDup l -> (length l <= n)%nat ->
  (forall s', alike q s s' -> (forall p, p ∈ l -> id (ent s p) <> aid) -> Q 0 s') ->
  (forall p s', alike q s s' -> p ∈ l -> id (ent s p) = aid -> Q p s') ->
  (q -> forall s', alike q s s' -> Q 0 s') ->
  wp q (find_id_chain n aid entry) Q E s.
Proof.
  revert entry l s. induction n as [|n IH]; intros entry l s Hg Hl Hnd Hn HN HF Hq; destruct l as [|p l]; cbn [chain] in Hl.
  1, 3: subst entry; cbn; apply HN; [by apply alike_refl|by intros p ?%not_elem_of_nil].
  { cbn [length] in Hn. lia. }
  destruct Hl as (-> & Hp & Hl). cbn [find_id_chain]. rewrite (proj2 (Z.eqb_neq p 0) Hp). apply NoDup_cons in Hnd as [Hpl Hnd].
  apply pt_bind, wp_try_ubik; [done| |by intros ? s' ?; apply pt_ret, Hq].
  intros s' A. rewrite <- ent_eq. destruct (Z.eqb_spec aid (id (ent s p))) as [E1|E1]; [apply pt_ret, HF; [done|left|done]|].
  assert (Hne : p <> nextID (ent s p)).
  { intros Hs. destruct l as [|p2 l]; cbn [chain] in Hl; [lia|]. destruct Hl as (E2 & _). apply Hpl. rewrite Hs, E2. left. }
  rewrite (proj2 (Z.eqb_neq _ _) Hne). pose proof (al_good _ _ _ A) as Hg'. apply (IH _ l).
  - exact Hg'.
  - revert Hl. apply chain_ext. intros x _. by rewrite (al_ent _ _ _ _ A).
  - exact Hnd.
  - cbn [length] in Hn. lia.
  - intros s2 A2 HN2. apply HN; [by apply (alike_trans _ _ s')|]. intros x [->|Hx]%elem_of_cons; [congruence|]. rewrite <- (al_ent _ _ _ _ A). by apply HN2.
  - intros x s2 A2 Hx E2. rewrite (al_ent _ _ _ _ A) in E2. apply HF; [by apply (alike_trans _ _ s')|by right|done].
  - intros Hq' s2 A2. apply Hq; [done|]. by apply (alike_trans _ _ s').
Qed.

Lemma wp_FindByID fuel q E K F aid (Q : Z -> ptdb -> Prop) Er s :
  good q s -> ok E K F s -> enough fuel s -> is_s32 aid ->
  (forall s', alike q s s' -> (forall p, p ∈ E -> id (ent s p) <> aid) -> Q 0 s') ->
  (forall p s', alike q s s' -> p ∈ E -> id (ent s p) = aid -> Q p s') ->
  (q -> forall s', alike q s s' -> Q 0 s') ->
  wp q (FindByID fuel aid) Q Er s.
Proof.
  intros Hg Hok Hf Hs HN HF Hq. unfold FindByID. destruct (_ || _) eqn:E0.
  { apply pt_ret, HN; [by apply alike_refl|]. intros p Hp E1. destruct (ok_ids _ _ _ _ Hok p Hp). lia. }
  apply pt_bind, pt_get. destruct (ok_hash _ _ _ _ Hok (IDHash aid)) as (l & Hl & Hnd & Hm); [apply pt_IDHash_range; [done|lia]|].
  apply (wp_find_id_chain _ _ _ _ l); try done.
  - apply (blocks_fit _ s); [done|done|]. intros p Hp. apply (ok_entry _ _ _ _ _ Hok). by apply Hm.
  - intros s' A Hno. apply HN; [done|]. intros p Hp E1. apply (Hno p); [|done]. apply Hm. by rewrite E1.
  - intros p s' A Hp E1. apply HF; [done|by apply Hm|done].
Qed.
