(* ===== verification/PtList.v ===== *)
(** * The protection database: slots of membership lists

    The pure side of the walks: what the scans over the slots of one block find, and how
    filling, clearing and dropping slots changes the members. *)

From stdpp Require Import prelude list gmap.
From Stdlib Require Import ZArith Lia ZifyBool.
From S2P Require Import Prelude ByteMem Pt PtBlock PtOk.

#[local] Open Scope Z_scope.

Lemma real_app l1 l2 : real (l1 ++ l2) = real l1 ++ real l2.
Proof. apply filter_app. Qed.
Lemma elem_of_real x l : x ∈ real l <-> x ∈ l /\ vacant x = false.
Proof. unfold real. rewrite list_elem_of_filter. tauto. Qed.
Lemma vacant_false x : vacant x = false <-> x <> 0 /\ x <> PRBADID.
Proof. unfold vacant. lia. Qed.
Lemma vacant_true x : vacant x = true <-> x = 0 \/ x = PRBADID.
Proof. unfold vacant. lia. Qed.

Lemma tailed_app l1 l2 : tailed (l1 ++ l2) -> tailed l1 /\ tailed l2.
Proof.
  intros H. split.
  - intros i j x Hij Hi Hj. apply (H i j); [done|by apply lookup_app_l_Some|by apply lookup_app_l_Some].
  - intros i j x Hij Hi Hj. apply (H (length l1 + i)%nat (length l1 + j)%nat); [lia| |]; by rewrite lookup_app_r, Nat.add_comm, Nat.add_sub by lia.
Qed.
(** A zero in front: nothing behind. *)
Lemma tailed_zero l1 l2 x : tailed (l1 ++ l2) -> 0 ∈ l1 -> x ∈ l2 -> x = 0.
Proof.
  intros H (i & Hi)%list_elem_of_lookup (j & Hj)%list_elem_of_lookup. pose proof (lookup_lt_Some _ _ _ Hi).
  apply (H i (length l1 + j)%nat); [lia|by apply lookup_app_l_Some|]. rewrite lookup_app_r by lia. by rewrite Nat.add_comm, Nat.add_sub.
Qed.

(** ** Filling a slot *)

(** A slot that a new member may take: a deleted one, or the first zero. *)
Definition fillable (l : list Z) (i : nat) : Prop :=
  l !! i = Some PRBADID \/ l !! i = Some 0 /\ forall j, (j < i)%nat -> l !! j <> Some 0.

Lemma fillable_app_l l1 l2 i : fillable l1 i -> fillable (l1 ++ l2) i.
Proof.
  intros [H|[H Hj]]; [left; by apply lookup_app_l_Some|right]. split; [by apply lookup_app_l_Some|].
  intros j Hji. apply lookup_lt_Some in H. rewrite lookup_app_l by lia. by apply Hj.
Qed.
Lemma fillable_app_r l1 l2 i : 0 ∉ l1 -> fillable l2 i -> fillable (l1 ++ l2) (length l1 + i).
Proof.
  intros H0 H. assert (E : forall k, (l1 ++ l2) !! (length l1 + k)%nat = l2 !! k) by (intros k; rewrite lookup_app_r by lia; f_equal; lia).
  destruct H as [H|[H Hj]]; [left; by rewrite E|right]. split; [by rewrite E|]. intros j Hji.
  destruct (Nat.lt_ge_cases j (length l1)).
  - rewrite lookup_app_l by done. intros Hx. apply H0. by apply list_elem_of_lookup_2 in Hx.
  - replace j with (length l1 + (j - length l1))%nat by lia. rewrite E. apply Hj. lia.
Qed.

Lemma tailed_fill l i x : tailed l -> fillable l i -> x <> 0 -> tailed (<[i := x]> l).
Proof.
  intros Ht Hf Hx a b y Hab Ha Hb. destruct (decide (a = i)) as [->|Hai].
  { assert (i < length l)%nat by (destruct Hf as [H|[H _]]; by apply lookup_lt_Some in H).
    rewrite list_lookup_insert_eq in Ha by done. by injection Ha. }
  rewrite list_lookup_insert_ne in Ha by done. destruct (decide (b = i)) as [->|Hbi].
  - destruct Hf as [H|[H Hj]]; [|by destruct (Hj a Hab)]. pose proof (Ht a i _ Hab Ha H). done.
  - rewrite list_lookup_insert_ne in Hb by done. by apply (Ht a b).
Qed.

Lemma real_fill l i x : fillable l i -> vacant x = false -> real (<[i := x]> l) ≡ₚ x :: real l.
Proof.
  intros Hf Hx. assert (Hv : exists v, l !! i = Some v /\ vacant v = true).
  { destruct Hf as [H|[H _]]; eexists; (split; [exact H|]); by apply vacant_true; auto. }
  destruct Hv as (v & Hv & Hvv). pose proof (lookup_lt_Some _ _ _ Hv). rewrite insert_take_drop by done.
  rewrite <- (take_drop_middle l i v Hv) at 3. unfold real. rewrite !filter_app, !filter_cons.
  rewrite decide_True by done. rewrite decide_False by congruence. by rewrite Permutation_middle.
Qed.

(** ** Clearing a slot *)

Lemma tailed_clear l i x : tailed l -> l !! i = Some x -> x <> 0 -> tailed (<[i := PRBADID]> l).
Proof.
  intros Ht Hi Hx a b y Hab Ha Hb. pose proof (lookup_lt_Some _ _ _ Hi).
  destruct (decide (a = i)) as [->|Hai]; [rewrite list_lookup_insert_eq in Ha by done; by injection Ha|].
  rewrite list_lookup_insert_ne in Ha by done. destruct (decide (b = i)) as [->|Hbi].
  - destruct Hx. by apply (Ht a i).
  - rewrite list_lookup_insert_ne in Hb by done. by apply (Ht a b).
Qed.

Lemma real_clear l i x : l !! i = Some x -> vacant x = false -> real l ≡ₚ x :: real (<[i := PRBADID]> l).
Proof.
  intros Hi Hx. pose proof (lookup_lt_Some _ _ _ Hi). rewrite insert_take_drop by done.
  rewrite <- (take_drop_middle l i x Hi) at 1. unfold real. rewrite !filter_app, !filter_cons.
  rewrite decide_True by done. rewrite decide_False by done. by rewrite Permutation_middle.
Qed.

(** ** Dropping a block that has become empty *)

Lemma real_vacant l : Forall (fun x => vacant x = true) l -> real l = [].
Proof. induction 1 as [|x l Hx _ IH]; [done|]. unfold real. rewrite filter_cons, decide_False by congruence. exact IH. Qed.

Lemma tailed_drop l1 l2 l3 : tailed (l1 ++ l2 ++ l3) -> tailed (l1 ++ l3).
Proof.
  intros H i j x Hij Hi Hj.
  set (g := fun k => if decide (k < length l1)%nat then k else (length l2 + k)%nat).
  assert (E : forall k, (l1 ++ l2 ++ l3) !! g k = (l1 ++ l3) !! k).
  { intros k. unfold g. destruct (decide (k < length l1)%nat); [by rewrite !lookup_app_l by lia|].
    rewrite !lookup_app_r by lia. f_equal. lia. }
  apply (H (g i) (g j)); [|by rewrite E|by rewrite E]. unfold g. repeat case_decide; lia.
Qed.

Lemma real_zeros n : real (repeat 0 n) = [].
Proof. apply real_vacant, Forall_forall. intros x Hx%list_elem_of_In. by apply repeat_spec in Hx as ->. Qed.

(** ** A new block *)

Lemma tailed_last l x n : (0 ∉ l) -> x <> 0 -> tailed (l ++ x :: repeat 0 n).
Proof.
  intros H0 Hx i j y Hij Hi Hj. assert (length l < i)%nat.
  { destruct (Nat.lt_trichotomy (length l) i) as [?|[<-|Hlt]]; [done|exfalso..].
    - rewrite lookup_app_r, Nat.sub_diag in Hi by lia. by injection Hi.
    - rewrite lookup_app_l in Hi by done. apply H0. by apply list_elem_of_lookup_2 in Hi. }
  rewrite lookup_app_r in Hj by lia. destruct (j - length l)%nat as [|k] eqn:Ek; [lia|]. cbn in Hj.
  apply list_elem_of_lookup_2, list_elem_of_In in Hj. by apply repeat_spec in Hj.
Qed.

Lemma chain_snoc nx nx' hd l b :
  chain nx hd l -> NoDup l -> b <> 0 -> nx' b = 0 ->
  (forall c, c ∈ l -> nx' c = if decide (last l = Some c) then b else nx c) ->
  chain nx' (match l with [] => b | _ => hd end) (l ++ [b]).
Proof.
  intros Hl Hnd Hb H0. revert hd Hl. induction l as [|c l IH]; intros hd Hl Hn; [by cbn|].
  destruct Hl as (-> & Hc & Hl). apply NoDup_cons in Hnd as [Hcl Hnd]. cbn [app chain]. split; [done|]. split; [done|].
  rewrite Hn by left. destruct l as [|c' l]; [by rewrite decide_True by done|].
  rewrite decide_False.
  - apply (IH Hnd (nx c) Hl). intros x Hx. rewrite Hn by by right. by change (last (c :: c' :: l)) with (last (c' :: l)).
  - change (last (c :: c' :: l)) with (last (c' :: l)). intros E%last_Some_elem_of. done.
Qed.

(** ** The scans *)

Lemma find_slot_some l i0 aid i : find_slot l i0 aid = Some (Some i) -> exists k, i = (i0 + k)%nat /\ l !! k = Some aid.
Proof.
  revert i0. induction l as [|x l IH]; intros i0; cbn [find_slot]; [done|]. destruct (Z.eqb_spec x aid) as [->|].
  - intros [= <-]. exists 0%nat. split; [lia|done].
  - destruct (x =? 0); [done|]. intros (k & -> & Hk)%IH. exists (S k). split; [lia|done].
Qed.
Lemma find_slot_none l i0 aid : find_slot l i0 aid = None -> 0 ∈ l /\ exists l1 l2, l = l1 ++ 0 :: l2 /\ (aid ∉ l1) /\ aid <> 0.
Proof.
  revert i0. induction l as [|x l IH]; intros i0; cbn [find_slot]; [done|]. destruct (Z.eqb_spec x aid) as [->|Hne]; [done|].
  destruct (Z.eqb_spec x 0) as [->|].
  - intros _. split; [left|]. exists [], l. split; [done|]. split; [apply not_elem_of_nil|done].
  - intros (H1 & l1 & l2 & -> & H2 & H3)%IH. split; [by right|]. exists (x :: l1), l2. split; [done|]. split; [|done].
    intros [->|?]%elem_of_cons; done.
Qed.
Lemma find_slot_pass l i0 aid : find_slot l i0 aid = Some None -> (aid ∉ l) /\ 0 ∉ l.
Proof.
  revert i0. induction l as [|x l IH]; intros i0; cbn [find_slot]; [intros _; split; apply not_elem_of_nil|].
  destruct (Z.eqb_spec x aid) as [->|Hne]; [done|]. destruct (Z.eqb_spec x 0) as [->|]; [done|].
  intros [H1 H2]%IH. split; intros [?|?]%elem_of_cons; done || congruence.
Qed.

Lemma tailed_cons x l : tailed (x :: l) -> tailed l /\ (x = 0 -> forall y, y ∈ l -> y = 0).
Proof.
  intros H. split; [by apply (tailed_app [x] l)|]. intros -> y Hy. apply (tailed_zero [0] l); [done|left|done].
Qed.

Lemma fillable_0 x l : vacant x = true -> fillable (x :: l) 0.
Proof. intros [->| ->]%vacant_true; [right|by left]. split; [done|]. intros j Hj. lia. Qed.
Lemma fillable_S x l k : x <> 0 -> fillable l k -> fillable (x :: l) (S k).
Proof. intros Hx Hf. apply (fillable_app_r [x] l k); [|done]. by intros ?%list_elem_of_singleton. Qed.

(** What the scan of a block makes of a place found so far. *)
Definition settles (l : list Z) (i0 : nat) (mk : nat -> spot) (slot' : spot) : Prop :=
  slot' = Nowhere /\ Forall (fun x => vacant x = false) l \/ exists k, slot' = mk (i0 + k)%nat /\ fillable l k.

Lemma settles_cons l i0 mk x slot' :
  x <> 0 -> vacant x = false -> settles l (S i0) mk slot' -> settles (x :: l) i0 mk slot'.
Proof.
  intros H0 Hx [[-> Hl]|(k & -> & Hk)]; [left; split; [done|by apply Forall_cons]|right].
  exists (S k). split; [f_equal; lia|by apply fillable_S].
Qed.

Lemma scan_co_some l i0 loc aid slot slot' :
  aid <> 0 -> tailed l -> scan_co l i0 loc aid slot = Some slot' ->
  (aid ∉ l) /\ (slot <> Nowhere -> slot' = slot) /\ (slot = Nowhere -> settles l i0 (fun i => Cont i loc) slot').
Proof.
  intros Ha. revert i0 slot. induction l as [|x l IH]; intros i0 slot Ht; cbn [scan_co].
  { intros [= <-]. split; [apply not_elem_of_nil|]. split; [done|]. intros ->. left. split; [done|by apply Forall_nil]. }
  destruct (tailed_cons _ _ Ht) as [Ht' Hz]. destruct (Z.eqb_spec x aid) as [->|Hne]; [done|].
  assert (Hplace : slot = Nowhere -> vacant x = true -> settles (x :: l) i0 (fun i => Cont i loc) (Cont i0 loc)).
  { intros _ Hv. right. exists 0%nat. split; [by rewrite Nat.add_0_r|by apply fillable_0]. }
  assert (Hin : (aid ∉ l) -> aid ∉ x :: l) by (intros H [?|?]%elem_of_cons; congruence || done).
  destruct (Z.eqb_spec x PRBADID) as [Eb|Hb]; [|destruct (Z.eqb_spec x 0) as [E0|H0]].
  - intros (H1 & H2 & _)%IH; [|done]. split; [by apply Hin|]. destruct slot; (split; [|try done]); intros; try done.
    + rewrite H2 by done. apply Hplace; [done|]. apply vacant_true. by right.
    + by apply H2.
    + by apply H2.
  - intros [= <-]. split; [apply Hin; intros Hx; by apply Ha, Hz|]. destruct slot; (split; [done|try done]).
    intros _. apply Hplace; [done|]. apply vacant_true. by left.
  - intros (H1 & H2 & H3)%IH; [|done]. split; [by apply Hin|]. split; [done|]. intros E. apply settles_cons; [done|by apply vacant_false|by apply H3].
Qed.
Lemma scan_co_none l i0 loc aid slot : scan_co l i0 loc aid slot = None -> aid ∈ l.
Proof.
  revert i0 slot. induction l as [|x l IH]; intros i0 slot; cbn [scan_co]; [done|]. destruct (Z.eqb_spec x aid) as [->|]; [by left|].
  destruct (x =? PRBADID); [intros ?%IH; by right|]. destruct (x =? 0); [done|]. intros ?%IH; by right.
Qed.

(** In the first block the last deleted slot is taken. *)
Lemma scan_first_some l i0 aid slot slot' :
  aid <> 0 -> tailed l -> scan_first l i0 aid slot = Some slot' ->
  (aid ∉ l) /\ ((slot <> Nowhere /\ slot' = slot) \/ (exists k, slot' = First (i0 + k) /\ fillable l k)
    \/ slot = Nowhere /\ slot' = Nowhere /\ Forall (fun x => vacant x = false) l).
Proof.
  intros Ha. revert i0 slot. induction l as [|x l IH]; intros i0 slot Ht; cbn [scan_first].
  { intros [= <-]. split; [apply not_elem_of_nil|]. destruct slot; auto. }
  destruct (tailed_cons _ _ Ht) as [Ht' Hz]. destruct (Z.eqb_spec x aid) as [->|Hne]; [done|].
  assert (Hin : (aid ∉ l) -> aid ∉ x :: l) by (intros H [?|?]%elem_of_cons; congruence || done).
  destruct (Z.eqb_spec x PRBADID) as [Eb|Hb]; [|destruct (Z.eqb_spec x 0) as [E0|H0]].
  - intros [H1 H2]%IH; [|done]. split; [by apply Hin|]. right. left. destruct H2 as [[_ ->]|[(k & -> & Hk)|(? & -> & Hl)]].
    + exists 0%nat. split; [f_equal; lia|]. apply fillable_0, vacant_true. by right.
    + exists (S k). split; [f_equal; lia|]. apply fillable_S; [|done]. rewrite Eb. done.
    + done.
  - intros [= <-]. split; [apply Hin; intros Hx; by apply Ha, Hz|]. destruct slot; [|by left|by left]. right. left. exists 0%nat.
    split; [f_equal; lia|]. apply fillable_0, vacant_true. by left.
  - intros [H1 H2]%IH; [|done]. split; [by apply Hin|]. destruct H2 as [H2|[(k & -> & Hk)|(? & -> & Hl)]]; [by left|right; left|right; right].
    + exists (S k). split; [f_equal; lia|by apply fillable_S].
    + split; [done|]. split; [done|]. apply Forall_cons. split; [by apply vacant_false|done].
Qed.
Lemma scan_first_none l i0 aid slot : scan_first l i0 aid slot = None -> aid ∈ l.
Proof.
  revert i0 slot. induction l as [|x l IH]; intros i0 slot; cbn [scan_first]; [done|]. destruct (Z.eqb_spec x aid) as [->|]; [by left|].
  destruct (x =? PRBADID); [intros ?%IH; by right|]. destruct (x =? 0); [done|]. intros ?%IH; by right.
Qed.
