(* ===== verification/PtStep.v ===== *)
(** * The protection database: one membership list changes

    What is left to show for an operation that changes the members of one entry. *)

From stdpp Require Import prelude list gmap.
From Stdlib Require Import ZArith Lia ZifyBool.
From S2P Require Import Prelude ByteMem Pt PtBlock PtOk PtList.

#[local] Open Scope Z_scope.
#[local] Open Scope pt_scope.

(** What no change of members touches. *)
Definition core (e : prentry) : prentry :=
  with_next 0 (with_count 0 (with_entries [] (with_addTime 0 (with_removeTime 0 e)))).

Lemma core_id e e' : core e' = core e -> id e' = id e.
Proof. intros E. by apply (f_equal id) in E. Qed.
Lemma core_nextID e e' : core e' = core e -> nextID e' = nextID e.
Proof. intros E. by apply (f_equal nextID) in E. Qed.

Lemma core_flags e e' : core e' = core e -> flags e' = flags e.
Proof. intros E. by apply (f_equal flags) in E. Qed.
Lemma core_owner e e' : core e' = core e -> owner e' = owner e.
Proof. intros E. by apply (f_equal owner) in E. Qed.
Lemma core_name e e' : core e' = core e -> name e' = name e.
Proof. intros E. by apply (f_equal name) in E. Qed.
Lemma core_nextName e e' : core e' = core e -> nextName e' = nextName e.
Proof. intros E. by apply (f_equal nextName) in E. Qed.
Lemma core_owned e e' : core e' = core e -> owned e' = owned e /\ nextOwned e' = nextOwned e.
Proof. intros E. split; [by apply (f_equal owned) in E|by apply (f_equal nextOwned) in E]. Qed.
Lemma core_quota e e' : core e' = core e -> creator e' = creator e /\ ngroups e' = ngroups e /\ nusers e' = nusers e /\ cellid e' = cellid e.
Proof. intros E. split; [by apply (f_equal creator) in E|]. split; [by apply (f_equal ngroups) in E|]. split; [by apply (f_equal nusers) in E|by apply (f_equal cellid) in E]. Qed.
#[global] Opaque core.

Definition setK (K : Z -> list Z) (p : Z) (ks : list Z) : Z -> list Z := fun e => if e =? p then ks else K e.
Lemma setK_eq K p ks : setK K p ks p = ks.
Proof. unfold setK. by rewrite Z.eqb_refl. Qed.
Lemma setK_ne K p ks e : e <> p -> setK K p ks e = K e.
Proof. intros H. unfold setK. by rewrite (proj2 (Z.eqb_neq e p) H). Qed.

Lemma ok_step E K F s p ks' F' s' :
  ok E K F s -> p ∈ E ->
  (forall i, 0 <= i < HASHSIZE -> cheader s' (w_idHash i) = cheader s (w_idHash i)) ->
  (exists n, 0 <= n /\ eof s' = sizeof_prheader + 192 * n /\ eof s' < 2 ^ 31) -> eof s <= eof s' ->
  chain (fun b => next (ent s' b)) (cheader s' w_freePtr) F' ->
  NoDup (ks' ++ F') ->
  (forall b, b ∈ ks' ++ F' -> block s' b /\ (b ∉ E) /\ forall e, e ∈ E -> e <> p -> b ∉ K e) ->
  (forall e, e ∈ E -> e <> p -> ent s' e = ent s e /\ forall b, b ∈ K e -> con s' b = con s b) ->
  core (ent s' p) = core (ent s p) -> listed s' p ks' ->
  ok E (setK K p ks') F' s'.
Proof.
  intros Hok Hp Hh He Hle Hfr Hnd Hb Hent Hc Hli. pose proof Hok as [O1 O2 O3 O4 O5 O6 O7 O8 O9 O10].
  assert (Hblk : forall b, block s b -> block s' b) by (intros b (n & ? & ? & ?); exists n; repeat split; lia || done).
  assert (Hcore : forall e, e ∈ E -> core (ent s' e) = core (ent s e)).
  { intros e Hin. destruct (decide (e = p)) as [->|Hne]; [done|]. by destruct (Hent e Hin Hne) as [-> _]. }
  assert (Hid : forall e, e ∈ E -> id (ent s' e) = id (ent s e)) by (intros; by apply core_id, Hcore).
  apply NoDup_app in Hnd as (Hnd1 & Hnd2 & Hnd3).
  assert (Hus : forall b, used E (setK K p ks') b -> used E K b \/ b ∈ ks').
  { intros b [?|(e & Hin & Hbe)]; [left; by left|]. unfold setK in Hbe. destruct (Z.eqb_spec e p); [by right|]. left. right. by exists e. }
  split; try done.
  - intros b [Hu|Hu]%Hus; [by apply Hblk, O2|]. apply Hb, elem_of_app. by left.
  - intros b HbF. destruct (Hb b) as (B1 & B2 & B3); [apply elem_of_app; by right|]. split; [done|].
    intros [?|(e & Hin & Hbe)]; [done|]. unfold setK in Hbe. destruct (Z.eqb_spec e p); [by apply (Hnd2 b)|by apply (B3 e)].
  - split; [done|]. intros e Hin. unfold setK. destruct (Z.eqb_spec e p) as [->|Hne].
    + split; [done|]. intros b Hbk. apply Hb, elem_of_app. by left.
    + by apply O4.
  - intros e e' b H1 H2. unfold setK. destruct (Z.eqb_spec e p) as [->|Hne], (Z.eqb_spec e' p) as [->|Hne']; [done| | |by apply O5]; intros B1 B2; exfalso.
    + destruct (Hb b) as (_ & _ & B3); [apply elem_of_app; by left|]. by apply (B3 e').
    + destruct (Hb b) as (_ & _ & B3); [apply elem_of_app; by left|]. by apply (B3 e).
  - intros i Hi. destruct (O7 i Hi) as (l & Hl & Hndl & Hm). exists l. rewrite Hh by done. split; [|split; [done|]].
    + revert Hl. apply chain_ext. intros x Hx. symmetry. apply core_nextID, Hcore. by apply Hm.
    + intros x. rewrite Hm. split; intros [Hx Ex]; (split; [done|]); by rewrite Hid in *.
  - intros e Hin. rewrite Hid by done. by apply O8.
  - intros e e' H1 H2. rewrite !Hid by done. by apply O9.
  - intros e Hin. unfold setK. destruct (Z.eqb_spec e p) as [->|Hne]; [done|]. destruct (Hent e Hin Hne) as [Ee Eb].
    by apply (listed_ext s); [| |apply O10].
Qed.

(** ** The list itself *)

Definition in_order (s : ptdb) (p : Z) (ks : list Z) : Prop :=
  chain (fun b => c_next (con s b)) (next (ent s p)) ks
  /\ forall b, b ∈ ks -> has (c_flags (con s b)) PRCONT = true /\ c_id (con s b) = id (ent s p)
    /\ exists x, x ∈ c_entries (con s b) /\ vacant x = false.

Lemma listed_add s s' p ks ks' aid :
  listed s p ks -> in_order s' p ks' -> core (ent s' p) = core (ent s p) ->
  tailed (slots s' p ks') -> members s' p ks' ≡ₚ aid :: members s p ks -> (aid ∉ members s p ks) -> aid <> id (ent s p) ->
  count (ent s' p) = s32 (count (ent s p) + 1) -> listed s' p ks'.
Proof.
  intros L [I1 I2] Hc Ht Hm Hn Hne Hcount. apply core_id in Hc. split; try done.
  - rewrite Hm. apply NoDup_cons. split; [done|apply L].
  - rewrite Hm, Hc. intros [?|?]%elem_of_cons; [congruence|]. by apply (li_self _ _ _ L).
  - rewrite Hcount, (li_count _ _ _ L). rewrite (Permutation_length Hm). cbn [length]. rewrite Nat2Z.inj_succ. apply s32_add.
Qed.

Lemma listed_del s s' p ks ks' aid :
  listed s p ks -> in_order s' p ks' -> core (ent s' p) = core (ent s p) ->
  tailed (slots s' p ks') -> members s p ks ≡ₚ aid :: members s' p ks' ->
  count (ent s' p) = s32 (count (ent s p) - 1) -> listed s' p ks'.
Proof.
  intros L [I1 I2] Hc Ht Hm Hcount. apply core_id in Hc. pose proof (li_nodup _ _ _ L) as Hnd. rewrite Hm in Hnd.
  apply NoDup_cons in Hnd as [Hn Hnd]. split; try done.
  - rewrite Hc. intros Hin. apply (li_self _ _ _ L). rewrite Hm. by right.
  - rewrite Hcount, (li_count _ _ _ L). rewrite (Permutation_length Hm). cbn [length]. rewrite Nat2Z.inj_succ.
    unfold Z.sub. rewrite s32_add. f_equal. lia.
Qed.
