(* ===== verification/PtFrame.v ===== *)
(** * The protection database: writes to the blocks of one entry

    What writes leave alone, and what is left to show when the members of one entry have
    changed. *)

From stdpp Require Import prelude list gmap.
From Stdlib Require Import ZArith Lia ZifyBool.
From S2P Require Import Prelude ByteMem Pt PtBlock PtOk PtList PtStep.

#[local] Open Scope Z_scope.
#[local] Open Scope pt_scope.

(** ** Frames *)

Definition aligned (p : Z) : Prop := exists n, 0 <= n /\ p = sizeof_prheader + 192 * n.
Lemma block_aligned s p : block s p -> aligned p.
Proof. intros (n & ? & ? & _). by exists n. Qed.
Lemma aligned_apart p p' : aligned p -> aligned p' -> p <> p' -> apart p p'.
Proof. intros (n & _ & ->) (n' & _ & ->) Hne. unfold apart. lia. Qed.
Lemma aligned_low p : aligned p -> sizeof_prheader <= p.
Proof. intros (n & ? & ->). lia. Qed.

(** Only the blocks of [W] and the heads of the free list and of the file are different. *)
Record changed (q : Prop) (W : list Z) (s s' : ptdb) : Prop := {
  ch_words : forall k, k <> w_freePtr -> k <> w_eofPtr -> cheader s' k = cheader s k;
  ch_now : now s' = now s;
  ch_good : good q s';
  ch_blocks : forall p, aligned p -> (p ∉ W) -> ent s' p = ent s p /\ con s' p = con s p
}.

Lemma changed_trans q W1 W2 s s1 s2 : changed q W1 s s1 -> changed q W2 s1 s2 -> changed q (W1 ++ W2) s s2.
Proof.
  intros [A1 A2 A3 A4] [B1 B2 B3 B4]. split; [intros k H1 H2; by rewrite B1, A1|congruence|done|].
  intros p Hp Hin. apply not_elem_of_app in Hin as [H1 H2]. destruct (B4 p Hp H2) as [-> ->]. by apply A4.
Qed.
Lemma alike_changed q s s' : alike q s s' -> changed q [] s s'.
Proof.
  intros A. split; [by intros; rewrite (al_head _ _ _ A)|apply A|apply A|].
  intros p _ _. split; [by apply (al_ent q)|by apply (al_con q)].
Qed.
Lemma wrote_changed q pos s s' : aligned pos -> wrote q pos s s' -> changed q [pos] s s'.
Proof.
  intros Hpos [W1 W2 W3 W4]. split; [by intros; rewrite W1|done|done|]. intros p Hp Hne. apply W4, aligned_apart; [done|done|].
  intros ->. apply Hne. left.
Qed.
Lemma worded_changed q k v s s' : k = w_freePtr \/ k = w_eofPtr -> worded q k v s s' -> changed q [] s s'.
Proof.
  intros Hk [W1 W2 W3 W4]. split; [|done|done|]; [|intros p Hp _; by apply W4, aligned_low].
  intros x H1 H2. rewrite W1. destruct (Z.eqb_spec x k); [lia|done].
Qed.

Lemma wrote_alike q p s s1 s' : alike q s s1 -> wrote q p s1 s' -> wrote q p s s'.
Proof.
  intros A [W1 W2 W3 W4]. split; [by rewrite W1, (al_head _ _ _ A)|by rewrite W2, (al_now _ _ _ A)|done|].
  intros x Hx. rewrite <- (al_ent _ _ _ _ A), <- (al_con _ _ _ _ A). by apply W4.
Qed.

Lemma conts_fit fuel E K F s p : ok E K F s -> enough fuel s -> p ∈ E -> (length (K p) <= fuel)%nat.
Proof.
  intros Hok Hf Hp. apply (blocks_fit _ s); [done|apply Hok, Hp|]. intros b. by apply (ok_cont _ _ _ _ _ _ Hok).
Qed.

(** The members of the entry at [p] have changed. *)
Record change (q : Prop) (E : gset Z) (K : Z -> list Z) (p : Z) (s : ptdb) (K' : Z -> list Z) (F' : list Z) (s' : ptdb) : Prop := {
  cg_ok : ok E K' F' s';
  cg_core : forall e, e ∈ E -> core (ent s' e) = core (ent s e);
  cg_others : forall e, e ∈ E -> e <> p -> ent s' e = ent s e /\ members s' e (K' e) = members s e (K e);
  cg_words : forall k, k <> w_freePtr -> k <> w_eofPtr -> cheader s' k = cheader s k;
  cg_now : now s' = now s;
  cg_good : good q s';
  cg_eof : eof s <= eof s' <= eof s + 192
}.

Lemma members_ext s s' e ks :
  ent s' e = ent s e -> (forall b, b ∈ ks -> con s' b = con s b) -> members s' e ks = members s e ks.
Proof.
  intros E1 E2. unfold members, slots. rewrite E1. do 3 f_equal. apply map_ext_in. intros b Hb%list_elem_of_In. by rewrite E2.
Qed.

Lemma change_alike q E K p s s1 K' F' s' : alike q s s1 -> change q E K p s1 K' F' s' -> change q E K p s K' F' s'.
Proof.
  intros A [C1 C2 C3 C4 C5 C6 C7]. split; try done.
  - intros x Hx. rewrite <- (al_ent _ _ _ x A). by apply C2.
  - intros x Hx Hne. rewrite <- (al_ent _ _ _ x A). destruct (C3 x Hx Hne) as [E1 E2]. split; [done|]. rewrite E2.
    apply members_ext; [by apply (al_ent q)|]. intros b _. by apply (al_con q).
  - intros k H1 H2. rewrite <- (al_head _ _ _ A). by apply C4.
  - by rewrite C5, (al_now _ _ _ A).
  - unfold eof in *. by rewrite <- (al_head _ _ _ A).
Qed.

(** Blocks of [E] and [K] that nothing was written to. *)
Lemma others_same q E K F p W s s' :
  ok E K F s -> p ∈ E -> changed q W s s' ->
  (forall w, w ∈ W -> w = p \/ w ∈ K p \/ ~ used E K w) ->
  forall e, e ∈ E -> e <> p -> ent s' e = ent s e /\ forall b, b ∈ K e -> con s' b = con s b.
Proof.
  intros Hok Hp Hc HW e He Hne.
  assert (Hin : forall x, e = x \/ x ∈ K e -> x ∉ W).
  { intros x Hx Hw. destruct (HW x Hw) as [->|[Hk|Hu]].
    - destruct Hx as [?|Hx]; [done|]. by apply (proj2 (proj2 (ok_nodup _ _ _ _ Hok) e He) p).
    - destruct Hx as [->|Hx]; [by apply (proj2 (proj2 (ok_nodup _ _ _ _ Hok) p Hp) x)|]. by apply Hne, (ok_owner _ _ _ _ Hok e p x).
    - apply Hu. destruct Hx as [->|Hx]; [by left|right; by exists e]. }
  split.
  - apply (ch_blocks _ _ _ _ Hc); [by apply (block_aligned s), (ok_entry _ _ _ _ _ Hok)|]. apply Hin. by left.
  - intros b Hb. apply (ch_blocks _ _ _ _ Hc); [by apply (block_aligned s), (ok_cont _ _ _ _ _ _ Hok He)|]. apply Hin. by right.
Qed.

Lemma change_intro q E K F p ks' F' W s s' :
  ok E K F s -> p ∈ E -> changed q W s s' ->
  (forall w, w ∈ W -> w = p \/ w ∈ K p \/ ~ used E K w) ->
  (exists n, 0 <= n /\ eof s' = sizeof_prheader + 192 * n /\ eof s' < 2 ^ 31) -> eof s <= eof s' <= eof s + 192 ->
  chain (fun b => next (ent s' b)) (cheader s' w_freePtr) F' ->
  NoDup (ks' ++ F') ->
  (forall b, b ∈ ks' ++ F' -> block s' b /\ (b ∉ E) /\ forall e, e ∈ E -> e <> p -> b ∉ K e) ->
  core (ent s' p) = core (ent s p) -> listed s' p ks' ->
  change q E K p s (setK K p ks') F' s'.
Proof.
  intros Hok Hp Hch HW He1 He2 Hfr Hnd Hb Hc Hli. pose proof (others_same _ _ _ _ _ _ _ _ Hok Hp Hch HW) as Ho.
  split; [|..|apply Hch|apply Hch|apply Hch|done].
  - apply (ok_step E K F s); try done; [|lia]. intros i Hi.
    apply (ch_words _ _ _ _ Hch); unfold w_idHash, w_freePtr, w_eofPtr, HASHSIZE in *; lia.
  - intros e He. destruct (decide (e = p)) as [->|Hne]; [done|]. by rewrite (proj1 (Ho e He Hne)).
  - intros e He Hne. destruct (Ho e He Hne) as [E1 E2]. split; [done|]. rewrite setK_ne by done. by apply members_ext.
Qed.

(** The same blocks are used. *)
Lemma change_in_place q E K F p W s s' :
  ok E K F s -> p ∈ E -> changed q W s s' -> cheader s' = cheader s ->
  (forall w, w ∈ W -> w = p \/ w ∈ K p) ->
  core (ent s' p) = core (ent s p) -> listed s' p (K p) ->
  change q E K p s (setK K p (K p)) F s'.
Proof.
  intros Hok Hp Hch Hh HW Hc Hli. assert (He : eof s' = eof s) by (unfold eof; by rewrite Hh).
  assert (Hblk : forall b, block s b -> block s' b) by (intros b; unfold block; by rewrite He).
  apply (change_intro _ _ _ F _ _ _ W); try done.
  - intros w Hw. destruct (HW w Hw); auto.
  - rewrite He. apply Hok.
  - rewrite He. lia.
  - rewrite Hh. pose proof (ok_free _ _ _ _ Hok) as Hf. revert Hf. apply chain_ext. intros b Hb. symmetry.
    destruct (ok_frees _ _ _ _ Hok b Hb) as [B1 B2]. rewrite (proj1 (ch_blocks _ _ _ _ Hch b (block_aligned _ _ B1) ltac:(intros Hw; apply B2; destruct (HW b Hw) as [->|?]; [by left|right; by exists p]))). done.
  - apply NoDup_app. split; [apply Hok, Hp|]. split; [|apply Hok]. intros b Hb HbF. apply (ok_frees _ _ _ _ Hok b HbF). right. by exists p.
  - intros b [Hb|Hb]%elem_of_app.
    + split; [by apply Hblk, (ok_cont _ _ _ _ _ _ Hok Hp)|]. split; [by apply (proj2 (ok_nodup _ _ _ _ Hok) p Hp)|].
      intros e He' Hne Hbe. by apply Hne, (ok_owner _ _ _ _ Hok e p b).
    + destruct (ok_frees _ _ _ _ Hok b Hb) as [B1 B2]. split; [by apply Hblk|]. split; [intros ?; apply B2; by left|].
      intros e He' _ Hbe. apply B2. right. by exists e.
Qed.

(** ** Entries that may be written *)

Ltac fields := intros []; split; cbn [flags id cellid next createTime addTime removeTime changeTime entries nextID nextName owner creator
  ngroups nusers count inst owned nextOwned parent sibling child name with_next with_addTime with_removeTime with_entries with_count
  with_nextID with_nextName with_owner with_owned with_nextOwned] in *; rewrite ?Forall_cons in *; tauto.
Lemma eo_next v e : is_s32 v -> entry_ok e -> entry_ok (with_next v e).
Proof. intros H. fields. Qed.
Lemma eo_count v e : is_s32 v -> entry_ok e -> entry_ok (with_count v e).
Proof. intros H. fields. Qed.
Lemma eo_addTime v e : is_u32 v -> entry_ok e -> entry_ok (with_addTime v e).
Proof. intros H. fields. Qed.
Lemma eo_removeTime v e : is_u32 v -> entry_ok e -> entry_ok (with_removeTime v e).
Proof. intros H. fields. Qed.
Lemma eo_set i v e : is_s32 v -> entry_ok e -> entry_ok (with_entries (<[i := v]> (entries e)) e).
Proof.
  intros H [E1 E2 E3 E4 E5]. split; try done; cbn [entries with_entries]; [by rewrite length_insert|by apply Forall_insert].
Qed.
Lemma ent_ok q s p : good q s -> entry_ok (ent s p).
Proof. intros Hg. rewrite ent_eq. apply read_entry_ok, Hg. Qed.
Lemma con_ok s p : co_ok (con s p).
Proof. rewrite con_eq. apply read_co_ok. Qed.
Lemma co_set i v c : is_s32 v -> co_ok c -> co_ok (c_with_entries (<[i := v]> (c_entries c)) c).
Proof. intros H [E1 E2 E3]. split; try done; cbn [c_entries c_with_entries]; [by rewrite length_insert|by apply Forall_insert]. Qed.
Lemma co_next v c : is_s32 v -> co_ok c -> co_ok (c_with_next v c).
Proof. intros H [E1 E2 E3]. split; try done. cbn [c_flags c_id c_cellid c_next c_with_next] in *. rewrite !Forall_cons in *. tauto. Qed.

Create HintDb ptw.
#[export] Hint Resolve eo_next eo_count eo_addTime eo_removeTime ent_ok con_ok co_set co_next s32_range u32_range : ptw.

Lemma fillable_lt l i : fillable l i -> (i < length l)%nat.
Proof. intros [H|[H _]]; by apply lookup_lt_Some in H. Qed.

(** The slots of the continuation blocks. *)
Abbreviation cslots s ks := (concat (map (fun b => c_entries (con s b)) ks)).

Lemma cslots_alike q s s' ks : alike q s s' -> cslots s' ks = cslots s ks.
Proof. intros A. f_equal. apply map_ext. intros b. by rewrite (al_con _ _ _ _ A). Qed.

(** The last of the blocks, if there is one. *)
Definition last_co (s : ptdb) (ks : list Z) (o : option (Z * contentry)) : option (Z * contentry) :=
  match last ks with Some b => Some (b, con s b) | None => o end.

(** ** Edits of blocks that stay where they are *)

Section Edit.
Context (q : Prop) (E : gset Z) (K : Z -> list Z) (F : list Z) (p : Z) (s : ptdb).

Lemma edit_first s' :
  ok E K F s -> p ∈ E -> wrote q p s s' -> core (ent s' p) = core (ent s p) -> next (ent s' p) = next (ent s p) ->
  changed q [p] s s' /\ in_order s' p (K p) /\ slots s' p (K p) = entries (ent s' p) ++ cslots s (K p).
Proof.
  intros Hok Hp W Hcore En. pose proof (ok_lists _ _ _ _ Hok p Hp) as L.
  assert (Hc : changed q [p] s s') by (apply wrote_changed; [by apply (block_aligned s), (ok_entry _ _ _ _ _ Hok)|done]).
  assert (Hk : forall b, b ∈ K p -> con s' b = con s b).
  { intros b Hb. apply (ch_blocks _ _ _ _ Hc); [by apply (block_aligned s), (ok_cont _ _ _ _ _ _ Hok Hp)|].
    intros ->%list_elem_of_singleton. by apply (proj2 (proj2 (ok_nodup _ _ _ _ Hok) p Hp) p). }
  split; [done|]. split; [split|].
  - rewrite En. pose proof (li_chain _ _ _ L) as C. revert C. apply chain_ext. intros b Hb. by rewrite Hk.
  - intros b Hb. rewrite Hk, (core_id _ _ Hcore) by done. by apply L.
  - unfold slots. do 2 f_equal. apply map_ext_in. intros b Hb%list_elem_of_In. by rewrite Hk.
Qed.

Context (Hok : ok E K F s) (Hp : p ∈ E) (k1 : list Z) (b : Z) (k2 : list Z) (Ek : K p = k1 ++ b :: k2).

Lemma ok_in_ks : b ∈ K p /\ b <> p /\ aligned b /\ aligned p.
Proof using Hok Hp Ek.
  assert (Hb : b ∈ K p) by (rewrite Ek; apply elem_of_app; right; left). split; [done|].
  split; [intros ->; by apply (proj2 (proj2 (ok_nodup _ _ _ _ Hok) p Hp) p)|].
  split; apply (block_aligned s); [by apply (ok_cont _ _ _ _ _ _ Hok Hp)|by apply (ok_entry _ _ _ _ _ Hok)].
Qed.
Lemma split_slots : slots s p (K p) = (entries (ent s p) ++ cslots s k1) ++ c_entries (con s b) ++ cslots s k2.
Proof using Ek. unfold slots. rewrite Ek, map_app, concat_app. cbn [map concat]. by rewrite !app_assoc. Qed.
Lemma split_other x : x ∈ k1 ++ k2 -> x ∈ K p /\ x <> b /\ x <> p.
Proof using Hok Hp Ek.
  intros Hx. assert (Hk : x ∈ K p) by (rewrite Ek; apply elem_of_app; apply elem_of_app in Hx as [?|?]; [by left|right; by right]).
  split; [done|]. split; [|intros ->; by apply (proj2 (proj2 (ok_nodup _ _ _ _ Hok) p Hp) p)].
  intros ->. pose proof (proj1 (proj2 (ok_nodup _ _ _ _ Hok) p Hp)) as Hnd. rewrite Ek in Hnd.
  apply NoDup_app in Hnd as (_ & Hnd1 & [Hnd2 _]%NoDup_cons). apply elem_of_app in Hx as [Hx|Hx]; [|done]. apply (Hnd1 b Hx). left.
Qed.
Lemma split_same W s' x :
  changed q W s s' -> (forall w, w ∈ W -> w = p \/ w = b) -> x ∈ k1 ++ k2 -> con s' x = con s x.
Proof using All.
  intros Hc HW Hx. destruct (split_other x Hx) as (X1 & X2 & X3).
  apply (ch_blocks _ _ _ _ Hc); [by apply (block_aligned s), (ok_cont _ _ _ _ _ _ Hok Hp)|]. intros Hw. by destruct (HW x Hw).
Qed.

Lemma split_cslots W s' l :
  changed q W s s' -> (forall w, w ∈ W -> w = p \/ w = b) -> (forall x, x ∈ l -> x ∈ k1 ++ k2) -> cslots s' l = cslots s l.
Proof using All.
  intros Hc HW Hl. f_equal. apply map_ext_in. intros x Hx%list_elem_of_In. rewrite (split_same W); try done. by apply Hl.
Qed.

Lemma edit_cont W s' l' :
  changed q W s s' -> (forall w, w ∈ W -> w = p \/ w = b) ->
  core (ent s' p) = core (ent s p) -> next (ent s' p) = next (ent s p) -> con s' b = c_with_entries l' (con s b) ->
  (exists x, x ∈ l' /\ vacant x = false) ->
  in_order s' p (K p) /\ slots s p (K p) = (entries (ent s p) ++ cslots s k1) ++ c_entries (con s b) ++ cslots s k2
  /\ slots s' p (K p) = (entries (ent s' p) ++ cslots s k1) ++ l' ++ cslots s k2.
Proof using All.
  intros Hc HW Hcore En Eb Hl. pose proof (ok_lists _ _ _ _ Hok p Hp) as L.
  assert (Hsame : forall x, x ∈ K p -> x <> b -> con s' x = con s x).
  { intros x Hx Hne. apply (split_same W); [done|done|]. rewrite Ek in Hx. apply elem_of_app. apply elem_of_app in Hx as [?|[?|?]%elem_of_cons]; auto; done. }
  assert (Hcn : forall x, x ∈ K p -> c_next (con s' x) = c_next (con s x) /\ c_flags (con s' x) = c_flags (con s x) /\ c_id (con s' x) = c_id (con s x)).
  { intros x Hx. destruct (decide (x = b)) as [->|Hne]; [by rewrite Eb|by rewrite Hsame]. }
  split; [split|split; [apply split_slots|]].
  - rewrite En. pose proof (li_chain _ _ _ L) as C. revert C. apply chain_ext. intros x Hx. by rewrite (proj1 (Hcn x Hx)).
  - intros x Hx. destruct (Hcn x Hx) as (_ & Ef & Ei). destruct (li_blocks _ _ _ L x Hx) as (B1 & B2 & B3). rewrite Ef, Ei, (core_id _ _ Hcore).
    split; [done|]. split; [done|]. destruct (decide (x = b)) as [->|Hne]; [by rewrite Eb|by rewrite Hsame].
  - unfold slots. rewrite Ek, map_app, concat_app. cbn [map concat]. rewrite Eb, !app_assoc. cbn [c_entries c_with_entries].
    rewrite (split_cslots W s' k1), (split_cslots W s' k2); try done; intros x Hx; apply elem_of_app; auto.
Qed.

End Edit.

