(* ===== verification/PtNames.v ===== *)
(** * The protection database: names and owners

    The rest of the invariant.  Every entry is on the hash chain of its name, names are
    different and fit; every group is on the chain of its owner, or on the list of
    orphans when it has none.  And what writes leave of the invariant ([delta]). *)

From stdpp Require Import prelude list gmap.
From Stdlib Require Import ZArith Lia ZifyBool.
From S2P Require Import Prelude ByteMem Pt PtBlock PtOk PtList PtStep PtFrame.

#[local] Open Scope Z_scope.
#[local] Open Scope pt_scope.

(** ** Chains of a set of blocks *)

Definition threaded (nx : Z -> Z) (hd : Z) (P : Z -> Prop) : Prop :=
  exists l, chain nx hd l /\ NoDup l /\ forall p, p ∈ l <-> P p.

Lemma threaded_ext nx nx' hd (P P' : Z -> Prop) :
  (forall p, P p -> nx' p = nx p) -> (forall p, P p <-> P' p) -> threaded nx hd P -> threaded nx' hd P'.
Proof.
  intros En EP (l & Hl & Hnd & Hm). exists l. split; [|split; [done|]].
  - revert Hl. apply chain_ext. intros p Hp. symmetry. by apply En, Hm.
  - intros p. rewrite Hm. apply EP.
Qed.
Lemma threaded_cons nx nx' b hd (P P' : Z -> Prop) :
  b <> 0 -> nx' b = hd -> ~ P b -> (forall p, P p -> nx' p = nx p) -> (forall p, P' p <-> p = b \/ P p) ->
  threaded nx hd P -> threaded nx' b P'.
Proof.
  intros Hb Eb Hn En EP (l & Hl & Hnd & Hm). exists (b :: l). split; [|split].
  - apply (chain_cons nx nx' b hd); try done. intros c Hc. symmetry. by apply En, Hm.
  - apply NoDup_cons. split; [|done]. by rewrite Hm.
  - intros p. rewrite elem_of_cons, Hm. symmetry. apply EP.
Qed.
Lemma threaded_head_s32 nx hd P : threaded nx hd P -> (forall p, P p -> is_s32 p) -> is_s32 hd.
Proof.
  intros (l & Hl & _ & Hm) HP. destruct l as [|b l]; cbn [chain] in Hl; [by subst hd|]. destruct Hl as (-> & _). apply HP, Hm. left.
Qed.

(** ** Names and owners *)

Record names (E : gset Z) (s : ptdb) : Prop := {
  nm_hash : forall i, 0 <= i < HASHSIZE ->
    threaded (fun p => nextName (ent s p)) (cheader s (w_nameHash i)) (fun p => p ∈ E /\ NameHash (name (ent s p)) = i);
  nm_unique : forall p p', p ∈ E -> p' ∈ E -> cstr (name (ent s p)) = cstr (name (ent s p')) -> p = p';
  nm_short : forall p, p ∈ E -> (length (cstr (name (ent s p))) < 64)%nat;
  nm_colon : forall p, p ∈ E -> strchr 58 (name (ent s p)) = true -> has (flags (ent s p)) PRGRP = true
}.

Definition grouped (s : ptdb) (p : Z) : Prop := has (flags (ent s p)) PRGRP = true.
Definition owned_by (E : gset Z) (s : ptdb) (o p : Z) : Prop := p ∈ E /\ grouped s p /\ owner (ent s p) = o.
Record owners (E : gset Z) (s : ptdb) : Prop := {
  ow_owned : forall o, o ∈ E ->
    threaded (fun p => nextOwned (ent s p)) (owned (ent s o)) (owned_by E s (id (ent s o)));
  ow_orphan : threaded (fun p => nextOwned (ent s p)) (cheader s w_orphan) (owned_by E s 0);
  ow_exists : forall p, p ∈ E -> grouped s p -> owner (ent s p) <> 0 -> exists o, o ∈ E /\ id (ent s o) = owner (ent s p)
}.

Lemma names_frame E s s' :
  (forall i, 0 <= i < HASHSIZE -> cheader s' (w_nameHash i) = cheader s (w_nameHash i)) ->
  (forall p, p ∈ E -> name (ent s' p) = name (ent s p) /\ nextName (ent s' p) = nextName (ent s p)
     /\ has (flags (ent s' p)) PRGRP = has (flags (ent s p)) PRGRP) ->
  names E s -> names E s'.
Proof.
  intros Hw He [N1 N2 N3 N4]. split.
  - intros i Hi. rewrite Hw by done. generalize (N1 i Hi). apply threaded_ext.
    + intros p [Hp _]. by apply He.
    + intros p. split; intros [Hp <-]; (split; [done|]); by rewrite (proj1 (He p Hp)).
  - intros p p' Hp Hp'. rewrite (proj1 (He p Hp)), (proj1 (He p' Hp')). by apply N2.
  - intros p Hp. rewrite (proj1 (He p Hp)). by apply N3.
  - intros p Hp. destruct (He p Hp) as (-> & _ & ->). by apply N4.
Qed.

Lemma owners_frame E s s' :
  cheader s' w_orphan = cheader s w_orphan ->
  (forall p, p ∈ E -> id (ent s' p) = id (ent s p) /\ owner (ent s' p) = owner (ent s p)
     /\ has (flags (ent s' p)) PRGRP = has (flags (ent s p)) PRGRP
     /\ owned (ent s' p) = owned (ent s p) /\ nextOwned (ent s' p) = nextOwned (ent s p)) ->
  owners E s -> owners E s'.
Proof.
  intros Hw He [O1 O2 O3].
  assert (Hob : forall o p, owned_by E s o p <-> owned_by E s' o p).
  { intros o p. unfold owned_by, grouped. split; intros (Hp & H1 & H2); destruct (He p Hp) as (_ & E2 & E3 & _); rewrite ?E2, ?E3 in *; done. }
  assert (Hnx : forall o p, owned_by E s o p -> nextOwned (ent s' p) = nextOwned (ent s p)) by (intros o p [Hp _]; by apply He).
  split.
  - intros o Ho. destruct (He o Ho) as (-> & _ & _ & -> & _). generalize (O1 o Ho). apply threaded_ext; [apply Hnx|apply Hob].
  - rewrite Hw. generalize O2. apply threaded_ext; [apply Hnx|apply Hob].
  - intros p Hp. unfold grouped. destruct (He p Hp) as (_ & -> & -> & _). intros Hg Hne. destruct (O3 p Hp Hg Hne) as (o & Ho & Eo).
    exists o. split; [done|]. by rewrite (proj1 (He o Ho)).
Qed.

(** ** What writes leave alone *)

(** Only the words of [H] and the blocks of [W] are different. *)
Record delta (q : Prop) (W H : list Z) (s s' : ptdb) : Prop := {
  dl_words : forall k, (k ∉ H) -> cheader s' k = cheader s k;
  dl_now : now s' = now s;
  dl_good : good q s';
  dl_blocks : forall p, aligned p -> (p ∉ W) -> ent s' p = ent s p /\ con s' p = con s p
}.
Lemma delta_trans q W1 W2 H1 H2 s s1 s2 : delta q W1 H1 s s1 -> delta q W2 H2 s1 s2 -> delta q (W1 ++ W2) (H1 ++ H2) s s2.
Proof.
  intros [A1 A2 A3 A4] [B1 B2 B3 B4]. split; [|congruence|done|].
  - intros k [K1 K2]%not_elem_of_app. by rewrite B1, A1.
  - intros p Hp [P1 P2]%not_elem_of_app. destruct (B4 p Hp P2) as [-> ->]. by apply A4.
Qed.
Lemma delta_alike q s s' : alike q s s' -> delta q [] [] s s'.
Proof.
  intros A. split; [by intros; rewrite (al_head _ _ _ A)|apply A|apply A|]. intros p _ _. split; [by apply (al_ent q)|by apply (al_con q)].
Qed.
Lemma delta_wrote q pos s s' : aligned pos -> wrote q pos s s' -> delta q [pos] [] s s'.
Proof.
  intros Hpos [W1 W2 W3 W4]. split; [by intros; rewrite W1|done|done|]. intros p Hp Hne. apply W4, aligned_apart; [done|done|]. intros ->. apply Hne. left.
Qed.
Lemma delta_worded q k v s s' : worded q k v s s' -> delta q [] [k] s s'.
Proof.
  intros [W1 W2 W3 W4]. split; [|done|done|]; [|intros p Hp _; by apply W4, aligned_low].
  intros x Hx. rewrite W1. destruct (Z.eqb_spec x k) as [->|]; [destruct Hx; left|done].
Qed.
Lemma delta_changed q W s s' : changed q W s s' -> delta q W [w_freePtr; w_eofPtr] s s'.
Proof.
  intros [C1 C2 C3 C4]. split; [|done..]. intros k Hk. apply C1; intros ->; apply Hk; [left|right; left].
Qed.
Lemma delta_sub q W W' H H' s s' :
  (forall p, p ∈ W -> p ∈ W') -> (forall k, k ∈ H -> k ∈ H') -> delta q W H s s' -> delta q W' H' s s'.
Proof. intros HW HH [D1 D2 D3 D4]. split; [|done|done|]; intros; [apply D1|apply D4]; auto. Qed.

(** The fields that the invariant of PtOk is about. *)
Definition kept (e e' : prentry) : Prop :=
  id e' = id e /\ nextID e' = nextID e /\ next e' = next e /\ entries e' = entries e /\ count e' = count e.
Lemma kept_refl e : kept e e.
Proof. done. Qed.

Lemma listed_kept s s' p ks :
  kept (ent s p) (ent s' p) -> (forall b, b ∈ ks -> con s' b = con s b) -> listed s p ks -> listed s' p ks /\ members s' p ks = members s p ks.
Proof.
  intros (K1 & _ & K3 & K4 & K5) E2 [L1 L2 L3 L4 L5 L6].
  assert (Es : slots s' p ks = slots s p ks).
  { unfold slots. rewrite K4. f_equal. f_equal. apply map_ext_in. intros b Hb%list_elem_of_In. by rewrite E2. }
  assert (Em : members s' p ks = members s p ks) by (unfold members; by rewrite Es).
  split; [|done]. split; rewrite ?K1, ?K3, ?K5, ?Es, ?Em; try done.
  - revert L1. apply chain_ext. intros b Hb. by rewrite E2.
  - intros b Hb. rewrite E2 by done. by apply L2.
Qed.

(** The words that the invariants are about. *)
Definition ok_word (k : Z) : Prop := k = w_freePtr \/ k = w_eofPtr \/ exists i, 0 <= i < HASHSIZE /\ k = w_idHash i.
Definition name_word (k : Z) : Prop := exists i, 0 <= i < HASHSIZE /\ k = w_nameHash i.

Lemma ok_frame E K F s s' :
  (forall k, ok_word k -> cheader s' k = cheader s k) ->
  (forall p, p ∈ E -> kept (ent s p) (ent s' p)) -> (forall p b, p ∈ E -> b ∈ K p -> con s' b = con s b) ->
  (forall b, b ∈ F -> next (ent s' b) = next (ent s b)) ->
  ok E K F s -> ok E K F s'.
Proof.
  intros Hw Hk Hc Hf Hok. pose proof Hok as [O1 O2 O3 O4 O5 O6 O7 O8 O9 O10].
  assert (He : eof s' = eof s) by (apply Hw; by right; left).
  assert (Hid : forall p, p ∈ E -> id (ent s' p) = id (ent s p)) by (intros p Hp; apply (Hk p Hp)).
  split; rewrite ?He; try done.
  - intros p Hp. unfold block. rewrite He. by apply O2.
  - intros p Hp. unfold block. rewrite He. by apply O3.
  - rewrite Hw by by left. revert O6. apply chain_ext. intros b Hb. by rewrite Hf.
  - intros i Hi. rewrite Hw by (right; right; by exists i). generalize (O7 i Hi). apply threaded_ext.
    + intros p [Hp _]. apply (Hk p Hp).
    + intros p. split; intros [Hp <-]; (split; [done|]); by rewrite Hid.
  - intros p Hp. rewrite Hid by done. by apply O8.
  - intros p p' Hp Hp'. rewrite !Hid by done. by apply O9.
  - intros p Hp. apply (listed_kept s); [by apply Hk|intros b Hb; by apply (Hc p)|by apply O10].
Qed.

(** A block that is neither used nor free. *)
Definition spare (E : gset Z) (K : Z -> list Z) (F : list Z) (s : ptdb) (b : Z) : Prop := block s b /\ ~ used E K b /\ b ∉ F.

Lemma ok_delta q E K F W H s s' :
  ok E K F s -> delta q W H s s' -> (forall k, k ∈ H -> ~ ok_word k) ->
  (forall p, p ∈ W -> p ∈ E /\ kept (ent s p) (ent s' p) \/ spare E K F s p) ->
  ok E K F s' /\ (forall p, p ∈ E -> members s' p (K p) = members s p (K p)).
Proof.
  intros Hok Hd HH HW.
  assert (Hblk : forall p, block s p -> aligned p) by (intros p; apply block_aligned).
  assert (HE : forall p, p ∈ E -> kept (ent s p) (ent s' p)).
  { intros p Hp. destruct (decide (p ∈ W)) as [Hin|Hout].
    - destruct (HW p Hin) as [[_ ?]|(_ & Hu & _)]; [done|]. destruct Hu. by left.
    - destruct (dl_blocks _ _ _ _ _ Hd p) as [-> _]; [|done|apply kept_refl]. by apply Hblk, (ok_entry _ _ _ _ _ Hok). }
  assert (HC : forall p b, p ∈ E -> b ∈ K p -> con s' b = con s b).
  { intros p b Hp Hb. apply (dl_blocks _ _ _ _ _ Hd); [by apply Hblk, (ok_cont _ _ _ _ _ _ Hok Hp)|]. intros Hin.
    destruct (HW b Hin) as [[Hbe _]|(_ & Hu & _)]; [by apply (proj2 (proj2 (ok_nodup _ _ _ _ Hok) p Hp) b)|]. destruct Hu. right. by exists p. }
  split.
  - apply (ok_frame E K F s); try done.
    + intros k Hk. apply (dl_words _ _ _ _ _ Hd). intros Hin. by apply (HH k).
    + intros b Hb. destruct (dl_blocks _ _ _ _ _ Hd b) as [-> _]; [by apply Hblk, (ok_frees _ _ _ _ Hok)| |done].
      intros Hin. destruct (HW b Hin) as [[Hbe _]|(_ & _ & Hn)]; [|done]. destruct (ok_frees _ _ _ _ Hok b Hb) as [_ Hu]. destruct Hu. by left.
  - intros p Hp. apply (listed_kept s); [by apply HE|intros b Hb; by apply (HC p)|by apply (ok_lists _ _ _ _ Hok)].
Qed.

Lemma spare_delta q E K F W H s s' b : delta q W H s s' -> (w_eofPtr ∉ H) -> spare E K F s b -> spare E K F s' b.
Proof. intros Hd Hn. unfold spare, block, eof. by rewrite (dl_words _ _ _ _ _ Hd). Qed.

Lemma names_delta q E K F W H s s' :
  ok E K F s -> names E s -> delta q W H s s' -> (forall k, k ∈ H -> ~ name_word k) ->
  (forall p, p ∈ W -> p ∈ E -> name (ent s' p) = name (ent s p) /\ nextName (ent s' p) = nextName (ent s p)
     /\ has (flags (ent s' p)) PRGRP = has (flags (ent s p)) PRGRP) ->
  names E s'.
Proof.
  intros Hok Hn Hd HH HW. apply (names_frame E s); [|intros p Hp|done].
  - intros i Hi. apply (dl_words _ _ _ _ _ Hd). intros Hin. apply (HH _ Hin). by exists i.
  - destruct (decide (p ∈ W)); [by apply HW|]. destruct (dl_blocks _ _ _ _ _ Hd p) as [-> _]; [|done..]. by apply (block_aligned s), (ok_entry _ _ _ _ _ Hok).
Qed.
Lemma owners_delta q E K F W H s s' :
  ok E K F s -> owners E s -> delta q W H s s' -> (w_orphan ∉ H) ->
  (forall p, p ∈ W -> p ∈ E -> id (ent s' p) = id (ent s p) /\ owner (ent s' p) = owner (ent s p)
     /\ has (flags (ent s' p)) PRGRP = has (flags (ent s p)) PRGRP
     /\ owned (ent s' p) = owned (ent s p) /\ nextOwned (ent s' p) = nextOwned (ent s p)) ->
  owners E s'.
Proof.
  intros Hok Ho Hd HH HW. apply (owners_frame E s); [by apply (dl_words _ _ _ _ _ Hd)|intros p Hp|done].
  destruct (decide (p ∈ W)); [by apply HW|]. destruct (dl_blocks _ _ _ _ _ Hd p) as [-> _]; [|done..]. by apply (block_aligned s), (ok_entry _ _ _ _ _ Hok).
Qed.

(** Changes of members leave both alone. *)
Lemma names_core E s s' :
  (forall k, k <> w_freePtr -> k <> w_eofPtr -> cheader s' k = cheader s k) ->
  (forall e, e ∈ E -> core (ent s' e) = core (ent s e)) -> names E s -> names E s'.
Proof.
  intros Hw Hc. apply names_frame.
  - intros i Hi. apply Hw; unfold w_nameHash, w_freePtr, w_eofPtr in *; lia.
  - intros p Hp. specialize (Hc p Hp). rewrite (core_flags _ _ Hc). split; [by apply core_name|]. split; [by apply core_nextName|done].
Qed.
Lemma owners_core E s s' :
  (forall k, k <> w_freePtr -> k <> w_eofPtr -> cheader s' k = cheader s k) ->
  (forall e, e ∈ E -> core (ent s' e) = core (ent s e)) -> owners E s -> owners E s'.
Proof.
  intros Hw Hc. apply owners_frame; [by apply Hw|]. intros p Hp. specialize (Hc p Hp).
  rewrite (core_id _ _ Hc), (core_owner _ _ Hc), (core_flags _ _ Hc). destruct (core_owned _ _ Hc) as [-> ->]. done.
Qed.
