(* ===== verification/PtAdd.v ===== *)
(** * The protection database: adding a member

    [AddToEntry] keeps the invariant and adds the id to the members of one entry, in the
    entry itself, in a slot of a continuation block, or in a new one. *)

From stdpp Require Import prelude list gmap.
From Stdlib Require Import ZArith Lia ZifyBool.
From S2P Require Import Prelude ByteMem Pt PtBlock PtOk PtList PtStep PtFrame.

#[local] Open Scope Z_scope.
#[local] Open Scope pt_scope.

(** ** Allocation *)

(** The block at [b] was taken; [F'] is left. *)
Record taken (q : Prop) (E : gset Z) (K : Z -> list Z) (F : list Z) (s : ptdb) (b : Z) (F' : list Z) (s' : ptdb) : Prop := {
  tk_changed : changed q [] s s';
  tk_free : chain (fun p => next (ent s' p)) (cheader s' w_freePtr) F';
  tk_sub : NoDup (b :: F') /\ forall x, x ∈ F' -> x ∈ F;
  tk_new : block s' b /\ ~ used E K b;
  tk_eof : (exists n, 0 <= n /\ eof s' = sizeof_prheader + 192 * n /\ eof s' < 2 ^ 31) /\ eof s <= eof s' <= eof s + 192
}.

Lemma wp_AllocBlock q E K F (Q : Z -> ptdb -> Prop) Er s :
  good q s -> ok E K F s -> eof s + 192 < 2 ^ 31 ->
  (forall b F' s', taken q E K F s b F' s' -> Q b s') -> (q -> forall s', good q s' -> Q 0 s') ->
  wp q AllocBlock Q Er s.
Proof.
  intros Hg Hok Hroom HQ H0. unfold AllocBlock. apply pt_bind, pt_get. pose proof (ok_free _ _ _ _ Hok) as Hfree.
  destruct F as [|b F'] eqn:EF; cbn [chain] in Hfree.
  - rewrite Hfree. cbn [Z.eqb negb]. apply pt_bind, pt_get. fold (eof s). apply pt_bind, wp_try; [|intros Hq s' Hg'; by apply pt_ret, H0].
    apply wp_set_header_word; [done|done|]. intros s' W. apply pt_ret.
    destruct (ok_eof _ _ _ _ Hok) as (n & Hn & En & Hlt). rewrite s32_small in W by (unfold is_s32, ENTRYSIZE, sizeof_prheader in *; lia). unfold ENTRYSIZE in W.
    assert (He : eof s' = eof s + 192) by (unfold eof at 1; by rewrite (wd_head _ _ _ _ _ W)).
    apply (HQ _ []). split.
    + apply (worded_changed _ w_eofPtr (eof s + 192)); [by right|done].
    + cbn [chain]. rewrite (wd_head _ _ _ _ _ W). exact Hfree.
    + split; [apply NoDup_singleton|]. by intros x ?%not_elem_of_nil.
    + split; [exists n; rewrite He; repeat split; lia|]. intros Hu. destruct (ok_used _ _ _ _ Hok _ Hu) as (m & _ & Em & Hle). lia.
    + split; [exists (n + 1); rewrite He; repeat split; lia|lia].
  - destruct Hfree as (Efp & Hb0 & Hfree). rewrite Efp, (proj2 (Z.eqb_neq b 0) Hb0). cbn [negb].
    destruct (ok_frees _ _ _ _ Hok b ltac:(left)) as [Hblk Hnu].
    apply pt_bind, wp_try; [|intros Hq s' Hg'; by apply pt_ret, H0]. apply pt_bind, wp_ReadEntry; [done|]. intros s1 A.
    apply wp_set_header_word; [apply A|done|]. intros s' W. apply pt_ret.
    assert (Hch : changed q [] s s').
    { apply (changed_trans q [] [] s s1); [by apply alike_changed|]. apply (worded_changed _ w_freePtr (next (ent s b))); [by left|done]. }
    assert (He : eof s' = eof s) by (unfold eof; rewrite (wd_head _ _ _ _ _ W); cbn; by rewrite (al_head _ _ _ A)).
    pose proof (proj1 (ok_nodup _ _ _ _ Hok)) as Hnd. apply (HQ _ F'). split; [done|..].
    + rewrite (wd_head _ _ _ _ _ W). rewrite Z.eqb_refl. revert Hfree. apply chain_ext. intros x Hx.
      destruct (ok_frees _ _ _ _ Hok x ltac:(by right)) as [Hbx _].
      by rewrite (proj1 (ch_blocks _ _ _ _ Hch x (block_aligned _ _ Hbx) ltac:(apply not_elem_of_nil))).
    + split; [done|]. intros x Hx. by right.
    + split; [|done]. unfold block. by rewrite He.
    + rewrite He. split; [apply Hok|lia].
Qed.

(** ** The walk for a place *)


Definition found (s : ptdb) (ks : list Z) (slot slot' : spot) : Prop :=
  (slot <> Nowhere -> slot' = slot)
  /\ (slot = Nowhere ->
        slot' = Nowhere /\ Forall (fun x => vacant x = false) (cslots s ks)
        \/ exists k1 b k2 i, ks = k1 ++ b :: k2 /\ slot' = Cont i b /\ fillable (c_entries (con s b)) i
             /\ Forall (fun x => vacant x = false) (cslots s k1)).

Lemma found_alike q s s' ks a b : alike q s s' -> found s' ks a b -> found s ks a b.
Proof.
  intros A [H1 H2]. split; [done|]. intros E. destruct (H2 E) as [H|(k1 & c & k2 & i & E1 & E2 & H3 & H4)].
  - left. by rewrite <- (cslots_alike q s s' ks A).
  - right. exists k1, c, k2, i. rewrite <- (al_con _ _ _ _ A), <- (cslots_alike q s s' k1 A). done.
Qed.

Lemma found_cons s b ks slot slot1 slot2 :
  (slot <> Nowhere -> slot1 = slot) -> (slot = Nowhere -> settles (c_entries (con s b)) 0 (fun i => Cont i b) slot1) ->
  found s ks slot1 slot2 -> found s (b :: ks) slot slot2.
Proof.
  intros H1 H2 [H3 H4]. split; [intros Hn; rewrite <- (H1 Hn); apply H3; by rewrite (H1 Hn)|]. intros Es.
  destruct (H2 Es) as [[E1 Hv]|(k & E1 & Hf)].
  - destruct (H4 E1) as [[E2 Hv']|(k1 & c & k2 & i & -> & E2 & H5 & H6)].
    + left. split; [done|]. cbn [map concat]. by apply Forall_app.
    + right. exists (b :: k1), c, k2, i. repeat split; try done. cbn [map concat]. by apply Forall_app.
  - right. exists [], b, ks, k. repeat split; [|done|by apply Forall_nil]. rewrite H3; [done|]. by rewrite E1.
Qed.

Lemma wp_add_walk q n aid ks nptr slot o (Q : spot * option (Z * contentry) -> ptdb -> Prop) Er s :
  good q s -> chain (fun b => c_next (con s b)) nptr ks -> (length ks <= n)%nat ->
  (forall b, b ∈ ks -> has (c_flags (con s b)) PRCONT = true) -> aid <> 0 -> tailed (cslots s ks) ->
  (forall s', alike q s s' -> aid ∈ cslots s ks -> Er PRIDEXIST s') ->
  (forall slot' s', alike q s s' -> (aid ∉ cslots s ks) -> found s ks slot slot' -> Q (slot', last_co s ks o) s') ->
  wp q (add_walk n nptr aid slot o) Q Er s.
Proof.
  revert nptr slot o ks s. induction n as [|n IH]; intros nptr slot o ks s Hg Hc Hn Hf Ha Ht HE HQ; destruct ks as [|b ks]; cbn [chain] in Hc.
  1, 3: subst nptr; cbn; apply (HQ slot); [by apply alike_refl|apply not_elem_of_nil|split; [done|left; split; [done|by apply Forall_nil]]].
  { cbn [length] in Hn. lia. }
  destruct Hc as (-> & Hb & Hc). cbn [add_walk]. rewrite (proj2 (Z.eqb_neq b 0) Hb). cbn [map concat] in *.
  destruct (tailed_app _ _ Ht) as [Ht1 Ht2].
  apply pt_bind, wp_ReadCo; [done|]. intros s1 A. rewrite (Hf b) by left. cbn [negb].
  destruct (scan_co _ _ _ _ _) as [slot1|] eqn:Es.
  2: { apply wp_fail, HE; [done|]. apply elem_of_app. left. by apply scan_co_none in Es. }
  apply scan_co_some in Es as (Hin & H1 & H2); [|done|done].
  pose proof (cslots_alike _ _ _ ks A) as Ec. apply (IH _ _ _ ks).
  - apply A.
  - revert Hc. apply chain_ext. intros x _. by rewrite (al_con _ _ _ _ A).
  - cbn [length] in Hn. lia.
  - intros x Hx. rewrite (al_con _ _ _ _ A). apply Hf. by right.
  - done.
  - by rewrite Ec.
  - rewrite Ec. intros s2 A2 Hin2. apply HE; [by apply (alike_trans _ _ s1)|]. apply elem_of_app. by right.
  - rewrite Ec. intros slot2 s2 A2 Hin2 H3.
    replace (last_co s1 ks (Some (b, con s b))) with (last_co s (b :: ks) o).
    2: { unfold last_co. destruct ks as [|c ks]; [done|]. change (last (b :: c :: ks)) with (last (c :: ks)).
         destruct (last (c :: ks)) as [x|] eqn:El; [by rewrite (al_con _ _ _ _ A)|by apply last_None in El]. }
    apply HQ; [by apply (alike_trans _ _ s1)|by apply not_elem_of_app|].
    apply (found_cons _ _ _ _ slot1); [done|done|by apply (found_alike q s s1)].
Qed.

(** ** The three places *)

Section Place.
Context (q : Prop) (E : gset Z) (K : Z -> list Z) (F : list Z) (p aid : Z) (s : ptdb).
Context (Hg : good q s) (Hok : ok E K F s) (Hp : p ∈ E) (Ha : vacant aid = false) (Has : is_s32 aid).
Context (Hnew : aid ∉ slots s p (K p)) (Hself : aid <> id (ent s p)).
#[local] Abbreviation ks := (K p).

(** The entry with its member and its time. *)
Definition counted (t : Z) : prentry := with_count (s32 (count (ent s p) + 1)) (with_addTime (u32 t) (ent s p)).

Lemma Hlisted : listed s p ks.
Proof using Hok Hp. by apply Hok. Qed.
Lemma not_member : aid ∉ members s p ks.
Proof using Hnew. unfold members. rewrite elem_of_real. tauto. Qed.

Definition joins (s' : ptdb) : Prop :=
  exists K' F', change q E K p s K' F' s' /\ members s' p (K' p) ≡ₚ aid :: members s p ks.

Lemma add_first i t s' :
  fillable (entries (ent s p)) i -> wrote q p s s' ->
  ent s' p = with_entries (<[i := aid]> (entries (ent s p))) (counted t) -> joins s'.
Proof using All.
  intros Hf W Ee. pose proof Hlisted as L.
  assert (Hcore : core (ent s' p) = core (ent s p)) by by rewrite Ee.
  destruct (edit_first q E K F p s s' Hok Hp W Hcore) as (Hc & Hio & Hsl); [by rewrite Ee|].
  rewrite Ee in Hsl. cbn [entries with_entries] in Hsl. rewrite <- insert_app_l in Hsl by by apply fillable_lt. fold (slots s p ks) in Hsl.
  assert (Hfl : fillable (slots s p ks) i) by by apply fillable_app_l.
  assert (Hm : members s' p ks ≡ₚ aid :: members s p ks) by (unfold members; rewrite Hsl; by apply real_fill).
  exists (setK K p ks), F. split; [|by rewrite setK_eq]. apply (change_in_place _ _ _ _ _ [p]); try done.
  - apply W.
  - intros w ->%list_elem_of_singleton. by left.
  - apply (listed_add s _ _ ks _ aid); try done.
    + rewrite Hsl. apply tailed_fill; [apply L|done|]. by apply vacant_false in Ha as [? _].
    + apply not_member.
    + by rewrite Ee.
Qed.

Lemma add_cont k1 b k2 i t s1 s2 s' :
  ks = k1 ++ b :: k2 -> fillable (c_entries (con s b)) i ->
  Forall (fun x => vacant x = false) (entries (ent s p) ++ cslots s k1) ->
  wrote q p s s1 -> ent s1 p = counted t -> alike q s1 s2 -> wrote q b s2 s' ->
  con s' b = c_with_entries (<[i := aid]> (c_entries (con s b))) (con s b) -> joins s'.
Proof using All.
  intros Eks Hf Hv W1 E1 A W2 E2. pose proof Hlisted as L.
  destruct (ok_in_ks E K F p s Hok Hp k1 b k2 Eks) as (Hb & Hbp & Hbal & Hal).
  assert (Hc : changed q [p; b] s s').
  { apply (changed_trans _ [p] [b] _ s1); [by apply wrote_changed|]. apply (changed_trans _ [] [b] _ s2); [by apply alike_changed|by apply wrote_changed]. }
  assert (Ep : ent s' p = counted t).
  { rewrite (proj1 (wr_apart _ _ _ _ W2 p (aligned_apart _ _ Hal Hbal (not_eq_sym Hbp)))), (al_ent _ _ _ _ A). done. }
  assert (Hcore : core (ent s' p) = core (ent s p)) by by rewrite Ep.
  set (pre := entries (ent s p) ++ cslots s k1) in *.
  destruct (edit_cont q E K F p s Hok Hp k1 b k2 Eks [p; b] s' (<[i := aid]> (c_entries (con s b)))) as (Hio & Hs & Hsl); try done.
  { intros w Hw. rewrite !elem_of_cons, elem_of_nil in Hw. tauto. }
  { by rewrite Ep. }
  { exists aid. split; [|done]. apply list_elem_of_lookup_2 with i. apply list_lookup_insert_eq. by apply fillable_lt. }
  rewrite Ep in Hsl. fold pre in Hs. cbn [entries counted with_count with_addTime] in Hsl. fold pre in Hsl.
  rewrite <- insert_app_l, <- insert_app_r, <- Hs in Hsl by by apply fillable_lt.
  assert (Hfl : fillable (slots s p ks) (length pre + i)%nat).
  { rewrite Hs. apply fillable_app_r; [|by apply fillable_app_l]. intros H0. rewrite Forall_forall in Hv. by specialize (Hv 0 H0). }
  assert (Hm : members s' p ks ≡ₚ aid :: members s p ks) by (unfold members; rewrite Hsl; by apply real_fill).
  exists (setK K p ks), F. split; [|by rewrite setK_eq]. apply (change_in_place _ _ _ _ _ [p; b]); try done.
  - by rewrite (wr_head _ _ _ _ W2), (al_head _ _ _ A), (wr_head _ _ _ _ W1).
  - intros w [->| ->%list_elem_of_singleton]%elem_of_cons; [by left|by right].
  - apply (listed_add s _ _ ks _ aid); try done.
    + rewrite Hsl. apply tailed_fill; [apply L|done|]. by apply vacant_false in Ha as [? _].
    + apply not_member.
    + by rewrite Ep.
Qed.

(** The last continuation block, or the entry, has the new one behind it. *)
Definition linked (b : Z) (s2 s3 : ptdb) : Prop :=
  match last ks with
  | Some l => wrote q l s2 s3 /\ con s3 l = c_with_next b (con s l)
  | None => s3 = s2
  end.
Definition linking (b t : Z) : prentry :=
  match last ks with Some _ => counted t | None => with_next b (counted t) end.
Definition fresh_co : contentry := mkCo PRCONT (id (ent s p)) 0 0 (aid :: repeat 0 38).

Context (b : Z) (F' : list Z) (t : Z) (s2 s3 s4 s' : ptdb).
Context (Htk : taken q E K F s b F' s2) (Hlk : linked b s2 s3).
Context (W4 : wrote q b s3 s4) (E4 : con s4 b = fresh_co) (W5 : wrote q p s4 s') (E5 : ent s' p = linking b t).

#[local] Abbreviation L := Hlisted.
Lemma new_off : (b ∉ E) /\ (b ∉ ks) /\ aligned b /\ aligned p.
Proof using Hok Hp Htk.
  destruct (tk_new _ _ _ _ _ _ _ _ Htk) as [B1 B2]. split; [intros ?; apply B2; by left|]. split; [intros ?; apply B2; right; by exists p|].
  split; [by apply (block_aligned s2)|]. by apply (block_aligned s), (ok_entry _ _ _ _ _ Hok).
Qed.
Lemma new_last l : last ks = Some l -> l ∈ ks /\ l <> p /\ l <> b /\ aligned l.
Proof using Hok Hp Htk.
  intros Hl%last_Some_elem_of. destruct new_off as (N1 & N2 & N3 & N4). split; [done|]. split; [|split].
  - intros ->. by apply (proj2 (proj2 (ok_nodup _ _ _ _ Hok) p Hp) p).
  - by intros ->.
  - by apply (block_aligned s), (ok_cont _ _ _ _ _ _ Hok Hp).
Qed.
Definition touched : list Z := match last ks with Some l => [l; b; p] | None => [b; p] end.
Lemma new_changed : changed q touched s s' /\ cheader s' = cheader s2.
Proof using All.
  destruct new_off as (N1 & N2 & N3 & N4). pose proof (tk_changed _ _ _ _ _ _ _ _ Htk) as C.
  assert (C2 : changed q [b; p] s3 s') by (apply (changed_trans _ [b] [p] _ s4); by apply wrote_changed).
  unfold touched, linked in *. destruct (last ks) as [l|] eqn:El.
  - pose proof Hlk as [W3 E3]. split; [|by rewrite (wr_head _ _ _ _ W5), (wr_head _ _ _ _ W4), (wr_head _ _ _ _ W3)].
    apply (changed_trans _ [l] [b; p] _ s3); [|done]. apply (changed_trans _ [] [l] _ s2); [done|]. by apply wrote_changed; [apply new_last|].
  - subst s3. split; [|by rewrite (wr_head _ _ _ _ W5), (wr_head _ _ _ _ W4)]. by apply (changed_trans _ [] [b; p] _ s2).
Qed.

Lemma new_con x : x ∈ ks -> con s' x = if decide (last ks = Some x) then c_with_next b (con s x) else con s x.
Proof using All.
  intros Hx. destruct new_off as (N1 & N2 & N3 & N4). destruct new_changed as [C _].
  assert (Hxa : aligned x) by by apply (block_aligned s), (ok_cont _ _ _ _ _ _ Hok Hp).
  assert (Hxp : x <> p) by (intros ->; by apply (proj2 (proj2 (ok_nodup _ _ _ _ Hok) p Hp) p)).
  assert (Hxb : x <> b) by by intros ->.
  destruct (decide (last ks = Some x)) as [El|El].
  - unfold linked in Hlk. rewrite El in Hlk. destruct Hlk as [W3 E3]. rewrite <- E3.
    rewrite (proj2 (wr_apart _ _ _ _ W5 x (aligned_apart _ _ Hxa N4 Hxp))). apply (wr_apart _ _ _ _ W4). by apply aligned_apart.
  - apply (ch_blocks _ _ _ _ C); [done|]. unfold touched. destruct (last ks) as [l|] eqn:El'; rewrite ?elem_of_cons, elem_of_nil; [|intros [->|[->|[]]]; done].
    intros [->|[->|[->|[]]]]; done.
Qed.
Lemma new_block : con s' b = fresh_co.
Proof using All.
  destruct new_off as (N1 & N2 & N3 & N4). rewrite <- E4. apply (wr_apart _ _ _ _ W5). apply aligned_apart; [done|done|]. by intros ->.
Qed.
Lemma new_core : core (ent s' p) = core (ent s p).
Proof using E5. rewrite E5. unfold linking. by destruct (last ks). Qed.
Lemma new_slots : slots s' p (ks ++ [b]) = slots s p ks ++ aid :: repeat 0 38.
Proof using All.
  unfold slots. rewrite map_app, concat_app. cbn [map concat]. rewrite new_block, app_nil_r. cbn [c_entries fresh_co].
  rewrite <- app_assoc. f_equal; [rewrite E5; unfold linking; by destruct (last ks)|]. f_equal. f_equal. apply map_ext_in.
  intros x Hx%list_elem_of_In. rewrite new_con by done. by destruct (decide _).
Qed.
Lemma new_in_order : in_order s' p (ks ++ [b]).
Proof using All.
  destruct new_off as (N1 & N2 & N3 & N4). split.
  - replace (next (ent s' p)) with (match ks with [] => b | _ => next (ent s p) end).
    2: { rewrite E5. unfold linking. destruct ks as [|x l] eqn:El; [done|]. destruct (last (x :: l)) eqn:E6; [done|]. by apply last_None in E6. }
    apply (chain_snoc (fun x => c_next (con s x))).
    + apply L.
    + apply Hok, Hp.
    + apply aligned_low in N3. unfold sizeof_prheader in N3. lia.
    + by rewrite new_block.
    + intros x Hx. rewrite new_con by done. by destruct (decide _).
  - rewrite (core_id _ _ new_core). intros x [Hx| ->%list_elem_of_singleton]%elem_of_app.
    + rewrite new_con by done. destruct (li_blocks _ _ _ L x Hx) as (B1 & B2 & B3). by destruct (decide _).
    + rewrite new_block. split; [done|]. split; [done|]. exists aid. split; [left|done].
Qed.

Lemma add_new : Forall (fun x => vacant x = false) (slots s p ks) -> joins s'.
Proof using All.
  intros Hv. destruct new_off as (N1 & N2 & N3 & N4). destruct new_changed as [C Eh]. pose proof Htk as [T1 T2 [T3 T4] [T5 T6] [T7 T8]].
  assert (Ee : eof s' = eof s2) by (unfold eof; by rewrite Eh).
  assert (Hblk : forall x, block s x -> block s' x) by (intros x (n & ? & ? & ?); exists n; rewrite Ee; repeat split; lia || done).
  assert (Hm : members s' p (ks ++ [b]) ≡ₚ aid :: members s p ks).
  { unfold members. rewrite new_slots, real_app. replace (real (aid :: repeat 0 38)) with [aid]; [by rewrite Permutation_app_comm|].
    change (aid :: repeat 0 38) with ([aid] ++ repeat 0 38). rewrite real_app, real_zeros.
    unfold real. by rewrite filter_cons, decide_True by done. }
  apply NoDup_cons in T3 as [T3 T3'].
  exists (setK K p (ks ++ [b])), F'. split; [|by rewrite setK_eq].
  apply (change_intro _ _ _ F _ _ _ touched); try done.
  - unfold touched. intros w. destruct (last ks) as [l|] eqn:El; rewrite ?elem_of_cons, elem_of_nil.
    + destruct (new_last l El) as (H & _). intros [->|[->|[->|[]]]]; auto.
    + intros [->|[->|[]]]; auto.
  - by rewrite Ee.
  - by rewrite Ee.
  - rewrite Eh. revert T2. apply chain_ext. intros x Hx. destruct (ok_frees _ _ _ _ Hok x (T4 x Hx)) as [X1 X2].
    rewrite (proj1 (ch_blocks _ _ _ _ T1 x (block_aligned _ _ X1) (not_elem_of_nil _))).
    rewrite (proj1 (ch_blocks _ _ _ _ C x (block_aligned _ _ X1) ltac:(unfold touched; intros Hw; apply X2; destruct (last ks) as [l|] eqn:El; rewrite ?elem_of_cons, elem_of_nil in Hw; [destruct (new_last l El) as (H & _)|]; destruct_or? Hw; subst; try done; [right; by exists p|by left|by left]))). done.
  - rewrite <- app_assoc. apply NoDup_app. split; [apply Hok, Hp|]. split; [|by apply NoDup_cons].
    intros x Hx [->|HxF]%elem_of_cons; [done|]. apply (ok_frees _ _ _ _ Hok x); [by apply T4|]. right. by exists p.
  - intros x [[Hx| ->%list_elem_of_singleton]%elem_of_app|HxF]%elem_of_app.
    + split; [by apply Hblk, (ok_cont _ _ _ _ _ _ Hok Hp)|]. split; [by apply (proj2 (ok_nodup _ _ _ _ Hok) p Hp)|].
      intros e He' Hne Hbe. by apply Hne, (ok_owner _ _ _ _ Hok e p x).
    + split; [unfold block; by rewrite Ee|]. split; [done|]. intros e He _ Hbe. apply T6. right. by exists e.
    + destruct (ok_frees _ _ _ _ Hok x (T4 x HxF)) as [B1 B2]. split; [by apply Hblk|]. split; [intros ?; apply B2; by left|].
      intros e He' _ Hbe. apply B2. right. by exists e.
  - apply new_core.
  - apply (listed_add s _ _ ks _ aid); try done.
    + apply L.
    + apply new_in_order.
    + apply new_core.
    + rewrite new_slots. apply tailed_last; [|by apply vacant_false in Ha as [? _]]. intros H0. rewrite Forall_forall in Hv. by specialize (Hv 0 H0).
    + apply not_member.
    + rewrite E5. unfold linking. by destruct (last ks).
Qed.

End Place.

Lemma taken_alike q E K F s s1 b F' s2 : alike q s s1 -> taken q E K F s1 b F' s2 -> taken q E K F s b F' s2.
Proof.
  intros A [T1 T2 T3 T4 T5]. assert (Ee : eof s1 = eof s) by (unfold eof; by rewrite (al_head _ _ _ A)).
  split; try done; [|by rewrite <- Ee]. apply (changed_trans _ [] [] _ s1); [by apply alike_changed|done].
Qed.

(** With no place left. *)
Lemma wp_add_new q E K F p aid t (Q : unit -> ptdb -> Prop) Er s s1 :
  good q s -> ok E K F s -> p ∈ E -> vacant aid = false -> is_s32 aid ->
  (aid ∉ slots s p (K p)) -> aid <> id (ent s p) -> eof s + 192 < 2 ^ 31 -> alike q s s1 ->
  Forall (fun x => vacant x = false) (slots s p (K p)) -> (forall s', joins q E K p aid s s' -> Q tt s') ->
  wp q (do nptr <- AllocBlock;
        (match last_co s (K p) None with
         | Some (l, c) => pr_WriteCoEntry l (c_with_next nptr c)
         | None => ret tt
         end) ;;
        let entry := match last_co s (K p) None with
                     | Some _ => with_addTime (u32 t) (ent s p)
                     | None => with_next nptr (with_addTime (u32 t) (ent s p))
                     end in
        pr_WriteCoEntry nptr (mkCo PRCONT (id entry) 0 0 (aid :: repeat 0 38)) ;;
        pr_WriteEntry p (with_count (s32 (count entry + 1)) entry)) Q Er s1.
Proof.
  intros Hg Hok Hp Ha Has Hnew Hself Hroom A Hv HQ.
  assert (Hok1 : ok E K F s1) by by apply (ok_alike q E K F s).
  assert (Ee : eof s1 = eof s) by (unfold eof; by rewrite (al_head _ _ _ A)).
  assert (Hlast : forall l, last (K p) = Some l -> block s l) by (intros l Hl%last_Some_elem_of; by apply (ok_cont _ _ _ _ _ _ Hok Hp)).
  apply pt_bind, (wp_AllocBlock q E K F); [apply A|done|lia| |].
  - intros b F' s2 Htk%(taken_alike _ _ _ _ s s1); [|done].
    destruct (tk_new _ _ _ _ _ _ _ _ Htk) as [(n & Hn & Eb & Hlt) _].
    assert (Hb : is_s32 b /\ sizeof_prheader <= b).
    { destruct (tk_eof _ _ _ _ _ _ _ _ Htk) as [(m & _ & _ & Hm) _]. unfold is_s32, sizeof_prheader in *. lia. }
    assert (Hnext : forall s3, good q s3 -> linked q K p s b s2 s3 -> wp q
       (let entry := match last (K p) with Some _ => with_addTime (u32 t) (ent s p) | None => with_next b (with_addTime (u32 t) (ent s p)) end in
        pr_WriteCoEntry b (mkCo PRCONT (id entry) 0 0 (aid :: repeat 0 38)) ;;
        pr_WriteEntry p (with_count (s32 (count entry + 1)) entry)) Q Er s3).
    { intros s3 Hg3 Hlk. cbv zeta. apply pt_bind, wp_WriteCo; [done|lia| |].
      - split; [| |apply Forall_cons; split; [done|apply Forall_forall; intros x Hx%list_elem_of_In; by apply repeat_spec in Hx as ->]].
        + cbn [c_flags c_id c_cellid c_next]. rewrite !Forall_cons. repeat split; try done; try by apply Forall_nil.
          all: pose proof (eo_words _ (ent_ok _ s p Hg)) as Hw; rewrite !Forall_cons in Hw; destruct (last (K p)); cbn; apply Hw.
        + cbn [c_entries length]. by rewrite repeat_length.
      - intros s4 W4 E4. apply wp_WriteEntry; [apply W4|by apply (ok_block_low _ _ _ _ _ Hok), (ok_entry _ _ _ _ _ Hok)| |].
        + destruct (last (K p)); eauto 6 with ptw. apply eo_count; [apply s32_range|]. apply eo_next; [apply Hb|]. eauto with ptw.
        + intros s' W5 E5. apply HQ, (add_new q E K F p aid s) with b F' t s2 s3 s4; try done.
          * rewrite E4. unfold fresh_co. f_equal. by destruct (last (K p)).
          * rewrite E5. unfold linking, counted. by destruct (last (K p)). }
    unfold last_co in *. unfold linked in Hnext. apply pt_bind. destruct (last (K p)) as [l|] eqn:El.
    + apply wp_WriteCo; [apply Htk|by apply (ok_block_low _ _ _ _ _ Hok), Hlast|apply co_next; [apply Hb|apply con_ok]|].
      intros s3 W3 E3. apply Hnext; [apply W3|done].
    + apply pt_ret, Hnext; [apply Htk|done].
  - intros Hq s2 Hg2. assert (Hnext : forall s3 c e, good q s3 -> wp q (pr_WriteCoEntry 0 c ;; e) Q Er s3).
    { intros s3 c e Hg3. apply pt_bind. unfold pr_WriteCoEntry, pr_Write. cbn. by left. }
    apply pt_bind. unfold last_co in *. destruct (last (K p)) as [l|] eqn:El; [|by apply pt_ret, Hnext].
    apply wp_WriteCo; [done|by apply (ok_block_low _ _ _ _ _ Hok), Hlast|apply co_next; [done|apply con_ok]|].
    intros s3 W3 _. apply Hnext, W3.
Qed.

Lemma wp_AddToEntry fuel q E K F p aid (Q : unit -> ptdb -> Prop) Er s :
  good q s -> ok E K F s -> enough fuel s -> p ∈ E -> is_s32 aid -> vacant aid = false -> eof s + 192 < 2 ^ 31 ->
  (aid = id (ent s p) -> Er PRINCONSISTENT s) ->
  (forall s', alike q s s' -> aid <> id (ent s p) -> aid ∈ members s p (K p) -> Er PRIDEXIST s') ->
  (forall s', aid <> id (ent s p) -> (aid ∉ members s p (K p)) -> joins q E K p aid s s' -> Q tt s') ->
  wp q (AddToEntry fuel (ent s p) p aid) Q Er s.
Proof.
  intros Hg Hok Hfuel Hp Has Ha Hroom HI HX HQ. unfold AddToEntry.
  destruct (Z.eqb_spec (id (ent s p)) aid) as [Ei|Hself]; [by apply wp_fail, HI|]. apply not_eq_sym in Hself.
  apply pt_bind, pt_get. cbv zeta. pose proof (ok_lists _ _ _ _ Hok p Hp) as L. pose proof (li_tailed _ _ _ L) as Ht.
  pose proof (proj1 (vacant_false _) Ha) as [Ha0 _].
  assert (Hmem : aid ∈ slots s p (K p) -> aid ∈ members s p (K p)) by (intros ?; by apply elem_of_real).
  assert (Hlow : sizeof_prheader <= p) by (by apply (ok_block_low _ _ _ _ _ Hok), (ok_entry _ _ _ _ _ Hok)).
  unfold slots in Ht. destruct (tailed_app _ _ Ht) as [Ht1 Ht2].
  cbn [entries with_addTime]. destruct (scan_first _ _ _ _) as [slot|] eqn:Es.
  2: { apply wp_fail, HX; [by apply alike_refl|done|]. apply Hmem, elem_of_app. left. by apply scan_first_none in Es. }
  apply scan_first_some in Es as (Hn1 & Hslot); [|done|done]. cbn [next with_addTime].
  apply pt_bind, (wp_add_walk _ _ _ (K p)).
  - done.
  - apply L.
  - by apply (conts_fit _ E K F s).
  - intros b Hb. by apply L.
  - done.
  - done.
  - intros s' A Hin. apply HX; [done|done|]. apply Hmem, elem_of_app. by right.
  - intros slot' s1 A Hn2 [Hf1 Hf2]. assert (Hnew : aid ∉ slots s p (K p)) by by apply not_elem_of_app.
    assert (HJ : forall s', joins q E K p aid s s' -> Q tt s') by (intros s'; apply HQ; [done|]; intros [? _]%elem_of_real; done).
    destruct Hslot as [[? _]|[(i & -> & Hfill)|(_ & -> & Hv)]]; [done| |].
    + rewrite Hf1 by done. apply wp_WriteEntry; [apply A|done| |].
      * apply (eo_set i aid (counted p s (now s))); [done|]. unfold counted. eauto with ptw.
      * intros s' W Ee. apply HJ, (add_first _ _ _ F _ _ _ Hg Hok Hp Ha Has Hnew Hself i (now s)); [done| |exact Ee].
        by apply (wrote_alike _ _ _ s1).
    + destruct (Hf2 eq_refl) as [[-> Hv2]|(k1 & b & k2 & i & Ek & -> & Hfill & Hv2)].
      * apply (wp_add_new q E K F p aid (now s)); try done. by apply Forall_app.
      * assert (Hb : b ∈ K p) by (rewrite Ek; apply elem_of_app; right; left).
        apply pt_bind, wp_WriteEntry; [apply A|done|cbn [count with_addTime]; eauto with ptw|].
        intros s2 W2%(wrote_alike _ _ s s1) E2; [|done].
        assert (Eb : con s2 b = con s b).
        { apply (wr_apart _ _ _ _ W2), (block_apart s); [by apply (ok_cont _ _ _ _ _ _ Hok Hp)|by apply (ok_entry _ _ _ _ _ Hok)|].
          intros ->. by apply (proj2 (proj2 (ok_nodup _ _ _ _ Hok) p Hp) p). }
        apply pt_bind, wp_ReadCo; [apply W2|]. intros s3 A3. rewrite Eb.
        apply wp_WriteCo; [apply A3|by apply (ok_block_low _ _ _ _ _ Hok), (ok_cont _ _ _ _ _ _ Hok Hp)|apply co_set; [done|apply con_ok]|].
        intros s' W3 E3. apply HJ, (add_cont _ _ _ F _ _ _ Hg Hok Hp Ha Has Hnew Hself k1 b k2 i (now s) s2 s3); try done.
        by apply Forall_app.
Qed.
