(* ===== verification/PtRemove.v ===== *)
(** * The protection database: removing a member

    [RemoveFromEntry] keeps the invariant and takes the id out of the members of one
    entry; a continuation block that has no member left goes to the free list. *)

From stdpp Require Import prelude list gmap.
From Stdlib Require Import ZArith Lia ZifyBool.
From S2P Require Import Prelude ByteMem Pt PtBlock PtOk PtList PtStep PtFrame.

#[local] Open Scope Z_scope.
#[local] Open Scope pt_scope.

Section Leave.
Context (q : Prop) (E : gset Z) (K : Z -> list Z) (F : list Z) (p aid : Z) (s : ptdb).
Context (Hok : ok E K F s) (Hp : p ∈ E) (Ha : vacant aid = false).
#[local] Abbreviation ks := (K p).

(** The entry with one member less, and its time. *)
Definition uncounted (t : Z) : prentry := with_count (s32 (count (ent s p) - 1)) (with_removeTime (u32 t) (ent s p)).

Definition leaves (s' : ptdb) : Prop :=
  exists K' F', change q E K p s K' F' s' /\ members s p ks ≡ₚ aid :: members s' p (K' p).

Lemma remove_first i t s' :
  entries (ent s p) !! i = Some aid -> wrote q p s s' ->
  ent s' p = with_entries (<[i := PRBADID]> (entries (ent s p))) (uncounted t) -> leaves s'.
Proof using All.
  intros Hi W Ee. pose proof (ok_lists _ _ _ _ Hok p Hp) as L.
  assert (Hcore : core (ent s' p) = core (ent s p)) by by rewrite Ee.
  destruct (edit_first q E K F p s s' Hok Hp W Hcore) as (Hc & Hio & Hsl); [by rewrite Ee|].
  rewrite Ee in Hsl. cbn [entries with_entries] in Hsl. rewrite <- insert_app_l in Hsl by by apply lookup_lt_Some in Hi. fold (slots s p ks) in Hsl.
  assert (Hi' : slots s p ks !! i = Some aid) by by apply lookup_app_l_Some.
  assert (Hm : members s p ks ≡ₚ aid :: members s' p ks) by (unfold members; rewrite Hsl; by apply real_clear).
  exists (setK K p ks), F. split; [|by rewrite setK_eq]. apply (change_in_place _ _ _ _ _ [p]); try done.
  - apply W.
  - intros w ->%list_elem_of_singleton. by left.
  - apply (listed_del s _ _ ks _ aid); try done; [|by rewrite Ee].
    rewrite Hsl. apply (tailed_clear _ _ aid); [apply L|done|by apply vacant_false in Ha as [? _]].
Qed.

Context (k1 : list Z) (b : Z) (k2 : list Z) (Ek : ks = k1 ++ b :: k2) (i : nat) (Hi : c_entries (con s b) !! i = Some aid).
#[local] Abbreviation cleared := (<[i := PRBADID]> (c_entries (con s b))).
#[local] Abbreviation pre := (entries (ent s p) ++ cslots s k1).

Lemma cleared_slots : <[(length pre + i)%nat := PRBADID]> (slots s p ks) = pre ++ cleared ++ cslots s k2.
Proof using Ek Hi Ha. rewrite (split_slots K p s k1 b k2 Ek), insert_app_r, insert_app_l by by apply lookup_lt_Some in Hi. done. Qed.
Lemma cleared_at : slots s p ks !! (length pre + i)%nat = Some aid.
Proof using Ek Hi Ha.
  rewrite (split_slots K p s k1 b k2 Ek), lookup_app_r by lia. replace (length pre + i - length pre)%nat with i by lia.
  by apply lookup_app_l_Some.
Qed.

Lemma remove_cont t s1 s' :
  (exists x, x ∈ cleared /\ vacant x = false) -> wrote q b s s1 -> con s1 b = c_with_entries cleared (con s b) ->
  wrote q p s1 s' -> ent s' p = uncounted t -> leaves s'.
Proof using All.
  intros Hleft W1 E1 W2 Ep. pose proof (ok_lists _ _ _ _ Hok p Hp) as L.
  destruct (ok_in_ks E K F p s Hok Hp k1 b k2 Ek) as (Hb & Hbp & Hbal & Hal).
  assert (Hc : changed q [b; p] s s') by (apply (changed_trans _ [b] [p] _ s1); by apply wrote_changed).
  assert (Eb : con s' b = c_with_entries cleared (con s b)).
  { rewrite <- E1. apply (wr_apart _ _ _ _ W2). by apply aligned_apart. }
  assert (Hcore : core (ent s' p) = core (ent s p)) by by rewrite Ep.
  destruct (edit_cont q E K F p s Hok Hp k1 b k2 Ek [b; p] s' cleared) as (Hio & _ & Hsl); try done.
  { intros w Hw. rewrite !elem_of_cons, elem_of_nil in Hw. tauto. }
  { by rewrite Ep. }
  rewrite Ep in Hsl. cbn [entries uncounted with_count with_removeTime] in Hsl. rewrite <- cleared_slots in Hsl.
  assert (Hm : members s p ks ≡ₚ aid :: members s' p ks) by (unfold members; rewrite Hsl; apply real_clear; [apply cleared_at|done]).
  exists (setK K p ks), F. split; [|by rewrite setK_eq]. apply (change_in_place _ _ _ _ _ [b; p]); try done.
  - by rewrite (wr_head _ _ _ _ W2), (wr_head _ _ _ _ W1).
  - intros w [->| ->%list_elem_of_singleton]%elem_of_cons; [by right|by left].
  - apply (listed_del s _ _ ks _ aid); try done; [|by rewrite Ep].
    rewrite Hsl. apply (tailed_clear _ _ aid); [apply L|apply cleared_at|by apply vacant_false in Ha as [? _]].
Qed.

(** ** The block becomes free *)

(** The block before, or the entry, has the next one behind it. *)
Definition unlinked (s1 : ptdb) : Prop :=
  match last k1 with
  | Some h => wrote q h s s1 /\ con s1 h = c_with_next (c_next (con s b)) (con s h)
  | None => s1 = s
  end.
Definition unlinking (t : Z) : prentry :=
  match last k1 with Some _ => uncounted t | None => with_next (c_next (con s b)) (uncounted t) end.

Context (t : Z) (s1 s2 s3 s' : ptdb) (Hun : unlinked s1) (Hgood : good q s1).
Context (W2 : worded q w_freePtr b s1 s2) (W3 : wrote q b s2 s3) (E3 : ent s3 b = free_entry (cheader s1 w_freePtr)).
Context (W4 : wrote q p s3 s') (E4 : ent s' p = unlinking t) (Hempty : Forall (fun x => vacant x = true) cleared).

Definition rewritten : list Z := match last k1 with Some h => [h; b; p] | None => [b; p] end.

Lemma gone_last h : last k1 = Some h -> h ∈ k1 /\ h ∈ ks /\ h <> b /\ h <> p /\ aligned h.
Proof using Hok Hp Ek.
  intros Hh%last_Some_elem_of. split; [done|]. destruct (split_other E K F p s Hok Hp k1 b k2 Ek h) as (H1 & H2 & H3); [apply elem_of_app; by left|].
  repeat split; try done. by apply (block_aligned s), (ok_cont _ _ _ _ _ _ Hok Hp).
Qed.
Lemma gone_changed : changed q rewritten s s' /\ forall k, cheader s' k = if k =? w_freePtr then b else cheader s k.
Proof using All.
  destruct (ok_in_ks E K F p s Hok Hp k1 b k2 Ek) as (Hb & Hbp & Hbal & Hal).
  assert (C2 : changed q [b; p] s1 s').
  { apply (changed_trans _ [] [b; p] _ s2); [by apply (worded_changed _ w_freePtr b); [left|]|].
    apply (changed_trans _ [b] [p] _ s3); by apply wrote_changed. }
  assert (Eh : forall k, cheader s' k = if k =? w_freePtr then b else cheader s1 k).
  { intros k. by rewrite (wr_head _ _ _ _ W4), (wr_head _ _ _ _ W3), (wd_head _ _ _ _ _ W2). }
  unfold rewritten. pose proof Hun as Hun'. unfold unlinked in Hun'. destruct (last k1) as [h|] eqn:El.
  - destruct Hun' as [W1 E1]. split; [|intros k; by rewrite Eh, (wr_head _ _ _ _ W1)].
    apply (changed_trans _ [h] [b; p] _ s1); [|done]. apply wrote_changed; [by apply gone_last|done].
  - subst s1. done.
Qed.
Lemma gone_con x : x ∈ k1 ++ k2 -> con s' x = if decide (last k1 = Some x) then c_with_next (c_next (con s b)) (con s x) else con s x.
Proof using All.
  intros Hx. destruct (ok_in_ks E K F p s Hok Hp k1 b k2 Ek) as (Hb & Hbp & Hbal & Hal). destruct gone_changed as [C _].
  destruct (split_other E K F p s Hok Hp k1 b k2 Ek x Hx) as (H1 & H2 & H3).
  assert (Hxa : aligned x) by by apply (block_aligned s), (ok_cont _ _ _ _ _ _ Hok Hp).
  destruct (decide (last k1 = Some x)) as [El|El].
  - pose proof Hun as Hun'. unfold unlinked in Hun'. rewrite El in Hun'. destruct Hun' as [W1 E1]. rewrite <- E1.
    rewrite (proj2 (wr_apart _ _ _ _ W4 x (aligned_apart _ _ Hxa Hal H3))), (proj2 (wr_apart _ _ _ _ W3 x (aligned_apart _ _ Hxa Hbal H2))).
    apply (wd_blocks _ _ _ _ _ W2). by apply aligned_low.
  - apply (ch_blocks _ _ _ _ C); [done|]. unfold rewritten. destruct (last k1) as [h|]; rewrite ?elem_of_cons, elem_of_nil.
    + intros [->|[->|[->|[]]]]; done.
    + intros [->|[->|[]]]; done.
Qed.
Lemma gone_core : core (ent s' p) = core (ent s p).
Proof using E4. rewrite E4. unfold unlinking. by destruct (last k1). Qed.
Lemma gone_slots : slots s' p (k1 ++ k2) = pre ++ cslots s k2.
Proof using All.
  unfold slots. rewrite map_app, concat_app. rewrite <- app_assoc. f_equal; [rewrite E4; unfold unlinking; by destruct (last k1)|].
  f_equal; f_equal; apply map_ext_in; intros x Hx%list_elem_of_In; (rewrite gone_con by (apply elem_of_app; auto)); by destruct (decide _).
Qed.
Lemma gone_in_order : in_order s' p (k1 ++ k2).
Proof using All.
  pose proof (ok_lists _ _ _ _ Hok p Hp) as L. split.
  - apply (chain_remove (fun x => c_next (con s x)) _ (next (ent s p)) _ k1 b k2).
    + rewrite <- Ek. apply L.
    + rewrite <- Ek. apply Hok, Hp.
    + rewrite E4. unfold unlinking. destruct (last k1) as [h|] eqn:El.
      * destruct (gone_last h El) as (H1 & _). repeat split; [|intros c Hc Hne]; rewrite gone_con; try done.
        -- by rewrite decide_True by done.
        -- apply elem_of_app. by left.
        -- rewrite decide_False by congruence. done.
      * split; [done|]. intros c Hc. rewrite gone_con by (apply elem_of_app; by right). by rewrite decide_False by congruence.
  - rewrite (core_id _ _ gone_core). intros x Hx. destruct (split_other E K F p s Hok Hp k1 b k2 Ek x Hx) as (H1 & _).
    rewrite gone_con by done. destruct (li_blocks _ _ _ L x H1) as (B1 & B2 & B3). by destruct (decide _).
Qed.

Lemma gone_free : chain (fun x => next (ent s' x)) (cheader s' w_freePtr) (b :: F).
Proof using All.
  destruct (ok_in_ks E K F p s Hok Hp k1 b k2 Ek) as (Hb & Hbp & Hbal & Hal). destruct gone_changed as [C Eh].
  assert (Hfp : cheader s1 w_freePtr = cheader s w_freePtr).
  { pose proof Hun as Hun'. unfold unlinked in Hun'. destruct (last k1); [by rewrite (wr_head _ _ _ _ (proj1 Hun'))|by subst s1]. }
  rewrite Eh. cbn [Z.eqb w_freePtr Pos.eqb]. apply (chain_cons (fun x => next (ent s x)) _ b (cheader s w_freePtr)).
  - apply aligned_low in Hbal. unfold sizeof_prheader in Hbal. lia.
  - rewrite (proj1 (wr_apart _ _ _ _ W4 b (aligned_apart _ _ Hbal Hal Hbp))), E3. exact Hfp.
  - intros x Hx. destruct (ok_frees _ _ _ _ Hok x Hx) as [X1 X2].
    assert (Hu : forall y, y ∈ ks -> x <> y) by (intros y Hy ->; apply X2; right; by exists p).
    assert (Hxp : x <> p) by (intros ->; apply X2; by left).
    rewrite (proj1 (ch_blocks _ _ _ _ C x (block_aligned _ _ X1) ltac:(unfold rewritten; destruct (last k1) as [h|] eqn:El; rewrite ?elem_of_cons, elem_of_nil; [destruct (gone_last h El) as (_ & H & _); intros [->|[->|[->|[]]]]; [by apply (Hu h)|by apply (Hu b)|done]|intros [->|[->|[]]]; [by apply (Hu b)|done]]))). done.
  - apply Hok.
Qed.

Lemma remove_block : leaves s'.
Proof using All.
  pose proof (ok_lists _ _ _ _ Hok p Hp) as L. destruct (ok_in_ks E K F p s Hok Hp k1 b k2 Ek) as (Hb & Hbp & Hbal & Hal).
  destruct gone_changed as [C Eh]. assert (Ee : eof s' = eof s) by (unfold eof; by rewrite Eh).
  assert (Hblk : forall x, block s x -> block s' x) by (intros x; unfold block; by rewrite Ee).
  assert (Hreal : real (slots s p ks) ≡ₚ aid :: real (pre ++ cslots s k2)).
  { rewrite (real_clear _ _ _ cleared_at Ha), cleared_slots, !real_app, (real_vacant cleared) by done. done. }
  assert (Hks : forall x, x ∈ k1 ++ k2 -> x ∈ ks /\ x <> b).
  { intros x Hx. by destruct (split_other E K F p s Hok Hp k1 b k2 Ek x Hx) as (? & ? & ?). }
  pose proof (proj1 (proj2 (ok_nodup _ _ _ _ Hok) p Hp)) as Hnd.
  assert (Hnd' : NoDup (b :: k1 ++ k2)) by by rewrite Permutation_middle, <- Ek.
  apply NoDup_cons in Hnd' as [_ Hnd'].
  assert (Hoff : forall x, x ∈ ks -> block s' x /\ (x ∉ E) /\ forall e, e ∈ E -> e <> p -> x ∉ K e).
  { intros x Hx. split; [by apply Hblk, (ok_cont _ _ _ _ _ _ Hok Hp)|]. split; [by apply (proj2 (ok_nodup _ _ _ _ Hok) p Hp)|].
    intros e He Hne Hxe. by apply Hne, (ok_owner _ _ _ _ Hok e p x). }
  exists (setK K p (k1 ++ k2)), (b :: F). split; [|rewrite setK_eq; unfold members; by rewrite gone_slots].
  apply (change_intro _ _ _ F _ _ _ rewritten); try done.
  - unfold rewritten. intros w. destruct (last k1) as [h|] eqn:El; rewrite ?elem_of_cons, elem_of_nil.
    + destruct (gone_last h El) as (_ & H & _). intros [->|[->|[->|[]]]]; auto.
    + intros [->|[->|[]]]; auto.
  - rewrite Ee. apply Hok.
  - rewrite Ee. lia.
  - apply gone_free.
  - apply NoDup_app. split; [done|]. split.
    + intros x Hx%Hks [->|HxF]%elem_of_cons; [by destruct Hx|]. apply (ok_frees _ _ _ _ Hok x HxF). right. exists p. by destruct Hx.
    + apply NoDup_cons. split; [|apply Hok]. intros HbF. apply (ok_frees _ _ _ _ Hok b HbF). right. by exists p.
  - intros x [Hx%Hks|[->|HxF]%elem_of_cons]%elem_of_app; [apply Hoff, Hx|apply Hoff, Hb|].
    destruct (ok_frees _ _ _ _ Hok x HxF) as [B1 B2]. split; [by apply Hblk|]. split; [intros ?; apply B2; by left|].
    intros e He' _ Hbe. apply B2. right. by exists e.
  - apply gone_core.
  - apply (listed_del s _ _ ks _ aid); try done; [apply gone_in_order|apply gone_core| | |rewrite E4; unfold unlinking; by destruct (last k1)].
    + rewrite gone_slots. apply (tailed_drop _ cleared). rewrite <- cleared_slots.
      apply (tailed_clear _ _ aid); [apply L|apply cleared_at|by apply vacant_false in Ha as [? _]].
    + unfold members. by rewrite gone_slots.
Qed.

End Leave.

(** ** The walk *)

Lemma find_slot_absent l i0 aid : aid <> 0 -> tailed l -> find_slot l i0 aid = None -> (aid ∉ l) /\ 0 ∈ l.
Proof.
  intros Ha Ht Hf. destruct (find_slot_none _ _ _ Hf) as (H0 & l1 & l2 & -> & Hn & _). split; [|done].
  intros [?|[?|Hin]%elem_of_cons]%elem_of_app; [done|done|]. apply Ha.
  change (l1 ++ 0 :: l2) with (l1 ++ [0] ++ l2) in Ht. rewrite app_assoc in Ht.
  apply (tailed_zero (l1 ++ [0]) l2); [done|apply elem_of_app; right; left|done].
Qed.

Lemma head_s32 E K F s : ok E K F s -> is_s32 (cheader s w_freePtr).
Proof.
  intros Hok. pose proof (ok_free _ _ _ _ Hok) as Hc. destruct F as [|b F]; cbn [chain] in Hc; [by rewrite Hc|].
  destruct Hc as (-> & _). apply (ok_block_low E K (b :: F) s b Hok), (ok_frees _ _ _ _ Hok). left.
Qed.
Lemma free_entry_ok fp : is_s32 fp -> entry_ok (free_entry fp).
Proof.
  intros H. assert (H0 : is_s32 0) by (unfold is_s32; lia). assert (H1 : is_u32 0) by (unfold is_u32; lia).
  split; cbn [free_entry flags id cellid next createTime addTime removeTime changeTime entries nextID nextName owner creator ngroups nusers count inst owned nextOwned parent sibling child name].
  - assert (is_s32 PRFREE) by done. assert (Forall is_s32 []) by by apply Forall_nil. rewrite !Forall_cons. tauto.
  - assert (Forall is_u32 []) by by apply Forall_nil. rewrite !Forall_cons. tauto.
  - done.
  - apply Forall_forall. intros x Hx%list_elem_of_In. by apply repeat_spec in Hx as ->.
  - split; [done|]. apply Forall_forall. intros x Hx%list_elem_of_In. by apply repeat_spec in Hx as ->.
Qed.

Lemma wp_FreeBlock q pos (Q : unit -> ptdb -> Prop) Er s :
  good q s -> sizeof_prheader <= pos -> is_s32 (cheader s w_freePtr) ->
  (forall s1 s', worded q w_freePtr pos s s1 -> wrote q pos s1 s' -> ent s' pos = free_entry (cheader s w_freePtr) -> Q tt s') ->
  wp q (FreeBlock pos) Q Er s.
Proof.
  intros Hg Hp Hs HQ. unfold FreeBlock. apply pt_bind, pt_get. apply pt_bind, wp_set_header_word; [done|done|]. intros s1 W.
  apply wp_WriteEntry; [apply W|done|by apply free_entry_ok|]. intros s' W' E'. by apply (HQ s1).
Qed.

Lemma not_all_vacant l : forallb vacant l = false -> exists x, x ∈ l /\ vacant x = false.
Proof.
  induction l as [|x l IH]; cbn [forallb]; [done|]. destruct (vacant x) eqn:Ev; cbn [andb].
  - intros (y & H1 & H2)%IH. exists y. split; [by right|done].
  - intros _. exists x. split; [left|done].
Qed.

Section Walk.
Context (q : Prop) (E : gset Z) (K : Z -> list Z) (F : list Z) (p aid t : Z) (s : ptdb).
Context (Hg : good q s) (Hok : ok E K F s) (Hp : p ∈ E) (Ha : vacant aid = false).
Context (Q : unit -> ptdb -> Prop) (Er : Z -> ptdb -> Prop).
Context (HN : forall s', alike q s s' -> (aid ∉ members s p (K p)) -> Er PRNOENT s').
Context (HQ : forall s', leaves q E K p aid s s' -> Q tt s').

#[local] Abbreviation e := (with_removeTime (u32 t) (ent s p)).
Lemma p_low : sizeof_prheader <= p.
Proof using Hok Hp. by apply (ok_block_low _ _ _ _ _ Hok), (ok_entry _ _ _ _ _ Hok). Qed.

Lemma leaves_alike s1 s' : alike q s s1 -> leaves q E K p aid s1 s' -> leaves q E K p aid s s'.
Proof using Type.
  intros A (K' & F' & C & Hm). exists K', F'. split; [by apply (change_alike _ _ _ _ _ s1)|].
  rewrite <- (members_ext s s1 p (K p)); [done|by apply (al_ent q)|]. intros b _. by apply (al_con q).
Qed.

(** The id is in slot [i] of the block [b]. *)
Lemma wp_remove_here k1 b k2 i s1 :
  K p = k1 ++ b :: k2 -> c_entries (con s b) !! i = Some aid -> alike q s s1 ->
  wp q (let c := con s b in
        let c' := c_with_entries (<[i := PRBADID]> (c_entries c)) c in
        if forallb vacant (c_entries c') then
          (match last_co s k1 None with
           | None => ret tt
           | Some (hloc, h) => pr_WriteCoEntry hloc (c_with_next (c_next c) h)
           end) ;;
          FreeBlock b ;;
          let e := match last_co s k1 None with None => with_next (c_next c) e | Some _ => e end in
          or_code (pr_WriteEntry p (with_count (s32 (count e - 1)) e)) PRDBFAIL
        else
          pr_WriteCoEntry b c' ;;
          or_code (pr_WriteEntry p (with_count (s32 (count e - 1)) e)) PRDBFAIL) Q Er s1.
Proof using All.
  intros Ek Hi A. destruct (ok_in_ks E K F p s Hok Hp k1 b k2 Ek) as (Hb & Hbp & Hbal & Hal). cbv zeta.
  pose proof (aligned_low _ Hbal) as Hblow. pose proof p_low as Hplow. cbn [c_entries c_with_entries].
  assert (Hok1 : ok E K F s1) by by apply (ok_alike q E K F s).
  assert (Hcn : is_s32 (c_next (con s b))) by (pose proof (co_fields _ (con_ok s b)) as Hw; rewrite !Forall_cons in Hw; apply Hw).
  rewrite <- !(al_con _ _ _ b A), <- (al_ent _ _ _ p A) in *.
  destruct (forallb vacant _) eqn:Ev.
  - assert (Hempty : Forall (fun x => vacant x = true) (<[i := PRBADID]> (c_entries (con s1 b)))).
    { apply Forall_forall. intros x Hx%list_elem_of_In. rewrite forallb_forall in Ev. by apply Ev. }
    assert (Hrest : forall s2, good q s2 -> unlinked q s1 k1 b s2 -> wp q
       (FreeBlock b ;;
        let e := match last k1 with None => with_next (c_next (con s1 b)) (with_removeTime (u32 t) (ent s1 p)) | Some _ => with_removeTime (u32 t) (ent s1 p) end in
        or_code (pr_WriteEntry p (with_count (s32 (count e - 1)) e)) PRDBFAIL) Q Er s2).
    { intros s2 Hg2 Hun. apply pt_bind, wp_FreeBlock; [done|done| |].
      - pose proof (head_s32 _ _ _ _ Hok1) as Hh. unfold unlinked in Hun.
        destruct (last k1); [by rewrite (wr_head _ _ _ _ (proj1 Hun))|by subst s2].
      - intros s3 s4 W3 W4 E4. apply wp_or_code, wp_WriteEntry; [apply W4|done| |].
        + assert (entry_ok (ent s1 p)) by (apply (ent_ok q), A). destruct (last k1); eauto 6 with ptw.
        + intros s' W5 E5. apply HQ, (leaves_alike s1); [done|].
          apply (remove_block q E K F p aid s1 Hok1 Hp Ha k1 b k2 Ek i Hi t s2 s3 s4); try done.
          rewrite E5. unfold unlinking, uncounted. by destruct (last k1). }
    unfold last_co. unfold unlinked in Hrest. apply pt_bind. destruct (last k1) as [h|] eqn:El.
    + destruct (gone_last E K F p s Hok Hp k1 b k2 Ek h El) as (_ & H2 & _ & _ & H3).
      apply wp_WriteCo; [apply A|by apply aligned_low|apply co_next; [done|apply con_ok]|].
      intros s2 W2 E2. apply Hrest; [apply W2|]. split; [done|]. rewrite E2. by rewrite (al_con _ _ _ h A).
    + apply pt_ret, Hrest; [apply A|done].
  - assert (Hleft : exists x, x ∈ <[i := PRBADID]> (c_entries (con s1 b)) /\ vacant x = false) by by apply not_all_vacant.
    apply pt_bind, wp_WriteCo; [apply A|done|apply co_set; [done|apply con_ok]|]. intros s2 W2 E2.
    apply wp_or_code, wp_WriteEntry; [apply W2|done| |].
    + assert (entry_ok (ent s1 p)) by (apply (ent_ok q), A). eauto 6 with ptw.
    + intros s' W3 E3. apply HQ, (leaves_alike s1); [done|].
      by apply (remove_cont q E K F p aid s1 Hok1 Hp Ha k1 b k2 Ek i Hi t s2).
Qed.

Lemma wp_remove_walk n k1 rest nptr s1 :
  K p = k1 ++ rest -> chain (fun b => c_next (con s b)) nptr rest -> (length rest <= n)%nat ->
  (aid ∉ entries (ent s p) ++ cslots s k1) -> alike q s s1 ->
  wp q (remove_walk n nptr aid (id (ent s p)) p e (last_co s k1 None)) Q Er s1.
Proof using All.
  pose proof (ok_lists _ _ _ _ Hok p Hp) as L. pose proof (proj1 (vacant_false _) Ha) as [Ha0 _].
  assert (Habs : (aid ∉ slots s p (K p)) -> aid ∉ members s p (K p)) by (intros H [? _]%elem_of_real; done).
  revert k1 rest nptr s1. induction n as [|n IH]; intros k1 rest nptr s1 Ek Hc Hn Hpre A; destruct rest as [|b rest]; cbn [chain] in Hc.
  1, 3: subst nptr; cbn [remove_walk Z.eqb]; apply wp_fail, HN; [done|]; apply Habs; by rewrite Ek, app_nil_r.
  { cbn [length] in Hn. lia. }
  destruct Hc as (-> & Hb0 & Hc). cbn [remove_walk]. rewrite (proj2 (Z.eqb_neq b 0) Hb0).
  assert (Hb : b ∈ K p) by (rewrite Ek; apply elem_of_app; right; left).
  destruct (li_blocks _ _ _ L b Hb) as (B1 & B2 & _). pose proof (li_tailed _ _ _ L) as Ht. rewrite (split_slots K p s k1 b rest Ek) in Ht, Habs.
  apply pt_bind, wp_ReadCo; [apply A|]. intros s2 A2. rewrite (al_con _ _ _ b A).
  assert (A' : alike q s s2) by by apply (alike_trans _ _ s1).
  rewrite B1, B2, Z.eqb_refl. cbn [negb orb].
  destruct (find_slot (c_entries (con s b)) 0 aid) as [[i|]|] eqn:Ef.
  - apply find_slot_some in Ef as (k & -> & Hk). by apply (wp_remove_here k1 b rest k s2).
  - apply find_slot_pass in Ef as [Hnb _].
    replace (Some (b, con s b)) with (last_co s (k1 ++ [b]) None) by (unfold last_co; by rewrite last_snoc).
    apply (IH _ rest); [by rewrite <- app_assoc|done|cbn [length] in Hn; lia| |done].
    rewrite map_app, concat_app. cbn [map concat]. rewrite app_nil_r, app_assoc. by apply not_elem_of_app.
  - destruct (tailed_app _ _ Ht) as [_ Ht2]. destruct (tailed_app _ _ Ht2) as [Ht3 _].
    destruct (find_slot_absent _ _ _ Ha0 Ht3 Ef) as [Hnb H0]. apply wp_fail, HN; [done|]. apply Habs.
    intros [?|[?|Hin]%elem_of_app]%elem_of_app; [done|done|]. apply Ha0, (tailed_zero _ _ _ Ht2 H0 Hin).
Qed.

End Walk.

Lemma wp_RemoveFromEntry fuel q E K F p aid (Q : unit -> ptdb -> Prop) Er s :
  good q s -> ok E K F s -> enough fuel s -> p ∈ E -> is_s32 (id (ent s p)) -> vacant aid = false ->
  (aid = id (ent s p) -> Er PRINCONSISTENT s) ->
  (forall s', alike q s s' -> aid <> id (ent s p) -> (aid ∉ members s p (K p)) -> Er PRNOENT s') ->
  (forall s', aid <> id (ent s p) -> leaves q E K p aid s s' -> Q tt s') ->
  wp q (RemoveFromEntry fuel aid (id (ent s p))) Q Er s.
Proof.
  intros Hg Hok Hfuel Hp Hs Ha HI HN HQ. unfold RemoveFromEntry.
  destruct (Z.eqb_spec aid (id (ent s p))) as [Ei|Hself]; [by apply wp_fail, HI|].
  apply pt_bind, (wp_FindByID _ _ E K F); [done|done|done|done| | |].
  - intros s1 A Hno. by destruct (Hno p Hp).
  - intros p' s1 A Hp' Ei. assert (p' = p) as -> by by apply (ok_unique _ _ _ _ Hok).
    pose proof (ok_block_low _ _ _ _ _ Hok (ok_entry _ _ _ _ _ Hok Hp)) as (Hlow & Hp0 & _).
    rewrite (proj2 (Z.eqb_neq p 0) Hp0). pose proof (ok_lists _ _ _ _ Hok p Hp) as L. pose proof (proj1 (vacant_false _) Ha) as [Ha0 _].
    apply pt_bind, wp_ReadEntry; [apply A|]. intros s2 A2. rewrite (al_ent _ _ _ p A). assert (A' : alike q s s2) by by apply (alike_trans _ _ s1).
    apply pt_bind, pt_get. cbv zeta. cbn [entries with_removeTime next].
    pose proof (li_tailed _ _ _ L) as Ht. unfold slots in Ht. destruct (tailed_app _ _ Ht) as [Ht1 _].
    destruct (find_slot (entries (ent s p)) 0 aid) as [[i|]|] eqn:Ef.
    + apply find_slot_some in Ef as (k & -> & Hk). apply wp_WriteEntry; [apply A'|done| |].
      * apply (eo_set (0 + k) PRBADID (uncounted p s (now s2))); [done|]. unfold uncounted. eauto with ptw.
      * intros s' W Ee. apply HQ; [done|]. apply (remove_first q E K F p aid s Hok Hp Ha k (now s2)); [done| |exact Ee].
        by apply (wrote_alike _ _ _ s2).
    + apply find_slot_pass in Ef as [Hn _]. apply (wp_remove_walk q E K F p aid (now s2) s Hg Hok Hp Ha Q Er) with (k1 := []) (rest := K p); try done.
      * intros s' A3 Hm. by apply HN.
      * intros s' Hl. by apply HQ.
      * apply L.
      * by apply (conts_fit _ E K F s).
      * cbn. by rewrite app_nil_r.
    + destruct (find_slot_absent _ _ _ Ha0 Ht1 Ef) as [Hnb H0]. apply wp_fail, HN; [done|done|].
      intros [[?|Hin]%elem_of_app _]%elem_of_real; [done|]. apply Ha0, (tailed_zero _ _ _ Ht H0 Hin).
  - intros Hq s1 A. left. split; [done|apply A].
Qed.
