(* ===== verification/PtRead.v ===== *)
(** * The protection database: who is a member, and lists of members

    [IsAMemberOf] finds the id exactly when it is a member, and [GetList] returns the
    members in order. *)

From stdpp Require Import prelude list gmap sorting.
From Stdlib Require Import ZArith Lia ZifyBool.
From S2P Require Import Prelude ByteMem Pt PtBlock PtOk PtList PtStep PtFrame.

#[local] Open Scope Z_scope.
#[local] Open Scope pt_scope.

(** ** Slots *)

Lemma member_first_spec l aid : vacant aid = false -> tailed l ->
  match member_first l aid with
  | Some true => aid ∈ l
  | Some false => (aid ∉ l) /\ 0 ∉ l
  | None => (aid ∉ l) /\ 0 ∈ l
  end.
Proof.
  intros [Ha Hb]%vacant_false. induction l as [|x l IH]; intros Ht; cbn [member_first]; [split; apply not_elem_of_nil|].
  destruct (tailed_cons _ _ Ht) as [Ht' Hz]. specialize (IH Ht').
  destruct (Z.eqb_spec x 0) as [E0|H0].
  - rewrite not_elem_of_cons, elem_of_cons. split; [|by left]. split; [congruence|]. intros Hin. by apply Ha, Hz.
  - destruct (Z.eqb_spec x aid) as [E1|Hne]; [rewrite elem_of_cons; by left|].
    destruct (member_first l aid) as [[]|]; [apply elem_of_cons; by right|..]; destruct IH as [H1 H2];
      rewrite !not_elem_of_cons, ?elem_of_cons; auto.
Qed.
Lemma member_co_first l aid : aid <> 0 -> member_co l aid = member_first l aid.
Proof.
  intros Ha. induction l as [|x l IH]; [done|]. cbn. rewrite IH. destruct (Z.eqb_spec x aid), (Z.eqb_spec x 0); done || congruence.
Qed.

Lemma collect_real l : tailed l -> collect l = real l.
Proof.
  induction l as [|x l IH]; intros Ht; [done|]. destruct (tailed_cons _ _ Ht) as [Ht' Hz]. cbn [collect]. unfold real in *. rewrite filter_cons.
  destruct (Z.eqb_spec x PRBADID) as [->|Hb]; [rewrite decide_False by done; by apply IH|].
  destruct (Z.eqb_spec x 0) as [->|H0].
  - rewrite decide_False by done. symmetry. apply (real_vacant l). apply Forall_forall. intros y Hy. by rewrite (Hz eq_refl y Hy).
  - rewrite decide_True by (by apply vacant_false). f_equal. by apply IH.
Qed.

(** ** Walks *)

Lemma wp_member_walk q n aid ks nptr (Q : bool -> ptdb -> Prop) Er s :
  good q s -> chain (fun b => c_next (con s b)) nptr ks -> (length ks <= n)%nat -> vacant aid = false -> tailed (cslots s ks) ->
  (forall r s', alike q s s' -> (r = true -> aid ∈ cslots s ks) -> (r = false -> (aid ∉ cslots s ks) \/ q) -> Q r s') ->
  wp q (member_walk n nptr aid) Q Er s.
Proof.
  revert nptr ks s. induction n as [|n IH]; intros nptr ks s Hg Hc Hn Ha Ht HQ; destruct ks as [|b ks]; cbn [chain] in Hc.
  1, 3: subst nptr; cbn [member_walk Z.eqb]; apply pt_ret, HQ; [by apply alike_refl|done|intros _; left; apply not_elem_of_nil].
  { cbn [length] in Hn. lia. }
  destruct Hc as (-> & Hb & Hc). cbn [member_walk]. rewrite (proj2 (Z.eqb_neq b 0) Hb). cbn [map concat] in *.
  destruct (tailed_app _ _ Ht) as [Ht1 Ht2].
  apply pt_bind, wp_try_ubik; [done| |intros Hq s' A; apply pt_ret, HQ; [done|done|by right]].
  intros s' A. rewrite <- con_eq, member_co_first by (by apply vacant_false in Ha as [? _]).
  pose proof (member_first_spec _ aid Ha Ht1) as Hm. destruct (member_first _ _) as [[]|].
  - apply pt_ret, HQ; [done| |done]. intros _. apply elem_of_app. by left.
  - pose proof (cslots_alike _ _ _ ks A) as Ec. apply (IH _ ks).
    + apply A.
    + revert Hc. apply chain_ext. intros x _. by rewrite (al_con _ _ _ _ A).
    + cbn [length] in Hn. lia.
    + done.
    + by rewrite Ec.
    + rewrite Ec. intros r s2 A2 H1 H2. apply HQ; [by apply (alike_trans _ _ s')| |].
      * intros Hr. apply elem_of_app. right. by apply H1.
      * intros Hr. destruct (H2 Hr); [left|by right]. apply not_elem_of_app. tauto.
  - apply pt_ret, HQ; [done|done|]. intros _. left. destruct Hm as [H1 H2]. intros [?|Hin]%elem_of_app; [done|].
    apply vacant_false in Ha as [Ha _]. apply Ha, (tailed_zero _ _ _ Ht H2 Hin).
Qed.

Lemma wp_collect_walk q n ks nptr acc (Q : list Z -> ptdb -> Prop) Er s :
  good q s -> chain (fun b => c_next (con s b)) nptr ks -> (length ks <= n)%nat -> tailed (cslots s ks) ->
  (forall s', alike q s s' -> Q (acc ++ real (cslots s ks)) s') ->
  wp q (collect_walk n nptr acc) Q Er s.
Proof.
  revert nptr ks acc s. induction n as [|n IH]; intros nptr ks acc s Hg Hc Hn Ht HQ; destruct ks as [|b ks]; cbn [chain] in Hc.
  1, 3: subst nptr; cbn [collect_walk Z.eqb]; apply pt_ret; specialize (HQ s); cbn [map concat] in HQ; rewrite app_nil_r in HQ; apply HQ; by apply alike_refl.
  { cbn [length] in Hn. lia. }
  destruct Hc as (-> & Hb & Hc). cbn [collect_walk]. rewrite (proj2 (Z.eqb_neq b 0) Hb). cbn [map concat] in *.
  destruct (tailed_app _ _ Ht) as [Ht1 Ht2]. apply pt_bind, wp_ReadCo; [done|]. intros s' A.
  pose proof (cslots_alike _ _ _ ks A) as Ec. apply (IH _ ks).
  - apply A.
  - revert Hc. apply chain_ext. intros x _. by rewrite (al_con _ _ _ _ A).
  - cbn [length] in Hn. lia.
  - by rewrite Ec.
  - rewrite Ec. intros s2 A2. rewrite collect_real, <- app_assoc, <- real_app by done. apply HQ. by apply (alike_trans _ _ s').
Qed.

(** ** Membership *)

(** [aid] is in the list of the group [gid]. *)
Definition enrolled (E : gset Z) (K : Z -> list Z) (s : ptdb) (aid gid : Z) : Prop :=
  exists g, g ∈ E /\ id (ent s g) = gid /\ has (flags (ent s g)) PRGRP = true /\ aid ∈ members s g (K g).

(** Groups that everybody, or everybody who is known, or the administrator is in. *)
Definition by_rule (aid gid : Z) : bool :=
  (gid =? ANYUSERID) || ((gid =? AUTHUSERID) && negb (aid =? ANONYMOUSID)) || ((gid =? SYSADMINID) && (aid =? SYSADMINID)).

Lemma wp_IsAMemberOf fuel q E K F aid gid (Q : bool -> ptdb -> Prop) Er s :
  good q s -> ok E K F s -> enough fuel s -> is_s32 gid -> aid <> PRBADID ->
  (forall r s', alike q s s' -> (r = true -> by_rule aid gid = true \/ enrolled E K s aid gid) ->
     (r = false -> by_rule aid gid = false /\ ~ enrolled E K s aid gid \/ q) -> Q r s') ->
  wp q (IsAMemberOf fuel aid gid) Q Er s.
Proof.
  intros Hg Hok Hf Hs Hb HQ. unfold IsAMemberOf.
  assert (Hr : by_rule aid gid = true -> wp q (ret true) Q Er s) by (intros; apply pt_ret, HQ; [by apply alike_refl|by left|done]).
  destruct (gid =? ANYUSERID) eqn:G1; [apply Hr; unfold by_rule; by rewrite G1|].
  destruct ((gid =? AUTHUSERID) && _) eqn:G2; [apply Hr; unfold by_rule; by rewrite G1, G2|].
  destruct ((gid =? SYSADMINID) && _) eqn:G3; [apply Hr; unfold by_rule; by rewrite G1, G2, G3|].
  assert (Hbr : by_rule aid gid = false) by (unfold by_rule; by rewrite G1, G2, G3). clear Hr G1 G2 G3.
  assert (Hno : forall s', alike q s s' -> ~ enrolled E K s aid gid \/ q -> Q false s').
  { intros s' A H. apply HQ; [done|done|]. intros _. tauto. }
  destruct ((gid =? 0) || (aid =? 0)) eqn:Ez.
  { apply pt_ret, Hno; [by apply alike_refl|left]. intros (g & Hg1 & Hg2 & _ & Hm). apply orb_true_iff in Ez as [?|?].
    - destruct (ok_ids _ _ _ _ Hok g Hg1). lia.
    - apply elem_of_real in Hm as [_ [? _]%vacant_false]. lia. }
  assert (Ha : vacant aid = false) by (apply vacant_false; lia).
  apply pt_bind, (wp_FindByID _ _ E K F); try done.
  - intros s1 A Hn. apply pt_ret, Hno; [done|left]. intros (g & Hg1 & Hg2 & _). by apply (Hn g).
  - intros g s1 A Hg1 Hg2. pose proof (ok_block_low _ _ _ _ _ Hok (ok_entry _ _ _ _ _ Hok Hg1)) as (_ & Hp0 & _).
    rewrite (proj2 (Z.eqb_neq g 0) Hp0). apply pt_bind, wp_try_ubik; [apply A| |intros Hq s2 A2; apply pt_ret, Hno; [by apply (alike_trans _ _ s1)|by right]].
    intros s2 A2. rewrite <- ent_eq, (al_ent _ _ _ g A). assert (A' : alike q s s2) by by apply (alike_trans _ _ s1).
    assert (Huniq : enrolled E K s aid gid -> has (flags (ent s g)) PRGRP = true /\ aid ∈ members s g (K g)).
    { intros (g' & H1 & H2 & H3 & H4). assert (g' = g) as -> by (apply (ok_unique _ _ _ _ Hok); congruence). done. }
    destruct (has (flags (ent s g)) PRGRP) eqn:Egr; cbn [negb]; [|apply pt_ret, Hno; [done|left; intros [? _]%Huniq; done]].
    pose proof (ok_lists _ _ _ _ Hok g Hg1) as L. pose proof (li_tailed _ _ _ L) as Ht. unfold slots in Ht. destruct (tailed_app _ _ Ht) as [Ht1 Ht2].
    assert (Hin : aid ∈ slots s g (K g) -> enrolled E K s aid gid) by (intros H; exists g; repeat split; try done; by apply elem_of_real).
    assert (Hout : (aid ∉ slots s g (K g)) -> ~ enrolled E K s aid gid) by (intros H [_ [? _]%elem_of_real]%Huniq; done).
    unfold slots in Hin, Hout.
    pose proof (member_first_spec _ aid Ha Ht1) as Hm. destruct (member_first _ _) as [[]|].
    + apply pt_ret, HQ; [done| |done]. intros _. right. apply Hin, elem_of_app. by left.
    + apply (wp_member_walk _ _ _ (K g)).
      * apply A'.
      * pose proof (li_chain _ _ _ L) as C. revert C. apply chain_ext. intros x _. by rewrite (al_con _ _ _ _ A').
      * by apply (conts_fit _ E K F s).
      * done.
      * by rewrite (cslots_alike _ _ _ (K g) A').
      * rewrite (cslots_alike _ _ _ (K g) A'). intros r s3 A3 H1 H2. apply HQ; [by apply (alike_trans _ _ s2)| |].
        -- intros Er'. right. apply Hin, elem_of_app. right. by apply H1.
        -- intros Er'. destruct (H2 Er'); [left|by right]. split; [done|]. apply Hout, not_elem_of_app. tauto.
    + apply pt_ret, Hno; [done|left]. destruct Hm as [H1 H2]. apply Hout. intros [?|Hx]%elem_of_app; [done|].
      apply vacant_false in Ha as [Ha _]. apply Ha, (tailed_zero _ _ _ Ht H2 Hx).
  - intros Hq s1 A. apply pt_ret, Hno; [done|by right].
Qed.

(** ** Lists *)

(** What everybody is in besides. *)
Definition extras (e : prentry) : list Z :=
  if negb (id e =? ANONYMOUSID) && negb (id e =? ANYUSERID) then [ANYUSERID] ++ AddAuthGroup e ++ [id e] else [ANYUSERID; id e].

Lemma wp_GetList fuel q E K F p (add : bool) (Q : list Z -> ptdb -> Prop) Er s :
  good q s -> ok E K F s -> enough fuel s -> p ∈ E ->
  (forall s', alike q s s' -> Q (merge_sort IDCmp (members s p (K p) ++ if add then extras (ent s p) else [])) s') ->
  wp q (GetList fuel (ent s p) add) Q Er s.
Proof.
  intros Hg Hok Hf Hp HQ. unfold GetList. pose proof (ok_lists _ _ _ _ Hok p Hp) as L. pose proof (li_tailed _ _ _ L) as Ht.
  unfold slots in Ht. destruct (tailed_app _ _ Ht) as [Ht1 Ht2].
  apply pt_bind, (wp_collect_walk _ _ (K p)); [done|apply L|by apply (conts_fit _ E K F s)|done|].
  intros s' A. cbv zeta. apply pt_ret. rewrite collect_real, <- real_app by done. fold (slots s p (K p)). fold (members s p (K p)).
  specialize (HQ s' A). unfold extras in HQ. destruct add; [|by rewrite app_nil_r in HQ]. by destruct (_ && _).
Qed.
