(* ===== verification/PtSpec.v ===== *)
(** * The protection database: the abstract database and the rules of access

    What clients see: who there is, and who is in which group.  [allowed] is the rule of
    access over the abstract database; [AccessOK] decides it. *)

From stdpp Require Import prelude list gmap sorting.
From Stdlib Require Import ZArith Lia ZifyBool.
From S2P Require Import Prelude ByteMem Pt PtBlock PtOk PtList PtStep PtFrame PtNames PtRead.

#[local] Open Scope Z_scope.
#[local] Open Scope pt_scope.

Record person := mkPerson {
  p_flags : Z;
  p_owner : Z;
  p_creator : Z;
  p_ngroups : Z;                (* groups that may still be created *)
  p_nusers : Z;
  p_cellid : Z;
  p_name : list Z
}.
Definition person_of (e : prentry) : person :=
  mkPerson (flags e) (owner e) (creator e) (ngroups e) (nusers e) (cellid e) (cstr (name e)).
Definition is_group (x : person) : bool := has (p_flags x) PRGRP.

Record adb := mkAdb {
  people : gmap Z person;
  enrol : gset (Z * Z);         (* user and group *)
  maxID : Z;
  maxGroup : Z
}.

(** Membership is recorded on both sides. *)
Record shows (D : adb) (E : gset Z) (K : Z -> list Z) (s : ptdb) : Prop := {
  sh_people : forall i x, people D !! i = Some x <-> exists p, p ∈ E /\ id (ent s p) = i /\ person_of (ent s p) = x;
  sh_groups : forall u g, (u, g) ∈ enrol D <->
    exists p, p ∈ E /\ id (ent s p) = g /\ has (flags (ent s p)) PRGRP = true /\ u ∈ members s p (K p);
  sh_users : forall u g, (u, g) ∈ enrol D <->
    exists p, p ∈ E /\ id (ent s p) = u /\ has (flags (ent s p)) PRGRP = false /\ g ∈ members s p (K p);
  sh_max : cheader s w_maxID = maxID D /\ cheader s w_maxGroup = maxGroup D
}.
Record reps (D : adb) (E : gset Z) (K : Z -> list Z) (F : list Z) (s : ptdb) : Prop := {
  rp_ok : ok E K F s;
  rp_shows : shows D E K s;
  rp_names : names E s;
  rp_owners : owners E s
}.
Definition models (D : adb) (s : ptdb) : Prop := exists E K F, reps D E K F s.

(** ** The rules *)

Definition member (D : adb) (aid gid : Z) : bool := by_rule aid gid || bool_decide ((aid, gid) ∈ enrol D).

Definition rights (cf : config) (x : person) : Z :=
  if has (p_flags x) PRACCESS then p_flags x
  else Z.lor (p_flags x) (if is_group x then prp_group_default cf else prp_user_default cf).

(** May the caller [cid] do to [x], whose id is [i], what the bits [any] allow to
    everybody and the bits [mem] to the members of a group? *)
Definition allowed (cf : config) (D : adb) (cid i : Z) (x : person) (mem any : Z) : bool :=
  let admin := member D cid SYSADMINID in
  let changes := (mem =? PRP_ADD_MEM) || (mem =? PRP_REMOVE_MEM) || (mem =? 0) && (any =? 0) in
  pr_noAuth cf || (cid =? SYSADMINID)
  || negb (restricted cf && negb admin && changes)
     && (has (rights cf x) any
         || (negb (p_owner x =? 0) && ((cid =? p_owner x) || member D cid (p_owner x)))
         || (if 0 <? i then i =? cid else (i <? 0) && has (rights cf x) mem && member D cid i)
         || (((mem =? PRP_STATUS_MEM) || (mem =? PRP_MEMBER_MEM) || (any =? PRP_OWNED_ANY)) && member D cid SYSVIEWERID)
         || admin).

(** ** Answers

    The answer is right, or something failed and the answer is no. *)

Definition told (q : Prop) (r P : bool) : Prop := r = P \/ q /\ r = false.
Definition answers (q : Prop) (m : M bool) (P : bool) (s : ptdb) : Prop :=
  forall Q Er, (forall r s', alike q s s' -> told q r P -> Q r s') -> wp q m Q Er s.

Lemma answers_ret q b s : good q s -> answers q (ret b) b s.
Proof. intros Hg Q Er HQ. apply pt_ret, HQ; [by apply alike_refl|by left]. Qed.

Lemma answers_or q a b P1 P2 s :
  answers q a P1 s -> (forall s', alike q s s' -> answers q b P2 s') -> answers q (or_else a b) (P1 || P2) s.
Proof.
  intros Ha Hb Q Er HQ. unfold or_else. apply pt_bind, Ha. intros r s1 A1 T1. destruct r.
  - apply pt_ret, HQ; [done|]. destruct T1 as [<-|[_ ?]]; [by left|done].
  - apply Hb; [done|]. intros r s2 A2 T2. apply HQ; [by apply (alike_trans _ _ s1)|].
    destruct T1 as [<-|[Hq _]]; [done|]. destruct T2 as [->|[_ ->]]; [|by right]. destruct P2; [|by right]. left. by rewrite orb_true_r.
Qed.
Lemma answers_if q (c : bool) a P s : good q s -> (c = true -> answers q a P s) -> answers q (if c then a else ret false) (c && P) s.
Proof. intros Hg H. destruct c; [by apply H|by apply answers_ret]. Qed.
Lemma answers_ext q a P P' s : answers q a P s -> P = P' -> answers q a P' s.
Proof. by intros H ->. Qed.

Section Access.
Context (fuel : nat) (q : Prop) (D : adb) (E : gset Z) (K : Z -> list Z) (F : list Z) (s0 : ptdb).
Context (Hok : ok E K F s0) (Hsh : shows D E K s0) (Hf : enough fuel s0).

Lemma good_now s : good q s0 -> alike q s0 s -> ok E K F s /\ shows D E K s /\ enough fuel s /\ good q s.
Proof using Hok Hsh Hf.
  intros Hg A. split; [by apply (ok_alike q E K F s0)|]. split; [|split; [unfold enough, eof in *; by rewrite (al_head _ _ _ A)|apply A]].
  assert (Em : forall p, members s p (K p) = members s0 p (K p)) by (intros p; apply members_ext; [by apply (al_ent q)|intros b _; by apply (al_con q)]).
  destruct Hsh as [S1 S2 S3 S4]. split; [..|by rewrite (al_head _ _ _ A)].
  - intros i x. rewrite S1. split; intros (p & H1 & H2 & H3); exists p; by rewrite (al_ent _ _ _ p A) in *.
  - intros u g. rewrite S2. split; intros (p & H1 & H2 & H3); exists p; by rewrite (al_ent _ _ _ p A), Em in *.
  - intros u g. rewrite S3. split; intros (p & H1 & H2 & H3); exists p; by rewrite (al_ent _ _ _ p A), Em in *.
Qed.

Lemma answers_later aid gid s : good q s0 -> alike q s0 s -> is_s32 gid -> aid <> PRBADID -> answers q (IsAMemberOf fuel aid gid) (member D aid gid) s.
Proof using Hok Hsh Hf.
  intros Hg A Hs Hb. destruct (good_now s Hg A) as (H1 & H2 & H3 & H4).
  intros Q Er HQ. apply (wp_IsAMemberOf _ _ E K F); try done. intros r s' A' H5 H6. apply HQ; [done|].
  assert (Hen : enrolled E K s aid gid <-> (aid, gid) ∈ enrol D) by by rewrite (sh_groups _ _ _ _ H2).
  unfold told, member. destruct r.
  - left. destruct (H5 eq_refl) as [->|He%Hen]; [done|]. rewrite bool_decide_true by done. by rewrite orb_true_r.
  - destruct (H6 eq_refl) as [[-> Hn]|?]; [left|by right]. symmetry. apply bool_decide_false. by rewrite <- Hen.
Qed.

Lemma answers_AccessOK cf cid e mem any s :
  good q s0 -> alike q s0 s -> is_s32 (owner e) -> is_s32 (id e) -> cid <> PRBADID ->
  answers q (AccessOK fuel cf cid (Some e) mem any) (allowed cf D cid (id e) (person_of e) mem any) s.
Proof using Hok Hsh Hf.
  intros Hg0 A0 Ho Hi Hc. unfold AccessOK, allowed, rights, is_group. cbv zeta. cbn [p_flags p_owner person_of].
  assert (Hg : good q s) by apply A0.
  assert (HM : forall s1 gid, alike q s s1 -> is_s32 gid -> answers q (IsAMemberOf fuel cid gid) (member D cid gid) s1).
  { intros s1 gid A1 Hs. apply answers_later; try done. by apply (alike_trans _ _ s). }
  destruct (pr_noAuth cf); [by apply answers_ret|]. destruct (cid =? SYSADMINID); [by apply answers_ret|]. cbn [orb].
  set (changes := (mem =? PRP_ADD_MEM) || (mem =? PRP_REMOVE_MEM) || (mem =? 0) && (any =? 0)).
  set (fl := if has (flags e) PRACCESS then flags e else _).
  set (granted := has fl any || _ || _ || _ || _).
  assert (HG : forall s1, alike q s s1 -> answers q
    (if has fl any then ret true
     else or_else (if negb (owner e =? 0) then (if cid =? owner e then ret true else IsAMemberOf fuel cid (owner e)) else ret false)
       (or_else (if 0 <? id e then ret (id e =? cid)
                 else if id e <? 0 then (if has fl mem then IsAMemberOf fuel cid (id e) else ret false) else ret false)
       (or_else (if (mem =? PRP_STATUS_MEM) || (mem =? PRP_MEMBER_MEM) || (any =? PRP_OWNED_ANY)
                 then IsAMemberOf fuel cid SYSVIEWERID else ret false)
       (IsAMemberOf fuel cid SYSADMINID)))) granted s1).
  { intros s1 A1. assert (Hg1 : good q s1) by apply A1. subst granted. destruct (has fl any); [by apply answers_ret|]. cbn [orb].
    rewrite <- !orb_assoc. apply answers_or; [|intros s2 A2; apply answers_or; [|intros s3 A3; apply answers_or; [|intros s4 A4]]].
    - apply answers_if; [done|]. intros _. destruct (cid =? owner e); [by apply answers_ret|by apply HM].
    - assert (Hg2 : good q s2) by apply A2. destruct (Z.ltb_spec 0 (id e)) as [H1|H1].
      + by apply answers_ret.
      + rewrite <- andb_assoc. apply answers_if; [done|]. intros _. apply answers_if; [done|]. intros _. apply HM; [by apply (alike_trans _ _ s1)|done].
    - apply answers_if; [apply A3|]. intros _. apply HM; [|done]. apply (alike_trans _ _ s2); [|done]. by apply (alike_trans _ _ s1).
    - apply HM; [|done]. apply (alike_trans _ _ s3); [|done]. apply (alike_trans _ _ s2); [|done]. by apply (alike_trans _ _ s1). }
  clearbody granted. intros Q Er HQ. apply pt_bind. destruct (restricted cf); cbn [andb negb] in HQ |- *.
  2: { apply pt_ret, HG; [by apply alike_refl|done]. }
  apply pt_bind, HM; [by apply alike_refl|done|]. intros adm s1 A1 T1. apply pt_ret. fold changes.
  destruct (negb adm && changes) eqn:Ec.
  - apply pt_ret, HQ; [done|]. destruct T1 as [Et|[Hq _]]; [|by right]. left. rewrite Et in Ec. by rewrite Ec.
  - apply HG; [done|]. intros r s2 A2 T2. apply HQ; [by apply (alike_trans _ _ s1)|].
    replace (negb (negb (member D cid SYSADMINID) && changes)) with true; [done|].
    destruct T1 as [<-|[_ ->]]; [by rewrite Ec|]. cbn [negb andb] in Ec. rewrite Ec. by rewrite andb_false_r.
Qed.
End Access.
