(* ===== verification/PtServe.v ===== *)
(** * The protection database: the handlers for members

    Each handler does to the database what its abstract counterpart does. *)

From stdpp Require Import prelude list gmap sorting.
From Stdlib Require Import ZArith Lia ZifyBool.
From S2P Require Import Prelude ByteMem Pt PtBlock PtOk PtList PtStep PtFrame PtNames PtAdd PtRemove PtRead PtSpec.

#[local] Open Scope Z_scope.
#[local] Open Scope pt_scope.

(** ** The abstract handlers: an error code, or the result *)

Definition with_enrol (R : gset (Z * Z)) (D : adb) : adb := mkAdb (people D) R (maxID D) (maxGroup D).

Definition a_add (cf : config) (cid aid gid : Z) (D : adb) : Z + adb :=
  if (gid =? ANYUSERID) || (gid =? AUTHUSERID) then inl PRPERM
  else if aid =? ANONYMOUSID then inl PRPERM
  else
    match people D !! aid with
    | None => inl PRNOENT
    | Some u =>
        if is_group u then inl PRNOTUSER
        else
          match people D !! gid with
          | None => inl PRNOENT
          | Some g =>
              if negb (is_group g) then inl PRNOTGROUP
              else if negb (allowed cf D cid gid g PRP_ADD_MEM PRP_ADD_ANY) then inl PRPERM
              else if decide ((aid, gid) ∈ enrol D) then inl PRIDEXIST
              else inr (with_enrol ({[(aid, gid)]} ∪ enrol D) D)
          end
    end.

Definition a_remove (cf : config) (cid aid gid : Z) (D : adb) : Z + adb :=
  match people D !! aid, people D !! gid with
  | Some u, Some g =>
      if negb (is_group g) then inl PRNOTGROUP
      else if is_group u then inl PRNOTUSER
      else if negb (allowed cf D cid gid g PRP_REMOVE_MEM 0) then inl PRPERM
      else if decide ((aid, gid) ∈ enrol D) then inr (with_enrol (enrol D ∖ {[(aid, gid)]}) D)
      else inl PRNOENT
  | _, _ => inl PRNOENT
  end.

(** The groups of a user or the users of a group. *)
Definition roster (D : adb) (aid : Z) (x : person) : list Z :=
  if is_group x then (filter (fun p => p.2 = aid) (elements (enrol D))).*1
  else (filter (fun p => p.1 = aid) (elements (enrol D))).*2.

(** The groups that a user is in by rule, and the user. *)
Definition a_extras (aid : Z) (x : person) : list Z :=
  if negb (aid =? ANONYMOUSID) && negb (aid =? ANYUSERID)
  then [ANYUSERID] ++ (if strchr 64 (p_name x) then [] else [AUTHUSERID]) ++ [aid]
  else [ANYUSERID; aid].

Definition a_list (cf : config) (cid aid : Z) (D : adb) : Z + list Z :=
  match people D !! aid with
  | None => inl PRNOENT
  | Some x =>
      if allowed cf D cid aid x PRP_MEMBER_MEM PRP_MEMBER_ANY then inr (merge_sort Z.le (roster D aid x)) else inl PRPERM
  end.
Definition a_cps (cf : config) (cid aid : Z) (D : adb) : Z + list Z :=
  if negb (pr_noAuth cf) && restrict_anonymous cf && (cid =? ANONYMOUSID) then inl PRPERM
  else
    match people D !! aid with
    | None => inl PRNOENT
    | Some x =>
        if allowed cf D cid aid x PRP_MEMBER_MEM PRP_MEMBER_ANY
        then inr (merge_sort Z.le (roster D aid x ++ a_extras aid x)) else inl PRPERM
    end.
Definition a_member (cf : config) (cid uid gid : Z) (D : adb) : Z + bool :=
  match people D !! uid, people D !! gid with
  | Some u, Some g =>
      if is_group u || negb (is_group g) then inl PRBADARG
      else if allowed cf D cid uid u 0 PRP_MEMBER_ANY || allowed cf D cid gid g PRP_MEMBER_MEM PRP_MEMBER_ANY
      then inr (member D uid gid) else inl PRPERM
  | _, _ => inl PRNOENT
  end.

(** ** Sorted lists *)

#[global] Instance IDCmp_total : Total IDCmp.
Proof. intros a b. unfold IDCmp. lia. Qed.
#[global] Instance IDCmp_trans : Transitive IDCmp.
Proof. intros a b c. unfold IDCmp. lia. Qed.

Lemma sort_unique l l' : l ≡ₚ l' -> merge_sort IDCmp l = merge_sort Z.le l'.
Proof.
  intros Hp. apply (Sorted_unique Z.le).
  - apply (Sorted_merge_sort IDCmp).
  - apply (Sorted_merge_sort Z.le).
  - by rewrite !merge_sort_Permutation.
Qed.

Lemma strchr_cstr c l : strchr c (cstr l) = strchr c l.
Proof. unfold strchr. by rewrite cstr_idem. Qed.
Lemma extras_of e : extras e = a_extras (id e) (person_of e).
Proof. unfold extras, a_extras, AddAuthGroup. cbn [p_name person_of]. by rewrite strchr_cstr. Qed.

(** ** The two sides *)

Lemma group_side D E K F s p u : ok E K F s -> shows D E K s -> p ∈ E -> has (flags (ent s p)) PRGRP = true ->
  u ∈ members s p (K p) <-> (u, id (ent s p)) ∈ enrol D.
Proof.
  intros Hok Hsh Hp Hg. rewrite (sh_groups _ _ _ _ Hsh). split; [intros; by exists p|].
  intros (p' & H1 & H2 & H3 & H4). by assert (p' = p) as -> by by apply (ok_unique _ _ _ _ Hok).
Qed.
Lemma user_side D E K F s p g : ok E K F s -> shows D E K s -> p ∈ E -> has (flags (ent s p)) PRGRP = false ->
  g ∈ members s p (K p) <-> (id (ent s p), g) ∈ enrol D.
Proof.
  intros Hok Hsh Hp Hg. rewrite (sh_users _ _ _ _ Hsh). split; [intros; by exists p|].
  intros (p' & H1 & H2 & H3 & H4). by assert (p' = p) as -> by by apply (ok_unique _ _ _ _ Hok).
Qed.

Lemma shows_enrol D E K s K' s' R :
  shows D E K s -> (forall e, e ∈ E -> core (ent s' e) = core (ent s e)) ->
  (forall e, e ∈ E -> has (flags (ent s e)) PRGRP = true -> forall u, u ∈ members s' e (K' e) <-> (u, id (ent s e)) ∈ R) ->
  (forall e, e ∈ E -> has (flags (ent s e)) PRGRP = false -> forall g, g ∈ members s' e (K' e) <-> (id (ent s e), g) ∈ R) ->
  (forall u g, (u, g) ∈ R -> (exists p, p ∈ E /\ id (ent s p) = g /\ has (flags (ent s p)) PRGRP = true)
     /\ exists p, p ∈ E /\ id (ent s p) = u /\ has (flags (ent s p)) PRGRP = false) ->
  (forall k, k <> w_freePtr -> k <> w_eofPtr -> cheader s' k = cheader s k) ->
  shows (with_enrol R D) E K' s'.
Proof.
  intros Hsh Hc Hgr Hus Hex Hwd.
  assert (Hcc : forall e, e ∈ E -> id (ent s' e) = id (ent s e) /\ flags (ent s' e) = flags (ent s e) /\ person_of (ent s' e) = person_of (ent s e)).
  { intros e He. specialize (Hc e He). split; [by apply core_id|]. split; [by apply core_flags|]. unfold person_of.
    rewrite (core_flags _ _ Hc), (core_owner _ _ Hc), (core_name _ _ Hc). by destruct (core_quota _ _ Hc) as (-> & -> & -> & ->). }
  split; cbn [with_enrol people enrol maxID maxGroup]; [..|rewrite !Hwd by done; apply Hsh].
  - intros i x. rewrite (sh_people _ _ _ _ Hsh). split; intros (p & H1 & H2 & H3); exists p; destruct (Hcc p H1) as (E1 & _ & E2); by rewrite ?E1, ?E2 in *.
  - intros u g. split.
    + intros HR. destruct (Hex _ _ HR) as [(p & H1 & H2 & H3) _]. exists p. destruct (Hcc p H1) as (-> & -> & _). repeat split; try done.
      apply Hgr; [done|done|]. by rewrite H2.
    + intros (p & H1 & H2 & H3 & H4). destruct (Hcc p H1) as (E1 & E2 & _). rewrite E1 in H2. rewrite E2 in H3. apply Hgr in H4; [|done|done]. by rewrite H2 in H4.
  - intros u g. split.
    + intros HR. destruct (Hex _ _ HR) as [_ (p & H1 & H2 & H3)]. exists p. destruct (Hcc p H1) as (-> & -> & _). repeat split; try done.
      apply Hus; [done|done|]. by rewrite H2.
    + intros (p & H1 & H2 & H3 & H4). destruct (Hcc p H1) as (E1 & E2 & _). rewrite E1 in H2. rewrite E2 in H3. apply Hus in H4; [|done|done]. by rewrite H2 in H4.
Qed.

Lemma roster_members D E K F s p : ok E K F s -> shows D E K s -> p ∈ E ->
  members s p (K p) ≡ₚ roster D (id (ent s p)) (person_of (ent s p)).
Proof.
  intros Hok Hsh Hp. unfold roster, is_group. cbn [p_flags person_of].
  pose proof (li_nodup _ _ _ (ok_lists _ _ _ _ Hok p Hp)) as Hnd.
  destruct (has (flags (ent s p)) PRGRP) eqn:Eg; apply NoDup_Permutation; try done.
  - apply NoDup_fmap_2_strong; [|apply NoDup_filter, NoDup_elements]. intros [a b] [a' b'] [H1 _]%list_elem_of_filter [H2 _]%list_elem_of_filter H3. cbn in *. congruence.
  - intros x. rewrite (group_side D E K F s), list_elem_of_fmap by done. split.
    + intros Hin. exists (x, id (ent s p)). split; [done|]. rewrite list_elem_of_filter, elem_of_elements. done.
    + intros ([a b] & -> & [H1 H2]%list_elem_of_filter). rewrite elem_of_elements in H2. cbn in *. by rewrite H1 in H2.
  - apply NoDup_fmap_2_strong; [|apply NoDup_filter, NoDup_elements]. intros [a b] [a' b'] [H1 _]%list_elem_of_filter [H2 _]%list_elem_of_filter H3. cbn in *. congruence.
  - intros x. rewrite (user_side D E K F s), list_elem_of_fmap by done. split.
    + intros Hin. exists (id (ent s p), x). split; [done|]. rewrite list_elem_of_filter, elem_of_elements. done.
    + intros ([a b] & -> & [H1 H2]%list_elem_of_filter). rewrite elem_of_elements in H2. cbn in *. by rewrite H1 in H2.
Qed.

Section Both.
Context (q : Prop) (D : adb) (E : gset Z) (K : Z -> list Z) (F : list Z) (s : ptdb) (pu pg : Z).
Context (Hok : ok E K F s) (Hsh : shows D E K s) (Hu : pu ∈ E) (Hg : pg ∈ E).
Context (Hgu : has (flags (ent s pu)) PRGRP = false) (Hgg : has (flags (ent s pg)) PRGRP = true).
Context (K1 : Z -> list Z) (F1 : list Z) (s1 : ptdb) (K2 : Z -> list Z) (F2 : list Z) (s2 : ptdb).
Context (C1 : change q E K pg s K1 F1 s1) (C2 : change q E K1 pu s1 K2 F2 s2).
#[local] Abbreviation uid := (id (ent s pu)).
#[local] Abbreviation gid := (id (ent s pg)).

Lemma pu_pg : pu <> pg.
Proof using Hgu Hgg. intros Ee. pose proof Hgg as H. rewrite <- Ee, Hgu in H. discriminate H. Qed.
Lemma both_core e : e ∈ E -> core (ent s2 e) = core (ent s e).
Proof using C1 C2. intros He. by rewrite (cg_core _ _ _ _ _ _ _ _ C2 e He), (cg_core _ _ _ _ _ _ _ _ C1 e He). Qed.
Lemma both_members e : e ∈ E -> e <> pu -> e <> pg -> members s2 e (K2 e) = members s e (K e).
Proof using C1 C2.
  intros He H1 H2. destruct (cg_others _ _ _ _ _ _ _ _ C2 e He H1) as [_ ->]. by destruct (cg_others _ _ _ _ _ _ _ _ C1 e He H2) as [_ ->].
Qed.
Lemma both_group : members s2 pg (K2 pg) = members s1 pg (K1 pg).
Proof using C2 Hg Hgu Hgg. by destruct (cg_others _ _ _ _ _ _ _ _ C2 pg Hg (not_eq_sym pu_pg)) as [_ ->]. Qed.
Lemma both_user : members s1 pu (K1 pu) = members s pu (K pu).
Proof using C1 Hu Hgu Hgg. by destruct (cg_others _ _ _ _ _ _ _ _ C1 pu Hu pu_pg) as [_ ->]. Qed.

Lemma both_rest : names E s -> owners E s -> names E s2 /\ owners E s2.
Proof using C1 C2.
  intros Hn Ho. pose proof (cg_words _ _ _ _ _ _ _ _ C1) as W1. pose proof (cg_words _ _ _ _ _ _ _ _ C2) as W2.
  split; [apply (names_core E s)|apply (owners_core E s)]; try done; try (intros e He; by apply both_core); intros k H1 H2; by rewrite W2, W1.
Qed.

(** What holds of a new set of pairs that differs at these two only. *)
Lemma both_shows (R : gset (Z * Z)) :
  (forall u g, (u, g) <> (uid, gid) -> (u, g) ∈ R <-> (u, g) ∈ enrol D) ->
  (forall u, u ∈ members s2 pg (K2 pg) <-> (u, gid) ∈ R) ->
  (forall g, g ∈ members s2 pu (K2 pu) <-> (uid, g) ∈ R) ->
  shows (with_enrol R D) E K2 s2.
Proof using All.
  intros HR H1 H2. apply (shows_enrol D E K s); [done|intros e He; by apply both_core|..].
  - intros e He Hge u. destruct (decide (e = pg)) as [->|Hne]; [apply H1|]. assert (Hne2 : e <> pu) by (intros ->; congruence).
    rewrite both_members, (group_side D E K F s) by done. symmetry. apply HR. intros [= _ Ei]. by apply Hne, (ok_unique _ _ _ _ Hok).
  - intros e He Hge g. destruct (decide (e = pu)) as [->|Hne]; [apply H2|]. assert (Hne2 : e <> pg) by (intros ->; congruence).
    rewrite both_members, (user_side D E K F s) by done. symmetry. apply HR. intros [= Ei _]. by apply Hne, (ok_unique _ _ _ _ Hok).
  - intros u g Hin. destruct (decide ((u, g) = (uid, gid))) as [[= -> ->]|Hne]; [split; [by exists pg|by exists pu]|].
    apply HR in Hin; [|done]. split.
    + apply (sh_groups _ _ _ _ Hsh) in Hin as (p & ? & ? & ? & _). by exists p.
    + apply (sh_users _ _ _ _ Hsh) in Hin as (p & ? & ? & ? & _). by exists p.
  - intros k H3 H4. by rewrite (cg_words _ _ _ _ _ _ _ _ C2 k H3 H4), (cg_words _ _ _ _ _ _ _ _ C1 k H3 H4).
Qed.

Lemma both_add :
  members s1 pg (K1 pg) ≡ₚ uid :: members s pg (K pg) -> members s2 pu (K2 pu) ≡ₚ gid :: members s1 pu (K1 pu) ->
  shows (with_enrol ({[(uid, gid)]} ∪ enrol D) D) E K2 s2.
Proof using All.
  intros M1 M2. rewrite both_user in M2. apply both_shows.
  - intros u g Hne. rewrite elem_of_union, elem_of_singleton. tauto.
  - intros u. rewrite both_group, M1, elem_of_cons, (group_side D E K F s), elem_of_union, elem_of_singleton, pair_equal_spec by done. intuition.
  - intros g. rewrite M2, elem_of_cons, (user_side D E K F s), elem_of_union, elem_of_singleton, pair_equal_spec by done. intuition.
Qed.

Lemma both_remove :
  members s pg (K pg) ≡ₚ uid :: members s1 pg (K1 pg) -> members s1 pu (K1 pu) ≡ₚ gid :: members s2 pu (K2 pu) ->
  shows (with_enrol (enrol D ∖ {[(uid, gid)]}) D) E K2 s2.
Proof using All.
  intros M1 M2. rewrite both_user in M2.
  pose proof (li_nodup _ _ _ (ok_lists _ _ _ _ Hok pg Hg)) as N1. rewrite M1 in N1. apply NoDup_cons in N1 as [N1 _].
  pose proof (li_nodup _ _ _ (ok_lists _ _ _ _ Hok pu Hu)) as N2. rewrite M2 in N2. apply NoDup_cons in N2 as [N2 _].
  apply both_shows.
  - intros u g Hne. rewrite elem_of_difference, elem_of_singleton. tauto.
  - intros u. rewrite both_group, elem_of_difference, elem_of_singleton, <- (group_side D E K F s pg u), M1, elem_of_cons, pair_equal_spec by done.
    destruct (decide (u = uid)) as [->|]; intuition.
  - intros g. rewrite elem_of_difference, elem_of_singleton, <- (user_side D E K F s pu g), M2, elem_of_cons, pair_equal_spec by done.
    destruct (decide (g = gid)) as [->|]; intuition.
Qed.
End Both.

(** ** Handlers *)

(** There is room for [n] more blocks, and fuel for the walks then. *)
Definition roomy (fuel : nat) (n : Z) (s : ptdb) : Prop :=
  eof s + 192 * n < 2 ^ 31 /\ eof s + 192 * n <= sizeof_prheader + 192 * Z.of_nat fuel.

(** The database is right and has grown by at most [n] blocks. *)
Definition served (q : Prop) (D : adb) (n : Z) (s s' : ptdb) : Prop :=
  models D s' /\ good q s' /\ eof s <= eof s' <= eof s + 192 * n.

Lemma wp_add_both fuel q D E K F s pu pg (Q : unit -> ptdb -> Prop) Er :
  good q s -> ok E K F s -> shows D E K s -> names E s /\ owners E s -> roomy fuel 2 s -> pu ∈ E -> pg ∈ E ->
  has (flags (ent s pu)) PRGRP = false -> has (flags (ent s pg)) PRGRP = true ->
  let uid := id (ent s pu) in let gid := id (ent s pg) in
  ((uid, gid) ∈ enrol D -> forall s', good q s' -> Er PRIDEXIST s') ->
  ((uid, gid) ∉ enrol D -> forall s', served q (with_enrol ({[(uid, gid)]} ∪ enrol D) D) 2 s s' -> Q tt s') ->
  wp q (AddToEntry fuel (ent s pg) pg uid ;; AddToEntry fuel (ent s pu) pu gid) Q Er s.
Proof.
  intros Hg Hok Hsh [Hn Ho] [Hr1 Hr2] Hpu Hpg Gu Gg uid gid HX HQ.
  assert (Hne : pu <> pg) by (intros ->; congruence).
  assert (Hids : uid <> gid) by (intros Ei; by apply Hne, (ok_unique _ _ _ _ Hok)).
  assert (Hw : forall p, is_s32 (id (ent s p))) by (intros p; pose proof (eo_words _ (ent_ok _ s p Hg)) as Hw; rewrite !Forall_cons in Hw; tauto).
  assert (Hv : forall p, p ∈ E -> vacant (id (ent s p)) = false) by (intros p Hp; by apply vacant_false, (ok_ids _ _ _ _ Hok)).
  apply pt_bind, (wp_AddToEntry fuel q E K F); try done; [unfold enough; lia|by apply Hw|by apply Hv|lia|..].
  { intros s' A _ Hin. apply HX; [by apply (group_side D E K F s) in Hin|apply A]. }
  intros s1 _ Hnot (K1 & F1 & C1 & M1). destruct (cg_others _ _ _ _ _ _ _ _ C1 pu Hpu Hne) as [Eu Mu]. rewrite <- Eu.
  assert (Hnotin : (uid, gid) ∉ enrol D) by (intros Hi; by apply Hnot, (group_side D E K F s pg uid)).
  pose proof (cg_eof _ _ _ _ _ _ _ _ C1) as He1.
  apply (wp_AddToEntry fuel q E K1 F1); try done; [apply C1|apply C1|unfold enough; lia|by apply Hw|by apply Hv|lia| | |].
  - rewrite Eu. intros Ei. by destruct Hids.
  - intros s' _ _ Hin. rewrite Mu in Hin. by apply (user_side D E K F s) in Hin.
  - intros s2 _ _ (K2 & F2 & C2 & M2). apply HQ; [done|]. split; [|split; [apply C2|]].
    + destruct (both_rest q E K s pu pg K1 F1 s1 K2 F2 s2 C1 C2 Hn Ho) as [Hn2 Ho2].
      exists E, K2, F2. split; [apply C2| |done|done]. by apply (both_add q D E K F s pu pg) with K1 F1 s1 F2.
    + pose proof (cg_eof _ _ _ _ _ _ _ _ C2). lia.
Qed.

Lemma wp_remove_both fuel q D E K F s pu pg (Q : unit -> ptdb -> Prop) Er :
  good q s -> ok E K F s -> shows D E K s -> names E s /\ owners E s -> roomy fuel 2 s -> pu ∈ E -> pg ∈ E ->
  has (flags (ent s pu)) PRGRP = false -> has (flags (ent s pg)) PRGRP = true ->
  let uid := id (ent s pu) in let gid := id (ent s pg) in
  ((uid, gid) ∉ enrol D -> forall s', good q s' -> Er PRNOENT s') ->
  ((uid, gid) ∈ enrol D -> forall s', served q (with_enrol (enrol D ∖ {[(uid, gid)]}) D) 2 s s' -> Q tt s') ->
  wp q (RemoveFromEntry fuel uid gid ;; RemoveFromEntry fuel gid uid) Q Er s.
Proof.
  intros Hg Hok Hsh [Hn Ho] [Hr1 Hr2] Hpu Hpg Gu Gg uid gid HX HQ.
  assert (Hne : pu <> pg) by (intros ->; congruence).
  assert (Hids : uid <> gid) by (intros Ei; by apply Hne, (ok_unique _ _ _ _ Hok)).
  assert (Hw : forall p, is_s32 (id (ent s p))) by (intros p; pose proof (eo_words _ (ent_ok _ s p Hg)) as Hw; rewrite !Forall_cons in Hw; tauto).
  assert (Hv : forall p, p ∈ E -> vacant (id (ent s p)) = false) by (intros p Hp; by apply vacant_false, (ok_ids _ _ _ _ Hok)).
  apply pt_bind, (wp_RemoveFromEntry fuel q E K F); try done; [unfold enough; lia|by apply Hv|..].
  { intros s' A _ Hin. apply HX; [|apply A]. intros Hi. by apply Hin, (group_side D E K F s pg uid). }
  intros s1 _ (K1 & F1 & C1 & M1). destruct (cg_others _ _ _ _ _ _ _ _ C1 pu Hpu Hne) as [Eu Mu].
  assert (Hin : (uid, gid) ∈ enrol D) by (apply (group_side D E K F s pg uid); [done..|]; rewrite M1; left).
  pose proof (cg_eof _ _ _ _ _ _ _ _ C1) as He1. unfold uid. rewrite <- Eu.
  apply (wp_RemoveFromEntry fuel q E K1 F1); try done; [apply C1|apply C1|unfold enough; lia|rewrite Eu; by apply Hw|by apply Hv| | |].
  - rewrite Eu. intros Ei. by destruct Hids.
  - intros s' _ _ Hout. destruct Hout. rewrite Mu. by apply (user_side D E K F s).
  - intros s2 _ (K2 & F2 & C2 & M2). apply HQ; [done|]. split; [|split; [apply C2|]].
    + destruct (both_rest q E K s pu pg K1 F1 s1 K2 F2 s2 C1 C2 Hn Ho) as [Hn2 Ho2].
      exists E, K2, F2. split; [apply C2| |done|done]. by apply (both_remove q D E K F s pu pg) with K1 F1 s1 F2.
    + pose proof (cg_eof _ _ _ _ _ _ _ _ C2). lia.
Qed.

Section Handlers.
Context (fuel : nat) (q : Prop) (cf : config) (D : adb) (E : gset Z) (K : Z -> list Z) (F : list Z) (s : ptdb) (cid : Z).
Context (Hgood : good q s) (Hok : ok E K F s) (Hsh : shows D E K s) (Hno : names E s /\ owners E s) (Hroom : roomy fuel 2 s) (Hcid : cid <> PRBADID).

Lemma room_enough : enough fuel s.
Proof using Hroom. unfold enough, roomy in *. lia. Qed.

Lemma wp_lookup aid (Q : Z -> ptdb -> Prop) Er s1 :
  alike q s s1 -> is_s32 aid ->
  (forall s', alike q s s' -> people D !! aid = None \/ q -> Q 0 s') ->
  (forall p s', alike q s s' -> p ∈ E -> id (ent s p) = aid -> p <> 0 -> people D !! aid = Some (person_of (ent s p)) -> Q p s') ->
  wp q (FindByID fuel aid) Q Er s1.
Proof using All.
  intros A Hs HN HF. pose proof room_enough as Hf. destruct (good_now fuel q D E K F s Hok Hsh Hf s1 Hgood A) as (H1 & H2 & H3 & H4).
  apply (wp_FindByID _ _ E K F); try done.
  - intros s' A' Hn. apply HN; [by apply (alike_trans _ _ s1)|left]. destruct (people D !! aid) as [x|] eqn:Ep; [|done].
    apply (sh_people _ _ _ _ H2) in Ep as (p & P1 & P2 & _). by destruct (Hn p P1).
  - intros p s' A' Hp Ei. rewrite (al_ent _ _ _ p A) in Ei. apply HF; [by apply (alike_trans _ _ s1)|done|done| |].
    + by apply (ok_block_low _ _ _ _ _ Hok), (ok_entry _ _ _ _ _ Hok).
    + apply (sh_people _ _ _ _ Hsh). by exists p.
  - intros Hq s' A'. apply HN; [by apply (alike_trans _ _ s1)|by right].
Qed.

Lemma ent_s32 p : is_s32 (id (ent s p)) /\ is_s32 (owner (ent s p)).
Proof using Hgood.
  pose proof (eo_words _ (ent_ok _ s p Hgood)) as Hw. rewrite !Forall_cons in Hw. clear Hno. tauto.
Qed.

(** The rule of access decides: refused, or an error happened, or allowed. *)
Lemma wp_access {A} p mem any (k : M A) c (Q : A -> ptdb -> Prop) Er s1 :
  alike q s s1 ->
  (forall s', alike q s s' -> allowed cf D cid (id (ent s p)) (person_of (ent s p)) mem any = true -> wp q k Q Er s') ->
  (forall s', alike q s s' -> allowed cf D cid (id (ent s p)) (person_of (ent s p)) mem any = false -> Er c s') ->
  wp q (do ok <- AccessOK fuel cf cid (Some (ent s p)) mem any; if negb ok then fail c else k) Q Er s1.
Proof using All.
  intros A1 HY HN. pose proof room_enough as Hf. destruct (ent_s32 p) as [Hi Ho].
  apply pt_bind, (answers_AccessOK fuel q D E K F s Hok Hsh Hf); try done. intros r s2 A2 T.
  assert (A' : alike q s s2) by by apply (alike_trans _ _ s1). destruct T as [->|[Hq ->]].
  - destruct (allowed _ _ _ _ _ _ _) eqn:Ea; cbn [negb]; [by apply HY|]. by apply wp_fail, HN.
  - left. split; [done|apply A'].
Qed.

Lemma is_group_of p : is_group (person_of (ent s p)) = has (flags (ent s p)) PRGRP.
Proof using Type. done. Qed.

Lemma later_state s1 : alike q s s1 -> ok E K F s1 /\ shows D E K s1 /\ (names E s1 /\ owners E s1) /\ roomy fuel 2 s1 /\ good q s1.
Proof using All.
  intros A. destruct (good_now fuel q D E K F s Hok Hsh room_enough s1 Hgood A) as (H1 & H2 & _ & H4).
  split; [done|]. split; [done|]. split; [|split; [|done]; unfold roomy, eof in *; by rewrite (al_head _ _ _ A)].
  destruct Hno as [Hn Ho]. assert (Ee : forall e, ent s1 e = ent s e) by (intros e; by apply (al_ent q)).
  split; [apply (names_core E s)|apply (owners_core E s)]; try done; intros; by rewrite ?(al_head _ _ _ A), ?Ee.
Qed.
Lemma served_alike s1 D' n s' : alike q s s1 -> served q D' n s1 s' -> served q D' n s s'.
Proof using Type. intros A. unfold served, eof. by rewrite (al_head _ _ _ A). Qed.

Lemma wp_addToGroup aid gid : is_s32 aid -> is_s32 gid ->
  wp q (addToGroup fuel cf cid aid gid) (fun _ s' => exists D', a_add cf cid aid gid D = inr D' /\ served q D' 2 s s')
    (fun c s' => good q s' /\ a_add cf cid aid gid D = inl c) s.
Proof using All.
  intros Ha Hg. unfold addToGroup, a_add. destruct (_ || _); [apply wp_fail; (split; [done || (apply A2' || apply A4' || apply A5')|done])|]. destruct (aid =? ANONYMOUSID); [apply wp_fail; (split; [done || (apply A2' || apply A4' || apply A5')|done])|].
  apply pt_bind, wp_lookup; [by apply alike_refl|done|..].
  { intros s1 A1 [->|Hq]; [apply wp_fail; split; [apply A1|done]|left; split; [done|apply A1]]. }
  intros pu s1 A1 Hpu Eu Hu0 ->. rewrite (proj2 (Z.eqb_neq pu 0) Hu0), is_group_of.
  apply pt_bind, wp_ReadEntry; [apply A1|]. intros s2 A2. rewrite (al_ent _ _ _ pu A1). assert (A2' : alike q s s2) by by apply (alike_trans _ _ s1).
  destruct (has (flags (ent s pu)) PRGRP) eqn:Gu; [apply wp_fail; (split; [done || (apply A2' || apply A4' || apply A5')|done])|].
  apply pt_bind, wp_lookup; [done|done|..].
  { intros s3 A3 [->|Hq]; [apply wp_fail; split; [apply A3|done]|left; split; [done|apply A3]]. }
  intros pg s3 A3 Hpg Eg Hg0 ->. rewrite (proj2 (Z.eqb_neq pg 0) Hg0), is_group_of.
  apply pt_bind, wp_ReadEntry; [apply A3|]. intros s4 A4. rewrite (al_ent _ _ _ pg A3). assert (A4' : alike q s s4) by by apply (alike_trans _ _ s3).
  destruct (has (flags (ent s pg)) PRGRP) eqn:Gg; cbn [negb]; [|apply wp_fail; (split; [done || (apply A2' || apply A4' || apply A5')|done])]. rewrite <- Eg.
  apply wp_access; [done| |intros s5 A5 ->; split; [apply A5|done]].
  intros s5 A5 ->. cbn [negb]. destruct (later_state s5 A5) as (H1 & H2 & H3' & H3 & H4). rewrite <- Eu, <- (al_ent _ _ _ pu A5), <- (al_ent _ _ _ pg A5) in *.
  apply (wp_add_both fuel q D E K F); try done.
  - intros Hin s' Hg'. split; [done|]. by rewrite decide_True.
  - intros Hin s' Hs. eexists. rewrite decide_False by done. split; [done|]. by apply (served_alike s5).
Qed.

Lemma wp_removeFromGroup aid gid : is_s32 aid -> is_s32 gid ->
  wp q (removeFromGroup fuel cf cid aid gid) (fun _ s' => exists D', a_remove cf cid aid gid D = inr D' /\ served q D' 2 s s')
    (fun c s' => good q s' /\ a_remove cf cid aid gid D = inl c) s.
Proof using All.
  intros Ha Hg. unfold removeFromGroup, a_remove.
  apply pt_bind, wp_lookup; [by apply alike_refl|done|..].
  { intros s1 A1 [->|Hq]; [apply wp_fail; split; [apply A1|done]|left; split; [done|apply A1]]. }
  intros pu s1 A1 Hpu Eu Hu0 ->. rewrite (proj2 (Z.eqb_neq pu 0) Hu0), is_group_of.
  apply pt_bind, wp_lookup; [done|done|..].
  { intros s3 A3 [->|Hq]; [apply wp_fail; split; [apply A3|done]|left; split; [done|apply A3]]. }
  intros pg s2 A2 Hpg Eg Hg0 ->. rewrite (proj2 (Z.eqb_neq pg 0) Hg0), is_group_of.
  apply pt_bind, wp_ReadEntry; [apply A2|]. intros s3 A3. rewrite (al_ent _ _ _ pu A2). assert (A3' : alike q s s3) by by apply (alike_trans _ _ s2).
  apply pt_bind, wp_ReadEntry; [apply A3|]. intros s4 A4. rewrite (al_ent _ _ _ pg A3'). assert (A4' : alike q s s4) by by apply (alike_trans _ _ s3).
  destruct (has (flags (ent s pg)) PRGRP) eqn:Gg; cbn [negb]; [|apply wp_fail; (split; [done || (apply A2' || apply A4' || apply A5')|done])].
  destruct (has (flags (ent s pu)) PRGRP) eqn:Gu; [apply wp_fail; (split; [done || (apply A2' || apply A4' || apply A5')|done])|]. rewrite <- Eg.
  apply wp_access; [done| |intros s5 A5 ->; split; [apply A5|done]].
  intros s5 A5 ->. cbn [negb]. destruct (later_state s5 A5) as (H1 & H2 & H3' & H3 & H4). rewrite <- Eu, <- (al_ent _ _ _ pu A5), <- (al_ent _ _ _ pg A5) in *.
  apply (wp_remove_both fuel q D E K F); try done.
  - intros Hin s' Hg'. split; [done|]. by rewrite decide_False.
  - intros Hin s' Hs. eexists. rewrite decide_True by done. split; [done|]. by apply (served_alike s5).
Qed.

Lemma wp_listElements aid : is_s32 aid ->
  wp q (listElements fuel cf cid aid) (fun l s' => a_list cf cid aid D = inr l /\ alike q s s') (fun c s' => good q s' /\ a_list cf cid aid D = inl c) s.
Proof using All.
  intros Ha. unfold listElements, a_list. apply pt_bind, wp_lookup; [by apply alike_refl|done|..].
  { intros s1 A1 [->|Hq]; [apply wp_fail; split; [apply A1|done]|left; split; [done|apply A1]]. }
  intros p s1 A1 Hp Ei Hp0 ->. rewrite (proj2 (Z.eqb_neq p 0) Hp0).
  apply pt_bind, wp_ReadEntry; [apply A1|]. intros s2 A2. rewrite (al_ent _ _ _ p A1), <- Ei.
  apply wp_access; [by apply (alike_trans _ _ s1)| |intros s5 A5 ->; split; [apply A5|done]].
  intros s5 A5 ->. cbn [negb]. destruct (later_state s5 A5) as (H1 & H2 & H3' & H3 & H4). rewrite <- (al_ent _ _ _ p A5).
  apply (wp_GetList _ _ E K F); try done; [unfold enough, roomy in *; lia|]. intros s' A'. rewrite app_nil_r. split; [|by apply (alike_trans _ _ s5)].
  f_equal. symmetry. by apply sort_unique, (roster_members D E K F s5).
Qed.

Lemma wp_getCPS aid : is_s32 aid ->
  wp q (getCPS fuel cf cid aid) (fun l s' => a_cps cf cid aid D = inr l /\ alike q s s') (fun c s' => good q s' /\ a_cps cf cid aid D = inl c) s.
Proof using All.
  intros Ha. unfold getCPS, a_cps. destruct (_ && _); [apply wp_fail; (split; [done || (apply A2' || apply A4' || apply A5')|done])|]. apply pt_bind, wp_lookup; [by apply alike_refl|done|..].
  { intros s1 A1 [->|Hq]; [apply wp_fail; split; [apply A1|done]|left; split; [done|apply A1]]. }
  intros p s1 A1 Hp Ei Hp0 ->. rewrite (proj2 (Z.eqb_neq p 0) Hp0).
  apply pt_bind, wp_ReadEntry; [apply A1|]. intros s2 A2. rewrite (al_ent _ _ _ p A1), <- Ei.
  apply wp_access; [by apply (alike_trans _ _ s1)| |intros s5 A5 ->; split; [apply A5|done]].
  intros s5 A5 ->. cbn [negb]. destruct (later_state s5 A5) as (H1 & H2 & H3' & H3 & H4). rewrite <- (al_ent _ _ _ p A5).
  apply (wp_GetList _ _ E K F); try done; [unfold enough, roomy in *; lia|]. intros s' A'. split; [|by apply (alike_trans _ _ s5)].
  f_equal. symmetry. apply sort_unique. by rewrite (roster_members D E K F s5), extras_of.
Qed.

Lemma wp_isAMemberOf uid gid : is_s32 uid -> is_s32 gid ->
  wp q (isAMemberOf fuel cf cid uid gid) (fun b s' => (a_member cf cid uid gid D = inr b \/ q /\ b = false) /\ alike q s s')
    (fun c s' => good q s' /\ a_member cf cid uid gid D = inl c) s.
Proof using All.
  intros Hu Hg. unfold isAMemberOf, a_member.
  apply pt_bind, wp_lookup; [by apply alike_refl|done|intros s1 A1 Hn|intros pu s1 A1 Hpu Eu Hu0 Eq1].
  { apply pt_bind, wp_lookup; [done|done|intros s2 A2 _|intros pg s2 A2 _ _ _ _]; (destruct Hn as [->|Hq]; [apply wp_fail; split; [apply A2|done]|left; split; [done|apply A2]]). }
  apply pt_bind, wp_lookup; [done|done|intros s2 A2 Hn|intros pg s2 A2 Hpg Eg Hg0 Eq2].
  { rewrite (proj2 (Z.eqb_neq pu 0) Hu0), Eq1. destruct Hn as [->|Hq]; [apply wp_fail; split; [apply A2|done]|left; split; [done|apply A2]]. }
  rewrite Eq1, Eq2, !is_group_of, (proj2 (Z.eqb_neq pu 0) Hu0), (proj2 (Z.eqb_neq pg 0) Hg0). cbn [orb].
  apply pt_bind, wp_ReadEntry; [apply A2|]. intros s3 A3. rewrite (al_ent _ _ _ pu A2). assert (A3' : alike q s s3) by by apply (alike_trans _ _ s2).
  apply pt_bind, wp_ReadEntry; [apply A3|]. intros s4 A4. rewrite (al_ent _ _ _ pg A3'). assert (A4' : alike q s s4) by by apply (alike_trans _ _ s3).
  destruct (has (flags (ent s pu)) PRGRP || negb (has (flags (ent s pg)) PRGRP)); [apply wp_fail; (split; [done || (apply A2' || apply A4' || apply A5')|done])|].
  destruct (ent_s32 pu) as [Hiu Hou], (ent_s32 pg) as [Hig Hog]. pose proof room_enough as Hf.
  apply pt_bind. rewrite <- Eu, <- Eg.
  apply (answers_or q _ _ (allowed cf D cid (id (ent s pu)) (person_of (ent s pu)) 0 PRP_MEMBER_ANY)
    (allowed cf D cid (id (ent s pg)) (person_of (ent s pg)) PRP_MEMBER_MEM PRP_MEMBER_ANY)).
  - by apply (answers_AccessOK fuel q D E K F s Hok Hsh Hf).
  - intros s5 A5. apply (answers_AccessOK fuel q D E K F s Hok Hsh Hf); try done. by apply (alike_trans _ _ s4).
  - intros r s5 A5 T. assert (A5' : alike q s s5) by by apply (alike_trans _ _ s4). destruct T as [->|[Hq ->]]; [|left; split; [done|apply A5']].
    destruct (_ || _); cbn [negb]; [|apply wp_fail; (split; [done || (apply A2' || apply A4' || apply A5')|done])].
    apply (answers_later fuel q D E K F s Hok Hsh Hf); try done.
    + rewrite Eu. destruct (ok_ids _ _ _ _ Hok pu Hpu). congruence.
    + intros r s6 A6 T. split; [|by apply (alike_trans _ _ s5)]. destruct T as [->|[Hq ->]]; [by left|by right].
Qed.

End Handlers.
