(* ===== verification/PtEntry.v ===== *)
(** * The protection database: creating and changing entries, a new database
    (ptserver/ptutils.c, utils.c, and the handlers of ptprocs.c)

    Names are C strings, as lists of characters.  Blocks that the code reads and writes
    as they are ([pr_Read], [pr_Write]) were written by [pr_WriteEntry], so that their
    bytes are the layout of their fields, and are modelled as entries. *)

From stdpp Require Import prelude list gmap sorting list_numbers.
From Stdlib Require Import ZArith Lia ZifyBool.
From S2P Require Import Prelude ByteMem Pt.

#[local] Open Scope Z_scope.
#[local] Open Scope pt_scope.

Definition SYSBACKUPID := -205.
Definition PRIVATE_SHIFT := 16.
Definition PR_SF_NGROUPS := 2 ^ 31.
Definition PR_SF_NUSERS := 2 ^ 30.
Definition w_version := 0.
Definition w_headerSize := 1.

Definition with_flags (v : Z) (e : prentry) : prentry :=
  mkEntry v (id e) (cellid e) (next e) (createTime e) (addTime e) (removeTime e) (changeTime e) (entries e)
    (nextID e) (nextName e) (owner e) (creator e) (ngroups e) (nusers e) (count e) (inst e) (owned e)
    (nextOwned e) (parent e) (sibling e) (child e) (name e).
Definition with_id (v : Z) (e : prentry) : prentry :=
  mkEntry (flags e) v (cellid e) (next e) (createTime e) (addTime e) (removeTime e) (changeTime e) (entries e)
    (nextID e) (nextName e) (owner e) (creator e) (ngroups e) (nusers e) (count e) (inst e) (owned e)
    (nextOwned e) (parent e) (sibling e) (child e) (name e).
Definition with_creator (v : Z) (e : prentry) : prentry :=
  mkEntry (flags e) (id e) (cellid e) (next e) (createTime e) (addTime e) (removeTime e) (changeTime e) (entries e)
    (nextID e) (nextName e) (owner e) v (ngroups e) (nusers e) (count e) (inst e) (owned e)
    (nextOwned e) (parent e) (sibling e) (child e) (name e).
Definition with_ngroups (v : Z) (e : prentry) : prentry :=
  mkEntry (flags e) (id e) (cellid e) (next e) (createTime e) (addTime e) (removeTime e) (changeTime e) (entries e)
    (nextID e) (nextName e) (owner e) (creator e) v (nusers e) (count e) (inst e) (owned e)
    (nextOwned e) (parent e) (sibling e) (child e) (name e).
Definition with_nusers (v : Z) (e : prentry) : prentry :=
  mkEntry (flags e) (id e) (cellid e) (next e) (createTime e) (addTime e) (removeTime e) (changeTime e) (entries e)
    (nextID e) (nextName e) (owner e) (creator e) (ngroups e) v (count e) (inst e) (owned e)
    (nextOwned e) (parent e) (sibling e) (child e) (name e).
Definition with_cellid (v : Z) (e : prentry) : prentry :=
  mkEntry (flags e) (id e) v (next e) (createTime e) (addTime e) (removeTime e) (changeTime e) (entries e)
    (nextID e) (nextName e) (owner e) (creator e) (ngroups e) (nusers e) (count e) (inst e) (owned e)
    (nextOwned e) (parent e) (sibling e) (child e) (name e).

(** ** Strings *)

Definition colon := 58.
Definition newline := 10.
Definition atsign := 64.
(** What is before the first [c], and from it on ([strchr]). *)
Fixpoint before (c : Z) (l : list Z) : list Z :=
  match l with [] => [] | x :: l => if x =? c then [] else x :: before c l end.
Fixpoint from (c : Z) (l : list Z) : list Z :=
  match l with [] => [] | x :: r => if x =? c then l else from c r end.
Definition strlen (l : list Z) : Z := Z.of_nat (length (cstr l)).
Definition strcmp0 (a b : list Z) : bool := bool_decide (cstr a = cstr b).
(** "system" and "system:authuser" *)
Definition str_system : list Z := [115; 121; 115; 116; 101; 109].
Definition AUTHUSER_GROUP : list Z := str_system ++ [58; 97; 117; 116; 104; 117; 115; 101; 114].
Definition stolower (l : list Z) : list Z := map (fun c => if (65 <=? c) && (c <=? 90) then c + 32 else c) l.

Section Entries.
Context (fuel : nat).
#[local] Abbreviation FindByID := (FindByID fuel).
#[local] Abbreviation FindByName := (FindByName fuel).
#[local] Abbreviation IsAMemberOf := (IsAMemberOf fuel).
#[local] Abbreviation AddToEntry := (AddToEntry fuel).

#[local] Abbreviation AccessOK := (AccessOK fuel).

(** ** Owner chains *)

Definition AddToOwnerChain (gid oid : Z) : M unit :=
  do loc <- FindByID oid;
  if loc =? 0 then fail PRNOENT
  else
    do tentry <- or_code (pr_ReadEntry loc) PRDBFAIL;
    if oid =? gid then
      or_code (pr_WriteEntry loc (with_owned loc (with_nextOwned (owned tentry) tentry))) PRDBFAIL
    else
      do gloc <- FindByID gid;
      do gentry <- or_code (pr_ReadEntry gloc) PRDBFAIL;
      or_code (pr_WriteEntry gloc (with_nextOwned (owned tentry) gentry)) PRDBFAIL ;;
      or_code (pr_WriteEntry loc (with_owned gloc tentry)) PRDBFAIL.

(** ** Names *)

Definition CorrectUserName (name : list Z) : bool :=
  negb (strchr colon name || strchr newline name) && (strlen name <? PR_MAXNAMELEN).

Definition legal_name (cname : list Z) : bool :=
  if strchr colon cname
  then negb (strchr newline cname || strchr colon (drop 1 (from colon (cstr cname))))
  else CorrectUserName cname.
Definition check_name (cname : list Z) : M (list Z) :=
  if legal_name cname then ret cname else fail PRBADNAM.

(** The name that the group should have. *)
Definition CorrectGroupName (cf : config) (aname : list Z) (oid : Z) (admin : bool) : M (list Z) :=
  if PR_MAXNAMELEN <=? strlen aname then fail PRBADNAM
  else
    do prefix <- (if oid =? SYSADMINID then ret (Some str_system)
                  else
                    do loc <- FindByID oid;
                    if loc =? 0 then (if admin then ret None else fail PRNOENT)
                    else
                      do tentry <- pr_ReadEntry loc;
                      if has (flags tentry) PRGRP then
                        if (count tentry =? 0) && negb admin then fail PRGROUPEMPTY
                        else ret (Some (before colon (cstr (name tentry))))
                      else ret (Some (cstr (name tentry))));
    match prefix with
    | None => check_name (cstr aname)
    | Some prefix =>
        if bool_decide (prefix = str_system) && negb admin then fail PRPERM
        else if pr_noAuth cf then check_name (cstr aname)
        else
          let suffix := from colon (cstr aname) in
          if negb (strchr colon aname) then
            if negb admin then fail PRBADNAM else check_name (cstr aname)
          else if PR_MAXNAMELEN <=? Z.of_nat (length prefix + length suffix) then fail PRBADNAM
          else check_name (prefix ++ suffix)
    end.

(** ** Foreign users *)

Definition foreign_id (i cellid : Z) : Z := s32 (Z.lor (Z.shiftl i 16) cellid).
(** The first of [n] numbers from [i] on, and up to 65535, whose id is not in use. *)
Fixpoint next_foreign (n : nat) (i cellid : Z) : M (option Z) :=
  match n with
  | O => ret None
  | S n =>
      do loc <- FindByID (foreign_id i cellid);
      if loc =? 0 then ret (Some i)
      else if 65535 <? i + 1 then ret None else next_foreign n (i + 1) cellid
  end.
(** The new id, and the cell's group with its highest number; [None]: no id.  The walk
    ends at 65535 at the latest. *)
Definition allocNextId (cellEntry : prentry) : M (option (Z * prentry)) :=
  let cellid := Z.land (id cellEntry) 65535 in
  let i := s32 (nusers cellEntry + 1) in
  do r <- next_foreign (S (Z.to_nat (65535 - i))) i cellid;
  match r with
  | None => ret None
  | Some i =>
      if foreign_id i cellid =? 0 then ret None else ret (Some (foreign_id i cellid, with_nusers i cellEntry))
  end.
Definition inRange (cellEntry : prentry) (aid : Z) : option prentry :=
  if negb (Z.land aid 65535 =? Z.land (id cellEntry) 65535) then None
  else
    let i := u32 (Z.shiftr aid 16) in
    Some (if u32 (nusers cellEntry) <? i then with_nusers (s32 i) cellEntry else cellEntry).

(** ** Creation *)

Definition new_entry (nm : list Z) (t fl o : Z) : prentry :=
  mkEntry fl 0 0 0 (u32 t) 0 0 0 (repeat 0 10) 0 0 o 0 0 0 0 0 0 0 0 0 0 (strncpy64 nm).

(** The new entry is written and hashed. *)
Definition enter (tentry : prentry) (aname : list Z) (newEntry : Z) : M unit :=
  or_code (pr_WriteEntry newEntry tentry) PRDBFAIL ;;
  AddToIDHash (id tentry) newEntry ;;
  AddToNameHash aname newEntry.

Definition by_creator (creator : Z) (e : prentry) : prentry :=
  with_creator (if creator =? 0 then id e else creator) e.

(** A foreign user goes into the group of its cell. *)
Definition create_foreign (cf : config) (aname : list Z) (idflag : option Z) (creator newEntry : Z) (tentry : prentry) : M Z :=
  do r <- FindByName (AUTHUSER_GROUP ++ from atsign (cstr aname));
  match r with
  | None => fail PRBADNAM
  | Some (pos, _) =>
      do centry <- pr_ReadEntry pos;
      let tentry := with_cellid (id centry) tentry in
      do idc <- (match idflag with
                 | Some aid => match inRange centry aid with None => fail PRBADARG | Some c => ret (aid, c) end
                 | None => do r <- allocNextId centry;
                           match r with None => fail PRNOIDS | Some x => ret x end
                 end);
      let '(aid, centry) := idc in
      let tentry := with_id aid tentry in
      let centry := if has (flags centry) PRQUOTA then centry
                    else with_ngroups 30 (with_flags (Z.lor (flags centry) PRQUOTA) centry) in
      if (ngroups centry <=? 0) && negb (pr_noAuth cf) then fail PRNOMORE
      else
        or_code (pr_WriteEntry pos (with_ngroups (s32 (ngroups centry - 1)) centry)) PRDBFAIL ;;
        let tentry := by_creator creator tentry in
        enter tentry aname newEntry ;;
        or_code (inc_header_word w_foreigncount 1) PRDBFAIL ;;
        do pos <- FindByID (cellid tentry);
        if pos =? 0 then fail PRBADNAM
        else
          do centry <- pr_ReadEntry pos;
          AddToEntry centry pos aid ;;
          do pos <- FindByID aid;
          if pos =? 0 then fail PRBADNAM
          else
            do tentry <- pr_ReadEntry pos;
            AddToEntry tentry pos (cellid tentry) ;;
            ret aid
  end.

(** The creator is charged for a group; the number is compared as an unsigned one. *)
Definition charge (cf : config) (creator : Z) : M unit :=
  do loc <- FindByID creator;
  if loc =? 0 then ret tt
  else
    do centry <- pr_ReadEntry loc;
    let centry := if has (flags centry) PRQUOTA then centry
                  else with_nusers 20 (with_ngroups 20 (with_flags (Z.lor (flags centry) PRQUOTA) centry)) in
    do admin <- (if creator =? SYSADMINID then ret true else IsAMemberOf creator SYSADMINID);
    if admin then pr_WriteEntry loc centry
    else if ngroups centry =? 0 then
      if pr_noAuth cf then pr_WriteEntry loc centry else fail PRNOMORE
    else pr_WriteEntry loc (with_ngroups (s32 (ngroups centry - 1)) centry).

Definition create_local (cf : config) (aname : list Z) (flag oid creator newEntry : Z) (tentry : prentry) : M Z :=
  (if has flag PRGRP then
     do m <- get (fun s => cheader s w_maxGroup);
     if id tentry <? m then or_code (set_header_word w_maxGroup (id tentry)) PRDBFAIL else ret tt
   else
     do m <- get (fun s => cheader s w_maxID);
     if m <? id tentry then or_code (set_header_word w_maxID (id tentry)) PRDBFAIL else ret tt) ;;
  (if has flag PRGRP then charge cf creator else ret tt) ;;
  let tentry := if has flag PRGRP then tentry
                else with_nusers 20 (with_ngroups 20 (with_flags (Z.lor (flags tentry) PRQUOTA) tentry)) in
  let tentry := by_creator creator tentry in
  enter tentry aname newEntry ;;
  (if has (flags tentry) PRGRP then AddToOwnerChain (id tentry) oid else ret tt) ;;
  or_code (inc_header_word (if has (flags tentry) PRGRP then w_groupcount
                            else if has (flags tentry) PRINST then w_instcount else w_usercount) 1) PRDBFAIL ;;
  ret (id tentry).

(** [idflag] is the id, when the caller gives one. *)
Definition CreateEntry (cf : config) (aname : list Z) (idflag : option Z) (flag oid creator : Z) : M Z :=
  do admin <- or_else (ret (pr_noAuth cf)) (IsAMemberOf creator SYSADMINID);
  let defaulted := (oid =? 0) || (oid =? ANONYMOUSID) in
  if defaulted && negb admin && (creator =? 0) then fail PRBADARG
  else
    let oid := if defaulted then creator else oid in
    do nm <- (if has flag PRGRP then
                do cname <- CorrectGroupName cf aname oid admin;
                if strcmp0 aname cname then ret cname else fail PRBADNAM
              else if CorrectUserName aname then ret (cstr aname) else fail PRBADNAM);
    do r <- FindByName aname;
    match r with
    | Some _ => fail PREXIST
    | None =>
        do newEntry <- AllocBlock;
        if newEntry =? 0 then fail PRDBFAIL
        else
          do t <- get now;
          if negb (has flag PRGRP) && negb (flag =? 0) then fail PRBADARG
          else
            let tentry := if has flag PRGRP then new_entry nm t PRGRP oid else new_entry nm t 0 SYSADMINID in
            let pick := match idflag with Some aid => ret aid | None => AllocID fuel flag end in
            if negb (strchr atsign aname) then
              do aid <- pick; create_local cf aname flag oid creator newEntry (with_id aid tentry)
            else if has flag PRGRP then
              if negb (strcmp0 AUTHUSER_GROUP (before atsign (cstr aname))) then fail PRBADNAM
              else do aid <- pick; create_local cf aname flag oid creator newEntry (with_id aid tentry)
            else create_foreign cf aname idflag creator newEntry tentry
    end.

(** ** The handlers for new entries, within their transaction *)

Definition CreateOK (cf : config) (cid oid flag : Z) (admin : bool) : bool :=
  if restricted cf && negb admin then false
  else if has flag PRFOREIGN then false
  else if has flag PRGRP then
    if (cid =? ANONYMOUSID) && ((oid =? 0) || negb (pr_noAuth cf)) then false else true
  else if oid =? ANONYMOUSID then false
  else if negb admin && negb (pr_noAuth cf) then false
  else true.

Definition iNewEntry (cf : config) (cid : Z) (aname : list Z) (aid oid : Z) : M Z :=
  let aname := stolower aname in
  do admin <- IsAMemberOf cid SYSADMINID;
  if aid =? 0 then fail PRPERM
  else
    let gflag := if aid <? 0 then PRGRP else 0 in
    do m <- get (fun s => cheader s w_maxGroup);
    if (aid <? 0) && negb admin && negb (pr_noAuth cf) && negb (aid =? s32 (m - 1)) then fail PRPERM
    else
      do loc <- FindByID aid;
      if negb (loc =? 0) then fail PRIDEXIST
      else if negb (CreateOK cf cid oid gflag admin) then fail PRPERM
      else CreateEntry cf aname (Some aid) gflag oid cid.

(** [foreign] is the name of the caller when WhoIsThisWithName found it to be of another
    cell. *)
Definition newEntry (cf : config) (cid : Z) (foreign : option (list Z)) (aname : list Z) (flag oid : Z) : M Z :=
  let aname := stolower aname in
  do admin <- IsAMemberOf cid SYSADMINID;
  let self := match foreign with Some cname => negb (restricted cf) && strcmp0 aname cname | None => false end in
  if self && negb (oid =? 0) then fail PRPERM
  else
    let admin := if self then true else admin in
    let oid := if self then SYSADMINID else oid in
    if negb (CreateOK cf cid oid flag admin) then fail PRPERM
    else CreateEntry cf aname None flag oid cid.

(** ** The handlers for fields and limits *)

Definition GetMax : M (Z * Z) :=
  do u <- get (fun s => cheader s w_maxID);
  do g <- get (fun s => cheader s w_maxGroup);
  ret (u, g).
Definition SetMax (aid flag : Z) : M unit :=
  if has flag PRGRP then set_header_word w_maxGroup aid else set_header_word w_maxID aid.

(** Callers that are not known may be turned away. *)
Definition anonymous_barred (cf : config) (cid : Z) : bool :=
  negb (pr_noAuth cf) && restrict_anonymous cf && (cid =? ANONYMOUSID).

Definition listMax (cf : config) (cid : Z) : M (Z * Z) :=
  if anonymous_barred cf cid then fail PRPERM else GetMax.
Definition setMax (cf : config) (cid aid gflag : Z) : M unit :=
  do ok <- AccessOK cf cid None 0 0;
  if negb ok then fail PRPERM
  else if has gflag PRGRP && (0 <? aid) || negb (has gflag PRGRP) && (aid <? 0) then fail PRBADARG
  else SetMax aid gflag.

(** What a client sees of an entry ([struct prcheckentry]). *)
Record prcheckentry := mkCheck {
  k_flags : Z;
  k_id : Z;
  k_owner : Z;
  k_creator : Z;
  k_ngroups : Z;
  k_nusers : Z;
  k_count : Z;
  k_name : list Z
}.
Definition listEntry (cf : config) (cid aid : Z) : M prcheckentry :=
  if anonymous_barred cf cid then fail PRPERM
  else
    do temp <- FindByID aid;
    if temp =? 0 then fail PRNOENT
    else
      do tentry <- pr_ReadEntry temp;
      do ok <- AccessOK cf cid (Some tentry) PRP_STATUS_MEM PRP_STATUS_ANY;
      if negb ok then fail PRPERM
      else
        let fl := Z.shiftr (flags tentry) PRIVATE_SHIFT in
        let fl := if fl =? 0 then Z.shiftr (if has (flags tentry) PRGRP then prp_group_default cf else prp_user_default cf) PRIVATE_SHIFT
                  else fl in
        ret (mkCheck fl (id tentry) (owner tentry) (creator tentry) (ngroups tentry) (nusers tentry) (count tentry) (cstr (name tentry))).

(** The bits of the flags that [mask] selects are set from [fl]. *)
Definition set_access (mask fl tflags : Z) : Z :=
  let flagsMask := Z.land mask 65535 in
  if flagsMask =? 0 then tflags
  else Z.lor (Z.lor (Z.land tflags (Z.lnot (s32 (Z.shiftl flagsMask PRIVATE_SHIFT)))) (s32 (Z.shiftl (Z.land fl flagsMask) PRIVATE_SHIFT))) PRACCESS.
Definition setFieldsEntry (cf : config) (cid aid mask fl ng nu : Z) : M unit :=
  if mask =? 0 then ret tt
  else if (aid =? ANYUSERID) || (aid =? AUTHUSERID) || (aid =? ANONYMOUSID) then fail PRPERM
  else
    do pos <- FindByID aid;
    if pos =? 0 then fail PRNOENT
    else
      do tentry <- pr_ReadEntry pos;
      let quotas := has mask (Z.lor PR_SF_NGROUPS PR_SF_NUSERS) in
      do ok <- (if quotas then AccessOK cf cid None 0 0 else AccessOK cf cid (Some tentry) 0 0);
      if negb ok then fail PRPERM
      else
        let tentry := if quotas && negb (has (flags tentry) PRQUOTA) then with_nusers 20 (with_ngroups 20 tentry) else tentry in
        let tflags := set_access mask fl (flags tentry) in
        if has mask PR_SF_NGROUPS && (ng <? 0) then fail PRBADARG
        else
          let tentry := if has mask PR_SF_NGROUPS then with_ngroups ng tentry else tentry in
          if has mask PR_SF_NUSERS && (nu <? 0) then fail PRBADARG
          else
            let tentry := if has mask PR_SF_NUSERS then with_nusers nu tentry else tentry in
            pr_WriteEntry pos (with_flags (if quotas then Z.lor tflags PRQUOTA else tflags) tentry).

(** ** A new database *)

(** "system:administrators", "system:backup", "system:anyuser", "system:ptsviewers", "anonymous" *)
Definition str_administrators : list Z := str_system ++ [58; 97; 100; 109; 105; 110; 105; 115; 116; 114; 97; 116; 111; 114; 115].
Definition str_backup : list Z := str_system ++ [58; 98; 97; 99; 107; 117; 112].
Definition str_anyuser : list Z := str_system ++ [58; 97; 110; 121; 117; 115; 101; 114].
Definition str_ptsviewers : list Z := str_system ++ [58; 112; 116; 115; 118; 105; 101; 119; 101; 114; 115].
Definition str_anonymous : list Z := [97; 110; 111; 110; 121; 109; 111; 117; 115].
Definition PRDBVERSION := 0.
Definition initial_entries : list (Z * list Z) :=
  [(SYSADMINID, str_administrators); (SYSBACKUPID, str_backup); (ANYUSERID, str_anyuser); (AUTHUSERID, AUTHUSER_GROUP);
   (SYSVIEWERID, str_ptsviewers); (ANONYMOUSID, str_anonymous)].

(** Is there a database? *)
Definition Initdb_check : M bool :=
  do v <- get (fun s => cheader s w_version);
  do h <- get (fun s => cheader s w_headerSize);
  do e <- get (fun s => cheader s w_eofPtr);
  if negb ((v =? PRDBVERSION) && (h =? sizeof_prheader) && negb (e =? 0)) then ret false
  else do loc <- FindByID ANONYMOUSID; ret (negb (loc =? 0)).
Definition InitialGroup (cf : config) (aid : Z) (nm : list Z) : M Z :=
  CreateEntry cf nm (Some aid) (if aid <? 0 then PRGRP else 0) SYSADMINID SYSADMINID.
Fixpoint initial_groups (cf : config) (l : list (Z * list Z)) : M unit :=
  match l with
  | [] => ret tt
  | (aid, nm) :: l => do r <- InitialGroup cf aid nm; initial_groups cf l
  end.
(** The cached header is the one on disk: it was just read. *)
Definition Initdb (cf : config) : M unit :=
  do there <- Initdb_check;
  if there then ret tt
  else
    do empty <- get (fun s => forallb (fun k => cheader s k =? 0) (seqZ 0 16400));
    if negb empty then fail PRDBBAD
    else
      set_header_word w_version PRDBVERSION ;;
      set_header_word w_headerSize sizeof_prheader ;;
      set_header_word w_eofPtr sizeof_prheader ;;
      initial_groups cf initial_entries ;;
      set_header_word w_maxID 0.

End Entries.
