(* ===== verification/PtEnter.v ===== *)
(** * The protection database: a new entry is written and hashed *)

From stdpp Require Import prelude list gmap.
From Stdlib Require Import ZArith Lia ZifyBool.
From S2P Require Import Prelude ByteMem Pt PtBlock PtOk PtList PtStep PtFrame PtNames PtAdd PtEntry.

#[local] Open Scope Z_scope.
#[local] Open Scope pt_scope.

(** ** A block is taken *)

Lemma ok_taken q E K F s b F' s' : ok E K F s -> taken q E K F s b F' s' -> ok E K F' s' /\ spare E K F' s' b.
Proof.
  intros Hok [T1 T2 [T3 T4] [T5 T6] [T7 T8]]. pose proof Hok as [O1 O2 O3 O4 O5 O6 O7 O8 O9 O10]. apply NoDup_cons in T3 as [T3 T3'].
  assert (Hblk : forall p, block s p -> block s' p) by (intros p (n & ? & ? & ?); exists n; repeat split; lia || done).
  assert (Hsame : forall p, block s p -> ent s' p = ent s p /\ con s' p = con s p).
  { intros p Hp. apply (ch_blocks _ _ _ _ T1); [by apply (block_aligned s)|apply not_elem_of_nil]. }
  assert (HE : forall p, p ∈ E -> ent s' p = ent s p) by (intros p Hp; by apply Hsame, (ok_entry _ _ _ _ _ Hok)).
  split; [|done]. split; try done.
  - intros p Hp. by apply Hblk, O2.
  - intros p Hp. destruct (O3 p (T4 p Hp)). split; [by apply Hblk|done].
  - split; [done|]. apply O4.
  - intros i Hi. rewrite (ch_words _ _ _ _ T1) by (unfold w_idHash, w_freePtr, w_eofPtr, HASHSIZE in *; lia).
    generalize (O7 i Hi). apply threaded_ext; [intros p [Hp _]; by rewrite HE|]. intros p. split; intros [Hp <-]; (split; [done|]); by rewrite HE.
  - intros p Hp. rewrite HE by done. by apply O8.
  - intros p p' Hp Hp'. rewrite !HE by done. by apply O9.
  - intros p Hp. apply (listed_ext s); [by apply HE| |by apply O10]. intros c Hc. by apply Hsame, (ok_cont _ _ _ _ _ _ Hok Hp).
Qed.

Lemma wp_take q E K F (Q : Z -> ptdb -> Prop) Er s :
  good q s -> ok E K F s -> eof s + 192 < 2 ^ 31 ->
  (forall b F' s', ok E K F' s' -> spare E K F' s' b -> delta q [] [w_freePtr; w_eofPtr] s s' ->
     eof s <= eof s' <= eof s + 192 -> Q b s') -> (q -> forall s', good q s' -> Q 0 s') ->
  wp q AllocBlock Q Er s.
Proof.
  intros Hg Hok Hr HQ H0. apply (wp_AllocBlock q E K F); try done. intros b F' s' T. destruct (ok_taken _ _ _ _ _ _ _ _ Hok T) as [H1 H2].
  apply (HQ b F' s'); [done|done|by apply delta_changed, T|apply T].
Qed.

(** ** Hash chains *)

Lemma wp_hash_in q k v loc e c c' (Q : unit -> ptdb -> Prop) Er s :
  good q s -> 4 * k + 4 <= sizeof_prheader -> aligned loc -> entry_ok e ->
  (forall s', delta q [loc] [k] s s' -> cheader s' k = v -> ent s' loc = e -> Q tt s') ->
  wp q (put_word k v ;; or_code (pr_WriteEntry loc e) c ;; or_code (write_word k) c') Q Er s.
Proof.
  intros [Hg1 Hg2] Hk Hl He HQ. apply pt_bind. unfold put_word. cbn. apply pt_bind, wp_or_code, wp_WriteEntry; [by split|by apply aligned_low|done|].
  intros s1 W1 E1. apply wp_or_code, wp_write_word; [apply W1|done|]. intros s2 W2. apply HQ.
  - split; [|by rewrite (wd_now _ _ _ _ _ W2), (wr_now _ _ _ _ W1)|apply W2|].
    + intros x Hx. rewrite (wd_head _ _ _ _ _ W2), (wr_head _ _ _ _ W1). cbn [set_word cheader].
      destruct (Z.eqb_spec x k) as [->|]; [destruct Hx; left|done].
    + intros p Hp Hne. destruct (wd_blocks _ _ _ _ _ W2 p (aligned_low _ Hp)) as [-> ->].
      destruct (wr_apart _ _ _ _ W1 p) as [-> ->]; [apply aligned_apart; [done|done|]; intros ->; apply Hne; left|]. by rewrite !ent_eq, !con_eq.
  - rewrite (wd_head _ _ _ _ _ W2), Z.eqb_refl, (wr_head _ _ _ _ W1). cbn. by rewrite Z.eqb_refl.
  - by rewrite (proj1 (wd_blocks _ _ _ _ _ W2 loc (aligned_low _ Hl))).
Qed.

Section New.
Context (q : Prop) (E : gset Z) (K : Z -> list Z) (F : list Z) (b : Z).
#[local] Abbreviation E' := ({[b]} ∪ E).
#[local] Abbreviation K' := (setK K b []).

Lemma new_in p : p ∈ E' <-> p = b \/ p ∈ E.
Proof using Type. rewrite elem_of_union, elem_of_singleton. done. Qed.
Lemma spare_out s : spare E K F s b -> b ∉ E.
Proof using Type. intros (_ & Hu & _) Hb. apply Hu. by left. Qed.

Definition blank (e : prentry) : Prop := next e = 0 /\ entries e = repeat 0 10 /\ count e = 0.
Lemma blank_listed s : blank (ent s b) -> listed s b [] /\ members s b [] = [].
Proof using Type.
  intros (B1 & B2 & B3). assert (Es : slots s b [] = repeat 0 10) by (unfold slots; by rewrite B2).
  assert (Em : members s b [] = []) by (unfold members; rewrite Es; apply (real_zeros 10)).
  split; [|done]. split; rewrite ?Em, ?Es.
  - done.
  - intros c Hc. by apply not_elem_of_nil in Hc.
  - intros i j x _ _ Hj. apply list_elem_of_lookup_2, list_elem_of_In in Hj. by apply repeat_spec in Hj.
  - apply NoDup_nil_2.
  - apply not_elem_of_nil.
  - by rewrite B3.
Qed.

Lemma ok_new s s' i :
  ok E K F s -> spare E K F s b -> 0 <= i < HASHSIZE -> delta q [b] [w_idHash i] s s' ->
  IDHash (id (ent s' b)) = i -> id (ent s' b) <> 0 -> id (ent s' b) <> PRBADID -> (forall p, p ∈ E -> id (ent s p) <> id (ent s' b)) ->
  blank (ent s' b) -> nextID (ent s' b) = cheader s (w_idHash i) -> cheader s' (w_idHash i) = b -> ok E' K' F s'.
Proof using Type.
  intros Hok Hsp Hi Hd Eh Hi0 Hib Hfr Hbl En Ehd. pose proof (spare_out _ Hsp) as HbE. destruct Hsp as (Hblk & Hun & HbF).
  pose proof Hok as [O1 O2 O3 O4 O5 O6 O7 O8 O9 O10].
  assert (Hwd : forall k, k <> w_idHash i -> cheader s' k = cheader s k).
  { intros k Hk. apply (dl_words _ _ _ _ _ Hd). by intros ->%list_elem_of_singleton. }
  assert (He : eof s' = eof s) by (apply Hwd; unfold w_eofPtr, w_idHash, HASHSIZE; lia).
  assert (Hsame : forall p, block s p -> p <> b -> ent s' p = ent s p /\ con s' p = con s p).
  { intros p Hp Hne. apply (dl_blocks _ _ _ _ _ Hd); [by apply (block_aligned s)|]. by intros ->%list_elem_of_singleton. }
  assert (HE : forall p, p ∈ E -> ent s' p = ent s p).
  { intros p Hp. apply Hsame; [by apply (ok_entry _ _ _ _ _ Hok)|]. intros ->. done. }
  assert (HK : forall p, p ∈ E -> K' p = K p) by (intros p Hp; apply setK_ne; intros ->; done).
  assert (Hus : forall p, used E' K' p -> p = b \/ used E K p).
  { intros p [[->|Hp]%new_in|(e & [->|He']%new_in & Hpe)]; [by left|right; by left|rewrite setK_eq in Hpe; by apply not_elem_of_nil in Hpe|].
    rewrite HK in Hpe by done. right. right. by exists e. }
  split; rewrite ?He; try done.
  - intros p [->|Hp]%Hus; unfold block; rewrite He; [done|by apply O2].
  - intros p Hp. unfold block. rewrite He. split; [by apply O3|]. intros [->|Hu]%Hus; [done|]. by apply (O3 p Hp).
  - split; [apply O4|]. intros e [->|He']%new_in.
    + rewrite setK_eq. split; [apply NoDup_nil_2|]. by intros c ?%not_elem_of_nil.
    + rewrite HK by done. destruct (proj2 O4 e He') as [N1 N2]. split; [done|]. intros c Hc [->|?]%new_in; [|by apply (N2 c)].
      apply Hun. right. by exists e.
  - intros e e' c [->|H1]%new_in [->|H2]%new_in; rewrite ?setK_eq; [done|by intros ?%not_elem_of_nil|by intros _ ?%not_elem_of_nil|].
    rewrite !HK by done. by apply O5.
  - rewrite Hwd by (unfold w_freePtr, w_idHash, HASHSIZE; lia). revert O6. apply chain_ext. intros p Hp.
    destruct (Hsame p) as [-> _]; [by apply O3|by intros ->|done].
  - intros j Hj. destruct (decide (j = i)) as [->|Hne].
    + rewrite Ehd. apply (threaded_cons (fun p => nextID (ent s p)) _ b (cheader s (w_idHash i)) (fun p => p ∈ E /\ IDHash (id (ent s p)) = i)).
      * destruct (ok_block_low _ _ _ _ _ Hok Hblk) as (_ & ? & _). done.
      * done.
      * by intros [? _].
      * intros p [Hp _]. by rewrite HE.
      * intros p. rewrite new_in. split; [intros [[->|Hp] H1]; [by left|right; by rewrite HE in H1]|intros [->|[Hp H1]]; [by split; [left|]|]].
        split; [by right|]. by rewrite HE.
      * by apply O7.
    + rewrite Hwd by (unfold w_idHash; lia). generalize (O7 j Hj). apply threaded_ext; [intros p [Hp _]; by rewrite HE|].
      intros p. rewrite new_in. split; [intros [Hp H1]; split; [by right|by rewrite HE]|intros [[->|Hp] H1]; [congruence|by rewrite HE in H1]].
  - intros p [->|Hp]%new_in; [done|]. rewrite HE by done. by apply O8.
  - intros p p' [->|Hp]%new_in [->|Hp']%new_in; [done|rewrite (HE p' Hp'); intros H1; by destruct (Hfr p' Hp' (eq_sym H1))|rewrite (HE p Hp); intros H1; by destruct (Hfr p Hp)|rewrite !HE by done; by apply O9].
  - intros p [->|Hp]%new_in; [rewrite setK_eq; by apply blank_listed|]. rewrite HK by done. apply (listed_ext s); [by apply HE| |by apply O10].
    intros c Hc. apply Hsame; [by apply (ok_cont _ _ _ _ _ _ Hok Hp)|]. intros ->. apply Hun. right. by exists p.
Qed.

Lemma names_new s s' i :
  ok E' K' F s -> names E s -> (b ∉ E) -> 0 <= i < HASHSIZE -> delta q [b] [w_nameHash i] s s' ->
  NameHash (name (ent s' b)) = i -> (forall p, p ∈ E -> cstr (name (ent s p)) <> cstr (name (ent s' b))) ->
  (length (cstr (name (ent s' b))) < 64)%nat -> (strchr 58 (name (ent s' b)) = true -> has (flags (ent s' b)) PRGRP = true) ->
  nextName (ent s' b) = cheader s (w_nameHash i) -> cheader s' (w_nameHash i) = b -> names E' s'.
Proof using Type.
  intros Hok [N1 N2 N3 N4] HbE Hi Hd Eh Hfr Hsh Hco En Ehd.
  assert (HE : forall p, p ∈ E -> ent s' p = ent s p).
  { intros p Hp. apply (dl_blocks _ _ _ _ _ Hd); [apply (block_aligned s), (ok_entry _ _ _ _ _ Hok), new_in; by right|]. intros ->%list_elem_of_singleton. done. }
  split.
  - intros j Hj. destruct (decide (j = i)) as [->|Hne].
    + rewrite Ehd. apply (threaded_cons (fun p => nextName (ent s p)) _ b (cheader s (w_nameHash i)) (fun p => p ∈ E /\ NameHash (name (ent s p)) = i)).
      * destruct (ok_block_low _ _ _ _ b Hok) as (_ & ? & _); [|done]. apply (ok_entry _ _ _ _ _ Hok), new_in. by left.
      * done.
      * by intros [? _].
      * intros p [Hp _]. by rewrite HE.
      * intros p. rewrite new_in. split; [intros [[->|Hp] H1]; [by left|right; by rewrite HE in H1]|intros [->|[Hp H1]]; [by split; [left|]|]].
        split; [by right|]. by rewrite HE.
      * by apply N1.
    + rewrite (dl_words _ _ _ _ _ Hd) by (intros Hin%list_elem_of_singleton; unfold w_nameHash in Hin; lia).
      generalize (N1 j Hj). apply threaded_ext; [intros p [Hp _]; by rewrite HE|].
      intros p. rewrite new_in. split; [intros [Hp H1]; split; [by right|by rewrite HE]|intros [[->|Hp] H1]; [congruence|by rewrite HE in H1]].
  - intros p p' [->|Hp]%new_in [->|Hp']%new_in; [done|rewrite (HE p' Hp'); intros H1; by destruct (Hfr p' Hp' (eq_sym H1))|rewrite (HE p Hp); intros H1; by destruct (Hfr p Hp)|rewrite !HE by done; by apply N2].
  - intros p [->|Hp]%new_in; [done|]. rewrite HE by done. by apply N3.
  - intros p [->|Hp]%new_in; [done|]. rewrite HE by done. by apply N4.
Qed.

End New.

(** ** Entries that may be written *)

Ltac new_fields := intros []; split; cbn [flags id cellid next createTime addTime removeTime changeTime entries nextID nextName owner creator
  ngroups nusers count inst owned nextOwned parent sibling child name with_nextID with_nextName with_owner with_owned with_nextOwned
  with_flags with_ngroups with_nusers with_id with_cellid with_creator] in *; rewrite ?Forall_cons in *; tauto.
Lemma eo_nextID v e : is_s32 v -> entry_ok e -> entry_ok (with_nextID v e).
Proof. intros H. new_fields. Qed.
Lemma eo_nextName v e : is_s32 v -> entry_ok e -> entry_ok (with_nextName v e).
Proof. intros H. new_fields. Qed.
Lemma eo_owned v e : is_s32 v -> entry_ok e -> entry_ok (with_owned v e).
Proof. intros H. new_fields. Qed.
Lemma eo_nextOwned v e : is_s32 v -> entry_ok e -> entry_ok (with_nextOwned v e).
Proof. intros H. new_fields. Qed.
Lemma eo_flags v e : is_s32 v -> entry_ok e -> entry_ok (with_flags v e).
Proof. intros H. new_fields. Qed.
Lemma eo_ngroups v e : is_s32 v -> entry_ok e -> entry_ok (with_ngroups v e).
Proof. intros H. new_fields. Qed.
Lemma eo_nusers v e : is_s32 v -> entry_ok e -> entry_ok (with_nusers v e).
Proof. intros H. new_fields. Qed.
Lemma eo_id v e : is_s32 v -> entry_ok e -> entry_ok (with_id v e).
Proof. intros H. new_fields. Qed.
Lemma eo_cellid v e : is_s32 v -> entry_ok e -> entry_ok (with_cellid v e).
Proof. intros H. new_fields. Qed.
Lemma eo_creator v e : is_s32 v -> entry_ok e -> entry_ok (with_creator v e).
Proof. intros H. new_fields. Qed.
#[export] Hint Resolve eo_nextID eo_nextName eo_owned eo_nextOwned eo_flags eo_ngroups eo_nusers eo_id eo_cellid eo_creator : ptw.

Lemma fields_s32 e : entry_ok e ->
  is_s32 (flags e) /\ is_s32 (id e) /\ is_s32 (owner e) /\ is_s32 (creator e) /\ is_s32 (ngroups e) /\ is_s32 (nusers e)
  /\ is_s32 (cellid e) /\ is_s32 (owned e) /\ is_s32 (nextOwned e).
Proof. intros He. pose proof (eo_words _ He) as Hw. rewrite !Forall_cons in Hw. tauto. Qed.

(** ** A new entry is hashed *)

Lemma hash_head_s32 E K F s i : ok E K F s -> 0 <= i < HASHSIZE -> is_s32 (cheader s (w_idHash i)).
Proof.
  intros Hok Hi. apply (threaded_head_s32 _ _ _ (ok_hash _ _ _ _ Hok i Hi)). intros p [Hp _]. by apply (ok_block_low _ _ _ _ _ Hok), (ok_entry _ _ _ _ _ Hok).
Qed.
Lemma name_head_s32 E K F E0 s i : ok E K F s -> E0 ⊆ E -> names E0 s -> 0 <= i < HASHSIZE -> is_s32 (cheader s (w_nameHash i)).
Proof.
  intros Hok HE Hn Hi. apply (threaded_head_s32 _ _ _ (nm_hash _ _ Hn i Hi)). intros p [Hp _].
  apply (ok_block_low _ _ _ _ _ Hok), (ok_entry _ _ _ _ _ Hok), HE, Hp.
Qed.
Lemma pt_NameHash_range l : 0 <= NameHash l < HASHSIZE.
Proof. unfold NameHash. by apply Z.mod_pos_bound. Qed.
Lemma NameHash_cstr l l' : cstr l = cstr l' -> NameHash l = NameHash l'.
Proof. unfold NameHash. by intros ->. Qed.

Lemma wp_AddToIDHash q E K F b (Q : unit -> ptdb -> Prop) Er s :
  good q s -> ok E K F s -> spare E K F s b -> blank (ent s b) ->
  (forall p, p ∈ E -> id (ent s p) <> id (ent s b)) ->
  (id (ent s b) = 0 \/ id (ent s b) = PRBADID -> Er PRINCONSISTENT s) ->
  (id (ent s b) <> 0 -> id (ent s b) <> PRBADID -> forall h s', is_s32 h -> delta q [b] [w_idHash (IDHash (id (ent s b)))] s s' ->
     ent s' b = with_nextID h (ent s b) -> ok ({[b]} ∪ E) (setK K b []) F s' -> Q tt s') ->
  wp q (AddToIDHash (id (ent s b)) b) Q Er s.
Proof.
  intros Hg Hok Hsp Hbl Hfr HI HQ. unfold AddToIDHash. destruct (_ || _) eqn:E0; [apply wp_fail, HI; lia|].
  assert (Hi0 : id (ent s b) <> 0) by lia. assert (Hib : id (ent s b) <> PRBADID) by lia.
  assert (Hal : aligned b) by (apply (block_aligned s), Hsp).
  destruct (fields_s32 _ (ent_ok q s b Hg)) as (_ & Hi & _). pose proof (pt_IDHash_range _ Hi Hib) as Hr.
  cbv zeta. apply pt_bind, wp_or_code, wp_ReadEntry; [done|]. intros s1 A1. apply pt_bind, pt_get. rewrite (al_head _ _ _ A1).
  pose proof (hash_head_s32 _ _ _ _ _ Hok Hr) as Hh.
  apply wp_hash_in; [apply A1|unfold w_idHash, sizeof_prheader, HASHSIZE in *; lia|done|apply eo_nextID; [done|by apply (ent_ok q)]|].
  intros s' Hd Eh Ee. assert (Hd' : delta q [b] [w_idHash (IDHash (id (ent s b)))] s s').
  { apply (delta_trans q [] [b] [] [w_idHash (IDHash (id (ent s b)))] s s1); [by apply delta_alike|done]. }
  apply (HQ Hi0 Hib (cheader s (w_idHash (IDHash (id (ent s b))))) s'); try done.
  apply (ok_new q E K F b s s' (IDHash (id (ent s b)))); try done; rewrite Ee; done.
Qed.

Lemma wp_AddToNameHash q E K F b aname (Q : unit -> ptdb -> Prop) Er s :
  good q s -> ok ({[b]} ∪ E) (setK K b []) F s -> names E s -> (b ∉ E) ->
  cstr (name (ent s b)) = cstr aname -> (forall p, p ∈ E -> cstr (name (ent s p)) <> cstr aname) -> (length (cstr aname) < 64)%nat ->
  (strchr 58 aname = true -> has (flags (ent s b)) PRGRP = true) ->
  (forall h s', is_s32 h -> delta q [b] [w_nameHash (NameHash aname)] s s' -> ent s' b = with_nextName h (ent s b) ->
     ok ({[b]} ∪ E) (setK K b []) F s' -> names ({[b]} ∪ E) s' -> Q tt s') ->
  wp q (AddToNameHash aname b) Q Er s.
Proof.
  intros Hg Hok Hn HbE Enm Hfr Hsh Hco HQ. unfold AddToNameHash. pose proof (pt_NameHash_range aname) as Hr.
  assert (Hb : b ∈ {[b]} ∪ E) by by apply elem_of_union_l, elem_of_singleton.
  assert (Hal : aligned b) by by apply (block_aligned s), (ok_entry _ _ _ _ _ Hok).
  cbv zeta. apply pt_bind, wp_or_code, wp_ReadEntry; [done|]. intros s1 A1. apply pt_bind, pt_get. rewrite (al_head _ _ _ A1).
  pose proof (name_head_s32 _ _ _ E s _ Hok ltac:(apply union_subseteq_r) Hn Hr) as Hh.
  apply wp_hash_in; [apply A1|unfold w_nameHash, sizeof_prheader, HASHSIZE in *; lia|done|apply eo_nextName; [done|by apply (ent_ok q)]|].
  intros s' Hd Eh Ee. assert (Hd' : delta q [b] [w_nameHash (NameHash aname)] s s').
  { apply (delta_trans q [] [b] [] [w_nameHash (NameHash aname)] s s1); [by apply delta_alike|done]. }
  apply (HQ (cheader s (w_nameHash (NameHash aname))) s'); try done.
  - apply (ok_delta q _ _ _ [b] [w_nameHash (NameHash aname)] s); [done|done| |].
    + intros k ->%list_elem_of_singleton [Hk|[Hk|(i & Hi & Hk)]]; unfold w_nameHash, w_idHash, w_freePtr, w_eofPtr, HASHSIZE in *; lia.
    + intros p ->%list_elem_of_singleton. left. split; [done|]. by rewrite Ee.
  - apply (names_new q E K F b s s' (NameHash aname)); try done; rewrite Ee; cbn [name flags nextName with_nextName]; try done.
    + by apply NameHash_cstr.
    + by rewrite Enm.
    + by rewrite Enm.
    + intros Hc. apply Hco. revert Hc. unfold strchr. by rewrite Enm.
Qed.

Lemma wp_enter q E K F b tentry aname (Q : unit -> ptdb -> Prop) Er s :
  good q s -> ok E K F s -> names E s -> spare E K F s b -> entry_ok tentry -> blank tentry ->
  (forall p, p ∈ E -> id (ent s p) <> id tentry) ->
  cstr (name tentry) = cstr aname -> (forall p, p ∈ E -> cstr (name (ent s p)) <> cstr aname) -> (length (cstr aname) < 64)%nat ->
  (strchr 58 aname = true -> has (flags tentry) PRGRP = true) ->
  (id tentry = 0 \/ id tentry = PRBADID -> forall s', good q s' -> Er PRINCONSISTENT s') ->
  (id tentry <> 0 -> id tentry <> PRBADID -> forall h1 h2 s', delta q [b] [w_idHash (IDHash (id tentry)); w_nameHash (NameHash aname)] s s' ->
     ent s' b = with_nextName h2 (with_nextID h1 tentry) -> ok ({[b]} ∪ E) (setK K b []) F s' -> names ({[b]} ∪ E) s' -> Q tt s') ->
  wp q (enter tentry aname b) Q Er s.
Proof.
  intros Hg Hok Hn Hsp He Hbl Hfr Enm Hfn Hsh Hco HI HQ. unfold enter.
  assert (Hal : aligned b) by (apply (block_aligned s), Hsp). pose proof (spare_out _ _ _ _ _ Hsp) as HbE.
  apply pt_bind, wp_or_code, wp_WriteEntry; [done|by apply aligned_low|done|]. intros s1 W1 E1.
  pose proof (delta_wrote _ _ _ _ Hal W1) as D1.
  assert (Hok1 : ok E K F s1) by (apply (ok_delta q _ _ _ [b] [] s); try done; [by intros k ?%not_elem_of_nil|]; intros p ->%list_elem_of_singleton; by right).
  assert (Hsame1 : forall p, p ∈ E -> ent s1 p = ent s p).
  { intros p Hp. apply (dl_blocks _ _ _ _ _ D1); [by apply (block_aligned s), (ok_entry _ _ _ _ _ Hok)|]. by intros ->%list_elem_of_singleton. }
  assert (Hn1 : names E s1) by (apply (names_delta q E K F [b] [] s); try done; [by intros k ?%not_elem_of_nil|]; by intros p ->%list_elem_of_singleton).
  assert (Hsp1 : spare E K F s1 b) by (apply (spare_delta q _ _ _ [b] [] s); [done|apply not_elem_of_nil|done]).
  apply pt_bind. rewrite <- E1 at 1. apply (wp_AddToIDHash q E K F); rewrite ?E1; try done; [apply W1| | |].
  { intros p Hp. rewrite Hsame1 by done. by apply Hfr. }
  { intros Hz. apply HI; [done|apply W1]. }
  intros Hi0 Hib h1 s2 Hh1 D2 E2 Hok2.
  assert (Hsame2 : forall p, p ∈ E -> ent s2 p = ent s p).
  { intros p Hp. rewrite <- Hsame1 by done. apply (dl_blocks _ _ _ _ _ D2); [by apply (block_aligned s), (ok_entry _ _ _ _ _ Hok)|]. by intros ->%list_elem_of_singleton. }
  assert (Hn2 : names E s2).
  { apply (names_delta q E K F [b] [w_idHash (IDHash (id tentry))] s1); try done.
    - destruct (fields_s32 _ He) as (_ & Hi & _). pose proof (pt_IDHash_range _ Hi Hib) as Hr.
      intros k ->%list_elem_of_singleton (i & Hi' & Hk). unfold w_nameHash, w_idHash, HASHSIZE in *. lia.
    - by intros p ->%list_elem_of_singleton. }
  apply (wp_AddToNameHash q E K F); try done.
  - apply D2.
  - by rewrite E2.
  - intros p Hp. rewrite Hsame2 by done. by apply Hfn.
  - by rewrite E2.
  - intros h2 s' Hh2 D3 E3 Hok3 Hn3. apply (HQ Hi0 Hib h1 h2); try done; [|by rewrite E3, E2].
    apply (delta_sub q ([b] ++ [b] ++ [b]) [b] ([] ++ [w_idHash (IDHash (id tentry))] ++ [w_nameHash (NameHash aname)]) _ s s').
    + intros p. rewrite !elem_of_app. tauto.
    + done.
    + apply (delta_trans _ _ _ _ _ _ s1); [done|]. by apply (delta_trans _ _ _ _ _ _ s2).
Qed.
