(* ===== verification/PtOwn.v ===== *)
(** * The protection database: a new entry gets its owner *)

From stdpp Require Import prelude list gmap.
From Stdlib Require Import ZArith Lia ZifyBool.
From S2P Require Import Prelude ByteMem Pt PtBlock PtOk PtList PtStep PtFrame PtNames PtAdd PtEntry PtEnter.

#[local] Open Scope Z_scope.
#[local] Open Scope pt_scope.

Section Owner.
Context (E : gset Z) (b : Z) (HbE : b ∉ E).
#[local] Abbreviation E' := ({[b]} ∪ E).

(** What holds of the entries that were there when [b] is new: [tip o] is the head of
    the chain of [o], and [b] is before it on the chain of its owner. *)
Lemma owners_new s s' (tip : Z -> Z) :
  owners E s -> b <> 0 ->
  (forall p, p ∈ E -> id (ent s p) <> id (ent s' b)) ->
  cheader s' w_orphan = cheader s w_orphan ->
  (forall p, p ∈ E -> id (ent s' p) = id (ent s p) /\ owner (ent s' p) = owner (ent s p)
     /\ has (flags (ent s' p)) PRGRP = has (flags (ent s p)) PRGRP /\ nextOwned (ent s' p) = nextOwned (ent s p)) ->
  (forall p, p ∈ E -> tip p = owned (ent s p)) -> tip b = 0 -> id (ent s' b) <> 0 ->
  (forall o, o ∈ E' -> if has (flags (ent s' b)) PRGRP && (id (ent s' o) =? owner (ent s' b))
     then owned (ent s' o) = b /\ nextOwned (ent s' b) = tip o else owned (ent s' o) = tip o) ->
  (grouped s' b -> owner (ent s' b) <> 0 /\ exists o, o ∈ E' /\ id (ent s' o) = owner (ent s' b)) ->
  owners E' s'.
Proof using HbE.
  intros [O1 O2 O3] Hb0 Hfr Horp He Htip Htb Hi0 Hown Hgb.
  assert (Hob : forall o p, p <> b -> owned_by E' s' o p <-> owned_by E s o p).
  { intros o p Hne. unfold owned_by, grouped. rewrite elem_of_union, elem_of_singleton. split.
    - intros ([?|Hp] & H1 & H2); [done|]. destruct (He p Hp) as (_ & E2 & E3 & _). by rewrite E2, E3 in *.
    - intros (Hp & H1 & H2). destruct (He p Hp) as (_ & E2 & E3 & _). rewrite E2, E3. auto. }
  assert (Hnb : forall o, ~ owned_by E s o b) by (intros o [? _]; done).
  assert (Hnx : forall o p, owned_by E s o p -> nextOwned (ent s' p) = nextOwned (ent s p)) by (intros o p [Hp _]; by apply He).
  assert (Hth : forall o, o ∈ E' -> threaded (fun p => nextOwned (ent s p)) (tip o) (owned_by E s (id (ent s' o)))).
  { intros o [Ho|Ho]%elem_of_union.
    - apply elem_of_singleton in Ho as ->. rewrite Htb. exists []. split; [done|]. split; [apply NoDup_nil_2|].
      intros p. split; [by intros ?%not_elem_of_nil|]. intros (Hp & Hg & Eo). exfalso.
      destruct (O3 p Hp Hg) as (o & Ho & Eoo); [congruence|]. by destruct (Hfr o Ho); congruence.
    - rewrite Htip by done. rewrite (proj1 (He o Ho)). by apply O1. }
  split.
  - intros o Ho. specialize (Hown o Ho). specialize (Hth o Ho). destruct (has (flags (ent s' b)) PRGRP && (id (ent s' o) =? owner (ent s' b))) eqn:Hno.
    + apply andb_prop in Hno as [Hg Eo%Z.eqb_eq]. destruct Hown as [-> En]. apply (threaded_cons (fun p => nextOwned (ent s p)) _ b (tip o) (owned_by E s (id (ent s' o)))); try done; [by apply Hnx|].
      intros p. destruct (decide (p = b)) as [->|Hne]; [|rewrite Hob by done; tauto]. split; [by left|]. intros _. split; [by apply elem_of_union_l, elem_of_singleton|done].
    + rewrite Hown. generalize Hth. apply threaded_ext; [by apply Hnx|]. intros p. destruct (decide (p = b)) as [->|Hne]; [|by rewrite Hob].
      split; [by intros ?%Hnb|]. intros (_ & Hg & Eo). unfold grouped in Hg. rewrite Hg, Eo, Z.eqb_refl in Hno. discriminate Hno.
  - rewrite Horp. generalize O2. apply threaded_ext; [by apply Hnx|]. intros p. destruct (decide (p = b)) as [->|Hne]; [|by rewrite Hob].
    split; [by intros ?%Hnb|]. intros (_ & Hg & Eo). by destruct (Hgb Hg).
  - intros p [Hp|Hp]%elem_of_union Hg Hne.
    + apply elem_of_singleton in Hp as ->. by apply Hgb.
    + unfold grouped in Hg. destruct (He p Hp) as (_ & E2 & E3 & _). rewrite E2, E3 in *. destruct (O3 p Hp Hg Hne) as (o & Ho & Eo).
      exists o. split; [by apply elem_of_union_r|]. by rewrite (proj1 (He o Ho)).
Qed.

(** Users are on no chain. *)
Lemma owners_user s : owners E s -> b <> 0 -> (forall p, p ∈ E -> id (ent s p) <> id (ent s b)) -> id (ent s b) <> 0 ->
  has (flags (ent s b)) PRGRP = false -> owned (ent s b) = 0 -> owners E' s.
Proof using HbE.
  intros Ho Hb0 Hfr Hi0 Hg Ho0. apply (owners_new s s (fun p => owned (ent s p))); try done.
  - intros o _. by rewrite Hg.
  - unfold grouped. by rewrite Hg.
Qed.

(** The entries but for the chains of owners. *)
Definition rechained (e e' : prentry) : Prop := exists od nx, e' = with_owned od (with_nextOwned nx e).
Lemma rechained_kept e e' : rechained e e' -> kept e e'.
Proof using Type. by intros (od & nx & ->). Qed.

(** The chain of the owner [o] now begins with [b]; [o] may be [b]. *)
Lemma owners_link q K F s s' o :
  ok E' (setK K b []) F s -> owners E s -> names E' s -> grouped s b -> owned (ent s b) = 0 -> owner (ent s b) <> 0 ->
  o ∈ E' -> id (ent s o) = owner (ent s b) -> delta q [b; o] [] s s' ->
  ent s' o = with_owned b (if o =? b then with_nextOwned (owned (ent s o)) (ent s o) else ent s o) ->
  (o <> b -> ent s' b = with_nextOwned (owned (ent s o)) (ent s b)) ->
  ok E' (setK K b []) F s' /\ names E' s' /\ owners E' s' /\ (forall p, p ∈ E' -> rechained (ent s p) (ent s' p))
  /\ forall p, p ∈ E' -> members s' p (setK K b [] p) = members s p (setK K b [] p).
Proof using HbE.
  intros Hok How Hnm Hg Ho0 Hw0 Ho Eo Hd Eo' Eb'.
  assert (Hb : b ∈ E') by by apply elem_of_union_l, elem_of_singleton.
  destruct (ok_block_low _ _ _ _ _ Hok (ok_entry _ _ _ _ _ Hok Hb)) as (_ & Hb0 & _).
  assert (Hre : forall p, p ∈ E' -> rechained (ent s p) (ent s' p) /\ nextOwned (ent s' p) = (if p =? b then owned (ent s o) else nextOwned (ent s p))
    /\ owned (ent s' p) = if p =? o then b else owned (ent s p)).
  { intros p Hp. destruct (decide (p = o)) as [->|H1]; [|destruct (decide (p = b)) as [->|H2]].
    - rewrite Z.eqb_refl, Eo'. destruct (o =? b); (split; [|done]); [exists b, (owned (ent s o)); done|]. exists b, (nextOwned (ent s o)). by destruct (ent s o).
    - rewrite Z.eqb_refl, (proj2 (Z.eqb_neq b o) H1), (Eb' (not_eq_sym H1)). split; [|done]. exists (owned (ent s b)), (owned (ent s o)). by destruct (ent s b).
    - rewrite (proj2 (Z.eqb_neq p o) H1), (proj2 (Z.eqb_neq p b) H2). destruct (dl_blocks _ _ _ _ _ Hd p) as [-> _].
      + by apply (block_aligned s), (ok_entry _ _ _ _ _ Hok).
      + intros [?|[?|?%not_elem_of_nil]%elem_of_cons]%elem_of_cons; done.
      + split; [|done]. exists (owned (ent s p)), (nextOwned (ent s p)). by destruct (ent s p). }
  destruct (ok_delta q E' (setK K b []) F [b; o] [] s s') as [H1 H2]; [done|done|by intros k ?%not_elem_of_nil| |].
  { intros p Hp. left. assert (Hp' : p ∈ E') by (apply elem_of_cons in Hp as [->|[->|?%not_elem_of_nil]%elem_of_cons]; done).
    split; [done|]. by apply rechained_kept, Hre. }
  assert (Hfl : forall p, p ∈ E' -> id (ent s' p) = id (ent s p) /\ owner (ent s' p) = owner (ent s p) /\ flags (ent s' p) = flags (ent s p)
    /\ name (ent s' p) = name (ent s p) /\ nextName (ent s' p) = nextName (ent s p)).
  { intros p Hp. destruct (Hre p Hp) as [(od & nx & ->) _]. done. }
  split; [done|]. split; [|split; [|split; [|done]]].
  - apply (names_delta q E' (setK K b []) F [b; o] [] s); try done; [by intros k ?%not_elem_of_nil|].
    intros p _ Hp. destruct (Hfl p Hp) as (_ & _ & -> & -> & ->). done.
  - destruct (Hfl b Hb) as (Fb1 & Fb2 & Fb3 & _).
    apply (owners_new s s' (fun p => owned (ent s p))); try done.
    + intros p Hp. rewrite Fb1. intros Ei. apply HbE. rewrite <- (ok_unique _ _ _ _ Hok p b); [done|by apply elem_of_union_r|done|done].
    + apply (dl_words _ _ _ _ _ Hd), not_elem_of_nil.
    + intros p Hp. assert (Hp' : p ∈ E') by by apply elem_of_union_r. destruct (Hfl p Hp') as (-> & -> & -> & _).
      destruct (Hre p Hp') as (_ & -> & _). rewrite (proj2 (Z.eqb_neq p b)); [done|]. by intros ->.
    + rewrite Fb1. by apply (ok_ids _ _ _ _ Hok).
    + intros p Hp. rewrite Fb2, Fb3, (proj1 (Hfl p Hp)), Hg. cbn [andb]. destruct (Hre p Hp) as (_ & _ & ->). destruct (Hre b Hb) as (_ & -> & _). rewrite Z.eqb_refl.
      destruct (Z.eqb_spec (id (ent s p)) (owner (ent s b))) as [Ei|Ei].
      * assert (p = o) as -> by (apply (ok_unique _ _ _ _ Hok); [done|done|congruence]). by rewrite Z.eqb_refl.
      * destruct (Z.eqb_spec p o) as [->|]; [done|done].
    + intros _. rewrite Fb2. split; [done|]. exists o. split; [done|]. by rewrite (proj1 (Hfl o Ho)).
  - intros p Hp. apply (Hre p Hp).
Qed.

Lemma wp_AddToOwnerChain fuel K F (Q : unit -> ptdb -> Prop) Er s :
  good False s -> ok E' (setK K b []) F s -> names E' s -> enough fuel s -> owners E s ->
  grouped s b -> owned (ent s b) = 0 ->
  ((forall p, p ∈ E' -> id (ent s p) <> owner (ent s b)) -> forall s', alike False s s' -> Er PRNOENT s') ->
  (forall o W s', o ∈ E' -> id (ent s o) = owner (ent s b) ->
     delta False W [] s s' -> ok E' (setK K b []) F s' -> names E' s' -> owners E' s' ->
     (forall p, p ∈ E' -> rechained (ent s p) (ent s' p)) ->
     (forall p, p ∈ E' -> members s' p (setK K b [] p) = members s p (setK K b [] p)) -> Q tt s') ->
  wp False (AddToOwnerChain fuel (id (ent s b)) (owner (ent s b))) Q Er s.
Proof using HbE.
  intros Hg Hok Hnm Hf How Hgr Ho0 HN HQ. unfold AddToOwnerChain.
  assert (Hb : b ∈ E') by by apply elem_of_union_l, elem_of_singleton.
  assert (Hs32 : forall p, p ∈ E' -> is_s32 p) by (intros p Hp; by apply (ok_block_low _ _ _ _ _ Hok), (ok_entry _ _ _ _ _ Hok)).
  destruct (fields_s32 _ (ent_ok False s b Hg)) as (_ & Hi32 & Hw32 & _).
  assert (Hal : forall p, p ∈ E' -> aligned p) by (intros p Hp; by apply (block_aligned s), (ok_entry _ _ _ _ _ Hok)).
  apply pt_bind, (wp_FindByID _ _ E' (setK K b []) F); try done; [intros s1 A1 Hno; by apply wp_fail, HN|].
  intros o s1 A1 Ho Eo. destruct (ok_block_low _ _ _ _ _ Hok (ok_entry _ _ _ _ _ Hok Ho)) as (Holow & Hone & _).
  rewrite (proj2 (Z.eqb_neq o 0) Hone). apply pt_bind, wp_or_code, wp_ReadEntry; [apply A1|]. intros s2 A2. rewrite (al_ent _ _ _ o A1).
  assert (A2' : alike False s s2) by by apply (alike_trans _ _ s1). clear A1 A2 s1.
  assert (Hw0 : owner (ent s b) <> 0) by (rewrite <- Eo; by apply (ok_ids _ _ _ _ Hok)).
  pose proof (ent_ok False s o Hg) as Heo. destruct (fields_s32 _ Heo) as (_ & _ & _ & _ & _ & _ & _ & Hod & _).
  assert (Hlink : forall s', delta False [b; o] [] s s' ->
    ent s' o = with_owned b (if o =? b then with_nextOwned (owned (ent s o)) (ent s o) else ent s o) ->
    (o <> b -> ent s' b = with_nextOwned (owned (ent s o)) (ent s b)) -> Q tt s').
  { intros s' Hd E1 E2. destruct (owners_link False K F s s' o Hok How Hnm Hgr Ho0 Hw0 Ho Eo Hd E1 E2) as (L1 & L2 & L3 & L4 & L5).
    by apply (HQ o [b; o]). }
  destruct (Z.eqb_spec (owner (ent s b)) (id (ent s b))) as [Es|Hns].
  - assert (o = b) as -> by (apply (ok_unique _ _ _ _ Hok); [done|done|congruence]).
    apply wp_or_code, wp_WriteEntry; [apply A2'|done|auto with ptw|]. intros s3 W3 E3. apply Hlink; [|by rewrite Z.eqb_refl|done].
    apply (delta_sub _ ([] ++ [b]) _ ([] ++ []) [] s s3); [intros p ->%list_elem_of_singleton; left|done|].
    apply (delta_trans _ _ _ _ _ _ s2); [by apply delta_alike|]. apply delta_wrote; [by apply Hal|done].
  - assert (Hob : o <> b) by (intros ->; congruence).
    apply pt_bind, (wp_FindByID _ _ E' (setK K b []) F); [apply A2'|by apply (ok_alike False _ _ _ s)|unfold enough, eof in *; by rewrite (al_head _ _ _ A2')|done| |..]; [| |done].
    { intros s3 _ Hno. destruct (Hno b Hb). by rewrite (al_ent _ _ _ b A2'). }
    intros g s3 A3 Hgin Eg. rewrite !(al_ent _ _ _ _ A2') in Eg. assert (g = b) as -> by by apply (ok_unique _ _ _ _ Hok).
    assert (A3' : alike False s s3) by by apply (alike_trans _ _ s2).
    apply pt_bind, wp_or_code, wp_ReadEntry; [apply A3|]. intros s4 A4. rewrite (al_ent _ _ _ b A3'). assert (A4' : alike False s s4) by by apply (alike_trans _ _ s3).
    apply pt_bind, wp_or_code, wp_WriteEntry; [apply A4|by apply aligned_low, Hal|apply eo_nextOwned; [done|by apply (ent_ok False)]|]. intros s5 W5 E5.
    apply wp_or_code, wp_WriteEntry; [apply W5|done|apply eo_owned; [by apply Hs32|done]|]. intros s6 W6 E6.
    apply Hlink.
    + apply (delta_sub _ ([] ++ [b] ++ [o]) _ ([] ++ [] ++ []) [] s s6); [done|done|].
      apply (delta_trans _ _ _ _ _ _ s4); [by apply delta_alike|]. apply (delta_trans _ _ _ _ _ _ s5); (apply delta_wrote; [by apply Hal|done]).
    + by rewrite (proj2 (Z.eqb_neq o b) Hob).
    + intros _. rewrite <- E5. apply (wr_apart _ _ _ _ W6), aligned_apart; [by apply Hal|by apply Hal|]. by apply not_eq_sym.
Qed.

End Owner.
