(* ===== verification/PtNewSpec.v ===== *)
(** * The protection database: what creating an entry does to the abstract database *)

From stdpp Require Import prelude list gmap sorting.
From Stdlib Require Import ZArith Lia ZifyBool.
From S2P Require Import Prelude ByteMem Pt PtBlock PtOk PtList PtStep PtFrame PtNames PtRead PtSpec PtServe PtEntry.

#[local] Open Scope Z_scope.

Definition put (i : Z) (x : person) (D : adb) : adb := mkAdb (<[i := x]> (people D)) (enrol D) (maxID D) (maxGroup D).
Definition with_maxes (u g : Z) (D : adb) : adb := mkAdb (people D) (enrol D) u g.

(** Who has the name. *)
Definition named (D : adb) (nm : list Z) : option (Z * person) :=
  head (filter (fun ix => p_name ix.2 = cstr nm) (map_to_list (people D))).
Definition known (D : adb) (i : Z) : bool := bool_decide (is_Some (people D !! i)).

(** ** Ids *)

Fixpoint a_free (n : nat) (D : adb) (aid step : Z) (stop : option Z) : option Z :=
  if bool_decide (stop = Some aid) then None
  else match n with
  | O => None
  | S n => let aid := s32 (aid + step) in if known D aid then a_free n D aid step stop else Some aid
  end.
Definition a_alloc (group : bool) (D : adb) : option (Z * adb) :=
  if group then (fun aid => (aid, with_maxes (maxID D) aid D)) <$> a_free 50 D (maxGroup D) (-1) (Some PRBADID)
  else (fun aid => (aid, with_maxes aid (maxGroup D) D)) <$> a_free 50 D (maxID D) 1 (Some 2147483647).

Fixpoint a_next_foreign (n : nat) (D : adb) (i cellid : Z) : option Z :=
  match n with
  | O => None
  | S n =>
      if known D (foreign_id i cellid) then if 65535 <? i + 1 then None else a_next_foreign n D (i + 1) cellid
      else Some i
  end.
(** The id of a new foreign user, and the highest number in the cell's group [gid]. *)
Definition a_foreign_id (D : adb) (gid nu : Z) (idflag : option Z) : Z + (Z * Z) :=
  let cellid := Z.land gid 65535 in
  match idflag with
  | Some aid =>
      if negb (Z.land aid 65535 =? cellid) then inl PRBADARG
      else inr (aid, if u32 nu <? u32 (Z.shiftr aid 16) then s32 (u32 (Z.shiftr aid 16)) else nu)
  | None =>
      let i := s32 (nu + 1) in
      match a_next_foreign (S (Z.to_nat (65535 - i))) D i cellid with
      | None => inl PRNOIDS
      | Some i => if foreign_id i cellid =? 0 then inl PRNOIDS else inr (foreign_id i cellid, i)
      end
  end.

(** ** Names of groups *)

(** What comes before the colon: the name of the owner, or what is before the colon in
    it; [None]: anything. *)
Definition a_prefix (D : adb) (oid : Z) (admin : bool) : Z + option (list Z) :=
  if oid =? SYSADMINID then inr (Some str_system)
  else
    match people D !! oid with
    | None => if admin then inr None else inl PRNOENT
    | Some o =>
        if is_group o then
          if bool_decide (roster D oid o = []) && negb admin then inl PRGROUPEMPTY else inr (Some (before colon (p_name o)))
        else inr (Some (p_name o))
    end.
Definition a_group_name (cf : config) (D : adb) (nm : list Z) (oid : Z) (admin : bool) : Z + list Z :=
  let checked n := if legal_name n then inr n else inl PRBADNAM in
  if PR_MAXNAMELEN <=? strlen nm then inl PRBADNAM
  else
    match a_prefix D oid admin with
    | inl c => inl c
    | inr None => checked (cstr nm)
    | inr (Some prefix) =>
        if bool_decide (prefix = str_system) && negb admin then inl PRPERM
        else if pr_noAuth cf then checked (cstr nm)
        else if negb (strchr colon nm) then if admin then checked (cstr nm) else inl PRBADNAM
        else
          let suffix := from colon (cstr nm) in
          if PR_MAXNAMELEN <=? Z.of_nat (length prefix + length suffix) then inl PRBADNAM else checked (prefix ++ suffix)
    end.

(** May an entry have this name? *)
Definition a_name_ok (cf : config) (D : adb) (nm : list Z) (group : bool) (oid : Z) (admin : bool) : Z + unit :=
  if group then
    match a_group_name cf D nm oid admin with
    | inl c => inl c
    | inr n => if strcmp0 nm n then inr tt else inl PRBADNAM
    end
  else if CorrectUserName nm then inr tt else inl PRBADNAM.

(** ** Quotas *)

Definition p_with_quota (g u : Z) (x : person) : person :=
  mkPerson (Z.lor (p_flags x) PRQUOTA) (p_owner x) (p_creator x) g u (p_cellid x) (p_name x).
Definition p_quota (g : Z) (u : person -> Z) (x : person) : person :=
  if has (p_flags x) PRQUOTA then x else p_with_quota g (u x) x.
Definition p_with_ngroups (g : Z) (x : person) : person :=
  mkPerson (p_flags x) (p_owner x) (p_creator x) g (p_nusers x) (p_cellid x) (p_name x).
Definition p_with_nusers (u : Z) (x : person) : person :=
  mkPerson (p_flags x) (p_owner x) (p_creator x) (p_ngroups x) u (p_cellid x) (p_name x).

Definition a_charge (cf : config) (D : adb) (creator : Z) : Z + adb :=
  match people D !! creator with
  | None => inr D
  | Some x =>
      let x := p_quota 20 (fun _ => 20) x in
      if member D creator SYSADMINID then inr (put creator x D)
      else if p_ngroups x =? 0 then if pr_noAuth cf then inr (put creator x D) else inl PRNOMORE
      else inr (put creator (p_with_ngroups (s32 (p_ngroups x - 1)) x) D)
  end.

(** ** Creation *)

Definition bad_id (aid : Z) : bool := (aid =? 0) || (aid =? PRBADID).
Definition made_by (creator aid : Z) : Z := if creator =? 0 then aid else creator.

Definition a_create_local (cf : config) (D : adb) (nm : list Z) (group : bool) (oid creator aid : Z) : Z + (Z * adb) :=
  let D := if group then with_maxes (maxID D) (Z.min aid (maxGroup D)) D else with_maxes (Z.max aid (maxID D)) (maxGroup D) D in
  match (if group then a_charge cf D creator else inr D) with
  | inl c => inl c
  | inr D =>
      if bad_id aid then inl PRINCONSISTENT
      else
        let x := if group then mkPerson PRGRP oid (made_by creator aid) 0 0 0 (cstr nm)
                 else mkPerson PRQUOTA SYSADMINID (made_by creator aid) 20 20 0 (cstr nm) in
        let D := put aid x D in
        if group && negb (known D oid) then inl PRNOENT else inr (aid, D)
  end.

Definition a_create_foreign (cf : config) (D : adb) (nm : list Z) (idflag : option Z) (creator : Z) : Z + (Z * adb) :=
  match named D (AUTHUSER_GROUP ++ from atsign (cstr nm)) with
  | None => inl PRBADNAM
  | Some (gid, g) =>
      match a_foreign_id D gid (p_nusers g) idflag with
      | inl c => inl c
      | inr (aid, nu) =>
          let g := p_quota 30 p_nusers (p_with_nusers nu g) in
          if (p_ngroups g <=? 0) && negb (pr_noAuth cf) then inl PRNOMORE
          else if bad_id aid then inl PRINCONSISTENT
          else
            let D := put gid (p_with_ngroups (s32 (p_ngroups g - 1)) g) D in
            let D := put aid (mkPerson 0 SYSADMINID (made_by creator aid) 0 0 gid (cstr nm)) D in
            inr (aid, with_enrol ({[(aid, gid)]} ∪ enrol D) D)
      end
  end.

Definition a_create (cf : config) (D : adb) (nm : list Z) (idflag : option Z) (flag oid creator : Z) : Z + (Z * adb) :=
  let admin := pr_noAuth cf || member D creator SYSADMINID in
  let defaulted := (oid =? 0) || (oid =? ANONYMOUSID) in
  let group := has flag PRGRP in
  if defaulted && negb admin && (creator =? 0) then inl PRBADARG
  else
    let oid := if defaulted then creator else oid in
    match a_name_ok cf D nm group oid admin with
    | inl c => inl c
    | inr _ =>
        if bool_decide (is_Some (named D nm)) then inl PREXIST
        else if negb group && negb (flag =? 0) then inl PRBADARG
        else if strchr atsign nm && negb group then a_create_foreign cf D nm idflag creator
        else if strchr atsign nm && negb (strcmp0 AUTHUSER_GROUP (before atsign (cstr nm))) then inl PRBADNAM
        else
          match (match idflag with Some aid => Some (aid, D) | None => a_alloc group D end) with
          | None => inl PRNOIDS
          | Some (aid, D) => a_create_local cf D nm group oid creator aid
          end
    end.

(** ** The handlers *)

Definition a_create_ok (cf : config) (cid oid flag : Z) (admin : bool) : bool :=
  negb (restricted cf && negb admin)
  && negb (has flag PRFOREIGN)
  && (if has flag PRGRP then negb ((cid =? ANONYMOUSID) && ((oid =? 0) || negb (pr_noAuth cf)))
      else negb (oid =? ANONYMOUSID) && (admin || pr_noAuth cf)).

Definition a_inew (cf : config) (cid : Z) (nm : list Z) (aid oid : Z) (D : adb) : Z + (Z * adb) :=
  let nm := stolower nm in
  let admin := member D cid SYSADMINID in
  let gflag := if aid <? 0 then PRGRP else 0 in
  if aid =? 0 then inl PRPERM
  else if (aid <? 0) && negb admin && negb (pr_noAuth cf) && negb (aid =? s32 (maxGroup D - 1)) then inl PRPERM
  else if known D aid then inl PRIDEXIST
  else if negb (a_create_ok cf cid oid gflag admin) then inl PRPERM
  else a_create cf D nm (Some aid) gflag oid cid.

(** [foreign] is the name of the caller when it is of another cell: it may register
    itself. *)
Definition a_new (cf : config) (cid : Z) (foreign : option (list Z)) (nm : list Z) (flag oid : Z) (D : adb) : Z + (Z * adb) :=
  let nm := stolower nm in
  let self := match foreign with Some cname => negb (restricted cf) && strcmp0 nm cname | None => false end in
  let admin := self || member D cid SYSADMINID in
  if self && negb (oid =? 0) then inl PRPERM
  else
    let oid := if self then SYSADMINID else oid in
    if negb (a_create_ok cf cid oid flag admin) then inl PRPERM else a_create cf D nm None flag oid cid.
