(* ===== verification/PtNew.v ===== *)
(** * The protection database: creating an entry

    The database on disk after the creation of an entry represents the abstract database
    after it. *)

From stdpp Require Import prelude list gmap sorting.
From Stdlib Require Import ZArith Lia ZifyBool.
From S2P Require Import Prelude ByteMem Pt PtBlock PtOk PtList PtStep PtFrame PtNames PtAdd PtRead PtSpec PtServe PtEntry PtEnter PtOwn PtNewSpec.

#[local] Open Scope Z_scope.
#[local] Open Scope pt_scope.

(** ** The abstract database follows *)

Lemma shows_frame D E K s s' :
  shows D E K s ->
  (forall p, p ∈ E -> id (ent s' p) = id (ent s p) /\ person_of (ent s' p) = person_of (ent s p) /\ members s' p (K p) = members s p (K p)) ->
  shows (with_maxes (cheader s' w_maxID) (cheader s' w_maxGroup) D) E K s'.
Proof.
  intros [S1 S2 S3 _] He.
  assert (Hf : forall p, p ∈ E -> flags (ent s' p) = flags (ent s p)) by (intros p Hp; destruct (He p Hp) as (_ & H & _); by apply (f_equal p_flags) in H).
  split; cbn [people enrol maxID maxGroup with_maxes]; [..|done].
  - intros i x. rewrite S1. split; intros (p & H1 & H2 & H3); exists p; destruct (He p H1) as (E1 & E2 & _); rewrite E1, E2 in *; done.
  - intros u g. rewrite S2. split; intros (p & H1 & H2 & H3 & H4); exists p; destruct (He p H1) as (E1 & _ & E3); pose proof (Hf p H1) as E4; rewrite E1, E3, E4 in *; done.
  - intros u g. rewrite S3. split; intros (p & H1 & H2 & H3 & H4); exists p; destruct (He p H1) as (E1 & _ & E3); pose proof (Hf p H1) as E4; rewrite E1, E3, E4 in *; done.
Qed.

Lemma shows_put D E K s s' p :
  shows D E K s -> p ∈ E -> (forall e e', e ∈ E -> e' ∈ E -> id (ent s e) = id (ent s e') -> e = e') ->
  (forall e, e ∈ E -> id (ent s' e) = id (ent s e) /\ members s' e (K e) = members s e (K e)) ->
  (forall e, e ∈ E -> e <> p -> person_of (ent s' e) = person_of (ent s e)) ->
  has (flags (ent s' p)) PRGRP = has (flags (ent s p)) PRGRP ->
  cheader s' w_maxID = cheader s w_maxID /\ cheader s' w_maxGroup = cheader s w_maxGroup ->
  shows (put (id (ent s p)) (person_of (ent s' p)) D) E K s'.
Proof.
  intros [S1 S2 S3 [S4 S5]] Hp Huq He Hpe Hg [Hm1 Hm2].
  assert (Hf : forall e, e ∈ E -> has (flags (ent s' e)) PRGRP = has (flags (ent s e)) PRGRP).
  { intros e He'. destruct (decide (e = p)) as [->|Hne]; [done|]. pose proof (Hpe e He' Hne) as H. apply (f_equal p_flags) in H. cbn in H. by rewrite H. }
  split; cbn [people enrol maxID maxGroup put]; [..|by rewrite Hm1, Hm2].
  - intros i x. rewrite lookup_insert_Some, S1. split.
    + intros [[<- <-]|[Hne (e & H1 & H2 & H3)]]; [exists p; split; [done|]; by split; [apply He|]|].
      exists e. split; [done|]. rewrite (proj1 (He e H1)). split; [done|]. rewrite Hpe; [done|done|]. by intros ->.
    + intros (e & H1 & H2 & H3). rewrite (proj1 (He e H1)) in H2. destruct (decide (e = p)) as [->|Hne]; [by left|]. right.
      split; [intros Ei; apply Hne, Huq; [done|done|congruence]|]. exists e. split; [done|]. split; [done|]. by rewrite <- Hpe.
  - intros u g. rewrite S2. split; intros (e & H1 & H2 & H3 & H4); exists e; destruct (He e H1) as (E1 & E3); pose proof (Hf e H1) as E4; rewrite E1, E3, E4 in *; done.
  - intros u g. rewrite S3. split; intros (e & H1 & H2 & H3 & H4); exists e; destruct (He e H1) as (E1 & E3); pose proof (Hf e H1) as E4; rewrite E1, E3, E4 in *; done.
Qed.

Lemma shows_new D E K s s' b :
  shows D E K s -> (b ∉ E) -> (forall p, p ∈ E -> id (ent s p) <> id (ent s' b)) ->
  (forall p, p ∈ E -> id (ent s' p) = id (ent s p) /\ person_of (ent s' p) = person_of (ent s p) /\ members s' p (K p) = members s p (K p)) ->
  members s' b [] = [] ->
  cheader s' w_maxID = cheader s w_maxID /\ cheader s' w_maxGroup = cheader s w_maxGroup ->
  shows (put (id (ent s' b)) (person_of (ent s' b)) D) ({[b]} ∪ E) (setK K b []) s'.
Proof.
  intros [S1 S2 S3 [S4 S5]] HbE Hfr He Hmb [Hm1 Hm2].
  assert (Hf : forall p, p ∈ E -> flags (ent s' p) = flags (ent s p)) by (intros p Hp; destruct (He p Hp) as (_ & H & _); by apply (f_equal p_flags) in H).
  assert (HK : forall p, p ∈ E -> setK K b [] p = K p) by (intros p Hp; apply setK_ne; by intros ->).
  assert (Hno : forall x, x ∉ members s' b (setK K b [] b)) by (intros x; rewrite setK_eq, Hmb; apply not_elem_of_nil).
  split; cbn [people enrol maxID maxGroup put]; [..|by rewrite Hm1, Hm2].
  - intros i x. rewrite lookup_insert_Some, S1. split.
    + intros [[<- <-]|[Hne (e & H1 & H2 & H3)]]; [exists b; by rewrite new_in; auto|].
      exists e. rewrite new_in. destruct (He e H1) as (-> & -> & _). auto.
    + intros (e & [->|H1]%new_in & H2 & H3); [by left|]. destruct (He e H1) as (E1 & E2 & _). rewrite E1, E2 in *. right.
      split; [intros Ei; by destruct (Hfr e H1); congruence|]. by exists e.
  - intros u g. rewrite S2. split.
    + intros (p & H1 & H2 & H3 & H4). exists p. rewrite new_in, HK by done. destruct (He p H1) as (-> & _ & ->). rewrite Hf by done. auto.
    + intros (p & [->|H1]%new_in & H2 & H3 & H4); [by apply Hno in H4|]. exists p. rewrite HK in H4 by done. destruct (He p H1) as (E1 & _ & E3).
      rewrite Hf, E1, E3 in * by done. auto.
  - intros u g. rewrite S3. split.
    + intros (p & H1 & H2 & H3 & H4). exists p. rewrite new_in, HK by done. destruct (He p H1) as (-> & _ & ->). rewrite Hf by done. auto.
    + intros (p & [->|H1]%new_in & H2 & H3 & H4); [by apply Hno in H4|]. exists p. rewrite HK in H4 by done. destruct (He p H1) as (E1 & _ & E3).
      rewrite Hf, E1, E3 in * by done. auto.
Qed.

(** ** Writes that the abstract database hardly sees *)

Definition other_word (k : Z) : Prop := ~ ok_word k /\ ~ name_word k /\ k <> w_orphan.

Lemma reps_delta q D E K F W H s s' :
  reps D E K F s -> delta q W H s s' -> (forall k, k ∈ H -> other_word k) -> (forall p, p ∈ W -> spare E K F s p) ->
  reps (with_maxes (cheader s' w_maxID) (cheader s' w_maxGroup) D) E K F s'.
Proof.
  intros [R1 R2 R3 R4] Hd HH HW. assert (HWE : forall p, p ∈ W -> p ∉ E) by (intros p Hp; by apply (spare_out E K F p s), HW).
  destruct (ok_delta q E K F W H s s' R1 Hd) as [H1 H2].
  { intros k Hk. apply (HH k Hk). }
  { intros p Hp. right. by apply HW. }
  split; [done| |apply (names_delta q E K F W H s); try done|apply (owners_delta q E K F W H s); try done].
  - apply (shows_frame D E K s); [done|]. intros p Hp. rewrite H2 by done.
    destruct (dl_blocks _ _ _ _ _ Hd p) as [-> _]; [by apply (block_aligned s), (ok_entry _ _ _ _ _ R1)|intros Hin; by apply (HWE p)|done].
  - intros k Hk. apply (HH k Hk).
  - intros p Hp Hp'. by destruct (HWE p Hp).
  - intros Hin. by destruct (HH _ Hin) as (_ & _ & ?).
  - intros p Hp Hp'. by destruct (HWE p Hp).
Qed.

Lemma maxes_same D E K F s s' : reps D E K F s -> cheader s' w_maxID = cheader s w_maxID -> cheader s' w_maxGroup = cheader s w_maxGroup ->
  with_maxes (cheader s' w_maxID) (cheader s' w_maxGroup) D = D.
Proof. intros R E1 E2. destruct (sh_max _ _ _ _ (rp_shows _ _ _ _ _ R)) as [H1 H2]. rewrite E1, E2, H1, H2. by destruct D. Qed.

Lemma reps_alike q D E K F s s' : reps D E K F s -> alike q s s' -> reps D E K F s'.
Proof.
  intros R A. pose proof (reps_delta q D E K F [] [] s s' R (delta_alike _ _ _ A) ltac:(by intros ? ?%not_elem_of_nil) ltac:(by intros ? ?%not_elem_of_nil)) as H.
  rewrite (maxes_same D E K F s s' R) in H; [done|by rewrite (al_head _ _ _ A)..].
Qed.

(** The entry at [p] is written with other quotas. *)
Definition requota (e e' : prentry) : Prop := exists fl g u, has fl PRGRP = has (flags e) PRGRP /\ e' = with_flags fl (with_ngroups g (with_nusers u e)).
Lemma reps_requota q D E K F s s' p :
  reps D E K F s -> p ∈ E -> delta q [p] [] s s' -> requota (ent s p) (ent s' p) ->
  reps (put (id (ent s p)) (person_of (ent s' p)) D) E K F s'.
Proof.
  intros [R1 R2 R3 R4] Hp Hd (fl & g & u & Hfl & Ee).
  destruct (ok_delta q E K F [p] [] s s' R1 Hd) as [H1 H2]; [by intros ? ?%not_elem_of_nil| |].
  { intros e ->%list_elem_of_singleton. left. split; [done|]. by rewrite Ee. }
  assert (Hsame : forall e, e ∈ E -> e <> p -> ent s' e = ent s e).
  { intros e He Hne. apply (dl_blocks _ _ _ _ _ Hd); [by apply (block_aligned s), (ok_entry _ _ _ _ _ R1)|]. by intros ->%list_elem_of_singleton. }
  split; [done| |apply (names_delta q E K F [p] [] s); try done|apply (owners_delta q E K F [p] [] s); try done].
  - apply (shows_put D E K s); try done.
    + apply R1.
    + intros e He. split; [|by apply H2]. destruct (decide (e = p)) as [->|Hne]; [by rewrite Ee|by rewrite Hsame].
    + intros e He Hne. by rewrite Hsame.
    + by rewrite Ee.
    + by rewrite !(dl_words _ _ _ _ _ Hd) by apply not_elem_of_nil.
  - by intros ? ?%not_elem_of_nil.
  - intros e ->%list_elem_of_singleton _. rewrite Ee. done.
  - apply not_elem_of_nil.
  - intros e ->%list_elem_of_singleton _. rewrite Ee. done.
Qed.

(** ** Looking up *)

Section Calm.
Context (fuel : nat).

(** The database is right, ubik does not fail, and there is fuel. *)
Record calm (D : adb) (E : gset Z) (K : Z -> list Z) (F : list Z) (s : ptdb) : Prop := {
  cm_reps : reps D E K F s;
  cm_good : good False s;
  cm_fuel : enough fuel s
}.
Lemma calm_alike D E K F s s' : calm D E K F s -> alike False s s' -> calm D E K F s'.
Proof using Type. intros [C1 C2 C3] A. split; [by apply (reps_alike False D E K F s)|apply A|unfold enough, eof in *; by rewrite (al_head _ _ _ A)]. Qed.

Lemma known_at D E K F s p : reps D E K F s -> p ∈ E -> people D !! id (ent s p) = Some (person_of (ent s p)).
Proof using Type. intros R Hp. apply (sh_people _ _ _ _ (rp_shows _ _ _ _ _ R)). by exists p. Qed.
Lemma unknown_nowhere D E K F s i : reps D E K F s -> people D !! i = None <-> forall p, p ∈ E -> id (ent s p) <> i.
Proof using Type.
  intros R. split; [intros Hn p Hp Ei; by rewrite <- Ei, (known_at D E K F s) in Hn|]. intros Hn. destruct (people D !! i) as [x|] eqn:Ex; [|done].
  apply (sh_people _ _ _ _ (rp_shows _ _ _ _ _ R)) in Ex as (p & Hp & Ei & _). by destruct (Hn p Hp).
Qed.
Lemma known_false D i : known D i = false <-> people D !! i = None.
Proof using Type. unfold known. rewrite bool_decide_eq_false, eq_None_not_Some. done. Qed.
Lemma known_true D i : known D i = true <-> is_Some (people D !! i).
Proof using Type. unfold known. by rewrite bool_decide_eq_true. Qed.

Lemma wp_find D E K F aid (Q : Z -> ptdb -> Prop) Er s :
  calm D E K F s -> is_s32 aid ->
  (people D !! aid = None -> forall s', alike False s s' -> Q 0 s') ->
  (forall p s', alike False s s' -> p ∈ E -> p <> 0 -> id (ent s' p) = aid -> people D !! aid = Some (person_of (ent s' p)) -> Q p s') ->
  wp False (FindByID fuel aid) Q Er s.
Proof using Type.
  intros [C1 C2 C3] Ha HN HF. apply (wp_FindByID _ _ E K F); [done|apply C1|done|done| | |done].
  - intros s' A Hn. apply HN; [|done]. by apply (unknown_nowhere D E K F s).
  - intros p s' A Hp Ei. apply HF; try done.
    + by apply (ok_block_low _ _ _ _ _ (rp_ok _ _ _ _ _ C1)), (ok_entry _ _ _ _ _ (rp_ok _ _ _ _ _ C1)).
    + by rewrite (al_ent _ _ _ p A).
    + rewrite (al_ent _ _ _ p A), <- Ei. by apply (known_at D E K F).
Qed.
(** Is there such an id? *)
Lemma wp_find_known D E K F aid (Q : Z -> ptdb -> Prop) Er s :
  calm D E K F s -> is_s32 aid -> (forall z s', alike False s s' -> (z =? 0) = negb (known D aid) -> Q z s') ->
  wp False (FindByID fuel aid) Q Er s.
Proof using Type.
  intros C Ha HQ. apply (wp_find D E K F); try done.
  - intros Hn s' A. apply HQ; [done|]. by rewrite (proj2 (known_false D aid) Hn).
  - intros p s' A Hp Hp0 Ei Hk. apply HQ; [done|]. rewrite (proj2 (known_true D aid)) by by eexists. by apply Z.eqb_neq.
Qed.

Lemma wp_member D E K F aid gid (Q : bool -> ptdb -> Prop) Er s :
  calm D E K F s -> is_s32 gid -> aid <> PRBADID -> (forall s', alike False s s' -> Q (member D aid gid) s') ->
  wp False (IsAMemberOf fuel aid gid) Q Er s.
Proof using Type.
  intros [C1 C2 C3] Hg Ha HQ. apply (answers_later fuel False D E K F s (rp_ok _ _ _ _ _ C1) (rp_shows _ _ _ _ _ C1) C3 aid gid s C2 (alike_refl _ _ C2) Hg Ha).
  intros r s' A [->|[[] _]]. by apply HQ.
Qed.

(** ** Looking up a name *)

Lemma same64_short a b : (length (cstr b) < 64)%nat -> same64 a b = true <-> cstr a = cstr b.
Proof using Type.
  intros Hb. unfold same64. rewrite bool_decide_eq_true, (take_ge (cstr b)) by lia. split; [|intros ->; by rewrite take_ge by lia].
  intros E. rewrite <- E. symmetry. apply take_ge. rewrite <- E, length_take in Hb. lia.
Qed.

Lemma wp_find_name_chain E n aname entry l (Q : option (Z * prentry) -> ptdb -> Prop) Er s :
  good False s -> names E s -> (forall p, p ∈ l -> p ∈ E) -> chain (fun p => nextName (ent s p)) entry l -> NoDup l -> (length l <= n)%nat ->
  (forall s', alike False s s' -> (forall p, p ∈ l -> cstr (name (ent s p)) <> cstr aname) -> Q None s') ->
  (forall p s', alike False s s' -> p ∈ l -> cstr (name (ent s p)) = cstr aname -> Q (Some (p, ent s p)) s') ->
  wp False (find_name_chain n aname entry) Q Er s.
Proof using Type.
  revert entry l s. induction n as [|n IH]; intros entry l s Hg Hnm HlE Hl Hnd Hn HN HF; destruct l as [|p l]; cbn [chain] in Hl.
  1, 3: subst entry; cbn; apply HN; [by apply alike_refl|by intros p ?%not_elem_of_nil].
  { cbn [length] in Hn. lia. }
  destruct Hl as (-> & Hp & Hl). cbn [find_name_chain]. rewrite (proj2 (Z.eqb_neq p 0) Hp). apply NoDup_cons in Hnd as [Hpl Hnd].
  apply pt_bind, wp_try_ubik; [done| |done]. intros s' A. rewrite <- ent_eq.
  pose proof (same64_short aname (name (ent s p)) (nm_short _ _ Hnm p (HlE p ltac:(left)))) as Hs.
  destruct (same64 aname (name (ent s p))); [apply pt_ret, HF; [done|left|symmetry; by apply Hs]|].
  assert (Hne : p <> nextName (ent s p)).
  { intros Hq. destruct l as [|p2 l]; cbn [chain] in Hl; [lia|]. destruct Hl as (E2 & _). apply Hpl. rewrite Hq, E2. left. }
  rewrite (proj2 (Z.eqb_neq _ _) Hne). assert (Ee : forall x, ent s' x = ent s x) by (intros x; by apply (al_ent False)).
  apply (IH _ l); [apply A|..].
  - apply (names_frame E s); [intros; by rewrite (al_head _ _ _ A)|intros; by rewrite Ee|done].
  - intros x Hx. apply HlE. by right.
  - revert Hl. apply chain_ext. intros x _. by rewrite Ee.
  - exact Hnd.
  - cbn [length] in Hn. lia.
  - intros s2 A2 HN2. apply HN; [by apply (alike_trans _ _ s')|]. intros x [->|Hx]%elem_of_cons.
    + intros Eq. assert (false = true) by (by apply Hs). done.
    + rewrite <- Ee. by apply HN2.
  - intros x s2 A2 Hx E2. rewrite Ee in *. apply HF; [by apply (alike_trans _ _ s')|by right|done].
Qed.

Lemma named_none D E K F s nm : reps D E K F s -> named D nm = None <-> forall p, p ∈ E -> cstr (name (ent s p)) <> cstr nm.
Proof using Type.
  intros R. unfold named. rewrite head_None. split.
  - intros Hf p Hp Eq. apply (not_elem_of_nil (id (ent s p), person_of (ent s p))). rewrite <- Hf. apply list_elem_of_filter. split; [done|].
    by apply elem_of_map_to_list, (known_at D E K F).
  - intros Hn. destruct (filter _ _) as [|[i x] l] eqn:Ef; [done|]. assert (Hin : (i, x) ∈ (i, x) :: l) by left. rewrite <- Ef in Hin.
    apply list_elem_of_filter in Hin as [H1 H2%elem_of_map_to_list]. apply (sh_people _ _ _ _ (rp_shows _ _ _ _ _ R)) in H2 as (p & Hp & _ & <-).
    by destruct (Hn p Hp).
Qed.
Lemma named_some D E K F s nm p : reps D E K F s -> p ∈ E -> cstr (name (ent s p)) = cstr nm -> named D nm = Some (id (ent s p), person_of (ent s p)).
Proof using Type.
  intros R Hp Eq. destruct (named D nm) as [[i x]|] eqn:En; [|by destruct (proj1 (named_none D E K F s nm R) En p Hp)].
  unfold named in En. destruct (filter _ _) as [|ix l] eqn:Ef; [done|]. cbn in En. injection En as ->. assert (Hin : (i, x) ∈ (i, x) :: l) by left. rewrite <- Ef in Hin.
  apply list_elem_of_filter in Hin as [H1 H2%elem_of_map_to_list]. apply (sh_people _ _ _ _ (rp_shows _ _ _ _ _ R)) in H2 as (p' & Hp' & <- & <-).
  cbn in H1. by assert (p' = p) as -> by (apply (nm_unique _ _ (rp_names _ _ _ _ _ R)); [done|done|congruence]).
Qed.

Lemma wp_find_name D E K F aname (Q : option (Z * prentry) -> ptdb -> Prop) Er s :
  calm D E K F s ->
  (named D aname = None -> forall s', alike False s s' -> Q None s') ->
  (forall p s', alike False s s' -> p ∈ E -> named D aname = Some (id (ent s' p), person_of (ent s' p)) -> Q (Some (p, ent s' p)) s') ->
  wp False (FindByName fuel aname) Q Er s.
Proof using Type.
  intros [C1 C2 C3] HN HF. unfold FindByName. apply pt_bind, pt_get. pose proof (rp_names _ _ _ _ _ C1) as Hnm.
  destruct (nm_hash _ _ Hnm (NameHash aname) (pt_NameHash_range _)) as (l & Hl & Hnd & Hm).
  apply (wp_find_name_chain E _ _ _ l); try done.
  - intros p Hp. by apply Hm.
  - apply (blocks_fit _ s); [done|done|]. intros p Hp. apply (ok_entry _ _ _ _ _ (rp_ok _ _ _ _ _ C1)). by apply Hm.
  - intros s' A Hno. apply HN; [|done]. apply (named_none D E K F s); [done|]. intros p Hp Eq. apply (Hno p); [|done]. apply Hm. split; [done|]. by apply NameHash_cstr.
  - intros p s' A Hp Eq. rewrite <- (al_ent _ _ _ p A). apply HF; [done|by apply Hm|]. rewrite (al_ent _ _ _ p A). apply (named_some D E K F); [done|by apply Hm|done].
Qed.

(** ** New ids *)

Lemma wp_free_id D E K F n aid step stop (Q : option Z -> ptdb -> Prop) Er s :
  calm D E K F s -> (forall s', alike False s s' -> Q (a_free n D aid step stop) s') -> wp False (free_id fuel n aid step stop) Q Er s.
Proof using Type.
  revert aid s. induction n as [|n IH]; intros aid s C HQ; cbn [free_id a_free] in *.
  - destruct (bool_decide _); apply pt_ret, HQ, alike_refl, C.
  - destruct (bool_decide _); [apply pt_ret, HQ, alike_refl, C|]. cbv zeta in *. apply pt_bind, (wp_find_known D E K F); [done|apply s32_range|].
    intros z s' A ->. destruct (known D (s32 (aid + step))); cbn [negb]; [|by apply pt_ret, HQ].
    apply IH; [by apply (calm_alike D E K F s)|]. intros s2 A2. apply HQ. by apply (alike_trans _ _ s').
Qed.
Lemma a_free_unknown n D aid step stop i : a_free n D aid step stop = Some i -> people D !! i = None /\ is_s32 i.
Proof using Type.
  revert aid. induction n as [|n IH]; intros aid; cbn [a_free]; destruct (bool_decide _); try done.
  cbv zeta. destruct (known D _) eqn:Ek; [apply IH|]. intros [= <-]. split; [by apply known_false|apply s32_range].
Qed.

Lemma wp_next_foreign D E K F n i cellid (Q : option Z -> ptdb -> Prop) Er s :
  calm D E K F s -> (forall s', alike False s s' -> Q (a_next_foreign n D i cellid) s') -> wp False (next_foreign fuel n i cellid) Q Er s.
Proof using Type.
  revert i s. induction n as [|n IH]; intros i s C HQ; cbn [next_foreign a_next_foreign] in *; [apply pt_ret, HQ, alike_refl, C|].
  apply pt_bind, (wp_find_known D E K F); [done|apply s32_range|]. intros z s' A ->.
  destruct (known D (foreign_id i cellid)); cbn [negb]; [|by apply pt_ret, HQ]. destruct (_ <? _); [by apply pt_ret, HQ|].
  apply IH; [by apply (calm_alike D E K F s)|]. intros s2 A2. apply HQ. by apply (alike_trans _ _ s').
Qed.
Lemma a_next_foreign_unknown n D i cellid j : a_next_foreign n D i cellid = Some j -> people D !! foreign_id j cellid = None.
Proof using Type.
  revert i. induction n as [|n IH]; intros i; cbn [a_next_foreign]; [done|]. destruct (known D _) eqn:Ek; [|intros [= <-]; by apply known_false].
  destruct (_ <? _); [done|apply IH].
Qed.

End Calm.
