(* ===== verification/PtCreate.v ===== *)
(** * The protection database: creating an entry, step by step *)

From stdpp Require Import prelude list gmap sorting.
From Stdlib Require Import ZArith Lia ZifyBool.
From S2P Require Import Prelude ByteMem Pt PtBlock PtOk PtList PtStep PtFrame PtNames PtAdd PtRead PtSpec PtServe PtEntry PtEnter PtOwn PtNewSpec PtNew.

#[local] Open Scope Z_scope.
#[local] Open Scope pt_scope.

(** ** Empty groups *)

Lemma members_bound q E K F s p : good q s -> ok E K F s -> p ∈ E -> Z.of_nat (length (members s p (K p))) < 2 ^ 31.
Proof.
  intros Hg Hok Hp. destruct (ok_eof _ _ _ _ Hok) as (n & Hn & En & Hlt).
  assert (Hk : (length (K p) <= Z.to_nat n)%nat) by (apply (conts_fit _ E K F s); [done|unfold enough; lia|done]).
  assert (Hm : (length (members s p (K p)) <= length (slots s p (K p)))%nat) by apply length_filter.
  assert (Hs : length (slots s p (K p)) = (10 + 39 * length (K p))%nat).
  { unfold slots. rewrite length_app, (eo_len _ (ent_ok q s p Hg)). f_equal. generalize (K p) as l. induction l as [|b l IH]; [done|].
    cbn [map concat]. rewrite length_app, (co_len _ (con_ok s b)). cbn [length]. rewrite IH. lia. }
  unfold sizeof_prheader in *. lia.
Qed.
Lemma count_zero q D E K F s p : good q s -> reps D E K F s -> p ∈ E ->
  (count (ent s p) =? 0) = bool_decide (roster D (id (ent s p)) (person_of (ent s p)) = []).
Proof.
  intros Hg [R1 R2 _ _] Hp. pose proof (members_bound q E K F s p Hg R1 Hp) as Hb. pose proof (roster_members D E K F s p R1 R2 Hp) as Hm.
  rewrite (li_count _ _ _ (ok_lists _ _ _ _ R1 p Hp)), s32_small by (unfold is_s32; lia).
  rewrite (Permutation_length Hm). destruct (roster D _ _) as [|x l]; [done|]. cbn [length]. rewrite bool_decide_false by done. lia.
Qed.

(** ** Flags *)

Lemma lor_s32 x y : is_s32 x -> 0 <= y < 2 ^ 31 -> is_s32 (Z.lor x y).
Proof.
  intros Hx Hy. assert (H : Z.shiftr (Z.lor x y) 31 = Z.shiftr x 31).
  { rewrite Z.shiftr_lor. replace (Z.shiftr y 31) with 0; [apply Z.lor_0_r|]. rewrite Z.shiftr_div_pow2 by lia. symmetry. by apply Z.div_small. }
  rewrite !Z.shiftr_div_pow2 in H by lia. unfold is_s32 in *. assert (-1 <= x / 2 ^ 31 <= 0) by (split; [apply Z.div_le_lower_bound|apply Z.lt_succ_r, Z.div_lt_upper_bound]; lia).
  pose proof (Z.div_mod (Z.lor x y) (2 ^ 31) ltac:(lia)). pose proof (Z.mod_pos_bound (Z.lor x y) (2 ^ 31) ltac:(lia)). lia.
Qed.
Lemma has_lor_quota fl : has (Z.lor fl PRQUOTA) PRGRP = has fl PRGRP.
Proof. unfold has. rewrite Z.land_lor_distr_l. change (Z.land PRQUOTA PRGRP) with 0. by rewrite Z.lor_0_r. Qed.

(** ** Pure steps *)

(** The computation reads only, and comes to [r]. *)
Definition gives {A} (m : M A) (r : Z + A) (s : ptdb) : Prop :=
  forall (Q : A -> ptdb -> Prop) Er, (forall a s', alike False s s' -> r = inr a -> Q a s') -> (forall c s', alike False s s' -> r = inl c -> Er c s') ->
  wp False m Q Er s.
Lemma gives_ret {A} (a : A) s : good False s -> gives (ret a) (inr a) s.
Proof. intros Hg Q Er HQ _. apply pt_ret, HQ; [by apply alike_refl|done]. Qed.
Lemma gives_fail {A} c s : good False s -> gives (A := A) (fail c) (inl c) s.
Proof. intros Hg Q Er _ HE. apply wp_fail, HE; [by apply alike_refl|done]. Qed.
Lemma gives_check nm s : good False s -> gives (check_name nm) (if legal_name nm then inr nm else inl PRBADNAM) s.
Proof. intros Hg. unfold check_name. destruct (legal_name nm); [by apply gives_ret|by apply gives_fail]. Qed.
Lemma gives_bind {A B} (m : M A) (k : A -> M B) r r' s :
  gives m r s -> (forall c, r = inl c -> r' = inl c) -> (forall a s', alike False s s' -> r = inr a -> gives (k a) r' s') -> gives (bind m k) r' s.
Proof.
  intros Hm HE Hk Q Er HQ HEr. apply pt_bind, Hm; [|intros c s' A1 Ec; apply HEr; [done|by apply HE]].
  intros a s' A1 Ea. apply Hk; [done|done| |]; intros x s2 A2; [apply HQ|apply HEr]; by apply (alike_trans _ _ s').
Qed.
Lemma gives_alike {A} (m : M A) r s s' : alike False s s' -> gives m r s' ->
  forall (Q : A -> ptdb -> Prop) Er, (forall a s2, alike False s s2 -> r = inr a -> Q a s2) -> (forall c s2, alike False s s2 -> r = inl c -> Er c s2) -> wp False m Q Er s'.
Proof. intros A1 H Q Er HQ HE. apply H; intros x s2 A2; [apply HQ|apply HE]; by apply (alike_trans _ _ s'). Qed.

Section Create.
Context (fuel : nat).
#[local] Abbreviation calm := (calm fuel).

Lemma gives_prefix D E K F oid (admin : bool) s : calm D E K F s -> is_s32 oid ->
  gives (if oid =? SYSADMINID then ret (Some str_system)
         else
           do loc <- FindByID fuel oid;
           if loc =? 0 then (if admin then ret None else fail PRNOENT)
           else
             do tentry <- pr_ReadEntry loc;
             if has (flags tentry) PRGRP then
               if (count tentry =? 0) && negb admin then fail PRGROUPEMPTY
               else ret (Some (before colon (cstr (name tentry))))
             else ret (Some (cstr (name tentry)))) (a_prefix D oid admin) s.
Proof using Type.
  intros C Ho. pose proof (cm_good _ _ _ _ _ _ C) as Hg. unfold a_prefix. destruct (oid =? SYSADMINID); [by apply gives_ret|].
  intros Q Er HQ HE. apply pt_bind, (wp_find fuel D E K F); [done|done|intros Hn s1 A1|intros p s1 A1 Hp Hp0 Ei Ep]; rewrite ?Hn, ?Ep in *.
  - cbn. destruct admin; [apply pt_ret, HQ|apply wp_fail, HE]; done.
  - rewrite (proj2 (Z.eqb_neq p 0) Hp0). apply pt_bind, wp_ReadEntry; [apply A1|]. intros s2 A2. assert (A' : alike False s s2) by by apply (alike_trans _ _ s1).
    rewrite <- Ei, <- (count_zero False D E K F) in *; [|apply A1|by apply (reps_alike False D E K F s), A1; apply C|done|apply A1|by apply (reps_alike False D E K F s), A1; apply C|done].
    unfold is_group in *. cbn [p_flags p_name person_of] in *. destruct (has _ _); [|by apply pt_ret, HQ].
    destruct (_ && _); [by apply wp_fail, HE|by apply pt_ret, HQ].
Qed.

Lemma gives_CorrectGroupName D E K F cf aname oid admin s : calm D E K F s -> is_s32 oid ->
  gives (CorrectGroupName fuel cf aname oid admin) (a_group_name cf D aname oid admin) s.
Proof using Type.
  intros C Ho. pose proof (cm_good _ _ _ _ _ _ C) as Hg. unfold CorrectGroupName, a_group_name. cbv zeta.
  destruct (_ <=? strlen aname); [by apply gives_fail|].
  apply (gives_bind _ _ (a_prefix D oid admin)); [by apply (gives_prefix D E K F)|by intros c ->|].
  intros [prefix|] s1 A1 ->; [|by apply gives_check, A1]. assert (Hg1 : good False s1) by apply A1.
  destruct (_ && _); [by apply gives_fail|]. destruct (pr_noAuth cf); [by apply gives_check|].
  destruct (strchr colon aname); cbn [negb].
  - destruct (_ <=? _); [by apply gives_fail|by apply gives_check].
  - destruct admin; cbn [negb]; [by apply gives_check|by apply gives_fail].
Qed.

(** The name that is entered is the one that was asked for. *)
Lemma gives_name D E K F cf aname flag oid admin s : calm D E K F s -> is_s32 oid ->
  forall (Q : list Z -> ptdb -> Prop) Er,
  (forall nm s', alike False s s' -> a_name_ok cf D aname (has flag PRGRP) oid admin = inr tt -> cstr nm = cstr aname -> (length (cstr aname) < 64)%nat ->
     (has flag PRGRP = false -> strchr colon aname = false) -> Q nm s') ->
  (forall c s', alike False s s' -> a_name_ok cf D aname (has flag PRGRP) oid admin = inl c -> Er c s') ->
  wp False (if has flag PRGRP then
              do cname <- CorrectGroupName fuel cf aname oid admin;
              if strcmp0 aname cname then ret cname else fail PRBADNAM
            else if CorrectUserName aname then ret (cstr aname) else fail PRBADNAM) Q Er s.
Proof using Type.
  intros C Ho Q Er HQ HE. unfold a_name_ok in *. destruct (has flag PRGRP).
  - apply pt_bind, (gives_CorrectGroupName D E K F cf aname oid admin s C Ho).
    + intros nm s' A Er1. rewrite Er1 in *. unfold strcmp0 in *. destruct (bool_decide_reflect (cstr aname = cstr nm)) as [Eq|]; [|by apply wp_fail, HE].
      apply pt_ret, HQ; try done. unfold a_group_name in Er1. cbv zeta in Er1. destruct (Z.leb_spec PR_MAXNAMELEN (strlen aname)); [done|].
      unfold strlen, PR_MAXNAMELEN in *. lia.
    + intros c s' A Er1. apply HE; [done|]. by rewrite Er1.
  - unfold CorrectUserName in *. pose proof (cm_good _ _ _ _ _ _ C) as Hg. destruct (negb _ && _) eqn:Ec; [|apply wp_fail, HE; [by apply alike_refl|done]].
    apply pt_ret, HQ; [by apply alike_refl|done|by rewrite cstr_idem| |].
    + unfold strlen, PR_MAXNAMELEN in *. lia.
    + intros _. destruct (strchr colon aname); [|done]. discriminate Ec.
Qed.

(** ** Steps that write *)

(** A block was set aside for the new entry. *)
Record making (D : adb) (E : gset Z) (K : Z -> list Z) (F : list Z) (b : Z) (s : ptdb) : Prop := {
  mk_calm : calm D E K F s;
  mk_spare : spare E K F s b
}.

Lemma calm_delta D E K F W H s s' :
  calm D E K F s -> delta False W H s s' -> (forall k, k ∈ H -> other_word k) -> (forall p, p ∈ W -> spare E K F s p) ->
  calm (with_maxes (cheader s' w_maxID) (cheader s' w_maxGroup) D) E K F s' /\ eof s' = eof s.
Proof using Type.
  intros [C1 C2 C3] Hd HH HW. assert (He : eof s' = eof s).
  { apply (dl_words _ _ _ _ _ Hd). intros Hin. destruct (HH _ Hin) as [Hn _]. apply Hn. by right; left. }
  split; [|done]. split; [by apply (reps_delta False D E K F W H s)|apply Hd|unfold enough in *; by rewrite He].
Qed.

Lemma making_word D E K F b k v (Q : unit -> ptdb -> Prop) Er s :
  making D E K F b s -> other_word k -> 4 * k + 4 <= sizeof_prheader ->
  (forall s', eof s' = eof s ->
     making (with_maxes (if w_maxID =? k then v else maxID D) (if w_maxGroup =? k then v else maxGroup D) D) E K F b s' -> Q tt s') ->
  wp False (set_header_word k v) Q Er s.
Proof using Type.
  intros [C Hsp] Hk Hk4 HQ. apply wp_set_header_word; [apply C|done|]. intros s' W. pose proof (delta_worded _ _ _ _ _ W) as Hd.
  destruct (calm_delta D E K F [] [k] s s' C Hd) as [C' He]; [by intros x ->%list_elem_of_singleton|by intros ? ?%not_elem_of_nil|].
  apply HQ; [done|]. rewrite !(wd_head _ _ _ _ _ W) in C'. destruct (sh_max _ _ _ _ (rp_shows _ _ _ _ _ (cm_reps _ _ _ _ _ _ C))) as [H1 H2].
  rewrite H1, H2 in C'. split; [done|]. apply (spare_delta False E K F [] [k] s); [done| |done].
  intros Hin%list_elem_of_singleton. subst k. destruct Hk as [Hn _]. apply Hn. by right; left.
Qed.

Lemma making_alike D E K F b s s' : making D E K F b s -> alike False s s' -> making D E K F b s'.
Proof using Type.
  intros [C Hsp] A. split; [by apply (calm_alike fuel D E K F s)|]. apply (spare_delta False E K F [] [] s); [by apply delta_alike|apply not_elem_of_nil|done].
Qed.

Lemma wp_take_block D E K F (Q : Z -> ptdb -> Prop) Er s :
  calm D E K F s -> roomy fuel 1 s ->
  (forall b F' s', b <> 0 -> making D E K F' b s' -> eof s <= eof s' <= eof s + 192 -> now s' = now s -> Q b s') -> wp False AllocBlock Q Er s.
Proof using Type.
  intros [[R1 R2 R3 R4] C2 C3] [Hr1 Hr2] HQ. apply (wp_take False E K F); [done|done|lia| |done]. intros b F' s' Hok Hsp Hd He.
  assert (Hsame : forall p, p ∈ E -> ent s' p = ent s p /\ con s' p = con s p).
  { intros p Hp. apply (dl_blocks _ _ _ _ _ Hd); [by apply (block_aligned s), (ok_entry _ _ _ _ _ R1)|apply not_elem_of_nil]. }
  assert (Hmem : forall p, p ∈ E -> members s' p (K p) = members s p (K p)).
  { intros p Hp. apply members_ext; [by apply Hsame|]. intros c Hc. apply (dl_blocks _ _ _ _ _ Hd); [by apply (block_aligned s), (ok_cont _ _ _ _ _ _ R1 Hp)|apply not_elem_of_nil]. }
  apply (HQ b F'); [by apply (ok_block_low _ _ _ _ _ Hok), Hsp| |done|apply Hd]. split; [|done]. split; [|apply Hd|unfold enough; lia]. split; [done|..].
  - pose proof (shows_frame D E K s s' R2) as Hs. rewrite (maxes_same D E K F s s') in Hs; [|done|by rewrite (dl_words _ _ _ _ _ Hd) by by (rewrite !not_elem_of_cons; split_and!; [..|apply not_elem_of_nil])..].
    apply Hs. intros p Hp. rewrite (proj1 (Hsame p Hp)). split; [done|]. split; [done|by apply Hmem].
  - apply (names_delta False E K F [] [w_freePtr; w_eofPtr] s); try done; [|by intros ? ?%not_elem_of_nil].
    intros k Hk (i & Hi & ->). rewrite !elem_of_cons in Hk. unfold w_nameHash, w_freePtr, w_eofPtr in Hk. destruct Hk as [?|[?|?%not_elem_of_nil]]; lia || done.
  - apply (owners_delta False E K F [] [w_freePtr; w_eofPtr] s); try done; [|by intros ? ?%not_elem_of_nil].
    rewrite !not_elem_of_cons. split_and!; [done|done|apply not_elem_of_nil].
Qed.

(** ** Quotas *)

Lemma making_good D E K F b s : making D E K F b s -> good False s /\ ok E K F s /\ reps D E K F s.
Proof using Type. intros [[C1 C2 C3] _]. split; [done|]. split; [apply C1|done]. Qed.

Lemma wp_requota D E K F b p e' (Q : unit -> ptdb -> Prop) Er s :
  making D E K F b s -> p ∈ E -> requota (ent s p) e' -> entry_ok e' ->
  (forall s', eof s' = eof s -> now s' = now s -> making (put (id (ent s p)) (person_of e') D) E K F b s' -> Q tt s') ->
  wp False (pr_WriteEntry p e') Q Er s.
Proof using Type.
  intros M Hp Hq He HQ. destruct (making_good _ _ _ _ _ _ M) as (Hg & Hok & R). pose proof (ok_entry _ _ _ _ _ Hok Hp) as Hb.
  apply wp_WriteEntry; [done|by apply (ok_block_low _ _ _ _ _ Hok)|done|]. intros s' W Ee. pose proof (delta_wrote _ _ _ _ (block_aligned _ _ Hb) W) as Hd.
  assert (Hef : eof s' = eof s) by (unfold eof; by rewrite (wr_head _ _ _ _ W)).
  apply HQ; [done|apply W|]. split; [split|].
  - rewrite <- Ee. rewrite <- Ee in Hq. by apply (reps_requota False D E K F s).
  - apply W.
  - unfold enough. rewrite Hef. apply M.
  - apply (spare_delta False E K F [p] [] s); [done|apply not_elem_of_nil|apply M].
Qed.

(** The quota of [e], set when it was not. *)
Definition quota_of (g : Z) (u : prentry -> Z) (e : prentry) : prentry :=
  if has (flags e) PRQUOTA then e else with_nusers (u e) (with_ngroups g (with_flags (Z.lor (flags e) PRQUOTA) e)).
Lemma quota_person g u e : person_of (quota_of g u e) = p_quota g (fun _ => u e) (person_of e).
Proof using Type. unfold quota_of, p_quota. cbn [p_flags person_of]. by destruct (has _ _). Qed.
Lemma quota_ok g u e : is_s32 g -> is_s32 (u e) -> entry_ok e -> entry_ok (quota_of g u e).
Proof using Type.
  intros H1 H2 He. unfold quota_of. destruct (has _ _); [done|]. destruct (fields_s32 _ He) as (Hf & _).
  apply eo_nusers; [done|]. apply eo_ngroups; [done|]. apply eo_flags; [|done]. by apply lor_s32.
Qed.
Lemma requota_refl e : requota e e.
Proof using Type. exists (flags e), (ngroups e), (nusers e). split; [done|]. by destruct e. Qed.
Lemma requota_quota g u e e' : requota e e' -> requota e (quota_of g u e').
Proof using Type.
  intros (fl & g0 & u0 & Hf & ->). unfold quota_of. cbn [flags with_flags]. destruct (has fl PRQUOTA); [by exists fl, g0, u0|].
  eexists (Z.lor fl PRQUOTA), g, _. split; [by rewrite has_lor_quota|]. by destruct e.
Qed.
Lemma requota_ngroups v e e' : requota e e' -> requota e (with_ngroups v e').
Proof using Type. intros (fl & g & u & Hf & ->). exists fl, v, u. split; [done|]. by destruct e. Qed.
Lemma requota_nusers v e e' : requota e e' -> requota e (with_nusers v e').
Proof using Type. intros (fl & g & u & Hf & ->). exists fl, g, v. split; [done|]. by destruct e. Qed.

Lemma wp_charge D E K F b cf creator (Q : unit -> ptdb -> Prop) Er s :
  making D E K F b s -> is_s32 creator -> creator <> PRBADID ->
  (forall D' s', a_charge cf D creator = inr D' -> eof s' = eof s -> making D' E K F b s' -> Q tt s') ->
  (forall c s', a_charge cf D creator = inl c -> good False s' -> Er c s') ->
  wp False (charge fuel cf creator) Q Er s.
Proof using Type.
  intros M Hc Hcb HQ HE. unfold charge. apply pt_bind, (wp_find fuel D E K F); [apply M|done|intros Hn s1 A1|intros p s1 A1 Hp Hp0 Ei Ep].
  { rewrite Z.eqb_refl. apply pt_ret, (HQ D); [unfold a_charge; by rewrite Hn|unfold eof; by rewrite (al_head _ _ _ A1)|by apply (making_alike _ _ _ _ _ s)]. }
  pose proof (making_alike _ _ _ _ _ _ _ M A1) as M1. rewrite (proj2 (Z.eqb_neq p 0) Hp0). apply pt_bind, wp_ReadEntry; [apply A1|]. intros s2 A2.
  pose proof (making_alike _ _ _ _ _ _ _ M1 A2) as M2. change (if has (flags (ent s1 p)) PRQUOTA then _ else _) with (quota_of 20 (fun _ => 20) (ent s1 p)).
  assert (Hadm : forall (Q' : bool -> ptdb -> Prop), (forall s3, alike False s2 s3 -> Q' (member D creator SYSADMINID) s3) ->
    wp False (if creator =? SYSADMINID then ret true else IsAMemberOf fuel creator SYSADMINID) Q' Er s2).
  { intros Q' HQ'. destruct (Z.eqb_spec creator SYSADMINID) as [Ec|Ec].
    - apply pt_ret. replace true with (member D creator SYSADMINID); [apply HQ', alike_refl, M2|]. by rewrite Ec.
    - by apply (wp_member fuel D E K F); [apply M2|..]. }
  apply pt_bind, Hadm. intros s3 A3. pose proof (making_alike _ _ _ _ _ _ _ M2 A3) as M3. clear Hadm.
  assert (E3 : ent s3 p = ent s1 p) by by rewrite (al_ent _ _ _ p A3), (al_ent _ _ _ p A2).
  assert (Hef : forall s4, eof s4 = eof s3 -> eof s4 = eof s) by (intros s4 ->; unfold eof; by rewrite (al_head _ _ _ A3), (al_head _ _ _ A2), (al_head _ _ _ A1)).
  assert (Ea := eq_refl (a_charge cf D creator)). unfold a_charge in Ea at 2. rewrite Ep in Ea. cbv zeta in Ea.
  rewrite <- (quota_person 20 (fun _ => 20)) in Ea. cbn [p_ngroups person_of] in Ea.
  assert (Hco : entry_ok (quota_of 20 (fun _ => 20) (ent s1 p))) by (apply quota_ok; [done|done|by apply (ent_ok False), M1]).
  assert (Hgo : forall e', requota (ent s1 p) e' -> entry_ok e' -> a_charge cf D creator = inr (put creator (person_of e') D) -> wp False (pr_WriteEntry p e') Q Er s3).
  { intros e' H1 H2 H3. apply (wp_requota D E K F b); [done|done|by rewrite E3|done|]. intros s4 E4 _ M4. rewrite E3, Ei in M4. by apply (HQ _ s4 H3); [apply Hef|]. }
  assert (Hrq : requota (ent s1 p) (quota_of 20 (fun _ => 20) (ent s1 p))) by apply requota_quota, requota_refl.
  destruct (member D creator SYSADMINID); [by apply Hgo|]. set (c := quota_of 20 _ _) in *. clearbody c.
  destruct (ngroups c =? 0).
  - destruct (pr_noAuth cf); [by apply Hgo|]. apply wp_fail, HE; [done|apply M3].
  - apply Hgo; [by apply requota_ngroups|apply eo_ngroups; [apply s32_range|done]|done].
Qed.

End Create.
