(* ===== verification/PtMake.v ===== *)
(** * The protection database: creation as a whole

    [CreateEntry] and the handlers do what their abstract counterparts do. *)

From stdpp Require Import prelude list gmap sorting.
From Stdlib Require Import ZArith Lia ZifyBool.
From S2P Require Import Prelude ByteMem Pt PtBlock PtOk PtList PtStep PtFrame PtNames PtAdd PtRead PtSpec PtServe PtEntry PtEnter PtOwn PtNewSpec PtNew PtCreate.

#[local] Open Scope Z_scope.
#[local] Open Scope pt_scope.

(** The words of the header that creation changes. *)
Lemma idHash_word i : 0 <= i < HASHSIZE -> w_idHash i <> w_eofPtr /\ w_idHash i <> w_orphan /\ w_idHash i <> w_maxID /\ w_idHash i <> w_maxGroup.
Proof. unfold w_idHash, w_eofPtr, w_orphan, w_maxID, w_maxGroup, HASHSIZE. lia. Qed.
Lemma nameHash_word i : 0 <= i < HASHSIZE -> w_nameHash i <> w_eofPtr /\ w_nameHash i <> w_orphan /\ w_nameHash i <> w_maxID /\ w_nameHash i <> w_maxGroup.
Proof. unfold w_nameHash, w_eofPtr, w_orphan, w_maxID, w_maxGroup, HASHSIZE. lia. Qed.
Lemma small_word k : 4 <= k < 18 -> k <> w_orphan -> other_word k /\ 4 * k + 4 <= sizeof_prheader.
Proof.
  intros H1 H2. split; [|unfold sizeof_prheader; lia]. split; [|split; [|done]].
  - intros [?|[?|(i & ? & ?)]]; unfold w_freePtr, w_eofPtr, w_idHash, HASHSIZE in *; lia.
  - intros (i & ? & ?). unfold w_nameHash in *. lia.
Qed.

Section Make.
Context (fuel : nat).
#[local] Abbreviation calm := (calm fuel).
#[local] Abbreviation making := (making fuel).

(** ** The new entry *)

Record fresh (D : adb) (aname : list Z) (tentry : prentry) : Prop := {
  fr_ok : entry_ok tentry;
  fr_blank : blank tentry;
  fr_owned : owned tentry = 0;
  fr_id : people D !! id tentry = None;
  fr_name : cstr (name tentry) = cstr aname;
  fr_named : named D aname = None;
  fr_short : (length (cstr aname) < 64)%nat;
  fr_colon : has (flags tentry) PRGRP = false -> strchr colon aname = false
}.

(** Hashed, and the owner's chain is as it was. *)
Record halfway (D : adb) (E : gset Z) (K : Z -> list Z) (F : list Z) (b : Z) (tentry : prentry) (s s' : ptdb) : Prop := {
  hw_ok : ok ({[b]} ∪ E) (setK K b []) F s';
  hw_shows : shows (put (id tentry) (person_of tentry) D) ({[b]} ∪ E) (setK K b []) s';
  hw_names : names ({[b]} ∪ E) s';
  hw_owners : owners E s';
  hw_out : b ∉ E;
  hw_fresh : forall p, p ∈ E -> id (ent s' p) <> id tentry;
  hw_entry : exists h1 h2, ent s' b = with_nextName h2 (with_nextID h1 tentry);
  hw_good : good False s';
  hw_eof : eof s' = eof s
}.

Lemma wp_enter_half D E K F b tentry aname (Q : unit -> ptdb -> Prop) Er s :
  making D E K F b s -> fresh D aname tentry ->
  (bad_id (id tentry) = true -> forall s', good False s' -> Er PRINCONSISTENT s') ->
  (bad_id (id tentry) = false -> forall s', halfway D E K F b tentry s s' -> Q tt s') ->
  wp False (enter tentry aname b) Q Er s.
Proof using Type.
  intros M [F1 F2 F3 F4 F5 F6 F7 F8] HI HQ. destruct (making_good _ _ _ _ _ _ _ M) as (Hg & Hok & R). pose proof (mk_spare _ _ _ _ _ _ _ M) as Hsp.
  pose proof (proj1 (unknown_nowhere D E K F s _ R) F4) as Hfr. pose proof (spare_out _ _ _ _ _ Hsp) as HbE. unfold bad_id in *.
  apply (wp_enter False E K F); try done.
  - apply R.
  - by apply (named_none D E K F s).
  - intros Hc. destruct (has (flags tentry) PRGRP); [done|]. unfold colon in F8. rewrite F8 in Hc; done.
  - intros Hz. apply HI. lia.
  - intros Hi0 Hib h1 h2 s' Hd Ee Hok' Hn'. apply HQ; [lia|].
    destruct (fields_s32 _ F1) as (_ & Hi32 & _). pose proof (idHash_word _ (pt_IDHash_range _ Hi32 Hib)) as (W1 & W2 & W3 & W4).
    pose proof (nameHash_word _ (pt_NameHash_range aname)) as (W5 & W6 & W7 & W8).
    assert (Hw : forall k, k = w_eofPtr \/ k = w_orphan \/ k = w_maxID \/ k = w_maxGroup -> cheader s' k = cheader s k).
    { intros k Hk. apply (dl_words _ _ _ _ _ Hd). intros [?|[?|?%not_elem_of_nil]%elem_of_cons]%elem_of_cons; [..|done]; intuition congruence. }
    assert (Hsame : forall p, p ∈ E -> ent s' p = ent s p).
    { intros p Hp. apply (dl_blocks _ _ _ _ _ Hd); [by apply (block_aligned s), (ok_entry _ _ _ _ _ Hok)|]. by intros ->%list_elem_of_singleton. }
    assert (Hmem : forall p, p ∈ E -> members s' p (K p) = members s p (K p)).
    { intros p Hp. apply members_ext; [by apply Hsame|]. intros c Hc. apply (dl_blocks _ _ _ _ _ Hd); [by apply (block_aligned s), (ok_cont _ _ _ _ _ _ Hok Hp)|].
      intros ->%list_elem_of_singleton. destruct Hsp as (_ & Hu & _). apply Hu. right. by exists p. }
    assert (Hpb : person_of (ent s' b) = person_of tentry /\ id (ent s' b) = id tentry /\ blank (ent s' b)) by by rewrite Ee.
    destruct Hpb as (Hpb & Hidb & Hblb). split; try done.
    + rewrite <- Hidb, <- Hpb. apply (shows_new D E K s); [apply R|done| | |by apply blank_listed|split; apply Hw; tauto].
      * intros p Hp. rewrite Hidb. by apply Hfr.
      * intros p Hp. rewrite Hsame by done. split; [done|]. split; [done|by apply Hmem].
    + apply (owners_delta False E K F [b] [w_idHash (IDHash (id tentry)); w_nameHash (NameHash aname)] s); [done|apply R|done| |].
      * intros [?|[?|?%not_elem_of_nil]%elem_of_cons]%elem_of_cons; congruence.
      * by intros p ->%list_elem_of_singleton.
    + intros p Hp. rewrite Hsame by done. by apply Hfr.
    + by exists h1, h2.
    + apply Hd.
    + apply Hw. tauto.
Qed.

Lemma wp_enter_user D E K F b tentry aname (Q : unit -> ptdb -> Prop) Er s :
  making D E K F b s -> fresh D aname tentry -> has (flags tentry) PRGRP = false ->
  (bad_id (id tentry) = true -> forall s', good False s' -> Er PRINCONSISTENT s') ->
  (bad_id (id tentry) = false -> forall s', eof s' = eof s -> (b ∉ E) -> id (ent s' b) = id tentry ->
     calm (put (id tentry) (person_of tentry) D) ({[b]} ∪ E) (setK K b []) F s' -> Q tt s') ->
  wp False (enter tentry aname b) Q Er s.
Proof using Type.
  intros M Fr Hfl HI HQ. apply (wp_enter_half D E K F); try done. intros Hbad s' [H1 H2 H3 H4 H5 H6 (h1 & h2 & H7) H8 H9].
  assert (Hb : b ∈ {[b]} ∪ E) by by apply elem_of_union_l, elem_of_singleton.
  apply HQ; [done|done|done|by rewrite H7|]. split; [|done|unfold enough; rewrite H9; apply M]. split; [done|done|done|].
  apply owners_user; try done; rewrite ?H7; try done.
  - by apply (ok_block_low _ _ _ _ _ H1), (ok_entry _ _ _ _ _ H1).
  - cbn. unfold bad_id in Hbad. lia.
  - cbn. apply Fr.
Qed.

Lemma wp_enter_group D E K F b tentry aname (Q : unit -> ptdb -> Prop) Er s :
  making D E K F b s -> fresh D aname tentry -> has (flags tentry) PRGRP = true ->
  (bad_id (id tentry) = true -> forall s', good False s' -> Er PRINCONSISTENT s') ->
  (bad_id (id tentry) = false -> known (put (id tentry) (person_of tentry) D) (owner tentry) = false -> forall s', good False s' -> Er PRNOENT s') ->
  (bad_id (id tentry) = false -> known (put (id tentry) (person_of tentry) D) (owner tentry) = true -> forall s', eof s' = eof s ->
     calm (put (id tentry) (person_of tentry) D) ({[b]} ∪ E) (setK K b []) F s' -> Q tt s') ->
  wp False (enter tentry aname b ;; AddToOwnerChain fuel (id tentry) (owner tentry)) Q Er s.
Proof using Type.
  intros M Fr Hfl HI HN HQ. apply pt_bind, (wp_enter_half D E K F); try done. intros Hbad s' [H1 H2 H3 H4 H5 H6 (h1 & h2 & H7) H8 H9].
  set (D' := put (id tentry) (person_of tentry) D) in *.
  assert (Hb : b ∈ {[b]} ∪ E) by by apply elem_of_union_l, elem_of_singleton.
  replace (id tentry) with (id (ent s' b)) by by rewrite H7. assert (Eow : owner (ent s' b) = owner tentry) by by rewrite H7. rewrite <- Eow in *.
  assert (Hin : forall i, people D' !! i = None <-> forall p, p ∈ {[b]} ∪ E -> id (ent s' p) <> i).
  { intros i. split.
    - intros Hn p Hp Ei. assert (people D' !! i = Some (person_of (ent s' p))) by (apply (sh_people _ _ _ _ H2); by exists p). congruence.
    - intros Hn. destruct (people D' !! i) as [x|] eqn:Ex; [|done]. apply (sh_people _ _ _ _ H2) in Ex as (p & Hp & Ei & _). by destruct (Hn p Hp). }
  apply wp_AddToOwnerChain with (E := E) (K := K) (F := F); try done.
  - unfold enough. rewrite H9. apply M.
  - unfold grouped. by rewrite H7.
  - rewrite H7. apply Fr.
  - intros Hno s2 A2. apply HN; [done| |apply A2]. apply known_false. by apply Hin.
  - intros o W s2 Ho Eo Hd Hok2 Hn2 Ho2 Hre Hm2.
    assert (Hkn : known D' (owner (ent s' b)) = true) by (apply known_true; exists (person_of (ent s' o)); apply (sh_people _ _ _ _ H2); by exists o).
    assert (Hw : cheader s2 = cheader s' \/ forall k, cheader s2 k = cheader s' k) by (right; intros k; apply (dl_words _ _ _ _ _ Hd), not_elem_of_nil).
    assert (He2 : eof s2 = eof s) by (rewrite <- H9; unfold eof; by destruct Hw as [->| ->]).
    apply HQ; [done|done|done|]. split; [|apply Hd|unfold enough; rewrite He2; apply M]. split; [done| |done|done].
    pose proof (shows_frame D' _ _ s' s2 H2) as Hs. replace (with_maxes _ _ D') with D' in Hs.
    + apply Hs. intros p Hp. destruct (Hre p Hp) as (od & nx & ->). split; [done|]. split; [done|by apply Hm2].
    + destruct (sh_max _ _ _ _ H2) as [X1 X2]. assert (Hw' : forall k, cheader s2 k = cheader s' k) by (intros k; by destruct Hw as [->| ->]).
      rewrite !Hw', X1, X2. by destruct D'.
Qed.

(** ** Local users and groups *)

Lemma pt_assoc {A B C} q (a : M A) (b : A -> M B) (c : B -> M C) Q Er s :
  wp q (bind (bind a b) c) Q Er s -> wp q (bind a (fun x => bind (b x) c)) Q Er s.
Proof using Type. unfold wp, bind. by destruct (a s) as [[x|e| |] s']. Qed.

Lemma maxes_eta D : with_maxes (maxID D) (maxGroup D) D = D.
Proof using Type. by destruct D. Qed.
Lemma making_max D E K F b aid (group : bool) (Q : unit -> ptdb -> Prop) Er s :
  making D E K F b s ->
  (forall s', eof s' = eof s -> making (if group then with_maxes (maxID D) (Z.min aid (maxGroup D)) D else with_maxes (Z.max aid (maxID D)) (maxGroup D) D) E K F b s' -> Q tt s') ->
  wp False (if group then
              do m <- get (fun s => cheader s w_maxGroup);
              if aid <? m then or_code (set_header_word w_maxGroup aid) PRDBFAIL else ret tt
            else
              do m <- get (fun s => cheader s w_maxID);
              if m <? aid then or_code (set_header_word w_maxID aid) PRDBFAIL else ret tt) Q Er s.
Proof using Type.
  intros M HQ. destruct (making_good _ _ _ _ _ _ _ M) as (_ & _ & R). destruct (sh_max _ _ _ _ (rp_shows _ _ _ _ _ R)) as [X1 X2].
  destruct group; apply pt_bind, pt_get; rewrite ?X1, ?X2.
  - destruct (Z.ltb_spec aid (maxGroup D)) as [H|H].
    + apply wp_or_code, (making_word fuel D E K F b); [done|by apply small_word..|]. intros s' E' M'. apply HQ; [done|]. by rewrite Z.min_l by lia.
    + apply pt_ret, HQ; [done|]. rewrite Z.min_r by lia. by rewrite maxes_eta.
  - destruct (Z.ltb_spec (maxID D) aid) as [H|H].
    + apply wp_or_code, (making_word fuel D E K F b); [done|by apply small_word..|]. intros s' E' M'. apply HQ; [done|]. by rewrite Z.max_l by lia.
    + apply pt_ret, HQ; [done|]. rewrite Z.max_r by lia. by rewrite maxes_eta.
Qed.

Lemma named_iff D nm : named D nm = None <-> forall i x, people D !! i = Some x -> p_name x <> cstr nm.
Proof using Type.
  unfold named. rewrite head_None. split.
  - intros Hf i x Hx Eq. apply (not_elem_of_nil (i, x)). rewrite <- Hf. apply list_elem_of_filter. split; [done|]. by apply elem_of_map_to_list.
  - intros Hn. destruct (filter _ _) as [|[i x] l] eqn:Ef; [done|]. assert (Hin : (i, x) ∈ (i, x) :: l) by left. rewrite <- Ef in Hin.
    apply list_elem_of_filter in Hin as [H1 H2%elem_of_map_to_list]. by destruct (Hn i x H2).
Qed.
(** Nobody is new and nobody has another name. *)
Definition same_names (D D' : adb) : Prop :=
  (forall j, people D !! j = None -> people D' !! j = None) /\ forall nm, named D nm = None -> named D' nm = None.
Lemma same_names_put D i x x' : people D !! i = Some x -> p_name x' = p_name x -> same_names D (put i x' D).
Proof using Type.
  intros Hx En. split; [intros j Hj|intros nm]; cbn [people put].
  - apply lookup_insert_None. split; [done|]. congruence.
  - rewrite !named_iff. intros Hn j y. cbn [people put]. rewrite lookup_insert_Some. intros [[<- <-]|[_ Hy]]; [rewrite En; by apply (Hn i)|by apply (Hn j)].
Qed.
Lemma same_names_charge cf D creator D' : a_charge cf D creator = inr D' -> same_names D D'.
Proof using Type.
  unfold a_charge. destruct (people D !! creator) as [x|] eqn:Ex; [|intros [= <-]; done].
  assert (Hq : p_name (p_quota 20 (fun _ => 20) x) = p_name x) by (unfold p_quota; by destruct (has _ _)). cbv zeta.
  destruct (member _ _ _); [|destruct (_ =? 0); [destruct (pr_noAuth cf)|]]; intros [= <-]; by apply (same_names_put _ _ x).
Qed.

Lemma new_entry_fresh D aname nm t fl o aid :
  is_s32 fl -> is_s32 o -> is_s32 aid -> Forall is_u8 aname -> cstr nm = cstr aname -> (length (cstr aname) < 64)%nat ->
  people D !! aid = None -> named D aname = None -> (has fl PRGRP = false -> strchr colon aname = false) ->
  fresh D aname (with_id aid (new_entry nm t fl o)).
Proof using Type.
  intros H1 H2 H3 H4 H5 H6 H7 H8 H9. assert (Es : strncpy64 nm = strncpy64 aname) by (unfold strncpy64; by rewrite H5).
  assert (H0 : is_s32 0) by done. assert (Hu : is_u32 0) by done. assert (Hn : Forall is_s32 []) by by apply Forall_nil. assert (Hn' : Forall is_u32 []) by by apply Forall_nil.
  pose proof (u32_range t) as Ht.
  split; try done.
  - split; cbn [flags id cellid next createTime addTime removeTime changeTime entries nextID nextName owner creator ngroups nusers count inst owned nextOwned parent sibling child name with_id new_entry].
    + rewrite !Forall_cons. tauto.
    + rewrite !Forall_cons. tauto.
    + done.
    + apply Forall_forall. intros x Hx%list_elem_of_In. by apply repeat_spec in Hx as ->.
    + split; [apply strncpy64_idem|]. rewrite Es. by apply strncpy64_u8.
  - cbn [name with_id new_entry]. rewrite cstr_strncpy64, H5. apply take_ge. lia.
Qed.

Lemma wp_count D E K F k i (Q : unit -> ptdb -> Prop) Er s :
  calm D E K F s -> 9 <= k < 13 -> (forall s', eof s' = eof s -> calm D E K F s' -> Q tt s') -> wp False (inc_header_word k i) Q Er s.
Proof using Type.
  intros C Hk HQ. unfold inc_header_word. apply pt_bind, pt_get. destruct (small_word k) as [Hw Hw4]; [lia|unfold w_orphan; lia|].
  apply wp_set_header_word; [apply C|done|]. intros s' W. pose proof (delta_worded _ _ _ _ _ W) as Hd.
  destruct (calm_delta fuel D E K F [] [k] s s' C Hd) as [C' He]; [by intros x ->%list_elem_of_singleton|by intros ? ?%not_elem_of_nil|].
  apply HQ; [done|]. rewrite (maxes_same D E K F s s' (cm_reps _ _ _ _ _ _ C)) in C'; [done|..];
    apply (dl_words _ _ _ _ _ Hd); intros Hin%list_elem_of_singleton; unfold w_maxID, w_maxGroup in *; lia.
Qed.

Lemma wp_create_local D E K F b cf aname nm t (flag oid creator aid : Z) (Q : Z -> ptdb -> Prop) Er s :
  making D E K F b s -> is_s32 oid -> is_s32 creator -> creator <> PRBADID -> is_s32 aid ->
  Forall is_u8 aname -> cstr nm = cstr aname -> (length (cstr aname) < 64)%nat -> (has flag PRGRP = false -> strchr colon aname = false) ->
  people D !! aid = None -> named D aname = None ->
  let r := a_create_local cf D aname (has flag PRGRP) oid creator aid in
  (forall aid' D' E' K' F' s', r = inr (aid', D') -> calm D' E' K' F' s' -> eof s' = eof s -> Q aid' s') ->
  (forall c s', r = inl c -> good False s' -> Er c s') ->
  wp False (create_local fuel cf aname flag oid creator b
              (with_id aid (if has flag PRGRP then new_entry nm t PRGRP oid else new_entry nm t 0 SYSADMINID))) Q Er s.
Proof using Type.
  intros M Ho Hc Hcb Ha Hu En Hlen Hcol Hid Hnm r HQ HE. subst r. unfold create_local, a_create_local in *.
  replace (id (with_id aid _)) with aid by by destruct (has flag PRGRP).
  apply pt_bind, (making_max D E K F b); [done|]. intros s1 E1 M1. cbv zeta in *.
  set (D1 := if has flag PRGRP then with_maxes _ _ D else _) in *.
  assert (SN : same_names D D1) by (subst D1; by destruct (has flag PRGRP)). clearbody D1. destruct SN as [S1 S2]. apply S1 in Hid. apply S2 in Hnm. clear S1 S2 M D.
  assert (Hcr : forall x, by_creator creator (with_id aid x) = with_creator (made_by creator aid) (with_id aid x)) by done.
  assert (Hmb : is_s32 (made_by creator aid)) by (unfold made_by; by destruct (creator =? 0)).
  destruct (has flag PRGRP) eqn:Eg.
  - apply pt_bind, (wp_charge fuel D1 E K F b); [done|done|done| |].
    2: { intros c s2 Ec Hg. apply HE; [|done]. by rewrite Ec. }
    intros D2 s2 Ec E2 M2. rewrite Ec in *. destruct (same_names_charge _ _ _ _ Ec) as [S1 S2]. apply S1 in Hid. apply S2 in Hnm.
    rewrite Hcr. cbn [flags with_creator with_id new_entry id]. change (has PRGRP PRGRP) with true. cbv iota.
    apply pt_assoc, pt_bind. set (te := with_creator _ _).
    assert (Fr : fresh D2 aname te).
    { destruct (new_entry_fresh D2 aname nm t PRGRP oid aid) as [Q1 Q2 Q3 Q4 Q5 Q6 Q7 Q8]; try done. split; try done. by apply eo_creator. }
    apply (wp_enter_group D2 E K F b te aname); try done.
    + intros Hb s3 Hg3. apply HE; [|done]. change (id te) with aid in Hb. by rewrite Hb.
    + intros Hb Hk s3 Hg3. apply HE; [|done]. change (id te) with aid in Hb, Hk. change (owner te) with oid in Hk. rewrite Hb. cbn [andb]. change (mkPerson _ _ _ _ _ _ _) with (mkPerson PRGRP oid (made_by creator aid) 0 0 0 (cstr aname)).
      rewrite <- (fr_name _ _ _ Fr). change (mkPerson _ _ _ _ _ _ _) with (person_of te). by rewrite Hk.
    + intros Hb Hk s3 E3 C3. change (id te) with aid in Hb, Hk, C3. change (owner te) with oid in Hk.
      apply pt_bind, wp_or_code, (wp_count (put aid (person_of te) D2) ({[b]} ∪ E) (setK K b []) F); [done|done|]. intros s4 E4 C4. apply pt_ret.
      apply (HQ aid (put aid (person_of te) D2) ({[b]} ∪ E) (setK K b []) F); [|done|congruence]. rewrite Hb. cbn [andb].
      rewrite <- (fr_name _ _ _ Fr). change (mkPerson _ _ _ _ _ _ _) with (person_of te). by rewrite Hk.
  - apply pt_bind, pt_ret. cbn [flags with_creator with_id new_entry id with_flags with_ngroups with_nusers].
    change (with_nusers 20 _) with (with_id aid (with_nusers 20 (with_ngroups 20 (with_flags (Z.lor 0 PRQUOTA) (new_entry nm t 0 SYSADMINID))))).
    rewrite Hcr. change (has _ PRGRP) with false. change (has _ PRINST) with false. cbv iota. set (te := with_creator _ _).
    assert (Fr : fresh D1 aname te).
    { destruct (new_entry_fresh D1 aname nm t 0 SYSADMINID aid) as [Q1 Q2 Q3 Q4 Q5 Q6 Q7 Q8]; try done. split; try done.
      apply eo_creator; [done|]. apply (eo_nusers 20 (with_ngroups 20 (with_flags (Z.lor 0 PRQUOTA) (with_id aid (new_entry nm t 0 SYSADMINID))))); [done|]. apply eo_ngroups; [done|]. by apply eo_flags. }
    apply pt_bind, (wp_enter_user D1 E K F b te aname); try done.
    + intros Hb s3 Hg3. apply HE; [|done]. change (id te) with aid in Hb. by rewrite Hb.
    + intros Hb s3 E3 _ _ C3. change (id te) with aid in Hb, C3. apply pt_bind, pt_ret.
      apply pt_bind, wp_or_code, (wp_count (put aid (person_of te) D1) ({[b]} ∪ E) (setK K b []) F); [done|done|]. intros s4 E4 C4. apply pt_ret.
      apply (HQ aid (put aid (person_of te) D1) ({[b]} ∪ E) (setK K b []) F); [|done|congruence]. rewrite Hb. cbn [andb].
      rewrite <- (fr_name _ _ _ Fr). done.
Qed.

(** ** Foreign users *)

Lemma unenrolled D E K F s aid g : reps D E K F s -> people D !! aid = None -> (aid, g) ∉ enrol D.
Proof using Type.
  intros R Hn Hin. apply (sh_users _ _ _ _ (rp_shows _ _ _ _ _ R)) in Hin as (p & Hp & Ei & _). by apply (proj1 (unknown_nowhere D E K F s aid R) Hn p).
Qed.

Lemma a_next_foreign_s32 n D i cid j : is_s32 i -> a_next_foreign n D i cid = Some j -> is_s32 j.
Proof using Type.
  revert i. induction n as [|n IH]; intros i Hi; cbn [a_next_foreign]; [done|]. destruct (known D _); [|by intros [= <-]].
  destruct (Z.ltb_spec 65535 (i + 1)); [done|]. apply IH. unfold is_s32 in *. lia.
Qed.
Lemma with_nusers_eta c : with_nusers (nusers c) c = c.
Proof using Type. by destruct c. Qed.

Lemma wp_foreign_id D E K F c idflag (Q : Z * prentry -> ptdb -> Prop) Er s :
  calm D E K F s -> entry_ok c -> (forall aid, idflag = Some aid -> is_s32 aid /\ people D !! aid = None) ->
  (forall aid nu s', alike False s s' -> a_foreign_id D (id c) (nusers c) idflag = inr (aid, nu) -> is_s32 aid -> is_s32 nu -> people D !! aid = None ->
     Q (aid, with_nusers nu c) s') ->
  (forall e s', alike False s s' -> a_foreign_id D (id c) (nusers c) idflag = inl e -> Er e s') ->
  wp False (match idflag with
            | Some aid => match inRange c aid with None => fail PRBADARG | Some c => ret (aid, c) end
            | None => do r <- allocNextId fuel c; match r with None => fail PRNOIDS | Some x => ret x end
            end) Q Er s.
Proof using Type.
  intros C Hc Hid HQ HE. pose proof (alike_refl _ _ (cm_good _ _ _ _ _ _ C)) as A0. unfold a_foreign_id in *. cbv zeta in *. destruct idflag as [aid|].
  - destruct (Hid aid eq_refl) as [Ha Hn]. unfold inRange. destruct (negb _); [by apply wp_fail, HE|]. apply pt_ret. destruct (fields_s32 _ Hc) as (_ & _ & _ & _ & _ & Hnu & _).
    destruct (_ <? _); [|rewrite <- (with_nusers_eta c)]; apply HQ; try done. apply s32_range.
  - unfold allocNextId. apply pt_bind, pt_bind, (wp_next_foreign fuel D E K F); [done|]. intros s1 A1.
    destruct (a_next_foreign _ D _ _) as [i|] eqn:Ei.
    + pose proof (a_next_foreign_unknown _ _ _ _ _ Ei) as Hn. pose proof (a_next_foreign_s32 _ _ _ _ _ (s32_range _) Ei) as Hi.
      destruct (_ =? 0); [by apply pt_ret, wp_fail, HE|]. apply pt_ret, pt_ret, HQ; try done. apply s32_range.
    + by apply pt_ret, wp_fail, HE.
Qed.

Lemma quota30 e : (if has (flags e) PRQUOTA then e else with_ngroups 30 (with_flags (Z.lor (flags e) PRQUOTA) e)) = quota_of 30 nusers e.
Proof using Type. unfold quota_of. destruct (has _ _); [done|by destruct e]. Qed.

(** The new user [b] and the group [pg] of its cell get to know each other. *)
Lemma wp_join_cell D E K F b pg aid gid (Q : Z -> ptdb -> Prop) Er s :
  calm D E K F s -> roomy fuel 2 s -> b ∈ E -> pg ∈ E -> id (ent s b) = aid -> id (ent s pg) = gid -> cellid (ent s b) = gid ->
  has (flags (ent s b)) PRGRP = false -> has (flags (ent s pg)) PRGRP = true -> (aid, gid) ∉ enrol D ->
  (forall s', served False (with_enrol ({[(aid, gid)]} ∪ enrol D) D) 2 s s' -> Q aid s') ->
  wp False (do pos <- FindByID fuel gid;
            if pos =? 0 then fail PRBADNAM
            else
              do centry <- pr_ReadEntry pos;
              AddToEntry fuel centry pos aid ;;
              do pos <- FindByID fuel aid;
              if pos =? 0 then fail PRBADNAM
              else
                do tentry <- pr_ReadEntry pos;
                AddToEntry fuel tentry pos (cellid tentry) ;;
                ret aid) Q Er s.
Proof using Type.
  intros C [Hr1 Hr2] Hb Hpg Ea Eg Ecl Hfb Hfg Hno HQ. pose proof (cm_reps _ _ _ _ _ _ C) as R. pose proof (rp_ok _ _ _ _ _ R) as Hok. pose proof (rp_shows _ _ _ _ _ R) as Hsh.
  assert (Hw : forall p, is_s32 (id (ent s p))) by (intros p; by apply fields_s32, (ent_ok False), C).
  assert (Hne : b <> pg) by (intros ->; congruence). assert (Hids : aid <> gid) by (intros Ei; apply Hne, (ok_unique _ _ _ _ Hok); [done|done|congruence]).
  assert (Hv : forall p, p ∈ E -> vacant (id (ent s p)) = false) by (intros p Hp; by apply vacant_false, (ok_ids _ _ _ _ Hok)).
  apply pt_bind, (wp_find fuel D E K F); [done|rewrite <- Eg; apply Hw| |].
  { intros Hn. by destruct (proj1 (unknown_nowhere D E K F s gid R) Hn pg). }
  intros p s1 A1 Hp Hp0 Ei _. rewrite (al_ent _ _ _ p A1) in Ei. assert (p = pg) as -> by (apply (ok_unique _ _ _ _ Hok); [done|done|congruence]).
  rewrite (proj2 (Z.eqb_neq pg 0) Hp0). apply pt_bind, wp_ReadEntry; [apply A1|]. intros s2 A2.
  pose proof (alike_trans _ _ _ _ A1 A2) as A. assert (Ee : forall x, ent s2 x = ent s x) by (intros x; by apply (al_ent False)).
  rewrite (al_ent _ _ _ pg A1), <- Ee. pose proof (calm_alike fuel D E K F s s2 C A) as C2. clear A1 A2 s1 Ei.
  assert (He2 : eof s2 = eof s) by (unfold eof; by rewrite (al_head _ _ _ A)).
  pose proof (rp_ok _ _ _ _ _ (cm_reps _ _ _ _ _ _ C2)) as Hok2. pose proof (rp_shows _ _ _ _ _ (cm_reps _ _ _ _ _ _ C2)) as Hsh2.
  apply pt_bind, (wp_AddToEntry fuel False E K F); rewrite ?Ee, ?He2; try done; [apply C2|apply C2|rewrite <- Ea; apply Hw|rewrite <- Ea; by apply Hv|lia|congruence| |].
  { intros s3 _ _ Hin. destruct Hno. rewrite <- Eg, <- Ee. apply (group_side D E K F s2); [done|done|done|by rewrite Ee|done]. }
  intros s3 _ _ (K1 & F1 & C1 & M1). destruct (cg_others _ _ _ _ _ _ _ _ C1 b Hb Hne) as [Eb Mb]. pose proof (cg_eof _ _ _ _ _ _ _ _ C1) as He3.
  apply pt_bind, (wp_FindByID _ _ E K1 F1); [apply C1|apply C1|unfold enough; lia|rewrite <- Ea; apply Hw| |..|done].
  { intros s4 _ Hn. destruct (Hn b Hb). by rewrite Eb, Ee. }
  intros p s4 A4 Hp' Ei. assert (p = b) as -> by (apply (ok_unique _ _ _ _ (cg_ok _ _ _ _ _ _ _ _ C1)); [done|done|by rewrite Ei, Eb, Ee]).
  assert (Hb0 : b <> 0) by by apply (ok_block_low _ _ _ _ _ Hok), (ok_entry _ _ _ _ _ Hok).
  rewrite (proj2 (Z.eqb_neq b 0) Hb0). apply pt_bind, wp_ReadEntry; [apply A4|]. intros s5 A5. pose proof (alike_trans _ _ _ _ A4 A5) as A35.
  assert (E5 : ent s5 b = ent s b) by by rewrite (al_ent _ _ _ b A35), Eb. rewrite <- (al_ent _ _ _ b A5). replace (cellid (ent s5 b)) with gid by by rewrite E5.
  assert (He5 : eof s5 = eof s3) by (unfold eof; by rewrite (al_head _ _ _ A35)).
  assert (Mb5 : members s5 b (K1 b) = members s2 b (K b)) by (rewrite <- Mb; apply members_ext; [by rewrite (al_ent _ _ _ b A35)|intros x _; by apply (al_con False)]).
  apply pt_bind, (wp_AddToEntry fuel False E K1 F1); rewrite ?E5, ?He5; try done; [apply A35|by apply (ok_alike False _ _ _ s3), C1|unfold enough; lia|rewrite <- Eg; apply Hw|rewrite <- Eg; by apply Hv|lia|congruence| |].
  { intros s6 _ _ Hin. rewrite Mb5 in Hin. destruct Hno. rewrite <- Ea, <- Ee. apply (user_side D E K F s2); [done|done|done|by rewrite Ee|done]. }
  intros s6 _ _ (K2 & F2 & C2' & M2). apply (change_alike _ _ _ _ s3) in C2'; [|done]. apply pt_ret, HQ.
  destruct (both_rest False E K s2 b pg K1 F1 s3 K2 F2 s6 C1 C2') as [Hn6 Ho6]; [apply C2|apply C2|].
  split; [|split; [apply C2'|pose proof (cg_eof _ _ _ _ _ _ _ _ C2'); lia]]. exists E, K2, F2. split; [apply C2'| |done|done].
  replace aid with (id (ent s2 b)) by by rewrite Ee. replace gid with (id (ent s2 pg)) by by rewrite Ee.
  apply (both_add False D E K F s2 b pg) with K1 F1 s3 F2; rewrite ?Ee; try done.
  - by rewrite Ea.
  - rewrite M2, Mb5, Mb, Eg. done.
Qed.

End Make.
