(* ===== verification/PtRegister.v ===== *)
(** * The protection database: the handlers for new entries *)

From stdpp Require Import prelude list gmap sorting.
From Stdlib Require Import ZArith Lia ZifyBool.
From S2P Require Import Prelude ByteMem Pt PtBlock PtOk PtList PtStep PtFrame PtNames PtAdd PtRead PtSpec PtServe PtEntry PtEnter PtOwn PtNewSpec PtNew PtCreate PtMake.

#[local] Open Scope Z_scope.
#[local] Open Scope pt_scope.

Lemma cell_group_colon l : strchr 58 (AUTHUSER_GROUP ++ l) = true.
Proof.
  unfold strchr. apply bool_decide_eq_true. unfold AUTHUSER_GROUP, str_system. cbn [app cstr Z.eqb Pos.eqb]. rewrite !elem_of_cons. tauto.
Qed.

Section Register.
Context (fuel : nat).
#[local] Abbreviation calm := (calm fuel).
#[local] Abbreviation making := (making fuel).

Lemma served_calm D E K F s s' n : calm D E K F s' -> eof s <= eof s' <= eof s + 192 * n -> served False D n s s'.
Proof using Type. intros C He. split; [|split; [apply C|done]]. exists E, K, F. apply C. Qed.

Lemma wp_create_foreign D E K F b cf aname nm t idflag creator (Q : Z -> ptdb -> Prop) Er s :
  making D E K F b s -> roomy fuel 2 s -> is_s32 creator ->
  Forall is_u8 aname -> cstr nm = cstr aname -> (length (cstr aname) < 64)%nat -> strchr colon aname = false ->
  (forall aid, idflag = Some aid -> is_s32 aid /\ people D !! aid = None) -> named D aname = None ->
  let r := a_create_foreign cf D aname idflag creator in
  (forall aid D' s', r = inr (aid, D') -> served False D' 2 s s' -> Q aid s') ->
  (forall c s', r = inl c -> good False s' -> Er c s') ->
  wp False (create_foreign fuel cf aname idflag creator b (new_entry nm t 0 SYSADMINID)) Q Er s.
Proof using Type.
  intros M Hr Hc Hu En Hlen Hcol Hid Hnm r HQ HE. subst r. unfold create_foreign, a_create_foreign in *.
  apply pt_bind, (wp_find_name fuel D E K F); [apply M|intros Hn s1 A1|intros p s1 A1 Hp Hn]; rewrite Hn in *.
  { apply wp_fail, HE; [done|apply A1]. }
  pose proof (making_alike _ _ _ _ _ _ _ _ M A1) as M1. apply pt_bind, wp_ReadEntry; [apply A1|]. intros s2 A2.
  pose proof (making_alike _ _ _ _ _ _ _ _ M1 A2) as M2. destruct (making_good _ _ _ _ _ _ _ M2) as (Hg2 & Hok2 & R2).
  assert (E12 : forall x, ent s2 x = ent s1 x) by (intros x; by apply (al_ent False)). rewrite <- !E12 in *.
  pose proof (ent_ok False s2 p Hg2) as Hco. set (c := ent s2 p) in *. cbn [p_nusers person_of] in *.
  assert (Hgc : has (flags c) PRGRP = true).
  { apply (nm_colon _ _ (rp_names _ _ _ _ _ R2) p Hp). fold c.
    assert (Hx : p_name (person_of c) = cstr (AUTHUSER_GROUP ++ from atsign (cstr aname))).
    { unfold named in Hn. destruct (filter _ _) as [|ix l] eqn:Ef; [done|]. cbn in Hn. injection Hn as ->. assert (Hin : (id c, person_of c) ∈ (id c, person_of c) :: l) by left.
      rewrite <- Ef in Hin. by apply list_elem_of_filter in Hin as [? _]. }
    cbn [p_name person_of] in Hx. rewrite <- strchr_cstr, Hx, strchr_cstr. apply cell_group_colon. }
  apply pt_bind, (wp_foreign_id fuel D E K F); [apply M2|done|done| |].
  2: { intros e s3 A3 Ea. apply HE; [by rewrite Ea|apply A3]. }
  intros aid nu s3 A3 Ea Ha Hnu Hun. rewrite Ea in *. cbv zeta in HQ, HE |- *. pose proof (making_alike _ _ _ _ _ _ _ _ M2 A3) as M3.
  rewrite quota30. set (g := quota_of 30 nusers (with_nusers nu c)).
  assert (Eg : p_quota 30 p_nusers (p_with_nusers nu (person_of c)) = person_of g) by (unfold g; rewrite quota_person; reflexivity).
  rewrite Eg in HQ, HE. cbn [p_ngroups person_of] in HQ, HE.
  assert (Hrq : requota c g) by apply requota_quota, requota_nusers, requota_refl.
  assert (Hgo : entry_ok g) by (apply quota_ok; [done|done|by apply eo_nusers]).
  assert (Hgid : id g = id c) by (destruct Hrq as (? & ? & ? & _ & ->); reflexivity). assert (Hgnm : name g = name c) by (destruct Hrq as (? & ? & ? & _ & ->); reflexivity).
  assert (Hgf : has (flags g) PRGRP = true) by (destruct Hrq as (fl & g0 & u0 & Hf & ->); cbn; by rewrite Hf). clearbody g. clear Eg.
  destruct (_ && _); [apply wp_fail, HE; [done|apply M3]|].
  assert (E3 : ent s3 p = c) by by apply (al_ent False).
  set (g' := with_ngroups _ g). change (p_with_ngroups _ (person_of g)) with (person_of g') in *.
  apply pt_bind, wp_or_code, (wp_requota fuel D E K F b); [done|done|rewrite E3; by apply requota_ngroups|apply eo_ngroups; [apply s32_range|done]|].
  intros s4 E4 _ M4. rewrite E3 in M4. set (D1 := put (id c) (person_of g') D) in *.
  assert (SN : same_names D D1) by (apply (same_names_put _ _ (person_of c)); [by apply (known_at D E K F s2)|cbn; by rewrite Hgnm]).
  destruct SN as [S1 S2]. apply S1 in Hun as Hun1. apply S2 in Hnm as Hnm1. destruct (fields_s32 _ Hco) as (_ & Hic & _).
  set (te := by_creator creator _). assert (Fr : fresh D1 aname te).
  { destruct (new_entry_fresh D1 aname nm t 0 SYSADMINID aid) as [Q1 Q2 Q3 Q4 Q5 Q6 Q7 Q8]; try done. split; try done. unfold te, by_creator. apply eo_creator.
    - cbn. by destruct (creator =? 0).
    - by apply (eo_cellid (id c) (with_id aid (new_entry nm t 0 SYSADMINID))). }
  apply pt_bind, (wp_enter_user fuel D1 E K F b te aname); [done|done|done| |].
  { intros Hb s5 Hg5. apply HE; [|done]. change (id te) with aid in Hb. by rewrite Hb. }
  intros Hb s5 E5 HbE Eb C5. change (id te) with aid in Hb, C5, Eb. rewrite Hb in *.
  apply pt_bind, wp_or_code, (wp_count fuel (put aid (person_of te) D1) ({[b]} ∪ E) (setK K b []) F); [done|done|]. intros s6 E6 C6.
  pose proof (cm_reps _ _ _ _ _ _ C6) as R6. set (D2 := put aid (person_of te) D1) in *.
  assert (He6 : eof s6 = eof s) by (rewrite E6, E5, E4; unfold eof; by rewrite (al_head _ _ _ A3), (al_head _ _ _ A2), (al_head _ _ _ A1)).
  assert (Hfind : forall i x, people D2 !! i = Some x -> exists e, e ∈ {[b]} ∪ E /\ id (ent s6 e) = i /\ person_of (ent s6 e) = x) by (intros i x; apply R6).
  destruct (Hfind aid (person_of te)) as (pu & Hpu & Eiu & Epu); [apply lookup_insert_eq|].
  destruct (Hfind (id c) (person_of g')) as (pg & Hpg & Eig & Epg).
  { cbn [people put D2 D1]. rewrite lookup_insert_ne, lookup_insert_eq; [done|]. intros Eq. pose proof (known_at D E K F s2 p R2 Hp) as Hk. fold c in Hk. congruence. }
  apply (wp_join_cell fuel D2 ({[b]} ∪ E) (setK K b []) F pu pg aid (id c)); try done.
  - unfold roomy in *. by rewrite He6.
  - by apply (f_equal p_cellid) in Epu.
  - apply (f_equal p_flags) in Epu. cbn in Epu. by rewrite Epu.
  - apply (f_equal p_flags) in Epg. cbn in Epg. rewrite Epg. by subst g'.
  - apply (unenrolled D E K F s2); done.
  - intros s7 (S7 & S8 & S9). apply (HQ aid (with_enrol ({[(aid, id c)]} ∪ enrol D2) D2)); [|split; [done|split; [done|lia]]].
    do 3 f_equal. rewrite <- (fr_name _ _ _ Fr). done.
Qed.

(** ** Ids for local entries *)

Lemma wp_AllocID D E K F b flag (Q : Z -> ptdb -> Prop) Er s :
  making D E K F b s -> (has flag PRGRP = false -> flag = 0) ->
  (forall aid D' s', a_alloc (has flag PRGRP) D = Some (aid, D') -> is_s32 aid -> people D' !! aid = None -> same_names D D' -> eof s' = eof s -> making D' E K F b s' -> Q aid s') ->
  (a_alloc (has flag PRGRP) D = None -> forall s', good False s' -> Er PRNOIDS s') ->
  wp False (AllocID fuel flag) Q Er s.
Proof using Type.
  intros M Hfl HQ HE. unfold AllocID, a_alloc in *. destruct (making_good _ _ _ _ _ _ _ M) as (_ & _ & R). destruct (sh_max _ _ _ _ (rp_shows _ _ _ _ _ R)) as [X1 X2].
  destruct (has flag PRGRP); [|rewrite (Hfl eq_refl); change (has 0 PRFOREIGN) with false; cbv iota]; unfold alloc_id; apply pt_bind, pt_get;
    rewrite ?X1, ?X2; apply pt_bind, (wp_free_id fuel D E K F); try apply M; intros s1 A1; pose proof (making_alike _ _ _ _ _ _ _ _ M A1) as M1;
    destruct (a_free _ _ _ _ _) as [aid|] eqn:Ea; cbn [fmap option_fmap option_map] in *; try (apply wp_fail, HE; [done|apply A1]);
    destruct (a_free_unknown _ _ _ _ _ _ Ea) as [Hn Ha]; apply pt_bind, wp_or_code, (making_word fuel D E K F b); try done; try (by apply small_word);
    intros s2 E2 M2; apply pt_ret; (apply (HQ aid _ _ eq_refl); [done|done|done|rewrite E2; unfold eof; by rewrite (al_head _ _ _ A1)|done]).
Qed.

Lemma wp_CreateEntry D E K F cf aname idflag flag oid creator (Q : Z -> ptdb -> Prop) Er s :
  calm D E K F s -> roomy fuel 3 s -> is_s32 oid -> is_s32 creator -> creator <> PRBADID -> Forall is_u8 aname ->
  (forall aid, idflag = Some aid -> is_s32 aid /\ people D !! aid = None) ->
  let r := a_create cf D aname idflag flag oid creator in
  (forall aid D' s', r = inr (aid, D') -> served False D' 3 s s' -> Q aid s') ->
  (forall c s', r = inl c -> good False s' -> Er c s') ->
  wp False (CreateEntry fuel cf aname idflag flag oid creator) Q Er s.
Proof using Type.
  intros C Hr Ho Hc Hcb Hu Hid r HQ HE. subst r. unfold CreateEntry, a_create in *. pose proof (cm_good _ _ _ _ _ _ C) as Hg.
  assert (Hadm : forall (Q' : bool -> ptdb -> Prop), (forall s1, alike False s s1 -> Q' (pr_noAuth cf || member D creator SYSADMINID) s1) ->
    wp False (or_else (ret (pr_noAuth cf)) (IsAMemberOf fuel creator SYSADMINID)) Q' Er s).
  { intros Q' HQ'. unfold or_else. apply pt_bind, pt_ret. destruct (pr_noAuth cf); [apply pt_ret, HQ', alike_refl, Hg|]. by apply (wp_member fuel D E K F). }
  apply pt_bind, Hadm. intros s1 A1. clear Hadm. set (admin := pr_noAuth cf || _) in *. clearbody admin. cbv zeta in *.
  destruct ((_ || _) && _ && _); [apply wp_fail, HE; [done|apply A1]|].
  set (oid' := if _ || _ then creator else oid) in *. assert (Ho' : is_s32 oid') by (subst oid'; by destruct (_ || _)). clearbody oid'.
  pose proof (calm_alike fuel D E K F s s1 C A1) as C1.
  apply pt_bind, (gives_name fuel D E K F); [done|done| |intros c s2 A2 Ec; apply HE; [by rewrite Ec|apply A2]].
  intros nm s2 A2 Ec En Hlen Hcol. rewrite Ec in *. pose proof (calm_alike fuel D E K F s1 s2 C1 A2) as C2.
  apply pt_bind, (wp_find_name fuel D E K F); [done|intros Hn s3 A3|intros p s3 A3 Hp Hn]; rewrite Hn in *.
  2: { apply wp_fail, HE; [|apply A3]. by rewrite bool_decide_true by by eexists. }
  rewrite bool_decide_false in HQ, HE by (intros [? ?]; done). pose proof (calm_alike fuel D E K F s2 s3 C2 A3) as C3.
  assert (He3 : eof s3 = eof s) by (unfold eof; by rewrite (al_head _ _ _ A3), (al_head _ _ _ A2), (al_head _ _ _ A1)). clear C C1 C2 A1 A2 A3 Hg s1 s2.
  apply pt_bind, (wp_take_block fuel D E K F); [done|unfold roomy in *; lia|]. intros b F' s4 Hb0 M4 He4 _. rewrite (proj2 (Z.eqb_neq b 0) Hb0).
  apply pt_bind, pt_get. destruct (_ && _) eqn:Ef; [apply wp_fail, HE; [done|apply M4]|].
  assert (Hfl : has flag PRGRP = false -> flag = 0) by (intros H; rewrite H in Ef; cbn in Ef; destruct (Z.eqb_spec flag 0); done).
  assert (Hlocal : forall c, let r := match (match idflag with Some aid => Some (aid, D) | None => a_alloc (has flag PRGRP) D end) with
                        | None => inl PRNOIDS
                        | Some (aid, D) => a_create_local cf D aname (has flag PRGRP) oid' creator aid end in
    (forall aid D' s', r = inr (aid, D') -> served False D' 3 s s' -> Q aid s') -> (forall c s', r = inl c -> good False s' -> Er c s') -> c = now s4 ->
    wp False (do aid <- match idflag with Some aid => ret aid | None => AllocID fuel flag end;
              create_local fuel cf aname flag oid' creator b (with_id aid (if has flag PRGRP then new_entry nm c PRGRP oid' else new_entry nm c 0 SYSADMINID))) Q Er s4).
  { intros t r' HQ' HE' ->. subst r'.
    assert (Hgo : forall D1 aid s5, making D1 E K F' b s5 -> eof s5 = eof s4 -> is_s32 aid -> people D1 !! aid = None -> same_names D D1 ->
      match idflag with Some aid => Some (aid, D) | None => a_alloc (has flag PRGRP) D end = Some (aid, D1) ->
      wp False (create_local fuel cf aname flag oid' creator b
        (with_id aid (if has flag PRGRP then new_entry nm (now s4) PRGRP oid' else new_entry nm (now s4) 0 SYSADMINID))) Q Er s5).
    { intros D1 aid s5 M5 E5 Ha Hun [_ SN] Epick. rewrite Epick in *. apply (wp_create_local fuel D1 E K F' b); try done; [by apply SN|].
      intros aid' D' E1 K1 F1 s6 Er6 C6 E6. apply (HQ' aid' D' s6 Er6), (served_calm D' E1 K1 F1); [done|lia]. }
    destruct idflag as [aid|].
    - apply pt_bind, pt_ret. destruct (Hid aid eq_refl) as [Ha Hun]. by apply (Hgo D).
    - apply pt_bind, (wp_AllocID D E K F' b); [done|done| |].
      + intros aid D1 s5 Ea Ha Hun SN E5 M5. by apply (Hgo D1).
      + intros Ea s5 Hg5. apply HE'; [by rewrite Ea|done]. }
  destruct (strchr atsign aname); cbn [negb andb] in *.
  - destruct (has flag PRGRP) eqn:Eg; cbn [negb andb] in *.
    + destruct (strcmp0 _ _); cbn [negb] in *; [|apply wp_fail, HE; [done|apply M4]]. by apply Hlocal.
    + apply (wp_create_foreign D E K F' b); try done.
      * unfold roomy in *. lia.
      * by apply Hcol.
      * intros aid D' s' Er' (S1 & S2 & S3). apply (HQ _ _ _ Er'). split; [done|]. split; [done|]. lia.
  - by apply Hlocal.
Qed.

(** ** The handlers *)

Lemma CreateOK_rule cf cid oid flag admin : CreateOK cf cid oid flag admin = a_create_ok cf cid oid flag admin.
Proof using Type.
  unfold CreateOK, a_create_ok. destruct (restricted cf), admin, (has flag PRFOREIGN), (has flag PRGRP), (pr_noAuth cf), (cid =? ANONYMOUSID), (oid =? 0), (oid =? ANONYMOUSID); done.
Qed.
Lemma stolower_u8 l : Forall is_u8 l -> Forall is_u8 (stolower l).
Proof using Type.
  intros Hl. unfold stolower. apply Forall_map. eapply Forall_impl; [exact Hl|]. intros c Hc. cbn. unfold is_u8 in *. destruct ((65 <=? c) && (c <=? 90)) eqn:Ec; [|done]. lia.
Qed.

Lemma wp_iNewEntry D E K F cf cid aname aid oid s :
  calm D E K F s -> roomy fuel 3 s -> is_s32 cid -> cid <> PRBADID -> is_s32 aid -> is_s32 oid -> Forall is_u8 aname ->
  wp False (iNewEntry fuel cf cid aname aid oid) (fun i s' => exists D', a_inew cf cid aname aid oid D = inr (i, D') /\ served False D' 3 s s')
    (fun c s' => good False s' /\ a_inew cf cid aname aid oid D = inl c) s.
Proof using Type.
  intros C Hr Hc Hcb Ha Ho Hu. unfold iNewEntry, a_inew. cbv zeta. apply pt_bind, (wp_member fuel D E K F); [done|done|done|]. intros s1 A1.
  pose proof (calm_alike fuel D E K F s s1 C A1) as C1. destruct (aid =? 0); [apply wp_fail; split; [apply A1|done]|].
  apply pt_bind, pt_get. destruct (sh_max _ _ _ _ (rp_shows _ _ _ _ _ (cm_reps _ _ _ _ _ _ C1))) as [_ ->].
  destruct (_ && _ && _ && _); [apply wp_fail; split; [apply A1|done]|].
  apply pt_bind, (wp_find_known fuel D E K F); [done|done|]. intros z s2 A2 ->. rewrite negb_involutive. pose proof (calm_alike fuel D E K F s1 s2 C1 A2) as C2.
  destruct (known D aid) eqn:Ek; [apply wp_fail; split; [apply A2|done]|]. rewrite CreateOK_rule.
  destruct (negb _); [apply wp_fail; split; [apply A2|done]|].
  assert (He : eof s2 = eof s) by (unfold eof; by rewrite (al_head _ _ _ A2), (al_head _ _ _ A1)).
  apply (wp_CreateEntry D E K F); try done.
  - unfold roomy in *. by rewrite He.
  - by apply stolower_u8.
  - intros i [= <-]. split; [done|]. by apply known_false.
  - intros i D' s3 Er (S1 & S2 & S3). exists D'. split; [done|]. split; [done|]. split; [done|]. lia.
Qed.

Lemma wp_newEntry D E K F cf cid foreign aname flag oid s :
  calm D E K F s -> roomy fuel 3 s -> is_s32 cid -> cid <> PRBADID -> is_s32 oid -> Forall is_u8 aname ->
  wp False (newEntry fuel cf cid foreign aname flag oid) (fun i s' => exists D', a_new cf cid foreign aname flag oid D = inr (i, D') /\ served False D' 3 s s')
    (fun c s' => good False s' /\ a_new cf cid foreign aname flag oid D = inl c) s.
Proof using Type.
  intros C Hr Hc Hcb Ho Hu. unfold newEntry, a_new. cbv zeta. apply pt_bind, (wp_member fuel D E K F); [done|done|done|]. intros s1 A1.
  pose proof (calm_alike fuel D E K F s s1 C A1) as C1. set (self := match foreign with Some _ => _ | None => _ end). clearbody self.
  destruct (self && _); [apply wp_fail; split; [apply A1|done]|]. rewrite CreateOK_rule.
  replace (if self then true else member D cid SYSADMINID) with (self || member D cid SYSADMINID) by by destruct self.
  destruct (negb _); [apply wp_fail; split; [apply A1|done]|].
  assert (He : eof s1 = eof s) by (unfold eof; by rewrite (al_head _ _ _ A1)).
  apply (wp_CreateEntry D E K F); try done.
  - unfold roomy in *. by rewrite He.
  - by destruct self.
  - by apply stolower_u8.
  - intros i D' s3 Er (S1 & S2 & S3). exists D'. split; [done|]. split; [done|]. split; [done|]. lia.
Qed.

End Register.
