(* ===== verification/PtMore.v ===== *)
(** * The protection database: limits, access bits and what an entry looks like *)

From stdpp Require Import prelude list gmap sorting.
From Stdlib Require Import ZArith Lia ZifyBool.
From S2P Require Import Prelude ByteMem Pt PtBlock PtOk PtList PtStep PtFrame PtNames PtRead PtSpec PtServe PtEntry PtEnter PtOwn PtNewSpec PtNew PtCreate PtMake PtRegister.

#[local] Open Scope Z_scope.
#[local] Open Scope pt_scope.

(** ** The abstract handlers *)

(** May the caller do what only administrators may? *)
Definition a_admin (cf : config) (D : adb) (cid : Z) : bool := pr_noAuth cf || member D cid SYSADMINID.

Definition a_list_max (cf : config) (cid : Z) (D : adb) : Z + (Z * Z) :=
  if anonymous_barred cf cid then inl PRPERM else inr (maxID D, maxGroup D).
Definition a_set_max (cf : config) (cid aid gflag : Z) (D : adb) : Z + adb :=
  if negb (a_admin cf D cid) then inl PRPERM
  else if (if has gflag PRGRP then 0 <? aid else aid <? 0) then inl PRBADARG
  else inr (if has gflag PRGRP then with_maxes (maxID D) aid D else with_maxes aid (maxGroup D) D).

Definition a_entry (cf : config) (cid aid : Z) (D : adb) : Z + prcheckentry :=
  if anonymous_barred cf cid then inl PRPERM
  else
    match people D !! aid with
    | None => inl PRNOENT
    | Some x =>
        if negb (allowed cf D cid aid x PRP_STATUS_MEM PRP_STATUS_ANY) then inl PRPERM
        else
          let fl := Z.shiftr (p_flags x) 16 in
          let default := if is_group x then prp_group_default cf else prp_user_default cf in
          inr (mkCheck (if fl =? 0 then Z.shiftr default 16 else fl) aid (p_owner x) (p_creator x) (p_ngroups x) (p_nusers x)
                 (Z.of_nat (length (roster D aid x))) (p_name x))
    end.

Definition p_with_flags (fl : Z) (x : person) : person :=
  mkPerson fl (p_owner x) (p_creator x) (p_ngroups x) (p_nusers x) (p_cellid x) (p_name x).
Definition a_set_fields (cf : config) (cid aid mask fl ng nu : Z) (D : adb) : Z + adb :=
  if mask =? 0 then inr D
  else if (aid =? ANYUSERID) || (aid =? AUTHUSERID) || (aid =? ANONYMOUSID) then inl PRPERM
  else
    match people D !! aid with
    | None => inl PRNOENT
    | Some x =>
        let groups := has mask PR_SF_NGROUPS in
        let users := has mask PR_SF_NUSERS in
        let old := has (p_flags x) PRQUOTA in
        if negb (if groups || users then a_admin cf D cid else allowed cf D cid aid x 0 0) then inl PRPERM
        else if (groups && (ng <? 0)) || (users && (nu <? 0)) then inl PRBADARG
        else
          let flags := set_access mask fl (p_flags x) in
          inr (put aid
                 (mkPerson (if groups || users then Z.lor flags PRQUOTA else flags) (p_owner x) (p_creator x)
                    (if groups then ng else if users && negb old then 20 else p_ngroups x)
                    (if users then nu else if groups && negb old then 20 else p_nusers x) (p_cellid x) (p_name x)) D)
    end.

(** ** Bits *)

Lemma s32_bits x : is_s32 x <-> Z.shiftr x 31 = 0 \/ Z.shiftr x 31 = -1.
Proof.
  rewrite Z.shiftr_div_pow2 by lia. unfold is_s32. pose proof (Z.div_mod x (2 ^ 31) ltac:(lia)). pose proof (Z.mod_pos_bound x (2 ^ 31) ltac:(lia)). lia.
Qed.
Lemma s32_lor x y : is_s32 x -> is_s32 y -> is_s32 (Z.lor x y).
Proof. rewrite !s32_bits, Z.shiftr_lor. intros [-> | ->] [-> | ->]; auto. Qed.
Lemma s32_land x y : is_s32 x -> is_s32 y -> is_s32 (Z.land x y).
Proof. rewrite !s32_bits, Z.shiftr_land. intros [-> | ->] [-> | ->]; auto. Qed.
Lemma s32_lnot x : is_s32 x -> is_s32 (Z.lnot x).
Proof. unfold is_s32, Z.lnot. lia. Qed.

Lemma has_group x : has x PRGRP = Z.testbit x 1.
Proof.
  unfold has. replace (Z.land x PRGRP) with (if Z.testbit x 1 then 2 else 0); [by destruct (Z.testbit x 1)|]. apply Z.bits_inj'. intros n Hn.
  rewrite Z.land_spec. change PRGRP with (2 ^ 1). destruct (decide (n = 1)) as [->|Hne].
  - destruct (Z.testbit x 1); done.
  - rewrite Z.pow2_bits_false, andb_false_r by lia. destruct (Z.testbit x 1); [|apply Z.testbit_0_l]. change 2 with (2 ^ 1). apply Z.pow2_bits_false. lia.
Qed.
Lemma high_bit m : Z.testbit (s32 (Z.shiftl m 16)) 1 = false.
Proof.
  assert (H : exists c, s32 (Z.shiftl m 16) = Z.shiftl c 16).
  { unfold s32. rewrite !Z.shiftl_mul_pow2 by lia. exists ((m + 2 ^ 15) mod 2 ^ 16 - 2 ^ 15). rewrite Z.shiftl_mul_pow2 by lia.
    replace (m * 2 ^ 16 + 2 ^ 31) with ((m + 2 ^ 15) * 2 ^ 16) by lia. change (2 ^ 32) with (2 ^ 16 * 2 ^ 16). rewrite Z.mul_mod_distr_r by lia. lia. }
  destruct H as [c ->]. apply Z.shiftl_spec_low. lia.
Qed.

Lemma set_access_s32 mask fl t : is_s32 t -> is_s32 (set_access mask fl t).
Proof.
  intros Ht. unfold set_access. destruct (_ =? 0); [done|]. apply s32_lor; [|done]. apply s32_lor; [|apply s32_range]. apply s32_land; [done|]. apply s32_lnot, s32_range.
Qed.
Lemma set_access_group mask fl t : has (set_access mask fl t) PRGRP = has t PRGRP.
Proof.
  rewrite !has_group. unfold set_access, PRIVATE_SHIFT. destruct (_ =? 0); [done|]. rewrite !Z.lor_spec, Z.land_spec, Z.lnot_spec, !high_bit by lia.
  change (Z.testbit PRACCESS 1) with false. by rewrite !orb_false_r, andb_true_r.
Qed.
Lemma has_lor x a b : has x (Z.lor a b) = has x a || has x b.
Proof.
  unfold has. rewrite Z.land_lor_distr_r. destruct (Z.eqb_spec (Z.land x a) 0) as [Ea|Ea], (Z.eqb_spec (Z.land x b) 0) as [Eb|Eb]; rewrite ?Ea, ?Eb; cbn [negb orb];
    rewrite ?Z.lor_0_l, ?Z.lor_0_r; [done|..]; apply negb_true_iff, Z.eqb_neq; try done. intros [H _]%Z.lor_eq_0_iff. done.
Qed.

Section More.
Context (fuel : nat).
#[local] Abbreviation calm := (calm fuel).

Lemma wp_admin D E K F cf cid (Q : bool -> ptdb -> Prop) Er s :
  calm D E K F s -> cid <> PRBADID -> (forall s', alike False s s' -> Q (a_admin cf D cid) s') -> wp False (AccessOK fuel cf cid None 0 0) Q Er s.
Proof using Type.
  intros C Hc HQ. pose proof (cm_good _ _ _ _ _ _ C) as Hg. unfold AccessOK, a_admin in *. destruct (pr_noAuth cf); [apply pt_ret, HQ, alike_refl, Hg|]. cbn [orb] in HQ.
  destruct (Z.eqb_spec cid SYSADMINID) as [->|Hne]; [apply pt_ret; change true with (member D SYSADMINID SYSADMINID); apply HQ, alike_refl, Hg|].
  apply pt_bind. assert (Hrest : forall s1, alike False s s1 -> (restricted cf = true -> member D cid SYSADMINID = true) -> wp False
    (if has (if has 0 PRACCESS then 0 else Z.lor 0 (if has 0 PRGRP then prp_group_default cf else prp_user_default cf)) 0 then ret true
     else or_else (ret false) (or_else (ret false) (or_else (ret false) (IsAMemberOf fuel cid SYSADMINID)))) Q Er s1).
  { intros s1 A1 _. replace (has _ 0) with false by (unfold has; by rewrite Z.land_0_r). unfold or_else. apply pt_bind, pt_ret, pt_bind, pt_ret, pt_bind, pt_ret.
    apply (wp_member fuel D E K F); [by apply (calm_alike fuel D E K F s)|done|done|]. intros s2 A2. apply HQ. by apply (alike_trans _ _ s1). }
  destruct (restricted cf).
  - apply pt_bind, (wp_member fuel D E K F); [done|done|done|]. intros s1 A1. apply pt_ret. cbn [Z.eqb andb orb]. rewrite orb_true_r, andb_true_r.
    destruct (member D cid SYSADMINID) eqn:Em; cbn [negb]; [by apply Hrest|]. by apply pt_ret, HQ.
  - apply pt_ret. by apply Hrest; [apply alike_refl|].
Qed.

Lemma wp_allowed D E K F cf cid p mem any (Q : bool -> ptdb -> Prop) Er s :
  calm D E K F s -> cid <> PRBADID ->
  (forall s', alike False s s' -> Q (allowed cf D cid (id (ent s p)) (person_of (ent s p)) mem any) s') ->
  wp False (AccessOK fuel cf cid (Some (ent s p)) mem any) Q Er s.
Proof using Type.
  intros [C1 C2 C3] Hc HQ. destruct (fields_s32 _ (ent_ok False s p C2)) as (_ & Hi & Ho & _).
  apply (answers_AccessOK fuel False D E K F s (rp_ok _ _ _ _ _ C1) (rp_shows _ _ _ _ _ C1) C3 cf cid (ent s p) mem any s C2 (alike_refl _ _ C2) Ho Hi Hc).
  intros r s' A [->|[[] _]]. by apply HQ.
Qed.

Lemma wp_listMax D E K F cf cid s : calm D E K F s ->
  wp False (listMax cf cid) (fun r s' => a_list_max cf cid D = inr r /\ alike False s s') (fun c s' => good False s' /\ a_list_max cf cid D = inl c) s.
Proof using Type.
  intros C. unfold listMax, a_list_max. destruct (anonymous_barred cf cid); [apply wp_fail; split; [apply C|done]|]. unfold GetMax.
  apply pt_bind, pt_get, pt_bind, pt_get, pt_ret. destruct (sh_max _ _ _ _ (rp_shows _ _ _ _ _ (cm_reps _ _ _ _ _ _ C))) as [-> ->]. split; [done|]. apply alike_refl, C.
Qed.

Lemma calm_word D E K F k v (Q : unit -> ptdb -> Prop) Er s :
  calm D E K F s -> other_word k -> 4 * k + 4 <= sizeof_prheader ->
  (forall s', eof s' = eof s ->
     calm (with_maxes (if w_maxID =? k then v else maxID D) (if w_maxGroup =? k then v else maxGroup D) D) E K F s' -> Q tt s') ->
  wp False (set_header_word k v) Q Er s.
Proof using Type.
  intros C Hk Hk4 HQ. apply wp_set_header_word; [apply C|done|]. intros s' W. pose proof (delta_worded _ _ _ _ _ W) as Hd.
  destruct (calm_delta fuel D E K F [] [k] s s' C Hd) as [C' He]; [by intros x ->%list_elem_of_singleton|by intros ? ?%not_elem_of_nil|].
  apply HQ; [done|]. rewrite !(wd_head _ _ _ _ _ W) in C'. destruct (sh_max _ _ _ _ (rp_shows _ _ _ _ _ (cm_reps _ _ _ _ _ _ C))) as [H1 H2].
  by rewrite H1, H2 in C'.
Qed.

Lemma wp_setMax D E K F cf cid aid gflag s : calm D E K F s -> cid <> PRBADID ->
  wp False (setMax fuel cf cid aid gflag) (fun _ s' => exists D', a_set_max cf cid aid gflag D = inr D' /\ served False D' 3 s s')
    (fun c s' => good False s' /\ a_set_max cf cid aid gflag D = inl c) s.
Proof using Type.
  intros C Hc. unfold setMax, a_set_max. apply pt_bind, (wp_admin D E K F); [done|done|]. intros s1 A1. pose proof (calm_alike fuel D E K F s s1 C A1) as C1.
  assert (He : eof s1 = eof s) by (unfold eof; by rewrite (al_head _ _ _ A1)).
  destruct (negb (a_admin cf D cid)); [apply wp_fail; split; [apply A1|done]|].
  replace (_ || _) with (if has gflag PRGRP then 0 <? aid else aid <? 0) by (destruct (has gflag PRGRP); cbn; [by rewrite orb_false_r|done]).
  destruct (if has gflag PRGRP then _ else _); [apply wp_fail; split; [apply A1|done]|]. unfold SetMax.
  destruct (has gflag PRGRP); (apply (calm_word D E K F); [done|by apply small_word..|]; intros s2 E2 C2; eexists; split; [done|]; apply (served_calm fuel _ E K F); [done|lia]).
Qed.

Lemma wp_listEntry D E K F cf cid aid s : calm D E K F s -> cid <> PRBADID -> is_s32 aid ->
  wp False (listEntry fuel cf cid aid) (fun r s' => a_entry cf cid aid D = inr r /\ alike False s s') (fun c s' => good False s' /\ a_entry cf cid aid D = inl c) s.
Proof using Type.
  intros C Hc Ha. unfold listEntry, a_entry. destruct (anonymous_barred cf cid); [apply wp_fail; split; [apply C|done]|].
  apply pt_bind, (wp_find fuel D E K F); [done|done|intros Hn s1 A1|intros p s1 A1 Hp Hp0 Ei Ep]; rewrite ?Hn, ?Ep; [apply wp_fail; split; [apply A1|done]|].
  rewrite (proj2 (Z.eqb_neq p 0) Hp0). apply pt_bind, wp_ReadEntry; [apply A1|]. intros s2 A2. rewrite <- !(al_ent _ _ _ p A2) in *.
  pose proof (alike_trans _ _ _ _ A1 A2) as A. pose proof (calm_alike fuel D E K F s s2 C A) as C2. subst aid.
  apply pt_bind, (wp_allowed D E K F); [done|done|]. intros s3 A3. destruct (negb _); [apply wp_fail; split; [apply A3|done]|].
  apply pt_ret. cbv zeta. split; [|by apply (alike_trans _ _ s2)]. do 2 f_equal. unfold is_group. cbn [p_flags person_of].
  pose proof (rp_ok _ _ _ _ _ (cm_reps _ _ _ _ _ _ C2)) as Hok. rewrite (li_count _ _ _ (ok_lists _ _ _ _ Hok p Hp)).
  rewrite s32_small by (pose proof (members_bound False E K F s2 p (cm_good _ _ _ _ _ _ C2) Hok Hp); unfold is_s32; lia).
  rewrite (Permutation_length (roster_members D E K F s2 p Hok (rp_shows _ _ _ _ _ (cm_reps _ _ _ _ _ _ C2)) Hp)). done.
Qed.

(** An entry is written with other flags and quotas. *)
Lemma calm_requota D E K F p e' (Q : unit -> ptdb -> Prop) Er s :
  calm D E K F s -> p ∈ E -> requota (ent s p) e' -> entry_ok e' ->
  (forall s', eof s' = eof s -> calm (put (id (ent s p)) (person_of e') D) E K F s' -> Q tt s') -> wp False (pr_WriteEntry p e') Q Er s.
Proof using Type.
  intros C Hp Hq He HQ. pose proof (rp_ok _ _ _ _ _ (cm_reps _ _ _ _ _ _ C)) as Hok. pose proof (ok_entry _ _ _ _ _ Hok Hp) as Hb.
  apply wp_WriteEntry; [apply C|by apply (ok_block_low _ _ _ _ _ Hok)|done|]. intros s' W Ee. pose proof (delta_wrote _ _ _ _ (block_aligned _ _ Hb) W) as Hd.
  assert (Hef : eof s' = eof s) by (unfold eof; by rewrite (wr_head _ _ _ _ W)). apply HQ; [done|].
  split; [|apply W|unfold enough; rewrite Hef; apply C]. rewrite <- Ee. rewrite <- Ee in Hq. apply (reps_requota False D E K F s); [apply C|done..].
Qed.

Lemma wp_setFieldsEntry D E K F cf cid aid mask fl ng nu s :
  calm D E K F s -> cid <> PRBADID -> is_s32 aid -> is_s32 ng -> is_s32 nu ->
  wp False (setFieldsEntry fuel cf cid aid mask fl ng nu) (fun _ s' => exists D', a_set_fields cf cid aid mask fl ng nu D = inr D' /\ served False D' 3 s s')
    (fun c s' => good False s' /\ a_set_fields cf cid aid mask fl ng nu D = inl c) s.
Proof using Type.
  intros C Hc Ha Hng Hnu. unfold setFieldsEntry, a_set_fields. destruct (mask =? 0).
  { apply pt_ret. exists D. split; [done|]. apply (served_calm fuel D E K F); [done|lia]. }
  destruct (_ || _ || _); [apply wp_fail; split; [apply C|done]|].
  apply pt_bind, (wp_find fuel D E K F); [done|done|intros Hn s1 A1|intros p s1 A1 Hp Hp0 Ei Ep]; rewrite ?Hn, ?Ep; [apply wp_fail; split; [apply A1|done]|].
  rewrite (proj2 (Z.eqb_neq p 0) Hp0). apply pt_bind, wp_ReadEntry; [apply A1|]. intros s2 A2. rewrite <- !(al_ent _ _ _ p A2) in *.
  pose proof (alike_trans _ _ _ _ A1 A2) as A. pose proof (calm_alike fuel D E K F s s2 C A) as C2. subst aid. cbv zeta. rewrite has_lor.
  set (groups := has mask PR_SF_NGROUPS). set (users := has mask PR_SF_NUSERS). set (x := person_of (ent s2 p)). clearbody groups users.
  assert (Hacc : forall (Q' : bool -> ptdb -> Prop) Er', (forall s3, alike False s2 s3 -> Q' (if groups || users then a_admin cf D cid else allowed cf D cid (id (ent s2 p)) x 0 0) s3) ->
    wp False (if groups || users then AccessOK fuel cf cid None 0 0 else AccessOK fuel cf cid (Some (ent s2 p)) 0 0) Q' Er' s2).
  { intros Q' Er' HQ'. destruct (groups || users); [by apply (wp_admin D E K F)|by apply (wp_allowed D E K F)]. }
  apply pt_bind, Hacc. intros s3 A3. clear Hacc. pose proof (calm_alike fuel D E K F s2 s3 C2 A3) as C3. pose proof (al_ent _ _ _ p A3) as E3.
  destruct (negb (if _ || _ then _ else _)); [apply wp_fail; split; [apply A3|done]|].
  destruct (groups && (ng <? 0)); [apply wp_fail; split; [apply A3|done]|]. destruct (users && (nu <? 0)); [apply wp_fail; split; [apply A3|done]|]. cbn [orb].
  set (e := ent s2 p) in *. pose proof (ent_ok False s2 p (cm_good _ _ _ _ _ _ C2)) as Heo. fold e in Heo. destruct (fields_s32 _ Heo) as (Hf32 & _).
  set (e1 := if (groups || users) && negb (has (flags e) PRQUOTA) then _ else e).
  set (e2 := if groups then with_ngroups ng e1 else e1). set (e3 := if users then with_nusers nu e2 else e2).
  set (fl' := if groups || users then Z.lor (set_access mask fl (flags e1)) PRQUOTA else set_access mask fl (flags e1)).
  assert (Hfe : flags e1 = flags e) by (unfold e1; by destruct (_ && _)).
  assert (Hok1 : entry_ok e1) by (unfold e1; destruct (_ && _); [by apply eo_nusers, eo_ngroups|done]).
  assert (Hok3 : entry_ok e3) by (unfold e3, e2; destruct users, groups; auto using eo_nusers, eo_ngroups).
  assert (Hfl : is_s32 fl' /\ has fl' PRGRP = has (flags e) PRGRP).
  { unfold fl'. rewrite Hfe. pose proof (set_access_s32 mask fl _ Hf32) as H1. pose proof (set_access_group mask fl (flags e)) as H2.
    destruct (_ || _); [|done]. split; [by apply s32_lor|]. by rewrite has_lor_quota. }
  apply (calm_requota D E K F); [done|done| |apply eo_flags; [apply Hfl|done]|].
  - rewrite E3. exists fl', (ngroups e3), (nusers e3). split; [apply Hfl|]. unfold e3, e2, e1. destruct users, groups, (has (flags e) PRQUOTA); cbn [orb andb negb]; destruct e; done.
  - intros s4 E4 C4. rewrite E3 in C4. eexists. split; [done|].
    assert (Eq : person_of (with_flags fl' e3) = mkPerson (if groups || users then Z.lor (set_access mask fl (p_flags x)) PRQUOTA else set_access mask fl (p_flags x)) (p_owner x) (p_creator x)
                    (if groups then ng else if users && negb (has (p_flags x) PRQUOTA) then 20 else p_ngroups x)
                    (if users then nu else if groups && negb (has (p_flags x) PRQUOTA) then 20 else p_nusers x) (p_cellid x) (p_name x)).
    { unfold fl', e3, e2. rewrite Hfe. unfold e1, x. cbn [p_flags person_of]. fold e. destruct users, groups, (has (flags e) PRQUOTA); done. }
    rewrite <- Eq. apply (served_calm fuel _ E K F); [done|]. rewrite E4. unfold eof. rewrite (al_head _ _ _ A3), (al_head _ _ _ A2), (al_head _ _ _ A1). lia.
Qed.

End More.
