(* ===== verification/PtInit.v ===== *)
(** * The protection database: a new database *)

From stdpp Require Import prelude list gmap sorting.
From Stdlib Require Import ZArith Lia ZifyBool.
From S2P Require Import Prelude ByteMem Pt PtBlock PtOk PtList PtStep PtFrame PtNames PtRead PtSpec PtServe PtEntry PtEnter PtOwn PtNewSpec PtNew PtCreate PtMake PtRegister PtMore.

#[local] Open Scope Z_scope.
#[local] Open Scope pt_scope.

(** ** The abstract database of a new cell *)

Definition nobody : adb := mkAdb ∅ ∅ 0 0.
Definition built_in (flags ng nu : Z) (nm : list Z) : person := mkPerson flags SYSADMINID SYSADMINID ng nu 0 nm.
(** The administrators were charged for the groups but the first: their quota is set. *)
Definition new_cell : adb :=
  mkAdb (list_to_map
    [(SYSADMINID, built_in (Z.lor PRGRP PRQUOTA) 20 20 str_administrators); (SYSBACKUPID, built_in PRGRP 0 0 str_backup);
     (ANYUSERID, built_in PRGRP 0 0 str_anyuser); (AUTHUSERID, built_in PRGRP 0 0 AUTHUSER_GROUP);
     (SYSVIEWERID, built_in PRGRP 0 0 str_ptsviewers); (ANONYMOUSID, built_in PRQUOTA 20 20 str_anonymous)]) ∅ 0 SYSBACKUPID.

(** The entries can be created one after the other, and lead to [D']. *)
Fixpoint creates (cf : config) (l : list (Z * list Z)) (D D' : adb) : Prop :=
  match l with
  | [] => D = D'
  | (aid, nm) :: l =>
      known D aid = false
      /\ match a_create cf D nm (Some aid) (if aid <? 0 then PRGRP else 0) SYSADMINID SYSADMINID with
         | inl _ => False
         | inr (_, D) => creates cf l D D'
         end
  end.
Lemma creates_cell cf : exists D, creates cf initial_entries nobody D /\ with_maxes 0 (maxGroup D) D = new_cell.
Proof.
  destruct cf as [n a b c d]. destruct n; (eexists; split; [cbn [creates initial_entries]; repeat (split; [vm_compute; reflexivity|]; 
    match goal with |- match ?x with _ => _ end => let y := eval vm_compute in x in change x with y; cbv iota beta end); reflexivity|vm_compute; reflexivity]).
Qed.

Section Init.
Context (fuel : nat).
#[local] Abbreviation calm := (calm fuel).

Lemma calm_nobody s :
  good False s -> eof s = sizeof_prheader -> (forall k, 0 <= k < 16400 -> k <> w_headerSize -> k <> w_eofPtr -> cheader s k = 0) ->
  calm nobody ∅ (fun _ => []) [] s.
Proof using Type.
  intros Hg He Hz.
  assert (Hth : forall nx hd (P : Z -> Prop), hd = 0 -> (forall p, ~ P p) -> threaded nx hd P).
  { intros nx hd P -> HP. exists []. split; [done|]. split; [apply NoDup_nil_2|]. intros p. split; [by intros ?%not_elem_of_nil|]. intros H. by destruct (HP p). }
  assert (Hnone : forall p : Z, p ∉ (∅ : gset Z)) by (intros p; apply not_elem_of_empty).
  split; [|done|unfold enough; rewrite He; lia]. split; split.
  - exists 0. rewrite He. done.
  - intros p [?%Hnone|(e & ?%Hnone & _)]; done.
  - intros p ?%not_elem_of_nil. done.
  - split; [apply NoDup_nil_2|]. intros e ?%Hnone. done.
  - intros e e' b ?%Hnone. done.
  - apply Hz; done.
  - intros i Hi. apply Hth; [apply Hz; unfold w_idHash, w_headerSize, w_eofPtr, HASHSIZE in *; lia|]. by intros p [?%Hnone _].
  - intros p ?%Hnone. done.
  - intros p p' ?%Hnone. done.
  - intros p ?%Hnone. done.
  - intros i x. cbn. rewrite lookup_empty. split; [done|]. by intros (p & ?%Hnone & _).
  - intros u g. split; [by intros ?%not_elem_of_empty|]. by intros (p & ?%Hnone & _).
  - intros u g. split; [by intros ?%not_elem_of_empty|]. by intros (p & ?%Hnone & _).
  - split; by apply Hz.
  - intros i Hi. apply Hth; [apply Hz; unfold w_nameHash, w_headerSize, w_eofPtr, HASHSIZE in *; lia|]. by intros p [?%Hnone _].
  - intros p p' ?%Hnone. done.
  - intros p ?%Hnone. done.
  - intros p ?%Hnone. done.
  - intros o ?%Hnone. done.
  - apply Hth; [by apply Hz|]. by intros p [?%Hnone _].
  - intros p ?%Hnone. done.
Qed.

Lemma wp_initial_groups cf l : forall D D' E K F s (Q : unit -> ptdb -> Prop) Er,
  calm D E K F s -> roomy fuel (3 * Z.of_nat (length l)) s -> Forall (fun x => is_s32 x.1 /\ Forall is_u8 x.2) l -> creates cf l D D' ->
  (forall E' K' F' s', calm D' E' K' F' s' -> eof s <= eof s' <= eof s + 192 * (3 * Z.of_nat (length l)) -> Q tt s') ->
  wp False (initial_groups fuel cf l) Q Er s.
Proof using Type.
  induction l as [|[aid nm] l IH]; intros D D' E K F s Q Er C Hr Hl Hc HQ; cbn [initial_groups creates length] in *.
  { subst D'. apply pt_ret, (HQ E K F); [done|lia]. }
  rewrite Nat2Z.inj_succ in *. apply Forall_cons in Hl as [[Hl1 Hl2] Hl]. cbn [fst snd] in *. destruct Hc as [Hk Hc].
  apply pt_bind. unfold InitialGroup. apply (wp_CreateEntry fuel D E K F); try done.
  - unfold roomy in *. lia.
  - intros i [= <-]. split; [done|]. by apply known_false.
  - intros i D1 s1 Ea ((E1 & K1 & F1 & R1) & S2 & S3). rewrite Ea in Hc. apply (IH D1 D' E1 K1 F1); try done.
    + split; [done|done|]. unfold enough, roomy in *. lia.
    + unfold roomy in *. lia.
    + intros E' K' F' s' C' He. apply (HQ E' K' F'); [done|lia].
  - intros c s1 Ea. by rewrite Ea in Hc.
Qed.

Lemma letters l : forallb (fun c => (0 <=? c) && (c <? 256)) l = true -> Forall is_u8 l.
Proof using Type. rewrite forallb_forall. intros H. apply Forall_forall. intros x Hx%list_elem_of_In. specialize (H x Hx). unfold is_u8. lia. Qed.
Lemma initial_wire : Forall (fun x => is_s32 x.1 /\ Forall is_u8 x.2) initial_entries.
Proof using Type.
  assert (H : forallb (fun x => (- 2 ^ 31 <=? x.1) && (x.1 <? 2 ^ 31) && forallb (fun c => (0 <=? c) && (c <? 256)) x.2) initial_entries = true) by (vm_compute; reflexivity).
  rewrite forallb_forall in H. apply Forall_forall. intros x Hx%list_elem_of_In. specialize (H x Hx). apply andb_prop in H as [H1 H2]. split; [unfold is_s32; lia|by apply letters].
Qed.

Lemma wp_Initdb cf s :
  good False s -> (forall k, 0 <= k < 16400 -> cheader s k = 0) -> (20 <= fuel)%nat ->
  wp False (Initdb fuel cf) (fun _ s' => models new_cell s' /\ good False s' /\ sizeof_prheader <= eof s' <= sizeof_prheader + 3456) (fun _ _ => False) s.
Proof using Type.
  intros Hg Hz Hf. unfold Initdb, Initdb_check. apply pt_bind, pt_bind, pt_get, pt_bind, pt_get, pt_bind, pt_get.
  rewrite (Hz w_headerSize), (Hz w_version) by done. change (negb (_ && _ && _)) with true. cbv iota.
  apply pt_ret. cbv iota. apply pt_bind, pt_get. replace (forallb _ _) with true.
  2: { symmetry. apply forallb_forall. intros k Hk%list_elem_of_In%elem_of_seqZ. rewrite Hz by lia. done. }
  cbn [negb]. apply pt_bind, wp_set_header_word; [done|done|]. intros s1 W1. apply pt_bind, wp_set_header_word; [apply W1|done|]. intros s2 W2.
  apply pt_bind, wp_set_header_word; [apply W2|done|]. intros s3 W3.
  assert (He : eof s3 = sizeof_prheader) by (unfold eof; by rewrite (wd_head _ _ _ _ _ W3)).
  assert (C : calm nobody ∅ (fun _ => []) [] s3).
  { apply calm_nobody; [apply W3|done|]. intros k Hk H1 H2. rewrite (wd_head _ _ _ _ _ W3), (proj2 (Z.eqb_neq k w_eofPtr) H2).
    rewrite (wd_head _ _ _ _ _ W2), (proj2 (Z.eqb_neq k w_headerSize) H1). rewrite (wd_head _ _ _ _ _ W1), Hz by done. by destruct (k =? w_version). }
  destruct (creates_cell cf) as (D & Hc & Ed).
  apply pt_bind, (wp_initial_groups cf initial_entries nobody D ∅ (fun _ => []) []); [done| |apply initial_wire|done|].
  { unfold roomy. rewrite He. unfold sizeof_prheader. cbn [length initial_entries]. lia. }
  intros E K F s4 C4 He4. apply (calm_word fuel D E K F); [done|by apply small_word..|]. intros s5 E5 C5. cbn [Z.eqb Pos.eqb] in C5.
  change (if w_maxID =? w_maxID then 0 else maxID D) with 0 in C5. change (if w_maxGroup =? w_maxID then 0 else maxGroup D) with (maxGroup D) in C5. rewrite Ed in C5.
  split; [exists E, K, F; apply C5|]. split; [apply C5|]. rewrite E5. rewrite He in He4. cbn [length initial_entries] in He4. lia.
Qed.

(** A database is made where there was nothing. *)
Lemma Initdb_makes cf s :
  good False s -> (forall k, 0 <= k < 16400 -> cheader s k = 0) -> (20 <= fuel)%nat ->
  (Initdb fuel cf s).1 = Ok tt /\ models new_cell (Initdb fuel cf s).2 /\ good False (Initdb fuel cf s).2
  /\ sizeof_prheader <= eof (Initdb fuel cf s).2 <= sizeof_prheader + 3456.
Proof using Type.
  intros Hg Hz Hf. pose proof (wp_Initdb cf s Hg Hz Hf) as H. unfold wp in H.
  destruct (Initdb fuel cf s) as [[[]|c| |] s']; [done|by destruct H as [[[] _]|[]]|done..].
Qed.

End Init.
