(* ===== verification/PtGroups.v ===== *)
(** * The protection database: what clients may rely on

    Requests are served one after the other, each in its own transaction.  When ubik does
    not fail, the server answers every request as the abstract database does; when it
    fails, a request is refused and the database stays as it was. *)

From stdpp Require Import prelude list gmap sorting.
From Stdlib Require Import ZArith Lia ZifyBool.
From S2P Require Import Prelude ByteMem Pt PtBlock PtOk PtList PtStep PtFrame PtNames PtAdd PtRemove PtRead PtSpec PtServe PtEntry PtNewSpec PtNew PtCreate PtRegister PtMore PtInit.

#[local] Open Scope Z_scope.
#[local] Open Scope pt_scope.

(** ** Requests *)

Inductive request :=
| AddToGroup (aid gid : Z)
| RemoveFromGroup (aid gid : Z)
| IsMember (uid gid : Z)
| ListElements (aid : Z)
| GetCPS (aid : Z)
| NewEntry (foreign : option (list Z)) (aname : list Z) (flag oid : Z)
| INewEntry (aname : list Z) (aid oid : Z)
| SetFieldsEntry (aid mask fl ng nu : Z)
| ListEntry (aid : Z)
| ListMax
| SetMax (aid gflag : Z).

Inductive reply :=
| Refused (c : Z)
| Done
| Answer (b : bool)
| Ids (l : list Z)
| Made (aid : Z)
| Entry (e : prcheckentry)
| Maxes (r : Z * Z)
| Hung.                         (* an assertion failed, or a walk did not end *)

(** ABORT_WITH: nothing of the transaction stays, and the header is read again. *)
Definition aborted (s s' : ptdb) : ptdb := mkPt (disk s) (cheader s) (now s') (io s').
Definition transact {A} (f : A -> reply) (m : M A) (s : ptdb) : reply * ptdb :=
  match m s with
  | (Ok a, s') => (f a, s')
  | (Err c, s') => (Refused c, aborted s s')
  | (_, s') => (Hung, s')
  end.

Definition serve (fuel : nat) (cf : config) (cid : Z) (r : request) : ptdb -> reply * ptdb :=
  match r with
  | AddToGroup aid gid => transact (fun _ => Done) (addToGroup fuel cf cid aid gid)
  | RemoveFromGroup aid gid => transact (fun _ => Done) (removeFromGroup fuel cf cid aid gid)
  | IsMember uid gid => transact Answer (isAMemberOf fuel cf cid uid gid)
  | ListElements aid => transact Ids (listElements fuel cf cid aid)
  | GetCPS aid => transact Ids (getCPS fuel cf cid aid)
  | NewEntry foreign aname flag oid => transact Made (newEntry fuel cf cid foreign aname flag oid)
  | INewEntry aname aid oid => transact Made (iNewEntry fuel cf cid aname aid oid)
  | SetFieldsEntry aid mask fl ng nu => transact (fun _ => Done) (setFieldsEntry fuel cf cid aid mask fl ng nu)
  | ListEntry aid => transact Entry (listEntry fuel cf cid aid)
  | ListMax => transact Maxes (listMax cf cid)
  | SetMax aid gflag => transact (fun _ => Done) (setMax fuel cf cid aid gflag)
  end.

Definition outcome {A} (f : A -> reply) (D : adb) (r : Z + A) : reply * adb :=
  match r with inl c => (Refused c, D) | inr a => (f a, D) end.
Definition change_of (D : adb) (r : Z + adb) : reply * adb :=
  match r with inl c => (Refused c, D) | inr D' => (Done, D') end.
Definition made_of (D : adb) (r : Z + (Z * adb)) : reply * adb :=
  match r with inl c => (Refused c, D) | inr (aid, D') => (Made aid, D') end.
Definition a_serve (cf : config) (cid : Z) (r : request) (D : adb) : reply * adb :=
  match r with
  | AddToGroup aid gid => change_of D (a_add cf cid aid gid D)
  | RemoveFromGroup aid gid => change_of D (a_remove cf cid aid gid D)
  | IsMember uid gid => outcome Answer D (a_member cf cid uid gid D)
  | ListElements aid => outcome Ids D (a_list cf cid aid D)
  | GetCPS aid => outcome Ids D (a_cps cf cid aid D)
  | NewEntry foreign aname flag oid => made_of D (a_new cf cid foreign aname flag oid D)
  | INewEntry aname aid oid => made_of D (a_inew cf cid aname aid oid D)
  | SetFieldsEntry aid mask fl ng nu => change_of D (a_set_fields cf cid aid mask fl ng nu D)
  | ListEntry aid => outcome Entry D (a_entry cf cid aid D)
  | ListMax => outcome Maxes D (a_list_max cf cid D)
  | SetMax aid gflag => change_of D (a_set_max cf cid aid gflag D)
  end.

(** Callers with their requests, in turn. *)
Fixpoint run (fuel : nat) (cf : config) (l : list (Z * request)) (s : ptdb) : list reply * ptdb :=
  match l with
  | [] => ([], s)
  | (cid, r) :: l =>
      let '(x, s) := serve fuel cf cid r s in
      let '(xs, s) := run fuel cf l s in (x :: xs, s)
  end.
Fixpoint a_run (cf : config) (l : list (Z * request)) (D : adb) : list reply * adb :=
  match l with
  | [] => ([], D)
  | (cid, r) :: l =>
      let '(x, D) := a_serve cf cid r D in
      let '(xs, D) := a_run cf l D in (x :: xs, D)
  end.

(** What comes off the wire. *)
Definition wire (x : Z * request) : Prop :=
  is_s32 x.1 /\ x.1 <> PRBADID
  /\ match x.2 with
     | AddToGroup a b | RemoveFromGroup a b | IsMember a b => is_s32 a /\ is_s32 b
     | ListElements a | GetCPS a | ListEntry a | SetMax a _ => is_s32 a
     | NewEntry _ nm _ o => is_s32 o /\ Forall is_u8 nm
     | INewEntry nm a o => is_s32 a /\ is_s32 o /\ Forall is_u8 nm
     | SetFieldsEntry a _ _ g u => is_s32 a /\ is_s32 g /\ is_s32 u
     | ListMax => True
     end.
(** The requests about members. *)
Definition about_members (r : request) : bool :=
  match r with AddToGroup _ _ | RemoveFromGroup _ _ | IsMember _ _ | ListElements _ | GetCPS _ => true | _ => false end.

(** ** One request *)

(** The reply and the database are those of the abstract server; or ubik failed, the
    request was refused (or the answer is no) and nothing has changed. *)
Definition keeps (q : Prop) (cf : config) (cid : Z) (r : request) (D : adb) (s : ptdb) (o : reply * ptdb) : Prop :=
  good q o.2 /\ eof s <= eof o.2 <= eof s + 576
  /\ (o.1 = (a_serve cf cid r D).1 /\ models (a_serve cf cid r D).2 o.2
      \/ q /\ models D o.2 /\ ((exists c, o.1 = Refused c) \/ o.1 = Answer false)).

Lemma good_aborted q s s' : good q s -> good q s' -> good q (aborted s s').
Proof. intros [_ H1] [H2 _]. by split. Qed.
Lemma models_same D s s' : cheader s' = cheader s -> disk s' = disk s -> models D s -> models D s'.
Proof.
  intros E1 E2 (E & K & F & [Hok Hsh Hn Ho]).
  assert (Ee : forall p, ent s' p = ent s p) by (intros p; by rewrite !ent_eq, E2).
  assert (Ec : forall p, con s' p = con s p) by (intros p; by rewrite !con_eq, E2).
  exists E, K, F. split.
  - apply (ok_ext E K F s); auto.
  - pose proof (shows_frame D E K s s' Hsh) as H. rewrite E1 in H. replace (with_maxes _ _ D) with D in H by (destruct (sh_max _ _ _ _ Hsh) as [-> ->]; by destruct D).
    apply H. intros p _. rewrite Ee. split; [done|]. split; [done|]. by apply members_ext.
  - apply (names_frame E s); [intros; by rewrite E1|intros; by rewrite Ee|done].
  - apply (owners_frame E s); [by rewrite E1|intros; by rewrite Ee|done].
Qed.

(** From what is known of a handler to what is known of its transaction. *)
Lemma transact_change {B} q cf cid r D s (m : M B) f :
  good q s -> models D s ->
  wp q m (fun x s' => exists D', a_serve cf cid r D = (f x, D') /\ served q D' 3 s s') (fun c s' => good q s' /\ a_serve cf cid r D = (Refused c, D)) s ->
  keeps q cf cid r D s (transact f m s).
Proof.
  intros Hg Hm H. unfold wp in H. unfold transact, keeps. destruct (m s) as [[u|c| |] s']; try done.
  - destruct H as (D' & -> & Hmod & Hg' & He). split; [done|]. split; [cbn; lia|]. left. done.
  - assert (He : eof s <= eof (aborted s s') <= eof s + 576) by (unfold eof; cbn; lia).
    assert (Hab : models D (aborted s s')) by by apply (models_same D s). cbn [fst snd].
    destruct H as [[Hq Hg']|[Hg' ->]]; (split; [by apply good_aborted|split; [done|]]); [right|left; done].
    split; [done|]. split; [done|]. left. by exists c.
Qed.
Lemma transact_unit q cf cid r D s (m : M unit) (a : Z + adb) n :
  good q s -> models D s -> n <= 3 -> a_serve cf cid r D = change_of D a ->
  wp q m (fun _ s' => exists D', a = inr D' /\ served q D' n s s') (fun c s' => good q s' /\ a = inl c) s ->
  keeps q cf cid r D s (transact (fun _ => Done) m s).
Proof.
  intros Hg Hm Hn Ea H. apply transact_change; [done|done|]. eapply pt_mono; [exact H| |].
  - intros _ s' (D' & -> & S1 & S2 & S3). exists D'. split; [done|]. split; [done|]. split; [done|]. lia.
  - intros c s' [Hg' ->]. done.
Qed.
Lemma transact_made q cf cid r D s (m : M Z) (a : Z + (Z * adb)) :
  good q s -> models D s -> a_serve cf cid r D = made_of D a ->
  wp q m (fun i s' => exists D', a = inr (i, D') /\ served q D' 3 s s') (fun c s' => good q s' /\ a = inl c) s ->
  keeps q cf cid r D s (transact Made m s).
Proof.
  intros Hg Hm Ea H. apply transact_change; [done|done|]. eapply pt_mono; [exact H| |].
  - intros i s' (D' & -> & S). by exists D'.
  - intros c s' [Hg' ->]. done.
Qed.
Lemma transact_read {B} q cf cid r D s (m : M B) f (a : Z + B) :
  good q s -> models D s -> a_serve cf cid r D = outcome f D a ->
  wp q m (fun x s' => (a = inr x \/ q /\ f x = Answer false) /\ alike q s s') (fun c s' => good q s' /\ a = inl c) s ->
  keeps q cf cid r D s (transact f m s).
Proof.
  intros Hg Hm Ea H. unfold wp in H. unfold transact, keeps. rewrite Ea. destruct (m s) as [[x|c| |] s']; try done.
  - destruct H as [H A]. cbn [fst snd]. assert (Hmod : models D s') by (apply (models_same D s); [apply A|apply A|done]).
    split; [apply A|]. split; [unfold eof; rewrite (al_head _ _ _ A); lia|]. destruct H as [->|[Hq Hx]]; [by left|right; auto].
  - assert (He : eof s <= eof (aborted s s') <= eof s + 576) by (unfold eof; cbn; lia).
    assert (Hab : models D (aborted s s')) by by apply (models_same D s). cbn [fst snd].
    destruct H as [[Hq Hg']|[Hg' ->]]; (split; [by apply good_aborted|split; [done|]]); [right|left; done].
    split; [done|]. split; [done|]. left. by exists c.
Qed.

Lemma serve_members fuel q cf x D s :
  good q s -> models D s -> roomy fuel 3 s -> wire x -> about_members x.2 = true -> keeps q cf x.1 x.2 D s (serve fuel cf x.1 x.2 s).
Proof.
  destruct x as [cid r]. intros Hg Hm Hr (Hc32 & Hc & Hw) Hab. cbn [fst snd] in *. pose proof Hm as (E & K & F & [Hok Hsh Hn Ho]).
  assert (Hr2 : roomy fuel 2 s) by (unfold roomy in *; lia).
  destruct r as [aid gid|aid gid|uid gid|aid|aid| | | | | |]; try discriminate Hab; cbn [serve]; cbn in Hw; [destruct Hw as [W1 W2]..| |].
  - by apply (transact_unit _ _ _ _ _ _ _ (a_add cf cid aid gid D) 2); [..|apply (wp_addToGroup fuel q cf D E K F)].
  - by apply (transact_unit _ _ _ _ _ _ _ (a_remove cf cid aid gid D) 2); [..|apply (wp_removeFromGroup fuel q cf D E K F)].
  - apply (transact_read _ _ _ _ _ _ _ _ (a_member cf cid uid gid D)); [done..|].
    eapply pt_mono; [by apply (wp_isAMemberOf fuel q cf D E K F)| |done]. intros b s' [[H|[H ->]] A]; auto.
  - apply (transact_read _ _ _ _ _ _ _ _ (a_list cf cid aid D)); [done..|].
    eapply pt_mono; [by apply (wp_listElements fuel q cf D E K F)| |done]. intros b s' [H A]; auto.
  - apply (transact_read _ _ _ _ _ _ _ _ (a_cps cf cid aid D)); [done..|].
    eapply pt_mono; [by apply (wp_getCPS fuel q cf D E K F)| |done]. intros b s' [H A]; auto.
Qed.

Lemma serve_calm fuel cf x D s :
  good False s -> models D s -> roomy fuel 3 s -> wire x -> keeps False cf x.1 x.2 D s (serve fuel cf x.1 x.2 s).
Proof.
  intros Hg Hm Hr Hx. destruct (about_members x.2) eqn:Hab; [by apply serve_members|].
  destruct x as [cid r], Hx as (Hc32 & Hc & Hw). cbn [fst snd] in *. pose proof Hm as (E & K & F & R).
  assert (C : calm fuel D E K F s) by (split; [done|done|unfold enough, roomy in *; lia]).
  destruct r as [| | | | |foreign nm flag oid|nm aid oid|aid mask fl ng nu|aid| |aid gflag]; try discriminate Hab; cbn [serve]; cbn in Hw.
  - destruct Hw. apply (transact_made _ _ _ _ _ _ _ (a_new cf cid foreign nm flag oid D)); [done..|]. by apply (wp_newEntry fuel D E K F).
  - destruct Hw as (? & ? & ?). apply (transact_made _ _ _ _ _ _ _ (a_inew cf cid nm aid oid D)); [done..|]. by apply (wp_iNewEntry fuel D E K F).
  - destruct Hw as (? & ? & ?). by apply (transact_unit _ _ _ _ _ _ _ (a_set_fields cf cid aid mask fl ng nu D) 3); [..|apply (wp_setFieldsEntry fuel D E K F)].
  - apply (transact_read _ _ _ _ _ _ _ _ (a_entry cf cid aid D)); [done..|].
    eapply pt_mono; [by apply (wp_listEntry fuel D E K F)| |done]. intros b s' [H A]; auto.
  - apply (transact_read _ _ _ _ _ _ _ _ (a_list_max cf cid D)); [done..|].
    eapply pt_mono; [by apply (wp_listMax fuel D E K F)| |done]. intros b s' [H A]; auto.
  - by apply (transact_unit _ _ _ _ _ _ _ (a_set_max cf cid aid gflag D) 3); [..|apply (wp_setMax fuel D E K F)].
Qed.

(** ** Histories *)

(** What may happen to the abstract database: a request is served, or ubik fails and the
    request is refused, or the answer is no. *)
Inductive history (cf : config) : adb -> list (Z * request) -> list reply -> adb -> Prop :=
| H_end D : history cf D [] [] D
| H_served D cid r l xs D' :
    history cf (a_serve cf cid r D).2 l xs D' -> history cf D ((cid, r) :: l) ((a_serve cf cid r D).1 :: xs) D'
| H_refused D cid r l c xs D' : history cf D l xs D' -> history cf D ((cid, r) :: l) (Refused c :: xs) D'
| H_no D cid uid gid l xs D' : history cf D l xs D' -> history cf D ((cid, IsMember uid gid) :: l) (Answer false :: xs) D'.

Lemma answer_is_member fuel cf cid r s b s' : serve fuel cf cid r s = (Answer b, s') -> exists uid gid, r = IsMember uid gid.
Proof.
  destruct r as [aid gid|aid gid|uid gid|aid|aid| | | | | |]; cbn [serve]; unfold transact; [| |by exists uid, gid|..];
    match goal with |- context [match ?m s with _ => _ end] => destruct (m s) as [[] ?] end; discriminate.
Qed.

Lemma roomy_next fuel n s s' : 0 <= n -> roomy fuel (3 * (n + 1)) s -> eof s' <= eof s + 576 -> roomy fuel (3 * n) s'.
Proof. unfold roomy. lia. Qed.
Lemma roomy_first fuel n s : 0 <= n -> roomy fuel (3 * (n + 1)) s -> roomy fuel 3 s.
Proof. unfold roomy. lia. Qed.

Lemma run_keeps fuel cf l D s :
  models D s -> good False s -> roomy fuel (3 * Z.of_nat (length l)) s -> Forall wire l ->
  exists s', run fuel cf l s = ((a_run cf l D).1, s') /\ models (a_run cf l D).2 s' /\ good False s' /\ eof s <= eof s' <= eof s + 576 * Z.of_nat (length l).
Proof.
  revert D s. induction l as [|[cid r] l IH]; intros D s Hm Hg Hr Hw; [exists s; cbn; repeat split; try done; try lia; apply Hg|]. cbn [run a_run length] in *.
  rewrite Nat2Z.inj_succ in *. apply Forall_cons in Hw as [Hx Hw].
  pose proof (serve_calm fuel cf (cid, r) D s Hg Hm (roomy_first _ _ _ (Nat2Z.is_nonneg _) Hr) Hx) as (K1 & K2 & [[K3 K4]|[[] _]]).
  cbn [fst snd] in *. destruct (serve fuel cf cid r s) as [x s1], (a_serve cf cid r D) as [y D1]. cbn [fst snd] in *. subst y.
  destruct (IH D1 s1 K4 K1) as (s' & -> & Hm' & Hg' & He'); [apply (roomy_next _ _ s); [lia|done|lia]|done|].
  destruct (a_run cf l D1) as [ys D2]. exists s'. repeat split; try done; try lia; apply Hg'.
Qed.

(** [C3] The protection server keeps the abstract database.  Serving any sequence of
    requests from any callers (create a user, a group or a foreign user, with an id of
    the server's or of the caller's choice; set access bits and quotas; add to a group,
    remove from a group, ask for a membership, list members, get the CPS; look at an
    entry; see and set the highest ids), when ubik does not fail, gives exactly the
    replies of the abstract server, which knows only who there is and who is in which
    group, and leaves a database on disk that represents the abstract database after the
    requests: hash chains of ids and of names, chains of owners, membership lists on both
    sides. *)
Theorem groups_refine fuel cf l D s :
  models D s -> good False s -> roomy fuel (3 * Z.of_nat (length l)) s -> Forall wire l ->
  exists s', run fuel cf l s = ((a_run cf l D).1, s') /\ models (a_run cf l D).2 s'.
Proof. intros Hm Hg Hr Hw. destruct (run_keeps fuel cf l D s Hm Hg Hr Hw) as (s' & H1 & H2 & _). by exists s'. Qed.


(** *** Questions do not fail *)

Definition no_err {A} (m : M A) : Prop := forall s c s', m s <> (Err c, s').
Lemma no_err_ret {A} (a : A) : no_err (ret a).
Proof. by intros s c s'. Qed.
Lemma no_err_get {A} (f : ptdb -> A) : no_err (get f).
Proof. by intros s c s'. Qed.
Lemma no_err_dies {A} : no_err (@dies A).
Proof. by intros s c s'. Qed.
Lemma no_err_loops {A} : no_err (@loops A).
Proof. by intros s c s'. Qed.
Lemma no_err_try {A} (m : M A) : no_err (try m).
Proof. intros s c s'. unfold try. by destruct (m s) as [[]]. Qed.
Lemma no_err_bind {A B} (m : M A) (k : A -> M B) : no_err m -> (forall a, no_err (k a)) -> no_err (bind m k).
Proof. intros Hm Hk s c s'. unfold bind. destruct (m s) as [[a|c1| |] s1] eqn:E; [apply Hk|by destruct (Hm _ _ _ E)|done..]. Qed.
#[local] Ltac noerr := repeat (first [progress intros | apply no_err_bind | apply no_err_try | apply no_err_ret | apply no_err_get
  | apply no_err_dies | apply no_err_loops | match goal with |- no_err (match ?x with _ => _ end) => destruct x end]); auto.

Lemma no_err_IsAMemberOf fuel aid gid : no_err (IsAMemberOf fuel aid gid).
Proof.
  assert (Hid : forall n a entry, no_err (find_id_chain n a entry)) by (induction n; intros; cbn [find_id_chain]; noerr).
  assert (Hw : forall n loc, no_err (member_walk n loc aid)) by (induction n; intros; cbn [member_walk]; noerr).
  unfold IsAMemberOf, FindByID. noerr.
Qed.
Lemma no_err_AccessOK fuel cf cid e mem any : no_err (AccessOK fuel cf cid e mem any).
Proof. pose proof (no_err_IsAMemberOf fuel). unfold AccessOK, or_else. cbv zeta. noerr. Qed.

(** [C27] Access is decided by the rules.  [AccessOK] says yes exactly when the rules of
    access over the abstract database allow the caller what is asked: by the bits for
    everybody, as owner or member of the owning group, as the user himself or by the bits
    for members, as a viewer or as an administrator, less what restricted mode takes
    away.  When a read fails on the way it may say no instead, and never yes. *)
Theorem access_is_by_the_rules fuel cf D s cid e mem any :
  models D s -> (forall x, is_u8 (disk s x)) -> enough fuel s -> is_s32 (owner e) -> is_s32 (id e) -> cid <> PRBADID ->
  exists r s', AccessOK fuel cf cid (Some e) mem any s = (Ok r, s')
    /\ (r = true -> allowed cf D cid (id e) (person_of e) mem any = true)
    /\ (Forall (fun c => c = 0) (io s) -> r = allowed cf D cid (id e) (person_of e) mem any).
Proof.
  intros (E & K & F & [Hok Hsh _ _]) Hb Hf Ho Hi Hc.
  set (q := ~ Forall (fun c => c = 0) (io s)).
  assert (Hg : good q s) by (split; [destruct (decide (Forall (fun c => c = 0) (io s))); [by right|by left]|done]).
  pose proof (answers_AccessOK fuel q D E K F s Hok Hsh Hf cf cid e mem any s Hg (alike_refl _ _ Hg) Ho Hi Hc
    (fun r s' => alike q s s' /\ told q r (allowed cf D cid (id e) (person_of e) mem any)) (fun _ _ => False) ltac:(done)) as H.
  unfold wp in H. destruct (AccessOK fuel cf cid (Some e) mem any s) as [[r|c| |] s'] eqn:Er; [|by destruct (no_err_AccessOK _ _ _ _ _ _ s c s' Er)|done..].
  destruct H as [_ T]. exists r, s'. split; [done|]. destruct T as [->|[Hq ->]]; [done|]. split; [done|]. intros Hcalm. by destruct Hq.
Qed.

(** [C23] The CPS is exact.  The list that [getCPS] returns for a known id, to a caller
    who may see it, is sorted and has the groups the user is in, or the users of the
    group, system:anyuser, system:authuser unless the id is anonymous or of a foreign
    cell, and the id itself; nothing else. *)
Theorem cps_is_exact fuel cf D s cid aid x :
  models D s -> good False s -> roomy fuel 3 s -> is_s32 aid -> cid <> PRBADID ->
  people D !! aid = Some x -> allowed cf D cid aid x PRP_MEMBER_MEM PRP_MEMBER_ANY = true ->
  pr_noAuth cf || negb (restrict_anonymous cf) || negb (cid =? ANONYMOUSID) = true ->
  exists l s', getCPS fuel cf cid aid s = (Ok l, s') /\ Sorted Z.le l
    /\ forall g, g ∈ l <->
         (if is_group x then (g, aid) ∈ enrol D else (aid, g) ∈ enrol D) \/ g = ANYUSERID
         \/ g = AUTHUSERID /\ aid <> ANONYMOUSID /\ aid <> ANYUSERID /\ strchr 64 (p_name x) = false \/ g = aid.
Proof.
  intros (E & K & F & [Hok Hsh Hn Ho]) Hg Hr Ha Hc Hx Hal Hanon. assert (Hr2 : roomy fuel 2 s) by (unfold roomy in *; lia).
  pose proof (wp_getCPS fuel False cf D E K F s cid Hg Hok Hsh (conj Hn Ho) Hr2 Hc aid Ha) as H. unfold wp in H.
  assert (Ec : a_cps cf cid aid D = inr (merge_sort Z.le (roster D aid x ++ a_extras aid x))).
  { unfold a_cps. rewrite Hx, Hal. by replace (_ && _ && _) with false by (destruct (pr_noAuth cf), (restrict_anonymous cf), (cid =? ANONYMOUSID); done). }
  rewrite Ec in H. destruct (getCPS fuel cf cid aid s) as [[l|c| |] s']; [|by destruct H as [[[] _]|[_ ?]]|done..].
  destruct H as [[= <-] _]. eexists _, s'. split; [done|]. split; [apply (Sorted_merge_sort Z.le)|].
  intros g. rewrite merge_sort_Permutation, elem_of_app.
  assert (Hros : g ∈ roster D aid x <-> if is_group x then (g, aid) ∈ enrol D else (aid, g) ∈ enrol D).
  { unfold roster. destruct (is_group x); rewrite list_elem_of_fmap; split.
    - intros ([a b] & -> & [<- H]%list_elem_of_filter). by rewrite elem_of_elements in H.
    - intros H. exists (g, aid). split; [done|]. by rewrite list_elem_of_filter, elem_of_elements.
    - intros ([a b] & -> & [<- H]%list_elem_of_filter). by rewrite elem_of_elements in H.
    - intros H. exists (aid, g). split; [done|]. by rewrite list_elem_of_filter, elem_of_elements. }
  rewrite Hros. unfold a_extras. destruct (Z.eqb_spec aid ANONYMOUSID), (Z.eqb_spec aid ANYUSERID), (strchr 64 (p_name x)); cbn [negb andb app];
    rewrite ?elem_of_cons, elem_of_nil; intuition congruence.
Qed.

(** ** A small cell *)

Module Town.
Definition cf : config := mkConfig false false false PRP_STATUS_ANY (Z.lor PRP_STATUS_ANY (Z.lor PRP_MEMBER_ANY (Z.lor PRP_OWNED_ANY 0))).
Definition nothing : ptdb := mkPt (fun _ => 0) (fun _ => 0) 0 [].
Definition site : ptdb := (Initdb 1000 cf nothing).2.
Definition n_ann : list Z := [65; 110; 110].
Definition n_bob : list Z := [98; 111; 98].
Definition n_club : list Z := [97; 110; 110; 58; 99].
Definition n_cell : list Z := AUTHUSER_GROUP ++ [64; 120].
Definition n_guest : list Z := [103; 64; 120].
Definition settlers : list (Z * request) :=
  [(SYSADMINID, NewEntry None n_ann 0 0); (SYSADMINID, NewEntry None n_bob 0 0); (1, NewEntry None n_club PRGRP 0)].
Definition town : ptdb := (run 1000 cf settlers site).2.
Definition census : adb := (a_run cf settlers new_cell).2.
Definition bob : person := mkPerson PRQUOTA SYSADMINID SYSADMINID 20 20 0 n_bob.
Definition club : prentry := with_id (-206) (new_entry n_club 0 PRGRP 1).
Definition day : list (Z * request) :=
  [(1, AddToGroup 2 (-206)); (2, AddToGroup 1 (-206)); (2, GetCPS 2); (1, ListElements (-206)); (1, IsMember 2 (-206)); (1, AddToGroup 2 (-206));
   (1, RemoveFromGroup 2 (-206)); (1, IsMember 2 (-206))].
Definition evening : list reply :=
  [Done; Refused PRPERM; Ids [-206; -102; -101; 2]; Ids [2]; Answer true; Refused PRIDEXIST; Done; Answer false].
(** A guest from the cell x registers itself once there is a group for that cell. *)
Definition night : list (Z * request) :=
  [(ANONYMOUSID, NewEntry (Some n_guest) n_guest 0 0); (SYSADMINID, NewEntry None n_cell PRGRP 0); (ANONYMOUSID, NewEntry (Some n_guest) n_guest 0 0);
   (ANONYMOUSID, NewEntry (Some n_guest) n_guest 0 0); (130865, GetCPS 130865); (2, NewEntry None n_club PRGRP 0); (SYSADMINID, INewEntry n_bob 7 0);
   (SYSADMINID, SetFieldsEntry 2 PR_SF_NGROUPS 0 0 0); (2, NewEntry None [98; 111; 98; 58; 99] PRGRP 0); (1, ListEntry (-206)); (2, ListMax)].
Definition morning : list reply :=
  [Refused PRBADNAM; Made (-207); Made 130865; Refused PREXIST; Ids [-207; -101; 130865]; Refused PRBADNAM; Refused PREXIST; Done; Refused PRNOMORE;
   Entry (mkCheck 176 (-206) 1 1 0 0 0 n_club); Maxes (2, -207)].

Lemma site_facts : models new_cell site /\ good False site /\ sizeof_prheader <= eof site <= sizeof_prheader + 3456.
Proof.
  assert (Hg : good False nothing) by (split; [right; by apply Forall_nil|]; intros x; by unfold is_u8).
  exact (proj2 (Initdb_makes 1000 cf nothing Hg (fun k _ => eq_refl) ltac:(lia))).
Qed.
Lemma settlers_wire : Forall wire settlers.
Proof. unfold settlers. repeat (apply Forall_cons; split; [split; [done|]; split; [done|]; split; [done|by apply letters]|]). by apply Forall_nil. Qed.
Lemma town_facts : models census town /\ good False town /\ sizeof_prheader <= eof town <= sizeof_prheader + 5184.
Proof.
  destruct site_facts as (H1 & H2 & H3).
  destruct (run_keeps 1000 cf settlers new_cell site H1 H2) as (s' & Er & Hm & Hg & He); [unfold roomy, sizeof_prheader in *; cbn [length settlers]; lia|apply settlers_wire|].
  unfold town. rewrite Er. split; [exact Hm|]. split; [exact Hg|]. cbn [snd]. cbn [length settlers] in He. lia.
Qed.
Lemma town_roomy n : 0 <= n <= 900 -> roomy 1000 n town.
Proof. intros H. destruct town_facts as (_ & _ & He). unfold roomy, sizeof_prheader in *. lia. Qed.
Definition storm (s : ptdb) : ptdb := mkPt (disk s) (cheader s) 0 [0; 0; 0; 0; 0; 7].
Lemma storm_ready D s n : models D s -> good False s -> roomy 1000 n s ->
  models D (storm s) /\ (forall x, is_u8 (disk (storm s) x)) /\ roomy 1000 n (storm s).
Proof. intros Hm Hg Hr. split; [by apply (models_same D s)|]. split; [apply Hg|apply Hr]. Qed.
Lemma day_wire : Forall wire (day ++ night).
Proof.
  unfold day, night, wire. cbn [app].
  repeat (apply Forall_cons; split; [cbn [fst snd]; split; [done|]; split; [done|]; repeat (split; [done|]); first [done|by apply letters]|]). by apply Forall_nil.
Qed.
Lemma day_run : (a_run cf (day ++ night) census).1 = evening ++ morning.
Proof. vm_compute. reflexivity. Qed.
End Town.

(** A witness of C3: a day and a night in a small cell. *)
Lemma groups_refine_witness : exists s', run 1000 Town.cf (Town.day ++ Town.night) Town.town = (Town.evening ++ Town.morning, s')
  /\ models (a_run Town.cf (Town.day ++ Town.night) Town.census).2 s'.
Proof.
  rewrite <- Town.day_run. destruct Town.town_facts as (H1 & H2 & _).
  exact (groups_refine 1000 Town.cf (Town.day ++ Town.night) Town.census Town.town H1 H2 (Town.town_roomy 57 ltac:(lia)) Town.day_wire).
Defined.


(** A witness of C27: the owner may add to the group, another user may not. *)
Lemma access_is_by_the_rules_witness :
  allowed Town.cf Town.census 1 (-206) (person_of Town.club) PRP_ADD_MEM PRP_ADD_ANY = true
  /\ exists r s', AccessOK 1000 Town.cf 2 (Some Town.club) PRP_ADD_MEM PRP_ADD_ANY Town.town = (Ok r, s')
    /\ (r = true -> allowed Town.cf Town.census 2 (-206) (person_of Town.club) PRP_ADD_MEM PRP_ADD_ANY = true)
    /\ (Forall (fun c => c = 0) (io Town.town) -> r = allowed Town.cf Town.census 2 (-206) (person_of Town.club) PRP_ADD_MEM PRP_ADD_ANY).
Proof.
  split; [vm_compute; reflexivity|].
  exact (access_is_by_the_rules 1000 Town.cf Town.census Town.town 2 Town.club PRP_ADD_MEM PRP_ADD_ANY (proj1 Town.town_facts)
    (gd_bytes _ _ (proj1 (proj2 Town.town_facts))) ltac:(pose proof (Town.town_roomy 0 ltac:(lia)) as H; unfold roomy, enough in *; lia)
    ltac:(done) ltac:(done) ltac:(done)).
Defined.

(** A witness of C23. *)
Lemma cps_is_exact_witness :
  exists l s', getCPS 1000 Town.cf 2 2 Town.town = (Ok l, s') /\ Sorted Z.le l
    /\ forall g, g ∈ l <->
         (if is_group Town.bob then (g, 2) ∈ enrol Town.census else (2, g) ∈ enrol Town.census) \/ g = ANYUSERID
         \/ g = AUTHUSERID /\ 2 <> ANONYMOUSID /\ 2 <> ANYUSERID /\ strchr 64 (p_name Town.bob) = false \/ g = 2.
Proof.
  exact (cps_is_exact 1000 Town.cf Town.census Town.town 2 2 Town.bob (proj1 Town.town_facts) (proj1 (proj2 Town.town_facts))
    (Town.town_roomy 3 ltac:(lia)) ltac:(done) ltac:(done) ltac:(vm_compute; reflexivity) ltac:(vm_compute; reflexivity) ltac:(vm_compute; reflexivity)).
Defined.
