(* ===== verification/PtFound.v ===== *)
(** * The protection database: new entries are found

    What is created has an id and a name that were free, is found by both afterwards, and
    nobody else is lost or renamed. *)

From stdpp Require Import prelude list gmap sorting.
From Stdlib Require Import ZArith Lia ZifyBool.
From S2P Require Import Prelude ByteMem Pt PtBlock PtOk PtList PtStep PtFrame PtNames PtAdd PtRead PtSpec PtServe PtEntry PtEnter PtNewSpec PtNew PtCreate PtMake PtRegister PtInit PtGroups.

#[local] Open Scope Z_scope.
#[local] Open Scope pt_scope.

(** ** In the abstract database *)

(** [aid] is new and has the name; the others are there as before. *)
Record added (D : adb) (nm : list Z) (aid : Z) (D' : adb) : Prop := {
  ad_free : people D !! aid = None;
  ad_good : bad_id aid = false;
  ad_here : exists x, people D' !! aid = Some x /\ p_name x = cstr nm;
  ad_others : forall i x, people D !! i = Some x -> exists x', people D' !! i = Some x' /\ p_name x' = p_name x
}.

(** Everybody is still there under the old name. *)
Definition keeps_names (D D' : adb) : Prop :=
  (forall j, people D !! j = None -> people D' !! j = None)
  /\ forall i x, people D !! i = Some x -> exists x', people D' !! i = Some x' /\ p_name x' = p_name x.
Lemma keeps_refl D : keeps_names D D.
Proof. split; [done|]. intros i x Hx. by exists x. Qed.
Lemma keeps_put D i x x' : people D !! i = Some x -> p_name x' = p_name x -> keeps_names D (put i x' D).
Proof.
  intros Hx En. split; cbn [people put].
  - intros j Hj. apply lookup_insert_None. split; [done|]. congruence.
  - intros j y Hy. destruct (decide (j = i)) as [->|Hne].
    + exists x'. rewrite lookup_insert_eq. split; [done|]. congruence.
    + exists y. by rewrite lookup_insert_ne by done.
Qed.
Lemma keeps_charge cf D creator D' : a_charge cf D creator = inr D' -> keeps_names D D'.
Proof.
  unfold a_charge. destruct (people D !! creator) as [x|] eqn:Ex; [|intros [= <-]; apply keeps_refl].
  assert (Hq : p_name (p_quota 20 (fun _ => 20) x) = p_name x) by (unfold p_quota; by destruct (has _ _)). cbv zeta.
  destruct (member _ _ _); [|destruct (_ =? 0); [destruct (pr_noAuth cf)|]]; intros [= <-]; by apply (keeps_put _ _ x).
Qed.

Lemma added_put D D1 nm aid x D' :
  keeps_names D D1 -> people D !! aid = None -> bad_id aid = false -> p_name x = cstr nm -> people D' = <[aid := x]> (people D1) -> added D nm aid D'.
Proof.
  intros [_ K2] H1 H2 H3 E. split; [done|done| |]; rewrite E.
  - exists x. by rewrite lookup_insert_eq.
  - intros i y Hy. rewrite lookup_insert_ne by congruence. by apply K2.
Qed.

Lemma a_create_local_adds cf D D0 nm (group : bool) oid creator aid i D' :
  keeps_names D0 D -> people D0 !! aid = None -> a_create_local cf D nm group oid creator aid = inr (i, D') -> i = aid /\ added D0 nm aid D'.
Proof.
  intros HK Hf. unfold a_create_local. cbv zeta. set (D1 := if group then with_maxes _ _ D else _).
  assert (K1 : keeps_names D0 D1) by (subst D1; by destruct group). clearbody D1.
  assert (Hc : forall D2, (if group then a_charge cf D1 creator else inr D1) = inr D2 -> keeps_names D0 D2).
  { intros D2. destruct group; [|by intros [= <-]]. intros [C1 C2]%keeps_charge. destruct K1 as [K1 K2]. split; [auto|].
    intros j x Hx. destruct (K2 j x Hx) as (x1 & H1 & E1). destruct (C2 j x1 H1) as (x2 & H2 & E2). exists x2. split; [done|congruence]. }
  destruct (if group then a_charge cf D1 creator else inr D1) as [c|D2]; [done|]. specialize (Hc D2 eq_refl).
  destruct (bad_id aid) eqn:Hb; [done|]. destruct (_ && _); [done|]. intros [= <- <-]. split; [done|].
  apply (added_put D0 D2 nm aid (if group then mkPerson PRGRP oid (made_by creator aid) 0 0 0 (cstr nm) else mkPerson PRQUOTA SYSADMINID (made_by creator aid) 20 20 0 (cstr nm)));
    [done|done|done|by destruct group|done].
Qed.

Lemma named_known D nm i x : named D nm = Some (i, x) -> people D !! i = Some x.
Proof.
  unfold named. destruct (filter _ _) as [|ix l] eqn:Ef; [done|]. cbn. intros [= ->]. assert (Hin : (i, x) ∈ (i, x) :: l) by left. rewrite <- Ef in Hin.
  by apply list_elem_of_filter in Hin as [_ H%elem_of_map_to_list].
Qed.
Lemma a_foreign_free D g nu idflag aid n : (forall a, idflag = Some a -> people D !! a = None) -> a_foreign_id D g nu idflag = inr (aid, n) -> people D !! aid = None.
Proof.
  intros Hid. unfold a_foreign_id. cbv zeta. destruct idflag as [a|].
  - destruct (negb _); [done|]. intros [= <- _]. by apply Hid.
  - destruct (a_next_foreign _ _ _ _) as [i|] eqn:Ei; [|done]. destruct (_ =? 0); [done|]. intros [= <- _]. by apply (a_next_foreign_unknown _ _ _ _ _ Ei).
Qed.
Lemma a_create_foreign_adds cf D nm idflag creator i D' :
  (forall a, idflag = Some a -> people D !! a = None) -> a_create_foreign cf D nm idflag creator = inr (i, D') -> added D nm i D'.
Proof.
  intros Hid. unfold a_create_foreign. destruct (named D _) as [[gid g]|] eqn:En; [|done]. apply named_known in En.
  destruct (a_foreign_id D gid (p_nusers g) idflag) as [c|[aid nu]] eqn:Ea; [done|]. pose proof (a_foreign_free _ _ _ _ _ _ Hid Ea) as Hf. cbv zeta.
  destruct (_ && _); [done|]. destruct (bad_id aid) eqn:Hb; [done|]. intros [= <- <-].
  set (g' := p_with_ngroups _ _). apply (added_put D (put gid g' D) nm aid (mkPerson 0 SYSADMINID (made_by creator aid) 0 0 gid (cstr nm))); [|done|done|done|done]. apply (keeps_put _ _ g); [done|].
  unfold g', p_with_ngroups, p_quota. cbn. by destruct (has _ _).
Qed.

Lemma a_create_adds cf D nm idflag flag oid creator aid D' :
  (forall a, idflag = Some a -> people D !! a = None) -> a_create cf D nm idflag flag oid creator = inr (aid, D') -> named D nm = None /\ added D nm aid D'.
Proof.
  intros Hid. unfold a_create. cbv zeta. destruct ((_ || _) && _ && _); [done|]. destruct (a_name_ok _ _ _ _ _ _); [done|].
  destruct (named D nm) as [ix|] eqn:En; [by rewrite bool_decide_true|]. rewrite bool_decide_false by (intros [? ?]; done).
  destruct (negb _ && _); [done|]. destruct (strchr atsign nm && negb (has flag PRGRP)).
  { intros H. split; [done|]. by apply (a_create_foreign_adds cf D nm idflag creator). }
  destruct (_ && _); [done|]. destruct idflag as [a|].
  - intros H. destruct (a_create_local_adds cf D D nm (has flag PRGRP) _ creator a aid D' (keeps_refl D) (Hid a eq_refl) H) as [-> ?]. done.
  - destruct (a_alloc (has flag PRGRP) D) as [[a D1]|] eqn:Ea; [|done]. intros H. unfold a_alloc in Ea.
    assert (Ha : people D !! a = None /\ people D1 = people D).
    { destruct (has flag PRGRP); destruct (a_free _ _ _ _ _) as [k|] eqn:Ef; try discriminate Ea; cbn in Ea; injection Ea as <- <-; split; try done; by apply (a_free_unknown _ _ _ _ _ _ Ef). }
    destruct Ha as [Ha E1]. assert (HK : keeps_names D D1) by (unfold keeps_names; rewrite E1; apply keeps_refl).
    destruct (a_create_local_adds cf D1 D nm (has flag PRGRP) _ creator a aid D' HK Ha H) as [-> ?]. done.
Qed.

(** ** On disk *)

Lemma wp_result {A} (m : M A) s (P : A -> Prop) : wp False m (fun a _ => P a) (fun _ _ => False) s -> exists a s', m s = (Ok a, s') /\ P a.
Proof. unfold wp. destruct (m s) as [[a|c| |] s']; [|by intros [[[] _]|[]]|done..]. intros H. by exists a, s'. Qed.

Lemma name_found fuel D E K F s nm i x :
  calm fuel D E K F s -> people D !! i = Some x -> p_name x = cstr nm -> exists s', NameToID fuel nm s = (Ok i, s').
Proof.
  intros C Hx En. destruct (wp_result (NameToID fuel nm) s (fun a => a = i)) as (a & s' & H & ->); [|by exists s'].
  unfold NameToID. apply pt_bind, (wp_find_name fuel D E K F); [done| |].
  - intros Hn s1 A1. by destruct (proj1 (named_iff D nm) Hn i x Hx).
  - intros p s1 A1 Hp Hn. apply pt_ret. pose proof (calm_alike fuel D E K F s s1 C A1) as C1. pose proof (cm_reps _ _ _ _ _ _ C1) as R.
    destruct (proj1 (sh_people _ _ _ _ (rp_shows _ _ _ _ _ R) i x) Hx) as (p' & Hp' & Ei & Ex). rewrite <- Ex in En. cbn in En.
    rewrite (named_some D E K F s1 nm p' R Hp' En) in Hn. injection Hn as H1 _. congruence.
Qed.
Lemma id_found fuel D E K F s i x :
  calm fuel D E K F s -> people D !! i = Some x -> is_s32 i -> exists n s', IDToName fuel i s = (Ok n, s') /\ cstr n = p_name x.
Proof.
  intros C Hx Hi. apply wp_result. unfold IDToName. apply pt_bind, (wp_find fuel D E K F); [done|done|by rewrite Hx|].
  intros p s1 A1 Hp Hp0 Ei Ep. rewrite (proj2 (Z.eqb_neq p 0) Hp0). apply pt_bind, wp_ReadEntry; [apply A1|]. intros s2 A2. apply pt_ret.
  rewrite Hx in Ep. by injection Ep as ->.
Qed.
Lemma known_s32 D E K F s i x : reps D E K F s -> good False s -> people D !! i = Some x -> is_s32 i.
Proof. intros R Hg Hx. apply (sh_people _ _ _ _ (rp_shows _ _ _ _ _ R)) in Hx as (p & _ & <- & _). apply fields_s32, (ent_ok False), Hg. Qed.



(** ** A read that fails *)

(** A database with one user, Bob, whose id is 2; the next call of ubik fails. *)
Module Twins.
Definition bob : prentry := with_id 2 (new_entry Town.n_bob 0 0 SYSADMINID).
Definition head (k : Z) : Z :=
  if k =? w_eofPtr then sizeof_prheader + 192
  else if (k =? w_idHash 2) || (k =? w_nameHash (NameHash Town.n_bob)) then sizeof_prheader
  else if k =? w_maxID then 2 else 0.
Definition hamlet (l : list Z) : ptdb := mkPt (upd (fun _ => 0) sizeof_prheader (entry_layout bob)) head 0 l.
End Twins.

(** [FindByName] takes a failed read for an absent name, so that a second entry of the
    same name is made, and the name leads to the new entry from then on. *)
Theorem failed_read_makes_twins :
  (newEntry 5 Town.cf SYSADMINID None Town.n_bob 0 0 (Twins.hamlet [])).1 = Err PREXIST
  /\ (newEntry 5 Town.cf SYSADMINID None Town.n_bob 0 0 (Twins.hamlet [7])).1 = Ok 3
  /\ (NameToID 5 Town.n_bob (newEntry 5 Town.cf SYSADMINID None Town.n_bob 0 0 (Twins.hamlet [7])).2).1 = Ok 3
  /\ (NameToID 5 Town.n_bob (Twins.hamlet [])).1 = Ok 2.
Proof. vm_compute. auto. Qed.
